(* ===== verification/_CoqProject ===== *)
-Q . S2P
Prelude.v
GoText.v
GoTime.v
GoStamp.v
GoFloat.v
GoDuration.v
Json.v
StrictJson.v
JsonMarshal.v
JsonLine.v
Frame.v
Contract.v
Control.v
ControlCodec.v
ControlSize.v
ContractV2.v
Metadata.v
ConnectorAuth.v
LiveMeta.v
GwLimits.v
StatusExporter.v
Window.v
Budget.v
Health.v
Admission.v
GwStream.v
Wire.v
HandshakeCodec.v
SessTable.v
GwSession.v
SessAuth.v
Registry.v
Handshake.v
AgentDoor.v
HttpBody.v
GoNet.v
HttpHeaders.v
Ingress.v
GwServe.v
PublicPorts.v
PublicUdp.v
ConnectorFlow.v
AgentLimits.v
AgentTarget.v
AgentStream.v
AgentConfig.v
Program.v
StateFs.v
StateTxn.v
StateOps.v
ConfigLock.v
Unpair.v
PairingFiles.v
TrustAnchor.v
Enrollment.v
PairingUi.v
Delegation.v
AgentCli.v
ServiceLog.v
WinService.v
SetupChoices.v
SetupState.v
Setup.v
Uninstall.v
ConnectorConfig.v
ConnectorServe.v
ConnectApp.v
BundleStore.v
Entrances.v
ConnectorEnd.v
GwProcess.v
GwClosing.v
AgentSession.v
AgentServe.v
AgentHandshake.v
TunnelHandshake.v
AgentRunner.v
Supervisor.v
