(* ===== verification/Prelude.v ===== *)
(** * HooshiXAgent: a verification library

    HooshiXAgent exposes services of a machine behind NAT through a public
    Gateway.  An Agent on the machine dials the Gateway, proves with its
    device key that it is the device an external Control Panel has authorized,
    and keeps one WebSocket connection, a _session_, over which frames carry
    many _streams_.  The Gateway turns public HTTP requests, public TCP
    connections, public UDP datagrams and private Connectors (a client program
    with a grant) into streams; the Agent connects each of them to a local
    target the operator has approved.  The Gateway reads its authority from
    files the Control Panel publishes; the Agent keeps its settings and secrets
    in a state directory that several processes change.

    The library translates the Go packages under [src/internal] into executable
    definitions, file by file and with the names of the source, and proves what
    makes each part correct.

    ** How the code is modelled

    - A Go [string] is a Stdlib [string], a [[]byte] a [list byte], an integer
      a [Z] with its wrap-around or its bounds written out, a [float64] the
      binary64 of the Standard Library, a [time.Time] or [time.Duration] its
      number of nanoseconds, a Go map a [gmap] (or an association list where
      the order is visible), an error a value of {!Prelude.error}: a sentinel,
      a text or a text wrapped around an error.  The text of an error drops the
      values that the code formats into it, except where they are looked at.
    - Code that takes decisions is a function; code that shares state between
      goroutines or processes is a step relation whose steps are the operations
      that the code makes atomic (a critical section, a channel operation, a
      compare-and-swap, a system call), in any order.  Where an operation is
      split by the code, so is the step.
    - What the program calls but does not contain answers as an argument:
      SHA-256 and Ed25519, entropy, the clock, the WebSocket library, sockets
      and listeners, the file system's answers, [url.Parse], the serialization
      of HTTP by [net/http].  Laws about them (a signature verifies under its
      own key, say) are named hypotheses of the theorems that need them, and
      the witnesses instantiate them.
    - The parts of Go's standard library on which the code's decisions rest
      (JSON, UTF-8, base64, numbers, times, durations, IP addresses, header
      names) are modelled, not assumed: GoText, GoTime, GoFloat, GoDuration,
      Json, GoNet.
    - Timers appear as the events they cause; logging, metrics and log
      throttling are left out.

    ** The files

    _Foundations._  Prelude (bytes, results, errors, automation), GoText,
    GoTime, GoStamp, GoFloat, GoDuration (the standard library), Json and
    StrictJson ([contractv1/strict_json.go]), JsonMarshal and JsonLine (what is
    marshalled reads back); Program (programs that ask for operations which may
    fail, and may die after any of them, with a logic for what holds at every
    moment).

    _The wire and the contract._  Frame ([contractv1/frame.go]); Contract
    (records of the Control Panel), Control, ControlCodec and ControlSize (the
    control messages: validation, round trip, size), all [validation.go] and
    [negotiation.go]; ContractV2 ([contractv2/]).

    _The Gateway's authority._  Metadata ([gateway/metadata.go]), LiveMeta
    ([live_metadata.go], [metadata_file_unix.go]), ConnectorAuth
    ([connector_authorization.go]).  Both metadata sources are instances of the
    interface that the handshake, the running session and the Connectors are
    proved against (SessAuth, ConnectorAuth).

    _The Gateway's resources._  GwLimits ([config.go]), Budget and Admission
    ([gatewayresources/]), Window ([tunnelwindow/]), StatusExporter
    ([status_exporter.go]).

    _The Gateway's sessions._  GwStream (one stream's queue), SessTable (the
    table of streams and the budgets they share), GwSession (a whole session),
    SessAuth (its authority while it runs), all [gateway/session.go]; Registry,
    Handshake, AgentDoor (which sessions there are and how one begins:
    [gateway/gateway.go]).

    _Traffic into the Gateway._  HttpBody, HttpHeaders, Ingress ([gateway.go]);
    GwServe, PublicPorts, PublicUdp ([public_tcp.go], [public_udp.go]);
    ConnectorFlow, ConnectorEnd ([gateway/connector.go]); Entrances (the budgets
    all four kinds share); GwProcess ([cmd/gateway/main.go]: what is checked
    before the Gateway starts, what an operator sees of it, how it stops) and
    GwClosing ([Close] step by step among the handlers that go on).

    _The Connector._  ConnectorConfig, ConnectorServe ([internal/connector/]),
    ConnectApp and BundleStore ([connectgui/]: the state behind the desktop
    application, its saved invitation).

    _The Agent._  AgentLimits, AgentTarget, AgentConfig (settings and what may
    be dialed); AgentStream, AgentSession, AgentServe ([agent/session.go],
    [udp_stream.go]); AgentHandshake, AgentRunner ([runtime.go]); Supervisor
    ([supervisor/supervisor.go]).

    _The Agent's state directory._  StateFs (its file operations, as a machine
    of Program), StateTxn ([state_transaction.go]),
    StateOps ([secrets.go], [config.go] and the mutations), ConfigLock
    ([config_lock.go]).

    _Pairing and enrollment._  Unpair ([unpair.go], [tokencopy.go]), PairingFiles
    ([pairing_capability.go], [pairing_endpoint.go]), TrustAnchor (the CA files
    an operator names), Enrollment ([enrollment/client.go]), PairingUi ([webapp/]:
    the local page, its guards, its handlers and the enrollment it drives),
    Delegation ([unpair_service.go], [enrollment_service.go]: how other programs
    ask the service to do it).

    _The Agent's process._  AgentCli ([agent/cli.go]: flags, commands, exit
    codes); WinService ([svc/svc.go], [cmd/agent/main.go]: the Windows service)
    and ServiceLog (its log, bounded by rotation).

    _The installer._  SetupChoices (the addresses asked for, the digests of the
    payload), Setup (replacing the installed programs), SetupState (moving the
    settings beside the program), all [cmd/hooshix-setup/setup.go]; Uninstall
    ([uninstall.go]).

    _Both ends._  Wire (what either end writes), HandshakeCodec and
    TunnelHandshake (the two handshakes over one connection).

    ** How the parts meet

    A connection passes AgentDoor and Handshake, which leave a session in
    Registry; its record there is what Ingress, Entrances and the public ports
    pick a session by.  The frames of a session are those of Frame, its control
    messages those of Control; each of its streams is a GwStream in the store of
    SessTable, and GwSession's steps are the operations on it.  The Agent's
    AgentSession is the same construction over AgentStream.  TunnelHandshake
    runs Handshake against AgentHandshake; ConnectorFlow runs the Connector's
    copy loops against the Gateway's, and ConnectApp puts the application
    together with the servers of ConnectorServe that report to it.  GwClosing
    interleaves the operations of GwSession and Registry with the steps of
    [Close].  The mutations of StateOps are programs of StateFs that run under
    StateTxn's journal, and ConfigLock keeps two of them apart; where the
    settings are, they read anew from the pointer file each time, as
    [ConfigPath] does.  PairingUi's handlers are such programs too, with Enrollment as the
    exchange they start, and Delegation's clients talk to PairingUi.  Setup and
    Uninstall are programs of machines of their own; the files that SetupState
    moves are those of StateFs, the answers that Setup waits for are those of
    WinService, the marker that Uninstall looks for is the one
    PairingFiles writes.

    ** What the theorems show

    - _Authority_: nothing is carried, opened or served except on a published
      record that holds at that moment (a session, a resume, a public request,
      a Connector, a public port, the running session; snapshots answer exactly
      by their documents and the live source never past its time), and the
      Agent opens streams to approved loopback targets only.
    - _Accounting_: budgets, slots, credits and admissions are exact and bounded
      in every interleaving, on both ends and across the four kinds of traffic.
    - _Integrity_: what is written decodes and is accepted in order by the other
      end; bytes of a stream come out in order, and an end that is reported is
      the end; a bad frame costs its own stream at most.
    - _State on disk_: mutations of settings and secrets are all or nothing under
      crashes, recoveries are decided, at most one runs at a time.
    - _The local page_: nothing on the page happens without the guards of its
      route, an approved enrollment is claimed once, a capability leaves a client
      only towards the listener that answered its challenge, and what an
      enrollment server answers is bounded before any of it is used.
    - _The command line and the service_: a command line leaves the state as it
      was or as the line means it, with an exit code that says which, and only
      six command lines touch it at all; a reported installation, removal or
      restart of the service was one; the log keeps what is newest, within its
      bound.
    - _The installer_: at every moment of an installation, whatever else fails
      and wherever it dies, each of the Agent's programs that was there is in place
      or set aside, or all that are in place have the digests of the manifest; an
      uninstallation leaves directories alone that are not the Agent's.
    - _Liveness and errors_: two honest ends connect; transient failures are
      retried within bounds; a supervisor gives up for stated reasons only and
      publishes which; a Gateway that closes comes to the end of it, with nothing
      left open that it had.
    - _Codecs_: frames, control messages and JSON walks are exactly the formats.

    Where the code does not do what it or its documentation says, a lemma shows
    the behaviour on a concrete run (the findings of the manifest name them).

    ** Fuel and bounds

    Recursion that follows the input's length is given that length: the lexer of
    Json takes one unit per byte, its value parser twice the tokens plus two,
    and lemmas prove that more changes nothing; each group of an IPv6 address is
    at least a byte.  [ensureStateMarker] retries once, which is what losing the
    race to create the marker asks for.  The installer's retries have the counts
    that the code's deadlines and pauses amount to when an attempt takes no time:
    40 renames or removals (10 s by 250 ms), 60 polls of the service; likewise
    WinService's 50 polls for a removal, 100 for a stop and 150 in a restart.
    The theorems hold for every outcome of the attempts.  Loops whose end the
    environment decides (copy loops, read loops, reconnects) take the list of
    what the environment answers; theorems hold for every list, and the ones
    that claim an end say which answers bring it.  Compare-and-swap loops and
    waits are steps, so no fuel bounds them.

    ** Idealisations

    Session operations are atomic although the code may block inside one for the
    frame writer: the writer serves one request at a time and its answer is part
    of the step.  Ids handed out by the runtime (goroutines, contexts) are not
    reused.  File operations that returned are durable; in
    ConfigLock a process that died stays dead under its identifier, and the
    wall clock does not go back.  The reconnect counter that AgentRunner
    keeps per worker is shared between the workers of a device in the code.
    In Setup only the move of a staged file can put other bytes in place than
    the digests were taken of; the access rights, the tray's task, the registry
    and the enrollment are steps that succeed or fail.  The theorems about the
    settings (StateTxn, StateOps, AgentCli, PairingUi) are about runs in which a
    pointer file that is there can be read, those of Setup about runs in which
    [os.Stat] finds the programs that are there ([sighted]); what happens
    otherwise, lemmas show on concrete runs.
    Progress timers ([responsePhase], [progressReader]) only move deadlines and
    are left out of the copy loops.

    ** Not modelled

    Of the Gateway's process the parsing of flags, the text of its figures,
    TLS and the HTTP servers' timeouts. Of the Agent's process the text of
    what it prints and of the native service definition ([service.go]), the
    access control lists of the service and the start of its parts. The
    windows of the desktop applications ([tray/] but for
    [pairingLaunchPlan], [hooshix-connect]): calls into the operating
    system. Of the installer, the access rights it sets, the tray's task,
    the registry, the prompt for an enrollment and how the uninstaller
    starts its worker. The Windows variants of the file
    helpers. TLS setup and certificate bundles, the redaction of messages by
    regular expressions.
*)

From stdpp Require Export base option list gmap strings.
From Stdlib Require Export ZArith Lia.
From Stdlib.Strings Require Export Byte.

#[global] Open Scope Z_scope.
#[global] Set Default Proof Using "Type".

Declare Scope go_scope.
Delimit Scope go_scope with go.

(** ** Bytes and strings

    A Go [[]byte] is a [list byte]; a Go [string] is a Stdlib [string], which
    is the same sequence of 8-bit units.  The two views are inverse. *)

Abbreviation bytes := (list Byte.byte).

Abbreviation bytes_of := String.list_byte_of_string.
Abbreviation string_of := String.string_of_list_byte.

(** [bz] reads a byte as the integer 0..255; [zb] is Go's [byte(z)]. *)
Definition bz (b : Byte.byte) : Z := Z.of_N (Byte.to_N b).

Definition zb (z : Z) : Byte.byte :=
  match Byte.of_N (Z.to_N (z mod 256)) with
  | Some b => b
  | None => Byte.x00
  end.

Arguments bz : simpl never.
Arguments zb : simpl never.

(** [len(x)] of a byte slice and of a string, as an [int]. *)
Definition zlen (bs : bytes) : Z := Z.of_nat (length bs).
Definition slen (s : string) : Z := Z.of_nat (String.length s).

Lemma bz_range b : 0 <= bz b < 256.
Proof.
  unfold bz. pose proof (Byte.to_N_bounded b). lia.
Qed.

Lemma bz_inj a b : bz a = bz b -> a = b.
Proof.
  unfold bz. intros H. apply N2Z.inj in H.
  pose proof (Byte.of_to_N a). pose proof (Byte.of_to_N b). congruence.
Qed.

Lemma bz_zb z : bz (zb z) = z mod 256.
Proof.
  unfold zb. pose proof (Z.mod_pos_bound z 256 ltac:(lia)) as Hz.
  destruct (Byte.of_N (Z.to_N (z mod 256))) as [b|] eqn:E.
  - unfold bz. apply Byte.to_of_N in E. rewrite E. lia.
  - apply Byte.of_N_None_iff in E. lia.
Qed.

Lemma bz_zb_small z : 0 <= z < 256 -> bz (zb z) = z.
Proof. intros. rewrite bz_zb. apply Z.mod_small. lia. Qed.

Lemma zb_bz b : zb (bz b) = b.
Proof.
  apply bz_inj. rewrite bz_zb. apply Z.mod_small, bz_range.
Qed.

Lemma byte_eqb_eq a b : Byte.eqb a b = true <-> a = b.
Proof.
  split.
  - apply Byte.byte_dec_bl.
  - intros ->. by apply Byte.byte_dec_lb.
Qed.

Lemma byte_eqb_sym a b : Byte.eqb a b = Byte.eqb b a.
Proof. apply eq_true_iff_eq. rewrite !byte_eqb_eq. by split. Qed.

Lemma byte_eqb_refl a : Byte.eqb a a = true.
Proof. by apply byte_eqb_eq. Qed.

#[export] Instance byte_eq_dec : EqDecision Byte.byte := Byte.byte_eq_dec.

Lemma zlen_nonneg bs : 0 <= zlen bs.
Proof. unfold zlen; lia. Qed.

Lemma zlen_app xs ys : zlen (xs ++ ys) = zlen xs + zlen ys.
Proof. unfold zlen. rewrite length_app. lia. Qed.

Lemma zlen_cons b bs : zlen (b :: bs) = 1 + zlen bs.
Proof. unfold zlen. simpl. lia. Qed.

Lemma zlen_nil : zlen [] = 0.
Proof. done. Qed.

Lemma zlen_0 bs : zlen bs = 0 -> bs = [].
Proof. unfold zlen. destruct bs; simpl; [done | lia]. Qed.

Lemma string_of_bytes_of s : string_of (bytes_of s) = s.
Proof. apply String.string_of_list_byte_of_string. Qed.

Lemma bytes_of_string_of bs : bytes_of (string_of bs) = bs.
Proof. apply String.list_byte_of_string_of_list_byte. Qed.

Lemma bytes_of_inj s t : bytes_of s = bytes_of t -> s = t.
Proof. intros H. rewrite <- (string_of_bytes_of s), H. apply string_of_bytes_of. Qed.

Lemma slen_bytes s : slen s = zlen (bytes_of s).
Proof.
  unfold slen, zlen. f_equal. induction s; [done |].
  cbn -[Ascii.byte_of_ascii]. f_equal. done.
Qed.

Lemma bytes_of_cons a s :
  bytes_of (String a s) = Ascii.byte_of_ascii a :: bytes_of s.
Proof. reflexivity. Qed.

Lemma bytes_of_app s t : bytes_of (s +:+ t) = bytes_of s ++ bytes_of t.
Proof.
  induction s as [|a s IH]; [done |].
  change (String a s +:+ t) with (String a (s +:+ t)).
  by rewrite !bytes_of_cons, IH.
Qed.

(** ** Machine integers

    Go's [uint8], [uint32], [uint64] and [int64] with their wrap-around. *)

Definition u8 (z : Z) : Z := z mod 2 ^ 8.
Definition u32 (z : Z) : Z := z mod 2 ^ 32.
Definition u64 (z : Z) : Z := z mod 2 ^ 64.
Definition i64 (z : Z) : Z := (z + 2 ^ 63) mod 2 ^ 64 - 2 ^ 63.

Definition MaxInt64 : Z := 2 ^ 63 - 1.
Definition MaxUint64 : Z := 2 ^ 64 - 1.

Definition is_i64 (z : Z) : Prop := - 2 ^ 63 <= z < 2 ^ 63.
Definition is_u64 (z : Z) : Prop := 0 <= z < 2 ^ 64.
Definition is_u32 (z : Z) : Prop := 0 <= z < 2 ^ 32.

Lemma i64_id z : is_i64 z -> i64 z = z.
Proof. unfold is_i64, i64. intros. rewrite Z.mod_small; lia. Qed.

Lemma i64_is z : is_i64 (i64 z).
Proof.
  unfold is_i64, i64. pose proof (Z.mod_pos_bound (z + 2 ^ 63) (2 ^ 64) ltac:(lia)). lia.
Qed.

Lemma u64_id z : is_u64 z -> u64 z = z.
Proof. unfold is_u64, u64. apply Z.mod_small. Qed.

Lemma u32_id z : is_u32 z -> u32 z = z.
Proof. unfold is_u32, u32. apply Z.mod_small. Qed.

Lemma u32_is z : is_u32 (u32 z).
Proof. apply Z.mod_pos_bound; lia. Qed.

Lemma u64_is z : is_u64 (u64 z).
Proof. apply Z.mod_pos_bound; lia. Qed.

(** ** Errors

    A non-nil Go [error].  [ErrMsg] is [errors.New] or [fmt.Errorf] without
    [%w]; [ErrSentinel] a package-level error value, compared by identity;
    [ErrWrap] and [ErrWrap2] are [fmt.Errorf] with one and two [%w] verbs;
    [ErrFrame] is [*contractv1.FrameError] and [ErrClose] is
    [*gateway.protocolCloseError], the two error types the code looks for
    with [errors.As]. *)

Inductive error : Type :=
| ErrMsg (text : string)
| ErrSentinel (name : string)
| ErrWrap (text : string) (inner : error)
| ErrWrap2 (text : string) (left right : error)
| ErrFrame (inner : error)
| ErrClose (code : Z) (reason : string) (inner : error).

#[export] Instance error_eq_dec : EqDecision error.
Proof. solve_decision. Defined.

(** [errors.Is(err, sentinel)]: the sentinel is somewhere on the wrap tree. *)
Fixpoint errors_is (e target : error) : bool :=
  bool_decide (e = target) ||
  match e with
  | ErrMsg _ | ErrSentinel _ => false
  | ErrWrap _ i | ErrFrame i | ErrClose _ _ i => errors_is i target
  | ErrWrap2 _ l r => errors_is l target || errors_is r target
  end.

(** [errors.As(err, **FrameError)]. *)
Fixpoint errors_as_frame (e : error) : bool :=
  match e with
  | ErrFrame _ => true
  | ErrMsg _ | ErrSentinel _ => false
  | ErrWrap _ i | ErrClose _ _ i => errors_as_frame i
  | ErrWrap2 _ l r => errors_as_frame l || errors_as_frame r
  end.

(** ** Fallible code

    A Go function returning [(A, error)] whose [A] is not used on error, or
    returning only [error] (then [A] is [unit]). *)

Inductive result (A : Type) : Type :=
| Ok (a : A)
| Err (e : error).
Arguments Ok {A} a.
Arguments Err {A} e.

Definition rbind {A B} (m : result A) (k : A -> result B) : result B :=
  match m with
  | Ok a => k a
  | Err e => Err e
  end.

Notation "'let?' x ':=' c 'in' k" :=
  (rbind c%go (fun x => k%go))
  (at level 10, x binder, c at level 100, k at level 200) : go_scope.

Notation "c ;? k" :=
  (rbind c%go (fun _ => k%go)) (at level 100, right associativity) : go_scope.

(** [if cond { return errors.New(msg) }]. *)
Definition reject_if (cond : bool) (e : error) : result unit :=
  if cond then Err e else Ok tt.

Definition is_ok {A} (r : result A) : bool :=
  match r with Ok _ => true | Err _ => false end.

#[global] Open Scope go_scope.

Lemma rbind_Ok {A B} (m : result A) (k : A -> result B) b :
  rbind m k = Ok b <-> exists a, m = Ok a /\ k a = Ok b.
Proof.
  destruct m as [a|e]; simpl; split.
  - eauto.
  - intros (a' & [= ->] & H). done.
  - done.
  - intros (a' & [=] & _).
Qed.

Lemma rbind_is_ok {A B} (m : result A) (k : A -> result B) :
  is_ok (rbind m k) = true <-> exists a, m = Ok a /\ is_ok (k a) = true.
Proof.
  destruct m as [a|e]; simpl; split.
  - eauto.
  - intros (a' & [= ->] & H). done.
  - done.
  - intros (a' & [=] & _).
Qed.

Lemma reject_if_Ok c e u : reject_if c e = Ok u <-> c = false.
Proof. destruct c, u; naive_solver. Qed.

(** ** Library tactics

    [inv_ok] takes apart every hypothesis that says a chain of fallible calls
    returned; [bool_lia] turns boolean arithmetic into facts [lia] reads. *)

Ltac inv_ok_step :=
  match goal with
  | H : rbind _ _ = Ok _ |- _ =>
      let a := fresh "v" in let E := fresh "E" in
      apply rbind_Ok in H; destruct H as (a & E & H)
  | H : reject_if _ _ = Ok _ |- _ => apply reject_if_Ok in H
  | H : Ok _ = Ok _ |- _ => injection H as H; try subst
  | H : Err _ = Ok _ |- _ => discriminate H
  | H : Ok _ = Err _ |- _ => discriminate H
  | u : unit |- _ => destruct u
  end.

Ltac inv_ok := repeat inv_ok_step.

Ltac bool_facts :=
  repeat match goal with
  | H : (_ && _)%bool = true |- _ => apply andb_true_iff in H; destruct H
  | H : (_ && _)%bool = false |- _ => apply andb_false_iff in H
  | H : (_ || _)%bool = false |- _ => apply orb_false_iff in H; destruct H
  | H : (_ || _)%bool = true |- _ => apply orb_true_iff in H
  | H : negb _ = true |- _ => apply negb_true_iff in H
  | H : negb _ = false |- _ => apply negb_false_iff in H
  | H : (_ <? _) = true |- _ => apply Z.ltb_lt in H
  | H : (_ <? _) = false |- _ => apply Z.ltb_ge in H
  | H : (_ <=? _) = true |- _ => apply Z.leb_le in H
  | H : (_ <=? _) = false |- _ => apply Z.leb_gt in H
  | H : (_ =? _) = true |- _ => apply Z.eqb_eq in H
  | H : (_ =? _) = false |- _ => apply Z.eqb_neq in H
  | H : (_ >? _) = true |- _ => rewrite Z.gtb_ltb in H
  | H : (_ >? _) = false |- _ => rewrite Z.gtb_ltb in H
  | H : (_ >=? _) = true |- _ => rewrite Z.geb_leb in H
  | H : (_ >=? _) = false |- _ => rewrite Z.geb_leb in H
  | H : bool_decide _ = true |- _ => apply bool_decide_eq_true in H
  | H : bool_decide _ = false |- _ => apply bool_decide_eq_false in H
  | H : String.eqb _ _ = true |- _ => apply String.eqb_eq in H
  | H : String.eqb _ _ = false |- _ => apply String.eqb_neq in H
  | H : Byte.eqb _ _ = true |- _ => apply byte_eqb_eq in H
  end.

Ltac bool_lia := bool_facts; lia.

(** [split_if] destructs the innermost test of the goal or of a hypothesis. *)
Ltac split_if :=
  match goal with
  | |- context [if ?b then _ else _] =>
      lazymatch b with
      | context [if _ then _ else _] => fail
      | _ => destruct b eqn:?
      end
  | H : context [if ?b then _ else _] |- _ =>
      lazymatch b with
      | context [if _ then _ else _] => fail
      | _ => destruct b eqn:?
      end
  end.

(** ** Hints *)

Create HintDb hooshi.
Create Rewrite HintDb zlen.
Create Rewrite HintDb gostr.
#[export] Hint Resolve zlen_nonneg bz_range byte_eqb_refl u32_is u64_is : hooshi.
#[export] Hint Rewrite zlen_app zlen_cons zlen_nil : zlen.
#[export] Hint Rewrite string_of_bytes_of bytes_of_string_of bytes_of_app : gostr.

(** ** Reachability

    Reflexive-transitive closure by steps on the right, for invariants of
    state machines: [steps_invariant] is rule induction. *)

Section Steps.
Context {S : Type} (step : S -> S -> Prop).

Inductive steps (s0 : S) : S -> Prop :=
| steps_refl : steps s0 s0
| steps_snoc s s' : steps s0 s -> step s s' -> steps s0 s'.

Lemma steps_invariant (P : S -> Prop) s0 s :
  P s0 -> (forall a b, P a -> step a b -> P b) -> steps s0 s -> P s.
Proof. intros H0 Hstep H. induction H; eauto. Qed.

Lemma steps_cons s0 s1 s : step s0 s1 -> steps s1 s -> steps s0 s.
Proof. intros H0 H. induction H; [eapply steps_snoc; [apply steps_refl | done] | by eapply steps_snoc]. Qed.

Lemma steps_trans s0 s1 s : steps s0 s1 -> steps s1 s -> steps s0 s.
Proof. intros H0 H. induction H; [done | by eapply steps_snoc]. Qed.
End Steps.

(** ** Counting the entries of a map

    A map of the holders of some resource: how many satisfy [P] follows the
    holders as they come and go. *)

Section Count.
Context {K A : Type} `{Countable K} (P : A -> Prop) `{forall a, Decision (P a)}.

Definition count_if (m : gmap K A) : nat := size (filter (fun kv : K * A => P kv.2) m).

Lemma count_delete m k a :
  m !! k = Some a -> count_if m = (count_if (delete k m) + (if decide (P a) then 1 else 0))%nat.
Proof.
  unfold count_if. intros E. rewrite map_filter_delete. destruct (decide (P a)) as [Ha|Hn].
  - assert (Hl : filter (fun kv : K * A => P kv.2) m !! k = Some a) by (by apply map_lookup_filter_Some).
    assert (0 < size (filter (fun kv : K * A => P kv.2) m))%nat.
    { destruct (size _) eqn:Ez; [| lia]. apply map_size_empty_inv in Ez. by rewrite Ez in Hl. }
    rewrite map_size_delete_Some by (by eexists). lia.
  - rewrite delete_id; [lia |]. apply map_lookup_filter_None. right. intros x Hx. by simplify_eq.
Qed.

Lemma count_insert m k a :
  m !! k = None -> count_if (<[k := a]> m) = (count_if m + (if decide (P a) then 1 else 0))%nat.
Proof.
  intros Hn. rewrite (count_delete _ k a) by apply lookup_insert_eq. by rewrite delete_insert_id.
Qed.

Lemma count_pos m k a : m !! k = Some a -> P a -> (0 < count_if m)%nat.
Proof. intros Hk Ha. rewrite (count_delete _ _ _ Hk), decide_True by done. lia. Qed.

Lemma size_delete (m : gmap K A) k a : m !! k = Some a -> size m = S (size (delete k m)).
Proof.
  intros Hk. assert (0 < size m)%nat.
  { destruct (size m) eqn:Ez; [| lia]. apply map_size_empty_inv in Ez. by rewrite Ez in Hk. }
  rewrite map_size_delete_Some by (by eexists). lia.
Qed.
End Count.

(** ** Sums over a map

    A map of holders and what each of them holds of one shared budget. *)

Section Total.
Context {K A : Type} `{Countable K} (f : A -> Z).

Definition total (m : gmap K A) : Z := map_fold (fun _ a acc => f a + acc) 0 m.

Lemma total_delete m k a : m !! k = Some a -> total m = f a + total (delete k m).
Proof. intros Hk. unfold total. rewrite (map_fold_delete_L _ _ k a); [done | lia | done]. Qed.

Lemma total_insert m k a : total (<[k := a]> m) = f a + total (delete k m).
Proof. rewrite (total_delete _ k a) by apply lookup_insert_eq. by rewrite delete_insert_eq. Qed.

Lemma total_fresh m k a : m !! k = None -> total (<[k := a]> m) = f a + total m.
Proof. intros Hk. by rewrite total_insert, delete_id. Qed.

Lemma total_update m k a b : m !! k = Some a -> total (<[k := b]> m) = total m + (f b - f a).
Proof. intros Hk. rewrite total_insert, (total_delete _ _ _ Hk). lia. Qed.

Lemma total_nonneg m : (forall k a, m !! k = Some a -> 0 <= f a) -> 0 <= total m.
Proof.
  unfold total.
  apply (map_fold_weak_ind (fun z (m : gmap K A) => (forall k a, m !! k = Some a -> 0 <= f a) -> 0 <= z)); [done |].
  intros i x m' r Hi IH Hf. pose proof (Hf i x ltac:(apply lookup_insert_eq)).
  assert (0 <= r); [| lia]. apply IH. intros k a Hk. apply (Hf k). apply lookup_insert_Some. right.
  split; [| done]. by intros ->; rewrite Hk in Hi.
Qed.

Lemma total_ge m k a : (forall k a, m !! k = Some a -> 0 <= f a) -> m !! k = Some a -> f a <= total m.
Proof.
  intros Hf Hk. rewrite (total_delete _ _ _ Hk). assert (0 <= total (delete k m)); [| lia].
  apply total_nonneg. intros j b Hj. apply lookup_delete_Some in Hj as [_ Hj]. by eapply Hf.
Qed.

Lemma total_fmap m : total m = map_fold (fun _ z acc => z + acc) 0 (f <$> m).
Proof. unfold total. by rewrite map_fold_fmap. Qed.

Lemma total_ext m m' : (forall k, f <$> m !! k = f <$> m' !! k) -> total m = total m'.
Proof. intros Hm. rewrite !total_fmap. f_equal. apply map_eq. intros k. by rewrite !lookup_fmap. Qed.
End Total.
