(* ===== verification/GoText.v ===== *)
(** * GoText: the text and encoding functions of Go's standard library

    What the sources use of [unicode/utf8], [strconv], [strings],
    [encoding/hex] and [encoding/base64] ([RawURLEncoding]), as executable
    functions on byte sequences, with the lemmas the components need: base64
    decoding inverts encoding, and integer literals round-trip. *)

From S2P Require Import Prelude.

(** ** ASCII classes *)

Definition in_range (lo hi : Z) (b : Byte.byte) : bool :=
  (lo <=? bz b) && (bz b <=? hi).

Definition is_digit (b : Byte.byte) : bool := in_range 48 57 b.
Definition is_upper (b : Byte.byte) : bool := in_range 65 90 b.
Definition is_lower (b : Byte.byte) : bool := in_range 97 122 b.
Definition is_letter (b : Byte.byte) : bool := is_upper b || is_lower b.
Definition is_alnum (b : Byte.byte) : bool := is_letter b || is_digit b.

Definition ascii_upper_byte (b : Byte.byte) : Byte.byte :=
  if is_lower b then zb (bz b - 32) else b.
Definition ascii_lower_byte (b : Byte.byte) : Byte.byte :=
  if is_upper b then zb (bz b + 32) else b.

(** ** [unicode/utf8] *)

Definition is_cont (b : Byte.byte) : bool := in_range 128 191 b.

(** The width of the well-formed UTF-8 sequence at the head of [bs], if any
    (no surrogates, no overlong forms, nothing above U+10FFFF). *)
Definition rune_width (bs : bytes) : option nat :=
  match bs with
  | [] => None
  | b0 :: r =>
    if bz b0 <? 128 then Some 1%nat
    else match r with
    | [] => None
    | b1 :: r1 =>
      if in_range 194 223 b0 then (if is_cont b1 then Some 2%nat else None)
      else match r1 with
      | [] => None
      | b2 :: r2 =>
        if in_range 224 239 b0 then
          let lo := if bz b0 =? 224 then 160 else 128 in
          let hi := if bz b0 =? 237 then 159 else 191 in
          if in_range lo hi b1 && is_cont b2 then Some 3%nat else None
        else match r2 with
        | [] => None
        | b3 :: _ =>
          if in_range 240 244 b0 then
            let lo := if bz b0 =? 240 then 144 else 128 in
            let hi := if bz b0 =? 244 then 143 else 191 in
            if in_range lo hi b1 && is_cont b2 && is_cont b3 then Some 4%nat else None
          else None
        end
      end
    end
  end.

(** [utf8.Valid]; [skip] counts the bytes of the current rune still to pass. *)
Fixpoint utf8_valid_from (bs : bytes) (skip : nat) : bool :=
  match bs with
  | [] => true
  | b :: r =>
    match skip with
    | S k => utf8_valid_from r k
    | O =>
      match rune_width (b :: r) with
      | Some n => utf8_valid_from r (pred n)
      | None => false
      end
    end
  end.

Definition utf8_valid (bs : bytes) : bool := utf8_valid_from bs 0.

(** [utf8.RuneCount]: a byte that starts no well-formed rune counts as one. *)
Fixpoint rune_count_from (bs : bytes) (skip : nat) : Z :=
  match bs with
  | [] => 0
  | b :: r =>
    match skip with
    | S k => rune_count_from r k
    | O =>
      1 + match rune_width (b :: r) with
          | Some n => rune_count_from r (pred n)
          | None => rune_count_from r 0
          end
    end
  end.

Definition rune_count_in_string (s : string) : Z := rune_count_from (bytes_of s) 0.

(** [utf8.EncodeRune] of a code point the callers know to be a scalar value. *)
Definition encode_rune (r : Z) : bytes :=
  if r <? 128 then [zb r]
  else if r <? 2048 then [zb (192 + r / 64); zb (128 + r mod 64)]
  else if r <? 65536 then
    [zb (224 + r / 4096); zb (128 + (r / 64) mod 64); zb (128 + r mod 64)]
  else
    [zb (240 + r / 262144); zb (128 + (r / 4096) mod 64);
     zb (128 + (r / 64) mod 64); zb (128 + r mod 64)].

Lemma rune_width_ascii b r : bz b < 128 -> rune_width (b :: r) = Some 1%nat.
Proof. intros H. simpl. by rewrite (proj2 (Z.ltb_lt _ _) H). Qed.

Definition is_ascii (b : Byte.byte) : bool := bz b <? 128.

Lemma utf8_valid_ascii bs : forallb is_ascii bs = true -> utf8_valid bs = true.
Proof.
  unfold utf8_valid. induction bs as [|b r IH]; [done |].
  simpl. unfold is_ascii at 1. intros H. bool_facts.
  rewrite (proj2 (Z.ltb_lt _ _) H). simpl. auto.
Qed.

Lemma rune_count_ascii bs :
  forallb is_ascii bs = true -> rune_count_from bs 0 = zlen bs.
Proof.
  induction bs as [|b r IH]; [done |].
  simpl. unfold is_ascii at 1. intros H. bool_facts.
  rewrite (proj2 (Z.ltb_lt _ _) H). simpl. rewrite zlen_cons, IH by done. lia.
Qed.

(** ** [strconv] *)

Definition digit_val (b : Byte.byte) : Z := bz b - 48.

(** Value of a digit string read left to right; [None] on any other byte. *)
Fixpoint digits_val (acc : Z) (bs : bytes) : option Z :=
  match bs with
  | [] => Some acc
  | b :: r => if is_digit b then digits_val (10 * acc + digit_val b) r else None
  end.

Definition parse_digits (bs : bytes) : option Z :=
  match bs with [] => None | _ => digits_val 0 bs end.

(** [strconv.ParseUint(s, 10, w)]. *)
Definition parse_uint (w : Z) (bs : bytes) : option Z :=
  match parse_digits bs with
  | Some v => if v <? 2 ^ w then Some v else None
  | None => None
  end.

(** [strconv.ParseInt(s, 10, 64)]: one optional sign, then digits. *)
Definition parse_int64 (bs : bytes) : option Z :=
  match bs with
  | [] => None
  | b :: r =>
    let neg := Byte.eqb b "-"%byte in
    let body := if neg || Byte.eqb b "+"%byte then r else bs in
    match parse_digits body with
    | Some v =>
      if neg then (if v <=? 2 ^ 63 then Some (- v) else None)
      else (if v <? 2 ^ 63 then Some v else None)
    | None => None
    end
  end.

(** Shortest decimal of a non-negative integer ([strconv.Itoa],
    [strconv.AppendUint]); [fuel] counts digits, 20 cover 64-bit values. *)
Fixpoint dec_digits (fuel : nat) (n : Z) : bytes :=
  match fuel with
  | O => []
  | S f => if n <? 10 then [zb (48 + n)] else dec_digits f (n / 10) ++ [zb (48 + n mod 10)]
  end.

Definition show_uint (n : Z) : bytes := dec_digits 20 n.

Definition show_int (n : Z) : bytes :=
  if n <? 0 then "-"%byte :: show_uint (- n) else show_uint n.

Lemma digits_val_app xs ys acc :
  digits_val acc (xs ++ ys) =
  match digits_val acc xs with Some v => digits_val v ys | None => None end.
Proof.
  revert acc. induction xs as [|b r IH]; intros acc; [done |].
  simpl. destruct (is_digit b); [apply IH | done].
Qed.

Lemma digits_val_nonneg bs acc v : 0 <= acc -> digits_val acc bs = Some v -> 0 <= v.
Proof.
  revert acc. induction bs as [|b r IH]; intros acc Ha H; simpl in H; [by simplify_eq |].
  destruct (is_digit b) eqn:E; [| done]. eapply IH; [| exact H].
  unfold is_digit, in_range, digit_val in *. bool_lia.
Qed.

Lemma digit_byte n : 0 <= n < 10 -> is_digit (zb (48 + n)) = true /\ digit_val (zb (48 + n)) = n.
Proof.
  intros H. unfold is_digit, in_range, digit_val. rewrite bz_zb_small by lia.
  split; [| lia]. apply andb_true_iff. split; apply Z.leb_le; lia.
Qed.

Lemma dec_digits_val f n :
  0 <= n < 10 ^ Z.of_nat f -> digits_val 0 (dec_digits f n) = Some n.
Proof.
  revert n. induction f as [|f IH]; intros n Hn.
  { simpl in Hn. assert (n = 0) as -> by lia. done. }
  rewrite Nat2Z.inj_succ, Z.pow_succ_r in Hn by lia. simpl.
  destruct (n <? 10) eqn:E.
  - bool_facts. destruct (digit_byte n ltac:(lia)) as [Hd Hv]. simpl. rewrite Hd, Hv. f_equal; lia.
  - bool_facts.
    pose proof (Z.div_mod n 10 ltac:(lia)). pose proof (Z.mod_pos_bound n 10 ltac:(lia)).
    rewrite digits_val_app, IH by (split; [apply Z.div_pos; lia | apply Z.div_lt_upper_bound; lia]).
    destruct (digit_byte (n mod 10) ltac:(lia)) as [Hd Hv]. simpl. rewrite Hd, Hv. f_equal; lia.
Qed.

Lemma dec_digits_nonempty f n : dec_digits (S f) n <> [].
Proof. simpl. destruct (n <? 10); [done |]. destruct (dec_digits f (n / 10)); done. Qed.

Lemma dec_digits_all_digits f n :
  0 <= n -> forallb is_digit (dec_digits f n) = true.
Proof.
  revert n. induction f as [|f IH]; intros n Hn; [done |]. simpl.
  destruct (n <? 10) eqn:E; bool_facts.
  - simpl. by rewrite (proj1 (digit_byte n ltac:(lia))).
  - rewrite forallb_app, IH by (apply Z.div_pos; lia). simpl.
    pose proof (Z.mod_pos_bound n 10 ltac:(lia)).
    by rewrite (proj1 (digit_byte (n mod 10) ltac:(lia))).
Qed.

Lemma parse_digits_show n : 0 <= n < 2 ^ 64 -> parse_digits (show_uint n) = Some n.
Proof.
  intros H. unfold parse_digits, show_uint.
  destruct (dec_digits 20 n) eqn:E; [by apply dec_digits_nonempty in E |].
  rewrite <- E. apply dec_digits_val.
  assert (2 ^ 64 < 10 ^ Z.of_nat 20) by (vm_compute; done). lia.
Qed.

Lemma parse_uint_show w n : 0 <= n < 2 ^ w -> w <= 64 -> parse_uint w (show_uint n) = Some n.
Proof.
  intros H Hw. unfold parse_uint.
  assert (0 <= w) by (destruct (Z.neg_nonneg_cases w); [rewrite Z.pow_neg_r in H; lia | done]).
  assert (2 ^ w <= 2 ^ 64) by (apply Z.pow_le_mono_r; lia).
  rewrite parse_digits_show by lia.
  by rewrite (proj2 (Z.ltb_lt _ _) (proj2 H)).
Qed.

Lemma show_uint_head n : 0 <= n -> exists b r, show_uint n = b :: r /\ is_digit b = true.
Proof.
  intros H. unfold show_uint. pose proof (dec_digits_all_digits 20 n H) as Hd.
  destruct (dec_digits 20 n) as [|b r] eqn:E; [by apply dec_digits_nonempty in E |].
  simpl in Hd. bool_facts. eauto.
Qed.

Lemma digit_not_sign b : is_digit b = true ->
  Byte.eqb b "-"%byte = false /\ Byte.eqb b "+"%byte = false.
Proof. destruct b; vm_compute; intros; try discriminate; done. Qed.

Lemma parse_int64_show n : 0 <= n < 2 ^ 63 -> parse_int64 (show_uint n) = Some n.
Proof.
  intros H. destruct (show_uint_head n ltac:(lia)) as (b & r & E & Hb).
  unfold parse_int64. rewrite E. destruct (digit_not_sign b Hb) as [-> ->]. simpl orb.
  rewrite <- E, parse_digits_show by lia. cbn iota.
  by rewrite (proj2 (Z.ltb_lt _ _) (proj2 H)).
Qed.

(** ** [encoding/hex] *)

Definition hex_val (b : Byte.byte) : option Z :=
  if is_digit b then Some (bz b - 48)
  else if in_range 97 102 b then Some (bz b - 87)
  else if in_range 65 70 b then Some (bz b - 55)
  else None.

(** [hex.DecodeString]: an odd length is an error. *)
Fixpoint hex_decode (bs : bytes) : option bytes :=
  match bs with
  | [] => Some []
  | [_] => None
  | h :: l :: r =>
    match hex_val h, hex_val l, hex_decode r with
    | Some x, Some y, Some t => Some (zb (16 * x + y) :: t)
    | _, _, _ => None
    end
  end.

(** ** [base64.RawURLEncoding] *)

Definition b64_char (v : Z) : Byte.byte :=
  if v <? 26 then zb (65 + v)
  else if v <? 52 then zb (71 + v)
  else if v <? 62 then zb (v - 4)
  else if v =? 62 then "-"%byte else "_"%byte.

Definition b64_val (b : Byte.byte) : option Z :=
  if is_upper b then Some (bz b - 65)
  else if is_lower b then Some (bz b - 71)
  else if is_digit b then Some (bz b + 4)
  else if Byte.eqb b "-"%byte then Some 62
  else if Byte.eqb b "_"%byte then Some 63
  else None.

(** [EncodeToString], three bytes to four characters, no padding. *)
Fixpoint b64_encode (bs : bytes) : bytes :=
  match bs with
  | [] => []
  | [a] => [b64_char (bz a / 4); b64_char (bz a mod 4 * 16)]
  | [a; b] =>
    [b64_char (bz a / 4); b64_char (bz a mod 4 * 16 + bz b / 16); b64_char (bz b mod 16 * 4)]
  | a :: b :: c :: r =>
    b64_char (bz a / 4) :: b64_char (bz a mod 4 * 16 + bz b / 16)
    :: b64_char (bz b mod 16 * 4 + bz c / 64) :: b64_char (bz c mod 64) :: b64_encode r
  end.

(** The decoder reads sextets and skips the line breaks the Go decoder
    tolerates anywhere in its input. *)
Fixpoint b64_sextets (bs : bytes) : option (list Z) :=
  match bs with
  | [] => Some []
  | b :: r =>
    match b64_val b with
    | Some v => match b64_sextets r with Some t => Some (v :: t) | None => None end
    | None =>
      if Byte.eqb b Byte.x0a || Byte.eqb b Byte.x0d then b64_sextets r else None
    end
  end.

(** Quanta of four sextets; a last quantum of two or three sextets is one or
    two bytes and its spare low bits are ignored (the non-strict decoder). *)
Fixpoint b64_quanta (vs : list Z) : option bytes :=
  match vs with
  | [] => Some []
  | [_] => None
  | [a; b] => Some [zb (a * 4 + b / 16)]
  | [a; b; c] => Some [zb (a * 4 + b / 16); zb (b mod 16 * 16 + c / 4)]
  | a :: b :: c :: d :: r =>
    match b64_quanta r with
    | Some t =>
      Some (zb (a * 4 + b / 16) :: zb (b mod 16 * 16 + c / 4) :: zb (c mod 4 * 64 + d) :: t)
    | None => None
    end
  end.

Definition b64_decode (bs : bytes) : option bytes :=
  match b64_sextets bs with Some vs => b64_quanta vs | None => None end.

Definition b64_encode_string (bs : bytes) : string := string_of (b64_encode bs).
Definition b64_decode_string (s : string) : option bytes := b64_decode (bytes_of s).

Lemma b64_val_char v : 0 <= v < 64 -> b64_val (b64_char v) = Some v.
Proof.
  intros H. unfold b64_char.
  repeat match goal with |- context [if ?c then _ else _] => destruct c eqn:? end; bool_facts;
    try (assert (v = 63) as -> by lia; reflexivity); try (subst; reflexivity);
    unfold b64_val, is_upper, is_lower, is_digit, in_range; rewrite !bz_zb_small by lia;
    repeat match goal with |- context [(?a <=? ?b)] => destruct (a <=? b) eqn:?; bool_facts; try lia end;
    cbn [andb]; f_equal; lia.
Qed.

(** Strong induction three bytes at a time. *)
Lemma bytes_ind3 (P : bytes -> Prop) :
  P [] -> (forall a, P [a]) -> (forall a b, P [a; b]) ->
  (forall a b c r, P r -> P (a :: b :: c :: r)) -> forall bs, P bs.
Proof.
  intros H0 H1 H2 H3. fix IH 1. intros [|a [|b [|c r]]]; [apply H0 | apply H1 | apply H2 |].
  apply H3, IH.
Qed.

Ltac byte_bounds :=
  repeat match goal with
  | b : Byte.byte |- _ =>
      lazymatch goal with
      | H : 0 <= bz b < 256 |- _ => fail
      | _ => pose proof (bz_range b)
      end
  end.

Ltac sextet := byte_bounds; Z.div_mod_to_equations; lia.

Ltac solve_byte :=
  match goal with
  | |- zb ?e = ?b => transitivity (zb (bz b)); [f_equal; sextet | apply zb_bz]
  end.

Lemma b64_decode_encode bs : b64_decode (b64_encode bs) = Some bs.
Proof.
  unfold b64_decode.
  enough (exists vs, b64_sextets (b64_encode bs) = Some vs /\ b64_quanta vs = Some bs)
    as (vs & -> & ?) by done.
  induction bs as [ |a|a b|a b c r (vs & IH1 & IH2)] using bytes_ind3;
    cbn [b64_encode b64_sextets].
  - by exists [].
  - rewrite !b64_val_char by sextet. eexists. split; [done |]. cbn. do 2 f_equal. solve_byte.
  - rewrite !b64_val_char by sextet. eexists. split; [done |]. cbn.
    do 2 f_equal; [| f_equal]; solve_byte.
  - rewrite IH1, !b64_val_char by sextet. eexists. split; [done |]. cbn. rewrite IH2.
    f_equal. f_equal; [solve_byte | f_equal; [solve_byte | f_equal; solve_byte]].
Qed.

(** The alphabet of an encoding: no control byte, no quote, no backslash. *)
Definition b64_alphabet (b : Byte.byte) : bool :=
  is_alnum b || Byte.eqb b "-"%byte || Byte.eqb b "_"%byte.

Lemma b64_val_alphabet b v : b64_val b = Some v -> b64_alphabet b = true.
Proof.
  unfold b64_val, b64_alphabet, is_alnum, is_letter.
  destruct (is_upper b), (is_lower b), (is_digit b); try done.
  destruct (Byte.eqb b "-"%byte), (Byte.eqb b "_"%byte); done.
Qed.

Lemma b64_encode_alphabet bs : forallb b64_alphabet (b64_encode bs) = true.
Proof.
  assert (Hc : forall v, 0 <= v < 64 -> b64_alphabet (b64_char v) = true)
    by (intros v Hv; eapply b64_val_alphabet, b64_val_char, Hv).
  induction bs as [ |a|a b|a b c r IH] using bytes_ind3; cbn [b64_encode forallb];
    try rewrite !Hc by sextet; auto.
Qed.

(** ** [strings.Split] on a one-byte separator *)

Fixpoint split_on (sep : Byte.byte) (bs : bytes) : list bytes :=
  match bs with
  | [] => [[]]
  | b :: r =>
    if Byte.eqb b sep then [] :: split_on sep r
    else match split_on sep r with
         | l :: ls => (b :: l) :: ls
         | [] => [[b]]
         end
  end.

(** [strings.Join]. *)
Fixpoint join_with (sep : Byte.byte) (parts : list bytes) : bytes :=
  match parts with
  | [] => []
  | [p] => p
  | p :: r => p ++ sep :: join_with sep r
  end.

Lemma split_on_nonempty sep bs : split_on sep bs <> [].
Proof. destruct bs as [|b r]; [done |]. simpl. destruct (Byte.eqb b sep); [done | by destruct (split_on sep r)]. Qed.

Lemma join_split sep bs : join_with sep (split_on sep bs) = bs.
Proof.
  induction bs as [|b r IH]; [done |]. simpl. pose proof (split_on_nonempty sep r).
  destruct (Byte.eqb b sep) eqn:E.
  - apply byte_eqb_eq in E as ->. cbn [join_with]. rewrite IH. by destruct (split_on sep r).
  - destruct (split_on sep r) as [|l ls]; [done |]. rewrite <- IH. by destruct ls.
Qed.

Lemma split_on_fresh sep p : forallb (fun b => negb (Byte.eqb b sep)) p = true -> split_on sep p = [p].
Proof.
  induction p as [|b r IH]; [done |]. simpl. intros H. apply andb_true_iff in H as [Hb Hr].
  apply negb_true_iff in Hb. by rewrite Hb, IH.
Qed.

Lemma split_on_app sep p r :
  forallb (fun b => negb (Byte.eqb b sep)) p = true ->
  split_on sep (p ++ sep :: r) = p :: split_on sep r.
Proof.
  induction p as [|b p IH]; simpl; [by rewrite byte_eqb_refl |]. intros H.
  apply andb_true_iff in H as [Hb Hr]. apply negb_true_iff in Hb. by rewrite Hb, IH.
Qed.
