(* ===== verification/GoTime.v ===== *)
(** * GoTime: instants and the contract's timestamps

    A [time.Time] is its number of nanoseconds since the Unix epoch, an
    unbounded [Z].  [utc_fields] is the regular expression
    [utcTimestampPattern] of [internal/contractv1/validation.go] with its
    groups, [parse_rfc3339] the calendar check and conversion [time.Parse]
    makes of a string that matched, [format_rfc3339_nano] the inverse
    direction ([Format(time.RFC3339Nano)] of a UTC instant). *)

From S2P Require Import Prelude GoText.

Definition instant := Z.

Definition Nanosecond : Z := 1.
Definition Millisecond : Z := 1000000.
Definition Second : Z := 1000000000.
Definition Minute : Z := 60 * Second.
Definition Hour : Z := 60 * Minute.

(** [a.Before(b)], [a.After(b)]. *)
Definition before (a b : instant) : bool := a <? b.
Definition after (a b : instant) : bool := b <? a.

(** [t.Sub(u)] saturates at the ends of [Duration]. *)
Definition time_sub (t u : instant) : Z := Z.max (- 2 ^ 63) (Z.min (2 ^ 63 - 1) (t - u)).

(** [time.Time{}], 0001-01-01T00:00:00Z. *)
Definition zero_time : instant := - 62135596800 * Second.
Definition is_zero_time (t : instant) : bool := t =? zero_time.

(** ** The proleptic Gregorian calendar *)

Definition is_leap (y : Z) : bool :=
  (y mod 4 =? 0) && (negb (y mod 100 =? 0) || (y mod 400 =? 0)).

Definition days_in_month (y m : Z) : Z :=
  if m =? 2 then (if is_leap y then 29 else 28)
  else if (m =? 4) || (m =? 6) || (m =? 9) || (m =? 11) then 30 else 31.

(** Days of the year before month [m]. *)
Definition days_before_month (y m : Z) : Z :=
  let common := nth (Z.to_nat (m - 1)) [0; 31; 59; 90; 120; 151; 181; 212; 243; 273; 304; 334] 0 in
  if (2 <? m) && is_leap y then common + 1 else common.

(** Days since 1970-01-01. *)
Definition days_from_civil (y m d : Z) : Z :=
  let p := y - 1 in
  365 * p + p / 4 - p / 100 + p / 400 + days_before_month y m + (d - 1) - 719162.

Definition civil_from_days (days : Z) : Z * Z * Z :=
  let z := days + 719468 in
  let era := z / 146097 in
  let doe := z mod 146097 in
  let yoe := (doe - doe / 1460 + doe / 36524 - doe / 146096) / 365 in
  let doy := doe - (365 * yoe + yoe / 4 - yoe / 100) in
  let mp := (5 * doy + 2) / 153 in
  let d := doy - (153 * mp + 2) / 5 + 1 in
  let m := if mp <? 10 then mp + 3 else mp - 9 in
  let y := yoe + era * 400 in
  (if m <=? 2 then y + 1 else y, m, d).

Definition instant_of (y mo d h mi s ns : Z) : instant :=
  (days_from_civil y mo d * 86400 + h * 3600 + mi * 60 + s) * Second + ns.

(** ** [utcTimestampPattern] *)

Record utc_time := Utc {
  u_year : Z; u_month : Z; u_day : Z; u_hour : Z; u_min : Z; u_sec : Z; u_nanos : Z }.

Definition two_digits (a b : Byte.byte) : Z := 10 * digit_val a + digit_val b.

(** [(?:\.[0-9]{1,9})?Z$] as nanoseconds. *)
Definition utc_fraction (bs : bytes) : option Z :=
  match bs with
  | b :: r =>
    if Byte.eqb b "Z"%byte then (match r with [] => Some 0 | _ => None end)
    else if Byte.eqb b "."%byte then
      match rev r with
      | z :: rd =>
        let ds := rev rd in
        if Byte.eqb z "Z"%byte && (zlen ds <=? 9) then
          match parse_digits ds with
          | Some v => Some (v * 10 ^ (9 - zlen ds))
          | None => None
          end
        else None
      | [] => None
      end
    else None
  | [] => None
  end.

Definition utc_fields (bs : bytes) : option utc_time :=
  match bs with
  | y1 :: y2 :: y3 :: y4 :: c1 :: o1 :: o2 :: c2 :: d1 :: d2 :: c3 ::
    h1 :: h2 :: c4 :: i1 :: i2 :: c5 :: s1 :: s2 :: frac =>
    let ds := [y1; y2; y3; y4; o1; o2; d1; d2; h1; h2; i1; i2; s1; s2] in
    let t := Utc (100 * two_digits y1 y2 + two_digits y3 y4) (two_digits o1 o2)
                 (two_digits d1 d2) (two_digits h1 h2) (two_digits i1 i2) (two_digits s1 s2) in
    if forallb is_digit ds &&
       (Byte.eqb c1 "-"%byte && Byte.eqb c2 "-"%byte && Byte.eqb c3 "T"%byte
        && Byte.eqb c4 ":"%byte && Byte.eqb c5 ":"%byte) &&
       ((1 <=? u_month (t 0)) && (u_month (t 0) <=? 12)) &&
       ((1 <=? u_day (t 0)) && (u_day (t 0) <=? 31)) &&
       (u_hour (t 0) <=? 23) && (u_min (t 0) <=? 59) && (u_sec (t 0) <=? 59)
    then match utc_fraction frac with
         | Some ns => Some (t ns)
         | None => None
         end
    else None
  | _ => None
  end.

(** [utcTimestampPattern.MatchString]. *)
Definition utcTimestampPattern (s : string) : bool :=
  match utc_fields (bytes_of s) with Some _ => true | None => false end.

(** What [time.Parse(time.RFC3339, s)] still decides for such a string: the
    day exists in its month. *)
Definition parse_rfc3339 (s : string) : option instant :=
  match utc_fields (bytes_of s) with
  | None => None
  | Some t =>
    if u_day t <=? days_in_month (u_year t) (u_month t)
    then Some (instant_of (u_year t) (u_month t) (u_day t) (u_hour t) (u_min t) (u_sec t) (u_nanos t))
    else None
  end.

(** ** [Format(time.RFC3339Nano)] *)

Definition pad_digits (w : nat) (n : Z) : bytes :=
  let ds := show_uint n in repeat "0"%byte (w - length ds) ++ ds.

(** Trailing zeros of the fraction are dropped. *)
Fixpoint drop_zeros (bs : bytes) : bytes :=
  match bs with
  | b :: r => if Byte.eqb b "0"%byte then drop_zeros r else bs
  | [] => []
  end.

Definition show_fraction (ns : Z) : bytes :=
  match rev (drop_zeros (rev (pad_digits 9 ns))) with
  | [] => []
  | ds => "."%byte :: ds
  end.

Definition format_rfc3339_nano (t : instant) : string :=
  let secs := t / Second in
  let '(y, m, d) := civil_from_days (secs / 86400) in
  let sod := secs mod 86400 in
  string_of (pad_digits 4 y ++ "-"%byte :: pad_digits 2 m ++ "-"%byte :: pad_digits 2 d ++
    "T"%byte :: pad_digits 2 (sod / 3600) ++ ":"%byte :: pad_digits 2 (sod / 60 mod 60) ++
    ":"%byte :: pad_digits 2 (sod mod 60) ++ show_fraction (t mod Second) ++ ["Z"%byte]).

Example parse_epoch : parse_rfc3339 "1970-01-01T00:00:00Z" = Some 0.
Proof. reflexivity. Qed.
Example parse_leap : parse_rfc3339 "2024-02-29T12:30:45.25Z" = Some 1709209845250000000.
Proof. reflexivity. Qed.
Example parse_no_leap : parse_rfc3339 "2023-02-29T12:30:45Z" = None.
Proof. reflexivity. Qed.
Example format_leap : format_rfc3339_nano 1709209845250000000 = "2024-02-29T12:30:45.25Z".
Proof. vm_compute. reflexivity. Qed.

(** ** Accepted timestamps are plain *)

Definition plain_timestamp_byte (b : Byte.byte) : bool :=
  is_digit b || Byte.eqb b "-"%byte || Byte.eqb b ":"%byte || Byte.eqb b "T"%byte ||
  Byte.eqb b "."%byte || Byte.eqb b "Z"%byte.

Lemma digits_val_all acc bs v : digits_val acc bs = Some v -> forallb is_digit bs = true.
Proof.
  revert acc. induction bs as [|b r IH]; intros acc H; [done |]. simpl in *.
  destruct (is_digit b); [| done]. by eapply IH.
Qed.

Lemma digits_plain bs : forallb is_digit bs = true -> forallb plain_timestamp_byte bs = true.
Proof.
  induction bs as [|b r IH]; [done |]. simpl. intros H. bool_facts.
  unfold plain_timestamp_byte at 1. rewrite H. simpl. auto.
Qed.

Lemma utc_fraction_plain bs ns : utc_fraction bs = Some ns -> forallb plain_timestamp_byte bs = true.
Proof.
  unfold utc_fraction. destruct bs as [|b r]; [done |]. intros H.
  destruct (Byte.eqb b "Z"%byte) eqn:Ez.
  { apply byte_eqb_eq in Ez as ->. by destruct r. }
  destruct (Byte.eqb b "."%byte) eqn:Ed; [| done]. apply byte_eqb_eq in Ed as ->.
  destruct (rev r) as [|z rd] eqn:Er; [done |].
  destruct (Byte.eqb z "Z"%byte && _) eqn:Ec; [| done]. bool_facts. subst z.
  destruct (parse_digits (rev rd)) as [v|] eqn:Ep; [| done].
  assert (r = rev rd ++ ["Z"%byte]) as -> by (rewrite <- (rev_involutive r), Er; done).
  unfold parse_digits in Ep. destruct (rev rd) as [|x l] eqn:El; [done |].
  apply digits_val_all, digits_plain in Ep. cbn [forallb]. rewrite forallb_app.
  rewrite Ep. done.
Qed.

Lemma timestamp_plain s t :
  parse_rfc3339 s = Some t -> forallb plain_timestamp_byte (bytes_of s) = true.
Proof.
  unfold parse_rfc3339, utc_fields. intros H.
  do 19 (match type of H with context [match ?l with [] => _ | _ :: _ => _ end] =>
           destruct l as [|? ?]; [done |] end).
  destruct (forallb is_digit _ && _ && _ && _ && _ && _ && _) eqn:Ec; [| done].
  destruct (utc_fraction _) as [ns|] eqn:Ef; [| done]. apply utc_fraction_plain in Ef.
  bool_facts. cbn [forallb] in *. bool_facts. subst.
  repeat match goal with
    | H : is_digit ?b = true |- context [plain_timestamp_byte ?b] =>
        unfold plain_timestamp_byte at 1; rewrite H; clear H; simpl
    end.
  rewrite Ef.
  repeat match goal with
    | H : is_digit ?b = true |- context [plain_timestamp_byte ?b] =>
        rewrite (ltac:(unfold plain_timestamp_byte; by rewrite H) : plain_timestamp_byte b = true)
    end.
  done.
Qed.

(** ** [time.Parse] with the RFC 3339 layouts, in full

    Looser than the contract's pattern: the hour may be one digit, the fraction
    may follow a comma and have any number of digits (nine count), and an
    offset [±hh:mm] (hours to 24, minutes to 60) may replace [Z].  The same for
    [time.RFC3339] and [time.RFC3339Nano]. *)

Record zoned := Zoned { z_instant : instant; z_offset : Z; z_utc : bool }.

Fixpoint take_digits (bs : bytes) : bytes * bytes :=
  match bs with
  | b :: r => if is_digit b then let '(d, t) := take_digits r in (b :: d, t) else ([], bs)
  | [] => ([], [])
  end.

(** [getnum(value, fixed = true)]. *)
Definition num2 (bs : bytes) : option (Z * bytes) :=
  match bs with
  | a :: b :: r => if is_digit a && is_digit b then Some (two_digits a b, r) else None
  | _ => None
  end.

(** [getnum(value, false)]: one or two digits. *)
Definition num12 (bs : bytes) : option (Z * bytes) :=
  match num2 bs with
  | Some p => Some p
  | None =>
    match bs with
    | a :: r => if is_digit a then Some (digit_val a, r) else None
    | [] => None
    end
  end.

Definition num4 (bs : bytes) : option (Z * bytes) :=
  match bs with
  | a :: b :: c :: d :: r =>
    if forallb is_digit [a; b; c; d] then Some (100 * two_digits a b + two_digits c d, r) else None
  | _ => None
  end.

Definition expect (c : Byte.byte) (bs : bytes) : option bytes :=
  match bs with b :: r => if Byte.eqb b c then Some r else None | [] => None end.

(** A fraction, if a separator and a digit follow. *)
Definition go_fraction (bs : bytes) : Z * bytes :=
  match bs with
  | s :: r =>
    if Byte.eqb s "."%byte || Byte.eqb s ","%byte then
      match take_digits r with
      | ([], _) => (0, bs)
      | (ds, rest) =>
        let kept := firstn 9 ds in
        (default 0 (parse_digits kept) * 10 ^ (9 - zlen kept), rest)
      end
    else (0, bs)
  | [] => (0, [])
  end.

(** [Z07:00] and the end: the offset in seconds, and whether it was [Z]. *)
Definition go_zone (bs : bytes) : option (Z * bool) :=
  match bs with
  | s :: r =>
    if Byte.eqb s "Z"%byte then (match r with [] => Some (0, true) | _ => None end)
    else if Byte.eqb s "+"%byte || Byte.eqb s "-"%byte then
      match num2 r with
      | Some (hh, r1) =>
        match expect ":"%byte r1 with
        | Some r2 =>
          match num2 r2 with
          | Some (mm, []) =>
            if (hh <=? 24) && (mm <=? 60) then
              let off := (hh * 60 + mm) * 60 in
              Some (if Byte.eqb s "-"%byte then - off else off, false)
            else None
          | _ => None
          end
        | None => None
        end
      | None => None
      end
    else None
  | [] => None
  end.

Definition obind {A B} (m : option A) (k : A -> option B) : option B :=
  match m with Some a => k a | None => None end.

Definition go_parse_rfc3339 (s : string) : option zoned :=
  obind (num4 (bytes_of s)) (fun '(y, r) =>
  obind (expect "-"%byte r) (fun r =>
  obind (num2 r) (fun '(mo, r) =>
  obind (expect "-"%byte r) (fun r =>
  obind (num2 r) (fun '(d, r) =>
  obind (expect "T"%byte r) (fun r =>
  obind (num12 r) (fun '(h, r) =>
  obind (expect ":"%byte r) (fun r =>
  obind (num2 r) (fun '(mi, r) =>
  obind (expect ":"%byte r) (fun r =>
  obind (num2 r) (fun '(sec, r) =>
  let '(ns, r) := go_fraction r in
  obind (go_zone r) (fun '(off, utc) =>
  if (1 <=? mo) && (mo <=? 12) && (1 <=? d) && (d <=? days_in_month y mo)
     && (h <=? 23) && (mi <=? 59) && (sec <=? 59)
  then Some (Zoned (instant_of y mo d h mi sec ns - off * Second) off utc)
  else None)))))))))))).

(** [Format(time.RFC3339Nano)] in the zone of the value. *)
Definition show_zone (off : Z) : bytes :=
  if off =? 0 then ["Z"%byte]
  else
    let m := Z.abs off / 60 in
    (if off <? 0 then "-"%byte else "+"%byte) ::
      pad_digits 2 (m / 60) ++ ":"%byte :: pad_digits 2 (m mod 60).

Definition format_zoned (z : zoned) : string :=
  let local := z_instant z + z_offset z * Second in
  let secs := local / Second in
  let '(y, m, d) := civil_from_days (secs / 86400) in
  let sod := secs mod 86400 in
  string_of (pad_digits 4 y ++ "-"%byte :: pad_digits 2 m ++ "-"%byte :: pad_digits 2 d ++
    "T"%byte :: pad_digits 2 (sod / 3600) ++ ":"%byte :: pad_digits 2 (sod / 60 mod 60) ++
    ":"%byte :: pad_digits 2 (sod mod 60) ++ show_fraction (local mod Second) ++ show_zone (z_offset z)).

Example go_parse_offset :
  (fun z => (z_instant z, format_zoned z)) <$> go_parse_rfc3339 "2026-09-27T08:00:00.5+02:00"
  = Some (1790488800500000000, "2026-09-27T08:00:00.5+02:00").
Proof. vm_compute. reflexivity. Qed.

Example go_parse_lenient :
  (fun z => format_zoned z) <$> go_parse_rfc3339 "2026-09-27T8:00:00,250Z"
  = Some "2026-09-27T08:00:00.25Z".
Proof. vm_compute. reflexivity. Qed.

(** *** What [time.Parse] accepts is ASCII *)

(** [bs] is some ASCII bytes in front of [r]. *)
Definition ascii_before (bs r : bytes) : Prop :=
  exists pre, bs = pre ++ r /\ forallb is_ascii pre = true.

Lemma ascii_before_trans a b c : ascii_before a b -> ascii_before b c -> ascii_before a c.
Proof.
  intros (p & -> & Hp) (q & -> & Hq). exists (p ++ q).
  by rewrite <- app_assoc, forallb_app, Hp, Hq.
Qed.

Lemma digit_ascii b : is_digit b = true -> is_ascii b = true.
Proof. by destruct b. Qed.

Lemma num2_ascii bs v r : num2 bs = Some (v, r) -> ascii_before bs r.
Proof.
  destruct bs as [|a [|b t]]; try done. simpl. destruct (is_digit a && is_digit b) eqn:E; [| done].
  intros [= <- <-]. bool_facts. exists [a; b]. split; [done |]. simpl. by rewrite !digit_ascii.
Qed.

Lemma num12_ascii bs v r : num12 bs = Some (v, r) -> ascii_before bs r.
Proof.
  unfold num12. destruct (num2 bs) as [[]|] eqn:E.
  - intros [= <- <-]. by eapply num2_ascii.
  - destruct bs as [|a t]; [done |]. destruct (is_digit a) eqn:Ea; [| done]. intros [= <- <-].
    exists [a]. split; [done |]. simpl. by rewrite digit_ascii.
Qed.

Lemma num4_ascii bs v r : num4 bs = Some (v, r) -> ascii_before bs r.
Proof.
  destruct bs as [|a [|b [|c [|d t]]]]; try done. unfold num4.
  destruct (forallb is_digit _) eqn:E; [| done]. cbn [forallb] in E.
  intros [= <- <-]. bool_facts. exists [a; b; c; d]. split; [done |]. simpl.
  by rewrite !digit_ascii.
Qed.

Lemma expect_ascii c bs r : is_ascii c = true -> expect c bs = Some r -> ascii_before bs r.
Proof.
  destruct bs as [|b t]; [done |]. simpl. destruct (Byte.eqb b c) eqn:E; [| done].
  intros Hc [= <-]. apply byte_eqb_eq in E as ->. exists [c]. simpl. by rewrite Hc.
Qed.

Lemma take_digits_ascii bs ds r : take_digits bs = (ds, r) -> ascii_before bs r.
Proof.
  revert ds r. induction bs as [|b t IH]; intros ds r H; simpl in H.
  { injection H as <- <-. by exists []. }
  destruct (is_digit b) eqn:E; [| injection H as <- <-; by exists []].
  destruct (take_digits t) as [d u]. injection H as <- <-.
  destruct (IH _ _ eq_refl) as (pre & -> & Hp). exists (b :: pre). split; [done |].
  simpl. by rewrite digit_ascii.
Qed.

Lemma go_fraction_ascii bs v r : go_fraction bs = (v, r) -> ascii_before bs r.
Proof.
  unfold go_fraction. destruct bs as [|s t]; [intros [= <- <-]; by exists [] |].
  destruct (Byte.eqb s "."%byte || Byte.eqb s ","%byte) eqn:E;
    [| intros [= <- <-]; by exists []].
  destruct (take_digits t) as [[|d ds] u] eqn:Et; intros [= <- <-]; [by exists [] |].
  apply take_digits_ascii in Et as (pre & -> & Hp). exists (s :: pre). split; [done |].
  simpl. rewrite Hp. apply orb_true_iff in E as [E|E]; by apply byte_eqb_eq in E as ->.
Qed.

Lemma go_zone_ascii bs p : go_zone bs = Some p -> forallb is_ascii bs = true.
Proof.
  unfold go_zone. destruct bs as [|s r]; [done |].
  destruct (Byte.eqb s "Z"%byte) eqn:Ez.
  { apply byte_eqb_eq in Ez as ->. by destruct r. }
  destruct (Byte.eqb s "+"%byte || Byte.eqb s "-"%byte) eqn:Es; [| done].
  destruct (num2 r) as [[hh r1]|] eqn:E1; [| done].
  destruct (expect ":"%byte r1) as [r2|] eqn:E2; [| done].
  destruct (num2 r2) as [[mm [|]]|] eqn:E3; [| done..]. intros _.
  apply num2_ascii in E1. apply expect_ascii in E2; [| done]. apply num2_ascii in E3.
  destruct (ascii_before_trans _ _ _ E1 (ascii_before_trans _ _ _ E2 E3)) as (pre & -> & Hp).
  rewrite app_nil_r. simpl. rewrite Hp.
  apply orb_true_iff in Es as [E|E]; by apply byte_eqb_eq in E as ->.
Qed.

Lemma ascii_rest bs r : ascii_before bs r -> forallb is_ascii r = true -> forallb is_ascii bs = true.
Proof. intros (pre & -> & Hp) Hr. by rewrite forallb_app, Hp, Hr. Qed.

Lemma obind_ascii {A B} (m : option A) (rest : A -> bytes) (k : A -> option B) bs z :
  (forall a, m = Some a -> ascii_before bs (rest a)) ->
  (forall a, k a = Some z -> forallb is_ascii (rest a) = true) ->
  obind m k = Some z -> forallb is_ascii bs = true.
Proof. destruct m as [a|]; [| done]. intros Hm Hk H. eapply ascii_rest; [by apply Hm | by apply Hk]. Qed.

Lemma go_timestamp_ascii s z :
  go_parse_rfc3339 s = Some z -> forallb is_ascii (bytes_of s) = true.
Proof.
  unfold go_parse_rfc3339.
  apply (obind_ascii _ snd); [intros []; apply num4_ascii | intros [y r1]].
  apply (obind_ascii _ id); [intros ?; by apply expect_ascii | intros r2].
  apply (obind_ascii _ snd); [intros []; apply num2_ascii | intros [mo r3]].
  apply (obind_ascii _ id); [intros ?; by apply expect_ascii | intros r4].
  apply (obind_ascii _ snd); [intros []; apply num2_ascii | intros [d r5]].
  apply (obind_ascii _ id); [intros ?; by apply expect_ascii | intros r6].
  apply (obind_ascii _ snd); [intros []; apply num12_ascii | intros [h r7]].
  apply (obind_ascii _ id); [intros ?; by apply expect_ascii | intros r8].
  apply (obind_ascii _ snd); [intros []; apply num2_ascii | intros [mi r9]].
  apply (obind_ascii _ id); [intros ?; by apply expect_ascii | intros r10].
  apply (obind_ascii _ snd); [intros []; apply num2_ascii | intros [sec r11]].
  cbn [snd]. destruct (go_fraction r11) as [ns r12] eqn:Ef. apply go_fraction_ascii in Ef.
  destruct (go_zone r12) as [p|] eqn:Ez; [| done]. intros _.
  eapply ascii_rest; [exact Ef |]. by eapply go_zone_ascii.
Qed.

(** On the contract's timestamps [time.Parse] agrees with [parse_rfc3339]. *)
Lemma take_digits_all ds r :
  forallb is_digit ds = true -> (match r with b :: _ => is_digit b | [] => false end) = false ->
  take_digits (ds ++ r) = (ds, r).
Proof.
  intros Hd Hr. induction ds as [|b ds IH]; simpl in *.
  - destruct r as [|b r]; [done |]. simpl. by rewrite Hr.
  - bool_facts. rewrite H. by rewrite IH.
Qed.

Lemma utc_fraction_go bs ns :
  utc_fraction bs = Some ns ->
  exists r, go_fraction bs = (ns, r) /\ go_zone r = Some (0, true).
Proof.
  unfold utc_fraction. destruct bs as [|b r]; [done |].
  destruct (Byte.eqb b "Z"%byte) eqn:Ez.
  { apply byte_eqb_eq in Ez as ->. destruct r; [| done]. intros [= <-]. by eexists. }
  destruct (Byte.eqb b "."%byte) eqn:Ed; [| done].
  destruct (rev r) as [|z rd] eqn:Er; [done |].
  destruct (Byte.eqb z "Z"%byte && (zlen (rev rd) <=? 9)) eqn:E; [| done]. bool_facts. subst z.
  assert (r = rev rd ++ ["Z"%byte]) as -> by (by rewrite <- (rev_involutive r), Er).
  generalize dependent (rev rd). intros ds _ Hl. clear rd.
  destruct (parse_digits ds) as [v|] eqn:Ev; [| done]. intros [= <-].
  exists ["Z"%byte]. split; [| done]. unfold go_fraction. rewrite Ed. cbn [orb].
  assert (Hds : forallb is_digit ds = true).
  { unfold parse_digits in Ev. destruct ds; [done |]. by eapply digits_val_all. }
  rewrite take_digits_all by done. destruct ds as [|d ds]; [done |].
  rewrite firstn_all2 by (unfold zlen in *; lia). by rewrite Ev.
Qed.

Lemma num2_digits a b r :
  is_digit a = true -> is_digit b = true -> num2 (a :: b :: r) = Some (two_digits a b, r).
Proof. intros Ha Hb. simpl. by rewrite Ha, Hb. Qed.

Lemma num4_digits a b c d r :
  is_digit a = true -> is_digit b = true -> is_digit c = true -> is_digit d = true ->
  num4 (a :: b :: c :: d :: r) = Some (100 * two_digits a b + two_digits c d, r).
Proof. intros Ha Hb Hc Hd. unfold num4. simpl. by rewrite Ha, Hb, Hc, Hd. Qed.

Lemma expect_hit c r : expect c (c :: r) = Some r.
Proof. simpl. by rewrite byte_eqb_refl. Qed.

Lemma go_parse_utc s t : parse_rfc3339 s = Some t -> go_parse_rfc3339 s = Some (Zoned t 0 true).
Proof.
  unfold parse_rfc3339, go_parse_rfc3339, utc_fields. intros H.
  do 19 (match type of H with context [match ?l with [] => _ | _ :: _ => _ end] =>
           destruct l as [|? ?]; [done |] end).
  destruct (forallb is_digit _ && _ && _ && _ && _ && _ && _) eqn:Ec; [| done].
  destruct (utc_fraction _) as [ns|] eqn:Ef; [| done].
  cbn [u_year u_month u_day u_hour u_min u_sec u_nanos] in *. bool_facts. cbn [forallb] in *.
  bool_facts. subst. apply utc_fraction_go in Ef as (r & Hf & Hz).
  destruct (_ <=? days_in_month _ _) eqn:Em; [| done]. injection H as <-.
  rewrite num4_digits by done. cbn [obind]. rewrite expect_hit. cbn [obind].
  rewrite num2_digits by done. cbn [obind]. rewrite expect_hit. cbn [obind].
  rewrite num2_digits by done. cbn [obind]. rewrite expect_hit. cbn [obind].
  unfold num12. rewrite num2_digits by done. cbn [obind]. rewrite expect_hit. cbn [obind].
  rewrite num2_digits by done. cbn [obind]. rewrite expect_hit. cbn [obind].
  rewrite num2_digits by done. cbn [obind]. rewrite Hf, Hz. cbn [obind]. rewrite Em.
  repeat match goal with Hle : (?a <= ?b) |- context [?a <=? ?b] =>
    rewrite (proj2 (Z.leb_le a b) Hle) end.
  cbn [andb]. f_equal. f_equal. lia.
Qed.
