(* ===== verification/GoStamp.v ===== *)
(** * GoStamp: a formatted instant reads back

    [time.Format] and [time.Parse] agree: the calendar arithmetic of
    {!GoTime} is a bijection between days and civil dates, and instants
    from 1970 to the end of year 9999, fractions of a second included, survive
    being printed and parsed. *)

From S2P Require Import Prelude GoText GoTime.

#[local] Ltac Zify.zify_post_hook ::= Z.to_euclidean_division_equations.

(** Evaluates the closed integer and boolean subterms of the goal. *)
Ltac literal x := match x with Z0 => idtac | Zpos ?p => is_ground p end.
Ltac eval_closed :=
  repeat match goal with
  | |- context [?a + ?b] => literal a; literal b; let v := eval vm_compute in (a + b) in change (a + b) with v
  | |- context [?a - ?b] => literal a; literal b; let v := eval vm_compute in (a - b) in change (a - b) with v
  | |- context [?a =? ?b] => literal a; literal b; let v := eval vm_compute in (a =? b) in change (a =? b) with v
  | |- context [?a <? ?b] => literal a; literal b; let v := eval vm_compute in (a <? b) in change (a <? b) with v
  | |- context [?a <=? ?b] => literal a; literal b; let v := eval vm_compute in (a <=? b) in change (a <=? b) with v
  | |- context [nth (Z.to_nat ?k) ?l ?d] => literal k; let v := eval vm_compute in (nth (Z.to_nat k) l d) in change (nth (Z.to_nat k) l d) with v
  end; cbn [orb andb].

(** ** The calendar *)

(** The year of a day of the 400-year era, counted from March. *)
Lemma year_of_era doe :
  0 <= doe < 146097 ->
  let yoe := (doe - doe / 1460 + doe / 36524 - doe / 146096) / 365 in
  0 <= yoe < 400 /\ 365 * yoe + yoe / 4 - yoe / 100 <= doe < 365 * (yoe+1) + (yoe+1) / 4 - (yoe+1) / 100 + (yoe + 1)/400.
Proof.
  intros H.
  set (c := doe / 36524). set (l := doe / 146096).
  assert (Hc : doe = 36524 * c + doe mod 36524) by (subst c; lia).
  assert (Hm : 0 <= doe mod 36524 < 36524) by lia.
  assert (Hl : l = 0 /\ doe < 146096 \/ l = 1 /\ doe = 146096) by (subst l; lia).
  destruct Hl as [[-> Hlt]|[-> ->]]; [| vm_compute; split; split; congruence].
  assert (Hcc : c = 0 \/ c = 1 \/ c = 2 \/ c = 3) by (subst c; lia).
  clearbody c. set (x := doe mod 36524) in *. clearbody x.
  destruct Hcc as [->|[->|[->| ->]]]; subst doe; cbn zeta; lia.
Qed.

Lemma is_leap_cases y :
  is_leap y = true /\ y mod 4 = 0 /\ (y mod 100 <> 0 \/ y mod 400 = 0) \/
  is_leap y = false /\ (y mod 4 <> 0 \/ y mod 100 = 0 /\ y mod 400 <> 0).
Proof. unfold is_leap. destruct (y mod 4 =? 0) eqn:E1, (y mod 100 =? 0) eqn:E2, (y mod 400 =? 0) eqn:E3; bool_facts; cbn; lia. Qed.

(** The month (from March) and the day of a day of the year. *)
Lemma month_of_day doy :
  0 <= doy <= 365 ->
  let mp := (5 * doy + 2) / 153 in
  let d := doy - (153 * mp + 2) / 5 + 1 in
  0 <= mp <= 11 /\ 1 <= d /\
  d <= nth (Z.to_nat mp) [31;30;31;30;31;31;30;31;30;31;31;29] 0 /\
  doy = nth (Z.to_nat mp) [0;31;61;92;122;153;184;214;245;275;306;337] 0 + d - 1.
Proof.
  intros H mp d. assert (Hmp : 0 <= mp <= 11) by (subst mp; lia).
  split; [done |].
  assert (Hc : mp = 0 \/ mp = 1 \/ mp = 2 \/ mp = 3 \/ mp = 4 \/ mp = 5 \/ mp = 6 \/ mp = 7 \/ mp = 8 \/ mp = 9 \/ mp = 10 \/ mp = 11) by lia.
  assert (Hd : 153 * mp <= 5 * doy + 2 < 153 * (mp + 1)) by (subst mp; lia).
  subst d. clearbody mp.
  destruct Hc as [->|[->|[->|[->|[->|[->|[->|[->|[->|[->|[->| ->]]]]]]]]]]]; eval_closed; lia.
Qed.

Definition leaps (y : Z) : Z := y / 4 - y / 100 + y / 400.

Lemma leaps_step y : leaps y = leaps (y - 1) + Z.b2z (is_leap y).
Proof. unfold leaps. destruct (is_leap_cases y) as [(-> & H)|(-> & H)]; cbn; lia. Qed.

Lemma leaps_era era y : 0 <= y < 400 -> leaps (y + era * 400) = 97 * era + y / 4 - y / 100.
Proof. unfold leaps. lia. Qed.

Lemma civil_sound days y m d :
  civil_from_days days = (y, m, d) ->
  1 <= m <= 12 /\ 1 <= d <= days_in_month y m /\ days_from_civil y m d = days.
Proof.
  unfold civil_from_days. set (z := days + 719468). set (era := z / 146097). set (doe := z mod 146097).
  assert (Hz : days = 146097 * era + doe - 719468) by (subst era doe z; lia).
  assert (Hdoe : 0 <= doe < 146097) by (subst doe; lia).
  destruct (year_of_era doe Hdoe) as [Hy Hd]. set (yoe := _ / 365) in *.
  set (doy := doe - _). assert (Hdoy : doe = 365 * yoe + yoe / 4 - yoe / 100 + doy) by (subst doy; lia).
  clearbody doy yoe doe era. clear z.
  assert (Hr : 0 <= doy <= 365) by lia.
  pose proof (leaps_era era yoe Hy) as Hl. pose proof (leaps_step (yoe + era * 400)) as Hs.
  assert (Hle : doy <= 364 + Z.b2z (is_leap (yoe + era * 400 + 1))).
  { destruct (is_leap_cases (yoe + era * 400 + 1)) as [(-> & H)|(-> & H)]; cbn; lia. }
  destruct (month_of_day doy Hr) as (Hmp & Hd1 & Hd2 & Hd3). set (mp := _ / 153) in *.
  set (dd := doy - _ + 1) in *. clearbody mp dd. clear Hd Hdoe Hy.
  assert (Hera : era * 400 = (yoe + era * 400) - yoe) by lia.
  assert (Hk : exists k, yoe / 4 - yoe / 100 = k /\ doe = 365 * yoe + k + doy) by (eexists; split; [reflexivity | lia]).
  destruct Hk as (k & Hk & Hdoe). replace (97 * era + yoe / 4 - yoe / 100) with (97 * era + k) in Hl by lia. clear Hk Hdoy.
  set (y0 := yoe + era * 400) in *. clearbody y0.
  assert (Hc : mp = 0 \/ mp = 1 \/ mp = 2 \/ mp = 3 \/ mp = 4 \/ mp = 5 \/ mp = 6 \/ mp = 7 \/ mp = 8 \/ mp = 9 \/ mp = 10 \/ mp = 11) by lia.
  replace (days_from_civil y m d) with (365 * (y - 1) + leaps (y - 1) + days_before_month y m + (d - 1) - 719162)
    by (unfold days_from_civil, leaps; cbn zeta; ring).
  unfold days_before_month, days_in_month.
  intros H. symmetry in H. revert H. revert Hd2 Hd3.
  destruct Hc as [->|[->|[->|[->|[->|[->|[->|[->|[->|[->|[->| ->]]]]]]]]]]]; eval_closed; intros Hd2 Hd3 [= -> -> ->]; eval_closed.
  all: revert Hs Hle; try (replace (y0 + 1 - 1) with y0 by lia).
  all: set (l1 := leaps y0) in *; try set (l2 := leaps (y0 - 1)) in *; clearbody l1; try clearbody l2.
  all: repeat match goal with |- context [is_leap ?y] => destruct (is_leap y) end; cbn [Z.b2z andb]; intros; lia.
Qed.

(** ** Digits *)

Definition digit (n : Z) : Byte.byte := zb (48 + n).

Lemma dec_small f n : 0 <= n < 10 -> dec_digits (S f) n = [digit n].
Proof. intros H. cbn [dec_digits]. by rewrite (proj2 (Z.ltb_lt n 10)) by lia. Qed.

Lemma dec_step f n : 10 <= n -> dec_digits (S f) n = dec_digits f (n / 10) ++ [digit (n mod 10)].
Proof. intros H. cbn [dec_digits]. by rewrite (proj2 (Z.ltb_ge n 10)) by lia. Qed.

Lemma pad_2 n : 0 <= n < 100 -> pad_digits 2 n = [digit (n / 10); digit (n mod 10)].
Proof.
  intros H. unfold pad_digits, show_uint. destruct (decide (n < 10)).
  - rewrite dec_small by lia. by replace (n / 10) with 0 by lia; replace (n mod 10) with n by lia.
  - rewrite dec_step, dec_small by lia. done.
Qed.

Lemma pad_4 n : 0 <= n < 10000 ->
  pad_digits 4 n = [digit (n / 1000); digit (n / 100 mod 10); digit (n / 10 mod 10); digit (n mod 10)].
Proof.
  intros H. unfold pad_digits, show_uint.
  assert (E : n / 100 = n / 10 / 10) by lia. assert (E' : n / 1000 = n / 10 / 10 / 10) by lia. rewrite E, E'.
  destruct (decide (n < 10)); [|destruct (decide (n < 100)); [|destruct (decide (n < 1000))]].
  - rewrite dec_small by lia. replace (n / 10) with 0 by lia. by replace (n mod 10) with n by lia.
  - rewrite dec_step, dec_small by lia. replace (n / 10 / 10) with 0 by lia. by replace (n / 10 mod 10) with (n / 10) by lia.
  - rewrite !dec_step, dec_small by lia. replace (n / 10 / 10 / 10) with 0 by lia.
    by replace (n / 10 / 10 mod 10) with (n / 10 / 10) by lia.
  - rewrite !dec_step, dec_small by lia. done.
Qed.

Lemma two_digits_of a b : 0 <= a < 10 -> 0 <= b < 10 -> two_digits (digit a) (digit b) = 10 * a + b.
Proof. intros Ha Hb. unfold two_digits, digit. by rewrite (proj2 (digit_byte a Ha)), (proj2 (digit_byte b Hb)). Qed.

Lemma is_digit_of a : 0 <= a < 10 -> is_digit (digit a) = true.
Proof. intros Ha. apply (proj1 (digit_byte a Ha)). Qed.

(** The fields a civil time is read back with. *)
Lemma utc_fields_show y m d h mi s frac ns :
  utc_fraction frac = Some ns -> 0 <= y < 10000 -> 1 <= m <= 12 -> 1 <= d <= 31 -> 0 <= h <= 23 -> 0 <= mi <= 59 -> 0 <= s <= 59 ->
  utc_fields (pad_digits 4 y ++ "-"%byte :: pad_digits 2 m ++ "-"%byte :: pad_digits 2 d ++
    "T"%byte :: pad_digits 2 h ++ ":"%byte :: pad_digits 2 mi ++ ":"%byte :: pad_digits 2 s ++ frac) =
  Some (Utc y m d h mi s ns).
Proof.
  intros Hf Hy Hm Hd Hh Hi Hs. rewrite pad_4, !pad_2 by lia. cbn [app]. unfold utc_fields.
  rewrite !two_digits_of by lia. cbn [forallb]. rewrite !is_digit_of by lia.
  replace (100 * (10 * (y / 1000) + y / 100 mod 10) + (10 * (y / 10 mod 10) + y mod 10)) with y by lia.
  replace (10 * (m / 10) + m mod 10) with m by lia. replace (10 * (d / 10) + d mod 10) with d by lia.
  replace (10 * (h / 10) + h mod 10) with h by lia. replace (10 * (mi / 10) + mi mod 10) with mi by lia.
  replace (10 * (s / 10) + s mod 10) with s by lia.
  cbn [u_month u_day u_hour u_min u_sec].
  rewrite !(proj2 (Z.leb_le _ _)) by lia. cbn [andb]. by rewrite Hf.
Qed.

(** ** Fractions of a second *)

Lemma dec_length k : forall f n, 0 <= n < 10 ^ Z.of_nat (S k) -> (length (dec_digits f n) <= S k)%nat.
Proof.
  induction k as [|k IH]; intros [|f] n H; cbn [dec_digits]; try (cbn; lia); destruct (Z.ltb_spec n 10); try (cbn; lia).
  rewrite length_app. cbn [length]. enough (length (dec_digits f (n / 10)) <= S k)%nat by lia. apply IH.
  rewrite (Nat2Z.inj_succ (S k)), Z.pow_succ_r in H by lia. split; [lia |]. apply Z.div_lt_upper_bound; lia.
Qed.

Lemma digits_val_zeros k : forall acc, digits_val acc (repeat "0"%byte k) = Some (acc * 10 ^ Z.of_nat k).
Proof.
  induction k as [|k IH]; intros acc; [cbn; f_equal; lia |]. cbn [repeat digits_val].
  change (is_digit "0"%byte) with true. change (digit_val "0"%byte) with 0. cbv iota.
  rewrite IH, (Nat2Z.inj_succ k), Z.pow_succ_r by lia. f_equal. ring.
Qed.

Lemma drop_zeros_split bs : exists k, bs = repeat "0"%byte k ++ drop_zeros bs.
Proof.
  induction bs as [|b r [k IH]]; [by exists 0%nat |]. cbn [drop_zeros]. destruct (Byte.eqb b "0"%byte) eqn:E; [| by exists 0%nat].
  apply Byte.byte_dec_bl in E as ->. exists (S k). cbn [repeat app]. by rewrite <- IH.
Qed.

Lemma pad_9 n : 0 <= n < 10 ^ 9 -> digits_val 0 (pad_digits 9 n) = Some n /\ length (pad_digits 9 n) = 9%nat.
Proof.
  intros H. unfold pad_digits. pose proof (dec_length 8 20 n H) as Hl. fold (show_uint n) in Hl. split.
  - rewrite digits_val_app, digits_val_zeros. pose proof (parse_digits_show n ltac:(lia)) as Hp. unfold parse_digits in Hp.
    destruct (show_uint n) eqn:E; [done |]. by rewrite Z.mul_0_l.
  - rewrite length_app, repeat_length. lia.
Qed.

Lemma show_fraction_read n : 0 <= n < 10 ^ 9 -> utc_fraction (show_fraction n ++ ["Z"%byte]) = Some n.
Proof.
  intros H. destruct (pad_9 n H) as [Hv Hl]. unfold show_fraction.
  destruct (drop_zeros_split (rev (pad_digits 9 n))) as [k Hk]. set (kept := drop_zeros _) in *. clearbody kept.
  apply (f_equal (@rev _)) in Hk. rewrite rev_involutive, rev_app_distr in Hk.
  assert (Hz : forall j, rev (repeat "0"%byte j) = repeat "0"%byte j).
  { intros j. induction j as [|j IH]; [done |]. cbn [repeat rev]. rewrite IH. symmetry. apply repeat_cons. }
  rewrite Hz in Hk. rewrite Hk in Hv, Hl. rewrite digits_val_app in Hv. rewrite length_app, repeat_length in Hl.
  destruct (rev kept) as [|b ds] eqn:Er.
  - cbn [digits_val] in Hv. rewrite digits_val_zeros in Hv. injection Hv as <-. by rewrite Z.mul_0_l.
  - cbn [app utc_fraction]. change (Byte.eqb "." "Z")%byte with false. change (Byte.eqb "." ".")%byte with true. cbv iota.
    rewrite app_comm_cons, rev_app_distr. cbn [rev app]. change (Byte.eqb "Z" "Z")%byte with true. cbn [andb].
    change (rev ds ++ [b]) with (rev (b :: ds)). rewrite rev_involutive. unfold zlen. cbn [parse_digits].
    destruct (digits_val 0 (b :: ds)) as [v|] eqn:Ev; [| done]. rewrite digits_val_zeros in Hv. injection Hv as Hv.
    rewrite (proj2 (Z.leb_le _ _)) by lia. replace (9 - Z.of_nat (length (b :: ds))) with (Z.of_nat k) by lia. by rewrite Hv.
Qed.

(** From 1970 to the end of year 9999. *)
Definition year_range (secs : Z) : Prop := 0 <= secs < 253402300800.

Lemma year_bounds days y m d :
  civil_from_days days = (y, m, d) -> 0 <= days < 2932897 -> 0 <= y < 10000.
Proof.
  intros H Hd. destruct (civil_sound _ _ _ _ H) as (Hm & _ & Hday).
  assert (Hb : 0 <= days_before_month y m + d - 1 <= 365).
  { destruct (civil_sound _ _ _ _ H) as (_ & Hdd & _). revert Hdd. clear H Hday. unfold days_before_month, days_in_month.
    assert (Hc : m = 1 \/ m = 2 \/ m = 3 \/ m = 4 \/ m = 5 \/ m = 6 \/ m = 7 \/ m = 8 \/ m = 9 \/ m = 10 \/ m = 11 \/ m = 12) by lia.
    destruct Hc as [->|[->|[->|[->|[->|[->|[->|[->|[->|[->|[->| ->]]]]]]]]]]]; eval_closed; destruct (is_leap y); cbn [andb]; intros; lia. }
  unfold days_from_civil in Hday. set (b := days_before_month y m) in *. clearbody b. clear H Hm. lia.
Qed.

(** A moment before the year 10000 is read back exactly. *)
Lemma parse_formatted t : year_range (t / Second) -> parse_rfc3339 (format_rfc3339_nano t) = Some t.
Proof.
  unfold year_range. intros Hr. unfold format_rfc3339_nano.
  set (secs := t / Second) in *. set (days := secs / 86400). set (sod := secs mod 86400).
  destruct (civil_from_days days) as [[y m] d] eqn:E.
  destruct (civil_sound _ _ _ _ E) as (Hm & Hd & Hday).
  assert (Hy : 0 <= y < 10000) by (eapply year_bounds; [exact E | subst days; lia]).
  assert (Hs : secs = days * 86400 + sod /\ 0 <= sod < 86400) by (subst days sod; lia).
  assert (Ht : t = Second * secs + t mod Second /\ 0 <= t mod Second < 10 ^ 9) by (subst secs; unfold Second; lia).
  clearbody days sod secs.
  assert (Hd31 : d <= 31) by (revert Hd; unfold days_in_month; repeat case_match; lia).
  unfold parse_rfc3339. rewrite bytes_of_string_of, (utc_fields_show _ _ _ _ _ _ _ (t mod Second)) by (first [lia | apply show_fraction_read; apply Ht]).
  cbn [u_year u_month u_day u_hour u_min u_sec u_nanos].
  rewrite (proj2 (Z.leb_le _ _)) by lia. f_equal. unfold instant_of. rewrite Hday.
  generalize dependent (t mod Second). intros ns Ht. clear -Hs Ht. unfold Second in *. lia.
Qed.

Lemma parse_seconds secs :
  year_range secs -> parse_rfc3339 (format_rfc3339_nano (Second * secs)) = Some (Second * secs).
Proof. intros H. apply parse_formatted. by replace (Second * secs / Second) with secs by (unfold Second; lia). Qed.
