(* ===== verification/GoFloat.v ===== *)
(** * GoFloat: Go's [float64]

    IEEE binary64 computed by the executable specification of the Standard
    Library ([SpecFloat]): the operations the sources use, and the two
    conversions between integers and floats. *)

From S2P Require Import Prelude.
From Stdlib Require Export Floats.SpecFloat.

Definition float64 := spec_float.

Definition f_add : float64 -> float64 -> float64 := SFadd 53 1024.
Definition f_sub : float64 -> float64 -> float64 := SFsub 53 1024.
Definition f_mul : float64 -> float64 -> float64 := SFmul 53 1024.
Definition f_div : float64 -> float64 -> float64 := SFdiv 53 1024.

(** [float64(n)] of an integer: rounded to nearest, ties to even. *)
Definition f_of_int (n : Z) : float64 := binary_normalize 53 1024 n 0 false.

Definition f_lt (a b : float64) : bool := SFltb a b.
Definition f_one : float64 := f_of_int 1.

(** [uint64(f)] of a float in range: the fraction is discarded. *)
Definition f_to_uint (f : float64) : Z :=
  match f with
  | S754_finite false m e => if 0 <=? e then Z.pos m * 2 ^ e else Z.pos m / 2 ^ (- e)
  | _ => 0
  end.

Example f_to_uint_examples :
  f_to_uint (f_div (f_of_int 7) (f_of_int 2)) = 3 /\ f_to_uint (f_mul (f_of_int 3) (f_of_int (2 ^ 60))) = 3 * 2 ^ 60.
Proof. vm_compute. split; reflexivity. Qed.
