(* ===== verification/GoDuration.v ===== *)
(** * GoDuration: trimmed text and durations

    [strings.TrimSpace], the upper-casing of [strings.ToUpper] on what it can
    turn into ASCII, and [time.ParseDuration], as the settings file needs them. *)

From S2P Require Import Prelude GoText GoTime GoFloat.

(** ** [strings] *)

Fixpoint is_prefix (pre bs : bytes) : bool :=
  match pre, bs with
  | [], _ => true
  | p :: pre', b :: bs' => Byte.eqb p b && is_prefix pre' bs'
  | _, [] => false
  end.

(** The UTF-8 encodings of the runes of [unicode.IsSpace]. *)
Definition white_space : list bytes :=
  ((fun z => [zb z]) <$> [9; 10; 11; 12; 13; 32]) ++
  (encode_rune <$> ([133; 160; 5760] ++ ((fun n => 8192 + Z.of_nat n) <$> seq 0 11) ++
                    [8232; 8233; 8239; 8287; 12288])).

(** Strips leading members of [spaces]; each strip consumes a byte, so the
    length is enough fuel. *)
Fixpoint trim_left (spaces : list bytes) (fuel : nat) (bs : bytes) : bytes :=
  match fuel with
  | O => bs
  | S f =>
    match find (fun w => is_prefix w bs) spaces with
    | Some w => trim_left spaces f (skipn (length w) bs)
    | None => bs
    end
  end.

(** [strings.TrimSpace].  A UTF-8 sequence ends where its last byte stands, so
    trailing space is leading space of the reversed text. *)
Definition TrimSpace (bs : bytes) : bytes :=
  let left := trim_left white_space (length bs) bs in
  rev (trim_left ((fun w => rev w) <$> white_space) (length left) (rev left)).

(** [strings.ToUpper], up to the case of runes outside ASCII that stay outside
    it: only the dotless i (U+0131) and the long s (U+017F) become ASCII. *)
Fixpoint ToUpper (bs : bytes) : bytes :=
  match bs with
  | [] => []
  | b :: rest =>
    match rest with
    | c :: r =>
      if (bz b =? 196) && (bz c =? 177) then "I"%byte :: ToUpper r
      else if (bz b =? 197) && (bz c =? 191) then "S"%byte :: ToUpper r
      else ascii_upper_byte b :: ToUpper rest
    | [] => [ascii_upper_byte b]
    end
  end.

(** [strings.CutSuffix]: the text before the suffix. *)
Definition cut_suffix (suffix bs : bytes) : option bytes :=
  if is_prefix (rev suffix) (rev bs) then Some (firstn (length bs - length suffix) bs) else None.

(** ** [time.ParseDuration] *)

(** [leadingInt]: [None] on overflow. *)
Fixpoint leadingInt (x : Z) (s : bytes) : option (Z * bytes) :=
  match s with
  | c :: r =>
    if is_digit c then
      if 2 ^ 63 / 10 <? x then None
      else
        let x' := x * 10 + digit_val c in
        if 2 ^ 63 <? x' then None else leadingInt x' r
    else Some (x, s)
  | [] => Some (x, s)
  end.

(** [leadingFraction]: the digits that fit, their scale, the rest. *)
Fixpoint leadingFraction (x : Z) (scale : float64) (overflow : bool) (s : bytes) : Z * float64 * bytes :=
  match s with
  | c :: r =>
    if is_digit c then
      if overflow || ((2 ^ 63 - 1) / 10 <? x) then leadingFraction x scale true r
      else
        let y := x * 10 + digit_val c in
        if 2 ^ 63 <? y then leadingFraction x scale true r
        else leadingFraction y (f_mul scale (f_of_int 10)) false r
    else (x, scale, s)
  | [] => (x, scale, s)
  end.

Definition unitMap : list (bytes * Z) :=
  [(bytes_of "ns", Nanosecond); (bytes_of "us", 1000); ([zb 194; zb 181] ++ bytes_of "s", 1000);
   ([zb 206; zb 188] ++ bytes_of "s", 1000); (bytes_of "ms", Millisecond); (bytes_of "s", Second);
   (bytes_of "m", Minute); (bytes_of "h", Hour)].

Definition is_dot (b : Byte.byte) : bool := Byte.eqb b "."%byte.

(** The bytes up to the next dot or digit. *)
Fixpoint unit_name (s : bytes) : bytes * bytes :=
  match s with
  | c :: r => if is_dot c || is_digit c then ([], s) else let '(u, rest) := unit_name r in (c :: u, rest)
  | [] => ([], [])
  end.

(** One number with its unit, in nanoseconds. *)
Definition duration_term (s : bytes) : option (Z * bytes) :=
  match s with
  | [] => None
  | c :: _ =>
    if negb (is_dot c || is_digit c) then None
    else
      match leadingInt 0 s with
      | None => None
      | Some (v, s1) =>
        let pre := negb (Nat.eqb (length s) (length s1)) in
        let '(f, scale, s2, post) :=
          match s1 with
          | d :: r =>
            if is_dot d then
              let '(f, scale, rest) := leadingFraction 0 f_one false r in
              (f, scale, rest, negb (Nat.eqb (length r) (length rest)))
            else (0, f_one, s1, false)
          | [] => (0, f_one, s1, false)
          end in
        if negb pre && negb post then None
        else
          let '(u, s3) := unit_name s2 in
          match find (fun e => bool_decide (e.1 = u)) unitMap with
          | None => None
          | Some (_, unit) =>
            if 2 ^ 63 / unit <? v then None
            else
              let v1 := v * unit in
              let v2 := if 0 <? f then v1 + f_to_uint (f_mul (f_of_int f) (f_div (f_of_int unit) scale)) else v1 in
              if 2 ^ 63 <? v2 then None else Some (v2, s3)
          end
      end
  end.

Fixpoint duration_terms (fuel : nat) (d : Z) (s : bytes) : option Z :=
  match fuel with
  | O => None
  | S fuel' =>
    match s with
    | [] => Some d
    | _ =>
      match duration_term s with
      | None => None
      | Some (v, rest) => if 2 ^ 63 <? d + v then None else duration_terms fuel' (d + v) rest
      end
    end
  end.

(** [time.ParseDuration], in nanoseconds.  Every term consumes a byte. *)
Definition ParseDuration (s : bytes) : option Z :=
  let '(neg, body) :=
    match s with
    | c :: r => if Byte.eqb c "-"%byte then (true, r) else if Byte.eqb c "+"%byte then (false, r) else (false, s)
    | [] => (false, s)
    end in
  if bool_decide (body = bytes_of "0") then Some 0
  else
    match body with
    | [] => None
    | _ =>
      match duration_terms (S (length body)) 0 body with
      | None => None
      | Some d => if neg then Some (- d) else if 2 ^ 63 - 1 <? d then None else Some d
      end
    end.


Example duration_examples :
  (fun s => ParseDuration (bytes_of s)) <$> ["5s"; "1m30s"; "1.5h"; "-250ms"; "0"; "3"; "1e3s"; ""; "9223372036854775808ns"; ".5s"; "2562048h"]
  = [Some (5 * Second); Some (90 * Second); Some (90 * Minute); Some (- 250 * Millisecond); Some 0; None; None; None; None;
     Some (500 * Millisecond); None].
Proof. vm_compute. reflexivity. Qed.

Example text_examples :
  TrimSpace (bytes_of " x y" ++ [zb 194; zb 160]) = bytes_of "x y" /\ ToUpper (bytes_of "2Mi" ++ [zb 98]) = bytes_of "2MIB" /\
  cut_suffix (bytes_of "MIB") (bytes_of "2MIB") = Some (bytes_of "2").
Proof. vm_compute. split_and!; reflexivity. Qed.
