(* ===== verification/Json.v ===== *)
(** * Json: the part of Go's [encoding/json] the sources use

    A lexer for JSON text, the token stream of [json.Decoder] ([Token] and
    [More], with the decoder's own state and stack), the value grammar behind
    [json.Unmarshal] and [Decoder.Decode], decoding of an object into a struct
    (exact then case-folded field match, [DisallowUnknownFields], integer
    literals at the field's width, [null] leaving the field as it was) and
    [json.Marshal] of a flat struct. *)

From S2P Require Import Prelude GoText.

(** ** Lexical grammar *)

Inductive delim := LBrace | RBrace | LBrack | RBrack.

(** [TBad] ends the stream at the first byte that starts no token: the
    decoder fails only when it gets there, as Go's scanner does. *)
Inductive token :=
| TDelim (d : delim)
| TColon
| TComma
| TStr (s : string)
| TNum (raw : bytes)
| TBool (b : bool)
| TNull
| TBad.

#[export] Instance delim_eq_dec : EqDecision delim.
Proof. solve_decision. Defined.
#[export] Instance token_eq_dec : EqDecision token.
Proof. solve_decision. Defined.

Definition quote : Byte.byte := Byte.x22.
Definition backslash : Byte.byte := Byte.x5c.

Definition is_space (b : Byte.byte) : bool :=
  Byte.eqb b Byte.x20 || Byte.eqb b Byte.x09 || Byte.eqb b Byte.x0d || Byte.eqb b Byte.x0a.

Definition hex4 (a b c d : Byte.byte) : option Z :=
  match hex_val a, hex_val b, hex_val c, hex_val d with
  | Some w, Some x, Some y, Some z => Some (4096 * w + 256 * x + 16 * y + z)
  | _, _, _, _ => None
  end.

(** U+FFFD in UTF-8, what the decoder writes for an unpaired surrogate or an
    ill-formed byte. *)
Definition replacement : bytes := [Byte.xef; Byte.xbf; Byte.xbd].

Definition is_surrogate (u : Z) : bool := (55296 <=? u) && (u <=? 57343).

(** The second half of a surrogate pair, written [\uXXXX] right after. *)
Definition surrogate_pair (u : Z) (c1 c2 a b c d : Byte.byte) : option Z :=
  if Byte.eqb c1 backslash && Byte.eqb c2 "u"%byte then
    match hex4 a b c d with
    | Some v =>
      if (u <=? 56319) && (56320 <=? v) && (v <=? 57343)
      then Some (65536 + (u - 55296) * 1024 + (v - 56320)) else None
    | None => None
    end
  else None.

Definition simple_escape (e : Byte.byte) : option Byte.byte :=
  if Byte.eqb e quote || Byte.eqb e backslash || Byte.eqb e "/"%byte then Some e
  else if Byte.eqb e "b"%byte then Some Byte.x08
  else if Byte.eqb e "f"%byte then Some Byte.x0c
  else if Byte.eqb e "n"%byte then Some Byte.x0a
  else if Byte.eqb e "r"%byte then Some Byte.x0d
  else if Byte.eqb e "t"%byte then Some Byte.x09
  else None.

Definition prepend (pre : bytes) (r : option (bytes * bytes)) : option (bytes * bytes) :=
  match r with Some (s, rest) => Some (pre ++ s, rest) | None => None end.

(** A string literal after its opening quote: (decoded bytes, input left). *)
Fixpoint lex_string (bs : bytes) : option (bytes * bytes) :=
  match bs with
  | [] => None
  | b :: r =>
    if Byte.eqb b quote then Some ([], r)
    else if Byte.eqb b backslash then
      match r with
      | [] => None
      | e :: r1 =>
        if Byte.eqb e "u"%byte then
          match r1 with
          | h1 :: h2 :: h3 :: h4 :: r2 =>
            match hex4 h1 h2 h3 h4 with
            | None => None
            | Some u =>
              if is_surrogate u then
                match r2 with
                | c1 :: c2 :: g1 :: g2 :: g3 :: g4 :: r3 =>
                  match surrogate_pair u c1 c2 g1 g2 g3 g4 with
                  | Some p => prepend (encode_rune p) (lex_string r3)
                  | None => prepend replacement (lex_string r2)
                  end
                | _ => prepend replacement (lex_string r2)
                end
              else prepend (encode_rune u) (lex_string r2)
            end
          | _ => None
          end
        else match simple_escape e with
             | Some c => prepend [c] (lex_string r1)
             | None => None
             end
      end
    else if bz b <? 32 then None
    else
      match rune_width (b :: r), r with
      | Some 2%nat, x :: r1 => prepend [b; x] (lex_string r1)
      | Some 3%nat, x :: y :: r1 => prepend [b; x; y] (lex_string r1)
      | Some 4%nat, x :: y :: z :: r1 => prepend [b; x; y; z] (lex_string r1)
      | None, _ => prepend replacement (lex_string r)
      | _, _ => prepend [b] (lex_string r)
      end
  end.

Fixpoint span_digits (bs : bytes) : bytes * bytes :=
  match bs with
  | [] => ([], [])
  | b :: r => if is_digit b then let '(d, t) := span_digits r in (b :: d, t) else ([], bs)
  end.

(** One or more digits, or no number. *)
Definition digits1 (bs : bytes) : option (bytes * bytes) :=
  match span_digits bs with
  | ([], _) => None
  | p => Some p
  end.

Definition lex_int (bs : bytes) : option (bytes * bytes) :=
  match bs with
  | b :: r => if Byte.eqb b "0"%byte then Some ([b], r) else digits1 bs
  | [] => None
  end.

Definition lex_frac (bs : bytes) : option (bytes * bytes) :=
  match bs with
  | b :: r =>
    if Byte.eqb b "."%byte
    then match digits1 r with Some (d, t) => Some (b :: d, t) | None => None end
    else Some ([], bs)
  | [] => Some ([], [])
  end.

Definition lex_exp (bs : bytes) : option (bytes * bytes) :=
  match bs with
  | b :: r =>
    if Byte.eqb b "e"%byte || Byte.eqb b "E"%byte then
      match r with
      | s :: r1 =>
        if Byte.eqb s "+"%byte || Byte.eqb s "-"%byte
        then match digits1 r1 with Some (d, t) => Some (b :: s :: d, t) | None => None end
        else match digits1 r with Some (d, t) => Some (b :: d, t) | None => None end
      | [] => None
      end
    else Some ([], bs)
  | [] => Some ([], [])
  end.

Definition lex_number (bs : bytes) : option (bytes * bytes) :=
  let '(sign, body) :=
    match bs with
    | b :: r => if Byte.eqb b "-"%byte then ([b], r) else ([], bs)
    | [] => ([], [])
    end in
  match lex_int body with
  | None => None
  | Some (i, r1) =>
    match lex_frac r1 with
    | None => None
    | Some (f, r2) =>
      match lex_exp r2 with
      | None => None
      | Some (e, r3) => Some (sign ++ i ++ f ++ e, r3)
      end
    end
  end.

Fixpoint strip_prefix (pre bs : bytes) : option bytes :=
  match pre, bs with
  | [], _ => Some bs
  | p :: ps, b :: r => if Byte.eqb p b then strip_prefix ps r else None
  | _ :: _, [] => None
  end.

Definition lit_true : bytes := bytes_of "true".
Definition lit_false : bytes := bytes_of "false".
Definition lit_null : bytes := bytes_of "null".

(** One token and the input after it; [None] where the scanner stops. *)
Definition lex_one (bs : bytes) : option (token * bytes) :=
  match bs with
  | [] => None
  | b :: r =>
    if Byte.eqb b "{"%byte then Some (TDelim LBrace, r)
    else if Byte.eqb b "}"%byte then Some (TDelim RBrace, r)
    else if Byte.eqb b "["%byte then Some (TDelim LBrack, r)
    else if Byte.eqb b "]"%byte then Some (TDelim RBrack, r)
    else if Byte.eqb b ":"%byte then Some (TColon, r)
    else if Byte.eqb b ","%byte then Some (TComma, r)
    else if Byte.eqb b quote then
      match lex_string r with Some (s, t) => Some (TStr (string_of s), t) | None => None end
    else if is_digit b || Byte.eqb b "-"%byte then
      match lex_number bs with Some (n, t) => Some (TNum n, t) | None => None end
    else match strip_prefix lit_true bs with
    | Some t => Some (TBool true, t)
    | None =>
      match strip_prefix lit_false bs with
      | Some t => Some (TBool false, t)
      | None =>
        match strip_prefix lit_null bs with
        | Some t => Some (TNull, t)
        | None => None
        end
      end
    end
  end.

Arguments lex_one : simpl never.

Fixpoint lex_fuel (fuel : nat) (bs : bytes) : list token :=
  match bs with
  | [] => []
  | b :: r =>
    match fuel with
    | O => [TBad]
    | S f =>
      if is_space b then lex_fuel f r
      else match lex_one bs with
           | Some (t, rest) => t :: lex_fuel f rest
           | None => [TBad]
           end
    end
  end.

(** Every step consumes a byte, so the input length is enough fuel. *)
Definition lex (bs : bytes) : list token := lex_fuel (length bs) bs.

Lemma span_digits_shrinks bs d t : span_digits bs = (d, t) -> (length t <= length bs)%nat.
Proof.
  revert d t. induction bs as [|b r IH]; intros d t H; simpl in H; [by simplify_eq |].
  destruct (is_digit b); [| by simplify_eq].
  destruct (span_digits r) as [d' t'] eqn:E. simplify_eq. specialize (IH _ _ eq_refl). simpl. lia.
Qed.

Lemma digits1_shrinks bs d t : digits1 bs = Some (d, t) -> (length t < length bs)%nat.
Proof.
  unfold digits1. destruct bs as [|b r]; [done |]. simpl. destruct (is_digit b); [| done].
  destruct (span_digits r) as [d' t'] eqn:E. intros [= <- <-].
  apply span_digits_shrinks in E. lia.
Qed.

Lemma lex_number_shrinks bs n t : lex_number bs = Some (n, t) -> (length t < length bs)%nat.
Proof.
  unfold lex_number.
  destruct (match bs with [] => ([], []) | b :: r => _ end) as [sign body] eqn:Eb.
  assert (Hb : (length body <= length bs)%nat).
  { destruct bs as [|b r]; [by simplify_eq |].
    destruct (Byte.eqb b "-"%byte); simplify_eq; simpl; lia. }
  destruct (lex_int body) as [[i r1]|] eqn:E1; [| done].
  assert (H1 : (length r1 < length body)%nat).
  { destruct body as [|b r]; [done |]. unfold lex_int in E1.
    destruct (Byte.eqb b "0"%byte); [simplify_eq; simpl; lia | by apply digits1_shrinks in E1]. }
  destruct (lex_frac r1) as [[f r2]|] eqn:E2; [| done].
  assert (H2 : (length r2 <= length r1)%nat).
  { destruct r1 as [|b r]; simpl in E2; [by simplify_eq |].
    destruct (Byte.eqb b "."%byte); [| by simplify_eq].
    destruct (digits1 r) as [[]|] eqn:E; [| done]. apply digits1_shrinks in E.
    simplify_eq. simpl. lia. }
  destruct (lex_exp r2) as [[e r3]|] eqn:E3; [| done]. intros [= <- <-].
  enough ((length r3 <= length r2)%nat) by lia.
  destruct r2 as [|b r]; cbn [lex_exp] in E3; [by simplify_eq |].
  destruct (Byte.eqb b "e"%byte || Byte.eqb b "E"%byte); [| by simplify_eq].
  destruct r as [|s r4]; [done |].
  destruct (Byte.eqb s "+"%byte || Byte.eqb s "-"%byte).
  - destruct (digits1 r4) as [[]|] eqn:E; [| done]. apply digits1_shrinks in E. simplify_eq. simpl. lia.
  - destruct (digits1 (s :: r4)) as [[]|] eqn:E; [| done].
    apply digits1_shrinks in E. simplify_eq. simpl in *. lia.
Qed.

Lemma lex_string_shrinks bs s rest : lex_string bs = Some (s, rest) -> (length rest < length bs)%nat.
Proof.
  revert s rest. induction bs as [bs IH] using (induction_ltof1 _ (@length _)); unfold ltof in IH.
  intros s rest H. destruct bs as [|b r]; [done |]. cbn [lex_string] in H.
  assert (Hpre : forall pre bs', (length bs' < length (b :: r))%nat ->
            prepend pre (lex_string bs') = Some (s, rest) -> (length rest < length (b :: r))%nat).
  { intros pre bs' Hl Hp. unfold prepend in Hp.
    destruct (lex_string bs') as [[s' r']|] eqn:E; [| done]. injection Hp as _ <-.
    specialize (IH _ Hl _ _ E). lia. }
  repeat first
    [ discriminate H
    | injection H as _ <-; simpl; lia
    | (eapply Hpre; [| exact H]; simpl; lia)
    | match type of H with context [match ?x with _ => _ end] => destruct x end ].
Qed.

Lemma strip_prefix_length pre bs t :
  strip_prefix pre bs = Some t -> (length bs = length pre + length t)%nat.
Proof.
  revert bs. induction pre as [|p ps IH]; intros [|b r] H; simpl in H; simplify_eq; [done.. |].
  destruct (Byte.eqb p b); [| done]. apply IH in H. simpl. lia.
Qed.

Lemma lex_one_shrinks bs t rest : lex_one bs = Some (t, rest) -> (length rest < length bs)%nat.
Proof.
  unfold lex_one. destruct bs as [|b r]; [done |]. intros H.
  repeat (match type of H with context [if ?c then _ else _] =>
            lazymatch c with context [if _ then _ else _] => fail | _ => destruct c end end;
          try (injection H as _ <-; simpl; lia)).
  - destruct (lex_string r) as [[s u]|] eqn:E; [| done]. apply lex_string_shrinks in E.
    simplify_eq. simpl. lia.
  - destruct (lex_number (b :: r)) as [[n u]|] eqn:E; [| done]. apply lex_number_shrinks in E.
    by simplify_eq.
  - destruct (strip_prefix lit_true (b :: r)) eqn:E1;
      [apply strip_prefix_length in E1; simplify_eq; simpl in *; lia |].
    destruct (strip_prefix lit_false (b :: r)) eqn:E2;
      [apply strip_prefix_length in E2; simplify_eq; simpl in *; lia |].
    destruct (strip_prefix lit_null (b :: r)) eqn:E3; [| done].
    apply strip_prefix_length in E3. simplify_eq. simpl in *. lia.
Qed.

Lemma lex_fuel_enough n m bs :
  (length bs <= n)%nat -> (length bs <= m)%nat -> lex_fuel n bs = lex_fuel m bs.
Proof.
  revert m bs. induction n as [|n IH]; intros m [|b r] Hn Hm; simpl in *; try lia;
    try (by destruct m); destruct m as [|m]; [lia |]. cbn [lex_fuel].
  destruct (is_space b); [apply IH; lia |].
  destruct (lex_one (b :: r)) as [[t rest]|] eqn:E; [| done].
  apply lex_one_shrinks in E. simpl in E. f_equal. apply IH; lia.
Qed.

Lemma lex_nil : lex [] = [].
Proof. done. Qed.

Lemma lex_space b r : is_space b = true -> lex (b :: r) = lex r.
Proof. intros H. unfold lex. simpl. by rewrite H. Qed.

Lemma lex_step b r t rest :
  is_space b = false -> lex_one (b :: r) = Some (t, rest) -> lex (b :: r) = t :: lex rest.
Proof.
  intros Hs H. unfold lex. cbn [length lex_fuel]. rewrite Hs, H. f_equal.
  apply lex_one_shrinks in H. simpl in H. apply lex_fuel_enough; lia.
Qed.

(** ** [json.Decoder]: [Token] and [More] *)

Inductive tstate :=
| TopValue | ArrayStart | ArrayValue | ArrayComma
| ObjectStart | ObjectKey | ObjectColon | ObjectValue | ObjectComma.

#[export] Instance tstate_eq_dec : EqDecision tstate.
Proof. solve_decision. Defined.

Record decoder := Dec { d_toks : list token; d_state : tstate; d_stack : list tstate }.

(** [json.Token]. *)
Inductive jtoken :=
| JDelim (d : delim)
| JString (s : string)
| JNumber (raw : bytes)
| JBool (b : bool)
| JNull.

Inductive token_result :=
| TokEOF
| TokErr
| TokOk (t : jtoken) (d : decoder).

Definition value_allowed (s : tstate) : bool :=
  match s with TopValue | ArrayStart | ArrayValue | ObjectValue => true | _ => false end.

(** [tokenValueEnd]. *)
Definition value_end (s : tstate) : tstate :=
  match s with
  | ArrayStart | ArrayValue => ArrayComma
  | ObjectValue => ObjectComma
  | s => s
  end.

Definition scalar_token (t : jtoken) (r : list token) (s : tstate) (k : list tstate) : token_result :=
  if value_allowed s then TokOk t (Dec r (value_end s) k) else TokErr.

Fixpoint next_token (ts : list token) (s : tstate) (k : list tstate) : token_result :=
  match ts with
  | [] => TokEOF
  | TBad :: _ => TokErr
  | TDelim LBrack :: r =>
    if value_allowed s then TokOk (JDelim LBrack) (Dec r ArrayStart (s :: k)) else TokErr
  | TDelim LBrace :: r =>
    if value_allowed s then TokOk (JDelim LBrace) (Dec r ObjectStart (s :: k)) else TokErr
  | TDelim RBrack :: r =>
    match s, k with
    | ArrayStart, p :: k' | ArrayComma, p :: k' => TokOk (JDelim RBrack) (Dec r (value_end p) k')
    | _, _ => TokErr
    end
  | TDelim RBrace :: r =>
    match s, k with
    | ObjectStart, p :: k' | ObjectComma, p :: k' => TokOk (JDelim RBrace) (Dec r (value_end p) k')
    | _, _ => TokErr
    end
  | TColon :: r =>
    match s with ObjectColon => next_token r ObjectValue k | _ => TokErr end
  | TComma :: r =>
    match s with
    | ArrayComma => next_token r ArrayValue k
    | ObjectComma => next_token r ObjectKey k
    | _ => TokErr
    end
  | TStr x :: r =>
    match s with
    | ObjectStart | ObjectKey => TokOk (JString x) (Dec r ObjectColon k)
    | _ => scalar_token (JString x) r s k
    end
  | TNum n :: r => scalar_token (JNumber n) r s k
  | TBool b :: r => scalar_token (JBool b) r s k
  | TNull :: r => scalar_token JNull r s k
  end.

(** [decoder.Token()] and [decoder.More()]. *)
Definition dec_token (d : decoder) : token_result := next_token (d_toks d) (d_state d) (d_stack d).

Definition dec_more (d : decoder) : bool :=
  match d_toks d with
  | [] => false
  | TDelim RBrace :: _ | TDelim RBrack :: _ => false
  | _ => true
  end.

Definition new_decoder (data : bytes) : decoder := Dec (lex data) TopValue [].

(** ** Values: the grammar of [Unmarshal] and [Decode] *)

Inductive json :=
| VNull
| VBool (b : bool)
| VNum (raw : bytes)
| VStr (s : string)
| VArr (items : list json)
| VObj (members : list (string * json)).

(** [maxNestingDepth]: an opening bracket beyond it is an error. *)
Definition max_nesting_depth : Z := 10000.

Fixpoint parse_value (fuel : nat) (depth : Z) (ts : list token) : option (json * list token) :=
  match fuel with
  | O => None
  | S f =>
    match ts with
    | TNull :: r => Some (VNull, r)
    | TBool b :: r => Some (VBool b, r)
    | TNum n :: r => Some (VNum n, r)
    | TStr s :: r => Some (VStr s, r)
    | TDelim LBrack :: r =>
      if depth <=? 0 then None else
      match r with
      | TDelim RBrack :: r' => Some (VArr [], r')
      | _ => match parse_items f (depth - 1) r with
             | Some (l, r') => Some (VArr l, r')
             | None => None
             end
      end
    | TDelim LBrace :: r =>
      if depth <=? 0 then None else
      match r with
      | TDelim RBrace :: r' => Some (VObj [], r')
      | _ => match parse_members f (depth - 1) r with
             | Some (l, r') => Some (VObj l, r')
             | None => None
             end
      end
    | _ => None
    end
  end
with parse_items (fuel : nat) (depth : Z) (ts : list token) : option (list json * list token) :=
  match fuel with
  | O => None
  | S f =>
    match parse_value f depth ts with
    | Some (v, TComma :: r) =>
      match parse_items f depth r with Some (l, r') => Some (v :: l, r') | None => None end
    | Some (v, TDelim RBrack :: r) => Some ([v], r)
    | _ => None
    end
  end
with parse_members (fuel : nat) (depth : Z) (ts : list token)
  : option (list (string * json) * list token) :=
  match fuel with
  | O => None
  | S f =>
    match ts with
    | TStr key :: TColon :: r0 =>
      match parse_value f depth r0 with
      | Some (v, TComma :: r) =>
        match parse_members f depth r with
        | Some (l, r') => Some ((key, v) :: l, r')
        | None => None
        end
      | Some (v, TDelim RBrace :: r) => Some ([(key, v)], r)
      | _ => None
      end
    | _ => None
    end
  end.

Definition parse_fuel (ts : list token) : nat := 2 * length ts + 2.

(** The whole input is one value ([json.Unmarshal]'s validity check; the
    same for a [Decode] followed by a [Decode] that must hit the end). *)
Definition parse_document (data : bytes) : option json :=
  let ts := lex data in
  match parse_value (parse_fuel ts) max_nesting_depth ts with
  | Some (v, []) => Some v
  | _ => None
  end.

(** ** Decoding into a struct *)

Inductive field_kind := KString | KInt | KUint32 | KUint64 | KBool | KInt64Ptr | KStrings.

Inductive field_val :=
| FString (s : string)
| FInt (z : Z)
| FBool (b : bool)
| FPtr (p : option Z)
| FStrings (items : list (option string)) (slots : list string).

Definition schema := list (string * field_kind).

(** An element of a [[]string]: a [null] leaves the slot as it was. *)
Definition string_item (v : json) : option (option string) :=
  match v with VStr s => Some (Some s) | VNull => Some None | _ => None end.

(** A member value stored in a field: [Some None] leaves the field unchanged
    (a [null]), [None] is an [UnmarshalTypeError]. *)
Definition store (k : field_kind) (v : json) : option (option field_val) :=
  match k, v with
  | KInt64Ptr, VNull => Some (Some (FPtr None))
  | KStrings, VNull => Some (Some (FStrings [] []))
  | KStrings, VArr items =>
    match mapM string_item items with Some l => Some (Some (FStrings l [])) | None => None end
  | _, VNull => Some None
  | KString, VStr s => Some (Some (FString s))
  | KBool, VBool b => Some (Some (FBool b))
  | KInt, VNum raw => match parse_int64 raw with Some z => Some (Some (FInt z)) | None => None end
  | KUint32, VNum raw => match parse_uint 32 raw with Some z => Some (Some (FInt z)) | None => None end
  | KUint64, VNum raw => match parse_uint 64 raw with Some z => Some (Some (FInt z)) | None => None end
  | KInt64Ptr, VNum raw =>
    match parse_int64 raw with Some z => Some (Some (FPtr (Some z))) | None => None end
  | _, _ => None
  end.

(** Decoding into a slice that an earlier (case-folded) member already filled
    reuses its slots; an empty or [null] list drops them. *)
Fixpoint overlay (items : list (option string)) (slots : list string) : list string :=
  match items with
  | [] => slots
  | o :: r => default (default EmptyString (head slots)) o :: overlay r (tail slots)
  end.

Definition assign (old : option field_val) (x : field_val) : field_val :=
  match x with
  | FStrings [] _ => FStrings [] []
  | FStrings items _ =>
    FStrings items (overlay items (match old with Some (FStrings _ slots) => slots | _ => [] end))
  | _ => x
  end.

(** [foldName] as far as it can equal an ASCII field name: ASCII letters to
    upper case, U+017F to [S] and the Kelvin sign U+212A to [K]. *)
Fixpoint fold_name (bs : bytes) : bytes :=
  match bs with
  | [] => []
  | a :: r =>
    match r with
    | b :: r1 =>
      if Byte.eqb a Byte.xc5 && Byte.eqb b Byte.xbf then "S"%byte :: fold_name r1
      else match r1 with
      | c :: r2 =>
        if Byte.eqb a Byte.xe2 && Byte.eqb b Byte.x84 && Byte.eqb c Byte.xaa
        then "K"%byte :: fold_name r2
        else ascii_upper_byte a :: fold_name r
      | [] => ascii_upper_byte a :: fold_name r
      end
    | [] => [ascii_upper_byte a]
    end
  end.

Definition folded_eqb (x y : string) : bool :=
  bool_decide (fold_name (bytes_of x) = fold_name (bytes_of y)).

(** Field lookup: the exact name first, then the case-folded one. *)
Definition find_field (fs : schema) (key : string) : option (string * field_kind) :=
  match List.find (fun f => String.eqb f.1 key) fs with
  | Some f => Some f
  | None => List.find (fun f => folded_eqb f.1 key) fs
  end.

(** Members in document order, a later one overwriting an earlier one;
    [strict] is [DisallowUnknownFields].  Any error makes the call fail. *)
Fixpoint decode_members (fs : schema) (strict : bool) (ms : list (string * json))
    (acc : gmap string field_val) : option (gmap string field_val) :=
  match ms with
  | [] => Some acc
  | (key, v) :: r =>
    match find_field fs key with
    | None => if strict then None else decode_members fs strict r acc
    | Some (name, k) =>
      match store k v with
      | None => None
      | Some None => decode_members fs strict r acc
      | Some (Some x) => decode_members fs strict r (<[name := assign (acc !! name) x]> acc)
      end
    end
  end.

Definition decode_struct (fs : schema) (strict : bool) (v : json) : option (gmap string field_val) :=
  match v with
  | VObj ms => decode_members fs strict ms ∅
  | VNull => Some ∅
  | _ => None
  end.

Definition get_string (m : gmap string field_val) (name : string) : string :=
  match m !! name with Some (FString s) => s | _ => EmptyString end.
Definition get_int (m : gmap string field_val) (name : string) : Z :=
  match m !! name with Some (FInt z) => z | _ => 0 end.
Definition get_bool (m : gmap string field_val) (name : string) : bool :=
  match m !! name with Some (FBool b) => b | _ => false end.
Definition get_ptr (m : gmap string field_val) (name : string) : option Z :=
  match m !! name with Some (FPtr p) => p | _ => None end.

Definition get_strings (m : gmap string field_val) (name : string) : list string :=
  match m !! name with Some (FStrings items slots) => firstn (length items) slots | _ => [] end.

(** ** [json.Marshal] of a flat struct *)

Inductive marshal_val :=
| MString (s : string)
| MInt (z : Z)
| MBool (b : bool).

Definition hex_digit (v : Z) : Byte.byte := if v <? 10 then zb (48 + v) else zb (87 + v).

(** One ASCII byte of a string literal (HTML-escaping encoder). *)
Definition quote_ascii (b : Byte.byte) : bytes :=
  if Byte.eqb b quote || Byte.eqb b backslash then [backslash; b]
  else if Byte.eqb b Byte.x08 then [backslash; "b"%byte]
  else if Byte.eqb b Byte.x0c then [backslash; "f"%byte]
  else if Byte.eqb b Byte.x0a then [backslash; "n"%byte]
  else if Byte.eqb b Byte.x0d then [backslash; "r"%byte]
  else if Byte.eqb b Byte.x09 then [backslash; "t"%byte]
  else if (bz b <? 32) || Byte.eqb b "<"%byte || Byte.eqb b ">"%byte || Byte.eqb b "&"%byte
  then [backslash; "u"%byte; "0"%byte; "0"%byte; hex_digit (bz b / 16); hex_digit (bz b mod 16)]
  else [b].

Definition is_line_separator (a b c : Byte.byte) : bool :=
  Byte.eqb a Byte.xe2 && Byte.eqb b Byte.x80 && (Byte.eqb c Byte.xa8 || Byte.eqb c Byte.xa9).

Fixpoint quote_bytes (bs : bytes) : bytes :=
  match bs with
  | [] => []
  | b :: r =>
    if bz b <? 128 then quote_ascii b ++ quote_bytes r
    else
      match rune_width (b :: r), r with
      | Some 2%nat, x :: r1 => b :: x :: quote_bytes r1
      | Some 3%nat, x :: y :: r1 =>
        if is_line_separator b x y
        then bytes_of "\u202" ++ (if Byte.eqb y Byte.xa8 then "8"%byte else "9"%byte) :: quote_bytes r1
        else b :: x :: y :: quote_bytes r1
      | Some 4%nat, x :: y :: z :: r1 => b :: x :: y :: z :: quote_bytes r1
      | _, _ => bytes_of "\ufffd" ++ quote_bytes r
      end
  end.

Definition marshal_string (s : string) : bytes := quote :: quote_bytes (bytes_of s) ++ [quote].

Definition marshal_value (v : marshal_val) : bytes :=
  match v with
  | MString s => marshal_string s
  | MInt z => show_int z
  | MBool b => if b then lit_true else lit_false
  end.

Definition marshal_member (m : string * marshal_val) : bytes :=
  marshal_string m.1 ++ ":"%byte :: marshal_value m.2.

Fixpoint marshal_members (ms : list (string * marshal_val)) : bytes :=
  match ms with
  | [] => []
  | [m] => marshal_member m
  | m :: r => marshal_member m ++ ","%byte :: marshal_members r
  end.

Definition marshal_object (ms : list (string * marshal_val)) : bytes :=
  "{"%byte :: marshal_members ms ++ ["}"%byte].
