(* ===== verification/StrictJson.v ===== *)
(** * StrictJson: [internal/contractv1/strict_json.go]

    The token walk that decides whether a payload is one JSON object with no
    duplicate member name at any depth, the scan of its top-level members and
    the presence checks built on it.  [strict_json_iff] relates the walk to the
    value grammar of {!Json}. *)

From S2P Require Import Prelude GoText Json.

(** Ghost error: the walk's fuel ran out ([walk_fuel] is always enough). *)
Definition err_fuel : error := ErrSentinel "out of fuel".

Fixpoint consumeJSONObject (fuel : nat) (d : decoder) (seen : gset string) : result decoder :=
  match fuel with
  | O => Err err_fuel
  | S f =>
    if dec_more d then
      match dec_token d with
      | TokOk (JString key) d1 =>
        if bool_decide (key ∈ seen)
        then Err (ErrMsg ("duplicate JSON object member name: " +:+ key))
        else
          match dec_token d1 with
          | TokOk v d2 =>
            match consumeJSONValue f d2 v with
            | Ok d3 => consumeJSONObject f d3 ({[key]} ∪ seen)
            | Err e => Err e
            end
          | _ => Err (ErrMsg "invalid JSON value")
          end
      | TokOk _ _ => Err (ErrMsg "JSON object member name must be a string")
      | _ => Err (ErrMsg "invalid JSON object key")
      end
    else
      match dec_token d with
      | TokOk (JDelim RBrace) d1 => Ok d1
      | _ => Err (ErrMsg "invalid JSON object close")
      end
  end
with consumeJSONValue (fuel : nat) (d : decoder) (t : jtoken) : result decoder :=
  match t with
  | JDelim dl =>
    match fuel with
    | O => Err err_fuel
    | S f =>
      match dl with
      | LBrace => consumeJSONObject f d ∅
      | LBrack => consumeJSONArray f d
      | _ => Err (ErrMsg "unexpected JSON delimiter")
      end
    end
  | _ => Ok d
  end
with consumeJSONArray (fuel : nat) (d : decoder) : result decoder :=
  match fuel with
  | O => Err err_fuel
  | S f =>
    if dec_more d then
      match dec_token d with
      | TokOk item d1 =>
        match consumeJSONValue f d1 item with
        | Ok d2 => consumeJSONArray f d2
        | Err e => Err e
        end
      | _ => Err (ErrMsg "invalid JSON array item")
      end
    else
      match dec_token d with
      | TokOk (JDelim RBrack) d1 => Ok d1
      | _ => Err (ErrMsg "invalid JSON array close")
      end
  end.

Definition walk_fuel (data : bytes) : nat := 2 * length (lex data) + 4.

Definition validateStrictJSONObject (data : bytes) : result unit :=
  reject_if (negb (utf8_valid data)) (ErrMsg "JSON payload is not valid UTF-8") ;?
  match dec_token (new_decoder data) with
  | TokOk (JDelim LBrace) d =>
    let? d' := consumeJSONObject (walk_fuel data) d ∅ in
    match dec_token d' with
    | TokEOF => Ok tt
    | TokOk _ _ => Err (ErrMsg "multiple JSON values are not allowed")
    | TokErr => Err (ErrMsg "trailing JSON is invalid")
    end
  | TokOk _ _ => Err (ErrMsg "JSON payload must be one object")
  | _ => Err (ErrMsg "invalid JSON")
  end.

(** The member loop of [scanTopLevelMembers]. *)
Fixpoint scan_members (fuel : nat) (d : decoder) (acc : gmap string jtoken)
  : result (gmap string jtoken) :=
  match fuel with
  | O => Err err_fuel
  | S f =>
    if dec_more d then
      match dec_token d with
      | TokOk (JString key) d1 =>
        match dec_token d1 with
        | TokOk v d2 =>
          match consumeJSONValue f d2 v with
          | Ok d3 => scan_members f d3 (<[key := v]> acc)
          | Err e => Err e
          end
        | _ => Err (ErrMsg "invalid JSON value")
        end
      | TokOk _ _ => Err (ErrMsg "JSON object member name must be a string")
      | _ => Err (ErrMsg "invalid JSON object key")
      end
    else Ok acc
  end.

Definition scanTopLevelMembers (data : bytes) : result (gmap string jtoken) :=
  match dec_token (new_decoder data) with
  | TokOk _ d => scan_members (walk_fuel data) d ∅
  | _ => Err (ErrMsg "invalid JSON")
  end.

Definition is_null_token (t : jtoken) : bool :=
  match t with JNull => true | _ => false end.

(** [sort.Strings(null)]; [null[0]]: the first in byte order. *)
Fixpoint least_string (names : list string) : option string :=
  match names with
  | [] => None
  | n :: r =>
    match least_string r with
    | Some m => Some (if String.leb n m then n else m)
    | None => Some n
    end
  end.

Definition null_members (members : gmap string jtoken) : list string :=
  fst <$> List.filter (fun m => is_null_token m.2) (map_to_list members).

Definition rejectNullMembers (data : bytes) : result unit :=
  let? members := scanTopLevelMembers data in
  match least_string (null_members members) with
  | None => Ok tt
  | Some name => Err (ErrMsg (name +:+ " must not be null"))
  end.

Definition require_one (members : gmap string jtoken) (name : string) : result unit :=
  match members !! name with
  | None => Err (ErrMsg (name +:+ " is required by the contract"))
  | Some JNull => Err (ErrMsg (name +:+ " must not be null"))
  | Some _ => Ok tt
  end.

Fixpoint require_each (members : gmap string jtoken) (names : list string) : result unit :=
  match names with
  | [] => Ok tt
  | n :: r => require_one members n ;? require_each members r
  end.

Definition requirePresent (data : bytes) (names : list string) : result unit :=
  let? members := scanTopLevelMembers data in require_each members names.

Fixpoint reject_empty_each (members : gmap string jtoken) (names : list string) : result unit :=
  match names with
  | [] => Ok tt
  | n :: r =>
    match members !! n with
    | Some (JString EmptyString) => Err (ErrMsg (n +:+ " must not be empty when present"))
    | _ => reject_empty_each members r
    end
  end.

Definition rejectEmptyMembers (data : bytes) (names : list string) : result unit :=
  let? members := scanTopLevelMembers data in reject_empty_each members names.

(** ** Strict decoding ([decodeStrict], [decodeControlStrict] of validation.go) *)

Definition decodeStrict (fs : schema) (data : bytes) : result (gmap string field_val) :=
  match parse_document data with
  | None => Err (ErrMsg "strict JSON decode failed")
  | Some v =>
    match decode_struct fs true v with
    | Some m => Ok m
    | None => Err (ErrMsg "strict JSON decode failed")
    end
  end.

Definition decodeControlStrict (fs : schema) (data : bytes) : result (gmap string field_val) :=
  validateStrictJSONObject data ;? decodeStrict fs data.

(** [json.Unmarshal] into a struct. *)
Definition json_unmarshal (fs : schema) (data : bytes) : result (gmap string field_val) :=
  match parse_document data with
  | None => Err (ErrMsg "invalid JSON")
  | Some v =>
    match decode_struct fs false v with
    | Some m => Ok m
    | None => Err (ErrMsg "cannot unmarshal")
    end
  end.

(** ** The walk against the value grammar *)

(** No object of the value repeats a member name. *)
Fixpoint names_unique (v : json) : Prop :=
  match v with
  | VArr items => (fix all l := match l with [] => True | x :: r => names_unique x /\ all r end) items
  | VObj ms =>
    NoDup (fst <$> ms) /\
    (fix all l := match l with [] => True | m :: r => names_unique m.2 /\ all r end) ms
  | _ => True
  end.

Lemma names_unique_arr items : names_unique (VArr items) <-> Forall names_unique items.
Proof.
  simpl. induction items as [|x r IH]; [done |]. rewrite Forall_cons. by rewrite IH.
Qed.

Lemma names_unique_obj ms :
  names_unique (VObj ms) <-> NoDup (fst <$> ms) /\ Forall (fun m => names_unique m.2) ms.
Proof.
  simpl. apply and_iff_compat_l.
  induction ms as [|x r IH]; [done |]. rewrite Forall_cons. by rewrite IH.
Qed.

(** *** Completeness: what parses, the walk accepts *)

Lemma parse_value_more n dp ts v rest s k :
  parse_value n dp ts = Some (v, rest) -> dec_more (Dec ts s k) = true.
Proof.
  destruct n; [done |]. simpl. by destruct ts as [|[[]| | | | | | |] r].
Qed.

Lemma value_allowed_end s : value_allowed s = true -> s = TopValue \/ s = ArrayStart \/ s = ArrayValue \/ s = ObjectValue.
Proof. destruct s; naive_solver. Qed.

Lemma scalar_token_allowed t r s k :
  value_allowed s = true -> scalar_token t r s k = TokOk t (Dec r (value_end s) k).
Proof. unfold scalar_token. by intros ->. Qed.

Definition walk_value_ok (n : nat) : Prop :=
  forall dp ts v rest s k m,
    parse_value n dp ts = Some (v, rest) -> names_unique v ->
    value_allowed s = true -> (S n <= m)%nat ->
    exists t d1, next_token ts s k = TokOk t d1 /\
                 consumeJSONValue m d1 t = Ok (Dec rest (value_end s) k).

Definition walk_items_ok (n : nat) : Prop :=
  forall dp ts l rest d s p k m,
    parse_items n dp ts = Some (l, rest) -> Forall names_unique l ->
    s = ArrayStart \/ s = ArrayValue ->
    dec_more d = true -> dec_token d = next_token ts s (p :: k) -> (S n <= m)%nat ->
    consumeJSONArray m d = Ok (Dec rest (value_end p) k).

Definition walk_members_ok (n : nat) : Prop :=
  forall dp ts ms rest d p k m seen,
    parse_members n dp ts = Some (ms, rest) ->
    NoDup (fst <$> ms) -> Forall (fun x => names_unique x.2) ms ->
    (forall key, key ∈ fst <$> ms -> key ∉ seen) ->
    dec_more d = true -> dec_token d = next_token ts ObjectKey (p :: k) -> (S n <= m)%nat ->
    consumeJSONObject m d seen = Ok (Dec rest (value_end p) k).

Lemma walk_value_step f :
  walk_items_ok f -> walk_members_ok f -> walk_value_ok (S f).
Proof.
  intros HI HM dp ts v rest s k m Hp Hu Hs Hm. destruct m as [|m]; [lia |].
  simpl in Hp. destruct ts as [|[[]| | |x|x|x| |] r]; try done.
  - destruct (dp <=? 0); [done |].
    assert (Ht : next_token (TDelim LBrace :: r) s k = TokOk (JDelim LBrace) (Dec r ObjectStart (s :: k)))
      by (simpl; by rewrite Hs).
    eexists _, _. split; [exact Ht |]. cbn [consumeJSONValue].
    destruct r as [|t0 r0]; [by destruct f|].
    destruct (decide (t0 = TDelim RBrace)) as [->|Hne].
    { injection Hp as <- <-. destruct m; [lia | done]. }
    destruct (parse_members f (dp - 1) (t0 :: r0)) as [[l r']|] eqn:El;
      [| destruct t0 as [[]| | | | | | |]; done].
    assert (v = VObj l /\ rest = r') as [-> ->] by (destruct t0 as [[]| | | | | | |]; naive_solver).
    apply names_unique_obj in Hu as [Hnd Hall].
    eapply HM; eauto; [set_solver | | | lia].
    + destruct f; [done |]. simpl in El. destruct t0; done.
    + destruct f; [done |]. simpl in El. destruct t0; done.
  - destruct (dp <=? 0); [done |].
    assert (Ht : next_token (TDelim LBrack :: r) s k = TokOk (JDelim LBrack) (Dec r ArrayStart (s :: k)))
      by (simpl; by rewrite Hs).
    eexists _, _. split; [exact Ht |]. cbn [consumeJSONValue].
    destruct r as [|t0 r0]; [by destruct f as [|[]]|].
    destruct (decide (t0 = TDelim RBrack)) as [->|Hne].
    { injection Hp as <- <-. destruct m; [lia | done]. }
    destruct (parse_items f (dp - 1) (t0 :: r0)) as [[l r']|] eqn:El;
      [| destruct t0 as [[]| | | | | | |]; done].
    assert (v = VArr l /\ rest = r') as [-> ->] by (destruct t0 as [[]| | | | | | |]; naive_solver).
    apply names_unique_arr in Hu.
    eapply (HI _ _ _ _ _ ArrayStart); eauto; [| lia].
    destruct f; [done |]. cbn [parse_items] in El.
    destruct (parse_value f (dp - 1) (t0 :: r0)) as [[]|] eqn:E; [| done].
    by eapply parse_value_more.
  - injection Hp as <- <-. simpl.
    destruct (value_allowed_end s Hs) as [->|[->|[->| ->]]]; eauto.
  - injection Hp as <- <-. simpl. rewrite scalar_token_allowed by done. eauto.
  - injection Hp as <- <-. simpl. rewrite scalar_token_allowed by done. eauto.
  - injection Hp as <- <-. simpl. rewrite scalar_token_allowed by done. eauto.
Qed.

Lemma walk_items_step f :
  walk_value_ok f -> walk_items_ok f -> walk_items_ok (S f).
Proof.
  intros HV HI dp ts l rest d s p k m Hp Hu Hs Hmore Htok Hm.
  destruct m as [|m]; [lia |]. cbn [parse_items] in Hp.
  destruct (parse_value f dp ts) as [[v r]|] eqn:Ev; [| done].
  assert (Hl : exists l', l = v :: l').
  { destruct r as [|[[]| | | | | | |] r]; try done; [naive_solver |].
    destruct (parse_items f dp r) as [[]|]; naive_solver. }
  destruct Hl as (l' & ->). apply Forall_cons in Hu as [Hv Hl'].
  edestruct (HV dp ts v r s (p :: k) m) as (t & d1 & Ht & Hc); eauto;
    [destruct Hs as [->| ->]; done | lia |].
  cbn [consumeJSONArray]. rewrite Hmore, Htok, Ht, Hc.
  assert (value_end s = ArrayComma) as -> by (destruct Hs as [->| ->]; done).
  destruct r as [|[[]| | | | | | |] r]; try done.
  - injection Hp as <- <-. destruct m; [lia | done].
  - destruct (parse_items f dp r) as [[l2 r2]|] eqn:El; [| done]. injection Hp as <- <-.
    eapply (HI _ _ _ _ _ ArrayValue); eauto; lia.
Qed.

Lemma walk_members_step f :
  walk_value_ok f -> walk_members_ok f -> walk_members_ok (S f).
Proof.
  intros HV HM dp ts ms rest d p k m seen Hp Hnd Hall Hseen Hmore Htok Hm.
  destruct m as [|m]; [lia |]. cbn [parse_members] in Hp.
  destruct ts as [|[| | |key| | | |] [|[] r0]]; try done.
  destruct (parse_value f dp r0) as [[v r]|] eqn:Ev; [| done].
  assert (Hl : exists l', ms = (key, v) :: l').
  { destruct r as [|[[]| | | | | | |] r]; try done; [naive_solver |].
    destruct (parse_members f dp r) as [[]|]; naive_solver. }
  destruct Hl as (l' & ->). apply Forall_cons in Hall as [Hv Hl'].
  rewrite fmap_cons in Hnd, Hseen. apply NoDup_cons in Hnd as [Hfresh Hnd].
  edestruct (HV dp r0 v r ObjectValue (p :: k) m) as (t & d1 & Ht & Hc); eauto; [lia |].
  cbn [consumeJSONObject]. rewrite Hmore, Htok. cbn [next_token].
  rewrite bool_decide_eq_false_2 by (apply Hseen; simpl; set_solver).
  unfold dec_token at 1. cbn [d_toks d_state d_stack next_token]. rewrite Ht, Hc.
  destruct r as [|[[]| | | | | | |] r]; try done.
  - injection Hp as <- <-. destruct m; [lia | done].
  - destruct (parse_members f dp r) as [[l2 r2]|] eqn:El; [| done]. injection Hp as <- <-.
    eapply HM; eauto; [| lia]. intros key' Hin. apply not_elem_of_union. split.
    + rewrite elem_of_singleton. simpl in Hfresh. congruence.
    + apply Hseen. simpl. set_solver.
Qed.

Lemma walk_complete n : walk_value_ok n /\ walk_items_ok n /\ walk_members_ok n.
Proof.
  induction n as [|f (HV & HI & HM)].
  - split; [| split]; intros ?; intros; done.
  - split; [by apply walk_value_step |].
    split; [by apply walk_items_step | by apply walk_members_step].
Qed.

(** *** Soundness: what the walk accepts, parses with unique names *)

(** [body] parses to [x], for every fuel and depth that its length warrants. *)
Definition parses {A} (p : nat -> Z -> list token -> option (A * list token))
    (body : list token) (x : A) (rest : list token) : Prop :=
  (length rest < length body)%nat /\
  forall n dp, (2 * (length body - length rest) <= n)%nat -> Z.of_nat (length body) <= dp ->
    p n dp body = Some (x, rest).

Definition sound_value (m : nat) : Prop :=
  forall ts s k t d1 d',
    value_allowed s = true -> next_token ts s k = TokOk t d1 ->
    consumeJSONValue m d1 t = Ok d' ->
    exists v rest, d' = Dec rest (value_end s) k /\ parses parse_value ts v rest /\ names_unique v.

(** The tokens left to an array or object loop: at its start the body, after
    an element a comma and the body. *)
Definition loop_body (d : decoder) (body : list token) : Prop :=
  d_toks d = match d_state d with
             | ArrayStart | ObjectStart => body
             | _ => TComma :: body
             end.

Definition sound_array (m : nat) : Prop :=
  forall d p k d',
    d_stack d = p :: k -> d_state d = ArrayStart \/ d_state d = ArrayComma ->
    consumeJSONArray m d = Ok d' ->
    exists rest, d' = Dec rest (value_end p) k /\
      (d_toks d = TDelim RBrack :: rest \/
       exists body l, loop_body d body /\ parses parse_items body l rest /\
                      Forall names_unique l).

Definition sound_object (m : nat) : Prop :=
  forall d p k d' seen,
    d_stack d = p :: k -> d_state d = ObjectStart \/ d_state d = ObjectComma ->
    consumeJSONObject m d seen = Ok d' ->
    exists rest, d' = Dec rest (value_end p) k /\
      (d_toks d = TDelim RBrace :: rest \/
       exists body ms, loop_body d body /\ parses parse_members body ms rest /\
                       NoDup (fst <$> ms) /\ Forall (fun x => names_unique x.2) ms /\
                       (forall key, key ∈ fst <$> ms -> key ∉ seen)).

Lemma parses_scalar t v r :
  (forall n dp, parse_value (S n) dp (t :: r) = Some (v, r)) -> parses parse_value (t :: r) v r.
Proof.
  intros H. split; [simpl; lia |]. intros [|n] dp Hn _; [simpl in Hn; lia | done].
Qed.

Lemma parses_array r l rest :
  (r = TDelim RBrack :: rest /\ l = []) \/ parses parse_items r l rest ->
  parses parse_value (TDelim LBrack :: r) (VArr l) rest.
Proof.
  intros [[-> ->]|[Hlen Hp]]; (split; [simpl in *; lia |]); intros [|n] dp Hn Hdp;
    try (simpl in Hn; lia); cbn [parse_value];
    rewrite (proj2 (Z.leb_gt _ _)) by (simpl in Hdp; lia); [done |].
  pose proof (Hp n (dp - 1) ltac:(simpl in Hn; lia) ltac:(simpl in Hdp; lia)) as E. rewrite E.
  destruct r as [|[[]| | | | | | |] r]; try done.
  destruct n as [|[|n]]; done.
Qed.

Lemma parses_object r l rest :
  (r = TDelim RBrace :: rest /\ l = []) \/ parses parse_members r l rest ->
  parses parse_value (TDelim LBrace :: r) (VObj l) rest.
Proof.
  intros [[-> ->]|[Hlen Hp]]; (split; [simpl in *; lia |]); intros [|n] dp Hn Hdp;
    try (simpl in Hn; lia); cbn [parse_value];
    rewrite (proj2 (Z.leb_gt _ _)) by (simpl in Hdp; lia); [done |].
  pose proof (Hp n (dp - 1) ltac:(simpl in Hn; lia) ltac:(simpl in Hdp; lia)) as E. rewrite E.
  destruct r as [|[[]| | | | | | |] r]; try done.
  destruct n as [|n]; done.
Qed.

(** An element followed by the end, or by a comma and the rest of the list. *)
Lemma parses_items_cons body v r l rest :
  parses parse_value body v r ->
  (r = TDelim RBrack :: rest /\ l = []) \/
  (exists r', r = TComma :: r' /\ parses parse_items r' l rest) ->
  parses parse_items body (v :: l) rest.
Proof.
  intros [Hl1 Hp1] [[-> ->]|(r' & -> & Hl2 & Hp2)]; (split; [simpl in *; lia |]);
    intros [|n] dp Hn Hdp; try (simpl in *; lia); cbn [parse_items].
  - rewrite Hp1; [done | simpl in *; lia | lia].
  - rewrite Hp1, Hp2; [done | simpl in *; lia ..].
Qed.

Lemma parses_members_cons key body v r ms rest :
  parses parse_value body v r ->
  (r = TDelim RBrace :: rest /\ ms = []) \/
  (exists r', r = TComma :: r' /\ parses parse_members r' ms rest) ->
  parses parse_members (TStr key :: TColon :: body) ((key, v) :: ms) rest.
Proof.
  intros [Hl1 Hp1] [[-> ->]|(r' & -> & Hl2 & Hp2)]; (split; [simpl in *; lia |]);
    intros [|n] dp Hn Hdp; try (simpl in *; lia); cbn [parse_members].
  - rewrite Hp1; [done | simpl in *; lia | simpl in *; lia].
  - rewrite Hp1, Hp2; [done | simpl in *; lia ..].
Qed.

Lemma scalar_token_inv t r s k t' d :
  scalar_token t r s k = TokOk t' d -> t' = t /\ d = Dec r (value_end s) k.
Proof. unfold scalar_token. destruct (value_allowed s); naive_solver. Qed.

(** What a [Token] call returns where a value may start. *)
Lemma next_token_value ts s k t d1 :
  value_allowed s = true -> next_token ts s k = TokOk t d1 ->
  (exists r, ts = TDelim LBrace :: r /\ t = JDelim LBrace /\ d1 = Dec r ObjectStart (s :: k)) \/
  (exists r, ts = TDelim LBrack :: r /\ t = JDelim LBrack /\ d1 = Dec r ArrayStart (s :: k)) \/
  (exists r v, d1 = Dec r (value_end s) k /\ parses parse_value ts v r /\ names_unique v /\
               (forall dl, t <> JDelim dl)) \/
  t = JDelim RBrack.
Proof.
  intros Hs Ht. destruct ts as [|[[]| | |x|x|x| |] r]; cbn [next_token] in Ht; try done.
  - rewrite Hs in Ht. injection Ht as <- <-. eauto.
  - destruct s, k; done.
  - rewrite Hs in Ht. injection Ht as <- <-. eauto 7.
  - destruct s, k; try done; injection Ht as <- <-; eauto.
  - destruct s; done.
  - destruct s; done.
  - assert (t = JString x /\ d1 = Dec r (value_end s) k) as [-> ->]
      by (destruct s; try done; by apply scalar_token_inv in Ht).
    right; right; left. exists r, (VStr x). split; [done |]. split; [by apply parses_scalar | done].
  - apply scalar_token_inv in Ht as [-> ->].
    right; right; left. exists r, (VNum x). split; [done |]. split; [by apply parses_scalar | done].
  - apply scalar_token_inv in Ht as [-> ->].
    right; right; left. exists r, (VBool x). split; [done |]. split; [by apply parses_scalar | done].
  - apply scalar_token_inv in Ht as [-> ->].
    right; right; left. exists r, VNull. split; [done |]. split; [by apply parses_scalar | done].
Qed.

Lemma consume_scalar m d t : (forall dl, t <> JDelim dl) -> consumeJSONValue m d t = Ok d.
Proof. intros H. destruct m, t as [dl| | | |]; try done; by destruct (H dl). Qed.

Lemma sound_value_step m : sound_array m -> sound_object m -> sound_value (S m).
Proof.
  intros HA HO ts s k t d1 d' Hs Ht Hc.
  apply next_token_value in Ht as [(r & -> & -> & ->)|[(r & -> & -> & ->)|[(r & v & -> & Hp & Hu & Hd)| ->]]];
    [| | | done | done].
  - cbn [consumeJSONValue] in Hc. apply (HO _ s k) in Hc; [| done | by left].
    destruct Hc as (rest & -> & Hc). destruct Hc as [Hr|(body & ms & Hb & Hp & Hnd & Hall & _)].
    + exists (VObj []), rest. split; [done |]. split; [apply parses_object; by left |].
      apply names_unique_obj. split; constructor.
    + unfold loop_body in Hb. simpl in Hb. subst r.
      exists (VObj ms), rest. split; [done |]. split; [apply parses_object; by right |].
      by apply names_unique_obj.
  - cbn [consumeJSONValue] in Hc. apply (HA _ s k) in Hc; [| done | by left].
    destruct Hc as (rest & -> & Hc). destruct Hc as [Hr|(body & l & Hb & Hp & Hall)].
    + exists (VArr []), rest. split_and!; [done | | done]. apply parses_array. by left.
    + unfold loop_body in Hb. simpl in Hb. subst r.
      exists (VArr l), rest. split; [done |]. split; [apply parses_array; by right |].
      by apply names_unique_arr.
  - rewrite consume_scalar in Hc by done. injection Hc as <-. eauto.
Qed.

(** Both loops, one round: the separator, then the state a value is read in. *)
Lemma array_round d p k t d1 :
  d_stack d = p :: k -> d_state d = ArrayStart \/ d_state d = ArrayComma ->
  dec_more d = true -> dec_token d = TokOk t d1 ->
  exists body s, loop_body d body /\ value_allowed s = true /\
    value_end s = ArrayComma /\ next_token body s (p :: k) = TokOk t d1.
Proof.
  destruct d as [ts s0 k0]. cbn. intros -> Hs Hm Ht. unfold dec_token in Ht. cbn in Ht.
  unfold loop_body. cbn. destruct Hs as [->| ->].
  - exists ts, ArrayStart. done.
  - destruct ts as [|[[]| | | | | | |] r]; try done.
    exists r, ArrayValue. done.
Qed.

Lemma object_round d p k t d1 :
  d_stack d = p :: k -> d_state d = ObjectStart \/ d_state d = ObjectComma ->
  dec_more d = true -> dec_token d = TokOk t d1 ->
  exists key r, loop_body d (TStr key :: r) /\ t = JString key /\
    d1 = Dec r ObjectColon (p :: k).
Proof.
  destruct d as [ts s0 k0]. cbn. intros -> Hs Hm Ht. unfold dec_token in Ht. cbn in Ht.
  unfold loop_body. cbn. destruct Hs as [->| ->].
  - destruct ts as [|[[]| | | | | | |] r]; try done.
    injection Ht as <- <-. eauto.
  - destruct ts as [|[[]| | | | | | |] r]; try done.
    cbn [next_token] in Ht. destruct r as [|[[]| | | | | | |] r]; try done.
    injection Ht as <- <-. eauto.
Qed.

Lemma sound_array_step m : sound_value m -> sound_array m -> sound_array (S m).
Proof.
  intros HV HA d p k d' Hk Hs Hc. cbn [consumeJSONArray] in Hc.
  destruct (dec_more d) eqn:Hmore.
  - destruct (dec_token d) as [| |t d1] eqn:Ht; [done..|].
    destruct (consumeJSONValue m d1 t) as [d2|] eqn:Hcv; [| done].
    destruct (array_round _ _ _ _ _ Hk Hs Hmore Ht) as (body & s & Hb & Hsv & Hse & Ht').
    clear Ht. rename Ht' into Ht. destruct (HV _ _ _ _ _ _ Hsv Ht Hcv) as (v & r & -> & Hp & Hu). rewrite Hse in Hc.
    eapply HA in Hc as (rest & -> & Hr); [| done | by right].
    exists rest. split; [done |]. right.
    destruct Hr as [Hr|(body2 & l & Hb2 & Hp2 & Hall)]; cbn in *.
    + exists body, [v]. split_and!; [done | | by repeat constructor].
      eapply parses_items_cons; eauto.
    + exists body, (v :: l). split_and!; [done | | by constructor].
      eapply parses_items_cons; [done |]. right. by exists body2.
  - destruct d as [[|[[]| | | | | | |] r] s k0]; try done; cbn in *; subst k0;
      destruct Hs as [->| ->]; try done; injection Hc as <-; eauto.
Qed.

Lemma sound_object_step m : sound_value m -> sound_object m -> sound_object (S m).
Proof.
  intros HV HO d p k d' seen Hk Hs Hc. cbn [consumeJSONObject] in Hc.
  destruct (dec_more d) eqn:Hmore.
  - destruct (dec_token d) as [| |t d1] eqn:Ht; [done..|].
    destruct (object_round _ _ _ _ _ Hk Hs Hmore Ht) as (key & r0 & Hb & -> & ->). clear Ht.
    destruct (bool_decide (key ∈ seen)) eqn:Hseen; [done |]. bool_facts.
    destruct (dec_token (Dec r0 ObjectColon (p :: k))) as [| |t d2] eqn:Ht; [done..|].
    unfold dec_token in Ht. cbn in Ht.
    destruct r0 as [|[[]| | | | | | |] r0]; try done. cbn [next_token] in Ht.
    destruct (consumeJSONValue m d2 t) as [d3|] eqn:Hcv; [| done].
    destruct (HV _ ObjectValue _ _ _ _ eq_refl Ht Hcv) as (v & r & -> & Hp & Hu).
    eapply HO in Hc as (rest & -> & Hr); [| done | by right].
    exists rest. split; [done |]. right.
    destruct Hr as [Hr|(body2 & ms & Hb2 & Hp2 & Hnd & Hall & Hsn)]; cbn in *.
    + exists (TStr key :: TColon :: r0), [(key, v)]. split_and!; [done | | | by repeat constructor |].
      * eapply parses_members_cons; eauto.
      * apply NoDup_singleton.
      * set_solver.
    + exists (TStr key :: TColon :: r0), ((key, v) :: ms).
      split_and!; [done | | | by constructor |].
      * eapply parses_members_cons; [done |]. right. by exists body2.
      * rewrite fmap_cons. apply NoDup_cons. split; [| done]. intros Hin. set_solver.
      * set_solver.
  - destruct d as [[|[[]| | | | | | |] r] s k0]; try done; cbn in *; subst k0;
      destruct Hs as [->| ->]; try done; injection Hc as <-; eauto.
Qed.

Lemma walk_sound m : sound_value m /\ sound_array m /\ sound_object m.
Proof.
  induction m as [|m (HV & HA & HO)].
  - split_and!; [| by intros ?; intros | by intros ?; intros].
    intros ts s k t d1 d' Hs Ht Hc.
    apply next_token_value in Ht as
      [(r & -> & -> & ->)|[(r & -> & -> & ->)|[(r & v & -> & Hp & Hu & Hd)| ->]]]; try done.
    rewrite consume_scalar in Hc by done. injection Hc as <-. eauto.
  - split_and!; [by apply sound_value_step | by apply sound_array_step | by apply sound_object_step].
Qed.

(** *** The walk's fuel is enough *)

Lemma next_token_shrinks ts s k t d :
  next_token ts s k = TokOk t d -> (length (d_toks d) < length ts)%nat.
Proof.
  revert s k. induction ts as [|[[]| | |x|x|x| |] r IH]; intros s k H; cbn [next_token] in H;
    try done; simpl.
  1-4: destruct s, k; try done; injection H as <- <-; simpl; lia.
  1-2: destruct s; try done; apply IH in H; lia.
  1: destruct s; try (apply scalar_token_inv in H as [-> ->]); simplify_eq; simpl; lia.
  all: apply scalar_token_inv in H as [-> ->]; simpl; lia.
Qed.

Lemma dec_token_shrinks d t d' :
  dec_token d = TokOk t d' -> (length (d_toks d') < length (d_toks d))%nat.
Proof. apply next_token_shrinks. Qed.

Definition fuel_ok (need : nat) (d : decoder) (m : nat) (r : result decoder) : Prop :=
  (2 * length (d_toks d) + need <= m)%nat ->
  r <> Err err_fuel /\ forall d', r = Ok d' -> (length (d_toks d') <= length (d_toks d))%nat.

Lemma walk_fuel_ok m :
  (forall d t, fuel_ok 2 d m (consumeJSONValue m d t)) /\
  (forall d, fuel_ok 1 d m (consumeJSONArray m d)) /\
  (forall d seen, fuel_ok 1 d m (consumeJSONObject m d seen)).
Proof.
  induction m as [|m (HV & HA & HO)]; [by split_and!; intros; intros Hm; simpl in Hm; lia |].
  split_and!.
  - intros d t Hm. destruct t as [[]| | | |].
    1: by apply HO; lia.
    2: by apply HA; lia.
    all: by split; [| intros ? [= <-]].
  - intros d Hm. cbn [consumeJSONArray]. destruct (dec_more d).
    + destruct (dec_token d) as [| |t d1] eqn:E1; [by split.. |]. apply dec_token_shrinks in E1.
      destruct (HV d1 t) as [Hn Hl]; [lia |].
      destruct (consumeJSONValue m d1 t) as [d2|e]; [| by split; [congruence |]].
      specialize (Hl d2 eq_refl). destruct (HA d2) as [Hn' Hl']; [lia |].
      split; [done |]. intros d' Hd. apply Hl' in Hd. lia.
    + destruct (dec_token d) as [| |[[]| | | |] d1] eqn:E1; try by split. apply dec_token_shrinks in E1.
      split; [done |]. intros ? [= <-]. lia.
  - intros d seen Hm. cbn [consumeJSONObject]. destruct (dec_more d).
    + destruct (dec_token d) as [| |[|key| | |] d1] eqn:E1; try by split. apply dec_token_shrinks in E1.
      destruct (bool_decide (key ∈ seen)); [by split |].
      destruct (dec_token d1) as [| |t d2] eqn:E2; [by split.. |]. apply dec_token_shrinks in E2.
      destruct (HV d2 t) as [Hn Hl]; [lia |].
      destruct (consumeJSONValue m d2 t) as [d3|e]; [| by split; [congruence |]].
      specialize (Hl d3 eq_refl). destruct (HO d3 ({[key]} ∪ seen)) as [Hn' Hl']; [lia |].
      split; [done |]. intros d' Hd. apply Hl' in Hd. lia.
    + destruct (dec_token d) as [| |[[]| | | |] d1] eqn:E1; try by split. apply dec_token_shrinks in E1.
      split; [done |]. intros ? [= <-]. lia.
Qed.

Lemma validate_never_out_of_fuel data : validateStrictJSONObject data <> Err err_fuel.
Proof.
  unfold validateStrictJSONObject, walk_fuel. destruct (negb (utf8_valid data)); [done |]. simpl.
  destruct (dec_token (new_decoder data)) as [| |[[]| | | |] d] eqn:E; try done.
  apply dec_token_shrinks in E. simpl in E.
  destruct (walk_fuel_ok (2 * length (lex data) + 4)) as (_ & _ & HO).
  destruct (HO d ∅) as [Hn _]; [lia |].
  destruct (consumeJSONObject _ d ∅) as [d'|e]; simpl; [| by intros [= ->]].
  by destruct (dec_token d').
Qed.


(** *** Acceptance *)

Lemma parse_object_head n dp ts ms rest :
  parse_value n dp ts = Some (VObj ms, rest) -> exists r, ts = TDelim LBrace :: r.
Proof.
  destruct n; [done |]. simpl. destruct ts as [|[[]| | | | | | |] r]; try done; [eauto |].
  destruct (dp <=? 0); [done |]. destruct r as [|[[]| | | | | | |] r]; try done;
    destruct (parse_items _ _ _) as [[]|]; done.
Qed.

Lemma validate_accepts data ms dp :
  utf8_valid data = true -> names_unique (VObj ms) ->
  parse_value (parse_fuel (lex data)) dp (lex data) = Some (VObj ms, []) ->
  validateStrictJSONObject data = Ok tt.
Proof.
  intros Hu Hn Hp. destruct (walk_complete (parse_fuel (lex data))) as (HV & _ & _).
  destruct (HV _ _ _ _ TopValue [] (S (walk_fuel data)) Hp Hn eq_refl) as (t & d1 & Ht & Hc);
    [unfold parse_fuel, walk_fuel; lia |].
  apply parse_object_head in Hp as (r & Hr).
  unfold validateStrictJSONObject, dec_token, new_decoder. cbn [d_toks d_state d_stack].
  rewrite Hu, Ht. simpl. rewrite Hr in Ht. injection Ht as <- <-.
  cbn [consumeJSONValue] in Hc. by rewrite Hc.
Qed.

Lemma validate_parses data :
  validateStrictJSONObject data = Ok tt ->
  utf8_valid data = true /\
  exists ms, parses parse_value (lex data) (VObj ms) [] /\ names_unique (VObj ms).
Proof.
  unfold validateStrictJSONObject. intros H. inv_ok. apply negb_false_iff in E. split; [done |].
  destruct (dec_token (new_decoder data)) as [| |[[]| | | |] d] eqn:Ht; try done. inv_ok.
  destruct (walk_sound (S (walk_fuel data))) as (HV & _ & _).
  unfold dec_token, new_decoder in Ht. cbn [d_toks d_state d_stack] in Ht.
  destruct (HV (lex data) TopValue [] _ _ _ eq_refl Ht E0) as (v' & rest & -> & Hp & Hu).
  destruct rest as [|t rest].
  - destruct (lex data) as [|[[]| | | | | | |] r]; try done. injection Ht as <-.
    pose proof Hp as [_ Hp']. specialize (Hp' _ _ (le_n _) (Z.le_refl _)).
    destruct (2 * _)%nat eqn:En in Hp'; [done |]. simpl in Hp'.
    destruct r as [|t r]; [by destruct n|].
    destruct v' as [| | | | |ms]; eauto; exfalso; clear -Hp';
      destruct t as [[]| | | | | | |]; try done;
      by destruct (parse_members _ _ _) as [[]|].
  - unfold dec_token in H. cbn [d_toks d_state d_stack value_end] in H.
    destruct (next_token (t :: rest) TopValue []) eqn:En; try done.
    destruct t as [[]| | | | | | |]; try done.
Qed.

(** ** The presence checks against the value grammar *)

(** The token [Token] returns where a value starts. *)
Definition head_token (v : json) : jtoken :=
  match v with
  | VNull => JNull
  | VBool b => JBool b
  | VNum raw => JNumber raw
  | VStr s => JString s
  | VArr _ => JDelim LBrack
  | VObj _ => JDelim LBrace
  end.

Definition add_member (acc : gmap string jtoken) (m : string * json) : gmap string jtoken :=
  <[m.1 := head_token m.2]> acc.

Definition top_members (ms : list (string * json)) : gmap string jtoken :=
  fold_left add_member ms ∅.

Lemma parse_value_head n dp ts v rest s k t d :
  parse_value n dp ts = Some (v, rest) -> value_allowed s = true ->
  next_token ts s k = TokOk t d -> t = head_token v.
Proof.
  intros Hp Hs Ht. destruct n as [|n]; [done |]. cbn [parse_value] in Hp.
  destruct ts as [|[[]| | |x|x|x| |] r]; try done; cbn [next_token] in Ht;
    rewrite ?Hs in Ht.
  1: destruct (dp <=? 0); [done |]; simplify_eq;
    destruct r as [|[[]| | | | | | |] r]; try (destruct (parse_members _ _ _) as [[]|]); by simplify_eq.
  1: destruct (dp <=? 0); [done |]; simplify_eq;
    destruct r as [|[[]| | | | | | |] r]; try (destruct (parse_items _ _ _) as [[]|]); by simplify_eq.
  1: injection Hp as <- <-; destruct s; try done; by apply scalar_token_inv in Ht as [-> _].
  all: injection Hp as <- <-; by apply scalar_token_inv in Ht as [-> _].
Qed.

Lemma scan_members_complete n dp ts ms rest d k m acc :
  parse_members n dp ts = Some (ms, rest) -> Forall (fun x => names_unique x.2) ms ->
  dec_more d = true -> dec_token d = next_token ts ObjectKey k -> (S n <= m)%nat ->
  scan_members m d acc = Ok (fold_left add_member ms acc).
Proof.
  revert ts ms d m acc. induction n as [|n IH]; intros ts ms d m acc Hp Hall Hmore Htok Hm; [done |].
  destruct m as [|m]; [lia |]. cbn [parse_members] in Hp.
  destruct ts as [|[| | |key| | | |] [|[] r0]]; try done.
  destruct (parse_value n dp r0) as [[v r]|] eqn:Ev; [| done].
  assert (Hv : names_unique v).
  { destruct r as [|[[]| | | | | | |] r]; try done; [simplify_eq; by inversion_clear Hall |].
    destruct (parse_members n dp r) as [[]|]; simplify_eq. by inversion_clear Hall. }
  destruct (walk_complete n) as (HV & _ & _).
  destruct (HV _ _ _ _ ObjectValue k m Ev Hv eq_refl) as (t & d1 & Ht & Hc); [lia |].
  cbn [scan_members]. rewrite Hmore, Htok. cbn [next_token].
  unfold dec_token at 1. cbn [d_toks d_state d_stack next_token]. rewrite Ht, Hc.
  apply (parse_value_head _ _ _ _ _ ObjectValue _ _ _ Ev eq_refl) in Ht as ->.
  destruct r as [|[[]| | | | | | |] r]; try done.
  - injection Hp as <- <-. destruct m; [lia | done].
  - destruct (parse_members n dp r) as [[l2 r2]|] eqn:El; [| done]. injection Hp as <- <-.
    cbn [fold_left]. inversion_clear Hall. eapply IH; eauto; lia.
Qed.

Lemma scan_parses data ms dp :
  names_unique (VObj ms) ->
  parse_value (parse_fuel (lex data)) dp (lex data) = Some (VObj ms, []) ->
  scanTopLevelMembers data = Ok (top_members ms).
Proof.
  intros Hu Hp. apply names_unique_obj in Hu as [_ Hall].
  pose proof (parse_object_head _ _ _ _ _ Hp) as (r & Hr).
  unfold parse_fuel in Hp. rewrite Hr, Nat.add_comm in Hp. cbn [parse_value Nat.add] in Hp.
  unfold scanTopLevelMembers, dec_token, new_decoder. cbn [d_toks d_state d_stack].
  unfold walk_fuel. rewrite Hr. cbn [next_token value_allowed].
  destruct (dp <=? 0); [done |].
  destruct r as [|t0 r0]; [done |].
  destruct (decide (t0 = TDelim RBrace)) as [->|Hne].
  { injection Hp as <- ->. done. }
  destruct (parse_members _ (dp - 1) (t0 :: r0)) as [[l r']|] eqn:El;
    [| destruct t0 as [[]| | | | | | |]; done].
  assert (l = ms) as -> by (destruct t0 as [[]| | | | | | |]; naive_solver).
  eapply scan_members_complete; eauto; [by destruct t0 as [[]| | | | | | |] | |simpl; lia].
  by destruct t0 as [[]| | | | | | |].
Qed.

Lemma fold_members_lookup ms acc n t :
  NoDup (fst <$> ms) ->
  fold_left add_member ms acc !! n = Some t <->
  (exists v, (n, v) ∈ ms /\ head_token v = t) \/ (n ∉ fst <$> ms /\ acc !! n = Some t).
Proof.
  revert acc. induction ms as [|[k v] ms IH]; intros acc Hnd; simpl.
  - split; [right; set_solver | intros [(v & H & _)|[_ H]]; [set_solver | done]].
  - rewrite fmap_cons in Hnd. simpl in Hnd. apply NoDup_cons in Hnd as [Hfresh Hnd].
    rewrite IH by done. unfold add_member. simpl. destruct (decide (k = n)) as [->|Hne].
    + rewrite lookup_insert_eq. split.
      * intros [(v' & Hin & <-)|[_ [= <-]]]; left; [exists v' | exists v]; set_solver.
      * intros [(v' & Hin & <-)|[Hn _]]; [| set_solver]. right. split; [done |].
        apply elem_of_cons in Hin as [[= ->]|Hin]; [done |].
        destruct Hfresh. apply list_elem_of_fmap. by exists (n, v').
    + rewrite lookup_insert_ne by done. split.
      * intros [(v' & Hin & <-)|[Hn Ha]]; [left; exists v'; set_solver | right; set_solver].
      * intros [(v' & Hin & <-)|[Hn Ha]]; [left; exists v'; set_solver | right; set_solver].
Qed.

Lemma top_members_lookup ms n t :
  NoDup (fst <$> ms) ->
  top_members ms !! n = Some t <-> exists v, (n, v) ∈ ms /\ head_token v = t.
Proof.
  intros H. unfold top_members. rewrite fold_members_lookup by done.
  split; [intros [?|[_ ?]]; [done | by rewrite lookup_empty in H0] | by left].
Qed.

(** Members with unique names are a function of the name. *)
Lemma members_functional (ms : list (string * json)) n v v' :
  NoDup (fst <$> ms) -> (n, v) ∈ ms -> (n, v') ∈ ms -> v = v'.
Proof.
  induction ms as [|[k x] ms IH]; intros Hnd H1 H2; [set_solver |].
  rewrite fmap_cons in Hnd. apply NoDup_cons in Hnd as [Hf Hnd]. simpl in Hf.
  assert (Hno : forall y, (k, y) ∉ ms)
    by (intros y Hy; apply Hf, list_elem_of_fmap; by exists (k, y)).
  apply elem_of_cons in H1 as [[= -> ->]|H1], H2 as [H2|H2]; try (by naive_solver); set_solver.
Qed.

Lemma require_each_Ok members names :
  require_each members names = Ok tt <->
  Forall (fun n => exists t, members !! n = Some t /\ t <> JNull) names.
Proof.
  induction names as [|n r IH]; simpl; [by split |].
  rewrite Forall_cons, <- IH, rbind_Ok. unfold require_one. split.
  - intros ([] & H1 & H2). split; [| done].
    destruct (members !! n) as [[]|]; try done; eexists; by split.
  - intros [(t & -> & Ht) H]. exists tt. split; [by destruct t | done].
Qed.

Lemma head_token_null v : head_token v = JNull <-> v = VNull.
Proof. destruct v; naive_solver. Qed.

Lemma least_string_none l : least_string l = None <-> l = [].
Proof. destruct l; simpl; [done |]. destruct (least_string l); done. Qed.

Lemma null_members_nil m :
  null_members m = [] <-> forall n t, m !! n = Some t -> t <> JNull.
Proof.
  unfold null_members. split.
  - intros H n t Hn ->. assert (Hin : n ∈ fst <$> List.filter (fun m => is_null_token m.2) (map_to_list m)).
    { apply list_elem_of_fmap. exists (n, JNull). split; [done |].
      apply list_elem_of_In, filter_In. split; [| done].
      apply list_elem_of_In. by apply elem_of_map_to_list. }
    rewrite H in Hin. set_solver.
  - intros H. destruct (List.filter _ _) as [|[n t] r] eqn:E; [done |]. exfalso.
    assert (Hin : In (n, t) (List.filter (fun m => is_null_token m.2) (map_to_list m)))
      by (rewrite E; by left).
    apply filter_In in Hin as [Hin Hnull]. apply list_elem_of_In in Hin.
    apply elem_of_map_to_list in Hin. apply H in Hin. by destruct t.
Qed.

Lemma reject_empty_each_Ok members names :
  reject_empty_each members names = Ok tt <->
  Forall (fun n => members !! n <> Some (JString EmptyString)) names.
Proof.
  induction names as [|n r IH]; simpl; [by split |]. rewrite Forall_cons, <- IH.
  destruct (members !! n) as [[|[]| | |]|]; naive_solver.
Qed.

(** [data] is the UTF-8 text of one JSON object with members [ms], no object
    of it repeating a name; the token count bounds its nesting. *)
Definition strict_object (data : bytes) (ms : list (string * json)) : Prop :=
  utf8_valid data = true /\ names_unique (VObj ms) /\
  parse_value (parse_fuel (lex data)) (Z.of_nat (length (lex data))) (lex data)
    = Some (VObj ms, []).

Lemma strict_object_scan data ms :
  strict_object data ms -> scanTopLevelMembers data = Ok (top_members ms).
Proof. intros (_ & Hu & Hp). by eapply scan_parses. Qed.

Lemma strict_object_nodup data ms : strict_object data ms -> NoDup (fst <$> ms).
Proof. intros (_ & Hu & _). by apply names_unique_obj in Hu as [? _]. Qed.

Lemma top_members_null ms :
  NoDup (fst <$> ms) ->
  null_members (top_members ms) = [] <-> Forall (fun m => m.2 <> VNull) ms.
Proof.
  intros Hnd. rewrite null_members_nil, Forall_forall. split.
  - intros H [n v] Hin. simpl. rewrite <- head_token_null.
    apply (H n). apply top_members_lookup; eauto.
  - intros H n t Ht ->. apply top_members_lookup in Ht as (v & Hin & Hv); [| done].
    apply head_token_null in Hv. by apply (H _ Hin).
Qed.

(** C40: [validateStrictJSONObject] accepts a payload exactly when it is valid
    UTF-8 text of one JSON object in which no object, at any depth, repeats a
    member name (after the decoder's unescaping). *)
Theorem strict_json_iff data :
  validateStrictJSONObject data = Ok tt <-> exists ms, strict_object data ms.
Proof.
  split.
  - intros H. apply validate_parses in H as (Hu & ms & [_ Hp] & Hn). exists ms.
    split_and!; [done..|]. apply Hp; [unfold parse_fuel; simpl; lia | lia].
  - intros (ms & Hu & Hn & Hp). by eapply validate_accepts.
Qed.

Lemma requirePresent_iff data ms names :
  strict_object data ms ->
  requirePresent data names = Ok tt <->
  Forall (fun n => exists v, (n, v) ∈ ms /\ v <> VNull) names.
Proof.
  intros H. pose proof (strict_object_nodup _ _ H) as Hnd.
  unfold requirePresent. rewrite (strict_object_scan _ _ H). cbn [rbind].
  rewrite require_each_Ok. apply Forall_iff. intros n. split.
  - intros (t & Ht & Hn). apply top_members_lookup in Ht as (v & Hin & <-); [| done].
    exists v. split; [done |]. by rewrite <- head_token_null.
  - intros (v & Hin & Hv). exists (head_token v). split; [| by rewrite head_token_null].
    apply top_members_lookup; eauto.
Qed.

Lemma rejectNullMembers_iff data ms :
  strict_object data ms ->
  rejectNullMembers data = Ok tt <-> Forall (fun m => m.2 <> VNull) ms.
Proof.
  intros H. pose proof (strict_object_nodup _ _ H) as Hnd.
  unfold rejectNullMembers. rewrite (strict_object_scan _ _ H). cbn [rbind].
  rewrite <- (top_members_null _ Hnd), <- least_string_none. by destruct (least_string _).
Qed.

Lemma rejectEmptyMembers_iff data ms names :
  strict_object data ms ->
  rejectEmptyMembers data names = Ok tt <->
  Forall (fun n => (n, VStr EmptyString) ∉ ms) names.
Proof.
  intros H. pose proof (strict_object_nodup _ _ H) as Hnd.
  unfold rejectEmptyMembers. rewrite (strict_object_scan _ _ H). cbn [rbind].
  rewrite reject_empty_each_Ok. apply Forall_iff. intros n. apply not_iff_compat.
  rewrite top_members_lookup by done. split.
  - intros (v & Hin & Hv). by destruct v; simplify_eq/=.
  - intros Hin. by eexists.
Qed.

(** Over a payload the strict walk accepted, the presence checks decide
    membership: [requirePresent] succeeds exactly when every listed name has a
    non-null value, [rejectNullMembers] exactly when no member is null, and
    [rejectEmptyMembers] exactly when no listed name holds the empty string. *)
Theorem presence_checks_iff data ms names :
  strict_object data ms ->
  (requirePresent data names = Ok tt <->
     Forall (fun n => exists v, (n, v) ∈ ms /\ v <> VNull) names) /\
  (rejectNullMembers data = Ok tt <-> Forall (fun m => m.2 <> VNull) ms) /\
  (rejectEmptyMembers data names = Ok tt <->
     Forall (fun n => (n, VStr EmptyString) ∉ ms) names).
Proof.
  intros H.
  by rewrite (requirePresent_iff _ _ _ H), (rejectNullMembers_iff _ _ H),
    (rejectEmptyMembers_iff _ _ _ H).
Qed.

Lemma presence_checks_iff_witness :
  let data := "{"%byte :: quote :: "a"%byte :: quote :: ":"%byte :: "1"%byte :: ["}"%byte] in
  strict_object data [("a", VNum ["1"%byte])] /\ requirePresent data ["a"] = Ok tt.
Proof.
  intros data.
  assert (H : strict_object data [("a", VNum ["1"%byte])]).
  { split; [by vm_compute |]. split; [| by vm_compute].
    apply names_unique_obj. split; [| by repeat constructor].
    apply NoDup_singleton. }
  split; [exact H |].
  apply (proj1 (presence_checks_iff data _ ["a"] H)).
  constructor; [| constructor]. exists (VNum ["1"%byte]). split; [by left | done].
Defined.
