(* ===== verification/JsonMarshal.v ===== *)
(** * JsonMarshal: [json.Marshal] and the decoder are inverse

    For the flat structs the tunnel exchanges: what [marshal_object] writes
    lexes back to the tokens of the same members, so [parse_document] returns
    them and, the member names being distinct, the strict walk accepts it. *)

From S2P Require Import Prelude GoText Json StrictJson.

(** ** String literals *)

Lemma rune_width_app bs n tl : rune_width bs = Some n -> rune_width (bs ++ tl) = Some n.
Proof.
  destruct bs as [|b0 [|b1 [|b2 [|b3 r]]]]; simpl; try done;
    repeat (case_match; try done).
Qed.

Lemma rune_width_cases b r n :
  rune_width (b :: r) = Some n ->
  (n = 1%nat /\ bz b < 128) \/
  (128 <= bz b /\
   ((n = 2%nat /\ exists x r', r = x :: r') \/ (n = 3%nat /\ exists x y r', r = x :: y :: r') \/
    (n = 4%nat /\ exists x y z r', r = x :: y :: z :: r'))).
Proof.
  simpl. destruct (bz b <? 128) eqn:E; bool_facts.
  - intros [= <-]. left. split; [done | lia].
  - intros H. right. split; [lia |].
    destruct r as [|x [|y [|z r']]]; try done; repeat (case_match; try done); simplify_eq; eauto 12.
Qed.

(** Induction over well-formed UTF-8, a rune at a time. *)
Lemma utf8_rune_ind (P : bytes -> Prop) :
  P [] ->
  (forall b r n, rune_width (b :: r) = Some n -> P (drop n (b :: r)) -> P (b :: r)) ->
  forall bs, utf8_valid bs = true -> P bs.
Proof.
  intros Hn Hs bs. unfold utf8_valid.
  assert (Hskip : forall k l, (k <= length l)%nat -> utf8_valid_from l k = utf8_valid_from (drop k l) 0).
  { induction k as [|k IH]; intros [|x l] Hk; simpl in *; try done; try lia. apply IH. lia. }
  induction bs as [bs IH] using (induction_ltof1 _ (@length _)); unfold ltof in IH.
  destruct bs as [|b r]; [done |]. cbn [utf8_valid_from]. intros H.
  destruct (rune_width (b :: r)) as [n|] eqn:E; [| done].
  assert (Hlen : (pred n <= length r)%nat /\ n <> O).
  { apply rune_width_cases in E. naive_solver (simpl; lia). }
  destruct Hlen as [Hlen Hn0]. rewrite Hskip in H by done.
  destruct n as [|n]; [done |]. apply (Hs _ _ _ E). simpl in *.
  apply IH; [rewrite length_drop; lia | done].
Qed.

Lemma quote_ascii_lex b tl :
  bz b < 128 -> lex_string (quote_ascii b ++ tl) = prepend [b] (lex_string tl).
Proof. destruct b; intros H; try (exfalso; vm_compute in H; done); reflexivity. Qed.

Lemma prepend_prepend a b r : prepend a (prepend b r) = prepend (a ++ b) r.
Proof. destruct r as [[]|]; [simpl; by rewrite app_assoc | done]. Qed.

Lemma lex_string_high b r :
  128 <= bz b ->
  lex_string (b :: r) =
  match rune_width (b :: r), r with
  | Some 2%nat, x :: r1 => prepend [b; x] (lex_string r1)
  | Some 3%nat, x :: y :: r1 => prepend [b; x; y] (lex_string r1)
  | Some 4%nat, x :: y :: z :: r1 => prepend [b; x; y; z] (lex_string r1)
  | None, _ => prepend replacement (lex_string r)
  | _, _ => prepend [b] (lex_string r)
  end.
Proof.
  intros H. cbn [lex_string].
  assert (Byte.eqb b quote = false /\ Byte.eqb b backslash = false /\ (bz b <? 32) = false) as (-> & -> & ->).
  { split_and!; [| | apply Z.ltb_ge; lia]; apply not_true_is_false; intros E;
      apply byte_eqb_eq in E as ->; destruct (H eq_refl). }
  done.
Qed.

Lemma line_separator_lex y tl :
  Byte.eqb y Byte.xa8 || Byte.eqb y Byte.xa9 = true ->
  lex_string (bytes_of "\u202" ++ (if Byte.eqb y Byte.xa8 then "8"%byte else "9"%byte) :: tl)
  = prepend [Byte.xe2; Byte.x80; y] (lex_string tl).
Proof. destruct y; intros H; try (vm_compute in H; done); reflexivity. Qed.

Lemma quote_bytes_lex bs rest :
  utf8_valid bs = true -> lex_string (quote_bytes bs ++ quote :: rest) = Some (bs, rest).
Proof.
  revert bs. apply utf8_rune_ind; [done |]. intros b r n Hw IH.
  destruct (rune_width_cases _ _ _ Hw) as [[-> Hb]|(Hb & Hc)].
  { simpl in IH. cbn [quote_bytes]. rewrite (proj2 (Z.ltb_lt _ _) Hb), <- app_assoc.
    rewrite quote_ascii_lex, drop_0 in * by done. by rewrite IH. }
  cbn [quote_bytes]. rewrite (proj2 (Z.ltb_ge _ _)) by lia. rewrite Hw.
  destruct Hc as [(-> & x & r' & ->)|[(-> & x & y & r' & ->)|(-> & x & y & z & r' & ->)]];
    simpl in IH; rewrite ?drop_0 in IH.
  - cbn [app]. rewrite lex_string_high by done.
    pose proof (rune_width_app [b; x] 2 (quote_bytes r' ++ quote :: rest)) as E. cbn [app] in E.
    rewrite (E ltac:(clear -Hw Hb; simpl in *; repeat (case_match; try done))). by rewrite IH.
  - destruct (is_line_separator b x y) eqn:El.
    + unfold is_line_separator in El. bool_facts. subst.
      rewrite <- app_assoc, <- app_comm_cons, line_separator_lex.
      * by rewrite IH.
      * apply orb_true_iff. naive_solver.
    + cbn [app]. rewrite lex_string_high by done.
      pose proof (rune_width_app [b; x; y] 3 (quote_bytes r' ++ quote :: rest)) as E. cbn [app] in E.
      rewrite (E ltac:(clear -Hw Hb; simpl in *; repeat (case_match; try done))). by rewrite IH.
  - cbn [app]. rewrite lex_string_high by done.
    pose proof (rune_width_app [b; x; y; z] 4 (quote_bytes r' ++ quote :: rest)) as E. cbn [app] in E.
    rewrite (E ltac:(clear -Hw Hb; simpl in *; repeat (case_match; try done))). by rewrite IH.
Qed.

(** ** Numbers and literals *)

Definition ends_number (bs : bytes) : bool :=
  match bs with
  | b :: _ => negb (is_digit b || Byte.eqb b "."%byte || Byte.eqb b "e"%byte || Byte.eqb b "E"%byte)
  | [] => true
  end.

Lemma span_digits_app ds rest :
  forallb is_digit ds = true -> ends_number rest = true -> span_digits (ds ++ rest) = (ds, rest).
Proof.
  intros Hd Hr. induction ds as [|d ds IH]; simpl in *.
  - destruct rest as [|b r]; [done |]. simpl in *. bool_facts. by destruct (is_digit b).
  - bool_facts. rewrite H, IH; done.
Qed.

Lemma dec_digits_head f n :
  0 < n < 10 ^ Z.of_nat f ->
  exists b r, dec_digits f n = b :: r /\ Byte.eqb b "0"%byte = false /\ is_digit b = true.
Proof.
  revert n. induction f as [|f IH]; intros n Hn; [simpl in Hn; lia |].
  rewrite Nat2Z.inj_succ, Z.pow_succ_r in Hn by lia. simpl.
  destruct (n <? 10) eqn:E; bool_facts.
  - exists (zb (48 + n)), []. split_and!; [done | | by apply digit_byte; lia].
    apply not_true_is_false. intros H. apply byte_eqb_eq in H.
    apply (f_equal bz) in H. rewrite bz_zb_small in H by lia. change (bz "0"%byte) with 48 in H. lia.
  - destruct (IH (n / 10)) as (b & r & -> & Hb & Hd).
    { split; [apply Z.div_str_pos; lia | apply Z.div_lt_upper_bound; lia]. }
    exists b, (r ++ [zb (48 + n mod 10)]). done.
Qed.

Lemma lex_frac_end rest : ends_number rest = true -> lex_frac rest = Some ([], rest).
Proof.
  destruct rest as [|b r]; [done |]. simpl. intros H. bool_facts. by destruct (Byte.eqb b "."%byte).
Qed.

Lemma lex_exp_end rest : ends_number rest = true -> lex_exp rest = Some ([], rest).
Proof.
  destruct rest as [|b r]; [done |]. cbn [ends_number lex_exp]. intros H. bool_facts.
  by destruct (Byte.eqb b "e"%byte), (Byte.eqb b "E"%byte).
Qed.

Lemma show_uint_int n rest :
  0 <= n < 2 ^ 64 -> ends_number rest = true ->
  lex_int (show_uint n ++ rest) = Some (show_uint n, rest).
Proof.
  intros Hn Hr. destruct (decide (n = 0)) as [->|Hne]; [done |].
  assert (Hb : 0 < n < 10 ^ Z.of_nat 20).
  { assert (2 ^ 64 < 10 ^ Z.of_nat 20) by (vm_compute; done). lia. }
  destruct (dec_digits_head 20 n Hb) as (b & r & E & H0 & Hd).
  pose proof (dec_digits_all_digits 20 n ltac:(lia)) as Hall.
  unfold show_uint. rewrite E in *. cbn [app lex_int]. rewrite H0.
  unfold digits1. change (b :: r ++ rest) with ((b :: r) ++ rest).
  by rewrite span_digits_app.
Qed.

Lemma lex_number_show n rest :
  0 <= n < 2 ^ 64 -> ends_number rest = true ->
  lex_number (show_uint n ++ rest) = Some (show_uint n, rest).
Proof.
  intros Hn Hr. destruct (show_uint_head n ltac:(lia)) as (b & r & E & Hd).
  pose proof (show_uint_int n rest Hn Hr) as Hi. unfold lex_number.
  rewrite E in *. cbn [app] in *. destruct (digit_not_sign b Hd) as [-> _].
  by rewrite Hi, lex_frac_end, lex_exp_end, !app_nil_r by done.
Qed.

Lemma digit_lex_class b r t :
  is_digit b = true -> lex_number (b :: r) = Some t ->
  is_space b = false /\ lex_one (b :: r) = Some (TNum t.1, t.2).
Proof.
  intros Hd Hn. split; [by destruct b |].
  unfold lex_one.
  replace (Byte.eqb b "{"%byte) with false by (by destruct b).
  replace (Byte.eqb b "}"%byte) with false by (by destruct b).
  replace (Byte.eqb b "["%byte) with false by (by destruct b).
  replace (Byte.eqb b "]"%byte) with false by (by destruct b).
  replace (Byte.eqb b ":"%byte) with false by (by destruct b).
  replace (Byte.eqb b ","%byte) with false by (by destruct b).
  replace (Byte.eqb b quote) with false by (by destruct b).
  rewrite Hd, Hn. simpl. by destruct t.
Qed.

(** ** Members *)

Definition marshal_ok (v : marshal_val) : Prop :=
  match v with
  | MString s => utf8_valid (bytes_of s) = true
  | MInt z => 0 <= z < 2 ^ 64
  | MBool _ => True
  end.

Definition members_ok (ms : list (string * marshal_val)) : Prop :=
  Forall (fun m => utf8_valid (bytes_of m.1) = true /\ marshal_ok m.2) ms.

Definition token_of (v : marshal_val) : token :=
  match v with
  | MString s => TStr s
  | MInt z => TNum (show_int z)
  | MBool b => TBool b
  end.

Definition json_of (v : marshal_val) : json :=
  match v with
  | MString s => VStr s
  | MInt z => VNum (show_int z)
  | MBool b => VBool b
  end.

Definition json_members (ms : list (string * marshal_val)) : list (string * json) :=
  (fun m => (m.1, json_of m.2)) <$> ms.

Fixpoint member_tokens (ms : list (string * marshal_val)) : list token :=
  match ms with
  | [] => []
  | [m] => [TStr m.1; TColon; token_of m.2]
  | m :: r => TStr m.1 :: TColon :: token_of m.2 :: TComma :: member_tokens r
  end.

Lemma marshal_string_lex s rest :
  utf8_valid (bytes_of s) = true -> lex (marshal_string s ++ rest) = TStr s :: lex rest.
Proof.
  intros H. unfold marshal_string. rewrite <- app_comm_cons, <- app_assoc. cbn [app].
  rewrite (lex_step quote _ (TStr s) rest); [done | done |].
  unfold lex_one. simpl. by rewrite quote_bytes_lex, string_of_bytes_of.
Qed.

Lemma marshal_value_lex v rest :
  marshal_ok v -> ends_number rest = true ->
  lex (marshal_value v ++ rest) = token_of v :: lex rest.
Proof.
  intros Hv Hr. destruct v as [s|z|b]; simpl in *.
  - by apply marshal_string_lex.
  - unfold show_int. rewrite (proj2 (Z.ltb_ge _ _)) by lia.
    pose proof (lex_number_show z rest Hv Hr) as Hn.
    destruct (show_uint_head z ltac:(lia)) as (b & r & E & Hd). rewrite E in *.
    destruct (digit_lex_class b (r ++ rest) _ Hd Hn) as [Hs Ho].
    exact (lex_step _ _ _ _ Hs Ho).
  - destruct b; by apply (lex_step _ (_ ++ rest)).
Qed.

Lemma marshal_member_lex k v rest :
  utf8_valid (bytes_of k) = true -> marshal_ok v -> ends_number rest = true ->
  lex (marshal_member (k, v) ++ rest) = TStr k :: TColon :: token_of v :: lex rest.
Proof.
  intros Hk Hv Hr. unfold marshal_member. simpl fst. simpl snd. rewrite <- app_assoc.
  rewrite marshal_string_lex by done. rewrite <- app_comm_cons.
  rewrite (lex_step _ _ TColon (marshal_value v ++ rest)) by done.
  by rewrite marshal_value_lex.
Qed.

Lemma marshal_members_cons m m' ms :
  marshal_members (m :: m' :: ms) = marshal_member m ++ ","%byte :: marshal_members (m' :: ms).
Proof. done. Qed.

Lemma member_tokens_cons m m' ms :
  member_tokens (m :: m' :: ms) =
  TStr m.1 :: TColon :: token_of m.2 :: TComma :: member_tokens (m' :: ms).
Proof. done. Qed.

Lemma marshal_members_lex ms rest :
  members_ok ms -> ends_number rest = true ->
  lex (marshal_members ms ++ rest) = member_tokens ms ++ lex rest.
Proof.
  intros Hms Hr. revert Hms. induction ms as [|[k v] ms IH]; intros Hms; [done |].
  inversion_clear Hms as [|? ? [Hk Hv] Hms']. simpl in Hk, Hv.
  destruct ms as [|m ms]; [by apply marshal_member_lex |].
  rewrite marshal_members_cons, member_tokens_cons, <- app_assoc, <- app_comm_cons.
  rewrite marshal_member_lex by done.
  rewrite (lex_step _ _ TComma (marshal_members (m :: ms) ++ rest)) by done.
  by rewrite IH.
Qed.

Lemma parse_token_of n dp v rest :
  n <> O -> parse_value n dp (token_of v :: rest) = Some (json_of v, rest).
Proof. by destruct n, v. Qed.

Lemma parse_member_tokens n dp ms rest :
  ms <> [] -> (length ms < n)%nat ->
  parse_members n dp (member_tokens ms ++ TDelim RBrace :: rest) = Some (json_members ms, rest).
Proof.
  revert n. induction ms as [|[k v] ms IH]; intros n Hne Hn; [done |].
  destruct n as [|n]; simpl in Hn; [lia |]. assert (n <> O) by lia.
  destruct ms as [|m ms].
  - cbn [member_tokens app fst snd]. cbn [parse_members]. by rewrite parse_token_of by done.
  - rewrite member_tokens_cons. cbn [app parse_members]. rewrite parse_token_of by done.
    by rewrite IH by (done || simpl in *; lia).
Qed.

(** ** The object *)

Lemma marshal_object_lex ms :
  members_ok ms -> lex (marshal_object ms) = TDelim LBrace :: member_tokens ms ++ [TDelim RBrace].
Proof.
  intros H. unfold marshal_object. rewrite (lex_step "{"%byte _ (TDelim LBrace) _) by done.
  by rewrite marshal_members_lex.
Qed.

Lemma member_tokens_length ms : (length ms <= length (member_tokens ms))%nat.
Proof.
  induction ms as [|m [|m' ms] IH]; [done | simpl; lia |].
  rewrite member_tokens_cons.
  simpl length in *. lia.
Qed.

Lemma marshal_object_parse ms dp :
  members_ok ms -> 0 < dp ->
  parse_value (parse_fuel (lex (marshal_object ms))) dp (lex (marshal_object ms))
  = Some (VObj (json_members ms), []).
Proof.
  intros H Hdp. rewrite marshal_object_lex by done. unfold parse_fuel.
  rewrite Nat.add_comm. cbn [parse_value Nat.add].
  rewrite (proj2 (Z.leb_gt _ _)) by lia.
  destruct ms as [|m ms]; [done |].
  assert (Hh : exists t, member_tokens (m :: ms) = TStr m.1 :: t) by (destruct ms; simpl; eauto).
  destruct Hh as (t & Ht). pose proof (member_tokens_length (m :: ms)).
  rewrite Ht at 1. cbn [app]. rewrite parse_member_tokens; [done.. |].
  simpl length in *. rewrite length_app. simpl. lia.
Qed.

Lemma utf8_ascii_app xs tl :
  forallb is_ascii xs = true -> utf8_valid (xs ++ tl) = utf8_valid tl.
Proof.
  unfold utf8_valid. induction xs as [|b r IH]; [done |]. simpl. unfold is_ascii at 1.
  intros H. bool_facts. rewrite (proj2 (Z.ltb_lt _ _) H). simpl. auto.
Qed.

Lemma quote_ascii_ascii b : bz b < 128 -> forallb is_ascii (quote_ascii b) = true.
Proof. destruct b; intros H; try (exfalso; vm_compute in H; done); reflexivity. Qed.

Lemma quote_bytes_utf8 bs tl :
  utf8_valid bs = true -> utf8_valid (quote_bytes bs ++ tl) = utf8_valid tl.
Proof.
  revert bs. apply utf8_rune_ind; [done |]. intros b r n Hw IH.
  destruct (rune_width_cases _ _ _ Hw) as [[-> Hb]|(Hb & Hc)].
  { simpl in IH. cbn [quote_bytes]. rewrite (proj2 (Z.ltb_lt _ _) Hb), <- app_assoc.
    rewrite utf8_ascii_app by (by apply quote_ascii_ascii). by rewrite drop_0 in IH. }
  cbn [quote_bytes]. rewrite (proj2 (Z.ltb_ge _ _)) by lia. rewrite Hw.
  assert (Hstep : forall pre, rune_width pre = Some (length pre) -> (0 < length pre)%nat ->
            utf8_valid (pre ++ quote_bytes (drop n (b :: r)) ++ tl) = utf8_valid tl).
  { intros pre Hp Hl. rewrite <- IH. unfold utf8_valid. destruct pre as [|p ps]; [simpl in Hl; lia |].
    cbn [app utf8_valid_from]. change (p :: ps ++ ?x) with ((p :: ps) ++ x).
    rewrite (rune_width_app _ _ _ Hp). simpl pred. clear.
    generalize (quote_bytes (drop n (b :: r)) ++ tl). intros l.
    induction ps as [|q ps IH]; [done |]. simpl. apply IH. }
  destruct Hc as [(-> & x & r' & ->)|[(-> & x & y & r' & ->)|(-> & x & y & z & r' & ->)]];
    simpl drop in *; rewrite ?drop_0 in *.
  - apply (Hstep [b; x]); [| simpl; lia]. clear -Hw. simpl in *. repeat (case_match; try done).
  - destruct (is_line_separator b x y).
    + rewrite <- app_assoc, utf8_ascii_app by done. rewrite <- app_comm_cons.
      change (?h :: ?l) with ([h] ++ l). rewrite utf8_ascii_app; [done |]. by destruct (Byte.eqb y _).
    + apply (Hstep [b; x; y]); [| simpl; lia]. clear -Hw. simpl in *. repeat (case_match; try done).
  - apply (Hstep [b; x; y; z]); [| simpl; lia]. clear -Hw. simpl in *. repeat (case_match; try done).
Qed.

Lemma marshal_string_utf8 s tl :
  utf8_valid (bytes_of s) = true -> utf8_valid (marshal_string s ++ tl) = utf8_valid tl.
Proof.
  intros H. unfold marshal_string. rewrite <- app_comm_cons, <- app_assoc.
  change (quote :: ?l) with ([quote] ++ l). rewrite utf8_ascii_app by done.
  rewrite quote_bytes_utf8 by done. by rewrite utf8_ascii_app.
Qed.

Lemma digits_ascii bs : forallb is_digit bs = true -> forallb is_ascii bs = true.
Proof.
  induction bs as [|b r IH]; [done |]. simpl. intros H. bool_facts. rewrite IH by done.
  unfold is_digit, in_range, is_ascii in *. bool_facts. rewrite (proj2 (Z.ltb_lt _ _)); [done | lia].
Qed.

Lemma marshal_value_utf8 v tl :
  marshal_ok v -> utf8_valid (marshal_value v ++ tl) = utf8_valid tl.
Proof.
  destruct v as [s|z|b]; simpl; intros Hv.
  - by apply marshal_string_utf8.
  - unfold show_int. rewrite (proj2 (Z.ltb_ge _ _)) by lia.
    apply utf8_ascii_app, digits_ascii, dec_digits_all_digits. lia.
  - by destruct b.
Qed.

Lemma marshal_members_utf8 ms tl :
  members_ok ms -> utf8_valid (marshal_members ms ++ tl) = utf8_valid tl.
Proof.
  induction ms as [|[k v] ms IH]; intros Hms; [done |].
  inversion_clear Hms as [|? ? [Hk Hv] Hms']. simpl in Hk, Hv.
  assert (Hm : forall tl, utf8_valid (marshal_member (k, v) ++ tl) = utf8_valid tl).
  { intros tl'. unfold marshal_member. cbn [fst snd]. rewrite <- app_assoc, marshal_string_utf8 by done.
    rewrite <- app_comm_cons. change (":"%byte :: ?l) with ([":"%byte] ++ l).
    rewrite utf8_ascii_app by done. by apply marshal_value_utf8. }
  destruct ms as [|m ms]; [apply Hm |].
  rewrite marshal_members_cons, <- app_assoc, Hm.
  change (utf8_valid ([","%byte] ++ marshal_members (m :: ms) ++ tl) = utf8_valid tl).
  rewrite utf8_ascii_app by done. by apply IH.
Qed.

Lemma json_members_names ms : fst <$> json_members ms = fst <$> ms.
Proof. unfold json_members. rewrite <- list_fmap_compose. by apply list_fmap_ext. Qed.

Lemma marshal_object_strict ms :
  members_ok ms -> NoDup (fst <$> ms) -> strict_object (marshal_object ms) (json_members ms).
Proof.
  intros H Hnd. split; [| split].
  - unfold marshal_object. change ("{"%byte :: ?l) with (["{"%byte] ++ l).
    rewrite utf8_ascii_app by done. by rewrite marshal_members_utf8.
  - apply names_unique_obj. rewrite json_members_names. split; [done |].
    unfold json_members. apply Forall_fmap, Forall_true. intros [k []]; done.
  - apply marshal_object_parse; [done |]. rewrite marshal_object_lex by done. simpl length. lia.
Qed.

Lemma marshal_object_document ms :
  members_ok ms -> parse_document (marshal_object ms) = Some (VObj (json_members ms)).
Proof.
  intros H. unfold parse_document. by rewrite marshal_object_parse.
Qed.

(** ** Decoding what was marshalled *)

Definition kind_ok (k : field_kind) (v : marshal_val) : Prop :=
  match k, v with
  | KString, MString _ | KBool, MBool _ => True
  | KInt, MInt z | KInt64Ptr, MInt z => 0 <= z < 2 ^ 63
  | KUint32, MInt z => 0 <= z < 2 ^ 32
  | KUint64, MInt z => 0 <= z < 2 ^ 64
  | _, _ => False
  end.

Definition field_of (k : field_kind) (v : marshal_val) : field_val :=
  match k, v with
  | KInt64Ptr, MInt z => FPtr (Some z)
  | _, MString s => FString s
  | _, MInt z => FInt z
  | _, MBool b => FBool b
  end.

(** A member the schema takes, or one it does not know when that is allowed. *)
Definition member_fits (fs : schema) (strict : bool) (m : string * marshal_val) : Prop :=
  match find_field fs m.1 with
  | Some (_, k) => kind_ok k m.2
  | None => strict = false
  end.

Fixpoint put_members (fs : schema) (ms : list (string * marshal_val)) (acc : gmap string field_val)
  : gmap string field_val :=
  match ms with
  | [] => acc
  | m :: r =>
    match find_field fs m.1 with
    | Some (name, k) => put_members fs r (<[name := field_of k m.2]> acc)
    | None => put_members fs r acc
    end
  end.

Lemma store_marshalled k v : kind_ok k v -> store k (json_of v) = Some (Some (field_of k v)).
Proof.
  destruct k, v as [s|z|b]; simpl; try done; intros H; unfold show_int;
    rewrite (proj2 (Z.ltb_ge _ _)) by lia.
  - by rewrite parse_int64_show.
  - by rewrite parse_uint_show.
  - by rewrite parse_uint_show.
  - by rewrite parse_int64_show.
Qed.

Lemma decode_marshalled fs strict ms acc :
  Forall (member_fits fs strict) ms ->
  decode_members fs strict (json_members ms) acc = Some (put_members fs ms acc).
Proof.
  intros H. revert acc. induction H as [|[k v] ms Hm _ IH]; intros acc; [done |].
  unfold json_members in *. rewrite fmap_cons. cbn [decode_members put_members fst snd].
  unfold member_fits in Hm. simpl in Hm.
  destruct (find_field fs k) as [[name fk]|]; [| by subst strict].
  rewrite store_marshalled by done.
  replace (assign (acc !! name) (field_of fk v)) with (field_of fk v) by (by destruct fk, v).
  apply IH.
Qed.

Lemma marshalled_validate ms :
  members_ok ms -> NoDup (fst <$> ms) -> validateStrictJSONObject (marshal_object ms) = Ok tt.
Proof.
  intros H Hnd. destruct (marshal_object_strict _ H Hnd) as (Hu & Hn & Hp).
  by eapply validate_accepts.
Qed.

Lemma marshalled_not_null ms :
  members_ok ms -> NoDup (fst <$> ms) -> rejectNullMembers (marshal_object ms) = Ok tt.
Proof.
  intros H Hnd. eapply rejectNullMembers_iff; [by apply marshal_object_strict |].
  unfold json_members. apply Forall_fmap, Forall_true. by intros [k []].
Qed.

Lemma marshalled_present ms names :
  members_ok ms -> NoDup (fst <$> ms) -> Forall (fun n => n ∈ fst <$> ms) names ->
  requirePresent (marshal_object ms) names = Ok tt.
Proof.
  intros H Hnd Hin. eapply requirePresent_iff; [by apply marshal_object_strict |].
  eapply Forall_impl; [exact Hin |]. intros n Hn. apply list_elem_of_fmap in Hn as ([k v] & -> & Hm).
  exists (json_of v). split; [| by destruct v]. unfold json_members.
  apply list_elem_of_fmap. by exists (k, v).
Qed.

Lemma marshalled_nonempty ms names :
  members_ok ms -> NoDup (fst <$> ms) -> Forall (fun n => (n, MString EmptyString) ∉ ms) names ->
  rejectEmptyMembers (marshal_object ms) names = Ok tt.
Proof.
  intros H Hnd Hin. eapply rejectEmptyMembers_iff; [by apply marshal_object_strict |].
  eapply Forall_impl; [exact Hin |]. intros n Hn Hm. apply Hn. unfold json_members in Hm.
  apply list_elem_of_fmap in Hm as ([k v] & E & Hm). simpl in E. by destruct v; simplify_eq/=.
Qed.

Lemma marshalled_decode fs ms :
  members_ok ms -> NoDup (fst <$> ms) -> Forall (member_fits fs true) ms ->
  decodeControlStrict fs (marshal_object ms) = Ok (put_members fs ms ∅).
Proof.
  intros H Hnd Hf. unfold decodeControlStrict, decodeStrict.
  rewrite marshalled_validate, marshal_object_document by done. simpl.
  by rewrite decode_marshalled.
Qed.

Lemma marshalled_unmarshal fs ms :
  members_ok ms -> Forall (member_fits fs false) ms ->
  json_unmarshal fs (marshal_object ms) = Ok (put_members fs ms ∅).
Proof.
  intros H Hf. unfold json_unmarshal. rewrite marshal_object_document by done. simpl.
  by rewrite decode_marshalled.
Qed.
