(* ===== verification/JsonLine.v ===== *)
(** * JsonLine: records written as one line

    A marshalled object followed by a newline, as the lock file and the journal
    manifest are written, is read back; and what a write that stopped early
    leaves of it is no object at all, because the closing brace is the last
    thing written. *)

From S2P Require Import Prelude GoText GoTime GoStamp Json StrictJson JsonMarshal.

(** ** The newline *)

Lemma line_document ms :
  members_ok ms -> parse_document (marshal_object ms ++ [Byte.x0a]) = Some (VObj (json_members ms)).
Proof.
  intros H. rewrite <- (marshal_object_document ms H). unfold parse_document.
  replace (lex (marshal_object ms ++ [Byte.x0a])) with (lex (marshal_object ms)); [done |].
  rewrite (marshal_object_lex ms H). unfold marshal_object. cbn [app]. rewrite <- app_assoc.
  rewrite (lex_step "{"%byte _ (TDelim LBrace) _) by done. by rewrite marshal_members_lex.
Qed.

(** ** The closing brace *)

Definition rbrace : Byte.byte := "}"%byte.

#[local] Hint Extern 0 (?x `suffix_of` ?x) => reflexivity : core.
#[local] Hint Resolve suffix_cons_r : core.

Lemma span_digits_suffix bs d t : span_digits bs = (d, t) -> t `suffix_of` bs.
Proof.
  revert d t. induction bs as [|b r IH]; intros d t H; cbn [span_digits] in H; [simplify_eq; auto |].
  destruct (is_digit b); [| simplify_eq; auto].
  destruct (span_digits r) as [d' t'] eqn:E. simplify_eq. apply suffix_cons_r. by eapply IH.
Qed.

Lemma digits1_suffix bs d t : digits1 bs = Some (d, t) -> t `suffix_of` bs.
Proof.
  unfold digits1. destruct (span_digits bs) as [[|x d'] t'] eqn:E; [done |]. intros [= <- <-]. by eapply span_digits_suffix.
Qed.

Lemma lex_int_suffix bs i t : lex_int bs = Some (i, t) -> t `suffix_of` bs.
Proof.
  destruct bs as [|b r]; [done |]. unfold lex_int. destruct (Byte.eqb b "0"%byte); [| apply digits1_suffix].
  intros [= <- <-]. by apply suffix_cons_r.
Qed.

Lemma lex_frac_suffix bs f t : lex_frac bs = Some (f, t) -> t `suffix_of` bs.
Proof.
  destruct bs as [|b r]; cbn [lex_frac]; [intros [= _ <-]; auto |]. destruct (Byte.eqb b "."%byte); [| intros [= _ <-]; auto].
  destruct (digits1 r) as [[d r1]|] eqn:E; [| done]. intros [= _ <-]. apply suffix_cons_r. by eapply digits1_suffix.
Qed.

Lemma lex_exp_suffix bs e t : lex_exp bs = Some (e, t) -> t `suffix_of` bs.
Proof.
  destruct bs as [|b r]; cbn [lex_exp]; [intros [= _ <-]; auto |].
  destruct (Byte.eqb b "e"%byte || Byte.eqb b "E"%byte); [| intros [= _ <-]; auto].
  destruct r as [|s r4]; [done |]. destruct (Byte.eqb s "+"%byte || Byte.eqb s "-"%byte).
  - destruct (digits1 r4) as [[d r5]|] eqn:E; [| done]. intros [= _ <-]. do 2 apply suffix_cons_r. by eapply digits1_suffix.
  - destruct (digits1 (s :: r4)) as [[d r5]|] eqn:E; [| done]. intros [= _ <-]. apply suffix_cons_r. by eapply digits1_suffix.
Qed.

Lemma lex_number_suffix bs n t : lex_number bs = Some (n, t) -> t `suffix_of` bs.
Proof.
  unfold lex_number. destruct (match bs with [] => ([], []) | b :: r => _ end) as [sign body] eqn:Eb.
  assert (Hb : body `suffix_of` bs).
  { destruct bs as [|b r]; [simplify_eq; auto |]. destruct (Byte.eqb b "-"%byte); simplify_eq; auto. }
  destruct (lex_int body) as [[i r1]|] eqn:E1; [| done]. destruct (lex_frac r1) as [[f r2]|] eqn:E2; [| done].
  destruct (lex_exp r2) as [[e r3]|] eqn:E3; [| done]. intros [= <- <-].
  etransitivity; [by eapply lex_exp_suffix |]. etransitivity; [by eapply lex_frac_suffix |].
  etransitivity; [by eapply lex_int_suffix | exact Hb].
Qed.

Lemma lex_string_suffix bs s rest : lex_string bs = Some (s, rest) -> rest `suffix_of` bs.
Proof.
  revert s rest. induction bs as [bs IH] using (induction_ltof1 _ (@length _)); unfold ltof in IH.
  intros s rest H. destruct bs as [|b r]; [done |]. cbn [lex_string] in H.
  assert (Hpre : forall pre bs', bs' `suffix_of` r -> prepend pre (lex_string bs') = Some (s, rest) -> rest `suffix_of` b :: r).
  { intros pre bs' Hl Hp. unfold prepend in Hp. destruct (lex_string bs') as [[s' r']|] eqn:E; [| done]. injection Hp as _ <-.
    apply suffix_cons_r. etransitivity; [| exact Hl]. eapply IH; [| exact E]. apply suffix_length in Hl. cbn. lia. }
  repeat first
    [ discriminate H
    | (injection H as _ <-; repeat apply suffix_cons_r; reflexivity)
    | (eapply Hpre; [| exact H]; repeat first [reflexivity | apply suffix_cons_r])
    | match type of H with context [match ?x with _ => _ end] => destruct x end ].
Qed.

Lemma strip_prefix_suffix pre bs t : strip_prefix pre bs = Some t -> t `suffix_of` bs.
Proof.
  revert bs. induction pre as [|p ps IH]; intros [|b r] H; cbn [strip_prefix] in H; simplify_eq; try done.
  destruct (Byte.eqb p b); [| done]. apply suffix_cons_r. by apply IH.
Qed.

Lemma lex_one_suffix b r t rest :
  lex_one (b :: r) = Some (t, rest) -> rest `suffix_of` b :: r /\ (t = TDelim RBrace -> b = rbrace).
Proof.
  unfold lex_one. intros H.
  repeat (match type of H with context [if ?c then _ else _] =>
            lazymatch c with context [if _ then _ else _] => fail | _ => destruct c eqn:? end end;
          try (injection H as <- <-; split; [by apply suffix_cons_r | (done || (intros _; by apply Byte.byte_dec_bl))])).
  - destruct (lex_string r) as [[s u]|] eqn:E; [| done]. injection H as <- <-. split; [| done].
    apply suffix_cons_r. by eapply lex_string_suffix.
  - destruct (lex_number (b :: r)) as [[n u]|] eqn:E; [| done]. injection H as <- <-. split; [by eapply lex_number_suffix | done].
  - destruct (strip_prefix lit_true (b :: r)) eqn:E1; [injection H as <- <-; split; [by eapply strip_prefix_suffix | done] |].
    destruct (strip_prefix lit_false (b :: r)) eqn:E2; [injection H as <- <-; split; [by eapply strip_prefix_suffix | done] |].
    destruct (strip_prefix lit_null (b :: r)) eqn:E3; [| done]. injection H as <- <-. split; [by eapply strip_prefix_suffix | done].
Qed.

Lemma lex_rbrace bs : TDelim RBrace ∈ lex bs -> rbrace ∈ bs.
Proof.
  induction bs as [bs IH] using (induction_ltof1 _ (@length _)); unfold ltof in IH. destruct bs as [|b r].
  - intros H. by apply elem_of_nil in H.
  - destruct (is_space b) eqn:Es; [rewrite lex_space by done; intros H; right; apply IH; [cbn; lia | done] |].
    destruct (lex_one (b :: r)) as [[t rest]|] eqn:E.
    + rewrite (lex_step _ _ _ _ Es E). destruct (lex_one_suffix _ _ _ _ E) as [Hs Hb].
      pose proof (lex_one_shrinks _ _ _ E) as Hl. intros H. apply elem_of_cons in H as [H|H].
      * rewrite (Hb (eq_sym H)). left.
      * assert (Hr : rbrace ∈ rest) by (apply IH; [exact Hl | done]). destruct Hs as [pre ->]. apply elem_of_app. by right.
    + unfold lex. cbn [length lex_fuel]. rewrite Es, E. intros H. apply list_elem_of_singleton in H. done.
Qed.

(** Only the closing brace of an object ends one. *)
Lemma parsed_brace fuel :
  (forall dp ts v rest, parse_value fuel dp ts = Some (v, rest) ->
     exists pre, ts = pre ++ rest /\ (match v with VObj _ => TDelim RBrace ∈ pre | _ => True end)) /\
  (forall dp ts l rest, parse_items fuel dp ts = Some (l, rest) -> exists pre, ts = pre ++ rest) /\
  (forall dp ts l rest, parse_members fuel dp ts = Some (l, rest) -> exists pre, ts = pre ++ rest /\ TDelim RBrace ∈ pre).
Proof.
  induction fuel as [|f (IHv & IHi & IHm)]; [done |]. split_and!.
  - intros dp ts v rest H. cbn [parse_value] in H.
    destruct ts as [|[d| | | | | | |] r]; try done; try (injection H as <- <-; by eexists [_]).
    destruct d; try done.
    + destruct (dp <=? 0); [done |].
      destruct (parse_members f (dp - 1) r) as [[l r']|] eqn:E.
      * destruct (IHm _ _ _ _ E) as (pre & -> & Hp).
        assert (Hgoal : exists pre0, TDelim LBrace :: pre ++ r' = pre0 ++ r' /\ TDelim RBrace ∈ pre0)
          by (exists (TDelim LBrace :: pre); split; [done | by right]).
        destruct (pre ++ r') as [|[[]| | | | | | |] ?] eqn:Er; try (injection H as <- <-; exact Hgoal); try done.
        injection H as <- <-. exists [TDelim LBrace; TDelim RBrace]. split; [done | right; left].
      * destruct r as [|[[]| | | | | | |] r]; try done. injection H as <- <-.
        exists [TDelim LBrace; TDelim RBrace]. split; [done | right; left].
    + destruct (dp <=? 0); [done |].
      destruct (parse_items f (dp - 1) r) as [[l r']|] eqn:E.
      * destruct (IHi _ _ _ _ E) as (pre & ->).
        destruct (pre ++ r') as [|[[]| | | | | | |] ?] eqn:Er; try (injection H as <- <-; rewrite <- Er; by exists (TDelim LBrack :: pre)); try done.
        injection H as <- <-. by exists [TDelim LBrack; TDelim RBrack].
      * destruct r as [|[[]| | | | | | |] r]; try done. injection H as <- <-. by exists [TDelim LBrack; TDelim RBrack].
  - intros dp ts l rest H. cbn [parse_items] in H. destruct (parse_value f dp ts) as [[v [|[[]| | | | | | |] r]]|] eqn:E; try done.
    + injection H as <- <-. destruct (IHv _ _ _ _ E) as (pre & -> & _). exists (pre ++ [TDelim RBrack]). by rewrite <- app_assoc.
    + destruct (parse_items f dp r) as [[l' r']|] eqn:E2; [| done]. injection H as <- <-.
      destruct (IHv _ _ _ _ E) as (pre & -> & _). destruct (IHi _ _ _ _ E2) as (pre2 & ->). exists (pre ++ TComma :: pre2). by rewrite <- app_assoc.
  - intros dp ts l rest H. cbn [parse_members] in H. destruct ts as [|[| | | | | | |] [|[| | | | | | |] r0]]; try done.
    destruct (parse_value f dp r0) as [[v [|[[]| | | | | | |] r]]|] eqn:E; try done.
    + injection H as <- <-. destruct (IHv _ _ _ _ E) as (pre & -> & _). eexists (_ :: _ :: pre ++ [TDelim RBrace]).
      cbn [app]. rewrite <- app_assoc. split; [reflexivity |]. do 2 right. apply elem_of_app. right. left.
    + destruct (parse_members f dp r) as [[l' r']|] eqn:E2; [| done]. injection H as <- <-.
      destruct (IHv _ _ _ _ E) as (pre & -> & _). destruct (IHm _ _ _ _ E2) as (pre2 & -> & Hb). eexists (_ :: _ :: pre ++ TComma :: pre2).
      cbn [app]. rewrite <- app_assoc. split; [reflexivity |]. do 2 right. apply elem_of_app. right. by right.
Qed.

Lemma document_brace data ms : parse_document data = Some (VObj ms) -> rbrace ∈ data.
Proof.
  unfold parse_document. destruct (parse_value _ _ _) as [[v [|? ?]]|] eqn:E; try done. intros [= ->].
  destruct (proj1 (parsed_brace _) _ _ _ _ E) as (pre & Hp & Hb). apply lex_rbrace. rewrite Hp, app_nil_r. exact Hb.
Qed.

(** ** A record without braces, torn *)

Lemma quote_ascii_brace b : b <> rbrace -> rbrace ∉ quote_ascii b.
Proof.
  assert (H : Byte.eqb b rbrace || forallb (fun x => negb (Byte.eqb x rbrace)) (quote_ascii b) = true) by (by destruct b; vm_compute).
  intros Hb Hin. apply orb_true_iff in H as [H|H]; [by apply Byte.byte_dec_bl in H |].
  rewrite forallb_forall in H. apply list_elem_of_In in Hin. apply H in Hin. by rewrite Byte.byte_dec_lb in Hin.
Qed.

Lemma quote_bytes_brace bs : forallb is_ascii bs = true -> rbrace ∉ bs -> rbrace ∉ quote_bytes bs.
Proof.
  induction bs as [|b r IH]; intros Ha Hn; cbn [quote_bytes]; [apply not_elem_of_nil |].
  cbn [forallb] in Ha. apply andb_true_iff in Ha as [Hb Ha]. apply not_elem_of_cons in Hn as [Hn1 Hn2].
  assert (Hlt : (bz b <? 128) = true) by exact Hb. rewrite Hlt. apply not_elem_of_app. split; [apply quote_ascii_brace; congruence | by apply IH].
Qed.

Definition braceless (s : string) : Prop := forallb is_ascii (bytes_of s) = true /\ rbrace ∉ bytes_of s.

Lemma marshal_string_brace s : braceless s -> rbrace ∉ marshal_string s.
Proof.
  intros [Ha Hn]. unfold marshal_string. apply not_elem_of_cons. split; [done |]. apply not_elem_of_app.
  split; [by apply quote_bytes_brace | by apply not_elem_of_cons; split; [| apply not_elem_of_nil]].
Qed.

Lemma digits_brace bs : forallb is_digit bs = true -> rbrace ∉ bs.
Proof. intros H Hin. rewrite forallb_forall in H. apply list_elem_of_In in Hin. by apply H in Hin. Qed.

Definition member_braceless (m : string * marshal_val) : Prop :=
  braceless m.1 /\ match m.2 with MString s => braceless s | MInt z => 0 <= z | MBool _ => True end.

Lemma marshal_members_brace ms : Forall member_braceless ms -> rbrace ∉ marshal_members ms.
Proof.
  intros H. assert (Hm : forall m, member_braceless m -> rbrace ∉ marshal_member m).
  { intros [k v] [Hk Hv]. unfold marshal_member. cbn [fst snd] in *. apply not_elem_of_app. split; [by apply marshal_string_brace |].
    apply not_elem_of_cons. split; [done |]. destruct v as [s|z|[]]; cbn [marshal_value].
    - by apply marshal_string_brace.
    - unfold show_int. rewrite (proj2 (Z.ltb_ge _ _)) by exact Hv. apply digits_brace. by apply dec_digits_all_digits.
    - by apply (bool_decide_unpack (rbrace ∉ lit_true)).
    - by apply (bool_decide_unpack (rbrace ∉ lit_false)). }
  induction H as [|m [|m' ms] Hb _ IH]; [apply not_elem_of_nil | by apply Hm |].
  rewrite marshal_members_cons. apply not_elem_of_app. split; [by apply Hm |]. apply not_elem_of_cons. by split.
Qed.

(** What is left of the line by a write that stopped after [k] bytes is the
    whole record or no object. *)
Lemma torn_line ms k ms' :
  members_ok ms -> Forall member_braceless ms ->
  parse_document (firstn k (marshal_object ms ++ [Byte.x0a])) = Some (VObj ms') -> ms' = json_members ms.
Proof.
  intros Hok Hb Hp. assert (Hcut : (k <= S (length (marshal_members ms)))%nat \/ (S (S (length (marshal_members ms))) <= k)%nat) by lia.
  destruct Hcut as [Hk|Hk].
  - exfalso. apply document_brace in Hp. revert Hp. unfold marshal_object. destruct k as [|k]; [apply not_elem_of_nil |].
    cbn [firstn app]. rewrite <- app_assoc, firstn_app, (proj2 (Nat.sub_0_le _ _)), app_nil_r by lia.
    apply not_elem_of_cons. split; [done |]. intros Hin. apply (marshal_members_brace ms Hb).
    rewrite <- (firstn_skipn k (marshal_members ms)). apply elem_of_app. by left.
  - assert (Hl : length (marshal_object ms) = S (S (length (marshal_members ms)))).
    { unfold marshal_object. cbn [length]. rewrite length_app. cbn. lia. }
    rewrite firstn_app, (firstn_all2 (marshal_object ms)) in Hp by lia.
    destruct (k - length (marshal_object ms))%nat; cbn [firstn] in Hp.
    + rewrite app_nil_r, marshal_object_document in Hp by done. by injection Hp.
    + rewrite firstn_nil, line_document in Hp by done. by injection Hp.
Qed.
