(* ===== verification/Frame.v ===== *)
(** * Frame: [internal/contractv1/frame.go]

    The 24-byte header of a tunnel frame, its encoder and decoder, and the
    per-direction sequence rule.  A frame is a value of the wire format when
    [frame_wf] holds; encoding and decoding are inverse on those. *)

From S2P Require Import Prelude GoText.

Definition HeaderSize : Z := 24.
Definition ProtocolVersion : Z := 1.
Definition MaxControlPayload : Z := 64 * 1024.
Definition MaxDataPayload : Z := 1024 * 1024.
Definition MaxUDPDatagram : Z := 1200.
Definition MaxSequence : Z := 2 ^ 64 - 1.

Definition magic : bytes := ["H"%byte; "X"%byte; "T"%byte; "1"%byte].

(** [Kind] is a [uint8]; any value can be written in a [Frame]. *)
Definition Kind := Z.
Definition KindControl : Kind := 1.
Definition KindData : Kind := 2.

Record Frame := MkFrame {
  fr_kind : Kind;
  fr_stream : Z;      (* uint32 *)
  fr_seq : Z;         (* uint64 *)
  fr_payload : bytes;
}.

#[export] Instance Frame_eq_dec : EqDecision Frame.
Proof. solve_decision. Defined.

(** The Go types of the fields. *)
Definition frame_typed (f : Frame) : Prop :=
  0 <= fr_kind f < 256 /\ is_u32 (fr_stream f) /\ is_u64 (fr_seq f).

(** ** [encoding/binary.BigEndian] *)

Fixpoint be_put (n : nat) (v : Z) : bytes :=
  match n with
  | O => []
  | S k => zb (v / 256 ^ Z.of_nat k) :: be_put k v
  end.

Fixpoint be_get (acc : Z) (bs : bytes) : Z :=
  match bs with
  | [] => acc
  | b :: r => be_get (acc * 256 + bz b) r
  end.

Definition be (bs : bytes) : Z := be_get 0 bs.

Lemma be_put_length n v : length (be_put n v) = n.
Proof. induction n; simpl; congruence. Qed.

Lemma be_get_put n v acc :
  0 <= v -> be_get acc (be_put n v) = acc * 256 ^ Z.of_nat n + v mod 256 ^ Z.of_nat n.
Proof.
  intros Hv. revert acc. induction n as [|n IH]; intros acc.
  { simpl. rewrite Z.mod_1_r. lia. }
  cbn [be_put be_get]. rewrite IH, bz_zb, Nat2Z.inj_succ, Z.pow_succ_r by lia.
  assert (0 < 256 ^ Z.of_nat n) by (apply Z.pow_pos_nonneg; lia).
  rewrite (Z.mul_comm 256 (256 ^ Z.of_nat n)), Z.rem_mul_r by lia. ring.
Qed.

Lemma be_put_get n v : 0 <= v < 256 ^ Z.of_nat n -> be (be_put n v) = v.
Proof. intros H. unfold be. rewrite be_get_put by lia. rewrite Z.mod_small by lia. lia. Qed.

Lemma be_get_bound bs acc :
  0 <= acc -> acc * 256 ^ zlen bs <= be_get acc bs < (acc + 1) * 256 ^ zlen bs.
Proof.
  revert acc. induction bs as [|b r IH]; intros acc Ha; [simpl; rewrite zlen_nil; lia |].
  cbn [be_get]. rewrite zlen_cons, Z.pow_add_r by (pose proof (zlen_nonneg r); lia).
  pose proof (bz_range b). specialize (IH (acc * 256 + bz b) ltac:(lia)).
  assert (0 < 256 ^ zlen r) by (apply Z.pow_pos_nonneg; [lia | apply zlen_nonneg]). nia.
Qed.

Lemma be_bound bs : 0 <= be bs < 256 ^ zlen bs.
Proof. pose proof (be_get_bound bs 0 ltac:(lia)). unfold be. lia. Qed.

Lemma be_get_acc bs acc : be_get acc bs = acc * 256 ^ zlen bs + be bs.
Proof.
  unfold be. revert acc. induction bs as [|b r IH]; intros acc.
  { simpl. rewrite zlen_nil. lia. }
  cbn [be_get]. rewrite IH, (IH (0 * 256 + bz b)), zlen_cons, Z.pow_add_r
    by (pose proof (zlen_nonneg r); lia). ring.
Qed.

Lemma be_get_inj_put bs : be_put (length bs) (be bs) = bs.
Proof.
  induction bs as [|b r IH]; [done |]. unfold be. simpl length. cbn [be_put be_get].
  rewrite be_get_acc. change (Z.of_nat (length r)) with (zlen r).
  pose proof (be_bound r) as Hb. pose proof (bz_range b).
  assert (Hp : 0 < 256 ^ zlen r) by (apply Z.pow_pos_nonneg; [lia | apply zlen_nonneg]).
  f_equal.
  - rewrite Z.div_add_l, (Z.div_small (be r)) by lia. rewrite Z.add_0_r, Z.mul_0_l. apply zb_bz.
  - transitivity (be_put (length r) (be r)); [| exact IH]. clear -Hp Hb.
    assert (Hgen : forall n q, (n <= length r)%nat ->
              be_put n (q * 256 ^ zlen r + be r) = be_put n (be r)).
    { induction n as [|n IHn]; intros q Hn; [done |]. cbn [be_put]. rewrite IHn by lia.
      f_equal. apply bz_inj. rewrite !bz_zb.
      assert (E : 256 ^ zlen r = 256 ^ (zlen r - Z.of_nat n - 1) * 256 * 256 ^ Z.of_nat n).
      { rewrite <- (Z.pow_1_r 256) at 3. rewrite <- !Z.pow_add_r by (unfold zlen; lia).
        f_equal. lia. }
      rewrite E, Z.mul_assoc, Z.div_add_l by (apply Z.pow_nonzero; lia).
      rewrite (Z.mul_assoc q), Z.add_comm, Z.mod_add by lia. done. }
    apply Hgen. lia.
Qed.

(** ** Encoding and decoding *)

Definition maxPayloadForKind (kind : Kind) : Z :=
  if kind =? KindControl then MaxControlPayload else MaxDataPayload.

Definition validateFrameFields (f : Frame) : result unit :=
  reject_if (negb (fr_kind f =? KindControl) && negb (fr_kind f =? KindData))
            (ErrMsg "unknown frame kind") ;?
  reject_if (fr_seq f =? 0) (ErrMsg "sequence must start at 1") ;?
  reject_if (maxPayloadForKind (fr_kind f) <? zlen (fr_payload f))
            (ErrMsg "payload exceeds limit") ;?
  reject_if ((fr_kind f =? KindData) && (fr_stream f =? 0))
            (ErrMsg "data frame stream ID must be non-zero").

Definition EncodeFrame (f : Frame) : result bytes :=
  validateFrameFields f ;?
  Ok (magic ++ [zb ProtocolVersion] ++ [zb (fr_kind f)] ++ be_put 2 0 ++
      be_put 4 (fr_stream f) ++ be_put 4 (u32 (zlen (fr_payload f))) ++
      be_put 8 (fr_seq f) ++ fr_payload f).

(** [frameErrorf]. *)
Definition frameErrorf (text : string) : error := ErrFrame (ErrMsg text).

(** [encoded[a:b]]. *)
Definition slice (a b : nat) (bs : bytes) : bytes := firstn (b - a) (skipn a bs).

Definition DecodeFrame (encoded : bytes) : result Frame :=
  reject_if (zlen encoded <? HeaderSize) (frameErrorf "frame shorter than header") ;?
  reject_if (negb (bool_decide (slice 0 4 encoded = magic))) (frameErrorf "invalid frame magic") ;?
  reject_if (negb (be (slice 4 5 encoded) =? ProtocolVersion))
            (frameErrorf "unsupported protocol version") ;?
  let kind := be (slice 5 6 encoded) in
  reject_if (negb (kind =? KindControl) && negb (kind =? KindData))
            (frameErrorf "unknown frame kind") ;?
  reject_if (negb (be (slice 6 8 encoded) =? 0)) (frameErrorf "reserved flags must be zero") ;?
  let payloadLength := be (slice 12 16 encoded) in
  reject_if (negb (payloadLength =? zlen encoded - HeaderSize))
            (frameErrorf "payload length mismatch") ;?
  reject_if (maxPayloadForKind kind <? payloadLength) (frameErrorf "payload exceeds limit") ;?
  let frame := MkFrame kind (be (slice 8 12 encoded)) (be (slice 16 24 encoded))
                       (skipn 24 encoded) in
  validateFrameFields frame ;? Ok frame.

(** The frames of the wire format. *)
Definition frame_wf (f : Frame) : Prop :=
  (fr_kind f = KindControl \/ fr_kind f = KindData) /\
  0 < fr_seq f <= MaxSequence /\
  0 <= fr_stream f < 2 ^ 32 /\
  (fr_kind f = KindData -> fr_stream f <> 0) /\
  zlen (fr_payload f) <= maxPayloadForKind (fr_kind f).

Lemma frame_wf_typed f : frame_wf f -> frame_typed f.
Proof.
  intros (Hk & Hs & Hst & _). unfold frame_typed, is_u32, is_u64, KindControl, KindData, MaxSequence in *. lia.
Qed.

Lemma validate_fields_iff f :
  frame_typed f -> validateFrameFields f = Ok tt <-> frame_wf f.
Proof.
  intros (Hk & Hst & Hs). unfold validateFrameFields, frame_wf, is_u32, is_u64, MaxSequence in *.
  split.
  - intros H. inv_ok. bool_facts. split_and!; lia.
  - intros (Hkk & Hseq & _ & Hd & Hlen).
    replace (negb (fr_kind f =? KindControl) && negb (fr_kind f =? KindData)) with false
      by (symmetry; apply andb_false_iff; rewrite !negb_false_iff, !Z.eqb_eq; lia).
    rewrite (proj2 (Z.eqb_neq _ _)) by lia. simpl.
    rewrite (proj2 (Z.ltb_ge _ _)) by lia. simpl.
    replace ((fr_kind f =? KindData) && (fr_stream f =? 0)) with false; [done |].
    symmetry. apply andb_false_iff. rewrite !Z.eqb_neq.
    destruct (Z.eq_dec (fr_kind f) KindData); auto.
Qed.

(** A well-formed frame as the bytes of its header fields. *)
Definition frame_bytes (f : Frame) : bytes :=
  magic ++ [zb ProtocolVersion] ++ [zb (fr_kind f)] ++ be_put 2 0 ++
  be_put 4 (fr_stream f) ++ be_put 4 (zlen (fr_payload f)) ++
  be_put 8 (fr_seq f) ++ fr_payload f.

Lemma encode_wf f : frame_wf f -> EncodeFrame f = Ok (frame_bytes f).
Proof.
  intros H. pose proof (frame_wf_typed _ H) as Ht. unfold EncodeFrame.
  rewrite (proj2 (validate_fields_iff _ Ht) H). simpl rbind. unfold frame_bytes.
  rewrite u32_id; [done |]. destruct H as (_ & _ & _ & _ & H). pose proof (zlen_nonneg (fr_payload f)).
  unfold is_u32, maxPayloadForKind, MaxControlPayload, MaxDataPayload in *. destruct (_ =? _); lia.
Qed.

Lemma be_one z : be [zb z] = z mod 256.
Proof. unfold be. cbn [be_get]. rewrite bz_zb. lia. Qed.

(** The header fields of [frame_bytes f], each at its offset. *)
Lemma frame_bytes_fields f :
  exists s0 s1 s2 s3 n0 n1 n2 n3 q0 q1 q2 q3 q4 q5 q6 q7,
    be_put 4 (fr_stream f) = [s0; s1; s2; s3] /\
    be_put 4 (zlen (fr_payload f)) = [n0; n1; n2; n3] /\
    be_put 8 (fr_seq f) = [q0; q1; q2; q3; q4; q5; q6; q7] /\
    frame_bytes f = magic ++ [zb 1; zb (fr_kind f); zb 0; zb 0; s0; s1; s2; s3; n0; n1; n2; n3;
                              q0; q1; q2; q3; q4; q5; q6; q7] ++ fr_payload f.
Proof. do 16 eexists. split_and!; reflexivity. Qed.

Lemma reject_false {A} b e (k : result A) : b = false -> (reject_if b e ;? k) = k.
Proof. by intros ->. Qed.

Lemma decode_frame_bytes f : frame_wf f -> DecodeFrame (frame_bytes f) = Ok f.
Proof.
  intros H. pose proof (frame_wf_typed _ H) as Ht. pose proof (zlen_nonneg (fr_payload f)) as Hl0.
  destruct (frame_bytes_fields f)
    as (s0&s1&s2&s3&n0&n1&n2&n3&q0&q1&q2&q3&q4&q5&q6&q7&Es&En&Eq&->).
  pose proof H as (Hk & Hs & Hst & Hd & Hlen). unfold DecodeFrame.
  assert (Hz : zlen (magic ++ [zb 1; zb (fr_kind f); zb 0; zb 0; s0; s1; s2; s3; n0; n1; n2; n3;
      q0; q1; q2; q3; q4; q5; q6; q7] ++ fr_payload f) = 24 + zlen (fr_payload f)).
  { rewrite !zlen_app, Z.add_assoc. reflexivity. }
  rewrite Hz. unfold slice. cbn [magic app skipn firstn Nat.sub].
  rewrite take_0, drop_0, <- Es, <- En, <- Eq, !be_one.
  assert (Hstb : be (be_put 4 (fr_stream f)) = fr_stream f) by (apply be_put_get; simpl; lia).
  assert (Hmax : maxPayloadForKind (fr_kind f) <= 1048576)
    by (unfold maxPayloadForKind, MaxControlPayload, MaxDataPayload; destruct (_ =? _); lia).
  assert (Hnb : be (be_put 4 (zlen (fr_payload f))) = zlen (fr_payload f))
    by (apply be_put_get; simpl; lia).
  assert (Hqb : be (be_put 8 (fr_seq f)) = fr_seq f)
    by (apply be_put_get; unfold MaxSequence in *; simpl; lia).
  rewrite Hstb, Hnb, Hqb. rewrite (Z.mod_small (fr_kind f)) by apply Ht.
  unfold HeaderSize, ProtocolVersion.
  rewrite reject_false by (apply Z.ltb_ge; lia).
  rewrite reject_false by reflexivity.
  rewrite reject_false by reflexivity.
  rewrite reject_false by (destruct Hk as [-> | ->]; reflexivity).
  rewrite reject_false by reflexivity.
  rewrite reject_false by (apply negb_false_iff, Z.eqb_eq; lia).
  rewrite reject_false by (apply Z.ltb_ge; lia).
  assert (Hf : MkFrame (fr_kind f) (fr_stream f) (fr_seq f) (fr_payload f) = f) by by destruct f.
  rewrite Hf. by rewrite (proj2 (validate_fields_iff _ Ht) H).
Qed.

(** ** The decoder accepts nothing else *)

Lemma slice_split24 bs :
  24 <= zlen bs ->
  exists b0 b1 b2 b3 b4 b5 b6 b7 s0 s1 s2 s3 n0 n1 n2 n3 q0 q1 q2 q3 q4 q5 q6 q7 p,
    bs = [b0; b1; b2; b3; b4; b5; b6; b7; s0; s1; s2; s3; n0; n1; n2; n3;
          q0; q1; q2; q3; q4; q5; q6; q7] ++ p.
Proof.
  unfold zlen. intros H.
  do 24 (destruct bs as [|? bs]; [simpl in H; lia |]). by do 25 eexists.
Qed.

Lemma be_put_be bs n : length bs = n -> be_put n (be bs) = bs.
Proof. intros <-. apply be_get_inj_put. Qed.

Lemma be_pair_zero a b : be [a; b] = 0 -> a = Byte.x00 /\ b = Byte.x00.
Proof.
  unfold be. cbn [be_get]. pose proof (bz_range a). pose proof (bz_range b). intros H'.
  split; apply bz_inj; change (bz Byte.x00) with 0; lia.
Qed.

Lemma decode_sound bs f : DecodeFrame bs = Ok f -> frame_wf f /\ bs = frame_bytes f.
Proof.
  intros H. unfold DecodeFrame in H. inv_ok. bool_facts.
  destruct (slice_split24 bs) as
    (b0&b1&b2&b3&b4&b5&b6&b7&s0&s1&s2&s3&n0&n1&n2&n3&q0&q1&q2&q3&q4&q5&q6&q7&p&->);
    [unfold HeaderSize in *; lia |].
  rewrite zlen_app in *. change (zlen (b0 :: _)) with 24 in *.
  unfold slice, HeaderSize, ProtocolVersion in *.
  cbn [app skipn firstn Nat.sub] in *. rewrite ?take_0, ?drop_0 in *.
  set (f := MkFrame _ _ _ _) in *.
  assert (Ht : frame_typed f).
  { pose proof (be_bound [b5]). pose proof (be_bound [s0; s1; s2; s3]).
    pose proof (be_bound [q0; q1; q2; q3; q4; q5; q6; q7]).
    unfold frame_typed, is_u32, is_u64, f; simpl in *. done. }
  apply (validate_fields_iff _ Ht) in E6. split; [done |].
  apply be_pair_zero in E3 as [-> ->]. injection E0 as -> -> -> ->.
  assert (b4 = zb 1) as ->
    by (unfold be in E1; cbn [be_get] in E1; apply bz_inj; rewrite bz_zb_small by lia; lia).
  unfold frame_bytes, f. cbn [fr_kind fr_stream fr_seq fr_payload].
  replace (zlen p) with (be [n0; n1; n2; n3]) by lia.
  rewrite !be_put_be by done.
  assert (zb (be [b5]) = b5) as ->
    by (unfold be; cbn [be_get]; rewrite Z.mul_0_l, Z.add_0_l; apply zb_bz).
  reflexivity.
Qed.

Lemma encode_ok_wf f b : frame_typed f -> EncodeFrame f = Ok b -> frame_wf f.
Proof.
  intros Ht H. unfold EncodeFrame in H. inv_ok. by apply validate_fields_iff in E.
Qed.

(** C39: decoding and encoding are inverse: [DecodeFrame] returns a frame for a
    byte string exactly when the frame is one of the wire format (a known kind,
    a non-zero sequence, a non-zero stream for data, a payload within its
    kind's limit) and [EncodeFrame] writes that byte string for it. *)
Theorem frame_codec b f :
  DecodeFrame b = Ok f <-> frame_wf f /\ EncodeFrame f = Ok b.
Proof.
  split.
  - intros H. apply decode_sound in H as [Hw ->]. split; [done | by apply encode_wf].
  - intros [Hw H]. rewrite encode_wf in H by done. injection H as <-. by apply decode_frame_bytes.
Qed.

(** ** Which errors are framing errors *)

(** A header the framing layer accepts. *)
Definition header_ok (b : bytes) : Prop :=
  24 <= zlen b /\ slice 0 4 b = magic /\ be (slice 4 5 b) = ProtocolVersion /\
  (be (slice 5 6 b) = KindControl \/ be (slice 5 6 b) = KindData) /\
  be (slice 6 8 b) = 0 /\ be (slice 12 16 b) = zlen b - HeaderSize /\
  be (slice 12 16 b) <= maxPayloadForKind (be (slice 5 6 b)).

Lemma reject_plain {A} c t (k : result A) e :
  (reject_if c (ErrMsg t) ;? k) = Err e -> errors_as_frame e = false \/ k = Err e.
Proof. destruct c; simpl; [intros [= <-]; by left | by right]. Qed.

Lemma validate_fields_plain f e : validateFrameFields f = Err e -> errors_as_frame e = false.
Proof.
  unfold validateFrameFields. intros H.
  do 3 (apply reject_plain in H as [H|H]; [done |]).
  unfold reject_if in H. case_match; [by injection H as <- | done].
Qed.

Definition header_frame (b : bytes) : Frame :=
  MkFrame (be (slice 5 6 b)) (be (slice 8 12 b)) (be (slice 16 24 b)) (skipn 24 b).

Lemma kind_test k :
  negb (k =? KindControl) && negb (k =? KindData) = false <-> k = KindControl \/ k = KindData.
Proof. rewrite andb_false_iff, !negb_false_iff, !Z.eqb_eq. done. Qed.

Lemma reject_case {A} c t (k : result A) :
  (c = true /\ (reject_if c (frameErrorf t) ;? k) = Err (frameErrorf t)) \/
  (c = false /\ (reject_if c (frameErrorf t) ;? k) = k).
Proof. destruct c; [by left | by right]. Qed.

Lemma decode_header b :
  (exists t, DecodeFrame b = Err (frameErrorf t) /\ ~ header_ok b) \/
  (header_ok b /\ DecodeFrame b = (validateFrameFields (header_frame b) ;? Ok (header_frame b))).
Proof.
  unfold DecodeFrame, header_ok.
  match goal with |- context [reject_if ?c (frameErrorf ?t) ;? ?k] =>
    destruct (reject_case c t k) as [[Hc ->]|[Hc0 ->]] end;
    [left; eexists; split; [done |]; unfold HeaderSize in *; bool_facts; lia |].
  match goal with |- context [reject_if ?c (frameErrorf ?t) ;? ?k] =>
    destruct (reject_case c t k) as [[Hc ->]|[Hc1 ->]] end;
    [left; eexists; split; [done |]; bool_facts; naive_solver |].
  match goal with |- context [reject_if ?c (frameErrorf ?t) ;? ?k] =>
    destruct (reject_case c t k) as [[Hc ->]|[Hc2 ->]] end;
    [left; eexists; split; [done |]; bool_facts; naive_solver |].
  match goal with |- context [reject_if ?c (frameErrorf ?t) ;? ?k] =>
    destruct (reject_case c t k) as [[Hc ->]|[Hc3 ->]] end;
    [left; eexists; split; [done |]; intros (_ & _ & _ & Hk & _); apply kind_test in Hk; congruence |].
  match goal with |- context [reject_if ?c (frameErrorf ?t) ;? ?k] =>
    destruct (reject_case c t k) as [[Hc ->]|[Hc4 ->]] end;
    [left; eexists; split; [done |]; bool_facts; naive_solver |].
  match goal with |- context [reject_if ?c (frameErrorf ?t) ;? ?k] =>
    destruct (reject_case c t k) as [[Hc ->]|[Hc5 ->]] end;
    [left; eexists; split; [done |]; bool_facts; naive_solver |].
  match goal with |- context [reject_if ?c (frameErrorf ?t) ;? ?k] =>
    destruct (reject_case c t k) as [[Hc ->]|[Hc6 ->]] end;
    [left; eexists; split; [done |]; bool_facts; lia |].
  right. split; [| done]. apply kind_test in Hc3. unfold HeaderSize in *. bool_facts.
  split_and!; try done; lia.
Qed.

(** When [DecodeFrame] fails, the error is a [*FrameError] exactly when the
    header itself is malformed (length, magic, version, kind, flags, payload
    length); the failures on a well-formed header are the zero sequence and the
    data frame on stream 0, and those carry no [*FrameError]. *)
Theorem frame_error_class b e :
  DecodeFrame b = Err e ->
  (errors_as_frame e = true <-> ~ header_ok b) /\
  (header_ok b ->
     be (slice 16 24 b) = 0 \/ (be (slice 5 6 b) = KindData /\ be (slice 8 12 b) = 0)).
Proof.
  intros H. destruct (decode_header b) as [(t & E & Hno)|[Hok E]]; rewrite E in H.
  { injection H as <-. done. }
  destruct (validateFrameFields (header_frame b)) as [u|e'] eqn:Ev; [done |].
  simpl in H. injection H as ->. rewrite (validate_fields_plain _ _ Ev). split; [done |].
  intros (Hl & _ & _ & Hk & _ & Hn & Hmax). unfold HeaderSize in *.
  unfold validateFrameFields, header_frame in Ev. cbn [fr_kind fr_seq fr_stream fr_payload] in Ev.
  apply kind_test in Hk. rewrite Hk in Ev. simpl in Ev.
  assert (Hz : zlen (skipn 24 b) = be (slice 12 16 b)) by (unfold zlen in *; rewrite length_skipn; lia).
  destruct (be (slice 16 24 b) =? 0) eqn:E1; bool_facts; [by left | right].
  rewrite Hz, (proj2 (Z.ltb_ge _ _)) in Ev by lia. simpl in Ev.
  unfold reject_if in Ev. case_match; [| done]. bool_facts. done.
Qed.

(** A frame whose header is fine and whose sequence is zero. *)
Lemma frame_error_class_witness :
  let b := magic ++ [zb 1; zb 2; zb 0; zb 0] ++ be_put 4 7 ++ be_put 4 0 ++ be_put 8 0 in
  header_ok b /\ be (slice 16 24 b) = 0.
Proof.
  intros b. assert (Hb : header_ok b).
  { unfold header_ok, maxPayloadForKind. split_and!; try (vm_compute; done). by right. }
  split; [done |].
  destruct (proj2 (frame_error_class b (ErrMsg "sequence must start at 1") eq_refl) Hb) as [H|[_ H]];
    [exact H | vm_compute; reflexivity].
Defined.

(** ** Sequences *)

Definition err_exhausted : error :=
  ErrMsg "sequence space exhausted; session must terminate before wrap".

(** [last + 1] at the width of [uint64]. *)
Definition NextSequence (last : Z) : result Z :=
  reject_if (last =? MaxSequence) err_exhausted ;? Ok (u64 (last + 1)).

(** [SequenceTracker] is its [last]. *)
Definition SequenceTracker := Z.

Definition Accept (tracker : SequenceTracker) (sequence : Z) : result SequenceTracker :=
  let? expected := NextSequence tracker in
  reject_if (negb (sequence =? expected)) (ErrMsg "non-contiguous sequence") ;?
  Ok sequence.

(** A run of accepted sequences. *)
Fixpoint accept_all (tracker : SequenceTracker) (seqs : list Z) : result SequenceTracker :=
  match seqs with
  | [] => Ok tracker
  | s :: r => let? t := Accept tracker s in accept_all t r
  end.

Lemma Accept_iff last s t :
  is_u64 last -> Accept last s = Ok t <-> last < MaxSequence /\ s = last + 1 /\ t = s.
Proof.
  unfold Accept, NextSequence, is_u64, MaxSequence. intros Hl. split.
  - intros H. inv_ok. bool_facts. rewrite u64_id in * by (unfold is_u64; lia). lia.
  - intros (Hlt & -> & ->). rewrite (proj2 (Z.eqb_neq _ _)) by lia. simpl.
    rewrite u64_id by (unfold is_u64; lia). by rewrite Z.eqb_refl.
Qed.

(** From a fresh tracker exactly the contiguous sequences [1, 2, ..., n]
    are accepted; the tracker ends at [n], never wraps past [2^64 - 1] and so
    never accepts a sequence number twice. *)
Theorem sequence_contiguous seqs t :
  accept_all 0 seqs = Ok t <->
  seqs = (fun i => Z.of_nat i) <$> seq 1 (length seqs) /\ t = Z.of_nat (length seqs) /\
  t <= MaxSequence.
Proof.
  assert (Hgen : forall l, is_u64 (Z.of_nat l) -> accept_all (Z.of_nat l) seqs = Ok t <->
    seqs = (fun i => Z.of_nat i) <$> seq (S l) (length seqs) /\
    t = Z.of_nat (l + length seqs) /\ t <= MaxSequence).
  { revert t. induction seqs as [|s r IH]; intros t l Hl.
    - simpl. rewrite Nat.add_0_r. unfold is_u64, MaxSequence in *. naive_solver lia.
    - cbn [accept_all]. rewrite rbind_Ok. split.
      + intros (a & Ha & Hr). apply Accept_iff in Ha as (Hlt & -> & ->); [| done].
        replace (Z.of_nat l + 1) with (Z.of_nat (S l)) in * by lia.
        apply IH in Hr as (Hr & -> & Hb); [| unfold is_u64, MaxSequence in *; lia].
        cbn [length seq]. rewrite fmap_cons.
        split_and!; [by f_equal | f_equal; simpl; lia | simpl in *; lia].
      + intros (Hs & -> & Hb). simpl in Hs. injection Hs as -> Hr.
        exists (Z.of_nat (S l)). simpl in Hb. unfold MaxSequence in *.
        rewrite Accept_iff by done. split; [unfold MaxSequence; lia |].
        apply IH; [unfold is_u64; lia |]. split_and!; [done | simpl; lia | unfold MaxSequence; simpl; lia]. }
  apply (Hgen O). unfold is_u64. lia.
Qed.
