(* ===== verification/Contract.v ===== *)
(** * Contract: the Control-Panel records of [internal/contractv1/validation.go]

    The scalar validators of the contract (identifiers, base64url values,
    timestamps, host names, counters) and the four records a Control Panel
    hands the Gateway: device session authorizations, endpoint route
    assignments, revocation and status signals, each with its parser and its
    activation window. *)

From S2P Require Import Prelude GoText GoTime Json StrictJson JsonMarshal Frame.

Definition MaxTrafficDeltaBytes : Z := 1024 * 1024 * 1024.

(** ** Scalar validators *)

Definition id_tail_byte (b : Byte.byte) : bool :=
  is_alnum b || Byte.eqb b "."%byte || Byte.eqb b "_"%byte || Byte.eqb b ":"%byte
  || Byte.eqb b "-"%byte.

(** [idPattern.MatchString]. *)
Definition idPattern (s : string) : bool :=
  match bytes_of s with
  | [] => false
  | b :: r => is_alnum b && (zlen r <=? 63) && forallb id_tail_byte r
  end.

Definition tokenPattern (s : string) : bool :=
  (32 <=? slen s) && (slen s <=? 512) && forallb b64_alphabet (bytes_of s).

Definition validateID (name value : string) : result unit :=
  reject_if (negb (idPattern value)) (ErrMsg (name +:+ " is not a valid contract identifier")).

(** A [range] over a map of names and values: the order is unspecified, and
    only which failing name is reported depends on it. *)
Fixpoint validate_ids (ids : list (string * string)) : result unit :=
  match ids with
  | [] => Ok tt
  | (n, v) :: r => validateID n v ;? validate_ids r
  end.

Definition validateRawBase64Length (name value : string) (size : Z) : result unit :=
  match b64_decode_string value with
  | None => Err (ErrMsg (name +:+ " must encode exactly the contract length as base64url"))
  | Some decoded =>
    reject_if (negb (zlen decoded =? size))
              (ErrMsg (name +:+ " must encode exactly the contract length as base64url")) ;?
    reject_if (negb (String.eqb (b64_encode_string decoded) value))
              (ErrMsg (name +:+ " is not canonical base64url without padding"))
  end.

Definition parseUTCTime (name value : string) : result instant :=
  reject_if (negb (utcTimestampPattern value))
            (ErrMsg (name +:+ " must be RFC3339 UTC with Z suffix and optional dot-fraction")) ;?
  match parse_rfc3339 value with
  | Some t => Ok t
  | None => Err (ErrMsg (name +:+ " must be RFC3339 UTC"))
  end.

(** [strings.Split(value, ".")]. *)
Definition split_dots : bytes -> list bytes := split_on "."%byte.

Definition label_byte (b : Byte.byte) : bool := is_alnum b || Byte.eqb b "-"%byte.

Definition label_ok (l : bytes) : bool :=
  negb (zlen l =? 0) && (zlen l <=? 63) &&
  negb (bool_decide (head l = Some "-"%byte)) && negb (bool_decide (last l = Some "-"%byte)).

Fixpoint check_labels (labels : list bytes) : result unit :=
  match labels with
  | [] => Ok tt
  | l :: r =>
    reject_if (negb (label_ok l)) (ErrMsg "public_hostname contains invalid label") ;?
    reject_if (negb (forallb label_byte l))
      (ErrMsg "public_hostname must contain ASCII letters, digits, and hyphens only") ;?
    check_labels r
  end.

Definition validateHostname (value : string) : result unit :=
  let v := bytes_of value in
  reject_if ((zlen v =? 0) || (253 <? zlen v) || bool_decide (head v = Some "."%byte)
             || bool_decide (last v = Some "."%byte)) (ErrMsg "public_hostname is invalid") ;?
  let labels := split_dots v in
  reject_if (Z.of_nat (length labels) <? 2)
            (ErrMsg "public_hostname must contain at least two labels") ;?
  check_labels labels ;?
  let top := default [] (last labels) in
  reject_if ((zlen top <? 2) || (63 <? zlen top))
            (ErrMsg "public_hostname top-level label must be 2..63 ASCII letters") ;?
  reject_if (negb (forallb is_letter top))
            (ErrMsg "public_hostname top-level label must contain letters only").

Definition validateTrafficCounter (name : string) (value : option Z) : result unit :=
  match value with
  | None => Ok tt
  | Some v => reject_if ((v <? 0) || (MaxTrafficDeltaBytes <? v)) (ErrMsg (name +:+ " outside bounds"))
  end.

Definition oneOfStrings (value : string) (allowed : list string) : bool :=
  existsb (String.eqb value) allowed.

(** ** Device session authorizations *)

Record DeviceSessionAuthorization := MkAuthorization {
  da_contract_version : Z;
  da_authorization_id : string;
  da_device_id : string;
  da_device_public_key : string;
  da_token_id : string;
  da_token_sha256 : string;
  da_issued_at : string;
  da_not_before : string;
  da_expires_at : string;
  da_disabled : bool;
}.

Definition DeviceSessionAuthorization_schema : schema :=
  [("contract_version", KInt); ("authorization_id", KString); ("device_id", KString);
   ("device_public_key", KString); ("token_id", KString); ("token_sha256", KString);
   ("issued_at", KString); ("not_before", KString); ("expires_at", KString); ("disabled", KBool)].

Definition DeviceSessionAuthorization_of (m : gmap string field_val) : DeviceSessionAuthorization :=
  MkAuthorization (get_int m "contract_version") (get_string m "authorization_id")
    (get_string m "device_id") (get_string m "device_public_key") (get_string m "token_id")
    (get_string m "token_sha256") (get_string m "issued_at") (get_string m "not_before")
    (get_string m "expires_at") (get_bool m "disabled").

Definition PublicKeySize : Z := 32.
Definition SignatureSize : Z := 64.

Definition lower_hex_digest (s : string) : bool :=
  match hex_decode (bytes_of s) with
  | Some d => (zlen d =? 32) && bool_decide (bytes_of s = ascii_lower_byte <$> bytes_of s)
  | None => false
  end.

Definition ParseDeviceSessionAuthorizationRecord (data : bytes) : result DeviceSessionAuthorization :=
  validateStrictJSONObject data ;?
  rejectNullMembers data ;?
  requirePresent data ["disabled"] ;?
  let? m := decodeStrict DeviceSessionAuthorization_schema data in
  let record := DeviceSessionAuthorization_of m in
  reject_if (negb (da_contract_version record =? ProtocolVersion))
            (ErrMsg "unsupported contract version") ;?
  validate_ids [("authorization_id", da_authorization_id record);
                ("device_id", da_device_id record); ("token_id", da_token_id record)] ;?
  validateRawBase64Length "device_public_key" (da_device_public_key record) PublicKeySize ;?
  reject_if (negb (lower_hex_digest (da_token_sha256 record)))
            (ErrMsg "token_sha256 must be 32 bytes encoded as lower-case hex") ;?
  let? issuedAt := parseUTCTime "issued_at" (da_issued_at record) in
  let? notBefore := parseUTCTime "not_before" (da_not_before record) in
  let? expiresAt := parseUTCTime "expires_at" (da_expires_at record) in
  reject_if (after issuedAt notBefore || negb (before notBefore expiresAt))
    (ErrMsg "authorization timestamps must satisfy issued_at <= not_before < expires_at") ;?
  Ok record.

Definition ValidateDeviceSessionAuthorizationAt (record : DeviceSessionAuthorization) (at_ : instant)
  : result unit :=
  reject_if (da_disabled record) (ErrMsg "authorization is disabled") ;?
  let? notBefore := parseUTCTime "not_before" (da_not_before record) in
  let? expiresAt := parseUTCTime "expires_at" (da_expires_at record) in
  reject_if (before at_ notBefore || negb (before at_ expiresAt))
    (ErrMsg "authorization is not active at evaluation time").

Definition ParseDeviceSessionAuthorization (data : bytes) (at_ : instant)
  : result DeviceSessionAuthorization :=
  let? record := ParseDeviceSessionAuthorizationRecord data in
  ValidateDeviceSessionAuthorizationAt record at_ ;? Ok record.

(** ** Endpoint route assignments *)

Record EndpointRouteAssignment := MkRoute {
  ra_contract_version : Z;
  ra_assignment_id : string;
  ra_endpoint_id : string;
  ra_public_hostname : string;
  ra_device_id : string;
  ra_local_endpoint_id : string;
  ra_enabled : bool;
  ra_not_before : string;
  ra_expires_at : string;
}.

Definition EndpointRouteAssignment_schema : schema :=
  [("contract_version", KInt); ("assignment_id", KString); ("endpoint_id", KString);
   ("public_hostname", KString); ("device_id", KString); ("local_endpoint_id", KString);
   ("enabled", KBool); ("not_before", KString); ("expires_at", KString)].

Definition EndpointRouteAssignment_of (m : gmap string field_val) : EndpointRouteAssignment :=
  MkRoute (get_int m "contract_version") (get_string m "assignment_id")
    (get_string m "endpoint_id") (get_string m "public_hostname") (get_string m "device_id")
    (get_string m "local_endpoint_id") (get_bool m "enabled") (get_string m "not_before")
    (get_string m "expires_at").

Definition ParseEndpointRouteAssignmentRecord (data : bytes) : result EndpointRouteAssignment :=
  validateStrictJSONObject data ;?
  rejectNullMembers data ;?
  requirePresent data ["enabled"] ;?
  let? m := decodeStrict EndpointRouteAssignment_schema data in
  let record := EndpointRouteAssignment_of m in
  reject_if (negb (ra_contract_version record =? ProtocolVersion))
            (ErrMsg "unsupported contract version") ;?
  validate_ids [("assignment_id", ra_assignment_id record); ("endpoint_id", ra_endpoint_id record);
                ("device_id", ra_device_id record);
                ("local_endpoint_id", ra_local_endpoint_id record)] ;?
  validateHostname (ra_public_hostname record) ;?
  let? notBefore := parseUTCTime "not_before" (ra_not_before record) in
  let? expiresAt := parseUTCTime "expires_at" (ra_expires_at record) in
  reject_if (negb (before notBefore expiresAt))
    (ErrMsg "route timestamps must satisfy not_before < expires_at") ;?
  Ok record.

Definition ValidateEndpointRouteAssignmentAt (record : EndpointRouteAssignment) (at_ : instant)
  : result unit :=
  reject_if (negb (ra_enabled record)) (ErrMsg "route assignment is disabled") ;?
  let? notBefore := parseUTCTime "not_before" (ra_not_before record) in
  let? expiresAt := parseUTCTime "expires_at" (ra_expires_at record) in
  reject_if (before at_ notBefore || negb (before at_ expiresAt))
    (ErrMsg "route assignment is not active at evaluation time").

Definition ParseEndpointRouteAssignment (data : bytes) (at_ : instant)
  : result EndpointRouteAssignment :=
  let? record := ParseEndpointRouteAssignmentRecord data in
  ValidateEndpointRouteAssignmentAt record at_ ;? Ok record.

(** ** Revocation signals *)

Record RevocationSignal := MkRevocation {
  rv_contract_version : Z;
  rv_event_id : string;
  rv_subject_kind : string;
  rv_subject_id : string;
  rv_effective_at : string;
  rv_reason_code : string;
}.

Definition RevocationSignal_schema : schema :=
  [("contract_version", KInt); ("event_id", KString); ("subject_kind", KString);
   ("subject_id", KString); ("effective_at", KString); ("reason_code", KString)].

Definition RevocationSignal_of (m : gmap string field_val) : RevocationSignal :=
  MkRevocation (get_int m "contract_version") (get_string m "event_id")
    (get_string m "subject_kind") (get_string m "subject_id") (get_string m "effective_at")
    (get_string m "reason_code").

Definition ParseRevocationSignal (data : bytes) : result RevocationSignal :=
  validateStrictJSONObject data ;?
  rejectNullMembers data ;?
  let? m := decodeStrict RevocationSignal_schema data in
  let signal := RevocationSignal_of m in
  reject_if (negb (rv_contract_version signal =? ProtocolVersion))
            (ErrMsg "unsupported contract version") ;?
  validateID "event_id" (rv_event_id signal) ;?
  validateID "subject_id" (rv_subject_id signal) ;?
  reject_if (negb (oneOfStrings (rv_subject_kind signal)
                     ["device_session_authorization"; "endpoint_route_assignment"; "device"]))
            (ErrMsg "invalid revocation subject_kind") ;?
  reject_if (negb (oneOfStrings (rv_reason_code signal)
                     ["disabled"; "credential_revoked"; "assignment_revoked"; "security_hold"; "expired"]))
            (ErrMsg "invalid revocation reason_code") ;?
  let? _ := parseUTCTime "effective_at" (rv_effective_at signal) in
  Ok signal.

(** ** Gateway status signals *)

Record GatewayStatusSignal := MkStatus {
  gs_contract_version : Z;
  gs_event_id : string;
  gs_observed_at : string;
  gs_kind : string;
  gs_device_id : string;
  gs_session_id : string;
  gs_endpoint_id : string;
  gs_bytes_from_public : option Z;
  gs_bytes_to_public : option Z;
}.

Definition GatewayStatusSignal_schema : schema :=
  [("contract_version", KInt); ("event_id", KString); ("observed_at", KString);
   ("kind", KString); ("device_id", KString); ("session_id", KString);
   ("endpoint_id", KString); ("bytes_from_public", KInt64Ptr); ("bytes_to_public", KInt64Ptr)].

Definition GatewayStatusSignal_of (m : gmap string field_val) : GatewayStatusSignal :=
  MkStatus (get_int m "contract_version") (get_string m "event_id") (get_string m "observed_at")
    (get_string m "kind") (get_string m "device_id") (get_string m "session_id")
    (get_string m "endpoint_id") (get_ptr m "bytes_from_public") (get_ptr m "bytes_to_public").

Definition when (c : bool) (r : result unit) : result unit := if c then r else Ok tt.

Definition ParseGatewayStatusSignal (data : bytes) : result GatewayStatusSignal :=
  validateStrictJSONObject data ;?
  rejectNullMembers data ;?
  let? m := decodeStrict GatewayStatusSignal_schema data in
  let signal := GatewayStatusSignal_of m in
  reject_if (negb (gs_contract_version signal =? ProtocolVersion))
            (ErrMsg "unsupported contract version") ;?
  validateID "event_id" (gs_event_id signal) ;?
  validateID "device_id" (gs_device_id signal) ;?
  when (negb (String.eqb (gs_session_id signal) EmptyString))
       (validateID "session_id" (gs_session_id signal)) ;?
  when (negb (String.eqb (gs_endpoint_id signal) EmptyString))
       (validateID "endpoint_id" (gs_endpoint_id signal)) ;?
  rejectEmptyMembers data ["session_id"; "endpoint_id"] ;?
  let? _ := parseUTCTime "observed_at" (gs_observed_at signal) in
  reject_if (negb (oneOfStrings (gs_kind signal)
                     ["session_connected"; "session_disconnected"; "route_opened"; "route_closed";
                      "traffic_delta"]))
            (ErrMsg "invalid gateway status kind") ;?
  validateTrafficCounter "bytes_from_public" (gs_bytes_from_public signal) ;?
  validateTrafficCounter "bytes_to_public" (gs_bytes_to_public signal) ;?
  reject_if (String.eqb (gs_kind signal) "traffic_delta" &&
             (String.eqb (gs_endpoint_id signal) EmptyString ||
              (bool_decide (gs_bytes_from_public signal = None)
               && bool_decide (gs_bytes_to_public signal = None))))
            (ErrMsg "traffic_delta requires endpoint_id and at least one byte counter") ;?
  Ok signal.

(** ** What a parsed record satisfies *)

Definition id_ok (s : string) : Prop := idPattern s = true.

(** Canonical base64url of [n] bytes. *)
Definition b64_ok (n : Z) (s : string) : Prop :=
  exists raw, zlen raw = n /\ s = b64_encode_string raw.

Lemma validateID_Ok name v : validateID name v = Ok tt <-> id_ok v.
Proof.
  unfold validateID, id_ok. rewrite reject_if_Ok, negb_false_iff. done.
Qed.

Lemma validate_ids_Ok ids : validate_ids ids = Ok tt <-> Forall (fun p => id_ok p.2) ids.
Proof.
  induction ids as [|[n v] r IH]; cbn [validate_ids]; [by split |].
  rewrite Forall_cons, rbind_Ok, <- IH. simpl. rewrite <- (validateID_Ok n). split.
  - by intros ([] & ? & ?).
  - intros [? ?]. by exists tt.
Qed.

Lemma validateRawBase64Length_Ok name v n :
  validateRawBase64Length name v n = Ok tt <-> b64_ok n v.
Proof.
  unfold validateRawBase64Length, b64_ok. split.
  - destruct (b64_decode_string v) as [d|]; [| done]. intros H. inv_ok. bool_facts. eauto.
  - intros (raw & <- & ->). unfold b64_decode_string, b64_encode_string.
    rewrite bytes_of_string_of, b64_decode_encode. rewrite Z.eqb_refl. simpl.
    by rewrite String.eqb_refl.
Qed.

Lemma parseUTCTime_Ok name v t : parseUTCTime name v = Ok t <-> parse_rfc3339 v = Some t.
Proof.
  unfold parseUTCTime, utcTimestampPattern, parse_rfc3339.
  destruct (utc_fields (bytes_of v)) as [u|]; simpl; [| by split].
  destruct (_ <=? _); split; intros H; by simplify_eq.
Qed.

Lemma oneOfStrings_in s l : oneOfStrings s l = true <-> s ∈ l.
Proof.
  unfold oneOfStrings. rewrite existsb_exists, list_elem_of_In. split.
  - intros (x & Hin & Hx). by apply String.eqb_eq in Hx as ->.
  - intros Hin. exists s. split; [done | apply String.eqb_refl].
Qed.

(** No byte of a contract identifier is NUL. *)
Lemma id_ok_no_nul s : id_ok s -> Byte.x00 ∉ bytes_of s.
Proof.
  unfold id_ok, idPattern. destruct (bytes_of s) as [|b r]; [done |]. intros H. bool_facts.
  rewrite not_elem_of_cons. split; [by intros <- |].
  intros Hin. rewrite forallb_forall in H0.
  apply list_elem_of_In in Hin. by apply H0 in Hin.
Qed.

(** An authorization whose every field obeys the contract. *)
Definition authorization_wf (r : DeviceSessionAuthorization) : Prop :=
  da_contract_version r = ProtocolVersion /\
  id_ok (da_authorization_id r) /\ id_ok (da_device_id r) /\ id_ok (da_token_id r) /\
  b64_ok PublicKeySize (da_device_public_key r) /\
  lower_hex_digest (da_token_sha256 r) = true /\
  exists issued nb exp,
    parse_rfc3339 (da_issued_at r) = Some issued /\ parse_rfc3339 (da_not_before r) = Some nb /\
    parse_rfc3339 (da_expires_at r) = Some exp /\ issued <= nb < exp.

(** [at_] lies in the half-open interval the two timestamps bound. *)
Definition in_window (not_before expires_at : string) (at_ : instant) : Prop :=
  exists nb exp, parse_rfc3339 not_before = Some nb /\ parse_rfc3339 expires_at = Some exp /\
                 nb <= at_ < exp.

Lemma authorization_record_wf data r :
  ParseDeviceSessionAuthorizationRecord data = Ok r -> authorization_wf r.
Proof.
  unfold ParseDeviceSessionAuthorizationRecord. intros H. inv_ok.
  apply validate_ids_Ok in E4. apply validateRawBase64Length_Ok in E5.
  apply parseUTCTime_Ok in E7, E8, E9. unfold after, before in E10.
  apply negb_false_iff in E3, E6. bool_facts.
  rewrite !Forall_cons in E4. simpl in E4. destruct E4 as (? & ? & ? & _).
  unfold authorization_wf. split_and!; try done. do 3 eexists. split_and!; eauto; lia.
Qed.

Lemma window_check nb exp at_ :
  (before at_ nb || negb (before at_ exp)) = false <-> nb <= at_ < exp.
Proof. unfold before. rewrite orb_false_iff, negb_false_iff, Z.ltb_ge, Z.ltb_lt. lia. Qed.

Lemma window_Ok n1 n2 v1 v2 at_ e :
  (let? nb := parseUTCTime n1 v1 in
   let? exp := parseUTCTime n2 v2 in
   reject_if (before at_ nb || negb (before at_ exp)) e) = Ok tt <-> in_window v1 v2 at_.
Proof.
  unfold in_window. rewrite rbind_Ok. split.
  - intros (nb & Hnb & H). inv_ok. apply parseUTCTime_Ok in Hnb, E.
    apply window_check in H. eauto 6.
  - intros (nb & exp & Hnb & Hexp & Hw). exists nb. rewrite (proj2 (parseUTCTime_Ok n1 _ _) Hnb).
    split; [done |]. rewrite (proj2 (parseUTCTime_Ok n2 _ _) Hexp). simpl.
    by rewrite (proj2 (window_check _ _ _) Hw).
Qed.

Lemma authorization_at_Ok r at_ :
  ValidateDeviceSessionAuthorizationAt r at_ = Ok tt <->
  da_disabled r = false /\ in_window (da_not_before r) (da_expires_at r) at_.
Proof.
  unfold ValidateDeviceSessionAuthorizationAt. destruct (da_disabled r); cbn [reject_if rbind].
  - split; [done | naive_solver].
  - rewrite window_Ok. naive_solver.
Qed.

Lemma route_at_Ok r at_ :
  ValidateEndpointRouteAssignmentAt r at_ = Ok tt <->
  ra_enabled r = true /\ in_window (ra_not_before r) (ra_expires_at r) at_.
Proof.
  unfold ValidateEndpointRouteAssignmentAt. destruct (ra_enabled r); cbn [reject_if rbind negb].
  - rewrite window_Ok. naive_solver.
  - split; [done | naive_solver].
Qed.

(** A member name of the strict JSON object [data] as the decoder stores it:
    the exact name, or one equal to it up to case folding. *)
Definition demo_json (s : string) : bytes :=
  (fun b => if Byte.eqb b "'"%byte then quote else b) <$> bytes_of s.

Definition demo_authorization : bytes :=
  demo_json ("{'contract_version':1,'authorization_id':'auth-1','device_id':'dev-1'," +:+
    "'device_public_key':'AAAAAAAAAAAAAAAAAAAAAAAAAAAAAAAAAAAAAAAAAAA','token_id':'tok-1'," +:+
    "'token_sha256':'00000000000000000000000000000000000000000000000000000000000000ab'," +:+
    "'issued_at':'2024-01-01T00:00:00Z','not_before':'2024-01-01T00:00:00Z'," +:+
    "'expires_at':'2024-01-02T00:00:00Z','disabled':false}").

(** An authorization is usable at an instant exactly when its record parses,
    it is not disabled and the instant lies in [not_before, expires_at); and a
    record that parses has contract-shaped identifiers, a canonical 32-byte
    public key, a lower-case 32-byte digest and ordered timestamps. *)
Theorem authorization_active data at_ r :
  (ParseDeviceSessionAuthorization data at_ = Ok r <->
   ParseDeviceSessionAuthorizationRecord data = Ok r /\ da_disabled r = false /\
   in_window (da_not_before r) (da_expires_at r) at_) /\
  (ParseDeviceSessionAuthorizationRecord data = Ok r -> authorization_wf r).
Proof.
  split; [| apply authorization_record_wf].
  unfold ParseDeviceSessionAuthorization. split.
  - intros H. inv_ok. apply authorization_at_Ok in E0 as [? ?]. done.
  - intros (-> & Hd & Hw). simpl. by rewrite (proj2 (authorization_at_Ok _ _) (conj Hd Hw)).
Qed.

Lemma authorization_active_witness :
  exists r, ParseDeviceSessionAuthorizationRecord demo_authorization = Ok r /\
            ParseDeviceSessionAuthorization demo_authorization 1704070800000000000 = Ok r /\
            authorization_wf r.
Proof.
  eexists. split; [vm_compute; reflexivity |]. split.
  - apply authorization_active. split; [vm_compute; reflexivity |]. split; [done |].
    exists 1704067200000000000, 1704153600000000000. by vm_compute.
  - apply (authorization_active demo_authorization 0). vm_compute. reflexivity.
Defined.

Definition route_wf (r : EndpointRouteAssignment) : Prop :=
  ra_contract_version r = ProtocolVersion /\
  id_ok (ra_assignment_id r) /\ id_ok (ra_endpoint_id r) /\ id_ok (ra_device_id r) /\
  id_ok (ra_local_endpoint_id r) /\ validateHostname (ra_public_hostname r) = Ok tt /\
  exists nb exp, parse_rfc3339 (ra_not_before r) = Some nb /\
                 parse_rfc3339 (ra_expires_at r) = Some exp /\ nb < exp.

Lemma route_record_wf data r : ParseEndpointRouteAssignmentRecord data = Ok r -> route_wf r.
Proof.
  unfold ParseEndpointRouteAssignmentRecord. intros H. inv_ok.
  apply validate_ids_Ok in E4. apply parseUTCTime_Ok in E6, E7.
  apply negb_false_iff in E3, E8. unfold before in E8. bool_facts.
  rewrite !Forall_cons in E4. simpl in E4. destruct E4 as (? & ? & ? & ? & _).
  unfold route_wf. split_and!; try done. do 2 eexists. split_and!; eauto.
Qed.

(** The strict object walk compares names exactly and the struct decoder up to
    case, so a record that says it is disabled can be read as enabled. *)
Definition folded_authorization : bytes :=
  demo_json ("{'contract_version':1,'authorization_id':'auth-1','device_id':'dev-1'," +:+
    "'device_public_key':'AAAAAAAAAAAAAAAAAAAAAAAAAAAAAAAAAAAAAAAAAAA','token_id':'tok-1'," +:+
    "'token_sha256':'00000000000000000000000000000000000000000000000000000000000000ab'," +:+
    "'issued_at':'2024-01-01T00:00:00Z','not_before':'2024-01-01T00:00:00Z'," +:+
    "'expires_at':'2024-01-02T00:00:00Z','disabled':true,'DISABLED':false}").

Lemma case_folded_member_overrides :
  match ParseDeviceSessionAuthorizationRecord folded_authorization with
  | Ok r => da_disabled r = false
  | Err _ => False
  end.
Proof. vm_compute. reflexivity. Qed.
