(* ===== verification/Control.v ===== *)
(** * Control: the control messages of [internal/contractv1/validation.go]

    The thirteen message types with their decoders, [ValidateControlPayload]
    (one definition per case of its switch), the signed transcripts with their
    verification, and [negotiation.go].  SHA-256 and Ed25519 are parameters. *)

From S2P Require Import Prelude GoText GoTime Json StrictJson JsonMarshal Frame Contract.

Definition MaxStreamsPerSessionBound : Z := 4096.
Definition MaxQueuedFramesBound : Z := 65536.
Definition MaxHealthReconnectCount : Z := 2 ^ 31 - 1.
Definition MaxWindowCreditBytes : Z := Z.shiftl 8 20.
Definition HeaderAllowanceBytes : Z := Z.shiftl 64 10.

(** ** The messages *)

Record ClientHello := MkClientHello {
  ch_contract_version : Z; ch_message_type : string; ch_device_id : string;
  ch_authorization_id : string; ch_token_id : string; ch_session_token : string;
  ch_client_nonce : string }.

Definition ClientHello_schema : schema :=
  [("contract_version", KInt); ("message_type", KString); ("device_id", KString);
   ("authorization_id", KString); ("token_id", KString); ("session_token", KString);
   ("client_nonce", KString)].

Definition ClientHello_of (m : gmap string field_val) : ClientHello :=
  MkClientHello (get_int m "contract_version") (get_string m "message_type")
    (get_string m "device_id") (get_string m "authorization_id") (get_string m "token_id")
    (get_string m "session_token") (get_string m "client_nonce").

Record ServerChallenge := MkServerChallenge {
  sc_contract_version : Z; sc_message_type : string; sc_session_id : string;
  sc_server_nonce : string; sc_expires_at : string }.

Definition ServerChallenge_schema : schema :=
  [("contract_version", KInt); ("message_type", KString); ("session_id", KString);
   ("server_nonce", KString); ("expires_at", KString)].

Definition ServerChallenge_of (m : gmap string field_val) : ServerChallenge :=
  MkServerChallenge (get_int m "contract_version") (get_string m "message_type")
    (get_string m "session_id") (get_string m "server_nonce") (get_string m "expires_at").

Record ClientAuth := MkClientAuth {
  ca_contract_version : Z; ca_message_type : string; ca_session_id : string;
  ca_signature : string }.

Definition ClientAuth_schema : schema :=
  [("contract_version", KInt); ("message_type", KString); ("session_id", KString);
   ("signature", KString)].

Definition ClientAuth_of (m : gmap string field_val) : ClientAuth :=
  MkClientAuth (get_int m "contract_version") (get_string m "message_type")
    (get_string m "session_id") (get_string m "signature").

Record SessionReady := MkSessionReady {
  sr_contract_version : Z; sr_message_type : string; sr_session_id : string;
  sr_heartbeat_interval_seconds : Z; sr_idle_timeout_seconds : Z; sr_resume_challenge : string }.

Definition SessionReady_schema : schema :=
  [("contract_version", KInt); ("message_type", KString); ("session_id", KString);
   ("heartbeat_interval_seconds", KInt); ("idle_timeout_seconds", KInt);
   ("resume_challenge", KString)].

Definition SessionReady_of (m : gmap string field_val) : SessionReady :=
  MkSessionReady (get_int m "contract_version") (get_string m "message_type")
    (get_string m "session_id") (get_int m "heartbeat_interval_seconds")
    (get_int m "idle_timeout_seconds") (get_string m "resume_challenge").

Record Heartbeat := MkHeartbeat {
  hb_contract_version : Z; hb_message_type : string; hb_ping_id : string;
  hb_sent_at : string; hb_received_at : string }.

Definition Heartbeat_schema : schema :=
  [("contract_version", KInt); ("message_type", KString); ("ping_id", KString);
   ("sent_at", KString); ("received_at", KString)].

Definition Heartbeat_of (m : gmap string field_val) : Heartbeat :=
  MkHeartbeat (get_int m "contract_version") (get_string m "message_type")
    (get_string m "ping_id") (get_string m "sent_at") (get_string m "received_at").

Record HealthReport := MkHealthReport {
  hr_contract_version : Z; hr_message_type : string; hr_report_id : string;
  hr_generated_at : string; hr_active_streams : Z; hr_queued_frames : Z;
  hr_reconnect_count : Z; hr_last_reconnect_at : string; hr_agent_version : string }.

Definition HealthReport_schema : schema :=
  [("contract_version", KInt); ("message_type", KString); ("report_id", KString);
   ("generated_at", KString); ("active_streams", KInt); ("queued_frames", KInt);
   ("reconnect_count", KInt); ("last_reconnect_at", KString); ("agent_version", KString)].

Definition HealthReport_of (m : gmap string field_val) : HealthReport :=
  MkHealthReport (get_int m "contract_version") (get_string m "message_type")
    (get_string m "report_id") (get_string m "generated_at") (get_int m "active_streams")
    (get_int m "queued_frames") (get_int m "reconnect_count") (get_string m "last_reconnect_at")
    (get_string m "agent_version").

Record StreamOpen := MkStreamOpen {
  so_contract_version : Z; so_message_type : string; so_endpoint_id : string;
  so_assignment_id : string; so_local_endpoint_id : string; so_request_id : string;
  so_mode : string }.

Definition StreamOpen_schema : schema :=
  [("contract_version", KInt); ("message_type", KString); ("endpoint_id", KString);
   ("assignment_id", KString); ("local_endpoint_id", KString); ("request_id", KString);
   ("mode", KString)].

Definition StreamOpen_of (m : gmap string field_val) : StreamOpen :=
  MkStreamOpen (get_int m "contract_version") (get_string m "message_type")
    (get_string m "endpoint_id") (get_string m "assignment_id")
    (get_string m "local_endpoint_id") (get_string m "request_id") (get_string m "mode").

Record StreamHalfClose := MkStreamHalfClose {
  sh_contract_version : Z; sh_message_type : string }.

Definition StreamHalfClose_schema : schema :=
  [("contract_version", KInt); ("message_type", KString)].

Definition StreamHalfClose_of (m : gmap string field_val) : StreamHalfClose :=
  MkStreamHalfClose (get_int m "contract_version") (get_string m "message_type").

Record StreamWindowUpdate := MkStreamWindowUpdate {
  sw_contract_version : Z; sw_message_type : string; sw_credit_bytes : Z }.

Definition StreamWindowUpdate_schema : schema :=
  [("contract_version", KInt); ("message_type", KString); ("credit_bytes", KUint32)].

Definition StreamWindowUpdate_of (m : gmap string field_val) : StreamWindowUpdate :=
  MkStreamWindowUpdate (get_int m "contract_version") (get_string m "message_type")
    (get_int m "credit_bytes").

Record StreamClose := MkStreamClose {
  sl_contract_version : Z; sl_message_type : string; sl_reason_code : string }.

Definition StreamClose_schema : schema :=
  [("contract_version", KInt); ("message_type", KString); ("reason_code", KString)].

Definition StreamClose_of (m : gmap string field_val) : StreamClose :=
  MkStreamClose (get_int m "contract_version") (get_string m "message_type")
    (get_string m "reason_code").

Record StreamError := MkStreamError {
  se_contract_version : Z; se_message_type : string; se_code : string; se_message : string;
  se_retryable : bool }.

Definition StreamError_schema : schema :=
  [("contract_version", KInt); ("message_type", KString); ("code", KString);
   ("message", KString); ("retryable", KBool)].

Definition StreamError_of (m : gmap string field_val) : StreamError :=
  MkStreamError (get_int m "contract_version") (get_string m "message_type")
    (get_string m "code") (get_string m "message") (get_bool m "retryable").

Record SessionRevoked := MkSessionRevoked {
  sv_contract_version : Z; sv_message_type : string; sv_authorization_id : string;
  sv_reason_code : string }.

Definition SessionRevoked_schema : schema :=
  [("contract_version", KInt); ("message_type", KString); ("authorization_id", KString);
   ("reason_code", KString)].

Definition SessionRevoked_of (m : gmap string field_val) : SessionRevoked :=
  MkSessionRevoked (get_int m "contract_version") (get_string m "message_type")
    (get_string m "authorization_id") (get_string m "reason_code").

Record ResumeSession := MkResumeSession {
  rs_contract_version : Z; rs_message_type : string; rs_device_id : string;
  rs_authorization_id : string; rs_token_id : string; rs_session_id : string;
  rs_resume_nonce : string; rs_resume_challenge : string; rs_issued_at : string;
  rs_signature : string }.

Definition ResumeSession_schema : schema :=
  [("contract_version", KInt); ("message_type", KString); ("device_id", KString);
   ("authorization_id", KString); ("token_id", KString); ("session_id", KString);
   ("resume_nonce", KString); ("resume_challenge", KString); ("issued_at", KString);
   ("signature", KString)].

Definition ResumeSession_of (m : gmap string field_val) : ResumeSession :=
  MkResumeSession (get_int m "contract_version") (get_string m "message_type")
    (get_string m "device_id") (get_string m "authorization_id") (get_string m "token_id")
    (get_string m "session_id") (get_string m "resume_nonce") (get_string m "resume_challenge")
    (get_string m "issued_at") (get_string m "signature").

Record SessionResumed := MkSessionResumed {
  sd_contract_version : Z; sd_message_type : string; sd_session_id : string;
  sd_next_sequence : Z; sd_resumed_at : string; sd_resume_challenge : string }.

Definition SessionResumed_schema : schema :=
  [("contract_version", KInt); ("message_type", KString); ("session_id", KString);
   ("next_sequence", KUint64); ("resumed_at", KString); ("resume_challenge", KString)].

Definition SessionResumed_of (m : gmap string field_val) : SessionResumed :=
  MkSessionResumed (get_int m "contract_version") (get_string m "message_type")
    (get_string m "session_id") (get_int m "next_sequence") (get_string m "resumed_at")
    (get_string m "resume_challenge").

(** ** Decoders used outside [ValidateControlPayload] *)

Definition bad_envelope (version : Z) (kind want : string) : bool :=
  negb (version =? ProtocolVersion) || negb (String.eqb kind want).

Definition DecodeClientHello (data : bytes) : result ClientHello :=
  let? m := decodeControlStrict ClientHello_schema data in
  let message := ClientHello_of m in
  reject_if (bad_envelope (ch_contract_version message) (ch_message_type message) "client_hello")
            (ErrMsg "invalid client_hello envelope") ;?
  validate_ids [("device_id", ch_device_id message);
                ("authorization_id", ch_authorization_id message);
                ("token_id", ch_token_id message)] ;?
  reject_if (negb (tokenPattern (ch_session_token message)))
            (ErrMsg "session_token must be 32..512 base64url-safe characters") ;?
  validateRawBase64Length "client_nonce" (ch_client_nonce message) 32 ;?
  Ok message.

Definition DecodeServerChallenge (data : bytes) : result ServerChallenge :=
  let? m := decodeControlStrict ServerChallenge_schema data in
  let message := ServerChallenge_of m in
  reject_if (bad_envelope (sc_contract_version message) (sc_message_type message) "server_challenge")
            (ErrMsg "invalid server_challenge envelope") ;?
  validateID "session_id" (sc_session_id message) ;?
  validateRawBase64Length "server_nonce" (sc_server_nonce message) 32 ;?
  let? _ := parseUTCTime "expires_at" (sc_expires_at message) in
  Ok message.

Definition DecodeClientAuth (data : bytes) : result ClientAuth :=
  let? m := decodeControlStrict ClientAuth_schema data in
  let message := ClientAuth_of m in
  reject_if (bad_envelope (ca_contract_version message) (ca_message_type message) "client_auth")
            (ErrMsg "invalid client_auth envelope") ;?
  validateID "session_id" (ca_session_id message) ;?
  validateRawBase64Length "signature" (ca_signature message) SignatureSize ;?
  Ok message.

(** ** [ValidateControlPayload], one definition per case *)

Definition sessionScope (streamID : Z) : result unit :=
  reject_if (negb (streamID =? 0)) (ErrMsg "session control message requires stream ID 0").

Definition streamScope (streamID : Z) : result unit :=
  reject_if (streamID =? 0) (ErrMsg "stream control message requires non-zero stream ID").

Definition validate_client_hello (data : bytes) (streamID : Z) : result unit :=
  sessionScope streamID ;? let? _ := DecodeClientHello data in Ok tt.

Definition validate_server_challenge (data : bytes) (streamID : Z) (at_ : instant) : result unit :=
  sessionScope streamID ;?
  let? challenge := DecodeServerChallenge data in
  let? expiresAt := parseUTCTime "expires_at" (sc_expires_at challenge) in
  reject_if (negb (before at_ expiresAt)) (ErrMsg "server challenge is expired").

Definition validate_client_auth (data : bytes) (streamID : Z) : result unit :=
  sessionScope streamID ;? let? _ := DecodeClientAuth data in Ok tt.

(** [json.Unmarshal] into [map[string]json.RawMessage], then the lookup. *)
Definition raw_member_present (data : bytes) (name : string) : result bool :=
  match parse_document data with
  | Some (VObj ms) => Ok (existsb (fun m => String.eqb m.1 name) ms)
  | Some VNull => Ok false
  | _ => Err (ErrMsg "invalid JSON")
  end.

Definition validate_session_ready (data : bytes) (streamID : Z) : result unit :=
  sessionScope streamID ;?
  requirePresent data ["heartbeat_interval_seconds"; "idle_timeout_seconds"] ;?
  let? m := decodeControlStrict SessionReady_schema data in
  let ready := SessionReady_of m in
  reject_if (bad_envelope (sr_contract_version ready) (sr_message_type ready) "session_ready")
            (ErrMsg "invalid session_ready envelope") ;?
  validateID "session_id" (sr_session_id ready) ;?
  let? present := raw_member_present data "resume_challenge" in
  when present (validateRawBase64Length "resume_challenge" (sr_resume_challenge ready) 32) ;?
  reject_if ((sr_heartbeat_interval_seconds ready <? 5) || (60 <? sr_heartbeat_interval_seconds ready))
            (ErrMsg "heartbeat_interval_seconds outside 5..60") ;?
  reject_if ((sr_idle_timeout_seconds ready <? 15) || (300 <? sr_idle_timeout_seconds ready) ||
             (sr_idle_timeout_seconds ready <? i64 (2 * sr_heartbeat_interval_seconds ready)))
            (ErrMsg "idle_timeout_seconds outside contract bounds").

Definition nonempty (s : string) : bool := negb (String.eqb s EmptyString).

Definition validate_heartbeat (data : bytes) (streamID : Z) (kind : string) : result unit :=
  sessionScope streamID ;?
  let? m := decodeControlStrict Heartbeat_schema data in
  let heartbeat := Heartbeat_of m in
  reject_if (bad_envelope (hb_contract_version heartbeat) (hb_message_type heartbeat) kind)
            (ErrMsg "invalid heartbeat envelope") ;?
  validateID "ping_id" (hb_ping_id heartbeat) ;?
  if String.eqb kind "ping" then
    reject_if (negb (nonempty (hb_sent_at heartbeat)) || nonempty (hb_received_at heartbeat))
              (ErrMsg "ping requires sent_at only") ;?
    let? _ := parseUTCTime "sent_at" (hb_sent_at heartbeat) in Ok tt
  else
    reject_if (negb (nonempty (hb_received_at heartbeat)) || nonempty (hb_sent_at heartbeat))
              (ErrMsg "pong requires received_at only") ;?
    let? _ := parseUTCTime "received_at" (hb_received_at heartbeat) in Ok tt.

Definition validate_health_report (data : bytes) (streamID : Z) : result unit :=
  sessionScope streamID ;?
  requirePresent data ["active_streams"; "queued_frames"; "reconnect_count"] ;?
  let? m := decodeControlStrict HealthReport_schema data in
  let report := HealthReport_of m in
  reject_if (bad_envelope (hr_contract_version report) (hr_message_type report) "health_report")
            (ErrMsg "invalid health_report envelope") ;?
  validateID "report_id" (hr_report_id report) ;?
  let? _ := parseUTCTime "generated_at" (hr_generated_at report) in
  reject_if ((hr_active_streams report <? 0) || (MaxStreamsPerSessionBound <? hr_active_streams report))
            (ErrMsg "health_report active_streams outside contract bounds") ;?
  reject_if ((hr_queued_frames report <? 0) || (MaxQueuedFramesBound <? hr_queued_frames report))
            (ErrMsg "health_report queued_frames outside contract bounds") ;?
  reject_if ((hr_reconnect_count report <? 0) || (MaxHealthReconnectCount <? hr_reconnect_count report))
            (ErrMsg "health_report reconnect_count outside contract bounds") ;?
  rejectEmptyMembers data ["last_reconnect_at"] ;?
  when (nonempty (hr_last_reconnect_at report))
       (let? _ := parseUTCTime "last_reconnect_at" (hr_last_reconnect_at report) in Ok tt) ;?
  reject_if (64 <? rune_count_in_string (hr_agent_version report))
            (ErrMsg "health_report agent_version outside contract length").

Definition validate_stream_open (data : bytes) (streamID : Z) : result unit :=
  streamScope streamID ;?
  let? m := decodeControlStrict StreamOpen_schema data in
  let message := StreamOpen_of m in
  reject_if (bad_envelope (so_contract_version message) (so_message_type message) "stream_open")
            (ErrMsg "invalid stream_open envelope") ;?
  validate_ids [("endpoint_id", so_endpoint_id message);
                ("assignment_id", so_assignment_id message);
                ("local_endpoint_id", so_local_endpoint_id message);
                ("request_id", so_request_id message)] ;?
  reject_if (nonempty (so_mode message) && negb (oneOfStrings (so_mode message) ["http"; "tcp"; "udp"]))
            (ErrMsg "invalid stream_open mode").

Definition validate_stream_half_close (data : bytes) (streamID : Z) : result unit :=
  streamScope streamID ;?
  let? m := decodeControlStrict StreamHalfClose_schema data in
  let message := StreamHalfClose_of m in
  reject_if (bad_envelope (sh_contract_version message) (sh_message_type message) "stream_half_close")
            (ErrMsg "invalid stream_half_close envelope").

Definition validate_stream_window_update (data : bytes) (streamID : Z) : result unit :=
  streamScope streamID ;?
  requirePresent data ["credit_bytes"] ;?
  let? m := decodeControlStrict StreamWindowUpdate_schema data in
  let message := StreamWindowUpdate_of m in
  reject_if (bad_envelope (sw_contract_version message) (sw_message_type message)
               "stream_window_update") (ErrMsg "invalid stream_window_update envelope") ;?
  reject_if ((sw_credit_bytes message <? 1) || (MaxWindowCreditBytes <? sw_credit_bytes message))
            (ErrMsg "stream_window_update credit_bytes outside contract bounds").

Definition validate_stream_close (data : bytes) (streamID : Z) : result unit :=
  streamScope streamID ;?
  let? m := decodeControlStrict StreamClose_schema data in
  let message := StreamClose_of m in
  reject_if (bad_envelope (sl_contract_version message) (sl_message_type message) "stream_close")
            (ErrMsg "invalid stream_close envelope") ;?
  reject_if (negb (oneOfStrings (sl_reason_code message) ["completed"; "peer_closed"; "cancelled"]))
            (ErrMsg "invalid stream_close reason_code").

Definition stream_error_codes : list string :=
  ["local_target_unavailable"; "route_revoked"; "protocol_error"; "resource_limit"; "internal_error"].

Definition validate_stream_error (data : bytes) (streamID : Z) : result unit :=
  streamScope streamID ;?
  requirePresent data ["retryable"] ;?
  let? m := decodeControlStrict StreamError_schema data in
  let message := StreamError_of m in
  reject_if (bad_envelope (se_contract_version message) (se_message_type message) "stream_error")
            (ErrMsg "invalid stream_error envelope") ;?
  reject_if (negb (oneOfStrings (se_code message) stream_error_codes))
            (ErrMsg "invalid stream_error code") ;?
  let runes := rune_count_in_string (se_message message) in
  reject_if ((runes =? 0) || (256 <? runes))
            (ErrMsg "stream_error message outside contract length").

Definition session_revoked_reasons : list string :=
  ["disabled"; "credential_revoked"; "security_hold"; "expired"].

Definition validate_session_revoked (data : bytes) (streamID : Z) : result unit :=
  sessionScope streamID ;?
  let? m := decodeControlStrict SessionRevoked_schema data in
  let message := SessionRevoked_of m in
  reject_if (bad_envelope (sv_contract_version message) (sv_message_type message) "session_revoked")
            (ErrMsg "invalid session_revoked envelope") ;?
  validateID "authorization_id" (sv_authorization_id message) ;?
  reject_if (negb (oneOfStrings (sv_reason_code message) session_revoked_reasons))
            (ErrMsg "invalid session_revoked reason_code").

Definition validate_resume_session (data : bytes) (streamID : Z) : result unit :=
  sessionScope streamID ;?
  let? m := decodeControlStrict ResumeSession_schema data in
  let message := ResumeSession_of m in
  reject_if (bad_envelope (rs_contract_version message) (rs_message_type message) "resume_session")
            (ErrMsg "invalid resume_session envelope") ;?
  validate_ids [("device_id", rs_device_id message);
                ("authorization_id", rs_authorization_id message);
                ("token_id", rs_token_id message); ("session_id", rs_session_id message)] ;?
  validateRawBase64Length "resume_nonce" (rs_resume_nonce message) 32 ;?
  validateRawBase64Length "resume_challenge" (rs_resume_challenge message) 32 ;?
  let? _ := parseUTCTime "issued_at" (rs_issued_at message) in
  validateRawBase64Length "signature" (rs_signature message) SignatureSize.

Definition validate_session_resumed (data : bytes) (streamID : Z) : result unit :=
  sessionScope streamID ;?
  requirePresent data ["next_sequence"; "resume_challenge"] ;?
  let? m := decodeControlStrict SessionResumed_schema data in
  let message := SessionResumed_of m in
  reject_if (bad_envelope (sd_contract_version message) (sd_message_type message) "session_resumed")
            (ErrMsg "invalid session_resumed envelope") ;?
  validateID "session_id" (sd_session_id message) ;?
  reject_if (sd_next_sequence message =? 0)
            (ErrMsg "session_resumed next_sequence must be positive") ;?
  let? _ := parseUTCTime "resumed_at" (sd_resumed_at message) in
  validateRawBase64Length "resume_challenge" (sd_resume_challenge message) 32.

Definition envelope_schema : schema := [("contract_version", KInt); ("message_type", KString)].

(** The switch on [envelope.MessageType]. *)
Definition validate_message (kind : string) (data : bytes) (streamID : Z) (at_ : instant)
  : result unit :=
  if String.eqb kind "client_hello" then validate_client_hello data streamID
  else if String.eqb kind "server_challenge" then validate_server_challenge data streamID at_
  else if String.eqb kind "client_auth" then validate_client_auth data streamID
  else if String.eqb kind "session_ready" then validate_session_ready data streamID
  else if String.eqb kind "ping" || String.eqb kind "pong" then validate_heartbeat data streamID kind
  else if String.eqb kind "health_report" then validate_health_report data streamID
  else if String.eqb kind "stream_open" then validate_stream_open data streamID
  else if String.eqb kind "stream_half_close" then validate_stream_half_close data streamID
  else if String.eqb kind "stream_window_update" then validate_stream_window_update data streamID
  else if String.eqb kind "stream_close" then validate_stream_close data streamID
  else if String.eqb kind "stream_error" then validate_stream_error data streamID
  else if String.eqb kind "session_revoked" then validate_session_revoked data streamID
  else if String.eqb kind "resume_session" then validate_resume_session data streamID
  else if String.eqb kind "session_resumed" then validate_session_resumed data streamID
  else Err (ErrMsg ("unknown control message_type: " +:+ kind)).

Definition ValidateControlPayload (data : bytes) (streamID : Z) (at_ : instant) : result unit :=
  validateStrictJSONObject data ;?
  rejectNullMembers data ;?
  let? envelope := json_unmarshal envelope_schema data in
  reject_if (negb (get_int envelope "contract_version" =? ProtocolVersion))
            (ErrMsg "unsupported contract version") ;?
  validate_message (get_string envelope "message_type") data streamID at_.

(** ** Transcripts *)

Definition nul : Byte.byte := Byte.x00.

(** [strings.Join(parts, "\x00")]. *)
Fixpoint join_nul (parts : list bytes) : bytes :=
  match parts with
  | [] => []
  | [p] => p
  | p :: r => p ++ nul :: join_nul r
  end.

Definition transcriptFor (prefix : string) (components : list string) (validate : result unit)
  : result bytes :=
  validate ;? Ok (join_nul (bytes_of <$> (prefix :: components))).

(** The [err != nil] arm: a nil slice. *)
Definition transcript_or_nil (r : result bytes) : bytes :=
  match r with Ok t => t | Err _ => [] end.

Definition ResumeTranscript (resume : ResumeSession) : bytes :=
  transcript_or_nil (transcriptFor "HXT1-RESUME"
    [rs_device_id resume; rs_authorization_id resume; rs_token_id resume; rs_session_id resume;
     rs_resume_nonce resume; rs_resume_challenge resume; rs_issued_at resume]
    (validate_ids [("device_id", rs_device_id resume);
                   ("authorization_id", rs_authorization_id resume);
                   ("token_id", rs_token_id resume); ("session_id", rs_session_id resume)] ;?
     validateRawBase64Length "resume_nonce" (rs_resume_nonce resume) 32 ;?
     validateRawBase64Length "resume_challenge" (rs_resume_challenge resume) 32 ;?
     let? _ := parseUTCTime "issued_at" (rs_issued_at resume) in Ok tt)).

Definition AuthTranscript (hello : ClientHello) (challenge : ServerChallenge) : bytes :=
  transcript_or_nil (transcriptFor "HXT1-AUTH"
    [sc_session_id challenge; ch_device_id hello; ch_authorization_id hello; ch_token_id hello;
     ch_client_nonce hello; sc_server_nonce challenge]
    (validate_ids [("session_id", sc_session_id challenge); ("device_id", ch_device_id hello);
                   ("authorization_id", ch_authorization_id hello); ("token_id", ch_token_id hello)] ;?
     validateRawBase64Length "client_nonce" (ch_client_nonce hello) 32 ;?
     validateRawBase64Length "server_nonce" (sc_server_nonce challenge) 32)).

Definition ResumeIssuedAt (resume : ResumeSession) : result instant :=
  parseUTCTime "issued_at" (rs_issued_at resume).

(** [subtle.ConstantTimeCompare(x, y) == 1]: equal lengths, no differing bit. *)
Fixpoint xor_or (acc : Z) (x y : bytes) : Z :=
  match x, y with
  | a :: x', b :: y' => xor_or (Z.lor acc (Z.lxor (bz a) (bz b))) x' y'
  | _, _ => acc
  end.

Definition ConstantTimeCompare (x y : bytes) : bool :=
  (zlen x =? zlen y) && (xor_or 0 x y =? 0).

Definition MatchResumeChallenge (expected presented : string) : bool :=
  if String.eqb expected EmptyString || negb (slen expected =? slen presented) then false
  else ConstantTimeCompare (bytes_of expected) (bytes_of presented).

(** ** Signatures *)

Section Crypto.
(** [sha256.Sum256] and [ed25519.Verify(publicKey, message, signature)]. *)
Context (Sum256 : bytes -> bytes) (Verify : bytes -> bytes -> bytes -> bool).

Definition VerifyResumeSignature (publicKeyBase64 : string) (resume : ResumeSession) : result unit :=
  match b64_decode_string publicKeyBase64 with
  | Some publicKey =>
    reject_if (negb (zlen publicKey =? PublicKeySize)) (ErrMsg "invalid Ed25519 public key") ;?
    match b64_decode_string (rs_signature resume) with
    | Some signature =>
      reject_if (negb (zlen signature =? SignatureSize)) (ErrMsg "invalid Ed25519 signature") ;?
      let transcript := ResumeTranscript resume in
      reject_if (zlen transcript =? 0)
                (ErrMsg "resume transcript requires contract-valid inputs") ;?
      reject_if (negb (Verify publicKey transcript signature))
                (ErrMsg "resume signature verification failed")
    | None => Err (ErrMsg "invalid Ed25519 signature")
    end
  | None => Err (ErrMsg "invalid Ed25519 public key")
  end.

Definition VerifyClientAuthSignature (publicKeyBase64 : string) (hello : ClientHello)
    (challenge : ServerChallenge) (auth : ClientAuth) : result unit :=
  match b64_decode_string publicKeyBase64 with
  | Some publicKey =>
    reject_if (negb (zlen publicKey =? PublicKeySize)) (ErrMsg "invalid Ed25519 public key") ;?
    match b64_decode_string (ca_signature auth) with
    | Some signature =>
      reject_if (negb (zlen signature =? SignatureSize)) (ErrMsg "invalid Ed25519 signature") ;?
      reject_if (negb (String.eqb (ca_session_id auth) (sc_session_id challenge)))
                (ErrMsg "client_auth session_id does not match challenge") ;?
      let transcript := AuthTranscript hello challenge in
      reject_if (zlen transcript =? 0)
                (ErrMsg "authentication transcript requires contract-valid inputs") ;?
      reject_if (negb (Verify publicKey transcript signature))
                (ErrMsg "Ed25519 authentication signature verification failed")
    | None => Err (ErrMsg "invalid Ed25519 signature")
    end
  | None => Err (ErrMsg "invalid Ed25519 public key")
  end.

Definition MatchSessionToken (record : DeviceSessionAuthorization) (token : string) : bool :=
  match hex_decode (bytes_of (da_token_sha256 record)) with
  | Some expected =>
    if negb (zlen expected =? 32) then false
    else ConstantTimeCompare (Sum256 (bytes_of token)) expected
  | None => false
  end.

End Crypto.

(** ** negotiation.go *)

Definition TunnelSubprotocol : string := "hooshix.tunnel.v1".
Definition TunnelSubprotocolV2 : string := "hooshix.tunnel.v2".

Definition IsTunnelSubprotocol (subprotocol : string) : bool :=
  String.eqb subprotocol TunnelSubprotocol || String.eqb subprotocol TunnelSubprotocolV2.

Definition ValidateReadyNegotiation (ready : SessionReady) (subprotocol : string) : result unit :=
  reject_if (negb (IsTunnelSubprotocol subprotocol))
            (ErrMsg "required tunnel subprotocol was not negotiated") ;?
  validateRawBase64Length "resume_challenge" (sr_resume_challenge ready) 32.

(** ** Transcript encoding *)

Definition no_nul (p : bytes) : Prop := nul ∉ p.

Lemma join_nul_cons p q r : join_nul (p :: q :: r) = p ++ nul :: join_nul (q :: r).
Proof. done. Qed.

Lemma split_first_nul p p' x x' :
  no_nul p -> no_nul p' -> p ++ nul :: x = p' ++ nul :: x' -> p = p' /\ x = x'.
Proof.
  revert p'. induction p as [|b p IH]; intros [|b' p'] Hp Hp' E; unfold no_nul in *; simpl in *.
  - by injection E.
  - injection E as <- _. set_solver.
  - injection E as -> _. set_solver.
  - injection E as -> E. apply IH in E as [-> ->]; [done | set_solver ..].
Qed.

(** Joining NUL-free components is injective at a fixed number of them. *)
Lemma join_nul_inj ps qs :
  length ps = length qs -> Forall no_nul ps -> Forall no_nul qs ->
  join_nul ps = join_nul qs -> ps = qs.
Proof.
  revert qs. induction ps as [|p ps IH]; intros [|q qs] Hl Hp Hq E; try done.
  simpl in Hl. injection Hl as Hl. inversion_clear Hp as [|? ? Hp1 Hp2].
  inversion_clear Hq as [|? ? Hq1 Hq2].
  destruct ps as [|p' ps], qs as [|q' qs]; try done; [by f_equal |].
  rewrite !join_nul_cons in E. apply split_first_nul in E as [-> E]; [| done..].
  f_equal. by apply IH.
Qed.

Lemma b64_ok_no_nul n s : b64_ok n s -> no_nul (bytes_of s).
Proof.
  intros (raw & _ & ->) Hin. unfold b64_encode_string in Hin. rewrite bytes_of_string_of in Hin.
  pose proof (b64_encode_alphabet raw) as H. rewrite forallb_forall in H.
  apply list_elem_of_In in Hin. by apply H in Hin.
Qed.

Lemma timestamp_no_nul s t : parse_rfc3339 s = Some t -> no_nul (bytes_of s).
Proof.
  intros H Hin. apply timestamp_plain in H. rewrite forallb_forall in H.
  apply list_elem_of_In in Hin. by apply H in Hin.
Qed.

(** What a hello and a challenge must satisfy to have a transcript. *)
Definition auth_inputs_ok (h : ClientHello) (c : ServerChallenge) : Prop :=
  id_ok (sc_session_id c) /\ id_ok (ch_device_id h) /\ id_ok (ch_authorization_id h) /\
  id_ok (ch_token_id h) /\ b64_ok 32 (ch_client_nonce h) /\ b64_ok 32 (sc_server_nonce c).

Definition resume_inputs_ok (r : ResumeSession) : Prop :=
  id_ok (rs_device_id r) /\ id_ok (rs_authorization_id r) /\ id_ok (rs_token_id r) /\
  id_ok (rs_session_id r) /\ b64_ok 32 (rs_resume_nonce r) /\ b64_ok 32 (rs_resume_challenge r) /\
  exists t, parse_rfc3339 (rs_issued_at r) = Some t.

Definition auth_components (h : ClientHello) (c : ServerChallenge) : list bytes :=
  bytes_of <$> ["HXT1-AUTH"; sc_session_id c; ch_device_id h; ch_authorization_id h; ch_token_id h;
                ch_client_nonce h; sc_server_nonce c].

Definition resume_components (r : ResumeSession) : list bytes :=
  bytes_of <$> ["HXT1-RESUME"; rs_device_id r; rs_authorization_id r; rs_token_id r;
                rs_session_id r; rs_resume_nonce r; rs_resume_challenge r; rs_issued_at r].

Lemma auth_transcript_spec h c :
  (auth_inputs_ok h c /\ AuthTranscript h c = join_nul (auth_components h c) /\
   Forall no_nul (auth_components h c)) \/ (~ auth_inputs_ok h c /\ AuthTranscript h c = []).
Proof.
  unfold AuthTranscript, transcriptFor.
  match goal with |- context [rbind ?v (fun _ => Ok _)] => destruct v as [[]|e] eqn:E end.
  - left. inv_ok. apply validate_ids_Ok in E0. apply validateRawBase64Length_Ok in E1, E.
    rewrite !Forall_cons in E0. simpl in E0. destruct E0 as (? & ? & ? & ? & _).
    split; [by unfold auth_inputs_ok |]. split; [done |].
    unfold auth_components. rewrite !fmap_cons, !Forall_cons.
    split_and!; try (by eapply id_ok_no_nul); try (by eapply b64_ok_no_nul); constructor.
  - right. split; [| done]. intros (? & ? & ? & ? & ? & ?).
    rewrite (proj2 (validate_ids_Ok _)) in E by (by repeat constructor).
    rewrite !(proj2 (validateRawBase64Length_Ok _ _ _)) in E by done. done.
Qed.

Lemma resume_transcript_spec r :
  (resume_inputs_ok r /\ ResumeTranscript r = join_nul (resume_components r) /\
   Forall no_nul (resume_components r)) \/ (~ resume_inputs_ok r /\ ResumeTranscript r = []).
Proof.
  unfold ResumeTranscript, transcriptFor.
  match goal with |- context [rbind ?v (fun _ => Ok _)] => destruct v as [[]|e] eqn:E end.
  - left. inv_ok. apply validate_ids_Ok in E0. apply validateRawBase64Length_Ok in E1, E2.
    apply parseUTCTime_Ok in E3.
    rewrite !Forall_cons in E0. simpl in E0. destruct E0 as (? & ? & ? & ? & _).
    split; [unfold resume_inputs_ok; eauto 10 |]. split; [done |].
    unfold resume_components. rewrite !fmap_cons, !Forall_cons.
    split_and!; try (by eapply id_ok_no_nul); try (by eapply b64_ok_no_nul);
      try (by eapply timestamp_no_nul); constructor.
  - right. split; [| done]. intros (? & ? & ? & ? & ? & ? & t & Ht).
    rewrite (proj2 (validate_ids_Ok _)) in E by (by repeat constructor).
    rewrite !(proj2 (validateRawBase64Length_Ok _ _ _)) in E by done.
    rewrite (proj2 (parseUTCTime_Ok _ _ _) Ht) in E. done.
Qed.

Lemma join_nul_head p q r : exists x, join_nul (p :: q :: r) = p ++ nul :: x.
Proof. eexists. apply join_nul_cons. Qed.

Definition auth_bound (h : ClientHello) (c : ServerChallenge) : list string :=
  [sc_session_id c; ch_device_id h; ch_authorization_id h; ch_token_id h; ch_client_nonce h;
   sc_server_nonce c].

Definition resume_bound (r : ResumeSession) : list string :=
  [rs_device_id r; rs_authorization_id r; rs_token_id r; rs_session_id r; rs_resume_nonce r;
   rs_resume_challenge r; rs_issued_at r].

Lemma bytes_fmap_inj (xs ys : list string) : bytes_of <$> xs = bytes_of <$> ys -> xs = ys.
Proof.
  revert ys. induction xs as [|x xs IH]; intros [|y ys] E; try done.
  rewrite !fmap_cons in E. injection E as E1 E2. f_equal; [by apply bytes_of_inj | by apply IH].
Qed.

Lemma join_components_nonempty p q r : join_nul (p :: q :: r) <> [].
Proof. destruct (join_nul_head p q r) as (x & ->). by destruct p. Qed.

Lemma auth_transcript_nil h c : AuthTranscript h c = [] <-> ~ auth_inputs_ok h c.
Proof.
  destruct (auth_transcript_spec h c) as [(Ho & Hc & _)|(Ho & Hc)]; rewrite Hc; [| done].
  split; [| done]. intros E. by apply join_components_nonempty in E.
Qed.

Lemma resume_transcript_nil r : ResumeTranscript r = [] <-> ~ resume_inputs_ok r.
Proof.
  destruct (resume_transcript_spec r) as [(Ho & Hc & _)|(Ho & Hc)]; rewrite Hc; [| done].
  split; [| done]. intros E. by apply join_components_nonempty in E.
Qed.

Lemma auth_transcript_inj h c h' c' :
  AuthTranscript h c = AuthTranscript h' c' -> AuthTranscript h c <> [] ->
  auth_bound h c = auth_bound h' c'.
Proof.
  destruct (auth_transcript_spec h c) as [(_ & -> & Hn)|(_ & ->)]; [| done].
  destruct (auth_transcript_spec h' c') as [(_ & -> & Hn')|(_ & ->)]; [| by intros E Hne; rewrite E in Hne].
  intros E _. apply join_nul_inj in E; [| done..]. apply bytes_fmap_inj in E. unfold auth_bound. congruence.
Qed.

Lemma resume_transcript_inj r r' :
  ResumeTranscript r = ResumeTranscript r' -> ResumeTranscript r <> [] ->
  resume_bound r = resume_bound r'.
Proof.
  destruct (resume_transcript_spec r) as [(_ & -> & Hn)|(_ & ->)]; [| done].
  destruct (resume_transcript_spec r') as [(_ & -> & Hn')|(_ & ->)]; [| by intros E Hne; rewrite E in Hne].
  intros E _. apply join_nul_inj in E; [| done..]. apply bytes_fmap_inj in E. unfold resume_bound. congruence.
Qed.

Lemma auth_resume_disjoint h c r :
  AuthTranscript h c = ResumeTranscript r -> AuthTranscript h c = [].
Proof.
  destruct (auth_transcript_spec h c) as [(_ & -> & _)|(_ & ->)]; [| done].
  destruct (resume_transcript_spec r) as [(_ & -> & _)|(_ & ->)]; [| done].
  intros E. exfalso. unfold auth_components, resume_components in E.
  rewrite !fmap_cons, !join_nul_cons in E.
  apply split_first_nul in E as [E _]; [done | by eapply id_ok_no_nul ..].
Qed.

(** The signed byte strings are unambiguous: a transcript is empty exactly
    when one of its inputs breaks the contract; two non-empty authentication
    (or resume) transcripts are equal only if every bound field is, and no
    authentication transcript equals a resume transcript. *)
Theorem transcripts_unambiguous h c h' c' r r' :
  (AuthTranscript h c = [] <-> ~ auth_inputs_ok h c) /\
  (ResumeTranscript r = [] <-> ~ resume_inputs_ok r) /\
  (AuthTranscript h c = AuthTranscript h' c' ->
     AuthTranscript h c = [] \/ auth_bound h c = auth_bound h' c') /\
  (ResumeTranscript r = ResumeTranscript r' ->
     ResumeTranscript r = [] \/ resume_bound r = resume_bound r') /\
  (AuthTranscript h c = ResumeTranscript r -> AuthTranscript h c = []).
Proof.
  split; [apply auth_transcript_nil |]. split; [apply resume_transcript_nil |].
  split; [| split; [| apply auth_resume_disjoint]].
  - intros E. destruct (decide (AuthTranscript h c = [])); [by left | right].
    by apply auth_transcript_inj.
  - intros E. destruct (decide (ResumeTranscript r = [])); [by left | right].
    by apply resume_transcript_inj.
Qed.

Lemma demo_b64_ok n : b64_ok (Z.of_nat n) (b64_encode_string (repeat Byte.x00 n)).
Proof. eexists. split; [| done]. unfold zlen. by rewrite repeat_length. Qed.

Definition demo_hello : ClientHello :=
  MkClientHello 1 "client_hello" "dev-1" "auth-1" "tok-1" "AAAAAAAAAAAAAAAAAAAAAAAAAAAAAAAA"
    (b64_encode_string (repeat Byte.x00 32)).

Definition demo_challenge : ServerChallenge :=
  MkServerChallenge 1 "server_challenge" "sess-1" (b64_encode_string (repeat Byte.x00 32))
    "2024-01-01T00:01:00Z".

Definition demo_resume : ResumeSession :=
  MkResumeSession 1 "resume_session" "dev-1" "auth-1" "tok-1" "sess-1"
    (b64_encode_string (repeat Byte.x00 32)) (b64_encode_string (repeat Byte.x01 32))
    "2024-01-01T00:00:30Z" (b64_encode_string (repeat Byte.x00 64)).

Lemma demo_auth_inputs : auth_inputs_ok demo_hello demo_challenge.
Proof. unfold auth_inputs_ok. split_and!; try done; apply (demo_b64_ok 32). Qed.

Lemma transcripts_unambiguous_witness :
  AuthTranscript demo_hello demo_challenge <> [] /\
  AuthTranscript demo_hello demo_challenge <> ResumeTranscript demo_resume.
Proof.
  pose proof (transcripts_unambiguous demo_hello demo_challenge demo_hello demo_challenge
                demo_resume demo_resume) as (Hnil & _ & _ & _ & Hdis).
  assert (Hne : AuthTranscript demo_hello demo_challenge <> [])
    by (intros E; apply Hnil in E; apply E, demo_auth_inputs).
  split; [exact Hne |]. intros E. by apply Hne, Hdis.
Defined.

(** ** Constant-time comparison *)

Lemma xor_or_zero x y acc :
  length x = length y -> 0 <= acc -> xor_or acc x y = 0 <-> acc = 0 /\ x = y.
Proof.
  revert y acc. induction x as [|a x IH]; intros [|b y] acc Hl Ha; try done; simpl.
  - naive_solver.
  - pose proof (bz_range a). pose proof (bz_range b). simpl in Hl.
    assert (Hx : 0 <= Z.lxor (bz a) (bz b)) by (apply Z.lxor_nonneg; lia).
    rewrite IH by (first [lia | apply Z.lor_nonneg; lia]). rewrite Z.lor_eq_0_iff, Z.lxor_eq_0_iff.
    split; [intros [[-> E] ->]; apply bz_inj in E as ->; done | by intros [-> [= -> ->]]].
Qed.

Lemma ConstantTimeCompare_eq x y : ConstantTimeCompare x y = true <-> x = y.
Proof.
  unfold ConstantTimeCompare. rewrite andb_true_iff, !Z.eqb_eq. unfold zlen. split.
  - intros [Hl Hx]. apply xor_or_zero in Hx as [_ ?]; [done | lia | lia].
  - intros ->. split; [done |]. by apply xor_or_zero.
Qed.

(** A presented resume challenge matches exactly when it equals the stored
    one and the stored one is not empty. *)
Theorem resume_challenge_match expected presented :
  MatchResumeChallenge expected presented = true <->
  expected = presented /\ expected <> EmptyString.
Proof.
  unfold MatchResumeChallenge. destruct (String.eqb expected EmptyString) eqn:E; simpl; bool_facts.
  { naive_solver. }
  destruct (negb (slen expected =? slen presented)) eqn:El; bool_facts.
  { split; [done | intros [-> _]; done]. }
  rewrite ConstantTimeCompare_eq. split; [| by intros [-> _]].
  intros H. apply bytes_of_inj in H. done.
Qed.
