(* ===== verification/ControlCodec.v ===== *)
(** * ControlCodec: the control messages both peers send, and their acceptance

    [json.Marshal] of each message struct (field order and [omitempty] from
    its tags), the abstract condition a message must meet ([message_wf]) and
    the stream scope it is sent in; the proof that such a message is accepted by
    [ValidateControlPayload] at the other end and decodes to itself. *)

From S2P Require Import Prelude GoText GoTime Json StrictJson JsonMarshal Frame Contract Control.

(** ** Marshalling *)

(** A field tagged [omitempty]. *)
Definition omitempty (name value : string) : list (string * marshal_val) :=
  if nonempty value then [(name, MString value)] else [].

Definition ClientHello_members (m : ClientHello) : list (string * marshal_val) :=
  [("contract_version", MInt (ch_contract_version m)); ("message_type", MString (ch_message_type m));
   ("device_id", MString (ch_device_id m)); ("authorization_id", MString (ch_authorization_id m));
   ("token_id", MString (ch_token_id m)); ("session_token", MString (ch_session_token m));
   ("client_nonce", MString (ch_client_nonce m))].

Definition ServerChallenge_members (m : ServerChallenge) : list (string * marshal_val) :=
  [("contract_version", MInt (sc_contract_version m)); ("message_type", MString (sc_message_type m));
   ("session_id", MString (sc_session_id m)); ("server_nonce", MString (sc_server_nonce m));
   ("expires_at", MString (sc_expires_at m))].

Definition ClientAuth_members (m : ClientAuth) : list (string * marshal_val) :=
  [("contract_version", MInt (ca_contract_version m)); ("message_type", MString (ca_message_type m));
   ("session_id", MString (ca_session_id m)); ("signature", MString (ca_signature m))].

Definition SessionReady_members (m : SessionReady) : list (string * marshal_val) :=
  [("contract_version", MInt (sr_contract_version m)); ("message_type", MString (sr_message_type m));
   ("session_id", MString (sr_session_id m));
   ("heartbeat_interval_seconds", MInt (sr_heartbeat_interval_seconds m));
   ("idle_timeout_seconds", MInt (sr_idle_timeout_seconds m))]
  ++ omitempty "resume_challenge" (sr_resume_challenge m).

Definition Heartbeat_members (m : Heartbeat) : list (string * marshal_val) :=
  [("contract_version", MInt (hb_contract_version m)); ("message_type", MString (hb_message_type m));
   ("ping_id", MString (hb_ping_id m))]
  ++ omitempty "sent_at" (hb_sent_at m) ++ omitempty "received_at" (hb_received_at m).

Definition HealthReport_members (m : HealthReport) : list (string * marshal_val) :=
  [("contract_version", MInt (hr_contract_version m)); ("message_type", MString (hr_message_type m));
   ("report_id", MString (hr_report_id m)); ("generated_at", MString (hr_generated_at m));
   ("active_streams", MInt (hr_active_streams m)); ("queued_frames", MInt (hr_queued_frames m));
   ("reconnect_count", MInt (hr_reconnect_count m))]
  ++ omitempty "last_reconnect_at" (hr_last_reconnect_at m)
  ++ omitempty "agent_version" (hr_agent_version m).

Definition StreamOpen_members (m : StreamOpen) : list (string * marshal_val) :=
  [("contract_version", MInt (so_contract_version m)); ("message_type", MString (so_message_type m));
   ("endpoint_id", MString (so_endpoint_id m)); ("assignment_id", MString (so_assignment_id m));
   ("local_endpoint_id", MString (so_local_endpoint_id m)); ("request_id", MString (so_request_id m))]
  ++ omitempty "mode" (so_mode m).

Definition StreamHalfClose_members (m : StreamHalfClose) : list (string * marshal_val) :=
  [("contract_version", MInt (sh_contract_version m)); ("message_type", MString (sh_message_type m))].

Definition StreamWindowUpdate_members (m : StreamWindowUpdate) : list (string * marshal_val) :=
  [("contract_version", MInt (sw_contract_version m)); ("message_type", MString (sw_message_type m));
   ("credit_bytes", MInt (sw_credit_bytes m))].

Definition StreamClose_members (m : StreamClose) : list (string * marshal_val) :=
  [("contract_version", MInt (sl_contract_version m)); ("message_type", MString (sl_message_type m));
   ("reason_code", MString (sl_reason_code m))].

Definition StreamError_members (m : StreamError) : list (string * marshal_val) :=
  [("contract_version", MInt (se_contract_version m)); ("message_type", MString (se_message_type m));
   ("code", MString (se_code m)); ("message", MString (se_message m));
   ("retryable", MBool (se_retryable m))].

Definition SessionRevoked_members (m : SessionRevoked) : list (string * marshal_val) :=
  [("contract_version", MInt (sv_contract_version m)); ("message_type", MString (sv_message_type m));
   ("authorization_id", MString (sv_authorization_id m)); ("reason_code", MString (sv_reason_code m))].

Definition ResumeSession_members (m : ResumeSession) : list (string * marshal_val) :=
  [("contract_version", MInt (rs_contract_version m)); ("message_type", MString (rs_message_type m));
   ("device_id", MString (rs_device_id m)); ("authorization_id", MString (rs_authorization_id m));
   ("token_id", MString (rs_token_id m)); ("session_id", MString (rs_session_id m));
   ("resume_nonce", MString (rs_resume_nonce m)); ("resume_challenge", MString (rs_resume_challenge m));
   ("issued_at", MString (rs_issued_at m)); ("signature", MString (rs_signature m))].

Definition SessionResumed_members (m : SessionResumed) : list (string * marshal_val) :=
  [("contract_version", MInt (sd_contract_version m)); ("message_type", MString (sd_message_type m));
   ("session_id", MString (sd_session_id m)); ("next_sequence", MInt (sd_next_sequence m));
   ("resumed_at", MString (sd_resumed_at m)); ("resume_challenge", MString (sd_resume_challenge m))].

(** ** The messages as one type *)

Inductive control_message :=
| MsgClientHello (m : ClientHello)
| MsgServerChallenge (m : ServerChallenge)
| MsgClientAuth (m : ClientAuth)
| MsgSessionReady (m : SessionReady)
| MsgHeartbeat (m : Heartbeat)
| MsgHealthReport (m : HealthReport)
| MsgStreamOpen (m : StreamOpen)
| MsgStreamHalfClose (m : StreamHalfClose)
| MsgStreamWindowUpdate (m : StreamWindowUpdate)
| MsgStreamClose (m : StreamClose)
| MsgStreamError (m : StreamError)
| MsgSessionRevoked (m : SessionRevoked)
| MsgResumeSession (m : ResumeSession)
| MsgSessionResumed (m : SessionResumed).

Definition message_members (m : control_message) : list (string * marshal_val) :=
  match m with
  | MsgClientHello m => ClientHello_members m
  | MsgServerChallenge m => ServerChallenge_members m
  | MsgClientAuth m => ClientAuth_members m
  | MsgSessionReady m => SessionReady_members m
  | MsgHeartbeat m => Heartbeat_members m
  | MsgHealthReport m => HealthReport_members m
  | MsgStreamOpen m => StreamOpen_members m
  | MsgStreamHalfClose m => StreamHalfClose_members m
  | MsgStreamWindowUpdate m => StreamWindowUpdate_members m
  | MsgStreamClose m => StreamClose_members m
  | MsgStreamError m => StreamError_members m
  | MsgSessionRevoked m => SessionRevoked_members m
  | MsgResumeSession m => ResumeSession_members m
  | MsgSessionResumed m => SessionResumed_members m
  end.

(** [json.Marshal(message)]. *)
Definition marshal_message (m : control_message) : bytes := marshal_object (message_members m).

Definition stream_scoped (m : control_message) : bool :=
  match m with
  | MsgStreamOpen _ | MsgStreamHalfClose _ | MsgStreamWindowUpdate _ | MsgStreamClose _
  | MsgStreamError _ => true
  | _ => false
  end.

Definition in_scope (m : control_message) (streamID : Z) : Prop :=
  if stream_scoped m then streamID <> 0 else streamID = 0.

(** ** What the contract asks of a message *)

Definition stamp_ok (s : string) : Prop := exists t, parse_rfc3339 s = Some t.

Definition text_ok (lo hi : Z) (s : string) : Prop := lo <= rune_count_in_string s <= hi.

Definition message_wf (msg : control_message) (at_ : instant) : Prop :=
  match msg with
  | MsgClientHello m =>
    ch_contract_version m = 1 /\ ch_message_type m = "client_hello" /\ id_ok (ch_device_id m) /\
    id_ok (ch_authorization_id m) /\ id_ok (ch_token_id m) /\
    tokenPattern (ch_session_token m) = true /\ b64_ok 32 (ch_client_nonce m)
  | MsgServerChallenge m =>
    sc_contract_version m = 1 /\ sc_message_type m = "server_challenge" /\ id_ok (sc_session_id m) /\
    b64_ok 32 (sc_server_nonce m) /\ exists t, parse_rfc3339 (sc_expires_at m) = Some t /\ at_ < t
  | MsgClientAuth m =>
    ca_contract_version m = 1 /\ ca_message_type m = "client_auth" /\ id_ok (ca_session_id m) /\
    b64_ok 64 (ca_signature m)
  | MsgSessionReady m =>
    sr_contract_version m = 1 /\ sr_message_type m = "session_ready" /\ id_ok (sr_session_id m) /\
    5 <= sr_heartbeat_interval_seconds m <= 60 /\ 15 <= sr_idle_timeout_seconds m <= 300 /\
    2 * sr_heartbeat_interval_seconds m <= sr_idle_timeout_seconds m
  | MsgHeartbeat m =>
    hb_contract_version m = 1 /\ id_ok (hb_ping_id m) /\
    ((hb_message_type m = "ping" /\ stamp_ok (hb_sent_at m) /\ hb_received_at m = EmptyString) \/
     (hb_message_type m = "pong" /\ stamp_ok (hb_received_at m) /\ hb_sent_at m = EmptyString))
  | MsgHealthReport m =>
    hr_contract_version m = 1 /\ hr_message_type m = "health_report" /\ id_ok (hr_report_id m) /\
    stamp_ok (hr_generated_at m) /\ 0 <= hr_active_streams m <= MaxStreamsPerSessionBound /\
    0 <= hr_queued_frames m <= MaxQueuedFramesBound /\
    0 <= hr_reconnect_count m <= MaxHealthReconnectCount /\
    (hr_last_reconnect_at m = EmptyString \/ stamp_ok (hr_last_reconnect_at m)) /\
    text_ok 0 64 (hr_agent_version m)
  | MsgStreamOpen m =>
    so_contract_version m = 1 /\ so_message_type m = "stream_open" /\ id_ok (so_endpoint_id m) /\
    id_ok (so_assignment_id m) /\ id_ok (so_local_endpoint_id m) /\ id_ok (so_request_id m) /\
    so_mode m ∈ [EmptyString; "http"; "tcp"; "udp"]
  | MsgStreamHalfClose m =>
    sh_contract_version m = 1 /\ sh_message_type m = "stream_half_close"
  | MsgStreamWindowUpdate m =>
    sw_contract_version m = 1 /\ sw_message_type m = "stream_window_update" /\
    1 <= sw_credit_bytes m <= MaxWindowCreditBytes
  | MsgStreamClose m =>
    sl_contract_version m = 1 /\ sl_message_type m = "stream_close" /\
    sl_reason_code m ∈ ["completed"; "peer_closed"; "cancelled"]
  | MsgStreamError m =>
    se_contract_version m = 1 /\ se_message_type m = "stream_error" /\
    se_code m ∈ stream_error_codes /\ text_ok 1 256 (se_message m)
  | MsgSessionRevoked m =>
    sv_contract_version m = 1 /\ sv_message_type m = "session_revoked" /\
    id_ok (sv_authorization_id m) /\ sv_reason_code m ∈ session_revoked_reasons
  | MsgResumeSession m =>
    rs_contract_version m = 1 /\ rs_message_type m = "resume_session" /\ id_ok (rs_device_id m) /\
    id_ok (rs_authorization_id m) /\ id_ok (rs_token_id m) /\ id_ok (rs_session_id m) /\
    b64_ok 32 (rs_resume_nonce m) /\ b64_ok 32 (rs_resume_challenge m) /\
    stamp_ok (rs_issued_at m) /\ b64_ok 64 (rs_signature m)
  | MsgSessionResumed m =>
    sd_contract_version m = 1 /\ sd_message_type m = "session_resumed" /\ id_ok (sd_session_id m) /\
    1 <= sd_next_sequence m < 2 ^ 64 /\ stamp_ok (sd_resumed_at m) /\
    b64_ok 32 (sd_resume_challenge m)
  end.

(** What a sender has to ensure beyond [message_wf]: the free-text fields are
    valid UTF-8 ([json.Marshal] replaces what is not), and a resume challenge
    is absent or canonical.  The receiver cannot be said to check the latter
    (see [folded_challenge_unchecked]). *)
Definition message_sendable (msg : control_message) : Prop :=
  match msg with
  | MsgSessionReady m => sr_resume_challenge m = EmptyString \/ b64_ok 32 (sr_resume_challenge m)
  | MsgHealthReport m => utf8_valid (bytes_of (hr_agent_version m)) = true
  | MsgStreamError m => utf8_valid (bytes_of (se_message m)) = true
  | _ => True
  end.

(** [decodeControlStrict] as an option. *)
Definition Control_fields (fs : schema) (data : bytes) : option (gmap string field_val) :=
  match decodeControlStrict fs data with Ok m => Some m | Err _ => None end.

(** The receiver's struct for the payload is the sender's. *)
Definition decodes_to (data : bytes) (msg : control_message) : Prop :=
  match msg with
  | MsgClientHello m => ClientHello_of <$> Control_fields ClientHello_schema data = Some m
  | MsgServerChallenge m => ServerChallenge_of <$> Control_fields ServerChallenge_schema data = Some m
  | MsgClientAuth m => ClientAuth_of <$> Control_fields ClientAuth_schema data = Some m
  | MsgSessionReady m => SessionReady_of <$> Control_fields SessionReady_schema data = Some m
  | MsgHeartbeat m => Heartbeat_of <$> Control_fields Heartbeat_schema data = Some m
  | MsgHealthReport m => HealthReport_of <$> Control_fields HealthReport_schema data = Some m
  | MsgStreamOpen m => StreamOpen_of <$> Control_fields StreamOpen_schema data = Some m
  | MsgStreamHalfClose m => StreamHalfClose_of <$> Control_fields StreamHalfClose_schema data = Some m
  | MsgStreamWindowUpdate m =>
    StreamWindowUpdate_of <$> Control_fields StreamWindowUpdate_schema data = Some m
  | MsgStreamClose m => StreamClose_of <$> Control_fields StreamClose_schema data = Some m
  | MsgStreamError m => StreamError_of <$> Control_fields StreamError_schema data = Some m
  | MsgSessionRevoked m => SessionRevoked_of <$> Control_fields SessionRevoked_schema data = Some m
  | MsgResumeSession m => ResumeSession_of <$> Control_fields ResumeSession_schema data = Some m
  | MsgSessionResumed m => SessionResumed_of <$> Control_fields SessionResumed_schema data = Some m
  end.

(** ** Text that needs no more checks *)

Lemma id_ok_utf8 s : id_ok s -> utf8_valid (bytes_of s) = true.
Proof.
  unfold id_ok, idPattern. destruct (bytes_of s) as [|b r]; [done |]. intros H. bool_facts.
  apply utf8_valid_ascii. cbn [forallb]. apply andb_true_iff. split; [by destruct b |].
  apply forallb_forall. intros x Hx. rewrite forallb_forall in H0. apply H0 in Hx. by destruct x.
Qed.

Lemma alphabet_utf8 bs : forallb b64_alphabet bs = true -> utf8_valid bs = true.
Proof.
  intros H. apply utf8_valid_ascii, forallb_forall. intros x Hx.
  rewrite forallb_forall in H. apply H in Hx. by destruct x.
Qed.

Lemma b64_ok_utf8 n s : b64_ok n s -> utf8_valid (bytes_of s) = true.
Proof.
  intros (raw & _ & ->). unfold b64_encode_string. rewrite bytes_of_string_of.
  apply alphabet_utf8, b64_encode_alphabet.
Qed.

Lemma token_utf8 s : tokenPattern s = true -> utf8_valid (bytes_of s) = true.
Proof. unfold tokenPattern. intros H. bool_facts. by apply alphabet_utf8. Qed.

Lemma stamp_utf8 s : stamp_ok s -> utf8_valid (bytes_of s) = true.
Proof.
  intros (t & H). apply timestamp_plain in H. apply utf8_valid_ascii, forallb_forall.
  intros x Hx. rewrite forallb_forall in H. apply H in Hx. by destruct x.
Qed.

Lemma parsed_utf8 s t : parse_rfc3339 s = Some t -> utf8_valid (bytes_of s) = true.
Proof. intros H. apply stamp_utf8. by exists t. Qed.

Lemma stamp_nonempty s : stamp_ok s -> nonempty s = true.
Proof. intros (t & H). destruct s; [by vm_compute in H | done]. Qed.

Lemma b64_nonempty n s : b64_ok n s -> 0 < n -> nonempty s = true.
Proof.
  intros (raw & Hl & ->) Hn. destruct raw as [|a [|b [|c r]]]; [rewrite zlen_nil in Hl; lia | done..].
Qed.

#[export] Hint Resolve id_ok_utf8 b64_ok_utf8 token_utf8 stamp_utf8 parsed_utf8 : hooshi.

(** ** Acceptance, case by case *)

(** [solve_fits] and [solve_members] discharge the side conditions of the
    [marshalled_*] lemmas on a literal member list; [read_fields] evaluates
    the decoded fields. *)
Ltac solve_fits :=
  match goal with
  | |- member_fits ?fs ?b (?k, ?v) =>
      unfold member_fits; cbn [fst snd];
      let r := eval vm_compute in (find_field fs k) in
      change (find_field fs k) with r; cbn iota beta; try exact I; try reflexivity;
      simpl; try lia
  end.

Ltac solve_members :=
  match goal with
  | |- members_ok ?ms => unfold members_ok
  | _ => idtac
  end;
  repeat apply Forall_cons_2; try apply Forall_nil_2;
  first [solve [solve_fits]
        | split; [reflexivity |]; simpl; solve [eauto with hooshi | lia]
        | idtac].

Ltac solve_nodup := repeat (apply NoDup_cons; split; [set_solver |]); apply NoDup_nil_2.

Lemma accept_message ms kind streamID at_ :
  members_ok ms -> NoDup (fst <$> ms) -> Forall (member_fits envelope_schema false) ms ->
  get_int (put_members envelope_schema ms ∅) "contract_version" = 1 ->
  get_string (put_members envelope_schema ms ∅) "message_type" = kind ->
  validate_message kind (marshal_object ms) streamID at_ = Ok tt ->
  ValidateControlPayload (marshal_object ms) streamID at_ = Ok tt.
Proof.
  intros Hok Hnd Hf Hv Hk Hm. unfold ValidateControlPayload.
  rewrite marshalled_validate, marshalled_not_null, marshalled_unmarshal by done. simpl.
  by rewrite Hv, Hk.
Qed.

Lemma scope_stream streamID : streamID <> 0 -> streamScope streamID = Ok tt.
Proof. intros H. unfold streamScope. by rewrite (proj2 (Z.eqb_neq _ _) H). Qed.

Lemma id_validates name v : id_ok v -> validateID name v = Ok tt.
Proof. apply validateID_Ok. Qed.

Lemma b64_validates name v n : b64_ok n v -> validateRawBase64Length name v n = Ok tt.
Proof. apply validateRawBase64Length_Ok. Qed.

Lemma time_validates name v t : parse_rfc3339 v = Some t -> parseUTCTime name v = Ok t.
Proof. apply parseUTCTime_Ok. Qed.

Lemma ids_validate ids : Forall (fun p => id_ok p.2) ids -> validate_ids ids = Ok tt.
Proof. apply validate_ids_Ok. Qed.

#[local] Arguments validateID : simpl never.
#[local] Arguments validate_ids : simpl never.
#[local] Arguments validateRawBase64Length : simpl never.
#[local] Arguments parseUTCTime : simpl never.
#[local] Arguments tokenPattern : simpl never.
#[local] Arguments requirePresent : simpl never.
#[local] Arguments rejectEmptyMembers : simpl never.
#[local] Arguments rune_count_in_string : simpl never.
#[local] Arguments oneOfStrings : simpl never.
#[local] Arguments raw_member_present : simpl never.
#[local] Arguments nonempty : simpl never.
#[local] Arguments marshal_object : simpl never.
#[local] Arguments decodeControlStrict : simpl never.
#[local] Arguments Z.leb : simpl never.
#[local] Arguments Z.ltb : simpl never.
#[local] Arguments i64 : simpl never.

(** A message is accepted and read back, given what its case checks. *)
Definition transmits (msg : control_message) (streamID : Z) (at_ : instant) : Prop :=
  ValidateControlPayload (marshal_message msg) streamID at_ = Ok tt /\
  decodes_to (marshal_message msg) msg.

(** The parts every message's proof shares: its members are well formed, its
    envelope is read as kind [kind] and its schema reads it back. *)
Record sendable (fs : schema) (ms : list (string * marshal_val)) (kind : string) : Prop := Sendable {
  s_ok : members_ok ms;
  s_nodup : NoDup (fst <$> ms);
  s_env : Forall (member_fits envelope_schema false) ms;
  s_version : get_int (put_members envelope_schema ms ∅) "contract_version" = 1;
  s_kind : get_string (put_members envelope_schema ms ∅) "message_type" = kind;
  s_fits : Forall (member_fits fs true) ms;
}.

Lemma sendable_decode fs ms kind :
  sendable fs ms kind -> decodeControlStrict fs (marshal_object ms) = Ok (put_members fs ms ∅).
Proof. intros [Hok Hnd _ _ _ Hf]. by apply marshalled_decode. Qed.

Lemma sendable_accept fs ms kind streamID at_ :
  sendable fs ms kind -> validate_message kind (marshal_object ms) streamID at_ = Ok tt ->
  ValidateControlPayload (marshal_object ms) streamID at_ = Ok tt.
Proof. intros [Hok Hnd He Hv Hk _]. by apply accept_message. Qed.

Ltac solve_sendable :=
  constructor; [solve_members | solve_nodup | solve_members | vm_compute; reflexivity
               | vm_compute; reflexivity | solve_members].

(** Sets up a message [m] of the literal member list [mem m]: [Hs] its
    sendability, [Hof] that its fields read back, and the two halves of
    [transmits], of which only the case's own check is left. *)
Ltac begin_transmit fs mem rd m kind :=
  let Hs := fresh "Hs" in
  let Hof := fresh "Hof" in
  assert (Hs : sendable fs (mem m) kind) by (unfold mem, m; simpl; solve_sendable);
  assert (Hof : rd (put_members fs (mem m) ∅) = m) by (vm_compute; reflexivity);
  split;
  [ apply (sendable_accept _ _ _ _ _ Hs)
  | unfold decodes_to, Control_fields, marshal_message; cbn [message_members];
    rewrite (sendable_decode _ _ _ Hs); by rewrite <- Hof at 2 ].

(** The decoded message inside a case's check. *)
Ltac read_message :=
  match goal with
  | Hs : sendable _ _ _ |- _ => rewrite (sendable_decode _ _ _ Hs)
  end;
  cbn [sessionScope rbind reject_if Z.eqb negb];
  match goal with
  | Hof : _ (put_members _ _ _) = ?m |- _ => rewrite Hof; unfold m; simpl
  end.

Ltac field_checks :=
  repeat first
    [ rewrite ids_validate by (by repeat constructor)
    | rewrite id_validates by done
    | rewrite b64_validates by done
    | erewrite time_validates by eassumption
    | progress simpl ].

Lemma transmit_client_hello m at_ :
  message_wf (MsgClientHello m) at_ -> transmits (MsgClientHello m) 0 at_.
Proof.
  destruct m as [v k d a t tok n]. simpl. intros (-> & -> & Hd & Ha & Ht & Htok & Hn).
  set (m := MkClientHello 1 "client_hello" d a t tok n).
  begin_transmit ClientHello_schema ClientHello_members ClientHello_of m "client_hello".
  change (validate_client_hello (marshal_object (ClientHello_members m)) 0 = Ok tt).
  unfold validate_client_hello, DecodeClientHello. read_message.
  rewrite Htok. by field_checks.
Qed.

Lemma transmit_server_challenge m at_ :
  message_wf (MsgServerChallenge m) at_ -> transmits (MsgServerChallenge m) 0 at_.
Proof.
  destruct m as [v k sid n e]. simpl. intros (-> & -> & Hsid & Hn & t & Ht & Hlt).
  set (m := MkServerChallenge 1 "server_challenge" sid n e).
  begin_transmit ServerChallenge_schema ServerChallenge_members ServerChallenge_of m "server_challenge".
  change (validate_server_challenge (marshal_object (ServerChallenge_members m)) 0 at_ = Ok tt).
  unfold validate_server_challenge, DecodeServerChallenge. read_message. field_checks.
  unfold before. by rewrite (proj2 (Z.ltb_lt _ _) Hlt).
Qed.

Lemma transmit_client_auth m at_ :
  message_wf (MsgClientAuth m) at_ -> transmits (MsgClientAuth m) 0 at_.
Proof.
  destruct m as [v k sid g]. simpl. intros (-> & -> & Hsid & Hg).
  set (m := MkClientAuth 1 "client_auth" sid g).
  begin_transmit ClientAuth_schema ClientAuth_members ClientAuth_of m "client_auth".
  change (validate_client_auth (marshal_object (ClientAuth_members m)) 0 = Ok tt).
  unfold validate_client_auth, DecodeClientAuth. read_message. by field_checks.
Qed.

Lemma transmit_stream_half_close m at_ sid :
  sid <> 0 -> message_wf (MsgStreamHalfClose m) at_ -> transmits (MsgStreamHalfClose m) sid at_.
Proof.
  intros Hsid. destruct m as [v k]. simpl. intros (-> & ->).
  set (m := MkStreamHalfClose 1 "stream_half_close").
  begin_transmit StreamHalfClose_schema StreamHalfClose_members StreamHalfClose_of m "stream_half_close".
  change (validate_stream_half_close (marshal_object (StreamHalfClose_members m)) sid = Ok tt).
  unfold validate_stream_half_close. rewrite scope_stream by done. by read_message.
Qed.

Lemma transmit_stream_window_update m at_ sid :
  sid <> 0 -> message_wf (MsgStreamWindowUpdate m) at_ -> transmits (MsgStreamWindowUpdate m) sid at_.
Proof.
  intros Hsid. destruct m as [v k c]. simpl. intros (-> & -> & Hc).
  assert (Hb : 1 <= c <= 8388608) by exact Hc.
  set (m := MkStreamWindowUpdate 1 "stream_window_update" c).
  begin_transmit StreamWindowUpdate_schema StreamWindowUpdate_members StreamWindowUpdate_of m
    "stream_window_update".
  change (validate_stream_window_update (marshal_object (StreamWindowUpdate_members m)) sid = Ok tt).
  unfold validate_stream_window_update. rewrite scope_stream by done. cbn [rbind].
  rewrite marshalled_present by (try apply Hs; repeat constructor; set_solver). read_message.
  rewrite (proj2 (Z.ltb_ge c 1)) by lia. by rewrite (proj2 (Z.ltb_ge _ c)) by exact (proj2 Hc).
Qed.

Lemma transmit_stream_close m at_ sid :
  sid <> 0 -> message_wf (MsgStreamClose m) at_ -> transmits (MsgStreamClose m) sid at_.
Proof.
  intros Hsid. destruct m as [v k c]. simpl. intros (-> & -> & Hc).
  assert (Hu : utf8_valid (bytes_of c) = true)
    by (rewrite !elem_of_cons in Hc; destruct Hc as [->|[->|[->|Hc]]]; [done..|]; set_solver).
  set (m := MkStreamClose 1 "stream_close" c).
  begin_transmit StreamClose_schema StreamClose_members StreamClose_of m "stream_close".
  change (validate_stream_close (marshal_object (StreamClose_members m)) sid = Ok tt).
  unfold validate_stream_close. rewrite scope_stream by done. read_message.
  by rewrite (proj2 (oneOfStrings_in _ _) Hc).
Qed.

Lemma transmit_stream_error m at_ sid :
  sid <> 0 -> message_wf (MsgStreamError m) at_ -> message_sendable (MsgStreamError m) ->
  transmits (MsgStreamError m) sid at_.
Proof.
  intros Hsid. destruct m as [v k c t r]. simpl. intros (-> & -> & Hc & Hlo & Hhi) Hu.
  assert (Huc : utf8_valid (bytes_of c) = true).
  { unfold stream_error_codes in Hc. rewrite !elem_of_cons in Hc.
    destruct Hc as [->|[->|[->|[->|[->|Hc]]]]]; [done..|]; set_solver. }
  set (m := MkStreamError 1 "stream_error" c t r).
  begin_transmit StreamError_schema StreamError_members StreamError_of m "stream_error".
  change (validate_stream_error (marshal_object (StreamError_members m)) sid = Ok tt).
  unfold validate_stream_error. rewrite scope_stream by done. cbn [rbind].
  rewrite marshalled_present by (try apply Hs; repeat constructor; set_solver). read_message.
  rewrite (proj2 (oneOfStrings_in _ _) Hc). simpl.
  rewrite (proj2 (Z.eqb_neq _ _)) by lia. by rewrite (proj2 (Z.ltb_ge _ _) Hhi).
Qed.

Lemma transmit_session_revoked m at_ :
  message_wf (MsgSessionRevoked m) at_ -> transmits (MsgSessionRevoked m) 0 at_.
Proof.
  destruct m as [v k a c]. simpl. intros (-> & -> & Ha & Hc).
  assert (Huc : utf8_valid (bytes_of c) = true).
  { unfold session_revoked_reasons in Hc. rewrite !elem_of_cons in Hc.
    destruct Hc as [->|[->|[->|[->|Hc]]]]; [done..|]; set_solver. }
  set (m := MkSessionRevoked 1 "session_revoked" a c).
  begin_transmit SessionRevoked_schema SessionRevoked_members SessionRevoked_of m "session_revoked".
  change (validate_session_revoked (marshal_object (SessionRevoked_members m)) 0 = Ok tt).
  unfold validate_session_revoked. read_message. field_checks.
  by rewrite (proj2 (oneOfStrings_in _ _) Hc).
Qed.

Lemma transmit_resume_session m at_ :
  message_wf (MsgResumeSession m) at_ -> transmits (MsgResumeSession m) 0 at_.
Proof.
  destruct m as [v k d a t s n c i g]. simpl.
  intros (-> & -> & Hd & Ha & Ht & Hsid & Hn & Hc & [ti Hi] & Hg).
  set (m := MkResumeSession 1 "resume_session" d a t s n c i g).
  begin_transmit ResumeSession_schema ResumeSession_members ResumeSession_of m "resume_session".
  change (validate_resume_session (marshal_object (ResumeSession_members m)) 0 = Ok tt).
  unfold validate_resume_session. read_message. by field_checks.
Qed.

Lemma transmit_session_resumed m at_ :
  message_wf (MsgSessionResumed m) at_ -> transmits (MsgSessionResumed m) 0 at_.
Proof.
  destruct m as [v k s n r c]. simpl. intros (-> & -> & Hsid & Hn & [tr Hr] & Hc).
  set (m := MkSessionResumed 1 "session_resumed" s n r c).
  begin_transmit SessionResumed_schema SessionResumed_members SessionResumed_of m "session_resumed".
  change (validate_session_resumed (marshal_object (SessionResumed_members m)) 0 = Ok tt).
  unfold validate_session_resumed. cbn [sessionScope rbind reject_if Z.eqb negb].
  rewrite marshalled_present by (try apply Hs; repeat constructor; set_solver). read_message.
  field_checks. rewrite (proj2 (Z.eqb_neq _ _)) by lia. by field_checks.
Qed.

Lemma raw_member_marshalled ms name :
  members_ok ms ->
  raw_member_present (marshal_object ms) name = Ok (existsb (fun m => String.eqb m.1 name) (json_members ms)).
Proof. intros H. unfold raw_member_present. by rewrite marshal_object_document. Qed.

Lemma transmit_session_ready m at_ :
  message_wf (MsgSessionReady m) at_ -> message_sendable (MsgSessionReady m) ->
  transmits (MsgSessionReady m) 0 at_.
Proof.
  destruct m as [v k s h i c]. simpl. intros (-> & -> & Hsid & Hh & Hi & H2) Hc.
  assert (H2i : i64 (2 * h) = 2 * h) by (apply i64_id; unfold is_i64; lia).
  destruct c as [|x c]; [clear Hc | destruct Hc as [Hc|Hc]; [done |]].
  - set (m := MkSessionReady 1 "session_ready" s h i EmptyString).
    begin_transmit SessionReady_schema SessionReady_members SessionReady_of m "session_ready".
    change (validate_session_ready (marshal_object (SessionReady_members m)) 0 = Ok tt).
    unfold validate_session_ready. cbn [sessionScope rbind reject_if Z.eqb negb].
    rewrite marshalled_present by (try apply Hs; repeat constructor; set_solver). read_message.
    field_checks. rewrite raw_member_marshalled by apply Hs. simpl.
    rewrite H2i, !(proj2 (Z.ltb_ge _ _)) by lia. done.
  - set (m := MkSessionReady 1 "session_ready" s h i (String x c)).
    begin_transmit SessionReady_schema SessionReady_members SessionReady_of m "session_ready".
    change (validate_session_ready (marshal_object (SessionReady_members m)) 0 = Ok tt).
    unfold validate_session_ready. cbn [sessionScope rbind reject_if Z.eqb negb].
    rewrite marshalled_present by (try apply Hs; repeat constructor; set_solver). read_message.
    field_checks. rewrite raw_member_marshalled by apply Hs. simpl. field_checks.
    rewrite H2i, !(proj2 (Z.ltb_ge _ _)) by lia. done.
Qed.

Lemma transmit_heartbeat m at_ :
  message_wf (MsgHeartbeat m) at_ -> transmits (MsgHeartbeat m) 0 at_.
Proof.
  destruct m as [v k p s r]. simpl. intros (-> & Hp & [(-> & [t Hst] & ->)|(-> & [t Hst] & ->)]).
  - destruct s as [|a s]; [by vm_compute in Hst |].
    set (m := MkHeartbeat 1 "ping" p (String a s) EmptyString).
    begin_transmit Heartbeat_schema Heartbeat_members Heartbeat_of m "ping".
    change (validate_heartbeat (marshal_object (Heartbeat_members m)) 0 "ping" = Ok tt).
    unfold validate_heartbeat. read_message. by field_checks.
  - destruct r as [|a s]; [by vm_compute in Hst |].
    set (m := MkHeartbeat 1 "pong" p EmptyString (String a s)).
    begin_transmit Heartbeat_schema Heartbeat_members Heartbeat_of m "pong".
    change (validate_heartbeat (marshal_object (Heartbeat_members m)) 0 "pong" = Ok tt).
    unfold validate_heartbeat. read_message. by field_checks.
Qed.

Lemma transmit_stream_open m at_ sid :
  sid <> 0 -> message_wf (MsgStreamOpen m) at_ -> transmits (MsgStreamOpen m) sid at_.
Proof.
  intros Hsid. destruct m as [v k e a l r o]. simpl. intros (-> & -> & He & Ha & Hl & Hr & Ho).
  rewrite !elem_of_cons in Ho.
  destruct Ho as [->|[->|[->|[->|Ho]]]]; [.. | set_solver].
  1: set (m := MkStreamOpen 1 "stream_open" e a l r EmptyString).
  2: set (m := MkStreamOpen 1 "stream_open" e a l r "http").
  3: set (m := MkStreamOpen 1 "stream_open" e a l r "tcp").
  4: set (m := MkStreamOpen 1 "stream_open" e a l r "udp").
  all: begin_transmit StreamOpen_schema StreamOpen_members StreamOpen_of m "stream_open";
    change (validate_stream_open (marshal_object (StreamOpen_members m)) sid = Ok tt);
    unfold validate_stream_open; rewrite scope_stream by done; read_message; by field_checks.
Qed.

(** The check of [health_report] once its optional members are known. *)
Lemma health_report_check p g a q n l v t ms :
  let m := MkHealthReport 1 "health_report" p g a q n l v in
  sendable HealthReport_schema ms "health_report" ->
  HealthReport_of (put_members HealthReport_schema ms ∅) = m ->
  Forall (fun n => n ∈ fst <$> ms) ["active_streams"; "queued_frames"; "reconnect_count"] ->
  ("last_reconnect_at", MString EmptyString) ∉ ms ->
  id_ok p -> parse_rfc3339 g = Some t -> 0 <= a <= MaxStreamsPerSessionBound ->
  0 <= q <= MaxQueuedFramesBound -> 0 <= n <= MaxHealthReconnectCount ->
  (l = EmptyString \/ stamp_ok l) -> rune_count_in_string v <= 64 ->
  validate_health_report (marshal_object ms) 0 = Ok tt.
Proof.
  intros m Hs Hof Hpres Hne Hp Hg Ha Hq Hn Hl Hv. unfold validate_health_report.
  cbn [sessionScope rbind reject_if Z.eqb negb].
  rewrite marshalled_present by (done || apply Hs). read_message. field_checks.
  rewrite (proj2 (Z.ltb_ge _ _) (proj1 Ha)), (proj2 (Z.ltb_ge _ _) (proj2 Ha)).
  rewrite (proj2 (Z.ltb_ge _ _) (proj1 Hq)), (proj2 (Z.ltb_ge _ _) (proj2 Hq)).
  rewrite (proj2 (Z.ltb_ge _ _) (proj1 Hn)), (proj2 (Z.ltb_ge _ _) (proj2 Hn)). simpl.
  rewrite marshalled_nonempty by (try apply Hs; by repeat constructor). cbn [rbind].
  rewrite (proj2 (Z.ltb_ge _ _) Hv).
  destruct Hl as [->|[tl Hl]]; [done |].
  rewrite stamp_nonempty by (by exists tl). simpl. by erewrite time_validates.
Qed.

Lemma transmit_health_report m at_ :
  message_wf (MsgHealthReport m) at_ -> message_sendable (MsgHealthReport m) ->
  transmits (MsgHealthReport m) 0 at_.
Proof.
  destruct m as [cv k p g a q n l v]. simpl.
  intros (-> & -> & Hp & [t Hg] & Ha & Hq & Hn & Hl & _ & Hv) Hu.
  assert (Ha' : 0 <= a <= 4096) by exact Ha. assert (Hq' : 0 <= q <= 65536) by exact Hq.
  assert (Hn' : 0 <= n <= 2147483647) by exact Hn.
  set (m := MkHealthReport 1 "health_report" p g a q n l v).
  destruct l as [|x l], v as [|y v];
    try (destruct Hl as [Hl|Hl]; [discriminate Hl |]);
    begin_transmit HealthReport_schema HealthReport_members HealthReport_of m "health_report";
    change (validate_health_report (marshal_object (HealthReport_members m)) 0 = Ok tt);
    eapply health_report_check; eauto; try (unfold m, HealthReport_members; simpl; set_solver);
    repeat constructor; unfold m, HealthReport_members; simpl; set_solver.
Qed.

(** ** What acceptance guarantees *)

Lemma fields_of fs data m : decodeControlStrict fs data = Ok m -> Control_fields fs data = Some m.
Proof. unfold Control_fields. by intros ->. Qed.

Lemma bad_envelope_false v k want : bad_envelope v k want = false -> v = 1 /\ k = want.
Proof. unfold bad_envelope, ProtocolVersion. intros H. by bool_facts. Qed.

Lemma stream_scope_inv sid : streamScope sid = Ok tt -> sid <> 0.
Proof. unfold streamScope. intros H. inv_ok. by bool_facts. Qed.

Lemma session_scope_inv sid : sessionScope sid = Ok tt -> sid = 0.
Proof. unfold sessionScope. intros H. inv_ok. by bool_facts. Qed.

(** Turns a successful case into the facts [message_wf] asks for. *)
Ltac accepted_facts :=
  inv_ok;
  repeat match goal with
  | H : bad_envelope _ _ _ = false |- _ => apply bad_envelope_false in H as [? ?]
  | H : sessionScope _ = Ok tt |- _ => apply session_scope_inv in H
  | H : streamScope _ = Ok tt |- _ => apply stream_scope_inv in H
  | H : validate_ids _ = Ok tt |- _ =>
      apply validate_ids_Ok in H; rewrite ?Forall_cons in H; simpl in H
  | H : validateID _ _ = Ok tt |- _ => apply validateID_Ok in H
  | H : validateRawBase64Length _ _ _ = Ok tt |- _ => apply validateRawBase64Length_Ok in H
  | H : parseUTCTime _ _ = Ok _ |- _ => apply parseUTCTime_Ok in H
  | H : decodeControlStrict _ _ = Ok _ |- _ => apply fields_of in H
  | H : negb (oneOfStrings _ _) = false |- _ => apply negb_false_iff, oneOfStrings_in in H
  | H : _ /\ _ |- _ => destruct H
  end;
  match goal with H : Control_fields _ _ = Some ?f |- _ => rename f into fields end.

Lemma rune_count_from_nonneg bs k : 0 <= rune_count_from bs k.
Proof.
  revert k. induction bs as [|b r IH]; intros k; [done |]. cbn [rune_count_from].
  destruct k as [|k]; [| apply IH]. destruct (rune_width (b :: r)) as [n|].
  - specialize (IH (pred n)). lia.
  - specialize (IH O). lia.
Qed.

Lemma rune_count_nonneg s : 0 <= rune_count_in_string s.
Proof. apply rune_count_from_nonneg. Qed.

Definition accepts (data : bytes) (streamID : Z) (at_ : instant) : Prop :=
  exists msg, decodes_to data msg /\ message_wf msg at_ /\ in_scope msg streamID.

(** Names the message an accepted payload decodes to. *)
Ltac accept_as mk :=
  match goal with
  | H : Control_fields _ _ = Some ?f |- _ =>
      let msg := eval cbv beta in (mk f) in
      exists msg; split; [simpl; by rewrite H |]; split; [simpl | done]
  end.

Lemma sound_client_hello data sid at_ :
  validate_client_hello data sid = Ok tt -> accepts data sid at_.
Proof.
  unfold validate_client_hello, DecodeClientHello. intros H. accepted_facts.
  accept_as (fun f => MsgClientHello (ClientHello_of f)). apply negb_false_iff in E4. naive_solver.
Qed.

Lemma sound_server_challenge data sid at_ :
  validate_server_challenge data sid at_ = Ok tt -> accepts data sid at_.
Proof.
  unfold validate_server_challenge, DecodeServerChallenge. intros H. accepted_facts.
  accept_as (fun f => MsgServerChallenge (ServerChallenge_of f)).
  unfold before in *. bool_facts. naive_solver.
Qed.

Lemma sound_client_auth data sid at_ :
  validate_client_auth data sid = Ok tt -> accepts data sid at_.
Proof.
  unfold validate_client_auth, DecodeClientAuth. intros H. accepted_facts.
  accept_as (fun f => MsgClientAuth (ClientAuth_of f)). naive_solver.
Qed.

Lemma sound_session_ready data sid at_ :
  validate_session_ready data sid = Ok tt -> accepts data sid at_.
Proof.
  unfold validate_session_ready. intros H. accepted_facts.
  accept_as (fun f => MsgSessionReady (SessionReady_of f)).
  bool_facts. rewrite i64_id in * by (unfold is_i64; lia).
  split_and!; try done; lia.
Qed.

Lemma sound_heartbeat data sid kind at_ :
  kind = "ping" \/ kind = "pong" ->
  validate_heartbeat data sid kind = Ok tt -> accepts data sid at_.
Proof.
  unfold validate_heartbeat, nonempty. intros [-> | ->] H; simpl in H; accepted_facts;
    accept_as (fun f => MsgHeartbeat (Heartbeat_of f)); bool_facts; unfold stamp_ok; naive_solver.
Qed.

Lemma sound_health_report data sid at_ :
  validate_health_report data sid = Ok tt -> accepts data sid at_.
Proof.
  unfold validate_health_report. intros H. accepted_facts.
  accept_as (fun f => MsgHealthReport (HealthReport_of f)).
  bool_facts. unfold stamp_ok, text_ok.
  assert (Hl : hr_last_reconnect_at (HealthReport_of fields) = EmptyString \/
               exists t, parse_rfc3339 (hr_last_reconnect_at (HealthReport_of fields)) = Some t).
  { unfold when, nonempty in *. destruct (String.eqb _ EmptyString) eqn:En; bool_facts; [by left | right].
    simpl in *.
    match goal with H : (let? _ := _ in _) = Ok _ |- _ => apply rbind_Ok in H as (t & Ht & _) end.
    apply parseUTCTime_Ok in Ht. eauto. }
  pose proof (rune_count_nonneg (hr_agent_version (HealthReport_of fields))).
  split_and!; eauto; lia.
Qed.

Lemma sound_stream_open data sid at_ :
  validate_stream_open data sid = Ok tt -> accepts data sid at_.
Proof.
  unfold validate_stream_open, nonempty. intros H. accepted_facts.
  accept_as (fun f => MsgStreamOpen (StreamOpen_of f)).
  assert (Hm : so_mode (StreamOpen_of fields) ∈ [EmptyString; "http"; "tcp"; "udp"]).
  { bool_facts. apply elem_of_cons. destruct H as [H|H]; bool_facts; [by left | right].
    by apply oneOfStrings_in. }
  naive_solver.
Qed.

Lemma sound_stream_half_close data sid at_ :
  validate_stream_half_close data sid = Ok tt -> accepts data sid at_.
Proof.
  unfold validate_stream_half_close. intros H. accepted_facts.
  by accept_as (fun f => MsgStreamHalfClose (StreamHalfClose_of f)).
Qed.

Lemma sound_stream_window_update data sid at_ :
  validate_stream_window_update data sid = Ok tt -> accepts data sid at_.
Proof.
  unfold validate_stream_window_update. intros H. accepted_facts.
  accept_as (fun f => MsgStreamWindowUpdate (StreamWindowUpdate_of f)). bool_facts. done.
Qed.

Lemma sound_stream_close data sid at_ :
  validate_stream_close data sid = Ok tt -> accepts data sid at_.
Proof.
  unfold validate_stream_close. intros H. accepted_facts.
  by accept_as (fun f => MsgStreamClose (StreamClose_of f)).
Qed.

Lemma sound_stream_error data sid at_ :
  validate_stream_error data sid = Ok tt -> accepts data sid at_.
Proof.
  unfold validate_stream_error. intros H. accepted_facts.
  accept_as (fun f => MsgStreamError (StreamError_of f)). bool_facts. unfold text_ok.
  pose proof (rune_count_nonneg (se_message (StreamError_of fields))). split_and!; try done; simpl in *; lia.
Qed.

Lemma sound_session_revoked data sid at_ :
  validate_session_revoked data sid = Ok tt -> accepts data sid at_.
Proof.
  unfold validate_session_revoked. intros H. accepted_facts.
  by accept_as (fun f => MsgSessionRevoked (SessionRevoked_of f)).
Qed.

Lemma sound_resume_session data sid at_ :
  validate_resume_session data sid = Ok tt -> accepts data sid at_.
Proof.
  unfold validate_resume_session. intros H. accepted_facts.
  accept_as (fun f => MsgResumeSession (ResumeSession_of f)). unfold stamp_ok. naive_solver.
Qed.

(** A [uint64] member decodes to a [uint64]. *)
Lemma decoded_field (P : string -> field_val -> Prop) fs strict ms acc m :
  (forall name k v x, In (name, k) fs -> store k v = Some (Some x) ->
     forall old, P name (assign old x)) ->
  (forall name x, acc !! name = Some x -> P name x) ->
  decode_members fs strict ms acc = Some m ->
  forall name x, m !! name = Some x -> P name x.
Proof.
  intros Hst. revert acc. induction ms as [|[key v] ms IH]; intros acc Hacc Hd; cbn [decode_members] in Hd.
  { by injection Hd as <-. }
  destruct (find_field fs key) as [[name k]|] eqn:Ef; [| destruct strict; [done | by apply (IH acc)]].
  assert (Hin : In (name, k) fs).
  { unfold find_field in Ef. destruct (List.find (fun f => String.eqb f.1 key) fs) eqn:E1.
    - simplify_eq. by apply find_some in E1 as [? _].
    - by apply find_some in Ef as [? _]. }
  destruct (store k v) as [[x|]|] eqn:Es; [| by apply (IH acc) | done].
  apply (IH (<[name := assign (acc !! name) x]> acc)); [| done]. intros n y Hy.
  destruct (decide (n = name)) as [->|Hne].
  - rewrite lookup_insert_eq in Hy. injection Hy as <-. eapply Hst; eauto.
  - rewrite lookup_insert_ne in Hy by done. by apply Hacc.
Qed.

Lemma next_sequence_u64 data m :
  Control_fields SessionResumed_schema data = Some m -> 0 <= get_int m "next_sequence" < 2 ^ 64.
Proof.
  unfold Control_fields, decodeControlStrict, decodeStrict. intros H.
  destruct (validateStrictJSONObject data); [| done]. simpl in H.
  destruct (parse_document data) as [v|]; [| done].
  destruct (decode_struct SessionResumed_schema true v) as [m'|] eqn:E; [| done]. injection H as ->.
  unfold get_int. destruct (m !! "next_sequence") as [x|] eqn:Ex; [| lia].
  assert (Hx : "next_sequence" = "next_sequence" -> forall z, x = FInt z -> 0 <= z < 2 ^ 64);
    [| destruct x; try lia; by apply Hx].
  destruct v; try done; [simpl in E; simplify_eq |].
  revert x Ex. generalize "next_sequence" at 1 2. intros name x Ex.
  eapply (decoded_field (fun n x => n = "next_sequence" -> forall z, x = FInt z -> 0 <= z < 2 ^ 64));
    [| | exact E | exact Ex]; [| done].
  clear. intros name k v x Hin Hst old -> z Ez. simpl in Hin.
  assert (k = KUint64) as -> by (repeat destruct Hin as [Hin|Hin]; by simplify_eq).
  destruct v; try done. simpl in Hst. destruct (parse_uint 64 raw) as [u|] eqn:Eu; [| done].
  injection Hst as <-. simpl in Ez. injection Ez as ->.
  unfold parse_uint, parse_digits in Eu. destruct raw as [|b r]; [done |].
  destruct (digits_val 0 (b :: r)) as [w|] eqn:Ed; [| done].
  destruct (w <? 2 ^ 64) eqn:El; [| done]. simplify_eq. bool_facts.
  split; [by apply (digits_val_nonneg (b :: r) 0) | done].
Qed.

Lemma sound_session_resumed data sid at_ :
  validate_session_resumed data sid = Ok tt -> accepts data sid at_.
Proof.
  unfold validate_session_resumed. intros H. accepted_facts.
  accept_as (fun f => MsgSessionResumed (SessionResumed_of f)). unfold stamp_ok. bool_facts.
  pose proof (next_sequence_u64 _ _ ltac:(eassumption)). simpl in *. naive_solver lia.
Qed.

Lemma sound_message kind data sid at_ :
  validate_message kind data sid at_ = Ok tt -> accepts data sid at_.
Proof.
  unfold validate_message. intros H.
  destruct (String.eqb kind "client_hello"); [by apply sound_client_hello |].
  destruct (String.eqb kind "server_challenge"); [by apply sound_server_challenge |].
  destruct (String.eqb kind "client_auth"); [by apply sound_client_auth |].
  destruct (String.eqb kind "session_ready"); [by apply sound_session_ready |].
  destruct (String.eqb kind "ping" || String.eqb kind "pong") eqn:Ep.
  { apply (sound_heartbeat data sid kind); [| done]. bool_facts. destruct Ep; bool_facts; auto. }
  destruct (String.eqb kind "health_report"); [by apply sound_health_report |].
  destruct (String.eqb kind "stream_open"); [by apply sound_stream_open |].
  destruct (String.eqb kind "stream_half_close"); [by apply sound_stream_half_close |].
  destruct (String.eqb kind "stream_window_update"); [by apply sound_stream_window_update |].
  destruct (String.eqb kind "stream_close"); [by apply sound_stream_close |].
  destruct (String.eqb kind "stream_error"); [by apply sound_stream_error |].
  destruct (String.eqb kind "session_revoked"); [by apply sound_session_revoked |].
  destruct (String.eqb kind "resume_session"); [by apply sound_resume_session |].
  destruct (String.eqb kind "session_resumed"); [by apply sound_session_resumed | done].
Qed.

(** C38: every contract-shaped control message a peer marshals, sent on the
    stream scope its type requires, passes [ValidateControlPayload] at the
    receiver and decodes to the very struct that was sent. *)
Theorem control_roundtrip msg streamID at_ :
  message_wf msg at_ -> message_sendable msg -> in_scope msg streamID ->
  ValidateControlPayload (marshal_message msg) streamID at_ = Ok tt /\
  decodes_to (marshal_message msg) msg.
Proof.
  change (message_wf msg at_ -> message_sendable msg -> in_scope msg streamID ->
          transmits msg streamID at_).
  intros Hwf Htx Hsc. destruct msg; unfold in_scope in Hsc; simpl stream_scoped in Hsc; cbn iota in Hsc;
    try subst streamID.
  - by apply transmit_client_hello.
  - by apply transmit_server_challenge.
  - by apply transmit_client_auth.
  - by apply transmit_session_ready.
  - by apply transmit_heartbeat.
  - by apply transmit_health_report.
  - by apply transmit_stream_open.
  - by apply transmit_stream_half_close.
  - by apply transmit_stream_window_update.
  - by apply transmit_stream_close.
  - by apply transmit_stream_error.
  - by apply transmit_session_revoked.
  - by apply transmit_resume_session.
  - by apply transmit_session_resumed.
Qed.

Lemma control_roundtrip_witness :
  let msg := MsgStreamWindowUpdate (MkStreamWindowUpdate 1 "stream_window_update" 65536) in
  ValidateControlPayload (marshal_message msg) 3 0 = Ok tt /\ decodes_to (marshal_message msg) msg.
Proof.
  intros msg. apply (control_roundtrip msg 3 0); [| done | done].
  unfold message_wf, msg. cbn. split_and!; done.
Defined.


Lemma validated_accepts data streamID at_ :
  ValidateControlPayload data streamID at_ = Ok tt ->
  exists msg, decodes_to data msg /\ message_wf msg at_ /\ in_scope msg streamID.
Proof.
  intros H. unfold ValidateControlPayload in H. inv_ok. by eapply sound_message.
Qed.

(** Whatever [ValidateControlPayload] accepts is one of the fourteen
    contract messages: the payload decodes to a message that meets the bounds of
    the contract (identifiers, canonical base64url lengths, timestamps, numeric
    ranges, the credit bound), on the stream scope of its type. *)
Theorem control_sound data streamID at_ :
  ValidateControlPayload data streamID at_ = Ok tt ->
  exists msg, decodes_to data msg /\ message_wf msg at_ /\ in_scope msg streamID.
Proof. apply validated_accepts. Qed.

Lemma control_sound_witness :
  exists msg, decodes_to (marshal_message (MsgStreamHalfClose (MkStreamHalfClose 1 "stream_half_close"))) msg
              /\ message_wf msg 0 /\ in_scope msg 9.
Proof. apply (control_sound _ 9 0). vm_compute. reflexivity. Defined.

(** The presence test of the optional resume challenge compares member names
    exactly, the decoder up to case: a differently cased member fills the field
    without the base64 check. *)
Definition folded_ready : bytes :=
  demo_json ("{'contract_version':1,'message_type':'session_ready','session_id':'sess-1'," +:+
    "'heartbeat_interval_seconds':20,'idle_timeout_seconds':60,'Resume_Challenge':'short'}").

Lemma folded_challenge_unchecked :
  ValidateControlPayload folded_ready 0 0 = Ok tt /\
  match decodeControlStrict SessionReady_schema folded_ready with
  | Ok f => sr_resume_challenge (SessionReady_of f) = "short"
  | Err _ => False
  end.
Proof. vm_compute. split; reflexivity. Qed.
