(* ===== verification/ControlSize.v ===== *)
(** * ControlSize: every contract message fits in one control frame

    The identifiers, tokens, nonces, stamps and texts the contract allows are
    short, and the JSON encoder at most multiplies a string's length by six:
    whatever [sendControl] marshals of the fourteen messages stays below
    [MaxControlPayload], so the frame encoder never refuses it. *)

From S2P Require Import Prelude GoText GoTime Json StrictJson JsonMarshal Frame Contract Control ControlCodec.

(** ** Lengths *)

Lemma quote_ascii_length b : (length (quote_ascii b) <= 6)%nat.
Proof. unfold quote_ascii. repeat case_match; cbn; lia. Qed.

Lemma quote_bytes_length n : forall bs, (length bs <= n)%nat -> (length (quote_bytes bs) <= 6 * length bs)%nat.
Proof.
  induction n as [|n IH]; intros [|b r] Hn; cbn [length] in Hn; try lia; [cbn; lia.. |]. cbn [quote_bytes].
  destruct (bz b <? 128).
  - rewrite length_app. pose proof (quote_ascii_length b). specialize (IH r ltac:(lia)). cbn [length]. lia.
  - assert (Hd : (length (bytes_of "\ufffd" ++ quote_bytes r) <= 6 * length (b :: r))%nat).
    { rewrite length_app. specialize (IH r ltac:(lia)). change (length (bytes_of "\ufffd")) with 6%nat. cbn [length]. lia. }
    destruct (rune_width (b :: r)) as [[|[|[|[|[|w]]]]]|]; try exact Hd.
    + destruct r as [|x r1]; [exact Hd |]. cbn [length] in *. specialize (IH r1 ltac:(lia)). lia.
    + destruct r as [|x [|y r1]]; try exact Hd. cbn [length] in *. specialize (IH r1 ltac:(lia)).
      destruct (is_line_separator b x y); [| cbn [length]; lia].
      rewrite length_app. change (length (bytes_of "\u202")) with 5%nat. cbn [length]. lia.
    + destruct r as [|x [|y [|z r1]]]; try exact Hd. cbn [length] in *. specialize (IH r1 ltac:(lia)). lia.
Qed.

Lemma marshal_string_size s : zlen (marshal_string s) <= 2 + 6 * slen s.
Proof.
  unfold marshal_string. rewrite zlen_cons, zlen_app, slen_bytes. unfold zlen.
  pose proof (quote_bytes_length (length (bytes_of s)) (bytes_of s) (le_n _)). cbn [length]. lia.
Qed.

Lemma dec_digits_length f : forall n, (length (dec_digits f n) <= f)%nat.
Proof.
  induction f as [|f IH]; intros n; cbn [dec_digits]; [done |]. destruct (n <? 10); [cbn; lia |].
  rewrite length_app. specialize (IH (n / 10)). cbn [length]. lia.
Qed.

(** A value of at most [n] bytes. *)
Definition value_small (n : Z) (v : marshal_val) : Prop :=
  match v with MString s => slen s <= n | _ => True end.

Lemma marshal_value_size n v : 4 <= n -> value_small n v -> zlen (marshal_value v) <= 2 + 6 * n.
Proof.
  intros Hn. destruct v as [s|z|b]; cbn [marshal_value value_small].
  - pose proof (marshal_string_size s). lia.
  - intros _. unfold show_int, show_uint. unfold zlen.
    pose proof (dec_digits_length 20 z). pose proof (dec_digits_length 20 (- z)). case_match; cbn [length]; lia.
  - intros _. destruct b; unfold zlen; cbn; lia.
Qed.

Definition member_small (n : Z) (m : string * marshal_val) : Prop := slen m.1 <= 32 /\ value_small n m.2.

Lemma marshal_members_size n ms :
  4 <= n -> Forall (member_small n) ms -> zlen (marshal_members ms) <= Z.of_nat (length ms) * (6 * n + 198).
Proof.
  intros Hn H. induction H as [|m ms [Hk Hv] _ IH]; [done |].
  assert (Hm : zlen (marshal_member m) <= 6 * n + 197).
  { unfold marshal_member. rewrite zlen_app, zlen_cons.
    pose proof (marshal_string_size m.1). pose proof (marshal_value_size n m.2 Hn Hv). lia. }
  destruct ms as [|m' r]; [cbn [marshal_members length]; lia |].
  change (marshal_members (m :: m' :: r)) with (marshal_member m ++ ","%byte :: marshal_members (m' :: r)).
  rewrite zlen_app, zlen_cons. cbn [length] in *. lia.
Qed.

Lemma marshal_object_fits ms :
  (length ms <= 10)%nat -> Forall (member_small 1024) ms -> zlen (marshal_object ms) <= MaxControlPayload.
Proof.
  intros Hl H. unfold marshal_object, MaxControlPayload. rewrite zlen_cons, zlen_app, zlen_cons, zlen_nil.
  pose proof (marshal_members_size 1024 ms ltac:(lia) H). lia.
Qed.

(** ** The fields the contract bounds *)

Lemma id_ok_length s : id_ok s -> slen s <= 64.
Proof.
  unfold id_ok, idPattern. rewrite slen_bytes. destruct (bytes_of s) as [|b r]; [cbn; lia |]. intros H. bool_facts.
  rewrite zlen_cons. lia.
Qed.

Lemma token_length s : tokenPattern s = true -> slen s <= 512.
Proof. unfold tokenPattern. intros H. bool_facts. lia. Qed.

Lemma b64_encode_length n : forall bs, (length bs <= n)%nat -> (length (b64_encode bs) <= 2 * length bs)%nat.
Proof.
  induction n as [|n IH]; intros [|a [|b [|c r]]] Hn; cbn [length b64_encode] in *; try lia.
  specialize (IH r ltac:(lia)). lia.
Qed.

Lemma b64_ok_length n s : b64_ok n s -> slen s <= 2 * n.
Proof.
  intros (raw & <- & ->). rewrite slen_bytes. unfold b64_encode_string, zlen. rewrite bytes_of_string_of.
  pose proof (b64_encode_length (length raw) raw (le_n _)). lia.
Qed.

Lemma utc_fraction_length bs ns : utc_fraction bs = Some ns -> (length bs <= 11)%nat.
Proof.
  destruct bs as [|b r]; [done |]. cbn [utc_fraction length]. destruct (Byte.eqb b "Z"%byte).
  - destruct r; [cbn; lia | done].
  - destruct (Byte.eqb b "."%byte); [| done]. rewrite <- (length_rev r). destruct (rev r) as [|z rd]; [done |].
    destruct (Byte.eqb z "Z"%byte && (zlen (rev rd) <=? 9)) eqn:E; [| done]. bool_facts. unfold zlen in *.
    rewrite length_rev in *. cbn [length]. lia.
Qed.

Lemma stamp_length s : stamp_ok s -> slen s <= 30.
Proof.
  intros [t H]. unfold parse_rfc3339 in H. destruct (utc_fields (bytes_of s)) as [u|] eqn:E; [| done]. clear H.
  rewrite slen_bytes. unfold zlen. revert E. destruct (bytes_of s) as [|b1 [|b2 [|b3 [|b4 [|b5 [|b6 [|b7 [|b8 [|b9 [|b10
    [|b11 [|b12 [|b13 [|b14 [|b15 [|b16 [|b17 [|b18 [|b19 frac]]]]]]]]]]]]]]]]]]]; try done.
  cbn [utc_fields]. case_match; [| done]. destruct (utc_fraction frac) as [ns|] eqn:Ef; [| done]. intros _.
  apply utc_fraction_length in Ef. cbn [length]. lia.
Qed.

Lemma rune_width_le bs n : rune_width bs = Some n -> (1 <= n <= 4)%nat.
Proof. unfold rune_width. repeat case_match; intros [= <-]; lia. Qed.

Lemma rune_count_length bs : forall skip, Z.of_nat (length bs) <= Z.of_nat skip + 4 * rune_count_from bs skip.
Proof.
  induction bs as [|b r IH]; intros skip; cbn [rune_count_from length]; [lia |]. destruct skip as [|k].
  - destruct (rune_width (b :: r)) as [n|] eqn:E; [apply rune_width_le in E |].
    + specialize (IH (pred n)). lia.
    + specialize (IH 0%nat). lia.
  - specialize (IH k). lia.
Qed.

Lemma text_length lo hi s : text_ok lo hi s -> slen s <= 4 * hi.
Proof.
  unfold text_ok, rune_count_in_string. intros [_ H]. rewrite slen_bytes. unfold zlen.
  pose proof (rune_count_length (bytes_of s) 0). lia.
Qed.

Lemma listed_length s l n : s ∈ l -> Forall (fun x => slen x <= n) l -> slen s <= n.
Proof. intros H Hl. rewrite Forall_forall in Hl. by apply Hl. Qed.

Ltac small_text :=
  first [ vm_compute; discriminate
        | match goal with
          | H : id_ok ?s |- slen ?s <= _ => apply id_ok_length in H; lia
          | H : tokenPattern ?s = true |- slen ?s <= _ => apply token_length in H; lia
          | H : b64_ok _ ?s |- slen ?s <= _ => apply b64_ok_length in H; lia
          | H : stamp_ok ?s |- slen ?s <= _ => apply stamp_length in H; lia
          | H : parse_rfc3339 ?s = Some _ |- slen ?s <= _ => assert (stamp_ok s) as Hst%stamp_length by (by eexists); lia
          | H : text_ok _ _ ?s |- slen ?s <= _ => apply text_length in H; lia
          | H : ?s ∈ _ |- slen ?s <= _ =>
              eapply (listed_length s); [exact H |]; repeat constructor; vm_compute; discriminate
          end ].

Ltac small_member := split; [vm_compute; discriminate |]; cbn [snd value_small]; first [exact I | small_text].

Ltac open_members :=
  unfold SessionReady_members, Heartbeat_members, HealthReport_members,
    StreamOpen_members, ClientHello_members, ServerChallenge_members, ClientAuth_members, StreamHalfClose_members,
    StreamWindowUpdate_members, StreamClose_members, StreamError_members, SessionRevoked_members,
    ResumeSession_members, SessionResumed_members.

Lemma omitempty_small key s : slen key <= 32 -> slen s <= 1024 -> Forall (member_small 1024) (omitempty key s).
Proof. intros Hk Hs. unfold omitempty. destruct (nonempty s); by repeat constructor. Qed.

Lemma omitempty_length key s : (length (omitempty key s) <= 1)%nat.
Proof. unfold omitempty. by case_match; cbn; lia. Qed.

Lemma message_small msg at_ :
  message_wf msg at_ -> message_sendable msg -> Forall (member_small 1024) (message_members msg).
Proof.
  intros Hw Hs. destruct msg as [m|m|m|m|m|m|m|m|m|m|m|m|m|m]; destruct m; cbn in Hw, Hs;
    repeat match goal with
    | H : _ /\ _ |- _ => destruct H
    | H : _ \/ _ |- _ => destruct H
    | H : exists _, _ |- _ => destruct H
    end; subst; cbn [message_members]; open_members; cbn;
    repeat first
      [ apply Forall_nil_2
      | apply Forall_cons_2; [small_member |]
      | apply Forall_app; split
      | apply omitempty_small; [vm_compute; discriminate | small_text] ].
Qed.

Lemma message_count msg : (length (message_members msg) <= 10)%nat.
Proof.
  destruct msg; cbn [message_members]; open_members; rewrite ?length_app; cbn [length];
      repeat match goal with |- context [length (omitempty ?k ?s)] =>
        pose proof (omitempty_length k s); generalize dependent (length (omitempty k s)); intros end; lia.
Qed.

(** Every control message the contract allows fits in one control frame: what json.Marshal makes of any of the fourteen messages, with every identifier, token, nonce, signature, stamp and free text as long as the contract lets it be and every byte escaped, is within the 64 KiB of a control payload, so the frame encoder never refuses a valid message for its size. *)
Theorem control_message_fits msg at_ :
  message_wf msg at_ -> message_sendable msg -> zlen (marshal_message msg) <= MaxControlPayload.
Proof.
  intros Hw Hs. unfold marshal_message. apply marshal_object_fits.
  - apply message_count.
  - by apply message_small with at_.
Qed.

Lemma control_message_fits_witness :
  zlen (marshal_message (MsgStreamWindowUpdate (MkStreamWindowUpdate 1 "stream_window_update" 65536))) <= MaxControlPayload.
Proof. apply (control_message_fits _ 0); [| exact I]. unfold message_wf. cbn. split_and!; done. Defined.
