(* ===== verification/ContractV2.v ===== *)
(** * ContractV2: service endpoints and connector grants

    [internal/contractv2]: the two version 2 records of the Control Panel, the
    package's own strict JSON walk (which also returns the members it saw), and
    its canonical IPv4 network and timestamp checks. *)

From S2P Require Import Prelude GoText GoTime Json StrictJson JsonMarshal Frame Contract Control ControlCodec.

Definition ProtocolVersion2 : Z := 2.
Definition MaxConnectorGrantConnections : Z := 16.

(** ** The strict walk *)

Definition err_json : error := ErrMsg "JSON token error".

Fixpoint consumeObject (fuel : nat) (d : decoder) (members : gmap string jtoken)
  : result (gmap string jtoken * decoder) :=
  match fuel with
  | O => Err err_fuel
  | S f =>
    if dec_more d then
      match dec_token d with
      | TokOk (JString key) d1 =>
        match members !! key with
        | Some _ => Err (ErrMsg ("duplicate JSON object member name: " +:+ key))
        | None =>
          match dec_token d1 with
          | TokOk value d2 =>
            match consumeValue f d2 value with
            | Ok d3 => consumeObject f d3 (<[key := value]> members)
            | Err e => Err e
            end
          | _ => Err err_json
          end
        end
      | TokOk _ _ => Err (ErrMsg "JSON object member name must be a string")
      | _ => Err err_json
      end
    else
      match dec_token d with
      | TokOk (JDelim RBrace) d1 => Ok (members, d1)
      | TokOk _ _ => Err (ErrMsg "invalid JSON object close")
      | _ => Err err_json
      end
  end
with consumeValue (fuel : nat) (d : decoder) (t : jtoken) : result decoder :=
  match t with
  | JDelim dl =>
    match fuel with
    | O => Err err_fuel
    | S f =>
      match dl with
      | LBrace => let? p := consumeObject f d ∅ in Ok p.2
      | LBrack => consume_items f d
      | _ => Err (ErrMsg "unexpected JSON delimiter")
      end
    end
  | _ => Ok d
  end
with consume_items (fuel : nat) (d : decoder) : result decoder :=
  match fuel with
  | O => Err err_fuel
  | S f =>
    if dec_more d then
      match dec_token d with
      | TokOk item d1 =>
        match consumeValue f d1 item with
        | Ok d2 => consume_items f d2
        | Err e => Err e
        end
      | _ => Err err_json
      end
    else
      match dec_token d with
      | TokOk (JDelim RBrack) d1 => Ok d1
      | TokOk _ _ => Err (ErrMsg "invalid JSON array close")
      | _ => Err err_json
      end
  end.

Definition validateStrictJSONObject2 (data : bytes) : result unit :=
  reject_if (negb (utf8_valid data)) (ErrMsg "JSON payload is not valid UTF-8") ;?
  match dec_token (new_decoder data) with
  | TokOk (JDelim LBrace) d =>
    let? p := consumeObject (walk_fuel data) d ∅ in
    match dec_token p.2 with
    | TokEOF => Ok tt
    | _ => Err (ErrMsg "multiple JSON values are not allowed")
    end
  | TokOk _ _ => Err (ErrMsg "JSON payload must be one object")
  | _ => Err (ErrMsg "invalid JSON")
  end.

Fixpoint require_members_each (members : gmap string jtoken) (names : list string) : result unit :=
  match names with
  | [] => Ok tt
  | name :: r =>
    match members !! name with
    | None => Err (ErrMsg (name +:+ " is required by the contract"))
    | Some JNull => Err (ErrMsg (name +:+ " must not be null"))
    | Some _ => require_members_each members r
    end
  end.

Definition requireMembers (data : bytes) (names : list string) : result unit :=
  match dec_token (new_decoder data) with
  | TokOk _ d =>
    let? p := consumeObject (walk_fuel data) d ∅ in
    require_members_each p.1 names
  | _ => Err err_json
  end.

(** [Decode] with unknown fields refused; the walk has already excluded
    anything after the value. *)
Definition decode_record (what : string) (fs : schema) (data : bytes)
  : result (gmap string field_val) :=
  match decodeStrict fs data with
  | Ok m => Ok m
  | Err e => Err (ErrWrap ("decode " +:+ what) e)
  end.

(** ** Canonical values *)

Definition identifierPattern (s : string) : bool := idPattern s.

Fixpoint check_identifiers (ids : list (string * string)) : result unit :=
  match ids with
  | [] => Ok tt
  | (n, v) :: r =>
    reject_if (negb (identifierPattern v)) (ErrMsg (n +:+ " is invalid")) ;? check_identifiers r
  end.

(** [fmt.Sprintf("%x", digest)]. *)
Definition hex_encode (bs : bytes) : bytes :=
  flat_map (fun b => [hex_digit (bz b / 16); hex_digit (bz b mod 16)]) bs.

Definition token_digest_ok (s : string) : bool :=
  match hex_decode (bytes_of s) with
  | Some digest => (zlen digest =? 32) && bool_decide (bytes_of s = hex_encode digest)
  | None => false
  end.

Definition canonicalTimestamp (value : string) : result instant :=
  match go_parse_rfc3339 value with
  | Some parsed =>
    if String.eqb (format_zoned parsed) value && z_utc parsed then Ok (z_instant parsed)
    else Err (ErrMsg "must be a canonical UTC RFC3339 timestamp")
  | None => Err (ErrMsg "must be a canonical UTC RFC3339 timestamp")
  end.

(** [strconv.Atoi] followed by the range test and the [Itoa] comparison. *)
Definition canonical_int (lo hi : Z) (s : bytes) : option Z :=
  match parse_int64 s with
  | Some v => if (lo <=? v) && (v <=? hi) && bool_decide (show_int v = s) then Some v else None
  | None => None
  end.

Fixpoint octets_address (octets : list bytes) (address : Z) : option Z :=
  match octets with
  | [] => Some address
  | o :: r =>
    match canonical_int 0 255 o with
    | Some v => octets_address r (Z.lor (u32 (Z.shiftl address 8)) v)
    | None => None
    end
  end.

Definition canonicalIPv4CIDR (value : bytes) : bool :=
  match split_on "/"%byte value with
  | [addr; plen] =>
    match canonical_int 0 32 plen with
    | Some prefix =>
      let octets := split_on "."%byte addr in
      if negb (Z.of_nat (length octets) =? 4) then false
      else
        match octets_address octets 0 with
        | Some address =>
          if prefix =? 0 then address =? 0
          else
            let mask := u32 (Z.shiftl (2 ^ 32 - 1) (32 - prefix)) in
            Z.land address mask =? address
        | None => false
        end
    | None => false
    end
  | _ => false
  end.

(** ** Service endpoints *)

Record ServiceEndpoint := MkServiceEndpoint {
  se_kind : string;
  se_contract_version : Z;
  se_endpoint_id : string;
  se_owner_device_id : string;
  se_protocol : string;
  se_application_protocol : string;
  se_local_endpoint_id : string;
  se_public_port : Z;
  se_allowed_source_cidrs : list string;
  se_exposure : string;
  se_enabled : bool;
  se_created_at : string;
  se_revision : Z;
}.

#[export] Instance service_endpoint_eq_dec : EqDecision ServiceEndpoint.
Proof. solve_decision. Defined.

Definition ServiceEndpoint_schema : schema :=
  [("kind", KString); ("contract_version", KInt); ("endpoint_id", KString);
   ("owner_device_id", KString); ("protocol", KString); ("application_protocol", KString);
   ("local_endpoint_id", KString); ("public_port", KInt); ("allowed_source_cidrs", KStrings);
   ("exposure", KString); ("enabled", KBool); ("created_at", KString); ("revision", KUint64)].

Definition ServiceEndpoint_of (m : gmap string field_val) : ServiceEndpoint :=
  MkServiceEndpoint (get_string m "kind") (get_int m "contract_version")
    (get_string m "endpoint_id") (get_string m "owner_device_id") (get_string m "protocol")
    (get_string m "application_protocol") (get_string m "local_endpoint_id")
    (get_int m "public_port") (get_strings m "allowed_source_cidrs") (get_string m "exposure")
    (get_bool m "enabled") (get_string m "created_at") (get_int m "revision").

(** The CIDR loop with its set of entries seen. *)
Fixpoint check_cidrs (cidrs : list string) (seen : gset string) : result unit :=
  match cidrs with
  | [] => Ok tt
  | raw :: r =>
    reject_if (negb (canonicalIPv4CIDR (bytes_of raw)))
      (ErrMsg ("allowed_source_cidrs entry must be a canonical IPv4 network CIDR: " +:+ raw)) ;?
    reject_if (bool_decide (raw ∈ seen))
      (ErrMsg ("allowed_source_cidrs entry is duplicated: " +:+ raw)) ;?
    check_cidrs r ({[raw]} ∪ seen)
  end.

Definition public_port_protocol (record : ServiceEndpoint) : bool :=
  (String.eqb (se_protocol record) "tcp" || String.eqb (se_protocol record) "udp") &&
  (String.eqb (se_exposure record) "public" || String.eqb (se_exposure record) "both").

Definition ValidateServiceEndpoint (record : ServiceEndpoint) : result unit :=
  reject_if (negb (String.eqb (se_kind record) "service_endpoint"))
    (ErrMsg "kind must be service_endpoint") ;?
  reject_if (negb (se_contract_version record =? ProtocolVersion2))
    (ErrMsg "contract_version must be 2") ;?
  check_identifiers [("endpoint_id", se_endpoint_id record);
                     ("owner_device_id", se_owner_device_id record);
                     ("local_endpoint_id", se_local_endpoint_id record)] ;?
  reject_if (negb (oneOfStrings (se_protocol record) ["http"; "tcp"; "udp"]))
    (ErrMsg ("protocol is unsupported: " +:+ se_protocol record)) ;?
  reject_if (negb (oneOfStrings (se_exposure record) ["private"; "public"; "both"]))
    (ErrMsg ("exposure is unsupported: " +:+ se_exposure record)) ;?
  (if oneOfStrings (se_application_protocol record) [EmptyString; "generic"] then Ok tt
   else if String.eqb (se_application_protocol record) "rdp" then
     reject_if (negb (String.eqb (se_protocol record) "tcp") ||
                negb (String.eqb (se_exposure record) "private"))
       (ErrMsg "rdp endpoints must use tcp with private exposure")
   else Err (ErrMsg ("application_protocol is unsupported: " +:+ se_application_protocol record))) ;?
  (let cidrs := se_allowed_source_cidrs record in
   let count := Z.of_nat (length cidrs) in
   if public_port_protocol record then
     reject_if ((se_public_port record <? 1024) || (65535 <? se_public_port record))
       (ErrMsg "public TCP/UDP endpoints require public_port between 1024 and 65535") ;?
     reject_if ((count <? 1) || (16 <? count))
       (ErrMsg "public TCP/UDP endpoints require 1..16 allowed_source_cidrs") ;?
     check_cidrs cidrs ∅
   else
     reject_if (negb (se_public_port record =? 0) || negb (count =? 0))
       (ErrMsg "public_port and allowed_source_cidrs are valid only for public TCP/UDP endpoints")) ;?
  match go_parse_rfc3339 (se_created_at record) with
  | Some createdAt =>
    reject_if (negb (String.eqb (format_zoned createdAt) (se_created_at record)))
      (ErrMsg "created_at must be a canonical UTC RFC3339 timestamp")
  | None => Err (ErrMsg "created_at must be a canonical UTC RFC3339 timestamp")
  end ;?
  reject_if ((se_revision record =? 0) || (2 ^ 53 - 1 <? se_revision record))
    (ErrMsg "revision must be between 1 and 9007199254740991").

Definition ParseServiceEndpoint (data : bytes) : result ServiceEndpoint :=
  validateStrictJSONObject2 data ;?
  let? m := decode_record "service endpoint" ServiceEndpoint_schema data in
  let record := ServiceEndpoint_of m in
  requireMembers data ["kind"; "contract_version"; "endpoint_id"; "owner_device_id"; "protocol";
    "local_endpoint_id"; "exposure"; "enabled"; "created_at"; "revision"] ;?
  ValidateServiceEndpoint record ;?
  Ok record.

(** ** Connector grants *)

Record ConnectorGrant := MkConnectorGrant {
  cg_kind : string;
  cg_contract_version : Z;
  cg_grant_id : string;
  cg_endpoint_id : string;
  cg_token_id : string;
  cg_token_sha256 : string;
  cg_not_before : string;
  cg_expires_at : string;
  cg_disabled : bool;
  cg_max_connections : Z;
}.

#[export] Instance connector_grant_eq_dec : EqDecision ConnectorGrant.
Proof. solve_decision. Defined.

Definition ConnectorGrant_schema : schema :=
  [("kind", KString); ("contract_version", KInt); ("grant_id", KString); ("endpoint_id", KString);
   ("token_id", KString); ("token_sha256", KString); ("not_before", KString);
   ("expires_at", KString); ("disabled", KBool); ("max_connections", KInt)].

Definition ConnectorGrant_of (m : gmap string field_val) : ConnectorGrant :=
  MkConnectorGrant (get_string m "kind") (get_int m "contract_version") (get_string m "grant_id")
    (get_string m "endpoint_id") (get_string m "token_id") (get_string m "token_sha256")
    (get_string m "not_before") (get_string m "expires_at") (get_bool m "disabled")
    (get_int m "max_connections").

Definition ConnectorGrant_members (g : ConnectorGrant) : list (string * marshal_val) :=
  [("kind", MString (cg_kind g)); ("contract_version", MInt (cg_contract_version g));
   ("grant_id", MString (cg_grant_id g)); ("endpoint_id", MString (cg_endpoint_id g));
   ("token_id", MString (cg_token_id g)); ("token_sha256", MString (cg_token_sha256 g));
   ("not_before", MString (cg_not_before g)); ("expires_at", MString (cg_expires_at g));
   ("disabled", MBool (cg_disabled g)); ("max_connections", MInt (cg_max_connections g))].

Definition ValidateConnectorGrant (record : ConnectorGrant) : result unit :=
  reject_if (negb (String.eqb (cg_kind record) "connector_grant"))
    (ErrMsg "kind must be connector_grant") ;?
  reject_if (negb (cg_contract_version record =? ProtocolVersion2))
    (ErrMsg "contract_version must be 2") ;?
  check_identifiers [("grant_id", cg_grant_id record); ("endpoint_id", cg_endpoint_id record);
                     ("token_id", cg_token_id record)] ;?
  reject_if (negb (token_digest_ok (cg_token_sha256 record)))
    (ErrMsg "token_sha256 must be 64 lowercase hexadecimal characters") ;?
  let? notBefore := canonicalTimestamp (cg_not_before record) in
  let? expiresAt := canonicalTimestamp (cg_expires_at record) in
  reject_if (negb (before notBefore expiresAt))
    (ErrMsg "not_before must be earlier than expires_at") ;?
  reject_if ((cg_max_connections record <? 1) ||
             (MaxConnectorGrantConnections <? cg_max_connections record))
    (ErrMsg "max_connections must be between 1 and 16").

Definition ParseConnectorGrant (data : bytes) : result ConnectorGrant :=
  validateStrictJSONObject2 data ;?
  let? m := decode_record "connector grant" ConnectorGrant_schema data in
  let record := ConnectorGrant_of m in
  requireMembers data ["kind"; "contract_version"; "grant_id"; "endpoint_id"; "token_id";
    "token_sha256"; "not_before"; "expires_at"; "disabled"; "max_connections"] ;?
  ValidateConnectorGrant record ;?
  Ok record.

(** ** The walk against the version 1 walk *)

Definition ok_of {A} (r : result A) : option A :=
  match r with Ok a => Some a | Err _ => None end.

Definition same_walk (m : nat) : Prop :=
  (forall d t, ok_of (consumeValue m d t) = ok_of (consumeJSONValue m d t)) /\
  (forall d, ok_of (consume_items m d) = ok_of (consumeJSONArray m d)) /\
  (forall d members, snd <$> ok_of (consumeObject m d members)
                     = ok_of (consumeJSONObject m d (dom members))).

(** The two calls in front of the goal return together. *)
Ltac same_call H :=
  let E := fresh "E" in
  pose proof H as E;
  match type of E with
  | ok_of ?a = ok_of ?b => destruct a, b; simpl in E; try done; try (injection E as ->)
  | snd <$> ok_of ?a = ok_of ?b => destruct a as [[]|], b; simpl in E; try done; try (injection E as ->)
  end.

Lemma walks_agree m : same_walk m.
Proof.
  induction m as [|m (HV & HA & HO)]; [split; [by intros ? [] | done] |].
  split; [| split].
  - intros d t. destruct t as [[]| | | |]; cbn [consumeValue consumeJSONValue]; try done.
    pose proof (HO d ∅) as Hd. rewrite dom_empty_L in Hd. by same_call Hd.
  - intros d. cbn [consume_items consumeJSONArray]. destruct (dec_more d).
    + destruct (dec_token d) as [| |t d1]; try done. by same_call (HV d1 t).
    + by destruct (dec_token d) as [| |[[]| | | |] d1].
  - intros d members. cbn [consumeObject consumeJSONObject]. destruct (dec_more d).
    + destruct (dec_token d) as [| |[|key| | |] d1]; try done.
      destruct (members !! key) as [v|] eqn:El.
      { rewrite bool_decide_eq_true_2 by (by apply elem_of_dom_2 in El). done. }
      rewrite bool_decide_eq_false_2 by (by apply not_elem_of_dom).
      destruct (dec_token d1) as [| |t d2]; try done. same_call (HV d2 t).
      rewrite HO. by rewrite dom_insert_L.
    + by destruct (dec_token d) as [| |[[]| | | |] d1].
Qed.

(** The members the walk returns are those [scanTopLevelMembers] collects. *)
Lemma walk_members_scan m d members members' d' :
  consumeObject m d members = Ok (members', d') -> scan_members m d members = Ok members'.
Proof.
  revert d members. induction m as [|m IH]; intros d members; [done |].
  cbn [consumeObject scan_members]. destruct (dec_more d).
  - destruct (dec_token d) as [| |[|key| | |] d1]; try done.
    destruct (members !! key); [done |].
    destruct (dec_token d1) as [| |t d2]; try done.
    destruct (walks_agree m) as (HV & _ & _). same_call (HV d2 t). apply IH.
  - destruct (dec_token d) as [| |[[]| | | |] d1]; try done. by intros [= -> ->].
Qed.

Lemma validate2_iff data :
  validateStrictJSONObject2 data = Ok tt <-> validateStrictJSONObject data = Ok tt.
Proof.
  unfold validateStrictJSONObject2, validateStrictJSONObject.
  destruct (negb (utf8_valid data)); [done |]. cbn [reject_if rbind].
  destruct (dec_token (new_decoder data)) as [| |[[]| | | |] d]; try done.
  destruct (walks_agree (walk_fuel data)) as (_ & _ & HO). specialize (HO d ∅).
  rewrite dom_empty_L in HO.
  destruct (consumeObject _ d ∅) as [[ms d1]|], (consumeJSONObject _ d ∅) as [d2|]; try done.
  injection HO as ->. simpl. by destruct (dec_token d2).
Qed.

Lemma require_members_each_Ok members names :
  require_members_each members names = Ok tt <->
  Forall (fun n => exists t, members !! n = Some t /\ t <> JNull) names.
Proof.
  induction names as [|n r IH]; simpl; [by split |].
  rewrite Forall_cons, <- IH. destruct (members !! n) as [[]|]; naive_solver.
Qed.

Lemma requireMembers_iff data names :
  validateStrictJSONObject2 data = Ok tt ->
  requireMembers data names = Ok tt <-> requirePresent data names = Ok tt.
Proof.
  intros H. unfold requireMembers, requirePresent, scanTopLevelMembers.
  unfold validateStrictJSONObject2 in H. inv_ok.
  destruct (dec_token (new_decoder data)) as [| |[[]| | | |] d]; try done. inv_ok.
  destruct v as [ms d']. rewrite E0. apply walk_members_scan in E0. rewrite E0. simpl.
  by rewrite require_members_each_Ok, require_each_Ok.
Qed.

(** [contractv2] walks JSON like [contractv1]: its
    [validateStrictJSONObject] accepts exactly the same payloads, and on an
    accepted payload [requireMembers] succeeds exactly when every listed name
    is a member with a non-null value. *)
Theorem strict_walk_v2 data names :
  (validateStrictJSONObject2 data = Ok tt <-> exists ms, strict_object data ms) /\
  forall ms, strict_object data ms ->
    requireMembers data names = Ok tt <->
    Forall (fun n => exists v, (n, v) ∈ ms /\ v <> VNull) names.
Proof.
  assert (Hiff : forall ms, strict_object data ms -> validateStrictJSONObject2 data = Ok tt).
  { intros ms (Hu & Hn & Hp). apply validate2_iff. by eapply validate_accepts. }
  split.
  - split; [| by intros [ms Hms]; apply (Hiff ms)]. intros H.
    apply validate2_iff, validate_parses in H as (Hu & ms & [_ Hp] & Hn). exists ms.
    split; [done | split; [done |]]. apply Hp; [unfold parse_fuel; simpl; lia | lia].
  - intros ms Hms. rewrite (requireMembers_iff _ _ (Hiff ms Hms)). by apply requirePresent_iff.
Qed.

Lemma strict_walk_v2_witness :
  let data := "{"%byte :: quote :: "a"%byte :: quote :: ":"%byte :: "1"%byte :: ["}"%byte] in
  strict_object data [("a", VNum ["1"%byte])] /\ requireMembers data ["a"] = Ok tt.
Proof.
  intros data.
  assert (H : strict_object data [("a", VNum ["1"%byte])]).
  { split; [by vm_compute |]. split; [| by vm_compute].
    apply names_unique_obj. split; [| by repeat constructor].
    apply NoDup_singleton. }
  split; [exact H |].
  destruct (strict_walk_v2 data ["a"]) as [_ Hm]. apply (Hm _ H).
  constructor; [| constructor]. exists (VNum ["1"%byte]). split; [by left | done].
Defined.

(** ** Canonical IPv4 networks *)

(** The printed form of the network [a/p]. *)
Definition octets (a : Z) : list Z :=
  [a / 2 ^ 24; a / 2 ^ 16 mod 256; a / 2 ^ 8 mod 256; a mod 256].

Definition show_cidr (a p : Z) : bytes :=
  join_with "."%byte (show_uint <$> octets a) ++ "/"%byte :: show_uint p.

(** A 32-bit address whose bits beyond the prefix are zero. *)
Definition is_network (n : Z * Z) : Prop :=
  is_u32 n.1 /\ 0 <= n.2 <= 32 /\ n.1 mod 2 ^ (32 - n.2) = 0.

Lemma canonical_int_iff lo hi s v :
  0 <= lo -> hi < 2 ^ 63 ->
  canonical_int lo hi s = Some v <-> lo <= v <= hi /\ s = show_uint v.
Proof.
  intros Hlo Hhi. unfold canonical_int, show_int. split.
  - destruct (parse_int64 s) as [x|]; [| done].
    destruct ((lo <=? x) && (x <=? hi) && _) eqn:E; [| done]. intros [= <-]. bool_facts.
    rewrite (proj2 (Z.ltb_ge _ _)) in H0 by lia. done.
  - intros [Hv ->]. rewrite parse_int64_show by lia.
    rewrite (proj2 (Z.ltb_ge _ _)) by lia. rewrite bool_decide_eq_true_2 by done.
    by rewrite (proj2 (Z.leb_le lo v)), (proj2 (Z.leb_le v hi)) by lia.
Qed.

Lemma bits_above a m n : 0 <= a < 2 ^ m -> 0 <= m <= n -> Z.testbit a n = false.
Proof.
  intros Ha Hm. destruct (decide (a = 0)) as [->|]; [apply Z.bits_0 |].
  apply Z.bits_above_log2; [lia |]. apply Z.log2_lt_pow2; [lia |].
  apply Z.lt_le_trans with (2 ^ m); [lia |]. apply Z.pow_le_mono_r; lia.
Qed.

Lemma lor_octet x v : 0 <= x < 2 ^ 24 -> 0 <= v < 256 -> Z.lor (u32 (Z.shiftl x 8)) v = x * 256 + v.
Proof.
  intros Hx Hv. unfold u32. rewrite Z.shiftl_mul_pow2 by lia.
  rewrite Z.mod_small by lia. change (2 ^ 8) with 256.
  rewrite <- Z.add_lor_land. enough (Z.land (x * 256) v = 0) by lia.
  apply Z.bits_inj'. intros n Hn. rewrite Z.land_spec, Z.bits_0.
  change 256 with (2 ^ 8). destruct (Z.lt_ge_cases n 8) as [H|H].
  - by rewrite Z.mul_pow2_bits_low.
  - rewrite (bits_above v 8 n) by lia. apply andb_false_r.
Qed.

Lemma network_mask a k : is_u32 a -> 0 <= k <= 32 ->
  Z.land a (u32 (Z.shiftl (2 ^ 32 - 1) k)) = a <-> a mod 2 ^ k = 0.
Proof.
  unfold is_u32, u32. intros Ha Hk.
  assert (Z.land a (Z.shiftl (2 ^ 32 - 1) k mod 2 ^ 32) = Z.shiftl (Z.shiftr a k) k) as ->.
  { rewrite <- Z.land_ones by lia. change (2 ^ 32 - 1) with (Z.ones 32).
    rewrite (Z.shiftl_mul_pow2 (Z.ones 32)) by lia. apply Z.bits_inj'. intros n Hn.
    rewrite !Z.land_spec, Z.shiftl_spec by lia. destruct (Z.lt_ge_cases n k) as [H|H].
    - rewrite Z.mul_pow2_bits_low, (Z.testbit_neg_r (Z.shiftr a k)) by lia. by rewrite andb_false_r.
    - rewrite Z.mul_pow2_bits, Z.shiftr_spec by lia. replace (n - k + k) with n by lia.
      destruct (Z.lt_ge_cases n 32) as [H'|H'].
      + rewrite !Z.ones_spec_low by lia. by rewrite andb_true_r.
      + rewrite (bits_above a 32 n) by lia. done. }
  rewrite Z.shiftl_mul_pow2, Z.shiftr_div_pow2 by lia.
  pose proof (Z.div_mod a (2 ^ k) (Z.pow_nonzero 2 k ltac:(lia) ltac:(lia))). lia.
Qed.

Lemma digits_fresh sep n :
  is_digit sep = false -> 0 <= n ->
  forallb (fun b => negb (Byte.eqb b sep)) (show_uint n) = true.
Proof.
  intros Hs Hn. apply forallb_forall. intros b Hb.
  pose proof (dec_digits_all_digits 20 n Hn) as Hd. rewrite forallb_forall in Hd.
  specialize (Hd b Hb). destruct (Byte.eqb b sep) eqn:E; [| done].
  apply byte_eqb_eq in E as ->. congruence.
Qed.

Lemma octets_bounds a : is_u32 a -> Forall (fun v => 0 <= v <= 255) (octets a).
Proof.
  unfold is_u32, octets. intros Ha.
  pose proof (Z.div_pos a (2 ^ 24) ltac:(lia) ltac:(lia)).
  pose proof (Z.div_lt_upper_bound a (2 ^ 24) 256 ltac:(lia) ltac:(lia)).
  pose proof (Z.mod_pos_bound (a / 2 ^ 16) 256 ltac:(lia)).
  pose proof (Z.mod_pos_bound (a / 2 ^ 8) 256 ltac:(lia)).
  pose proof (Z.mod_pos_bound a 256 ltac:(lia)).
  repeat constructor; lia.
Qed.

Lemma octets_value a : is_u32 a ->
  a = ((a / 2 ^ 24 * 256 + a / 2 ^ 16 mod 256) * 256 + a / 2 ^ 8 mod 256) * 256 + a mod 256.
Proof.
  intros _. change (2 ^ 24) with (2 ^ 16 * 256). change (2 ^ 16) with (2 ^ 8 * 256) at 1 2.
  rewrite <- !Z.div_div by lia. change (2 ^ 8) with 256.
  pose proof (Z.div_mod a 256 ltac:(lia)). pose proof (Z.div_mod (a / 256) 256 ltac:(lia)).
  pose proof (Z.div_mod (a / 256 / 256) 256 ltac:(lia)). lia.
Qed.

Lemma split_address a : is_u32 a ->
  split_on "."%byte (join_with "."%byte (show_uint <$> octets a)) = show_uint <$> octets a.
Proof.
  intros Ha. pose proof (octets_bounds a Ha) as Hb. unfold octets in *.
  rewrite !Forall_cons in Hb. destruct Hb as (? & ? & ? & ? & _).
  cbn [fmap list_fmap join_with].
  rewrite !split_on_app by (apply digits_fresh; [done | lia]).
  by rewrite split_on_fresh by (apply digits_fresh; [done | lia]).
Qed.

Lemma octets_address_step o r address v : 0 <= address < 2 ^ 24 -> 0 <= v <= 255 -> o = show_uint v ->
  octets_address (o :: r) address = octets_address r (address * 256 + v).
Proof.
  intros Ha Hv ->. cbn [octets_address].
  rewrite (proj2 (canonical_int_iff 0 255 _ v ltac:(lia) ltac:(lia))) by done.
  by rewrite lor_octet by lia.
Qed.

Lemma octets_address_show a : is_u32 a -> octets_address (show_uint <$> octets a) 0 = Some a.
Proof.
  intros Ha. pose proof (octets_bounds a Ha) as Hb. pose proof (octets_value a Ha) as Hv.
  unfold octets in *. rewrite !Forall_cons in Hb. destruct Hb as (? & ? & ? & ? & _).
  cbn [fmap list_fmap]. do 4 (erewrite octets_address_step; [| | | reflexivity]; [| lia..]).
  cbn [octets_address]. f_equal. lia.
Qed.

Lemma address_no_slash a : is_u32 a ->
  forallb (fun b => negb (Byte.eqb b "/"%byte)) (join_with "."%byte (show_uint <$> octets a)) = true.
Proof.
  intros Ha. pose proof (octets_bounds a Ha) as Hb. unfold octets in *. rewrite !Forall_cons in Hb.
  destruct Hb as (? & ? & ? & ? & _). cbn [fmap list_fmap join_with].
  repeat (rewrite forallb_app; cbn [forallb]). by rewrite !digits_fresh by (done || lia).
Qed.

Lemma canonical_cidr_show a p : is_network (a, p) -> canonicalIPv4CIDR (show_cidr a p) = true.
Proof.
  intros (Ha & Hp & Hz). simpl in *. unfold canonicalIPv4CIDR, show_cidr.
  pose proof (address_no_slash a Ha) as Hf.
  rewrite split_on_app by done. rewrite split_on_fresh by (apply digits_fresh; [done | lia]).
  rewrite (proj2 (canonical_int_iff 0 32 _ p ltac:(lia) ltac:(lia))) by done.
  rewrite split_address, octets_address_show by done.
  cbn [octets fmap list_fmap length Z.of_nat Z.eqb Pos.of_succ_nat Pos.succ Pos.eqb negb].
  destruct (Z.eqb_spec p 0) as [->|].
  - apply Z.eqb_eq. rewrite Z.sub_0_r, Z.mod_small in Hz by done. done.
  - apply Z.eqb_eq. apply network_mask; [done | lia | done].
Qed.

Lemma octets_address_sound os acc a :
  octets_address os acc = Some a ->
  exists vs, os = show_uint <$> vs /\ Forall (fun v => 0 <= v <= 255) vs.
Proof.
  revert acc. induction os as [|o r IH]; intros acc H; cbn [octets_address] in H.
  { by exists []. }
  destruct (canonical_int 0 255 o) as [v|] eqn:E; [| done].
  apply canonical_int_iff in E as [Hv ->]; [| lia..].
  apply IH in H as (vs & -> & Hvs). exists (v :: vs). split; [done | by constructor].
Qed.

Lemma octets_of_value v0 v1 v2 v3 :
  Forall (fun v => 0 <= v <= 255) [v0; v1; v2; v3] ->
  let a := ((v0 * 256 + v1) * 256 + v2) * 256 + v3 in
  is_u32 a /\ octets a = [v0; v1; v2; v3].
Proof.
  rewrite !Forall_cons. intros (? & ? & ? & ? & _) a. split; [unfold is_u32, a; lia |].
  unfold octets. change (2 ^ 24) with (256 * 256 * 256). change (2 ^ 16) with (256 * 256).
  change (2 ^ 8) with 256. rewrite <- !Z.div_div by lia.
  assert (Hd : forall x y, 0 <= y < 256 -> (x * 256 + y) / 256 = x)
    by (intros x y Hy; symmetry; apply (Z.div_unique _ _ _ y); lia).
  assert (Hm : forall x y, 0 <= y < 256 -> (x * 256 + y) mod 256 = y)
    by (intros x y Hy; symmetry; apply (Z.mod_unique _ _ x); lia).
  unfold a. rewrite !Hd, !Hm by lia. done.
Qed.

Lemma canonical_cidr_sound s :
  canonicalIPv4CIDR s = true -> exists a p, is_network (a, p) /\ s = show_cidr a p.
Proof.
  unfold canonicalIPv4CIDR. pose proof (join_split "/"%byte s) as Hs.
  destruct (split_on "/"%byte s) as [|addr [|plen []]]; try done.
  destruct (canonical_int 0 32 plen) as [p|] eqn:Ep; [| done].
  apply canonical_int_iff in Ep as [Hp ->]; [| lia..].
  pose proof (join_split "."%byte addr) as Haddr. set (os := split_on "."%byte addr) in *.
  destruct (_ =? 4) eqn:El; [| done]. bool_facts. cbn [negb].
  destruct (octets_address os 0) as [a|] eqn:Ea; [| done]. intros H.
  pose proof Ea as Ea'. apply octets_address_sound in Ea' as (vs & Hos & Hvs). rewrite Hos in *.
  destruct vs as [|v0 [|v1 [|v2 [|v3 [|]]]]]; rewrite length_fmap in El; simpl in El; try lia.
  destruct (octets_of_value _ _ _ _ Hvs) as [Hu Ho].
  set (b := ((v0 * 256 + v1) * 256 + v2) * 256 + v3) in *. rewrite <- Ho in *.
  rewrite octets_address_show in Ea by done. injection Ea as <-.
  exists b, p. split; [| by rewrite <- Hs, <- Haddr]. split; [done | split; [done |]].
  cbn [fst snd]. destruct (p =? 0) eqn:E0; bool_facts.
  - subst p. rewrite H. done.
  - apply network_mask; [done | lia | done].
Qed.

Lemma show_cidr_inj n n' : is_network n -> is_network n' ->
  show_cidr n.1 n.2 = show_cidr n'.1 n'.2 -> n = n'.
Proof.
  pose proof address_no_slash as Hf.
  destruct n as [a p], n' as [a' p']. intros (Ha & Hp & _) (Ha' & Hp' & _) H. cbn [fst snd] in *.
  apply (f_equal (split_on "/"%byte)) in H. unfold show_cidr in H.
  rewrite !split_on_app, !split_on_fresh in H by first [by apply Hf | apply digits_fresh; [done | lia]].
  apply (f_equal (fun l => (nth 0 l [], nth 1 l []))) in H. cbn [nth] in H.
  apply pair_equal_spec in H as [H1 H2]. f_equal.
  - apply (f_equal (split_on "."%byte)) in H1. rewrite !split_address in H1 by done.
    apply (f_equal (fun l => octets_address l 0)) in H1. rewrite !octets_address_show in H1 by done.
    congruence.
  - apply (f_equal parse_digits) in H2. rewrite !parse_digits_show in H2 by lia. congruence.
Qed.

(** ** What a validated record satisfies *)

(** The tests of a validator in sequence, as a conjunction. *)
Lemma then_Ok (a b : result unit) : (a ;? b) = Ok tt <-> a = Ok tt /\ b = Ok tt.
Proof. rewrite rbind_Ok. split; [by intros ([] & ? & ?) | intros [? ?]; by exists tt]. Qed.

Lemma unless_Ok c e : reject_if (negb c) e = Ok tt <-> c = true.
Proof. by rewrite reject_if_Ok, negb_false_iff. Qed.

Lemma check_identifiers_Ok ids : check_identifiers ids = Ok tt <-> Forall (fun p => id_ok p.2) ids.
Proof.
  induction ids as [|[n v] r IH]; cbn [check_identifiers]; [by split |].
  by rewrite Forall_cons, then_Ok, unless_Ok, <- IH.
Qed.

Lemma check_cidrs_Ok cidrs seen :
  check_cidrs cidrs seen = Ok tt <->
  Forall (fun s => canonicalIPv4CIDR (bytes_of s) = true) cidrs /\ NoDup cidrs /\
  Forall (fun s => s ∉ seen) cidrs.
Proof.
  revert seen. induction cidrs as [|s r IH]; intros seen; cbn [check_cidrs].
  { split; [| done]. intros _. split; [done |]. split; [apply NoDup_nil_2 | done]. }
  rewrite !Forall_cons, NoDup_cons, !then_Ok, unless_Ok, reject_if_Ok, IH.
  rewrite bool_decide_eq_false, !Forall_forall. split.
  - intros (? & ? & ? & ? & Hr). split; [done |].
    split; [split; [| done] |]; [| split; [done |]].
    + intros Hin. apply Hr in Hin. set_solver.
    + intros x Hx. apply Hr in Hx. set_solver.
  - intros ((? & ?) & (Hs & ?) & ? & Hr). split; [done |]. split; [done |].
    split; [done |]. split; [done |]. intros x Hx. apply not_elem_of_union.
    split; [| by apply Hr]. intros ->%elem_of_singleton. done.
Qed.

(** The list prints pairwise distinct networks. *)
Definition prints_networks (cidrs : list string) (nets : list (Z * Z)) : Prop :=
  cidrs = (fun n => string_of (show_cidr n.1 n.2)) <$> nets /\ Forall is_network nets /\ NoDup nets.

Lemma networks_iff cidrs :
  Forall (fun s => canonicalIPv4CIDR (bytes_of s) = true) cidrs /\ NoDup cidrs <->
  exists nets, prints_networks cidrs nets.
Proof.
  split.
  - intros [Hc Hnd]. assert (exists nets, cidrs = (fun n => string_of (show_cidr n.1 n.2)) <$> nets /\
                                 Forall is_network nets) as (nets & -> & Hn).
    { clear Hnd. induction Hc as [|s r Hs _ (nets & -> & Hn)]; [by exists [] |].
      apply canonical_cidr_sound in Hs as (a & p & Hap & Hs). exists ((a, p) :: nets).
      split; [| by constructor]. cbn [fmap list_fmap]. f_equal. cbn [fst snd]. by rewrite <- Hs, string_of_bytes_of. }
    exists nets. split; [done |]. split; [done |]. by eapply NoDup_fmap_1.
  - intros (nets & -> & Hn & Hnd). split.
    + rewrite Forall_fmap. eapply Forall_impl; [exact Hn |]. intros [a p] H. simpl.
      rewrite bytes_of_string_of. by apply canonical_cidr_show.
    + rewrite Forall_forall in Hn. apply NoDup_fmap_2_strong; [| done]. intros n n' H1 H2 H.
      apply show_cidr_inj; [by apply Hn.. |].
      by rewrite <- (bytes_of_string_of (show_cidr n.1 n.2)), H, bytes_of_string_of.
Qed.

(** Ports and source networks by protocol and exposure. *)
Definition port_rule (r : ServiceEndpoint) : Prop :=
  if decide (se_protocol r ∈ ["tcp"; "udp"] /\ se_exposure r ∈ ["public"; "both"]) then
    1024 <= se_public_port r <= 65535 /\
    (1 <= length (se_allowed_source_cidrs r) <= 16)%nat /\
    exists nets, prints_networks (se_allowed_source_cidrs r) nets
  else se_public_port r = 0 /\ se_allowed_source_cidrs r = [].

Definition endpoint_wf (r : ServiceEndpoint) : Prop :=
  se_kind r = "service_endpoint" /\ se_contract_version r = 2 /\
  id_ok (se_endpoint_id r) /\ id_ok (se_owner_device_id r) /\ id_ok (se_local_endpoint_id r) /\
  se_protocol r ∈ ["http"; "tcp"; "udp"] /\ se_exposure r ∈ ["private"; "public"; "both"] /\
  (se_application_protocol r ∈ [EmptyString; "generic"] \/
   se_application_protocol r = "rdp" /\ se_protocol r = "tcp" /\ se_exposure r = "private") /\
  port_rule r /\
  (exists t, go_parse_rfc3339 (se_created_at r) = Some t /\ format_zoned t = se_created_at r) /\
  se_revision r <> 0 /\ se_revision r < 2 ^ 53.

Lemma public_port_protocol_iff r :
  public_port_protocol r = true <->
  se_protocol r ∈ ["tcp"; "udp"] /\ se_exposure r ∈ ["public"; "both"].
Proof.
  unfold public_port_protocol. rewrite andb_true_iff, !orb_true_iff, !String.eqb_eq. set_solver.
Qed.

Lemma port_rule_iff r :
  (let cidrs := se_allowed_source_cidrs r in
   let count := Z.of_nat (length cidrs) in
   if public_port_protocol r then
     reject_if ((se_public_port r <? 1024) || (65535 <? se_public_port r))
       (ErrMsg "public TCP/UDP endpoints require public_port between 1024 and 65535") ;?
     reject_if ((count <? 1) || (16 <? count))
       (ErrMsg "public TCP/UDP endpoints require 1..16 allowed_source_cidrs") ;?
     check_cidrs cidrs ∅
   else
     reject_if (negb (se_public_port r =? 0) || negb (count =? 0))
       (ErrMsg "public_port and allowed_source_cidrs are valid only for public TCP/UDP endpoints"))
  = Ok tt <-> port_rule r.
Proof.
  unfold port_rule. cbn zeta. destruct (decide _) as [Hd|Hd].
  - rewrite (proj2 (public_port_protocol_iff r) Hd), !then_Ok, !reject_if_Ok, check_cidrs_Ok.
    rewrite !orb_false_iff, !Z.ltb_ge, <- networks_iff.
    split; [intros ((? & ?) & (? & ?) & ? & ? & _) | intros (? & ? & ? & ?)].
    + split; [lia |]. split; [lia | done].
    + split; [lia |]. split; [lia |]. split; [done |]. split; [done |].
      apply Forall_forall. set_solver.
  - destruct (public_port_protocol r) eqn:E; [by apply public_port_protocol_iff in E |].
    rewrite reject_if_Ok, orb_false_iff, !negb_false_iff, !Z.eqb_eq.
    destruct (se_allowed_source_cidrs r); simpl; [naive_solver |]. naive_solver lia.
Qed.

(** [ValidateServiceEndpoint] accepts exactly the well-formed endpoints:
    a public TCP or UDP endpoint has a port in 1024..65535 and 1 to 16
    pairwise distinct IPv4 networks in canonical notation, every other
    endpoint has neither, RDP is private TCP, and the revision is a positive
    integer a double represents exactly. *)
Theorem service_endpoint_iff r : ValidateServiceEndpoint r = Ok tt <-> endpoint_wf r.
Proof.
  unfold ValidateServiceEndpoint, endpoint_wf. rewrite !then_Ok, !unless_Ok, port_rule_iff.
  rewrite check_identifiers_Ok, !Forall_cons, !oneOfStrings_in, String.eqb_eq, Z.eqb_eq.
  change ProtocolVersion2 with 2. simpl snd.
  assert (Happ : (if oneOfStrings (se_application_protocol r) [EmptyString; "generic"] then Ok tt
    else if String.eqb (se_application_protocol r) "rdp" then
      reject_if (negb (String.eqb (se_protocol r) "tcp") || negb (String.eqb (se_exposure r) "private"))
        (ErrMsg "rdp endpoints must use tcp with private exposure")
    else Err (ErrMsg ("application_protocol is unsupported: " +:+ se_application_protocol r))) = Ok tt
    <-> se_application_protocol r ∈ [EmptyString; "generic"] \/
        se_application_protocol r = "rdp" /\ se_protocol r = "tcp" /\ se_exposure r = "private").
  { rewrite <- oneOfStrings_in. destruct (oneOfStrings _ _); [naive_solver |].
    destruct (String.eqb_spec (se_application_protocol r) "rdp") as [E|E]; [| naive_solver].
    rewrite reject_if_Ok, orb_false_iff, !negb_false_iff, !String.eqb_eq. naive_solver. }
  assert (Htime : (match go_parse_rfc3339 (se_created_at r) with
    | Some createdAt => reject_if (negb (String.eqb (format_zoned createdAt) (se_created_at r)))
        (ErrMsg "created_at must be a canonical UTC RFC3339 timestamp")
    | None => Err (ErrMsg "created_at must be a canonical UTC RFC3339 timestamp") end) = Ok tt
    <-> exists t, go_parse_rfc3339 (se_created_at r) = Some t /\ format_zoned t = se_created_at r).
  { destruct (go_parse_rfc3339 (se_created_at r)) as [t|]; [| naive_solver].
    rewrite unless_Ok, String.eqb_eq. naive_solver. }
  rewrite Happ, Htime, reject_if_Ok, orb_false_iff, Z.eqb_neq, Z.ltb_ge.
  assert (se_revision r <= 2 ^ 53 - 1 <-> se_revision r < 2 ^ 53) as -> by lia.
  clear. intuition auto using Forall_nil_2.
Qed.

(** [created_at] need not be UTC, although its error message asks for it. *)
Lemma offset_created_at_accepted :
  ValidateServiceEndpoint
    (MkServiceEndpoint "service_endpoint" 2 "ep-1" "dev-1" "http" EmptyString "local-1" 0 []
       "private" true "2026-01-02T03:04:05+02:00" 7) = Ok tt /\
  is_ok (canonicalTimestamp "2026-01-02T03:04:05+02:00") = false.
Proof. by vm_compute. Qed.

(** ** Connector grants *)

Definition grant_wf (g : ConnectorGrant) : Prop :=
  cg_kind g = "connector_grant" /\ cg_contract_version g = 2 /\
  id_ok (cg_grant_id g) /\ id_ok (cg_endpoint_id g) /\ id_ok (cg_token_id g) /\
  (exists digest, zlen digest = 32 /\ bytes_of (cg_token_sha256 g) = hex_encode digest) /\
  (exists nb exp, canonicalTimestamp (cg_not_before g) = Ok nb /\
                  canonicalTimestamp (cg_expires_at g) = Ok exp /\ nb < exp) /\
  1 <= cg_max_connections g <= 16.

Lemma nibble_cases (P : Z -> bool) v :
  0 <= v < 16 -> forallb P (seqZ 0 16) = true -> P v = true.
Proof.
  intros Hv H. rewrite forallb_forall in H. apply H, list_elem_of_In, elem_of_seqZ. lia.
Qed.

Lemma hex_val_digit v : 0 <= v < 16 -> hex_val (hex_digit v) = Some v.
Proof.
  intros H. apply (nibble_cases (fun v => bool_decide (hex_val (hex_digit v) = Some v))) in H;
    [by apply bool_decide_eq_true in H | reflexivity].
Qed.

Lemma hex_decode_encode bs : hex_decode (hex_encode bs) = Some bs.
Proof.
  induction bs as [|b r IH]; [done |].
  unfold hex_encode in *. cbn [flat_map app hex_decode]. rewrite IH.
  pose proof (bz_range b). pose proof (Z.mod_pos_bound (bz b) 16 ltac:(lia)).
  assert (0 <= bz b / 16 < 16) by (split; [apply Z.div_pos | apply Z.div_lt_upper_bound]; lia).
  rewrite (hex_val_digit (bz b / 16)), (hex_val_digit (bz b mod 16)) by done.
  rewrite <- Z.div_mod by lia. by rewrite zb_bz.
Qed.

Lemma token_digest_iff s :
  token_digest_ok s = true <-> exists digest, zlen digest = 32 /\ bytes_of s = hex_encode digest.
Proof.
  unfold token_digest_ok. split.
  - destruct (hex_decode (bytes_of s)) as [d|]; [| done]. intros H. bool_facts. eauto.
  - intros (d & Hd & Hs). rewrite Hs, hex_decode_encode, Hd. by rewrite bool_decide_eq_true_2.
Qed.

Lemma validate_grant_iff g : ValidateConnectorGrant g = Ok tt <-> grant_wf g.
Proof.
  unfold ValidateConnectorGrant, grant_wf. rewrite !then_Ok, !unless_Ok.
  rewrite check_identifiers_Ok, !Forall_cons, token_digest_iff, String.eqb_eq, Z.eqb_eq.
  change ProtocolVersion2 with 2. simpl snd.
  assert ((let? notBefore := canonicalTimestamp (cg_not_before g) in
           let? expiresAt := canonicalTimestamp (cg_expires_at g) in
           reject_if (negb (before notBefore expiresAt))
             (ErrMsg "not_before must be earlier than expires_at") ;?
           reject_if ((cg_max_connections g <? 1) ||
                      (MaxConnectorGrantConnections <? cg_max_connections g))
             (ErrMsg "max_connections must be between 1 and 16")) = Ok tt <->
          (exists nb exp, canonicalTimestamp (cg_not_before g) = Ok nb /\
                          canonicalTimestamp (cg_expires_at g) = Ok exp /\ nb < exp) /\
          1 <= cg_max_connections g <= 16) as ->.
  { destruct (canonicalTimestamp (cg_not_before g)) as [nb|]; cbn [rbind]; [| naive_solver].
    destruct (canonicalTimestamp (cg_expires_at g)) as [exp|]; cbn [rbind]; [| naive_solver].
    rewrite then_Ok, unless_Ok, reject_if_Ok, orb_false_iff, !Z.ltb_ge. unfold before.
    rewrite Z.ltb_lt. change MaxConnectorGrantConnections with 16. naive_solver. }
  clear. intuition auto using Forall_nil_2.
Qed.

Lemma hex_encode_utf8 bs : utf8_valid (hex_encode bs) = true.
Proof.
  apply utf8_valid_ascii. induction bs as [|b r IH]; [done |].
  unfold hex_encode in *. cbn [flat_map app forallb]. rewrite IH.
  assert (forall v, 0 <= v < 16 -> is_ascii (hex_digit v) = true) as Hd.
  { intros v Hv. by apply (nibble_cases (fun v => is_ascii (hex_digit v))) in Hv. }
  pose proof (bz_range b). pose proof (Z.mod_pos_bound (bz b) 16 ltac:(lia)).
  assert (0 <= bz b / 16 < 16) by (split; [apply Z.div_pos | apply Z.div_lt_upper_bound]; lia).
  by rewrite (Hd (bz b / 16)), (Hd (bz b mod 16)).
Qed.

Lemma canonical_timestamp_utf8 s t : canonicalTimestamp s = Ok t -> utf8_valid (bytes_of s) = true.
Proof.
  unfold canonicalTimestamp. destruct (go_parse_rfc3339 s) as [z|] eqn:E; [| done]. intros _.
  by apply utf8_valid_ascii, (go_timestamp_ascii s z).
Qed.

Definition marshal_grant (g : ConnectorGrant) : bytes := marshal_object (ConnectorGrant_members g).

#[local] Arguments canonicalTimestamp : simpl never.
#[local] Arguments hex_encode : simpl never.

Lemma grant_sendable g : grant_wf g ->
  members_ok (ConnectorGrant_members g) /\ NoDup (fst <$> ConnectorGrant_members g) /\
  Forall (member_fits ConnectorGrant_schema true) (ConnectorGrant_members g).
Proof.
  destruct g as [k v gid eid tid dig nb exp dis mc]. unfold grant_wf. simpl.
  intros (-> & -> & Hg & He & Ht & (d & _ & Hd) & (t1 & t2 & Hnb & Hexp & _) & Hmc).
  apply canonical_timestamp_utf8 in Hnb, Hexp.
  assert (Hdig : utf8_valid (bytes_of dig) = true) by (rewrite Hd; apply hex_encode_utf8).
  unfold ConnectorGrant_members. simpl.
  split; [solve_members | split; [solve_nodup | solve_members]].
Qed.

Lemma grant_reads_back g :
  ConnectorGrant_of (put_members ConnectorGrant_schema (ConnectorGrant_members g) ∅) = g.
Proof. destruct g. vm_compute. reflexivity. Qed.

(** Connector grants survive the wire.  A grant that
    [ValidateConnectorGrant] accepts is returned unchanged by
    [ParseConnectorGrant] from its JSON, and whatever [ParseConnectorGrant]
    returns obeys the contract: identifiers, the lower-case hex of a 32-byte
    digest, canonical UTC bounds with [not_before] before [expires_at], and 1
    to 16 connections. *)
Theorem connector_grant_roundtrip g data :
  ValidateConnectorGrant g = Ok tt ->
  grant_wf g /\
  ParseConnectorGrant (marshal_grant g) = Ok g /\
  forall g', ParseConnectorGrant data = Ok g' -> grant_wf g'.
Proof.
  intros Hv. pose proof Hv as Hwf. apply validate_grant_iff in Hwf. split; [done |]. split.
  - destruct (grant_sendable g Hwf) as (Hm & Hn & Hf).
    pose proof (marshalled_validate _ Hm Hn) as Hval. apply validate2_iff in Hval as Hval2.
    pose proof (marshalled_decode _ _ Hm Hn Hf) as Hdec.
    unfold decodeControlStrict in Hdec. rewrite Hval in Hdec. cbn [rbind] in Hdec.
    unfold ParseConnectorGrant, marshal_grant, decode_record.
    rewrite Hval2, Hdec. cbn [rbind]. rewrite grant_reads_back.
    rewrite (proj2 (requireMembers_iff _ _ Hval2)) by
      (apply marshalled_present; [done.. |]; unfold ConnectorGrant_members; cbn [fmap list_fmap fst];
       apply (bool_decide_unpack _); vm_compute; exact I).
    cbn [rbind]. by rewrite Hv.
  - intros g'. unfold ParseConnectorGrant. intros H. inv_ok. by apply validate_grant_iff.
Qed.

Definition demo_grant : ConnectorGrant :=
  MkConnectorGrant "connector_grant" 2 "grant-1" "ep-1" "tok-1"
    (string_of (hex_encode (repeat "k"%byte 32))) "2026-01-02T03:04:05Z" "2026-02-02T03:04:05.5Z"
    false 4.

Lemma connector_grant_roundtrip_witness :
  ValidateConnectorGrant demo_grant = Ok tt /\
  ParseConnectorGrant (marshal_grant demo_grant) = Ok demo_grant.
Proof.
  assert (H : ValidateConnectorGrant demo_grant = Ok tt) by (vm_compute; reflexivity).
  split; [exact H |].
  destruct (connector_grant_roundtrip demo_grant [] H) as (_ & Hp & _). exact Hp.
Defined.
