(* ===== verification/Metadata.v ===== *)
(** * Metadata: [internal/gateway/metadata.go]

    The Gateway's snapshot of external authority: device authorizations, host
    routes, revocations, service endpoints and connector grants, filled one JSON
    record at a time and then only read.  Queries are answered at an instant. *)

From stdpp Require Import strings.
From S2P Require Import Prelude GoText GoTime Json StrictJson Frame Contract ContractV2.

Definition ErrMetadataNotFound : error := ErrSentinel "external metadata not found".

(** ** Host names *)

(** [strings.ToLower] as far as an ASCII result can tell: ASCII letters, and
    the two other runes whose lower case is ASCII (U+0130 and U+212A).  Any
    other rune stays outside ASCII, so it is left as it is. *)
Fixpoint to_lower (bs : bytes) : bytes :=
  match bs with
  | [] => []
  | a :: r =>
    match r with
    | b :: r1 =>
      if Byte.eqb a Byte.xc4 && Byte.eqb b Byte.xb0 then "i"%byte :: to_lower r1
      else match r1 with
      | c :: r2 =>
        if Byte.eqb a Byte.xe2 && Byte.eqb b Byte.x84 && Byte.eqb c Byte.xaa
        then "k"%byte :: to_lower r2
        else ascii_lower_byte a :: to_lower r
      | [] => ascii_lower_byte a :: to_lower r
      end
    | [] => [ascii_lower_byte a]
    end
  end.

(** The encodings of the runes [unicode.IsSpace] accepts. *)
Definition space_runes : list bytes :=
  ((fun z => [zb z]) <$> [9; 10; 11; 12; 13; 32]) ++
  [[Byte.xc2; Byte.x85]; [Byte.xc2; Byte.xa0]; [Byte.xe1; Byte.x9a; Byte.x80]] ++
  ((fun z => [Byte.xe2; Byte.x80; zb z]) <$> (seqZ 128 11 ++ [168; 169; 175])) ++
  [[Byte.xe2; Byte.x81; Byte.x9f]; [Byte.xe3; Byte.x80; Byte.x80]].

Fixpoint strip_any (pres : list bytes) (bs : bytes) : option bytes :=
  match pres with
  | [] => None
  | p :: r => match strip_prefix p bs with Some t => Some t | None => strip_any r bs end
  end.

Fixpoint trim_left (fuel : nat) (spaces : list bytes) (bs : bytes) : bytes :=
  match fuel with
  | O => bs
  | S f => match strip_any spaces bs with Some t => trim_left f spaces t | None => bs end
  end.

(** [strings.TrimSpace]; every step drops at least a byte, so the length is
    fuel enough. *)
Definition trim_space (bs : bytes) : bytes :=
  let l := trim_left (length bs) space_runes bs in
  rev (trim_left (length l) (@rev Byte.byte <$> space_runes) (rev l)).

(** Up to the first [sep], or everything. *)
Fixpoint before_byte (sep : Byte.byte) (bs : bytes) : bytes :=
  match bs with
  | [] => []
  | b :: r => if Byte.eqb b sep then [] else b :: before_byte sep r
  end.

Definition trim_final_dot (bs : bytes) : bytes :=
  match rev bs with
  | b :: r => if Byte.eqb b "."%byte then rev r else bs
  | [] => []
  end.

Definition canonicalHostname (value : string) : string :=
  string_of (trim_final_dot (before_byte ":"%byte (trim_space (to_lower (bytes_of value))))).

Example canonical_hostname_1 : canonicalHostname " App.Example.COM.:8443" = "app.example.com".
Proof. vm_compute. reflexivity. Qed.

(** ** The snapshot *)

Record authorizationSnapshot := MkAuthSnap {
  as_record : DeviceSessionAuthorization;
  as_notBefore : instant;
  as_expiresAt : instant;
}.

Record routeSnapshot := MkRouteSnap {
  rs_record : EndpointRouteAssignment;
  rs_notBefore : instant;
  rs_expiresAt : instant;
}.

(** [revocationSubject]: kind and id. *)
Abbreviation revocationSubject := (string * string)%type.

Record SnapshotMetadata := MkSnapshot {
  authorizations : gmap string authorizationSnapshot;
  routes : gmap string routeSnapshot;
  revocations : gmap revocationSubject instant;
  revocationReasons : gmap revocationSubject string;
  serviceEndpoints : gmap string ServiceEndpoint;
  publicPorts : gmap Z string;
  connectorGrants : gmap string ConnectorGrant;
  readyErr : option error;
}.

Definition NewSnapshotMetadata : SnapshotMetadata := MkSnapshot ∅ ∅ ∅ ∅ ∅ ∅ ∅ None.

Definition set_authorizations (s : SnapshotMetadata) m : SnapshotMetadata :=
  MkSnapshot m (routes s) (revocations s) (revocationReasons s) (serviceEndpoints s)
    (publicPorts s) (connectorGrants s) (readyErr s).
Definition set_routes (s : SnapshotMetadata) m : SnapshotMetadata :=
  MkSnapshot (authorizations s) m (revocations s) (revocationReasons s) (serviceEndpoints s)
    (publicPorts s) (connectorGrants s) (readyErr s).
Definition set_revocations (s : SnapshotMetadata) m reasons : SnapshotMetadata :=
  MkSnapshot (authorizations s) (routes s) m reasons (serviceEndpoints s)
    (publicPorts s) (connectorGrants s) (readyErr s).
Definition set_endpoints (s : SnapshotMetadata) m ports : SnapshotMetadata :=
  MkSnapshot (authorizations s) (routes s) (revocations s) (revocationReasons s) m
    ports (connectorGrants s) (readyErr s).
Definition set_grants (s : SnapshotMetadata) m : SnapshotMetadata :=
  MkSnapshot (authorizations s) (routes s) (revocations s) (revocationReasons s)
    (serviceEndpoints s) (publicPorts s) m (readyErr s).
Definition set_readyErr (s : SnapshotMetadata) e : SnapshotMetadata :=
  MkSnapshot (authorizations s) (routes s) (revocations s) (revocationReasons s)
    (serviceEndpoints s) (publicPorts s) (connectorGrants s) e.

Definition Ready (s : SnapshotMetadata) : result unit :=
  match readyErr s with
  | Some e => Err (ErrWrap "external metadata snapshot is unusable" e)
  | None => Ok tt
  end.

(** The first error sticks. *)
Definition invalidate (s : SnapshotMetadata) (e : error) : result unit * SnapshotMetadata :=
  (Err e, match readyErr s with None => set_readyErr s (Some e) | Some _ => s end).

(** [time.Parse(time.RFC3339, value)] with the error it is wrapped in. *)
Definition parse_time (what value : string) : result instant :=
  match go_parse_rfc3339 value with
  | Some z => Ok (z_instant z)
  | None => Err (ErrWrap what (ErrMsg "parsing time"))
  end.

(** A record whose checks fail invalidates the snapshot; otherwise it goes on. *)
Definition guarded {A} (s : SnapshotMetadata) (r : result A)
    (k : A -> result unit * SnapshotMetadata) : result unit * SnapshotMetadata :=
  match r with
  | Ok a => k a
  | Err e => invalidate s e
  end.

Definition addAuthorizationJSON (s : SnapshotMetadata) (data : bytes) : result unit * SnapshotMetadata :=
  guarded s (ParseDeviceSessionAuthorizationRecord data) (fun record =>
  guarded s (parse_time "parse authorization not_before" (da_not_before record)) (fun notBefore =>
  guarded s (parse_time "parse authorization expires_at" (da_expires_at record)) (fun expiresAt =>
  match authorizations s !! da_authorization_id record with
  | Some _ => invalidate s (ErrMsg ("duplicate authorization_id " +:+ da_authorization_id record))
  | None =>
    (Ok tt, set_authorizations s
              (<[da_authorization_id record := MkAuthSnap record notBefore expiresAt]>
                 (authorizations s)))
  end))).

Definition addRouteJSON (s : SnapshotMetadata) (data : bytes) : result unit * SnapshotMetadata :=
  guarded s (ParseEndpointRouteAssignmentRecord data) (fun record =>
  let host := canonicalHostname (ra_public_hostname record) in
  if String.eqb host EmptyString then invalidate s (ErrMsg "public_hostname is required") else
  guarded s (parse_time "parse route not_before" (ra_not_before record)) (fun notBefore =>
  guarded s (parse_time "parse route expires_at" (ra_expires_at record)) (fun expiresAt =>
  match routes s !! host with
  | Some _ => invalidate s (ErrMsg ("duplicate public_hostname " +:+ host))
  | None => (Ok tt, set_routes s (<[host := MkRouteSnap record notBefore expiresAt]> (routes s)))
  end))).

Definition addRevocationJSON (s : SnapshotMetadata) (data : bytes) : result unit * SnapshotMetadata :=
  guarded s (ParseRevocationSignal data) (fun signal =>
  guarded s (parse_time "parse revocation effective_at" (rv_effective_at signal)) (fun effectiveAt =>
  let subject := (rv_subject_kind signal, rv_subject_id signal) in
  let earlier := match revocations s !! subject with
                 | Some current => before effectiveAt current
                 | None => true
                 end in
  (Ok tt,
   if earlier then
     set_revocations s (<[subject := effectiveAt]> (revocations s))
                       (<[subject := rv_reason_code signal]> (revocationReasons s))
   else s))).

Definition addServiceEndpointJSON (s : SnapshotMetadata) (data : bytes) : result unit * SnapshotMetadata :=
  guarded s (ParseServiceEndpoint data) (fun record =>
  match serviceEndpoints s !! se_endpoint_id record with
  | Some _ => invalidate s (ErrMsg ("duplicate service endpoint " +:+ se_endpoint_id record))
  | None =>
    if se_public_port record =? 0 then
      (Ok tt, set_endpoints s (<[se_endpoint_id record := record]> (serviceEndpoints s)) (publicPorts s))
    else
      match publicPorts s !! se_public_port record with
      | Some endpointID =>
        invalidate s (ErrMsg ("public port is assigned to both " +:+ endpointID +:+ " and " +:+
                              se_endpoint_id record))
      | None =>
        (Ok tt, set_endpoints s (<[se_endpoint_id record := record]> (serviceEndpoints s))
                  (<[se_public_port record := se_endpoint_id record]> (publicPorts s)))
      end
  end).

Definition addConnectorGrantJSON (s : SnapshotMetadata) (data : bytes) : result unit * SnapshotMetadata :=
  guarded s (ParseConnectorGrant data) (fun record =>
  match connectorGrants s !! cg_grant_id record with
  | Some _ => invalidate s (ErrMsg ("duplicate connector grant " +:+ cg_grant_id record))
  | None => (Ok tt, set_grants s (<[cg_grant_id record := record]> (connectorGrants s)))
  end).

(** ** Queries *)

Definition revokedAt (s : SnapshotMetadata) (subject : revocationSubject) (at_ : instant) : bool :=
  match revocations s !! subject with
  | Some effectiveAt => negb (after effectiveAt at_)
  | None => false
  end.

Definition Revoked (s : SnapshotMetadata) (subjectKind subjectID : string) (at_ : instant) : bool :=
  revokedAt s (subjectKind, subjectID) at_.

Definition RevocationReason (s : SnapshotMetadata) (subjectKind subjectID : string) (at_ : instant)
  : string * bool :=
  let subject := (subjectKind, subjectID) in
  if revokedAt s subject at_ then
    let reason := default EmptyString (revocationReasons s !! subject) in
    (if String.eqb reason EmptyString then "credential_revoked" else reason, true)
  else (EmptyString, false).

Definition ServiceEndpoint_at (s : SnapshotMetadata) (endpointID : string) (at_ : instant)
  : result ServiceEndpoint :=
  match serviceEndpoints s !! endpointID with
  | None => Err ErrMetadataNotFound
  | Some record =>
    reject_if (negb (se_enabled record)) (ErrMsg "service endpoint is disabled") ;?
    reject_if (revokedAt s ("device", se_owner_device_id record) at_)
      (ErrMsg "service endpoint owner is revoked") ;?
    Ok record
  end.

(** Iteration over [publicPorts]: the order of the result is unspecified. *)
Definition publicEndpoints (s : SnapshotMetadata) (at_ : instant) (protocol : string)
  : list ServiceEndpoint :=
  omap (fun p =>
    match ServiceEndpoint_at s p.2 at_ with
    | Ok record => if String.eqb (se_protocol record) protocol then Some record else None
    | Err _ => None
    end) (map_to_list (publicPorts s)).

Definition PublicTCPEndpoints s at_ := publicEndpoints s at_ "tcp".
Definition PublicUDPEndpoints s at_ := publicEndpoints s at_ "udp".

Definition ConnectorGrant_at (s : SnapshotMetadata) (grantID : string) (at_ : instant)
  : result ConnectorGrant :=
  match connectorGrants s !! grantID with
  | None => Err ErrMetadataNotFound
  | Some record =>
    reject_if (cg_disabled record) (ErrMsg "connector grant is disabled") ;?
    match go_parse_rfc3339 (cg_not_before record) with
    | None => Err (ErrMsg "connector grant not_before is invalid")
    | Some notBefore =>
      match go_parse_rfc3339 (cg_expires_at record) with
      | None => Err (ErrMsg "connector grant expires_at is invalid")
      | Some expiresAt =>
        reject_if (before at_ (z_instant notBefore) || negb (before at_ (z_instant expiresAt)))
          (ErrMsg "connector grant is not active at evaluation time") ;?
        Ok record
      end
    end
  end.

Definition zero_authorization : DeviceSessionAuthorization := DeviceSessionAuthorization_of ∅.

(** The tests of [Authorization] on the record it found. *)
Definition check_authorization (s : SnapshotMetadata) (entry : authorizationSnapshot)
    (deviceID tokenID : string) (at_ : instant) : result unit :=
  let record := as_record entry in
  reject_if (da_disabled record) (ErrMsg "authorization is disabled") ;?
  reject_if (before at_ (as_notBefore entry) || negb (before at_ (as_expiresAt entry)))
    (ErrMsg "authorization is not active at evaluation time") ;?
  reject_if (negb (String.eqb (da_device_id record) deviceID) ||
             negb (String.eqb (da_token_id record) tokenID))
    (ErrMsg "authorization subject mismatch") ;?
  reject_if (existsb (fun subject => revokedAt s subject at_)
               [("device_session_authorization", da_authorization_id record);
                ("device", da_device_id record)])
    (ErrMsg "authorization subject is revoked").

(** The record comes back with the error too, once it was found. *)
Definition Authorization_record (s : SnapshotMetadata) (authorizationID deviceID tokenID : string)
    (at_ : instant) : DeviceSessionAuthorization * option error :=
  match authorizations s !! authorizationID with
  | None => (zero_authorization, Some ErrMetadataNotFound)
  | Some entry =>
    (as_record entry,
     match check_authorization s entry deviceID tokenID at_ with Ok _ => None | Err e => Some e end)
  end.

(** A [(record, error)] pair for callers that drop the record on an error. *)
Definition to_result {A} (p : A * option error) : result A :=
  match p with (a, None) => Ok a | (_, Some e) => Err e end.

Definition Authorization (s : SnapshotMetadata) (authorizationID deviceID tokenID : string)
    (at_ : instant) : result DeviceSessionAuthorization :=
  to_result (Authorization_record s authorizationID deviceID tokenID at_).

Lemma Authorization_checked s aid did tid at_ :
  Authorization s aid did tid at_ =
  match authorizations s !! aid with
  | None => Err ErrMetadataNotFound
  | Some entry => check_authorization s entry did tid at_ ;? Ok (as_record entry)
  end.
Proof.
  unfold Authorization, Authorization_record. destruct (authorizations s !! aid) as [e|]; [| done].
  by destruct (check_authorization s e did tid at_) as [[]|].
Qed.

Definition RouteByHostname (s : SnapshotMetadata) (hostname : string) (at_ : instant)
  : result EndpointRouteAssignment :=
  match routes s !! canonicalHostname hostname with
  | None => Err ErrMetadataNotFound
  | Some entry =>
    let record := rs_record entry in
    reject_if (negb (ra_enabled record)) (ErrMsg "route assignment is disabled") ;?
    reject_if (before at_ (rs_notBefore entry) || negb (before at_ (rs_expiresAt entry)))
      (ErrMsg "route assignment is not active at evaluation time") ;?
    reject_if (existsb (fun subject => revokedAt s subject at_)
                 [("endpoint_route_assignment", ra_assignment_id record);
                  ("device", ra_device_id record)])
      (ErrMsg "route subject is revoked") ;?
    Ok record
  end.

(** ** Loading *)

(** The record directories, in the order they are read. *)
Inductive category :=
| CatAuthorizations | CatRoutes | CatRevocations | CatServiceEndpoints | CatConnectorGrants.

#[export] Instance category_eq_dec : EqDecision category.
Proof. solve_decision. Defined.

Definition add_record (c : category) : SnapshotMetadata -> bytes -> result unit * SnapshotMetadata :=
  match c with
  | CatAuthorizations => addAuthorizationJSON
  | CatRoutes => addRouteJSON
  | CatRevocations => addRevocationJSON
  | CatServiceEndpoints => addServiceEndpointJSON
  | CatConnectorGrants => addConnectorGrantJSON
  end.

(** The records of a generation, in reading order, until one is refused. *)
Fixpoint add_records (s : SnapshotMetadata) (docs : list (category * bytes))
  : result unit * SnapshotMetadata :=
  match docs with
  | [] => (Ok tt, s)
  | (c, data) :: r =>
    match add_record c s data with
    | (Ok _, s') => add_records s' r
    | (Err e, s') => (Err e, s')
    end
  end.

(** ** A loaded snapshot says what its documents say *)

(** [r] is the parse of one of the documents. *)
Definition published {R} (docs : list (category * bytes)) (c : category)
    (parse : bytes -> result R) (r : R) : Prop :=
  exists data, (c, data) ∈ docs /\ parse data = Ok r.

Definition published_authorization docs := published docs CatAuthorizations ParseDeviceSessionAuthorizationRecord.
Definition published_route docs := published docs CatRoutes ParseEndpointRouteAssignmentRecord.
Definition published_revocation docs := published docs CatRevocations ParseRevocationSignal.
Definition published_endpoint docs := published docs CatServiceEndpoints ParseServiceEndpoint.
Definition published_grant docs := published docs CatConnectorGrants ParseConnectorGrant.

Definition time_of (value : string) : instant := from_option z_instant 0 (go_parse_rfc3339 value).

Definition auth_snap (r : DeviceSessionAuthorization) : authorizationSnapshot :=
  MkAuthSnap r (time_of (da_not_before r)) (time_of (da_expires_at r)).
Definition route_snap (r : EndpointRouteAssignment) : routeSnapshot :=
  MkRouteSnap r (time_of (ra_not_before r)) (time_of (ra_expires_at r)).
Definition rv_subject (sig : RevocationSignal) : revocationSubject :=
  (rv_subject_kind sig, rv_subject_id sig).

(** [m] holds exactly the records of [P], each under its key. *)
Definition indexes {K A R} `{Countable K} (m : gmap K A) (P : R -> Prop) (key : R -> K) (val : R -> A)
  : Prop :=
  forall k a, m !! k = Some a <-> exists x, P x /\ key x = k /\ val x = a.

(** [m] holds for every subject the earliest time of its signals. *)
Definition earliest {K R} `{Countable K} (m : gmap K instant) (P : R -> Prop) (key : R -> K)
    (time : R -> instant) : Prop :=
  forall k, match m !! k with
            | Some t => (exists x, P x /\ key x = k /\ time x = t) /\
                        (forall x, P x -> key x = k -> t <= time x)
            | None => forall x, P x -> key x <> k
            end.

Record reflects (docs : list (category * bytes)) (s : SnapshotMetadata) : Prop := Reflects {
  rf_auth : indexes (authorizations s) (published_authorization docs) da_authorization_id auth_snap;
  rf_route : indexes (routes s) (published_route docs)
               (fun r => canonicalHostname (ra_public_hostname r)) route_snap;
  rf_rev : earliest (revocations s) (published_revocation docs) rv_subject
             (fun sig => time_of (rv_effective_at sig));
  rf_endpoint : indexes (serviceEndpoints s) (published_endpoint docs) se_endpoint_id id;
  rf_port : indexes (publicPorts s) (fun r => published_endpoint docs r /\ se_public_port r <> 0)
              se_public_port se_endpoint_id;
  rf_grant : indexes (connectorGrants s) (published_grant docs) cg_grant_id id;
  rf_ready : readyErr s = None;
}.

Lemma indexes_insert {K A R} `{Countable K} (m : gmap K A) (P P' : R -> Prop) key val r :
  indexes m P key val -> m !! key r = None -> (forall x, P' x <-> P x \/ x = r) ->
  indexes (<[key r := val r]> m) P' key val.
Proof.
  intros Hm Hr HP k a. rewrite lookup_insert_Some. split.
  - intros [(<- & <-)|(Hne & Hk)].
    + exists r. split; [by apply HP; right | done].
    + apply Hm in Hk as (x & Hx & <- & <-). exists x. split; [by apply HP; left | done].
  - intros (x & Hx & <- & <-). apply HP in Hx as [Hx | ->]; [| by left].
    right. assert (m !! key x = Some (val x)) as Hl by (apply Hm; eauto).
    split; [intros E; congruence | done].
Qed.

Lemma indexes_same {K A R} `{Countable K} (m : gmap K A) (P P' : R -> Prop) key val :
  indexes m P key val -> (forall x, P' x <-> P x) -> indexes m P' key val.
Proof. intros Hm HP k a. rewrite (Hm k a). naive_solver. Qed.

Lemma earliest_same {K R} `{Countable K} m (P P' : R -> Prop) (key : R -> K) time :
  earliest m P key time -> (forall x, P' x <-> P x) -> earliest m P' key time.
Proof.
  intros Hm HP k. specialize (Hm k). destruct (m !! k); [| naive_solver].
  destruct Hm as [(x & Hx & ?) Hall]. split; [exists x; by rewrite HP |].
  intros y Hy. apply Hall. by apply HP.
Qed.

Lemma earliest_add {K R} `{Countable K} (m : gmap K instant) (P P' : R -> Prop) key time r :
  earliest m P key time -> (forall x, P' x <-> P x \/ x = r) ->
  earliest (if match m !! key r with Some c => before (time r) c | None => true end
            then <[key r := time r]> m else m) P' key time.
Proof.
  intros Hm HP k. destruct (decide (key r = k)) as [<-|Hne].
  - specialize (Hm (key r)). destruct (m !! key r) as [c|] eqn:Ec.
    + destruct Hm as [(x & Hx & Hk & Ht) Hall]. destruct (before (time r) c) eqn:Eb.
      * unfold before in Eb. bool_facts. rewrite lookup_insert_eq. split.
        { exists r. split; [by apply HP; right | done]. }
        intros y Hy Hky. apply HP in Hy as [Hy | ->]; [| lia]. specialize (Hall y Hy Hky). lia.
      * unfold before in Eb. bool_facts. rewrite Ec. split.
        { exists x. split; [by apply HP; left | done]. }
        intros y Hy Hky. apply HP in Hy as [Hy | ->]; [by apply Hall | lia].
    + rewrite lookup_insert_eq. split; [exists r; split; [by apply HP; right | done] |].
      intros y Hy Hky. apply HP in Hy as [Hy | ->]; [by apply Hm in Hy | lia].
  - assert ((if match m !! key r with Some c => before (time r) c | None => true end
             then <[key r := time r]> m else m) !! k = m !! k) as ->
      by (destruct (match m !! key r with Some _ => _ | None => _ end); [by apply lookup_insert_ne | done]).
    specialize (Hm k). destruct (m !! k) as [c|].
    + destruct Hm as [(x & Hx & Hk & Ht) Hall]. split; [exists x; split; [by apply HP; left | done] |].
      intros y Hy Hky. apply HP in Hy as [Hy | ->]; [by apply Hall | done].
    + intros y Hy Hky. apply HP in Hy as [Hy | ->]; [by apply Hm in Hy | done].
Qed.

Lemma published_snoc {R} docs c d c' (parse : bytes -> result R) x :
  published (docs ++ [(c, d)]) c' parse x <->
  published docs c' parse x \/ (c' = c /\ parse d = Ok x).
Proof.
  unfold published. setoid_rewrite elem_of_app. setoid_rewrite list_elem_of_singleton.
  split; [| naive_solver]. intros (data & [H|[= -> ->]] & Hp); eauto.
Qed.

Lemma guarded_Ok {A} s (r : result A) k s' :
  guarded s r k = (Ok tt, s') -> exists a, r = Ok a /\ k a = (Ok tt, s').
Proof. destruct r as [a|e]; simpl; [eauto | done]. Qed.

Lemma parse_time_Ok what v t : parse_time what v = Ok t -> t = time_of v.
Proof. unfold parse_time, time_of. destruct (go_parse_rfc3339 v); [by intros [= <-] | done]. Qed.

Lemma reflects_new : reflects [] NewSnapshotMetadata.
Proof.
  assert (Hno : forall R c (parse : bytes -> result R) r, ~ published [] c parse r)
    by (intros R c parse r (d & Hd & _); by apply not_elem_of_nil in Hd).
  constructor; try done; intros k; simpl;
    try (intros a; rewrite lookup_empty; split; [done | intros (x & Hx & _)];
         first [by apply Hno in Hx | destruct Hx as [Hx _]; by apply Hno in Hx]).
  rewrite lookup_empty. intros x Hx. by apply Hno in Hx.
Qed.

Ltac snoc_same :=
  intros ?; unfold published_authorization, published_route, published_revocation,
    published_endpoint, published_grant; rewrite published_snoc; intuition congruence.

Lemma add_record_reflects docs s c data s' :
  reflects docs s -> add_record c s data = (Ok tt, s') -> reflects (docs ++ [(c, data)]) s'.
Proof.
  intros [Ha Hr Hv He Hp Hg Hok] H. destruct c; simpl in H;
    apply guarded_Ok in H as (r & Hparse & H).
  - apply guarded_Ok in H as (nb & Hnb & H). apply guarded_Ok in H as (ex & Hex & H).
    apply parse_time_Ok in Hnb as ->. apply parse_time_Ok in Hex as ->.
    destruct (authorizations s !! da_authorization_id r) eqn:El; [done |]. injection H as <-.
    constructor; simpl; try done;
      try (eapply indexes_same; [eassumption | snoc_same]);
      try (eapply earliest_same; [eassumption | snoc_same]).
    apply (indexes_insert _ _ _ da_authorization_id auth_snap _ Ha El). snoc_same.
  - cbn zeta in H. destruct (String.eqb _ _); [done |].
    apply guarded_Ok in H as (nb & Hnb & H). apply guarded_Ok in H as (ex & Hex & H).
    apply parse_time_Ok in Hnb as ->. apply parse_time_Ok in Hex as ->.
    destruct (routes s !! canonicalHostname (ra_public_hostname r)) eqn:El; [done |].
    injection H as <-.
    constructor; simpl; try done;
      try (eapply indexes_same; [eassumption | snoc_same]);
      try (eapply earliest_same; [eassumption | snoc_same]).
    apply (indexes_insert _ _ _ (fun r => canonicalHostname (ra_public_hostname r)) route_snap _ Hr El).
    snoc_same.
  - apply guarded_Ok in H as (t & Ht & H). apply parse_time_Ok in Ht as ->. cbn zeta in H.
    pose proof (earliest_add _ _ (published_revocation (docs ++ [(CatRevocations, data)])) _ _ r Hv
                  ltac:(snoc_same)) as Hv'. unfold rv_subject in Hv' at 1 2.
    destruct (match revocations s !! _ with Some _ => _ | None => _ end); injection H as <-;
      constructor; simpl; try done; eapply indexes_same; first [eassumption | snoc_same].
  - destruct (serviceEndpoints s !! se_endpoint_id r) eqn:El; [done |].
    assert (He' : indexes (<[se_endpoint_id r := r]> (serviceEndpoints s))
                    (published_endpoint (docs ++ [(CatServiceEndpoints, data)])) se_endpoint_id id)
      by (apply (indexes_insert _ _ _ se_endpoint_id id _ He El); snoc_same).
    destruct (se_public_port r =? 0) eqn:E0; bool_facts.
    + injection H as <-. constructor; simpl; try done;
        try (eapply indexes_same; [eassumption | snoc_same]);
        try (eapply earliest_same; [eassumption | snoc_same]).
    + destruct (publicPorts s !! se_public_port r) eqn:Epp; [done |]. injection H as <-.
      constructor; simpl; try done;
        try (eapply indexes_same; [eassumption | snoc_same]);
        try (eapply earliest_same; [eassumption | snoc_same]).
      apply (indexes_insert _ _ _ se_public_port se_endpoint_id _ Hp Epp). snoc_same.
  - destruct (connectorGrants s !! cg_grant_id r) eqn:El; [done |]. injection H as <-.
    constructor; simpl; try done;
      try (eapply indexes_same; [eassumption | snoc_same]);
      try (eapply earliest_same; [eassumption | snoc_same]).
    apply (indexes_insert _ _ _ cg_grant_id id _ Hg El). snoc_same.
Qed.

Lemma add_records_reflect pre docs s s' :
  reflects pre s -> add_records s docs = (Ok tt, s') -> reflects (pre ++ docs) s'.
Proof.
  revert pre s. induction docs as [|[c d] r IH]; intros pre s Hs H; cbn [add_records] in H.
  { injection H as <-. by rewrite app_nil_r. }
  destruct (add_record c s d) as [[[]|e] s1] eqn:E; [| done].
  change (pre ++ (c, d) :: r) with (pre ++ [(c, d)] ++ r). rewrite app_assoc.
  eapply IH; [| done]. by eapply add_record_reflects.
Qed.

Lemma loaded_reflects docs s :
  add_records NewSnapshotMetadata docs = (Ok tt, s) -> reflects docs s.
Proof. apply (add_records_reflect []), reflects_new. Qed.

(** *** Queries of a loaded snapshot *)

Lemma time_of_utc v t : parse_rfc3339 v = Some t -> time_of v = t.
Proof. intros H. unfold time_of. by rewrite (go_parse_utc _ _ H). Qed.

(** A published signal revokes the subject at or before [at_]. *)
Definition revoked_by (docs : list (category * bytes)) (kind subject : string) (at_ : instant) : Prop :=
  exists sig t, published_revocation docs sig /\ rv_subject_kind sig = kind /\
    rv_subject_id sig = subject /\ parse_rfc3339 (rv_effective_at sig) = Some t /\ t <= at_.

Lemma revocation_time data sig :
  ParseRevocationSignal data = Ok sig -> exists t, parse_rfc3339 (rv_effective_at sig) = Some t.
Proof.
  unfold ParseRevocationSignal. intros H. inv_ok.
  match goal with Ht : parseUTCTime _ _ = Ok _ |- _ => apply parseUTCTime_Ok in Ht; eauto end.
Qed.

Lemma Revoked_iff docs s kind subject at_ :
  reflects docs s -> Revoked s kind subject at_ = true <-> revoked_by docs kind subject at_.
Proof.
  intros Hs. pose proof (rf_rev _ _ Hs (kind, subject)) as Hv. unfold Revoked, revokedAt.
  assert (Hx : forall x, published_revocation docs x ->
    exists t, parse_rfc3339 (rv_effective_at x) = Some t /\ time_of (rv_effective_at x) = t).
  { intros x (data & _ & Hp). destruct (revocation_time _ _ Hp) as [t Ht].
    exists t. split; [done | by apply time_of_utc]. }
  destruct (revocations s !! (kind, subject)) as [c|].
  - unfold after. rewrite negb_true_iff, Z.ltb_ge. destruct Hv as [(x & Hpx & Hk & <-) Hall]. split.
    + intros Hle. destruct (Hx x Hpx) as (t & Ht & Ht'). injection Hk as <- <-.
      exists x, t. repeat (split; [done |]). by rewrite <- Ht'.
    + intros (y & t & Hy & Hk1 & Hk2 & Ht & Hle).
      specialize (Hall y Hy ltac:(unfold rv_subject; congruence)).
      rewrite (time_of_utc _ _ Ht) in Hall. lia.
  - split; [done |]. intros (y & t & Hy & Hk1 & Hk2 & _).
    destruct (Hv y Hy). unfold rv_subject. congruence.
Qed.

Lemma not_revoked docs s kind subject at_ :
  reflects docs s -> revokedAt s (kind, subject) at_ = false <-> ~ revoked_by docs kind subject at_.
Proof.
  intros Hs. rewrite <- (Revoked_iff _ _ _ _ _ Hs). unfold Revoked.
  by rewrite not_true_iff_false.
Qed.

(** A published authorization that admits the device with the token. *)
Definition authority_to_connect docs aid did tid at_ (r : DeviceSessionAuthorization) : Prop :=
  published_authorization docs r /\ da_authorization_id r = aid /\ da_device_id r = did /\
  da_token_id r = tid /\ da_disabled r = false /\ in_window (da_not_before r) (da_expires_at r) at_ /\
  ~ revoked_by docs "device_session_authorization" aid at_ /\ ~ revoked_by docs "device" did at_.

(** A published route that serves the host. *)
Definition authority_to_route docs host at_ (r : EndpointRouteAssignment) : Prop :=
  published_route docs r /\ canonicalHostname (ra_public_hostname r) = canonicalHostname host /\
  ra_enabled r = true /\ in_window (ra_not_before r) (ra_expires_at r) at_ /\
  ~ revoked_by docs "endpoint_route_assignment" (ra_assignment_id r) at_ /\
  ~ revoked_by docs "device" (ra_device_id r) at_.

Lemma in_window_times nb exp at_ :
  (exists t, parse_rfc3339 nb = Some t) -> (exists t, parse_rfc3339 exp = Some t) ->
  (before at_ (time_of nb) || negb (before at_ (time_of exp))) = false <-> in_window nb exp at_.
Proof.
  intros [t Ht] [t' Ht']. rewrite window_check, (time_of_utc _ _ Ht), (time_of_utc _ _ Ht').
  unfold in_window. split; [by eauto |]. intros (? & ? & ? & ? & ?). congruence.
Qed.

Lemma Authorization_iff docs s aid did tid at_ r :
  reflects docs s ->
  Authorization s aid did tid at_ = Ok r <-> authority_to_connect docs aid did tid at_ r.
Proof.
  intros Hs. rewrite Authorization_checked. unfold check_authorization, authority_to_connect.
  assert (Hcore : forall r', published_authorization docs r' -> da_authorization_id r' = aid ->
    authorizations s !! aid = Some (auth_snap r')).
  { intros r' Hp Hid. apply (rf_auth _ _ Hs). by exists r'. }
  split.
  - destruct (authorizations s !! aid) as [e|] eqn:El; [| done].
    apply (rf_auth _ _ Hs) in El as (x & Hx & Hid & <-). simpl. intros H. inv_ok.
    pose proof Hx as (data & _ & Hp). apply authorization_record_wf in Hp as Hwf.
    destruct Hwf as (_ & _ & _ & _ & _ & _ & ti & tn & te & Hi & Hn & He & _).
    apply in_window_times in E1; [| by eauto..]. apply orb_false_iff in E2 as [E2 E2'].
    rewrite orb_false_r in E. apply orb_false_iff in E as [E E']. bool_facts. subst did tid.
    apply (not_revoked _ _ _ _ _ Hs) in E, E'. done.
  - intros (Hp & Hid & <- & <- & Hd & Hw & Hr1 & Hr2). rewrite (Hcore r Hp Hid). simpl.
    rewrite Hd. simpl.
    pose proof Hp as (data & _ & Hparse). apply authorization_record_wf in Hparse as Hwf.
    destruct Hwf as (_ & _ & _ & _ & _ & _ & ti & tn & te & Hi & Hn & He & _).
    rewrite (proj2 (in_window_times _ _ at_ (ex_intro _ _ Hn) (ex_intro _ _ He)) Hw). simpl.
    rewrite !String.eqb_refl, Hid. simpl.
    by rewrite !(proj2 (not_revoked _ _ _ _ _ Hs)).
Qed.

Lemma RouteByHostname_iff docs s host at_ r :
  reflects docs s ->
  RouteByHostname s host at_ = Ok r <-> authority_to_route docs host at_ r.
Proof.
  intros Hs. unfold RouteByHostname, authority_to_route. split.
  - destruct (routes s !! canonicalHostname host) as [e|] eqn:El; [| done].
    apply (rf_route _ _ Hs) in El as (x & Hx & Hid & <-). simpl. intros H. inv_ok.
    pose proof Hx as (data & _ & Hp). apply route_record_wf in Hp as Hwf.
    destruct Hwf as (_ & _ & _ & _ & _ & _ & tn & te & Hn & He & _).
    apply in_window_times in E0; [| by eauto..].
    rewrite orb_false_r in E1. apply orb_false_iff in E1 as [E1 E1']. bool_facts.
    apply (not_revoked _ _ _ _ _ Hs) in E1, E1'. done.
  - intros (Hp & Hid & Hen & Hw & Hr1 & Hr2).
    rewrite (proj2 (rf_route _ _ Hs _ (route_snap r))) by (by exists r). simpl.
    rewrite Hen. simpl.
    pose proof Hp as (data & _ & Hparse). apply route_record_wf in Hparse as Hwf.
    destruct Hwf as (_ & _ & _ & _ & _ & _ & tn & te & Hn & He & _).
    rewrite (proj2 (in_window_times _ _ at_ (ex_intro _ _ Hn) (ex_intro _ _ He)) Hw). simpl.
    by rewrite !(proj2 (not_revoked _ _ _ _ _ Hs)).
Qed.

(** C37: A snapshot loaded without error from a list of documents answers by
    the documents alone, in whatever order they came: a device is authorized
    exactly by a published, enabled record for its three identifiers that is
    active at the instant and not revoked, a host is routed exactly by such an
    assignment for its canonical name, and a subject is revoked exactly when
    some signal for it took effect by then. *)
Theorem snapshot_authority docs s :
  add_records NewSnapshotMetadata docs = (Ok tt, s) ->
  (forall aid did tid at_ r,
     Authorization s aid did tid at_ = Ok r <-> authority_to_connect docs aid did tid at_ r) /\
  (forall host at_ r, RouteByHostname s host at_ = Ok r <-> authority_to_route docs host at_ r) /\
  (forall kind subject at_, Revoked s kind subject at_ = true <-> revoked_by docs kind subject at_).
Proof.
  intros Hs%loaded_reflects. split; [| split].
  - intros. by apply Authorization_iff.
  - intros. by apply RouteByHostname_iff.
  - intros. by apply Revoked_iff.
Qed.

Definition demo_revocation : bytes :=
  demo_json ("{'contract_version':1,'event_id':'ev-1','subject_kind':'device','subject_id':'dev-9'," +:+
    "'effective_at':'2024-01-01T12:00:00Z','reason_code':'disabled'}").

Lemma snapshot_authority_witness :
  let docs := [(CatAuthorizations, demo_authorization); (CatRevocations, demo_revocation)] in
  exists s, add_records NewSnapshotMetadata docs = (Ok tt, s) /\
            Revoked s "device" "dev-9" 1704110400000000000 = true /\
            revoked_by docs "device" "dev-9" 1704110400000000000.
Proof.
  intros docs.
  destruct (add_records NewSnapshotMetadata docs) as [[[]|e] s] eqn:E; [| vm_compute in E; discriminate].
  exists s. split; [reflexivity |].
  assert (Hr : Revoked s "device" "dev-9" 1704110400000000000 = true)
    by (vm_compute in E; injection E as <-; vm_compute; reflexivity).
  split; [exact Hr |].
  destruct (snapshot_authority docs s E) as (_ & _ & H). by apply H.
Defined.
