(* ===== verification/ConnectorAuth.v ===== *)
(** * ConnectorAuth: [internal/gateway/connector_authorization.go]

    What a Connector must present before a private stream takes a Gateway slot.
    The decision is proved against an interface ([PrivateEndpointMetadata], the
    Go interface of metadata.go) and the laws a metadata source owes it; the
    snapshot of {!Metadata} discharges them. *)

From S2P Require Import Prelude GoText GoTime Json StrictJson Frame Contract Control ContractV2 Metadata.

Definition errConnectorUnauthorized : error := ErrSentinel "connector authorization failed".

(** The Go interface of the same name. *)
Class PrivateEndpointMetadata (M : Type) := {
  pem_ServiceEndpoint : M -> string -> instant -> result ServiceEndpoint;
  pem_ConnectorGrant : M -> string -> instant -> result ConnectorGrant;
}.

#[export] Instance snapshot_private_endpoints : PrivateEndpointMetadata SnapshotMetadata := {|
  pem_ServiceEndpoint := ServiceEndpoint_at;
  pem_ConnectorGrant := ConnectorGrant_at;
|}.

Definition hexNibble (value : Byte.byte) : option Z :=
  if in_range 48 57 value then Some (u8 (bz value - 48))
  else if in_range 97 102 value then Some (u8 (bz value - 97 + 10))
  else None.

Fixpoint decode_nibbles (bs : bytes) : option bytes :=
  match bs with
  | [] => Some []
  | h :: l :: r =>
    match hexNibble h, hexNibble l, decode_nibbles r with
    | Some high, Some low, Some t => Some (zb (Z.lor (u8 (Z.shiftl high 4)) low) :: t)
    | _, _, _ => None
    end
  | [_] => None
  end.

Definition decodeSHA256 (value : string) : option bytes :=
  if negb (slen value =? 64) then None else decode_nibbles (bytes_of value).

Section Authorize.
(** [sha256.Sum256]. *)
Context (Sum256 : bytes -> bytes).
Context {M : Type} `{PrivateEndpointMetadata M}.

Definition authorizeConnector (metadata : option M) (grantID tokenID token : string) (at_ : instant)
  : result (ConnectorGrant * ServiceEndpoint) :=
  match metadata with
  | None => Err errConnectorUnauthorized
  | Some m =>
    if (slen token <? 32) || (512 <? slen token) then Err errConnectorUnauthorized else
    match pem_ConnectorGrant m grantID at_ with
    | Err _ => Err errConnectorUnauthorized
    | Ok grant =>
      if negb (String.eqb (cg_token_id grant) tokenID) then Err errConnectorUnauthorized else
      let digest := Sum256 (bytes_of token) in
      match decodeSHA256 (cg_token_sha256 grant) with
      | None => Err errConnectorUnauthorized
      | Some expected =>
        if negb (ConstantTimeCompare digest expected) then Err errConnectorUnauthorized else
        match pem_ServiceEndpoint m (cg_endpoint_id grant) at_ with
        | Err _ => Err errConnectorUnauthorized
        | Ok endpoint =>
          if (negb (String.eqb (se_protocol endpoint) "tcp") &&
              negb (String.eqb (se_protocol endpoint) "udp")) ||
             (negb (String.eqb (se_exposure endpoint) "private") &&
              negb (String.eqb (se_exposure endpoint) "both"))
          then Err errConnectorUnauthorized
          else Ok (grant, endpoint)
        end
      end
    end
  end.

(** A grant the token unlocks. *)
Definition unlocks (token : string) (g : ConnectorGrant) : Prop :=
  32 <= slen token <= 512 /\ bytes_of (cg_token_sha256 g) = hex_encode (Sum256 (bytes_of token)).

Definition stream_endpoint (e : ServiceEndpoint) : Prop :=
  se_protocol e ∈ ["tcp"; "udp"] /\ se_exposure e ∈ ["private"; "both"].

Lemma nibble_byte (P : Byte.byte -> bool) b :
  forallb P ((fun n => zb (Z.of_nat n)) <$> seq 0 256) = true -> P b = true.
Proof.
  intros Hall. rewrite forallb_forall in Hall. apply Hall, list_elem_of_In, list_elem_of_fmap.
  exists (Z.to_nat (bz b)). pose proof (bz_range b). split.
  - by rewrite Z2Nat.id, zb_bz by lia.
  - apply elem_of_seq. lia.
Qed.

Lemma hexNibble_digit b v : hexNibble b = Some v -> 0 <= v < 16 /\ b = hex_digit v.
Proof.
  pose proof (nibble_byte (fun b => match hexNibble b with
    | Some v => (0 <=? v) && (v <? 16) && Byte.eqb b (hex_digit v) | None => true end) b
    ltac:(vm_compute; reflexivity)) as Hb. simpl in Hb.
  intros E. rewrite E in Hb. bool_facts. done.
Qed.

Lemma digit_hexNibble v : 0 <= v < 16 -> hexNibble (hex_digit v) = Some v.
Proof.
  intros Hv. apply (nibble_cases (fun v => bool_decide (hexNibble (hex_digit v) = Some v))) in Hv;
    [by apply bool_decide_eq_true in Hv | reflexivity].
Qed.

Lemma join_nibbles h l : 0 <= h < 16 -> 0 <= l < 16 -> Z.lor (u8 (Z.shiftl h 4)) l = 16 * h + l.
Proof.
  intros Hh Hl.
  assert (Hc : forallb (fun h => forallb (fun l => Z.lor (u8 (Z.shiftl h 4)) l =? 16 * h + l) (seqZ 0 16))
                 (seqZ 0 16) = true) by (vm_compute; reflexivity).
  apply (nibble_cases _ h Hh) in Hc. apply (nibble_cases _ l Hl) in Hc. by apply Z.eqb_eq in Hc.
Qed.

Lemma bytes_ind2 (P : bytes -> Prop) :
  P [] -> (forall a, P [a]) -> (forall a b r, P r -> P (a :: b :: r)) -> forall l, P l.
Proof.
  intros H0 H1 H2 l. enough (P l /\ forall a, P (a :: l)) by naive_solver.
  induction l as [|b l [IHl IHc]]; [auto |]. split; [apply IHc | intros a; by apply H2].
Qed.

Lemma decode_nibbles_iff bs d : decode_nibbles bs = Some d <-> bs = hex_encode d.
Proof.
  split.
  - revert d. induction bs as [| |h l r IH] using bytes_ind2; intros d Hd; cbn [decode_nibbles] in Hd.
    + injection Hd as <-. done.
    + done.
    + destruct (hexNibble h) as [x|] eqn:Eh; [| done]. destruct (hexNibble l) as [y|] eqn:El; [| done].
      destruct (decode_nibbles r) as [t|]; [| done]. injection Hd as <-.
      apply hexNibble_digit in Eh as [Hx ->]. apply hexNibble_digit in El as [Hy ->].
      rewrite (IH t eq_refl). unfold hex_encode. cbn [flat_map app].
      rewrite join_nibbles, bz_zb_small by lia.
      rewrite (Z.mul_comm 16), Z.div_add_l, Z.div_small, Z.add_0_r by lia.
      by rewrite Z.add_comm, Z.mod_add, Z.mod_small by lia.
  - intros ->. induction d as [|b r IH]; [done |].
    unfold hex_encode in *. cbn [flat_map app decode_nibbles]. rewrite IH.
    pose proof (bz_range b). pose proof (Z.mod_pos_bound (bz b) 16 ltac:(lia)).
    assert (0 <= bz b / 16 < 16) by (split; [apply Z.div_pos | apply Z.div_lt_upper_bound]; lia).
    rewrite (digit_hexNibble (bz b / 16)), (digit_hexNibble (bz b mod 16)), join_nibbles by done.
    rewrite <- Z.div_mod by lia. by rewrite zb_bz.
Qed.

Lemma hex_encode_length d : length (hex_encode d) = (2 * length d)%nat.
Proof. induction d as [|b r IH]; [done |]. unfold hex_encode in *. simpl. rewrite IH. lia. Qed.

Lemma decodeSHA256_iff v d :
  decodeSHA256 v = Some d <-> bytes_of v = hex_encode d /\ zlen d = 32.
Proof.
  unfold decodeSHA256. rewrite slen_bytes. split.
  - destruct (negb _) eqn:E; [done |]. bool_facts. intros Hd%decode_nibbles_iff. split; [done |].
    rewrite Hd in E. unfold zlen in *. rewrite hex_encode_length in E. lia.
  - intros [Hv Hd]. rewrite Hv. unfold zlen in *. rewrite hex_encode_length.
    rewrite (proj2 (Z.eqb_eq _ _)) by lia. simpl. by apply decode_nibbles_iff.
Qed.

Lemma authorizeConnector_Ok m grantID tokenID token at_ g e :
  (forall b, zlen (Sum256 b) = 32) ->
  authorizeConnector (Some m) grantID tokenID token at_ = Ok (g, e) <->
  pem_ConnectorGrant m grantID at_ = Ok g /\ cg_token_id g = tokenID /\ unlocks token g /\
  pem_ServiceEndpoint m (cg_endpoint_id g) at_ = Ok e /\ stream_endpoint e.
Proof.
  intros Hlen. unfold authorizeConnector, unlocks, stream_endpoint. split.
  - destruct (_ || _) eqn:El; [done |]. bool_facts.
    destruct (pem_ConnectorGrant m grantID at_) as [grant|]; [| done].
    destruct (negb _) eqn:Et; [done |]. cbn zeta.
    destruct (decodeSHA256 _) as [d|] eqn:Ed; [| done]. apply decodeSHA256_iff in Ed as [Ed _].
    destruct (negb (ConstantTimeCompare _ _)) eqn:Ec; [done |]. bool_facts.
    apply ConstantTimeCompare_eq in Ec as <-.
    destruct (pem_ServiceEndpoint m _ at_) as [ep|] eqn:Ee; [| done].
    destruct (_ || _) eqn:Ep; [done |]. intros [= <- <-].
    apply orb_false_iff in Ep as [Ep Ex]. apply andb_false_iff in Ep, Ex.
    rewrite !negb_false_iff, !String.eqb_eq in Ep, Ex.
    split; [done | split; [done | split; [split; [lia | done] | split; [done |]]]]. set_solver.
  - intros (-> & <- & (Hl & Hd) & -> & Hp & Hx).
    rewrite (proj2 (Z.ltb_ge _ _)), (proj2 (Z.ltb_ge _ _)) by lia. cbn [orb].
    rewrite String.eqb_refl. cbn [negb]. cbn zeta.
    rewrite (proj2 (decodeSHA256_iff _ (Sum256 (bytes_of token)))) by done.
    rewrite (proj2 (ConstantTimeCompare_eq _ _)) by done. cbn [negb].
    assert ((negb (String.eqb (se_protocol e) "tcp") && negb (String.eqb (se_protocol e) "udp")) = false) as ->.
    { rewrite andb_false_iff, !negb_false_iff, !String.eqb_eq. set_solver. }
    assert ((negb (String.eqb (se_exposure e) "private") && negb (String.eqb (se_exposure e) "both")) = false) as ->.
    { rewrite andb_false_iff, !negb_false_iff, !String.eqb_eq. set_solver. }
    done.
Qed.

Lemma authorizeConnector_Err metadata grantID tokenID token at_ err :
  authorizeConnector metadata grantID tokenID token at_ = Err err -> err = errConnectorUnauthorized.
Proof. unfold authorizeConnector. intros. repeat (case_match; simplify_eq; try done). Qed.
End Authorize.

(** ** Against a loaded snapshot *)

(** A published, enabled grant whose bounds contain the instant. *)
Definition active_grant docs grantID at_ (g : ConnectorGrant) : Prop :=
  published_grant docs g /\ cg_grant_id g = grantID /\ cg_disabled g = false /\
  exists nb exp, canonicalTimestamp (cg_not_before g) = Ok nb /\
                 canonicalTimestamp (cg_expires_at g) = Ok exp /\ nb <= at_ < exp.

(** A published, enabled endpoint whose owner is not revoked. *)
Definition active_endpoint docs endpointID at_ (e : ServiceEndpoint) : Prop :=
  published_endpoint docs e /\ se_endpoint_id e = endpointID /\ se_enabled e = true /\
  ~ revoked_by docs "device" (se_owner_device_id e) at_.

Lemma published_grant_wf docs g : published_grant docs g -> grant_wf g.
Proof.
  intros (data & _ & Hp). unfold ParseConnectorGrant in Hp. inv_ok. by apply validate_grant_iff.
Qed.

Lemma canonical_go v t : canonicalTimestamp v = Ok t ->
  exists z, go_parse_rfc3339 v = Some z /\ z_instant z = t.
Proof.
  unfold canonicalTimestamp. destruct (go_parse_rfc3339 v) as [z|]; [| done].
  destruct (_ && _); [| done]. intros [= <-]. eauto.
Qed.

Lemma ConnectorGrant_at_iff docs s grantID at_ g :
  reflects docs s -> ConnectorGrant_at s grantID at_ = Ok g <-> active_grant docs grantID at_ g.
Proof.
  intros Hs. unfold ConnectorGrant_at, active_grant. split.
  - destruct (connectorGrants s !! grantID) as [x|] eqn:El; [| done].
    apply (rf_grant _ _ Hs) in El as (y & Hy & <- & E). unfold id in E. subst y.
    destruct (published_grant_wf _ _ Hy) as (_ & _ & _ & _ & _ & _ & (nb & ex & Hnb & Hex & _) & _).
    destruct (canonical_go _ _ Hnb) as (z1 & Hz1 & <-), (canonical_go _ _ Hex) as (z2 & Hz2 & <-).
    rewrite Hz1, Hz2. intros H. inv_ok. apply window_check in E0. eauto 9.
  - intros (Hp & Hid & Hd & nb & ex & Hnb & Hex & Hw).
    rewrite (proj2 (rf_grant _ _ Hs grantID g)) by (by exists g). rewrite Hd.
    destruct (canonical_go _ _ Hnb) as (z1 & Hz1 & <-), (canonical_go _ _ Hex) as (z2 & Hz2 & <-).
    rewrite Hz1, Hz2. cbn [reject_if rbind]. by rewrite (proj2 (window_check _ _ _)).
Qed.

Lemma ServiceEndpoint_at_iff docs s endpointID at_ e :
  reflects docs s -> ServiceEndpoint_at s endpointID at_ = Ok e <-> active_endpoint docs endpointID at_ e.
Proof.
  intros Hs. unfold ServiceEndpoint_at, active_endpoint. split.
  - destruct (serviceEndpoints s !! endpointID) as [x|] eqn:El; [| done].
    apply (rf_endpoint _ _ Hs) in El as (y & Hy & <- & E). unfold id in E. subst y.
    intros H. inv_ok. apply negb_false_iff in E. apply (not_revoked _ _ _ _ _ Hs) in E0. done.
  - intros (Hp & Hid & He & Hr).
    rewrite (proj2 (rf_endpoint _ _ Hs endpointID e)) by (by exists e). rewrite He.
    cbn [negb reject_if rbind]. by rewrite (proj2 (not_revoked _ _ _ _ _ Hs)).
Qed.

(** On a snapshot loaded from documents a Connector is let through
    exactly when a published grant of the given id is enabled and active,
    carries the given token id and the SHA-256 of the presented token (of 32
    to 512 bytes), and names a published, enabled TCP or UDP endpoint, private
    or both, whose owner is not revoked; every refusal is the same error, so
    it does not tell which of these failed. *)
Theorem connector_authorized (Sum256 : bytes -> bytes) docs s grantID tokenID token at_ :
  (forall b, zlen (Sum256 b) = 32) ->
  add_records NewSnapshotMetadata docs = (Ok tt, s) ->
  (forall g e,
     authorizeConnector Sum256 (Some s) grantID tokenID token at_ = Ok (g, e) <->
     active_grant docs grantID at_ g /\ cg_token_id g = tokenID /\ unlocks Sum256 token g /\
     active_endpoint docs (cg_endpoint_id g) at_ e /\ stream_endpoint e) /\
  (forall err, authorizeConnector Sum256 (Some s) grantID tokenID token at_ = Err err ->
     err = errConnectorUnauthorized).
Proof.
  intros Hlen Hs%loaded_reflects. split.
  - intros g e. rewrite (authorizeConnector_Ok _ _ _ _ _ _ _ _ Hlen). simpl.
    by rewrite (ConnectorGrant_at_iff _ _ _ _ _ Hs), (ServiceEndpoint_at_iff _ _ _ _ _ Hs).
  - intros err. apply authorizeConnector_Err.
Qed.

(** A stand-in digest: 32 copies of the length byte. *)
Definition demo_sum (b : bytes) : bytes := repeat (zb (zlen b)) 32.

Definition demo_grant_json : bytes :=
  marshal_grant (MkConnectorGrant "connector_grant" 2 "grant-1" "ep-1" "tok-1"
    (string_of (hex_encode (repeat (zb 32) 32))) "2026-01-02T03:04:05Z" "2026-02-02T03:04:05Z" false 4).

Definition demo_endpoint_json : bytes :=
  demo_json ("{'kind':'service_endpoint','contract_version':2,'endpoint_id':'ep-1'," +:+
    "'owner_device_id':'dev-1','protocol':'tcp','local_endpoint_id':'local-1'," +:+
    "'exposure':'private','enabled':true,'created_at':'2026-01-01T00:00:00Z','revision':1}").

Lemma connector_authorized_witness :
  let docs := [(CatServiceEndpoints, demo_endpoint_json); (CatConnectorGrants, demo_grant_json)] in
  let token := "0123456789abcdef0123456789abcdef" in
  let at_ := time_of "2026-01-15T00:00:00Z" in
  exists s g e, add_records NewSnapshotMetadata docs = (Ok tt, s) /\
    authorizeConnector demo_sum (Some s) "grant-1" "tok-1" token at_ = Ok (g, e) /\
    active_grant docs "grant-1" at_ g /\ active_endpoint docs "ep-1" at_ e.
Proof.
  intros docs token at_.
  destruct (add_records NewSnapshotMetadata docs) as [[[]|er] s] eqn:E; [| vm_compute in E; discriminate].
  assert (Hlen : forall b, zlen (demo_sum b) = 32) by (intros b; reflexivity).
  destruct (authorizeConnector demo_sum (Some s) "grant-1" "tok-1" token at_) as [[g e]|er] eqn:Ea;
    [| vm_compute in E; injection E as <-; vm_compute in Ea; discriminate].
  exists s, g, e. split; [reflexivity | split; [exact Ea |]].
  destruct (connector_authorized demo_sum docs s "grant-1" "tok-1" token at_ Hlen E) as [Hiff _].
  pose proof Ea as Ha. apply Hiff in Ha as (Hg & _ & _ & He & _). split; [exact Hg |].
  assert (cg_endpoint_id g = "ep-1") as <-
    by (vm_compute in E; injection E as <-; vm_compute in Ea; injection Ea as <- <-; reflexivity).
  exact He.
Defined.
