(* ===== verification/LiveMeta.v ===== *)
(** * LiveMeta: [internal/gateway/live_metadata.go]

    The Gateway follows a directory the Control Panel publishes into: a
    manifest names the current generation, each refresh validates it and may
    activate a newer one, and every query is answered from the active
    generation until its deadline.  Includes the readers of
    [metadata_file_unix.go].

    The file system is a parameter: what the calls of [os] and [syscall] return
    at the time of each walk.  Paths are lists of absolute components. *)

From S2P Require Import Prelude GoText GoTime Json StrictJson Frame Contract ContractV2 Metadata.
From S2P Require Import ConnectorAuth.

Definition DefaultMetadataRefreshInterval : Z := Second.
Definition DefaultMetadataMaxSnapshotAge : Z := 30 * Second.
Definition maxMetadataManifestBytes : Z := 16 * 1024.
Definition maxMetadataRecordBytes : Z := 2 ^ 20.
Definition maxLiveMetadataRecords : Z := 100000.
Definition maxLiveGenerationBytes : Z := 64 * 2 ^ 20.
Definition maxMetadataFutureSkew : Z := 30 * Second.

Definition ErrMetadataUnavailable : error := ErrSentinel "live external metadata is unavailable".
Definition ErrMetadataStale : error := ErrSentinel "live external metadata is stale".

(** ** The file system *)

Inductive lstat_result :=
| LstatNotExist
| LstatErr (e : error)
| Lstat (symlink dir : bool).

(** [os.DirEntry], with the size and the modification time of [Info()]. *)
Record dir_entry := DirEntry {
  de_name : string;
  de_is_dir : bool;
  de_symlink : bool;
  de_info : result (Z * Z);
}.

Inductive listing :=
| ListNotExist
| ListErr (e : error)
| Listed (entries : list dir_entry).

(** [syscall.Open] without following links, then [Stat] (is it regular, its
    size) and the bytes [io.ReadAll] would deliver. *)
Inductive open_result :=
| OpenLoop
| OpenErr (e : error)
| Opened (stat : result (bool * Z)) (contents : result bytes).

Record filesystem := Filesystem {
  fs_lstat : list string -> lstat_result;
  fs_list : list string -> listing;
  fs_open : list string -> open_result;
}.

Definition err_not_exist : error := ErrSentinel "file does not exist".

Definition readTrustedMetadataFile (fs : filesystem) (path : list string) (maxBytes : Z) : result bytes :=
  match fs_open fs path with
  | OpenLoop => Err (ErrMsg "metadata path must be a regular non-symlink file")
  | OpenErr e => Err e
  | Opened (Err e) _ => Err e
  | Opened (Ok (regular, size)) contents =>
    reject_if (negb regular) (ErrMsg "metadata path must be a regular non-symlink file") ;?
    reject_if (maxBytes <? size) (ErrMsg "metadata file exceeds its limit") ;?
    let? data := contents in
    let data := firstn (Z.to_nat (maxBytes + 1)) data in
    reject_if (maxBytes <? zlen data) (ErrMsg "metadata file exceeds its limit") ;?
    Ok data
  end.

Fixpoint validate_components (fs : filesystem) (allowMissing : bool) (current rest : list string)
  : result unit :=
  match rest with
  | [] => Ok tt
  | part :: r =>
    let current := current ++ [part] in
    match fs_lstat fs current with
    | LstatNotExist => if allowMissing then Ok tt else Err err_not_exist
    | LstatErr e => Err e
    | Lstat symlink dir =>
      if symlink || negb dir
      then Err (ErrMsg "metadata directory path component must be a real directory")
      else validate_components fs allowMissing current r
    end
  end.

Definition validateTrustedMetadataDirectory (fs : filesystem) (path : list string)
    (allowMissing : bool) : result unit :=
  validate_components fs allowMissing [] path.

(** ** The package's strict JSON walk *)

Fixpoint consumeStrictJSONObject (fuel : nat) (d : decoder) (seen : gset string) : result decoder :=
  match fuel with
  | O => Err err_fuel
  | S f =>
    if dec_more d then
      match dec_token d with
      | TokOk (JString key) d1 =>
        if bool_decide (key ∈ seen)
        then Err (ErrMsg ("duplicate JSON object member name: " +:+ key))
        else
          match dec_token d1 with
          | TokOk valueToken d2 =>
            match consumeStrictJSONValue f d2 valueToken with
            | Ok d3 => consumeStrictJSONObject f d3 ({[key]} ∪ seen)
            | Err e => Err e
            end
          | _ => Err (ErrWrap ("invalid JSON value for " +:+ key) err_json)
          end
      | TokOk _ _ => Err (ErrMsg "JSON object member name must be a string")
      | _ => Err (ErrWrap "invalid JSON object key" err_json)
      end
    else
      match dec_token d with
      | TokOk (JDelim RBrace) d1 => Ok d1
      | TokOk _ _ => Err (ErrMsg "invalid JSON object close")
      | _ => Err (ErrWrap "invalid JSON object close" err_json)
      end
  end
with consumeStrictJSONValue (fuel : nat) (d : decoder) (t : jtoken) : result decoder :=
  match t with
  | JDelim dl =>
    match fuel with
    | O => Err err_fuel
    | S f =>
      match dl with
      | LBrace => consumeStrictJSONObject f d ∅
      | LBrack => consume_strict_items f d
      | _ => Err (ErrMsg "invalid JSON delimiter")
      end
    end
  | _ => Ok d
  end
with consume_strict_items (fuel : nat) (d : decoder) : result decoder :=
  match fuel with
  | O => Err err_fuel
  | S f =>
    if dec_more d then
      match dec_token d with
      | TokOk item d1 =>
        match consumeStrictJSONValue f d1 item with
        | Ok d2 => consume_strict_items f d2
        | Err e => Err e
        end
      | _ => Err err_json
      end
    else
      match dec_token d with
      | TokOk (JDelim RBrack) d1 => Ok d1
      | TokOk _ _ => Err (ErrMsg "invalid JSON array close")
      | _ => Err err_json
      end
  end.

Definition validateStrictJSONObject_gw (data : bytes) : result unit :=
  reject_if (negb (utf8_valid data)) (ErrMsg "JSON payload is not valid UTF-8") ;?
  match dec_token (new_decoder data) with
  | TokOk (JDelim LBrace) d =>
    let? d' := consumeStrictJSONObject (walk_fuel data) d ∅ in
    match dec_token d' with
    | TokEOF => Ok tt
    | TokOk _ _ => Err (ErrMsg "multiple JSON values are not allowed")
    | TokErr => Err (ErrWrap "trailing JSON is invalid" err_json)
    end
  | TokOk _ _ => Err (ErrMsg "JSON payload must be one object")
  | _ => Err (ErrWrap "invalid JSON" err_json)
  end.

Definition decodeStrictJSONObject (fs : schema) (data : bytes) : result (gmap string field_val) :=
  validateStrictJSONObject_gw data ;? decodeStrict fs data.

(** ** The manifest *)

Record MetadataGenerationManifest := MkManifest {
  mf_contract_version : Z;
  mf_revision : Z;
  mf_generation : string;
  mf_published_at : string;
  mf_valid_until : string;
}.

Definition MetadataGenerationManifest_schema : schema :=
  [("contract_version", KInt); ("revision", KUint64); ("generation", KString);
   ("published_at", KString); ("valid_until", KString)].

Definition MetadataGenerationManifest_of (m : gmap string field_val) : MetadataGenerationManifest :=
  MkManifest (get_int m "contract_version") (get_int m "revision") (get_string m "generation")
    (get_string m "published_at") (get_string m "valid_until").

Definition generation_byte (b : Byte.byte) : bool :=
  is_alnum b || Byte.eqb b "-"%byte || Byte.eqb b "_"%byte || Byte.eqb b "."%byte.

Definition validGenerationName (value : string) : bool :=
  if String.eqb value EmptyString || String.eqb value "." || String.eqb value ".." ||
     (128 <? slen value) then false
  else forallb generation_byte (bytes_of value).

Record parsedMetadataManifest := MkParsed {
  pm_revision : Z;
  pm_generation : string;
  pm_publishedAt : instant;
  pm_validUntil : instant;
  pm_deadline : instant;
}.

(** The earliest of the three bounds on a snapshot's life. *)
Definition manifest_deadline (publishedAt validUntil now : instant) (maxSnapshotAge : Z) : instant :=
  let localDeadline := publishedAt + maxSnapshotAge in
  let acceptedDeadline := now + maxSnapshotAge in
  let deadline := if before localDeadline validUntil then localDeadline else validUntil in
  if before acceptedDeadline deadline then acceptedDeadline else deadline.

Definition loadMetadataManifest (fs : filesystem) (path : list string) (now : instant)
    (maxSnapshotAge : Z) : result parsedMetadataManifest :=
  let? data := match readTrustedMetadataFile fs path maxMetadataManifestBytes with
               | Ok data => Ok data
               | Err e => Err (ErrWrap "read current metadata manifest" e)
               end in
  let? m := match decodeStrictJSONObject MetadataGenerationManifest_schema data with
            | Ok m => Ok m
            | Err e => Err (ErrWrap "parse current metadata manifest" e)
            end in
  let manifest := MetadataGenerationManifest_of m in
  reject_if (negb (mf_contract_version manifest =? ProtocolVersion))
    (ErrMsg "unsupported metadata manifest contract_version") ;?
  reject_if (mf_revision manifest =? 0)
    (ErrMsg "metadata manifest revision must be greater than zero") ;?
  reject_if (negb (validGenerationName (mf_generation manifest)))
    (ErrMsg "metadata manifest generation is invalid") ;?
  let? publishedAt := parse_time "parse metadata published_at" (mf_published_at manifest) in
  let? validUntil := parse_time "parse metadata valid_until" (mf_valid_until manifest) in
  reject_if (negb (before publishedAt validUntil))
    (ErrMsg "metadata valid_until must be after published_at") ;?
  reject_if (after publishedAt (now + maxMetadataFutureSkew))
    (ErrMsg "metadata published_at is too far in the future") ;?
  let deadline := manifest_deadline publishedAt validUntil now maxSnapshotAge in
  reject_if (negb (before now deadline)) (ErrMsg "metadata candidate is already stale") ;?
  Ok (MkParsed (mf_revision manifest) (mf_generation manifest) publishedAt validUntil deadline).

(** ** A generation *)

Definition category_name (c : category) : string :=
  match c with
  | CatAuthorizations => "authorizations"
  | CatRoutes => "routes"
  | CatRevocations => "revocations"
  | CatServiceEndpoints => "service_endpoints"
  | CatConnectorGrants => "connector_grants"
  end.

(** The categories in reading order, and whether their directory must exist. *)
Definition generation_categories : list (category * bool) :=
  [(CatAuthorizations, true); (CatRoutes, true); (CatRevocations, true);
   (CatServiceEndpoints, false); (CatConnectorGrants, false)].

(** [strings.HasSuffix(strings.ToLower(name), ".json")]. *)
Definition json_name (name : string) : bool :=
  match strip_prefix (rev (bytes_of ".json")) (rev (to_lower (bytes_of name))) with
  | Some _ => true
  | None => false
  end.

Definition unexpected_entry (entry : dir_entry) : bool :=
  de_is_dir entry || de_symlink entry || negb (json_name (de_name entry)).

Definition zero_byte : bytes := [Byte.x00].

(** What the hasher is fed for one record. *)
Definition hash_record (c : category) (name : string) (data : bytes) : bytes :=
  bytes_of (category_name c) ++ zero_byte ++ bytes_of name ++ zero_byte ++ data ++ zero_byte.

Record load_state := LoadState {
  ld_source : SnapshotMetadata;
  ld_hashed : bytes;
  ld_records : Z;
  ld_bytes : Z;
}.

Fixpoint load_entries (fs : filesystem) (dir : list string) (c : category)
    (entries : list dir_entry) (st : load_state) : result load_state :=
  match entries with
  | [] => Ok st
  | entry :: r =>
    let recordCount := ld_records st + 1 in
    reject_if (maxLiveMetadataRecords <? recordCount)
      (ErrMsg "metadata generation exceeds its record limit") ;?
    reject_if (unexpected_entry entry)
      (ErrMsg ("unexpected metadata generation entry " +:+ de_name entry)) ;?
    match readTrustedMetadataFile fs (dir ++ [de_name entry]) maxMetadataRecordBytes with
    | Err e => Err (ErrWrap "read metadata record" e)
    | Ok data =>
      let generationBytes := ld_bytes st + zlen data in
      reject_if (maxLiveGenerationBytes <? generationBytes)
        (ErrMsg "metadata generation exceeds its byte limit") ;?
      match add_record c (ld_source st) data with
      | (Err e, _) => Err (ErrWrap "validate metadata record" e)
      | (Ok _, source) =>
        load_entries fs dir c r
          (LoadState source (ld_hashed st ++ hash_record c (de_name entry) data)
             recordCount generationBytes)
      end
    end
  end.

Fixpoint load_categories (fs : filesystem) (root : list string) (cats : list (category * bool))
    (st : load_state) : result load_state :=
  match cats with
  | [] => Ok st
  | (c, required) :: r =>
    let dir := root ++ [category_name c] in
    match validateTrustedMetadataDirectory fs dir (negb required) with
    | Err e => Err (ErrWrap "validate metadata category" e)
    | Ok _ =>
      match fs_list fs dir with
      | ListNotExist =>
        if required then Err (ErrWrap "read metadata category" err_not_exist)
        else load_categories fs root r st
      | ListErr e => Err (ErrWrap "read metadata category" e)
      | Listed entries =>
        let? st' := load_entries fs dir c entries st in load_categories fs root r st'
      end
    end
  end.

Fixpoint stat_entries (c : category) (entries : list dir_entry) (acc : bytes) : result bytes :=
  match entries with
  | [] => Ok acc
  | entry :: r =>
    reject_if (unexpected_entry entry)
      (ErrMsg ("unexpected metadata generation entry " +:+ de_name entry)) ;?
    let? info := de_info entry in
    stat_entries c r
      (acc ++ bytes_of (category_name c) ++ zero_byte ++ bytes_of (de_name entry) ++ zero_byte ++
       (show_int info.1 ++ ":"%byte :: show_int info.2) ++ zero_byte)
  end.

Fixpoint stat_categories (fs : filesystem) (root : list string) (cats : list (category * bool))
    (acc : bytes) : result bytes :=
  match cats with
  | [] => Ok acc
  | (c, required) :: r =>
    let dir := root ++ [category_name c] in
    validateTrustedMetadataDirectory fs dir (negb required) ;?
    match fs_list fs dir with
    | ListNotExist => if required then Err err_not_exist else stat_categories fs root r acc
    | ListErr e => Err e
    | Listed entries => let? acc' := stat_entries c entries acc in stat_categories fs root r acc'
    end
  end.

(** [LoadSnapshotDirectory] of metadata.go: any JSON file of the five
    directories, all of which may be missing. *)
Fixpoint snapshot_entries (fs : filesystem) (dir : list string) (c : category)
    (entries : list dir_entry) (source : SnapshotMetadata) : result SnapshotMetadata :=
  match entries with
  | [] => Ok source
  | entry :: r =>
    if negb (json_name (de_name entry)) then snapshot_entries fs dir c r source else
    reject_if (de_is_dir entry || de_symlink entry)
      (ErrMsg "metadata JSON entry must be a regular non-symlink file") ;?
    match readTrustedMetadataFile fs (dir ++ [de_name entry]) maxMetadataRecordBytes with
    | Err e => Err (ErrWrap "read metadata file" e)
    | Ok data =>
      match add_record c source data with
      | (Err e, _) => Err (ErrWrap "load metadata file" e)
      | (Ok _, source') => snapshot_entries fs dir c r source'
      end
    end
  end.

Fixpoint snapshot_categories (fs : filesystem) (root : list string) (cats : list category)
    (source : SnapshotMetadata) : result SnapshotMetadata :=
  match cats with
  | [] => Ok source
  | c :: r =>
    let dir := root ++ [category_name c] in
    match validateTrustedMetadataDirectory fs dir true with
    | Err e => Err (ErrWrap "validate metadata directory" e)
    | Ok _ =>
      match fs_list fs dir with
      | ListNotExist => snapshot_categories fs root r source
      | ListErr e => Err (ErrWrap "read metadata directory" e)
      | Listed entries =>
        let? source' := snapshot_entries fs dir c entries source in
        snapshot_categories fs root r source'
      end
    end
  end.

Definition LoadSnapshotDirectory (fs : filesystem) (root : list string) : result SnapshotMetadata :=
  match validateTrustedMetadataDirectory fs root false with
  | Err e => Err (ErrWrap "validate metadata root" e)
  | Ok _ => snapshot_categories fs root (fst <$> generation_categories) NewSnapshotMetadata
  end.

(** ** The live source *)

Record liveMetadataGeneration := MkGeneration {
  lg_snapshot : SnapshotMetadata;
  lg_revision : Z;
  lg_generation : string;
  lg_publishedAt : instant;
  lg_validUntil : instant;
  lg_deadline : instant;
  lg_digest : bytes;
  lg_statFingerprint : bytes;
}.

(** [LiveMetadata] without its logger, ticker and log throttling. *)
Record LiveMetadata := MkLive {
  lm_root : list string;
  lm_maxSnapshotAge : Z;
  lm_active : option liveMetadataGeneration;
  lm_refreshSuccesses : Z;
  lm_refreshFailures : Z;
}.

(** The defaults and the check of [NewLiveMetadata]: the refresh interval and
    the age limit it settles on. *)
Definition live_options (refreshInterval maxSnapshotAge : Z) : result (Z * Z) :=
  let interval := if refreshInterval <=? 0 then DefaultMetadataRefreshInterval else refreshInterval in
  let age := if maxSnapshotAge <=? 0 then DefaultMetadataMaxSnapshotAge else maxSnapshotAge in
  reject_if (age <? interval)
    (ErrMsg "metadata refresh interval must not exceed maximum snapshot age") ;?
  Ok (interval, age).

Definition recordRefreshFailure (m : LiveMetadata) (e : error) : result unit * LiveMetadata :=
  (Err e, MkLive (lm_root m) (lm_maxSnapshotAge m) (lm_active m) (lm_refreshSuccesses m)
            (u64 (lm_refreshFailures m + 1))).

Definition recordRefreshSuccess (m : LiveMetadata) : result unit * LiveMetadata :=
  (Ok tt, MkLive (lm_root m) (lm_maxSnapshotAge m) (lm_active m) (u64 (lm_refreshSuccesses m + 1))
            (lm_refreshFailures m)).

(** [active.Store(candidate)]. *)
Definition activate (m : LiveMetadata) (g : liveMetadataGeneration) : LiveMetadata :=
  MkLive (lm_root m) (lm_maxSnapshotAge m) (Some g) (lm_refreshSuccesses m) (lm_refreshFailures m).

(** The walks of one refresh: others may write in between, so each sees its own
    file system. *)
Inductive walk := WalkManifest | WalkCheck | WalkLoad | WalkStat.

Section Refresh.
(** [sha256.Sum256]. *)
Context (Sum256 : bytes -> bytes).

Definition loadLiveGeneration (fs : filesystem) (root : list string) : result (SnapshotMetadata * bytes) :=
  match validateTrustedMetadataDirectory fs root false with
  | Err e => Err (ErrWrap "validate generation path" e)
  | Ok _ =>
    let? st := load_categories fs root generation_categories (LoadState NewSnapshotMetadata [] 0 0) in
    Ready (ld_source st) ;?
    Ok (ld_source st, Sum256 (ld_hashed st))
  end.

Definition zero_digest : bytes := repeat Byte.x00 32.

(** The digest, zero with an error. *)
Definition statGenerationFingerprint (fs : filesystem) (root : list string) : result bytes :=
  validateTrustedMetadataDirectory fs root false ;?
  let? acc := stat_categories fs root generation_categories [] in
  Ok (Sum256 acc).

(** The active generation, when the manifest names its revision. *)
Definition active_at_revision (active : option liveMetadataGeneration) (revision : Z)
  : option liveMetadataGeneration :=
  match active with
  | Some a => if revision =? lg_revision a then Some a else None
  | None => None
  end.

(** Is the generation on disk provably the active one? *)
Definition unchanged_on_disk (fs : filesystem) (root : list string) (manifest : parsedMetadataManifest)
    (active : option liveMetadataGeneration) : bool :=
  match active_at_revision active (pm_revision manifest) with
  | Some a =>
    if String.eqb (pm_generation manifest) (lg_generation a) then
      match statGenerationFingerprint fs root with
      | Ok fingerprint => bool_decide (fingerprint = lg_statFingerprint a)
      | Err _ => false
      end
    else false
  | None => false
  end.

Definition refreshAt (fs : walk -> filesystem) (now : instant) (m : LiveMetadata)
  : result unit * LiveMetadata :=
  match validateTrustedMetadataDirectory (fs WalkManifest) (lm_root m) false with
  | Err e => recordRefreshFailure m (ErrWrap "validate live metadata root" e)
  | Ok _ =>
    match loadMetadataManifest (fs WalkManifest) (lm_root m ++ ["current.json"]) now
            (lm_maxSnapshotAge m) with
    | Err e => recordRefreshFailure m e
    | Ok manifest =>
      let active := lm_active m in
      let root := lm_root m ++ ["generations"; pm_generation manifest] in
      if match active with Some a => pm_revision manifest <? lg_revision a | None => false end
      then recordRefreshFailure m (ErrMsg "metadata revision rollback rejected")
      else if unchanged_on_disk (fs WalkCheck) root manifest active
      then recordRefreshSuccess m
      else
        match loadLiveGeneration (fs WalkLoad) root with
        | Err e => recordRefreshFailure m (ErrWrap "load metadata generation" e)
        | Ok (snapshot, digest) =>
          match active_at_revision active (pm_revision manifest) with
          | Some a =>
            if negb (String.eqb (lg_generation a) (pm_generation manifest)) ||
               negb (lg_publishedAt a =? pm_publishedAt manifest) ||
               negb (lg_validUntil a =? pm_validUntil manifest) ||
               negb (bool_decide (lg_digest a = digest))
            then recordRefreshFailure m
                   (ErrMsg "metadata revision was republished with different manifest or content")
            else recordRefreshSuccess m
          | None =>
            let fingerprint :=
              match statGenerationFingerprint (fs WalkStat) root with
              | Ok f => f
              | Err _ => zero_digest
              end in
            recordRefreshSuccess
              (activate m (MkGeneration snapshot (pm_revision manifest) (pm_generation manifest)
                             (pm_publishedAt manifest) (pm_validUntil manifest) (pm_deadline manifest)
                             digest fingerprint))
          end
        end
    end
  end.
End Refresh.

Definition activeSnapshot (m : LiveMetadata) (at_ : instant) : result SnapshotMetadata :=
  match lm_active m with
  | None => Err ErrMetadataUnavailable
  | Some active =>
    if negb (before at_ (lg_deadline active))
    then Err (ErrWrap "expired" ErrMetadataStale)
    else Ready (lg_snapshot active) ;? Ok (lg_snapshot active)
  end.

(** Revision, freshness and age. *)
Definition MetadataStats (m : LiveMetadata) (at_ : instant) : Z * bool * Z :=
  match lm_active m with
  | None => (0, false, 0)
  | Some active =>
    (lg_revision active, before at_ (lg_deadline active),
     if after at_ (lg_publishedAt active) then time_sub at_ (lg_publishedAt active) else 0)
  end.

(** *** The queries, each through [activeSnapshot] *)

Definition live_Authorization_record (m : LiveMetadata) aid did tid at_
  : DeviceSessionAuthorization * option error :=
  match activeSnapshot m at_ with
  | Err e => (zero_authorization, Some e)
  | Ok active => Authorization_record active aid did tid at_
  end.

Definition live_Authorization (m : LiveMetadata) aid did tid at_ : result DeviceSessionAuthorization :=
  to_result (live_Authorization_record m aid did tid at_).
Definition live_RouteByHostname (m : LiveMetadata) host at_ : result EndpointRouteAssignment :=
  let? active := activeSnapshot m at_ in RouteByHostname active host at_.
Definition live_Revoked (m : LiveMetadata) kind subject at_ : result bool :=
  let? active := activeSnapshot m at_ in Ok (Revoked active kind subject at_).
Definition live_RevocationReason (m : LiveMetadata) kind subject at_ : result (string * bool) :=
  let? active := activeSnapshot m at_ in Ok (RevocationReason active kind subject at_).
Definition live_ServiceEndpoint (m : LiveMetadata) endpointID at_ : result ServiceEndpoint :=
  let? active := activeSnapshot m at_ in ServiceEndpoint_at active endpointID at_.
Definition live_PublicTCPEndpoints (m : LiveMetadata) at_ : result (list ServiceEndpoint) :=
  let? active := activeSnapshot m at_ in Ok (PublicTCPEndpoints active at_).
Definition live_PublicUDPEndpoints (m : LiveMetadata) at_ : result (list ServiceEndpoint) :=
  let? active := activeSnapshot m at_ in Ok (PublicUDPEndpoints active at_).
Definition live_ConnectorGrant (m : LiveMetadata) grantID at_ : result ConnectorGrant :=
  let? active := activeSnapshot m at_ in ConnectorGrant_at active grantID at_.

#[export] Instance live_private_endpoints : PrivateEndpointMetadata LiveMetadata := {|
  pem_ServiceEndpoint := live_ServiceEndpoint;
  pem_ConnectorGrant := live_ConnectorGrant;
|}.

(** ** The walk is the contract's walk *)

Definition same_gw_walk (m : nat) : Prop :=
  (forall d t, ok_of (consumeStrictJSONValue m d t) = ok_of (consumeJSONValue m d t)) /\
  (forall d, ok_of (consume_strict_items m d) = ok_of (consumeJSONArray m d)) /\
  (forall d seen, ok_of (consumeStrictJSONObject m d seen) = ok_of (consumeJSONObject m d seen)).

Lemma gw_walks_agree m : same_gw_walk m.
Proof.
  induction m as [|m (HV & HA & HO)]; [split; [by intros ? [] | done] |].
  split; [| split].
  - intros d t. destruct t as [[]| | | |]; cbn [consumeStrictJSONValue consumeJSONValue]; done.
  - intros d. cbn [consume_strict_items consumeJSONArray]. destruct (dec_more d).
    + destruct (dec_token d) as [| |t d1]; try done. by same_call (HV d1 t).
    + by destruct (dec_token d) as [| |[[]| | | |] d1].
  - intros d seen. cbn [consumeStrictJSONObject consumeJSONObject]. destruct (dec_more d).
    + destruct (dec_token d) as [| |[|key| | |] d1]; try done.
      destruct (bool_decide (key ∈ seen)); [done |].
      destruct (dec_token d1) as [| |t d2]; try done. by same_call (HV d2 t).
    + by destruct (dec_token d) as [| |[[]| | | |] d1].
Qed.

Lemma validate_gw_iff data :
  validateStrictJSONObject_gw data = Ok tt <-> validateStrictJSONObject data = Ok tt.
Proof.
  unfold validateStrictJSONObject_gw, validateStrictJSONObject.
  destruct (negb (utf8_valid data)); [done |]. cbn [reject_if rbind].
  destruct (dec_token (new_decoder data)) as [| |[[]| | | |] d]; try done.
  destruct (gw_walks_agree (walk_fuel data)) as (_ & _ & HO). specialize (HO d ∅).
  destruct (consumeStrictJSONObject _ d ∅) as [d1|], (consumeJSONObject _ d ∅) as [d2|]; try done.
  injection HO as ->. simpl. by destruct (dec_token d2).
Qed.

(** ** Manifests *)

Lemma manifest_deadline_spec p v now age :
  manifest_deadline p v now age = Z.min v (Z.min (p + age) (now + age)).
Proof. unfold manifest_deadline, before. repeat case_match; bool_lia. Qed.

(** A name that stays inside the generations directory. *)
Definition one_component (name : string) : Prop :=
  name <> EmptyString /\ name <> "." /\ name <> ".." /\ slen name <= 128 /\
  "/"%byte ∉ bytes_of name /\ Byte.x00 ∉ bytes_of name /\ "\"%byte ∉ bytes_of name.

Lemma valid_generation_component name : validGenerationName name = true -> one_component name.
Proof.
  unfold validGenerationName. destruct (_ || _) eqn:E; [done |]. intros H. bool_facts.
  rewrite forallb_forall in H.
  assert (Hno : forall b, generation_byte b = false -> b ∉ bytes_of name)
    by (intros b Hb Hin; apply list_elem_of_In, H in Hin; congruence).
  unfold one_component. split_and!; try done; by apply Hno.
Qed.

Lemma manifest_facts fs path now age p :
  loadMetadataManifest fs path now age = Ok p ->
  pm_revision p <> 0 /\ one_component (pm_generation p) /\
  pm_publishedAt p < pm_validUntil p /\ pm_publishedAt p <= now + 30 * Second /\
  pm_deadline p = Z.min (pm_validUntil p) (Z.min (pm_publishedAt p + age) (now + age)) /\
  now < pm_deadline p.
Proof.
  unfold loadMetadataManifest. intros H. inv_ok. rewrite manifest_deadline_spec in *.
  apply negb_false_iff in E3, E6, E8. bool_facts. unfold before, after in *.
  cbn [pm_revision pm_generation pm_publishedAt pm_validUntil pm_deadline].
  apply valid_generation_component in E3. bool_facts.
  unfold maxMetadataFutureSkew in *. split; [done |]. split; [done |].
  split; [done |]. split; [lia |]. split; [done | lia].
Qed.

(** What a manifest can make the Gateway do is bounded: an accepted
    manifest is one strict JSON object of at most 16 KiB, its revision is
    positive, its generation names a single path component (no separator, not
    [.] or [..]), it is published no more than 30 s ahead of the clock and
    before it expires, and the deadline it grants is still ahead and exactly
    the earliest of its expiry, [maxSnapshotAge] after publication and
    [maxSnapshotAge] from now. *)
Theorem manifest_accepted fs path now age p :
  loadMetadataManifest fs path now age = Ok p ->
  (exists data ms, readTrustedMetadataFile fs path maxMetadataManifestBytes = Ok data /\
     strict_object data ms /\ zlen data <= 16384) /\
  pm_revision p <> 0 /\ one_component (pm_generation p) /\
  pm_publishedAt p < pm_validUntil p /\ pm_publishedAt p <= now + 30 * Second /\
  pm_deadline p = Z.min (pm_validUntil p) (Z.min (pm_publishedAt p + age) (now + age)) /\
  now < pm_deadline p.
Proof.
  intros H. split; [| by eapply manifest_facts].
  unfold loadMetadataManifest in H.
  destruct (readTrustedMetadataFile fs path maxMetadataManifestBytes) as [data|] eqn:Er; [| done].
  cbn [rbind] in H.
  destruct (decodeStrictJSONObject _ data) as [m|] eqn:Ed; [| done]. clear H.
  exists data. unfold decodeStrictJSONObject in Ed. inv_ok.
  apply validate_gw_iff, validate_parses in E as (Hu & ms & [_ Hp] & Hn).
  exists ms. split; [done |]. split.
  { split; [done | split; [done |]]. apply Hp; [unfold parse_fuel; simpl; lia | lia]. }
  unfold readTrustedMetadataFile in Er.
  destruct (fs_open fs path) as [| |[[reg size]|] contents]; try done. inv_ok. bool_facts.
  unfold maxMetadataManifestBytes in *. lia.
Qed.

Definition demo_manifest : bytes :=
  demo_json ("{'contract_version':1,'revision':7,'generation':'gen-7'," +:+
    "'published_at':'2024-01-01T06:00:00Z','valid_until':'2024-01-01T07:00:00Z'}").

(** A disk that holds the manifest, one generation directory and no records. *)
Definition demo_fs : filesystem := Filesystem
  (fun p => Lstat false true)
  (fun p => if bool_decide (last p = Some "service_endpoints") then ListNotExist else Listed [])
  (fun p => Opened (Ok (true, zlen demo_manifest)) (Ok demo_manifest)).

Lemma manifest_accepted_witness :
  let now := time_of "2024-01-01T06:00:10Z" in
  exists p, loadMetadataManifest demo_fs ["srv"; "current.json"] now (30 * Second) = Ok p /\
            pm_deadline p = time_of "2024-01-01T06:00:30Z" /\ now < pm_deadline p.
Proof.
  intros now.
  destruct (loadMetadataManifest demo_fs ["srv"; "current.json"] now (30 * Second)) as [p|] eqn:E;
    [| vm_compute in E; discriminate].
  exists p. split; [reflexivity |].
  split; [vm_compute in E; injection E as <-; reflexivity |].
  destruct (manifest_accepted _ _ _ _ _ E) as (_ & _ & _ & _ & _ & _ & Hnow). exact Hnow.
Defined.

(** ** Refreshes *)

Section RefreshFacts.
Context (Sum256 : bytes -> bytes).

(** The documents a load took in, in order. *)
Lemma load_entries_docs fs dir c entries st st' docs :
  load_entries fs dir c entries st = Ok st' ->
  add_records NewSnapshotMetadata docs = (Ok tt, ld_source st) ->
  exists docs', add_records NewSnapshotMetadata docs' = (Ok tt, ld_source st').
Proof.
  revert st docs. induction entries as [|en r IH]; intros st docs H Hd; cbn [load_entries] in H.
  { injection H as <-. eauto. }
  cbn zeta in H. inv_ok. destruct (readTrustedMetadataFile _ _ _) as [data|]; [| done]. inv_ok.
  destruct (add_record c (ld_source st) data) as [[[]|] src] eqn:Ea; [| done].
  eapply (IH _ (docs ++ [(c, data)])); [exact H |]. cbn [ld_source].
  clear -Hd Ea. revert Hd. generalize NewSnapshotMetadata as s0.
  induction docs as [|[c' d'] docs IH]; intros s0 Hd; cbn [add_records app] in *.
  - injection Hd as ->. by rewrite Ea.
  - destruct (add_record c' s0 d') as [[]]; [by apply IH | done].
Qed.

Lemma load_categories_docs fs root cats st st' docs :
  load_categories fs root cats st = Ok st' ->
  add_records NewSnapshotMetadata docs = (Ok tt, ld_source st) ->
  exists docs', add_records NewSnapshotMetadata docs' = (Ok tt, ld_source st').
Proof.
  revert st docs. induction cats as [|[c req] r IH]; intros st docs H Hd; cbn [load_categories] in H.
  { injection H as <-. eauto. }
  cbn zeta in H. destruct (validateTrustedMetadataDirectory _ _ _); [| done].
  destruct (fs_list _ _) as [|e|entries]; [destruct req; [done | by eapply IH] | done |].
  inv_ok. destruct (load_entries_docs _ _ _ _ _ _ _ E Hd) as [docs' Hd']. by eapply IH.
Qed.

Lemma loaded_docs fs root snap digest :
  loadLiveGeneration Sum256 fs root = Ok (snap, digest) ->
  exists docs, add_records NewSnapshotMetadata docs = (Ok tt, snap).
Proof.
  unfold loadLiveGeneration. destruct (validateTrustedMetadataDirectory _ _ _); [| done].
  intros H. inv_ok. simplify_eq. by eapply (load_categories_docs _ _ _ _ _ []).
Qed.

(** A refresh leaves the active generation alone or replaces it by a newer
    one it loaded, whose deadline is bounded and still ahead. *)
Definition newer (m : LiveMetadata) (now : instant) (g : liveMetadataGeneration) : Prop :=
  (forall a, lm_active m = Some a -> lg_revision a < lg_revision g) /\
  (exists docs, add_records NewSnapshotMetadata docs = (Ok tt, lg_snapshot g)) /\
  now < lg_deadline g <=
    Z.min (lg_validUntil g) (Z.min (lg_publishedAt g + lm_maxSnapshotAge m) (now + lm_maxSnapshotAge m)).

Lemma refresh_cases fs now m r m' :
  refreshAt Sum256 fs now m = (r, m') ->
  lm_root m' = lm_root m /\ lm_maxSnapshotAge m' = lm_maxSnapshotAge m /\
  (lm_active m' = lm_active m \/
   r = Ok tt /\ exists g, lm_active m' = Some g /\ newer m now g).
Proof.
  unfold refreshAt, recordRefreshFailure, recordRefreshSuccess. intros H.
  destruct (validateTrustedMetadataDirectory _ _ _) as [u|]; [| injection H as <- <-; by auto].
  destruct (loadMetadataManifest _ _ _ _) as [p|] eqn:Ep; [| injection H as <- <-; by auto].
  cbn zeta in H. destruct (match lm_active m with Some _ => _ | None => _ end) eqn:Erb;
    [injection H as <- <-; by auto |].
  destruct (unchanged_on_disk _ _ _ _ _); [injection H as <- <-; by auto |].
  destruct (loadLiveGeneration _ _ _) as [[snap digest]|] eqn:El; [| injection H as <- <-; by auto].
  destruct (active_at_revision _ _) as [a|] eqn:Ea.
  { destruct (_ || _); injection H as <- <-; by auto. }
  injection H as <- <-. simpl. split; [done | split; [done |]]. right. split; [done |].
  eexists. split; [reflexivity |]. unfold newer. cbn [lg_revision lg_snapshot lg_deadline lg_validUntil lg_publishedAt].
  apply manifest_facts in Ep as (_ & _ & _ & _ & Hdl & Hnow).
  split; [| split; [by eapply loaded_docs | rewrite <- Hdl; lia]].
  intros a Ha. unfold active_at_revision in Ea. rewrite Ha in *.
  destruct (pm_revision p =? lg_revision a) eqn:E; [done |]. bool_lia.
Qed.

(** Any refresh, at any time, against any contents of the disk. *)
Definition live_step (m m' : LiveMetadata) : Prop :=
  exists fs now r, refreshAt Sum256 fs now m = (r, m').

Definition live_new (root : list string) (age : Z) : LiveMetadata := MkLive root age None 0 0.

(** What every generation that is ever active satisfies. *)
Definition generation_ok (age : Z) (g : liveMetadataGeneration) : Prop :=
  (exists docs, add_records NewSnapshotMetadata docs = (Ok tt, lg_snapshot g)) /\
  lg_deadline g <= Z.min (lg_validUntil g) (lg_publishedAt g + age).

Lemma live_reachable root age m :
  steps live_step (live_new root age) m ->
  lm_maxSnapshotAge m = age /\ forall g, lm_active m = Some g -> generation_ok age g.
Proof.
  apply (steps_invariant live_step (fun m => lm_maxSnapshotAge m = age /\
           forall g, lm_active m = Some g -> generation_ok age g)); [by split |].
  intros x y [Hage Hg] (fs & now & r & Href). apply refresh_cases in Href as (_ & Ha & Hc).
  split; [congruence |]. destruct Hc as [->|(_ & g & Hgm & _ & Hd & Hdl)]; [done |].
  intros g' Hg'. assert (g' = g) as -> by congruence. split; [done |]. lia.
Qed.

(** Along any run the revision only grows, and while it stays the same so does
    the whole generation, its deadline included. *)
Definition not_older (m m' : LiveMetadata) : Prop :=
  forall a, lm_active m = Some a ->
    exists b, lm_active m' = Some b /\ (b = a \/ lg_revision a < lg_revision b).

Lemma run_not_older m m' : steps live_step m m' -> not_older m m'.
Proof.
  apply (steps_invariant live_step (not_older m)); [intros a Ha; eauto |].
  intros x y Hx (fs & now & r & Href) a Ha. destruct (Hx a Ha) as (b & Hb & Hab).
  apply refresh_cases in Href as (_ & _ & [->|(_ & g & Hg & Hnew & _)]); [eauto |].
  exists g. split; [done |]. right. specialize (Hnew b Hb). destruct Hab as [->|]; lia.
Qed.
End RefreshFacts.

(** No sequence of refreshes, whatever is on the disk at each of them and
    whatever the clock says, rolls the Gateway back: once a generation is
    active, what is active later is that very generation, unchanged in
    content and deadline, or one of a strictly larger revision; and a refresh
    that fails changes nothing that is active. *)
Theorem refresh_no_rollback Sum256 m m' fs now r m'' a :
  steps (live_step Sum256) m m' -> refreshAt Sum256 fs now m' = (r, m'') -> lm_active m = Some a ->
  (exists b, lm_active m'' = Some b /\ (b = a \/ lg_revision a < lg_revision b)) /\
  (is_ok r = false -> lm_active m'' = lm_active m').
Proof.
  intros Hs Hr Ha. split.
  - eapply (run_not_older Sum256 m); [| exact Ha]. eapply steps_snoc; [exact Hs |]. by do 3 eexists.
  - intros Hf. apply refresh_cases in Hr as (_ & _ & [?|(-> & _)]); done.
Qed.

Lemma refresh_no_rollback_witness :
  let now := time_of "2024-01-01T06:00:10Z" in
  let m0 := live_new ["srv"] (30 * Second) in
  let m1 := (refreshAt demo_sum (fun _ => demo_fs) now m0).2 in
  exists a, lm_active m1 = Some a /\ lg_revision a = 7 /\
    let later := refreshAt demo_sum (fun _ => demo_fs) (now + 60 * Second) m1 in
    is_ok later.1 = false /\ lm_active later.2 = Some a.
Proof.
  intros now m0 m1. destruct (lm_active m1) as [a|] eqn:Ea; [| vm_compute in Ea; discriminate].
  exists a. split; [reflexivity |]. split; [vm_compute in Ea; injection Ea as <-; reflexivity |].
  intros later. assert (Hf : is_ok later.1 = false) by (vm_compute; reflexivity).
  split; [exact Hf |]. destruct later as [r m2] eqn:El. cbn [fst snd] in *.
  destruct (refresh_no_rollback demo_sum m1 m1 _ _ r m2 a (steps_refl _ _) El Ea) as [_ Hk].
  rewrite (Hk Hf). exact Ea.
Defined.

(** C36: Authority is never served past its time.  After any run of refreshes
    an answer of the live source at an instant comes from a generation that
    was loaded document by document, was published less than
    [maxSnapshotAge] before and has not expired; in particular an
    authorization it returns is one those documents publish, active and not
    revoked at that instant. *)
Theorem live_authority_bounded Sum256 root age m at_ aid did tid r :
  steps (live_step Sum256) (live_new root age) m ->
  live_Authorization m aid did tid at_ = Ok r ->
  exists g docs, lm_active m = Some g /\
    add_records NewSnapshotMetadata docs = (Ok tt, lg_snapshot g) /\
    at_ < lg_publishedAt g + age /\ at_ < lg_validUntil g /\
    authority_to_connect docs aid did tid at_ r.
Proof.
  intros Hs H. apply live_reachable in Hs as [_ Hg]. unfold live_Authorization, live_Authorization_record, activeSnapshot in H.
  destruct (lm_active m) as [g|]; [| done]. specialize (Hg g eq_refl) as [[docs Hd] Hdl].
  destruct (before at_ (lg_deadline g)) eqn:Eb; [| done]. unfold before in Eb. simpl in H.
  destruct (Ready (lg_snapshot g)); [| done]. simpl in H.
  exists g, docs. bool_facts. split; [done | split; [done | split; [lia | split; [lia |]]]].
  by apply (Authorization_iff docs _ _ _ _ _ _ (loaded_reflects _ _ Hd)).
Qed.

(** The same disk with one authorization in it. *)
Definition demo_fs_auth : filesystem := Filesystem
  (fs_lstat demo_fs)
  (fun p => if bool_decide (last p = Some "authorizations")
            then Listed [DirEntry "a.json" false false (Ok (1, 1))] else Listed [])
  (fun p => if bool_decide (last p = Some "a.json")
            then Opened (Ok (true, 1)) (Ok demo_authorization)
            else fs_open demo_fs p).

Definition demo_live_time : instant := time_of "2024-01-01T06:00:10Z".
Definition demo_live : LiveMetadata :=
  (refreshAt demo_sum (fun _ => demo_fs_auth) demo_live_time (live_new ["srv"] (30 * Second))).2.

Lemma live_authority_bounded_witness :
  exists r, live_Authorization demo_live "auth-1" "dev-1" "tok-1" demo_live_time = Ok r /\
    exists g docs, lm_active demo_live = Some g /\ demo_live_time < lg_publishedAt g + 30 * Second /\
      authority_to_connect docs "auth-1" "dev-1" "tok-1" demo_live_time r.
Proof.
  assert (Hs : steps (live_step demo_sum) (live_new ["srv"] (30 * Second)) demo_live)
    by (eapply steps_snoc; [apply steps_refl |]; do 3 eexists; apply surjective_pairing).
  assert (Hok : is_ok (live_Authorization demo_live "auth-1" "dev-1" "tok-1" demo_live_time) = true)
    by (vm_compute; reflexivity).
  destruct (live_Authorization demo_live "auth-1" "dev-1" "tok-1" demo_live_time) as [r|e] eqn:Ea;
    [| discriminate Hok].
  exists r. split; [reflexivity |].
  destruct (live_authority_bounded demo_sum ["srv"] (30 * Second) demo_live demo_live_time _ _ _ r Hs Ea)
    as (g & docs & Hg & _ & Hp & _ & Hauth).
  exists g, docs. split; [exact Hg | split; [exact Hp | exact Hauth]].
Defined.

(** *** A gap in the republication check

    The check on a republished revision compares the manifest's instants only
    after a full load.  When the generation directory is untouched the refresh
    succeeds before it, so the same revision with another expiry is taken for
    no change. *)
Definition demo_manifest_again : bytes :=
  demo_json ("{'contract_version':1,'revision':7,'generation':'gen-7'," +:+
    "'published_at':'2024-01-01T06:00:00Z','valid_until':'2024-01-01T09:00:00Z'}").

Definition demo_fs_again : filesystem := Filesystem
  (fs_lstat demo_fs_auth) (fs_list demo_fs_auth)
  (fun p => if bool_decide (last p = Some "a.json") then fs_open demo_fs_auth p
            else Opened (Ok (true, 1)) (Ok demo_manifest_again)).

Lemma republished_manifest_unnoticed :
  (refreshAt demo_sum (fun _ => demo_fs_again) demo_live_time demo_live).1 = Ok tt /\
  lg_validUntil <$> lm_active (refreshAt demo_sum (fun _ => demo_fs_again) demo_live_time demo_live).2
  = lg_validUntil <$> lm_active demo_live.
Proof. split; vm_compute; reflexivity. Qed.
