(* ===== verification/GwLimits.v ===== *)
(** * GwLimits: [internal/gateway/config.go]

    The Gateway's resource limits, their defaults and the validity check every
    Gateway is constructed through. *)

From S2P Require Import Prelude GoText GoTime.

Record Limits := MkLimits {
  MaxAgentSessions : Z;
  MaxPendingHandshakes : Z;
  MaxStreamsPerSession : Z;
  MaxStreamQueueFrames : Z;
  MaxStreamQueueBytes : Z;
  MaxSessionQueueBytes : Z;
  MaxGlobalQueueBytes : Z;
  MaxIngressInFlight : Z;
  MaxIngressInFlightBytes : Z;
  HandshakeRatePerSecond : Z;
  HandshakeRateBurst : Z;
  IngressRatePerSecond : Z;
  IngressRateBurst : Z;
  MaxRequestBytes : Z;
  MaxResponseBytes : Z;
  MaxHeaderBytes : Z;
  MaxStatusQueueSignals : Z;
  StatusEmitTimeout : Z;
  HandshakeTimeout : Z;
  ReadTimeout : Z;
  WriteTimeout : Z;
  HeartbeatInterval : Z;
  IdleTimeout : Z;
  ShutdownTimeout : Z;
  MaxTunnelsPerDevice : Z;
  ResponsePhaseTimeout : Z;
  ResumeAcceptanceWindow : Z;
  PreAuthRatePerSecond : Z;
  PreAuthRateBurst : Z;
  TrustedProxyPeers : list string;
}.

Definition DefaultLimits : Limits := {|
  MaxAgentSessions := 64;
  MaxPendingHandshakes := 64;
  MaxStreamsPerSession := 64;
  MaxStreamQueueFrames := 16;
  MaxStreamQueueBytes := Z.shiftl 2 20;
  MaxSessionQueueBytes := Z.shiftl 8 20;
  MaxGlobalQueueBytes := Z.shiftl 32 20;
  MaxIngressInFlight := 32;
  MaxIngressInFlightBytes := Z.shiftl 32 20;
  HandshakeRatePerSecond := 32;
  HandshakeRateBurst := 64;
  IngressRatePerSecond := 256;
  IngressRateBurst := 512;
  MaxRequestBytes := Z.shiftl 8 20;
  MaxResponseBytes := Z.shiftl 32 20;
  MaxHeaderBytes := Z.shiftl 32 10;
  MaxStatusQueueSignals := 256;
  StatusEmitTimeout := 2 * Second;
  HandshakeTimeout := 10 * Second;
  ReadTimeout := 15 * Second;
  WriteTimeout := 10 * Second;
  HeartbeatInterval := 15 * Second;
  IdleTimeout := 45 * Second;
  ShutdownTimeout := 10 * Second;
  MaxTunnelsPerDevice := 2;
  ResponsePhaseTimeout := 45 * Second;
  ResumeAcceptanceWindow := Minute;
  PreAuthRatePerSecond := 16;
  PreAuthRateBurst := 32;
  TrustedProxyPeers := [];
|}.

Definition positive (z : Z) : bool := 0 <? z.

Definition valid (l : Limits) : bool :=
  positive (MaxAgentSessions l) &&
  positive (MaxPendingHandshakes l) &&
  positive (MaxStreamsPerSession l) &&
  positive (MaxStreamQueueFrames l) &&
  positive (MaxStreamQueueBytes l) &&
  (MaxStreamQueueBytes l <=? MaxSessionQueueBytes l) &&
  (MaxSessionQueueBytes l <=? MaxGlobalQueueBytes l) &&
  positive (MaxIngressInFlight l) &&
  positive (MaxIngressInFlightBytes l) &&
  positive (HandshakeRatePerSecond l) && positive (HandshakeRateBurst l) &&
  positive (IngressRatePerSecond l) && positive (IngressRateBurst l) &&
  positive (MaxRequestBytes l) &&
  positive (MaxResponseBytes l) &&
  positive (MaxHeaderBytes l) &&
  positive (MaxStatusQueueSignals l) && positive (StatusEmitTimeout l) &&
  (i64 (MaxRequestBytes l + MaxHeaderBytes l) <=? MaxIngressInFlightBytes l) &&
  positive (HandshakeTimeout l) &&
  positive (ReadTimeout l) &&
  positive (WriteTimeout l) &&
  (5 * Second <=? HeartbeatInterval l) && (HeartbeatInterval l <=? 60 * Second) &&
  (15 * Second <=? IdleTimeout l) && (IdleTimeout l <=? 300 * Second) &&
  (i64 (2 * HeartbeatInterval l) <=? IdleTimeout l) &&
  positive (ShutdownTimeout l) &&
  positive (MaxTunnelsPerDevice l) &&
  positive (ResponsePhaseTimeout l) &&
  positive (ResumeAcceptanceWindow l) &&
  positive (PreAuthRatePerSecond l) && positive (PreAuthRateBurst l).

Example default_limits_valid : valid DefaultLimits = true.
Proof. reflexivity. Qed.

(** What the check buys a Gateway whose sizes are machine integers. *)
Definition limits_ok (l : Limits) : Prop :=
  0 < MaxStreamQueueBytes l <= MaxSessionQueueBytes l /\
  MaxSessionQueueBytes l <= MaxGlobalQueueBytes l /\
  0 < MaxStreamQueueFrames l /\ 0 < MaxStreamsPerSession l /\ 0 < MaxTunnelsPerDevice l /\
  2 * HeartbeatInterval l <= IdleTimeout l <= 300 * Second /\ 5 * Second <= HeartbeatInterval l.

Lemma valid_limits_ok l : valid l = true -> limits_ok l.
Proof.
  unfold valid, positive, limits_ok. intros H. bool_facts.
  assert (i64 (2 * HeartbeatInterval l) = 2 * HeartbeatInterval l) as E
    by (apply i64_id; unfold is_i64, Second in *; lia).
  rewrite E in *. lia.
Qed.

(** A request and its head always fit the ingress budget, unless the two sizes
    do not fit an [int64] together: then the sum of the check wraps. *)
Lemma valid_request_fits l :
  valid l = true -> is_i64 (MaxRequestBytes l + MaxHeaderBytes l) ->
  MaxRequestBytes l + MaxHeaderBytes l <= MaxIngressInFlightBytes l.
Proof.
  unfold valid. intros H Hi. bool_facts.
  match goal with H : i64 (_ + _) <= _ |- _ => rewrite i64_id in H by done end. done.
Qed.
