(* ===== verification/StatusExporter.v ===== *)
(** * StatusExporter: [internal/gateway/status_exporter.go]

    Status signals leave the Gateway through one goroutine behind a bounded
    queue.  Producers never block: what does not fit is dropped and counted.
    A sink that times out once turns the exporter off.  The model is a step
    relation over producers, the exporter's goroutine, the sink's answers and
    [close]. *)

From S2P Require Import Prelude.

Section Exporter.
(** [GatewayStatusSignal], opaque here. *)
Context {signal : Type}.

(** Where the exporter's goroutine is: between signals, inside [Emit] with a
    signal, or returned. *)
Inductive runner := Idle | Emitting (s : signal) | Stopped.

Record statusExporter := MkExporter {
  ex_disabled : bool;
  ex_queue : list signal;
  ex_capacity : Z;
  ex_dropped : Z;
  ex_failures : Z;
  ex_timedOut : bool;
  ex_closed : bool;
  ex_runner : runner;
  ex_delivered : list signal;
  ex_emitted : nat;
}.

(** [newStatusExporter]; a [NopStatusSink] disables it. *)
Definition newStatusExporter (nop : bool) (queueSize : Z) : statusExporter :=
  MkExporter nop [] queueSize 0 0 false false Idle [] 0.

Definition drop_one (e : statusExporter) : statusExporter :=
  MkExporter (ex_disabled e) (ex_queue e) (ex_capacity e) (u64 (ex_dropped e + 1)) (ex_failures e)
    (ex_timedOut e) (ex_closed e) (ex_runner e) (ex_delivered e) (ex_emitted e).

Definition set_queue (e : statusExporter) (q : list signal) (r : runner) : statusExporter :=
  MkExporter (ex_disabled e) q (ex_capacity e) (ex_dropped e) (ex_failures e)
    (ex_timedOut e) (ex_closed e) r (ex_delivered e) (ex_emitted e).

Definition enqueue (e : statusExporter) (s : signal) : statusExporter :=
  if ex_disabled e then e
  else if ex_timedOut e then drop_one e
  else if ex_closed e || ex_timedOut e then drop_one e
  else if Z.of_nat (length (ex_queue e)) <? ex_capacity e
       then set_queue e (ex_queue e ++ [s]) (ex_runner e)
       else drop_one e.

(** The sink's answer to [Emit]. *)
Inductive sink_answer := SinkOk | SinkFailed | SinkTimedOut.

(** [emit] up to the call, or its drop when the exporter is latched off. *)
Definition begin_emit (e : statusExporter) (s : signal) (q : list signal) : statusExporter :=
  if ex_timedOut e then set_queue (drop_one e) q Idle
  else MkExporter (ex_disabled e) q (ex_capacity e) (ex_dropped e) (ex_failures e) (ex_timedOut e)
         (ex_closed e) (Emitting s) (ex_delivered e) (S (ex_emitted e)).

Definition end_emit (e : statusExporter) (s : signal) (a : sink_answer) : statusExporter :=
  match a with
  | SinkOk =>
    MkExporter (ex_disabled e) (ex_queue e) (ex_capacity e) (ex_dropped e) (ex_failures e)
      (ex_timedOut e) (ex_closed e) Idle (ex_delivered e ++ [s]) (ex_emitted e)
  | SinkFailed =>
    MkExporter (ex_disabled e) (ex_queue e) (ex_capacity e) (ex_dropped e) (u64 (ex_failures e + 1))
      (ex_timedOut e) (ex_closed e) Idle (ex_delivered e) (ex_emitted e)
  | SinkTimedOut =>
    MkExporter (ex_disabled e) (ex_queue e) (ex_capacity e) (ex_dropped e) (u64 (ex_failures e + 1))
      true (ex_closed e) Idle (ex_delivered e) (ex_emitted e)
  end.

Fixpoint dropQueued (n : nat) (e : statusExporter) : statusExporter :=
  match n with
  | O => e
  | S m =>
    match ex_queue e with
    | [] => e
    | _ :: q => dropQueued m (set_queue (drop_one e) q (ex_runner e))
    end
  end.

(** [dropQueued] empties the queue: one round per signal. *)
Definition stop (e : statusExporter) : statusExporter :=
  let e' := dropQueued (length (ex_queue e)) e in set_queue e' (ex_queue e') Stopped.

Definition close_exporter (e : statusExporter) : statusExporter :=
  if ex_disabled e then e else
  MkExporter (ex_disabled e) (ex_queue e) (ex_capacity e) (ex_dropped e) (ex_failures e)
    (ex_timedOut e) true (ex_runner e) (ex_delivered e) (ex_emitted e).

(** The goroutine of [run] exists unless the exporter is disabled. *)
Inductive other_step : statusExporter -> statusExporter -> Prop :=
| ex_take e s q : ex_disabled e = false -> ex_runner e = Idle -> ex_queue e = s :: q ->
    other_step e (begin_emit e s q)
| ex_answer e s a : ex_runner e = Emitting s -> other_step e (end_emit e s a)
| ex_done e : ex_disabled e = false -> ex_runner e = Idle -> ex_closed e = true ->
    other_step e (stop e)
| ex_close e : other_step e (close_exporter e).

Definition export_step (e e' : statusExporter) : Prop :=
  (exists s, e' = enqueue e s) \/ other_step e e'.

(** The same steps, counting the signals handed to an enabled exporter. *)
Inductive counted_step : statusExporter * Z -> statusExporter * Z -> Prop :=
| counted_enqueue e n s : counted_step (e, n) (enqueue e s, if ex_disabled e then n else n + 1)
| counted_other e n e' : other_step e e' -> counted_step (e, n) (e', n).

Definition in_emission (e : statusExporter) : Z :=
  match ex_runner e with Emitting _ => 1 | _ => 0 end.

Definition queued (e : statusExporter) : Z := Z.of_nat (length (ex_queue e)).

Definition settled (e : statusExporter) : Z :=
  ex_dropped e + ex_failures e + Z.of_nat (length (ex_delivered e)).

Record accounted (e : statusExporter) (n : Z) : Prop := Accounted {
  ac_sum : n < 2 ^ 64 -> n = settled e + queued e + in_emission e;
  ac_counts : 0 <= ex_dropped e /\ 0 <= ex_failures e;
  ac_bound : queued e <= Z.max 0 (ex_capacity e);
  ac_stopped : ex_runner e = Stopped -> ex_queue e = [] /\ ex_closed e = true;
  ac_disabled : ex_disabled e = true -> ex_queue e = [] /\ ex_emitted e = O /\ ex_runner e = Idle;
}.
End Exporter.
Arguments statusExporter : clear implicits.
Arguments runner : clear implicits.

Section ExporterFacts.
Context {signal : Type}.
Implicit Types (e : statusExporter signal).

Lemma u64_range z : 0 <= u64 z.
Proof. apply Z.mod_pos_bound. lia. Qed.

Lemma drop_counts e n :
  0 <= ex_dropped e -> 0 <= n < 2 ^ 64 -> ex_dropped e < n -> u64 (ex_dropped e + 1) = ex_dropped e + 1.
Proof. intros. apply u64_id. unfold is_u64. lia. Qed.

(** [dropQueued] moves the whole queue to the drop count. *)
Lemma dropQueued_spec k e :
  let e' := dropQueued k e in
  (k = length (ex_queue e) -> ex_queue e' = []) /\
  ex_failures e' = ex_failures e /\ ex_delivered e' = ex_delivered e /\
  ex_capacity e' = ex_capacity e /\ ex_closed e' = ex_closed e /\ ex_timedOut e' = ex_timedOut e /\
  ex_disabled e' = ex_disabled e /\ ex_emitted e' = ex_emitted e /\ ex_runner e' = ex_runner e /\
  (k = length (ex_queue e) -> 0 <= ex_dropped e -> ex_dropped e + queued e < 2 ^ 64 ->
     ex_dropped e' = ex_dropped e + queued e) /\
  (0 <= ex_dropped e -> 0 <= ex_dropped e').
Proof.
  revert e. induction k as [|k IH]; intros e; cbn [dropQueued].
  { unfold queued. split_and!; try done; destruct (ex_queue e); simpl; intros; done || lia. }
  destruct (ex_queue e) as [|s q] eqn:Eq.
  { by split_and!. }
  specialize (IH (set_queue (drop_one e) q (ex_runner e))). cbn zeta in *. simpl in IH.
  destruct IH as (H1 & H2 & H3 & H4 & H5 & H6 & H7 & H8 & H9 & H10 & H11).
  split; [intros [= ->]; by apply H1 |]. repeat (split; [done |]). split.
  - intros [= ->] Hd Hlt. unfold queued in *. rewrite Eq in *. simpl in *.
    rewrite u64_id in H10 by (unfold is_u64; lia). rewrite H10; [lia | done | lia | lia].
  - intros Hd. apply H11, u64_range.
Qed.

Lemma counted_ok e n e' n' : accounted e n -> 0 <= n -> counted_step (e, n) (e', n') ->
  accounted e' n' /\ 0 <= n'.
Proof.
  intros [Hsum [Hd Hf] Hb Hst Hdis] Hn Hstep. inversion Hstep as [e0 n0 s|e0 n0 e1 Hex]; subst.
  - unfold enqueue. destruct (ex_disabled e) eqn:Edis; [split; [by constructor; auto | done] |]. split; [| lia].
    assert (Hdrop : accounted (drop_one e) (n + 1)).
    { constructor; simpl; try done.
      - intros Hlt. unfold settled, queued, in_emission in *. simpl.
        specialize (Hsum ltac:(lia)). rewrite u64_id; [lia |]. unfold is_u64.
        destruct (ex_runner e); lia.
      - split; [apply u64_range | done].
      - congruence. }
    destruct (ex_timedOut e); [done |]. destruct (ex_closed e) eqn:Ec; [done |]. cbn [orb].
    destruct (Z.ltb_spec (Z.of_nat (length (ex_queue e))) (ex_capacity e)) as [Hlt|]; [| done].
    constructor; simpl; try done.
    + intros Hlt'. unfold settled, queued, in_emission in *. simpl. rewrite length_app. simpl.
      specialize (Hsum ltac:(lia)). lia.
    + unfold queued in *. simpl. rewrite length_app. simpl. lia.
    + intros Hr. apply Hst in Hr. naive_solver.
    + congruence.
  - split; [| done]. destruct Hex as [e s q Hdi Hr Hq|e s a Hr|e Hdi Hr Hc|e].
    + unfold begin_emit. unfold queued, settled, in_emission in *. rewrite Hr, Hq in *. simpl in *.
      destruct (ex_timedOut e); constructor; simpl; try done; unfold queued, settled, in_emission; simpl.
      * intros Hlt. specialize (Hsum Hlt). rewrite u64_id; [lia | unfold is_u64; lia].
      * split; [apply u64_range | done].
      * lia.
      * congruence.
      * intros Hlt. specialize (Hsum Hlt). lia.
      * lia.
      * congruence.
    + unfold end_emit. unfold queued, settled, in_emission in *. rewrite Hr in *.
      assert (Hdis' : ex_disabled e = true -> False) by (intros Hx; apply Hdis in Hx as (_ & _ & ?); congruence).
      destruct a; constructor; simpl; try done; unfold queued, settled, in_emission; simpl; try done;
        try (intros Hlt; specialize (Hsum Hlt); rewrite ?length_app; simpl;
             rewrite ?u64_id by (unfold is_u64; lia); lia);
        try (split; [done | apply u64_range]); try (intros Hx; by apply Hdis' in Hx).
    + unfold stop. pose proof (dropQueued_spec (length (ex_queue e)) e) as Hs. cbn zeta in Hs.
      destruct Hs as (H1 & H2 & H3 & H4 & H5 & H6 & H7 & H8 & H9 & H10 & H11).
      constructor; simpl; unfold queued, settled, in_emission in *; simpl; rewrite ?H1, ?H2, ?H3, ?H4, ?H5, ?H7, ?H8 by done.
      * intros Hlt. specialize (Hsum Hlt). rewrite Hr in *. rewrite H10 by (done || lia). simpl. lia.
      * split; [by apply H11 | done].
      * simpl. lia.
      * done.
      * congruence.
    + unfold close_exporter. destruct (ex_disabled e) eqn:Edis; [constructor; auto; congruence |].
      constructor; simpl; try done. intros Hx. apply Hst in Hx. naive_solver.
Qed.

(** Steps of a latched exporter start no further [Emit]. *)
Lemma latched_step e e' : ex_timedOut e = true -> export_step e e' ->
  ex_timedOut e' = true /\ ex_emitted e' = ex_emitted e.
Proof.
  intros Ht Hs. revert Ht. destruct Hs as [[s ->]|[e0 s q Hdi Hr Hq|e0 s a Hr|e0 Hdi Hr Hc|e0]];
    intros Ht; simpl.
  - unfold enqueue. destruct (ex_disabled e); [done |]. by rewrite Ht.
  - unfold begin_emit. by rewrite Ht.
  - by destruct a.
  - pose proof (dropQueued_spec (length (ex_queue e0)) e0) as Hs. cbn zeta in Hs.
    destruct Hs as (_ & _ & _ & _ & _ & H6 & _ & H8 & _). simpl. by rewrite H6, H8.
  - unfold close_exporter. by destruct (ex_disabled e0).
Qed.
End ExporterFacts.

(** No interleaving of producers, the exporter's goroutine, the sink and
    [close] loses track of a signal or blocks a producer: of [n] signals handed
    to an enabled exporter each is delivered, failed, counted as dropped, in
    the queue or in the one [Emit] in progress; the queue stays within its
    capacity; after [close] has been served the queue is empty; and once the
    sink has timed out no further [Emit] is started. *)
Theorem status_signals_accounted {signal} capacity (e : statusExporter signal) n :
  steps counted_step (newStatusExporter false capacity, 0) (e, n) -> n < 2 ^ 64 ->
  n = ex_dropped e + ex_failures e + Z.of_nat (length (ex_delivered e)) +
      Z.of_nat (length (ex_queue e)) + in_emission e /\
  Z.of_nat (length (ex_queue e)) <= Z.max 0 capacity /\
  (ex_runner e = Stopped -> ex_queue e = []) /\
  forall e', ex_timedOut e = true -> steps export_step e e' -> ex_emitted e' = ex_emitted e.
Proof.
  intros Hs Hn.
  assert (H : accounted e n /\ 0 <= n /\ ex_capacity e = capacity).
  { apply (steps_invariant counted_step
      (fun p => accounted p.1 p.2 /\ 0 <= p.2 /\ ex_capacity p.1 = capacity)
      (newStatusExporter false capacity, 0) (e, n));
      [| | exact Hs].
    - split; [constructor; simpl; try done; unfold queued; simpl; lia | done].
    - intros [a k] [b j] (Ha & Hk & Hc) Hstep. destruct (counted_ok _ _ _ _ Ha Hk Hstep) as [Hb Hj].
      split; [done | split; [done |]]. simpl in *. rewrite <- Hc. clear -Hstep.
      inversion Hstep as [e0 n0 s|e0 n0 e1 Hex]; subst.
      + unfold enqueue. by repeat case_match.
      + destruct Hex; unfold enqueue, begin_emit, end_emit, close_exporter; repeat case_match; try done.
        pose proof (dropQueued_spec (length (ex_queue e)) e) as Hd. cbn zeta in Hd. simpl. naive_solver. }
  destruct H as ([Hsum _ Hb Hst _] & _ & Hc). unfold settled, queued in *. rewrite Hc in Hb.
  split; [by apply Hsum |]. split; [done |]. split; [intros Hr; by apply Hst |].
  intros e' Ht Hrun.
  apply (steps_invariant export_step (fun x => ex_timedOut x = true /\ ex_emitted x = ex_emitted e) e e');
    [done | | done].
  intros a b [Hta Hea] Hab. destruct (latched_step _ _ Hta Hab). split; congruence.
Qed.

Lemma status_signals_accounted_witness :
  let e1 := enqueue (newStatusExporter false 1) 5%nat in
  let e2 := enqueue e1 6%nat in
  steps counted_step (newStatusExporter false 1, 0) (e2, 2) /\ ex_dropped e2 = 1 /\
  (2 = ex_dropped e2 + ex_failures e2 + Z.of_nat (length (ex_delivered e2)) +
       Z.of_nat (length (ex_queue e2)) + in_emission e2).
Proof.
  intros e1 e2.
  assert (Hs : steps counted_step (newStatusExporter false 1, 0) (e2, 2)).
  { eapply steps_snoc; [eapply steps_snoc; [apply steps_refl |]|].
    - apply (counted_enqueue (newStatusExporter false 1) 0 5%nat).
    - apply (counted_enqueue e1 1 6%nat). }
  split; [exact Hs | split; [reflexivity |]].
  destruct (status_signals_accounted 1 e2 2 Hs ltac:(lia)) as [H _]. exact H.
Defined.
