(* ===== verification/Window.v ===== *)
(** * Window: [internal/tunnelwindow/window.go]

    The sender's credit for one stream.  Every operation runs under the
    window's mutex, so it is one atomic function; a blocked [Take] waits on the
    channel [changed], which every broadcast closes and replaces.  The channel
    is its identity here (a counter), and the step relation of [Section Takers]
    interleaves any number of takers with grants and the close: credit stays in
    bounds and is conserved, and no taker sleeps through a change it needs. *)

From S2P Require Import Prelude Control.

Definition ErrClosed : error := ErrSentinel "stream window closed".
Definition ErrInvalid : error := ErrSentinel "stream window credit outside bounds".
Definition ErrOverGrant : error := ErrSentinel "stream window credit exceeds the unacked limit".

Record Window := MkWindow {
  w_credit : Z;            (* int64 *)
  w_limit : Z;             (* int64 *)
  w_closed : bool;
  w_err : option error;
  w_changed : nat;         (* identity of the open [changed] channel *)
}.

Definition New (limit : Z) : Window :=
  MkWindow 0 (if limit <=? 0 then 1 else limit) false None 0.

Definition Credit (w : Window) : Z := w_credit w.

(** [broadcastLocked]. *)
Definition broadcastLocked (w : Window) : Window :=
  MkWindow (w_credit w) (w_limit w) (w_closed w) (w_err w) (S (w_changed w)).

Definition set_credit (w : Window) (c : Z) : Window :=
  MkWindow c (w_limit w) (w_closed w) (w_err w) (w_changed w).

(** What the closed window reports. *)
Definition closed_error (w : Window) : error :=
  match w_err w with Some e => e | None => ErrClosed end.

(** One round of the loop of [Take], the locked part. *)
Inductive take_round :=
| TakeErr (e : error)
| TakeOk (w : Window)
| TakeWait (changed : nat).

Definition take_locked (w : Window) (size : Z) : take_round :=
  if w_closed w then TakeErr (closed_error w)
  else if size <=? w_credit w then TakeOk (set_credit w (i64 (w_credit w - size)))
  else TakeWait (w_changed w).

(** The guard of [Take] before its loop. *)
Definition take_valid (w : Window) (size : Z) : bool :=
  negb ((size <=? 0) || (w_limit w <? size)).

Definition Add (w : Window) (size : Z) : result Window :=
  reject_if ((size <=? 0) || (w_limit w <? size)) ErrInvalid ;?
  reject_if (w_closed w) (closed_error w) ;?
  reject_if (w_limit w <? i64 (w_credit w + size)) ErrOverGrant ;?
  Ok (broadcastLocked (set_credit w (i64 (w_credit w + size)))).

Definition Close (w : Window) (err : option error) : Window :=
  if w_closed w then w
  else broadcastLocked (MkWindow (w_credit w) (w_limit w) true err (w_changed w)).

Definition InitialCredit (budget : Z) : Z :=
  if budget <? 1 then 1
  else if MaxWindowCreditBytes <? budget then MaxWindowCreditBytes
  else u32 budget.

(** ** The well-formed window *)

Definition window_ok (w : Window) : Prop :=
  0 < w_limit w < 2 ^ 62 /\ 0 <= w_credit w <= w_limit w.

Lemma New_ok limit : limit < 2 ^ 62 -> window_ok (New limit).
Proof. unfold New, window_ok. simpl. destruct (limit <=? 0) eqn:E; bool_facts; lia. Qed.

Lemma i64_small z : - 2 ^ 62 <= z <= 2 ^ 63 - 1 -> i64 z = z.
Proof. intros. apply i64_id. unfold is_i64. lia. Qed.

Lemma take_locked_ok w size w' :
  window_ok w -> 0 < size -> take_locked w size = TakeOk w' ->
  w_closed w = false /\ size <= w_credit w /\ w' = set_credit w (w_credit w - size) /\ window_ok w'.
Proof.
  unfold take_locked, window_ok. intros Hw Hs. destruct (w_closed w); [done |].
  destruct (size <=? w_credit w) eqn:E; [| done]. bool_facts. intros [= <-].
  rewrite i64_small by lia. simpl. split_and!; done || lia.
Qed.

Lemma Add_ok_iff w size w' :
  window_ok w ->
  Add w size = Ok w' <->
  0 < size /\ w_closed w = false /\ w_credit w + size <= w_limit w /\
  w' = broadcastLocked (set_credit w (w_credit w + size)).
Proof.
  unfold window_ok. intros Hw. unfold Add. split.
  - intros H. inv_ok. bool_facts.
    assert (Hi : i64 (w_credit w + size) = w_credit w + size) by (apply i64_small; lia).
    rewrite Hi in *. split_and!; done || lia.
  - intros (Hs & Hc & Hl & ->).
    rewrite (proj2 (Z.leb_gt _ _)), (proj2 (Z.ltb_ge _ _)), Hc by lia. simpl.
    rewrite i64_small by lia. by rewrite (proj2 (Z.ltb_ge _ _) Hl).
Qed.

(** [Add] obeys its contract: it succeeds exactly for a positive grant to
    an open window whose unused credit it keeps within the limit, and then
    adds exactly the grant; otherwise it names the violation (bounds, closed
    window, over-grant) and leaves no new state. *)
Theorem add_contract w size :
  window_ok w ->
  match Add w size with
  | Ok w' => 0 < size /\ w_closed w = false /\ w_credit w' = w_credit w + size /\
             w_credit w' <= w_limit w' /\ window_ok w'
  | Err e =>
    (e = ErrInvalid /\ (size <= 0 \/ w_limit w < size)) \/
    (w_closed w = true /\ e = closed_error w) \/
    (e = ErrOverGrant /\ w_closed w = false /\ w_limit w < w_credit w + size)
  end.
Proof.
  intros Hw. destruct (Add w size) as [w'|e] eqn:E.
  - apply Add_ok_iff in E as (Hs & Hc & Hl & ->); [| done]. unfold window_ok in *. simpl.
    split_and!; done || lia.
  - unfold Add in E. destruct ((size <=? 0) || (w_limit w <? size)) eqn:E1; simpl in E.
    { injection E as <-. left. split; [done |]. bool_facts. destruct E1; bool_facts; lia. }
    destruct (w_closed w) eqn:Ec; simpl in E; [injection E as <-; right; left; done |].
    destruct (w_limit w <? i64 (w_credit w + size)) eqn:E2; simpl in E; [| done]. injection E as <-.
    unfold window_ok in Hw. bool_facts. rewrite i64_small in E2 by lia. right; right. done.
Qed.

Lemma add_contract_witness :
  match Add (New 100) 40 with
  | Ok w' => 0 < 40 /\ w_closed (New 100) = false /\ w_credit w' = w_credit (New 100) + 40 /\
             w_credit w' <= w_limit w' /\ window_ok w'
  | Err e => False
  end.
Proof. exact (add_contract (New 100) 40 (New_ok 100 ltac:(vm_compute; reflexivity))). Defined.

(** The first grant a receiver derives from its budget is a legal
    [credit_bytes]: between 1 and the contract's ceiling, the budget itself
    when that is in range. *)
Theorem initial_credit_bounds budget :
  1 <= InitialCredit budget <= MaxWindowCreditBytes /\
  (1 <= budget <= MaxWindowCreditBytes -> InitialCredit budget = budget).
Proof.
  unfold InitialCredit. change MaxWindowCreditBytes with 8388608.
  destruct (budget <? 1) eqn:E1; [bool_lia |].
  destruct (8388608 <? budget) eqn:E2; [bool_lia |]. bool_facts.
  rewrite u32_id by (unfold is_u32; lia). lia.
Qed.

Lemma initial_credit_bounds_witness : InitialCredit 65536 = 65536.
Proof. apply initial_credit_bounds. vm_compute. split; discriminate. Defined.

(** ** Takers *)

Section Takers.

(** A goroutine in [Take]: about to lock, blocked in the select on the channel
    it read, or returned. *)
Inductive taker :=
| Entering (size : Z)
| Blocked (size : Z) (changed : nat)
| Returned (r : result unit).

Definition err_context : error := ErrSentinel "context done".

(** The window, its takers, and ghost totals of credit granted and taken. *)
Record system := System {
  s_window : Window;
  s_takers : gmap nat taker;
  s_granted : Z;
  s_taken : Z;
}.

Definition put (s : system) (t : nat) (x : taker) : system :=
  System (s_window s) (<[t := x]> (s_takers s)) (s_granted s) (s_taken s).

Inductive step : system -> system -> Prop :=
| step_call_invalid s t size :
    s_takers s !! t = None -> take_valid (s_window s) size = false ->
    step s (put s t (Returned (Err ErrInvalid)))
| step_call s t size :
    s_takers s !! t = None -> take_valid (s_window s) size = true ->
    step s (put s t (Entering size))
| step_locked_err s t size e :
    s_takers s !! t = Some (Entering size) -> take_locked (s_window s) size = TakeErr e ->
    step s (put s t (Returned (Err e)))
| step_locked_ok s t size w' :
    s_takers s !! t = Some (Entering size) -> take_locked (s_window s) size = TakeOk w' ->
    step s (System w' (<[t := Returned (Ok tt)]> (s_takers s)) (s_granted s) (s_taken s + size))
| step_locked_wait s t size c :
    s_takers s !! t = Some (Entering size) -> take_locked (s_window s) size = TakeWait c ->
    step s (put s t (Blocked size c))
| step_woken s t size c :
    s_takers s !! t = Some (Blocked size c) -> c <> w_changed (s_window s) ->
    step s (put s t (Entering size))
| step_cancelled s t size c :
    s_takers s !! t = Some (Blocked size c) ->
    step s (put s t (Returned (Err err_context)))
| step_add s size w' :
    Add (s_window s) size = Ok w' ->
    step s (System w' (s_takers s) (s_granted s + size) (s_taken s))
| step_close s err :
    step s (System (Close (s_window s) err) (s_takers s) (s_granted s) (s_taken s)).

Definition initial (limit : Z) : system := System (New limit) ∅ 0 0.

(** A taker waits on the open channel only when it really has to; an older
    channel is closed, so its waiter can go on. *)
Definition taker_ok (w : Window) (x : taker) : Prop :=
  match x with
  | Entering size => 0 < size <= w_limit w
  | Blocked size c =>
    0 < size <= w_limit w /\ (c <= w_changed w)%nat /\
    (c = w_changed w -> w_closed w = false /\ w_credit w < size)
  | Returned _ => True
  end.

Definition system_ok (s : system) : Prop :=
  window_ok (s_window s) /\ map_Forall (fun _ => taker_ok (s_window s)) (s_takers s) /\
  s_granted s = s_taken s + w_credit (s_window s).

Lemma take_valid_bounds w size : take_valid w size = true -> 0 < size <= w_limit w.
Proof. unfold take_valid. intros H. bool_facts. lia. Qed.

(** The window changed so that every waiter of the open channel still has to
    wait, or the channel was replaced. *)
Definition window_le (w w' : Window) : Prop :=
  w_limit w' = w_limit w /\
  ((w_changed w < w_changed w')%nat \/
   (w_changed w' = w_changed w /\ w_closed w' = w_closed w /\ w_credit w' <= w_credit w)).

Lemma taker_ok_mono w w' x : window_le w w' -> taker_ok w x -> taker_ok w' x.
Proof.
  intros [Hl Hc]. destruct x as [size|size c|r]; simpl; [by rewrite Hl | | done].
  rewrite Hl. intros (Hs & Hle & Hw). split; [done |].
  destruct Hc as [Hc|(Hc & Hcl & Hcr)]; [split; [lia |]; intros ->; lia |].
  split; [lia |]. intros ->. destruct (Hw Hc). split; [congruence | lia].
Qed.

Lemma put_ok s t x : system_ok s -> taker_ok (s_window s) x -> system_ok (put s t x).
Proof.
  intros (Hw & Hm & Hg) Hx. split; [done |]. split; [| done]. by apply map_Forall_insert_2.
Qed.

Lemma take_locked_wait w size c :
  take_locked w size = TakeWait c -> c = w_changed w /\ w_closed w = false /\ w_credit w < size.
Proof.
  unfold take_locked. destruct (w_closed w); [done |].
  destruct (size <=? w_credit w) eqn:E; [done |]. intros [= <-]. bool_facts. done.
Qed.

Lemma step_ok s s' : system_ok s -> step s s' -> system_ok s'.
Proof.
  intros Hok Hstep. pose proof Hok as (Hw & Hm & Hg).
  destruct Hstep as [s t size Ht Hv|s t size Ht Hv|s t size e Ht Hl|s t size w' Ht Hl
                    |s t size c Ht Hl|s t size c Ht Hne|s t size c Ht|s size w' Ha|s err].
  - by apply put_ok.
  - apply put_ok; [done |]. by apply take_valid_bounds.
  - by apply put_ok.
  - pose proof (Hm _ _ Ht) as [Hs _].
    apply take_locked_ok in Hl as (Hcl & Hle & -> & Hw'); [| done..].
    split; [done |]. split; [| simpl; lia]. simpl in *.
    apply map_Forall_insert_2; [done |]. eapply map_Forall_impl; [exact Hm |].
    intros i x. apply taker_ok_mono. split; [done |]. right. simpl. split_and!; [done..| lia].
  - apply put_ok; [done |]. pose proof (Hm _ _ Ht) as Hs. simpl in Hs.
    apply take_locked_wait in Hl as (-> & Hcl & Hlt). simpl. split_and!; done || lia.
  - apply put_ok; [done |]. pose proof (Hm _ _ Ht) as (Hs & _). done.
  - by apply put_ok.
  - apply Add_ok_iff in Ha as (Hs & Hcl & Hle & ->); [| done].
    split; [unfold window_ok in *; simpl; lia |]. split; [| simpl; lia]. simpl in *.
    eapply map_Forall_impl; [exact Hm |]. intros i x. apply taker_ok_mono.
    split; [done |]. left. simpl. lia.
  - unfold Close. destruct (w_closed (s_window s)) eqn:Ecl; [done |].
    split; [done |]. split; [| done]. simpl.
    eapply map_Forall_impl; [exact Hm |]. intros i x. apply taker_ok_mono.
    split; [done |]. left. simpl. lia.
Qed.

Lemma reachable_ok limit s : limit < 2 ^ 62 -> steps step (initial limit) s -> system_ok s.
Proof.
  intros Hl. apply (steps_invariant step system_ok); [| apply step_ok].
  split; [by apply New_ok |]. split; [apply map_Forall_empty | done].
Qed.

End Takers.

(** In every interleaving of takers, grants and the close, the unused
    credit stays within [0, limit], credit is conserved (all that was granted
    is either taken or still unused), and no wake-up is lost: a taker still
    waiting on the open channel finds the window open and short of credit. *)
Theorem window_interleavings limit s :
  limit < 2 ^ 62 -> steps step (initial limit) s ->
  0 <= w_credit (s_window s) <= w_limit (s_window s) /\
  s_granted s = s_taken s + w_credit (s_window s) /\
  forall t size c,
    s_takers s !! t = Some (Blocked size c) -> c = w_changed (s_window s) ->
    w_closed (s_window s) = false /\ w_credit (s_window s) < size.
Proof.
  intros Hl Hr. destruct (reachable_ok _ _ Hl Hr) as (Hw & Hm & Hg).
  split; [apply Hw |]. split; [done |]. intros t size c Ht Hc.
  pose proof (Hm _ _ Ht) as (_ & _ & Hx). by apply Hx.
Qed.

Lemma window_interleavings_witness :
  exists s, steps step (initial 10) s /\ s_takers s !! 0%nat = Some (Blocked 4 0) /\
            w_closed (s_window s) = false /\ w_credit (s_window s) < 4.
Proof.
  set (s := put (put (initial 10) 0 (Entering 4)) 0 (Blocked 4 0)).
  assert (Hr : steps step (initial 10) s).
  { eapply steps_snoc; [eapply steps_snoc; [apply steps_refl |] |].
    - apply (step_call _ 0 4); reflexivity.
    - apply (step_locked_wait _ 0 4 0); reflexivity. }
  exists s. split; [exact Hr |]. split; [reflexivity |].
  apply (proj2 (proj2 (window_interleavings 10 s ltac:(vm_compute; reflexivity) Hr)) 0%nat 4 0%nat);
    reflexivity.
Defined.
