(* ===== verification/Budget.v ===== *)
(** * Budget: byte budgets of the Agent and of the Gateway

    [internal/agent/agentbudget/budget.go], the Gateway's [ByteBudget] and
    [BudgetBuffer] ([internal/gateway/gatewayresources/resources.go]) and
    [internal/agent/resources.go].  The operations as one atomic function each,
    and the compare-and-swap loops they are written with as a step relation
    over any number of goroutines ([Section CasLoops]). *)

From S2P Require Import Prelude.

Module Agent.

Definition ErrUnderflow : error := ErrSentinel "agent byte budget underflow".

Record ByteBudget := MkBudget { b_limit : Z; b_used : Z; b_underflows : Z }.

Definition New (limit : Z) : ByteBudget := MkBudget limit 0 0.

Definition set_used (b : ByteBudget) (u : Z) : ByteBudget :=
  MkBudget (b_limit b) u (b_underflows b).

(** The CAS loop of [TryAcquire], run without interference: the first
    comparison succeeds. *)
Definition TryAcquire (b : ByteBudget) (size : Z) : bool * ByteBudget :=
  if (size <? 0) || (b_limit b <? size) then (false, b)
  else if size =? 0 then (true, b)
  else if i64 (b_limit b - size) <? b_used b then (false, b)
  else (true, set_used b (i64 (b_used b + size))).

(** [Release]: the error, and the budget after. *)
Definition Release (b : ByteBudget) (size : Z) : option error * ByteBudget :=
  if size <=? 0 then (None, b)
  else
    let next := i64 (b_used b - size) in
    if next <? 0
    then (Some ErrUnderflow, MkBudget (b_limit b) 0 (i64 (b_underflows b + 1)))
    else (None, set_used b next).

Definition Used (b : ByteBudget) : Z := b_used b.

Definition budget_ok (b : ByteBudget) : Prop :=
  is_i64 (b_limit b) /\ 0 <= b_used b /\ (b_used b = 0 \/ b_used b <= b_limit b).

Lemma TryAcquire_true b size b' :
  budget_ok b -> TryAcquire b size = (true, b') ->
  (size = 0 /\ 0 <= b_limit b /\ b' = b) \/
  (0 < size /\ b_used b + size <= b_limit b /\ b' = set_used b (b_used b + size)).
Proof.
  unfold budget_ok, is_i64, TryAcquire. intros (Hl & Hu & Hul) H.
  destruct ((size <? 0) || (b_limit b <? size)) eqn:E1; [done |]. bool_facts.
  destruct (size =? 0) eqn:E2; bool_facts; [left; simplify_eq; split_and!; done || lia |].
  rewrite !i64_id in H by (unfold is_i64; lia).
  destruct (b_limit b - size <? b_used b) eqn:E3; [done |]. bool_facts.
  rewrite i64_id in H by (unfold is_i64; lia). right. simplify_eq. split_and!; done || lia.
Qed.

Lemma TryAcquire_ok b size : budget_ok b -> budget_ok (TryAcquire b size).2.
Proof.
  intros H. destruct (TryAcquire b size) as [[] b'] eqn:E; simpl.
  - apply TryAcquire_true in E as [(_ & _ & ->)|(Hs & Hle & ->)]; [done | | done].
    unfold budget_ok in *. simpl. naive_solver lia.
  - unfold TryAcquire in E. repeat (case_match; simplify_eq; try done).
Qed.

Lemma Release_ok b size : budget_ok b -> is_i64 size -> budget_ok (Release b size).2.
Proof.
  unfold budget_ok, Release, is_i64. intros (Hl & Hu & Hul) Hs.
  destruct (size <=? 0) eqn:E; simpl; [done |]. bool_facts.
  rewrite i64_id by (unfold is_i64; lia).
  destruct (b_used b - size <? 0) eqn:E2; simpl; bool_facts; split_and!; try lia.
Qed.

(** [b'] is [b] with [d] more bytes used. *)
Definition moved (b b' : ByteBudget) (d : Z) : Prop :=
  budget_ok b' /\ b_limit b' = b_limit b /\ b_underflows b' = b_underflows b /\ b_used b' = b_used b + d.

Lemma moved_refl b : budget_ok b -> moved b b 0.
Proof. intros H. split_and!; [exact H | done | done | lia]. Qed.

Lemma moved_trans b b1 b2 d1 d2 : moved b b1 d1 -> moved b1 b2 d2 -> moved b b2 (d1 + d2).
Proof. intros (_ & L1 & U1 & H1) (K & L2 & U2 & H2). split; [exact K |]. split_and!; congruence || lia. Qed.

Lemma TryAcquire_moved b size :
  budget_ok b -> moved b (TryAcquire b size).2 (if (TryAcquire b size).1 then size else 0) /\
  ((TryAcquire b size).1 = true -> 0 <= size).
Proof.
  intros H. pose proof (TryAcquire_ok b size H) as Hok.
  destruct (TryAcquire b size) as [[] b'] eqn:E; cbn [fst snd] in *.
  - apply TryAcquire_true in E as [(-> & _ & ->)|(Hs & _ & ->)]; [| | exact H].
    + split; [by apply moved_refl | lia].
    + split; [split; [exact Hok | done] | lia].
  - split; [| done]. unfold TryAcquire in E. repeat (case_match; simplify_eq; try done); by apply moved_refl.
Qed.

(** What fits is granted. *)
Lemma TryAcquire_granted b size :
  budget_ok b -> 0 <= size -> b_used b + size <= b_limit b -> (TryAcquire b size).1 = true.
Proof.
  unfold budget_ok, is_i64, TryAcquire. intros (Hl & Hu & Hul) Hs Hfit.
  replace ((size <? 0) || (b_limit b <? size)) with false
    by (symmetry; apply orb_false_iff; rewrite !Z.ltb_ge; lia).
  destruct (size =? 0) eqn:E2; [done |]. rewrite !i64_id by (unfold is_i64; lia).
  by rewrite (proj2 (Z.ltb_ge _ _)) by lia.
Qed.

(** What is held can be given back; the clamp is not reached. *)
Lemma Release_moved b size :
  budget_ok b -> 0 <= size <= b_used b -> (Release b size).1 = None /\ moved b (Release b size).2 (- size).
Proof.
  unfold moved, budget_ok, is_i64, Release. intros (Hl & Hu & Hul) Hs.
  destruct (size <=? 0) eqn:E; bool_facts.
  - cbn. split_and!; done || lia.
  - rewrite i64_id by (unfold is_i64; lia). rewrite (proj2 (Z.ltb_ge _ _)) by lia. cbn. split_and!; done || lia.
Qed.

(** [streamInputBudget] and [streamQueueFrames] of agent/resources.go, over the
    two limits they read. *)
Definition streamInputBudget (mode : string) (MaxStreamQueueBytes MaxSessionQueueBytes : Z) : Z :=
  if String.eqb mode "tcp" || String.eqb mode "udp" then MaxStreamQueueBytes
  else if MaxStreamQueueBytes <? MaxSessionQueueBytes then MaxSessionQueueBytes
  else MaxStreamQueueBytes.

Definition minTunnelFrame : Z := 4096.

Definition streamQueueFrames (maxFrames budgetBytes : Z) : Z :=
  let frames := Z.quot budgetBytes minTunnelFrame in
  if frames <? maxFrames then maxFrames else frames.

End Agent.

Module Gateway.

Record ByteBudget := MkBudget { b_limit : Z; b_used : Z; b_rejected : Z }.

Definition ErrBudgetExhausted : error := ErrSentinel "gateway resource byte budget exhausted".

Definition NewByteBudget (limit : Z) : ByteBudget := MkBudget limit 0 0.

Definition set_used (b : ByteBudget) (u : Z) : ByteBudget :=
  MkBudget (b_limit b) u (b_rejected b).

Definition reject (b : ByteBudget) : ByteBudget :=
  MkBudget (b_limit b) (b_used b) (u64 (b_rejected b + 1)).

Definition TryAcquire (b : ByteBudget) (size : Z) : bool * ByteBudget :=
  if (size <? 0) || (b_limit b <? size) then (false, reject b)
  else if size =? 0 then (true, b)
  else if i64 (b_limit b - size) <? b_used b then (false, reject b)
  else (true, set_used b (i64 (b_used b + size))).

(** [Release] panics on underflow, after the subtraction. *)
Inductive release_outcome := Released (b : ByteBudget) | Panicked (b : ByteBudget).

Definition Release (b : ByteBudget) (size : Z) : release_outcome :=
  if size <=? 0 then Released b
  else
    let used := i64 (b_used b - size) in
    if used <? 0 then Panicked (set_used b used) else Released (set_used b used).

Definition after_release (o : release_outcome) : ByteBudget :=
  match o with Released b | Panicked b => b end.

Definition budget_ok (b : ByteBudget) : Prop :=
  is_i64 (b_limit b) /\ 0 <= b_used b /\ (b_used b = 0 \/ b_used b <= b_limit b).

Lemma TryAcquire_spec b size :
  budget_ok b ->
  let '(ok, b') := TryAcquire b size in
  budget_ok b' /\ b_limit b' = b_limit b /\
  (if ok then 0 <= size /\ b_used b' = b_used b + size
   else b' = reject b).
Proof.
  unfold budget_ok, is_i64, TryAcquire. intros (Hl & Hu & Hul).
  destruct ((size <? 0) || (b_limit b <? size)) eqn:E1; [by simpl |]. bool_facts.
  destruct (size =? 0) eqn:E2; bool_facts; [subst; split_and!; done || lia |].
  rewrite !i64_id by (unfold is_i64; lia).
  destruct (b_limit b - size <? b_used b) eqn:E3; [by simpl |]. bool_facts.
  rewrite i64_id by (unfold is_i64; lia). simpl. split_and!; done || lia.
Qed.

Lemma TryAcquire_grants b size :
  budget_ok b -> 0 <= size -> b_used b + size <= b_limit b -> (TryAcquire b size).1 = true.
Proof.
  unfold budget_ok, is_i64, TryAcquire. intros (Hl & Hu & Hul) Hs Hfit.
  replace ((size <? 0) || (b_limit b <? size)) with false
    by (symmetry; apply orb_false_iff; rewrite !Z.ltb_ge; lia).
  destruct (size =? 0) eqn:E2; [done |]. rewrite !i64_id by (unfold is_i64; lia).
  by rewrite (proj2 (Z.ltb_ge _ _)) by lia.
Qed.

Lemma Release_held b size :
  budget_ok b -> 0 <= size <= b_used b ->
  exists b', Release b size = Released b' /\ budget_ok b' /\ b_limit b' = b_limit b /\
             b_used b' = b_used b - size.
Proof.
  unfold budget_ok, is_i64, Release. intros (Hl & Hu & Hul) Hs.
  destruct (size <=? 0) eqn:E; bool_facts.
  - exists b. split_and!; done || lia.
  - rewrite i64_id by (unfold is_i64; lia). rewrite (proj2 (Z.ltb_ge _ _)) by lia.
    eexists. split; [done |]. simpl. split_and!; done || lia.
Qed.

(** ** [BudgetBuffer] *)

Record BudgetBuffer := MkBuffer { bb_content : bytes; bb_acquired : Z }.

Definition NewBudgetBuffer : BudgetBuffer := MkBuffer [] 0.

(** [bytes.Buffer.Write] never writes short, so [n = len(data)]. *)
Definition Write (b : ByteBudget) (buf : BudgetBuffer) (data : bytes)
  : result Z * ByteBudget * BudgetBuffer :=
  match TryAcquire b (zlen data) with
  | (false, b') => (Err ErrBudgetExhausted, b', buf)
  | (true, b') =>
    let n := zlen data in
    let buf' := MkBuffer (bb_content buf ++ data) (i64 (bb_acquired buf + n)) in
    let b'' := if n <? zlen data then after_release (Release b' (zlen data - n)) else b' in
    (Ok n, b'', buf')
  end.

Definition ReleaseBuffer (b : ByteBudget) (buf : BudgetBuffer) : release_outcome * BudgetBuffer :=
  if 0 <? bb_acquired buf
  then (Release b (bb_acquired buf), MkBuffer [] 0)
  else (Released b, MkBuffer [] (bb_acquired buf)).

(** A buffer holds exactly what it acquired, and the budget covers it. *)
Definition buffer_ok (b : ByteBudget) (buf : BudgetBuffer) : Prop :=
  bb_acquired buf = zlen (bb_content buf) /\ bb_acquired buf <= b_used b.

(** A [BudgetBuffer] never retains a byte its budget has not granted: a
    write is taken whole with exactly its length acquired, or refused with
    [ErrBudgetExhausted], the buffer unchanged and the budget short of that
    length; releasing the buffer returns every byte and never underflows. *)
Theorem budget_buffer_exact b buf data :
  budget_ok b -> buffer_ok b buf ->
  (let '(r, b', buf') := Write b buf data in
   budget_ok b' /\ buffer_ok b' buf' /\
   match r with
   | Ok n => n = zlen data /\ bb_content buf' = bb_content buf ++ data /\
             b_used b' = b_used b + zlen data
   | Err e => e = ErrBudgetExhausted /\ buf' = buf /\ b_used b' = b_used b /\
              b_limit b < b_used b + zlen data
   end) /\
  (exists b', ReleaseBuffer b buf = (Released b', MkBuffer [] 0) /\
              b_used b' = b_used b - zlen (bb_content buf)).
Proof.
  intros Hok [Hacq Hle]. pose proof Hok as (Hl & Hu & Hul). unfold is_i64 in Hl.
  pose proof (zlen_nonneg data). pose proof (zlen_nonneg (bb_content buf)). split.
  - unfold Write. pose proof (TryAcquire_spec b (zlen data) Hok) as Ht.
    destruct (TryAcquire b (zlen data)) as [[] b'] eqn:E.
    + destruct Ht as (Hb & Hlim & _ & Hus). rewrite Z.ltb_irrefl.
      pose proof Hb as (_ & _ & Hb3).
      rewrite i64_id by (unfold is_i64; lia). unfold buffer_ok. simpl. rewrite zlen_app.
      split_and!; try done; lia.
    + destruct Ht as (Hb & _ & ->). unfold buffer_ok.
      split; [done |]. split; [done |]. split_and!; try done.
      destruct (Z.le_gt_cases (b_used b + zlen data) (b_limit b)) as [Hc|]; [| lia].
      by rewrite (surjective_pairing (TryAcquire b (zlen data))), TryAcquire_grants in E.
  - unfold ReleaseBuffer. destruct (0 <? bb_acquired buf) eqn:E; bool_facts.
    + destruct (Release_held b (bb_acquired buf) Hok ltac:(lia)) as (b' & -> & _ & _ & Hus).
      exists b'. split; [done | lia].
    + assert (bb_acquired buf = 0) as -> by lia. exists b. split; [done | lia].
Qed.

Lemma budget_buffer_exact_witness :
  let b := NewByteBudget 4 in
  (exists b', ReleaseBuffer b NewBudgetBuffer = (Released b', MkBuffer [] 0) /\
              b_used b' = b_used b - zlen []) /\
  (Write b NewBudgetBuffer (repeat Byte.x00 5)).1.1 = Err ErrBudgetExhausted.
Proof.
  intros b. assert (Hb : budget_ok b) by (split; [unfold is_i64; simpl; lia | simpl; lia]).
  assert (Hf : buffer_ok b NewBudgetBuffer) by (split; [done | vm_compute; discriminate]).
  split; [exact (proj2 (budget_buffer_exact b NewBudgetBuffer [] Hb Hf)) |].
  vm_compute. reflexivity.
Defined.

End Gateway.

(** ** The compare-and-swap loops *)

Section CasLoops.

(** A goroutine of [TryAcquire] or [Release] past its guards: about to load,
    holding a loaded value, or returned. *)
Inductive cas_thread :=
| AcqLoop (size : Z)
| AcqLoaded (size used : Z)
| AcqDone (ok : bool) (size : Z)
| RelLoop (size : Z)
| RelLoaded (size used : Z)
| RelDone (clamped : bool) (size : Z).

(** The shared counter, the goroutines, and ghost totals: bytes whose
    acquisition returned true, bytes whose release returned nil, and whether
    any release was clamped. *)
Record cas_state := Cas {
  cs_limit : Z; cs_used : Z; cs_threads : gmap nat cas_thread;
  cs_acquired : Z; cs_released : Z; cs_clamped : bool }.

Definition cas_put (s : cas_state) (t : nat) (x : cas_thread) : cas_state :=
  Cas (cs_limit s) (cs_used s) (<[t := x]> (cs_threads s)) (cs_acquired s) (cs_released s)
      (cs_clamped s).

Inductive cas_step : cas_state -> cas_state -> Prop :=
| cas_acquire s t size :
    cs_threads s !! t = None -> 0 < size <= cs_limit s -> cas_step s (cas_put s t (AcqLoop size))
| cas_acq_load s t size :
    cs_threads s !! t = Some (AcqLoop size) -> cas_step s (cas_put s t (AcqLoaded size (cs_used s)))
| cas_acq_full s t size used :
    cs_threads s !! t = Some (AcqLoaded size used) -> i64 (cs_limit s - size) < used ->
    cas_step s (cas_put s t (AcqDone false size))
| cas_acq_swap s t size used :
    cs_threads s !! t = Some (AcqLoaded size used) -> used <= i64 (cs_limit s - size) ->
    used = cs_used s ->
    cas_step s (Cas (cs_limit s) (i64 (used + size)) (<[t := AcqDone true size]> (cs_threads s))
                    (cs_acquired s + size) (cs_released s) (cs_clamped s))
| cas_acq_retry s t size used :
    cs_threads s !! t = Some (AcqLoaded size used) -> used <= i64 (cs_limit s - size) ->
    used <> cs_used s -> cas_step s (cas_put s t (AcqLoop size))
| cas_release s t size :
    cs_threads s !! t = None -> 0 < size -> is_i64 size -> cas_step s (cas_put s t (RelLoop size))
| cas_rel_load s t size :
    cs_threads s !! t = Some (RelLoop size) -> cas_step s (cas_put s t (RelLoaded size (cs_used s)))
| cas_rel_swap s t size used :
    cs_threads s !! t = Some (RelLoaded size used) -> 0 <= i64 (used - size) -> used = cs_used s ->
    cas_step s (Cas (cs_limit s) (i64 (used - size)) (<[t := RelDone false size]> (cs_threads s))
                    (cs_acquired s) (cs_released s + size) (cs_clamped s))
| cas_rel_clamp s t size used :
    cs_threads s !! t = Some (RelLoaded size used) -> i64 (used - size) < 0 -> used = cs_used s ->
    cas_step s (Cas (cs_limit s) 0 (<[t := RelDone true size]> (cs_threads s))
                    (cs_acquired s) (cs_released s) true)
| cas_rel_retry s t size used :
    cs_threads s !! t = Some (RelLoaded size used) -> used <> cs_used s ->
    cas_step s (cas_put s t (RelLoop size)).

Definition cas_initial (limit : Z) : cas_state := Cas limit 0 ∅ 0 0 false.

Definition cas_thread_ok (limit : Z) (x : cas_thread) : Prop :=
  match x with
  | AcqLoop size => 0 < size <= limit
  | AcqLoaded size used => 0 < size <= limit /\ 0 <= used <= limit
  | RelLoop size => 0 < size /\ is_i64 size
  | RelLoaded size used => 0 < size /\ is_i64 size /\ 0 <= used <= limit
  | _ => True
  end.

Definition cas_ok (s : cas_state) : Prop :=
  is_i64 (cs_limit s) /\ 0 <= cs_used s <= cs_limit s /\
  map_Forall (fun _ => cas_thread_ok (cs_limit s)) (cs_threads s) /\
  (cs_clamped s = false -> cs_used s = cs_acquired s - cs_released s).

Lemma cas_put_ok s t x : cas_ok s -> cas_thread_ok (cs_limit s) x -> cas_ok (cas_put s t x).
Proof.
  intros (Hl & Hu & Hm & Hg) Hx. split; [done |]. split; [done |]. split; [| done].
  by apply map_Forall_insert_2.
Qed.

Lemma cas_swap_ok s t x u a r c :
  cas_ok s -> cas_thread_ok (cs_limit s) x -> 0 <= u <= cs_limit s -> (c = false -> u = a - r) ->
  cas_ok (Cas (cs_limit s) u (<[t := x]> (cs_threads s)) a r c).
Proof.
  intros (Hl & Hu & Hm & Hg) Hx Hb Hc. split; [done |]. split; [done |]. split; [| done].
  by apply map_Forall_insert_2.
Qed.

Lemma cas_step_ok s s' : cas_ok s -> cas_step s s' -> cas_ok s'.
Proof.
  intros Hok Hstep. pose proof Hok as (Hl & Hu & Hm & Hg). unfold is_i64 in Hl.
  destruct Hstep as [s t size Ht Hs|s t size Ht|s t size used Ht Hf|s t size used Ht Hf ->
    |s t size used Ht Hf Hne|s t size Ht Hs Hi|s t size Ht|s t size used Ht Hn ->
    |s t size used Ht Hn ->|s t size used Ht Hne];
    try (pose proof (Hm _ _ Ht) as Hx; simpl in Hx).
  - by apply cas_put_ok.
  - apply cas_put_ok; simpl; [done | split; [done | lia]].
  - by apply cas_put_ok.
  - destruct Hx as [Hs _]. rewrite i64_id in Hf by (unfold is_i64; lia).
    rewrite i64_id by (unfold is_i64; lia).
    apply cas_swap_ok; [done | done | lia |]. intros Hc. specialize (Hg Hc). lia.
  - apply cas_put_ok; [done | apply Hx].
  - by apply cas_put_ok.
  - apply cas_put_ok; simpl; [done | naive_solver lia].
  - destruct Hx as (Hs & Hi & _). unfold is_i64 in Hi. rewrite i64_id in Hn by (unfold is_i64; lia).
    rewrite i64_id by (unfold is_i64; lia).
    apply cas_swap_ok; [done | done | lia |]. intros Hc. specialize (Hg Hc). lia.
  - by apply cas_swap_ok; [| | lia |].
  - apply cas_put_ok; [done |]. naive_solver.
Qed.

End CasLoops.

(** In every interleaving of concurrent [TryAcquire] and [Release] calls
    the reserved bytes stay within [0, limit] (no over-commit, no negative
    reservation), and as long as no release was clamped they equal the bytes
    acquired minus the bytes released. *)
Theorem budget_interleavings limit s :
  0 <= limit -> is_i64 limit -> steps cas_step (cas_initial limit) s ->
  0 <= cs_used s <= limit /\
  (cs_clamped s = false -> cs_used s = cs_acquired s - cs_released s).
Proof.
  intros H0 Hl Hr.
  assert (Hlim : cs_limit s = limit).
  { revert Hr. apply (steps_invariant cas_step (fun s => cs_limit s = limit)); [done |].
    intros a b Ha Hab. by destruct Hab. }
  assert (Hok : cas_ok s).
  { revert Hr. apply (steps_invariant cas_step cas_ok); [| apply cas_step_ok].
    split; [done |]. split; [simpl; lia |]. split; [apply map_Forall_empty | done]. }
  destruct Hok as (_ & Hu & _ & Hg). rewrite Hlim in Hu. done.
Qed.

Lemma budget_interleavings_witness :
  exists s, steps cas_step (cas_initial 8) s /\ cs_used s = 5 /\ 0 <= cs_used s <= 8.
Proof.
  set (s := Cas 8 5 (<[0%nat := AcqDone true 5]> (<[0%nat := AcqLoaded 5 0]>
              (<[0%nat := AcqLoop 5]> ∅))) 5 0 false).
  assert (Hr : steps cas_step (cas_initial 8) s).
  { eapply steps_snoc; [eapply steps_snoc; [eapply steps_snoc; [apply steps_refl |] |] |].
    - apply (cas_acquire _ 0 5); [reflexivity | simpl; lia].
    - apply (cas_acq_load _ 0 5). reflexivity.
    - apply (cas_acq_swap (cas_put (cas_put (cas_initial 8) 0 (AcqLoop 5)) 0 (AcqLoaded 5 0)) 0 5 0);
        [reflexivity | vm_compute; discriminate | reflexivity]. }
  exists s. split; [exact Hr |]. split; [reflexivity |].
  apply (budget_interleavings 8 s); [lia | unfold is_i64; lia | exact Hr].
Defined.

(** The Agent's [TryAcquire] accepts a request of zero bytes. *)
Lemma acquire_zero limit : 0 <= limit -> (Agent.TryAcquire (Agent.New limit) 0).1 = true.
Proof.
  intros H. unfold Agent.TryAcquire. simpl.
  by rewrite (proj2 (Z.ltb_ge _ _) H).
Qed.
