(* ===== verification/Health.v ===== *)
(** * Health: [internal/agent/tunnelstates]

    The connection health state machine of one tunnel and the aggregate view
    over several.  [legalTransitions] is the table of machine.go; the reachable
    histories of a machine are the paths of [transition_step]. *)

From S2P Require Import Prelude.

Inductive State := Init | Connecting | Connected | Degraded | Reconnecting | Revoked | Shutdown.

#[export] Instance State_eq_dec : EqDecision State.
Proof. solve_decision. Defined.

Definition state_name (s : State) : string :=
  match s with
  | Init => "init" | Connecting => "connecting" | Connected => "connected"
  | Degraded => "degraded" | Reconnecting => "reconnecting" | Revoked => "revoked"
  | Shutdown => "shutdown"
  end.

Definition Terminal (s : State) : bool :=
  match s with Revoked | Shutdown => true | _ => false end.

Definition ErrIllegalTransition : error := ErrSentinel "illegal tunnel state transition".

Definition legalTransitions (s : State) : list State :=
  match s with
  | Init => [Connecting; Shutdown]
  | Connecting => [Connected; Reconnecting; Revoked; Shutdown]
  | Connected => [Degraded; Reconnecting; Revoked; Shutdown]
  | Degraded => [Connected; Reconnecting; Revoked; Shutdown]
  | Reconnecting => [Connecting; Connected; Revoked; Shutdown]
  | Revoked => []
  | Shutdown => []
  end.

Definition canTransition (from to : State) : bool :=
  existsb (fun c => bool_decide (c = to)) (legalTransitions from).

(** [Machine.Transition]: the error, or the machine's next state. *)
Definition Transition (m to : State) : result State :=
  if Terminal m then Err ErrIllegalTransition
  else if bool_decide (m = to) then Ok m
  else if negb (canTransition m to) then Err ErrIllegalTransition
  else Ok to.

(** A machine applies a list of requests, ignoring the refused ones (the
    callers log the error and go on). *)
Definition apply_transition (m to : State) : State :=
  match Transition m to with Ok s => s | Err _ => m end.

Definition run_transitions (m : State) (reqs : list State) : State :=
  fold_left apply_transition reqs m.

(** ** The aggregate *)

Record seen := Seen {
  sawConnecting : bool; sawConnected : bool; sawDegraded : bool; sawReconnecting : bool;
  sawRevoked : bool; sawInit : bool }.

Definition observe (acc : seen) (m : State) : seen :=
  let '(Seen ing ed deg rec rev ini) := acc in
  match m with
  | Connected => Seen ing true deg rec rev ini
  | Degraded => Seen ing ed true rec rev ini
  | Connecting => Seen true ed deg rec rev ini
  | Reconnecting => Seen ing ed deg true rev ini
  | Revoked => Seen ing ed deg rec true ini
  | Shutdown => acc
  | Init => Seen ing ed deg rec rev true
  end.

Definition AggregateState (machines : list State) : State :=
  match machines with
  | [] => Init
  | _ =>
    let acc := fold_left observe machines (Seen false false false false false false) in
    if sawConnected acc then Connected
    else if sawDegraded acc then Degraded
    else if sawConnecting acc then Connecting
    else if sawReconnecting acc then Reconnecting
    else if sawRevoked acc then Revoked
    else if sawInit acc then Init
    else Shutdown
  end.

Definition Healthy (machines : list State) : bool :=
  match AggregateState machines with Connected | Degraded => true | _ => false end.

Definition AggregateObservability (machines : list State) : string * bool * bool :=
  (state_name (AggregateState machines), Terminal (AggregateState machines), Healthy machines).

(** ** Machines *)

Lemma canTransition_in a b : canTransition a b = true <-> b ∈ legalTransitions a.
Proof.
  unfold canTransition. rewrite existsb_exists, list_elem_of_In. split.
  - intros (x & Hx & H). by apply bool_decide_eq_true in H as <-.
  - intros H. exists b. split; [done | by apply bool_decide_eq_true].
Qed.

Lemma Transition_Ok m to s :
  Transition m to = Ok s <-> Terminal m = false /\ s = to /\ (to = m \/ to ∈ legalTransitions m).
Proof.
  unfold Transition. destruct (Terminal m); [by naive_solver |].
  case_bool_decide as Hm; [naive_solver |].
  destruct (canTransition m to) eqn:E; simpl.
  - apply canTransition_in in E. naive_solver.
  - split; [done |]. intros (_ & _ & [->|H]); [done |]. apply canTransition_in in H. congruence.
Qed.

Lemma run_terminal m reqs : Terminal m = true -> run_transitions m reqs = m.
Proof.
  intros H. unfold run_transitions. induction reqs as [|r rs IH]; [done |]. simpl.
  replace (apply_transition m r) with m; [done |].
  unfold apply_transition, Transition. by rewrite H.
Qed.

(** States a machine can still reach: none left once terminal, and [Init] is
    never re-entered. *)
Definition may_follow (m s : State) : bool :=
  match m, s with
  | Init, _ => true
  | _, Init => false
  | Revoked, Revoked | Shutdown, Shutdown => true
  | Revoked, _ | Shutdown, _ => false
  | _, _ => true
  end.

Lemma may_follow_step m to : may_follow m (apply_transition m to) = true.
Proof. destruct m, to; reflexivity. Qed.

Lemma may_follow_trans a b c : may_follow a b = true -> may_follow b c = true -> may_follow a c = true.
Proof. destruct a, b, c; done. Qed.

Lemma run_may_follow m reqs : may_follow m (run_transitions m reqs) = true.
Proof.
  revert m. induction reqs as [|r rs IH]; intros m; [by destruct m |].
  eapply may_follow_trans; [apply (may_follow_step m r) | apply IH].
Qed.

(** A health machine follows its table and stops for good: a request is
    granted exactly when the machine is not terminal and the target is the
    current state or one of the table's successors; after any requests a
    terminal machine is where it was, and [Init] is never re-entered. *)
Theorem machine_transitions m to reqs :
  (is_ok (Transition m to) = true <->
     Terminal m = false /\ (to = m \/ to ∈ legalTransitions m)) /\
  (Terminal m = true -> run_transitions m reqs = m) /\
  (m <> Init -> run_transitions m reqs <> Init).
Proof.
  split; [| split].
  - split.
    + intros H. destruct (Transition m to) as [s|] eqn:E; [| done].
      apply Transition_Ok in E as (? & _ & ?). done.
    + intros [Ht Hl]. by rewrite (proj2 (Transition_Ok m to to) (conj Ht (conj eq_refl Hl))).
  - apply run_terminal.
  - intros Hm E. pose proof (run_may_follow m reqs) as H. rewrite E in H. by destruct m.
Qed.

Lemma machine_transitions_witness :
  run_transitions Revoked [Connecting; Connected] = Revoked /\
  run_transitions Connecting [Connected; Init] <> Init.
Proof.
  split.
  - by apply (machine_transitions Revoked Init [Connecting; Connected]).
  - by apply (machine_transitions Connecting Init [Connected; Init]).
Defined.

(** ** The aggregate's order of precedence *)

Lemma observe_all ms acc :
  let r := fold_left observe ms acc in
  (sawConnecting r = true <-> sawConnecting acc = true \/ Connecting ∈ ms) /\
  (sawConnected r = true <-> sawConnected acc = true \/ Connected ∈ ms) /\
  (sawDegraded r = true <-> sawDegraded acc = true \/ Degraded ∈ ms) /\
  (sawReconnecting r = true <-> sawReconnecting acc = true \/ Reconnecting ∈ ms) /\
  (sawRevoked r = true <-> sawRevoked acc = true \/ Revoked ∈ ms) /\
  (sawInit r = true <-> sawInit acc = true \/ Init ∈ ms).
Proof.
  revert acc. induction ms as [|m ms IH]; intros acc; simpl.
  - set_solver.
  - destruct (IH (observe acc m)) as (H1 & H2 & H3 & H4 & H5 & H6).
    rewrite H1, H2, H3, H4, H5, H6, !elem_of_cons.
    destruct acc, m; simpl; clear; intuition (try congruence).
Qed.

(** The first state of the precedence list that some machine is in. *)
Definition precedence : list State :=
  [Connected; Degraded; Connecting; Reconnecting; Revoked; Init; Shutdown].

Definition first_present (ms : list State) : State :=
  default Init (List.find (fun s => bool_decide (s ∈ ms)) precedence).

(** The aggregate is the best state some tunnel is in, in the order
    connected, degraded, connecting, reconnecting, revoked, init, shutdown;
    it is healthy exactly when some tunnel is connected or degraded, and it is
    terminal only when no tunnel could still come up. *)
Theorem aggregate_precedence ms :
  AggregateState ms = first_present ms /\
  (Healthy ms = true <-> Connected ∈ ms \/ Degraded ∈ ms) /\
  (Terminal (AggregateState ms) = true ->
     Forall (fun m => m ∈ [Revoked; Shutdown; Init]) ms).
Proof.
  assert (Hst : AggregateState ms = first_present ms).
  { destruct ms as [|m ms]; [done |]. unfold AggregateState, first_present.
    remember (m :: ms) as l eqn:El.
    pose proof (observe_all l (Seen false false false false false false)) as H.
    remember (fold_left observe l _) as r eqn:Er. clear Er.
    destruct H as (H1 & H2 & H3 & H4 & H5 & H6).
    cbn [sawConnecting sawConnected sawDegraded sawReconnecting sawRevoked sawInit] in *.
    unfold precedence. cbn [List.find].
    destruct (sawConnected r); [by rewrite bool_decide_eq_true_2 by (by destruct (proj1 H2 eq_refl)) |].
    rewrite (bool_decide_eq_false_2 (Connected ∈ l))
      by (intros Hin; discriminate (proj2 H2 (or_intror Hin))).
    destruct (sawDegraded r); [by rewrite bool_decide_eq_true_2 by (by destruct (proj1 H3 eq_refl)) |].
    rewrite (bool_decide_eq_false_2 (Degraded ∈ l))
      by (intros Hin; discriminate (proj2 H3 (or_intror Hin))).
    destruct (sawConnecting r); [by rewrite bool_decide_eq_true_2 by (by destruct (proj1 H1 eq_refl)) |].
    rewrite (bool_decide_eq_false_2 (Connecting ∈ l))
      by (intros Hin; discriminate (proj2 H1 (or_intror Hin))).
    destruct (sawReconnecting r); [by rewrite bool_decide_eq_true_2 by (by destruct (proj1 H4 eq_refl)) |].
    rewrite (bool_decide_eq_false_2 (Reconnecting ∈ l))
      by (intros Hin; discriminate (proj2 H4 (or_intror Hin))).
    destruct (sawRevoked r); [by rewrite bool_decide_eq_true_2 by (by destruct (proj1 H5 eq_refl)) |].
    rewrite (bool_decide_eq_false_2 (Revoked ∈ l))
      by (intros Hin; discriminate (proj2 H5 (or_intror Hin))).
    destruct (sawInit r); [by rewrite bool_decide_eq_true_2 by (by destruct (proj1 H6 eq_refl)) |].
    rewrite (bool_decide_eq_false_2 (Init ∈ l))
      by (intros Hin; discriminate (proj2 H6 (or_intror Hin))).
    assert (Hs : m = Shutdown) by (subst l; destruct m; try done; set_solver).
    rewrite bool_decide_eq_true_2; [done | rewrite El, Hs; set_solver]. }
  split; [done |]. split.
  - unfold Healthy. rewrite Hst. unfold first_present. simpl.
    repeat case_bool_decide; simpl; naive_solver.
  - rewrite Hst. unfold first_present. simpl. intros Ht. apply Forall_forall. intros x Hx.
    repeat case_bool_decide; simpl in Ht; try done; destruct x; set_solver.
Qed.

Lemma aggregate_precedence_witness :
  Terminal (AggregateState [Revoked; Shutdown]) = true /\
  Forall (fun m => m ∈ [Revoked; Shutdown; Init]) [Revoked; Shutdown].
Proof.
  assert (H : Terminal (AggregateState [Revoked; Shutdown]) = true) by reflexivity.
  split; [exact H |].
  destruct (aggregate_precedence [Revoked; Shutdown]) as (_ & _ & Hall). exact (Hall H).
Defined.
