(* ===== verification/Admission.v ===== *)
(** * Admission: rate and concurrency limiters of the Gateway

    [TokenBucket], [KeyedAdmissionLimiter] and [KeyedTokenBuckets] of
    [internal/gateway/gatewayresources/resources.go].  Token counts are IEEE
    binary64, as {!GoFloat} computes it with the Standard Library; instants and durations are nanoseconds.  The theorems are the
    ones that do not depend on rounding: concurrency bounds, slot accounting
    across key eviction, the clocks, and when a request is refused. *)

From S2P Require Import Prelude GoTime GoFloat.

(** [Duration.Seconds]. *)
Definition seconds (d : Z) : float64 :=
  f_add (f_of_int (Z.quot d Second)) (f_div (f_of_int (Z.rem d Second)) (f_of_int 1000000000)).

(** The refill both limiters share: the clock does not run backwards, tokens
    accrue and are capped.  Returns the clamped instant and the tokens. *)
Definition refill (tokens : float64) (last now : instant) (rate burst : float64)
  : instant * float64 :=
  let now := if before now last then last else now in
  let tokens := f_add tokens (f_mul (seconds (time_sub now last)) rate) in
  (now, if f_lt burst tokens then burst else tokens).

(** ** [TokenBucket] *)

Record TokenBucket := MkBucket {
  tb_rate : float64; tb_burst : float64; tb_tokens : float64; tb_last : instant;
  tb_rejected : Z }.

Definition NewTokenBucket (rate burst : Z) (now : instant) : TokenBucket :=
  MkBucket (f_of_int rate) (f_of_int burst) (f_of_int burst) now 0.

Definition Allow (b : TokenBucket) (now : instant) : bool * TokenBucket :=
  let '(now, tokens) := refill (tb_tokens b) (tb_last b) now (tb_rate b) (tb_burst b) in
  if f_lt tokens f_one
  then (false, MkBucket (tb_rate b) (tb_burst b) tokens now (u64 (tb_rejected b + 1)))
  else (true, MkBucket (tb_rate b) (tb_burst b) (f_sub tokens f_one) now (tb_rejected b)).

(** The decisions of a sequence of requests. *)
Fixpoint allow_all (b : TokenBucket) (nows : list instant) : list bool :=
  match nows with
  | [] => []
  | n :: r => let '(ok, b') := Allow b n in ok :: allow_all b' r
  end.

Example bucket_burst_then_refill :
  allow_all (NewTokenBucket 2 3 0) [0; 0; 0; 0; 250 * Millisecond; 500 * Millisecond; 600 * Millisecond]
  = [true; true; true; false; false; true; false].
Proof. vm_compute. reflexivity. Qed.

(** ** [KeyedAdmissionLimiter] *)

Inductive RejectReason := Accepted | RejectedRate | RejectedConcurrency.

#[export] Instance RejectReason_eq_dec : EqDecision RejectReason.
Proof. solve_decision. Defined.

Record keyedState := KeyedState { ks_inFlight : Z; ks_tokens : float64; ks_last : instant }.

Record KeyedAdmissionLimiter := MkLimiter {
  kl_maxInFlight : Z;
  kl_fairMaxInFlight : Z;
  kl_rate : float64;
  kl_fairRate : float64;
  kl_burst : float64;
  kl_fairBurst : float64;
  kl_contentionWindow : Z;
  kl_alwaysFair : bool;
  kl_states : gmap string keyedState;
  kl_maxTrackedKeys : Z;
  kl_recentKey : string;
  kl_recentAt : instant;
  kl_previousKey : string;
  kl_previousAt : instant;
  kl_rejected : Z;
}.

Definition FairnessShare (global : Z) : Z :=
  if global <=? 1 then global
  else
    let share := Z.quot (i64 (global * 3)) 4 in
    let share := if global <=? share then i64 (global - 1) else share in
    if share <? 1 then 1 else share.

Definition NewKeyedAdmissionLimiter (maxInFlight rate burst : Z) : KeyedAdmissionLimiter :=
  MkLimiter maxInFlight (FairnessShare maxInFlight) (f_of_int rate) (f_of_int (FairnessShare rate))
    (f_of_int burst) (f_of_int (FairnessShare burst)) (2 * Second) false ∅ 65536
    EmptyString zero_time EmptyString zero_time 0.

Definition with_always_fair (l : KeyedAdmissionLimiter) : KeyedAdmissionLimiter :=
  MkLimiter (kl_maxInFlight l) (kl_fairMaxInFlight l) (kl_rate l) (kl_fairRate l) (kl_burst l)
    (kl_fairBurst l) (kl_contentionWindow l) true (kl_states l) (kl_maxTrackedKeys l)
    (kl_recentKey l) (kl_recentAt l) (kl_previousKey l) (kl_previousAt l) (kl_rejected l).

Definition NewHardKeyedAdmissionLimiter (maxInFlight rate burst : Z) : KeyedAdmissionLimiter :=
  with_always_fair (NewKeyedAdmissionLimiter maxInFlight rate burst).

Definition otherKeyRecentlySeen (l : KeyedAdmissionLimiter) (key : string) (now : instant) : bool :=
  let cutoff := now - kl_contentionWindow l in
  (negb (String.eqb (kl_recentKey l) EmptyString) && negb (String.eqb (kl_recentKey l) key)
   && negb (before (kl_recentAt l) cutoff)) ||
  (negb (String.eqb (kl_previousKey l) EmptyString) && negb (String.eqb (kl_previousKey l) key)
   && negb (before (kl_previousAt l) cutoff)).

Definition observeKey (l : KeyedAdmissionLimiter) (key : string) (now : instant)
  : KeyedAdmissionLimiter :=
  if String.eqb (kl_recentKey l) key then
    MkLimiter (kl_maxInFlight l) (kl_fairMaxInFlight l) (kl_rate l) (kl_fairRate l) (kl_burst l)
      (kl_fairBurst l) (kl_contentionWindow l) (kl_alwaysFair l) (kl_states l) (kl_maxTrackedKeys l)
      (kl_recentKey l) now (kl_previousKey l) (kl_previousAt l) (kl_rejected l)
  else
    MkLimiter (kl_maxInFlight l) (kl_fairMaxInFlight l) (kl_rate l) (kl_fairRate l) (kl_burst l)
      (kl_fairBurst l) (kl_contentionWindow l) (kl_alwaysFair l) (kl_states l) (kl_maxTrackedKeys l)
      key now (kl_recentKey l) (kl_recentAt l) (kl_rejected l).

Definition set_states (l : KeyedAdmissionLimiter) (m : gmap string keyedState)
  : KeyedAdmissionLimiter :=
  MkLimiter (kl_maxInFlight l) (kl_fairMaxInFlight l) (kl_rate l) (kl_fairRate l) (kl_burst l)
    (kl_fairBurst l) (kl_contentionWindow l) (kl_alwaysFair l) m (kl_maxTrackedKeys l)
    (kl_recentKey l) (kl_recentAt l) (kl_previousKey l) (kl_previousAt l) (kl_rejected l).

Definition reject_one (l : KeyedAdmissionLimiter) : KeyedAdmissionLimiter :=
  MkLimiter (kl_maxInFlight l) (kl_fairMaxInFlight l) (kl_rate l) (kl_fairRate l) (kl_burst l)
    (kl_fairBurst l) (kl_contentionWindow l) (kl_alwaysFair l) (kl_states l) (kl_maxTrackedKeys l)
    (kl_recentKey l) (kl_recentAt l) (kl_previousKey l) (kl_previousAt l)
    (u64 (kl_rejected l + 1)).

(** The sweep: entries of other keys with nothing in flight are dropped. *)
Definition sweep (m : gmap string keyedState) (key : string) : gmap string keyedState :=
  filter (fun kv => ~ (ks_inFlight kv.2 = 0 /\ kv.1 <> key)) m.

(** The state of [key], created (and the map swept if it is over its bound)
    on first use. *)
Definition key_state (l : KeyedAdmissionLimiter) (key : string) (now : instant)
  : keyedState * gmap string keyedState :=
  match kl_states l !! key with
  | Some st => (st, kl_states l)
  | None =>
    let st := KeyedState 0 (kl_burst l) now in
    let m := <[key := st]> (kl_states l) in
    (st, if kl_maxTrackedKeys l <? Z.of_nat (size m) then sweep m key else m)
  end.

Definition TryAcquire (l0 : KeyedAdmissionLimiter) (key : string) (now : instant)
  : RejectReason * KeyedAdmissionLimiter :=
  let contended := kl_alwaysFair l0 || otherKeyRecentlySeen l0 key now in
  let l := observeKey l0 key now in
  let maxInFlight := if contended then kl_fairMaxInFlight l else kl_maxInFlight l in
  let rate := if contended then kl_fairRate l else kl_rate l in
  let burst := if contended then kl_fairBurst l else kl_burst l in
  let '(st, m) := key_state l key now in
  if maxInFlight <=? ks_inFlight st then (RejectedConcurrency, reject_one (set_states l m))
  else
    let '(now, tokens) := refill (ks_tokens st) (ks_last st) now rate burst in
    if f_lt tokens f_one
    then (RejectedRate,
          reject_one (set_states l (<[key := KeyedState (ks_inFlight st) tokens now]> m)))
    else (Accepted,
          set_states l (<[key := KeyedState (i64 (ks_inFlight st + 1)) (f_sub tokens f_one) now]> m)).

(** [None] is the panic. *)
Definition Release (l : KeyedAdmissionLimiter) (key : string) : option KeyedAdmissionLimiter :=
  match kl_states l !! key with
  | Some st =>
    if ks_inFlight st <=? 0 then None
    else Some (set_states l
      (<[key := KeyedState (i64 (ks_inFlight st - 1)) (ks_tokens st) (ks_last st)]> (kl_states l)))
  | None => None
  end.

Definition InFlight (l : KeyedAdmissionLimiter) (key : string) : Z :=
  match kl_states l !! key with Some st => ks_inFlight st | None => 0 end.

(** ** [KeyedTokenBuckets] *)

Record keyedBucketState := BucketState { bs_tokens : float64; bs_last : instant }.

Record KeyedTokenBuckets := MkBuckets {
  kb_rate : float64; kb_burst : float64; kb_states : gmap string keyedBucketState;
  kb_maxTrackedKeys : Z; kb_idleAfter : Z; kb_rejected : Z }.

Definition NewKeyedTokenBuckets (rate burst : Z) : KeyedTokenBuckets :=
  MkBuckets (f_of_int (if rate <? 1 then 1 else rate)) (f_of_int (if burst <? 1 then 1 else burst))
            ∅ 65536 Minute 0.

Definition bucket_sweep (m : gmap string keyedBucketState) (key : string) (cutoff : instant)
  : gmap string keyedBucketState :=
  filter (fun kv => ~ (kv.1 <> key /\ bs_last kv.2 < cutoff)) m.

Definition bucket_state (b : KeyedTokenBuckets) (key : string) (now : instant)
  : keyedBucketState * gmap string keyedBucketState :=
  match kb_states b !! key with
  | Some st => (st, kb_states b)
  | None =>
    let st := BucketState (kb_burst b) now in
    let m := <[key := st]> (kb_states b) in
    (st, if kb_maxTrackedKeys b <? Z.of_nat (size m)
         then bucket_sweep m key (now - kb_idleAfter b) else m)
  end.

Definition AllowKey (b : KeyedTokenBuckets) (key : string) (now : instant)
  : bool * KeyedTokenBuckets :=
  let '(st, m) := bucket_state b key now in
  let '(now, tokens) := refill (bs_tokens st) (bs_last st) now (kb_rate b) (kb_burst b) in
  let put t := <[key := BucketState t now]> m in
  if f_lt tokens f_one
  then (false, MkBuckets (kb_rate b) (kb_burst b) (put tokens) (kb_maxTrackedKeys b)
                         (kb_idleAfter b) (u64 (kb_rejected b + 1)))
  else (true, MkBuckets (kb_rate b) (kb_burst b) (put (f_sub tokens f_one)) (kb_maxTrackedKeys b)
                        (kb_idleAfter b) (kb_rejected b)).

(** ** Fair shares *)

Lemma fairness_share_bounds global :
  1 < global < 2 ^ 61 -> 1 <= FairnessShare global < global.
Proof.
  intros H. unfold FairnessShare. rewrite (proj2 (Z.leb_gt _ _)) by lia.
  rewrite i64_id by (unfold is_i64; lia).
  assert (Hq : Z.quot (global * 3) 4 = global * 3 / 4) by (apply Z.quot_div_nonneg; lia).
  rewrite Hq. pose proof (Z.div_mod (global * 3) 4 ltac:(lia)).
  pose proof (Z.mod_pos_bound (global * 3) 4 ltac:(lia)).
  rewrite (proj2 (Z.leb_gt _ _)) by lia. rewrite (proj2 (Z.ltb_ge _ _)) by lia. lia.
Qed.

Lemma fairness_share_le global : 0 < global < 2 ^ 61 -> 1 <= FairnessShare global <= global.
Proof.
  intros H. destruct (decide (global = 1)) as [->|]; [done |].
  pose proof (fairness_share_bounds global). lia.
Qed.

(** ** Slot accounting *)

Lemma observeKey_states l key now :
  kl_states (observeKey l key now) = kl_states l /\
  kl_maxInFlight (observeKey l key now) = kl_maxInFlight l /\
  kl_fairMaxInFlight (observeKey l key now) = kl_fairMaxInFlight l.
Proof. unfold observeKey. by case_match. Qed.

Lemma sweep_in_flight m key k :
  (ks_inFlight <$> sweep m key !! k) = (ks_inFlight <$> m !! k) \/
  (sweep m key !! k = None /\ exists st, m !! k = Some st /\ ks_inFlight st = 0 /\ k <> key).
Proof.
  unfold sweep. destruct (m !! k) as [st|] eqn:E.
  - destruct (decide (ks_inFlight st = 0 /\ k <> key)) as [[H1 H2]|Hn].
    + right. split; [| eauto]. apply map_lookup_filter_None. right. intros st' Hst' Hf.
      simplify_eq. by apply Hf.
    + left. rewrite (map_lookup_filter_Some_2 _ _ _ st); [done | done | exact Hn].
  - left. rewrite map_lookup_filter_None_2; [done | by left].
Qed.

(** In-flight counts as a client sees them. *)
Lemma InFlight_key_state l key now k :
  let '(st, m) := key_state l key now in
  ks_inFlight st = InFlight l key /\
  (default 0 (ks_inFlight <$> m !! k)) = InFlight l k /\ m !! key = Some st.
Proof.
  unfold key_state, InFlight. destruct (kl_states l !! key) as [st|] eqn:E.
  - split; [done |]. split; [by destruct (kl_states l !! k) | done].
  - simpl. set (st := KeyedState 0 (kl_burst l) now). set (m := <[key:=st]> (kl_states l)).
    assert (Hk : default 0 (ks_inFlight <$> m !! k) =
                 match kl_states l !! k with Some st => ks_inFlight st | None => 0 end).
    { unfold m. destruct (decide (key = k)) as [->|Hne].
      - by rewrite lookup_insert_eq, E.
      - rewrite lookup_insert_ne by done. by destruct (kl_states l !! k). }
    split; [done |]. destruct (_ <? _).
    + split.
      * rewrite <- Hk. destruct (sweep_in_flight m key k) as [->|(-> & st' & -> & H0 & _)]; [done |].
        simpl. by rewrite H0.
      * unfold sweep. apply map_lookup_filter_Some_2; [unfold m; apply lookup_insert_eq |].
        simpl. tauto.
    + split; [done |]. unfold m. apply lookup_insert_eq.
Qed.

Definition limiter_ok (l : KeyedAdmissionLimiter) : Prop :=
  0 < kl_maxInFlight l < 2 ^ 61 /\ 1 <= kl_fairMaxInFlight l <= kl_maxInFlight l /\
  map_Forall (fun _ st => 0 <= ks_inFlight st <= kl_maxInFlight l) (kl_states l).

Lemma InFlight_bounds l key : limiter_ok l -> 0 <= InFlight l key <= kl_maxInFlight l.
Proof.
  intros (Hm & _ & Hf). unfold InFlight. destruct (kl_states l !! key) eqn:E; [| lia].
  by apply (Hf key).
Qed.

(** The in-flight cap that applies to a request. *)
Definition share_for (l : KeyedAdmissionLimiter) (key : string) (now : instant) : Z :=
  if kl_alwaysFair l || otherKeyRecentlySeen l key now then kl_fairMaxInFlight l
  else kl_maxInFlight l.

Lemma TryAcquire_in_flight l key now r l' :
  limiter_ok l -> TryAcquire l key now = (r, l') ->
  (r = Accepted -> InFlight l key < share_for l key now) /\
  (r = RejectedConcurrency <-> share_for l key now <= InFlight l key) /\
  forall k, InFlight l' k = InFlight l k + (if decide (r = Accepted /\ k = key) then 1 else 0).
Proof.
  intros Hok H. unfold TryAcquire in H.
  destruct (observeKey_states l key now) as (Hs & Hm & Hf).
  assert (HIF : forall k, InFlight (observeKey l key now) k = InFlight l k)
    by (intros k; unfold InFlight; by rewrite Hs).
  pose proof (InFlight_key_state (observeKey l key now) key now) as HK.
  destruct (key_state (observeKey l key now) key now) as [st m].
  rewrite Hm, Hf in H. fold (share_for l key now) in H.
  pose proof (InFlight_bounds l key Hok) as Hb. pose proof Hok as (Hmax & _ & _).
  assert (Hst : ks_inFlight st = InFlight l key) by (rewrite <- HIF; apply (HK key)).
  assert (Hother : forall k, default 0 (ks_inFlight <$> m !! k) = InFlight l k)
    by (intros k; rewrite <- HIF; apply (HK k)).
  assert (Hlook : forall l2 k, kl_states l2 = m -> InFlight l2 k = InFlight l k).
  { intros l2 k E. rewrite <- Hother. unfold InFlight. rewrite E. by destruct (m !! k). }
  assert (Hput : forall l2 st' k, kl_states l2 = <[key:=st']> m ->
            InFlight l2 k = if decide (k = key) then ks_inFlight st' else InFlight l k).
  { intros l2 st' k E. unfold InFlight at 1. rewrite E. destruct (decide (k = key)) as [->|Hne].
    - by rewrite lookup_insert_eq.
    - rewrite lookup_insert_ne by done. rewrite <- Hother. by destruct (m !! k). }
  rewrite Hst in H.
  destruct (share_for l key now <=? InFlight l key) eqn:Ec; bool_facts.
  { injection H as <- <-. split; [done |]. split; [done |]. intros k.
    rewrite (Hlook _ k) by done. destruct (decide _) as [[? _]|_]; [done | lia]. }
  destruct (refill (ks_tokens st) (ks_last st) now _ _) as [now' tokens].
  destruct (f_lt tokens f_one); injection H as <- <-.
  - split; [done |]. split; [split; [done | lia] |]. intros k.
    erewrite Hput by reflexivity. simpl. repeat case_decide; try lia; naive_solver lia.
  - split; [done |]. split; [split; [done | lia] |]. intros k.
    erewrite Hput by reflexivity. simpl. rewrite i64_id by (unfold is_i64; lia).
    repeat case_decide; subst; try lia; naive_solver lia.
Qed.

Lemma key_state_keeps (P : keyedState -> Prop) l key now :
  map_Forall (fun _ => P) (kl_states l) -> P (KeyedState 0 (kl_burst l) now) ->
  map_Forall (fun _ => P) (key_state l key now).2 /\ P (key_state l key now).1.
Proof.
  intros Hall H0. unfold key_state. destruct (kl_states l !! key) as [st|] eqn:E; simpl.
  { split; [done | by apply (Hall key)]. }
  split; [| done].
  assert (Hins : map_Forall (fun _ => P) (<[key:=KeyedState 0 (kl_burst l) now]> (kl_states l)))
    by (by apply map_Forall_insert_2).
  destruct (_ <? _); [| done]. intros k st Hk. unfold sweep in Hk.
  apply map_lookup_filter_Some in Hk as [Hk _]. by apply (Hins k).
Qed.

Lemma limiter_acquire_ok l key now : limiter_ok l -> limiter_ok (TryAcquire l key now).2.
Proof.
  intros Hok. pose proof Hok as (Hm & Hf & Hall).
  destruct (observeKey_states l key now) as (Hs & Hsm & Hsf).
  assert (Hok' : limiter_ok (observeKey l key now))
    by (unfold limiter_ok; rewrite Hs, Hsm, Hsf; done).
  unfold TryAcquire. remember (observeKey l key now) as l1 eqn:El1. clear El1.
  pose proof (key_state_keeps (fun st => 0 <= ks_inFlight st <= kl_maxInFlight l1) l1 key now
                (proj2 (proj2 Hok')) ltac:(simpl; lia)) as [Hm1 Hst].
  destruct (key_state l1 key now) as [st m]. simpl in Hm1, Hst.
  assert (Hset : forall m', map_Forall (fun _ st => 0 <= ks_inFlight st <= kl_maxInFlight l1) m' ->
            limiter_ok (set_states l1 m')) by (intros m' Hm'; split; [| split]; simpl; [lia.. | done]).
  destruct (_ <=? ks_inFlight st) eqn:Ec; cbn [snd]; [by apply Hset |]. bool_facts.
  match goal with |- context [refill ?a ?b ?c ?d ?e] => destruct (refill a b c d e) as [now' tokens] end.
  destruct (f_lt tokens f_one); simpl; apply Hset;
    apply map_Forall_insert_2; simpl; try done.
  assert (ks_inFlight st < kl_maxInFlight l1) by (destruct (_ || _)%bool; lia).
  rewrite i64_id by (unfold is_i64; lia). lia.
Qed.

Lemma Release_spec l key :
  limiter_ok l ->
  match Release l key with
  | Some l' => 0 < InFlight l key /\ limiter_ok l' /\
               forall k, InFlight l' k = InFlight l k - (if decide (k = key) then 1 else 0)
  | None => InFlight l key = 0
  end.
Proof.
  intros Hok. pose proof Hok as (Hm & Hf & Hall). pose proof (InFlight_bounds l key Hok) as Hb.
  unfold Release, InFlight in *. destruct (kl_states l !! key) as [st|] eqn:E; [| done].
  destruct (ks_inFlight st <=? 0) eqn:E0; bool_facts; [lia |].
  assert (Hi : i64 (ks_inFlight st - 1) = ks_inFlight st - 1) by (apply i64_id; unfold is_i64; lia).
  split; [done |]. split.
  - split; [done |]. split; [done |]. simpl. apply map_Forall_insert_2; [simpl; lia | done].
  - intros k. simpl. destruct (decide (k = key)) as [->|Hne].
    + by rewrite lookup_insert_eq, E.
    + rewrite lookup_insert_ne by done. lia.
Qed.

(** ** Histories *)

(** A call on the limiter; [Done] returns a slot its caller holds. *)
Inductive admission_op := Acquire (key : string) (now : instant) | Done (key : string).

(** The limiter and the slots callers hold ([Accepted] minus released). *)
Definition admission_state : Type := KeyedAdmissionLimiter * (string -> Z).

Inductive admission_step : admission_state -> admission_state -> Prop :=
| adm_acquire l held key now r l' :
    TryAcquire l key now = (r, l') ->
    admission_step (l, held)
      (l', fun k => held k + if decide (r = Accepted /\ k = key) then 1 else 0)
| adm_release l held key l' :
    0 < held key -> Release l key = Some l' ->
    admission_step (l, held) (l', fun k => held k - if decide (k = key) then 1 else 0).

Definition admission_ok (s : admission_state) : Prop :=
  limiter_ok s.1 /\ forall k, InFlight s.1 k = s.2 k.

Lemma admission_step_ok s s' : admission_ok s -> admission_step s s' -> admission_ok s'.
Proof.
  intros [Hok Hheld] Hstep.
  destruct Hstep as [l held key now r l' Ht|l held key l' Hp Hr]; simpl in *.
  - split; simpl.
    + pose proof (limiter_acquire_ok l key now Hok) as H. by rewrite Ht in H.
    + intros k. destruct (TryAcquire_in_flight l key now r l' Hok Ht) as (_ & _ & Hk).
      rewrite Hk, Hheld. done.
  - pose proof (Release_spec l key Hok) as H. rewrite Hr in H. destruct H as (_ & Hl & Hk).
    split; [done |]. intros k. simpl. rewrite Hk, Hheld. done.
Qed.

Lemma new_limiter_ok m r b : 0 < m < 2 ^ 61 -> limiter_ok (NewKeyedAdmissionLimiter m r b).
Proof.
  intros H. split; [done |]. split; [by apply fairness_share_le | apply map_Forall_empty].
Qed.

(** Through any history of admissions, releases of held slots and sweeps
    of the key map, the limiter counts for every key exactly the slots its
    callers hold, never above the concurrency bound; so a caller that holds a
    slot can always return it (no underflow panic, its key is never swept). *)
Theorem admission_accounting m r b s key :
  0 < m < 2 ^ 61 ->
  steps admission_step (NewKeyedAdmissionLimiter m r b, fun _ => 0) s ->
  InFlight s.1 key = s.2 key /\ 0 <= s.2 key <= m /\
  (0 < s.2 key -> exists l', Release s.1 key = Some l').
Proof.
  intros Hm Hr.
  assert (Hmax : kl_maxInFlight s.1 = m).
  { revert Hr. apply (steps_invariant admission_step (fun s => kl_maxInFlight s.1 = m)); [done |].
    intros a c Ha Hac. destruct Hac as [l held k now r' l' Ht|l held k l' Hp Hrel]; simpl in *.
    - unfold TryAcquire in Ht. destruct (observeKey_states l k now) as (_ & E & _).
      destruct (key_state _ k now) as [st mm]. case_match; [simplify_eq; simpl; congruence |].
      match type of Ht with context [refill ?a ?b ?c ?d ?e] => destruct (refill a b c d e) end.
      case_match; simplify_eq; simpl; congruence.
    - unfold Release in Hrel. repeat (case_match; try done). by simplify_eq. }
  assert (Hok : admission_ok s).
  { revert Hr. apply (steps_invariant admission_step admission_ok); [| apply admission_step_ok].
    split; [by apply new_limiter_ok | done]. }
  destruct Hok as [Hok Hheld]. pose proof (InFlight_bounds s.1 key Hok). rewrite Hheld in *.
  split; [done |]. split; [lia |]. intros Hp.
  pose proof (Release_spec s.1 key Hok) as H'. destruct (Release s.1 key); [eauto |].
  rewrite Hheld in H'. lia.
Qed.

Lemma admission_accounting_witness :
  exists s, steps admission_step (NewKeyedAdmissionLimiter 4 2 2, fun _ => 0) s /\
            s.2 "dev-1" = 1 /\ exists l', Release s.1 "dev-1" = Some l'.
Proof.
  set (l := NewKeyedAdmissionLimiter 4 2 2).
  set (s := ((TryAcquire l "dev-1" 0).2,
             fun k => (fun _ => 0) k + if decide (Accepted = Accepted /\ k = "dev-1") then 1 else 0)
            : admission_state).
  assert (Hr : steps admission_step (l, fun _ => 0) s).
  { eapply steps_snoc; [apply steps_refl |].
    apply (adm_acquire l (fun _ => 0) "dev-1" 0 Accepted). vm_compute. reflexivity. }
  exists s. split; [exact Hr |]. split; [reflexivity |].
  apply (admission_accounting 4 2 2 s "dev-1"); [lia | exact Hr | reflexivity].
Defined.

(** A key's request is refused for concurrency exactly when the key
    already holds its share - the full bound, or the reduced fair share when
    the limiter is always fair or another key was seen within the contention
    window - and an accepted request is strictly below that share. *)
Theorem admission_share l key now :
  limiter_ok l ->
  ((TryAcquire l key now).1 = RejectedConcurrency <-> share_for l key now <= InFlight l key) /\
  ((TryAcquire l key now).1 = Accepted -> InFlight l key < share_for l key now) /\
  1 <= share_for l key now <= kl_maxInFlight l.
Proof.
  intros Hok. destruct (TryAcquire l key now) as [r l'] eqn:E.
  destruct (TryAcquire_in_flight l key now r l' Hok E) as (Ha & Hc & _). simpl.
  split; [done |]. split; [done |]. destruct Hok as (Hm & Hf & _).
  unfold share_for. destruct (_ || _)%bool; lia.
Qed.

Lemma admission_share_witness :
  let l := NewHardKeyedAdmissionLimiter 4 2 2 in
  1 <= share_for l "dev-1" 0 <= kl_maxInFlight l /\ share_for l "dev-1" 0 = 3.
Proof.
  intros l. split; [| vm_compute; reflexivity].
  apply (admission_share l "dev-1" 0). unfold l, limiter_ok. simpl.
  split; [lia |]. split; [vm_compute; split; discriminate | apply map_Forall_empty].
Defined.
