(* ===== verification/GwStream.v ===== *)
(** * GwStream: the stream queue of [internal/gateway/session.go]

    One tunnelled stream on the Gateway side: data frames of the Agent are
    queued under three byte budgets, a reader (the ingress handler) takes them
    out, a terminal frame ends the queue.  [enqueue] and [finish] hold the
    stream's mutex, the reader receives from the channel without it; so [finish]
    is modelled as the steps of its drain loop, and the step relation interleaves
    it with the reader, with other streams' use of the shared budgets and with
    the final discard. *)

From S2P Require Import Prelude Budget.
Import Budget.Gateway.

Definition minTunnelFrame : Z := 4096.

Definition errResourceBudget : error := ErrBudgetExhausted.

(** A queued payload is its bytes; its [size] is their number. *)
Record stream := MkStream {
  st_id : Z;
  st_datagram : bool;
  st_slots : Z;                       (* cap(incoming) *)
  st_incoming : list bytes;
  st_buffer : bytes;
  st_closed : bool;
  st_terminalBuffer : bytes;
  st_terminalPackets : list bytes;
  st_terminalBytes : Z;
  st_terminalErr : option error;
  st_terminalReady : bool;
  st_streamBudget : ByteBudget;
  st_sessionBudget : ByteBudget;
  st_globalBudget : ByteBudget;
  st_rejects : Z;
  st_panicked : bool;                 (* a budget was released below zero *)
}.

Definition newStream (id : Z) (datagram : bool) (queueFrames queueBytes : Z)
    (sessionBudget globalBudget : ByteBudget) : stream :=
  let slots := Z.quot queueBytes minTunnelFrame in
  let queueFrames := if queueFrames <? slots then slots else queueFrames in
  MkStream id datagram queueFrames [] [] false [] [] 0 None false
    (NewByteBudget queueBytes) sessionBudget globalBudget 0 false.

Definition set_budgets (s : stream) (b1 b2 b3 : ByteBudget) (rejects : Z) (panicked : bool) : stream :=
  MkStream (st_id s) (st_datagram s) (st_slots s) (st_incoming s) (st_buffer s) (st_closed s)
    (st_terminalBuffer s) (st_terminalPackets s) (st_terminalBytes s) (st_terminalErr s)
    (st_terminalReady s) b1 b2 b3 rejects panicked.

Definition set_incoming (s : stream) (q : list bytes) : stream :=
  MkStream (st_id s) (st_datagram s) (st_slots s) q (st_buffer s) (st_closed s)
    (st_terminalBuffer s) (st_terminalPackets s) (st_terminalBytes s) (st_terminalErr s)
    (st_terminalReady s) (st_streamBudget s) (st_sessionBudget s) (st_globalBudget s)
    (st_rejects s) (st_panicked s).

Definition set_buffer (s : stream) (b : bytes) : stream :=
  MkStream (st_id s) (st_datagram s) (st_slots s) (st_incoming s) b (st_closed s)
    (st_terminalBuffer s) (st_terminalPackets s) (st_terminalBytes s) (st_terminalErr s)
    (st_terminalReady s) (st_streamBudget s) (st_sessionBudget s) (st_globalBudget s)
    (st_rejects s) (st_panicked s).

Definition set_terminal (s : stream) (tail : bytes) (packets : list bytes) (size : Z) : stream :=
  MkStream (st_id s) (st_datagram s) (st_slots s) (st_incoming s) (st_buffer s) (st_closed s)
    tail packets size (st_terminalErr s)
    (st_terminalReady s) (st_streamBudget s) (st_sessionBudget s) (st_globalBudget s)
    (st_rejects s) (st_panicked s).

Definition set_state (s : stream) (closed ready : bool) (err : option error) : stream :=
  MkStream (st_id s) (st_datagram s) (st_slots s) (st_incoming s) (st_buffer s) closed
    (st_terminalBuffer s) (st_terminalPackets s) (st_terminalBytes s) err
    ready (st_streamBudget s) (st_sessionBudget s) (st_globalBudget s)
    (st_rejects s) (st_panicked s).

(** One budget's [Release]: the budget, and whether it panicked. *)
Definition release (b : ByteBudget) (size : Z) : ByteBudget * bool :=
  match Release b size with
  | Released b' => (b', false)
  | Panicked b' => (b', true)
  end.

(** Global, session, stream. *)
Definition releaseQueued (s : stream) (size : Z) : stream :=
  let '(g, p1) := release (st_globalBudget s) size in
  let '(se, p2) := release (st_sessionBudget s) size in
  let '(st, p3) := release (st_streamBudget s) size in
  set_budgets s st se g (st_rejects s) (st_panicked s || p1 || p2 || p3).

Definition count_reject (s : stream) : stream :=
  set_budgets s (st_streamBudget s) (st_sessionBudget s) (st_globalBudget s)
    (u64 (st_rejects s + 1)) (st_panicked s).

(** The three acquisitions of [enqueue], undone in reverse on a failure. *)
Definition acquire_all (s : stream) (size : Z) : bool * stream :=
  let '(ok1, b1) := TryAcquire (st_streamBudget s) size in
  if negb ok1 then
    (false, count_reject (set_budgets s b1 (st_sessionBudget s) (st_globalBudget s) (st_rejects s) (st_panicked s)))
  else
    let '(ok2, b2) := TryAcquire (st_sessionBudget s) size in
    if negb ok2 then
      let '(b1', p1) := release b1 size in
      (false, count_reject (set_budgets s b1' b2 (st_globalBudget s) (st_rejects s) (st_panicked s || p1)))
    else
      let '(ok3, b3) := TryAcquire (st_globalBudget s) size in
      if negb ok3 then
        let '(b2', p2) := release b2 size in
        let '(b1', p1) := release b1 size in
        (false, count_reject (set_budgets s b1' b2' b3 (st_rejects s) (st_panicked s || p2 || p1)))
      else (true, set_budgets s b1 b2 b3 (st_rejects s) (st_panicked s)).

Definition enqueue (s : stream) (data : bytes) : result unit * stream :=
  let size := zlen data in
  if st_closed s then (Err (ErrMsg "stream closed"), s)
  else
    match acquire_all s size with
    | (false, s') => (Err errResourceBudget, s')
    | (true, s') =>
      if Z.of_nat (length (st_incoming s')) <? st_slots s'
      then (Ok tt, set_incoming s' (st_incoming s' ++ [data]))
      else (Err (ErrMsg "frame queue full"), count_reject (releaseQueued s' size))
    end.

(** ** The reader: the actions of [Read] and [ReadDatagram] *)

(** A chunk received from the channel, and the credit it returns. *)
Definition take_chunk (s : stream) : option (stream * Z) :=
  match st_incoming s with
  | [] => None
  | chunk :: q =>
    Some (set_buffer (releaseQueued (set_incoming s q) (zlen chunk)) chunk, zlen chunk)
  end.

(** The retained tail, taken whole. *)
Definition take_tail (s : stream) : option (stream * Z) :=
  if st_terminalReady s && negb (zlen (st_terminalBuffer s) =? 0) then
    let size := st_terminalBytes s in
    let s' := set_terminal s [] (st_terminalPackets s) 0 in
    Some (set_buffer (releaseQueued s' size) (st_terminalBuffer s), size)
  else None.

(** What a reader with nothing left to take is told. *)
Definition read_end (s : stream) : option error :=
  if st_terminalReady s then
    Some (match st_terminalErr s with None => ErrSentinel "EOF" | Some e => e end)
  else None.

(** [copy(data, buffer)] with [n] bytes of room. *)
Definition copy_out (s : stream) (n : nat) : bytes * stream :=
  (firstn n (st_buffer s), set_buffer s (skipn n (st_buffer s))).

Definition take_packet (s : stream) : option (stream * bytes) :=
  match st_incoming s with
  | [] => None
  | packet :: q => Some (releaseQueued (set_incoming s q) (zlen packet), packet)
  end.

Definition take_terminal_packet (s : stream) : option (stream * bytes) :=
  if st_terminalReady s then
    match st_terminalPackets s with
    | [] => None
    | packet :: r =>
      let s' := set_terminal s (st_terminalBuffer s) r (i64 (st_terminalBytes s - zlen packet)) in
      Some (releaseQueued s' (zlen packet), packet)
    end
  else None.

(** ** [finish]: the three parts of its critical section *)

Definition finish_begin (s : stream) : stream := set_state s true (st_terminalReady s) (st_terminalErr s).

(** One chunk of the drain loop; [tail] is the loop's local. *)
Definition finish_take (s : stream) (tail : bytes) : option (stream * bytes) :=
  match st_incoming s with
  | [] => None
  | chunk :: q =>
    let s' := set_incoming s q in
    if st_datagram s
    then Some (set_terminal s' (st_terminalBuffer s') (st_terminalPackets s' ++ [chunk])
                 (i64 (st_terminalBytes s' + zlen chunk)), tail)
    else Some (s', tail ++ chunk)
  end.

Definition finish_end (s : stream) (tail : bytes) (err : option error) : stream :=
  let size := if st_datagram s then st_terminalBytes s else zlen tail in
  set_state (set_terminal s tail (st_terminalPackets s) size) true true err.

(** The whole of [finish] when nobody else touches the channel. *)
Fixpoint finish_drain (n : nat) (s : stream) (tail : bytes) : stream * bytes :=
  match n with
  | O => (s, tail)
  | S m => match finish_take s tail with
           | Some (s', tail') => finish_drain m s' tail'
           | None => (s, tail)
           end
  end.

Definition finish (s : stream) (err : option error) : stream :=
  if st_closed s then s   (* finishOnce *)
  else
    let '(s', tail) := finish_drain (length (st_incoming s)) (finish_begin s) [] in
    finish_end s' tail err.

Definition halfClose (s : stream) : stream := finish s None.

Fixpoint release_chunks (n : nat) (s : stream) : stream :=
  match n with
  | O => s
  | S m => match st_incoming s with
           | [] => s
           | chunk :: q => release_chunks m (releaseQueued (set_incoming s q) (zlen chunk))
           end
  end.

Definition releaseQueuedChunks (s : stream) : stream := release_chunks (length (st_incoming s)) s.

Definition discardRetained (s0 : stream) : stream :=
  let s := releaseQueuedChunks s0 in
  let size := st_terminalBytes s in
  let s' := set_terminal s [] [] 0 in
  if 0 <? size then releaseQueued s' size else s'.

(** ** Budgets *)

(** All three cover [held] bytes; the stream's covers exactly that. *)
Definition covers (s : stream) (held : Z) : Prop :=
  budget_ok (st_streamBudget s) /\ budget_ok (st_sessionBudget s) /\ budget_ok (st_globalBudget s) /\
  b_used (st_streamBudget s) = held /\ held <= b_used (st_sessionBudget s) /\
  held <= b_used (st_globalBudget s) /\ st_panicked s = false.

(** Everything but the budgets and the reject counter is the same. *)
Definition same_queue (s s' : stream) : Prop :=
  st_id s' = st_id s /\ st_datagram s' = st_datagram s /\ st_slots s' = st_slots s /\
  st_incoming s' = st_incoming s /\ st_buffer s' = st_buffer s /\ st_closed s' = st_closed s /\
  st_terminalBuffer s' = st_terminalBuffer s /\ st_terminalPackets s' = st_terminalPackets s /\
  st_terminalBytes s' = st_terminalBytes s /\ st_terminalErr s' = st_terminalErr s /\
  st_terminalReady s' = st_terminalReady s /\
  b_limit (st_streamBudget s') = b_limit (st_streamBudget s).

Lemma release_held b size : budget_ok b -> 0 <= size <= b_used b ->
  exists b', release b size = (b', false) /\ budget_ok b' /\ b_limit b' = b_limit b /\
             b_used b' = b_used b - size.
Proof.
  intros Hb Hs. destruct (Release_held b size Hb Hs) as (b' & Hr & ?). exists b'.
  unfold release. by rewrite Hr.
Qed.

(** Every budget moved by [d]. *)
Definition moved (b b' : ByteBudget) (d : Z) : Prop :=
  budget_ok b' /\ b_limit b' = b_limit b /\ b_used b' = b_used b + d.

Definition shifts (s s' : stream) (d : Z) : Prop :=
  moved (st_streamBudget s) (st_streamBudget s') d /\
  moved (st_sessionBudget s) (st_sessionBudget s') d /\
  moved (st_globalBudget s) (st_globalBudget s') d /\ st_panicked s' = st_panicked s.

Lemma shifts_covers s s' held d :
  covers s held -> shifts s s' d -> covers s' (held + d).
Proof. unfold covers, shifts, moved. intros. destruct_and!. split_and!; done || lia || congruence. Qed.

Lemma releaseQueued_shifts s held size :
  covers s held -> 0 <= size <= held ->
  shifts s (releaseQueued s size) (- size) /\ same_queue s (releaseQueued s size).
Proof.
  intros (H1 & H2 & H3 & Hu & Hs & Hg & Hp) Hsz. unfold releaseQueued.
  destruct (release_held (st_globalBudget s) size H3 ltac:(lia)) as (g & -> & ? & ? & ?).
  destruct (release_held (st_sessionBudget s) size H2 ltac:(lia)) as (se & -> & ? & ? & ?).
  destruct (release_held (st_streamBudget s) size H1 ltac:(lia)) as (st & -> & ? & ? & ?).
  unfold shifts, moved, same_queue. simpl. rewrite Hp. split_and!; done || lia.
Qed.

Lemma releaseQueued_ok s held size :
  covers s held -> 0 <= size <= held ->
  covers (releaseQueued s size) (held - size) /\ same_queue s (releaseQueued s size).
Proof.
  intros Hc Hs. destruct (releaseQueued_shifts s held size Hc Hs) as [Hd Hq].
  split; [by apply (shifts_covers s) | done].
Qed.

Lemma shifts_refl s held : covers s held -> shifts s s 0.
Proof. unfold covers, shifts, moved. intros. destruct_and!. split_and!; done || lia. Qed.

Lemma shifts_trans s s1 s2 d1 d2 : shifts s s1 d1 -> shifts s1 s2 d2 -> shifts s s2 (d1 + d2).
Proof. unfold shifts, moved. intros. destruct_and!. split_and!; done || lia || congruence. Qed.

Lemma same_queue_trans s s1 s2 : same_queue s s1 -> same_queue s1 s2 -> same_queue s s2.
Proof. unfold same_queue. intros. destruct_and!. split_and!; congruence. Qed.

Lemma reject_moved b b' : budget_ok b' -> b' = reject b -> moved b b' 0.
Proof. unfold moved. intros ? ->. split_and!; [done | done |]. simpl. lia. Qed.

Lemma moved_same b : budget_ok b -> moved b b 0.
Proof. unfold moved. intros. split_and!; [done | done | lia]. Qed.

Lemma acquire_all_shifts s held size :
  covers s held -> 0 <= held ->
  let '(ok, s') := acquire_all s size in
  same_queue s s' /\ shifts s s' (if ok then size else 0) /\ (ok = true -> 0 <= size).
Proof.
  intros (H1 & H2 & H3 & Hu & Hs & Hg & Hp) Hh. unfold acquire_all.
  pose proof (TryAcquire_spec (st_streamBudget s) size H1) as T1.
  destruct (TryAcquire (st_streamBudget s) size) as [[] b1]; destruct T1 as (O1 & L1 & U1); simpl.
  2: { unfold shifts, same_queue. simpl. split_and!; try done; by auto using reject_moved, moved_same. }
  destruct U1 as [Hsz U1].
  pose proof (TryAcquire_spec (st_sessionBudget s) size H2) as T2.
  destruct (TryAcquire (st_sessionBudget s) size) as [[] b2]; destruct T2 as (O2 & L2 & U2); simpl.
  2: { destruct (release_held b1 size O1 ltac:(lia)) as (b1' & -> & ? & ? & ?).
       unfold shifts, same_queue. simpl. rewrite Hp.
       split_and!; try done; auto using reject_moved, moved_same; [lia | split_and!; done || lia]. }
  destruct U2 as [_ U2].
  pose proof (TryAcquire_spec (st_globalBudget s) size H3) as T3.
  destruct (TryAcquire (st_globalBudget s) size) as [[] b3]; destruct T3 as (O3 & L3 & U3); simpl.
  2: { destruct (release_held b2 size O2 ltac:(lia)) as (b2' & -> & ? & ? & ?).
       destruct (release_held b1 size O1 ltac:(lia)) as (b1' & -> & ? & ? & ?).
       unfold shifts, same_queue. simpl. rewrite Hp.
       split_and!; try done; auto using reject_moved, moved_same; try lia; split_and!; done || lia. }
  destruct U3 as [_ U3]. unfold shifts, moved, same_queue. simpl. split_and!; done || lia.
Qed.

(** ** The interleavings *)

Record sys := MkSys {
  y_stream : stream;
  y_finishing : option (option error * bytes);   (* inside [finish]: its error, its [tail] *)
  y_accepted : list bytes;                       (* payloads [enqueue] took *)
  y_delivered : bytes;                           (* what the reader handed on *)
  y_discarded : bytes;
  y_credit : Z;                                  (* credit returned to the Agent *)
  y_readerDone : bool;
}.

Definition set_stream (y : sys) (s : stream) : sys :=
  MkSys s (y_finishing y) (y_accepted y) (y_delivered y) (y_discarded y) (y_credit y) (y_readerDone y).
Definition set_finishing (y : sys) (s : stream) (f : option (option error * bytes)) : sys :=
  MkSys s f (y_accepted y) (y_delivered y) (y_discarded y) (y_credit y) (y_readerDone y).

Definition held_tail (f : option (option error * bytes)) : bytes :=
  match f with Some (_, t) => t | None => [] end.

(** Bytes still held for the reader, in delivery order. *)
Definition retained_of (s : stream) (f : option (option error * bytes)) : bytes :=
  st_terminalBuffer s ++ concat (st_terminalPackets s) ++ held_tail f ++ concat (st_incoming s).

Definition retained (y : sys) : bytes := retained_of (y_stream y) (y_finishing y).

Definition held (y : sys) : Z := zlen (retained y).

Section Steps.
(** [true] leaves out the receives of the reader that fall inside [finish]. *)
Context (atomic_finish : bool).

Definition may_receive (y : sys) : Prop :=
  y_readerDone y = false /\ (atomic_finish = true -> y_finishing y = None).

(** The steps of the stream's own goroutines. *)
Inductive local_step : sys -> sys -> Prop :=
| s_enqueue y data r s' : y_finishing y = None -> enqueue (y_stream y) data = (r, s') ->
    local_step y (MkSys s' None (if is_ok r then y_accepted y ++ [data] else y_accepted y)
                     (y_delivered y) (y_discarded y) (y_credit y) (y_readerDone y))
| s_finish y err : y_finishing y = None -> st_closed (y_stream y) = false ->
    local_step y (set_finishing y (finish_begin (y_stream y)) (Some (err, [])))
| s_drain y err tail s' tail' : y_finishing y = Some (err, tail) ->
    finish_take (y_stream y) tail = Some (s', tail') ->
    local_step y (set_finishing y s' (Some (err, tail')))
| s_finished y err tail : y_finishing y = Some (err, tail) -> st_incoming (y_stream y) = [] ->
    local_step y (set_finishing y (finish_end (y_stream y) tail err) None)
| s_take y s' n : may_receive y -> st_datagram (y_stream y) = false -> st_buffer (y_stream y) = [] ->
    take_chunk (y_stream y) = Some (s', n) ->
    local_step y (MkSys s' (y_finishing y) (y_accepted y) (y_delivered y) (y_discarded y)
                     (y_credit y + n) false)
| s_tail y s' n : may_receive y -> st_datagram (y_stream y) = false -> st_buffer (y_stream y) = [] ->
    y_finishing y = None -> take_tail (y_stream y) = Some (s', n) ->
    local_step y (MkSys s' None (y_accepted y) (y_delivered y) (y_discarded y) (y_credit y + n) false)
| s_copy y k : y_readerDone y = false ->
    local_step y (MkSys (copy_out (y_stream y) k).2 (y_finishing y) (y_accepted y)
                     (y_delivered y ++ (copy_out (y_stream y) k).1) (y_discarded y) (y_credit y) false)
| s_packet y s' p : may_receive y -> st_datagram (y_stream y) = true ->
    take_packet (y_stream y) = Some (s', p) ->
    local_step y (MkSys s' (y_finishing y) (y_accepted y) (y_delivered y ++ p) (y_discarded y)
                     (y_credit y) false)
| s_terminal_packet y s' p : may_receive y -> st_datagram (y_stream y) = true -> y_finishing y = None ->
    take_terminal_packet (y_stream y) = Some (s', p) ->
    local_step y (MkSys s' None (y_accepted y) (y_delivered y ++ p) (y_discarded y) (y_credit y) false)
| s_reader_done y : local_step y (MkSys (y_stream y) (y_finishing y) (y_accepted y) (y_delivered y)
                                     (y_discarded y) (y_credit y) true)
| s_discard_chunk y s' p : y_readerDone y = true -> take_packet (y_stream y) = Some (s', p) ->
    local_step y (MkSys s' (y_finishing y) (y_accepted y) (y_delivered y) (y_discarded y ++ p)
                     (y_credit y) true)
| s_discard_tail y : y_readerDone y = true -> y_finishing y = None -> st_incoming (y_stream y) = [] ->
    local_step y (MkSys (discardRetained (y_stream y)) None (y_accepted y) (y_delivered y)
                     (y_discarded y ++ retained y) (y_credit y) true).

(** The shared budgets also move with other streams. *)
Inductive stream_step : sys -> sys -> Prop :=
| s_local y y' : local_step y y' -> stream_step y y'
| s_others y b2 b3 : budget_ok b2 -> budget_ok b3 -> zlen (retained y) <= b_used b2 -> zlen (retained y) <= b_used b3 ->
    let s := y_stream y in
    stream_step y (set_stream y (set_budgets s (st_streamBudget s) b2 b3 (st_rejects s) (st_panicked s))).

Definition sys_new (id : Z) (datagram : bool) (frames size : Z) (b2 b3 : ByteBudget) : sys :=
  MkSys (newStream id datagram frames size b2 b3) None [] [] [] 0 false.
End Steps.

(** The queue's shape. *)
Record shape_ok (s : stream) (f : option (option error * bytes)) : Prop := Shape {
  sh_closed : st_closed s = true <-> f <> None \/ st_terminalReady s = true;
  sh_ready : st_terminalReady s = true -> f = None /\ st_incoming s = [];
  sh_not_ready : st_terminalReady s = false -> st_terminalBuffer s = [];
  sh_not_finishing : f = None -> st_terminalReady s = false ->
                     st_terminalPackets s = [] /\ st_terminalBytes s = 0;
  sh_datagram : st_datagram s = true ->
                st_terminalBuffer s = [] /\ held_tail f = [] /\ st_buffer s = [] /\
                st_terminalBytes s = zlen (concat (st_terminalPackets s));
  sh_bytes : st_datagram s = false ->
             st_terminalPackets s = [] /\ st_terminalBytes s = zlen (st_terminalBuffer s);
  sh_slots : Z.of_nat (length (st_incoming s)) <= Z.max 0 (st_slots s);
}.

Definition sys_ok (y : sys) : Prop :=
  shape_ok (y_stream y) (y_finishing y) /\ covers (y_stream y) (held y).

Lemma same_queue_retained s s' f : same_queue s s' -> retained_of s' f = retained_of s f.
Proof. unfold same_queue, retained_of. intros. by destruct_and!; congruence. Qed.

Lemma same_queue_shape s s' f : same_queue s s' -> shape_ok s f -> shape_ok s' f.
Proof.
  unfold same_queue. intros ? []. destruct_and!.
  split; repeat match goal with H : _ s' = _ s |- _ => rewrite H end; done.
Qed.

Lemma enqueue_ok s held data :
  covers s held -> 0 <= held ->
  let '(r, s') := enqueue s data in
  if is_ok r
  then st_closed s = false /\ Z.of_nat (length (st_incoming s)) < st_slots s /\
       same_queue (set_incoming s (st_incoming s ++ [data])) s' /\ shifts s s' (zlen data)
  else same_queue s s' /\ shifts s s' 0.
Proof.
  intros Hc Hh. unfold enqueue. destruct (st_closed s) eqn:Ecl.
  { split; [by split_and! | by eapply shifts_refl]. }
  pose proof (acquire_all_shifts s held (zlen data) Hc Hh) as A.
  destruct (acquire_all s (zlen data)) as [[] s']; destruct A as (Q & D & P); [| by simpl].
  specialize (P eq_refl). pose proof (shifts_covers _ _ _ _ Hc D) as C.
  destruct (Z.ltb_spec (Z.of_nat (length (st_incoming s'))) (st_slots s')); simpl.
  - unfold same_queue in Q. destruct_and! Q. split_and!; try congruence; [| done].
    unfold same_queue. simpl. split_and!; congruence.
  - destruct (releaseQueued_shifts s' (held + zlen data) (zlen data) C ltac:(lia)) as [D' Q'].
    split; [by eapply same_queue_trans |]. pose proof (shifts_trans _ _ _ _ _ D D') as D2.
    by rewrite Z.add_opp_diag_r in D2.
Qed.

(** [enqueue] as a whole: what it adds, and by how much the budgets move. *)
Definition same_shell (s s' : stream) : Prop :=
  st_datagram s' = st_datagram s /\ st_slots s' = st_slots s /\ st_buffer s' = st_buffer s /\
  b_limit (st_streamBudget s') = b_limit (st_streamBudget s).

Lemma enqueue_stream s data :
  shape_ok s None -> covers s (zlen (retained_of s None)) ->
  let '(r, s') := enqueue s data in
  let taken := if is_ok r then data else [] in
  shape_ok s' None /\ retained_of s' None = retained_of s None ++ taken /\
  shifts s s' (zlen taken) /\ same_shell s s'.
Proof.
  intros Hs Hc. pose proof (enqueue_ok s _ data Hc (zlen_nonneg _)) as E.
  destruct (enqueue s data) as [r s']. destruct (is_ok r); simpl.
  - destruct E as (Hcl & Hlen & Q & C). split_and!; try done.
    + eapply same_queue_shape; [done |]. destruct Hs. split; simpl; try done.
      * intros Hr. exfalso. assert (st_closed s = true) by (apply sh_closed0; by right). congruence.
      * rewrite length_app. simpl. lia.
    + rewrite (same_queue_retained _ _ None Q). unfold retained_of. simpl.
      rewrite concat_app. simpl. by rewrite app_nil_r, <- !(assoc (++)).
    + unfold same_queue in Q. simpl in Q. by destruct_and! Q.
  - destruct E as (Q & C). split_and!; try done.
    + by eapply same_queue_shape.
    + by rewrite (same_queue_retained _ _ None Q), app_nil_r.
    + unfold same_queue in Q. by destruct_and! Q.
Qed.

Lemma zlen_perm (xs ys : bytes) : xs ≡ₚ ys -> zlen xs = zlen ys.
Proof. intros H. unfold zlen. by rewrite (Permutation_length H). Qed.

(** ** The abstract queue

    What a stream is, budgets, channel and locks left out: bytes go in at one
    end, come out at the other, and stay in between. *)

Record absq := MkAbs {
  a_accepted : list bytes;
  a_delivered : bytes;
  a_buffer : bytes;
  a_pending : bytes;
  a_discarded : bytes;
  a_credit : Z;
  a_done : bool;
}.

Definition abs_of (y : sys) : absq :=
  MkAbs (y_accepted y) (y_delivered y) (st_buffer (y_stream y)) (retained y) (y_discarded y)
    (y_credit y) (y_readerDone y).

Section Abstract.
Context (fifo datagram : bool).

(** [p] leaves [pending]: from its front in a fifo queue. *)
Definition leaves (pending p rest : bytes) : Prop :=
  pending ≡ₚ p ++ rest /\ (fifo = true -> pending = p ++ rest).

Inductive abs_step : absq -> absq -> Prop :=
| a_internal a : abs_step a a
| a_put acc d b p x c dn data :
    abs_step (MkAbs acc d b p x c dn) (MkAbs (acc ++ [data]) d b (p ++ data) x c dn)
| a_receive acc d pend x c p rest : datagram = false -> leaves pend p rest ->
    abs_step (MkAbs acc d [] pend x c false) (MkAbs acc d p rest x (c + zlen p) false)
| a_packet acc d pend x c p rest : datagram = true -> leaves pend p rest ->
    abs_step (MkAbs acc d [] pend x c false) (MkAbs acc (d ++ p) [] rest x c false)
| a_copy acc d out b p x c :
    abs_step (MkAbs acc d (out ++ b) p x c false) (MkAbs acc (d ++ out) b p x c false)
| a_stop acc d b p x c dn : abs_step (MkAbs acc d b p x c dn) (MkAbs acc d b p x c true)
| a_discard acc d b pend x c p rest : pend ≡ₚ p ++ rest ->
    abs_step (MkAbs acc d b pend x c true) (MkAbs acc d b rest (x ++ p) c true).

(** Nothing is lost, and what was consumed was credited. *)
Definition ledger (a : absq) : Prop :=
  concat (a_accepted a) ≡ₚ a_delivered a ++ a_buffer a ++ a_pending a ++ a_discarded a /\
  (datagram = false ->
   a_credit a = zlen (a_delivered a) + zlen (a_buffer a)).

(** A fifo queue keeps the order. *)
Definition in_order (a : absq) : Prop :=
  exists rest, concat (a_accepted a) = a_delivered a ++ rest /\
               (a_done a = false -> rest = a_buffer a ++ a_pending a).

Lemma abs_step_ledger a a' : ledger a -> abs_step a a' -> ledger a'.
Proof.
  unfold ledger. intros [Hp Hc] H.
  destruct H; cbn [a_accepted a_delivered a_buffer a_pending a_discarded a_credit a_done] in *;
    try (destruct H0 as [H0 _]); split; try done.
  - rewrite concat_app, Hp. simpl. rewrite app_nil_r. by solve_Permutation.
  - rewrite Hp, H0. simpl. by rewrite !(assoc (++)).
  - intros Hd. specialize (Hc Hd). rewrite zlen_nil in *. lia.
  - rewrite Hp, H0. simpl. by rewrite !(assoc (++)).
  - intros Hd. congruence.
  - rewrite Hp. by rewrite <- !(assoc (++)).
  - intros Hd. rewrite Hc by done. rewrite !zlen_app. lia.
  - rewrite Hp, H. solve_Permutation.
Qed.

Lemma abs_step_in_order a a' : fifo = true -> in_order a -> abs_step a a' -> in_order a'.
Proof.
  unfold in_order. intros Hf (rest & Hr & Hb) H.
  destruct H; cbn [a_accepted a_delivered a_buffer a_pending a_discarded a_credit a_done] in *;
    try (destruct H0 as [_ H0]; specialize (H0 Hf); subst pend).
  - eauto.
  - exists (rest ++ data). rewrite concat_app, Hr. simpl. rewrite app_nil_r, <- (assoc (++)).
    split; [done |]. intros E. rewrite (Hb E). by rewrite <- !(assoc (++)).
  - exists rest. split; [done | by intros; rewrite Hb].
  - exists rest0. rewrite Hr, (Hb eq_refl). split; [| done]. simpl. by rewrite <- !(assoc (++)).
  - exists (b ++ p). rewrite Hr, (Hb eq_refl). split; [| done]. by rewrite <- !(assoc (++)).
  - by exists rest.
  - by exists rest.
Qed.
End Abstract.

(** ** The stream refines the abstract queue *)

(** A receive from the channel. *)
Lemma channel_leaves atomic_finish s f p q :
  shape_ok s f -> st_incoming s = p :: q -> (atomic_finish = true -> f = None) ->
  shape_ok (set_incoming s q) f /\
  leaves atomic_finish (retained_of s f) p (retained_of (set_incoming s q) f).
Proof.
  intros Hs Hi Hf. destruct Hs.
  assert (Hr : st_terminalReady s = false).
  { destruct (st_terminalReady s) eqn:E; [| done]. destruct (sh_ready0 eq_refl). congruence. }
  split.
  - split; simpl; try done; try congruence. rewrite Hi in *. simpl in *. lia.
  - unfold leaves, retained_of. simpl. rewrite Hi, (sh_not_ready0 Hr). simpl. split.
    + solve_Permutation.
    + intros Ha. rewrite (Hf Ha). destruct (sh_not_finishing0 (Hf Ha) Hr) as [-> _]. done.
Qed.

Ltac queue_fields Q :=
  let Q' := fresh in pose proof Q as Q'; unfold same_queue in Q'; simpl in Q'; destruct_and! Q'.

(** A payload that left the queue, and the release of its bytes. *)
Lemma release_leave s t f p :
  covers s (zlen (retained_of s f)) -> shape_ok t f -> retained_of s f ≡ₚ p ++ retained_of t f ->
  (forall h, covers s h -> covers t h) ->
  let s' := releaseQueued t (zlen p) in
  shape_ok s' f /\ covers s' (zlen (retained_of s' f)) /\ retained_of s' f = retained_of t f /\
  same_queue t s'.
Proof.
  intros Hc Hs Hp Hb s'. apply Hb in Hc. rewrite (zlen_perm _ _ Hp), zlen_app in Hc.
  pose proof (zlen_nonneg p). pose proof (zlen_nonneg (retained_of t f)).
  destruct (releaseQueued_ok t _ (zlen p) Hc ltac:(lia)) as [C Q].
  pose proof (same_queue_retained _ _ f Q) as R. unfold s'. split_and!; try done.
  - by eapply same_queue_shape.
  - rewrite R. eapply eq_ind; [exact C | lia].
Qed.

Section Refinement.
Context (atomic_finish : bool).

Let datagram (y : sys) : bool := st_datagram (y_stream y).

Definition refines_step (y y' : sys) : Prop :=
  sys_ok y' /\ datagram y' = datagram y /\
  b_limit (st_streamBudget (y_stream y')) = b_limit (st_streamBudget (y_stream y)) /\
  st_slots (y_stream y') = st_slots (y_stream y) /\
  abs_step atomic_finish (datagram y) (abs_of y) (abs_of y').

Ltac open_refinement :=
  unfold refines_step, sys_ok, datagram, abs_of, held, retained;
  cbn [y_stream y_finishing y_accepted y_delivered y_discarded y_credit y_readerDone].

Lemma refines_enqueue y data r s' :
  sys_ok y -> y_finishing y = None -> enqueue (y_stream y) data = (r, s') ->
  refines_step y (MkSys s' None (if is_ok r then y_accepted y ++ [data] else y_accepted y)
                     (y_delivered y) (y_discarded y) (y_credit y) (y_readerDone y)).
Proof.
  intros [Hs Hc] Hf He. destruct y as [s f acc d x c dn]; cbn [y_stream y_finishing] in *. subst f.
  pose proof (enqueue_stream s data Hs Hc) as E. rewrite He in E. destruct E as (S & R & D & (? & ? & Hb & ?)).
  pose proof (shifts_covers _ _ _ _ Hc D) as C.
  unfold held, retained in C. simpl in C. rewrite <- zlen_app, <- R in C.
  open_refinement. split_and!; try done. rewrite R, Hb. destruct (is_ok r).
  - apply a_put.
  - rewrite app_nil_r. apply a_internal.
Qed.

Lemma refines_begin y err :
  sys_ok y -> y_finishing y = None -> st_closed (y_stream y) = false ->
  refines_step y (set_finishing y (finish_begin (y_stream y)) (Some (err, []))).
Proof.
  intros [Hs Hc] Hf Hcl. destruct y as [s f acc d x c dn]; cbn [y_stream y_finishing] in *. subst f.
  unfold refines_step, sys_ok, datagram, held, retained; cbn [y_stream y_finishing set_finishing].
  assert (Hr : st_terminalReady s = false).
  { destruct (st_terminalReady s) eqn:E; [| done]. destruct Hs as [Hx].
    assert (st_closed s = true) by (apply Hx; by right). congruence. }
  split_and!; try done; [| apply a_internal].
  destruct Hs. split; simpl; try done; try congruence.
  - split; [by left | done].
Qed.

Lemma refines_drain y err tail s' tail' :
  sys_ok y -> y_finishing y = Some (err, tail) -> finish_take (y_stream y) tail = Some (s', tail') ->
  refines_step y (set_finishing y s' (Some (err, tail'))).
Proof.
  intros [Hs Hc] Hf Ht. destruct y as [s f acc d x c dn]; cbn [y_stream y_finishing] in *. subst f.
  pose proof (zlen_nonneg (retained_of s (Some (err, tail)))) as Hn.
  unfold refines_step, sys_ok, datagram, held, retained in *; cbn [y_stream y_finishing set_finishing] in *.
  assert (Hle : zlen (retained_of s (Some (err, tail))) < 2 ^ 63).
  { destruct Hc as ((Hl & ? & ?) & _ & _ & <- & _). unfold is_i64 in Hl. lia. }
  assert (E : retained_of s' (Some (err, tail')) = retained_of s (Some (err, tail)) /\
              shape_ok s' (Some (err, tail'))).
  { unfold finish_take in Ht. destruct (st_incoming s) as [|chunk q] eqn:Ei; [done |].
    assert (Hr : st_terminalReady s = false).
    { destruct (st_terminalReady s) eqn:E; [| done]. destruct Hs as [_ Hx]. by destruct (Hx E). }
    unfold retained_of in *. rewrite Ei in *. destruct Hs.
    destruct (st_datagram s) eqn:Ed; injection Ht as <- <-; simpl;
      [destruct sh_datagram0 as (T1 & T2 & T3 & T4); [done |] |];
      (split; [| split; simpl; try done; try congruence; try (rewrite Ei in *; simpl in *; lia)]).
    - simpl in T2. subst tail. rewrite T1, concat_app. simpl. by rewrite app_nil_r, <- !(assoc (++)).
    - intros _. simpl in T2. subst tail. split_and!; try done. rewrite concat_app, zlen_app, T4. simpl. rewrite app_nil_r.
      apply i64_id. rewrite T1 in Hle. simpl in Hle. rewrite !zlen_app in Hle.
      pose proof (zlen_nonneg chunk). pose proof (zlen_nonneg (concat q)).
      pose proof (zlen_nonneg (concat (st_terminalPackets s))). unfold is_i64. lia.
    - by rewrite <- !(assoc (++)).
    - rewrite sh_closed0. split; intros _; by left.
    - intros _. by apply sh_bytes0. }
  destruct E as [E1 E2].
  assert (Hq : st_datagram s' = st_datagram s /\ b_limit (st_streamBudget s') = b_limit (st_streamBudget s) /\
               st_slots s' = st_slots s /\ st_buffer s' = st_buffer s /\
               covers s' (zlen (retained_of s (Some (err, tail))))).
  { unfold finish_take in Ht. destruct (st_incoming s); [done |].
    destruct (st_datagram s) eqn:Ed; injection Ht as <- <-; by split_and!. }
  destruct_and! Hq. rewrite E1. split_and!; try done.
  unfold abs_of, retained. cbn [y_stream y_finishing set_finishing]. simpl.
  rewrite E1, H2. apply a_internal.
Qed.

Lemma refines_end y err tail :
  sys_ok y -> y_finishing y = Some (err, tail) -> st_incoming (y_stream y) = [] ->
  refines_step y (set_finishing y (finish_end (y_stream y) tail err) None).
Proof.
  intros [Hs Hc] Hf Hi. destruct y as [s f acc d x c dn]; cbn [y_stream y_finishing] in *. subst f.
  unfold refines_step, sys_ok, datagram, held, retained in *; cbn [y_stream y_finishing set_finishing] in *.
  assert (E : retained_of (finish_end s tail err) None = retained_of s (Some (err, tail)) /\
              shape_ok (finish_end s tail err) None).
  { destruct Hs. assert (Hr : st_terminalReady s = false).
    { destruct (st_terminalReady s) eqn:E; [| done]. by destruct (sh_ready0 eq_refl). }
    specialize (sh_not_ready0 Hr). unfold retained_of, finish_end. simpl.
    rewrite !Hi, sh_not_ready0. simpl. rewrite !app_nil_r. destruct (st_datagram s) eqn:Ed.
    - destruct sh_datagram0 as (T1 & T2 & T3 & T4); [done |]. simpl in T2. subst tail. simpl.
      split; [by rewrite app_nil_r |]. split; simpl; try done; try congruence. split; [by right | done].
    - destruct sh_bytes0 as [T1 T2]; [done |]. rewrite T1. simpl.
      split; [by rewrite ?app_nil_r |]. split; simpl; try done; try congruence. split; [by right | done]. }
  destruct E as [E1 E2]. rewrite E1. split_and!; try done.
  unfold abs_of, retained. cbn [y_stream y_finishing set_finishing]. simpl. rewrite E1. apply a_internal.
Qed.

Lemma refines_chunk y s' n :
  sys_ok y -> may_receive atomic_finish y -> datagram y = false -> st_buffer (y_stream y) = [] ->
  take_chunk (y_stream y) = Some (s', n) ->
  refines_step y (MkSys s' (y_finishing y) (y_accepted y) (y_delivered y) (y_discarded y)
                     (y_credit y + n) false).
Proof.
  intros [Hs Hc] [Hd Hf] Hg Hb Ht.
  destruct y as [s f acc d x c dn]; unfold datagram in *; cbn [y_stream y_finishing y_readerDone] in *. subst dn.
  unfold take_chunk in Ht. destruct (st_incoming s) as [|p q] eqn:Ei; [done |]. injection Ht as <- <-.
  destruct (channel_leaves atomic_finish s f p q Hs Ei Hf) as [Hs' Hl].
  destruct (release_leave s (set_incoming s q) f p Hc Hs' (proj1 Hl)) as (S & C & R & Q); [done |].
  queue_fields Q. open_refinement.
  change (retained_of (set_buffer ?s ?b) f) with (retained_of s f). split_and!; try done.
  - destruct S. split; simpl; try done. congruence.
  - simpl. rewrite Hb, R. by apply a_receive.
Qed.

Lemma refines_tail y s' n :
  sys_ok y -> may_receive atomic_finish y -> datagram y = false -> st_buffer (y_stream y) = [] ->
  y_finishing y = None -> take_tail (y_stream y) = Some (s', n) ->
  refines_step y (MkSys s' None (y_accepted y) (y_delivered y) (y_discarded y) (y_credit y + n) false).
Proof.
  intros [Hs Hc] [Hd _] Hg Hb Hf Ht.
  destruct y as [s f acc d x c dn]; unfold datagram in *; cbn [y_stream y_finishing y_readerDone] in *. subst dn f.
  unfold take_tail in Ht. destruct (st_terminalReady s && _) eqn:E; [| done]. injection Ht as <- <-. bool_facts.
  destruct Hs. destruct (sh_ready0 ltac:(done)) as [_ Hi]. destruct (sh_bytes0 Hg) as [Hp Hz].
  rewrite Hz. set (t := set_terminal s [] (st_terminalPackets s) 0).
  assert (Hr : retained_of s None = st_terminalBuffer s ++ retained_of t None).
  { unfold retained_of. simpl. by rewrite Hp, Hi. }
  assert (Hs' : shape_ok t None) by (split; simpl; try done; try congruence).
  destruct (release_leave s t None (st_terminalBuffer s) Hc Hs') as (S & C & R & Q); [by rewrite Hr | done |].
  queue_fields Q. open_refinement.
  change (retained_of (set_buffer ?s ?b) None) with (retained_of s None). split_and!; try done.
  - destruct S. split; simpl; try done. congruence.
  - simpl. rewrite Hb, R, Hr. apply a_receive; [done |]. by split.
Qed.

Lemma refines_packet y s' p :
  sys_ok y -> may_receive atomic_finish y -> datagram y = true ->
  take_packet (y_stream y) = Some (s', p) ->
  refines_step y (MkSys s' (y_finishing y) (y_accepted y) (y_delivered y ++ p) (y_discarded y)
                     (y_credit y) false).
Proof.
  intros [Hs Hc] [Hd Hf] Hg Ht.
  destruct y as [s f acc d x c dn]; unfold datagram in *; cbn [y_stream y_finishing y_readerDone] in *. subst dn.
  unfold take_packet in Ht. destruct (st_incoming s) as [|p' q] eqn:Ei; [done |]. injection Ht as <- ->.
  destruct (channel_leaves atomic_finish s f p q Hs Ei Hf) as [Hs' Hl].
  destruct (release_leave s (set_incoming s q) f p Hc Hs' (proj1 Hl)) as (S & C & R & Q); [done |].
  queue_fields Q. open_refinement. split_and!; try done.
  destruct (sh_datagram _ _ Hs Hg) as (_ & _ & Hb & _). rewrite R.
  replace (st_buffer (releaseQueued _ _)) with (@nil Byte.byte) by congruence. simpl. rewrite Hb. by apply a_packet.
Qed.

Lemma refines_terminal_packet y s' p :
  sys_ok y -> may_receive atomic_finish y -> datagram y = true -> y_finishing y = None ->
  take_terminal_packet (y_stream y) = Some (s', p) ->
  refines_step y (MkSys s' None (y_accepted y) (y_delivered y ++ p) (y_discarded y) (y_credit y) false).
Proof.
  intros [Hs Hc] [Hd _] Hg Hf Ht.
  destruct y as [s f acc d x c dn]; unfold datagram in *; cbn [y_stream y_finishing y_readerDone] in *. subst dn f.
  unfold take_terminal_packet in Ht. destruct (st_terminalReady s) eqn:E; [| done].
  destruct (st_terminalPackets s) as [|p' r] eqn:Ep; [done |]. injection Ht as <- ->.
  destruct Hs. destruct (sh_ready0 ltac:(done)) as [_ Hi]. destruct (sh_datagram0 Hg) as (Hb & _ & Hbuf & Hz).
  rewrite Ep in Hz. simpl in Hz. rewrite zlen_app in Hz.
  set (t := set_terminal s (st_terminalBuffer s) r (i64 (st_terminalBytes s - zlen p))).
  assert (Hr : retained_of s None = p ++ retained_of t None).
  { unfold retained_of. simpl. by rewrite Hb, Hi, Ep, !app_nil_r. }
  assert (Ht : st_terminalBytes t = zlen (concat r)).
  { simpl. rewrite Hz. destruct Hc as ((Hl & ? & ?) & _ & _ & Hu & _). unfold is_i64 in Hl.
    unfold held, retained, retained_of in Hu. simpl in Hu. rewrite Hb, Ep, Hi in Hu. simpl in Hu.
    rewrite app_nil_r, zlen_app in Hu. pose proof (zlen_nonneg p). pose proof (zlen_nonneg (concat r)).
    rewrite i64_id; [lia | unfold is_i64; lia]. }
  assert (Hs' : shape_ok t None) by (split; simpl; try done; try congruence).
  destruct (release_leave s t None p Hc Hs') as (S & C & R & Q); [by rewrite Hr | done |].
  queue_fields Q. open_refinement. split_and!; try done.
  rewrite R, Hr. replace (st_buffer (releaseQueued _ _)) with (@nil Byte.byte) by congruence.
  simpl. rewrite Hbuf. apply a_packet; [done |]. by split.
Qed.

Lemma refines_copy y k :
  sys_ok y -> y_readerDone y = false ->
  refines_step y (MkSys (copy_out (y_stream y) k).2 (y_finishing y) (y_accepted y)
                     (y_delivered y ++ (copy_out (y_stream y) k).1) (y_discarded y) (y_credit y) false).
Proof.
  intros [Hs Hc] Hd. destruct y as [s f acc d x c dn]; cbn [y_stream y_finishing y_readerDone] in *. subst dn.
  unfold refines_step, sys_ok, datagram. cbn [y_stream y_finishing].
  split_and!; try done.
  - destruct Hs. split; simpl; try done.
    intros Hg. destruct (sh_datagram0 Hg) as (? & ? & -> & ?). by rewrite skipn_nil.
  - unfold abs_of, retained. simpl. rewrite <- (take_drop k (st_buffer s)) at 1. apply a_copy.
Qed.

Lemma refines_discard_chunk y s' p :
  sys_ok y -> y_readerDone y = true -> take_packet (y_stream y) = Some (s', p) ->
  refines_step y (MkSys s' (y_finishing y) (y_accepted y) (y_delivered y) (y_discarded y ++ p)
                     (y_credit y) true).
Proof.
  intros [Hs Hc] Hd Ht.
  destruct y as [s f acc d x c dn]; unfold datagram in *; cbn [y_stream y_finishing y_readerDone] in *. subst dn.
  unfold take_packet in Ht. destruct (st_incoming s) as [|p' q] eqn:Ei; [done |]. injection Ht as <- ->.
  destruct (channel_leaves false s f p q Hs Ei ltac:(done)) as [Hs' [Hl _]].
  destruct (release_leave s (set_incoming s q) f p Hc Hs' Hl) as (S & C & R & Q); [done |].
  queue_fields Q. open_refinement. split_and!; try done.
  rewrite R. replace (st_buffer (releaseQueued _ _)) with (st_buffer s) by congruence. by apply a_discard.
Qed.

Lemma releaseQueuedChunks_empty s : st_incoming s = [] -> releaseQueuedChunks s = s.
Proof. unfold releaseQueuedChunks. by intros ->. Qed.

Lemma refines_discard_tail y :
  sys_ok y -> y_readerDone y = true -> y_finishing y = None -> st_incoming (y_stream y) = [] ->
  refines_step y (MkSys (discardRetained (y_stream y)) None (y_accepted y) (y_delivered y)
                     (y_discarded y ++ retained y) (y_credit y) true).
Proof.
  intros [Hs Hc] Hd Hf Hi.
  destruct y as [s f acc d x c dn]; unfold datagram in *; cbn [y_stream y_finishing y_readerDone] in *. subst dn f.
  unfold discardRetained. rewrite (releaseQueuedChunks_empty s Hi).
  set (t := set_terminal s [] [] 0).
  assert (Hz : st_terminalBytes s = zlen (retained_of s None)).
  { destruct Hs. unfold retained_of. rewrite Hi. simpl. rewrite app_nil_r. destruct (st_datagram s).
    - destruct sh_datagram0 as (-> & _ & _ & ?); done.
    - destruct sh_bytes0 as [-> ?]; [done |]. simpl. by rewrite app_nil_r. }
  assert (Hr : retained_of t None = []) by (unfold retained_of; simpl; by rewrite Hi).
  assert (Hs' : shape_ok t None).
  { destruct Hs. split; simpl; try done. intros Hg. by split_and!; try apply sh_datagram0. }
  rewrite Hz.
  destruct (release_leave s t None (retained_of s None) Hc Hs') as (S & C & R & Q);
    [by rewrite Hr, app_nil_r | done |].
  rewrite Hr in R. destruct (0 <? zlen (retained_of s None)) eqn:E; bool_facts.
  - queue_fields Q. open_refinement. split_and!; try done.
    rewrite R. replace (st_buffer (releaseQueued _ _)) with (st_buffer s) by congruence.
    simpl. apply a_discard. by rewrite app_nil_r.
  - assert (H0 : retained_of s None = []) by (apply zlen_0; pose proof (zlen_nonneg (retained_of s None)); lia).
    open_refinement. rewrite Hr. split_and!; try done.
    + by rewrite <- H0.
    + rewrite H0, app_nil_r. apply a_internal.
Qed.

Lemma refines_others y b2 b3 :
  sys_ok y -> budget_ok b2 -> budget_ok b3 -> zlen (retained y) <= b_used b2 -> zlen (retained y) <= b_used b3 ->
  refines_step y (let s := y_stream y in
    set_stream y (set_budgets s (st_streamBudget s) b2 b3 (st_rejects s) (st_panicked s))).
Proof.
  intros [Hs Hc] H2 H3 L2 L3. destruct y as [s f acc d x c dn]. unfold retained in *.
  cbn [y_stream y_finishing] in *. open_refinement. simpl.
  change (retained_of (set_budgets s ?a ?b ?c ?d ?e) f) with (retained_of s f).
  unfold covers in *. destruct_and! Hc. split_and!; try done; [| apply a_internal].
  by destruct Hs.
Qed.

(** Every step of the stream is a step of the abstract queue. *)
Lemma local_refines y y' : sys_ok y -> local_step atomic_finish y y' -> refines_step y y'.
Proof.
  intros Hy H. destruct H.
  - by apply (refines_enqueue y data).
  - by apply refines_begin.
  - by eapply refines_drain.
  - by eapply refines_end.
  - by apply refines_chunk.
  - by apply refines_tail.
  - by apply refines_copy.
  - by apply refines_packet.
  - by apply refines_terminal_packet.
  - destruct Hy. split_and!; try done. apply a_stop.
  - by apply refines_discard_chunk.
  - by apply refines_discard_tail.
Qed.

Lemma stream_refines y y' : sys_ok y -> stream_step atomic_finish y y' -> refines_step y y'.
Proof. intros Hy H. destruct H; [by apply local_refines | by apply refines_others]. Qed.
End Refinement.

(** ** How far a step moves the budgets *)

Lemma incoming_le s f p q :
  st_incoming s = p :: q -> 0 <= zlen p <= zlen (retained_of s f).
Proof.
  intros Hi. unfold retained_of. rewrite Hi. simpl. rewrite !zlen_app.
  pose proof (zlen_nonneg p). pose proof (zlen_nonneg (concat q)). pose proof (zlen_nonneg (held_tail f)).
  pose proof (zlen_nonneg (st_terminalBuffer s)). pose proof (zlen_nonneg (concat (st_terminalPackets s))). lia.
Qed.

Lemma terminal_le s f : shape_ok s f -> st_terminalReady s = true ->
  0 <= st_terminalBytes s <= zlen (retained_of s f) /\
  forall p r, st_terminalPackets s = p :: r -> 0 <= zlen p <= zlen (retained_of s f).
Proof.
  intros Hs Hr. destruct Hs. unfold retained_of. rewrite !zlen_app.
  pose proof (zlen_nonneg (held_tail f)). pose proof (zlen_nonneg (st_terminalBuffer s)).
  pose proof (zlen_nonneg (concat (st_terminalPackets s))). pose proof (zlen_nonneg (concat (st_incoming s))).
  split.
  - destruct (st_datagram s).
    + destruct sh_datagram0 as (_ & _ & _ & ->); [done | lia].
    + destruct sh_bytes0 as [_ ->]; [done | lia].
  - intros p r E. rewrite E in *. simpl in *. rewrite zlen_app in *.
    pose proof (zlen_nonneg p). pose proof (zlen_nonneg (concat r)). lia.
Qed.

Lemma local_step_shifts b y y' :
  sys_ok y -> local_step b y y' -> exists d, shifts (y_stream y) (y_stream y') d.
Proof.
  intros [Hs Hc] H. pose proof (shifts_refl _ _ Hc) as Hrefl. unfold held, retained in Hc.
  destruct H; cbn [y_stream y_finishing set_finishing] in *; try (exists 0; exact Hrefl).
  - rewrite H in *. pose proof (enqueue_stream _ data Hs Hc) as E. rewrite H0 in E. destruct_and! E. eauto.
  - exists 0. unfold finish_take in H0. destruct (st_incoming (y_stream y)); [done |].
    destruct (st_datagram (y_stream y)); injection H0 as <- <-; exact Hrefl.
  - unfold take_chunk in H2. destruct (st_incoming (y_stream y)) as [|p q] eqn:Ei; [done |].
    injection H2 as <- <-. eexists.
    apply (releaseQueued_shifts (set_incoming (y_stream y) q) _ (zlen p) Hc (incoming_le _ _ _ _ Ei)).
  - unfold take_tail in H3. destruct (st_terminalReady (y_stream y)) eqn:Er; [| done].
    destruct (negb _); [| done]. injection H3 as <- <-. eexists.
    apply (releaseQueued_shifts (set_terminal (y_stream y) [] (st_terminalPackets (y_stream y)) 0) _ _ Hc).
    by apply (terminal_le _ _ Hs).
  - unfold take_packet in H1. destruct (st_incoming (y_stream y)) as [|q0 q] eqn:Ei; [done |].
    injection H1 as <- ->. eexists.
    apply (releaseQueued_shifts (set_incoming (y_stream y) q) _ (zlen p) Hc (incoming_le _ _ _ _ Ei)).
  - unfold take_terminal_packet in H2. destruct (st_terminalReady (y_stream y)) eqn:Er; [| done].
    destruct (st_terminalPackets (y_stream y)) as [|q0 r] eqn:Ep; [done |]. injection H2 as <- ->. eexists.
    apply (releaseQueued_shifts (set_terminal (y_stream y) (st_terminalBuffer (y_stream y)) r _) _ (zlen p) Hc).
    by apply (proj2 (terminal_le _ _ Hs Er) p r).
  - unfold take_packet in H0. destruct (st_incoming (y_stream y)) as [|q0 q] eqn:Ei; [done |].
    injection H0 as <- ->. eexists.
    apply (releaseQueued_shifts (set_incoming (y_stream y) q) _ (zlen p) Hc (incoming_le _ _ _ _ Ei)).
  - unfold discardRetained. rewrite releaseQueuedChunks_empty by done.
    destruct (0 <? st_terminalBytes (y_stream y)) eqn:E; [| exists 0; exact Hrefl]. eexists.
    apply (releaseQueued_shifts (set_terminal (y_stream y) [] [] 0) _ _ Hc).
    destruct (st_terminalReady (y_stream y)) eqn:Er; [by apply (terminal_le _ _ Hs) |].
    destruct (sh_not_finishing _ _ Hs H0 Er) as [_ ->]. split; [lia | apply zlen_nonneg].
Qed.

(** A run of one stream's own steps: it stays well-formed and moves every
    budget by what its held bytes change. *)
Lemma local_run_ok b y y' :
  sys_ok y -> steps (local_step b) y y' ->
  sys_ok y' /\ shifts (y_stream y) (y_stream y') (held y' - held y) /\
  st_datagram (y_stream y') = st_datagram (y_stream y).
Proof.
  intros Hy H.
  assert (X : sys_ok y' /\ (exists d, shifts (y_stream y) (y_stream y') d) /\
              st_datagram (y_stream y') = st_datagram (y_stream y)).
  { induction H as [|u v _ IH Huv].
    - split_and!; [done | | done]. exists 0. eapply shifts_refl, Hy.
    - destruct IH as (Hu & [d Hd] & Hg). destruct (local_step_shifts _ _ _ Hu Huv) as [d' Hd'].
      destruct (local_refines _ _ _ Hu Huv) as (Hv & Hg' & _). split_and!; [done | | congruence].
      exists (d + d'). by eapply shifts_trans. }
  destruct X as (Hy' & [d Hd] & Hg). split_and!; try done.
  replace (held y' - held y) with d; [done |].
  destruct Hy as [_ Hc], Hy' as [_ Hc']. unfold covers in Hc, Hc'.
  destruct Hd as [(_ & _ & Hu) _]. destruct_and! Hc. destruct_and! Hc'. lia.
Qed.

(** ** What the reader is promised *)

Lemma sys_new_ok id datagram frames size b2 b3 :
  is_i64 size -> budget_ok b2 -> budget_ok b3 -> sys_ok (sys_new id datagram frames size b2 b3).
Proof.
  intros Hs H2 H3. split.
  - split; simpl; try done; try lia; by split; [| intros [[]|[=]]].
  - unfold covers. simpl. destruct H2 as (? & ? & ?), H3 as (? & ? & ?).
    unfold budget_ok, held, retained, retained_of; simpl; rewrite zlen_nil; split_and!; try done; by left.
Qed.

Lemma stream_reach atomic_finish id datagram frames size b2 b3 y :
  is_i64 size -> budget_ok b2 -> budget_ok b3 ->
  steps (stream_step atomic_finish) (sys_new id datagram frames size b2 b3) y ->
  sys_ok y /\ st_datagram (y_stream y) = datagram /\ b_limit (st_streamBudget (y_stream y)) = size /\
  st_slots (y_stream y) = Z.max frames (Z.quot size minTunnelFrame) /\
  ledger datagram (abs_of y) /\ (atomic_finish = true -> in_order (abs_of y)).
Proof.
  intros Hs H2 H3 H. induction H as [|a b _ IH Hab].
  - pose proof (sys_new_ok id datagram frames size b2 b3 Hs H2 H3). split_and!; try done.
    + simpl. destruct (Z.ltb_spec frames (Z.quot size minTunnelFrame)); lia.
    + exists []. done.
  - destruct IH as (Ha & Hd & Hl & Hsl & Hled & Hord).
    destruct (stream_refines _ _ _ Ha Hab) as (Hb & Hd' & Hl' & Hsl' & Habs). subst datagram size.
    rewrite Hd', Hl', Hsl'. split_and!; try done.
    + by eapply abs_step_ledger.
    + intros Ht. eapply abs_step_in_order; [done | by apply Hord | done].
Qed.

(** The sequential [finish] is a run of the three parts. *)
Lemma finish_steps atomic_finish y err :
  y_finishing y = None -> st_closed (y_stream y) = false ->
  steps (local_step atomic_finish) y (set_finishing y (finish (y_stream y) err) None).
Proof.
  intros Hf Hc. unfold finish. rewrite Hc.
  assert (D : forall n s tail, length (st_incoming s) = n ->
    steps (local_step atomic_finish) y (set_finishing y s (Some (err, tail))) ->
    let '(s', tail') := finish_drain n s tail in
    st_incoming s' = [] /\ steps (local_step atomic_finish) y (set_finishing y s' (Some (err, tail')))).
  { induction n as [|n IH]; intros s tail Hn Hr.
    - simpl. split; [by apply nil_length_inv | done].
    - destruct (st_incoming s) as [|chunk q] eqn:Ei; [done |]. simpl in *.
      unfold finish_take at 1. rewrite Ei.
      destruct (st_datagram s) eqn:Ed; (apply IH; [simpl; lia |]);
        (eapply steps_snoc; [exact Hr |]); eapply (s_drain _ (set_finishing y s _)); try done;
        unfold finish_take; simpl; by rewrite Ei, Ed. }
  specialize (D (length (st_incoming (y_stream y))) (finish_begin (y_stream y)) [] eq_refl).
  destruct (finish_drain _ _ _) as [s' tail']. destruct D as [Hi Hr].
  - eapply steps_snoc; [apply steps_refl |]. by apply s_finish.
  - eapply steps_snoc; [exact Hr |]. by eapply (s_finished _ (set_finishing y s' _)).
Qed.

(** Whatever the interleaving of data frames, terminal frame, reader, discard and other streams, no budget is released below zero, the stream's budget counts exactly the bytes it still holds (never more than its queue size), the queue never exceeds its slots, every accepted byte is delivered, buffered, held or discarded exactly once, and the credit returned is exactly what the reader took. *)
Theorem stream_bytes_accounted atomic_finish id datagram frames size b2 b3 y :
  is_i64 size -> budget_ok b2 -> budget_ok b3 ->
  steps (stream_step atomic_finish) (sys_new id datagram frames size b2 b3) y ->
  st_panicked (y_stream y) = false /\
  b_used (st_streamBudget (y_stream y)) = zlen (retained y) /\
  (retained y = [] \/ zlen (retained y) <= size) /\
  Z.of_nat (length (st_incoming (y_stream y))) <= Z.max 0 (Z.max frames (Z.quot size minTunnelFrame)) /\
  concat (y_accepted y) ≡ₚ y_delivered y ++ st_buffer (y_stream y) ++ retained y ++ y_discarded y /\
  (datagram = false -> y_credit y = zlen (y_delivered y) + zlen (st_buffer (y_stream y))).
Proof.
  intros Hs H2 H3 H.
  destruct (stream_reach _ _ _ _ _ _ _ _ Hs H2 H3 H) as ([Hsh Hc] & Hd & Hl & Hsl & [Hp Hcr] & _).
  destruct Hc as ((_ & _ & Hlim) & _ & _ & Hu & _ & _ & Hpan). unfold held in Hu. rewrite Hl in Hlim.
  split_and!; try done.
  - destruct Hlim as [H0|]; [left; apply zlen_0; lia | right; lia].
  - rewrite <- Hsl. apply Hsh.
Qed.

(** C35: While no receive of the reader falls inside [finish], the bytes come out in the order they were accepted: the delivered bytes are a prefix of the accepted ones, what is missing is the buffer and the queue, and a reader told the end of the stream has received every byte. *)
Theorem stream_delivers_in_order id datagram frames size b2 b3 y :
  is_i64 size -> budget_ok b2 -> budget_ok b3 ->
  steps (stream_step true) (sys_new id datagram frames size b2 b3) y ->
  (exists rest, concat (y_accepted y) = y_delivered y ++ rest) /\
  (y_readerDone y = false ->
   concat (y_accepted y) = y_delivered y ++ st_buffer (y_stream y) ++ retained y /\
   (read_end (y_stream y) <> None -> st_buffer (y_stream y) = [] ->
    take_tail (y_stream y) = None -> take_terminal_packet (y_stream y) = None ->
    concat (y_accepted y) = y_delivered y)).
Proof.
  intros Hs H2 H3 H.
  destruct (stream_reach _ _ _ _ _ _ _ _ Hs H2 H3 H) as ([Hsh _] & _ & _ & _ & _ & Ho).
  destruct (Ho eq_refl) as (rest & Hr & Hb). simpl in Hr, Hb. split; [by exists rest |].
  intros Hd. rewrite (Hb Hd) in Hr. split; [done |]. intros He Hbuf Ht Hp. rewrite Hr, Hbuf.
  destruct Hsh. unfold read_end in He. destruct (st_terminalReady (y_stream y)) eqn:Er; [| done].
  destruct sh_ready0 as [Hf Hi]; [done |].
  unfold take_tail in Ht. unfold take_terminal_packet in Hp. rewrite Er in Ht, Hp. simpl in Ht.
  destruct (zlen (st_terminalBuffer (y_stream y)) =? 0) eqn:Ez; [| done]. bool_facts.
  apply zlen_0 in Ez. destruct (st_terminalPackets (y_stream y)) eqn:Ep; [| done].
  unfold retained, retained_of. rewrite Ez, Ep, Hf, Hi. simpl. by rewrite app_nil_r.
Qed.

Definition demo_stream : sys :=
  sys_new 3 false 1 8192 (NewByteBudget 8192) (NewByteBudget 8192).
Definition demo_a : bytes := bytes_of "a".
Definition demo_b : bytes := bytes_of "b".

(** One computed step of a run, its result in normal form. *)
Lemma steps_run b (s0 s1 s1' s : sys) :
  stream_step b s0 s1 -> s1 = s1' -> steps (stream_step b) s1' s -> steps (stream_step b) s0 s.
Proof. intros H <-. by apply steps_cons. Qed.

Tactic Notation "run" uconstr(step) :=
  eapply steps_run;
  [eapply s_local; eapply step; vm_compute; first [reflexivity | by split] | vm_compute; reflexivity |].

(** Two frames are queued; [finish] drains the first, the reader receives the
    second from the channel and then the first from the retained tail. *)
Lemma reader_overtakes_finish :
  exists y, steps (stream_step false) demo_stream y /\
    y_accepted y = [demo_a; demo_b] /\ y_delivered y = demo_b ++ demo_a.
Proof.
  eexists. split.
  - run (s_enqueue false _ demo_a). run (s_enqueue false _ demo_b). run (s_finish false _ None).
    run s_drain. run s_take. run (s_copy false _ 8). run s_finished. run s_tail. run (s_copy false _ 8).
    apply steps_refl.
  - split; vm_compute; reflexivity.
Qed.

(** A run that delivers both frames through the retained tail. *)
Ltac demo_run b :=
  run (s_enqueue b _ demo_a); run (s_enqueue b _ demo_b); run (s_finish b _ None);
  run (s_drain b); run (s_drain b); run (s_finished b); run (s_tail b); run (s_copy b _ 8);
  apply steps_refl.

Lemma demo_budget_ok : budget_ok (NewByteBudget 8192).
Proof. unfold budget_ok, is_i64. simpl. lia. Qed.

Lemma stream_bytes_accounted_witness :
  exists y, steps (stream_step false) demo_stream y /\ y_credit y = 2 /\
    b_used (st_streamBudget (y_stream y)) = zlen (retained y).
Proof.
  eexists. assert (H : steps (stream_step false) demo_stream _) by demo_run false.
  split; [exact H |]. split; [reflexivity |].
  apply (stream_bytes_accounted false 3 false 1 8192 (NewByteBudget 8192) (NewByteBudget 8192) _);
    [unfold is_i64; lia | apply demo_budget_ok | apply demo_budget_ok | exact H].
Defined.

Lemma stream_delivers_in_order_witness :
  exists y, steps (stream_step true) demo_stream y /\
    concat (y_accepted y) = y_delivered y /\ y_delivered y = demo_a ++ demo_b.
Proof.
  eexists. assert (H : steps (stream_step true) demo_stream _) by demo_run true.
  split; [exact H |]. split; [| reflexivity].
  apply (stream_delivers_in_order 3 false 1 8192 (NewByteBudget 8192) (NewByteBudget 8192) _);
    [unfold is_i64; lia | apply demo_budget_ok | apply demo_budget_ok | exact H | reflexivity ..
    | discriminate | reflexivity | reflexivity | reflexivity].
Defined.
