(* ===== verification/Wire.v ===== *)
(** * Wire: what a peer writes to its connection

    Both ends of a tunnel number their frames from one counter and write them
    from one goroutine.  [log_ok] is what that goroutine keeps: everything on
    the connection is a well-formed frame, a peer whose tracker stood at
    [start] accepts all of it in order, and while the session is open the
    counter is the last number used.  The small functions both ends are written
    with are here too. *)

From S2P Require Import Prelude GoTime GoStamp Json Frame.

(** ** What both ends share *)

(** What becomes of a frame handed to the writer: the caller's deadline passes
    before it is queued; or it is served, with its context expired or not and
    the connection's answer to the write.  [late]: the caller's deadline fired
    after the frame was taken, and it returned that error instead. *)
Inductive answer :=
| NoSlot (err : error)
| Served (expired : option error) (written : option error) (late : option error).

Definition io_EOF : error := ErrSentinel "EOF".
Definition context_Canceled : error := ErrSentinel "context canceled".
Definition io_ErrShortWrite : error := ErrSentinel "short write".

Definition kind_schema : schema := [("message_type", KString)].

(** [time.RFC3339] of the instant in UTC. *)
Definition stamp (t : instant) : string := format_rfc3339_nano (Second * (t / Second)).

(** Between 1970 and the year 9999 it is read back, to the second. *)
Definition stampable (t : instant) : Prop := 0 <= t < 253402300800 * Second.

Lemma stamp_reads t : stampable t -> parse_rfc3339 (stamp t) = Some (Second * (t / Second)).
Proof.
  intros [H0 H1]. apply parse_seconds. unfold year_range, Second in *. split.
  - apply Z.div_pos; lia.
  - apply Z.div_lt_upper_bound; lia.
Qed.

(** [message[:256]]. *)
Definition clip256 (message : string) : string :=
  if 256 <? slen message then string_of (firstn 256 (bytes_of message)) else message.

(** One pass of the loop of [sendBytes]: the frame and what is left. *)
Definition chunk_of (payload : bytes) : bytes * bytes :=
  let size := Z.to_nat (Z.min (zlen payload) MaxDataPayload) in (firstn size payload, skipn size payload).

Lemma chunk_split payload chunk rest :
  zlen payload <> 0 -> chunk_of payload = (chunk, rest) ->
  chunk ++ rest = payload /\ 0 < zlen chunk <= MaxDataPayload /\ (length rest < length payload)%nat.
Proof.
  unfold chunk_of. intros Hz [= <- <-]. split; [apply take_drop |].
  unfold zlen, MaxDataPayload in *. rewrite length_take, length_drop. lia.
Qed.

(** ** The log of a connection *)

Definition log_ok (start outbound : Z) (wire : list bytes) (done_ : bool) : Prop :=
  is_u64 outbound /\
  exists frames last, wire = frame_bytes <$> frames /\ Forall frame_wf frames /\
    accept_all start (fr_seq <$> frames) = Ok last /\ (done_ = false -> last = outbound).

Lemma accept_all_snoc start seqs last seq :
  accept_all start seqs = Ok last -> accept_all start (seqs ++ [seq]) = Accept last seq.
Proof.
  revert start. induction seqs as [|x r IH]; intros start H; simpl in *.
  - injection H as <-. by destruct (Accept start seq).
  - inv_ok. rewrite E. simpl. by apply IH.
Qed.

Lemma NextSequence_u64 l q : is_u64 l -> NextSequence l = Ok q -> is_u64 q /\ Accept l q = Ok q.
Proof.
  intros Hl Hn.
  assert (Ha : Accept l q = Ok q) by (unfold Accept; rewrite Hn; simpl; by rewrite Z.eqb_refl).
  split; [| done]. apply (Accept_iff _ _ _ Hl) in Ha. unfold is_u64, MaxSequence in *. lia.
Qed.

Lemma log_new start : is_u64 start -> log_ok start start [] false.
Proof. intros H. split; [done |]. by exists [], start. Qed.

(** A session that closes asks for less. *)
Lemma log_weaken start outbound wire done_ done_' :
  log_ok start outbound wire done_ -> (done_ = true -> done_' = true) -> log_ok start outbound wire done_'.
Proof.
  intros [Hu (fs & l & H1 & H2 & H3 & H4)] Hd. split; [done |]. exists fs, l. split_and!; try done.
  intros ->. apply H4. destruct done_; [by discriminate Hd | done].
Qed.

(** A number used by a write that failed: the session is over. *)
Lemma log_skip start outbound wire done_ q : log_ok start outbound wire done_ -> is_u64 q -> log_ok start q wire true.
Proof. intros [Hu (fs & l & H1 & H2 & H3 & H4)] Hq. split; [done |]. by exists fs, l. Qed.

Lemma encoded_next outbound kind id q payload frame :
  is_u64 outbound -> NextSequence outbound = Ok q -> 0 <= kind < 256 -> is_u32 id ->
  EncodeFrame (MkFrame kind id q payload) = Ok frame ->
  frame_wf (MkFrame kind id q payload) /\ frame = frame_bytes (MkFrame kind id q payload).
Proof.
  intros Hu Hn Hk Hi He. destruct (NextSequence_u64 _ _ Hu Hn) as [Hq _].
  assert (Hw : frame_wf (MkFrame kind id q payload)) by (eapply encode_ok_wf, He; by split).
  split; [done |]. rewrite (encode_wf _ Hw) in He. by injection He as <-.
Qed.

Lemma log_snoc start outbound wire kind id q payload frame :
  log_ok start outbound wire false -> NextSequence outbound = Ok q ->
  0 <= kind < 256 -> is_u32 id -> EncodeFrame (MkFrame kind id q payload) = Ok frame ->
  log_ok start q (wire ++ [frame]) false.
Proof.
  intros [Hu (fs & l & H1 & H2 & H3 & H4)] Hn Hk Hi He.
  destruct (NextSequence_u64 _ _ Hu Hn) as [Hq Ha].
  destruct (encoded_next _ _ _ _ _ _ Hu Hn Hk Hi He) as [Hw ->]. split; [done |].
  exists (fs ++ [MkFrame kind id q payload]), q. split_and!; [| | | done].
  - by rewrite H1, fmap_app.
  - apply Forall_app. split; [done | by constructor].
  - rewrite fmap_app. simpl. by rewrite (accept_all_snoc _ _ _ _ H3), (H4 eq_refl).
Qed.

(** Read from the other end: what the log says about the connection. *)
Lemma log_accepted start outbound wire done_ :
  log_ok start outbound wire done_ ->
  exists frames last, Forall2 (fun b f => DecodeFrame b = Ok f) wire frames /\
    accept_all start (fr_seq <$> frames) = Ok last /\ (done_ = false -> last = outbound).
Proof.
  intros [_ (fs & l & -> & H2 & H3 & H4)]. exists fs, l. split_and!; try done.
  clear -H2. induction H2 as [|f fs Hf _ IH]; [constructor |].
  simpl. constructor; [by apply decode_frame_bytes | done].
Qed.

(** ** Writing to a local socket *)

(** [for len(payload) > 0 { n, err := conn.Write(payload) ... }]: what reached
    the target, and the result once the loop ended. *)
Fixpoint write_loop (answers : list (nat * option error)) (payload : bytes) : bytes * option (result unit) :=
  match payload with
  | [] => ([], Some (Ok tt))
  | _ =>
    match answers with
    | [] => ([], None)
    | (n, Some err) :: _ => (firstn n payload, Some (Err err))
    | (n, None) :: rest => let '(w, r) := write_loop rest (skipn n payload) in (firstn n payload ++ w, r)
    end
  end.

Lemma write_loop_ends answers : forall payload,
  Forall (fun a => a.2 = None -> (0 < a.1)%nat) answers -> (length payload <= length answers)%nat ->
  exists w r, write_loop answers payload = (w, Some r) /\ (is_ok r = true -> w = payload).
Proof.
  induction answers as [|[n [err|]] rest IH]; intros [|b payload] Ha Hl; try (by exists [], (Ok tt)); cbn in Hl; try lia.
  - eexists _, _. by split; [reflexivity |].
  - apply Forall_cons in Ha as [Hn Ha]. specialize (Hn eq_refl). cbn in Hn.
    destruct (IH (skipn n (b :: payload)) Ha) as (w & r & E & Hr); [rewrite length_skipn; cbn; lia |].
    cbn [write_loop]. rewrite E. eexists _, r. split; [reflexivity |]. intros Ho. rewrite (Hr Ho). apply firstn_skipn.
Qed.

(** ** What the other end reads *)

(** The bytes a frame carries for stream [id], and those of all frames on the
    connection. *)
Definition frame_data (id : Z) (b : bytes) : bytes :=
  match DecodeFrame b with
  | Ok f => if (fr_kind f =? KindData) && (fr_stream f =? id) then fr_payload f else []
  | Err _ => []
  end.

Definition data_of (id : Z) (wire : list bytes) : bytes := concat (frame_data id <$> wire).

Lemma data_of_snoc id wire b : data_of id (wire ++ [b]) = data_of id wire ++ frame_data id b.
Proof. unfold data_of. rewrite fmap_app, concat_app. cbn. by rewrite app_nil_r. Qed.
