(* ===== verification/HandshakeCodec.v ===== *)
(** * HandshakeCodec: the handshake messages as each side reads them

    Beside [ValidateControlPayload] the two ends decode the handshake messages
    with decoders of their own ([DecodeClientHello], [json.Unmarshal], the
    envelope).  Each of these reads back the struct that was marshalled. *)

From S2P Require Import Prelude GoText GoTime Json StrictJson JsonMarshal Frame Contract Control ControlCodec Wire.

#[local] Arguments validateID : simpl never.
#[local] Arguments validateRawBase64Length : simpl never.
#[local] Arguments tokenPattern : simpl never.
#[local] Arguments parseUTCTime : simpl never.
#[local] Arguments marshal_object : simpl never.
#[local] Arguments decodeControlStrict : simpl never.
#[local] Arguments Z.leb : simpl never.
#[local] Arguments Z.ltb : simpl never.
#[local] Arguments i64 : simpl never.

(** The envelope's message type. *)
Definition kind_read (data : bytes) (kind : string) : Prop :=
  exists k, json_unmarshal kind_schema data = Ok k /\ get_string k "message_type" = kind.

Lemma kind_marshalled ms kind :
  members_ok ms -> Forall (member_fits kind_schema false) ms ->
  get_string (put_members kind_schema ms ∅) "message_type" = kind -> kind_read (marshal_object ms) kind.
Proof. intros H Hf Hk. exists (put_members kind_schema ms ∅). split; [by apply marshalled_unmarshal | done]. Qed.

(** What the strict decoder accepts the lenient one reads the same. *)
Lemma strict_members_lenient fs ms : forall acc m,
  decode_members fs true ms acc = Some m -> decode_members fs false ms acc = Some m.
Proof.
  induction ms as [|[key v] r IH]; intros acc m; cbn [decode_members]; [done |].
  destruct (find_field fs key) as [[name k]|]; [| done].
  destruct (store k v) as [[x|]|]; [apply IH | apply IH | done].
Qed.

Lemma strict_lenient fs data m : decodeControlStrict fs data = Ok m -> json_unmarshal fs data = Ok m.
Proof.
  unfold decodeControlStrict, decodeStrict, json_unmarshal. destruct (validateStrictJSONObject data); [| done]. cbn [rbind].
  destruct (parse_document data) as [v|]; [| done]. destruct (decode_struct fs true v) as [m'|] eqn:E; [| done].
  intros [= <-]. destruct v; try done; cbn [decode_struct] in *; [by injection E as <- | by rewrite (strict_members_lenient _ _ _ _ E)].
Qed.

Lemma decodes_lenient {A} (rd : gmap string field_val -> A) fs data m :
  rd <$> Control_fields fs data = Some m -> exists k, json_unmarshal fs data = Ok k /\ rd k = m.
Proof.
  unfold Control_fields. destruct (decodeControlStrict fs data) as [k|] eqn:E; [| done]. intros [= <-].
  exists k. split; [by apply strict_lenient | done].
Qed.

(** Sets up a message [m] of member list [mem m]: [Hs] its sendability and
    [Hof] that its fields read back; the first goal is the kind. *)
Ltac begin_read fs mem rd m kind :=
  let Hs := fresh "Hs" in
  let Hof := fresh "Hof" in
  assert (Hs : sendable fs (mem m) kind) by (unfold mem, m; simpl; solve_sendable);
  assert (Hof : rd (put_members fs (mem m) ∅) = m) by (vm_compute; reflexivity);
  change (marshal_message _) with (marshal_object (mem m));
  split; [apply kind_marshalled; [apply Hs | unfold mem, m; simpl; solve_members | vm_compute; reflexivity] |].

Lemma client_hello_read m at_ :
  message_wf (MsgClientHello m) at_ ->
  kind_read (marshal_message (MsgClientHello m)) "client_hello" /\
  DecodeClientHello (marshal_message (MsgClientHello m)) = Ok m.
Proof.
  destruct m as [v k d a t tok n]. simpl. intros (-> & -> & Hd & Ha & Ht & Htok & Hn).
  set (m := MkClientHello 1 "client_hello" d a t tok n).
  begin_read ClientHello_schema ClientHello_members ClientHello_of m "client_hello".
  unfold DecodeClientHello. read_message. rewrite Htok. by field_checks.
Qed.

Lemma server_challenge_read m at_ :
  message_wf (MsgServerChallenge m) at_ ->
  kind_read (marshal_message (MsgServerChallenge m)) "server_challenge" /\
  DecodeServerChallenge (marshal_message (MsgServerChallenge m)) = Ok m.
Proof.
  destruct m as [v k sid n e]. simpl. intros (-> & -> & Hsid & Hn & t & Ht & Hlt).
  set (m := MkServerChallenge 1 "server_challenge" sid n e).
  begin_read ServerChallenge_schema ServerChallenge_members ServerChallenge_of m "server_challenge".
  unfold DecodeServerChallenge. read_message. by field_checks.
Qed.

Lemma client_auth_read m at_ :
  message_wf (MsgClientAuth m) at_ ->
  kind_read (marshal_message (MsgClientAuth m)) "client_auth" /\
  DecodeClientAuth (marshal_message (MsgClientAuth m)) = Ok m.
Proof.
  destruct m as [v k sid g]. simpl. intros (-> & -> & Hsid & Hg).
  set (m := MkClientAuth 1 "client_auth" sid g).
  begin_read ClientAuth_schema ClientAuth_members ClientAuth_of m "client_auth".
  unfold DecodeClientAuth. read_message. by field_checks.
Qed.

Lemma resume_session_kind m at_ :
  message_wf (MsgResumeSession m) at_ -> kind_read (marshal_message (MsgResumeSession m)) "resume_session".
Proof.
  destruct m as [v k d a t sid n c i g]. simpl. intros (-> & -> & Hd & Ha & Ht & Hsid & Hn & Hc & Hi & Hg).
  set (m := MkResumeSession 1 "resume_session" d a t sid n c i g).
  enough (kind_read (marshal_message (MsgResumeSession m)) "resume_session" /\ True) as [H _] by exact H.
  begin_read ResumeSession_schema ResumeSession_members ResumeSession_of m "resume_session". exact I.
Qed.

Lemma session_resumed_kind m at_ :
  message_wf (MsgSessionResumed m) at_ -> kind_read (marshal_message (MsgSessionResumed m)) "session_resumed".
Proof.
  destruct m as [v k sid q r c]. simpl. intros (-> & -> & Hsid & Hq & Hr & Hc).
  set (m := MkSessionResumed 1 "session_resumed" sid q r c).
  enough (kind_read (marshal_message (MsgSessionResumed m)) "session_resumed" /\ True) as [H _] by exact H.
  begin_read SessionResumed_schema SessionResumed_members SessionResumed_of m "session_resumed". exact I.
Qed.
