(* ===== verification/SessTable.v ===== *)
(** * SessTable: the streams of one Gateway session

    The stream table of [internal/gateway/session.go]: opening, detaching and
    failing streams, data and half-close on them, and the handlers' reads.  The
    Go code shares stream objects between the table and the handlers that read
    them and shares two budgets between all streams; so the streams live in a
    store, the table [sess.streams] is the set of ids routed to it, and every
    operation runs on a stream with the shared budgets loaded into it. *)

From S2P Require Import Prelude Control Budget Window GwLimits GwStream.
Import Budget.Gateway.

Record tunnel := MkTunnel {
  tn_stream : stream;
  tn_window : option Window;        (* nil on v1 sessions and UDP flows *)
}.

Record table := MkTable {
  tb_store : gmap Z tunnel;
  tb_streams : gset Z;
  tb_nextID : Z;                    (* uint32 *)
  tb_session : ByteBudget;
  tb_global : ByteBudget;
  tb_rejects : Z;
}.

Definition newTable (queueBudget globalBudget : ByteBudget) (nextID rejects : Z) : table :=
  MkTable ∅ ∅ nextID queueBudget globalBudget rejects.

(** Load and store the shared budgets around an operation on one stream. *)
Definition view (T : table) (s : stream) : stream :=
  set_budgets s (st_streamBudget s) (tb_session T) (tb_global T) (tb_rejects T) (st_panicked s).

Definition back (T : table) (id : Z) (w : option Window) (s : stream) : table :=
  MkTable (<[id := MkTunnel s w]> (tb_store T)) (tb_streams T) (tb_nextID T)
    (st_sessionBudget s) (st_globalBudget s) (st_rejects s).

Definition unroute (T : table) (ids : gset Z) : table :=
  MkTable (tb_store T) (tb_streams T ∖ ids) (tb_nextID T) (tb_session T) (tb_global T) (tb_rejects T).

(** [sess.streams[id]]. *)
Definition stream_at (T : table) (id : Z) : option tunnel :=
  if bool_decide (id ∈ tb_streams T) then tb_store T !! id else None.

(** The window of a new stream: the request headers' allowance. *)
Definition outbound_window : Window :=
  let w := Window.New (MaxWindowCreditBytes + HeaderAllowanceBytes) in
  match Window.Add w HeaderAllowanceBytes with Ok w' => w' | Err _ => w end.

(** The part of [openStreamTarget] under the session's mutex. *)
Definition open_locked (lim : Limits) (flowControlled : bool) (mode : string) (T : table)
  : result Z * table :=
  if MaxStreamsPerSession lim <=? Z.of_nat (size (tb_streams T))
  then (Err (ErrMsg "stream limit reached"), T)
  else
    let streamID := tb_nextID T in
    if streamID =? 0 then (Err (ErrMsg "stream ID exhausted"), T)
    else
      let datagram := String.eqb mode "udp" in
      let s := newStream streamID datagram (MaxStreamQueueFrames lim) (MaxStreamQueueBytes lim)
                 (tb_session T) (tb_global T) in
      let w := if flowControlled && negb datagram then Some outbound_window else None in
      (Ok streamID,
       MkTable (<[streamID := MkTunnel s w]> (tb_store T)) ({[streamID]} ∪ tb_streams T)
         (u32 (streamID + 1)) (tb_session T) (tb_global T) (tb_rejects T)).

(** [stream.enqueue] from [handleData]. *)
Definition enqueue_at (T : table) (id : Z) (tn : tunnel) (payload : bytes) : result unit * table :=
  let '(r, s) := enqueue (view T (tn_stream tn)) payload in (r, back T id (tn_window tn) s).

Definition half_close_at (T : table) (id : Z) (tn : tunnel) : table :=
  back T id (tn_window tn) (halfClose (view T (tn_stream tn))).

Definition detachStream (T : table) (id : Z) (err : option error) : bool * table :=
  let T' := unroute T {[id]} in
  match stream_at T id with
  | None => (false, T')
  | Some tn =>
    let s := releaseQueuedChunks (finish (view T' (tn_stream tn)) err) in
    (true, back T' id ((fun w => Window.Close w err) <$> tn_window tn) s)
  end.

Definition fail_tunnel (T : table) (err : option error) (tn : tunnel) : tunnel :=
  MkTunnel (finish (view T (tn_stream tn)) err) ((fun w => Window.Close w err) <$> tn_window tn).

(** [failAll]: [finish] touches no budget. *)
Definition failAll (T : table) (err : option error) : table :=
  MkTable (map_imap (fun id tn => Some (if bool_decide (id ∈ tb_streams T) then fail_tunnel T err tn else tn))
             (tb_store T))
    ∅ (tb_nextID T) (tb_session T) (tb_global T) (tb_rejects T).

(** ** Accounting *)

Definition held_by (tn : tunnel) : Z := zlen (retained_of (tn_stream tn) None).

Abbreviation total_held := (total held_by).

Lemma held_by_nonneg tn : 0 <= held_by tn.
Proof. apply zlen_nonneg. Qed.

Lemma total_held_nonneg (m : gmap Z tunnel) : 0 <= total_held m.
Proof. apply total_nonneg. intros. apply held_by_nonneg. Qed.

(** A stream of the store, the shared budgets left out. *)
Record tunnel_ok (tn : tunnel) : Prop := TunnelOk {
  to_shape : shape_ok (tn_stream tn) None;
  to_budget : budget_ok (st_streamBudget (tn_stream tn));
  to_used : b_used (st_streamBudget (tn_stream tn)) = held_by tn;
  to_panicked : st_panicked (tn_stream tn) = false;
}.

Record table_ok (maxStreams limit : Z) (T : table) : Prop := TableOk {
  tk_session : budget_ok (tb_session T);
  tk_limit : b_limit (tb_session T) = limit;
  tk_global : budget_ok (tb_global T);
  tk_tunnels : forall id tn, tb_store T !! id = Some tn -> tunnel_ok tn;
  tk_total : b_used (tb_session T) = total_held (tb_store T);
  tk_shared : total_held (tb_store T) <= b_used (tb_global T);
  tk_routed : tb_streams T ⊆ dom (tb_store T);
  tk_next : is_u32 (tb_nextID T);
  tk_ids : forall id, id ∈ dom (tb_store T) -> 0 < id < 2 ^ 32 /\ (tb_nextID T = 0 \/ id < tb_nextID T);
  tk_size : Z.of_nat (size (tb_streams T)) <= Z.max 0 maxStreams;
}.

(** *** One stream's operation inside the table *)

Definition solo (s : stream) (readerDone : bool) : sys := MkSys s None [] [] [] 0 readerDone.

Section Ops.
Context (maxStreams limit : Z).

Lemma view_ok T id tn dn :
  table_ok maxStreams limit T -> tb_store T !! id = Some tn -> sys_ok (solo (view T (tn_stream tn)) dn).
Proof.
  intros HT Hid. destruct (tk_tunnels _ _ _ HT id tn Hid) as [Hs Hb Hu Hp].
  pose proof (total_delete held_by _ _ _ Hid) as Ht. pose proof (total_held_nonneg (delete id (tb_store T))).
  pose proof (tk_total _ _ _ HT). pose proof (tk_shared _ _ _ HT).
  split; [by apply (same_queue_shape (tn_stream tn)); [split_and! |] |].
  change (held (solo (view T (tn_stream tn)) dn)) with (held_by tn).
  unfold covers. simpl. destruct HT. split_and!; done || lia.
Qed.

(** A tunnel put back after its budgets moved by what it holds. *)
Lemma back_ok T id tn w s d :
  table_ok maxStreams limit T -> tb_store T !! id = Some tn ->
  sys_ok (solo s false) -> shifts (view T (tn_stream tn)) s d -> d = zlen (retained_of s None) - held_by tn ->
  table_ok maxStreams limit (back T id w s).
Proof.
  intros HT Hid [Hs Hc] (D1 & D2 & D3 & Hp) Hd.
  destruct (tk_tunnels _ _ _ HT id tn Hid) as [Hs0 Hb0 Hu0 Hp0].
  assert (Ht : total_held (<[id := MkTunnel s w]> (tb_store T)) = total_held (tb_store T) + d).
  { rewrite total_insert, (total_delete _ _ _ _ Hid), Hd. unfold held_by at 1. simpl. lia. }
  pose proof (total_held_nonneg (<[id := MkTunnel s w]> (tb_store T))).
  pose proof (tk_total _ _ _ HT). pose proof (tk_shared _ _ _ HT).
  assert (Hdom : dom (<[id := MkTunnel s w]> (tb_store T)) = dom (tb_store T)).
  { rewrite dom_insert_L. apply elem_of_dom_2 in Hid. set_solver. }
  unfold moved in D1, D2, D3. simpl in *. destruct_and!. destruct HT.
  split; simpl; rewrite ?Hdom; try done; try lia; try congruence.
  intros j tn' Hj. apply lookup_insert_Some in Hj as [[<- <-]|[_ Hj]]; [| by eauto].
  split; simpl; try done; [unfold held_by; simpl; lia | congruence].
Qed.

Lemma run_ok b T id tn w dn y :
  table_ok maxStreams limit T -> tb_store T !! id = Some tn ->
  steps (local_step b) (solo (view T (tn_stream tn)) dn) y -> y_finishing y = None ->
  table_ok maxStreams limit (back T id w (y_stream y)).
Proof.
  intros HT Hid Hr Hf.
  destruct (local_run_ok _ _ _ (view_ok _ _ _ dn HT Hid) Hr) as (Hy & Hd & _).
  eapply back_ok; [done | done | | exact Hd |].
  - unfold sys_ok in *. unfold held, retained in *. by rewrite Hf in Hy.
  - unfold held, retained. by rewrite Hf.
Qed.

Lemma unroute_ok T ids : table_ok maxStreams limit T -> table_ok maxStreams limit (unroute T ids).
Proof.
  intros []. split; simpl; try done; [set_solver |].
  etransitivity; [| exact tk_size0]. apply inj_le. apply subseteq_size. set_solver.
Qed.

(** *** [finish] moves no budget *)

Definition same_budgets (s s' : stream) : Prop :=
  st_streamBudget s' = st_streamBudget s /\ st_sessionBudget s' = st_sessionBudget s /\
  st_globalBudget s' = st_globalBudget s /\ st_rejects s' = st_rejects s.

Lemma finish_budgets s err : same_budgets s (finish s err).
Proof.
  unfold finish. destruct (st_closed s); [done |].
  assert (D : forall n u tail, same_budgets u (finish_drain n u tail).1).
  { induction n as [|n IH]; intros u tail; [done |]. simpl. unfold finish_take.
    destruct (st_incoming u) as [|p q]; [done |].
    destruct (st_datagram u);
      (match goal with |- context [finish_drain n ?v ?x] => pose proof (IH v x) as H end; exact H). }
  specialize (D (length (st_incoming s)) (finish_begin s) []).
  destruct (finish_drain _ _ _) as [u tail]. exact D.
Qed.

Lemma finish_run s err dn :
  sys_ok (solo s dn) ->
  steps (local_step false) (solo s dn) (solo (finish s err) dn) /\ sys_ok (solo (finish s err) dn) /\
  zlen (retained_of (finish s err) None) = zlen (retained_of s None) /\
  st_terminalReady (finish s err) = true /\ st_incoming (finish s err) = [].
Proof.
  intros Hs.
  assert (Hr : steps (local_step false) (solo s dn) (solo (finish s err) dn)).
  { destruct (st_closed s) eqn:E; [unfold finish; rewrite E; apply steps_refl |].
    by apply (finish_steps false (solo s dn) err). }
  destruct (local_run_ok _ _ _ Hs Hr) as ([Hsh Hc] & Hd & _).
  destruct (finish_budgets s err) as (B1 & _). destruct Hd as ((_ & _ & Hu) & _). simpl in *. rewrite B1 in Hu.
  assert (Hready : st_terminalReady (finish s err) = true).
  { unfold finish. destruct (st_closed s) eqn:E.
    - destruct Hs as [Hs _]. apply (sh_closed _ _ Hs) in E as [[]|]; done.
    - by destruct (finish_drain _ _ _). }
  split; [done | split; [by split |]]. unfold held, retained in Hu. simpl in Hu.
  split; [lia | split; [done | by apply (sh_ready _ _ Hsh)]].
Qed.

Lemma finish_at_ok T id tn w err :
  table_ok maxStreams limit T -> tb_store T !! id = Some tn ->
  table_ok maxStreams limit (back T id w (finish (view T (tn_stream tn)) err)).
Proof.
  intros HT Hid. destruct (finish_run _ err false (view_ok _ _ _ false HT Hid)) as (Hr & _).
  by apply (run_ok _ _ _ _ _ _ _ HT Hid Hr).
Qed.

(** *** The table's operations *)

Lemma open_locked_ok lim flow mode T :
  table_ok (MaxStreamsPerSession lim) limit T -> is_i64 (MaxStreamQueueBytes lim) ->
  table_ok (MaxStreamsPerSession lim) limit (open_locked lim flow mode T).2 /\
  forall id, (open_locked lim flow mode T).1 = Ok id ->
    id = tb_nextID T /\ id ∉ dom (tb_store T) /\ id <> 0 /\ id ∈ tb_streams (open_locked lim flow mode T).2.
Proof.
  intros HT Hb. unfold open_locked.
  destruct (MaxStreamsPerSession lim <=? Z.of_nat (size (tb_streams T))) eqn:Em; [done |].
  destruct (tb_nextID T =? 0) eqn:En; [done |]. bool_facts. simpl.
  set (id := tb_nextID T) in *. set (tn := MkTunnel _ _).
  assert (Hfresh : id ∉ dom (tb_store T)).
  { intros Hin. apply (tk_ids _ _ _ HT) in Hin. unfold id in *. lia. }
  apply not_elem_of_dom in Hfresh as Hnone. destruct HT.
  split.
  - assert (Htn : tunnel_ok tn).
    { split; [| | done | done].
      - split; simpl; try done; try lia. by split; [| intros [[]|[=]]].
      - simpl. unfold budget_ok. simpl. split_and!; try done; by left. }
    assert (Ht : total_held (<[id := tn]> (tb_store T)) = total_held (tb_store T)).
    { rewrite total_fresh by done. pose proof (to_used _ Htn) as Hu. simpl in Hu. lia. }
    split; simpl; rewrite ?Ht; try done.
    + intros j tn' Hj. apply lookup_insert_Some in Hj as [[<- <-]|[_ Hj]]; [done | by eauto].
    + rewrite dom_insert_L. set_solver.
    + apply u32_is.
    + intros j Hj. rewrite dom_insert_L in Hj. unfold is_u32 in tk_next0. fold id in tk_next0, tk_ids0.
      assert (Hw : u32 (id + 1) = 0 \/ u32 (id + 1) = id + 1 /\ id + 1 < 2 ^ 32).
      { unfold u32. destruct (decide (id + 1 = 2 ^ 32)) as [->|]; [by left | right].
        rewrite Z.mod_small by lia. lia. }
      apply elem_of_union in Hj as [Hj|Hj]; [apply elem_of_singleton in Hj as ->; lia |].
      apply tk_ids0 in Hj. lia.
    + rewrite size_union by set_solver. rewrite size_singleton. lia.
  - intros j [= <-]. split_and!; [done | done | done | set_solver].
Qed.

Lemma stream_at_store T id tn : stream_at T id = Some tn -> tb_store T !! id = Some tn.
Proof. unfold stream_at. by case_bool_decide. Qed.

Lemma enqueue_at_ok T id tn payload :
  table_ok maxStreams limit T -> tb_store T !! id = Some tn ->
  table_ok maxStreams limit (enqueue_at T id tn payload).2.
Proof.
  intros HT Hid. unfold enqueue_at. destruct (enqueue _ payload) as [r s] eqn:E.
  apply (run_ok true T id tn (tn_window tn) false
    (MkSys s None (if is_ok r then [payload] else []) [] [] 0 false) HT Hid); [| done].
  eapply steps_snoc; [apply steps_refl |]. by apply (s_enqueue true (solo _ false) payload).
Qed.

Lemma half_close_at_ok T id tn :
  table_ok maxStreams limit T -> tb_store T !! id = Some tn -> table_ok maxStreams limit (half_close_at T id tn).
Proof. intros. by apply finish_at_ok. Qed.

(** After [finish] nothing is queued, so [releaseQueuedChunks] finds nothing. *)
Lemma detach_finished T id tn err :
  table_ok maxStreams limit T -> tb_store T !! id = Some tn ->
  releaseQueuedChunks (finish (view T (tn_stream tn)) err) = finish (view T (tn_stream tn)) err.
Proof.
  intros HT Hid. destruct (finish_run _ err false (view_ok _ _ _ false HT Hid)) as (_ & _ & _ & _ & Hi).
  by apply releaseQueuedChunks_empty.
Qed.

Lemma detachStream_ok T id err :
  table_ok maxStreams limit T -> table_ok maxStreams limit (detachStream T id err).2.
Proof.
  intros HT. unfold detachStream. pose proof (unroute_ok _ {[id]} HT) as HT'.
  destruct (stream_at T id) as [tn|] eqn:E; [| done]. apply stream_at_store in E.
  cbn [snd]. rewrite (detach_finished _ id) by done. by apply finish_at_ok.
Qed.

Lemma fail_tunnel_ok T id err tn :
  table_ok maxStreams limit T -> tb_store T !! id = Some tn ->
  tunnel_ok (fail_tunnel T err tn) /\ held_by (fail_tunnel T err tn) = held_by tn.
Proof.
  intros HT Hid. destruct (finish_run _ err false (view_ok _ _ _ false HT Hid)) as (_ & [Hs Hc] & Hz & _).
  unfold covers in Hc. destruct_and! Hc. split; [| exact Hz]. by split.
Qed.

Lemma failAll_ok T err : table_ok maxStreams limit T -> table_ok maxStreams limit (failAll T err).
Proof.
  intros HT. unfold failAll. set (m := map_imap _ _).
  assert (Hl : forall id tn, m !! id = Some tn -> exists tn0, tb_store T !! id = Some tn0 /\
            tunnel_ok tn /\ held_by tn = held_by tn0).
  { intros id tn Hm. unfold m in Hm. rewrite map_lookup_imap in Hm.
    destruct (tb_store T !! id) as [tn0|] eqn:E; [| done]. simpl in Hm. injection Hm as <-. exists tn0.
    split; [done |]. case_bool_decide; [by eapply fail_tunnel_ok |]. split; [by eapply tk_tunnels | done]. }
  assert (Hd : dom m = dom (tb_store T)).
  { apply set_eq. intros id. rewrite !elem_of_dom. unfold m. rewrite map_lookup_imap.
    destruct (tb_store T !! id); simpl; split; intros [? ?]; eauto; done. }
  assert (Ht : total_held m = total_held (tb_store T)).
  { apply total_ext. intros id. destruct (m !! id) as [tn|] eqn:E.
    - destruct (Hl _ _ E) as (tn0 & -> & _ & Hh). simpl. by rewrite Hh.
    - destruct (tb_store T !! id) as [tn0|] eqn:E'; [| done].
      apply not_elem_of_dom in E. apply elem_of_dom_2 in E'. rewrite Hd in E. done. }
  destruct HT. split; simpl; rewrite ?Hd, ?Ht; try done.
  - intros id tn Hm. by destruct (Hl _ _ Hm) as (? & _ & ? & _).
  - change (set_size _) with (size (∅ : gset Z)). rewrite size_empty. lia.
Qed.
End Ops.
