(* ===== verification/GwSession.v ===== *)
(** * GwSession: one Agent session of the Gateway

    [session] of [internal/gateway/session.go] with [readProtocolFrame] of
    gateway.go: the read loop and its control and data handlers, opening and
    ending streams, the frame writer, heartbeat, credit, and the end of the
    session's authorization.

    The transport is a parameter: [net] answers each frame handed to the writer
    (no slot before the caller's deadline, expired in the queue, written, or a
    failed write).  The goroutines of a session meet only under its mutex and in
    the writer, which serves one request at a time; [session_step] takes one
    such operation at a time, in any order. *)

From S2P Require Import Prelude GoText GoTime Json StrictJson JsonMarshal Frame Contract Control.
From S2P Require Import ControlCodec Window Budget GwLimits GwStream Wire SessTable.
Import Budget.Gateway.

(** WebSocket close codes used here. *)
Definition StatusNormalClosure : Z := 1000.
Definition StatusProtocolError : Z := 1002.
Definition StatusInvalidFramePayloadData : Z := 1007.
Definition StatusPolicyViolation : Z := 1008.
Definition StatusMessageTooBig : Z := 1009.
Definition StatusInternalError : Z := 1011.
Definition StatusTryAgainLater : Z := 1013.

Definition errSessionWriterClosed : error := ErrSentinel "gateway session writer closed".

Definition closeViolation (code : Z) (reason : string) (err : error) : error := ErrClose code reason err.

(** [errors.As(err, **protocolCloseError)]: the first one of the wrap tree. *)
Fixpoint as_close (e : error) : option (Z * string) :=
  match e with
  | ErrClose code reason _ => Some (code, reason)
  | ErrMsg _ | ErrSentinel _ => None
  | ErrWrap _ i | ErrFrame i => as_close i
  | ErrWrap2 _ l r => match as_close l with Some c => Some c | None => as_close r end
  end.

Definition closeCodeFor (err : error) (fallback : Z) (fallbackReason : string) : Z * string :=
  match as_close err with Some c => c | None => (fallback, fallbackReason) end.

(** What [conn.Read] returns. *)
Inductive conn_read :=
| ReadErr (tooBig : bool) (err : error)
| ReadMsg (binary : bool) (payload : bytes).

Definition readProtocolFrame (r : conn_read) : result Frame :=
  match r with
  | ReadErr true err => Err (closeViolation StatusMessageTooBig "frame exceeds limit" err)
  | ReadErr false err => Err err
  | ReadMsg false _ =>
    Err (closeViolation StatusInvalidFramePayloadData "invalid frame payload data"
           (ErrMsg "protocol requires binary websocket messages"))
  | ReadMsg true payload =>
    match DecodeFrame payload with
    | Ok frame => Ok frame
    | Err err =>
      Err (if errors_as_frame err
           then closeViolation StatusProtocolError "protocol error" err
           else closeViolation StatusInvalidFramePayloadData "invalid frame payload data" err)
    end
  end.

(** ** State *)

(** Fixed at construction. *)
Record identity := MkIdentity {
  id_device : string;
  id_session : string;
  id_authorization : string;
  id_token : string;
  id_expiresAt : instant;
  id_halfClose : bool;             (* supportsHalfClose *)
  id_flow : bool;                  (* flowControlled *)
}.

Record writer := MkWriter {
  wr_outbound : Z;                 (* uint64 *)
  wr_wire : list bytes;            (* frames written to the connection *)
  wr_requests : nat;               (* frames handed to the writer *)
  wr_publicBytes : Z;
}.

Record session := MkSession {
  ss_id : identity;
  ss_table : table;                (* streams, nextID, queueBudget *)
  ss_writer : writer;
  ss_inbound : SequenceTracker;
  ss_lastSeen : instant;
  ss_authorized : bool;
  ss_pendingPing : string * instant;
  ss_pingLatency : Z;
  ss_resumeChallenge : string;
  ss_resumeArmed : bool;
  ss_terminated : bool;            (* authorizationTerminateOnce *)
  ss_done : bool;
  ss_closed : option (Z * string); (* the close frame, sent once *)
  ss_healthReports : Z;
  ss_agentBytes : Z;
}.

Definition newSession (lim : Limits) (who : identity) (globalBudget : ByteBudget) (rejects : Z)
    (inbound : SequenceTracker) (lastOutbound : Z) (resumeChallenge : string) (now : instant) : session :=
  MkSession who (newTable (NewByteBudget (MaxSessionQueueBytes lim)) globalBudget 1 rejects)
    (MkWriter lastOutbound [] 0 0) inbound now true (EmptyString, 0) 0 resumeChallenge true false
    false None 0 0.

Definition with_table (s : session) (T : table) : session :=
  MkSession (ss_id s) T (ss_writer s) (ss_inbound s) (ss_lastSeen s) (ss_authorized s)
    (ss_pendingPing s) (ss_pingLatency s) (ss_resumeChallenge s) (ss_resumeArmed s) (ss_terminated s)
    (ss_done s) (ss_closed s) (ss_healthReports s) (ss_agentBytes s).
Definition with_writer (s : session) (w : writer) : session :=
  MkSession (ss_id s) (ss_table s) w (ss_inbound s) (ss_lastSeen s) (ss_authorized s)
    (ss_pendingPing s) (ss_pingLatency s) (ss_resumeChallenge s) (ss_resumeArmed s) (ss_terminated s)
    (ss_done s) (ss_closed s) (ss_healthReports s) (ss_agentBytes s).
Definition with_seen (s : session) (inbound : SequenceTracker) (lastSeen : instant) : session :=
  MkSession (ss_id s) (ss_table s) (ss_writer s) inbound lastSeen (ss_authorized s)
    (ss_pendingPing s) (ss_pingLatency s) (ss_resumeChallenge s) (ss_resumeArmed s) (ss_terminated s)
    (ss_done s) (ss_closed s) (ss_healthReports s) (ss_agentBytes s).
Definition with_ping (s : session) (pending : string * instant) (latency : Z) : session :=
  MkSession (ss_id s) (ss_table s) (ss_writer s) (ss_inbound s) (ss_lastSeen s) (ss_authorized s)
    pending latency (ss_resumeChallenge s) (ss_resumeArmed s) (ss_terminated s)
    (ss_done s) (ss_closed s) (ss_healthReports s) (ss_agentBytes s).
Definition with_end (s : session) (done_ : bool) (closed : option (Z * string)) : session :=
  MkSession (ss_id s) (ss_table s) (ss_writer s) (ss_inbound s) (ss_lastSeen s) (ss_authorized s)
    (ss_pendingPing s) (ss_pingLatency s) (ss_resumeChallenge s) (ss_resumeArmed s) (ss_terminated s)
    done_ closed (ss_healthReports s) (ss_agentBytes s).
Definition with_authority (s : session) (authorized terminated : bool) : session :=
  MkSession (ss_id s) (ss_table s) (ss_writer s) (ss_inbound s) (ss_lastSeen s) authorized
    (ss_pendingPing s) (ss_pingLatency s) (ss_resumeChallenge s) (ss_resumeArmed s) terminated
    (ss_done s) (ss_closed s) (ss_healthReports s) (ss_agentBytes s).
Definition with_counts (s : session) (healthReports agentBytes : Z) : session :=
  MkSession (ss_id s) (ss_table s) (ss_writer s) (ss_inbound s) (ss_lastSeen s) (ss_authorized s)
    (ss_pendingPing s) (ss_pingLatency s) (ss_resumeChallenge s) (ss_resumeArmed s) (ss_terminated s)
    (ss_done s) (ss_closed s) healthReports agentBytes.

Definition fail_all (s : session) (err : error) : session := with_table s (failAll (ss_table s) (Some err)).

(** [close]: [signalClosed], and the close frame once.  The session's place in
    the Gateway's routing is modelled with the registry. *)
Definition close (s : session) (code : Z) (reason : string) : session :=
  with_end s true (match ss_closed s with None => Some (code, reason) | c => c end).

Definition forceClose (s : session) : session := with_end s true (ss_closed s).

(** [resumeInto]: the same identity on a fresh transport. *)
Definition resumeInto (lim : Limits) (s : session) (flowControlled : bool) (globalBudget : ByteBudget)
    (inbound : SequenceTracker) (resumeChallenge : string) (now : instant) : option session :=
  if negb (ss_authorized s) then None
  else
    let i := ss_id s in
    let who := MkIdentity (id_device i) (id_session i) (id_authorization i) (id_token i) (id_expiresAt i)
                 (id_halfClose i) flowControlled in
    Some (MkSession who
            (newTable (NewByteBudget (MaxSessionQueueBytes lim)) globalBudget (tb_nextID (ss_table s))
               (tb_rejects (ss_table s)))
            (MkWriter 0 [] 0 0) inbound now true (EmptyString, 0) 0 resumeChallenge true false
            false None (ss_healthReports s) (ss_agentBytes s)).

(** ** The writer *)

Definition writeQueued (s : session) (kind : Kind) (streamID : Z) (payload : bytes)
    (expired written : option error) : result unit * session :=
  match (if kind =? KindData then None else expired) with
  | Some err => (Err err, s)
  | None =>
    match NextSequence (wr_outbound (ss_writer s)) with
    | Err err => (Err err, close (fail_all s err) StatusPolicyViolation "sequence exhausted")
    | Ok sequence =>
      match EncodeFrame (MkFrame kind streamID sequence payload) with
      | Err err => (Err err, s)
      | Ok frame =>
        let w := ss_writer s in
        match written with
        | Some err =>
          (Err err,
           close (fail_all (with_writer s (MkWriter sequence (wr_wire w) (wr_requests w) (wr_publicBytes w))) err)
             StatusInternalError "protocol write failed")
        | None =>
          let sent := if kind =? KindData then u64 (wr_publicBytes w + zlen payload) else wr_publicBytes w in
          (Ok tt, with_writer s (MkWriter sequence (wr_wire w ++ [frame]) (wr_requests w) sent))
        end
      end
    end
  end.

(** What the caller of [sendFrame] is told: it awaits the fate of data. *)
Definition caller_result (kind : Kind) (late : option error) (r : result unit) : result unit :=
  match late with
  | Some err => if kind =? KindData then r else Err err
  | None => r
  end.

Lemma caller_result_Ok kind late r u : caller_result kind late r = Ok u -> r = Ok u.
Proof. unfold caller_result. destruct late; [destruct (kind =? KindData) |]; done. Qed.

Lemma caller_result_Err kind late r e : caller_result kind late r = Err e -> late = Some e \/ r = Err e.
Proof. unfold caller_result. destruct late; [destruct (kind =? KindData) |]; naive_solver. Qed.

Section Transport.
Context (net : nat -> answer).

(** A session whose [done] channel is closed serves no further request. *)
Definition sendFrame (s : session) (kind : Kind) (streamID : Z) (payload : bytes) : result unit * session :=
  if ss_done s then (Err errSessionWriterClosed, s)
  else
    let w := ss_writer s in
    let s' := with_writer s (MkWriter (wr_outbound w) (wr_wire w) (S (wr_requests w)) (wr_publicBytes w)) in
    match net (wr_requests w) with
    | NoSlot err => (Err err, s')
    | Served expired written late =>
      let sent := writeQueued s' kind streamID payload expired written in (caller_result kind late sent.1, sent.2)
    end.

Lemma sendFrame_served s kind id payload u s' :
  sendFrame s kind id payload = (Ok u, s') ->
  exists expired written, writeQueued (with_writer s (MkWriter (wr_outbound (ss_writer s)) (wr_wire (ss_writer s))
      (S (wr_requests (ss_writer s))) (wr_publicBytes (ss_writer s)))) kind id payload expired written = (Ok u, s').
Proof.
  unfold sendFrame. destruct (ss_done s); [done |]. destruct (net _) as [|expired written late]; [done |].
  intros H. exists expired, written. rewrite (surjective_pairing (writeQueued _ _ _ _ _ _)).
  injection H as H ->. by apply caller_result_Ok in H as ->.
Qed.

Definition sendControl (s : session) (streamID : Z) (message : control_message) : result unit * session :=
  sendFrame s KindControl streamID (marshal_message message).

Definition sendWindowUpdate (s : session) (streamID credit : Z) : result unit * session :=
  sendControl s streamID
    (MsgStreamWindowUpdate (MkStreamWindowUpdate ProtocolVersion "stream_window_update" credit)).

Definition sendDatagram (s : session) (streamID : Z) (packet : bytes) : result unit * session :=
  if MaxUDPDatagram <? zlen packet then (Err (ErrMsg "UDP datagram exceeds tunnel limit"), s)
  else sendFrame s KindData streamID packet.

(** ** Streams *)

Definition set_window (T : table) (id : Z) (w : Window) : table :=
  match tb_store T !! id with
  | None => T
  | Some tn => MkTable (<[id := MkTunnel (tn_stream tn) (Some w)]> (tb_store T)) (tb_streams T) (tb_nextID T)
                 (tb_session T) (tb_global T) (tb_rejects T)
  end.

(** [window.Take] of the stream object, when it does not wait. *)
Definition take_window (T : table) (id size : Z) : option (result table) :=
  match tb_store T !! id with
  | Some (MkTunnel _ (Some w)) =>
    if negb (take_valid w size) then Some (Err Window.ErrInvalid)
    else match take_locked w size with
         | TakeErr e => Some (Err e)
         | TakeOk w' => Some (Ok (set_window T id w'))
         | TakeWait _ => None
         end
  | _ => Some (Ok T)
  end.

Definition send_chunk (s : session) (streamID : Z) (paced : bool) (payload : bytes)
  : option (result bytes * session) :=
  let '(chunk, rest) := chunk_of payload in
  match (if paced then take_window (ss_table s) streamID (zlen chunk) else Some (Ok (ss_table s))) with
  | None => None
  | Some (Err e) => Some (Err e, s)
  | Some (Ok T) =>
    let '(r, s') := sendFrame (with_table s T) KindData streamID chunk in
    Some (match r with Ok _ => Ok rest | Err e => Err e end, s')
  end.

(** [sendBytes] while no [Take] has to wait; a wait ends with the context. *)
Fixpoint send_chunks (fuel : nat) (s : session) (streamID : Z) (paced : bool) (payload : bytes)
  : result unit * session :=
  match fuel with
  | O => (Ok tt, s)
  | S fuel' =>
    if zlen payload =? 0 then (Ok tt, s)
    else match send_chunk s streamID paced payload with
         | None => (Err err_context, s)
         | Some (Err e, s') => (Err e, s')
         | Some (Ok rest, s') => send_chunks fuel' s' streamID paced rest
         end
  end.

Definition sendBytes (s : session) (streamID : Z) (payload : bytes) : result unit * session :=
  if id_flow (ss_id s) then
    match stream_at (ss_table s) streamID with
    | None => (Err (ErrMsg "stream is not open"), s)
    | Some tn =>
      send_chunks (S (length payload)) s streamID
        (match tn_window tn with Some _ => true | None => false end) payload
    end
  else send_chunks (S (length payload)) s streamID false payload.

Definition finishStream (s : session) (streamID : Z) (err : option error) : session :=
  with_table s (detachStream (ss_table s) streamID err).2.

Definition closeStream (s : session) (streamID : Z) (reasonCode : string) : session :=
  let '(found, T) := detachStream (ss_table s) streamID (Some io_EOF) in
  let s' := with_table s T in
  if negb found then s'
  else (sendControl s' streamID (MsgStreamClose (MkStreamClose ProtocolVersion "stream_close" reasonCode))).2.

Definition errorStream (s : session) (streamID : Z) (code message : string) (retryable : bool) (err : error)
  : session :=
  let '(found, T) := detachStream (ss_table s) streamID (Some err) in
  let s' := with_table s T in
  if negb found then s'
  else (sendControl s' streamID
          (MsgStreamError (MkStreamError ProtocolVersion "stream_error" code (clip256 message) retryable))).2.

Definition halfCloseStream (s : session) (streamID : Z) : result unit * session :=
  if negb (id_halfClose (ss_id s)) then (Err (ErrMsg "agent does not support stream half-close"), s)
  else sendControl s streamID (MsgStreamHalfClose (MkStreamHalfClose ProtocolVersion "stream_half_close")).

(** [openStreamTarget]; [requestID] is [gateway.newID("request")]. *)
Definition openStreamTarget (lim : Limits) (s : session) (requestID : result string)
    (endpointID authorityID localEndpointID mode : string) : result Z * session :=
  match requestID with
  | Err e => (Err (ErrWrap "generate request ID" e), s)
  | Ok requestID =>
    let '(opened, T) := open_locked lim (id_flow (ss_id s)) mode (ss_table s) in
    let s0 := with_table s T in
    match opened with
    | Err e => (Err e, s0)
    | Ok streamID =>
      let message := MsgStreamOpen (MkStreamOpen ProtocolVersion "stream_open" endpointID authorityID
                                      localEndpointID requestID mode) in
      let '(r, s1) := sendControl s0 streamID message in
      match r with
      | Err e => (Err e, finishStream s1 streamID (Some e))
      | Ok _ =>
        if id_flow (ss_id s) && negb (String.eqb mode "udp") then
          let '(r2, s2) := sendWindowUpdate s1 streamID (InitialCredit (MaxStreamQueueBytes lim)) in
          match r2 with
          | Err e => (Err e, finishStream s2 streamID (Some e))
          | Ok _ => (Ok streamID, s2)
          end
        else (Ok streamID, s1)
      end
    end
  end.

Definition openStream lim s requestID (route : EndpointRouteAssignment) : result Z * session :=
  openStreamTarget lim s requestID (ra_endpoint_id route) (ra_assignment_id route)
    (ra_local_endpoint_id route) EmptyString.

Definition openPrivateStream lim s requestID endpointID grantID localEndpointID : result Z * session :=
  if negb (id_halfClose (ss_id s)) then (Err (ErrMsg "agent does not support private TCP streams"), s)
  else openStreamTarget lim s requestID endpointID grantID localEndpointID "tcp".

Definition openPrivateUDPFlow lim s requestID endpointID grantID localEndpointID : result Z * session :=
  openStreamTarget lim s requestID endpointID grantID localEndpointID "udp".

(** The reader of a stream returns its credit. *)
Definition grantCredits (s : session) (streamID size : Z) : session :=
  match tb_store (ss_table s) !! streamID with
  | Some (MkTunnel _ (Some _)) => if size <=? 0 then s else (sendWindowUpdate s streamID (u32 size)).2
  | _ => s
  end.

(** ** Frames from the Agent *)

Definition handleData (s : session) (frame : Frame) : result unit * session :=
  let id := fr_stream frame in
  match stream_at (ss_table s) id with
  | None =>
    if negb (id =? 0) && (id <? tb_nextID (ss_table s)) then (Ok tt, s)
    else (Err (ErrMsg "data for unknown stream"), s)
  | Some tn =>
    if st_datagram (tn_stream tn) && (MaxUDPDatagram <? zlen (fr_payload frame)) then
      (Ok tt, errorStream s id "resource_limit" "UDP datagram exceeds tunnel limit" false
                (ErrMsg "oversize Agent UDP datagram"))
    else
      let '(r, T) := enqueue_at (ss_table s) id tn (fr_payload frame) in
      let s' := with_table s T in
      match r with
      | Err e => (Ok tt, errorStream s' id "resource_limit" "stream response queue exhausted" true
                           (ErrWrap "inbound queue" e))
      | Ok _ => (Ok tt, with_counts s' (ss_healthReports s') (u64 (ss_agentBytes s' + zlen (fr_payload frame))))
      end
  end.

Definition handle_pong (s : session) (pong : Heartbeat) (now : instant) : session :=
  let '(id, sentAt) := ss_pendingPing s in
  if negb (String.eqb id EmptyString) && String.eqb (hb_ping_id pong) id
  then with_ping s (EmptyString, 0) (time_sub now sentAt)
  else s.

Definition handle_window_update (s : session) (streamID : Z) (credit : Z) : session :=
  match stream_at (ss_table s) streamID with
  | Some (MkTunnel _ (Some w)) =>
    match Window.Add w credit with
    | Ok w' => with_table s (set_window (ss_table s) streamID w')
    | Err e => errorStream s streamID "protocol_error" "invalid stream credit" false e
    end
  | _ => s
  end.

(** The switch of [handleControl] on a validated payload. *)
Definition dispatch_control (s : session) (kind : string) (streamID : Z) (payload : bytes) (now : instant)
  : result unit * session :=
  let decode fs (k : gmap string field_val -> result unit * session) :=
    match json_unmarshal fs payload with Ok m => k m | Err e => (Err e, s) end in
  if String.eqb kind "pong" then
    decode Heartbeat_schema (fun m => (Ok tt, handle_pong s (Heartbeat_of m) now))
  else if String.eqb kind "health_report" then
    decode HealthReport_schema (fun _ =>
      (Ok tt, with_counts (with_seen s (ss_inbound s) now) (u64 (ss_healthReports s + 1)) (ss_agentBytes s)))
  else if String.eqb kind "ping" then
    decode Heartbeat_schema (fun m =>
      sendControl s 0 (MsgHeartbeat (MkHeartbeat ProtocolVersion "pong" (hb_ping_id (Heartbeat_of m))
                                       EmptyString (stamp now))))
  else if String.eqb kind "stream_close" then (Ok tt, finishStream s streamID (Some io_EOF))
  else if String.eqb kind "stream_half_close" then
    (Ok tt, match stream_at (ss_table s) streamID with
            | None => s
            | Some tn => with_table s (half_close_at (ss_table s) streamID tn)
            end)
  else if String.eqb kind "stream_error" then
    decode StreamError_schema (fun _ => (Ok tt, finishStream s streamID (Some (ErrMsg "agent stream error"))))
  else if String.eqb kind "session_revoked" then
    (Err (ErrMsg "agent may not originate session_revoked"), s)
  else if String.eqb kind "stream_window_update" then
    if negb (id_flow (ss_id s)) then (Err (ErrMsg "stream_window_update outside a v2 session"), s)
    else decode StreamWindowUpdate_schema (fun m =>
           (Ok tt, handle_window_update s streamID (sw_credit_bytes (StreamWindowUpdate_of m))))
  else (Err (ErrMsg "unexpected agent control message"), s).

Definition handleControl (s : session) (frame : Frame) (now : instant) : result unit * session :=
  match ValidateControlPayload (fr_payload frame) (fr_stream frame) now with
  | Err e => (Err (closeViolation StatusInvalidFramePayloadData "invalid frame payload data" e), s)
  | Ok _ =>
    match json_unmarshal kind_schema (fr_payload frame) with
    | Err e => (Err e, s)
    | Ok m => dispatch_control s (get_string m "message_type") (fr_stream frame) (fr_payload frame) now
    end
  end.

(** The session's end on an error of its peer. *)
Definition end_session (s : session) (err : error) (code : Z * string) : session :=
  close (fail_all s err) code.1 code.2.

(** One pass of the loop of [run]; [true]: the loop goes on. *)
Definition run_once (s : session) (r : conn_read) (now : instant) : bool * session :=
  match readProtocolFrame r with
  | Err e => (false, end_session s e (closeCodeFor e StatusNormalClosure "session ended"))
  | Ok frame =>
    match Accept (ss_inbound s) (fr_seq frame) with
    | Err e => (false, end_session s e (StatusProtocolError, "sequence violation"))
    | Ok inbound =>
      let s1 := with_seen s inbound now in
      if fr_kind frame =? KindControl then
        match handleControl s1 frame now with
        | (Err e, s2) => (false, end_session s2 e (closeCodeFor e StatusPolicyViolation "control violation"))
        | (Ok _, s2) => (true, s2)
        end
      else if fr_kind frame =? KindData then
        match handleData s1 frame with
        | (Err e, s2) => (false, end_session s2 e (StatusPolicyViolation, "data violation"))
        | (Ok _, s2) => (true, s2)
        end
      else (false, end_session s1 (ErrMsg "unknown frame kind") (StatusProtocolError, "unknown frame kind"))
    end
  end.

(** ** The end of the authorization *)

(** [temporary] is [metadataTemporarilyUnavailable], defined with the metadata
    errors in {!SessAuth}. *)
Definition terminateAuthorization (temporary : error -> bool) (s : session) (reasonCode : string) (err : error)
  : session :=
  if ss_terminated s then s
  else
    let s1 := fail_all (with_authority s false true) err in
    let s2 :=
      if String.eqb reasonCode EmptyString then s1
      else (sendControl s1 0 (MsgSessionRevoked (MkSessionRevoked ProtocolVersion "session_revoked"
                                (id_authorization (ss_id s1)) reasonCode))).2 in
    if temporary err then close s2 StatusTryAgainLater "authorization metadata unavailable"
    else close s2 StatusPolicyViolation "authorization invalid".

Definition authorization_expiry (temporary : error -> bool) (s : session) : session :=
  terminateAuthorization temporary s "expired" (ErrMsg "session authorization expired").

(** One tick of [heartbeatLoop]: the revalidation's verdict and the new ping id. *)
Definition heartbeat_tick (temporary : error -> bool) (lim : Limits) (s : session)
    (verdict : string * option error) (pingID : result string) (now : instant) : session :=
  match verdict with
  | (reasonCode, Some err) => terminateAuthorization temporary s reasonCode err
  | (_, None) =>
    if IdleTimeout lim <? time_sub now (ss_lastSeen s) then
      end_session s (ErrMsg "agent session idle timeout") (StatusPolicyViolation, "idle timeout")
    else
      match pingID with
      | Err e => end_session s e (StatusInternalError, "heartbeat entropy unavailable")
      | Ok id =>
        let '(r, s') := sendControl s 0 (MsgHeartbeat (MkHeartbeat ProtocolVersion "ping" id (stamp now) EmptyString)) in
        match r with
        | Err e => end_session s' e (StatusInternalError, "heartbeat write failed")
        | Ok _ => with_ping s' (id, now) (ss_pingLatency s')
        end
      end
  end.
End Transport.

(** ** The session as a transition system *)

Section Steps.
Context (lim : Limits) (temporary : error -> bool).

(** What a handler does with its own stream: any run of its steps. *)
Definition handler_run (s : session) (id : Z) (s' : session) : Prop :=
  exists tn dn y, tb_store (ss_table s) !! id = Some tn /\
    steps (local_step false) (solo (view (ss_table s) (tn_stream tn)) dn) y /\ y_finishing y = None /\
    s' = with_table s (back (ss_table s) id (tn_window tn) (y_stream y)).

Inductive session_step : session -> session -> Prop :=
| se_read net s r now : ss_done s = false -> session_step s (run_once net s r now).2
| se_open net s requestID e a l mode : session_step s (openStreamTarget net lim s requestID e a l mode).2
| se_send net s id payload : is_u32 id -> session_step s (sendBytes net s id payload).2
| se_datagram net s id packet : is_u32 id -> session_step s (sendDatagram net s id packet).2
| se_half_close net s id : is_u32 id -> session_step s (halfCloseStream net s id).2
| se_close net s id reason : is_u32 id -> session_step s (closeStream net s id reason)
| se_error net s id code message retryable err : is_u32 id ->
    session_step s (errorStream net s id code message retryable err)
| se_credit net s id size : is_u32 id -> session_step s (grantCredits net s id size)
| se_handler s id s' : handler_run s id s' -> session_step s s'
| se_heartbeat net s verdict pingID now : session_step s (heartbeat_tick net temporary lim s verdict pingID now)
| se_expiry net s : session_step s (authorization_expiry net temporary s)
| se_force s : session_step s (forceClose s)
| se_others s b : budget_ok b -> total_held (tb_store (ss_table s)) <= b_used b ->
    session_step s (with_table s (MkTable (tb_store (ss_table s)) (tb_streams (ss_table s))
      (tb_nextID (ss_table s)) (tb_session (ss_table s)) b (tb_rejects (ss_table s)))).
End Steps.

(** ** What the session keeps *)

(** The frames on the wire are well-formed and a peer that accepted [start]
    accepts them all; nothing was skipped while the session is open. *)
Definition wire_ok (start : Z) (s : session) : Prop :=
  log_ok start (wr_outbound (ss_writer s)) (wr_wire (ss_writer s)) (ss_done s).

Record session_ok (maxStreams limit start : Z) (s : session) : Prop := SessionOk {
  so_table : table_ok maxStreams limit (ss_table s);
  so_wire : wire_ok start s;
}.

Section Preserved.
Context (maxStreams limit start : Z).
Notation good := (session_ok maxStreams limit start).

Lemma good_table s T : good s -> table_ok maxStreams limit T -> good (with_table s T).
Proof. intros [HT HW] H. by split. Qed.

Lemma good_fail_all s err : good s -> good (fail_all s err).
Proof. intros Hs. apply good_table; [done |]. apply failAll_ok, Hs. Qed.

(** Only the table and the writer matter, and closing asks for less. *)
Lemma good_frame s s' :
  good s -> ss_table s' = ss_table s -> ss_writer s' = ss_writer s ->
  (ss_done s = true -> ss_done s' = true) -> good s'.
Proof.
  intros [HT HW] ET EW Hd. split; [by rewrite ET |]. unfold wire_ok in *. rewrite EW. by eapply log_weaken.
Qed.

Lemma good_close s code reason : good s -> good (close s code reason).
Proof. intros H. by apply (good_frame s). Qed.

Lemma good_end s err code : good s -> good (end_session s err code).
Proof. intros H. by apply good_close, good_fail_all. Qed.

Lemma good_writeQueued s kind id payload expired written :
  good s -> ss_done s = false -> 0 <= kind < 256 -> is_u32 id ->
  good (writeQueued s kind id payload expired written).2.
Proof.
  intros Hs Hd Hk Hi. unfold writeQueued. destruct (if kind =? KindData then None else expired); [done |].
  destruct (NextSequence (wr_outbound (ss_writer s))) as [q|e] eqn:Hn; [| by apply good_close, good_fail_all].
  destruct (EncodeFrame _) as [frame|e] eqn:He; [| done].
  destruct written as [e|]; simpl.
  - assert (Hq : is_u64 q) by (eapply NextSequence_u64; [apply Hs | done]).
    apply (good_fail_all (close (with_writer s (MkWriter q (wr_wire (ss_writer s)) _ _)) _ _) e).
    split; [apply Hs | by eapply log_skip; [apply Hs |]].
  - split; [apply Hs |]. unfold wire_ok. cbn. rewrite Hd. eapply (log_snoc _ _ _ kind id); try done.
    destruct Hs as [_ HW]. unfold wire_ok in HW. by rewrite Hd in HW.
Qed.

Section Net.
Context (net : nat -> answer).

Lemma good_sendFrame s kind id payload :
  good s -> 0 <= kind < 256 -> is_u32 id -> good (sendFrame net s kind id payload).2.
Proof.
  intros Hs Hk Hi. unfold sendFrame. destruct (ss_done s) eqn:Hd; [done |].
  set (s' := with_writer s _). assert (Hs' : good s') by (destruct Hs as [? []]; by split).
  destruct (net _); [done |]. by apply good_writeQueued.
Qed.

Lemma good_sendControl s id m : good s -> is_u32 id -> good (sendControl net s id m).2.
Proof. intros. by apply good_sendFrame. Qed.

Lemma good_finishStream s id err : good s -> good (finishStream s id err).
Proof. intros Hs. apply good_table; [done |]. apply detachStream_ok, Hs. Qed.

Lemma good_closeStream s id reason : good s -> is_u32 id -> good (closeStream net s id reason).
Proof.
  intros Hs Hi. unfold closeStream. pose proof (good_finishStream s id (Some io_EOF) Hs) as H.
  unfold finishStream in H. destruct (detachStream _ _ _) as [[] T]; simpl in *; [| done].
  by apply good_sendControl.
Qed.

Lemma good_errorStream s id code message retryable err :
  good s -> is_u32 id -> good (errorStream net s id code message retryable err).
Proof.
  intros Hs Hi. unfold errorStream. pose proof (good_finishStream s id (Some err) Hs) as H.
  unfold finishStream in H. destruct (detachStream _ _ _) as [[] T]; simpl in *; [| done].
  by apply good_sendControl.
Qed.

Lemma good_halfCloseStream s id : good s -> is_u32 id -> good (halfCloseStream net s id).2.
Proof. intros. unfold halfCloseStream. destruct (negb _); [done | by apply good_sendControl]. Qed.

Lemma good_grantCredits s id size : good s -> is_u32 id -> good (grantCredits net s id size).
Proof.
  intros. unfold grantCredits. destruct (_ !! _) as [[? [w|]]|]; [| done | done].
  destruct (size <=? 0); [done | by apply good_sendControl].
Qed.

(** *** Windows hold no bytes *)

Lemma set_window_ok T id w : table_ok maxStreams limit T -> table_ok maxStreams limit (set_window T id w).
Proof.
  intros HT. unfold set_window. destruct (tb_store T !! id) as [tn|] eqn:E; [| done].
  assert (Ht : total_held (<[id := MkTunnel (tn_stream tn) (Some w)]> (tb_store T)) = total_held (tb_store T)).
  { by rewrite total_insert, (total_delete _ _ _ _ E). }
  assert (Hd : dom (<[id := MkTunnel (tn_stream tn) (Some w)]> (tb_store T)) = dom (tb_store T)).
  { rewrite dom_insert_L. apply elem_of_dom_2 in E. set_solver. }
  destruct HT. split; simpl; rewrite ?Ht, ?Hd; try done.
  intros j tn' Hj. apply lookup_insert_Some in Hj as [[<- <-]|[_ Hj]]; [| by eauto].
  by destruct (tk_tunnels _ _ E).
Qed.

Lemma take_window_ok T id size T' :
  table_ok maxStreams limit T -> take_window T id size = Some (Ok T') -> table_ok maxStreams limit T'.
Proof.
  intros HT. unfold take_window. destruct (_ !! _) as [[? [w|]]|]; [| by intros [= <-] | by intros [= <-]].
  destruct (negb _); [done |]. destruct (take_locked w size); try done. intros [= <-]. by apply set_window_ok.
Qed.

Lemma good_send_chunk s id paced payload r s' :
  good s -> is_u32 id -> send_chunk net s id paced payload = Some (r, s') -> good s'.
Proof.
  intros Hs Hi. unfold send_chunk. destruct (chunk_of payload) as [chunk rest].
  destruct (if paced then _ else _) as [[T|e]|] eqn:Ew; [| by intros [= <- <-] | done].
  assert (HT : table_ok maxStreams limit T).
  { destruct paced; [eapply take_window_ok, Ew; apply Hs | injection Ew as <-; apply Hs]. }
  pose proof (good_sendFrame (with_table s T) KindData id chunk (good_table s T Hs HT) ltac:(done) Hi) as H.
  destruct (sendFrame _ _ _ _ _) as [x s1]. by intros [= <- <-].
Qed.

Lemma good_sendBytes s id payload : good s -> is_u32 id -> good (sendBytes net s id payload).2.
Proof.
  intros Hs Hi.
  assert (L : forall n s paced payload, good s -> good (send_chunks net n s id paced payload).2).
  { induction n as [|n IH]; intros s0 paced p H0; simpl; [done |]. destruct (zlen p =? 0); [done |].
    destruct (send_chunk net s0 id paced p) as [[[rest|e] s1]|] eqn:E; [| | done];
      pose proof (good_send_chunk _ _ _ _ _ _ H0 Hi E); [by apply IH | done]. }
  unfold sendBytes. destruct (id_flow (ss_id s)); [| by apply L].
  destruct (stream_at _ _); [by apply L | done].
Qed.

(** *** Frames *)

Lemma good_handleData s frame : good s -> is_u32 (fr_stream frame) -> good (handleData net s frame).2.
Proof.
  intros Hs Hi. unfold handleData. destruct (stream_at _ _) as [tn|] eqn:E; [| by case_match].
  destruct (_ && _); [by apply good_errorStream |]. apply stream_at_store in E.
  pose proof (enqueue_at_ok _ _ _ _ _ (fr_payload frame) (so_table _ _ _ _ Hs) E) as HT.
  destruct (enqueue_at _ _ _ _) as [[u|e] T]; simpl in *.
  - by apply (good_frame (with_table s T)); [apply good_table | ..].
  - by apply good_errorStream; [apply good_table |].
Qed.

Lemma good_window_update s id credit : good s -> is_u32 id -> good (handle_window_update net s id credit).
Proof.
  intros Hs Hi. unfold handle_window_update. destruct (stream_at _ _) as [[st [w|]]|]; try done.
  destruct (Window.Add w credit); [| by apply good_errorStream].
  apply good_table; [done |]. apply set_window_ok, Hs.
Qed.

Lemma good_dispatch s kind id payload now : good s -> is_u32 id -> good (dispatch_control net s kind id payload now).2.
Proof.
  intros Hs Hi. unfold dispatch_control.
  repeat (match goal with |- context [if ?b then _ else _] => destruct b end; try done);
    try (destruct (json_unmarshal _ _) as [m|e]; [| done]); cbn [snd].
  - unfold handle_pong. destruct (ss_pendingPing s). destruct (_ && _); [by apply (good_frame s) | done].
  - by apply (good_frame s).
  - by apply good_sendControl.
  - by apply good_finishStream.
  - destruct (stream_at _ _) as [tn|] eqn:E; [| done]. apply stream_at_store in E.
    apply good_table; [done |]. apply half_close_at_ok; [apply Hs | done].
  - by apply good_finishStream.
  - by apply good_window_update.
Qed.

Lemma good_handleControl s frame now : good s -> is_u32 (fr_stream frame) -> good (handleControl net s frame now).2.
Proof.
  intros Hs Hi. unfold handleControl. destruct (ValidateControlPayload _ _ _); [| done].
  destruct (json_unmarshal _ _); [by apply good_dispatch | done].
Qed.

Lemma good_run_once s r now : good s -> good (run_once net s r now).2.
Proof.
  intros Hs. unfold run_once. destruct (readProtocolFrame r) as [frame|e] eqn:Er; [| by apply good_end].
  assert (Hi : is_u32 (fr_stream frame)).
  { destruct r as [[]|[] payload]; try done. unfold readProtocolFrame in Er.
    destruct (DecodeFrame payload) as [f|] eqn:Ed; [| done]. injection Er as <-.
    apply decode_sound in Ed as [Hw _]. apply frame_wf_typed in Hw. apply Hw. }
  destruct (Accept _ _) as [inbound|e]; [| by apply good_end].
  set (s1 := with_seen s inbound now). assert (H1 : good s1) by by apply (good_frame s).
  destruct (fr_kind frame =? KindControl).
  - pose proof (good_handleControl s1 frame now H1 Hi) as H2.
    destruct (handleControl net s1 frame now) as [[]]; [done | by apply good_end].
  - destruct (fr_kind frame =? KindData); [| by apply good_end].
    pose proof (good_handleData s1 frame H1 Hi) as H2.
    destruct (handleData net s1 frame) as [[]]; [done | by apply good_end].
Qed.

(** *** The end of the authorization *)

Lemma good_terminate temporary s reason err : good s -> good (terminateAuthorization net temporary s reason err).
Proof.
  intros Hs. unfold terminateAuthorization. destruct (ss_terminated s); [done |].
  set (s1 := fail_all _ err).
  assert (H1 : good s1) by (apply good_fail_all; by apply (good_frame s)).
  assert (H2 : forall m, good (sendControl net s1 0 m).2) by (intros; by apply good_sendControl).
  destruct (String.eqb reason EmptyString); destruct (temporary err); by apply good_close.
Qed.

Lemma good_heartbeat temporary lim s verdict pingID now :
  good s -> good (heartbeat_tick net temporary lim s verdict pingID now).
Proof.
  intros Hs. unfold heartbeat_tick. destruct verdict as [reason [err|]]; [by apply good_terminate |].
  destruct (_ <? _); [by apply good_end |]. destruct pingID as [id|e]; [| by apply good_end].
  set (m := MsgHeartbeat _). assert (H2 : good (sendControl net s 0 m).2) by by apply good_sendControl.
  destruct (sendControl net s 0 m) as [[u|e] s']; [by apply (good_frame s') | by apply good_end].
Qed.
End Net.
End Preserved.

Section Reachable.
Context (lim : Limits) (temporary : error -> bool) (limit start : Z).
Hypothesis queue_i64 : is_i64 (MaxStreamQueueBytes lim).
Notation good := (session_ok (MaxStreamsPerSession lim) limit start).

Lemma good_open net s requestID e a l mode : good s -> good (openStreamTarget net lim s requestID e a l mode).2.
Proof using queue_i64.
  intros Hs. unfold openStreamTarget. destruct requestID as [rid|?]; [| done].
  destruct (open_locked_ok limit lim (id_flow (ss_id s)) mode (ss_table s) (so_table _ _ _ _ Hs) queue_i64)
    as [HT Hid].
  destruct (open_locked lim _ mode (ss_table s)) as [[id|err] T]; simpl in *.
  2: by apply good_table.
  assert (Hi : is_u32 id).
  { destruct (Hid id eq_refl) as (-> & _). apply (tk_next _ _ _ (so_table _ _ _ _ Hs)). }
  set (m := MsgStreamOpen _). pose proof (good_table _ _ _ s T Hs HT) as H0.
  pose proof (good_sendControl _ _ _ net _ id m H0 Hi) as H1.
  destruct (sendControl net (with_table s T) id m) as [[u|err] s1]; simpl in *; [| by apply good_finishStream].
  destruct (_ && _); [| done].
  pose proof (good_sendControl _ _ _ net s1 id (MsgStreamWindowUpdate (MkStreamWindowUpdate ProtocolVersion
    "stream_window_update" (InitialCredit (MaxStreamQueueBytes lim)))) H1 Hi) as H2.
  unfold sendWindowUpdate. destruct (sendControl net s1 id _) as [[] s2]; simpl in *; [done | by apply good_finishStream].
Qed.

Lemma good_step s s' : good s -> session_step lim temporary s s' -> good s'.
Proof using queue_i64.
  intros Hs H. destruct H.
  - by apply good_run_once.
  - by apply good_open.
  - by apply good_sendBytes.
  - unfold sendDatagram. destruct (_ <? _); [done | by apply good_sendFrame].
  - by apply good_halfCloseStream.
  - by apply good_closeStream.
  - by apply good_errorStream.
  - by apply good_grantCredits.
  - destruct H as (tn & dn & y & Hl & Hr & Hf & ->). apply good_table; [done |].
    by eapply run_ok; [apply Hs | ..].
  - by apply good_heartbeat.
  - by apply good_terminate.
  - by apply (good_frame _ _ _ s).
  - apply good_table; [done |]. pose proof (total_held_nonneg (tb_store (ss_table s))).
    destruct (so_table _ _ _ _ Hs). by split.
Qed.

Lemma good_new s who g rejects inbound lastOutbound challenge now :
  is_i64 (MaxSessionQueueBytes lim) -> budget_ok g -> is_u64 lastOutbound ->
  limit = MaxSessionQueueBytes lim -> start = lastOutbound ->
  s = newSession lim who g rejects inbound lastOutbound challenge now -> good s.
Proof.
  intros Hq Hg Hl -> -> ->. split.
  - split; simpl; try done; try lia.
    + unfold budget_ok. simpl. split_and!; try done. by left.
    + destruct Hg as (_ & Hu & _). change (total_held ∅) with 0. lia.
    + change (set_size _) with (size (∅ : gset Z)). rewrite size_empty. lia.
  - split; [done |]. by exists [], lastOutbound.
Qed.
End Reachable.

(** ** The ends of a session *)

Definition ended (s s' : session) : Prop :=
  tb_store (ss_table s') = tb_store (failAll (ss_table s) None) \/
  tb_store (ss_table s') = tb_store (ss_table s).

(** Every stream routed in [s] is finished in [s'], with nothing cut off. *)
Definition streams_finished (s s' : session) : Prop :=
  forall id tn, stream_at (ss_table s) id = Some tn ->
    exists tn', tb_store (ss_table s') !! id = Some tn' /\
      st_terminalReady (tn_stream tn') = true /\ held_by tn' = held_by tn.

Lemma failAll_lookup T err id tn :
  stream_at T id = Some tn -> tb_store (failAll T err) !! id = Some (fail_tunnel T err tn).
Proof.
  unfold stream_at. case_bool_decide as Hr; [| done]. intros Hl. simpl.
  by rewrite map_lookup_imap, Hl, bool_decide_eq_true_2.
Qed.

Lemma failAll_unrouted T err : tb_streams T = ∅ -> failAll T err = T.
Proof.
  intros He. unfold failAll. rewrite He. destruct T as [st ro n b1 b2 rj]; simpl in *. subst ro. f_equal.
  apply map_eq. intros id. rewrite map_lookup_imap. by destruct (st !! id).
Qed.

Section Ends.
Context (maxStreams limit start : Z).
Notation good := (session_ok maxStreams limit start).

Lemma finished_by_failAll s err id tn :
  good s -> stream_at (ss_table s) id = Some tn ->
  st_terminalReady (tn_stream (fail_tunnel (ss_table s) err tn)) = true /\
  held_by (fail_tunnel (ss_table s) err tn) = held_by tn.
Proof.
  intros [HT _] H. apply stream_at_store in H.
  destruct (finish_run _ err false (view_ok _ _ _ _ _ false HT H)) as (_ & _ & Hz & Hr & _). by split.
Qed.

Lemma end_finishes s err code : good s -> streams_finished s (end_session s err code).
Proof.
  intros Hs id tn H. exists (fail_tunnel (ss_table s) (Some err) tn).
  split; [by apply failAll_lookup | by eapply finished_by_failAll].
Qed.

(** A request to the writer leaves the table alone or fails every stream. *)
Lemma sendFrame_table net s kind id payload :
  let s' := (sendFrame net s kind id payload).2 in
  (ss_table s' = ss_table s /\ ss_done s' = ss_done s /\ ss_closed s' = ss_closed s) \/
  ((exists err, ss_table s' = failAll (ss_table s) (Some err)) /\ ss_done s' = true /\
   (ss_closed s = None -> exists code reason, ss_closed s' = Some (code, reason) /\
      (code = StatusPolicyViolation \/ code = StatusInternalError))).
Proof.
  unfold sendFrame. destruct (ss_done s) eqn:Hd; [by left |].
  destruct (net _) as [e|expired written late]; [by left |]. cbn [snd]. unfold writeQueued.
  destruct (if kind =? KindData then None else expired); [by left |].
  destruct (NextSequence _) as [q|e].
  - destruct (EncodeFrame _); [| by left]. destruct written as [e|]; [| by left].
    right. simpl. split_and!; [by eexists | done |]. intros ->. by eauto 6.
  - right. simpl. split_and!; [by eexists | done |]. intros ->. by eauto 6.
Qed.

(** A control frame the session dies of leaves its streams alone or fails them. *)
Lemma control_error_table net s frame now e s' :
  handleControl net s frame now = (Err e, s') ->
  s' = s \/ exists m, s' = (sendControl net s 0 m).2.
Proof.
  unfold handleControl. destruct (ValidateControlPayload _ _ _); [| intros [= <- <-]; by left].
  destruct (json_unmarshal _ _) as [m|]; [| intros [= <- <-]; by left].
  unfold dispatch_control.
  repeat (match goal with |- context [if ?b then _ else _] => destruct b end);
    try (destruct (json_unmarshal _ _) as [m'|]); intros H; try (injection H as <- <-; by left); try done.
  right. eexists. by rewrite H.
Qed.

Lemma end_after_send net s id m err code :
  good s -> is_u32 id -> streams_finished s (end_session (sendControl net s id m).2 err code).
Proof.
  intros Hs Hi. destruct (sendFrame_table net s KindControl id (marshal_message m)) as [(Ht & _ & _)|((e & Ht) & _)].
  - intros j tn H. rewrite <- Ht in H.
    apply (end_finishes (sendControl net s id m).2 err code); [by apply good_sendControl | done].
  - intros j tn H. exists (fail_tunnel (ss_table s) (Some e) tn).
    split; [| by eapply finished_by_failAll].
    change (ss_table (end_session ?x err code)) with (failAll (ss_table x) (Some err)).
    unfold sendControl. rewrite Ht, (failAll_unrouted (failAll _ _)) by done. by apply failAll_lookup.
Qed.

Lemma run_stop_streams net s r now s' :
  good s -> run_once net s r now = (false, s') ->
  ss_done s' = true /\ tb_streams (ss_table s') = ∅ /\ streams_finished s s'.
Proof.
  intros Hs. unfold run_once. destruct (readProtocolFrame r) as [frame|e].
  2: { intros [= <-]. split_and!; [done | done | by apply end_finishes]. }
  destruct (Accept _ _) as [inbound|e].
  2: { intros [= <-]. split_and!; [done | done | by apply end_finishes]. }
  set (s1 := with_seen s inbound now). assert (H1 : good s1) by by apply (good_frame _ _ _ s).
  assert (Hsame : forall s2, streams_finished s1 s2 -> streams_finished s s2) by done.
  destruct (fr_kind frame =? KindControl).
  - destruct (handleControl net s1 frame now) as [[u|e] s2] eqn:E; [done |]. intros [= <-].
    split_and!; [done | done |]. apply Hsame.
    apply control_error_table in E as [->|[m ->]]; [by apply end_finishes | by apply end_after_send].
  - destruct (fr_kind frame =? KindData).
    + destruct (handleData net s1 frame) as [[u|e] s2] eqn:E; [done |]. intros [= <-].
      split_and!; [done | done |]. apply Hsame. unfold handleData in E.
      destruct (stream_at _ _); [destruct (_ && _); [done |]; by destruct (enqueue_at _ _ _ _) as [[] ?] |].
      destruct (_ && _); [done |]. injection E as <- <-. by apply end_finishes.
    + intros [= <-]. split_and!; [done | done | by apply Hsame, end_finishes].
Qed.
End Ends.

(** *** The close-code table (contracts/v1/tunnel-protocol.md, section 11c)

    The errors of the transport are another package's, never a
    [*protocolCloseError]. *)

Definition plain_error (e : error) : Prop := as_close e = None.

Definition plain_answer (a : answer) : Prop :=
  match a with
  | NoSlot e => plain_error e
  | Served expired written late => (forall e, late = Some e -> plain_error e) /\
      (forall e, expired = Some e -> plain_error e) /\
                              (forall e, written = Some e -> plain_error e)
  end.

Definition permitted_codes (s : session) (r : conn_read) (now : instant) : list Z :=
  match r with
  | ReadErr true _ => [StatusMessageTooBig]
  | ReadErr false _ => [StatusNormalClosure]
  | ReadMsg false _ => [StatusInvalidFramePayloadData]
  | ReadMsg true payload =>
    match DecodeFrame payload with
    | Err e => if errors_as_frame e then [StatusProtocolError] else [StatusInvalidFramePayloadData]
    | Ok f =>
      if negb (is_ok (Accept (ss_inbound s) (fr_seq f))) then [StatusProtocolError]
      else if fr_kind f =? KindData then [StatusPolicyViolation]
      else if is_ok (ValidateControlPayload (fr_payload f) (fr_stream f) now)
      then [StatusPolicyViolation; StatusInternalError]
      else [StatusInvalidFramePayloadData]
    end
  end.

Lemma plain_fallback e code reason : plain_error e -> closeCodeFor e code reason = (code, reason).
Proof. unfold closeCodeFor. by intros ->. Qed.

Lemma reject_chain_plain {A} c t (k : result A) e :
  (reject_if c (ErrMsg t) ;? k) = Err e -> plain_error e \/ k = Err e.
Proof. destruct c; simpl; [intros [= <-]; by left | by right]. Qed.

Lemma EncodeFrame_plain f e : EncodeFrame f = Err e -> plain_error e.
Proof.
  unfold EncodeFrame. destruct (validateFrameFields f) as [u|e'] eqn:H; simpl; [done |]. intros [= <-].
  unfold validateFrameFields in H. do 3 (apply reject_chain_plain in H as [H|H]; [done |]).
  unfold reject_if in H. case_match; by simplify_eq.
Qed.

Lemma NextSequence_plain l e : NextSequence l = Err e -> plain_error e.
Proof. unfold NextSequence, reject_if. case_match; simpl; intros; by simplify_eq. Qed.

Lemma sendFrame_plain net s kind id payload e :
  (forall n, plain_answer (net n)) -> (sendFrame net s kind id payload).1 = Err e -> plain_error e.
Proof.
  intros Hn. unfold sendFrame. destruct (ss_done s); [by intros [= <-] |].
  pose proof (Hn (wr_requests (ss_writer s))) as Ha.
  destruct (net (wr_requests (ss_writer s))) as [e'|expired written late]; [by intros [= <-] |].
  destruct Ha as (Hlate & He & Hw). cbn [fst].
  intros [H|H]%caller_result_Err; [by apply Hlate |]. revert H. unfold writeQueued.
  destruct (if kind =? KindData then None else expired) as [e'|] eqn:Ex.
  { intros [= <-]. apply He. by destruct (kind =? KindData). }
  destruct (NextSequence _) as [q|e'] eqn:En; [| intros [= <-]; by eapply NextSequence_plain].
  destruct (EncodeFrame _) as [b|e'] eqn:Ee; [| intros [= <-]; by eapply EncodeFrame_plain].
  destruct written as [e'|]; [| done]. intros [= <-]. by apply Hw.
Qed.

(** What a control frame the session dies of leaves as its error. *)
Lemma control_error_plain net s frame now e s' :
  (forall n, plain_answer (net n)) -> is_ok (ValidateControlPayload (fr_payload frame) (fr_stream frame) now) = true ->
  handleControl net s frame now = (Err e, s') -> plain_error e.
Proof.
  intros Hn Hv. unfold handleControl. destruct (ValidateControlPayload _ _ _); [| done].
  assert (Hj : forall fs data e', json_unmarshal fs data = Err e' -> plain_error e').
  { intros fs data e'. unfold json_unmarshal. repeat case_match; intros; by simplify_eq. }
  destruct (json_unmarshal _ _) as [m|] eqn:Em; [| intros [= <- <-]; by eapply Hj].
  clear Em. unfold dispatch_control.
  repeat (match goal with |- context [if ?b then _ else _] => destruct b end);
    try (destruct (json_unmarshal _ _) as [m'|] eqn:Em'); intros H; try done;
    try (injection H as <- <-; first [by eapply Hj | done]).
  apply (sendFrame_plain net s KindControl 0 (marshal_message (MsgHeartbeat (MkHeartbeat ProtocolVersion "pong"
    (hb_ping_id (Heartbeat_of m')) EmptyString (stamp now))))); [done |]. unfold sendControl in H. by rewrite H.
Qed.

Lemma close_first s code reason : ss_closed s = None -> ss_closed (close s code reason) = Some (code, reason).
Proof. simpl. by intros ->. Qed.

Lemma run_stop_code net s r now s' :
  (forall n, plain_answer (net n)) -> (forall e, r = ReadErr false e -> plain_error e) ->
  ss_closed s = None -> run_once net s r now = (false, s') ->
  exists code reason, ss_closed s' = Some (code, reason) /\ code ∈ permitted_codes s r now.
Proof.
  intros Hn Hr Hc. unfold run_once, permitted_codes, end_session.
  destruct r as [[] e|[] payload]; simpl.
  - intros [= <-]. simpl. rewrite Hc. do 2 eexists. split; [done | by left].
  - intros [= <-]. rewrite plain_fallback by by apply Hr. simpl. rewrite Hc. do 2 eexists. split; [done | by left].
  - destruct (DecodeFrame payload) as [f|e] eqn:Edec.
    2: { intros [= <-]. destruct (errors_as_frame e); simpl; rewrite Hc; do 2 eexists; (split; [done | by left]). }
    destruct (Accept _ _) as [inbound|e]; simpl.
    2: { intros [= <-]. simpl. rewrite Hc. do 2 eexists. split; [done | by left]. }
    destruct (fr_kind f =? KindControl) eqn:Ek.
    + bool_facts. rewrite Ek. simpl. set (s1 := with_seen s inbound now).
      destruct (handleControl net s1 f now) as [[u|e] s2] eqn:E; [done |]. intros [= <-].
      destruct (is_ok (ValidateControlPayload (fr_payload f) (fr_stream f) now)) eqn:Ev.
      * rewrite plain_fallback by by eapply control_error_plain.
        apply control_error_table in E as [->|[m ->]].
        -- exists StatusPolicyViolation. simpl. rewrite Hc. eexists. split; [done | by left].
        -- destruct (sendFrame_table net s1 KindControl 0 (marshal_message m)) as [(_ & _ & H)|(_ & _ & H)].
           ++ exists StatusPolicyViolation. eexists. split; [apply close_first; simpl; unfold sendControl; by rewrite H | by left].
           ++ destruct (H Hc) as (code & reason & E & Hcode). exists code, reason.
              simpl. unfold sendControl. rewrite E. split; [done |].
              destruct Hcode as [-> | ->]; [by left | by right; left].
      * unfold handleControl in E. destruct (ValidateControlPayload _ _ _); [done |]. injection E as <- <-.
        simpl. rewrite Hc. do 2 eexists. split; [done | by left].
    + destruct (fr_kind f =? KindData) eqn:Ed.
      * set (s1 := with_seen s inbound now).
        destruct (handleData net s1 f) as [[u|e] s2] eqn:E; [done |]. intros [= <-].
        assert (s2 = s1) as ->.
        { unfold handleData in E. destruct (stream_at _ _).
          - destruct (_ && _); [done |]. by destruct (enqueue_at _ _ _ _) as [[] ?].
          - destruct (_ && _); by simplify_eq. }
        simpl. rewrite Hc. do 2 eexists. split; [done | by left].
      * intros [= <-]. exfalso. apply decode_sound in Edec as [(Hk & _) _]. bool_facts. naive_solver.
  - intros [= <-]. simpl. rewrite Hc. do 2 eexists. split; [done | by left].
Qed.

(** ** What a data frame can do *)

(** The store and the routing agree off [id]. *)
Definition off (id : Z) (T T' : table) : Prop :=
  forall j, j <> id -> tb_store T' !! j = tb_store T !! j /\ (j ∈ tb_streams T' <-> j ∈ tb_streams T).

(** [id] is torn down and keeps what it held for its reader. *)
Definition torn_down (id : Z) (tn : tunnel) (T' : table) : Prop :=
  id ∉ tb_streams T' /\ exists tn', tb_store T' !! id = Some tn' /\ held_by tn' = held_by tn /\
  st_terminalReady (tn_stream tn') = true.

Section DataFrames.
Context (maxStreams limit start : Z).
Notation good := (session_ok maxStreams limit start).

Lemma off_trans id T1 T2 T3 : off id T1 T2 -> off id T2 T3 -> off id T1 T3.
Proof. intros H1 H2 j Hj. destruct (H1 j Hj) as [E1 R1], (H2 j Hj) as [E2 R2]. split; [congruence | by rewrite R2]. Qed.

Lemma detach_off T id err tn :
  table_ok maxStreams limit T -> stream_at T id = Some tn ->
  (detachStream T id err).1 = true /\ off id T (detachStream T id err).2 /\
  torn_down id tn (detachStream T id err).2.
Proof.
  intros HT H. unfold detachStream. rewrite H. apply stream_at_store in H.
  pose proof (unroute_ok _ _ _ {[id]} HT) as HT'.
  cbn [fst snd]. rewrite (detach_finished _ _ _ id tn err HT') by done.
  destruct (finish_run _ err false (view_ok _ _ _ _ _ false HT' H)) as (_ & _ & Hz & Hr & _).
  split_and!; [done | |].
  - intros j Hj. simpl. rewrite lookup_insert_ne by done. split; [done |]. set_solver.
  - split; [simpl; set_solver |]. eexists. simpl. rewrite lookup_insert_eq. by split_and!.
Qed.

(** A send that leaves the session open touches no stream; one that ends it
    fails them all. *)
Lemma send_torn_down net s id m tn :
  good s -> torn_down id tn (ss_table s) -> torn_down id tn (ss_table (sendControl net s id m).2).
Proof.
  intros Hs (Hr & tn' & Hl & Hh & Ht).
  destruct (sendFrame_table net s KindControl id (marshal_message m)) as [(E & _)|((e & E) & _)];
    unfold sendControl; rewrite E; [by split; [| exists tn'] |].
  split; [set_solver |]. exists tn'. simpl. rewrite map_lookup_imap, Hl. simpl.
  by rewrite bool_decide_eq_false_2.
Qed.

Lemma error_stream_off net s id code message retryable err tn :
  good s -> is_u32 id -> stream_at (ss_table s) id = Some tn ->
  let s' := errorStream net s id code message retryable err in
  torn_down id tn (ss_table s') /\
  (ss_done s' = false -> off id (ss_table s) (ss_table s')).
Proof.
  intros Hs Hi H. destruct (detach_off _ _ (Some err) _ (so_table _ _ _ _ Hs) H) as (Hf & Ho & Ht).
  unfold errorStream. pose proof (good_finishStream _ _ _ s id (Some err) Hs) as Hg. unfold finishStream in Hg.
  destruct (detachStream _ _ _) as [found T]. cbn [fst snd] in *. subst found. cbn [negb].
  set (m := MsgStreamError _). split; [by apply send_torn_down |]. intros Hd.
  destruct (sendFrame_table net (with_table s T) KindControl id (marshal_message m)) as [(E & _)|(_ & E & _)].
  - unfold sendControl. rewrite E. done.
  - unfold sendControl in Hd. rewrite E in Hd. done.
Qed.

Lemma enqueue_at_store T id tn payload r T' :
  table_ok maxStreams limit T -> tb_store T !! id = Some tn -> enqueue_at T id tn payload = (r, T') ->
  off id T T' /\ tb_streams T' = tb_streams T /\
  exists tn', tb_store T' !! id = Some tn' /\
    retained_of (tn_stream tn') None =
    retained_of (tn_stream tn) None ++ (if is_ok r then payload else []).
Proof.
  intros HT Hl. unfold enqueue_at.
  destruct (view_ok _ _ _ _ _ false HT Hl) as [Hs Hc].
  pose proof (enqueue_stream (view T (tn_stream tn)) payload Hs Hc) as E.
  destruct (enqueue _ payload) as [r' s']. intros [= <- <-]. destruct E as (_ & R & _).
  split_and!; [| done |].
  - intros j Hj. simpl. by rewrite lookup_insert_ne.
  - eexists. simpl. rewrite lookup_insert_eq. split; [done | exact R].
Qed.
End DataFrames.

(** A data frame costs at most its own stream. It is fatal to the session exactly when its stream was never opened; on a routed stream either its payload is appended to what the reader will get, or the stream alone is torn down with everything it held still readable; and unless the transport itself failed, no other stream and no other routing entry changes. *)
Theorem data_frame_isolated maxStreams limit start net s frame r s' :
  session_ok maxStreams limit start s -> is_u32 (fr_stream frame) ->
  handleData net s frame = (r, s') ->
  let id := fr_stream frame in
  (is_ok r = false <->
   stream_at (ss_table s) id = None /\ (id = 0 \/ tb_nextID (ss_table s) <= id)) /\
  (forall tn, stream_at (ss_table s) id = Some tn ->
     (exists tn', stream_at (ss_table s') id = Some tn' /\
        retained_of (tn_stream tn') None = retained_of (tn_stream tn) None ++ fr_payload frame) \/
     torn_down id tn (ss_table s')) /\
  (ss_done s' = false -> off id (ss_table s) (ss_table s')).
Proof.
  intros Hs Hi H id. unfold handleData in H. fold id in H, Hi.
  destruct (stream_at (ss_table s) id) as [tn|] eqn:E.
  2: { assert (s' = s) as -> by (destruct (_ && _); congruence).
       split; [| by split]. destruct (negb (id =? 0) && (id <? tb_nextID (ss_table s))) eqn:Eb;
         injection H as <-; simpl; bool_facts; [naive_solver lia |].
       split; [| done]. intros _. split; [done |]. destruct Eb; bool_facts; lia. }
  destruct (_ && _).
  - injection H as <- <-. destruct (error_stream_off _ _ _ net s id "resource_limit"
      "UDP datagram exceeds tunnel limit" false (ErrMsg "oversize Agent UDP datagram") tn Hs Hi E) as [Ht Ho].
    split; [naive_solver | split; [| done]]. intros tn' [= <-]. by right.
  - destruct (enqueue_at (ss_table s) id tn (fr_payload frame)) as [q T] eqn:Eq.
    pose proof (stream_at_store _ _ _ E) as El.
    destruct (enqueue_at_store _ _ _ _ _ _ _ _ (so_table _ _ _ _ Hs) El Eq) as (Ho & Hr & tn' & Hl & Hret).
    assert (HT : table_ok maxStreams limit T).
    { pose proof (enqueue_at_ok _ _ _ _ _ (fr_payload frame) (so_table _ _ _ _ Hs) El) as X. by rewrite Eq in X. }
    assert (Hat : stream_at T id = Some tn').
    { unfold stream_at in *. rewrite Hr. by case_bool_decide. }
    destruct q as [u|e]; injection H as <- <-; simpl in Hret.
    + split; [naive_solver | split]; [| done]. intros x [= <-]. left. by exists tn'.
    + rewrite app_nil_r in Hret.
      destruct (error_stream_off _ _ _ net (with_table s T) id "resource_limit" "stream response queue exhausted" true
        (ErrWrap "inbound queue" e) tn' (good_table _ _ _ s T Hs HT) Hi Hat) as [(Hn & x & Hx & Hh & Hrd) Ho'].
      split; [naive_solver | split].
      * intros y [= <-]. right. split; [done |]. exists x. split_and!; try done.
        rewrite Hh. unfold held_by. by rewrite Hret.
      * intros Hd. eapply off_trans; [exact Ho | by apply Ho'].
Qed.

(** ** Reachable sessions *)

(** C10: At every moment of a session, under any order of frames, handlers, heartbeats and other sessions' traffic: the session's byte budget is exactly the bytes its streams hold for their readers, at most its limit, all of them counted in the Gateway's budget too; every stream's own budget is exactly what it holds and none was ever released below zero; at most MaxStreamsPerSession streams are routed; and the next stream opened gets an identifier never used before on the session. *)
Theorem session_accounting lim temporary who g rejects inbound lastOutbound challenge now s :
  is_i64 (MaxStreamQueueBytes lim) -> is_i64 (MaxSessionQueueBytes lim) -> budget_ok g -> is_u64 lastOutbound ->
  steps (session_step lim temporary) (newSession lim who g rejects inbound lastOutbound challenge now) s ->
  let T := ss_table s in
  b_used (tb_session T) = total_held (tb_store T) /\
  (total_held (tb_store T) = 0 \/ total_held (tb_store T) <= MaxSessionQueueBytes lim) /\
  total_held (tb_store T) <= b_used (tb_global T) /\
  (forall id tn, tb_store T !! id = Some tn ->
     st_panicked (tn_stream tn) = false /\ b_used (st_streamBudget (tn_stream tn)) = held_by tn) /\
  Z.of_nat (size (tb_streams T)) <= Z.max 0 (MaxStreamsPerSession lim) /\ tb_streams T ⊆ dom (tb_store T) /\
  (forall flow mode id, (open_locked lim flow mode T).1 = Ok id -> id ∉ dom (tb_store T) /\ 0 < id < 2 ^ 32).
Proof.
  intros Hq Hsq Hg Hl H T.
  assert (Hs : session_ok (MaxStreamsPerSession lim) (MaxSessionQueueBytes lim) lastOutbound s).
  { induction H as [|a b _ IH Hab]; [by eapply good_new | by eapply good_step]. }
  destruct (so_table _ _ _ _ Hs) as [[_ [_ Hlim]] Hlm Hgl Htn Htot Hsh Hro Hnx Hid Hsz]. subst T.
  split_and!; try done.
  - rewrite Hlm, Htot in Hlim. done.
  - intros id tn E. by destruct (Htn id tn E).
  - intros flow mode id E.
    destruct (open_locked_ok _ _ flow mode _ (so_table _ _ _ _ Hs) Hq) as [_ Ho].
    destruct (Ho id E) as (-> & Hf & Hz & _). unfold is_u32 in Hnx. split; [done | lia].
Qed.

(** Everything the session ever wrote decodes, and a peer whose tracker stood at the session's start accepts every frame in order: control and data frames share one contiguous sequence whatever the interleaving, failed writes and expired requests included, and nothing is written once the session is closed. *)
Theorem session_wire_accepted lim temporary who g rejects inbound lastOutbound challenge now s :
  is_i64 (MaxStreamQueueBytes lim) -> is_i64 (MaxSessionQueueBytes lim) -> budget_ok g -> is_u64 lastOutbound ->
  steps (session_step lim temporary) (newSession lim who g rejects inbound lastOutbound challenge now) s ->
  exists frames last, Forall2 (fun b f => DecodeFrame b = Ok f) (wr_wire (ss_writer s)) frames /\
    accept_all lastOutbound (fr_seq <$> frames) = Ok last /\
    (ss_done s = false -> last = wr_outbound (ss_writer s)) /\
    (ss_done s = true -> forall net kind id payload, (sendFrame net s kind id payload).2 = s).
Proof.
  intros Hq Hsq Hg Hl H.
  assert (Hs : session_ok (MaxStreamsPerSession lim) (MaxSessionQueueBytes lim) lastOutbound s).
  { induction H as [|a b _ IH Hab]; [by eapply good_new | by eapply good_step]. }
  destruct (log_accepted _ _ _ _ (so_wire _ _ _ _ Hs)) as (fs & l & H1 & H2 & H3). exists fs, l. split_and!; try done.
  intros Hd net kind id payload. unfold sendFrame. by rewrite Hd.
Qed.

(** When the read loop of an open session stops, the session is closed, routes no stream any more, every stream it routed is finished for its reader with all the bytes it held still to be read, and the close frame carries a code the protocol's close-code table permits for what was received: 1009 or 1000 for the transport, 1002 for framing and sequence, 1007 for payloads, 1008 for the rest (or 1011 when the answer could not be written). *)
Theorem session_end maxStreams limit start net s r now s' :
  session_ok maxStreams limit start s -> (forall n, plain_answer (net n)) ->
  (forall e, r = ReadErr false e -> plain_error e) -> ss_closed s = None ->
  run_once net s r now = (false, s') ->
  ss_done s' = true /\ tb_streams (ss_table s') = ∅ /\ streams_finished s s' /\
  exists code reason, ss_closed s' = Some (code, reason) /\ code ∈ permitted_codes s r now.
Proof.
  intros Hs Hn Hr Hc H. destruct (run_stop_streams _ _ _ _ _ _ _ _ Hs H) as (? & ? & ?).
  split_and!; try done. by eapply run_stop_code.
Qed.

(** ** Sending a body *)

Section SendBytes.
Context (maxStreams limit start : Z) (net : nat -> answer).
Notation good := (session_ok maxStreams limit start).

Lemma sendFrame_Ok s kind id payload u s' :
  good s -> 0 <= kind < 256 -> is_u32 id -> sendFrame net s kind id payload = (Ok u, s') ->
  ss_table s' = ss_table s /\ ss_id s' = ss_id s /\
  exists q, let f := MkFrame kind id q payload in
    frame_wf f /\ wr_wire (ss_writer s') = wr_wire (ss_writer s) ++ [frame_bytes f].
Proof.
  intros Hs Hk Hi H. apply sendFrame_served in H as (expired & written & H). revert H.
  unfold writeQueued. destruct (if kind =? KindData then None else expired); [done |]. cbn [ss_writer with_writer wr_outbound].
  destruct (NextSequence _) as [q|] eqn:En; [| done]. destruct (EncodeFrame _) as [b|] eqn:Ee; [| done].
  destruct written; [done |]. intros [= <- <-]. split_and!; [done | done |]. exists q.
  destruct (encoded_next _ _ _ _ _ _ (proj1 (so_wire _ _ _ _ Hs)) En Hk Hi Ee) as [Hw ->]. by split.
Qed.

(** The stream's window lost [n] bytes of credit; everything else is the same. *)
Definition spent (id : Z) (paced : bool) (n : Z) (T T' : table) : Prop :=
  if paced then
    forall st w, tb_store T !! id = Some (MkTunnel st (Some w)) -> window_ok w ->
      exists w', tb_store T' !! id = Some (MkTunnel st (Some w')) /\ w_credit w' = w_credit w - n /\
                 window_ok w' /\ 0 <= w_credit w'
  else T' = T.

Lemma take_window_spent T id n T' :
  0 < n -> take_window T id n = Some (Ok T') -> spent id true n T T'.
Proof.
  intros Hn H st w Hl Hw. unfold take_window in H. rewrite Hl in H.
  destruct (negb _); [done |]. destruct (take_locked w n) as [|w'|] eqn:E; try done. injection H as <-.
  destruct (take_locked_ok _ _ _ Hw Hn E) as (_ & Hle & -> & Hw'). unfold set_window. rewrite Hl.
  exists (set_credit w (w_credit w - n)). simpl. rewrite lookup_insert_eq. unfold window_ok in Hw'. split_and!; try done; lia.
Qed.

Definition wire_of (id : Z) (bs cs : list bytes) : Prop :=
  Forall2 (fun b c => 0 < zlen c <= MaxDataPayload /\
                      exists q, DecodeFrame b = Ok (MkFrame KindData id q c)) bs cs.

Lemma send_chunks_Ok fuel : forall s id paced payload u s',
  good s -> is_u32 id -> (length payload < fuel)%nat ->
  send_chunks net fuel s id paced payload = (Ok u, s') ->
  exists bs cs, wr_wire (ss_writer s') = wr_wire (ss_writer s) ++ bs /\ concat cs = payload /\
    wire_of id bs cs /\ spent id paced (zlen payload) (ss_table s) (ss_table s').
Proof.
  induction fuel as [|fuel IH]; intros s id paced payload u s' Hs Hi Hf H; [lia |]. simpl in H.
  destruct (zlen payload =? 0) eqn:Ez; bool_facts.
  - injection H as <-. subst s'. exists [], []. rewrite app_nil_r. split_and!; [done | | constructor |].
    + by apply zlen_0 in Ez as ->.
    + destruct paced; [| done]. intros st w Hl Hw. exists w. unfold window_ok in *. split_and!; done || lia.
  - destruct (send_chunk net s id paced payload) as [[[rest|e] s1]|] eqn:Ec; try done.
    pose proof (good_send_chunk _ _ _ net _ _ _ _ _ _ Hs Hi Ec) as H1. unfold send_chunk in Ec.
    destruct (chunk_of payload) as [chunk rest0] eqn:Ek. destruct (chunk_split _ _ _ Ez Ek) as (Hcat & Hlen & Hlt).
    destruct (if paced then _ else _) as [[T|]|] eqn:Ew; try done.
    assert (HT : table_ok maxStreams limit T).
    { destruct paced; [eapply take_window_ok, Ew; apply Hs | injection Ew as <-; apply Hs]. }
    assert (Hsp : spent id paced (zlen chunk) (ss_table s) T).
    { destruct paced; [apply take_window_spent; [lia | done] | by injection Ew as <-]. }
    destruct (sendFrame net (with_table s T) KindData id chunk) as [[v|] s2] eqn:Es; [| done].
    injection Ec as -> <-.
    destruct (sendFrame_Ok (with_table s T) KindData id chunk v s2 (good_table _ _ _ s T Hs HT) ltac:(done) Hi Es) as (Ht & _ & q & Hw & Hwire).
    destruct (IH s2 id paced rest u s' H1 Hi ltac:(lia) H) as (bs & cs & Hb & Hc & Hfs & Hsp').
    exists (frame_bytes (MkFrame KindData id q chunk) :: bs), (chunk :: cs). rewrite Hb, Hwire. simpl.
    split_and!; [by rewrite <- (assoc (++)) | by rewrite Hc | |].
    + constructor; [| done]. split; [done |]. exists q. by apply decode_frame_bytes.
    + rewrite <- Hcat, zlen_app. rewrite Ht in Hsp'. destruct paced; [| by rewrite Hsp'].
      intros st w Hl Hwok. destruct (Hsp st w Hl Hwok) as (w1 & Hl1 & Hc1 & Hw1 & _).
      destruct (Hsp' st w1 Hl1 Hw1) as (w2 & Hl2 & Hc2 & Hw2 & ?). exists w2. split_and!; done || lia.
Qed.
End SendBytes.

(** A body handed to sendBytes and reported sent is on the wire whole: as consecutive data frames of that stream, each carrying 1 byte to 1 MiB, whose payloads in order are exactly the body; and on a flow-controlled stream the credit it took is exactly the body's length, never more than the Agent granted. *)
Theorem send_bytes_whole maxStreams limit start net s id payload u s' :
  session_ok maxStreams limit start s -> is_u32 id -> sendBytes net s id payload = (Ok u, s') ->
  exists bs cs, wr_wire (ss_writer s') = wr_wire (ss_writer s) ++ bs /\ concat cs = payload /\
    wire_of id bs cs /\
    (id_flow (ss_id s) = true -> forall st w, stream_at (ss_table s) id = Some (MkTunnel st (Some w)) -> window_ok w ->
       exists w', tb_store (ss_table s') !! id = Some (MkTunnel st (Some w')) /\
         w_credit w' = w_credit w - zlen payload /\ 0 <= w_credit w').
Proof.
  intros Hs Hi H. unfold sendBytes in H. destruct (id_flow (ss_id s)).
  - destruct (stream_at (ss_table s) id) as [tn|] eqn:E; [| done].
    destruct (send_chunks_Ok _ _ _ net (S (length payload)) s id _ payload u s' Hs Hi (Nat.lt_succ_diag_r _) H) as (bs & cs & H1 & H2 & H3 & H4).
    exists bs, cs. split_and!; try done. intros _ st w [= ->] Hw. simpl in H4. apply stream_at_store in E.
    destruct (H4 st w E Hw) as (w' & ? & ? & _ & ?). by exists w'.
  - destruct (send_chunks_Ok _ _ _ net (S (length payload)) s id _ payload u s' Hs Hi (Nat.lt_succ_diag_r _) H) as (bs & cs & H1 & H2 & H3 & _).
    by exists bs, cs.
Qed.

(** ** Concrete sessions *)

Definition demo_net (n : nat) : answer := Served None None None.
Definition demo_who : identity := MkIdentity "dev-1" "ses-1" "auth-1" "tok-1" (10 * Second) true true.
Definition demo_global : ByteBudget := NewByteBudget (2 ^ 25).
Definition demo_session : session := newSession DefaultLimits demo_who demo_global 0 0 2 "proof" 0.
Definition demo_open : session :=
  (openStreamTarget demo_net DefaultLimits demo_session (Ok "req-1") "ep-1" "as-1" "le-1" EmptyString).2.

Lemma demo_bounds :
  is_i64 (MaxStreamQueueBytes DefaultLimits) /\ is_i64 (MaxSessionQueueBytes DefaultLimits) /\
  budget_ok demo_global /\ is_u64 2.
Proof. unfold budget_ok, is_i64, is_u64. split_and!; try (vm_compute; congruence). by left. Qed.

Lemma demo_open_steps : steps (session_step DefaultLimits (fun _ => false)) demo_session demo_open.
Proof. eapply steps_snoc; [apply steps_refl | apply se_open]. Qed.

Lemma demo_open_ok : session_ok 64 (2 ^ 23) 2 demo_open.
Proof.
  destruct demo_bounds as (Hq & Hs & Hg & Hl).
  apply (good_open DefaultLimits (2 ^ 23) 2 Hq). by eapply good_new.
Qed.

Lemma demo_sends_plain n : plain_answer (demo_net n).
Proof. by split. Qed.

Lemma data_frame_isolated_witness :
  exists r s', handleData demo_net demo_open (MkFrame KindData 1 1 demo_a) = (r, s') /\ is_ok r = true /\
    (ss_done s' = false -> off 1 (ss_table demo_open) (ss_table s')).
Proof.
  destruct (handleData demo_net demo_open (MkFrame KindData 1 1 demo_a)) as [r s'] eqn:E. exists r, s'.
  split; [reflexivity |].
  pose proof (data_frame_isolated 64 (2 ^ 23) 2 demo_net demo_open (MkFrame KindData 1 1 demo_a) r s'
    demo_open_ok ltac:(unfold is_u32; simpl; lia) E) as (_ & _ & Ho).
  split; [| exact Ho]. apply (f_equal fst) in E. cbn [fst] in E. subst r. vm_compute. reflexivity.
Defined.

Lemma session_accounting_witness :
  size (tb_streams (ss_table demo_open)) = 1%nat /\
  b_used (tb_session (ss_table demo_open)) = total_held (tb_store (ss_table demo_open)).
Proof.
  split; [vm_compute; reflexivity |]. destruct demo_bounds as (Hq & Hs & Hg & Hl).
  apply (session_accounting DefaultLimits (fun _ => false) demo_who demo_global 0 0 2 "proof" 0 demo_open
    Hq Hs Hg Hl demo_open_steps).
Defined.

Lemma session_wire_accepted_witness :
  length (wr_wire (ss_writer demo_open)) = 2%nat /\
  exists frames last, Forall2 (fun b f => DecodeFrame b = Ok f) (wr_wire (ss_writer demo_open)) frames /\
    accept_all 2 (fr_seq <$> frames) = Ok last.
Proof.
  split; [vm_compute; reflexivity |]. destruct demo_bounds as (Hq & Hs & Hg & Hl).
  destruct (session_wire_accepted DefaultLimits (fun _ => false) demo_who demo_global 0 0 2 "proof" 0 demo_open
    Hq Hs Hg Hl demo_open_steps) as (fs & l & H1 & H2 & _).
  exists fs, l. split; [exact H1 | exact H2].
Defined.

Lemma session_end_witness :
  exists s', run_once demo_net demo_open (ReadMsg true demo_a) 5 = (false, s') /\
    exists code reason, ss_closed s' = Some (code, reason) /\ code ∈ [StatusProtocolError].
Proof.
  exists (run_once demo_net demo_open (ReadMsg true demo_a) 5).2.
  assert (H : run_once demo_net demo_open (ReadMsg true demo_a) 5 =
              (false, (run_once demo_net demo_open (ReadMsg true demo_a) 5).2)) by (vm_compute; reflexivity).
  split; [exact H |].
  destruct (session_end 64 (2 ^ 23) 2 demo_net demo_open (ReadMsg true demo_a) 5 _ demo_open_ok demo_sends_plain
    ltac:(discriminate) ltac:(vm_compute; reflexivity) H) as (_ & _ & _ & Hc). exact Hc.
Defined.

Lemma send_bytes_whole_witness :
  exists s', sendBytes demo_net demo_open 1 (demo_a ++ demo_b) = (Ok tt, s') /\
    exists bs cs, wr_wire (ss_writer s') = wr_wire (ss_writer demo_open) ++ bs /\ concat cs = demo_a ++ demo_b.
Proof.
  exists (sendBytes demo_net demo_open 1 (demo_a ++ demo_b)).2.
  assert (H : sendBytes demo_net demo_open 1 (demo_a ++ demo_b) =
              (Ok tt, (sendBytes demo_net demo_open 1 (demo_a ++ demo_b)).2)) by (vm_compute; reflexivity).
  split; [exact H |].
  destruct (send_bytes_whole 64 (2 ^ 23) 2 demo_net demo_open 1 (demo_a ++ demo_b) tt _ demo_open_ok
    ltac:(unfold is_u32; lia) H) as (bs & cs & H1 & H2 & _).
  exists bs, cs. split; [exact H1 | exact H2].
Defined.
