(* ===== verification/SessAuth.v ===== *)
(** * SessAuth: the authority of a running session

    [revalidateAuthorization] and [sessionRevocationReason] of
    [internal/gateway/session.go] over the metadata interface of metadata.go,
    with the two metadata sources as its instances. *)

From S2P Require Import Prelude GoText GoTime Json StrictJson Frame Contract Control ControlCodec.
From S2P Require Import Metadata LiveMeta Budget GwLimits GwStream SessTable GwSession.

(** The Go interface [MetadataSource], with the optional
    [RevocationReason] the code looks for by a type assertion. *)
Class MetadataSource (M : Type) := {
  ms_Authorization : M -> string -> string -> string -> instant -> DeviceSessionAuthorization * option error;
  ms_RouteByHostname : M -> string -> instant -> result EndpointRouteAssignment;
  ms_Revoked : M -> string -> string -> instant -> result bool;
  ms_RevocationReason : option (M -> string -> string -> instant -> result (string * bool));
}.

#[export] Instance snapshot_source : MetadataSource SnapshotMetadata := {|
  ms_Authorization := Authorization_record;
  ms_RouteByHostname := RouteByHostname;
  ms_Revoked s kind id at_ := Ok (Revoked s kind id at_);
  ms_RevocationReason := Some (fun s kind id at_ => Ok (RevocationReason s kind id at_));
|}.

#[export] Instance live_source : MetadataSource LiveMetadata := {|
  ms_Authorization := live_Authorization_record;
  ms_RouteByHostname := live_RouteByHostname;
  ms_Revoked := live_Revoked;
  ms_RevocationReason := Some live_RevocationReason;
|}.

(** [metadataTemporarilyUnavailable] of gateway.go. *)
Definition metadataTemporarilyUnavailable (err : error) : bool :=
  errors_is err ErrMetadataUnavailable || errors_is err ErrMetadataStale.

Definition sessionRevocationReason (reason : string) : string :=
  if oneOfStrings reason ["disabled"; "credential_revoked"; "security_hold"; "expired"] then reason
  else "credential_revoked".

Section Revalidate.
Context {M : Type} `{MetadataSource M}.

(** The loop over the two subjects. *)
Fixpoint revoked_reason (metadata : M) (subjects : list (string * string)) (now : instant) (err : error)
  : string * option error :=
  match subjects with
  | [] => (EmptyString, Some (ErrWrap "session authorization invalid or unavailable" err))
  | (kind, id) :: rest =>
    match ms_RevocationReason with
    | Some reasonSource =>
      match reasonSource metadata kind id now with
      | Err e => (EmptyString, Some (ErrWrap "authorization revocation lookup failed" e))
      | Ok (reason, true) => (sessionRevocationReason reason, Some (ErrWrap "session authorization revoked" err))
      | Ok (_, false) => revoked_reason metadata rest now err
      end
    | None =>
      match ms_Revoked metadata kind id now with
      | Err e => (EmptyString, Some (ErrWrap "authorization revocation lookup failed" e))
      | Ok true => ("credential_revoked", Some (ErrWrap "session authorization revoked" err))
      | Ok false => revoked_reason metadata rest now err
      end
    end
  end.

Definition record_expired (record : DeviceSessionAuthorization) (now : instant) : bool :=
  match go_parse_rfc3339 (da_expires_at record) with
  | Some z => negb (before now (z_instant z))
  | None => false
  end.

Definition revalidateAuthorization (metadata : M) (who : identity) (now : instant) : string * option error :=
  if negb (before now (id_expiresAt who)) then
    ("expired", Some (ErrMsg "session authorization expired"))
  else
    let '(record, err) :=
      ms_Authorization metadata (id_authorization who) (id_device who) (id_token who) now in
    match err with
    | None => (EmptyString, None)
    | Some err =>
      let mine := String.eqb (da_authorization_id record) (id_authorization who) &&
                  String.eqb (da_device_id record) (id_device who) &&
                  String.eqb (da_token_id record) (id_token who) in
      if mine && da_disabled record then
        ("disabled", Some (ErrWrap "session authorization disabled" err))
      else if mine && record_expired record now then
        ("expired", Some (ErrWrap "session authorization expired" err))
      else
        revoked_reason metadata
          [("device_session_authorization", id_authorization who); ("device", id_device who)] now err
    end.

(** The reason sent to the Agent is one the contract knows, or none. *)
Lemma revoked_reason_known metadata subjects now err :
  let reason := (revoked_reason metadata subjects now err).1 in
  reason = EmptyString \/ reason ∈ session_revoked_reasons.
Proof.
  induction subjects as [|[kind id] rest IH]; [by left |]. simpl.
  assert (Hk : forall r, sessionRevocationReason r ∈ session_revoked_reasons).
  { intros r. unfold sessionRevocationReason. destruct (oneOfStrings _ _) eqn:E.
    - by apply oneOfStrings_in in E.
    - apply (bool_decide_unpack _). vm_compute. done. }
  destruct ms_RevocationReason as [source|].
  - destruct (source metadata kind id now) as [[reason []]|]; [right; apply Hk | done | by left].
  - destruct (ms_Revoked metadata kind id now) as [[]|]; [| done | by left].
    right. apply (bool_decide_unpack _). vm_compute. done.
Qed.

Lemma revalidate_reason_known metadata who now :
  let '(reason, err) := revalidateAuthorization metadata who now in
  (err = None -> reason = EmptyString) /\
  (reason = EmptyString \/ reason ∈ session_revoked_reasons).
Proof.
  unfold revalidateAuthorization.
  assert (Hx : forall r, In r ["expired"; "disabled"] -> r ∈ session_revoked_reasons).
  { intros r [<-|[<-|[]]]; apply (bool_decide_unpack _); vm_compute; done. }
  destruct (negb _); [split; [done | right; apply Hx; simpl; tauto] |].
  destruct (ms_Authorization _ _ _ _ _) as [record [err|]]; [| by split; [| left]].
  destruct (_ && da_disabled record); [split; [done | right; apply Hx; simpl; tauto] |].
  destruct (_ && record_expired record now); [split; [done | right; apply Hx; simpl; tauto] |].
  pose proof (revoked_reason_known metadata [("device_session_authorization", id_authorization who);
    ("device", id_device who)] now err) as Hr.
  destruct (revoked_reason _ _ _ _) as [reason [e|]] eqn:E; [done |].
  simpl in E. repeat (case_match; simplify_eq).
Qed.
End Revalidate.

(** ** Over a loaded snapshot *)

Definition authorized_by (docs : list (category * bytes)) (who : identity) (now : instant) : Prop :=
  now < id_expiresAt who /\
  exists r, authority_to_connect docs (id_authorization who) (id_device who) (id_token who) now r.

Definition subject_revoked (docs : list (category * bytes)) (who : identity) (now : instant) : Prop :=
  revoked_by docs "device_session_authorization" (id_authorization who) now \/
  revoked_by docs "device" (id_device who) now.

Lemma revalidate_authorized docs md who now :
  add_records NewSnapshotMetadata docs = (Ok tt, md) ->
  (revalidateAuthorization md who now).2 = None <-> authorized_by docs who now.
Proof.
  intros Hd. apply loaded_reflects in Hd.
  pose proof (fun r => Authorization_iff docs md (id_authorization who) (id_device who) (id_token who) now r Hd) as Ha.
  unfold Authorization in Ha. unfold revalidateAuthorization, authorized_by, before.
  destruct (now <? id_expiresAt who) eqn:En; simpl; bool_facts; [| split; [done | lia]].
  destruct (Authorization_record _ _ _ _ _) as [record [err|]] eqn:Er; simpl in *.
  - assert (Hno : ~ exists r, authority_to_connect docs (id_authorization who) (id_device who) (id_token who) now r).
    { intros [r Hr]. by apply Ha in Hr. }
    repeat (case_match; simpl; try (split; [done | tauto])).
  - split; [| done]. intros _. split; [done |]. exists record. by apply Ha.
Qed.

Lemma reason_nonempty r : sessionRevocationReason r <> EmptyString.
Proof.
  unfold sessionRevocationReason. destruct (oneOfStrings _ _) eqn:E; [| done].
  apply oneOfStrings_in in E. intros ->. revert E. apply (bool_decide_unpack (_ ∉ _)). vm_compute. done.
Qed.

Lemma revalidate_revoked docs md who now :
  add_records NewSnapshotMetadata docs = (Ok tt, md) -> subject_revoked docs who now ->
  (revalidateAuthorization md who now).2 <> None /\ (revalidateAuthorization md who now).1 <> EmptyString.
Proof.
  intros Hd Hr. pose proof (revalidate_authorized docs md who now Hd) as Hauth.
  assert (Hno : (revalidateAuthorization md who now).2 <> None).
  { rewrite Hauth. intros (_ & r & (_ & _ & Hdev & _ & _ & _ & Hr1 & Hr2)).
    destruct Hr as [Hr|Hr]; [done |]. congruence. }
  split; [done |]. revert Hno. unfold revalidateAuthorization. destruct (negb _); [done |].
  destruct (ms_Authorization _ _ _ _ _) as [record [err|]]; [| done]. intros _.
  destruct (_ && da_disabled record); [done |]. destruct (_ && record_expired record now); [done |].
  apply loaded_reflects in Hd. simpl. unfold RevocationReason.
  destruct (revokedAt md ("device_session_authorization", id_authorization who) now) eqn:E1;
    [apply reason_nonempty |].
  destruct (revokedAt md ("device", id_device who) now) eqn:E2; [apply reason_nonempty |].
  apply (not_revoked _ _ _ _ _ Hd) in E1, E2. by destruct Hr.
Qed.

(** What an unauthorized session becomes. *)
Definition cut_off (s s' : session) : Prop :=
  ss_authorized s' = false /\ ss_terminated s' = true /\ ss_done s' = true /\
  tb_streams (ss_table s') = ∅ /\ streams_finished s s'.

Lemma terminate_cuts_off M L st net temporary s reason err :
  session_ok M L st s -> ss_terminated s = false ->
  cut_off s (terminateAuthorization net temporary s reason err).
Proof.
  intros Hs Ht. unfold terminateAuthorization. rewrite Ht.
  set (s1 := fail_all (with_authority s false true) err).
  assert (Hf : streams_finished s s1) by by apply (end_finishes M L st s err (0, EmptyString)).
  set (s2 := if String.eqb reason EmptyString then s1 else _).
  assert (H2 : ss_authorized s2 = false /\ ss_terminated s2 = true /\ tb_store (ss_table s2) = tb_store (ss_table s1) /\
               tb_streams (ss_table s2) = ∅).
  { subst s2. destruct (String.eqb reason EmptyString); [done |]. set (m := MsgSessionRevoked _).
    assert (Hfix : ss_authorized (sendControl net s1 0 m).2 = ss_authorized s1 /\
                   ss_terminated (sendControl net s1 0 m).2 = ss_terminated s1).
    { unfold sendControl, sendFrame, writeQueued. repeat (case_match; try done). }
    destruct Hfix as [-> ->].
    destruct (sendFrame_table net s1 KindControl 0 (marshal_message m)) as [(E & _)|((e & E) & _)];
      unfold sendControl; rewrite E; [done |].
    by rewrite (failAll_unrouted (ss_table s1)). }
  destruct H2 as (A & B & C & D).
  assert (Hc : forall code reason', cut_off s (close s2 code reason')).
  { intros. split_and!; try done. intros id tn Hid. destruct (Hf id tn Hid) as (tn' & Hl & Hrest).
    exists tn'. split; [| done]. simpl. by rewrite C. }
  destruct (temporary err); apply Hc.
Qed.

(** C32: A heartbeat enforces the Control Panel's records on a running session: while the session's deadline and a published, active, unrevoked authorization for its identifiers both hold, the session keeps its authority; otherwise it loses it at once, routes no stream, and every stream ends with its remaining bytes readable. A subject revoked by a published signal always gets a reason for the Agent, and the reason is one the session_revoked message may carry, so the Agent's decoder accepts it. *)
Theorem revalidation_enforced M L st docs md net lim s pingID now :
  add_records NewSnapshotMetadata docs = (Ok tt, md) -> session_ok M L st s -> ss_terminated s = false ->
  let verdict := revalidateAuthorization md (ss_id s) now in
  let s' := heartbeat_tick net metadataTemporarilyUnavailable lim s verdict pingID now in
  (authorized_by docs (ss_id s) now -> ss_authorized s' = ss_authorized s /\ ss_terminated s' = false) /\
  (~ authorized_by docs (ss_id s) now -> cut_off s s') /\
  (subject_revoked docs (ss_id s) now -> verdict.1 <> EmptyString) /\
  (verdict.1 <> EmptyString -> id_ok (id_authorization (ss_id s)) -> forall at_,
     transmits (MsgSessionRevoked (MkSessionRevoked ProtocolVersion "session_revoked"
       (id_authorization (ss_id s)) verdict.1)) 0 at_).
Proof.
  intros Hd Hs Ht verdict s'.
  pose proof (revalidate_authorized docs md (ss_id s) now Hd) as Hauth. fold verdict in Hauth.
  pose proof (revalidate_reason_known md (ss_id s) now) as Hk. fold verdict in Hk.
  split_and!.
  - intros Ha. apply Hauth in Ha. subst s'. unfold heartbeat_tick. destruct verdict as [reason [e|]]; [done |].
    destruct (_ <? _); [done |]. destruct pingID as [pid|]; [| done].
    set (m := MsgHeartbeat _).
    assert (Hfix : ss_authorized (sendControl net s 0 m).2 = ss_authorized s /\
                   ss_terminated (sendControl net s 0 m).2 = ss_terminated s).
    { unfold sendControl, sendFrame, writeQueued. repeat (case_match; try done). }
    destruct (sendControl net s 0 m) as [[] ?]; simpl in *; by rewrite <- Ht.
  - intros Hn. subst s'. unfold heartbeat_tick. destruct verdict as [reason [e|]] eqn:Ev.
    + by eapply terminate_cuts_off.
    + exfalso. by apply Hn, Hauth.
  - intros Hr. by apply (revalidate_revoked docs md (ss_id s) now Hd Hr).
  - intros Hne Hid at_. apply transmit_session_revoked. destruct verdict as [reason e]. simpl in *.
    split_and!; try done. by destruct Hk as [_ [|]].
Qed.

(** A session of a device that a published signal revokes. *)
Definition demo_revoked_who : identity :=
  MkIdentity "dev-9" "ses-1" "auth-1" "tok-1" 1804110400000000000 true true.
Definition demo_revoked_session : session :=
  (openStreamTarget demo_net DefaultLimits
     (newSession DefaultLimits demo_revoked_who demo_global 0 0 2 "proof" 0)
     (Ok "req-1") "ep-1" "as-1" "le-1" EmptyString).2.

Lemma demo_revoked_session_ok : session_ok 64 (2 ^ 23) 2 demo_revoked_session.
Proof.
  destruct demo_bounds as (Hq & Hs & Hg & Hl).
  apply (good_open DefaultLimits (2 ^ 23) 2 Hq). by eapply good_new.
Qed.

Lemma revalidation_enforced_witness :
  let docs := [(CatRevocations, demo_revocation)] in
  exists md, add_records NewSnapshotMetadata docs = (Ok tt, md) /\
    subject_revoked docs (ss_id demo_revoked_session) 1704110400000000000 /\
    (revalidateAuthorization md (ss_id demo_revoked_session) 1704110400000000000).1 <> EmptyString.
Proof.
  intros docs.
  destruct (add_records NewSnapshotMetadata docs) as [[[]|e] md] eqn:E; [| vm_compute in E; discriminate].
  assert (Hr : subject_revoked docs (ss_id demo_revoked_session) 1704110400000000000).
  { right. apply (Revoked_iff docs md _ _ _ (loaded_reflects _ _ E)).
    vm_compute in E. injection E as <-. vm_compute. reflexivity. }
  exists md. split; [reflexivity | split; [exact Hr |]].
  apply (revalidation_enforced 64 (2 ^ 23) 2 docs md demo_net DefaultLimits demo_revoked_session (Ok "ping-1")
    1704110400000000000 E demo_revoked_session_ok ltac:(vm_compute; reflexivity)). exact Hr.
Defined.
