(* ===== verification/Registry.v ===== *)
(** * Registry: which tunnel of a device is live and which one routes

    [registerSession], [oldestStandby], [unregisterSession], [sessionForDevice]
    and [routableSession] of [internal/gateway/gateway.go].  Sessions are
    pointers there; here a session is a [handle] (its address) and what the
    registry reads through it is an [entry]: the identity is fixed, [lastSeen]
    and the authorization flag move concurrently and are read at the time of
    each call.  Go iterates its maps in an unspecified order; the model takes
    the order of [map_to_list], which only decides between equal [lastSeen]. *)

From S2P Require Import Prelude GoTime GwLimits.

Abbreviation handle := nat.

Record entry := MkEntry {
  e_device : string;
  e_session : string;
  e_expiresAt : instant;
}.

(** What is read from the sessions at one moment. *)
Record moment := MkMoment {
  m_lastSeen : handle -> Z;
  m_authorized : handle -> bool;
  m_now : instant;
}.

Record registry := MkRegistry {
  rg_tunnels : gmap string (gmap string handle);
  rg_primaries : gmap string handle;
  rg_draining : bool;
  rg_sessionRejects : Z;
  rg_reconnects : Z;
}.

Definition emptyRegistry : registry := MkRegistry ∅ ∅ false 0 0.

Section Registry.
Context (who : handle -> entry) (lim : Limits).

Definition device_tunnels (r : registry) (device : string) : gmap string handle :=
  default ∅ (rg_tunnels r !! device).

Definition totalSessions (r : registry) : Z :=
  map_fold (fun _ (tunnels : gmap string handle) acc => Z.of_nat (size tunnels) + acc) 0 (rg_tunnels r).

(** Keep the better of two candidates. *)
Definition pick (better : Z -> Z -> bool) (m : moment) (best : option handle) (candidate : handle)
  : option handle :=
  match best with
  | None => Some candidate
  | Some b => if better (m_lastSeen m candidate) (m_lastSeen m b) then Some candidate else best
  end.

Definition oldestStandby (m : moment) (tunnels : gmap string handle) (primary : option handle)
  : option handle :=
  foldl (pick Z.ltb m) None
    (filter (fun h => primary <> Some h) (snd <$> map_to_list tunnels)).

Definition reject_session (r : registry) : registry :=
  MkRegistry (rg_tunnels r) (rg_primaries r) (rg_draining r) (u64 (rg_sessionRejects r + 1)) (rg_reconnects r).

(** Room for [id] among a device's tunnels: the tunnels kept and the session
    displaced; nothing when the device's budget is spent on its primary. *)
Definition make_room (m : moment) (deviceTunnels : gmap string handle) (primary : option handle) (id : string)
  : option (gmap string handle * option handle) :=
  match deviceTunnels !! id with
  | Some replaced => Some (deviceTunnels, Some replaced)
  | None =>
    if MaxTunnelsPerDevice lim <=? Z.of_nat (size deviceTunnels) then
      match oldestStandby m deviceTunnels primary with
      | None => None
      | Some victim => Some (delete (e_session (who victim)) deviceTunnels, Some victim)
      end
    else Some (deviceTunnels, None)
  end.

(** [registerSession]: the error, the registry, and the session that is failed
    and closed with 1000 because it was replaced. *)
Definition registerSession (m : moment) (r : registry) (sess : handle)
  : result unit * registry * option handle :=
  let '(MkEntry device id _) := who sess in
  if rg_draining r then (Err (ErrMsg "gateway is draining"), r, None)
  else
    let deviceTunnels := device_tunnels r device in
    let primary := rg_primaries r !! device in
    let isNewTunnel := bool_decide (deviceTunnels !! id = None) in
    if isNewTunnel && (MaxAgentSessions lim <=? totalSessions r) then
      (Err (ErrMsg "agent session capacity reached"), reject_session r, None)
    else
      match make_room m deviceTunnels primary id with
      | None => (Err (ErrMsg "device tunnel capacity reached"), reject_session r, None)
      | Some (kept, replaced) =>
        let closed := bool_decide (replaced <> None /\ replaced <> Some sess) in
        let isReconnect := negb isNewTunnel && closed in
        let takes_over := bool_decide (primary = None) || (isReconnect && bool_decide (primary = replaced)) in
        (Ok tt,
         MkRegistry (<[device := <[id := sess]> kept]> (rg_tunnels r))
           (if takes_over then <[device := sess]> (rg_primaries r) else rg_primaries r)
           (rg_draining r) (rg_sessionRejects r)
           (if isReconnect then u64 (rg_reconnects r + 1) else rg_reconnects r),
         if closed then replaced else None)
      end.

Definition unregisterSession (m : moment) (r : registry) (sess : handle) : registry :=
  let '(MkEntry device id _) := who sess in
  match rg_tunnels r !! device with
  | None => r
  | Some deviceTunnels =>
    if negb (bool_decide (deviceTunnels !! id = Some sess)) then r
    else
      let kept := delete id deviceTunnels in
      let tunnels := if bool_decide (kept = ∅) then delete device (rg_tunnels r)
                     else <[device := kept]> (rg_tunnels r) in
      let primaries :=
        if bool_decide (rg_primaries r !! device = Some sess) then
          match foldl (pick Z.ltb m) None (snd <$> map_to_list kept) with
          | Some candidate => <[device := candidate]> (rg_primaries r)
          | None => delete device (rg_primaries r)
          end
        else rg_primaries r in
      MkRegistry tunnels primaries (rg_draining r) (rg_sessionRejects r) (rg_reconnects r)
  end.

Definition routableSession (m : moment) (sess : option handle) : bool :=
  match sess with
  | None => false
  | Some h =>
    m_authorized m h &&
    (is_zero_time (e_expiresAt (who h)) || before (m_now m) (e_expiresAt (who h)))
  end.

Definition newestStandby (m : moment) (tunnels : gmap string handle) (primary : option handle)
  : option handle :=
  foldl (pick (fun a b => b <? a) m) None
    (filter (fun h => primary <> Some h) (snd <$> map_to_list tunnels)).

Definition sessionForDevice (m : moment) (r : registry) (device : string) : option handle :=
  let primary := rg_primaries r !! device in
  let standby := newestStandby m (device_tunnels r device) primary in
  if routableSession m primary then primary
  else if routableSession m standby then standby
  else None.

Definition beginDrain (r : registry) : registry :=
  MkRegistry (rg_tunnels r) (rg_primaries r) true (rg_sessionRejects r) (rg_reconnects r).

(** The registry part of [Close]: the sessions it fails and closes with 1001. *)
Definition closeAll (r : registry) : registry * list handle :=
  (MkRegistry ∅ ∅ true (rg_sessionRejects r) (rg_reconnects r),
   concat ((fun ts => snd <$> map_to_list (snd ts)) <$> map_to_list (rg_tunnels r))).

Inductive registry_step : registry -> registry -> Prop :=
| r_register m r sess : registry_step r (registerSession m r sess).1.2
| r_unregister m r sess : registry_step r (unregisterSession m r sess)
| r_drain r : registry_step r (beginDrain r)
| r_close r : registry_step r (closeAll r).1.

(** ** The invariant *)

Record registry_ok (r : registry) : Prop := RegistryOk {
  (* every tunnel sits under its own device and session id *)
  rk_keys : forall d ts id h, rg_tunnels r !! d = Some ts -> ts !! id = Some h ->
            e_device (who h) = d /\ e_session (who h) = id;
  rk_nonempty : forall d ts, rg_tunnels r !! d = Some ts -> ts <> ∅;
  (* a device with tunnels routes through one of them *)
  rk_primary : forall d p, rg_primaries r !! d = Some p ->
               exists ts, rg_tunnels r !! d = Some ts /\ ts !! e_session (who p) = Some p;
  rk_routed : forall d, is_Some (rg_tunnels r !! d) -> is_Some (rg_primaries r !! d);
  rk_device : forall d ts, rg_tunnels r !! d = Some ts -> Z.of_nat (size ts) <= MaxTunnelsPerDevice lim;
  rk_total : totalSessions r <= MaxAgentSessions lim;
}.

(** ** Choosing among the tunnels *)

Lemma pick_in better m l : forall best h,
  foldl (pick better m) best l = Some h -> best = Some h \/ h ∈ l.
Proof.
  induction l as [|x l IH]; intros best h H; simpl in H; [by left |].
  apply IH in H as [H|H]; [| right; by right].
  unfold pick in H. destruct best as [b|]; [destruct (better _ _) |]; simplify_eq; auto; right; by left.
Qed.

Lemma pick_none better m l : forall best, foldl (pick better m) best l = None -> best = None /\ l = [].
Proof.
  induction l as [|x l IH]; intros best H; simpl in H; [done |].
  apply IH in H as [H _]. unfold pick in H. destruct best; [destruct (better _ _) |]; done.
Qed.

Lemma values_in (ts : gmap string handle) h : h ∈ (snd <$> map_to_list ts) <-> exists id, ts !! id = Some h.
Proof.
  rewrite list_elem_of_fmap. split.
  - intros ([id x] & -> & H). apply elem_of_map_to_list in H. by exists id.
  - intros [id H]. exists (id, h). split; [done | by apply elem_of_map_to_list].
Qed.

Lemma oldestStandby_in m ts primary v :
  oldestStandby m ts primary = Some v -> primary <> Some v /\ exists id, ts !! id = Some v.
Proof.
  unfold oldestStandby. intros H. apply pick_in in H as [H|H]; [done |].
  apply list_elem_of_filter in H as [Hp H]. split; [done | by apply values_in].
Qed.

(** ** Counting *)

Lemma total_delete_device r d ts :
  rg_tunnels r !! d = Some ts ->
  totalSessions r = Z.of_nat (size ts) +
    map_fold (fun _ (tunnels : gmap string handle) acc => Z.of_nat (size tunnels) + acc) 0 (delete d (rg_tunnels r)).
Proof. intros H. unfold totalSessions. rewrite (map_fold_delete_L _ _ d ts); [done | lia | done]. Qed.

Lemma total_set r d ts p dr rj rc :
  totalSessions (MkRegistry (<[d := ts]> (rg_tunnels r)) p dr rj rc) =
  totalSessions r - Z.of_nat (size (device_tunnels r d)) + Z.of_nat (size ts).
Proof.
  rewrite (total_delete_device _ d ts) by (simpl; apply lookup_insert_eq). simpl. rewrite delete_insert_eq.
  unfold device_tunnels. destruct (rg_tunnels r !! d) as [ts0|] eqn:E; simpl.
  - rewrite (total_delete_device _ _ _ E). lia.
  - rewrite delete_id by done. unfold totalSessions. rewrite map_size_empty. lia.
Qed.

Lemma total_drop r d ts p dr rj rc :
  rg_tunnels r !! d = Some ts ->
  totalSessions (MkRegistry (delete d (rg_tunnels r)) p dr rj rc) = totalSessions r - Z.of_nat (size ts).
Proof. intros H. rewrite (total_delete_device _ _ _ H). unfold totalSessions. simpl. lia. Qed.

Lemma device_lookup r d id h :
  device_tunnels r d !! id = Some h -> exists ts, rg_tunnels r !! d = Some ts /\ ts !! id = Some h.
Proof. unfold device_tunnels. destruct (rg_tunnels r !! d) as [ts|]; [by exists ts | done]. Qed.

(** A device's tunnels replaced by [ts], its primary by [p]. *)
Lemma set_device_ok r d ts ps dr rj rc :
  registry_ok r -> ts <> ∅ ->
  (forall id h, ts !! id = Some h -> e_device (who h) = d /\ e_session (who h) = id) ->
  (forall d', d' <> d -> ps !! d' = rg_primaries r !! d') ->
  (exists p, ps !! d = Some p /\ ts !! e_session (who p) = Some p) ->
  Z.of_nat (size ts) <= MaxTunnelsPerDevice lim ->
  totalSessions r - Z.of_nat (size (device_tunnels r d)) + Z.of_nat (size ts) <= MaxAgentSessions lim ->
  registry_ok (MkRegistry (<[d := ts]> (rg_tunnels r)) ps dr rj rc).
Proof.
  intros [Hk Hne Hp Hr Hd Ht] Hts Hkeys Hps (p & Hpd & Hpt) Hsz Htot.
  split; simpl; [| | | | | by rewrite total_set].
  - intros d' ts' id h H. apply lookup_insert_Some in H as [[<- <-]|[_ H]]; [apply Hkeys | by eapply Hk].
  - intros d' ts' H. apply lookup_insert_Some in H as [[<- <-]|[_ H]]; [done | by eapply Hne].
  - intros d' p' H. destruct (decide (d' = d)) as [->|Hn].
    + rewrite lookup_insert_eq. exists ts. split; [done |]. congruence.
    + rewrite lookup_insert_ne by done. rewrite Hps in H by done. by apply Hp.
  - intros d' H. destruct (decide (d' = d)) as [->|Hn]; [by eexists |].
    rewrite lookup_insert_ne in H by done. rewrite Hps by done. by apply Hr.
  - intros d' ts' H. apply lookup_insert_Some in H as [[<- <-]|[_ H]]; [done | by eapply Hd].
Qed.

(** What [registerSession] admits: where the session goes, whom it displaces. *)
Record admitted (m : moment) (r r' : registry) (sess : handle) (out : option handle) : Prop := Admitted_ {
  ad_open : rg_draining r = false;
  ad_in : device_tunnels r' (e_device (who sess)) !! e_session (who sess) = Some sess;
  ad_others : forall d, d <> e_device (who sess) -> rg_tunnels r' !! d = rg_tunnels r !! d;
  ad_out : forall h, out = Some h -> h <> sess /\
           device_tunnels r (e_device (who sess)) !! e_session (who h) = Some h /\
           device_tunnels r' (e_device (who sess)) !! e_session (who h) <> Some h;
  ad_kept : forall id h, device_tunnels r (e_device (who sess)) !! id = Some h ->
            out = Some h \/ device_tunnels r' (e_device (who sess)) !! id = Some h;
  ad_standby : forall h, out = Some h -> device_tunnels r (e_device (who sess)) !! e_session (who sess) = None ->
               rg_primaries r !! e_device (who sess) <> Some h;
}.

Lemma make_room_spec m ts primary id kept replaced sess :
  (forall i h, ts !! i = Some h -> e_session (who h) = i) ->
  make_room m ts primary id = Some (kept, replaced) ->
  (forall i h, kept !! i = Some h -> ts !! i = Some h) /\
  (forall i h, ts !! i = Some h -> i <> id -> kept !! i = Some h \/ (replaced = Some h /\ ts !! id = None)) /\
  (forall h, replaced = Some h -> ts !! e_session (who h) = Some h /\
             (e_session (who h) = id \/ kept !! e_session (who h) = None)) /\
  (ts !! id = None -> forall h, replaced = Some h -> primary <> Some h) /\
  (forall h, ts !! id = Some h -> replaced = Some h) /\
  Z.of_nat (size (<[id := sess]> kept)) <= Z.of_nat (size ts) + (if decide (ts !! id = None) then 1 else 0) /\
  (Z.of_nat (size ts) <= MaxTunnelsPerDevice lim \/ ts = ∅ ->
   Z.of_nat (size (<[id := sess]> kept)) <= MaxTunnelsPerDevice lim).
Proof.
  intros Hkey. unfold make_room. destruct (ts !! id) as [h0|] eqn:Ei.
  - intros [= <- <-]. rewrite map_size_insert_Some by (by eexists). destruct (Hkey _ _ Ei).
    split_and!; try done; auto; try (intros; simplify_eq; auto; done).
    + destruct (decide _); lia.
    + intros [?| ->]; [done |]. by rewrite lookup_empty in Ei.
  - destruct (MaxTunnelsPerDevice lim <=? Z.of_nat (size ts)) eqn:Ef; bool_facts.
    + destruct (oldestStandby m ts primary) as [v|] eqn:Ev; [| done]. intros [= <- <-].
      apply oldestStandby_in in Ev as [Hp [i Hi]]. destruct (Hkey i v Hi).
      assert (Hpos : (0 < size ts)%nat).
      { destruct (decide (size ts = 0%nat)) as [Hz|]; [| lia]. apply map_size_empty_inv in Hz. by rewrite Hz in Hi. }
      assert (Hsz : size (<[id := sess]> (delete (e_session (who v)) ts)) = size ts).
      { rewrite map_size_insert_None by (rewrite lookup_delete_None; by right).
        rewrite map_size_delete_Some by (by eexists). lia. }
      rewrite Hsz. split_and!.
      * intros i h H. by apply lookup_delete_Some in H as [_ H].
      * intros i h H Hn. destruct (decide (e_session (who v) = i)) as [<-|Hne];
          [right; split; [congruence | done] | left; by rewrite lookup_delete_ne].
      * intros h [= <-]. split; [done |]. right. apply lookup_delete_eq.
      * by intros _ h [= <-].
      * done.
      * destruct (decide _); lia.
      * intros [?| ->]; [lia |]. by rewrite lookup_empty in Hi.
    + intros [= <- <-]. rewrite map_size_insert_None by done.
      split_and!; try done; auto; [destruct (decide _); [lia | done] | lia].
Qed.

Lemma registerSession_cases m r sess r' out u :
  registerSession m r sess = (Ok u, r', out) ->
  let d := e_device (who sess) in let id := e_session (who sess) in let ts := device_tunnels r d in
  exists kept replaced ps rc,
    rg_draining r = false /\ (ts !! id = None -> totalSessions r < MaxAgentSessions lim) /\
    make_room m ts (rg_primaries r !! d) id = Some (kept, replaced) /\
    r' = MkRegistry (<[d := <[id := sess]> kept]> (rg_tunnels r)) ps false (rg_sessionRejects r) rc /\
    out = (if bool_decide (replaced <> None /\ replaced <> Some sess) then replaced else None) /\
    (forall d', d' <> d -> ps !! d' = rg_primaries r !! d') /\
    (ps !! d = Some sess \/
     (rg_primaries r !! d <> None /\ ps !! d = rg_primaries r !! d /\
      (ts !! id = None \/ replaced = Some sess \/ rg_primaries r !! d <> replaced))).
Proof.
  unfold registerSession. destruct (who sess) as [d id expires]. cbn [e_device e_session].
  destruct (rg_draining r); [done |]. set (ts := device_tunnels r d).
  destruct (bool_decide (ts !! id = None) && _) eqn:Ecap; [done |].
  destruct (make_room m ts _ id) as [[kept replaced]|]; [| done]. intros [= <- <- <-].
  do 4 eexists. split_and!; try done.
  - intros Hn. rewrite bool_decide_eq_true_2 in Ecap by done. simpl in Ecap. by bool_facts.
  - intros d' Hd. destruct (_ || _); [by rewrite lookup_insert_ne | done].
  - destruct (_ || _) eqn:Et; [left; apply lookup_insert_eq | right].
    apply orb_false_iff in Et as [E1 E2]. bool_facts. split_and!; [done | done |].
    destruct E2 as [E2|E2]; bool_facts; [| by right; right].
    destruct E2 as [E2|E2]; bool_facts; [by left |].
    destruct (decide (replaced = Some sess)); [by right; left |].
    right; right. destruct replaced; naive_solver.
Qed.

Lemma registerSession_Ok m r sess r' out u :
  registry_ok r -> registerSession m r sess = (Ok u, r', out) -> registry_ok r'.
Proof.
  intros Hr H. apply registerSession_cases in H as (kept & replaced & ps & rc & _ & Hcap & Hroom & -> & _ & Hoth & Hps).
  set (d := e_device (who sess)) in *. set (id := e_session (who sess)) in *.
  set (ts := device_tunnels r d) in *.
  assert (Hkey : forall i h, ts !! i = Some h -> e_device (who h) = d /\ e_session (who h) = i).
  { intros i h H. apply device_lookup in H as (ts' & Hts & H). by eapply (rk_keys _ Hr). }
  destruct (make_room_spec _ _ _ _ _ _ sess (fun i h H => proj2 (Hkey i h H)) Hroom)
    as (Hin & Hkeep & Hrep & Hnew & Hold & Hsz & Hdev).
  apply (set_device_ok r d); try done.
  - intros Hx. apply (f_equal (lookup id)) in Hx. by rewrite lookup_insert_eq, lookup_empty in Hx.
  - intros i h H. apply lookup_insert_Some in H as [[<- <-]|[_ H]]; [done | by apply Hkey, Hin].
  - destruct Hps as [Hp|(Hne & Hp & Hwhy)]; [exists sess; split; [done | by rewrite lookup_insert_eq] |].
    destruct (rg_primaries r !! d) as [p|] eqn:Ep; [| done]. exists p. split; [done |].
    destruct (rk_primary _ Hr d p Ep) as (ts' & Hts' & Hl).
    assert (Hl' : ts !! e_session (who p) = Some p) by (unfold ts, device_tunnels; by rewrite Hts').
    destruct (decide (e_session (who p) = id)) as [Heq|Hn].
    + rewrite Heq in *. rewrite lookup_insert_eq. pose proof (Hold p Hl') as Hrp.
      destruct Hwhy as [Hwhy|[Hwhy|Hwhy]]; congruence.
    + rewrite lookup_insert_ne by done. destruct (Hkeep _ _ Hl' Hn) as [|[Hrp Hno]]; [done |].
      by destruct (Hnew Hno p Hrp).
  - apply Hdev. unfold ts, device_tunnels. destruct (rg_tunnels r !! d) as [ts'|] eqn:E; [left | by right].
    by apply (rk_device _ Hr d).
  - fold ts. pose proof (rk_total _ Hr). destruct (decide (ts !! id = None)) as [Hn|]; [pose proof (Hcap Hn) |]; lia.
Qed.

(** Where the session goes and whom it displaces. *)
Lemma registerSession_admits m r sess r' out u :
  registry_ok r -> registerSession m r sess = (Ok u, r', out) -> admitted m r r' sess out.
Proof.
  intros Hr H. apply registerSession_cases in H as (kept & replaced & ps & rc & Hdr & _ & Hroom & -> & -> & _ & _).
  set (d := e_device (who sess)) in *. set (id := e_session (who sess)) in *. set (ts := device_tunnels r d) in *.
  assert (Hkey : forall i h, ts !! i = Some h -> e_session (who h) = i).
  { intros i h H. apply device_lookup in H as (ts' & Hts & H). by eapply (rk_keys _ Hr). }
  destruct (make_room_spec _ _ _ _ _ _ sess Hkey Hroom) as (Hin & Hkeep & Hrep & Hnew & Hold & _).
  match goal with |- admitted _ _ ?x _ _ => assert (Hds : device_tunnels x d = <[id := sess]> kept)
      by (unfold device_tunnels; simpl; by rewrite lookup_insert_eq) end.
  set (out := if bool_decide _ then replaced else None).
  assert (Hout : forall h, out = Some h <-> replaced = Some h /\ h <> sess).
  { intros h. unfold out. case_bool_decide as Hb; naive_solver. }
  split; fold d id; rewrite ?Hds; fold ts; try done.
  - by rewrite lookup_insert_eq.
  - intros d' Hd. simpl. by rewrite lookup_insert_ne.
  - intros h Ho. apply Hout in Ho as [Hh Hs]. destruct (Hrep h Hh) as [Hl Hk]. split_and!; [done | done |].
    destruct (decide (e_session (who h) = id)) as [->|Hn]; [rewrite lookup_insert_eq; congruence |].
    rewrite lookup_insert_ne by done. destruct Hk as [|Hk]; [done |]. by rewrite Hk.
  - intros i h Hi. rewrite Hout. destruct (decide (i = id)) as [->|Hn].
    + rewrite lookup_insert_eq. destruct (decide (h = sess)) as [->|]; [by right | left].
      split; [by apply Hold | done].
    + rewrite lookup_insert_ne by done. destruct (Hkeep i h Hi Hn) as [|[Hh _]]; [by right | left].
      split; [done |]. intros ->. by apply Hkey in Hi.
  - intros h Ho Hn. apply Hout in Ho as [Hh _]. by apply Hnew.
Qed.

(** A session that leaves the tables unchanged was refused. *)
Lemma registerSession_refused m r sess e r' out :
  registerSession m r sess = (Err e, r', out) ->
  out = None /\ rg_tunnels r' = rg_tunnels r /\ rg_primaries r' = rg_primaries r /\ rg_draining r' = rg_draining r.
Proof.
  unfold registerSession. destruct (who sess) as [d id expires].
  destruct (rg_draining r) eqn:Ed; [by intros [= _ <- <-] |].
  destruct (_ && _); [by intros [= _ <- <-] |].
  destruct (make_room _ _ _ _) as [[kept replaced]|]; [done | by intros [= _ <- <-]].
Qed.

Lemma same_tables_ok r r' :
  rg_tunnels r' = rg_tunnels r -> rg_primaries r' = rg_primaries r -> registry_ok r -> registry_ok r'.
Proof.
  intros Ht Hp [Hk Hne Hpr Hr Hd Htot].
  split; rewrite ?Ht, ?Hp; try done. unfold totalSessions in *. by rewrite Ht.
Qed.

Lemma registerSession_ok m r sess : registry_ok r -> registry_ok (registerSession m r sess).1.2.
Proof.
  intros Hr. destruct (registerSession m r sess) as [[[u|e] r'] out] eqn:E; cbn [fst snd].
  - by eapply registerSession_Ok.
  - apply registerSession_refused in E as (_ & Ht & Hp & _). by eapply same_tables_ok.
Qed.

(** Taking a device's last tunnel out. *)
Lemma drop_device_ok r d ts dr rj rc :
  registry_ok r -> rg_tunnels r !! d = Some ts ->
  registry_ok (MkRegistry (delete d (rg_tunnels r)) (delete d (rg_primaries r)) dr rj rc).
Proof.
  intros [Hk Hne Hp Hr Hd Ht] Hts. split; simpl; [| | | | | rewrite (total_drop _ _ ts) by done; lia].
  - intros d' ts' id h H. apply lookup_delete_Some in H as [_ H]. by eapply Hk.
  - intros d' ts' H. apply lookup_delete_Some in H as [_ H]. by eapply Hne.
  - intros d' p H. apply lookup_delete_Some in H as [Hn H].
    rewrite lookup_delete_ne by done. by apply Hp.
  - intros d' [ts' H]. apply lookup_delete_Some in H as [Hn H].
    rewrite lookup_delete_ne by done. apply Hr. by eexists.
  - intros d' ts' H. apply lookup_delete_Some in H as [_ H]. by eapply Hd.
Qed.

Lemma unregisterSession_ok m r sess : registry_ok r -> registry_ok (unregisterSession m r sess).
Proof.
  intros Hr. unfold unregisterSession. destruct (who sess) as [d id expires] eqn:Ew.
  destruct (rg_tunnels r !! d) as [ts|] eqn:Ets; [| done].
  case_bool_decide as Hin; simpl; [| done].
  assert (Hds : device_tunnels r d = ts) by (unfold device_tunnels; by rewrite Ets).
  assert (Hsz : size ts = S (size (delete id ts))).
  { assert (0 < size ts)%nat.
    { destruct (size ts) eqn:Ez; [| lia]. apply map_size_empty_inv in Ez. by rewrite Ez in Hin. }
    rewrite map_size_delete_Some by (by eexists). lia. }
  assert (Hkey : forall i h, delete id ts !! i = Some h -> e_device (who h) = d /\ e_session (who h) = i).
  { intros i h H. apply lookup_delete_Some in H as [_ H]. by eapply (rk_keys _ Hr). }
  pose proof (rk_device _ Hr d ts Ets). pose proof (rk_total _ Hr).
  destruct (rk_routed _ Hr d) as [p Hp]; [by eexists |].
  destruct (rk_primary _ Hr d p Hp) as (ts' & Hts' & Hpt).
  assert (ts' = ts) as -> by congruence.
  assert (Hkeep : p <> sess -> delete id ts !! e_session (who p) = Some p).
  { intros Hn. apply lookup_delete_Some. split; [intros -> | done]. congruence. }
  rewrite Hp. case_bool_decide as Hempty.
  - (* the last tunnel: it was the primary *)
    assert (p = sess) as ->.
    { destruct (decide (p = sess)) as [|Hn]; [done |]. apply Hkeep in Hn. rewrite Hempty in Hn. done. }
    rewrite bool_decide_eq_true_2 by done. rewrite Hempty, map_to_list_empty. simpl.
    by eapply drop_device_ok.
  - apply set_device_ok; rewrite ?Hds; try done; [| | lia | lia].
    + intros d' Hd. case_bool_decide; [| done].
      destruct (foldl _ _ _); [by rewrite lookup_insert_ne | by rewrite lookup_delete_ne].
    + case_bool_decide as Hs; [| exists p; split; [done | apply Hkeep; congruence]].
      destruct (foldl _ _ _) as [c|] eqn:Ef.
      * exists c. split; [apply lookup_insert_eq |]. apply pick_in in Ef as [|Ef]; [done |].
        apply values_in in Ef as [i Hi]. destruct (Hkey i c Hi) as [_ <-]. done.
      * apply pick_none in Ef as [_ Ef]. apply fmap_nil_inv in Ef.
        by apply map_to_list_empty_iff in Ef.
Qed.

Lemma emptyRegistry_ok : 0 <= MaxAgentSessions lim -> registry_ok emptyRegistry.
Proof. intros H. split; simpl; try done; intros ? [? ?]; done. Qed.

Lemma closeAll_ok r : 0 <= MaxAgentSessions lim -> registry_ok (closeAll r).1.
Proof. intros H. by apply (same_tables_ok emptyRegistry), emptyRegistry_ok. Qed.

Lemma registry_step_ok r r' : 0 <= MaxAgentSessions lim -> registry_ok r -> registry_step r r' -> registry_ok r'.
Proof.
  intros Hlim Hr H. destruct H as [m r sess|m r sess|r|r].
  - by apply registerSession_ok.
  - by apply unregisterSession_ok.
  - by apply (same_tables_ok r).
  - by apply closeAll_ok.
Qed.

(** ** Finding the session of a device *)

Definition registered (r : registry) (device : string) (h : handle) : Prop :=
  device_tunnels r device !! e_session (who h) = Some h.

Definition routable (m : moment) (h : handle) : Prop := routableSession m (Some h) = true.

Lemma registered_value r d h : registry_ok r ->
  h ∈ (snd <$> map_to_list (device_tunnels r d)) <-> registered r d h.
Proof.
  intros Hr. rewrite values_in. unfold registered. split; [| by eexists].
  intros [id H]. destruct (device_lookup _ _ _ _ H) as (ts & Hts & Hi).
  by destruct (rk_keys _ Hr _ _ _ _ Hts Hi) as [_ ->].
Qed.

(** A running maximum beats the first candidate and all that follow. *)
Lemma newest_max m l : forall best h,
  foldl (pick (fun a b => b <? a) m) best l = Some h ->
  forall x, best = Some x \/ x ∈ l -> m_lastSeen m x <= m_lastSeen m h.
Proof.
  induction l as [|y l IH]; intros best h H x Hx; simpl in H.
  - destruct Hx as [->|Hx]; [by simplify_eq | by apply elem_of_nil in Hx].
  - assert (Hb : exists b, pick (fun a b => b <? a) m best y = Some b /\ m_lastSeen m y <= m_lastSeen m b /\
                 (forall z, best = Some z -> m_lastSeen m z <= m_lastSeen m b)).
    { unfold pick. destruct best as [b|]; [destruct (m_lastSeen m b <? m_lastSeen m y) eqn:E; bool_facts |];
        eexists; (split; [done |]); split; try lia; intros z Hz; simplify_eq; lia. }
    destruct Hb as (b & Hb & Hy & Hz). rewrite Hb in H.
    pose proof (IH _ _ H b (or_introl eq_refl)).
    destruct Hx as [Hx|Hx]; [apply Hz in Hx; lia |].
    apply elem_of_cons in Hx as [->|Hx]; [lia |]. apply (IH _ _ H). by right.
Qed.

Lemma newestStandby_spec m r d s : registry_ok r ->
  newestStandby m (device_tunnels r d) (rg_primaries r !! d) = Some s ->
  registered r d s /\ rg_primaries r !! d <> Some s /\
  forall h, registered r d h -> rg_primaries r !! d <> Some h -> m_lastSeen m h <= m_lastSeen m s.
Proof.
  unfold newestStandby. intros Hr H. pose proof (newest_max _ _ _ _ H) as Hmax.
  apply pick_in in H as [|H]; [done |]. apply list_elem_of_filter in H as [Hp H].
  split_and!; [by apply registered_value | done |].
  intros h Hh Hn. apply Hmax. right. apply list_elem_of_filter. split; [done |]. by apply registered_value.
Qed.

Lemma newestStandby_none m r d : registry_ok r ->
  newestStandby m (device_tunnels r d) (rg_primaries r !! d) = None ->
  forall h, registered r d h -> rg_primaries r !! d = Some h.
Proof.
  unfold newestStandby. intros Hr H h Hh. apply pick_none in H as [_ H].
  apply (registered_value r d h Hr) in Hh.
  destruct (decide (rg_primaries r !! d = Some h)) as [|Hn]; [done |].
  assert (Hx : h ∈ filter (fun h => rg_primaries r !! d <> Some h) (snd <$> map_to_list (device_tunnels r d)))
    by (by apply list_elem_of_filter).
  rewrite H in Hx. by apply elem_of_nil in Hx.
Qed.

Lemma registry_reach r : 0 <= MaxAgentSessions lim -> steps registry_step emptyRegistry r -> registry_ok r.
Proof.
  intros Hlim. apply steps_invariant; [by apply emptyRegistry_ok | intros a b; by apply registry_step_ok].
Qed.

(** Who routes a device after an admission. *)
Lemma registerSession_primary m r sess r' out u :
  registerSession m r sess = (Ok u, r', out) ->
  let d := e_device (who sess) in let primary := rg_primaries r !! d in
  rg_primaries r' !! d =
    (if decide (primary = None \/ primary = device_tunnels r d !! e_session (who sess)) then Some sess else primary).
Proof.
  unfold registerSession, make_room. destruct (who sess) as [d id expires]. cbn [e_device e_session].
  destruct (rg_draining r); [done |]. destruct (_ && _); [done |].
  destruct (device_tunnels r d !! id) as [h0|] eqn:Ei.
  - intros [= _ <- _]. cbn [rg_primaries]. destruct (decide (h0 = sess)) as [->|].
    all: repeat case_bool_decide; cbn [orb andb negb]; destruct (decide _); rewrite ?lookup_insert_eq; intuition congruence.
  - destruct (_ <=? _); [destruct (oldestStandby _ _ _); [| done] |]; intros [= _ <- _]; cbn [rg_primaries];
      repeat case_bool_decide; cbn [orb andb negb]; destruct (decide _); rewrite ?lookup_insert_eq; intuition congruence.
Qed.

(** Why a session is refused. *)
Definition refusal (m : moment) (r : registry) (sess : handle) (e : error) : Prop :=
  let d := e_device (who sess) in
  let fresh := device_tunnels r d !! e_session (who sess) = None in
  (rg_draining r = true /\ e = ErrMsg "gateway is draining") \/
  (fresh /\ MaxAgentSessions lim <= totalSessions r /\ e = ErrMsg "agent session capacity reached") \/
  (fresh /\ MaxTunnelsPerDevice lim <= Z.of_nat (size (device_tunnels r d)) /\
   (forall h, registered r d h -> rg_primaries r !! d = Some h) /\ e = ErrMsg "device tunnel capacity reached").

Lemma oldestStandby_none m r d : registry_ok r ->
  oldestStandby m (device_tunnels r d) (rg_primaries r !! d) = None ->
  forall h, registered r d h -> rg_primaries r !! d = Some h.
Proof.
  unfold oldestStandby. intros Hr H h Hh. apply pick_none in H as [_ H].
  apply (registered_value r d h Hr) in Hh.
  destruct (decide (rg_primaries r !! d = Some h)) as [|Hn]; [done |].
  assert (Hx : h ∈ filter (fun h => rg_primaries r !! d <> Some h) (snd <$> map_to_list (device_tunnels r d)))
    by (by apply list_elem_of_filter).
  rewrite H in Hx. by apply elem_of_nil in Hx.
Qed.

Lemma registerSession_refusal m r sess e r' out :
  registry_ok r -> registerSession m r sess = (Err e, r', out) -> refusal m r sess e.
Proof.
  intros Hr. unfold registerSession, refusal, make_room. destruct (who sess) as [d id expires] eqn:Ew.
  cbn [e_device e_session]. destruct (rg_draining r); [intros [= <- _ _]; by left |].
  destruct (bool_decide _ && _) eqn:Ecap.
  { intros [= <- _ _]. bool_facts. right; left. auto. }
  destruct (device_tunnels r d !! id) eqn:Ei; [done |].
  clear Ecap. destruct (_ <=? _) eqn:Ef; [| done]. destruct (oldestStandby _ _ _) eqn:Eo; [done |].
  intros [= <- _ _]. bool_facts. right; right. split_and!; try done. by eapply oldestStandby_none.
Qed.
End Registry.

Lemma routable_facts who m h : routable who m h ->
  m_authorized m h = true /\ (e_expiresAt (who h) = zero_time \/ m_now m < e_expiresAt (who h)).
Proof.
  unfold routable, routableSession, is_zero_time, before. intros Hh.
  apply andb_true_iff in Hh as [Ha Hx]. split; [done |].
  apply orb_true_iff in Hx as [Hx|Hx]; bool_facts; [by left | by right].
Qed.

Lemma registered_device who lim r d h : registry_ok who lim r -> registered who r d h -> e_device (who h) = d.
Proof. intros Hr Hh. destruct (device_lookup _ _ _ _ Hh) as (ts & Hts & Hi). by eapply (rk_keys _ _ _ Hr). Qed.

Lemma primary_registered who lim r d p : registry_ok who lim r -> rg_primaries r !! d = Some p -> registered who r d p.
Proof.
  intros Hr Hp. destruct (rk_primary _ _ _ Hr d p Hp) as (ts & Hts & Hi). unfold registered, device_tunnels.
  by rewrite Hts.
Qed.

(** What [sessionForDevice] finds is a live tunnel of the device. *)
Lemma session_found who lim m r d h :
  0 <= MaxAgentSessions lim -> steps (registry_step who lim) emptyRegistry r ->
  sessionForDevice who m r d = Some h ->
  registered who r d h /\ e_device (who h) = d /\ m_authorized m h = true /\
  (e_expiresAt (who h) = zero_time \/ m_now m < e_expiresAt (who h)).
Proof.
  intros Hlim H Hf. apply registry_reach in H as Hr; [| done]. clear H.
  assert (Hreg : registered who r d h /\ routable who m h).
  { unfold sessionForDevice in Hf. destruct (routableSession who m (rg_primaries r !! d)) eqn:Ep.
    - rewrite Hf in Ep. split; [by eapply primary_registered | done].
    - destruct (routableSession who m (newestStandby _ _ _)) eqn:Es; [| done].
      rewrite Hf in Es. split; [by eapply newestStandby_spec in Hf as (? & _) | done]. }
  destruct Hreg as [Hreg Hroute]. split; [done |]. split; [by eapply registered_device |]. by apply routable_facts.
Qed.

(** ** Properties *)

Section Properties.
Context (who : handle -> entry) (lim : Limits).

(** C33: Whatever sequence of registrations, unregistrations, drains and closes
    the Gateway performs, the tunnels never exceed the global session limit,
    no device exceeds its tunnel limit, and a device is routed exactly when it
    has a tunnel: its primary is one of its own registered tunnels, and the
    loss of a primary always promotes a survivor. *)
Theorem registry_always_routes r :
  0 <= MaxAgentSessions lim ->
  steps (registry_step who lim) emptyRegistry r ->
  totalSessions r <= MaxAgentSessions lim /\
  forall d,
    (device_tunnels r d <> ∅ ->
       Z.of_nat (size (device_tunnels r d)) <= MaxTunnelsPerDevice lim /\
       exists p, rg_primaries r !! d = Some p /\ registered who r d p /\ e_device (who p) = d) /\
    (device_tunnels r d = ∅ -> rg_primaries r !! d = None).
Proof.
  intros Hlim H. apply registry_reach in H as Hr; [| done]. clear H.
  split; [by apply (rk_total _ _ _ Hr) |]. intros d. unfold registered, device_tunnels.
  split; destruct (rg_tunnels r !! d) as [ts|] eqn:Ets; simpl; intros Hne; try done.
  - split; [by eapply (rk_device _ _ _ Hr) |].
    destruct (rk_routed _ _ _ Hr d) as [p Hp]; [by eexists |]. exists p. split; [done |].
    destruct (rk_primary _ _ _ Hr d p Hp) as (ts' & Hts & Hi). simplify_eq.
    split; [done |]. by eapply (rk_keys _ _ _ Hr).
  - by destruct (rk_nonempty _ _ _ Hr _ _ Ets).
  - destruct (rg_primaries r !! d) as [p|] eqn:Ep; [| done].
    destruct (rk_primary _ _ _ Hr d p Ep) as (ts' & Hts & _). congruence.
Qed.

(** A session is admitted or refused as a whole.  Admitted, it is
    registered under its own identity, other devices are untouched, at most
    one session is displaced (the one it replaces, or a standby when the
    device is full: never the primary), every other tunnel of the device
    stays, and it takes over the routing exactly when the device had no
    primary or it replaced the primary.  Refused, the tables are unchanged and
    the refusal is a drain, the global limit, or a device whose only
    tunnel is its primary. *)
Theorem registration_admission m r sess :
  0 <= MaxAgentSessions lim ->
  steps (registry_step who lim) emptyRegistry r ->
  let d := e_device (who sess) in
  match registerSession who lim m r sess with
  | (Ok _, r', out) =>
      admitted who m r r' sess out /\
      rg_primaries r' !! d =
        (if decide (rg_primaries r !! d = None \/
                    rg_primaries r !! d = device_tunnels r d !! e_session (who sess))
         then Some sess else rg_primaries r !! d)
  | (Err e, r', out) =>
      out = None /\ rg_tunnels r' = rg_tunnels r /\ rg_primaries r' = rg_primaries r /\
      refusal who lim m r sess e
  end.
Proof.
  intros Hlim H d. apply registry_reach in H as Hr; [| done].
  destruct (registerSession who lim m r sess) as [[[u|e] r'] out] eqn:E.
  - split; [by eapply registerSession_admits | by eapply registerSession_primary].
  - apply registerSession_refusal in E as Hw; [| done].
    apply registerSession_refused in E as (? & ? & ? & _). done.
Qed.

(** The session that ingress traffic of a device is sent to is always a
    registered tunnel of that device, authorized and unexpired at that moment;
    the primary is taken whenever it is routable, and a standby only as the
    most recently seen of the standbys.  When nothing is returned, neither the
    primary nor the one standby that is strictly the newest is routable. *)
Theorem sessionForDevice_routable m r d :
  0 <= MaxAgentSessions lim ->
  steps (registry_step who lim) emptyRegistry r ->
  match sessionForDevice who m r d with
  | Some h =>
      registered who r d h /\ e_device (who h) = d /\ m_authorized m h = true /\
      (e_expiresAt (who h) = zero_time \/ m_now m < e_expiresAt (who h)) /\
      (forall p, rg_primaries r !! d = Some p -> routable who m p -> h = p) /\
      (rg_primaries r !! d <> Some h ->
       forall s, registered who r d s -> rg_primaries r !! d <> Some s -> m_lastSeen m s <= m_lastSeen m h)
  | None =>
      (forall p, rg_primaries r !! d = Some p -> ~ routable who m p) /\
      (forall h, registered who r d h -> rg_primaries r !! d <> Some h ->
       (forall s, registered who r d s -> s <> h -> rg_primaries r !! d <> Some s -> m_lastSeen m s < m_lastSeen m h) ->
       ~ routable who m h)
  end.
Proof.
  intros Hlim H. apply registry_reach in H as Hr; [| done].
  destruct (sessionForDevice who m r d) as [h|] eqn:Ef.
  - destruct (session_found _ _ _ _ _ _ Hlim H Ef) as (Hreg & Hdev & Hauth & Hexp). split_and!; try done.
    + intros p Hp Hrp. unfold sessionForDevice in Ef. rewrite Hp in Ef. unfold routable in Hrp. rewrite Hrp in Ef. congruence.
    + intros Hn. unfold sessionForDevice in Ef. destruct (routableSession who m (rg_primaries r !! d)); [done |].
      destruct (routableSession who m (newestStandby _ _ _)); [| done].
      by eapply newestStandby_spec in Ef as (_ & _ & Hmax).
  - unfold sessionForDevice in Ef. destruct (routableSession who m (rg_primaries r !! d)) eqn:Ep.
    { rewrite Ef in Ep. done. }
    destruct (routableSession who m (newestStandby _ _ _)) eqn:Es; [rewrite Ef in Es; done |]. clear Ef.
    split; [intros p Hp; unfold routable; congruence |]. intros h Hh Hn Hnew Hrh. unfold routable in Hrh.
    destruct (newestStandby _ _ _) as [s|] eqn:En; [| by destruct Hn; eapply newestStandby_none].
    destruct (newestStandby_spec _ _ _ _ _ _ Hr En) as (Hs & Hsn & Hmax).
    destruct (decide (s = h)) as [->|Hne]; [congruence |].
    pose proof (Hmax h Hh Hn). pose proof (Hnew s Hs Hne Hsn). lia.
Qed.
End Properties.

(** ** Witnesses *)

Definition demo_who (h : handle) : entry :=
  match h with
  | 0%nat => MkEntry "dev-a" "s-0" 0
  | 1%nat => MkEntry "dev-a" "s-1" 0
  | 2%nat => MkEntry "dev-a" "s-2" zero_time
  | 3%nat => MkEntry "dev-a" "s-1" zero_time
  | _ => MkEntry "dev-b" "s-9" zero_time
  end.

(** Every session seen at its own number; only 1 and 3 hold an authorization. *)
Definition demo_moment : moment :=
  MkMoment Z.of_nat (fun h => bool_decide (h = 1%nat \/ h = 3%nat)) (- 1).

Definition registry_of (lim : Limits) (sessions : list handle) : registry :=
  foldl (fun r h => (registerSession demo_who lim demo_moment r h).1.2) emptyRegistry sessions.

Abbreviation demo_registry := (registry_of DefaultLimits).

Lemma demo_reach lim sessions :
  steps (registry_step demo_who lim) emptyRegistry (registry_of lim sessions).
Proof.
  unfold registry_of. induction sessions as [|h sessions IH] using rev_ind; [apply steps_refl |].
  rewrite foldl_app. simpl. eapply steps_snoc; [apply IH | apply r_register].
Qed.

Lemma registry_always_routes_witness :
  let r := unregisterSession demo_who demo_moment (demo_registry [0; 1; 4]%nat) 0 in
  rg_primaries r !! "dev-a"%string = Some 1%nat /\ totalSessions r <= 64.
Proof.
  intros r. split; [vm_compute; reflexivity |].
  destruct (registry_always_routes demo_who DefaultLimits r ltac:(vm_compute; discriminate)) as [Ht _];
    [| exact Ht].
  eapply steps_snoc; [apply demo_reach | apply r_unregister].
Defined.

(** The third tunnel of a device with room for two displaces its standby. *)
Lemma registration_admission_witness :
  let step := registerSession demo_who DefaultLimits demo_moment (demo_registry [0; 1]%nat) 2 in
  step.2 = Some 1%nat /\ device_tunnels step.1.2 "dev-a" !! "s-0"%string = Some 0%nat.
Proof.
  intros step. assert (Ho : step.2 = Some 1%nat) by (vm_compute; reflexivity).
  assert (He : step.1.1 = Ok tt) by (vm_compute; reflexivity). split; [exact Ho |].
  pose proof (registration_admission demo_who DefaultLimits demo_moment (demo_registry [0; 1]%nat) 2
    ltac:(vm_compute; discriminate) (demo_reach _ _)) as H.
  cbv zeta in H. fold step in H. destruct step as [[[u|e] r'] out]; cbn [fst snd] in *; [| discriminate].
  destruct H as [Ha _]. destruct (ad_kept _ _ _ _ _ _ Ha "s-0"%string 0%nat ltac:(vm_compute; reflexivity)) as [H|H];
    [congruence | exact H].
Defined.

(** Once the primary has lost its authorization the standby serves. *)
Lemma sessionForDevice_routable_witness :
  sessionForDevice demo_who demo_moment (demo_registry [0; 1; 4]%nat) "dev-a" = Some 1%nat /\
  m_authorized demo_moment 1%nat = true.
Proof.
  pose proof (sessionForDevice_routable demo_who DefaultLimits demo_moment (demo_registry [0; 1; 4]%nat) "dev-a"
    ltac:(vm_compute; discriminate) (demo_reach _ _)) as H.
  assert (E : sessionForDevice demo_who demo_moment (demo_registry [0; 1; 4]%nat) "dev-a" = Some 1%nat)
    by (vm_compute; reflexivity).
  rewrite E in H. split; [exact E | apply H].
Defined.

(** ** Observation *)

(** A device may hold three tunnels. *)
Definition three_tunnels : Limits :=
  let '(MkLimits a1 a2 a3 a4 a5 a6 a7 a8 a9 a10 a11 a12 a13 a14
                 a15 a16 a17 a18 a19 a20 a21 a22 a23 a24
                 n a26 a27 a28 a29 a30) := DefaultLimits in
  MkLimits a1 a2 a3 a4 a5 a6 a7 a8 a9 a10 a11 a12 a13 a14
           a15 a16 a17 a18 a19 a20 a21 a22 a23 a24
           3 a26 a27 a28 a29 a30.

(** Only the most recently seen standby is asked whether it is routable: with
    the primary gone and that standby not routable either, the device has no
    session although another of its standbys is routable. *)
Lemma routable_standby_passed_over :
  let r := registry_of three_tunnels [0; 1; 2]%nat in
  registered demo_who r "dev-a" 1%nat /\ routable demo_who demo_moment 1%nat /\
  rg_primaries r !! "dev-a"%string = Some 0%nat /\
  sessionForDevice demo_who demo_moment r "dev-a" = None.
Proof. intros r. split_and!; vm_compute; reflexivity. Qed.
