(* ===== verification/Handshake.v ===== *)
(** * Handshake: how a connection becomes a session

    [readPreface], [completeAuthentication], [resumeSession] and what
    [handleAgent] does around them, of [internal/gateway/gateway.go], over the
    metadata interface of {!SessAuth}, the registry and the session model.
    The WebSocket, the entropy source and the clock answer as parameters:
    a connection is what its reads return and which of its writes fail. *)

From S2P Require Import Prelude GoText GoTime Json StrictJson Frame Contract Control ControlCodec.
From S2P Require Import Metadata LiveMeta Budget GwLimits Admission GwStream Wire SessTable GwSession SessAuth Registry.
Import Budget.Gateway.

(** A connection: its subprotocol, what [conn.Read] returns, and whether the
    n-th [conn.Write] fails. *)
Record connection := MkConnection {
  cn_subprotocol : string;
  cn_read : nat -> conn_read;
  cn_write : nat -> option error;
}.

Definition errResumeUnavailable : error := ErrSentinel "gateway.errResumeUnavailable".

(** ** Entropy *)

(** [entropy n size] is the n-th [io.ReadFull] of the source, which fills the
    whole buffer or fails; no source at all is [None]. *)
Definition entropy_source := option (nat -> Z -> result bytes).

Definition randomBase64URL (entropy : entropy_source) (n : nat) (size : Z) : result string :=
  match entropy with
  | None => Err (ErrMsg "crypto entropy source is unavailable")
  | Some read =>
    match read n size with
    | Err e => Err (ErrWrap "read crypto entropy" e)
    | Ok data => Ok (b64_encode_string data)
    end
  end.

Definition newID (entropy : entropy_source) (n : nat) (prefix : string) : result string :=
  let? random := randomBase64URL entropy n 12 in Ok (prefix +:+ "-" +:+ random).

(** ** The preface *)

Definition handshakePrefaceTimeout (total : Z) : Z :=
  let timeout := Z.quot total 4 in
  let timeout := if (timeout <=? 0) || (2 * Second <? timeout) then 2 * Second else timeout in
  if total <? timeout then total else timeout.

Record authorizedHandshake := MkHandshake {
  ah_hello : ClientHello;
  ah_record : DeviceSessionAuthorization;
  ah_inbound : SequenceTracker;
}.

Definition zero_hello : ClientHello :=
  MkClientHello 0 EmptyString EmptyString EmptyString EmptyString EmptyString EmptyString.

Definition resumeEnvelopeMessageType (payload : bytes) : string :=
  match json_unmarshal kind_schema payload with
  | Err _ => EmptyString
  | Ok m => get_string m "message_type"
  end.

Section Handshake.
Context {M : Type} `{MetadataSource M}.
Context (Sum256 : bytes -> bytes) (Verify : bytes -> bytes -> bytes -> bool).

(** [now] is the clock at the validation of the frame, [now_authority] at the
    authorization lookup. *)
Definition readPreface (metadata : M) (conn : connection) (now now_authority : instant)
  : result (authorizedHandshake * option ResumeSession) :=
  let? first := readProtocolFrame (cn_read conn 0) in
  let? inbound := Accept 0 (fr_seq first) in
  reject_if (negb (fr_kind first =? KindControl) || negb (fr_stream first =? 0))
            (ErrMsg "first frame must be session control") ;?
  match ValidateControlPayload (fr_payload first) 0 now with
  | Err err =>
    if String.eqb (resumeEnvelopeMessageType (fr_payload first)) "resume_session"
    then Err (ErrWrap2 EmptyString errResumeUnavailable err)
    else Err err
  | Ok _ =>
    if String.eqb (resumeEnvelopeMessageType (fr_payload first)) "resume_session" then
      match json_unmarshal ResumeSession_schema (fr_payload first) with
      | Err err => Err (ErrWrap2 EmptyString errResumeUnavailable err)
      | Ok m => Ok (MkHandshake zero_hello zero_authorization inbound, Some (ResumeSession_of m))
      end
    else
      let? hello := DecodeClientHello (fr_payload first) in
      match ms_Authorization metadata (ch_authorization_id hello) (ch_device_id hello) (ch_token_id hello)
              now_authority with
      | (_, Some err) => Err (ErrWrap "authorization lookup" err)
      | (record, None) =>
        reject_if (negb (MatchSessionToken Sum256 record (ch_session_token hello)))
                  (ErrMsg "session token mismatch") ;?
        Ok (MkHandshake hello record inbound, None)
      end
  end.

(** ** The full handshake *)

(** [writeControlFrame]: the frame written. *)
Definition writeControlFrame (conn : connection) (n : nat) (sequence : Z) (message : control_message)
  : result bytes :=
  let? frame := EncodeFrame (MkFrame KindControl 0 sequence (marshal_message message)) in
  match cn_write conn n with Some err => Err err | None => Ok frame end.

(** The clock during a handshake: at the challenge, at the validation of the
    answer, at the authorization lookup, at the start of the session. *)
Record clock := MkClock {
  ck_challenge : instant;
  ck_answer : instant;
  ck_authority : instant;
  ck_start : instant;
}.

Definition server_challenge (lim : Limits) (sessionID serverNonce : string) (now : instant) : ServerChallenge :=
  MkServerChallenge ProtocolVersion "server_challenge" sessionID serverNonce (stamp (now + HandshakeTimeout lim)).

(** The answer to the challenge, up to the decoded [client_auth]. *)
Definition read_client_auth (conn : connection) (inbound : SequenceTracker) (now : instant)
  : result (ClientAuth * SequenceTracker) :=
  let? second := readProtocolFrame (cn_read conn 1) in
  let? inbound := Accept inbound (fr_seq second) in
  reject_if (negb (fr_kind second =? KindControl) || negb (fr_stream second =? 0))
            (ErrMsg "client_auth must be session control") ;?
  let? _ := ValidateControlPayload (fr_payload second) 0 now in
  let? auth := DecodeClientAuth (fr_payload second) in
  Ok (auth, inbound).

(** The authority of the connection, looked up again under the challenge, and
    the instant it ends. *)
Definition current_authority (metadata : M) (hello : ClientHello) (challenge : ServerChallenge) (auth : ClientAuth)
    (now : instant) : result (DeviceSessionAuthorization * instant) :=
  match ms_Authorization metadata (ch_authorization_id hello) (ch_device_id hello) (ch_token_id hello) now with
  | (_, Some err) => Err (ErrWrap "authorization changed during handshake" err)
  | (record, None) =>
    reject_if (negb (MatchSessionToken Sum256 record (ch_session_token hello)))
              (ErrMsg "session token no longer matches current authorization") ;?
    VerifyClientAuthSignature Verify (da_device_public_key record) hello challenge auth ;?
    match go_parse_rfc3339 (da_expires_at record) with
    | None => Err (ErrMsg "parse authorization expiry")
    | Some z => Ok (record, z_instant z)
    end
  end.

Definition resume_proof (entropy : entropy_source) (subprotocol : string) : result string :=
  if IsTunnelSubprotocol subprotocol then
    match randomBase64URL entropy 2 32 with
    | Err e => Err (ErrWrap "generate resume challenge" e)
    | Ok proof => Ok proof
    end
  else Ok EmptyString.

(** The session, and the two frames the connection carries before it. *)
Definition completeAuthentication (lim : Limits) (metadata : M) (conn : connection) (entropy : entropy_source)
    (candidate : authorizedHandshake) (globalBudget : ByteBudget) (rejects : Z) (ck : clock)
  : result (session * list bytes) :=
  let? sessionID := (match newID entropy 0 "session" with
                     | Err e => Err (ErrWrap "generate session ID" e) | Ok id => Ok id end) in
  let? serverNonce := (match randomBase64URL entropy 1 32 with
                       | Err e => Err (ErrWrap "generate server nonce" e) | Ok n => Ok n end) in
  let challenge := server_challenge lim sessionID serverNonce (ck_challenge ck) in
  let? first := writeControlFrame conn 0 1 (MsgServerChallenge challenge) in
  let? answer := read_client_auth conn (ah_inbound candidate) (ck_answer ck) in
  let '(auth, inbound) := answer in
  let? authority := current_authority metadata (ah_hello candidate) challenge auth (ck_authority ck) in
  let '(record, expiresAt) := authority in
  let? resumeChallenge := resume_proof entropy (cn_subprotocol conn) in
  let ready := MkSessionReady ProtocolVersion "session_ready" sessionID
                 (Z.quot (HeartbeatInterval lim) Second) (Z.quot (IdleTimeout lim) Second) resumeChallenge in
  let? second := writeControlFrame conn 1 2 (MsgSessionReady ready) in
  let who := MkIdentity (da_device_id record) sessionID (da_authorization_id record) (da_token_id record)
               expiresAt true (String.eqb (cn_subprotocol conn) TunnelSubprotocolV2) in
  Ok (newSession lim who globalBudget rejects inbound 2 resumeChallenge (ck_start ck), [first; second]).

(** ** The resume *)

Definition with_armed (s : session) (armed : bool) : session :=
  MkSession (ss_id s) (ss_table s) (ss_writer s) (ss_inbound s) (ss_lastSeen s) (ss_authorized s)
    (ss_pendingPing s) (ss_pingLatency s) (ss_resumeChallenge s) armed (ss_terminated s)
    (ss_done s) (ss_closed s) (ss_healthReports s) (ss_agentBytes s).

(** The compare-and-swap that claims the one-shot slot. *)
Definition resume_claim (existing : session) : option session :=
  if ss_authorized existing && ss_resumeArmed existing then Some (with_armed existing false) else None.

Definition same_subject (existing : session) (resume : ResumeSession) : bool :=
  String.eqb (id_device (ss_id existing)) (rs_device_id resume) &&
  String.eqb (id_authorization (ss_id existing)) (rs_authorization_id resume) &&
  String.eqb (id_token (ss_id existing)) (rs_token_id resume).

(** The proof of possession and freshness. *)
Definition resume_fresh (lim : Limits) (existing : session) (resume : ResumeSession) (now : instant) : result unit :=
  reject_if (negb (MatchResumeChallenge (ss_resumeChallenge existing) (rs_resume_challenge resume)))
            (ErrWrap "resume challenge mismatch" errResumeUnavailable) ;?
  match ResumeIssuedAt resume with
  | Err _ => Err (ErrWrap "issued_at" errResumeUnavailable)
  | Ok issuedAt =>
    let skew := time_sub now issuedAt in
    reject_if ((ResumeAcceptanceWindow lim <? skew) || (skew <? - ResumeAcceptanceWindow lim))
              (ErrWrap "resume proof outside acceptance window" errResumeUnavailable)
  end.

Definition resume_authority (metadata : M) (resume : ResumeSession) (now : instant) : result unit :=
  match ms_Authorization metadata (rs_authorization_id resume) (rs_device_id resume) (rs_token_id resume) now with
  | (_, Some err) => Err (ErrWrap "resume authorization lookup" err)
  | (record, None) =>
    reject_if (negb (String.eqb (da_authorization_id record) (rs_authorization_id resume)) ||
               negb (String.eqb (da_device_id record) (rs_device_id resume)) ||
               negb (String.eqb (da_token_id record) (rs_token_id resume)))
              (ErrMsg "resume authorization mismatch") ;?
    reject_if (da_disabled record) (ErrMsg "resume authorization disabled") ;?
    VerifyResumeSignature Verify (da_device_public_key record) resume
  end.

(** What the holder of the claim does with the session: the resumed session
    and its challenge, and the session it came from. *)
Definition resume_claimed (lim : Limits) (metadata : M) (subprotocol : string) (entropy : entropy_source)
    (existing : session) (resume : ResumeSession) (inbound : SequenceTracker) (globalBudget : ByteBudget) (ck : clock)
  : result (session * string) * session :=
  if negb (same_subject existing resume) then (Err (ErrMsg "resume subject mismatch"), existing)
  else
    let checked :=
      let? _ := resume_fresh lim existing resume (ck_answer ck) in
      let? _ := resume_authority metadata resume (ck_authority ck) in
      match randomBase64URL entropy 0 32 with
      | Err e => Err (ErrWrap "generate resume challenge" e)
      | Ok next =>
        match resumeInto lim existing (String.eqb subprotocol TunnelSubprotocolV2) globalBudget inbound next
                (ck_start ck) with
        | None => Err errResumeUnavailable
        | Some resumed => Ok (resumed, next)
        end
      end in
    match checked with
    | Err e => (Err e, with_armed existing true)
    | Ok x => (Ok x, existing)
    end.

(** [gateway.tunnels]: the live sessions by device and session id. *)
Abbreviation tunnel_map := (gmap string (gmap string session)).

Definition tunnel_at (tunnels : tunnel_map) (device id : string) : option session := tunnels !! device ≫= (fun m => m !! id).

(** A change of the session object that the map refers to. *)
Definition set_tunnel (tunnels : tunnel_map) (device id : string) (s : session) : tunnel_map :=
  <[device := <[id := s]> (default ∅ (tunnels !! device))]> tunnels.

Definition resumeSession (net : nat -> answer) (lim : Limits) (metadata : M) (conn : connection)
    (entropy : entropy_source) (tunnels : tunnel_map) (resume : ResumeSession) (inbound : SequenceTracker)
    (globalBudget : ByteBudget) (ck : clock) : result session * tunnel_map :=
  if negb (IsTunnelSubprotocol (cn_subprotocol conn)) then (Err errResumeUnavailable, tunnels)
  else
    match tunnel_at tunnels (rs_device_id resume) (rs_session_id resume) with
    | None => (Err errResumeUnavailable, tunnels)
    | Some existing =>
      match resume_claim existing with
      | None => (Err errResumeUnavailable, tunnels)
      | Some claimed =>
        let changed := set_tunnel tunnels (rs_device_id resume) (rs_session_id resume) in
        match resume_claimed lim metadata (cn_subprotocol conn) entropy claimed resume inbound globalBudget ck with
        | (Err e, s') => (Err e, changed s')
        | (Ok (resumed, next), s') =>
          let message := MsgSessionResumed (MkSessionResumed ProtocolVersion "session_resumed"
                           (id_session (ss_id resumed)) 2 (stamp (ck_start ck)) next) in
          match sendControl net resumed 0 message with
          | (Err e, _) => (Err e, changed s')
          | (Ok _, sent) => (Ok sent, changed s')
          end
        end
      end
    end.
End Handshake.

(** ** What no operation of a running session touches *)

Definition frozen (s : session) : identity * string * bool :=
  (ss_id s, ss_resumeChallenge s, ss_resumeArmed s).

Lemma frozen_sendFrame net s kind id payload : frozen (sendFrame net s kind id payload).2 = frozen s.
Proof.
  unfold sendFrame, writeQueued. destruct (ss_done s); [done |]. destruct (net _); [done |].
  destruct (if kind =? KindData then None else expired); [done |].
  destruct (NextSequence _); [| done]. destruct (EncodeFrame _); [| done]. by destruct written.
Qed.

Lemma frozen_sent net s kind id payload r s' :
  sendFrame net s kind id payload = (r, s') -> frozen s' = frozen s.
Proof. intros E. pose proof (frozen_sendFrame net s kind id payload) as H. by rewrite E in H. Qed.

(** Reads a request to the writer as one that froze. *)
Ltac frozen_step :=
  match goal with
  | |- context [let '(_, _) := sendFrame ?net ?s ?k ?i ?p in _] =>
      let E := fresh "E" in
      destruct (sendFrame net s k i p) as [[?|?] ?] eqn:E; apply frozen_sent in E; simpl in *
  | |- frozen (sendFrame ?net ?s ?k ?i ?p).2 = _ => rewrite frozen_sendFrame
  | |- frozen (sendControl _ _ _ _).2 = _ => unfold sendControl
  end.

Ltac froze :=
  unfold sendWindowUpdate, sendControl; repeat frozen_step; cbn [snd]; try done;
  repeat match goal with E : frozen _ = frozen _ |- frozen _ = _ => etransitivity; [exact E |]; clear E end; try done.

Lemma frozen_errorStream net s id code message retryable err :
  frozen (errorStream net s id code message retryable err) = frozen s.
Proof. unfold errorStream. destruct (detachStream _ _ _) as [found T]. destruct (negb found); froze. Qed.

Lemma frozen_closeStream net s id reason : frozen (closeStream net s id reason) = frozen s.
Proof. unfold closeStream. destruct (detachStream _ _ _) as [found T]. destruct (negb found); froze. Qed.

Lemma frozen_grantCredits net s id size : frozen (grantCredits net s id size) = frozen s.
Proof.
  unfold grantCredits. destruct (_ !! id) as [[st [w|]]|]; [| done..]. destruct (size <=? 0); froze.
Qed.

Lemma frozen_send_chunks net fuel : forall s id paced payload,
  frozen (send_chunks net fuel s id paced payload).2 = frozen s.
Proof.
  induction fuel as [|fuel IH]; [done |]. intros s id paced payload. simpl.
  destruct (zlen payload =? 0); [done |]. unfold send_chunk. destruct (chunk_of payload) as [chunk rest].
  destruct (if paced then _ else _) as [[T|e]|]; [| done..]. froze. by rewrite IH.
Qed.

Lemma frozen_sendBytes net s id payload : frozen (sendBytes net s id payload).2 = frozen s.
Proof.
  unfold sendBytes. destruct (id_flow _); [destruct (stream_at _ _); [| done] |]; apply frozen_send_chunks.
Qed.

Lemma frozen_openStreamTarget net lim s requestID e a l mode :
  frozen (openStreamTarget net lim s requestID e a l mode).2 = frozen s.
Proof.
  unfold openStreamTarget. destruct requestID as [rid|]; [| done].
  destruct (open_locked _ _ _ _) as [[id|er] T]; [| done].
  unfold sendWindowUpdate, sendControl. frozen_step; [| froze].
  destruct (_ && _); froze.
Qed.

Lemma frozen_terminate net temporary s reason err :
  frozen (terminateAuthorization net temporary s reason err) = frozen s.
Proof.
  unfold terminateAuthorization. destruct (ss_terminated s); [done |].
  destruct (String.eqb reason EmptyString), (temporary err); try done; froze;
    match goal with |- frozen (close ?x _ _) = _ => change (frozen (close x _ _)) with (frozen x) end; froze.
Qed.

Lemma frozen_heartbeat net temporary lim s verdict pingID now :
  frozen (heartbeat_tick net temporary lim s verdict pingID now) = frozen s.
Proof.
  unfold heartbeat_tick. destruct verdict as [reason [err|]]; [apply frozen_terminate |].
  destruct (_ <? _); [done |]. destruct pingID; [| done]. froze.
Qed.

Lemma frozen_handleData net s frame : frozen (handleData net s frame).2 = frozen s.
Proof.
  unfold handleData. destruct (stream_at _ _) as [tn|]; [| by destruct (_ && _)].
  destruct (_ && _); [simpl; by rewrite frozen_errorStream |].
  destruct (enqueue_at _ _ _ _) as [[u|e] T]; [done |]. simpl. by rewrite frozen_errorStream.
Qed.

Lemma frozen_dispatch net s kind id payload now :
  frozen (dispatch_control net s kind id payload now).2 = frozen s.
Proof.
  unfold dispatch_control.
  repeat match goal with
  | |- frozen (if ?b then _ else _).2 = _ => destruct b
  | |- frozen (match json_unmarshal ?f ?p with _ => _ end).2 = _ => destruct (json_unmarshal f p)
  end; try done; froze; simpl.
  - unfold handle_pong. destruct (ss_pendingPing s). by destruct (_ && _).
  - by destruct (stream_at _ _).
  - unfold handle_window_update. destruct (stream_at _ _) as [[st [w|]]|]; [| done..].
    destruct (Window.Add _ _); [done | apply frozen_errorStream].
Qed.

Lemma frozen_run_once net s r now : frozen (run_once net s r now).2 = frozen s.
Proof.
  unfold run_once. destruct (readProtocolFrame r) as [frame|]; [| done].
  destruct (Accept _ _) as [inbound|]; [| done]. destruct (fr_kind frame =? KindControl).
  - pose proof (fun s0 => frozen_dispatch net s0) as Hd. unfold handleControl.
    destruct (ValidateControlPayload _ _ _); [| done]. destruct (json_unmarshal _ _); [| done].
    specialize (Hd (with_seen s inbound now)).
    match goal with |- context [dispatch_control net ?s0 ?k ?i ?p ?n] => specialize (Hd k i p n);
      destruct (dispatch_control net s0 k i p n) as [[u|e] s2] end; exact Hd.
  - destruct (fr_kind frame =? KindData); [| done].
    pose proof (frozen_handleData net (with_seen s inbound now) frame) as Hd.
    destruct (handleData _ _ _) as [[u|e] s2]; exact Hd.
Qed.

(** The identity of a session, its resume challenge and its resume slot. *)
Lemma session_step_frozen lim temporary s s' : session_step lim temporary s s' -> frozen s' = frozen s.
Proof.
  intros H. destruct H.
  - apply frozen_run_once.
  - apply frozen_openStreamTarget.
  - apply frozen_sendBytes.
  - unfold sendDatagram. destruct (_ <? _); froze.
  - unfold halfCloseStream. destruct (negb _); froze.
  - apply frozen_closeStream.
  - apply frozen_errorStream.
  - apply frozen_grantCredits.
  - by destruct H as (tn & dn & y & _ & _ & _ & ->).
  - apply frozen_heartbeat.
  - apply frozen_terminate.
  - done.
  - done.
Qed.

(** ** Signatures and tokens *)

(** The holder of the published device key signed [transcript]. *)
Definition signed_by (Verify : bytes -> bytes -> bytes -> bool) (key : string) (transcript : bytes)
    (signature : string) : Prop :=
  exists publicKey sig, b64_decode_string key = Some publicKey /\ zlen publicKey = PublicKeySize /\
    b64_decode_string signature = Some sig /\ zlen sig = SignatureSize /\ transcript <> [] /\
    Verify publicKey transcript sig = true.

Lemma nonempty_transcript (t : bytes) : (zlen t =? 0) = false -> t <> [].
Proof. intros H ->. by rewrite zlen_nil in H. Qed.

Lemma client_auth_signed Verify key hello challenge auth u :
  VerifyClientAuthSignature Verify key hello challenge auth = Ok u ->
  signed_by Verify key (AuthTranscript hello challenge) (ca_signature auth) /\
  ca_session_id auth = sc_session_id challenge.
Proof.
  unfold VerifyClientAuthSignature. destruct (b64_decode_string key) as [pk|] eqn:Ek; [| done].
  intros H. inv_ok. destruct (b64_decode_string (ca_signature auth)) as [sig|] eqn:Es; [| done]. inv_ok.
  match goal with X : (zlen _ =? 0) = false |- _ => apply nonempty_transcript in X end.
  bool_facts. split; [| done]. exists pk, sig. auto 7.
Qed.

Lemma resume_signed Verify key resume u :
  VerifyResumeSignature Verify key resume = Ok u ->
  signed_by Verify key (ResumeTranscript resume) (rs_signature resume).
Proof.
  unfold VerifyResumeSignature. destruct (b64_decode_string key) as [pk|] eqn:Ek; [| done].
  intros H. inv_ok. destruct (b64_decode_string (rs_signature resume)) as [sig|] eqn:Es; [| done]. inv_ok.
  match goal with X : (zlen _ =? 0) = false |- _ => apply nonempty_transcript in X end.
  bool_facts. exists pk, sig. auto 7.
Qed.

Lemma token_digest Sum256 record token :
  MatchSessionToken Sum256 record token = true ->
  hex_decode (bytes_of (da_token_sha256 record)) = Some (Sum256 (bytes_of token)).
Proof.
  unfold MatchSessionToken. destruct (hex_decode _) as [d|]; [| done]. destruct (negb _); [done |].
  intros H. apply ConstantTimeCompare_eq in H. by rewrite H.
Qed.

(** ** Authority of a new session *)

Lemma record_lookup docs md aid did tid now record :
  add_records NewSnapshotMetadata docs = (Ok tt, md) ->
  ms_Authorization md aid did tid now = (record, None) ->
  authority_to_connect docs aid did tid now record.
Proof.
  intros Hd H. apply loaded_reflects in Hd. apply (Authorization_iff _ _ _ _ _ _ _ Hd).
  unfold Authorization. simpl in H. by rewrite H.
Qed.

Lemma current_authority_sound Sum256 Verify docs md hello challenge auth now record expiresAt :
  add_records NewSnapshotMetadata docs = (Ok tt, md) ->
  current_authority Sum256 Verify md hello challenge auth now = Ok (record, expiresAt) ->
  authority_to_connect docs (ch_authorization_id hello) (ch_device_id hello) (ch_token_id hello) now record /\
  hex_decode (bytes_of (da_token_sha256 record)) = Some (Sum256 (bytes_of (ch_session_token hello))) /\
  signed_by Verify (da_device_public_key record) (AuthTranscript hello challenge) (ca_signature auth) /\
  ca_session_id auth = sc_session_id challenge /\ now < expiresAt.
Proof.
  intros Hd. unfold current_authority. destruct (ms_Authorization _ _ _ _ _) as [r [e|]] eqn:Er; [done |].
  apply (record_lookup docs) in Er as Ha; [| done]. intros H. inv_ok.
  destruct (go_parse_rfc3339 (da_expires_at r)) as [z|] eqn:Ez; [| done]. injection H as <- <-.
  apply client_auth_signed in E0 as [Hs Hi]. apply negb_false_iff, token_digest in E.
  split_and!; try done.
  destruct Ha as (_ & _ & _ & _ & _ & (nb & exp & _ & He & Hw) & _).
  apply go_parse_utc in He. rewrite Ez in He. injection He as ->. simpl. lia.
Qed.

Lemma read_client_auth_inbound conn inbound now auth inbound' :
  read_client_auth conn inbound now = Ok (auth, inbound') ->
  exists second, readProtocolFrame (cn_read conn 1) = Ok second /\ Accept inbound (fr_seq second) = Ok inbound' /\
    fr_kind second = KindControl /\ fr_stream second = 0 /\ ValidateControlPayload (fr_payload second) 0 now = Ok tt.
Proof.
  unfold read_client_auth. intros H. inv_ok. exists v. simplify_eq. bool_facts. auto.
Qed.

(** ** The full handshake *)

(** The frame [writeControlFrame] puts on the connection. *)
Definition control_frame (sequence : Z) (m : control_message) : Frame :=
  MkFrame KindControl 0 sequence (marshal_message m).

Lemma writeControlFrame_Ok conn n sequence m wire :
  is_u64 sequence -> writeControlFrame conn n sequence m = Ok wire ->
  frame_wf (control_frame sequence m) /\ wire = frame_bytes (control_frame sequence m).
Proof.
  unfold writeControlFrame. intros Hq H. inv_ok. destruct (cn_write conn n); [done |]. injection H as <-.
  assert (Hw : frame_wf (control_frame sequence m)) by (eapply encode_ok_wf, E; split; [done | by split; [| apply Hq]]).
  split; [done |]. unfold control_frame in *. rewrite (encode_wf _ Hw) in E. by injection E as <-.
Qed.

(** C1: A connection becomes a session only on authority that holds when its
    signature is checked, whatever the metadata said at the preface.  The
    record is published, enabled, active and unrevoked for the ids presented,
    its digest is that of the presented token, and its device key signed the
    transcript of this very challenge, whose session id and nonce came from
    fresh entropy.  The session carries exactly that record's identity and
    expiry, it is authorized in the sense the heartbeat rechecks, and it
    continues the sequence of the two frames already on the wire with nothing
    routed yet, in the invariant of a running session. *)
Theorem handshake_authority Sum256 Verify docs md lim conn entropy candidate g rejects ck s wire :
  add_records NewSnapshotMetadata docs = (Ok tt, md) ->
  is_i64 (MaxSessionQueueBytes lim) -> budget_ok g ->
  completeAuthentication Sum256 Verify lim md conn entropy candidate g rejects ck = Ok (s, wire) ->
  let hello := ah_hello candidate in
  exists record challenge ready auth,
    authority_to_connect docs (ch_authorization_id hello) (ch_device_id hello) (ch_token_id hello)
      (ck_authority ck) record /\
    hex_decode (bytes_of (da_token_sha256 record)) = Some (Sum256 (bytes_of (ch_session_token hello))) /\
    signed_by Verify (da_device_public_key record) (AuthTranscript hello challenge) (ca_signature auth) /\
    newID entropy 0 "session" = Ok (sc_session_id challenge) /\
    randomBase64URL entropy 1 32 = Ok (sc_server_nonce challenge) /\
    ss_id s = MkIdentity (ch_device_id hello) (sc_session_id challenge) (ch_authorization_id hello)
                (ch_token_id hello) (time_of (da_expires_at record)) true
                (String.eqb (cn_subprotocol conn) TunnelSubprotocolV2) /\
    authorized_by docs (ss_id s) (ck_authority ck) /\
    wire = [frame_bytes (control_frame 1 (MsgServerChallenge challenge));
            frame_bytes (control_frame 2 (MsgSessionReady ready))] /\
    sr_session_id ready = sc_session_id challenge /\ sr_resume_challenge ready = ss_resumeChallenge s /\
    wr_outbound (ss_writer s) = 2 /\ tb_streams (ss_table s) = ∅ /\ ss_authorized s = true /\
    session_ok (MaxStreamsPerSession lim) (MaxSessionQueueBytes lim) 2 s.
Proof.
  intros Hd Hq Hg H hello. unfold completeAuthentication in H. inv_ok.
  destruct (newID entropy 0 "session") as [sid|] eqn:Esid; [| done]. injection E as <-.
  destruct (randomBase64URL entropy 1 32) as [nonce|] eqn:En; [| done]. injection E0 as <-.
  destruct v2 as [auth inbound]. inv_ok. match goal with X : DeviceSessionAuthorization * instant |- _ =>
    destruct X as [record expiresAt] end. inv_ok. simplify_eq.
  match goal with X : writeControlFrame _ 0 _ _ = _, Y : writeControlFrame _ 1 _ _ = _,
                  Z : current_authority _ _ _ _ _ _ _ = _ |- _ =>
    apply writeControlFrame_Ok in X as [_ ->], Y as [_ ->]; [| by unfold is_u64..]; rename Z into Hauth end.
  destruct (current_authority_sound _ _ _ _ _ _ _ _ _ _ Hd Hauth) as (Ha & Ht & Hs & Hi & Hx).
  pose proof Ha as (_ & Haid & Hdid & Htid & _ & (nb & exp & _ & He & Hw) & _).
  assert (expiresAt = time_of (da_expires_at record)) as ->.
  { unfold current_authority in Hauth. destruct (ms_Authorization _ _ _ _ _) as [r [e|]]; [done |]. inv_ok.
    destruct (go_parse_rfc3339 (da_expires_at r)) eqn:Ez; [| done]. simplify_eq. unfold time_of. by rewrite Ez. }
  exists record; do 3 eexists.
  rewrite Haid, Hdid, Htid.
  split_and!; try done.
  - split; [exact Hx |]. by exists record.
  - eapply (good_new lim) with (lastOutbound := 2); [exact Hq | exact Hg | by unfold is_u64 | done..].
Qed.

(** ** The resume *)

(** Why a resume may go through: the whole of its conditions. *)
Record may_resume (docs : list (category * bytes)) (Verify : bytes -> bytes -> bytes -> bool) (lim : Limits)
    (existing : session) (resume : ResumeSession) (ck : clock) : Prop := MayResume {
  mr_live : ss_authorized existing = true;
  mr_armed : ss_resumeArmed existing = true;
  mr_subject : id_device (ss_id existing) = rs_device_id resume /\
    id_authorization (ss_id existing) = rs_authorization_id resume /\ id_token (ss_id existing) = rs_token_id resume;
  mr_challenge : ss_resumeChallenge existing <> EmptyString /\ rs_resume_challenge resume = ss_resumeChallenge existing;
  mr_fresh : exists issuedAt, ResumeIssuedAt resume = Ok issuedAt /\
    Z.abs (time_sub (ck_answer ck) issuedAt) <= ResumeAcceptanceWindow lim;
  mr_authority : exists record, authority_to_connect docs (rs_authorization_id resume) (rs_device_id resume)
    (rs_token_id resume) (ck_authority ck) record /\
    signed_by Verify (da_device_public_key record) (ResumeTranscript resume) (rs_signature resume);
}.

Lemma resume_claim_Some s c :
  resume_claim s = Some c <-> ss_authorized s = true /\ ss_resumeArmed s = true /\ c = with_armed s false.
Proof.
  unfold resume_claim. destruct (ss_authorized s), (ss_resumeArmed s); simpl; split; try intros [= <-]; try naive_solver.
Qed.

Lemma resume_fresh_Ok lim s resume now u :
  resume_fresh lim s resume now = Ok u ->
  ss_resumeChallenge s <> EmptyString /\ rs_resume_challenge resume = ss_resumeChallenge s /\
  exists issuedAt, ResumeIssuedAt resume = Ok issuedAt /\
    Z.abs (time_sub now issuedAt) <= ResumeAcceptanceWindow lim.
Proof.
  unfold resume_fresh, MatchResumeChallenge. intros H. inv_ok.
  destruct (ResumeIssuedAt resume) as [t|]; [| done]. inv_ok. bool_facts.
  destruct (_ || _) eqn:Es; [done |]. apply orb_false_iff in Es as [Es _]. bool_facts.
  match goal with X : ConstantTimeCompare _ _ = true |- _ => apply ConstantTimeCompare_eq, bytes_of_inj in X end.
  split_and!; [done | done |]. exists t. split; [done | lia].
Qed.

Lemma resume_authority_Ok docs md Verify resume now u :
  add_records NewSnapshotMetadata docs = (Ok tt, md) ->
  resume_authority Verify md resume now = Ok u ->
  exists record, authority_to_connect docs (rs_authorization_id resume) (rs_device_id resume)
    (rs_token_id resume) now record /\
    signed_by Verify (da_device_public_key record) (ResumeTranscript resume) (rs_signature resume).
Proof.
  intros Hd. unfold resume_authority. destruct (ms_Authorization _ _ _ _ _) as [r [e|]] eqn:Er; [done |].
  apply (record_lookup docs) in Er; [| done]. intros H. inv_ok. apply resume_signed in H. by exists r.
Qed.

Lemma same_subject_iff s resume :
  same_subject s resume = true <->
  id_device (ss_id s) = rs_device_id resume /\ id_authorization (ss_id s) = rs_authorization_id resume /\
  id_token (ss_id s) = rs_token_id resume.
Proof. unfold same_subject. rewrite !andb_true_iff, !String.eqb_eq. tauto. Qed.

(** The claim is kept by a subject mismatch and by success, and given back by
    every other refusal. *)
Lemma resume_claimed_slot lim {M} `{MetadataSource M} Verify (md : M) sub entropy s resume inbound g ck :
  let '(r, s') := resume_claimed Verify lim md sub entropy s resume inbound g ck in
  match r with
  | Ok _ => s' = s
  | Err _ => if same_subject s resume then s' = with_armed s true else s' = s
  end.
Proof.
  unfold resume_claimed. destruct (same_subject s resume); [| done]. simpl. by destruct (rbind _ _).
Qed.

Lemma resume_claimed_Ok lim {M} `{MetadataSource M} Verify (md : M) sub entropy s resume inbound g ck resumed next s' :
  resume_claimed Verify lim md sub entropy s resume inbound g ck = (Ok (resumed, next), s') ->
  s' = s /\ same_subject s resume = true /\ resume_fresh lim s resume (ck_answer ck) = Ok tt /\
  resume_authority Verify md resume (ck_authority ck) = Ok tt /\ randomBase64URL entropy 0 32 = Ok next /\
  resumeInto lim s (String.eqb sub TunnelSubprotocolV2) g inbound next (ck_start ck) = Some resumed.
Proof.
  unfold resume_claimed. destruct (same_subject s resume) eqn:Es; [| done]. simpl.
  destruct (rbind _ _) as [x|] eqn:E; [| done]. intros [= -> <-]. inv_ok.
  destruct (randomBase64URL _ _ _) as [c|] eqn:Ec; [| done].
  destruct (resumeInto _ _ _ _ _ _ _) as [r|] eqn:Er; [| done]. simplify_eq. done.
Qed.

Lemma with_armed_back s : ss_resumeArmed s = true -> with_armed (with_armed s false) true = s.
Proof. destruct s; simpl. by intros ->. Qed.

Lemma tunnel_set tunnels device id s : tunnel_at (set_tunnel tunnels device id s) device id = Some s.
Proof. unfold tunnel_at, set_tunnel. rewrite lookup_insert_eq. cbn. apply lookup_insert_eq. Qed.

Lemma set_tunnel_id tunnels device id s : tunnel_at tunnels device id = Some s -> set_tunnel tunnels device id s = tunnels.
Proof.
  unfold tunnel_at, set_tunnel. destruct (tunnels !! device) as [m|] eqn:E; [| done]. cbn. intros H.
  rewrite (insert_id m) by done. by apply insert_id.
Qed.

Lemma disarmed_refused {M} `{MetadataSource M} Verify net lim (md : M) conn entropy tunnels s resume inbound g ck :
  tunnel_at tunnels (rs_device_id resume) (rs_session_id resume) = Some s -> ss_resumeArmed s = false ->
  resumeSession Verify net lim md conn entropy tunnels resume inbound g ck = (Err errResumeUnavailable, tunnels).
Proof.
  intros Hs Ha. unfold resumeSession, resume_claim. destruct (negb _); [done |]. by rewrite Hs, Ha, andb_false_r.
Qed.

(** What a resumed session starts as. *)
Record resumed_from (s s' : session) (flow : bool) (next : string) (now : instant) : Prop := ResumedFrom {
  rf_id : ss_id s' = MkIdentity (id_device (ss_id s)) (id_session (ss_id s)) (id_authorization (ss_id s))
            (id_token (ss_id s)) (id_expiresAt (ss_id s)) (id_halfClose (ss_id s)) flow;
  rf_proof : ss_resumeChallenge s' = next /\ ss_resumeArmed s' = true;
  rf_streams : tb_streams (ss_table s') = ∅ /\ tb_store (ss_table s') = ∅ /\
    tb_nextID (ss_table s') = tb_nextID (ss_table s);
  rf_wire : wr_outbound (ss_writer s') = 1 /\ wr_wire (ss_writer s') =
    [frame_bytes (control_frame 1 (MsgSessionResumed (MkSessionResumed ProtocolVersion "session_resumed"
       (id_session (ss_id s)) 2 (stamp now) next)))];
}.

Lemma resume_sent net lim s flow g inbound next now resumed sent u :
  resumeInto lim s flow g inbound next now = Some resumed ->
  sendControl net resumed 0 (MsgSessionResumed (MkSessionResumed ProtocolVersion "session_resumed"
    (id_session (ss_id resumed)) 2 (stamp now) next)) = (Ok u, sent) ->
  resumed_from s sent flow next now.
Proof.
  unfold resumeInto. destruct (negb _); [done |]. intros [= <-] H.
  apply sendFrame_served in H as (expired & written & H). revert H. unfold writeQueued.
  cbn [ss_writer wr_outbound wr_wire wr_requests wr_publicBytes].
  change (KindControl =? KindData) with false. cbv iota. destruct expired; [done |].
  cbn [ss_writer with_writer wr_outbound]. change (NextSequence 0) with (Ok 1 : result Z). cbv iota beta.
  destruct (EncodeFrame _) as [frame|] eqn:Ef; [| done]. destruct written; [done |]. intros [= _ <-].
  split; try done. split; [done |]. simpl. f_equal.
  match type of Ef with EncodeFrame ?f = _ => assert (Hw : frame_wf f) by (eapply encode_ok_wf, Ef; by split) end.
  rewrite (encode_wf _ Hw) in Ef. by injection Ef as <-.
Qed.

(** C9: A resume goes through only for the live, authorized session that the
    Gateway has registered under the presented device and session ids, with its
    one-shot slot armed, on the subject, the challenge the Gateway last issued, a
    proof inside the acceptance window, an authorization that holds at that
    moment and the signature of its device key over all of that.  It then starts
    on the same identity and stream numbering with a fresh challenge and empty
    streams, and the slot it came from refuses every later attempt under those
    ids.  Refused, every registered session is as it was, the slot armed again,
    unless the presented authorization or token is not the session's, or the
    reply could not be sent; and no other registered session is ever touched. *)
Theorem resume_one_shot docs md Verify net lim conn entropy tunnels resume inbound g ck r tunnels' :
  add_records NewSnapshotMetadata docs = (Ok tt, md) ->
  resumeSession Verify net lim md conn entropy tunnels resume inbound g ck = (r, tunnels') ->
  let device := rs_device_id resume in
  let id := rs_session_id resume in
  match r with
  | Ok s' =>
      exists s next, tunnel_at tunnels device id = Some s /\ tunnels' = set_tunnel tunnels device id (with_armed s false) /\
        may_resume docs Verify lim s resume ck /\ randomBase64URL entropy 0 32 = Ok next /\
        resumed_from s s' (String.eqb (cn_subprotocol conn) TunnelSubprotocolV2) next (ck_start ck) /\
        forall net' conn' entropy' resume' inbound' g' ck', rs_device_id resume' = device -> rs_session_id resume' = id ->
          resumeSession Verify net' lim md conn' entropy' tunnels' resume' inbound' g' ck' =
          (Err errResumeUnavailable, tunnels')
  | Err _ =>
      tunnels' = tunnels \/
      exists s, tunnel_at tunnels device id = Some s /\ tunnels' = set_tunnel tunnels device id (with_armed s false) /\
        (same_subject s resume = false \/ may_resume docs Verify lim s resume ck)
  end.
Proof.
  intros Hd H device id. unfold resumeSession in H. fold device id in H. destruct (negb _) eqn:Esub; [injection H as <- <-; by left |].
  destruct (tunnel_at tunnels device id) as [s|] eqn:Et; [| injection H as <- <-; by left].
  destruct (resume_claim s) as [c|] eqn:Ec; [| injection H as <- <-; by left].
  apply resume_claim_Some in Ec as (Hl & Ha & ->). cbv zeta in H.
  pose proof (resume_claimed_slot lim Verify md (cn_subprotocol conn) entropy (with_armed s false) resume inbound g ck) as Hslot.
  destruct (resume_claimed _ _ _ _ _ _ _ _ _ _) as [[[resumed next]|e] s1] eqn:Er.
  - apply resume_claimed_Ok in Er as (-> & Hs & Hf & Hauth & Hn & Hinto).
    assert (Hmay : may_resume docs Verify lim s resume ck).
    { apply same_subject_iff in Hs. apply resume_fresh_Ok in Hf as (? & ? & ?).
      apply (resume_authority_Ok docs) in Hauth; [| done]. by split. }
    destruct (sendControl _ _ _ _) as [[u|e] sent] eqn:Esend; injection H as <- <-.
    + exists s, next. split_and!; try done; [by eapply resume_sent in Esend |].
      intros ????? ?? Hd' Hi'. eapply disarmed_refused; [rewrite Hd', Hi'; apply tunnel_set | done].
    + right. exists s. auto.
  - injection H as <- <-. change (same_subject (with_armed s false) resume) with (same_subject s resume) in Hslot.
    destruct (same_subject s resume) eqn:Es; subst s1; [left; rewrite with_armed_back by done; by apply set_tunnel_id | right; eauto].
Qed.

(** ** Concurrent attempts *)

(** A session, the resume attempts holding its claim, and those that
    succeeded; a refused attempt gives the claim back or burns it. *)
Record resume_race := MkRace { rz_session : session; rz_claims : nat; rz_resumed : nat }.

Section Race.
Context (lim : Limits) (temporary : error -> bool) {M : Type} `{MetadataSource M}.
Context (Verify : bytes -> bytes -> bytes -> bool).

Inductive race_step : resume_race -> resume_race -> Prop :=
| rz_run s s' c n : session_step lim temporary s s' -> race_step (MkRace s c n) (MkRace s' c n)
| rz_claim s s' c n : resume_claim s = Some s' -> race_step (MkRace s c n) (MkRace s' (S c) n)
| rz_refused md sub entropy resume inbound g ck s s' c n e :
    resume_claimed Verify lim md sub entropy s resume inbound g ck = (Err e, s') ->
    race_step (MkRace s (S c) n) (MkRace s' c n)
| rz_done md sub entropy resume inbound g ck s s' c n x :
    resume_claimed Verify lim md sub entropy s resume inbound g ck = (Ok x, s') ->
    race_step (MkRace s (S c) n) (MkRace s' c (S n)).

(** One token: the armed slot, a claim, or the resume that happened. *)
Definition race_ok (z : resume_race) : Prop :=
  ((if ss_resumeArmed (rz_session z) then 1 else 0) + rz_claims z + rz_resumed z <= 1)%nat.

Lemma race_step_ok z z' : race_ok z -> race_step z z' -> race_ok z'.
Proof.
  unfold race_ok. intros Hz H1. destruct H1; simpl in *.
  - apply session_step_frozen in H0. injection H0 as _ _ ->. lia.
  - apply resume_claim_Some in H0 as (_ & Ha & ->). rewrite Ha in Hz. simpl. lia.
  - pose proof (resume_claimed_slot lim Verify md sub entropy s resume inbound g ck) as Hs.
    rewrite H0 in Hs. destruct (ss_resumeArmed s); destruct (same_subject s resume); subst s'; simpl in *;
      destruct (ss_resumeArmed s); lia.
  - pose proof (resume_claimed_slot lim Verify md sub entropy s resume inbound g ck) as Hs.
    rewrite H0 in Hs. subst s'. lia.
Qed.
End Race.

(** However many resume attempts run at once against a session, with its
    own traffic in between, at most one of them ever succeeds or is still being
    checked, and once one has succeeded the slot stays empty and no other
    attempt is under way; meanwhile the identity and the challenge the attempts
    are checked against do not change. *)
Theorem resumed_at_most_once lim temporary {M} `{MetadataSource M} Verify s z :
  steps (race_step lim temporary Verify (M := M)) (MkRace s 0 0) z ->
  (rz_claims z + rz_resumed z <= 1)%nat /\
  (rz_resumed z = 1%nat -> rz_claims z = 0%nat /\ ss_resumeArmed (rz_session z) = false) /\
  (rz_claims z = 1%nat -> ss_resumeArmed (rz_session z) = false) /\
  ss_id (rz_session z) = ss_id s /\ ss_resumeChallenge (rz_session z) = ss_resumeChallenge s.
Proof.
  intros Hz.
  assert (Hok : race_ok z).
  { revert Hz. apply steps_invariant; [unfold race_ok; simpl; destruct (ss_resumeArmed s); lia |].
    intros a b. apply race_step_ok. }
  assert (Hid : ss_id (rz_session z) = ss_id s /\ ss_resumeChallenge (rz_session z) = ss_resumeChallenge s).
  { revert Hz. apply (steps_invariant _ (fun z => ss_id (rz_session z) = ss_id s /\
      ss_resumeChallenge (rz_session z) = ss_resumeChallenge s)); [done |].
    intros a b [Hi Hc] Hab. destruct Hab as [x x' c n Hx|x x' c n Hx|md sub en re inb g ck x x' c n e Hx
      |md sub en re inb g ck x x' c n y Hx]; simpl in *.
    - apply session_step_frozen in Hx. injection Hx as -> -> _. done.
    - by apply resume_claim_Some in Hx as (_ & _ & ->).
    - pose proof (resume_claimed_slot lim Verify md sub en x re inb g ck) as Hs. rewrite Hx in Hs.
      destruct (same_subject x re); by subst x'.
    - pose proof (resume_claimed_slot lim Verify md sub en x re inb g ck) as Hs. rewrite Hx in Hs. by subst x'. }
  unfold race_ok in Hok. destruct (ss_resumeArmed (rz_session z)); split_and!; try lia; try done; try apply Hid.
Qed.

(** ** Concrete handshakes *)

Definition demo_sha (_ : bytes) : bytes := repeat Byte.x00 31 ++ [Byte.xab].
Definition demo_verify (_ _ _ : bytes) : bool := true.
Definition demo_entropy : entropy_source := Some (fun _ size => Ok (repeat Byte.x00 (Z.to_nat size))).
Definition demo_clock : clock := let t := 1704110400000000000 in MkClock t t t t.

Definition demo_client_auth : control_message :=
  MsgClientAuth (MkClientAuth 1 "client_auth" "session-AAAAAAAAAAAAAAAA" (b64_encode_string (repeat Byte.x00 64))).

Definition demo_conn : connection :=
  MkConnection TunnelSubprotocolV2
    (fun _ => ReadMsg true (frame_bytes (control_frame 2 demo_client_auth))) (fun _ => None).

Definition demo_docs : list (category * bytes) := [(CatAuthorizations, demo_authorization)].
Definition demo_metadata : SnapshotMetadata := (add_records NewSnapshotMetadata demo_docs).2.

Lemma demo_loaded : add_records NewSnapshotMetadata demo_docs = (Ok tt, demo_metadata).
Proof.
  unfold demo_metadata. destruct (add_records NewSnapshotMetadata demo_docs) as [r md] eqn:E.
  apply (f_equal fst) in E. cbn [fst snd] in *. subst r. vm_compute. reflexivity.
Qed.

Definition demo_candidate : authorizedHandshake := MkHandshake demo_hello zero_authorization 1.

Lemma handshake_authority_witness :
  exists s wire, completeAuthentication demo_sha demo_verify DefaultLimits demo_metadata demo_conn demo_entropy
      demo_candidate demo_global 0 demo_clock = Ok (s, wire) /\
    authorized_by demo_docs (ss_id s) (ck_authority demo_clock).
Proof.
  destruct (completeAuthentication demo_sha demo_verify DefaultLimits demo_metadata demo_conn demo_entropy
    demo_candidate demo_global 0 demo_clock) as [[s wire]|e] eqn:E.
  - exists s, wire. split; [reflexivity |]. destruct demo_bounds as (_ & Hq & Hg & _).
    destruct (handshake_authority demo_sha demo_verify demo_docs demo_metadata DefaultLimits demo_conn demo_entropy
      demo_candidate demo_global 0 demo_clock s wire demo_loaded Hq Hg E)
      as (? & ? & ? & ? & _ & _ & _ & _ & _ & _ & Ha & _). exact Ha.
  - exfalso. apply (f_equal is_ok) in E. vm_compute in E. discriminate.
Defined.

(** A session that may be resumed, and the frame that resumes it. *)
Definition demo_resumable : session :=
  newSession DefaultLimits (MkIdentity "dev-1" "sess-1" "auth-1" "tok-1" 1704153600000000000 true true)
    demo_global 0 0 2 (b64_encode_string (repeat Byte.x01 32)) 0.

Definition demo_resume_clock : clock := let t := 1704067230000000000 in MkClock t t t t.

Definition demo_tunnels : gmap string (gmap string session) := {["dev-1" := {["sess-1" := demo_resumable]}]}.

Lemma resume_one_shot_witness :
  exists s', (resumeSession demo_verify demo_net DefaultLimits demo_metadata demo_conn demo_entropy
      demo_tunnels demo_resume 1 demo_global demo_resume_clock).1 = Ok s' /\
    may_resume demo_docs demo_verify DefaultLimits demo_resumable demo_resume demo_resume_clock.
Proof.
  destruct (resumeSession demo_verify demo_net DefaultLimits demo_metadata demo_conn demo_entropy
      demo_tunnels demo_resume 1 demo_global demo_resume_clock) as [[s'|e] x] eqn:E.
  - exists s'. split; [reflexivity |].
    destruct (resume_one_shot demo_docs demo_metadata demo_verify demo_net DefaultLimits demo_conn demo_entropy
      demo_tunnels demo_resume 1 demo_global demo_resume_clock (Ok s') x demo_loaded E)
      as (s & next & Hs & _ & Hm & _).
    assert (Hr : tunnel_at demo_tunnels (rs_device_id demo_resume) (rs_session_id demo_resume) = Some demo_resumable) by reflexivity.
    rewrite Hr in Hs. injection Hs as <-. exact Hm.
  - exfalso. apply (f_equal (fun y => is_ok y.1)) in E. vm_compute in E. discriminate.
Defined.

Lemma resumed_at_most_once_witness :
  let z := MkRace (with_armed demo_resumable false) 1 0 in
  (rz_claims z + rz_resumed z <= 1)%nat /\ ss_resumeArmed (rz_session z) = false.
Proof.
  intros z.
  destruct (resumed_at_most_once DefaultLimits (fun _ => false) (M := SnapshotMetadata) demo_verify demo_resumable z)
    as (H1 & _ & H2 & _).
  - eapply steps_snoc; [apply steps_refl |]. apply rz_claim. reflexivity.
  - split; [exact H1 | apply H2; reflexivity].
Defined.

(** ** Observation *)

(** A resume with someone else's token id is refused before any signature is
    looked at, and yet it spends the slot: the device's own resume is refused
    from then on, although every other failed proof gives the slot back. *)
Lemma mismatch_burns_the_slot :
  let forged := MkResumeSession 1 "resume_session" "dev-1" "auth-1" "tok-0" "sess-1"
                  (rs_resume_nonce demo_resume) (rs_resume_challenge demo_resume) (rs_issued_at demo_resume)
                  (rs_signature demo_resume) in
  let attempt s r := resumeSession demo_verify demo_net DefaultLimits demo_metadata demo_conn demo_entropy
                       {["dev-1" := {["sess-1" := s]}]} r 1 demo_global demo_resume_clock in
  attempt demo_resumable forged =
    (Err (ErrMsg "resume subject mismatch"), {["dev-1" := {["sess-1" := with_armed demo_resumable false]}]}) /\
  is_ok (attempt demo_resumable demo_resume).1 = true /\
  (attempt (with_armed demo_resumable false) demo_resume).1 = Err errResumeUnavailable.
Proof. split_and!; vm_compute; reflexivity. Qed.
