(* ===== verification/AgentDoor.v ===== *)
(** * AgentDoor: admission of Agent connections

    What [handleAgent] of [internal/gateway/gateway.go] does around the
    handshake of {!Handshake}: the drain check, the per-peer rate before any
    slot is taken, the bounded pending-handshake slots, the two admission
    limits before the expensive part, what each failure closes the connection
    with, and the registration of the session.  Connections are served by
    concurrent goroutines, so the three stages of one connection are separate
    steps of the door and any number of connections interleave. *)

From S2P Require Import Prelude GoFloat GoTime Json Frame Contract Control ControlCodec GwLimits Admission Metadata GwStream Wire SessTable GwSession SessAuth Registry Handshake.

(** ** State *)

(** Where a connection that holds a handshake slot stands. *)
Inductive stage :=
| Preface                              (* its first frame is awaited *)
| Authenticating (deviceID : string).  (* admitted for the device *)

#[export] Instance stage_eq_dec : EqDecision stage.
Proof. solve_decision. Defined.

Record door := MkDoor {
  dr_draining : bool;
  dr_preAuthRate : KeyedTokenBuckets;
  dr_slots : Z;                        (* len(handshakeSlots) *)
  dr_handshakeRejects : Z;
  dr_handshakeRate : TokenBucket;
  dr_devices : KeyedAdmissionLimiter;  (* handshakeDeviceAdmission *)
  dr_pending : gmap nat stage;         (* the goroutines between the two *)
}.

Definition new_door (lim : Limits) (now : instant) : door :=
  MkDoor false (NewKeyedTokenBuckets (PreAuthRatePerSecond lim) (PreAuthRateBurst lim)) 0 0
    (NewTokenBucket (HandshakeRatePerSecond lim) (HandshakeRateBurst lim) now)
    (NewHardKeyedAdmissionLimiter (MaxPendingHandshakes lim) (HandshakeRatePerSecond lim) (HandshakeRateBurst lim))
    ∅.

(** ** Arrival *)

(** The HTTP error of a connection turned away, or [None] once it holds a slot. *)
Definition arrive (lim : Limits) (d : door) (conn : nat) (peer : string) (now : instant)
  : option (Z * string) * door :=
  if dr_draining d then (Some (503, "gateway is draining"), d)
  else
    let '(allowed, preAuth) := AllowKey (dr_preAuthRate d) peer now in
    let d := MkDoor (dr_draining d) preAuth (dr_slots d) (dr_handshakeRejects d) (dr_handshakeRate d)
               (dr_devices d) (dr_pending d) in
    if negb allowed then (Some (429, "too many pending handshakes"), d)
    else if MaxPendingHandshakes lim <=? dr_slots d then
      (Some (503, "too many pending handshakes"),
       MkDoor (dr_draining d) (dr_preAuthRate d) (dr_slots d) (u64 (dr_handshakeRejects d + 1))
         (dr_handshakeRate d) (dr_devices d) (dr_pending d))
    else
      (None, MkDoor (dr_draining d) (dr_preAuthRate d) (dr_slots d + 1) (dr_handshakeRejects d)
               (dr_handshakeRate d) (dr_devices d) (<[conn := Preface]> (dr_pending d))).

(** [releaseHandshakeSlot] of a connection that leaves. *)
Definition leave (d : door) (conn : nat) : door :=
  MkDoor (dr_draining d) (dr_preAuthRate d) (dr_slots d - 1) (dr_handshakeRejects d) (dr_handshakeRate d)
    (dr_devices d) (delete conn (dr_pending d)).

(** ** After the preface *)

Definition close_frame := (Z * string)%type.

Definition resume_unavailable : close_frame :=
  (StatusTryAgainLater, "resume unavailable; reconnect with full handshake").
Definition metadata_unavailable : close_frame := (StatusTryAgainLater, "authorization metadata unavailable").
Definition authentication_failed : close_frame := (StatusPolicyViolation, "authentication failed").

Definition preface_close (err : error) : close_frame :=
  if metadataTemporarilyUnavailable err then metadata_unavailable
  else if errors_is err errResumeUnavailable then resume_unavailable
  else authentication_failed.

(** The device a preface is admitted under. *)
Definition preface_device (preface : authorizedHandshake * option ResumeSession) : string :=
  match preface with
  | (_, Some resume) => rs_device_id resume
  | (candidate, None) => da_device_id (ah_record candidate)
  end.

Definition after_preface (d : door) (conn : nat) (preface : result (authorizedHandshake * option ResumeSession))
    (now : instant) : option close_frame * door :=
  match preface with
  | Err err => (Some (preface_close err), leave d conn)
  | Ok preface =>
    let '(allowed, rate) := Allow (dr_handshakeRate d) now in
    let d := MkDoor (dr_draining d) (dr_preAuthRate d) (dr_slots d) (dr_handshakeRejects d) rate
               (dr_devices d) (dr_pending d) in
    if negb allowed then
      (Some (StatusTryAgainLater, "agent handshake rate limit exceeded"), leave d conn)
    else
      let device := preface_device preface in
      let '(admission, devices) := TryAcquire (dr_devices d) device now in
      let d := MkDoor (dr_draining d) (dr_preAuthRate d) (dr_slots d) (dr_handshakeRejects d)
                 (dr_handshakeRate d) devices (dr_pending d) in
      if bool_decide (admission <> Accepted) then
        (Some (StatusTryAgainLater, "device handshake admission limit exceeded"), leave d conn)
      else
        (None, MkDoor (dr_draining d) (dr_preAuthRate d) (dr_slots d) (dr_handshakeRejects d)
                 (dr_handshakeRate d) devices (<[conn := Authenticating device]> (dr_pending d)))
  end.

(** ** After the authentication *)

Definition auth_close (err : error) : close_frame :=
  if errors_is err errResumeUnavailable then resume_unavailable
  else if metadataTemporarilyUnavailable err then metadata_unavailable
  else authentication_failed.

(** The two budgets are returned before the outcome is looked at; [None] is
    the panic of a release that was never acquired. *)
Definition after_authentication (d : door) (conn : nat) (device : string) : option door :=
  match Release (dr_devices d) device with
  | None => None
  | Some devices =>
    Some (leave (MkDoor (dr_draining d) (dr_preAuthRate d) (dr_slots d) (dr_handshakeRejects d)
                   (dr_handshakeRate d) devices (dr_pending d)) conn)
  end.

(** The end of [handleAgent]: the registry, the session as the registration
    leaves it, the close frame of a connection that is not served, and the
    session it displaced. *)
Definition admit_session (who : handle -> entry) (lim : Limits) (m : moment) (r : registry) (h : handle)
    (outcome : result session) : registry * option session * option close_frame * option handle :=
  match outcome with
  | Err err => (r, None, Some (auth_close err), None)
  | Ok sess =>
    match registerSession who lim m r h with
    | (Err _, r', _) =>
      (r', Some (forceClose sess), Some (StatusTryAgainLater, "session capacity reached"), None)
    | (Ok _, r', displaced) => (r', Some sess, None, displaced)
    end
  end.

(** ** The door as a transition system *)

Inductive door_step (lim : Limits) : door -> door -> Prop :=
| ds_arrive d conn peer now : dr_pending d !! conn = None -> door_step lim d (arrive lim d conn peer now).2
| ds_gone d conn : dr_pending d !! conn = Some Preface ->      (* [websocket.Accept] failed *)
    door_step lim d (leave d conn)
| ds_preface d conn preface now : dr_pending d !! conn = Some Preface ->
    door_step lim d (after_preface d conn preface now).2
| ds_auth d conn device d' : dr_pending d !! conn = Some (Authenticating device) ->
    after_authentication d conn device = Some d' -> door_step lim d d'
| ds_drain d : door_step lim d (MkDoor true (dr_preAuthRate d) (dr_slots d) (dr_handshakeRejects d)
    (dr_handshakeRate d) (dr_devices d) (dr_pending d)).

(** ** Accounting *)

Definition authenticating (d : door) (device : string) : nat :=
  count_if (fun st => st = Authenticating device) (dr_pending d).

Record door_ok (lim : Limits) (d : door) : Prop := DoorOk {
  do_slots : dr_slots d = Z.of_nat (size (dr_pending d));
  do_bound : dr_slots d <= MaxPendingHandshakes lim;
  do_limiter : limiter_ok (dr_devices d);
  do_share : kl_alwaysFair (dr_devices d) = true /\
             kl_fairMaxInFlight (dr_devices d) = FairnessShare (MaxPendingHandshakes lim);
  do_held : forall device, InFlight (dr_devices d) device = Z.of_nat (authenticating d device);
  do_fair : forall device, InFlight (dr_devices d) device <= FairnessShare (MaxPendingHandshakes lim);
}.

(** A connection at stage [st] leaves, its device's admission with it. *)
Lemma leave_ok lim d conn st devices :
  door_ok lim d -> dr_pending d !! conn = Some st -> limiter_ok devices ->
  kl_alwaysFair devices = true -> kl_fairMaxInFlight devices = FairnessShare (MaxPendingHandshakes lim) ->
  (forall k, InFlight devices k = InFlight (dr_devices d) k - (if decide (st = Authenticating k) then 1 else 0)) ->
  forall p r x, door_ok lim (leave (MkDoor (dr_draining d) p (dr_slots d) x r devices (dr_pending d)) conn).
Proof.
  intros [Hs Hb Hl Hf Hh Hx] Hc Hl' Ha Hm Hk p r x.
  pose proof (size_delete _ _ _ Hc) as Hsz.
  split; simpl; try done; [lia | lia | |].
  - intros k. rewrite Hk, Hh. unfold authenticating. simpl. rewrite (count_delete _ _ _ _ Hc).
    destruct (decide _); lia.
  - intros k. rewrite Hk. pose proof (Hx k). destruct (decide _); lia.
Qed.

Lemma TryAcquire_shape l key now :
  let l' := (TryAcquire l key now).2 in
  kl_alwaysFair l' = kl_alwaysFair l /\ kl_fairMaxInFlight l' = kl_fairMaxInFlight l.
Proof.
  unfold TryAcquire. assert (Ho : kl_alwaysFair (observeKey l key now) = kl_alwaysFair l)
    by (unfold observeKey; by destruct (String.eqb _ _)).
  destruct (observeKey_states l key now) as (_ & _ & Hf).
  destruct (key_state _ _ _) as [st m]. destruct (_ <=? _); [simpl; by rewrite Ho, Hf |].
  destruct (refill _ _ _ _ _) as [n t]. destruct (f_lt _ _); simpl; by rewrite Ho, Hf.
Qed.

Lemma Release_shape l key l' : Release l key = Some l' ->
  kl_alwaysFair l' = kl_alwaysFair l /\ kl_fairMaxInFlight l' = kl_fairMaxInFlight l.
Proof. unfold Release. destruct (_ !! key); [| done]. destruct (_ <=? 0); [done |]. by intros [= <-]. Qed.

Lemma arrive_ok lim d conn peer now :
  door_ok lim d -> dr_pending d !! conn = None -> door_ok lim (arrive lim d conn peer now).2.
Proof.
  intros Hd Hc. pose proof Hd as [Hs Hb Hl Hf Hh Hx]. unfold arrive. destruct (dr_draining d); [done |].
  destruct (AllowKey _ _ _) as [allowed preAuth]. destruct allowed; simpl; [| by split].
  destruct (_ <=? _) eqn:Efull; simpl; [by split |]. bool_facts. split; simpl; try done; [| lia |].
  - rewrite map_size_insert_None by done. lia.
  - intros k. unfold authenticating. simpl. rewrite count_insert by done.
    rewrite Hh. unfold authenticating. destruct (decide _); [done | lia].
Qed.

Lemma after_preface_ok lim d conn preface now :
  door_ok lim d -> dr_pending d !! conn = Some Preface -> door_ok lim (after_preface d conn preface now).2.
Proof.
  intros Hd Hc. pose proof Hd as [Hs Hb Hl [Hf Hfm] Hh Hx].
  assert (Hgo : forall p r x l, limiter_ok l -> kl_alwaysFair l = true ->
      kl_fairMaxInFlight l = FairnessShare (MaxPendingHandshakes lim) ->
      (forall k, InFlight l k = InFlight (dr_devices d) k) ->
      door_ok lim (leave (MkDoor (dr_draining d) p (dr_slots d) x r l (dr_pending d)) conn)).
  { intros p r x l H1 H2 H3 H4. apply (leave_ok lim d conn Preface); try done.
    intros k. rewrite H4. destruct (decide _); [done | lia]. }
  unfold after_preface. destruct preface as [preface|err]; [| by destruct d; apply Hgo].
  destruct (Allow _ _) as [allowed rate]. destruct allowed; cbn [negb]; cbv zeta; [| by apply Hgo].
  pose proof (limiter_acquire_ok (dr_devices d) (preface_device preface) now Hl) as Hok.
  pose proof (TryAcquire_shape (dr_devices d) (preface_device preface) now) as [Hsf Hsm].
  cbn [dr_devices]. destruct (TryAcquire _ _ _) as [admission devices] eqn:Et.
  destruct (TryAcquire_in_flight _ _ _ _ _ Hl Et) as (_ & _ & Hk). simpl in Hok, Hsf, Hsm.
  case_bool_decide as Ha; cbn [dr_draining dr_preAuthRate dr_slots dr_handshakeRejects dr_handshakeRate dr_pending].
  - apply Hgo; try congruence. intros k. rewrite Hk. destruct (decide _) as [[? _]|]; [done | lia].
  - assert (admission = Accepted) as -> by (by destruct (decide (admission = Accepted))).
    split; simpl; try done; [| by split; congruence | |].
    + rewrite map_size_insert_Some by (by eexists). done.
    + intros k. unfold authenticating. simpl. rewrite <- insert_delete_eq, count_insert by apply lookup_delete_eq.
      rewrite Hk, Hh. unfold authenticating. rewrite (count_delete _ _ _ _ Hc).
      destruct (decide (Preface = _)) as [|_]; [done |].
      destruct (decide (Accepted = Accepted /\ _)) as [[_ ->]|Hn], (decide (Authenticating _ = _)) as [Ey|Hy]; try lia;
        [done | by destruct Hn; simplify_eq].
    + intros k. rewrite Hk. destruct (TryAcquire_in_flight _ _ _ _ _ Hl Et) as (Hlt & _).
      specialize (Hlt eq_refl). unfold share_for in Hlt. rewrite Hf, Hfm in Hlt. simpl in Hlt.
      pose proof (Hx k). destruct (decide _) as [[_ ->]|]; lia.
Qed.

Lemma after_authentication_ok lim d conn device d' :
  door_ok lim d -> dr_pending d !! conn = Some (Authenticating device) ->
  after_authentication d conn device = Some d' -> door_ok lim d'.
Proof.
  intros Hd Hc. pose proof Hd as [_ _ Hl [Hf Hfm] _ _]. unfold after_authentication.
  pose proof (Release_spec (dr_devices d) device Hl) as Hr.
  destruct (Release _ _) as [l|] eqn:Er; [| done]. intros [= <-]. destruct Hr as (_ & Hok & Hk).
  apply Release_shape in Er as [H1 H2].
  eapply leave_ok; try done; [congruence.. |]. intros k. rewrite Hk.
  destruct (decide (k = device)) as [->|Hn], (decide (Authenticating _ = _)) as [Ey|Hy]; simplify_eq; try lia; done.
Qed.

Lemma door_step_ok lim d d' : door_ok lim d -> door_step lim d d' -> door_ok lim d'.
Proof.
  intros Hd H. destruct H as [d conn peer now Hc|d conn Hc|d conn preface now Hc|d conn device d' Hc Ha|d].
  - by apply arrive_ok.
  - pose proof (after_preface_ok lim d conn (Err (ErrMsg EmptyString)) 0 Hd Hc). done.
  - by apply after_preface_ok.
  - by eapply after_authentication_ok.
  - destruct Hd. by split.
Qed.

Lemma new_door_ok lim now : 0 < MaxPendingHandshakes lim < 2 ^ 61 -> door_ok lim (new_door lim now).
Proof.
  intros H. split; try done; cbn [dr_slots new_door dr_devices].
  - lia.
  - split; [done |]. split; [by apply fairness_share_le | apply map_Forall_empty].
  - intros k. change (InFlight _ k) with 0. pose proof (fairness_share_le _ H). lia.
Qed.

(** However connections interleave, the handshakes in progress are at most
    MaxPendingHandshakes, each holding exactly one slot; the ones being
    authenticated for one device are exactly what the device's admission
    counts, at most the fair share, so one device never takes every slot; and
    a connection that finishes always finds its admission to return. *)
Theorem handshake_door_bounded lim now d :
  0 < MaxPendingHandshakes lim < 2 ^ 61 ->
  steps (door_step lim) (new_door lim now) d ->
  dr_slots d = Z.of_nat (size (dr_pending d)) /\ dr_slots d <= MaxPendingHandshakes lim /\
  (forall device, InFlight (dr_devices d) device = Z.of_nat (authenticating d device) /\
     Z.of_nat (authenticating d device) <= FairnessShare (MaxPendingHandshakes lim)) /\
  (1 < MaxPendingHandshakes lim -> forall device, Z.of_nat (authenticating d device) < MaxPendingHandshakes lim) /\
  (forall conn device, dr_pending d !! conn = Some (Authenticating device) ->
     exists d', after_authentication d conn device = Some d').
Proof.
  intros Hlim H.
  assert (Hd : door_ok lim d)
    by (revert H; apply steps_invariant; [by apply new_door_ok | intros a b; apply door_step_ok]).
  pose proof Hd as [Hs Hb Hl Hf Hh Hx].
  assert (Hle : forall k, Z.of_nat (authenticating d k) <= FairnessShare (MaxPendingHandshakes lim))
    by (intros k; by rewrite <- Hh).
  split_and!; try done.
  - intros H1 k. pose proof (Hle k). pose proof (fairness_share_bounds _ (conj H1 (proj2 Hlim))). lia.
  - intros conn device Hc. unfold after_authentication.
    pose proof (Release_spec (dr_devices d) device Hl) as Hr. rewrite Hh in Hr.
    destruct (Release _ _); [by eexists |]. 
    pose proof (count_pos (fun st => st = Authenticating device) _ _ _ Hc eq_refl). unfold authenticating in Hr. lia.
Qed.

(** Two peers reach the door, the first is let through for its device. *)
Definition demo_door : door :=
  let d1 := (arrive DefaultLimits (new_door DefaultLimits 0) 1 "203.0.113.1" 0).2 in
  let d2 := (arrive DefaultLimits d1 2 "203.0.113.2" 0).2 in
  (after_preface d2 1 (Ok (demo_candidate, Some demo_resume)) 0).2.

Lemma demo_door_steps : steps (door_step DefaultLimits) (new_door DefaultLimits 0) demo_door.
Proof.
  eapply steps_cons; [by apply (ds_arrive _ _ 1 "203.0.113.1" 0) |].
  eapply steps_cons; [apply (ds_arrive _ _ 2 "203.0.113.2" 0); vm_compute; reflexivity |].
  eapply steps_cons; [| apply steps_refl].
  apply (ds_preface _ _ 1 (Ok (demo_candidate, Some demo_resume)) 0). vm_compute. reflexivity.
Qed.

Lemma handshake_door_bounded_witness :
  dr_slots demo_door = 2 /\ InFlight (dr_devices demo_door) "dev-1" = Z.of_nat (authenticating demo_door "dev-1").
Proof.
  split; [vm_compute; reflexivity |].
  destruct (handshake_door_bounded DefaultLimits 0 demo_door ltac:(split; vm_compute; reflexivity) demo_door_steps)
    as (_ & _ & H & _). apply H.
Defined.

(** ** Observation *)

(** A resume preface is admitted before anything in it was authenticated: the
    metadata is not consulted and no signature verified, and yet it takes a
    token of the handshake rate and of the admission of a device its sender
    chose, which the comment on [preAuthRate] in resources.go excludes. *)
Lemma unauthenticated_resume_spends_budget :
  let frame := control_frame 1 (MsgResumeSession demo_resume) in
  let conn := MkConnection TunnelSubprotocolV2 (fun _ => ReadMsg true (frame_bytes frame)) (fun _ => None) in
  let d := (arrive DefaultLimits (new_door DefaultLimits 0) 1 "203.0.113.1" 0).2 in
  forall metadata : SnapshotMetadata,
    readPreface demo_sha metadata conn 0 0 = Ok (MkHandshake zero_hello zero_authorization 1, Some demo_resume) /\
    let d' := (after_preface d 1 (readPreface demo_sha metadata conn 0 0) 0).2 in
    f_lt (tb_tokens (dr_handshakeRate d')) (tb_tokens (dr_handshakeRate d)) = true /\
    InFlight (dr_devices d') "dev-1" = 1.
Proof.
  intros frame conn d metadata.
  assert (E : readPreface demo_sha metadata conn 0 0 = Ok (MkHandshake zero_hello zero_authorization 1, Some demo_resume))
    by (vm_compute; reflexivity).
  rewrite E. cbv zeta. split; [reflexivity | split; vm_compute; reflexivity].
Qed.
