(* ===== verification/HttpBody.v ===== *)
(** * HttpBody: the byte streams of a tunneled HTTP exchange

    [responseHeaderLimitReader], [requestStreamWriter], [limitWriter],
    [responseHasBody], [copyTunneledResponseBody] and [validateTunneledStatus]
    of [internal/gateway/gateway.go].  Readers and writers they wrap answer as
    parameters: a reader returns at most the bytes asked for and perhaps an
    error, a writer takes the whole slice or fails. *)

From S2P Require Import Prelude Budget GwStream Wire GwSession.
Import Budget.Gateway.

Definition cr : Byte.byte := Byte.x0d.
Definition lf : Byte.byte := Byte.x0a.

(** ** The response header limit *)

Definition errResponseHeaderTooLarge : error := ErrSentinel "gateway.errResponseHeaderTooLarge".

Record responseHeaderLimitReader := MkHeaderLimit {
  hl_remaining : Z;
  hl_matched : nat;
  hl_done : bool;
}.

Definition newResponseHeaderLimitReader (limit : Z) : responseHeaderLimitReader := MkHeaderLimit limit 0 false.

Definition separator : bytes := [cr; lf; cr; lf].

(** The loop over the bytes read: the matched prefix of the separator, and
    whether it is complete. *)
Fixpoint match_separator (matched : nat) (data : bytes) : nat * bool :=
  match data with
  | [] => (matched, false)
  | value :: rest =>
    if bool_decide (separator !! matched = Some value) then
      if Nat.eqb (S matched) (length separator) then (S matched, true)
      else match_separator (S matched) rest
    else if Byte.eqb value cr then match_separator 1 rest
    else match_separator 0 rest
  end.

(** One [Read] of a slice of [want] bytes; [inner] is the wrapped reader. *)
Definition read_header_limited (r : responseHeaderLimitReader) (want : Z) (inner : Z -> bytes * option error)
  : bytes * option error * responseHeaderLimitReader :=
  if hl_done r then (inner want, r)
  else if hl_remaining r <=? 0 then ([], Some errResponseHeaderTooLarge, r)
  else
    let '(data, err) := inner (if hl_remaining r <? want then hl_remaining r else want) in
    let remaining := hl_remaining r - zlen data in
    let '(matched, finished) := match_separator (hl_matched r) data in
    let r' := MkHeaderLimit remaining matched finished in
    if negb finished && (remaining =? 0) then (data, Some errResponseHeaderTooLarge, r')
    else (data, err, r').

(** A run of reads: the bytes delivered. *)
Fixpoint header_reads (r : responseHeaderLimitReader) (reads : list (Z * (Z -> bytes * option error)))
  : bytes * responseHeaderLimitReader :=
  match reads with
  | [] => ([], r)
  | (want, inner) :: rest =>
    let '(data, _, r1) := read_header_limited r want inner in
    let '(more, r2) := header_reads r1 rest in
    (data ++ more, r2)
  end.

(** ** The request writer *)

Definition requestStreamChunkSize : Z := 32 * 1024.

Record requestStreamWriter := MkRequestWriter {
  rw_budget : ByteBudget;
  rw_rejected : Z;
  rw_written : Z;
  rw_calls : nat;                  (* calls of [send] so far *)
  rw_sent : list bytes;            (* the chunks handed to [send] that it took *)
}.

Section RequestWriter.
(** The context's state and the tunnel's answer at the n-th chunk. *)
Context (expired : nat -> option error) (send : nat -> bytes -> option error).

(** One pass of the loop of [Write]; the rest still to be written. *)
Definition write_chunk (w : requestStreamWriter) (data : bytes) : result bytes * requestStreamWriter :=
  match expired (rw_calls w) with
  | Some err => (Err err, w)
  | None =>
    let size := Z.min (zlen data) requestStreamChunkSize in
    let chunk := firstn (Z.to_nat size) data in
    match TryAcquire (rw_budget w) size with
    | (false, b) =>
      (Err ErrBudgetExhausted, MkRequestWriter b (u64 (rw_rejected w + 1)) (rw_written w) (rw_calls w) (rw_sent w))
    | (true, b) =>
      let b := after_release (Release b size) in
      match send (rw_calls w) chunk with
      | Some err => (Err err, MkRequestWriter b (rw_rejected w) (rw_written w) (S (rw_calls w)) (rw_sent w))
      | None =>
        (Ok (skipn (Z.to_nat size) data),
         MkRequestWriter b (rw_rejected w) (i64 (rw_written w + size)) (S (rw_calls w)) (rw_sent w ++ [chunk]))
      end
    end
  end.

(** [Write]: the bytes written, the error, and the writer. *)
Fixpoint write_request (fuel : nat) (w : requestStreamWriter) (data : bytes) (total : Z)
  : Z * option error * requestStreamWriter :=
  match fuel with
  | O => (total, None, w)
  | S fuel' =>
    if zlen data =? 0 then (total, None, w)
    else
      match write_chunk w data with
      | (Err err, w') => (total, Some err, w')
      | (Ok rest, w') => write_request fuel' w' rest (total + (zlen data - zlen rest))
      end
  end.

Definition request_Write (w : requestStreamWriter) (data : bytes) : Z * option error * requestStreamWriter :=
  write_request (S (length data)) w data 0.

(** [limitWriter.Write] over it. *)
Record limitWriter := MkLimitWriter { lw_w : requestStreamWriter; lw_remaining : Z }.

Definition limit_Write (l : limitWriter) (data : bytes) : Z * option error * limitWriter :=
  if lw_remaining l <? zlen data then (0, Some (ErrMsg "serialized request exceeds limit"), l)
  else
    let '(n, err, w) := request_Write (lw_w l) data in
    (n, err, MkLimitWriter w (lw_remaining l - n)).
End RequestWriter.

(** ** The response body *)

Record response := MkResponse {
  rp_head : bool;                  (* the request's method is HEAD *)
  rp_status : Z;
  rp_contentLength : Z;            (* -1: unknown *)
}.

Definition validateTunneledStatus (status : Z) : result unit :=
  reject_if ((status <? 200) || (599 <? status)) (ErrMsg "tunneled response status is not a final status").

Definition responseHasBody (r : response) : bool :=
  negb (rp_head r) && negb (rp_status r =? 204) && negb (rp_status r =? 304) && (200 <=? rp_status r).

(** A body: the bytes it yields and how it ends, [io.EOF] or an error. *)
Record body := MkBody { bd_data : bytes; bd_end : error }.

(** A destination takes this many bytes, then fails. *)
Record sink := MkSink { sk_room : option (Z * error) }.

(** [io.CopyN]: what reaches the destination, the error, and the body left. *)
Definition CopyN (dst : sink) (b : body) (n : Z) : bytes * option error * body :=
  let taken := firstn (Z.to_nat n) (bd_data b) in
  let rest := MkBody (skipn (Z.to_nat n) (bd_data b)) (bd_end b) in
  match sk_room dst with
  | Some (room, err) =>
    if room <? zlen taken then (firstn (Z.to_nat room) taken, Some err, rest)
    else if zlen taken =? n then (taken, None, rest) else (taken, Some (bd_end b), rest)
  | None => if zlen taken =? n then (taken, None, rest) else (taken, Some (bd_end b), rest)
  end.

(** What reaches the client, whether the body was longer than the limit, and
    the error. *)
Definition copyTunneledResponseBody (dst : sink) (r : response) (b : body) (limit : Z)
  : bytes * bool * option error :=
  if negb (responseHasBody r) then ([], false, None)
  else if 0 <=? rp_contentLength r then
    if rp_contentLength r =? 0 then ([], false, None)
    else
      let '(written, err, _) := CopyN dst b (rp_contentLength r) in (written, false, err)
  else
    let '(written, err, rest) := CopyN dst b limit in
    match err with
    | Some e => if errors_is e io_EOF then (written, false, None) else (written, false, Some e)
    | None =>
      match bd_data rest with
      | _ :: _ => (written, true, None)
      | [] => if errors_is (bd_end rest) io_EOF then (written, false, None)
              else (written, false, Some (bd_end rest))
      end
    end.

(** ** The end of the headers *)

(** The bytes seen contain an empty line. *)
Definition headers_ended (seen : bytes) : Prop := exists p q, seen = p ++ separator ++ q.

(** The matcher's state after bytes without an empty line, newest byte first:
    how much of the separator they end with. *)
Fixpoint starts (l p : bytes) {struct p} : bool :=
  match p, l with
  | [], _ => true
  | x :: p', y :: l' => Byte.eqb x y && starts l' p'
  | _, [] => false
  end.

Definition matcher (l : bytes) : nat :=
  if starts l [cr; lf; cr] then 3 else if starts l [lf; cr] then 2 else if starts l [cr] then 1 else 0.

Fixpoint ended_rev (l : bytes) : bool :=
  match l with
  | [] => false
  | _ :: l' => starts l [lf; cr; lf; cr] || ended_rev l'
  end.

Lemma starts_iff l p : starts l p = true <-> exists q, l = p ++ q.
Proof.
  revert l. induction p as [|x p IH]; intros l; [destruct l; (split; [eauto | done]) |].
  destruct l as [|y l]; [split; [done | by intros [q Hq]] |]. cbn [starts].
  rewrite andb_true_iff, byte_eqb_eq, IH. split.
  - intros [-> [q ->]]. by exists q.
  - intros [q Hq]. injection Hq as -> ->. eauto.
Qed.

Lemma ended_rev_iff l : ended_rev l = true <-> headers_ended (rev l).
Proof.
  unfold headers_ended. induction l as [|b l IH].
  - split; [done |]. intros (p & q & Hq). by destruct p.
  - change (ended_rev (b :: l)) with (starts (b :: l) [lf; cr; lf; cr] || ended_rev l).
    rewrite orb_true_iff, IH, starts_iff. cbn [rev]. split.
    + intros [[q Hq]|(p & q & Hq)].
      * exists (rev q), []. apply (f_equal (@rev _)) in Hq. simpl in Hq.
        rewrite Hq. by rewrite <- !app_assoc.
      * exists p, (q ++ [b]). by rewrite Hq, <- !app_assoc.
    + intros (p & q & Hq). destruct q as [|x q _] using rev_ind.
      * left. exists (rev p). apply (f_equal (@rev _)) in Hq.
        rewrite app_nil_r, !rev_app_distr, rev_involutive in Hq. exact Hq.
      * right. exists p, q. rewrite !app_assoc in Hq. apply app_inj_tail in Hq as [Hq _]. by rewrite Hq, app_assoc.
Qed.

Lemma matcher_lt l : (matcher l < 4)%nat.
Proof. unfold matcher. repeat case_match; lia. Qed.

(** The matcher's step. *)
Lemma separator_at m b :
  bool_decide (separator !! m = Some b) =
    match m with 0%nat | 2%nat => Byte.eqb cr b | 1%nat | 3%nat => Byte.eqb lf b | _ => false end.
Proof.
  assert (Hb : forall x, bool_decide (Some x = Some b) = Byte.eqb x b).
  { intros x. destruct (Byte.eqb x b) eqn:E; [apply bool_decide_eq_true_2; f_equal; by apply byte_eqb_eq |].
    apply bool_decide_eq_false_2. intros [= ->]. by rewrite byte_eqb_refl in E. }
  destruct m as [|[|[|[|m]]]]; [apply Hb.. |]. by apply bool_decide_eq_false_2.
Qed.

Lemma match_step l b data :
  match_separator (matcher l) (b :: data) =
    if starts (b :: l) [lf; cr; lf; cr] then (4%nat, true) else match_separator (matcher (b :: l)) data.
Proof.
  cbn [match_separator]. rewrite separator_at. rewrite (byte_eqb_sym b cr).
  assert (Hone : forall x, Byte.eqb cr x = true -> Byte.eqb lf x = false)
    by (intros x Hx; by apply byte_eqb_eq in Hx as <-).
  unfold matcher.
  destruct l as [|x [|y [|z l]]]; cbn [starts];
    [generalize (Hone b) | generalize (Hone b), (Hone x) | generalize (Hone b), (Hone x), (Hone y)
    | generalize (Hone b), (Hone x), (Hone y), (Hone z)];
    repeat match goal with
    | |- context [Byte.eqb ?c ?x] => is_var x; generalize (Byte.eqb c x)
    end; clear; intros; repeat match goal with q : bool |- _ => destruct q end; try reflexivity;
    exfalso; match goal with H : true = true -> true = false |- _ => discriminate (H eq_refl) end.
Qed.

Lemma ended_rev_app l p : ended_rev l = true -> ended_rev (p ++ l) = true.
Proof.
  intros H. induction p as [|b p IH]; [done |]. simpl. by rewrite IH, orb_true_r.
Qed.

Lemma match_run data : forall l, ended_rev l = false ->
  match_separator (matcher l) data =
    (if ended_rev (rev data ++ l) then 4%nat else matcher (rev data ++ l), ended_rev (rev data ++ l)).
Proof.
  induction data as [|b data IH]; intros l Hl; [simpl; by rewrite Hl |].
  rewrite match_step. cbn [rev]. rewrite <- app_assoc. change ([b] ++ l) with (b :: l).
  assert (He : ended_rev (b :: l) = starts (b :: l) [lf; cr; lf; cr])
    by (cbn [ended_rev]; by rewrite Hl, orb_false_r).
  destruct (starts (b :: l) _) eqn:Es; [by rewrite (ended_rev_app _ _ He) | by apply IH].
Qed.

(** What the reader knows of the bytes it has delivered. *)
Definition header_state (limit : Z) (r : responseHeaderLimitReader) (seen : bytes) : Prop :=
  if hl_done r then exists p q, seen = p ++ separator ++ q /\ zlen p + 4 <= limit
  else ended_rev (rev seen) = false /\ hl_matched r = matcher (rev seen) /\
       hl_remaining r = limit - zlen seen /\ zlen seen <= limit.

(** A reader returns at most what it is asked for. *)
Definition polite (want : Z) (inner : Z -> bytes * option error) : Prop :=
  0 <= want /\ forall k, 0 <= k -> zlen (inner k).1 <= k.

Lemma headers_ended_rev seen : headers_ended seen <-> ended_rev (rev seen) = true.
Proof. by rewrite ended_rev_iff, rev_involutive. Qed.

Lemma header_read_step limit r seen want inner data err r' :
  header_state limit r seen -> polite want inner -> read_header_limited r want inner = (data, err, r') ->
  header_state limit r' (seen ++ data) /\
  (hl_done r = true -> (data, err) = inner want) /\
  (hl_done r = false ->
     (hl_remaining r <= 0 /\ data = [] /\ err = Some errResponseHeaderTooLarge) \/
     (data = (inner (Z.min (hl_remaining r) want)).1 /\
      err = (if negb (ended_rev (rev (seen ++ data))) && (zlen (seen ++ data) =? limit)
             then Some errResponseHeaderTooLarge else (inner (Z.min (hl_remaining r) want)).2))).
Proof.
  unfold read_header_limited. intros Hs [Hw Hp]. unfold header_state in Hs.
  destruct (hl_done r) eqn:Ed.
  - intros [= Hi <-]. split; [| by split].
    destruct Hs as (p & q & -> & Hl). unfold header_state. rewrite Ed. exists p, (q ++ data). by rewrite <- !app_assoc.
  - destruct Hs as (He & Hm & Hr & Hl). destruct (hl_remaining r <=? 0) eqn:E0; bool_facts.
    { intros [= <- <- <-]. rewrite app_nil_r. split; [unfold header_state; by rewrite Ed |].
      split; [done |]. intros _. by left. }
    replace (if hl_remaining r <? want then hl_remaining r else want) with (Z.min (hl_remaining r) want)
      by (destruct (_ <? _) eqn:E; bool_facts; lia).
    pose proof (Hp (Z.min (hl_remaining r) want) ltac:(lia)) as Hlen.
    destruct (inner (Z.min (hl_remaining r) want)) as [d e] eqn:Ei. cbn [fst snd] in Hlen |- *.
    rewrite Hm, match_run by done. rewrite <- rev_app_distr.
    set (fin := ended_rev (rev (seen ++ d))).
    assert (Hz : (hl_remaining r - zlen d =? 0) = (zlen (seen ++ d) =? limit))
      by (rewrite zlen_app; apply eq_true_iff_eq; rewrite !Z.eqb_eq; lia).
    assert (Hst : forall m, (fin = false -> m = matcher (rev (seen ++ d))) ->
              header_state limit (MkHeaderLimit (hl_remaining r - zlen d) m fin) (seen ++ d)).
    { intros m Hmf. unfold header_state. cbn [hl_done hl_matched hl_remaining]. subst fin.
      destruct (ended_rev (rev (seen ++ d))) eqn:Ef.
      - apply headers_ended_rev in Ef as (p & q & Hpq). exists p, q. split; [done |].
        apply (f_equal zlen) in Hpq. rewrite !zlen_app in Hpq. pose proof (zlen_nonneg q).
        change (zlen separator) with 4 in Hpq. lia.
      - rewrite zlen_app. split_and!; [done | by apply Hmf | lia | lia]. }
    rewrite Hz. destruct (negb fin && _) eqn:Eq; intros [= <- <- <-];
      (split; [apply Hst; intros ->; done | split; [done |]]); intros _; right; fold fin; by rewrite Eq.
Qed.

Lemma header_reads_state limit reads : forall r seen more r',
  header_state limit r seen -> Forall (fun x => polite x.1 x.2) reads ->
  header_reads r reads = (more, r') -> header_state limit r' (seen ++ more).
Proof.
  induction reads as [|[want inner] reads IH]; intros r seen more r' Hs Hp; simpl.
  - intros [= <- <-]. by rewrite app_nil_r.
  - apply Forall_cons in Hp as [Hp Hps].
    destruct (read_header_limited r want inner) as [[data err] r1] eqn:E1.
    destruct (header_reads r1 reads) as [m2 r2] eqn:E2. intros [= <- <-].
    destruct (header_read_step _ _ _ _ _ _ _ _ Hs Hp E1) as (H1 & _).
    rewrite app_assoc. by eapply IH.
Qed.

(** However the tunneled response is cut into reads, the bytes pass
    unchanged, the header limit is lifted exactly once an empty line has been
    seen, and that line ended within the limit; until then at most [limit]
    bytes pass, and the read that would leave the headers unfinished at the
    limit is the one that fails with "headers too large", no earlier and no
    later; afterwards the reader is transparent. *)
Theorem response_headers_bounded limit reads seen r want inner data err r' :
  0 <= limit -> Forall (fun x => polite x.1 x.2) reads -> polite want inner ->
  header_reads (newResponseHeaderLimitReader limit) reads = (seen, r) ->
  read_header_limited r want inner = (data, err, r') ->
  (hl_done r = true <-> headers_ended seen) /\
  (headers_ended seen -> exists p q, seen = p ++ separator ++ q /\ zlen p + 4 <= limit) /\
  (hl_done r = true -> (data, err) = inner want) /\
  (hl_done r = false ->
     zlen (seen ++ data) <= limit /\
     (zlen seen < limit -> data = (inner (Z.min (limit - zlen seen) want)).1) /\
     ((inner (Z.min (limit - zlen seen) want)).2 <> Some errResponseHeaderTooLarge ->
      err = Some errResponseHeaderTooLarge <-> ~ headers_ended (seen ++ data) /\ zlen (seen ++ data) = limit)).
Proof.
  intros Hlim Hps Hp Hrun Hread.
  assert (Hs : header_state limit r ([] ++ seen)).
  { eapply header_reads_state; [| exact Hps | exact Hrun]. unfold header_state. simpl.
    rewrite zlen_nil. split_and!; [done | done | lia | lia]. }
  simpl in Hs. destruct (header_read_step _ _ _ _ _ _ _ _ Hs Hp Hread) as (Hs' & Ht & Hf).
  assert (Hd : hl_done r = true <-> headers_ended seen).
  { unfold header_state in Hs. destruct (hl_done r).
    - split; [| done]. intros _. destruct Hs as (p & q & -> & _). by exists p, q.
    - destruct Hs as (He & _). rewrite headers_ended_rev, He. done. }
  split; [done |]. split; [| split; [done |]].
  - intros He. apply Hd in He. unfold header_state in Hs. by rewrite He in Hs.
  - intros Hn. pose proof Hs as Hs0. unfold header_state in Hs0. rewrite Hn in Hs0.
    destruct Hs0 as (He & _ & Hrem & Hle). rewrite headers_ended_rev, not_true_iff_false.
    destruct (Hf Hn) as [(H0 & -> & ->)|(Hdata & Herr)].
    + rewrite app_nil_r. split_and!; [done | lia |]. intros _. split; [| done]. intros _. split; [done | lia].
    + rewrite Hrem in Hdata, Herr. split_and!; [| done |].
      * destruct Hp as [Hw Hp]. pose proof (Hp (Z.min (limit - zlen seen) want) ltac:(lia)).
        rewrite zlen_app, Hdata. lia.
      * intros Hi. rewrite Herr. destruct (ended_rev (rev (seen ++ data))) eqn:Ee; simpl; [naive_solver |].
        destruct (_ =? limit) eqn:El; bool_facts; naive_solver.
Qed.

(** ** Sending the request *)

Section Requests.
Context (expired : nat -> option error) (send : nat -> bytes -> option error).

(** From [w] to [w'] exactly [out] went to the tunnel, in chunks of 1 byte to
    32 KiB, and the ingress budget is as it was. *)
Record sent_exactly (w w' : requestStreamWriter) (out : bytes) : Prop := SentExactly {
  se_chunks : exists chunks, rw_sent w' = rw_sent w ++ chunks /\ concat chunks = out /\
                Forall (fun c => 0 < zlen c <= requestStreamChunkSize) chunks;
  se_written : is_i64 (rw_written w + zlen out) -> 0 <= rw_written w -> rw_written w' = rw_written w + zlen out;
  se_budget : budget_ok (rw_budget w') /\ b_limit (rw_budget w') = b_limit (rw_budget w) /\
              b_used (rw_budget w') = b_used (rw_budget w);
}.

Lemma sent_nothing w w' :
  budget_ok (rw_budget w') -> b_limit (rw_budget w') = b_limit (rw_budget w) ->
  b_used (rw_budget w') = b_used (rw_budget w) -> rw_sent w' = rw_sent w -> rw_written w' = rw_written w ->
  sent_exactly w w' [].
Proof.
  intros. split; [| rewrite zlen_nil; lia | done].
  exists []. rewrite app_nil_r. split_and!; [done | done | constructor].
Qed.

Lemma sent_app w w1 w2 out1 out2 :
  sent_exactly w w1 out1 -> sent_exactly w1 w2 out2 -> sent_exactly w w2 (out1 ++ out2).
Proof.
  intros [(c1 & H1 & H2 & H3) Hw1 (Hb1 & Hl1 & Hu1)] [(c2 & H4 & H5 & H6) Hw2 (Hb2 & Hl2 & Hu2)].
  split; [| | split_and!; [done | congruence | congruence]].
  - exists (c1 ++ c2). rewrite H4, H1, <- app_assoc, concat_app, H2, H5. split_and!; [done | done |].
    by apply Forall_app.
  - unfold is_i64 in *. rewrite zlen_app. intros Hi H0. pose proof (zlen_nonneg out1). pose proof (zlen_nonneg out2).
    rewrite Hw2; rewrite Hw1; lia.
Qed.

Lemma write_chunk_spec w data r w' :
  budget_ok (rw_budget w) -> data <> [] -> write_chunk expired send w data = (r, w') ->
  match r with
  | Ok rest => exists chunk, data = chunk ++ rest /\ 0 < zlen chunk /\ sent_exactly w w' chunk
  | Err _ => sent_exactly w w' []
  end.
Proof.
  intros Hb Hne. unfold write_chunk. destruct (expired _) as [e|]; [intros [= <- <-]; by apply sent_nothing |].
  assert (Hpos : 0 < zlen data) by (pose proof (zlen_nonneg data); destruct (decide (zlen data = 0)) as [Hz|];
    [by apply zlen_0 in Hz | lia]).
  set (size := Z.min (zlen data) requestStreamChunkSize).
  assert (Hsz : 0 < size <= requestStreamChunkSize /\ size <= zlen data)
    by (subst size; unfold requestStreamChunkSize; lia).
  pose proof (TryAcquire_spec (rw_budget w) size Hb) as Ha.
  destruct (TryAcquire (rw_budget w) size) as [[] b]; destruct Ha as (Hb' & Hl & Hu).
  2: { intros [= <- <-]. apply sent_nothing; simpl; try done; by rewrite Hu. }
  destruct Hu as [_ Hu]. destruct (Release_held b size Hb') as (b2 & -> & Hb2 & Hl2 & Hu2);
    [destruct Hb as (_ & ? & _); lia |].
  cbn [after_release]. destruct (send _ _) as [e|]; intros [= <- <-].
  - apply sent_nothing; simpl; try done; [congruence | lia].
  - assert (Hlen : zlen (firstn (Z.to_nat size) data) = size)
      by (unfold zlen; rewrite length_firstn; unfold zlen in Hsz; lia).
    exists (firstn (Z.to_nat size) data). rewrite firstn_skipn, Hlen. split_and!; [done | lia |]. split; simpl.
    + exists [firstn (Z.to_nat size) data]. simpl. rewrite app_nil_r. split_and!; [done | done |].
      constructor; [rewrite Hlen; lia | constructor].
    + rewrite Hlen. intros Hi H0. by apply i64_id.
    + split_and!; [done | congruence | lia].
Qed.

Lemma write_request_spec fuel : forall w data total n err w',
  budget_ok (rw_budget w) -> (length data < fuel)%nat ->
  write_request expired send fuel w data total = (n, err, w') ->
  exists out rest, data = out ++ rest /\ n = total + zlen out /\ (err = None <-> rest = []) /\ sent_exactly w w' out.
Proof.
  induction fuel as [|fuel IH]; [lia |]. intros w data total n err w' Hb Hf. simpl.
  destruct (zlen data =? 0) eqn:Ez; bool_facts.
  { apply zlen_0 in Ez as ->. intros [= <- <- <-]. exists [], []. rewrite zlen_nil.
    split_and!; [done | lia | done | by apply sent_nothing]. }
  assert (Hne : data <> []) by (intros ->; by rewrite zlen_nil in Ez).
  destruct (write_chunk expired send w data) as [[rest|e] w1] eqn:E1; pose proof (write_chunk_spec _ _ _ _ Hb Hne E1) as H1.
  - destruct H1 as (chunk & -> & Hpos & H1). intros H.
    assert (Hlt : (length rest < fuel)%nat) by (rewrite length_app in Hf; unfold zlen in Hpos; lia).
    destruct (IH _ _ _ _ _ _ (proj1 (se_budget _ _ _ H1)) Hlt H) as (out & rest' & -> & Hn & He & H2).
    exists (chunk ++ out), rest'. split_and!; [by rewrite app_assoc | rewrite Hn, !zlen_app; lia | done |].
    by eapply sent_app.
  - intros [= <- <- <-]. exists [], data. rewrite zlen_nil. split_and!; [done | lia | done | done].
Qed.

(** The writes of a serialized request, up to the first error. *)
Fixpoint limit_writes (l : limitWriter) (datas : list bytes) : option error * limitWriter :=
  match datas with
  | [] => (None, l)
  | data :: rest =>
    match limit_Write expired send l data with
    | (_, Some err, l') => (Some err, l')
    | (_, None, l') => limit_writes l' rest
    end
  end.

Lemma limit_writes_spec datas : forall l err l',
  budget_ok (rw_budget (lw_w l)) -> 0 <= lw_remaining l -> limit_writes l datas = (err, l') ->
  exists out rest, concat datas = out ++ rest /\ zlen out <= lw_remaining l /\
    lw_remaining l' = lw_remaining l - zlen out /\ (err = None -> rest = []) /\ sent_exactly (lw_w l) (lw_w l') out.
Proof.
  induction datas as [|data datas IH]; intros l err l' Hb Hr; simpl.
  - intros [= <- <-]. exists [], []. rewrite zlen_nil.
    split_and!; [done | lia | lia | done | by apply sent_nothing].
  - unfold limit_Write. destruct (lw_remaining l <? zlen data) eqn:El; bool_facts.
    { intros [= <- <-]. exists [], (data ++ concat datas). rewrite zlen_nil.
      split_and!; [done | lia | lia | done | by apply sent_nothing]. }
    unfold request_Write. destruct (write_request _ _ _ _ _ _) as [[n e] w] eqn:Ew.
    apply write_request_spec in Ew as (out & rest & -> & -> & He & Hs); [| done | lia].
    rewrite zlen_app in El. pose proof (zlen_nonneg rest). destruct e as [e|].
    + intros [= <- <-]. exists out, (rest ++ concat datas). simpl. rewrite <- app_assoc.
      split_and!; [done | lia | lia | done | done].
    + intros H1. rewrite (proj1 He eq_refl), app_nil_r in *.
      apply IH in H1 as (out2 & rest2 & Hd & Hle & Hrem & Herr & H2); simpl in *; [| apply Hs | lia].
      exists (out ++ out2), rest2. rewrite Hd, zlen_app, app_assoc.
      split_and!; [done | lia | lia | done |]. by eapply sent_app.
Qed.

End Requests.

(** What a public request puts into the tunnel is a prefix of its
    serialization, in order and in data chunks of 1 byte to 32 KiB, never more
    than the request limit; it is the whole serialization when no error is
    reported, a serialization above the limit always is one; the byte count
    reported for it is exact, and whatever happens the ingress byte budget
    ends where it started. *)
Theorem request_serialized expired send budget rejected limit datas err l :
  budget_ok budget -> 0 <= limit -> is_i64 limit ->
  limit_writes expired send (MkLimitWriter (MkRequestWriter budget rejected 0 0 []) limit) datas = (err, l) ->
  exists rest, concat datas = concat (rw_sent (lw_w l)) ++ rest /\
    Forall (fun c => 0 < zlen c <= requestStreamChunkSize) (rw_sent (lw_w l)) /\
    zlen (concat (rw_sent (lw_w l))) <= limit /\ rw_written (lw_w l) = zlen (concat (rw_sent (lw_w l))) /\
    (err = None -> rest = []) /\ (limit < zlen (concat datas) -> err <> None) /\
    budget_ok (rw_budget (lw_w l)) /\ b_used (rw_budget (lw_w l)) = b_used budget.
Proof.
  intros Hb Hl Hi H. apply limit_writes_spec in H as (out & rest & Hd & Hle & _ & Herr & Hs); [| done | done].
  destruct Hs as [(chunks & Hc & Ho & Hf) Hw (Hb' & _ & Hu)]. simpl in *.
  rewrite Hc, Ho. exists rest. split_and!; try done.
  - rewrite Hw; [lia | unfold is_i64 in *; pose proof (zlen_nonneg out); lia | lia].
  - intros Hlt He. rewrite (Herr He), app_nil_r in Hd. rewrite Hd in Hlt. lia.
Qed.

(** ** Forwarding the response *)

Lemma CopyN_spec dst b n written err rest :
  0 <= n -> (forall room e, sk_room dst = Some (room, e) -> 0 <= room) ->
  CopyN dst b n = (written, err, rest) ->
  (exists more, bd_data b = written ++ more) /\ zlen written <= n /\
  match err with
  | None => zlen written = n /\ bd_data rest = skipn (Z.to_nat n) (bd_data b) /\
            bd_data b = written ++ bd_data rest /\ bd_end rest = bd_end b /\
            (forall room e, sk_room dst = Some (room, e) -> n <= room)
  | Some e => (exists room, sk_room dst = Some (room, e) /\ room < Z.min n (zlen (bd_data b))) \/
              (e = bd_end b /\ written = bd_data b /\ zlen (bd_data b) < n)
  end.
Proof.
  intros Hn Hroom. unfold CopyN. set (taken := firstn (Z.to_nat n) (bd_data b)).
  assert (Ht : bd_data b = taken ++ skipn (Z.to_nat n) (bd_data b)) by (symmetry; apply firstn_skipn).
  assert (Hl : zlen taken = Z.min n (zlen (bd_data b))) by (unfold taken, zlen; rewrite length_firstn; lia).
  assert (Hwhole : zlen taken <> n -> taken = bd_data b).
  { intros Hx. unfold taken. apply take_ge. unfold zlen in *. lia. }
  assert (Hfull : forall w e r, (if zlen taken =? n then (taken, None, MkBody (skipn (Z.to_nat n) (bd_data b)) (bd_end b))
      else (taken, Some (bd_end b), MkBody (skipn (Z.to_nat n) (bd_data b)) (bd_end b))) = (w, e, r) ->
      (exists more, bd_data b = w ++ more) /\ zlen w <= n /\
      match e with None => zlen w = n /\ bd_data r = skipn (Z.to_nat n) (bd_data b) /\
                           bd_data b = w ++ bd_data r /\ bd_end r = bd_end b
      | Some e => e = bd_end b /\ w = bd_data b /\ zlen (bd_data b) < n end).
  { intros w e r. destruct (zlen taken =? n) eqn:E; bool_facts; intros [= <- <- <-].
    - split_and!; [eauto | lia | done | done | done | done].
    - assert (zlen (bd_data b) < n) by lia. rewrite (Hwhole E).
      split_and!; [exists []; by rewrite app_nil_r | lia | done | done | lia]. }
  destruct (sk_room dst) as [[room e]|].
  - pose proof (Hroom room e eq_refl). destruct (room <? zlen taken) eqn:Er; bool_facts.
    + intros [= <- <- _]. split_and!.
      * exists (skipn (Z.to_nat room) taken ++ skipn (Z.to_nat n) (bd_data b)).
        by rewrite app_assoc, firstn_skipn.
      * unfold zlen in *. rewrite length_firstn. lia.
      * left. exists room. split; [done | lia].
    + intros H1. assert (Hn' : err = None -> zlen taken = n)
        by (intros ->; destruct (zlen taken =? n) eqn:E; bool_facts; [done | discriminate]).
      apply Hfull in H1 as (? & ? & H2). split_and!; [done | done |].
      destruct err; [by right |]. destruct H2 as (? & ? & ? & ?). split_and!; try done.
      intros room' e' Hr. injection Hr as <- <-. rewrite <- (Hn' eq_refl). lia.
  - intros H1%Hfull. destruct H1 as (? & ? & H2). split_and!; [done | done |]. destruct err; [by right |].
    destruct H2 as (? & ? & ? & ?). by split_and!.
Qed.

Lemma copied_prefix dst r b limit written overflow err :
  0 <= limit -> (responseHasBody r = true -> rp_contentLength r <= limit) ->
  (forall room e, sk_room dst = Some (room, e) -> 0 <= room /\ errors_is e io_EOF = false) ->
  copyTunneledResponseBody dst r b limit = (written, overflow, err) ->
  (exists more, bd_data b = written ++ more) /\ zlen written <= limit.
Proof.
  intros Hl Hcl Hd. assert (Hroom : forall room e, sk_room dst = Some (room, e) -> 0 <= room)
    by (intros room e E; by apply (Hd room e)).
  assert (Hnil : (exists more, bd_data b = [] ++ more) /\ zlen [] <= limit)
    by (split; [by eexists | by rewrite zlen_nil]).
  unfold copyTunneledResponseBody. destruct (responseHasBody r); simpl; [| by intros [= <- _ _]].
  destruct (0 <=? _) eqn:Ec; bool_facts.
  - destruct (_ =? 0); [by intros [= <- _ _] |]. destruct (CopyN dst b _) as [[w e] rest] eqn:E. intros [= <- _ _].
    specialize (Hcl eq_refl). apply CopyN_spec in E as (Hp & Hle & _); [| lia | done]. split; [done | lia].
  - destruct (CopyN dst b limit) as [[w e] rest] eqn:E. apply CopyN_spec in E as (Hp & Hle & _); [| lia | done].
    intros H. by repeat (case_match; simplify_eq).
Qed.

(** What the client receives of an accepted tunneled response is a prefix
    of its body, never above the response limit; reported complete, it is the
    whole body: the announced length exactly, or everything up to the end of
    an unannounced one; an overflow is reported exactly when an unannounced
    body is longer than the limit and the client took the limit; a response
    that has no body forwards nothing. *)
Theorem response_body_forwarded dst r b limit written overflow err :
  0 <= limit -> rp_contentLength r <= limit ->
  (forall room e, sk_room dst = Some (room, e) -> 0 <= room /\ errors_is e io_EOF = false) ->
  copyTunneledResponseBody dst r b limit = (written, overflow, err) ->
  (exists more, bd_data b = written ++ more) /\ zlen written <= limit /\
  (responseHasBody r = false \/ rp_contentLength r = 0 -> written = [] /\ overflow = false /\ err = None) /\
  (responseHasBody r = true -> overflow = false -> err = None ->
     if 0 <=? rp_contentLength r then zlen written = rp_contentLength r
     else written = bd_data b /\ errors_is (bd_end b) io_EOF = true) /\
  (overflow = true <-> responseHasBody r = true /\ rp_contentLength r < 0 /\ limit < zlen (bd_data b) /\
     (forall room e, sk_room dst = Some (room, e) -> limit <= room)).
Proof.
  intros Hl Hcl Hd. assert (Hroom : forall room e, sk_room dst = Some (room, e) -> 0 <= room)
    by (intros room e E; by apply (Hd room e)).
  unfold copyTunneledResponseBody. destruct (responseHasBody r); simpl.
  2: { intros [= <- <- <-]. rewrite zlen_nil. split_and!; try done; [by eexists | naive_solver]. }
  destruct (0 <=? rp_contentLength r) eqn:Ec; bool_facts.
  - destruct (_ =? 0) eqn:E0; bool_facts.
    { intros [= <- <- <-]. rewrite zlen_nil. split_and!; try done; [by eexists |]. split; [done | lia]. }
    destruct (CopyN dst b _) as [[w e] rest] eqn:E. intros [= <- <- <-].
    apply CopyN_spec in E as (Hp & Hle & He); [| lia | done].
    split_and!; [done | lia | by intros [?|?] | | split; [done | lia]].
    intros _ _ ->. by destruct He.
  - destruct (CopyN dst b limit) as [[w e] rest] eqn:E.
    apply CopyN_spec in E as (Hp & Hle & He); [| lia | done].
    destruct e as [e|].
    + assert (Hno : ~ (limit < zlen (bd_data b) /\ (forall room e', sk_room dst = Some (room, e') -> limit <= room))).
      { intros [H1 H2]. destruct He as [(room & Hr & Hlt)|(_ & _ & Hlt)]; [apply H2 in Hr; lia | lia]. }
      destruct (errors_is e io_EOF) eqn:Ee; intros [= <- <- <-].
      * split_and!; try done; [by intros [?|?]; [| lia] | | naive_solver]. intros _ _ _.
        destruct He as [(room & Hr & _)|(-> & -> & _)]; [apply Hd in Hr as [_ Hr]; congruence | done].
      * split_and!; try done; [by intros [?|?]; [| lia] | naive_solver].
    + destruct He as (Hw & _ & Hsplit & Hend & Htook).
      assert (Hlen : zlen (bd_data b) = limit + zlen (bd_data rest)) by (rewrite Hsplit, zlen_app; lia).
      destruct (bd_data rest) as [|x more] eqn:Er.
      * rewrite zlen_nil in Hlen. rewrite app_nil_r in Hsplit. rewrite Hend.
        destruct (errors_is (bd_end b) io_EOF) eqn:Ee; intros [= <- <- <-].
        -- split_and!; try done; [by intros [?|?]; [| lia] |].
           split; [done |]. intros (_ & _ & ? & _). lia.
        -- split_and!; try done; [by intros [?|?]; [| lia] |].
           split; [done |]. intros (_ & _ & ? & _). lia.
      * intros [= <- <- <-]. rewrite zlen_cons in Hlen. pose proof (zlen_nonneg more).
        split_and!; try done; [by intros [?|?]; [| lia] |].
        split; [| done]. intros _. split_and!; [done | lia | lia | done].
Qed.

(** ** Concrete exchanges *)

Lemma response_headers_bounded_witness :
  let inner k := (firstn (Z.to_nat k) [cr; lf; cr; lf; cr], None) in
  (read_header_limited (newResponseHeaderLimitReader 8) 3 inner).1.1 = [cr; lf; cr] /\
  (hl_done (newResponseHeaderLimitReader 8) = true <-> headers_ended []).
Proof.
  intros inner. split; [reflexivity |].
  assert (Hp : polite 3 inner).
  { split; [lia |]. intros k Hk. unfold inner, zlen. cbn [fst]. rewrite length_firstn. lia. }
  destruct (read_header_limited (newResponseHeaderLimitReader 8) 3 inner) as [[data err] r'] eqn:E.
  apply (response_headers_bounded 8 [] [] (newResponseHeaderLimitReader 8) 3 inner data err r'
    ltac:(lia) (Forall_nil_2 _) Hp eq_refl E).
Defined.

Lemma request_serialized_witness :
  let w := MkRequestWriter (NewByteBudget (2 ^ 20)) 0 0 0 [] in
  exists l, limit_writes (fun _ => None) (fun _ _ => None) (MkLimitWriter w 8) [[cr; lf]; [cr]] = (None, l) /\
    rw_written (lw_w l) = zlen (concat (rw_sent (lw_w l))) /\ zlen (concat (rw_sent (lw_w l))) = 3.
Proof.
  intros w.
  destruct (limit_writes (fun _ => None) (fun _ _ => None) (MkLimitWriter w 8) [[cr; lf]; [cr]]) as [err l] eqn:E.
  exists l. assert (Hb : budget_ok (NewByteBudget (2 ^ 20)))
    by (unfold budget_ok, is_i64; simpl; split_and!; [lia | lia | lia | by left]).
  destruct (request_serialized (fun _ => None) (fun _ _ => None) (NewByteBudget (2 ^ 20)) 0 8 [[cr; lf]; [cr]] err l
    Hb ltac:(lia) ltac:(unfold is_i64; lia) E) as (_ & _ & _ & _ & Hw & _).
  split; [| split; [exact Hw |]]; vm_compute in E; injection E as <- <-; reflexivity.
Defined.

Lemma response_body_forwarded_witness :
  let r := MkResponse false 200 (- 1) in
  copyTunneledResponseBody (MkSink None) r (MkBody [cr; lf; cr] io_EOF) 2 = ([cr; lf], true, None) /\
  zlen [cr; lf] <= 2.
Proof.
  intros r. assert (E : copyTunneledResponseBody (MkSink None) r (MkBody [cr; lf; cr] io_EOF) 2 = ([cr; lf], true, None))
    by reflexivity.
  split; [exact E |].
  apply (response_body_forwarded (MkSink None) r (MkBody [cr; lf; cr] io_EOF) 2 [cr; lf] true None
    ltac:(lia) ltac:(simpl; lia) ltac:(simpl; intros; discriminate) E).
Defined.
