(* ===== verification/GoNet.v ===== *)
(** * GoNet: IP addresses of Go's [net] and [net/netip]

    The parts of the standard library the Gateway and the Agent decide trust with:
    [net.ParseIP] ([netip.ParseAddr]), [IP.String], [net.ParseCIDR],
    [IPNet.Contains], [IP.IsLoopback], [net.SplitHostPort] and
    [net.JoinHostPort].  An [IP] is its 16 bytes, an
    IPv4 address in its mapped form, as [ParseIP] returns it. *)

From S2P Require Import Prelude GoText Json ContractV2.

Definition IP := list Z.

(** ** IPv4 *)

(** [parseIPv4Fields]: four decimal fields without leading zeros. *)
Definition parse_ipv4 (s : bytes) : option (list Z) :=
  match split_on "."%byte s with
  | [a; b; c; d] =>
    match canonical_int 0 255 a, canonical_int 0 255 b, canonical_int 0 255 c, canonical_int 0 255 d with
    | Some a, Some b, Some c, Some d => Some [a; b; c; d]
    | _, _, _, _ => None
    end
  | _ => None
  end.

Definition v4InV6Prefix : list Z := repeat 0 10 ++ [255; 255].

(** [IP.To4]. *)
Definition To4 (ip : IP) : option (list Z) :=
  if bool_decide (firstn 12 ip = v4InV6Prefix) && Nat.eqb (length ip) 16 then Some (skipn 12 ip) else None.

(** ** IPv6 *)

(** The leading hex digits and their value, and the rest. *)
Fixpoint hex_group (s : bytes) (acc : Z) (off : nat) : Z * nat * bytes :=
  match s with
  | b :: r =>
    match hex_val b with
    | Some v => hex_group r (acc * 16 + v) (S off)
    | None => (acc, off, s)
    end
  | [] => (acc, off, s)
  end.

(** The loop over the groups: the bytes so far, where the ellipsis is, the
    rest of the string.  A pass consumes a digit at least, so the length is
    fuel enough. *)
Fixpoint ipv6_groups (fuel : nat) (s : bytes) (ip : list Z) (ellipsis : option nat) : option (list Z * option nat) :=
  match fuel with
  | O => None
  | S fuel' =>
    if Nat.leb 16 (length ip) then (match s with [] => Some (ip, ellipsis) | _ => None end)
    else
      let '(acc, off, rest) := hex_group s 0 0 in
      if Nat.eqb off 0 || Nat.ltb 4 off then None
      else
        match rest with
        | [] => Some (ip ++ [acc / 256; acc mod 256], ellipsis)
        | c :: rest1 =>
          if Byte.eqb c "."%byte then
            if (match ellipsis with None => negb (Nat.eqb (length ip) 12) | Some _ => false end)
               || Nat.ltb 16 (length ip + 4) then None
            else match parse_ipv4 s with Some v4 => Some (ip ++ v4, ellipsis) | None => None end
          else if negb (Byte.eqb c ":"%byte) then None
          else
            let ip := ip ++ [acc / 256; acc mod 256] in
            match rest1 with
            | [] => None
            | c1 :: rest2 =>
              if Byte.eqb c1 ":"%byte then
                match ellipsis with
                | Some _ => None
                | None => match rest2 with
                          | [] => Some (ip, Some (length ip))
                          | _ => ipv6_groups fuel' rest2 ip (Some (length ip))
                          end
                end
              else ipv6_groups fuel' rest1 ip ellipsis
            end
        end
  end.

(** The ellipsis expanded. *)
Definition expand_ellipsis (ip : list Z) (ellipsis : option nat) : option IP :=
  match ellipsis with
  | None => if Nat.eqb (length ip) 16 then Some ip else None
  | Some at_ =>
    if Nat.ltb (length ip) 16 then Some (firstn at_ ip ++ repeat 0 (16 - length ip) ++ skipn at_ ip) else None
  end.

Definition parse_ipv6 (s : bytes) : option IP :=
  let parse s ellipsis :=
    match ipv6_groups (S (length s)) s [] ellipsis with
    | Some (ip, ellipsis) => expand_ellipsis ip ellipsis
    | None => None
    end in
  match s with
  | a :: b :: rest =>
    if Byte.eqb a ":"%byte && Byte.eqb b ":"%byte then
      match rest with [] => Some (repeat 0 16) | _ => parse rest (Some 0%nat) end
    else parse s None
  | _ => parse s None
  end.

(** [netip.ParseAddr] of a string without a zone; an address with one is not
    an IP for [net].  The bytes, and whether the address is a plain IPv4. *)
Fixpoint ParseAddr_from (s : bytes) (whole : bytes) : option (IP * bool) :=
  match s with
  | [] => None
  | c :: rest =>
    if Byte.eqb c "."%byte then (fun v4 => (v4InV6Prefix ++ v4, true)) <$> parse_ipv4 whole
    else if Byte.eqb c ":"%byte then
      if existsb (Byte.eqb "%"%byte) whole then None else (fun ip => (ip, false)) <$> parse_ipv6 whole
    else if Byte.eqb c "%"%byte then None
    else ParseAddr_from rest whole
  end.

Definition ParseAddr (s : bytes) : option (IP * bool) := ParseAddr_from s s.

(** [net.ParseIP]. *)
Definition ParseIP (s : string) : option IP := fst <$> ParseAddr (bytes_of s).

(** ** [IP.String] *)

Definition show_ipv4 (v4 : list Z) : bytes := join_with "."%byte (show_uint <$> v4).

(** [appendHex]: a 16-bit group without leading zeros. *)
Definition show_group (z : Z) : bytes :=
  let digit n := hex_digit (z / 16 ^ n mod 16) in
  if 4096 <=? z then [digit 3; digit 2; digit 1; digit 0]
  else if 256 <=? z then [digit 2; digit 1; digit 0]
  else if 16 <=? z then [digit 1; digit 0] else [digit 0].

Fixpoint pairs (bs : list Z) : list Z :=
  match bs with a :: b :: r => (a * 256 + b) :: pairs r | _ => [] end.

(** Length of the run of zero groups at the head. *)
Fixpoint zero_run (groups : list Z) : nat :=
  match groups with g :: r => if g =? 0 then S (zero_run r) else O | [] => O end.

(** The first longest run of at least two zero groups: start and length. *)
Fixpoint longest_zeros (groups : list Z) (i : nat) (best : option (nat * nat)) : option (nat * nat) :=
  match groups with
  | [] => best
  | _ :: r =>
    let l := zero_run groups in
    let better := match best with None => Nat.leb 2 l | Some (_, b) => Nat.leb 2 l && Nat.ltb b l end in
    longest_zeros r (S i) (if better then Some (i, l) else best)
  end.

Definition show_ipv6 (ip : IP) : bytes :=
  let groups := pairs ip in
  match longest_zeros groups 0 None with
  | None => join_with ":"%byte (show_group <$> groups)
  | Some (start, len) =>
    join_with ":"%byte (show_group <$> firstn start groups) ++ [":"; ":"]%byte ++
    join_with ":"%byte (show_group <$> skipn (start + len) groups)
  end.

Definition IP_String (ip : IP) : string :=
  string_of (match To4 ip with Some v4 => show_ipv4 v4 | None => show_ipv6 ip end).

(** ** Networks *)

Record IPNet := MkIPNet { n_IP : IP; n_Mask : list Z }.

(** [net.CIDRMask]. *)
Definition CIDRMask (ones bits : Z) : list Z :=
  (fun i => let n := Z.max 0 (Z.min 8 (ones - 8 * i)) in 256 - 2 ^ (8 - n)) <$> seqZ 0 (bits / 8).

Definition and_bytes (a b : list Z) : list Z := zip_with Z.land a b.

(** [IPNet.Contains] of a 16-byte IP; an IPv4 network has a 4-byte mask. *)
Definition Contains (n : IPNet) (ip : IP) : bool :=
  let nn := match To4 (n_IP n) with Some v4 => v4 | None => n_IP n end in
  let m := if Nat.eqb (length (n_Mask n)) 16 && Nat.eqb (length nn) 4 then skipn 12 (n_Mask n) else n_Mask n in
  let ip := match To4 ip with Some v4 => v4 | None => ip end in
  Nat.eqb (length nn) (length m) && Nat.eqb (length ip) (length nn) &&
  bool_decide (and_bytes nn m = and_bytes ip m).

(** [dtoi]: decimal digits to the end, below the bound that stops overflow. *)
Definition dtoi (s : bytes) : option Z :=
  match s with
  | [] => None
  | _ => match digits_val 0 s with Some n => if n <? 16777215 then Some n else None | None => None end
  end.

(** [net.ParseCIDR]: the network.  The mask of a plain IPv4 address has four
    bytes and its network address the mapped form with the host bits cleared. *)
Definition ParseCIDR (s : string) : option IPNet :=
  match split_on "/"%byte (bytes_of s) with
  | addr :: m :: more =>
    match ParseAddr addr, dtoi (join_with "/"%byte (m :: more)) with
    | Some (ip, is4), Some n =>
      let bits := if (is4 : bool) then 32 else 128 in
      if bits <? n then None
      else
        let mask := CIDRMask n bits in
        Some (MkIPNet (if is4 then v4InV6Prefix ++ and_bytes (skipn 12 ip) mask else and_bytes ip mask) mask)
    | _, _ => None
    end
  | _ => None
  end.

(** ** [net.SplitHostPort] and [net.JoinHostPort] *)

Definition has (c : Byte.byte) (s : bytes) : bool := existsb (Byte.eqb c) s.

(** The bytes before the last [c]. *)
Fixpoint before_last (c : Byte.byte) (s : bytes) : option bytes :=
  match s with
  | [] => None
  | b :: r =>
    match before_last c r with
    | Some p => Some (b :: p)
    | None => if Byte.eqb b c then Some [] else None
    end
  end.

Fixpoint cut_at (c : Byte.byte) (s : bytes) : option (bytes * bytes) :=
  match s with
  | [] => None
  | b :: r => if Byte.eqb b c then Some ([], r) else (fun x => (b :: x.1, x.2)) <$> cut_at c r
  end.

Definition SplitHost (hostport : bytes) : option bytes :=
  match before_last ":"%byte hostport with
  | None => None
  | Some before =>
    match hostport with
    | first :: inner =>
      if Byte.eqb first "["%byte then
        match cut_at "]"%byte inner with
        | None => None
        | Some (host, rest) =>
          (* the first ']' is just before the last ':' *)
          if negb (zlen before =? zlen host + 2) then None
          else if has "["%byte inner || has "]"%byte rest then None
          else Some host
        end
      else if has ":"%byte before || has "["%byte hostport || has "]"%byte hostport then None
      else Some before
    | [] => None
    end
  end.

(** The port: what follows the last colon. *)
Definition after_last (c : Byte.byte) (s : bytes) : option bytes :=
  match before_last c s with
  | Some before => Some (skipn (S (length before)) s)
  | None => None
  end.

(** [net.SplitHostPort]. *)
Definition SplitHostPort (hostport : string) : option (string * string) :=
  match SplitHost (bytes_of hostport), after_last ":"%byte (bytes_of hostport) with
  | Some host, Some port => Some (string_of host, string_of port)
  | _, _ => None
  end.

(** [net.JoinHostPort]. *)
Definition JoinHostPort (host port : string) : string :=
  if has ":"%byte (bytes_of host) then "[" +:+ host +:+ "]:" +:+ port else host +:+ ":" +:+ port.

Definition IPv6loopback : IP := repeat 0 15 ++ [1].

(** [IP.IsLoopback]. *)
Definition IsLoopback (ip : IP) : bool :=
  match To4 ip with
  | Some (a :: _) => a =? 127
  | _ => bool_decide (ip = IPv6loopback)
  end.

Lemma has_cons c b bs : has c (b :: bs) = Byte.eqb c b || has c bs.
Proof. done. Qed.

Lemma has_app c xs ys : has c (xs ++ ys) = has c xs || has c ys.
Proof. apply existsb_app. Qed.

Lemma before_last_none c bs : has c bs = false -> before_last c bs = None.
Proof.
  induction bs as [|b r IH]; [done |]. rewrite has_cons. intros [Hb Hr]%orb_false_iff.
  cbn [before_last]. by rewrite IH, byte_eqb_sym, Hb.
Qed.

Lemma before_last_app c xs ys : has c ys = false -> before_last c (xs ++ c :: ys) = Some xs.
Proof.
  intros Hy. induction xs as [|x xs IH]; cbn [app before_last].
  - by rewrite before_last_none, byte_eqb_refl.
  - by rewrite IH.
Qed.

Lemma after_last_app c xs ys : has c ys = false -> after_last c (xs ++ c :: ys) = Some ys.
Proof.
  intros Hy. unfold after_last. rewrite before_last_app by done.
  by rewrite drop_app, drop_ge, Nat.sub_succ_l, Nat.sub_diag by lia.
Qed.

Lemma before_last_prefix c bs p : before_last c bs = Some p -> exists q, bs = p ++ q.
Proof.
  revert p. induction bs as [|b r IH]; intros p; [done |]. cbn [before_last].
  destruct (before_last c r) as [p'|].
  - intros [= <-]. destruct (IH p' eq_refl) as [q ->]. by exists q.
  - destruct (Byte.eqb b c); [| done]. intros [= <-]. by exists (b :: r).
Qed.

Lemma cut_at_app c xs ys : has c xs = false -> cut_at c (xs ++ c :: ys) = Some (xs, ys).
Proof.
  induction xs as [|x xs IH]; cbn [app cut_at]; [by rewrite byte_eqb_refl |].
  rewrite has_cons. intros [Hx Hr]%orb_false_iff. by rewrite byte_eqb_sym, Hx, IH.
Qed.

Lemma cut_at_Some c bs p q : cut_at c bs = Some (p, q) -> bs = p ++ c :: q /\ has c p = false.
Proof.
  revert p q. induction bs as [|b r IH]; intros p q; [done |]. cbn [cut_at].
  destruct (Byte.eqb b c) eqn:E; [intros [= <- <-]; bool_facts; by subst |].
  destruct (cut_at c r) as [[p' q']|]; [| done]. intros [= <- <-].
  destruct (IH _ _ eq_refl) as [-> Hp]. by rewrite has_cons, byte_eqb_sym, E, Hp.
Qed.

(** No [[] and []] in a host that was split off. *)
Lemma SplitHost_plain hostport host :
  SplitHost hostport = Some host -> has "["%byte host = false /\ has "]"%byte host = false.
Proof.
  unfold SplitHost. destruct (before_last _ _) as [before|] eqn:Eb; [| done].
  apply before_last_prefix in Eb as [q Hq].
  destruct hostport as [|first inner]; [done |]. destruct (Byte.eqb first _).
  - destruct (cut_at _ _) as [[h r]|] eqn:Ec; [| done]. destruct (negb _); [done |].
    destruct (_ || _) eqn:Eo; [done |]. intros [= <-]. apply orb_false_iff in Eo as [Ho _].
    apply cut_at_Some in Ec as [-> Hc]. rewrite has_app in Ho. by apply orb_false_iff in Ho as [Ho _].
  - destruct (_ || _) eqn:Eo; [done |]. intros [= <-]. rewrite Hq, !has_app in Eo.
    apply orb_false_iff in Eo as [[_ H1%orb_false_iff]%orb_false_iff H2%orb_false_iff]. tauto.
Qed.

(** What is joined splits back. *)
Lemma SplitHostPort_join host port :
  has "["%byte (bytes_of host) = false -> has "]"%byte (bytes_of host) = false ->
  has "["%byte (bytes_of port) = false -> has "]"%byte (bytes_of port) = false ->
  has ":"%byte (bytes_of port) = false ->
  SplitHostPort (JoinHostPort host port) = Some (host, port).
Proof.
  intros Ho Hc Po Pc Pp. unfold SplitHostPort, JoinHostPort. destruct (has ":" (bytes_of host)) eqn:Eh.
  - assert (E : bytes_of ("[" +:+ host +:+ "]:" +:+ port)
                = ("["%byte :: bytes_of host ++ ["]"%byte]) ++ ":"%byte :: bytes_of port).
    { autorewrite with gostr. cbn [app]. by rewrite <- app_assoc. }
    rewrite E, after_last_app by done. unfold SplitHost. rewrite before_last_app by done. cbn [app].
    rewrite <- app_assoc, byte_eqb_refl. cbn [app]. rewrite cut_at_app by done.
    replace (_ =? _) with true by (symmetry; apply Z.eqb_eq; autorewrite with zlen; lia).
    cbn [negb]. rewrite has_app, Ho, !has_cons, Po, Pc. cbn [orb]. change (Byte.eqb "[" "]") with false.
    change (Byte.eqb "[" ":") with false. change (Byte.eqb "]" ":") with false. cbn [orb].
    by rewrite !string_of_bytes_of.
  - assert (E : bytes_of (host +:+ ":" +:+ port) = bytes_of host ++ ":"%byte :: bytes_of port)
      by (autorewrite with gostr; done).
    rewrite E, after_last_app by done. unfold SplitHost. rewrite before_last_app by done.
    destruct (bytes_of host ++ _) as [|first inner] eqn:El; [by destruct (bytes_of host) |].
    assert (Byte.eqb first "[" = false) as ->.
    { destruct (bytes_of host) as [|x r]; cbn [app] in El; simplify_eq; [done |].
      rewrite has_cons, byte_eqb_sym in Ho. by apply orb_false_iff in Ho as [Ho _]. }
    rewrite Eh. cbn [orb]. rewrite <- El, !has_app, Ho, Hc, !has_cons, Po, Pc.
    change (Byte.eqb "[" ":") with false. change (Byte.eqb "]" ":") with false. cbn [orb].
    by rewrite !string_of_bytes_of.
Qed.

Example ip_examples :
  (fun s => IP_String <$> ParseIP s) <$>
    ["192.0.2.1"; "192.0.2.01"; "2001:DB8::1"; "::ffff:192.0.2.7"; "::"; "1::2::3"; "fe80::1%eth0"; "2001:db8:0:0:1:0:0:1"]
  = [Some "192.0.2.1"; None; Some "2001:db8::1"; Some "192.0.2.7"; Some "::"; None; None; Some "2001:db8::1:0:0:1"].
Proof. vm_compute. reflexivity. Qed.

Example cidr_examples :
  (fun p => match ParseCIDR p.1, ParseIP p.2 with Some n, Some ip => Some (Contains n ip) | _, _ => None end) <$>
    [("10.0.0.0/8", "10.200.3.4"); ("10.0.0.0/8", "11.0.0.1"); ("2001:db8::/32", "2001:db8:1::1");
     ("10.0.0.0/8", "2001:db8::1"); ("10.0.0.0/33", "10.0.0.1"); ("10.9.9.9/8", "10.1.2.3")]
  = [Some true; Some false; Some true; Some false; None; Some true].
Proof. vm_compute. reflexivity. Qed.

Example hostport_examples :
  SplitHostPort <$> ["192.0.2.1:443"; "[::1]:80"; "localhost:"; "nohost"; "a:b:c"]
  = [Some ("192.0.2.1", "443"); Some ("::1", "80"); Some ("localhost", ""); None; None] /\
  (fun s => IsLoopback <$> ParseIP s) <$> ["127.0.0.1"; "127.9.9.9"; "128.0.0.1"; "::1"; "::2"; "::ffff:127.0.0.1"]
  = [Some true; Some true; Some false; Some true; Some false; Some true].
Proof. vm_compute. split; reflexivity. Qed.

Example host_examples :
  (fun s => string_of <$> SplitHost (bytes_of s)) <$>
    ["192.0.2.1:443"; "[2001:db8::1]:443"; "2001:db8::1"; "192.0.2.1"; "[::1]"; "[::1]:[2"; ":80"]
  = [Some "192.0.2.1"; Some "2001:db8::1"; None; None; None; None; Some ""].
Proof. vm_compute. reflexivity. Qed.
