(* ===== verification/HttpHeaders.v ===== *)
(** * HttpHeaders: what a tunneled request and response carry

    [removeHopByHopHeaders], [cloneRequestForTunnel], [peerAddressOf],
    [remoteIP], [ipInAny], [lastForwardedFor] and [parseTrustedProxyPeers] of
    [internal/gateway/gateway.go].  An [http.Header] is a map from field names
    to their values; reads and writes by name go through the canonical form,
    which [net/textproto] computes. *)

From S2P Require Import Prelude GoText Metadata GoNet.

Abbreviation header := (gmap string (list string)).

(** ** [textproto.CanonicalMIMEHeaderKey] *)

(** [validHeaderFieldByte]: the token bytes of RFC 7230. *)
Definition token_byte (b : Byte.byte) : bool :=
  let z := bz b in
  ((48 <=? z) && (z <=? 57)) || ((65 <=? z) && (z <=? 90)) || ((97 <=? z) && (z <=? 122)) ||
  existsb (Byte.eqb b) (bytes_of "!#$%&'*+-.^_`|~").

Definition upper_byte (b : Byte.byte) : Byte.byte :=
  if (97 <=? bz b) && (bz b <=? 122) then zb (bz b - 32) else b.
Definition lower_byte (b : Byte.byte) : Byte.byte :=
  if (65 <=? bz b) && (bz b <=? 90) then zb (bz b + 32) else b.

Fixpoint canonical_bytes (upper : bool) (s : bytes) : bytes :=
  match s with
  | [] => []
  | b :: r => (if upper then upper_byte b else lower_byte b) :: canonical_bytes (Byte.eqb b "-"%byte) r
  end.

Definition CanonicalHeaderKey (s : string) : string :=
  if forallb token_byte (bytes_of s) then string_of (canonical_bytes true (bytes_of s)) else s.

Example canonical_keys :
  CanonicalHeaderKey <$> ["x-forwarded-FOR"; "te"; "ETag"; "bad header"; "X-Real-IP"]
  = ["X-Forwarded-For"; "Te"; "Etag"; "bad header"; "X-Real-Ip"].
Proof. vm_compute. reflexivity. Qed.

(** [Header.Values], [Del] and [Set]. *)
Definition Values (h : header) (name : string) : list string := default [] (h !! CanonicalHeaderKey name).
Definition Del (h : header) (name : string) : header := delete (CanonicalHeaderKey name) h.
Definition SetHeader (h : header) (name value : string) : header := <[CanonicalHeaderKey name := [value]]> h.

(** ** Hop-by-hop headers *)

Definition hopByHopHeaders : list string :=
  ["Connection"; "Keep-Alive"; "Proxy-Authenticate"; "Proxy-Authorization"; "Proxy-Connection"; "Te"; "Trailer";
   "Transfer-Encoding"; "Upgrade"].

(** The names listed by one [Connection] value. *)
Definition connection_tokens (value : string) : list string :=
  filter (fun token => token <> EmptyString)
    ((fun part => string_of (trim_space part)) <$> split_on ","%byte (bytes_of value)).

Definition removeHopByHopHeaders (h : header) : header :=
  let h := foldl (fun h value => foldl Del h (connection_tokens value)) h (Values h "Connection") in
  foldl Del h hopByHopHeaders.

(** ** The client's address *)

Definition remoteIP (remoteAddr : string) : option IP :=
  if String.eqb remoteAddr EmptyString then None
  else match SplitHost (bytes_of remoteAddr) with
       | Some host => ParseIP (string_of host)
       | None => ParseIP remoteAddr
       end.

Definition ipInAny (ip : IP) (nets : list IPNet) : bool := existsb (fun n => Contains n ip) nets.

Definition last_part (values : list string) : bytes :=
  List.last (split_on ","%byte (join_with ","%byte (bytes_of <$> values))) [].

Definition lastForwardedFor (h : header) : option IP :=
  match Values h "X-Forwarded-For" with
  | [] => None
  | values => ParseIP (string_of (trim_space (last_part values)))
  end.

Definition peerAddressOf (remoteAddr : string) (h : header) (trustedProxyIPs : list IPNet) : string :=
  match remoteIP remoteAddr with
  | None => "unknown"
  | Some peer =>
    match (if ipInAny peer trustedProxyIPs then lastForwardedFor h else None) with
    | Some client => IP_String client
    | None => IP_String peer
    end
  end.

(** A lone address is the network of that address alone. *)
Definition host_network (ip : IP) : IPNet :=
  match To4 ip with
  | Some _ => MkIPNet ip (CIDRMask 32 32)
  | None => MkIPNet ip (CIDRMask 128 128)
  end.

Fixpoint parseTrustedProxyPeers (entries : list string) : result (list IPNet) :=
  match entries with
  | [] => Ok []
  | entry :: rest =>
    let trimmed := string_of (trim_space (bytes_of entry)) in
    if String.eqb trimmed EmptyString then parseTrustedProxyPeers rest
    else
      match (match ParseIP trimmed with Some ip => Some (host_network ip) | None => ParseCIDR trimmed end) with
      | None => Err (ErrMsg "invalid trusted proxy")
      | Some n => let? nets := parseTrustedProxyPeers rest in Ok (n :: nets)
      end
  end.

(** ** The tunneled request *)

Definition forwardingHeaders : list string :=
  ["Forwarded"; "X-Forwarded-For"; "X-Forwarded-Host"; "X-Forwarded-Proto"; "X-Forwarded-Port"; "X-Real-Ip"].

(** The parts of an [http.Request] the clone changes. *)
Record request := MkRequest {
  rq_host : string;
  rq_remoteAddr : string;
  rq_header : header;
  rq_close : bool;
  rq_transferEncoding : list string;
  rq_trailer : header;
}.

Definition cloneRequestForTunnel (trustedProxyIPs : list IPNet) (q : request) (publicHostname : string) : request :=
  let h := foldl Del (removeHopByHopHeaders (rq_header q)) forwardingHeaders in
  let host := canonicalHostname publicHostname in
  let host := if String.eqb host EmptyString then canonicalHostname (rq_host q) else host in
  let client := peerAddressOf (rq_remoteAddr q) (rq_header q) trustedProxyIPs in
  let h := SetHeader h "X-Forwarded-For" client in
  let h := SetHeader h "X-Real-IP" client in
  let h := SetHeader h "X-Forwarded-Proto" "https" in
  let h := SetHeader h "X-Forwarded-Host" host in
  let h := SetHeader h "X-Forwarded-Port" "443" in
  let h := SetHeader h "Forwarded" ("for=" +:+ client +:+ ";proto=https;host=" +:+ host) in
  MkRequest host (rq_remoteAddr q) h false [] ∅.

(** ** Removal *)

Lemma foldl_Del_lookup names : forall (h : header) k,
  foldl Del h names !! k = if decide (k ∈ CanonicalHeaderKey <$> names) then None else h !! k.
Proof.
  induction names as [|n names IH]; intros h k; simpl.
  - destruct (decide (k ∈ [])) as [H|]; [by apply not_elem_of_nil in H | done].
  - rewrite IH. unfold Del. destruct (decide (k = CanonicalHeaderKey n)) as [->|Hn].
    + rewrite lookup_delete_eq. destruct (decide (_ ∈ _)), (decide (_ ∈ _)) as [|Hno]; try done.
      all: destruct Hno; by left.
    + rewrite lookup_delete_ne by done.
      destruct (decide (k ∈ CanonicalHeaderKey <$> names)) as [Hy|Hy], (decide (k ∈ _ :: _)) as [Hz|Hz]; try done.
      * destruct Hz. by right.
      * by apply elem_of_cons in Hz as [?|?].
Qed.

(** The names a [Connection] header lists. *)
Definition connection_names (h : header) : list string := Values h "Connection" ≫= connection_tokens.

Definition hop_by_hop (h : header) (k : string) : Prop :=
  k ∈ CanonicalHeaderKey <$> (connection_names h ++ hopByHopHeaders).

#[export] Instance hop_by_hop_dec h k : Decision (hop_by_hop h k).
Proof. unfold hop_by_hop. apply _. Defined.

Lemma foldl_tokens (values : list string) : forall (h : header),
  foldl (fun h value => foldl Del h (connection_tokens value)) h values = foldl Del h (values ≫= connection_tokens).
Proof.
  induction values as [|v values IH]; intros h; [done |]. cbn [foldl mbind list_bind]. by rewrite IH, foldl_app.
Qed.

Lemma removeHopByHop_lookup h k :
  removeHopByHopHeaders h !! k = if decide (hop_by_hop h k) then None else h !! k.
Proof.
  unfold removeHopByHopHeaders. rewrite foldl_tokens, <- foldl_app. apply foldl_Del_lookup.
Qed.

(** ** Properties *)

(** The address a request is attributed to is its peer's own, whatever
    forwarding headers it carries, unless the peer is a configured trusted
    proxy; then it is that of the last element of X-Forwarded-For alone, when
    that is an IP address.  A trusted set that does not parse whole is
    refused. *)
Theorem peer_address_trust remoteAddr h entries nets :
  parseTrustedProxyPeers entries = Ok nets ->
  (forall peer, remoteIP remoteAddr = Some peer ->
     peerAddressOf remoteAddr h nets =
       match (if existsb (fun n => Contains n peer) nets then lastForwardedFor h else None) with
       | Some client => IP_String client
       | None => IP_String peer
       end) /\
  ((forall peer, remoteIP remoteAddr = Some peer -> ipInAny peer nets = false) ->
   forall h', peerAddressOf remoteAddr h nets = peerAddressOf remoteAddr h' nets) /\
  (forall h', match Values h "X-Forwarded-For", Values h' "X-Forwarded-For" with
              | [], [] => True
              | v :: vs, v' :: vs' => last_part (v :: vs) = last_part (v' :: vs')
              | _, _ => False
              end -> peerAddressOf remoteAddr h nets = peerAddressOf remoteAddr h' nets) /\
  (forall entry, entry ∈ entries -> string_of (trim_space (bytes_of entry)) <> EmptyString ->
     ParseIP (string_of (trim_space (bytes_of entry))) <> None \/
     ParseCIDR (string_of (trim_space (bytes_of entry))) <> None).
Proof.
  intros Hnets. unfold peerAddressOf, ipInAny. split_and!.
  - by intros peer ->.
  - intros Hno h'. destruct (remoteIP remoteAddr) as [peer|]; [| done]. by rewrite (Hno peer eq_refl).
  - intros h' Hl. destruct (remoteIP remoteAddr) as [peer|]; [| done]. destruct (existsb _ _); [| done].
    unfold lastForwardedFor. destruct (Values h _), (Values h' _); try done. by rewrite Hl.
  - clear h remoteAddr. revert nets Hnets. induction entries as [|e entries IH]; intros nets; simpl.
    + intros _ entry He. by apply not_elem_of_nil in He.
    + intros Hp entry [->|He]%elem_of_cons Hne.
      * apply String.eqb_neq in Hne. rewrite Hne in Hp.
        destruct (ParseIP _); [by left |]. right. by destruct (ParseCIDR _).
      * destruct (String.eqb _ _); [by eapply IH |].
        destruct (match ParseIP _ with Some _ => _ | None => _ end); [| done].
        apply rbind_Ok in Hp as (x & Hx & _). by eapply IH.
Qed.

(** The request that enters the tunnel carries none of the forwarding
    headers its client sent: each is the Gateway's own single value, computed
    from the trusted peer and the metadata hostname.  Every hop-by-hop header
    is gone, those its Connection header names included, and every other
    header is unchanged. *)
Theorem tunneled_request_headers nets q publicHostname k :
  let out := cloneRequestForTunnel nets q publicHostname in
  let client := peerAddressOf (rq_remoteAddr q) (rq_header q) nets in
  rq_header out !! k =
    (if decide (k = "Forwarded") then Some ["for=" +:+ client +:+ ";proto=https;host=" +:+ rq_host out]
     else if decide (k = "X-Forwarded-Port") then Some ["443"]
     else if decide (k = "X-Forwarded-Host") then Some [rq_host out]
     else if decide (k = "X-Forwarded-Proto") then Some ["https"]
     else if decide (k = "X-Real-Ip") then Some [client]
     else if decide (k = "X-Forwarded-For") then Some [client]
     else if decide (hop_by_hop (rq_header q) k) then None
     else rq_header q !! k) /\
  rq_host out = (if String.eqb (canonicalHostname publicHostname) EmptyString
                 then canonicalHostname (rq_host q) else canonicalHostname publicHostname) /\
  rq_transferEncoding out = [] /\ rq_close out = false /\ rq_trailer out = ∅.
Proof.
  intros out client. split; [| by split]. subst out. unfold cloneRequestForTunnel. cbn [rq_header rq_host].
  fold client. unfold SetHeader.
  change (CanonicalHeaderKey "X-Forwarded-For") with "X-Forwarded-For".
  change (CanonicalHeaderKey "X-Real-IP") with "X-Real-Ip".
  change (CanonicalHeaderKey "X-Forwarded-Proto") with "X-Forwarded-Proto".
  change (CanonicalHeaderKey "X-Forwarded-Host") with "X-Forwarded-Host".
  change (CanonicalHeaderKey "X-Forwarded-Port") with "X-Forwarded-Port".
  change (CanonicalHeaderKey "Forwarded") with "Forwarded".
  repeat match goal with
  | |- context [decide (k = ?n)] => destruct (decide (k = n)) as [->|]; [by rewrite lookup_insert_eq |];
      rewrite (lookup_insert_ne _ n) by done
  end.
  rewrite foldl_Del_lookup, removeHopByHop_lookup.
  destruct (decide (k ∈ CanonicalHeaderKey <$> forwardingHeaders)) as [Hk|]; [| done].
  exfalso. change (CanonicalHeaderKey <$> forwardingHeaders) with forwardingHeaders in Hk.
  unfold forwardingHeaders in Hk. rewrite !elem_of_cons in Hk. destruct_or! Hk; [congruence.. | by apply not_elem_of_nil in Hk].
Qed.

Lemma peer_address_trust_witness :
  let h := {["X-Forwarded-For" := ["203.0.113.9, 198.51.100.7"]]} : header in
  exists nets, parseTrustedProxyPeers ["10.0.0.0/8"] = Ok nets /\
    peerAddressOf "10.1.2.3:443" h nets = "198.51.100.7" /\
    peerAddressOf "192.0.2.5:443" h nets = peerAddressOf "192.0.2.5:443" ∅ nets.
Proof.
  intros h. destruct (parseTrustedProxyPeers ["10.0.0.0/8"]) as [nets|e] eqn:E; [| vm_compute in E; discriminate].
  exists nets. split; [reflexivity |]. split.
  - vm_compute in E. injection E as <-. vm_compute. reflexivity.
  - destruct (peer_address_trust "192.0.2.5:443" h ["10.0.0.0/8"] nets E) as (_ & H & _). apply H.
    vm_compute in E. injection E as <-. intros peer Hp. vm_compute in Hp. injection Hp as <-. vm_compute. reflexivity.
Defined.
