(* ===== verification/Ingress.v ===== *)
(** * Ingress: a public HTTP request through the tunnel

    [handleIngress] of [internal/gateway/gateway.go]: the guards, in the
    code's order, with the two keyed admissions, the global rate and the
    bounded slots they take and give back; and how the exchange that follows
    ends the stream and answers the client.  Requests are served by concurrent
    goroutines: taking the budgets and returning them are two steps, and any
    number of requests interleave.  [net/http]'s serialization and parsing of
    the messages are parameters: what they return is an input here. *)

From S2P Require Import Prelude GoText GoTime GoFloat Json Frame Contract Control ControlCodec Metadata Budget GwLimits Admission.
From S2P Require Import GwStream Wire SessTable GwSession SessAuth Registry Handshake HttpBody.

(** ** Admission *)

Record ingress_request := MkIngressRequest {
  iq_path : string;
  iq_host : string;
  iq_contentLength : Z;
}.

Record ingress := MkIngress {
  ig_route : KeyedAdmissionLimiter;      (* ingressRouteAdmission *)
  ig_device : KeyedAdmissionLimiter;     (* ingressDeviceAdmission *)
  ig_rate : TokenBucket;
  ig_slots : Z;                          (* len(ingressSlots) *)
  ig_rejects : Z;
  ig_serving : gmap nat (string * string);  (* a request past its admission: assignment and device *)
}.

Definition new_ingress (lim : Limits) (now : instant) : ingress :=
  let limiter := NewKeyedAdmissionLimiter (MaxIngressInFlight lim) (IngressRatePerSecond lim) (IngressRateBurst lim) in
  MkIngress limiter limiter (NewTokenBucket (IngressRatePerSecond lim) (IngressRateBurst lim) now) 0 0 ∅.

Definition agentPath : string := "/agent/v1/connect".
Definition connectorPath : string := "/connector/v1/connect".

Definition has_prefix (s pre : string) : bool :=
  match strip_prefix (bytes_of pre) (bytes_of s) with Some _ => true | None => false end.

(** The Gateway's own namespace. *)
Definition reserved (path : string) : bool :=
  String.eqb path agentPath || has_prefix path (agentPath +:+ "/") ||
  String.eqb path connectorPath || has_prefix path (connectorPath +:+ "/").

(** A deferred [Release] of an admission this request holds: it panics when
    nothing is held, which {!give_back_held} excludes. *)
Definition give_back (l : KeyedAdmissionLimiter) (key : string) : KeyedAdmissionLimiter :=
  match Release l key with Some l' => l' | None => l end.

Inductive admitted_request :=
| Refused (status : Z) (message : string)
| Serving (route : EndpointRouteAssignment) (sess : handle).

Definition refuse_admission (what : string) (reason : RejectReason) : admitted_request :=
  match reason with
  | RejectedRate => Refused 429 (what +:+ " ingress rate limit exceeded")
  | _ => Refused 503 (what +:+ " ingress concurrency limit reached")
  end.

Definition set_admission (g : ingress) (route device : KeyedAdmissionLimiter) (rate : TokenBucket) : ingress :=
  MkIngress route device rate (ig_slots g) (ig_rejects g) (ig_serving g).

(** From the route and the session on: the budgets. *)
Definition take_budgets (lim : Limits) (g : ingress) (conn : nat) (route : EndpointRouteAssignment) (sess : handle)
    (now : instant) : admitted_request * ingress :=
  let assignment := ra_assignment_id route in
  let device := ra_device_id route in
  let '(routeAdmission, routes) := TryAcquire (ig_route g) assignment now in
  if bool_decide (routeAdmission <> Accepted)
  then (refuse_admission "route" routeAdmission, set_admission g routes (ig_device g) (ig_rate g))
  else
    let '(deviceAdmission, devices) := TryAcquire (ig_device g) device now in
    if bool_decide (deviceAdmission <> Accepted)
    then (refuse_admission "device" deviceAdmission, set_admission g (give_back routes assignment) devices (ig_rate g))
    else
      let '(allowed, rate) := Allow (ig_rate g) now in
      if negb allowed then
        (Refused 429 "public ingress rate limit exceeded",
         set_admission g (give_back routes assignment) (give_back devices device) rate)
      else if MaxIngressInFlight lim <=? ig_slots g then
        (Refused 503 "public ingress capacity reached",
         MkIngress (give_back routes assignment) (give_back devices device) rate (ig_slots g)
           (u64 (ig_rejects g + 1)) (ig_serving g))
      else
        (Serving route sess,
         MkIngress routes devices rate (ig_slots g + 1) (ig_rejects g) (<[conn := (assignment, device)]> (ig_serving g))).

Section Guards.
Context {M : Type} `{MetadataSource M} (who : handle -> entry).

Definition begin_ingress (lim : Limits) (metadata : M) (m : moment) (r : registry) (g : ingress) (conn : nat)
    (q : ingress_request) : admitted_request * ingress :=
  if reserved (iq_path q) then (Refused 404 "404 page not found", g)
  else if rg_draining r then (Refused 503 "gateway is draining", g)
  else if MaxRequestBytes lim <? iq_contentLength q then (Refused 413 "request too large", g)
  else
    match ms_RouteByHostname metadata (iq_host q) (m_now m) with
    | Err _ => (Refused 404 "route not found", g)
    | Ok route =>
      match sessionForDevice who m r (ra_device_id route) with
      | None => (Refused 503 "agent offline", g)
      | Some sess => take_budgets lim g conn route sess (m_now m)
      end
    end.
End Guards.

(** The deferred releases of a request that was served; [None]: a panic. *)
Definition end_ingress (g : ingress) (conn : nat) : option ingress :=
  match ig_serving g !! conn with
  | None => None
  | Some (assignment, device) =>
    match Release (ig_device g) device, Release (ig_route g) assignment with
    | Some devices, Some routes =>
      Some (MkIngress routes devices (ig_rate g) (ig_slots g - 1) (ig_rejects g) (delete conn (ig_serving g)))
    | _, _ => None
    end
  end.

Inductive ingress_step (lim : Limits) : ingress -> ingress -> Prop :=
| ig_begin g conn route sess now : ig_serving g !! conn = None ->
    ingress_step lim g (take_budgets lim g conn route sess now).2
| ig_end g conn g' : end_ingress g conn = Some g' -> ingress_step lim g g'.

(** ** How the exchange ends *)

Record terminal := MkTerminal {
  tm_reason : string;               (* of a stream_close *)
  tm_code : string;                 (* of a stream_error, when not empty *)
  tm_message : string;
  tm_retryable : bool;
}.

(** What the client sees: nothing more, an error, a cut connection, or the
    tunneled response. *)
Inductive client_answer := Gone | HttpError (status : Z) (message : string) | Cut | Answered (status : Z).

Definition cancelled : terminal := MkTerminal "cancelled" EmptyString EmptyString false.
Definition failed (code message : string) (retryable : bool) : terminal :=
  MkTerminal "cancelled" code message retryable.

(** After the request was written: [clientGone] is [request.Context().Err()]. *)
Definition after_write (writeErr : option error) (clientGone : bool) : option (client_answer * terminal) :=
  match writeErr with
  | None => None
  | Some err =>
    Some (if errors_is err errResourceBudget then
            (HttpError 503 "public ingress byte budget exhausted",
             failed "resource_limit" "public ingress byte budget exhausted" true)
          else if clientGone then (Gone, cancelled)
          else (HttpError 400 "request serialization failed",
                failed "protocol_error" "request serialization failed" false))
  end.

(** After [http.ReadResponse]; [expired]: the response phase ended while the
    client was still there. *)
Definition after_headers (lim : Limits) (resp : result response) (expired : bool)
  : response + (client_answer * terminal) :=
  match resp with
  | Err err =>
    inr (if errors_is err errResponseHeaderTooLarge then
           (HttpError 502 "tunneled response headers too large",
            failed "resource_limit" "tunneled response headers too large" false)
         else if expired then
           (HttpError 504 "tunneled response phase deadline exceeded",
            failed "resource_limit" "tunneled response phase deadline exceeded" false)
         else (HttpError 502 "invalid tunneled response", failed "protocol_error" "invalid tunneled response" false))
  | Ok r =>
    if negb (is_ok (validateTunneledStatus (rp_status r))) then
      inr (HttpError 502 "tunneled response status outside 200..599",
           failed "protocol_error" "tunneled response status outside 200..599" false)
    else if responseHasBody r && (MaxResponseBytes lim <? rp_contentLength r) then
      inr (HttpError 502 "tunneled response too large", failed "resource_limit" "tunneled response too large" false)
    else inl r
  end.

Definition after_body (r : response) (overflow : bool) (copyErr : option error) (expired : bool)
  : client_answer * terminal :=
  if overflow then (Cut, failed "resource_limit" "tunneled response body exceeded limit" false)
  else
    match copyErr with
    | Some _ =>
      if expired then (Cut, failed "resource_limit" "tunneled response phase deadline exceeded" false)
      else (Cut, failed "internal_error" "tunneled response body ended unexpectedly" false)
    | None => (Answered (rp_status r), MkTerminal "completed" EmptyString EmptyString false)
    end.

(** The exchange: the answer, the terminal and the bytes the client got. *)
Definition exchange (lim : Limits) (writeErr : option error) (clientGone : bool) (resp : result response)
    (headerExpired : bool) (dst : sink) (b : body) (bodyExpired : bool) : client_answer * terminal * bytes :=
  match after_write writeErr clientGone with
  | Some x => (x, [])
  | None =>
    match after_headers lim resp headerExpired with
    | inr x => (x, [])
    | inl r =>
      let '(written, overflow, copyErr) := copyTunneledResponseBody dst r b (MaxResponseBytes lim) in
      (after_body r overflow copyErr bodyExpired, written)
    end
  end.

(** The deferred end of the stream. *)
Definition end_stream (net : nat -> answer) (s : session) (id : Z) (t : terminal) : session :=
  if negb (String.eqb (tm_code t) EmptyString) then
    errorStream net s id (tm_code t) (tm_message t) (tm_retryable t) (ErrMsg (tm_message t))
  else closeStream net s id (tm_reason t).

(** The message it sends. *)
Definition terminal_message (t : terminal) : control_message :=
  if negb (String.eqb (tm_code t) EmptyString) then
    MsgStreamError (MkStreamError ProtocolVersion "stream_error" (tm_code t) (clip256 (tm_message t)) (tm_retryable t))
  else MsgStreamClose (MkStreamClose ProtocolVersion "stream_close" (tm_reason t)).

(** ** Accounting *)

(** The limiter counts for every key exactly its holders. *)
Definition tracks (max : Z) (l : KeyedAdmissionLimiter) (held : string -> nat) : Prop :=
  limiter_ok l /\ kl_maxInFlight l = max /\ forall key, InFlight l key = Z.of_nat (held key).

Lemma TryAcquire_max l key now : kl_maxInFlight (TryAcquire l key now).2 = kl_maxInFlight l.
Proof.
  unfold TryAcquire. destruct (observeKey_states l key now) as (_ & Hm & _).
  destruct (key_state _ _ _) as [st m]. destruct (_ <=? _); [done |].
  destruct (refill _ _ _ _ _) as [n t]. by destruct (f_lt _ _).
Qed.

Lemma Release_max l key l' : Release l key = Some l' -> kl_maxInFlight l' = kl_maxInFlight l.
Proof. unfold Release. destruct (_ !! key); [| done]. destruct (_ <=? 0); [done |]. by intros [= <-]. Qed.

Lemma tracks_acquire max l held key now r l' :
  tracks max l held -> TryAcquire l key now = (r, l') ->
  tracks max l' (fun k => held k + (if decide (r = Accepted /\ k = key) then 1 else 0))%nat.
Proof.
  intros (Hok & Hm & Hh) E. destruct (TryAcquire_in_flight _ _ _ _ _ Hok E) as (_ & _ & Hk).
  pose proof (limiter_acquire_ok l key now Hok) as Hok'. pose proof (TryAcquire_max l key now) as Hm'.
  rewrite E in Hok', Hm'. split; [exact Hok' |]. split; [by rewrite <- Hm |].
  intros k. rewrite Hk, Hh. destruct (decide _); lia.
Qed.

Lemma tracks_release max l held key :
  tracks max l held -> (0 < held key)%nat ->
  exists l', Release l key = Some l' /\ tracks max l' (fun k => held k - (if decide (k = key) then 1 else 0))%nat.
Proof.
  intros (Hok & Hm & Hh) Hp. pose proof (Release_spec l key Hok) as Hr.
  destruct (Release l key) as [l'|] eqn:E; [| rewrite Hh in Hr; lia].
  destruct Hr as (_ & Hok' & Hk). exists l'. split; [done |]. split; [done |].
  split; [by rewrite (Release_max _ _ _ E) |]. intros k. rewrite Hk, Hh.
  destruct (decide (k = key)) as [->|]; lia.
Qed.

Lemma tracks_ext max l held held' : (forall k, held k = held' k) -> tracks max l held -> tracks max l held'.
Proof. intros He (Hok & Hm & Hh). split; [done |]. split; [done |]. intros k. by rewrite Hh, He. Qed.

(** What was just acquired is given back. *)
Lemma give_back_held max l held key now l' :
  tracks max l held -> TryAcquire l key now = (Accepted, l') ->
  Release l' key <> None /\ tracks max (give_back l' key) held.
Proof.
  intros Ht E. pose proof (tracks_acquire _ _ _ _ _ _ _ Ht E) as Ha.
  destruct (tracks_release max l' _ key Ha) as (l2 & El & H2); [rewrite decide_True by done; lia |].
  unfold give_back. rewrite El. split; [done |].
  eapply tracks_ext; [| exact H2]. intros k. simpl.
  destruct (decide (k = key)) as [->|Hn]; [rewrite decide_True by done; lia |].
  destruct (decide (_ /\ _)) as [[_ ?]|]; [done | lia].
Qed.

Lemma tracks_refused max l held key now r l' :
  tracks max l held -> TryAcquire l key now = (r, l') -> r <> Accepted -> tracks max l' held.
Proof.
  intros Ht E Hr. eapply tracks_ext; [| exact (tracks_acquire _ _ _ _ _ _ _ Ht E)].
  intros k. simpl. destruct (decide _) as [[-> _]|]; [done | lia].
Qed.

Definition routes_served (g : ingress) (a : string) : nat := count_if (fun x : string * string => x.1 = a) (ig_serving g).
Definition devices_served (g : ingress) (d : string) : nat := count_if (fun x : string * string => x.2 = d) (ig_serving g).

Record ingress_ok (lim : Limits) (g : ingress) : Prop := IngressOk {
  io_slots : ig_slots g = Z.of_nat (size (ig_serving g));
  io_bound : ig_slots g <= MaxIngressInFlight lim;
  io_routes : tracks (MaxIngressInFlight lim) (ig_route g) (routes_served g);
  io_devices : tracks (MaxIngressInFlight lim) (ig_device g) (devices_served g);
}.

(** A request past both admissions takes a slot. *)
Lemma serve_ok lim g conn a d routes devices rate rejects now :
  ingress_ok lim g -> ig_serving g !! conn = None -> ig_slots g < MaxIngressInFlight lim ->
  TryAcquire (ig_route g) a now = (Accepted, routes) -> TryAcquire (ig_device g) d now = (Accepted, devices) ->
  ingress_ok lim (MkIngress routes devices rate (ig_slots g + 1) rejects (<[conn := (a, d)]> (ig_serving g))).
Proof.
  intros [Hs Hb Hr Hd] Hc Hlt Er Ed.
  assert (Hcnt : forall (P : string * string -> Prop) (HP : forall x, Decision (P x)) k x,
     (count_if P (ig_serving g) + (if decide (P k) then 1 else 0))%nat = x -> count_if P (<[conn:=k]> (ig_serving g)) = x).
  { intros P HP k x <-. by rewrite count_insert. }
  split; simpl; [rewrite map_size_insert_None by done; lia | lia | |].
  - eapply tracks_ext; [| exact (tracks_acquire _ _ _ _ _ _ _ Hr Er)]. intros k. symmetry. apply Hcnt.
    simpl. unfold routes_served. repeat destruct (decide _); naive_solver lia.
  - eapply tracks_ext; [| exact (tracks_acquire _ _ _ _ _ _ _ Hd Ed)]. intros k. symmetry. apply Hcnt.
    simpl. unfold devices_served. repeat destruct (decide _); naive_solver lia.
Qed.

(** A request that is refused keeps nothing. *)
Lemma refused_ok lim g routes devices rate rejects :
  ingress_ok lim g -> tracks (MaxIngressInFlight lim) routes (routes_served g) ->
  tracks (MaxIngressInFlight lim) devices (devices_served g) ->
  ingress_ok lim (MkIngress routes devices rate (ig_slots g) rejects (ig_serving g)).
Proof. intros [Hs Hb _ _] Hr Hd. by split. Qed.

Lemma take_budgets_ok lim g conn route sess now :
  ingress_ok lim g -> ig_serving g !! conn = None ->
  let '(out, g') := take_budgets lim g conn route sess now in
  ingress_ok lim g' /\
  match out with
  | Refused _ _ => ig_serving g' = ig_serving g /\ ig_slots g' = ig_slots g
  | Serving route' sess' => route' = route /\ sess' = sess /\
      ig_serving g' = <[conn := (ra_assignment_id route, ra_device_id route)]> (ig_serving g)
  end.
Proof.
  intros Hg Hc. pose proof Hg as [_ _ Hr Hd]. unfold take_budgets, set_admission.
  destruct (TryAcquire (ig_route g) _ now) as [ra routes] eqn:Er. case_bool_decide as Hra.
  { pose proof (tracks_refused _ _ _ _ _ _ _ Hr Er Hra). destruct ra; (split; [by apply refused_ok | done]). }
  assert (ra = Accepted) as -> by (by destruct (decide (ra = Accepted))).
  destruct (give_back_held _ _ _ _ _ _ Hr Er) as [_ Hgr].
  destruct (TryAcquire (ig_device g) _ now) as [da devices] eqn:Ed. case_bool_decide as Hda.
  { pose proof (tracks_refused _ _ _ _ _ _ _ Hd Ed Hda). destruct da; (split; [by apply refused_ok | done]). }
  assert (da = Accepted) as -> by (by destruct (decide (da = Accepted))).
  destruct (give_back_held _ _ _ _ _ _ Hd Ed) as [_ Hgd].
  destruct (Allow _ _) as [allowed rate]. destruct allowed; simpl; [| split; [by apply refused_ok | done]].
  destruct (_ <=? _) eqn:Ef; simpl; [split; [by apply refused_ok | done] |]. bool_facts.
  split; [| done]. by apply (serve_ok lim g conn _ _ _ _ _ _ now).
Qed.

Lemma end_ingress_ok lim g conn a d :
  ingress_ok lim g -> ig_serving g !! conn = Some (a, d) ->
  exists g', end_ingress g conn = Some g' /\ ingress_ok lim g' /\ ig_serving g' = delete conn (ig_serving g).
Proof.
  intros [Hs Hb Hr Hd] Hc. unfold end_ingress. rewrite Hc.
  destruct (tracks_release _ _ _ d Hd) as (devices & -> & Hd');
    [by apply (count_pos (fun x : string * string => x.2 = d) _ _ _ Hc) |].
  destruct (tracks_release _ _ _ a Hr) as (routes & -> & Hr');
    [by apply (count_pos (fun x : string * string => x.1 = a) _ _ _ Hc) |].
  eexists. split; [done |]. split; [| done]. pose proof (size_delete _ _ _ Hc) as Hsz.
  split; simpl; [lia | lia | |].
  - eapply tracks_ext; [| exact Hr']. intros k. unfold routes_served. simpl.
    rewrite (count_delete (fun x : string * string => x.1 = k) _ _ _ Hc). simpl.
    repeat destruct (decide _); subst; try done; lia.
  - eapply tracks_ext; [| exact Hd']. intros k. unfold devices_served. simpl.
    rewrite (count_delete (fun x : string * string => x.2 = k) _ _ _ Hc). simpl.
    repeat destruct (decide _); subst; try done; lia.
Qed.

Lemma ingress_step_ok lim g g' : ingress_ok lim g -> ingress_step lim g g' -> ingress_ok lim g'.
Proof.
  intros Hg H. destruct H as [g conn route sess now Hc|g conn g' He].
  - pose proof (take_budgets_ok lim g conn route sess now Hg Hc) as Ht.
    destruct (take_budgets _ _ _ _ _ _) as [out g']. apply Ht.
  - destruct (ig_serving g !! conn) as [[a d]|] eqn:Ec.
    + destruct (end_ingress_ok _ _ _ _ _ Hg Ec) as (g2 & E2 & Hok & _). congruence.
    + unfold end_ingress in He. by rewrite Ec in He.
Qed.

Lemma new_ingress_ok lim now : 0 < MaxIngressInFlight lim < 2 ^ 61 -> ingress_ok lim (new_ingress lim now).
Proof.
  intros H. assert (Ht : tracks (MaxIngressInFlight lim) (NewKeyedAdmissionLimiter (MaxIngressInFlight lim)
      (IngressRatePerSecond lim) (IngressRateBurst lim)) (fun _ => 0%nat)).
  { split; [by apply new_limiter_ok |]. split; [done |]. intros key. done. }
  split; try done. simpl. lia.
Qed.

(** ** Properties *)

(** However public requests interleave, at most MaxIngressInFlight are
    served, each holding exactly one slot, and the two keyed admissions count
    for every route and for every device exactly the requests served for it;
    a request that is refused keeps nothing, and one that was served always
    finds its admissions to return. *)
Theorem ingress_budgets lim now g :
  0 < MaxIngressInFlight lim < 2 ^ 61 ->
  steps (ingress_step lim) (new_ingress lim now) g ->
  ig_slots g = Z.of_nat (size (ig_serving g)) /\ ig_slots g <= MaxIngressInFlight lim /\
  (forall a, InFlight (ig_route g) a = Z.of_nat (routes_served g a)) /\
  (forall d, InFlight (ig_device g) d = Z.of_nat (devices_served g d)) /\
  (forall conn route sess t, ig_serving g !! conn = None ->
     let '(out, g') := take_budgets lim g conn route sess t in
     match out with
     | Refused _ _ => ig_slots g' = ig_slots g /\
         (forall a, InFlight (ig_route g') a = InFlight (ig_route g) a) /\
         (forall d, InFlight (ig_device g') d = InFlight (ig_device g) d)
     | Serving route' sess' => route' = route /\ sess' = sess /\
         InFlight (ig_route g') (ra_assignment_id route) = InFlight (ig_route g) (ra_assignment_id route) + 1 /\
         InFlight (ig_device g') (ra_device_id route) = InFlight (ig_device g) (ra_device_id route) + 1
     end) /\
  (forall conn, is_Some (ig_serving g !! conn) -> exists g', end_ingress g conn = Some g').
Proof.
  intros Hlim H.
  assert (Hg : ingress_ok lim g)
    by (revert H; apply steps_invariant; [by apply new_ingress_ok | intros a b; apply ingress_step_ok]).
  pose proof Hg as [Hs Hb (_ & _ & Hr) (_ & _ & Hd)]. split_and!; try done.
  - intros conn route sess t Hc. pose proof (take_budgets_ok lim g conn route sess t Hg Hc) as Ht.
    destruct (take_budgets _ _ _ _ _ _) as [[st msg|route' sess'] g']; destruct Ht as ([_ _ (_ & _ & Hr') (_ & _ & Hd')] & Ht).
    + destruct Ht as [Hv Hsl]. split_and!; [done | |]; intros k.
      * rewrite Hr', Hr. unfold routes_served. by rewrite Hv.
      * rewrite Hd', Hd. unfold devices_served. by rewrite Hv.
    + destruct Ht as (-> & -> & Hv). split_and!; [done | done | |].
      * rewrite Hr', Hr. unfold routes_served. rewrite Hv, count_insert, decide_True by done. lia.
      * rewrite Hd', Hd. unfold devices_served. rewrite Hv, count_insert, decide_True by done. lia.
  - intros conn [[a d] Hc]. destruct (end_ingress_ok _ _ _ _ _ Hg Hc) as (g' & E & _). by exists g'.
Qed.

(** C3: A public request is carried into a tunnel only on authority: its host is
    the canonical name of a published, enabled, active and unrevoked route, and
    the tunnel is a registered session of that route's device which at that
    moment holds its authorization and has not expired.  The Gateway's own
    namespace, a draining Gateway and an oversized request never get there. *)
Theorem ingress_on_authority docs md who lim m r g conn q route h g' :
  add_records NewSnapshotMetadata docs = (Ok tt, md) ->
  0 <= MaxAgentSessions lim -> steps (registry_step who lim) emptyRegistry r ->
  ingress_ok lim g -> ig_serving g !! conn = None ->
  begin_ingress who lim md m r g conn q = (Serving route h, g') ->
  authority_to_route docs (iq_host q) (m_now m) route /\
  registered who r (ra_device_id route) h /\ e_device (who h) = ra_device_id route /\
  m_authorized m h = true /\ (e_expiresAt (who h) = zero_time \/ m_now m < e_expiresAt (who h)) /\
  reserved (iq_path q) = false /\ rg_draining r = false /\ iq_contentLength q <= MaxRequestBytes lim.
Proof.
  intros Hd Hlim Hr Hg Hc. unfold begin_ingress.
  destruct (reserved _) eqn:Eres; [done |]. destruct (rg_draining r) eqn:Edr; [done |].
  destruct (_ <? _) eqn:Elen; [done |]. bool_facts.
  destruct (ms_RouteByHostname md (iq_host q) (m_now m)) as [route0|e] eqn:Eroute; [| done].
  apply loaded_reflects in Hd. apply (RouteByHostname_iff _ _ _ _ _ Hd) in Eroute.
  destruct (sessionForDevice who m r _) as [h0|] eqn:Es; [| done]. intros Ht.
  pose proof (take_budgets_ok lim g conn route0 h0 (m_now m) Hg Hc) as Hok. rewrite Ht in Hok.
  destruct Hok as (_ & -> & -> & _).
  pose proof (session_found who lim m r (ra_device_id route0) h0 Hlim Hr Es) as (? & ? & ? & ?). done.
Qed.

(** ** The end of the stream *)

(** Every terminal of an exchange is a message the contract accepts. *)
Lemma exchange_terminal lim writeErr gone resp e1 dst b e2 a t bytes at_ :
  exchange lim writeErr gone resp e1 dst b e2 = (a, t, bytes) ->
  message_wf (terminal_message t) at_ /\ message_sendable (terminal_message t).
Proof.
  intros H. assert (Hin : t = cancelled \/ t = MkTerminal "completed" EmptyString EmptyString false \/
    exists c m r, t = failed c m r /\ c ∈ stream_error_codes /\ m ∈
      ["public ingress byte budget exhausted"; "request serialization failed";
       "tunneled response headers too large"; "tunneled response phase deadline exceeded"; "invalid tunneled response";
       "tunneled response status outside 200..599"; "tunneled response too large";
       "tunneled response body exceeded limit"; "tunneled response body ended unexpectedly"]).
  { assert (Hl : forall (l : list string) x, In x l -> x ∈ l) by (intros l x; by apply list_elem_of_In).
    unfold exchange, after_write, after_headers, after_body in H.
    repeat (case_match; simplify_eq); try (by left); try (by right; left);
      right; right; do 3 eexists; (split; [reflexivity |]); split; apply Hl; simpl; tauto. }
  destruct Hin as [->|[->|(c & m & r & -> & Hc & Hm)]].
  - split; [| done]. split_and!; try done. set_solver.
  - split; [| done]. split_and!; try done. set_solver.
  - assert (Hall : Forall (fun m => clip256 m = m /\ m <> EmptyString /\ utf8_valid (bytes_of m) = true /\
        1 <= rune_count_in_string m <= 256)
      ["public ingress byte budget exhausted"; "request serialization failed";
       "tunneled response headers too large"; "tunneled response phase deadline exceeded"; "invalid tunneled response";
       "tunneled response status outside 200..599"; "tunneled response too large";
       "tunneled response body exceeded limit"; "tunneled response body ended unexpectedly"])
      by (repeat constructor; try done; vm_compute; congruence).
    rewrite Forall_forall in Hall. destruct (Hall m Hm) as (Hclip & _ & Hu & Hlen).
    assert (Hne : c <> EmptyString) by (intros ->; by apply (bool_decide_unpack (EmptyString ∉ stream_error_codes)) in Hc).
    apply String.eqb_neq in Hne. unfold terminal_message, failed. cbn [tm_code tm_message tm_retryable tm_reason].
    rewrite Hne. cbn [negb]. rewrite Hclip. by split.
Qed.

Lemma close_stream_off M L st net s id reason tn :
  session_ok M L st s -> is_u32 id -> stream_at (ss_table s) id = Some tn ->
  let s' := closeStream net s id reason in
  torn_down id tn (ss_table s') /\ (ss_done s' = false -> off id (ss_table s) (ss_table s')).
Proof.
  intros Hs Hi H. destruct (detach_off _ _ _ _ (Some io_EOF) _ (so_table _ _ _ _ Hs) H) as (Hf & Ho & Ht).
  unfold closeStream. pose proof (good_finishStream _ _ _ s id (Some io_EOF) Hs) as Hg. unfold finishStream in Hg.
  destruct (detachStream _ _ _) as [found T]. cbn [fst snd] in *. subst found. cbn [negb].
  set (m := MsgStreamClose _). split; [by eapply send_torn_down |]. intros Hd.
  destruct (sendFrame_table net (with_table s T) KindControl id (marshal_message m)) as [(E & _)|(_ & E & _)].
  - unfold sendControl. rewrite E. done.
  - unfold sendControl in Hd. rewrite E in Hd. done.
Qed.

Lemma end_stream_off M L st net s id t tn :
  session_ok M L st s -> is_u32 id -> stream_at (ss_table s) id = Some tn ->
  torn_down id tn (ss_table (end_stream net s id t)) /\
  (ss_done (end_stream net s id t) = false -> off id (ss_table s) (ss_table (end_stream net s id t))).
Proof.
  intros Hs Hi H. unfold end_stream. destruct (negb _).
  - by apply (error_stream_off M L st).
  - by apply (close_stream_off M L st).
Qed.

(** However a tunneled exchange ends, its stream is torn down with nothing
    it still holds lost, no other stream is touched while the session lives,
    and the Agent is told so by a control message its contract accepts.  The
    client got a prefix of the body within the response limit, and is told of
    success, with a final status, exactly when the stream is closed as
    completed: the request was written whole and the copy of the body reported
    no error and no overflow. *)
Theorem exchange_ends_stream M L st net s id tn lim writeErr gone resp e1 dst b e2 a t written at_ :
  session_ok M L st s -> stream_at (ss_table s) id = Some tn -> 0 <= MaxResponseBytes lim ->
  (forall room e, sk_room dst = Some (room, e) -> 0 <= room /\ errors_is e io_EOF = false) ->
  exchange lim writeErr gone resp e1 dst b e2 = (a, t, written) ->
  let s' := end_stream net s id t in
  torn_down id tn (ss_table s') /\ (ss_done s' = false -> off id (ss_table s) (ss_table s')) /\
  ValidateControlPayload (marshal_message (terminal_message t)) id at_ = Ok tt /\
  (exists more, bd_data b = written ++ more) /\ zlen written <= MaxResponseBytes lim /\
  (tm_reason t = "completed" <-> exists status, a = Answered status) /\
  (forall status, a = Answered status ->
     writeErr = None /\ 200 <= status <= 599 /\ exists r, resp = Ok r /\ rp_status r = status /\
       copyTunneledResponseBody dst r b (MaxResponseBytes lim) = (written, false, None)).
Proof.
  intros Hs Hat Hl Hd H s'.
  destruct (tk_ids _ _ _ (so_table _ _ _ _ Hs) id) as [Hid _];
    [apply elem_of_dom; exists tn; by apply stream_at_store |].
  destruct (end_stream_off _ _ _ net s id t tn Hs ltac:(unfold is_u32; lia) Hat) as [Ht Ho].
  split; [done |]. split; [done |]. destruct (exchange_terminal _ _ _ _ _ _ _ _ _ _ _ at_ H) as [Hwf Htx].
  split.
  { unfold terminal_message in *. destruct (negb _).
    - apply transmit_stream_error; [lia | done | done].
    - apply transmit_stream_close; [lia | done]. }
  unfold exchange in H. destruct writeErr as [e|]; cbn [after_write] in H.
  { destruct (errors_is e errResourceBudget); [| destruct gone]; injection H as <- <- <-;
      (split_and!; [by eexists | rewrite zlen_nil; lia | split; [done | by intros [? ?]] | done]). }
  destruct (after_headers lim resp e1) as [r|[a0 t0]] eqn:Eh.
  - assert (Hr : resp = Ok r /\ 200 <= rp_status r <= 599 /\
        (responseHasBody r = true -> rp_contentLength r <= MaxResponseBytes lim)).
    { unfold after_headers in Eh. destruct resp as [r0|]; [| by repeat case_match].
      unfold validateTunneledStatus, reject_if in Eh. destruct (_ || (599 <? _)) eqn:E1; [done |]. simpl in Eh.
      destruct (_ && _) eqn:E2; [done |]. injection Eh as ->. apply orb_false_iff in E1 as [? ?]. bool_facts.
      split; [done |]. split; [lia |]. intros Hb. destruct E2 as [E2|E2]; [congruence | bool_lia]. }
    destruct Hr as (-> & Hst & Hcl).
    destruct (copyTunneledResponseBody _ _ _ _) as [[w o] ce] eqn:Ec.
    assert (Hw : (exists more, bd_data b = w ++ more) /\ zlen w <= MaxResponseBytes lim)
      by (by eapply copied_prefix).
    destruct o; [| destruct ce; [destruct e2 |]]; injection H as <- <- <-; destruct Hw; split_and!; try done;
      try (split; [done | by intros [? ?]]).
    + split; [by eexists | done].
    + intros status [= <-]. split; [done |]. split; [done |]. by exists r.
  - assert (Hne : tm_reason t0 <> "completed" /\ forall status, a0 <> Answered status).
    { unfold after_headers in Eh. destruct resp; repeat (case_match; simplify_eq); by split. }
    injection H as <- <- <-. split_and!; [by eexists | rewrite zlen_nil; lia | |].
    + split; [by intros ? %(proj1 Hne) | by intros [x ? %(proj2 Hne)]].
    + by intros x ? %(proj2 Hne).
Qed.

(** ** Witnesses *)

Definition demo_route : bytes :=
  demo_json ("{'contract_version':1,'assignment_id':'as-1','endpoint_id':'ep-1'," +:+
    "'public_hostname':'app.example.com','device_id':'dev-a','local_endpoint_id':'le-1','enabled':true," +:+
    "'not_before':'2024-01-01T00:00:00Z','expires_at':'2024-01-02T00:00:00Z'}").

Definition demo_route_docs : list (category * bytes) := [(CatRoutes, demo_route)].
Definition demo_routes : SnapshotMetadata := (add_records NewSnapshotMetadata demo_route_docs).2.

Lemma demo_routes_loaded : add_records NewSnapshotMetadata demo_route_docs = (Ok tt, demo_routes).
Proof.
  unfold demo_routes. destruct (add_records NewSnapshotMetadata demo_route_docs) as [r md] eqn:E.
  apply (f_equal fst) in E. cbn [fst snd] in *. subst r. vm_compute. reflexivity.
Qed.

(** The route as it is read from the snapshot. *)
Definition demo_assignment : EndpointRouteAssignment :=
  MkRoute 1 "as-1" "ep-1" "app.example.com" "dev-a" "le-1" true "2024-01-01T00:00:00Z" "2024-01-02T00:00:00Z".

Definition demo_ingress : ingress :=
  (take_budgets DefaultLimits (new_ingress DefaultLimits 0) 1 demo_assignment 1 0).2.

Lemma demo_ingress_steps : steps (ingress_step DefaultLimits) (new_ingress DefaultLimits 0) demo_ingress.
Proof. eapply steps_cons; [by apply (ig_begin _ _ 1 demo_assignment 1 0) | apply steps_refl]. Qed.

Lemma ingress_budgets_witness :
  ig_slots demo_ingress = 1 /\ InFlight (ig_route demo_ingress) "as-1" = Z.of_nat (routes_served demo_ingress "as-1").
Proof.
  split; [vm_compute; reflexivity |].
  destruct (ingress_budgets DefaultLimits 0 demo_ingress ltac:(split; vm_compute; reflexivity) demo_ingress_steps)
    as (_ & _ & H & _). apply H.
Defined.

Definition demo_noon : moment := MkMoment Z.of_nat (fun h => bool_decide (h = 3%nat)) 1704110400000000000.

Lemma ingress_on_authority_witness :
  let q := MkIngressRequest "/index.html" "APP.example.com:443" 0 in
  let '(out, _) := begin_ingress demo_who DefaultLimits demo_routes demo_noon (demo_registry [0; 3]%nat)
      (new_ingress DefaultLimits 0) 1 q in
  out = Serving demo_assignment 3 /\ e_device (demo_who 3) = "dev-a".
Proof.
  intros q.
  destruct (begin_ingress demo_who DefaultLimits demo_routes demo_noon (demo_registry [0; 3]%nat)
      (new_ingress DefaultLimits 0) 1 q) as [out g'] eqn:E.
  assert (Ho : out = Serving demo_assignment 3) by (apply (f_equal fst) in E; cbn [fst] in E; subst out; vm_compute; reflexivity).
  split; [exact Ho |]. subst out.
  assert (Hok : ingress_ok DefaultLimits (new_ingress DefaultLimits 0))
    by (apply new_ingress_ok; split; vm_compute; reflexivity).
  destruct (ingress_on_authority demo_route_docs demo_routes demo_who DefaultLimits demo_noon (demo_registry [0; 3]%nat)
    (new_ingress DefaultLimits 0) 1 q demo_assignment 3 g' demo_routes_loaded ltac:(vm_compute; discriminate)
    (demo_reach _ _) Hok eq_refl E) as (_ & _ & H & _). exact H.
Defined.

Lemma exchange_ends_stream_witness :
  let resp := MkResponse false 200 3 in
  let out := exchange DefaultLimits None false (Ok resp) false (MkSink None) (MkBody [cr; lf; cr] io_EOF) false in
  out = (Answered 200, MkTerminal "completed" EmptyString EmptyString false, [cr; lf; cr]) /\
  1 ∉ tb_streams (ss_table (end_stream demo_net demo_open 1 out.1.2)).
Proof.
  intros resp out. assert (E : out = (Answered 200, MkTerminal "completed" EmptyString EmptyString false, [cr; lf; cr]))
    by (vm_compute; reflexivity).
  split; [exact E |].
  destruct (stream_at (ss_table demo_open) 1) as [tn|] eqn:Eat; [| vm_compute in Eat; discriminate].
  destruct (exchange_ends_stream 64 (2 ^ 23) 2 demo_net demo_open 1 tn DefaultLimits None false (Ok resp) false
    (MkSink None) (MkBody [cr; lf; cr] io_EOF) false _ _ _ 0 demo_open_ok Eat ltac:(vm_compute; discriminate)
    ltac:(simpl; intros; discriminate) E) as [[Hr _] _].
  rewrite E. exact Hr.
Defined.
