(* ===== verification/GwServe.v ===== *)
(** * GwServe: a stream and its public or private client

    The goroutines that copy bytes between a client of the Gateway and the
    stream it was given: [readPublicTCP] and [writePublicTCP] of
    [internal/gateway/public_tcp.go], and for a Connector flow those of
    [internal/gateway/connector.go] (both ends together are {!ConnectorFlow}).  What the client's
    connection and the stream answer are parameters, and so is what the other
    goroutines do to the session between two passes of a loop. *)

From S2P Require Import Prelude GoTime Json Frame Contract Control ControlCodec Window Budget GwLimits.
From S2P Require Import GwStream Wire SessTable GwSession.

(** ** Data on the Gateway's connection *)

Lemma data_of_app id w1 w2 : data_of id (w1 ++ w2) = data_of id w1 ++ data_of id w2.
Proof. unfold data_of. by rewrite fmap_app, concat_app. Qed.

Lemma wire_of_data id bs cs : wire_of id bs cs -> data_of id bs = concat cs.
Proof.
  intros H. induction H as [|b c bs cs [_ [q Hq]] _ IH]; [done |]. cbn [concat]. rewrite <- IH.
  unfold data_of. cbn. unfold frame_data at 1. rewrite Hq. cbn. by rewrite Z.eqb_refl.
Qed.

Section Send.
Context (maxStreams limit start : Z) (net : nat -> answer).
Notation good := (session_ok maxStreams limit start).

Lemma gw_sendBytes_data s id payload u s' :
  good s -> is_u32 id -> sendBytes net s id payload = (Ok u, s') ->
  data_of id (wr_wire (ss_writer s')) = data_of id (wr_wire (ss_writer s)) ++ payload.
Proof.
  intros Hs Hi H.
  assert (Hc : exists paced, send_chunks net (S (length payload)) s id paced payload = (Ok u, s')).
  { unfold sendBytes in H. destruct (id_flow (ss_id s)); [destruct (stream_at _ _); [| done] |]; eauto. }
  destruct Hc as [paced Hc].
  destruct (send_chunks_Ok _ _ _ net (S (length payload)) s id paced payload u s' Hs Hi (Nat.lt_succ_diag_r _) Hc)
    as (bs & cs & Hw & <- & Hf & _). by rewrite Hw, data_of_app, (wire_of_data _ _ _ Hf).
Qed.

(** What the other goroutines may do: anything but send data on this stream. *)
Definition gw_elsewhere (id : Z) (env : session -> session) : Prop :=
  forall s, good s -> good (env s) /\ data_of id (wr_wire (ss_writer (env s))) = data_of id (wr_wire (ss_writer s)).
End Send.

(** The frame of a half-close on the connection. *)
Definition half_closed (id : Z) (s s' : session) : Prop :=
  exists q, wr_wire (ss_writer s') = wr_wire (ss_writer s) ++
    [frame_bytes (MkFrame KindControl id q (marshal_message (MsgStreamHalfClose
       (MkStreamHalfClose ProtocolVersion "stream_half_close"))))].

Lemma halfCloseStream_sent maxStreams limit start net s id u s' :
  session_ok maxStreams limit start s -> is_u32 id -> halfCloseStream net s id = (Ok u, s') ->
  half_closed id s s' /\ data_of id (wr_wire (ss_writer s')) = data_of id (wr_wire (ss_writer s)).
Proof.
  intros Hs Hi H. unfold halfCloseStream in H. destruct (negb _); [done |].
  destruct (sendFrame_Ok _ _ _ net s KindControl id _ u s' Hs ltac:(done) Hi H) as (_ & _ & q & Hw & Hwire).
  split; [by exists q |]. rewrite Hwire, data_of_snoc. unfold frame_data.
  rewrite (decode_frame_bytes _ Hw). apply app_nil_r.
Qed.

(** ** A public TCP client *)

(** One pass of a read loop: the other goroutines, then what [conn.Read] gave. *)
Record client_read := MkClientRead {
  cl_env : session -> session;
  cl_data : bytes;
  cl_err : option error;
}.

(** [if n > 0 { ... sendBytes ... }]. *)
Definition gw_forward (net : nat -> answer) (s : session) (id : Z) (data : bytes) : result unit * session :=
  if 0 <? zlen data then sendBytes net s id data else (Ok tt, s).

(** [None]: the loop is still running. *)
Fixpoint readPublicTCP (net : nat -> answer) (id : Z) (rounds : list client_read) (s : session)
  : option (result unit * session) :=
  match rounds with
  | [] => None
  | r :: rest =>
    match gw_forward net (cl_env r s) id (cl_data r) with
    | (Err sendErr, s1) => Some (Err sendErr, s1)
    | (Ok _, s1) =>
      match cl_err r with
      | Some err => if errors_is err io_EOF then Some (halfCloseStream net s1 id) else Some (Err err, s1)
      | None => readPublicTCP net id rest s1
      end
    end
  end.

(** [for remaining := buffer[:n]; len(remaining) > 0; { ... }]. *)
Fixpoint public_write (answers : list (nat * option error)) (remaining : bytes) : bytes * option (result unit) :=
  match remaining with
  | [] => ([], Some (Ok tt))
  | _ =>
    match answers with
    | [] => ([], None)
    | (n, Some err) :: _ => (firstn n remaining, Some (Err err))
    | (n, None) :: rest =>
      if Nat.eqb n 0 then ([], Some (Err io_ErrShortWrite))
      else let '(w, r) := public_write rest (skipn n remaining) in (firstn n remaining ++ w, r)
    end
  end.

(** One pass of a write loop: what [stream.Read] gave, and the answers of the
    client's connection. *)
Record stream_read := MkStreamRead {
  sr_data : bytes;
  sr_err : option error;
  sr_writes : list (nat * option error);
}.

(** What reached the client and, once the loop ended, its result;
    [closeWrite] is the answer of [tcp.CloseWrite]. *)
Fixpoint writePublicTCP (rounds : list stream_read) (closeWrite : option error) : bytes * option (result unit) :=
  match rounds with
  | [] => ([], None)
  | r :: rest =>
    let '(w, written) := public_write (sr_writes r) (sr_data r) in
    match written with
    | None => (w, None)
    | Some (Err err) => (w, Some (Err err))
    | Some (Ok _) =>
      match sr_err r with
      | Some err =>
        (w, Some (if errors_is err io_EOF then match closeWrite with Some e => Err e | None => Ok tt end
                  else Err (ErrWrap "read public TCP stream" err)))
      | None => let '(w', res) := writePublicTCP rest closeWrite in (w ++ w', res)
      end
    end
  end.

Lemma gw_forward_data maxStreams limit start net s id data u s' :
  session_ok maxStreams limit start s -> is_u32 id -> gw_forward net s id data = (u, s') ->
  session_ok maxStreams limit start s' /\
  (is_ok u = true -> data_of id (wr_wire (ss_writer s')) = data_of id (wr_wire (ss_writer s)) ++ data).
Proof.
  intros Hs Hi. unfold gw_forward. destruct (0 <? zlen data) eqn:Ez; bool_facts.
  - pose proof (good_sendBytes _ _ _ net s id data Hs Hi) as Hg. intros E. rewrite E in Hg. split; [exact Hg |].
    destruct u as [[]|]; [| done]. intros _. by eapply gw_sendBytes_data.
  - intros [= <- <-]. split; [done |]. intros _. destruct data; [by rewrite app_nil_r | unfold zlen in Ez; cbn in Ez; lia].
Qed.

(** How a read loop that ended well ended. *)
Lemma readPublicTCP_Ok maxStreams limit start net id rounds : forall s u s',
  session_ok maxStreams limit start s -> is_u32 id ->
  Forall (fun r => gw_elsewhere maxStreams limit start id (cl_env r)) rounds ->
  readPublicTCP net id rounds s = Some (Ok u, s') ->
  exists pre r post err s1, rounds = pre ++ r :: post /\ cl_err r = Some err /\ errors_is err io_EOF = true /\
    data_of id (wr_wire (ss_writer s')) = data_of id (wr_wire (ss_writer s)) ++ concat (cl_data <$> pre ++ [r]) /\
    half_closed id s1 s'.
Proof.
  induction rounds as [|r rest IH]; intros s u s' Hs Hi He H; [done |]. cbn [readPublicTCP] in H.
  apply Forall_cons in He as [Hr He]. destruct (Hr s Hs) as [H0 D0].
  destruct (gw_forward net (cl_env r s) id (cl_data r)) as [[v|e] s1] eqn:Ef; [| done].
  destruct (gw_forward_data _ _ _ _ _ _ _ _ _ H0 Hi Ef) as [H1 D1]. specialize (D1 eq_refl). rewrite D0 in D1.
  destruct (cl_err r) as [err|] eqn:Ee.
  - destruct (errors_is err io_EOF) eqn:Eo; [| done]. injection H as H.
    destruct (halfCloseStream_sent _ _ _ _ _ _ _ _ H1 Hi H) as [Hh Hd].
    exists [], r, rest, err, s1. split_and!; try done. rewrite Hd, D1. cbn. by rewrite app_nil_r.
  - destruct (IH _ _ _ H1 Hi He H) as (pre & x & post & err & s2 & -> & E1 & E2 & E3 & E4).
    exists (r :: pre), x, post, err, s2. split_and!; try done. rewrite E3, D1. cbn. by rewrite <- (assoc (++)).
Qed.

Lemma public_write_spec : forall remaining answers w res,
  public_write answers remaining = (w, res) ->
  w `prefix_of` remaining /\ (res = Some (Ok tt) -> w = remaining) /\
  (res = None -> (length answers < length remaining)%nat).
Proof.
  intros remaining. induction remaining as [remaining IH] using (induction_ltof1 _ (@length _)).
  unfold ltof in IH. intros answers w res H. destruct remaining as [|b remaining].
  { assert (w = [] /\ res = Some (Ok tt)) as [-> ->] by (by destruct answers as [|[? []] ?]; injection H as <- <-). by split. }
  destruct answers as [|[n [err|]] rest]; cbn [public_write] in H.
  - injection H as <- <-. split; [apply prefix_nil |]. split; [done |]. cbn. lia.
  - injection H as <- <-. split; [apply prefix_take | done].
  - destruct n as [|n]; cbn [Nat.eqb] in H; [injection H as <- <-; split; [apply prefix_nil | done] |].
    destruct (public_write rest (skipn (S n) (b :: remaining))) as [w' r'] eqn:E. injection H as <- <-.
    apply IH in E as (Hp & Hok & Hn); [| rewrite length_skipn; cbn; lia]. split; [| split].
    + destruct Hp as [k Hk]. exists k. rewrite <- (firstn_skipn (S n) (b :: remaining)) at 1. rewrite Hk. by rewrite (assoc (++)).
    + intros Hr. rewrite (Hok Hr). exact (firstn_skipn (S n) (b :: remaining)).
    + intros Hr. specialize (Hn Hr). rewrite length_skipn in Hn. cbn [length] in *. lia.
Qed.

Lemma writePublicTCP_spec rounds closeWrite : forall w res,
  writePublicTCP rounds closeWrite = (w, res) ->
  w `prefix_of` concat (sr_data <$> rounds) /\
  (res = Some (Ok tt) -> exists pre r post err, rounds = pre ++ r :: post /\ sr_err r = Some err /\
     errors_is err io_EOF = true /\ closeWrite = None /\ w = concat (sr_data <$> pre ++ [r])).
Proof.
  induction rounds as [|r rest IH]; intros w res H; cbn [writePublicTCP] in H.
  { injection H as <- <-. split; [apply prefix_nil | done]. }
  destruct (public_write (sr_writes r) (sr_data r)) as [w1 o] eqn:Ew.
  destruct (public_write_spec _ _ _ _ Ew) as (Hp & Hok & _). cbn [fmap list_fmap concat].
  assert (Hp1 : w1 `prefix_of` sr_data r ++ concat (sr_data <$> rest)) by (by apply prefix_app_r).
  destruct o as [[[]|e]|]; [| injection H as <- <-; by split ..]. specialize (Hok eq_refl) as ->.
  destruct (sr_err r) as [err|] eqn:Ee.
  - injection H as <- <-. split; [done |]. destruct (errors_is err io_EOF) eqn:Eo; [| done].
    destruct closeWrite as [e|]; [done |]. intros _. exists [], r, rest, err. cbn. by rewrite app_nil_r.
  - destruct (writePublicTCP rest closeWrite) as [w2 r2] eqn:E. injection H as <- <-.
    destruct (IH _ _ eq_refl) as [Hp2 Hok2]. split; [by apply prefix_app |].
    intros Hr. destruct (Hok2 Hr) as (pre & x & post & err & -> & E1 & E2 & E3 & ->).
    exists (r :: pre), x, post, err. cbn. by split_and!.
Qed.

(** A public TCP connection is forwarded whole in both directions. When readPublicTCP returns without an error the client had ended its side, every byte it sent, in order and none left out, is on the tunnel as data of the stream whatever the other goroutines did to the session meanwhile, followed by the stream's half-close. What writePublicTCP hands to the client is always a prefix of what the stream delivered, whatever the socket's partial writes; when it returns without an error it is all of it, up to the stream's end, and the client's write side was closed; and each payload's write loop ends after at most as many writes as it has bytes, since a write that takes nothing ends it. *)
Theorem public_tcp_whole maxStreams limit start net id reads s u s' :
  session_ok maxStreams limit start s -> is_u32 id ->
  Forall (fun r => gw_elsewhere maxStreams limit start id (cl_env r)) reads ->
  readPublicTCP net id reads s = Some (Ok u, s') ->
  (exists pre r post err s1, reads = pre ++ r :: post /\ cl_err r = Some err /\ errors_is err io_EOF = true /\
    data_of id (wr_wire (ss_writer s')) = data_of id (wr_wire (ss_writer s)) ++ concat (cl_data <$> pre ++ [r]) /\
    half_closed id s1 s') /\
  (forall rounds closeWrite w res, writePublicTCP rounds closeWrite = (w, res) ->
    w `prefix_of` concat (sr_data <$> rounds) /\
    (res = Some (Ok tt) -> exists pre r post err, rounds = pre ++ r :: post /\ sr_err r = Some err /\
       errors_is err io_EOF = true /\ closeWrite = None /\ w = concat (sr_data <$> pre ++ [r]))) /\
  (forall answers payload, (length payload <= length answers)%nat -> (public_write answers payload).2 <> None).
Proof.
  intros Hs Hi He H. split; [by eapply readPublicTCP_Ok |]. split; [intros *; apply writePublicTCP_spec |].
  intros answers payload Hl Hn. destruct (public_write answers payload) as [w o] eqn:E. cbn in Hn. subst o.
  apply public_write_spec in E as (_ & _ & Hlt). specialize (Hlt eq_refl). lia.
Qed.

(** ** A concrete connection *)

Definition demo_reads : list client_read :=
  [MkClientRead (fun s => s) demo_a None; MkClientRead (fun s => s) demo_b (Some io_EOF)].

Lemma elsewhere_idle maxStreams limit start id : gw_elsewhere maxStreams limit start id (fun s => s).
Proof. intros s Hs. by split. Qed.

Lemma public_tcp_whole_witness :
  exists s', readPublicTCP demo_net 1 demo_reads demo_open = Some (Ok tt, s') /\
    exists pre r post, demo_reads = pre ++ r :: post /\
      data_of 1 (wr_wire (ss_writer s')) = data_of 1 (wr_wire (ss_writer demo_open)) ++ concat (cl_data <$> pre ++ [r]).
Proof.
  destruct (readPublicTCP demo_net 1 demo_reads demo_open) as [[u s']|] eqn:E.
  2: { exfalso. apply (f_equal (fun x => match x with Some _ => true | None => false end)) in E. vm_compute in E. discriminate E. }
  assert (Eu : u = Ok tt).
  { apply (f_equal (fun x => fst <$> x)) in E. vm_compute in E. injection E as <-. reflexivity. }
  subst u. exists s'. split; [reflexivity |].
  assert (He : Forall (fun r => gw_elsewhere 64 (2 ^ 23) 2 1 (cl_env r)) demo_reads).
  { apply Forall_forall. intros r Hr. apply list_elem_of_In in Hr. destruct Hr as [<-|[<-|[]]]; apply elsewhere_idle. }
  destruct (public_tcp_whole 64 (2 ^ 23) 2 demo_net 1 demo_reads demo_open tt s' demo_open_ok
    ltac:(unfold is_u32; lia) He E) as ((pre & r & post & err & s1 & H1 & _ & _ & H2 & _) & _).
  exists pre, r, post. split; [exact H1 | exact H2].
Defined.
