(* ===== verification/PublicPorts.v ===== *)
(** * PublicPorts: the public TCP and UDP listeners

    [PublicTCPManager] and [PublicUDPManager] of
    [internal/gateway/public_tcp.go] and [public_udp.go]: which ports listen
    (reconciliation with the metadata source), which sources a listener serves,
    and what a UDP flow may send back.  Binding a socket is a parameter.  A
    listener's context is alive and its socket open exactly while its id is in
    [mg_live]; the loops over the maps touch each port once, in no order. *)

From S2P Require Import Prelude GoText GoTime GoFloat GoNet Json Frame Contract ContractV2 Metadata ConnectorAuth GwLimits Admission.

(** ** Configuration *)

Record PublicTCPConfig := MkPublicConfig {
  pc_BindHost : string;
  pc_PortMin : Z;
  pc_PortMax : Z;
  pc_ReconcileInterval : Z;
}.

(** The guard of [NewPublicTCPManager] and [NewPublicUDPManager]. *)
Definition invalid_config (c : PublicTCPConfig) : bool :=
  String.eqb (pc_BindHost c) EmptyString || (pc_PortMin c <? 1024) || (65535 <? pc_PortMax c) ||
  (pc_PortMax c <? pc_PortMin c) || (pc_ReconcileInterval c <=? 0).

(** ** Reconciliation *)

Record listener := MkListener { ln_id : nat; ln_endpoint : ServiceEndpoint }.

Record manager := MkManager {
  mg_listeners : gmap Z listener;
  mg_closed : bool;
  mg_made : nat;               (* listeners made so far *)
  mg_live : gset nat;          (* of these, the ones not cancelled and closed *)
}.

Definition new_manager : manager := MkManager ∅ false 0 ∅.

Definition NewPublicManager (what : string) (c : PublicTCPConfig) : result manager :=
  reject_if (invalid_config c) (ErrMsg ("invalid public " +:+ what +:+ " configuration")) ;? Ok new_manager.

Definition ids (ls : gmap Z listener) : gset nat := map_to_set (fun _ l => ln_id l) ls.

Definition closeAll (m : manager) : manager :=
  MkManager ∅ (mg_closed m) (mg_made m) (mg_live m ∖ ids (mg_listeners m)).

Definition Close (m : manager) : manager :=
  if mg_closed m then m
  else let m := closeAll m in MkManager (mg_listeners m) true (mg_made m) (mg_live m).

(** The endpoints this manager serves, by port. *)
Definition want (c : PublicTCPConfig) (protocol : string) (w : gmap Z ServiceEndpoint) (e : ServiceEndpoint) : gmap Z ServiceEndpoint :=
  if String.eqb (se_protocol e) protocol && (pc_PortMin c <=? se_public_port e) && (se_public_port e <=? pc_PortMax c)
  then <[se_public_port e := e]> w else w.

Definition wanted (c : PublicTCPConfig) (protocol : string) (endpoints : list ServiceEndpoint) : gmap Z ServiceEndpoint :=
  foldl (want c protocol) ∅ endpoints.

Definition keeps (w : gmap Z ServiceEndpoint) (x : Z * listener) : Prop := w !! x.1 = Some (ln_endpoint x.2).

#[export] Instance keeps_dec w x : Decision (keeps w x).
Proof. unfold keeps. apply _. Defined.

Definition open_port (bind : Z -> bool) (port : Z) (e : ServiceEndpoint) (m : manager) : manager :=
  if bind port
  then MkManager (<[port := MkListener (mg_made m) e]> (mg_listeners m)) (mg_closed m) (S (mg_made m))
         ({[mg_made m]} ∪ mg_live m)
  else m.

(** The body of [reconcile] under the lock. *)
Definition reconcile_ports (c : PublicTCPConfig) (protocol : string) (bind : Z -> bool) (endpoints : list ServiceEndpoint)
    (m : manager) : manager :=
  let w := wanted c protocol endpoints in
  let kept := filter (keeps w) (mg_listeners m) in
  let dropped := filter (fun x => ~ keeps w x) (mg_listeners m) in
  let fresh := filter (fun x => kept !! x.1 = None) w in
  map_fold (open_port bind) (MkManager kept (mg_closed m) (mg_made m) (mg_live m ∖ ids dropped)) fresh.

Definition reconcile_tcp (c : PublicTCPConfig) (bind : Z -> bool) (endpoints : result (list ServiceEndpoint)) (m : manager)
  : result unit * manager :=
  match endpoints with
  | Err err => (Err err, closeAll m)
  | Ok es => if mg_closed m then (Ok tt, m) else (Ok tt, reconcile_ports c "tcp" bind es m)
  end.

Definition reconcile_udp (c : PublicTCPConfig) (bind : Z -> bool) (endpoints : result (list ServiceEndpoint)) (m : manager)
  : result unit * manager :=
  if mg_closed m then (Ok tt, m)
  else match endpoints with
       | Err err => (Err err, closeAll m)
       | Ok es => (Ok tt, reconcile_ports c "udp" bind es m)
       end.

(** The two managers: protocol, reconciliation, the source's answer. *)
Inductive transport := TCP | UDP.

Definition protocol_of (t : transport) : string := match t with TCP => "tcp" | UDP => "udp" end.

Definition reconcile (t : transport) c bind endpoints m : result unit * manager :=
  match t with TCP => reconcile_tcp c bind endpoints m | UDP => reconcile_udp c bind endpoints m end.

Definition endpoints_of (t : transport) (s : SnapshotMetadata) (at_ : instant) : list ServiceEndpoint :=
  match t with TCP => PublicTCPEndpoints s at_ | UDP => PublicUDPEndpoints s at_ end.

Inductive manager_step (t : transport) (c : PublicTCPConfig) : manager -> manager -> Prop :=
| mg_reconcile bind endpoints m : manager_step t c m (reconcile t c bind endpoints m).2
| mg_close m : manager_step t c m (Close m).

(** ** What listens *)

Definition served_here (t : transport) (c : PublicTCPConfig) (port : Z) (e : ServiceEndpoint) : Prop :=
  se_public_port e = port /\ se_protocol e = protocol_of t /\ pc_PortMin c <= port <= pc_PortMax c.

Record manager_ok (t : transport) (c : PublicTCPConfig) (m : manager) : Prop := ManagerOk {
  mo_live : forall i, i ∈ mg_live m <-> exists p l, mg_listeners m !! p = Some l /\ ln_id l = i;
  mo_made : forall p l, mg_listeners m !! p = Some l -> (ln_id l < mg_made m)%nat;
  mo_inj : forall p q l l', mg_listeners m !! p = Some l -> mg_listeners m !! q = Some l' -> ln_id l = ln_id l' -> p = q;
  mo_served : forall p l, mg_listeners m !! p = Some l -> served_here t c p (ln_endpoint l);
  mo_closed : mg_closed m = true -> mg_listeners m = ∅;
}.

Lemma elem_of_ids ls i : i ∈ ids ls <-> exists p l, ls !! p = Some l /\ ln_id l = i.
Proof. unfold ids. rewrite elem_of_map_to_set. naive_solver. Qed.

(** Removing listeners together with their ids keeps the invariant. *)
Lemma restrict_ok t c m (P : Z * listener -> Prop) `{!forall x, Decision (P x)} :
  manager_ok t c m ->
  manager_ok t c (MkManager (filter P (mg_listeners m)) (mg_closed m) (mg_made m)
                    (mg_live m ∖ ids (filter (fun x => ~ P x) (mg_listeners m)))).
Proof.
  intros [Hl Hm Hi Hs Hc]. split; cbn [mg_listeners mg_closed mg_made mg_live].
  - intros i. rewrite elem_of_difference, Hl, elem_of_ids. split.
    + intros [(p & l & Hp & <-) Hn]. exists p, l. split; [| done]. apply map_lookup_filter_Some. split; [done |].
      destruct (decide (P (p, l))) as [|HP]; [done |]. destruct Hn. exists p, l. split; [| done].
      by apply map_lookup_filter_Some.
    + intros (p & l & [Hp HP]%map_lookup_filter_Some & <-). split; [eauto |].
      intros (q & l' & [Hq HQ]%map_lookup_filter_Some & E).
      pose proof (Hi q p l' l Hq Hp E) as ->. rewrite Hp in Hq. injection Hq as <-. done.
  - intros p l [Hp _]%map_lookup_filter_Some. by eapply Hm.
  - intros p q l l' [Hp _]%map_lookup_filter_Some [Hq _]%map_lookup_filter_Some. by eapply Hi.
  - intros p l [Hp _]%map_lookup_filter_Some. by apply Hs.
  - intros Hcl. rewrite (Hc Hcl). apply map_filter_empty.
Qed.

Lemma manager_closeAll_ok t c m : manager_ok t c m -> manager_ok t c (closeAll m) /\ mg_live (closeAll m) = ∅.
Proof.
  intros [Hl _ _ _ _]. assert (Hlive : mg_live (closeAll m) = ∅).
  { apply set_eq. intros i. cbn [closeAll mg_live]. rewrite elem_of_difference, Hl, elem_of_ids. set_solver. }
  assert (Hno : forall p, mg_listeners (closeAll m) !! p = None) by (intros p; apply lookup_empty).
  split; [| exact Hlive]. split.
  - intros i. rewrite Hlive. split; [set_solver | intros (p & l & Hp & _); by rewrite Hno in Hp].
  - intros p l Hp. by rewrite Hno in Hp.
  - intros p q l l' Hp. by rewrite Hno in Hp.
  - intros p l Hp. by rewrite Hno in Hp.
  - done.
Qed.

Lemma open_port_ok t c bind m port e :
  manager_ok t c m -> mg_closed m = false -> mg_listeners m !! port = None -> served_here t c port e ->
  manager_ok t c (open_port bind port e m).
Proof.
  intros [Hl Hm Hi Hs Hc] Hopen Hn He. unfold open_port. destruct (bind port); [| by split].
  split; cbn [mg_listeners mg_closed mg_made mg_live].
  - intros i. rewrite elem_of_union, elem_of_singleton, Hl. split.
    + intros [->|(p & l & Hp & <-)]; [eexists port, _; by rewrite lookup_insert_eq |].
      exists p, l. rewrite lookup_insert_ne by congruence. done.
    + intros (p & l & [[<- <-]|[_ Hp]]%lookup_insert_Some & <-); [by left | right; eauto].
  - intros p l [[<- <-]|[_ Hp]]%lookup_insert_Some; [cbn; lia |]. specialize (Hm _ _ Hp). lia.
  - intros p q l l' [[<- <-]|[_ Hp]]%lookup_insert_Some [[<- <-]|[_ Hq]]%lookup_insert_Some; cbn.
    + done.
    + intros E. specialize (Hm _ _ Hq). lia.
    + intros E. specialize (Hm _ _ Hp). lia.
    + by eapply Hi.
  - intros p l [[<- <-]|[_ Hp]]%lookup_insert_Some; [done | by apply Hs].
  - intros H. congruence.
Qed.

(** What opening the missing ports does. *)
Record opened (t : transport) (c : PublicTCPConfig) (bind : Z -> bool) (m m' : manager) (w : gmap Z ServiceEndpoint) : Prop :=
  Opened {
  op_ok : manager_ok t c m';
  op_closed : mg_closed m' = false;
  op_made : (mg_made m <= mg_made m')%nat;
  op_same : forall p, w !! p = None \/ bind p = false -> mg_listeners m' !! p = mg_listeners m !! p;
  op_new : forall p e, w !! p = Some e -> bind p = true ->
    exists l, mg_listeners m' !! p = Some l /\ ln_endpoint l = e /\ (mg_made m <= ln_id l)%nat;
}.

Lemma open_fold t c bind m w :
  manager_ok t c m -> mg_closed m = false ->
  (forall p e, w !! p = Some e -> mg_listeners m !! p = None /\ served_here t c p e) ->
  opened t c bind m (map_fold (open_port bind) m w) w.
Proof.
  intros Hm Hopen. apply (map_fold_weak_ind (fun m' w =>
    (forall p e, w !! p = Some e -> mg_listeners m !! p = None /\ served_here t c p e) -> opened t c bind m m' w)).
  - by split.
  - intros p e w' m' Hp IH Hw. destruct (Hw p e) as [Hn Hs]; [by rewrite lookup_insert_eq |].
    destruct IH as [Hok Hc Hmade Hsame Hnew].
    { intros q x Hq. apply Hw. rewrite lookup_insert_ne; [done | congruence]. }
    assert (Hn' : mg_listeners m' !! p = None) by (rewrite Hsame by (by left); done).
    pose proof (open_port_ok t c bind m' p e Hok Hc Hn' Hs) as Hok'. unfold open_port in *.
    destruct (bind p) eqn:Eb; split; cbn [mg_listeners mg_closed mg_made mg_live] in *; try done; try lia.
    + intros q Hq. destruct (decide (q = p)) as [->|Hne].
      * rewrite lookup_insert_eq in Hq. destruct Hq; congruence.
      * rewrite lookup_insert_ne in Hq by done. rewrite lookup_insert_ne by done. by apply Hsame.
    + intros q x. destruct (decide (q = p)) as [->|Hne].
      * rewrite !lookup_insert_eq. intros [= <-] _. eexists. split; [done |]. split; [done |]. cbn. lia.
      * rewrite !lookup_insert_ne by done. apply Hnew.
    + intros q Hq. apply Hsame. destruct (decide (q = p)) as [->|Hne]; [by right |]. by rewrite lookup_insert_ne in Hq.
    + intros q x. destruct (decide (q = p)) as [->|Hne]; [congruence |]. rewrite lookup_insert_ne by done. apply Hnew.
Qed.

Lemma wanted_served t c es p e : wanted c (protocol_of t) es !! p = Some e -> e ∈ es /\ served_here t c p e.
Proof.
  unfold wanted.
  enough (Hgen : forall l (w : gmap Z ServiceEndpoint), l ⊆ es -> (forall p e, w !! p = Some e -> e ∈ es /\ served_here t c p e) ->
      forall p e, foldl (want c (protocol_of t)) w l !! p = Some e -> e ∈ es /\ served_here t c p e).
  { apply (Hgen es ∅); [done |]. done. }
  intros l. induction l as [|x l IH]; intros w Hl Hw; [apply Hw |]. cbn [foldl].
  apply IH; [set_solver |]. unfold want. destruct (_ && _) eqn:E; [| exact Hw]. bool_facts.
  intros q y [[<- <-]|[_ Hq]]%lookup_insert_Some; [| by apply Hw]. split; [set_solver |]. unfold served_here. auto.
Qed.

(** What one reconciliation leaves. *)
Record reconciled (t : transport) (c : PublicTCPConfig) (bind : Z -> bool) (w : gmap Z ServiceEndpoint) (m m' : manager) : Prop :=
  Reconciled {
  rc_ok : manager_ok t c m';
  rc_only : forall p l, mg_listeners m' !! p = Some l -> w !! p = Some (ln_endpoint l);
  rc_all : forall p e, w !! p = Some e -> bind p = true -> is_Some (mg_listeners m' !! p);
  rc_kept : forall p l, mg_listeners m !! p = Some l -> w !! p = Some (ln_endpoint l) -> mg_listeners m' !! p = Some l;
  rc_dropped : forall p l, mg_listeners m !! p = Some l -> w !! p <> Some (ln_endpoint l) -> ln_id l ∉ mg_live m';
}.

Lemma reconcile_ports_spec t c bind es m :
  manager_ok t c m -> mg_closed m = false ->
  reconciled t c bind (wanted c (protocol_of t) es) m (reconcile_ports c (protocol_of t) bind es m).
Proof.
  intros Hm Hopen. unfold reconcile_ports. set (w := wanted c (protocol_of t) es). cbv zeta.
  set (kept := filter (keeps w) (mg_listeners m)). set (fresh := filter (fun x => kept !! x.1 = None) w).
  match goal with |- context [map_fold _ ?b _] => set (m1 := b) end.
  assert (H1 : manager_ok t c m1) by (by apply restrict_ok).
  assert (Hf : forall p e, fresh !! p = Some e <-> w !! p = Some e /\ kept !! p = None).
  { intros p e. unfold fresh. by rewrite map_lookup_filter_Some. }
  assert (Hk : forall p l, kept !! p = Some l <-> mg_listeners m !! p = Some l /\ w !! p = Some (ln_endpoint l)).
  { intros p l. unfold kept. by rewrite map_lookup_filter_Some. }
  destruct (open_fold t c bind m1 fresh H1 Hopen) as [Hok Hc Hmade Hsame Hnew].
  { intros p e [Hw Hn]%Hf. split; [exact Hn |]. by apply (wanted_served t c es). }
  set (m' := map_fold (open_port bind) m1 fresh) in *.
  assert (Hkept : forall p l, kept !! p = Some l -> mg_listeners m' !! p = Some l).
  { intros p l Hp. rewrite Hsame; [exact Hp |]. left. destruct (fresh !! p) eqn:E; [| done]. apply Hf in E as [_ E]. congruence. }
  split; [exact Hok | | | |].
  - intros p l Hp. destruct (fresh !! p) as [e|] eqn:Ef; [destruct (bind p) eqn:Eb |].
    + destruct (Hnew p e Ef Eb) as (l' & Hl' & <- & _). apply Hf in Ef as [Hw _]. congruence.
    + rewrite Hsame in Hp by (by right). by apply Hk in Hp as [_ ?].
    + rewrite Hsame in Hp by (by left). by apply Hk in Hp as [_ ?].
  - intros p e Hw Hb. destruct (kept !! p) as [l|] eqn:Ek; [by exists l; apply Hkept |].
    destruct (Hnew p e) as (l & Hl & _); [by apply Hf | done | by exists l].
  - intros p l Hp Hw. apply Hkept. by apply Hk.
  - intros p l Hp Hw Hin. apply (mo_live t c m' Hok) in Hin as (q & l' & Hq & E).
    pose proof (mo_made t c m Hm p l Hp) as Hlt.
    destruct (fresh !! q) as [e|] eqn:Ef; [destruct (bind q) eqn:Eb |].
    + destruct (Hnew q e Ef Eb) as (l2 & Hl2 & _ & Hge). change (mg_made m1) with (mg_made m) in Hge.
      rewrite Hq in Hl2. injection Hl2 as <-. lia.
    + rewrite Hsame in Hq by (by right). apply Hk in Hq as [Hq Hw2].
      pose proof (mo_inj t c m Hm q p l' l Hq Hp E) as ->. congruence.
    + rewrite Hsame in Hq by (by left). apply Hk in Hq as [Hq Hw2].
      pose proof (mo_inj t c m Hm q p l' l Hq Hp E) as ->. congruence.
Qed.

Lemma manager_step_ok t c m m' : manager_ok t c m -> manager_step t c m m' -> manager_ok t c m'.
Proof.
  intros Hm Hstep. destruct Hstep as [bind es m0|m0].
  - destruct t; cbn [reconcile]; [unfold reconcile_tcp | unfold reconcile_udp]; destruct es as [es|]; cbn [snd];
      destruct (mg_closed m0) eqn:Ec; cbn [snd]; try done; try (by apply manager_closeAll_ok).
    + by apply (reconcile_ports_spec TCP c bind es m0).
    + by apply (reconcile_ports_spec UDP c bind es m0).
  - unfold Close. destruct (mg_closed m0) eqn:Ec; [done |]. destruct (manager_closeAll_ok t c m0 Hm) as [[Hl Hmd Hi Hs _] _].
    by split.
Qed.

Lemma new_manager_ok t c : manager_ok t c new_manager.
Proof. split; try done. intros i. split; [set_solver | intros (p & l & Hp & _); done]. Qed.

(** ** On published metadata *)

(** A published, enabled endpoint with that public port whose owner is not revoked. *)
Definition public_endpoint docs (t : transport) (port : Z) (at_ : instant) (e : ServiceEndpoint) : Prop :=
  published_endpoint docs e /\ se_enabled e = true /\ ~ revoked_by docs "device" (se_owner_device_id e) at_ /\
  se_public_port e = port /\ port <> 0 /\ se_protocol e = protocol_of t.

Lemma endpoints_of_iff docs s t at_ e :
  reflects docs s -> e ∈ endpoints_of t s at_ <-> public_endpoint docs t (se_public_port e) at_ e.
Proof.
  intros Hs. assert (E : endpoints_of t s at_ = publicEndpoints s at_ (protocol_of t)) by (by destruct t).
  rewrite E. unfold publicEndpoints. rewrite list_elem_of_omap. split.
  - intros ([port id_] & Hin & Hm). apply elem_of_map_to_list in Hin. cbn in Hm.
    apply (rf_port _ _ Hs) in Hin as (y & (Hy & Hp) & <- & <-).
    destruct (ServiceEndpoint_at s _ at_) as [r|] eqn:Er; [| done]. destruct (String.eqb _ _) eqn:Ep; [| done].
    injection Hm as ->. apply String.eqb_eq in Ep.
    pose proof Er as (_ & Hid & He & Hr)%(ServiceEndpoint_at_iff _ _ _ _ _ Hs).
    assert (e = y) as ->; [| by split_and!].
    unfold ServiceEndpoint_at in Er. destruct (serviceEndpoints s !! _) as [r|] eqn:El; [| done].
    pose proof (proj2 (rf_endpoint _ _ Hs (se_endpoint_id y) y)) as Hy2. rewrite El in Hy2.
    assert (Some r = Some y) as [= ->] by (apply Hy2; by exists y). inv_ok. done.
  - intros (Hp & He & Hr & _ & Hn & Hproto). exists (se_public_port e, se_endpoint_id e). split.
    + apply elem_of_map_to_list. apply (rf_port _ _ Hs). by exists e.
    + cbn. rewrite (proj2 (ServiceEndpoint_at_iff docs s (se_endpoint_id e) at_ e Hs)) by (by split_and!).
      by rewrite (proj2 (String.eqb_eq _ _) Hproto).
Qed.

(** One published endpoint per port. *)
Lemma public_endpoint_unique docs s t port at_ e e' :
  reflects docs s -> public_endpoint docs t port at_ e -> public_endpoint docs t port at_ e' -> e = e'.
Proof.
  intros Hs (He & _ & _ & Hp & Hn & _) (He' & _ & _ & Hp' & _ & _).
  assert (H1 : publicPorts s !! port = Some (se_endpoint_id e)) by (apply (rf_port _ _ Hs); exists e; by subst).
  assert (H2 : publicPorts s !! port = Some (se_endpoint_id e')) by (apply (rf_port _ _ Hs); exists e'; by rewrite Hp').
  assert (Hid : se_endpoint_id e = se_endpoint_id e') by congruence.
  assert (H3 : serviceEndpoints s !! se_endpoint_id e = Some e) by (apply (rf_endpoint _ _ Hs); by exists e).
  assert (H4 : serviceEndpoints s !! se_endpoint_id e = Some e') by (apply (rf_endpoint _ _ Hs); by exists e').
  congruence.
Qed.

Lemma wanted_has t c es p e : e ∈ es -> served_here t c p e -> is_Some (wanted c (protocol_of t) es !! p).
Proof.
  intros Hin (Hp & Hproto & Hr). unfold wanted.
  enough (Hgen : forall l (w : gmap Z ServiceEndpoint), e ∈ l \/ is_Some (w !! p) -> is_Some (foldl (want c (protocol_of t)) w l !! p)) by auto.
  intros l. induction l as [|x l IH]; intros w Hw; [destruct Hw as [Hw|]; [by apply elem_of_nil in Hw | done] |]. cbn [foldl].
  apply IH. unfold want. destruct Hw as [[<-|Hw]%elem_of_cons|Hw]; [| by left |].
  - right. rewrite Hproto, String.eqb_refl, Hp, !(proj2 (Z.leb_le _ _)) by lia. cbn [andb]. rewrite lookup_insert_eq. by eexists.
  - right. destruct (_ && _); [| done]. by apply lookup_insert_is_Some'; right.
Qed.

Lemma wanted_public docs s t c at_ :
  reflects docs s -> forall p e,
  wanted c (protocol_of t) (endpoints_of t s at_) !! p = Some e <->
  public_endpoint docs t p at_ e /\ pc_PortMin c <= p <= pc_PortMax c.
Proof.
  intros Hs p e. split.
  - intros [Hin (Hp & _ & Hr)]%wanted_served. apply (endpoints_of_iff docs s t at_ e Hs) in Hin. by rewrite Hp in Hin.
  - intros [He Hr]. destruct He as (H1 & H2 & H3 & Hp & H5 & H6).
    assert (He : public_endpoint docs t p at_ e) by (by split_and!).
    destruct (wanted_has t c (endpoints_of t s at_) p e) as [e' He'].
    { apply (endpoints_of_iff docs s t at_ e Hs). by rewrite Hp. }
    { split; [exact Hp | split; [exact H6 | exact Hr]]. }
    rewrite He'. f_equal. apply wanted_served in He' as [Hin (Hp' & _ & _)].
    apply (endpoints_of_iff docs s t at_ e' Hs) in Hin. rewrite Hp' in Hin. by apply (public_endpoint_unique docs s t p at_).
Qed.

Lemma reconcile_err t c bind err m : manager_ok t c m -> mg_live (reconcile t c bind (Err err) m).2 = ∅.
Proof.
  intros H. pose proof (manager_closeAll_ok t c m H) as [_ He]. destruct t; cbn [reconcile]; [done |]. unfold reconcile_udp.
  destruct (mg_closed m) eqn:Ec; [| done]. cbn. apply set_eq. intros i. rewrite (mo_live _ _ _ H), (mo_closed _ _ _ H Ec).
  split; [| set_solver]. by intros (p & l & Hp & _).
Qed.

Lemma reconcile_open t c bind es m :
  mg_closed m = false -> (reconcile t c bind (Ok es) m).2 = reconcile_ports c (protocol_of t) bind es m.
Proof. intros H. destruct t; cbn [reconcile]; [unfold reconcile_tcp | unfold reconcile_udp]; by rewrite H. Qed.

(** C28: A public port listens only on authority. However a manager's reconciliations and its close interleave, the sockets that are open are exactly those of the registered listeners, one per port, each on its own endpoint's port, of the manager's protocol and inside the configured range. A reconciliation with a loaded snapshot leaves a listener on a port only for a published, enabled endpoint of an unrevoked owner, has one on every such port of the range that can be bound, keeps (the same socket, its flows alive) a listener whose endpoint has not changed, and closes every other; when the metadata is unavailable, and once closed, nothing listens. *)
Theorem public_ports_on_authority t c m docs s at_ bind :
  steps (manager_step t c) new_manager m -> add_records NewSnapshotMetadata docs = (Ok tt, s) ->
  manager_ok t c m /\ (mg_closed m = true -> mg_live m = ∅) /\
  (forall err, mg_live (reconcile t c bind (Err err) m).2 = ∅) /\
  (mg_closed m = false ->
    let m' := (reconcile t c bind (Ok (endpoints_of t s at_)) m).2 in
    (forall p l, mg_listeners m' !! p = Some l -> public_endpoint docs t p at_ (ln_endpoint l) /\ pc_PortMin c <= p <= pc_PortMax c) /\
    (forall p e, public_endpoint docs t p at_ e -> pc_PortMin c <= p <= pc_PortMax c -> bind p = true ->
       exists l, mg_listeners m' !! p = Some l /\ ln_endpoint l = e) /\
    (forall p l, mg_listeners m !! p = Some l ->
       (public_endpoint docs t p at_ (ln_endpoint l) -> mg_listeners m' !! p = Some l) /\
       (~ public_endpoint docs t p at_ (ln_endpoint l) -> ln_id l ∉ mg_live m'))).
Proof.
  intros Hm Hd. apply loaded_reflects in Hd.
  assert (Hok : manager_ok t c m).
  { revert Hm. apply steps_invariant; [apply new_manager_ok | intros a b; apply manager_step_ok]. }
  split; [exact Hok |]. split.
  { intros Hc. apply set_eq. intros i. rewrite (mo_live _ _ _ Hok), (mo_closed _ _ _ Hok Hc). split; [| set_solver].
    by intros (p & l & Hp & _). }
  split; [intros err; by apply reconcile_err |]. intros Hopen m'.
  assert (Hr : reconciled t c bind (wanted c (protocol_of t) (endpoints_of t s at_)) m m').
  { unfold m'. rewrite reconcile_open by done. by apply reconcile_ports_spec. }
  destruct Hr as [_ Honly Hall Hkept Hdrop]. pose proof (wanted_public docs s t c at_ Hd) as Hw. split_and!.
  - intros p l Hp. apply Hw, Honly, Hp.
  - intros p e He Hp Hb. assert (Hwe : wanted c (protocol_of t) (endpoints_of t s at_) !! p = Some e) by (apply Hw; split; assumption).
    destruct (Hall p e Hwe Hb) as [l Hl]. exists l. split; [exact Hl |]. apply Honly in Hl. congruence.
  - intros p l Hp. pose proof (mo_served _ _ _ Hok p l Hp) as (_ & _ & Hrange). split; intros He.
    + apply Hkept; [done |]. apply Hw. split; assumption.
    + apply (Hdrop p); [done |]. intros [Hc _]%Hw. exact (He Hc).
Qed.

(** ** Sources *)

(** A CIDR that does not parse allows nothing. *)
Definition sourceAllowed (ip : IP) (cidrs : list string) : bool :=
  existsb (fun raw => match ParseCIDR raw with Some network => Contains network ip | None => false end) cidrs.

(** ** A concrete port *)

Definition demo_public_endpoint : bytes :=
  demo_json ("{'kind':'service_endpoint','contract_version':2,'endpoint_id':'ep-tcp'," +:+
    "'owner_device_id':'dev-1','protocol':'tcp','local_endpoint_id':'local-1','public_port':20000," +:+
    "'allowed_source_cidrs':['10.0.0.0/8'],'exposure':'public','enabled':true," +:+
    "'created_at':'2026-01-01T00:00:00Z','revision':1}").

Definition demo_ports : PublicTCPConfig := MkPublicConfig "0.0.0.0" 20000 20100 Second.

Lemma public_ports_on_authority_witness :
  exists s l, add_records NewSnapshotMetadata [(CatServiceEndpoints, demo_public_endpoint)] = (Ok tt, s) /\
    (reconcile TCP demo_ports (fun _ => true) (Ok (endpoints_of TCP s 0)) new_manager).2.(mg_listeners) !! 20000 = Some l /\
    public_endpoint [(CatServiceEndpoints, demo_public_endpoint)] TCP 20000 0 (ln_endpoint l).
Proof.
  set (docs := [(CatServiceEndpoints, demo_public_endpoint)]).
  destruct (add_records NewSnapshotMetadata docs) as [[[]|er] s] eqn:E; [| vm_compute in E; discriminate].
  destruct (public_ports_on_authority TCP demo_ports new_manager docs s 0 (fun _ => true) (steps_refl _ _) E)
    as (_ & _ & _ & H). destruct (H eq_refl) as (Honly & _ & _).
  assert (Hl : exists l, mg_listeners (reconcile TCP demo_ports (fun _ => true) (Ok (endpoints_of TCP s 0)) new_manager).2 !! 20000 = Some l).
  { vm_compute in E. injection E as <-. eexists. vm_compute. reflexivity. }
  destruct Hl as [l Hl]. exists s, l. split; [reflexivity |]. split; [exact Hl |]. apply (Honly 20000 l Hl).
Defined.
