(* ===== verification/PublicUdp.v ===== *)
(** * PublicUdp: flows of a public UDP listener

    [read], the flow table and the response credit of
    [internal/gateway/public_udp.go].  A datagram opens a flow or joins one;
    what a flow sends back to a possibly forged source is bounded by a credit
    that its requests earn.  The two goroutines of a flow update the credit
    with compare-and-swap loops, which are modelled step by step. *)

From S2P Require Import Prelude GoText GoTime GoFloat GoNet Json Frame ContractV2 GwLimits Admission PublicPorts.

(** ** The flow table *)

Definition udpFlowQueue : nat := 16.

Record flow := MkFlow { fl_id : nat; fl_ip : IP; fl_packets : list bytes }.

(** A listener's flows and the shared counters its reader goroutine uses. *)
Record udp_reader := MkUdpReader {
  ud_flows : gmap string flow;
  ud_made : nat;
  ud_rejects : Z;                        (* ingressRejects *)
  ud_preAuth : KeyedTokenBuckets;
  ud_rate : TokenBucket;
}.

Definition count_udp_reject (d : udp_reader) : udp_reader :=
  MkUdpReader (ud_flows d) (ud_made d) (u64 (ud_rejects d + 1)) (ud_preAuth d) (ud_rate d).

Definition set_flow (d : udp_reader) (key : string) (f : flow) : udp_reader :=
  MkUdpReader (<[key := f]> (ud_flows d)) (ud_made d) (ud_rejects d) (ud_preAuth d) (ud_rate d).

(** The non-blocking send on the flow's channel. *)
Definition offer (d : udp_reader) (key : string) (f : flow) (packet : bytes) : udp_reader :=
  if Nat.ltb (length (fl_packets f)) udpFlowQueue
  then set_flow d key (MkFlow (fl_id f) (fl_ip f) (fl_packets f ++ [packet]))
  else count_udp_reject d.

(** A datagram [data] from [key] (the address [ip] and a port), as the
    1201-byte buffer received it. *)
Definition udp_receive (lim : Limits) (draining : bool) (endpoint : ServiceEndpoint) (d : udp_reader)
    (key : string) (ip : IP) (data : bytes) (now : instant) : udp_reader :=
  let packet := firstn (Z.to_nat (MaxUDPDatagram + 1)) data in
  if (MaxUDPDatagram <? zlen packet) || draining then d
  else if negb (sourceAllowed ip (se_allowed_source_cidrs endpoint)) then d
  else
    match ud_flows d !! key with
    | Some f => offer d key f packet
    | None =>
      if MaxIngressInFlight lim <=? Z.of_nat (size (ud_flows d)) then count_udp_reject d
      else
        let '(known, preAuth) := AllowKey (ud_preAuth d) ("public-udp:" +:+ IP_String ip) now in
        let d := MkUdpReader (ud_flows d) (ud_made d) (ud_rejects d) preAuth (ud_rate d) in
        if negb known then count_udp_reject d
        else
          let '(allowed, rate) := Allow (ud_rate d) now in
          let d := MkUdpReader (ud_flows d) (ud_made d) (ud_rejects d) (ud_preAuth d) rate in
          if negb allowed then count_udp_reject d
          else
            let f := MkFlow (ud_made d) ip [] in
            let d := MkUdpReader (<[key := f]> (ud_flows d)) (S (ud_made d)) (ud_rejects d) (ud_preAuth d) (ud_rate d) in
            offer d key f packet
    end.

(** [case packet := <-flow.packets] of the flow's goroutine. *)
Definition udp_take (d : udp_reader) (key : string) : option (bytes * udp_reader) :=
  match ud_flows d !! key with
  | Some (MkFlow id ip (packet :: rest)) => Some (packet, set_flow d key (MkFlow id ip rest))
  | _ => None
  end.

(** The end of the goroutine of flow [id]. *)
Definition udp_flow_end (d : udp_reader) (key : string) (id : nat) : udp_reader :=
  match ud_flows d !! key with
  | Some f => if Nat.eqb (fl_id f) id
              then MkUdpReader (delete key (ud_flows d)) (ud_made d) (ud_rejects d) (ud_preAuth d) (ud_rate d) else d
  | None => d
  end.

Definition new_udp_reader (preAuth : KeyedTokenBuckets) (rate : TokenBucket) (rejects : Z) : udp_reader :=
  MkUdpReader ∅ 0 rejects preAuth rate.

(** The counters are shared with the other listeners and the HTTP ingress,
    which may move them at any time. *)
Inductive udp_step (lim : Limits) (endpoint : ServiceEndpoint) : udp_reader -> udp_reader -> Prop :=
| ud_receive draining d key ip data now : udp_step lim endpoint d (udp_receive lim draining endpoint d key ip data now)
| ud_take d key packet d' : udp_take d key = Some (packet, d') -> udp_step lim endpoint d d'
| ud_end d key id : udp_step lim endpoint d (udp_flow_end d key id)
| ud_shared d rejects preAuth rate :
    udp_step lim endpoint d (MkUdpReader (ud_flows d) (ud_made d) rejects preAuth rate).

Definition flow_ok (endpoint : ServiceEndpoint) (f : flow) : Prop :=
  (length (fl_packets f) <= udpFlowQueue)%nat /\ Forall (fun p => zlen p <= MaxUDPDatagram) (fl_packets f) /\
  sourceAllowed (fl_ip f) (se_allowed_source_cidrs endpoint) = true.

Definition flows_ok (lim : Limits) (endpoint : ServiceEndpoint) (d : udp_reader) : Prop :=
  Z.of_nat (size (ud_flows d)) <= Z.max 0 (MaxIngressInFlight lim) /\
  map_Forall (fun _ f => flow_ok endpoint f) (ud_flows d).

Lemma set_flow_ok lim endpoint d key f :
  flows_ok lim endpoint d -> flow_ok endpoint f -> is_Some (ud_flows d !! key) -> flows_ok lim endpoint (set_flow d key f).
Proof.
  intros [Hs Hf] Hn Hk. split; cbn.
  - by rewrite map_size_insert_Some.
  - by apply map_Forall_insert_2.
Qed.

Lemma offer_ok lim endpoint d key f packet :
  flows_ok lim endpoint d -> ud_flows d !! key = Some f -> zlen packet <= MaxUDPDatagram ->
  flows_ok lim endpoint (offer d key f packet).
Proof.
  intros Hd Hk Hp. pose proof (proj2 Hd key f Hk) as (Hl & Hf & Ha). unfold offer. destruct (Nat.ltb _ _) eqn:E; [| done].
  apply Nat.ltb_lt in E. apply set_flow_ok; [done | | by eexists]. split; cbn; [rewrite length_app; cbn; lia |].
  split; [| done]. apply Forall_app. by split; [| constructor].
Qed.

Lemma udp_receive_ok lim draining endpoint d key ip data now :
  flows_ok lim endpoint d -> flows_ok lim endpoint (udp_receive lim draining endpoint d key ip data now).
Proof.
  intros Hd. unfold udp_receive. set (packet := firstn _ data). destruct ((_ <? _) || _) eqn:E; [done |]. bool_facts.
  destruct (negb _) eqn:Ea; [done |]. bool_facts.
  destruct (ud_flows d !! key) as [f|] eqn:Ek; [by apply offer_ok |]. destruct (_ <=? _) eqn:Es; [done |]. bool_facts.
  destruct (AllowKey _ _ _) as [known preAuth]. destruct known; [| done]. cbn [negb ud_rate].
  destruct (Allow _ _) as [allowed rate]. destruct allowed; [| done]. cbn [negb ud_flows ud_made ud_rejects ud_preAuth ud_rate].
  apply offer_ok; cbn; [| by rewrite lookup_insert_eq | done]. destruct Hd as [Hs Hf]. split; cbn.
  - rewrite map_size_insert_None by done. lia.
  - apply map_Forall_insert_2; [| done]. by split; [cbn; unfold udpFlowQueue; lia |].
Qed.

Lemma udp_step_ok lim endpoint d d' : flows_ok lim endpoint d -> udp_step lim endpoint d d' -> flows_ok lim endpoint d'.
Proof.
  intros Hd Hs. destruct Hs as [draining d key ip data now|d key packet d' Ht|d key id|d r p t].
  - by apply udp_receive_ok.
  - unfold udp_take in Ht. destruct (ud_flows d !! key) as [[id ip [|x rest]]|] eqn:Ek; try done. injection Ht as <- <-.
    pose proof (proj2 Hd key _ Ek) as (Hl & Hf & Ha). cbn in *. apply Forall_cons in Hf as [_ Hf].
    apply set_flow_ok; [done | | by eexists]. split; cbn; [lia | done].
  - unfold udp_flow_end. destruct (ud_flows d !! key) as [f|] eqn:Ek; [| done]. destruct (Nat.eqb _ _); [| done].
    destruct Hd as [Hs Hf]. split; cbn; [| by apply map_Forall_delete].
    rewrite map_size_delete_Some by done. lia.
  - done.
Qed.

(** A public UDP listener's memory is bounded whatever arrives from whomever: under any interleaving of datagrams, sends and flow ends it has at most MaxIngressInFlight flows, each queueing at most 16 packets of at most 1200 bytes, and each from a source its endpoint allows; a datagram that is too long, that comes from another source, or that comes while the Gateway drains changes nothing at all. *)
Theorem udp_flows_bounded lim endpoint preAuth rate rejects d :
  steps (udp_step lim endpoint) (new_udp_reader preAuth rate rejects) d ->
  Z.of_nat (size (ud_flows d)) <= Z.max 0 (MaxIngressInFlight lim) /\
  (forall key f, ud_flows d !! key = Some f ->
     (length (fl_packets f) <= 16)%nat /\ Forall (fun p => zlen p <= 1200) (fl_packets f) /\
     sourceAllowed (fl_ip f) (se_allowed_source_cidrs endpoint) = true) /\
  (forall draining key ip data now,
     1200 < zlen data \/ draining = true \/ sourceAllowed ip (se_allowed_source_cidrs endpoint) = false ->
     udp_receive lim draining endpoint d key ip data now = d).
Proof.
  intros Hd. assert (Hok : flows_ok lim endpoint d).
  { revert Hd. apply steps_invariant; [| intros a b; apply udp_step_ok].
    split; [cbn; rewrite map_size_empty; lia | apply map_Forall_empty]. }
  split; [apply Hok |]. split; [intros key f Hf; exact (proj2 Hok key f Hf) |].
  intros draining key ip data now H. unfold udp_receive. set (packet := firstn _ data).
  assert (Hp : 1200 < zlen data -> (MaxUDPDatagram <? zlen packet) = true).
  { intros Hl. apply Z.ltb_lt. unfold packet, zlen, MaxUDPDatagram in *. rewrite length_firstn. lia. }
  destruct H as [Hl|[-> |Ha]]; [by rewrite (Hp Hl) | by rewrite orb_true_r |]. rewrite Ha. by destruct (_ || _).
Qed.

(** ** The response credit *)

Definition maxUDPResponseCredit : Z := 2 ^ 20.

Definition earned (current size : Z) : Z := Z.min (i64 (current + i64 (3 * i64 size))) maxUDPResponseCredit.

(** The two updates, run without interference. *)
Definition addRequestCredit (credit size : Z) : Z := earned credit size.
Definition spendResponseCredit (credit size : Z) : bool * Z :=
  if credit <? size then (false, credit) else (true, i64 (credit - size)).

(** The sender after a datagram went into the tunnel, and the reader with a
    datagram from it: before the load, before the compare-and-swap, and, for
    the reader, before the write to the peer. *)
Inductive adder := AIdle | ALoad (size : Z) | ACas (size current : Z).
Inductive spender := SIdle | SLoad (size : Z) | SCas (size current : Z) | SWrite (size : Z).

Record credit_state := MkCredit {
  cr_credit : Z;
  cr_add : adder;
  cr_spend : spender;
  cr_requests : Z;             (* bytes that went into the tunnel *)
  cr_responses : Z;            (* bytes written to the peer *)
}.

Definition new_credit : credit_state := MkCredit MaxUDPDatagram AIdle SIdle 0 0.

(** A completed call: with the bytes it was for, and, for the reader, whether it was
    granted them. *)
Inductive credit_call := Added (n : Z) | Spent (n : Z) (granted : bool).

(** A step, and the call that takes effect with it, if any: at its successful swap, or
    at the load that refuses it. *)
Inductive credit_step : credit_state -> option credit_call -> credit_state -> Prop :=
| cr_sent c s q r n : 0 <= n <= MaxUDPDatagram -> credit_step (MkCredit c AIdle s q r) None (MkCredit c (ALoad n) s (q + n) r)
| cr_add_load c s q r n : credit_step (MkCredit c (ALoad n) s q r) None (MkCredit c (ACas n c) s q r)
| cr_add_swap c s q r n : credit_step (MkCredit c (ACas n c) s q r) (Some (Added n)) (MkCredit (earned c n) AIdle s q r)
| cr_add_again c s q r n c0 : c <> c0 -> credit_step (MkCredit c (ACas n c0) s q r) None (MkCredit c (ALoad n) s q r)
| cr_received c a q r n : 0 <= n <= MaxDataPayload -> credit_step (MkCredit c a SIdle q r) None (MkCredit c a (SLoad n) q r)
| cr_spend_short c a q r n : c < n -> credit_step (MkCredit c a (SLoad n) q r) (Some (Spent n false)) (MkCredit c a SIdle q r)
| cr_spend_load c a q r n : n <= c -> credit_step (MkCredit c a (SLoad n) q r) None (MkCredit c a (SCas n c) q r)
| cr_spend_swap c a q r n : credit_step (MkCredit c a (SCas n c) q r) (Some (Spent n true)) (MkCredit (i64 (c - n)) a (SWrite n) q r)
| cr_spend_again c a q r n c0 : c <> c0 -> credit_step (MkCredit c a (SCas n c0) q r) None (MkCredit c a (SLoad n) q r)
| cr_written c a q r n w : 0 <= w <= n -> credit_step (MkCredit c a (SWrite n) q r) None (MkCredit c a SIdle q (r + w)).

(** A run of the two goroutines and the calls it has completed, in order. *)
Inductive credit_run : list credit_call -> credit_state -> Prop :=
| cn_start : credit_run [] new_credit
| cn_step calls s out s' : credit_run calls s -> credit_step s out s' -> credit_run (calls ++ option_list out) s'.

(** The specification: the calls one after the other, each returning what it did. *)
Definition call_alone (credit : Z) (call : credit_call) : option Z :=
  match call with
  | Added n => Some (addRequestCredit credit n)
  | Spent n granted => let '(ok, credit') := spendResponseCredit credit n in if Bool.eqb ok granted then Some credit' else None
  end.

Definition replay (credit : Z) (calls : list credit_call) : option Z :=
  fold_left (fun c call => match c with Some c => call_alone c call | None => None end) calls (Some credit).

Definition added_bytes (calls : list credit_call) : Z := foldr (fun call n => match call with Added m => m + n | Spent _ _ => n end) 0 calls.
Definition granted_bytes (calls : list credit_call) : Z := foldr (fun call n => match call with Spent m true => m + n | _ => n end) 0 calls.

(** Bytes in flight between the counters. *)
Definition adding (a : adder) : Z := match a with AIdle => 0 | ALoad n | ACas n _ => n end.
Definition writing (s : spender) : Z := match s with SWrite n => n | _ => 0 end.

Record credit_ok (s : credit_state) : Prop := CreditOk {
  ck_range : 0 <= cr_credit s <= maxUDPResponseCredit;
  ck_adding : 0 <= adding (cr_add s) <= MaxUDPDatagram;
  ck_spending : match cr_spend s with
                | SIdle => True
                | SLoad n | SWrite n => 0 <= n <= MaxDataPayload
                | SCas n c => 0 <= n <= c /\ n <= MaxDataPayload
                end;
  ck_balance : cr_responses s + writing (cr_spend s) + cr_credit s + 3 * adding (cr_add s)
               <= MaxUDPDatagram + 3 * cr_requests s;
}.

Lemma earned_spec c n : 0 <= c <= maxUDPResponseCredit -> 0 <= n <= MaxUDPDatagram ->
  earned c n = Z.min (c + 3 * n) maxUDPResponseCredit.
Proof.
  unfold earned, maxUDPResponseCredit, MaxUDPDatagram. intros Hc Hn.
  rewrite (i64_id n), (i64_id (3 * n)), i64_id; [done | unfold is_i64; lia ..].
Qed.

(** The calls completed account for the counters and the credit. *)
Record calls_ok (calls : list credit_call) (s : credit_state) : Prop := CallsOk {
  ca_state : credit_ok s;
  ca_replay : replay MaxUDPDatagram calls = Some (cr_credit s);
  ca_added : added_bytes calls + adding (cr_add s) = cr_requests s;
  ca_granted : cr_responses s + writing (cr_spend s) <= granted_bytes calls;
}.

Lemma added_app xs ys : added_bytes (xs ++ ys) = added_bytes xs + added_bytes ys.
Proof. unfold added_bytes. induction xs as [|[n|n g] xs IH]; cbn [app foldr]; lia. Qed.

Lemma granted_app xs ys : granted_bytes (xs ++ ys) = granted_bytes xs + granted_bytes ys.
Proof. unfold granted_bytes. induction xs as [|[n|n []] xs IH]; cbn [app foldr]; lia. Qed.

Lemma replay_snoc credit calls call : replay credit (calls ++ [call]) = match replay credit calls with Some c => call_alone c call | None => None end.
Proof. unfold replay. by rewrite fold_left_app. Qed.

Lemma credit_step_ok calls s out s' : calls_ok calls s -> credit_step s out s' -> calls_ok (calls ++ option_list out) s'.
Proof.
  intros [[Hr Ha Hs Hb] Hp Hd Hg] Hstep.
  destruct Hstep; cbn in *; rewrite ?app_nil_r; (split; [split; cbn | rewrite ?replay_snoc, ?Hp | rewrite ?added_app | rewrite ?granted_app]); cbn in *;
    try done; try lia.
  - rewrite earned_spec by done. unfold maxUDPResponseCredit in *. lia.
  - rewrite earned_spec by done. lia.
  - unfold spendResponseCredit. by rewrite (proj2 (Z.ltb_lt _ _)) by lia.
  - rewrite i64_id; unfold is_i64, maxUDPResponseCredit in *; lia.
  - rewrite i64_id; unfold is_i64, maxUDPResponseCredit in *; lia.
  - unfold spendResponseCredit. by rewrite (proj2 (Z.ltb_ge _ _)) by lia.
Qed.

Lemma credit_run_ok calls s : credit_run calls s -> calls_ok calls s.
Proof.
  induction 1 as [|calls s out s' _ IH Hs]; [| by eapply credit_step_ok].
  split; [split; cbn; unfold maxUDPResponseCredit, MaxUDPDatagram; try done; lia | done | done | done].
Qed.

(** C29: A public UDP flow cannot be used to amplify traffic towards a forged source. Whatever the interleaving of its two goroutines, failed compare-and-swaps included, the bytes ever written to the peer never exceed one datagram (1200 bytes) plus three times the bytes the peer sent into the tunnel, and the credit stays within 0 and 1 MiB. The calls are linearizable: carried out one after the other in the order in which they took effect, from 1200, those that have completed return what they did return and leave exactly the credit there is; they have added every byte sent into the tunnel but those of a call under way, and only what they granted has been written. No arithmetic wraps: each call, run alone, is exactly the capped addition or the guarded subtraction. *)
Theorem udp_no_amplification calls s :
  credit_run calls s ->
  cr_responses s <= 1200 + 3 * cr_requests s /\ 0 <= cr_credit s <= 2 ^ 20 /\
  replay 1200 calls = Some (cr_credit s) /\ added_bytes calls + adding (cr_add s) = cr_requests s /\ cr_responses s <= granted_bytes calls /\
  (forall n, 0 <= n <= MaxUDPDatagram -> addRequestCredit (cr_credit s) n = Z.min (cr_credit s + 3 * n) (2 ^ 20)) /\
  (forall n, 0 <= n <= MaxDataPayload ->
     spendResponseCredit (cr_credit s) n =
       if decide (n <= cr_credit s) then (true, cr_credit s - n) else (false, cr_credit s)).
Proof.
  intros [[Hr Ha Hsp Hb] Hp Hd Hg]%credit_run_ok. assert (0 <= writing (cr_spend s)) by (destruct (cr_spend s); cbn in *; lia).
  split_and!; try apply Hr; try exact Hp; try exact Hd; try lia.
  - unfold MaxUDPDatagram in *. lia.
  - intros n Hn. by apply earned_spec.
  - intros n Hn. unfold spendResponseCredit, maxUDPResponseCredit in *. destruct (decide _) as [Hle|Hle].
    + rewrite (proj2 (Z.ltb_ge _ _)) by lia. rewrite i64_id; [done |]. unfold is_i64. lia.
    + by rewrite (proj2 (Z.ltb_lt _ _)) by lia.
Qed.

(** ** Concrete flows *)

Definition demo_udp_endpoint : ServiceEndpoint :=
  MkServiceEndpoint "service_endpoint" 2 "ep-udp" "dev-1" "udp" EmptyString "local-1" 20001 ["10.0.0.0/8"] "public" true
    "2026-01-01T00:00:00Z" 1.

Definition demo_source : IP := default [] (ParseIP "10.1.2.3").

Lemma udp_flows_bounded_witness :
  let lim := DefaultLimits in
  let d0 := new_udp_reader (NewKeyedTokenBuckets 10 10) (NewTokenBucket 10 10 0) 0 in
  let d := udp_receive lim false demo_udp_endpoint d0 "10.1.2.3:4000" demo_source [Byte.x01] 0 in
  size (ud_flows d) = 1%nat /\ Z.of_nat (size (ud_flows d)) <= Z.max 0 (MaxIngressInFlight lim).
Proof.
  intros lim d0 d. split; [vm_compute; reflexivity |].
  apply (udp_flows_bounded lim demo_udp_endpoint (NewKeyedTokenBuckets 10 10) (NewTokenBucket 10 10 0) 0 d).
  eapply steps_snoc; [apply steps_refl | apply ud_receive].
Defined.

Lemma udp_no_amplification_witness :
  exists s, credit_run [Added 10; Spent 1000 true] s /\ cr_requests s = 10 /\ cr_responses s = 1000 /\
    replay 1200 [Added 10; Spent 1000 true] = Some (cr_credit s) /\ cr_credit s = 230.
Proof.
  exists (MkCredit 230 AIdle SIdle 10 1000).
  assert (H : credit_run [Added 10; Spent 1000 true] (MkCredit 230 AIdle SIdle 10 1000)).
  { eapply (cn_step [Added 10; Spent 1000 true] _ None _); [| apply (cr_written 230 AIdle 10 0 1000 1000); lia].
    eapply (cn_step [Added 10] _ (Some (Spent 1000 true)) _); [| apply (cr_spend_swap 1230 AIdle 10 0 1000)].
    eapply (cn_step [Added 10] _ None _ ); [| apply (cr_spend_load 1230 AIdle 10 0 1000); lia].
    eapply (cn_step [] _ (Some (Added 10)) _); [| apply (cr_add_swap 1200 (SLoad 1000) 10 0 10)].
    eapply (cn_step [] _ None _); [| apply cr_add_load].
    eapply (cn_step [] _ None _); [| apply cr_received; unfold MaxDataPayload; lia].
    eapply (cn_step [] _ None _); [apply cn_start | apply (cr_sent 1200 SIdle 0 0 10); unfold MaxUDPDatagram; lia]. }
  split; [exact H |]. split; [reflexivity |]. split; [reflexivity |]. split; [| reflexivity]. apply (udp_no_amplification _ _ H).
Defined.
