(* ===== verification/ConnectorFlow.v ===== *)
(** * ConnectorFlow: both ends of a private flow

    [readConnector], [writeConnector] and their UDP counterparts of
    [internal/gateway/connector.go], against [copyToGateway],
    [copyFromGateway], [writeUDPToGateway] and [readUDPFromGateway] of
    [internal/connector]: the frames between a Connector and the Gateway, and
    that a flow carries the bytes of its local client unchanged. *)

From S2P Require Import Prelude GoText GoTime Json Frame Contract Control ControlCodec Window Budget GwLimits.
From S2P Require Import GwStream Wire SessTable GwSession GwServe.

Definition connectorDataFrame : Byte.byte := Byte.x00.
Definition connectorHalfCloseFrame : Byte.byte := Byte.x01.

(** ** Writing frames

    The loops of [copyToGateway] (over the local client) and [writeConnector]
    (over the stream) are the same: what each read gave, and the answer of the
    WebSocket to the frame made of it. *)

Record relay_read := MkRelayRead {
  rr_data : bytes;
  rr_err : option error;
  rr_write : option error;
}.

(** The frames on the WebSocket and, once the loop ended, its result; [half]
    is the WebSocket's answer to the half-close frame. *)
Fixpoint writeConnector (rounds : list relay_read) (half : option error) : list bytes * option (result unit) :=
  match rounds with
  | [] => ([], None)
  | r :: rest =>
    let '(frames, failed) :=
      match rr_data r with
      | [] => ([], None)
      | data => match rr_write r with Some e => ([], Some e) | None => ([connectorDataFrame :: data], None) end
      end in
    match failed with
    | Some e => (frames, Some (Err e))
    | None =>
      match rr_err r with
      | Some err =>
        if errors_is err io_EOF
        then match half with
             | Some e => (frames, Some (Err e))
             | None => (frames ++ [[connectorHalfCloseFrame]], Some (Ok tt))
             end
        else (frames, Some (Err err))
      | None => let '(more, res) := writeConnector rest half in (frames ++ more, res)
      end
    end
  end.

Definition copyToGateway (rounds : list relay_read) (half : option error) : list bytes * option (result unit) :=
  writeConnector rounds half.

(** ** Reading them *)

(** What a frame says. *)
Inductive connector_frame := CfData (data : bytes) | CfHalfClose.

(** The classification of [readConnector] and, with its own messages, of
    [copyFromGateway]. *)
Definition parse_connector_frame (invalid half unknown : string) (r : conn_read) : result connector_frame :=
  match r with
  | ReadErr _ err => Err err
  | ReadMsg binary payload =>
    match payload with
    | [] => Err (ErrMsg invalid)
    | kind :: data =>
      if negb binary then Err (ErrMsg invalid)
      else if Byte.eqb kind connectorDataFrame then Ok (CfData data)
      else if Byte.eqb kind connectorHalfCloseFrame then
        match data with [] => Ok CfHalfClose | _ => Err (ErrMsg half) end
      else Err (ErrMsg unknown)
    end
  end.

Definition gateway_frame : conn_read -> result connector_frame :=
  parse_connector_frame "invalid connector frame" "invalid connector half-close frame" "unknown connector frame".
Definition client_frame : conn_read -> result connector_frame :=
  parse_connector_frame "invalid gateway connector frame" "invalid gateway half-close frame" "unknown gateway connector frame".

(** One pass of [readConnector]: the other goroutines, then [conn.Read]. *)
Record ws_read := MkWsRead { ws_env : session -> session; ws_msg : conn_read }.

Fixpoint readConnector (net : nat -> answer) (id : Z) (rounds : list ws_read) (s : session)
  : option (result unit * session) :=
  match rounds with
  | [] => None
  | r :: rest =>
    let s0 := ws_env r s in
    match gateway_frame (ws_msg r) with
    | Err err => Some (Err err, s0)
    | Ok (CfData data) =>
      match gw_forward net s0 id data with
      | (Err err, s1) => Some (Err err, s1)
      | (Ok _, s1) => readConnector net id rest s1
      end
    | Ok CfHalfClose => Some (halfCloseStream net s0 id)
    end
  end.

(** One pass of [copyFromGateway]: [remote.Read], the write deadline and the
    answers of the local socket.  [closeWrite] is [None] for a socket that
    cannot half-close. *)
Record gateway_read := MkGatewayRead {
  gr_msg : conn_read;
  gr_deadline : option error;
  gr_writes : list (nat * option error);
}.

Definition writeAll (deadline : option error) (answers : list (nat * option error)) (payload : bytes)
  : bytes * option (result unit) :=
  match deadline with
  | Some err => ([], Some (Err err))
  | None => write_loop answers payload
  end.

Fixpoint copyFromGateway (rounds : list gateway_read) (closeWrite : option (option error)) : bytes * option (result unit) :=
  match rounds with
  | [] => ([], None)
  | r :: rest =>
    match client_frame (gr_msg r) with
    | Err err => ([], Some (Err err))
    | Ok (CfData data) =>
      let '(w, written) := writeAll (gr_deadline r) (gr_writes r) data in
      match written with
      | None => (w, None)
      | Some (Err err) => (w, Some (Err err))
      | Some (Ok _) => let '(w', res) := copyFromGateway rest closeWrite in (w ++ w', res)
      end
    | Ok CfHalfClose =>
      ([], Some match closeWrite with
                | None => Err (ErrMsg "local connector socket does not support half-close")
                | Some (Some err) => Err err
                | Some None => Ok tt
                end)
    end
  end.

(** ** UDP *)

Definition udp_frame (packet : bytes) : bytes := connectorDataFrame :: packet.

(** The check both readers make of a message. *)
Definition udp_packet (invalid : string) (r : conn_read) : result bytes :=
  match r with
  | ReadErr _ err => Err err
  | ReadMsg binary payload =>
    match payload with
    | [] => Err (ErrMsg invalid)
    | kind :: packet =>
      if negb binary || negb (Byte.eqb kind connectorDataFrame) || (MaxUDPDatagram <? zlen packet)
      then Err (ErrMsg invalid) else Ok packet
    end
  end.

Fixpoint readConnectorUDP (net : nat -> answer) (id : Z) (rounds : list ws_read) (s : session)
  : option (error * session) :=
  match rounds with
  | [] => None
  | r :: rest =>
    let s0 := ws_env r s in
    match udp_packet "invalid connector UDP datagram" (ws_msg r) with
    | Err err => Some (err, s0)
    | Ok packet =>
      match sendDatagram net s0 id packet with
      | (Err err, s1) => Some (err, s1)
      | (Ok _, s1) => readConnectorUDP net id rest s1
      end
    end
  end.

(** ** What a flow carries *)

(** The messages of a list of frames. *)
Definition as_messages (frames : list bytes) : list conn_read := ReadMsg true <$> frames.

Lemma gateway_data data : gateway_frame (ReadMsg true (connectorDataFrame :: data)) = Ok (CfData data).
Proof. done. Qed.

Lemma client_data data : client_frame (ReadMsg true (connectorDataFrame :: data)) = Ok (CfData data).
Proof. done. Qed.

(** A relay that ended well: its last read saw the end, and its frames are the
    chunks it read and the half-close. *)
Lemma writeConnector_Ok rounds half : forall frames,
  writeConnector rounds half = (frames, Some (Ok tt)) ->
  half = None /\ exists pre r post err chunks, rounds = pre ++ r :: post /\ rr_err r = Some err /\ errors_is err io_EOF = true /\
    frames = (cons connectorDataFrame <$> chunks) ++ [[connectorHalfCloseFrame]] /\
    concat chunks = concat (rr_data <$> pre ++ [r]).
Proof.
  induction rounds as [|r rest IH]; intros frames H; cbn [writeConnector] in H; [done |].
  destruct (match rr_data r with [] => _ | _ => _ end) as [fs failed] eqn:Ef.
  assert (Hf : failed = None -> exists chunks, fs = cons connectorDataFrame <$> chunks /\ concat chunks = rr_data r).
  { destruct (rr_data r) as [|b l]; [injection Ef as <- <-; by exists [] |].
    destruct (rr_write r); injection Ef as <- <-; [done |]. intros _. exists [b :: l]. cbn. by rewrite app_nil_r. }
  destruct failed as [e|]; [done |]. destruct (Hf eq_refl) as (chunks & -> & Hc). clear Hf Ef.
  destruct (rr_err r) as [err|] eqn:Ee.
  - destruct (errors_is err io_EOF) eqn:Eo; [| done]. destruct half as [e|]; [done |]. injection H as <-.
    split; [done |]. exists [], r, rest, err, chunks. cbn. by rewrite Hc, app_nil_r.
  - destruct (writeConnector rest half) as [more res] eqn:Em. injection H as <- ->.
    destruct (IH _ eq_refl) as (Hh & pre & x & post & err & cs & -> & E1 & E2 & -> & E4).
    split; [done |]. exists (r :: pre), x, post, err, (chunks ++ cs). split_and!; try done.
    + by rewrite fmap_app, <- (assoc (++)).
    + cbn. by rewrite concat_app, Hc, E4.
Qed.

(** The session after it has been sent these chunks, each behind what the other
    goroutines did before it. *)
Fixpoint forwarded (net : nat -> answer) (id : Z) (envs : list (session -> session)) (chunks : list bytes) (s : session) : option session :=
  match chunks, envs with
  | [], _ => Some s
  | c :: chunks, env :: envs =>
    match gw_forward net (env s) id c with
    | (Ok _, s1) => forwarded net id envs chunks s1
    | (Err _, _) => None
    end
  | _, [] => None
  end.

(** The session of this very run, after the first [k] chunks, refuses the next one,
    or the half-close after the last. *)
Definition session_refused (net : nat -> answer) (id : Z) (rounds : list ws_read) (chunks : list bytes) (s : session) (err : error) (s' : session) : Prop :=
  exists k r s0, rounds !! k = Some r /\ forwarded net id (ws_env <$> take k rounds) (take k chunks) s = Some s0 /\
    data_of id (wr_wire (ss_writer s0)) = data_of id (wr_wire (ss_writer s)) ++ concat (take k chunks) /\
    match chunks !! k with
    | Some c => gw_forward net (ws_env r s0) id c = (Err err, s')
    | None => k = length chunks /\ halfCloseStream net (ws_env r s0) id = (Err err, s')
    end.

Lemma readConnector_frames maxStreams limit start net id chunks : forall rounds s,
  session_ok maxStreams limit start s -> is_u32 id ->
  Forall (fun r => gw_elsewhere maxStreams limit start id (ws_env r)) rounds ->
  ws_msg <$> rounds = as_messages ((cons connectorDataFrame <$> chunks) ++ [[connectorHalfCloseFrame]]) ->
  exists r s', readConnector net id rounds s = Some (r, s') /\
    match r with
    | Ok _ => data_of id (wr_wire (ss_writer s')) = data_of id (wr_wire (ss_writer s)) ++ concat chunks /\
              exists s1, half_closed id s1 s'
    | Err err => session_refused net id rounds chunks s err s'
    end.
Proof.
  induction chunks as [|c chunks IH]; intros rounds s Hs Hi He Hm.
  - destruct rounds as [|r [|]]; try done. injection Hm as Hm. apply Forall_cons in He as [Hr _].
    destruct (Hr s Hs) as [H0 D0]. cbn [readConnector]. rewrite Hm. cbn [gateway_frame parse_connector_frame].
    change (gateway_frame _) with (Ok CfHalfClose : result connector_frame). cbv iota.
    destruct (halfCloseStream net (ws_env r s) id) as [[u|e] s1] eqn:E; eexists _, s1; (split; [reflexivity |]).
    + destruct (halfCloseStream_sent _ _ _ _ _ _ _ _ H0 Hi E) as [Hh Hd]. rewrite Hd, D0. cbn. rewrite app_nil_r. eauto.
    + exists 0%nat, r, s. split; [done |]. split; [done |]. split; [cbn; by rewrite app_nil_r |]. by split.
  - destruct rounds as [|r rest]; [done |]. injection Hm as Hm Hrest. apply Forall_cons in He as [Hr He].
    destruct (Hr s Hs) as [H0 D0]. cbn [readConnector]. rewrite Hm, gateway_data.
    destruct (gw_forward net (ws_env r s) id c) as [[u|e] s1] eqn:E.
    + destruct (gw_forward_data _ _ _ _ _ _ _ _ _ H0 Hi E) as [H1 D1]. specialize (D1 eq_refl).
      destruct (IH rest s1 H1 Hi He Hrest) as (x & s' & Hx & Hres). exists x, s'. split; [exact Hx |].
      destruct x as [x|err].
      * destruct Hres as [Hd Hh]. split; [| exact Hh]. rewrite Hd, D1, D0. cbn. by rewrite <- (assoc (++)).
      * destruct Hres as (k & rk & s2 & Hk & Hf & Hd & Hlast). exists (S k), rk, s2. split; [exact Hk |].
        split; [cbn [take fmap list_fmap forwarded]; by rewrite E |]. split; [cbn; by rewrite Hd, D1, D0, <- (assoc (++)) |].
        cbn [lookup list_lookup]. destruct (chunks !! k); [exact Hlast |]. destruct Hlast as [-> Hl]. by split.
    + eexists _, s1. split; [reflexivity |]. exists 0%nat, r, s. split; [done |]. split; [done |]. split; [cbn; by rewrite app_nil_r |]. exact E.
Qed.

Lemma write_loop_Ok : forall answers payload w u, write_loop answers payload = (w, Some (Ok u)) -> w = payload.
Proof.
  induction answers as [|[n [err|]] rest IH]; intros [|b payload] w u H; cbn [write_loop] in H; try done; try by injection H as <- _.
  destruct (write_loop rest (skipn n (b :: payload))) as [w' r'] eqn:E. injection H as <- ->.
  rewrite (IH _ _ _ E). apply firstn_skipn.
Qed.

Lemma copyFromGateway_frames closeWrite chunks : forall rounds w res,
  gr_msg <$> rounds = as_messages ((cons connectorDataFrame <$> chunks) ++ [[connectorHalfCloseFrame]]) ->
  copyFromGateway rounds closeWrite = (w, Some (Ok res)) -> w = concat chunks /\ closeWrite = Some None.
Proof.
  induction chunks as [|c chunks IH]; intros rounds w res Hm H.
  - destruct rounds as [|r [|]]; try done. injection Hm as Hm. cbn [copyFromGateway] in H. rewrite Hm in H.
    change (client_frame _) with (Ok CfHalfClose : result connector_frame) in H. cbv iota in H.
    injection H as <- H. destruct closeWrite as [[e|]|]; done.
  - destruct rounds as [|r rest]; [done |]. injection Hm as Hm Hrest. cbn [copyFromGateway] in H. rewrite Hm, client_data in H.
    destruct (writeAll _ _ _) as [w1 o] eqn:E. destruct o as [[u|e]|]; try done.
    destruct (copyFromGateway rest closeWrite) as [w2 r2] eqn:E2. injection H as <- ->.
    destruct (IH rest w2 res Hrest E2) as [-> ->]. split; [| done]. cbn. f_equal.
    unfold writeAll in E. destruct (gr_deadline r); [done |]. by apply write_loop_Ok in E.
Qed.

(** C31: A private flow carries its bytes unchanged, end to end, in both directions. Toward the Gateway: when the Connector's copyToGateway returned without an error and readConnector reads the frames it wrote, readConnector ends, and when it ends well every byte the local client sent, up to its end of stream, is on the tunnel as data of the stream, in order, whatever the other goroutines did meanwhile, followed by a half-close. It never ends on a framing error: an error is the answer of this session, at the point where exactly the first k chunks have been forwarded to it, to the next chunk or to the half-close after the last. Toward the client: when the Gateway's writeConnector returned without an error and copyFromGateway reads those frames and ends well, the local client received exactly what the stream delivered, whatever its socket's partial writes, and its write side was closed. On UDP a packet of at most 1200 bytes passes both readers as it was written and a longer one neither. *)
Theorem connector_flow_whole maxStreams limit start net id s local half frames rounds :
  session_ok maxStreams limit start s -> is_u32 id ->
  copyToGateway local half = (frames, Some (Ok tt)) ->
  Forall (fun r => gw_elsewhere maxStreams limit start id (ws_env r)) rounds -> ws_msg <$> rounds = as_messages frames ->
  (exists r s' pre last post err chunks, readConnector net id rounds s = Some (r, s') /\
    local = pre ++ last :: post /\ rr_err last = Some err /\ errors_is err io_EOF = true /\
    frames = (cons connectorDataFrame <$> chunks) ++ [[connectorHalfCloseFrame]] /\ concat chunks = concat (rr_data <$> pre ++ [last]) /\
    match r with
    | Ok _ => data_of id (wr_wire (ss_writer s')) = data_of id (wr_wire (ss_writer s)) ++ concat chunks /\
              exists s1, half_closed id s1 s'
    | Err e => exists k r s0, rounds !! k = Some r /\ forwarded net id (ws_env <$> take k rounds) (take k chunks) s = Some s0 /\
        data_of id (wr_wire (ss_writer s0)) = data_of id (wr_wire (ss_writer s)) ++ concat (take k chunks) /\
        match chunks !! k with
        | Some c => gw_forward net (ws_env r s0) id c = (Err e, s')
        | None => k = length chunks /\ halfCloseStream net (ws_env r s0) id = (Err e, s')
        end
    end) /\
  (forall delivered half' frames' reads closeWrite w u,
    writeConnector delivered half' = (frames', Some (Ok tt)) -> gr_msg <$> reads = as_messages frames' ->
    copyFromGateway reads closeWrite = (w, Some (Ok u)) ->
    closeWrite = Some None /\ exists pre last post, delivered = pre ++ last :: post /\ w = concat (rr_data <$> pre ++ [last])) /\
  (forall invalid packet, udp_packet invalid (ReadMsg true (udp_frame packet)) =
     if decide (zlen packet <= 1200) then Ok packet else Err (ErrMsg invalid)).
Proof.
  intros Hs Hi Hup He Hm. split; [| split].
  - apply writeConnector_Ok in Hup as (_ & pre & r & post & err & chunks & Hl & E1 & E2 & -> & Hc).
    destruct (readConnector_frames _ _ _ net id chunks rounds s Hs Hi He Hm) as (x & s' & Hx & Hres).
    exists x, s', pre, r, post, err, chunks. do 6 (split; [done |]). exact Hres.
  - intros delivered half' frames' reads closeWrite w u Hw Hg Hc.
    apply writeConnector_Ok in Hw as (_ & pre & r & post & err & chunks & Hl & _ & _ & -> & Hcat).
    destruct (copyFromGateway_frames _ _ _ _ _ Hg Hc) as [-> ->]. split; [done |]. by exists pre, r, post.
  - intros invalid packet. unfold udp_frame, udp_packet. rewrite byte_eqb_refl. cbn [negb orb]. unfold MaxUDPDatagram.
    destruct (decide _) as [H|H]; [by rewrite (proj2 (Z.ltb_ge _ _)) by lia | by rewrite (proj2 (Z.ltb_lt _ _)) by lia].
Qed.

Definition demo_local : list relay_read := [MkRelayRead demo_a None None; MkRelayRead demo_b (Some io_EOF) None].

Lemma connector_flow_whole_witness :
  exists frames r s', copyToGateway demo_local None = (frames, Some (Ok tt)) /\
    readConnector demo_net 1 ((fun m => MkWsRead (fun s => s) m) <$> as_messages frames) demo_open = Some (r, s') /\
    (is_ok r = true -> data_of 1 (wr_wire (ss_writer s')) = data_of 1 (wr_wire (ss_writer demo_open)) ++ demo_a ++ demo_b).
Proof.
  destruct (copyToGateway demo_local None) as [frames o] eqn:E.
  assert (o = Some (Ok tt)) as -> by (apply (f_equal snd) in E; vm_compute in E; exact (eq_sym E)).
  set (rounds := (fun m => MkWsRead (fun s => s) m) <$> as_messages frames).
  assert (Hm : ws_msg <$> rounds = as_messages frames) by (unfold rounds; rewrite <- list_fmap_compose; apply list_fmap_id).
  assert (He : Forall (fun r => gw_elsewhere 64 (2 ^ 23) 2 1 (ws_env r)) rounds).
  { apply Forall_forall. intros r Hr. unfold rounds in Hr. apply list_elem_of_fmap in Hr as (m & -> & _). apply elsewhere_idle. }
  destruct (connector_flow_whole 64 (2 ^ 23) 2 demo_net 1 demo_open demo_local None frames rounds demo_open_ok
    ltac:(unfold is_u32; lia) E He Hm) as [(r & s' & pre & last & post & err & chunks & H1 & H2 & H3 & _ & _ & Hcc & H4) _].
  exists frames, r, s'. split; [reflexivity |]. split; [exact H1 |]. destruct r; [intros _ | discriminate].
  destruct H4 as [Hd _]. rewrite Hd, Hcc. do 2 f_equal.
  destruct pre as [|p [|q pre]]; [injection H2 as <- _; discriminate H3 | injection H2 as <- <- _; reflexivity |].
  exfalso. apply (f_equal length) in H2. unfold demo_local in H2. cbn [length app] in H2. rewrite length_app in H2. cbn [length] in H2. lia.
Defined.
