(* ===== verification/AgentLimits.v ===== *)
(** * AgentLimits: the Agent's limits and the settings file that retunes them

    [Limits], [DefaultLimits] and [valid] of [internal/agent/runtime.go], the
    [limits] block of the settings file with its parsers and [ApplyLimits] of
    [internal/agent/config_limits.go]. *)

From S2P Require Import Prelude GoText GoTime GoDuration.

Record Limits := MkLimits {
  MaxStreams : Z;
  MaxQueueFrames : Z;
  MaxStreamQueueBytes : Z;
  MaxSessionQueueBytes : Z;
  DialTimeout : Z;
  HandshakeTimeout : Z;
  WriteTimeout : Z;
  IdleTimeout : Z;
  ReconnectMin : Z;
  ReconnectMax : Z;
  MaxTunnels : Z;
}.

Definition DefaultLimits : Limits :=
  MkLimits 64 16 (2 * 2 ^ 20) (8 * 2 ^ 20) (5 * Second) (10 * Second) (10 * Second) (60 * Second)
    Second (30 * Second) 2.

Definition valid (l : Limits) : bool :=
  (0 <? MaxStreams l) && (0 <? MaxQueueFrames l) &&
  (0 <? MaxStreamQueueBytes l) && (MaxStreamQueueBytes l <=? MaxSessionQueueBytes l) && (0 <? DialTimeout l) &&
  (0 <? HandshakeTimeout l) && (0 <? WriteTimeout l) && (0 <? IdleTimeout l) &&
  (0 <? ReconnectMin l) && (ReconnectMin l <=? ReconnectMax l) && (0 <? MaxTunnels l).

Record LimitsConfig := MkLimitsConfig {
  lc_MaxStreams : Z;
  lc_MaxQueueFrames : Z;
  lc_MaxTunnels : Z;
  lc_StreamQueueBytes : string;
  lc_SessionQueueBytes : string;
  lc_DialTimeout : string;
  lc_HandshakeTimeout : string;
  lc_WriteTimeout : string;
  lc_IdleTimeout : string;
  lc_ReconnectMin : string;
  lc_ReconnectMax : string;
  lc_RetryDelay : string;
}.

Definition maxConfigStreams : Z := 256.
Definition maxConfigQueueFrames : Z := 256.
Definition maxConfigTunnels : Z := 8.
Definition maxConfigQueueBytes : Z := Z.shiftl 256 20.
Definition minConfigTimeout : Z := Second.
Definition maxConfigTimeout : Z := 15 * Minute.
Definition maxConfigReconnectSpan : Z := Hour.

(** ** The values of the block *)

Definition byte_suffixes : list (bytes * Z) :=
  [(bytes_of "GIB", 2 ^ 30); (bytes_of "MIB", 2 ^ 20); (bytes_of "KIB", 2 ^ 10)].

(** The first suffix that matches: the number before it and its multiplier. *)
Definition split_suffix (value : bytes) : bytes * Z :=
  match find (fun e => match cut_suffix e.1 value with Some _ => true | None => false end) byte_suffixes with
  | Some (suffix, multiplier) =>
    match cut_suffix suffix value with
    | Some number => (TrimSpace number, multiplier)
    | None => (value, 1)
    end
  | None => (value, 1)
  end.

Definition parseByteSize (raw : string) : result Z :=
  let '(value, multiplier) := split_suffix (ToUpper (TrimSpace (bytes_of raw))) in
  reject_if (bool_decide (value = [])) (ErrMsg "empty byte size") ;?
  match parse_int64 value with
  | None => Err (ErrMsg "byte size must be a number of bytes or carry a KiB/MiB/GiB suffix")
  | Some size =>
    reject_if (size <? 1) (ErrMsg "byte size must be at least 1") ;?
    reject_if ((1 <? multiplier) && (Z.quot MaxInt64 multiplier <? size)) (ErrMsg "byte size overflows") ;?
    Ok (i64 (size * multiplier))
  end.

Definition formatByteSize (size : Z) : string :=
  let unit (suffix : string) (multiplier : Z) :=
    string_of (show_int (Z.quot size multiplier) ++ bytes_of suffix) in
  if (2 ^ 30 <=? size) && (Z.rem size (2 ^ 30) =? 0) then unit "GiB" (2 ^ 30)
  else if (2 ^ 20 <=? size) && (Z.rem size (2 ^ 20) =? 0) then unit "MiB" (2 ^ 20)
  else if (2 ^ 10 <=? size) && (Z.rem size (2 ^ 10) =? 0) then unit "KiB" (2 ^ 10)
  else string_of (show_int size ++ bytes_of " bytes").

Definition blank (raw : string) : bool := bool_decide (TrimSpace (bytes_of raw) = []).

Definition parseConfigDuration (name raw : string) (ceiling : Z) : result Z :=
  match ParseDuration (TrimSpace (bytes_of raw)) with
  | None => Err (ErrWrap ("limits." +:+ name) (ErrMsg "time: invalid duration"))
  | Some duration =>
    reject_if ((duration <? minConfigTimeout) || (ceiling <? duration))
      (ErrMsg ("limits." +:+ name +:+ " must be between its bounds")) ;?
    Ok duration
  end.

(** One row of the three tables of [ApplyLimits]: the field after it. *)
Definition apply_counter (name : string) (value ceiling old : Z) : result Z :=
  if value =? 0 then Ok old
  else
    reject_if ((value <? 1) || (ceiling <? value)) (ErrMsg ("limits." +:+ name +:+ " must be between 1 and its ceiling")) ;?
    Ok value.

Definition apply_size (name value : string) (old : Z) : result Z :=
  if blank value then Ok old
  else
    match parseByteSize value with
    | Err err => Err (ErrWrap ("limits." +:+ name) err)
    | Ok size => reject_if (maxConfigQueueBytes <? size) (ErrMsg ("limits." +:+ name +:+ " must not exceed 256MiB")) ;? Ok size
    end.

Definition apply_duration (name value : string) (ceiling old : Z) : result Z :=
  if blank value then Ok old else parseConfigDuration name value ceiling.

Definition describeLimitsProblem (l : Limits) : string :=
  if (MaxStreams l <? 1) || (MaxQueueFrames l <? 1) || (MaxTunnels l <? 1)
  then "stream, frame and tunnel counts must all be at least 1"
  else if MaxSessionQueueBytes l <? MaxStreamQueueBytes l
  then "session_queue_bytes must be at least stream_queue_bytes"
  else if (DialTimeout l <? minConfigTimeout) || (HandshakeTimeout l <? minConfigTimeout) ||
          (WriteTimeout l <? minConfigTimeout) || (IdleTimeout l <? minConfigTimeout)
  then "every timeout must be at least 1s"
  else if ReconnectMax l <? ReconnectMin l then "reconnect_max must be at least reconnect_min"
  else "the result must satisfy every Agent limit invariant".

Definition ApplyLimits (config : option LimitsConfig) (base : Limits) : result Limits :=
  match config with
  | None => Ok base
  | Some c =>
    let? streams := apply_counter "max_streams" (lc_MaxStreams c) maxConfigStreams (MaxStreams base) in
    let? frames := apply_counter "max_queue_frames" (lc_MaxQueueFrames c) maxConfigQueueFrames (MaxQueueFrames base) in
    let? tunnels := apply_counter "max_tunnels" (lc_MaxTunnels c) maxConfigTunnels (MaxTunnels base) in
    let? streamBytes := apply_size "stream_queue_bytes" (lc_StreamQueueBytes c) (MaxStreamQueueBytes base) in
    let? sessionBytes := apply_size "session_queue_bytes" (lc_SessionQueueBytes c) (MaxSessionQueueBytes base) in
    let? dial := apply_duration "dial_timeout" (lc_DialTimeout c) maxConfigTimeout (DialTimeout base) in
    let? handshake := apply_duration "handshake_timeout" (lc_HandshakeTimeout c) maxConfigTimeout (HandshakeTimeout base) in
    let? write := apply_duration "write_timeout" (lc_WriteTimeout c) maxConfigTimeout (WriteTimeout base) in
    let? idle := apply_duration "idle_timeout" (lc_IdleTimeout c) maxConfigTimeout (IdleTimeout base) in
    let? rmin := apply_duration "reconnect_min" (lc_ReconnectMin c) maxConfigReconnectSpan (ReconnectMin base) in
    let? rmax := apply_duration "reconnect_max" (lc_ReconnectMax c) maxConfigReconnectSpan (ReconnectMax base) in
    let limits := MkLimits streams frames streamBytes sessionBytes dial handshake write idle rmin rmax tunnels in
    reject_if (negb (valid limits))
      (ErrMsg ("limits in the settings file are internally inconsistent: " +:+ describeLimitsProblem limits)) ;?
    Ok limits
  end.

Definition SupervisorRetryDelay (config : option LimitsConfig) (base : Z) : result Z :=
  match config with
  | None => Ok base
  | Some c =>
    if blank (lc_RetryDelay c) then Ok base
    else parseConfigDuration "retry_delay" (lc_RetryDelay c) maxConfigReconnectSpan
  end.

(** ** What a settings file can make of the limits *)

(** A numeric field as the operator left it. *)
Definition kept_or {A} (absent : Prop) (old : A) (chosen : A -> Prop) (new : A) : Prop :=
  (absent /\ new = old) \/ (~ absent /\ chosen new).

Lemma apply_counter_iff name value ceiling old new :
  apply_counter name value ceiling old = Ok new <->
  kept_or (value = 0) old (fun n => n = value /\ 1 <= n <= ceiling) new.
Proof.
  unfold apply_counter, kept_or. destruct (value =? 0) eqn:E; bool_facts.
  - split; [intros [= <-]; tauto | intros [[_ ->]|[? _]]; [done | lia]].
  - destruct (_ || _) eqn:E2; simpl; bool_facts; split; try done.
    + intros [[? _]|[_ [-> ?]]]; lia.
    + intros [= <-]. right. lia.
    + intros [[? _]|[_ [-> ?]]]; [lia | done].
Qed.

Lemma apply_size_iff name value old new :
  apply_size name value old = Ok new <->
  kept_or (blank value = true) old (fun n => parseByteSize value = Ok n /\ n <= maxConfigQueueBytes) new.
Proof.
  unfold apply_size, kept_or. destruct (blank value).
  - split; [intros [= <-]; tauto | intros [[_ ->]|[? _]]; done].
  - destruct (parseByteSize value) as [n|e]; [| naive_solver]. split.
    + intros H. inv_ok. bool_facts. right. naive_solver.
    + intros [[? _]|[_ [[= ->] Hn]]]; [done |]. unfold reject_if. rewrite (proj2 (Z.ltb_ge _ _)) by lia. done.
Qed.

Lemma apply_duration_iff name value ceiling old new :
  apply_duration name value ceiling old = Ok new <->
  kept_or (blank value = true) old
    (fun n => ParseDuration (TrimSpace (bytes_of value)) = Some n /\ minConfigTimeout <= n <= ceiling) new.
Proof.
  unfold apply_duration, kept_or, parseConfigDuration. destruct (blank value).
  - split; [intros [= <-]; tauto | intros [[_ ->]|[? _]]; done].
  - destruct (ParseDuration _) as [n|]; [| naive_solver]. split.
    + intros H. inv_ok. bool_facts. right. naive_solver lia.
    + intros [[? _]|[_ [[= ->] Hn]]]; [done |]. unfold reject_if.
      by rewrite !(proj2 (Z.ltb_ge _ _)) by lia.
Qed.

Lemma parse_int64_le bs n : parse_int64 bs = Some n -> n <= MaxInt64.
Proof.
  unfold parse_int64, MaxInt64. destruct bs as [|b r]; [done |].
  destruct (parse_digits _) as [v|] eqn:E; [| done]. assert (0 <= v).
  { unfold parse_digits in E. case_match; [done |]. eapply digits_val_nonneg in E; [done | lia]. }
  repeat case_match; intros [= <-]; bool_facts; lia.
Qed.

Lemma parseByteSize_range raw n : parseByteSize raw = Ok n -> 1 <= n <= MaxInt64.
Proof.
  unfold parseByteSize. destruct (split_suffix _) as [value multiplier] eqn:Es. intros H.
  assert (Hm : multiplier = 1 \/ 1 < multiplier /\ multiplier <= 2 ^ 30).
  { revert Es. unfold split_suffix. destruct (find _ _) as [[suffix m]|] eqn:Ef; [| intros [= _ <-]; lia].
    apply find_some in Ef as [Hin _]. destruct (cut_suffix _ _); intros [= _ <-]; [| lia].
    repeat destruct Hin as [[= <- <-]|Hin]; try done; lia. }
  inv_ok. destruct (parse_int64 value) as [size|] eqn:Ep; [| done]. inv_ok. bool_facts.
  apply parse_int64_le in Ep.
  assert (Hr : 1 <= size * multiplier <= MaxInt64).
  { destruct Hm as [-> | [Hm1 Hm2]]; [lia |]. match goal with X : _ \/ _ |- _ => destruct X as [X|X]; bool_facts; [lia | rename X into Eq] end.
    unfold MaxInt64 in *. rewrite Z.quot_div_nonneg in Eq by lia.
    pose proof (Z.mul_div_le (2 ^ 63 - 1) multiplier ltac:(lia)). nia. }
  rewrite i64_id; [done |]. unfold is_i64, MaxInt64 in *. lia.
Qed.

(** The row of the tables each field of the result obeys. *)
Record applied (c : LimitsConfig) (base l : Limits) : Prop := Applied {
  ap_streams : kept_or (lc_MaxStreams c = 0) (MaxStreams base)
    (fun n => n = lc_MaxStreams c /\ 1 <= n <= 256) (MaxStreams l);
  ap_frames : kept_or (lc_MaxQueueFrames c = 0) (MaxQueueFrames base)
    (fun n => n = lc_MaxQueueFrames c /\ 1 <= n <= 256) (MaxQueueFrames l);
  ap_tunnels : kept_or (lc_MaxTunnels c = 0) (MaxTunnels base)
    (fun n => n = lc_MaxTunnels c /\ 1 <= n <= 8) (MaxTunnels l);
  ap_streamBytes : kept_or (blank (lc_StreamQueueBytes c) = true) (MaxStreamQueueBytes base)
    (fun n => parseByteSize (lc_StreamQueueBytes c) = Ok n /\ n <= 256 * 2 ^ 20) (MaxStreamQueueBytes l);
  ap_sessionBytes : kept_or (blank (lc_SessionQueueBytes c) = true) (MaxSessionQueueBytes base)
    (fun n => parseByteSize (lc_SessionQueueBytes c) = Ok n /\ n <= 256 * 2 ^ 20) (MaxSessionQueueBytes l);
  ap_times : Forall (fun r : string * Z * Z * Z =>
      let '(value, ceiling, old, new) := r in
      kept_or (blank value = true) old
        (fun n => ParseDuration (TrimSpace (bytes_of value)) = Some n /\ Second <= n <= ceiling) new)
    [(lc_DialTimeout c, 15 * Minute, DialTimeout base, DialTimeout l);
     (lc_HandshakeTimeout c, 15 * Minute, HandshakeTimeout base, HandshakeTimeout l);
     (lc_WriteTimeout c, 15 * Minute, WriteTimeout base, WriteTimeout l);
     (lc_IdleTimeout c, 15 * Minute, IdleTimeout base, IdleTimeout l);
     (lc_ReconnectMin c, Hour, ReconnectMin base, ReconnectMin l);
     (lc_ReconnectMax c, Hour, ReconnectMax base, ReconnectMax l)];
  ap_valid : valid l = true;
}.

(** The limits a settings file can lead to. *)
Record in_bounds (l : Limits) : Prop := InBounds {
  bd_streams : 1 <= MaxStreams l <= 256;
  bd_frames : 1 <= MaxQueueFrames l <= 256;
  bd_tunnels : 1 <= MaxTunnels l <= 8;
  bd_bytes : 1 <= MaxStreamQueueBytes l <= MaxSessionQueueBytes l /\ MaxSessionQueueBytes l <= 256 * 2 ^ 20;
  bd_timeouts : Forall (fun t => Second <= t <= 15 * Minute)
    [DialTimeout l; HandshakeTimeout l; WriteTimeout l; IdleTimeout l];
  bd_reconnect : Second <= ReconnectMin l <= ReconnectMax l /\ ReconnectMax l <= Hour;
}.

Lemma kept_in lo hi absent old chosen new :
  kept_or absent old chosen new -> lo <= old <= hi -> (forall n, chosen n -> lo <= n <= hi) -> lo <= new <= hi.
Proof. intros [[_ ->]|[_ Hc]] Ho Hn; [done | by apply Hn]. Qed.

Lemma applied_bounds c base l : in_bounds base -> applied c base l -> in_bounds l.
Proof.
  intros [B1 B2 B3 B4 B5 B6] [A1 A2 A3 A4 A5 A6 Hv]. unfold valid in Hv. bool_facts.
  rewrite !Forall_cons in B5. rewrite !Forall_cons in A6.
  destruct B5 as (D1 & D2 & D3 & D4 & _), A6 as (T1 & T2 & T3 & T4 & T5 & T6 & _).
  assert (Hr : Second <= ReconnectMin l <= Hour /\ Second <= ReconnectMax l <= Hour).
  { split; (eapply kept_in; [eassumption | lia | naive_solver lia]). }
  split.
  - eapply kept_in; [exact A1 | done | naive_solver lia].
  - eapply kept_in; [exact A2 | done | naive_solver lia].
  - eapply kept_in; [exact A3 | done | naive_solver lia].
  - assert (1 <= MaxSessionQueueBytes l <= 256 * 2 ^ 20); [| lia].
    eapply kept_in; [exact A5 | lia |]. intros n [Hn ?]. apply parseByteSize_range in Hn. lia.
  - do 4 (constructor; [eapply kept_in; [eassumption | done | naive_solver lia] |]). constructor.
  - lia.
Qed.

(** The settings file retunes the Agent exactly as it reads: [ApplyLimits] succeeds if and only if every field of the limits block is absent or parses inside its own bounds and the combination satisfies every invariant of the limits; each field of the result is then the parsed value or, where absent, the base's.  Starting from bounded limits the result is bounded: counts, buffers of at most 256 MiB with a session queue no smaller than a stream's, timeouts between a second and fifteen minutes, and reconnect delays between a second and an hour with the maximum no smaller than the minimum. *)
Theorem settings_limits c base l :
  (ApplyLimits (Some c) base = Ok l <-> applied c base l) /\
  (in_bounds base -> ApplyLimits (Some c) base = Ok l -> in_bounds l) /\ in_bounds DefaultLimits.
Proof.
  assert (Hiff : ApplyLimits (Some c) base = Ok l <-> applied c base l).
  { unfold ApplyLimits. split.
    - intros H. inv_ok. repeat match goal with
        | X : apply_counter _ _ _ _ = Ok _ |- _ => apply apply_counter_iff in X
        | X : apply_size _ _ _ = Ok _ |- _ => apply apply_size_iff in X
        | X : apply_duration _ _ _ _ = Ok _ |- _ => apply apply_duration_iff in X
        end. bool_facts. split; try done. repeat (constructor; [done |]). constructor.
    - intros [A1 A2 A3 A4 A5 A6 Hv]. rewrite !Forall_cons in A6. destruct A6 as (T1 & T2 & T3 & T4 & T5 & T6 & _).
      do 3 (apply rbind_Ok; eexists; split; [by apply apply_counter_iff |]).
      do 2 (apply rbind_Ok; eexists; split; [by apply apply_size_iff |]).
      do 6 (apply rbind_Ok; eexists; split; [by apply apply_duration_iff |]).
      destruct l. cbn [MaxStreams MaxQueueFrames MaxStreamQueueBytes MaxSessionQueueBytes DialTimeout
        HandshakeTimeout WriteTimeout IdleTimeout ReconnectMin ReconnectMax MaxTunnels]. by rewrite Hv. }
  split; [exact Hiff | split].
  - intros Hb H. apply Hiff in H. by eapply applied_bounds.
  - split; cbn [MaxStreams]; try (cbn; unfold Hour, Minute, Second; lia).
    repeat (constructor; [cbn; unfold Minute, Second; lia |]). constructor.
Qed.

(** An operator's file: fewer streams, smaller buffers, a slower retry. *)
Definition demo_limits : LimitsConfig :=
  MkLimitsConfig 8 0 0 "512 KiB" "1mib" EmptyString EmptyString "3s" EmptyString EmptyString "1m30s" "5s".

Definition demo_applied : Limits :=
  MkLimits 8 16 (2 ^ 19) (2 ^ 20) (5 * Second) (10 * Second) (3 * Second) (60 * Second) Second (90 * Second) 2.

Lemma settings_limits_witness : applied demo_limits DefaultLimits demo_applied /\ in_bounds demo_applied.
Proof.
  destruct (settings_limits demo_limits DefaultLimits demo_applied) as (Hiff & Hb & Hd).
  assert (E : ApplyLimits (Some demo_limits) DefaultLimits = Ok demo_applied) by (vm_compute; reflexivity).
  split; [apply Hiff; exact E | exact (Hb Hd E)].
Defined.

Example settings_limits_demo :
  is_ok (ApplyLimits (Some (MkLimitsConfig 0 0 0 "16MiB" EmptyString EmptyString EmptyString EmptyString EmptyString
                              EmptyString EmptyString EmptyString)) DefaultLimits) = false.
Proof. vm_compute. reflexivity. Qed.
