(* ===== verification/AgentTarget.v ===== *)
(** * AgentTarget: the only places the Agent connects to

    [internal/agent/target.go]: the check of a local target and the two dialers
    that connect to it, on the address functions of {!GoNet}.  The network is
    a parameter: what [Dialer.DialContext] answers for a network and an
    address. *)

From S2P Require Import Prelude GoText GoNet.

(** [strings.Contains(s, "://")]. *)
Fixpoint has_scheme (s : bytes) : bool :=
  match s with
  | [] => false
  | a :: r => bool_decide (firstn 3 s = bytes_of "://") || has_scheme r
  end.

Definition isLocalhostName (host : string) : bool :=
  forallb (fun b => bz b <=? 127) (bytes_of host) &&
  bool_decide (ascii_lower_byte <$> bytes_of host = bytes_of "localhost").

Definition ValidateLocalTarget (target : string) : result unit :=
  match SplitHostPort target with
  | None => Err (ErrMsg "local target must be host:port with an explicit port")
  | Some (host, portText) =>
    reject_if (has "/"%byte (bytes_of host) || has "\"%byte (bytes_of host) || has_scheme (bytes_of target))
      (ErrMsg "local target schemes and paths are not allowed") ;?
    match parse_int64 (bytes_of portText) with
    | None => Err (ErrMsg "local target port must be in 1..65535")
    | Some port =>
      reject_if ((port <? 1) || (65535 <? port)) (ErrMsg "local target port must be in 1..65535") ;?
      if isLocalhostName host then Ok tt
      else
        match ParseIP host with
        | Some ip => reject_if (negb (IsLoopback ip)) (ErrMsg "local target host must be localhost, 127.0.0.0/8, or ::1")
        | None => Err (ErrMsg "local target host must be localhost, 127.0.0.0/8, or ::1")
        end
    end
  end.

Section Dial.
Context {conn : Type} (DialContext : string -> string -> result conn).

(** The candidates in order: the first connection that comes up, or the last error. *)
Fixpoint dial_first (network port : string) (hosts : list string) (lastErr : error) : result conn :=
  match hosts with
  | [] => Err (ErrWrap "dial localhost loopback candidates" lastErr)
  | loopback :: rest =>
    match DialContext network (JoinHostPort loopback port) with
    | Ok c => Ok c
    | Err err => dial_first network port rest err
    end
  end.

Definition DialLocalTarget (target : string) : result conn :=
  ValidateLocalTarget target ;?
  match SplitHostPort target with
  | None => Err (ErrMsg "unreachable")
  | Some (host, port) =>
    if negb (isLocalhostName host) then DialContext "tcp" (JoinHostPort host port)
    else dial_first "tcp" port ["127.0.0.1"; "::1"] (ErrMsg "no candidate")
  end.

Definition DialLocalUDPTarget (target : string) : result conn :=
  ValidateLocalTarget target ;?
  match SplitHostPort target with
  | None => Err (ErrMsg "unreachable")
  | Some (host, port) =>
    if negb (isLocalhostName host) then DialContext "udp" (JoinHostPort host port)
    else DialContext "udp" (JoinHostPort "127.0.0.1" port)
  end.
End Dial.

(** ** Containment *)

(** An address of this machine: a loopback literal with a port number. *)
Definition loopback_address (address : string) : Prop :=
  exists host port ip n, SplitHostPort address = Some (host, port) /\ ParseIP host = Some ip /\
    IsLoopback ip = true /\ parse_int64 (bytes_of port) = Some n /\ 1 <= n <= 65535.

(** What the validation established about a target. *)
Record local_target (target host port : string) : Prop := LocalTarget {
  lt_split : SplitHostPort target = Some (host, port);
  lt_port : exists n, parse_int64 (bytes_of port) = Some n /\ 1 <= n <= 65535;
  lt_host : isLocalhostName host = true \/ exists ip, ParseIP host = Some ip /\ IsLoopback ip = true;
}.

Lemma ValidateLocalTarget_Ok target :
  ValidateLocalTarget target = Ok tt -> exists host port, local_target target host port.
Proof.
  unfold ValidateLocalTarget. destruct (SplitHostPort target) as [[host port]|] eqn:Es; [| done].
  intros H. inv_ok. destruct (parse_int64 _) as [n|] eqn:En; [| done]. inv_ok. bool_facts.
  exists host, port. split; [done | exists n; split; [done | lia] |].
  destruct (isLocalhostName host); [by left | right].
  destruct (ParseIP host) as [ip|]; [| done]. inv_ok. bool_facts. naive_solver.
Qed.

(** A decimal number has no punctuation in it. *)
Lemma parse_int64_plain c bs n :
  is_digit c = false -> c <> "-"%byte -> c <> "+"%byte -> parse_int64 bs = Some n -> has c bs = false.
Proof.
  intros Hd Hm Hp. unfold parse_int64. destruct bs as [|b r]; [done |].
  assert (Hdig : forall v l, parse_digits l = Some v -> has c l = false).
  { intros v l Hl. assert (Ha : exists acc, digits_val acc l = Some v) by (destruct l; [done | by exists 0]).
    destruct Ha as [acc Ha]. revert acc Ha. clear Hl. induction l as [|x l IH]; intros acc; [done |].
    cbn [digits_val]. destruct (is_digit x) eqn:Ex; [| done]. intros Ha. rewrite has_cons, (IH _ Ha).
    destruct (Byte.eqb c x) eqn:E; [| done]. bool_facts. subst; congruence. }
  destruct (Byte.eqb b "-" || Byte.eqb b "+") eqn:Es.
  - destruct (parse_digits r) as [v|] eqn:Er; [| done]. intros _. rewrite has_cons, (Hdig _ _ Er).
    destruct (Byte.eqb c b) eqn:E; [| done]. bool_facts. subst. destruct Es; bool_facts; congruence.
  - destruct (parse_digits (b :: r)) as [v|] eqn:Er; [| done]. intros _. by apply (Hdig v).
Qed.

Lemma join_loopback host port ip n :
  has "["%byte (bytes_of host) = false -> has "]"%byte (bytes_of host) = false ->
  ParseIP host = Some ip -> IsLoopback ip = true ->
  parse_int64 (bytes_of port) = Some n -> 1 <= n <= 65535 -> loopback_address (JoinHostPort host port).
Proof.
  intros Ho Hc Hip Hl Hn Hr. exists host, port, ip, n. split; [| done].
  apply SplitHostPort_join; [done | done | by apply (parse_int64_plain _ _ n)..].
Qed.

Lemma local_target_address target host port :
  local_target target host port ->
  (isLocalhostName host = false -> loopback_address (JoinHostPort host port)) /\
  (forall literal, literal = "127.0.0.1" \/ literal = "::1" -> loopback_address (JoinHostPort literal port)).
Proof.
  intros [Hs (n & Hn & Hr) Hh]. split.
  - intros Hl. destruct Hh as [Hh|(ip & Hip & Hb)]; [congruence |].
    unfold SplitHostPort in Hs. destruct (SplitHost _) as [h|] eqn:Eh; [| done]. destruct (after_last _ _); [| done].
    injection Hs as <- <-. apply SplitHost_plain in Eh as [??].
    apply (join_loopback _ _ ip n); rewrite ?bytes_of_string_of in *; done.
  - intros literal [-> | ->]; (eapply join_loopback; [done | done | vm_compute; reflexivity | done | done | done]).
Qed.

Lemma dial_first_reaches {conn} (DialContext : string -> string -> result conn) network port hosts err c :
  dial_first DialContext network port hosts err = Ok c ->
  exists literal, literal ∈ hosts /\ DialContext network (JoinHostPort literal port) = Ok c.
Proof.
  revert err. induction hosts as [|h r IH]; intros err; [done |]. cbn [dial_first].
  destruct (DialContext _ _) as [c'|e] eqn:E; [intros [= ->]; exists h; split; [left | done] |].
  intros H. destruct (IH _ H) as (l & Hl & Hd). exists l. split; [by right | done].
Qed.

Lemma dial_first_agree {conn} (D1 D2 : string -> string -> result conn) network port hosts err :
  (forall literal, literal ∈ hosts -> D1 network (JoinHostPort literal port) = D2 network (JoinHostPort literal port)) ->
  dial_first D1 network port hosts err = dial_first D2 network port hosts err.
Proof.
  revert err. induction hosts as [|h r IH]; intros err H; [done |]. cbn [dial_first].
  rewrite (H h) by left. destruct (D2 _ _); [done |]. apply IH. intros l Hl. apply H. by right.
Qed.

(** C12: The Agent never connects anywhere but to its own machine, whatever the text of the configured target: a connection the TCP or the UDP dial returns was opened at an address that splits into a loopback IP literal and a port between 1 and 65535, and the outcome of the dial, its errors included, does not depend on what the network answers at any other address. *)
Theorem dials_loopback_only {conn} (D1 D2 : string -> string -> result conn) target :
  (forall network address, loopback_address address -> D1 network address = D2 network address) ->
  DialLocalTarget D1 target = DialLocalTarget D2 target /\
  DialLocalUDPTarget D1 target = DialLocalUDPTarget D2 target /\
  forall c, (DialLocalTarget D1 target = Ok c -> exists address, loopback_address address /\ D1 "tcp" address = Ok c) /\
            (DialLocalUDPTarget D1 target = Ok c -> exists address, loopback_address address /\ D1 "udp" address = Ok c).
Proof.
  intros Hagree. unfold DialLocalTarget, DialLocalUDPTarget.
  destruct (ValidateLocalTarget target) as [[]|e] eqn:Ev; cbn [rbind]; [| done].
  destruct (ValidateLocalTarget_Ok _ Ev) as (host & port & Ht). rewrite (lt_split _ _ _ Ht).
  destruct (local_target_address _ _ _ Ht) as [Hplain Hliteral].
  assert (Hcand : forall literal, literal ∈ ["127.0.0.1"; "::1"] -> loopback_address (JoinHostPort literal port)).
  { intros literal Hl. apply Hliteral. set_solver. }
  destruct (isLocalhostName host); cbn [negb].
  - split; [by apply dial_first_agree; auto | split; [by auto |]]. intros c. split.
    + intros H. apply dial_first_reaches in H as (l & Hl & Hd). eauto.
    + intros H. eexists. split; [| exact H]. auto.
  - specialize (Hplain eq_refl). split_and!; auto. intros c. split; intros H; eauto.
Qed.

(** A network with one server, on the IPv6 loopback. *)
Definition demo_network (network address : string) : result string :=
  if String.eqb address "[::1]:8080" then Ok (network +:+ " to " +:+ address) else Err (ErrMsg "connection refused").

Lemma dials_loopback_only_witness :
  DialLocalTarget demo_network "LOCALHOST:8080" = Ok "tcp to [::1]:8080" /\
  exists address, loopback_address address /\ demo_network "tcp" address = Ok "tcp to [::1]:8080".
Proof.
  assert (E : DialLocalTarget demo_network "LOCALHOST:8080" = Ok "tcp to [::1]:8080") by (vm_compute; reflexivity).
  split; [exact E |].
  destruct (dials_loopback_only demo_network demo_network "LOCALHOST:8080" (fun _ _ _ => eq_refl)) as (_ & _ & H).
  exact (proj1 (H _) E).
Defined.

Example target_examples :
  (fun t => is_ok (ValidateLocalTarget t)) <$>
    ["127.0.0.1:80"; "127.0.0.1:0"; "[::1]:443"; "10.0.0.1:80"; "localhost:65536"; "localhost.evil.com:80"; "http://localhost:80";
     "0.0.0.0:80"; "[::ffff:127.0.0.1]:80"]
  = [true; false; true; false; false; false; false; false; true].
Proof. vm_compute. reflexivity. Qed.
