(* ===== verification/AgentStream.v ===== *)
(** * AgentStream: the input queue of a stream on the Agent

    [agentStream] of [internal/agent/session.go]: what the Gateway sends for a
    stream is queued under the stream's and the session's byte budgets, one
    goroutine takes it out and writes it to the local target, and the end of
    the stream empties the queue.  The queue is a channel: [enqueue] and
    [finishStream] hold the stream's mutex, the writer receives without it, so
    the step relation interleaves the drain with the writer. *)

From S2P Require Import Prelude Frame Control Window Budget.
Import Budget.Agent.

(** ** Data *)

Record Endpoint := MkEndpoint { ep_ID : string; ep_Target : string; ep_Protocol : string }.

Record QueuedPayload := MkQueued { qp_Data : bytes; qp_Size : Z }.

(** [as_hand] is the payload the writer received and has not released yet, a
    local variable of its goroutine; [as_cancelled] is the stream's context. *)
Record stream := MkStream {
  as_id : Z;
  as_endpoint : Endpoint;
  as_mode : string;
  as_slots : Z;                    (* cap(incoming) *)
  as_incoming : list QueuedPayload;
  as_hand : option QueuedPayload;
  as_closed : bool;
  as_streamBudget : ByteBudget;
  as_finished : bool;              (* finish sync.Once *)
  as_terminal : bool;              (* terminal sync.Once *)
  as_peerHalf : bool;              (* peerHalfClose is closed *)
  as_cancelled : bool;
}.

Definition newStream (id : Z) (endpoint : Endpoint) (mode : string) (slots inputBytes : Z) : stream :=
  MkStream id endpoint mode slots [] None false (New inputBytes) false false false false.

Definition with_queue (s : stream) (incoming : list QueuedPayload) (hand : option QueuedPayload) (b : ByteBudget) : stream :=
  MkStream (as_id s) (as_endpoint s) (as_mode s) (as_slots s) incoming hand (as_closed s) b
    (as_finished s) (as_terminal s) (as_peerHalf s) (as_cancelled s).
Definition with_flags (s : stream) (closed finished terminal peerHalf cancelled : bool) : stream :=
  MkStream (as_id s) (as_endpoint s) (as_mode s) (as_slots s) (as_incoming s) (as_hand s) closed
    (as_streamBudget s) finished terminal peerHalf cancelled.
Definition with_budget (s : stream) (b : ByteBudget) : stream := with_queue s (as_incoming s) (as_hand s) b.

(** ** Operations

    The session's budget is shared by all streams: it is an argument and a
    result. *)

Definition enqueue (shared : ByteBudget) (s : stream) (data : bytes) : bool * ByteBudget * stream :=
  let size := zlen data in
  if as_closed s then (false, shared, s)
  else
    match TryAcquire (as_streamBudget s) size with
    | (false, own) => (false, shared, with_budget s own)
    | (true, own) =>
      match TryAcquire shared size with
      | (false, shared') => (false, shared', with_budget s (Release own size).2)
      | (true, shared') =>
        if Z.of_nat (length (as_incoming s)) <? as_slots s then
          (true, shared', with_queue s (as_incoming s ++ [MkQueued data size]) (as_hand s) own)
        else (false, (Release shared' size).2, with_budget s (Release own size).2)
      end
    end.

Definition releaseQueued (shared : ByteBudget) (s : stream) (size : Z) : ByteBudget * stream :=
  ((Release shared size).2, with_budget s (Release (as_streamBudget s) size).2).

(** The writer's receive from the channel. *)
Definition receive (s : stream) : option (QueuedPayload * stream) :=
  match as_incoming s, as_hand s with
  | p :: rest, None => Some (p, with_queue s rest (Some p) (as_streamBudget s))
  | _, _ => None
  end.

(** [releaseQueued] at the head of [writeLocalPayload] and [writeLocalUDP]. *)
Definition release_hand (shared : ByteBudget) (s : stream) : option (QueuedPayload * ByteBudget * stream) :=
  match as_hand s with
  | Some p =>
    let '(shared', s') := releaseQueued shared s (qp_Size p) in
    Some (p, shared', with_queue s' (as_incoming s') None (as_streamBudget s'))
  | None => None
  end.

(** [finishStream], in the steps of its drain loop. *)
Definition finish_begin (s : stream) : stream :=
  with_flags s true true (as_terminal s) (as_peerHalf s) (as_cancelled s).

Definition drain_one (shared : ByteBudget) (s : stream) : option (ByteBudget * stream) :=
  match as_incoming s with
  | p :: rest => Some (releaseQueued shared (with_queue s rest (as_hand s) (as_streamBudget s)) (qp_Size p))
  | [] => None
  end.

Definition finish_end (s : stream) : stream :=
  with_flags s (as_closed s) (as_finished s) (as_terminal s) (as_peerHalf s) true.

Fixpoint drain (n : nat) (shared : ByteBudget) (s : stream) : ByteBudget * stream :=
  match n with
  | O => (shared, s)
  | S n' => match drain_one shared s with Some (shared', s') => drain n' shared' s' | None => (shared, s) end
  end.

(** The whole of it, when the writer receives nothing meanwhile. *)
Definition finishStream (shared : ByteBudget) (s : stream) : ByteBudget * stream :=
  if as_finished s then (shared, s)
  else let '(shared', s') := drain (length (as_incoming s)) shared (finish_begin s) in (shared', finish_end s').

(** ** What a stream holds *)

Fixpoint queued_size (q : list QueuedPayload) : Z :=
  match q with [] => 0 | p :: rest => qp_Size p + queued_size rest end.

Definition hand_size (h : option QueuedPayload) : Z := match h with Some p => qp_Size p | None => 0 end.

Definition held (s : stream) : Z := queued_size (as_incoming s) + hand_size (as_hand s).

(** A payload as [enqueue] makes it. *)
Definition payload_ok (p : QueuedPayload) : Prop := qp_Size p = zlen (qp_Data p).

(** [shared] is the session's budget, of which [held] belongs to this stream. *)
Record stream_ok (shared : ByteBudget) (s : stream) : Prop := StreamOk {
  ao_queue : Forall payload_ok (as_incoming s);
  ao_hand : forall p, as_hand s = Some p -> payload_ok p;
  ao_budget : budget_ok (as_streamBudget s);
  ao_used : b_used (as_streamBudget s) = held s;
  ao_underflows : b_underflows (as_streamBudget s) = 0;
  ao_shared : budget_ok shared /\ held s <= b_used shared;
  ao_slots : Z.of_nat (length (as_incoming s)) <= Z.max 0 (as_slots s);
  ao_finished : as_finished s = true -> as_closed s = true;
}.

Lemma queued_app q1 q2 : queued_size (q1 ++ q2) = queued_size q1 + queued_size q2.
Proof. induction q1 as [|p q IH]; cbn in *; lia. Qed.

Lemma queued_nonneg q : Forall payload_ok q -> 0 <= queued_size q.
Proof.
  induction 1 as [|p q Hp _ IH]; cbn; [lia |]. rewrite Hp. pose proof (zlen_nonneg (qp_Data p)). cbn in IH. lia.
Qed.

Lemma hand_nonneg h : (forall p, h = Some p -> payload_ok p) -> 0 <= hand_size h.
Proof. destruct h as [p|]; cbn; [| lia]. intros H. rewrite (H p eq_refl). apply zlen_nonneg. Qed.

Lemma held_nonneg shared s : stream_ok shared s -> 0 <= held s.
Proof.
  intros H. unfold held. pose proof (queued_nonneg _ (ao_queue _ _ H)). pose proof (hand_nonneg _ (ao_hand _ _ H)). lia.
Qed.

(** An operation kept the stream well-formed and moved the shared budget by
    exactly what the stream holds more. *)
Definition keeps (shared : ByteBudget) (s : stream) (shared' : ByteBudget) (s' : stream) : Prop :=
  stream_ok shared' s' /\ moved shared shared' (held s' - held s).

Lemma keeps_refl shared s : stream_ok shared s -> keeps shared s shared s.
Proof. intros H. split; [done |]. rewrite Z.sub_diag. apply moved_refl, H. Qed.

Lemma keeps_trans b s b1 s1 b2 s2 : keeps b s b1 s1 -> keeps b1 s1 b2 s2 -> keeps b s b2 s2.
Proof.
  intros [_ M1] [H2 M2]. split; [done |].
  replace (held s2 - held s) with ((held s1 - held s) + (held s2 - held s1)) by lia. by eapply moved_trans.
Qed.

(** The queue, the hand and the two budgets after an operation. *)
Lemma keeps_queue shared s shared' q h own :
  stream_ok shared s -> Forall payload_ok q -> (forall p, h = Some p -> payload_ok p) ->
  Z.of_nat (length q) <= Z.max 0 (as_slots s) ->
  let d := queued_size q + hand_size h - held s in
  moved (as_streamBudget s) own d -> moved shared shared' d ->
  keeps shared s shared' (with_queue s q h own).
Proof.
  intros Hs Hq Hh Hl d (Ho & _ & Hou & Hod) (Hb & Hbl & Hbu & Hbd).
  pose proof (ao_used _ _ Hs). pose proof (ao_shared _ _ Hs) as [_ Hsh].
  split; [| split; [exact Hb |]; split_and!; done || (unfold held; cbn; lia)].
  split; cbn [as_incoming as_hand as_streamBudget as_slots as_finished as_closed with_queue]; try done.
  - unfold held. cbn. lia.
  - rewrite Hou. apply Hs.
  - split; [exact Hb |]. unfold held. cbn. lia.
  - apply Hs.
Qed.

Lemma flags_ok shared s closed finished terminal peerHalf cancelled :
  stream_ok shared s -> (finished = true -> closed = true) ->
  stream_ok shared (with_flags s closed finished terminal peerHalf cancelled).
Proof. intros [] Hf. by split. Qed.

Lemma keeps_flags shared s closed finished terminal peerHalf cancelled :
  stream_ok shared s -> (finished = true -> closed = true) ->
  keeps shared s shared (with_flags s closed finished terminal peerHalf cancelled).
Proof.
  intros Hs Hf. split; [by apply flags_ok |]. change (held (with_flags _ _ _ _ _ _)) with (held s).
  rewrite Z.sub_diag. apply moved_refl, Hs.
Qed.

Lemma enqueue_keeps shared s data :
  stream_ok shared s ->
  keeps shared s (enqueue shared s data).1.2 (enqueue shared s data).2 /\
  as_incoming (enqueue shared s data).2 =
    as_incoming s ++ (if (enqueue shared s data).1.1 then [MkQueued data (zlen data)] else []) /\
  as_hand (enqueue shared s data).2 = as_hand s.
Proof.
  intros Hs. unfold enqueue. destruct (as_closed s) eqn:Ec; [rewrite app_nil_r; by split; [apply keeps_refl |] |].
  pose proof (ao_shared _ _ Hs) as [Hb Hle]. pose proof (ao_budget _ _ Hs) as Ho.
  destruct (TryAcquire_moved (as_streamBudget s) (zlen data) Ho) as [Mo _].
  pose proof (ao_queue _ _ Hs) as Hq. pose proof (ao_hand _ _ Hs) as Hh. pose proof (ao_slots _ _ Hs) as Hl.
  pose proof (zlen_nonneg data) as Hz. pose proof (held_nonneg _ _ Hs) as Hn. pose proof (ao_used _ _ Hs) as Hu.
  assert (Hback : forall own, moved (as_streamBudget s) own (zlen data) ->
            moved (as_streamBudget s) (Release own (zlen data)).2 0).
  { intros own M. pose proof M as (Hok & _ & _ & Hd).
    destruct (Release_moved own (zlen data) Hok ltac:(lia)) as [_ M'].
    replace 0 with (zlen data + - zlen data) by lia. by eapply moved_trans. }
  assert (Hsame : forall shared' own, moved shared shared' 0 -> moved (as_streamBudget s) own 0 ->
            keeps shared s shared' (with_budget s own)).
  { intros shared' own M M'. apply keeps_queue; try done; unfold held; by rewrite Z.sub_diag. }
  destruct (TryAcquire (as_streamBudget s) (zlen data)) as [[] own]; cbn [fst snd] in *.
  2: { rewrite app_nil_r. split; [| done]. by apply Hsame; [apply moved_refl |]. }
  destruct (TryAcquire_moved shared (zlen data) Hb) as [Mb _].
  destruct (TryAcquire shared (zlen data)) as [[] shared']; cbn [fst snd] in *.
  2: { rewrite app_nil_r. split; [| done]. apply Hsame; [done | by apply Hback]. }
  destruct (_ <? _) eqn:El; bool_facts; cbn [fst snd].
  - split; [| done]. apply keeps_queue; try done.
    + apply Forall_app. split; [done | by constructor].
    + rewrite length_app. cbn. lia.
    + unfold held. rewrite queued_app. cbn. replace (_ + _ + _ - _) with (zlen data) by lia. done.
    + unfold held. rewrite queued_app. cbn. replace (_ + _ + _ - _) with (zlen data) by lia. done.
  - rewrite app_nil_r. split; [| done]. apply Hsame; [| by apply Hback].
    pose proof Mb as (Hok & _ & _ & Hd). destruct (Release_moved shared' (zlen data) Hok ltac:(lia)) as [_ M'].
    replace 0 with (zlen data + - zlen data) by lia. by eapply moved_trans.
Qed.

Lemma releaseQueued_keeps shared s q h size :
  stream_ok shared s -> Forall payload_ok q -> (forall p, h = Some p -> payload_ok p) ->
  Z.of_nat (length q) <= Z.max 0 (as_slots s) -> 0 <= size -> queued_size q + hand_size h + size = held s ->
  keeps shared s (releaseQueued shared (with_queue s q h (as_streamBudget s)) size).1
    (releaseQueued shared (with_queue s q h (as_streamBudget s)) size).2.
Proof.
  intros Hs Hq Hh Hl Hz Hd. pose proof (queued_nonneg _ Hq). pose proof (hand_nonneg _ Hh).
  pose proof (ao_shared _ _ Hs) as [Hb Hle]. pose proof (ao_used _ _ Hs) as Hu.
  destruct (Release_moved (as_streamBudget s) size (ao_budget _ _ Hs) ltac:(lia)) as [_ M1].
  destruct (Release_moved shared size Hb ltac:(lia)) as [_ M2].
  unfold releaseQueued. cbn [fst snd]. unfold with_budget. cbn [as_incoming as_hand as_streamBudget with_queue].
  apply (keeps_queue shared s _ q h); try done;
    replace (queued_size q + hand_size h - held s) with (- size) by lia; done.
Qed.

Lemma receive_keeps shared s p s' :
  stream_ok shared s -> receive s = Some (p, s') -> keeps shared s shared s' /\ payload_ok p /\
  exists rest, as_incoming s = p :: rest /\ as_hand s = None /\ s' = with_queue s rest (Some p) (as_streamBudget s).
Proof.
  intros Hs. unfold receive. destruct (as_incoming s) as [|x rest] eqn:Ei; [done |].
  destruct (as_hand s) eqn:Eh; [done |]. intros [= <- <-].
  pose proof (ao_queue _ _ Hs) as Hq. rewrite Ei in Hq. inversion Hq as [|? ? Hx Hr]; subst.
  pose proof (ao_slots _ _ Hs) as Hl. rewrite Ei in Hl. cbn [length] in Hl.
  assert (Hd : queued_size rest + hand_size (Some x) - held s = 0).
  { unfold held. rewrite Ei, Eh. cbn. lia. }
  split; [| split; [done | by exists rest]].
  apply keeps_queue; rewrite ?Hd; try done; try lia; [by intros ? [= <-] | apply moved_refl, Hs..].
Qed.

Lemma release_hand_keeps shared s p shared' s' :
  stream_ok shared s -> release_hand shared s = Some (p, shared', s') ->
  keeps shared s shared' s' /\ payload_ok p /\ as_hand s = Some p /\ as_incoming s' = as_incoming s /\ as_hand s' = None.
Proof.
  intros Hs. unfold release_hand. destruct (as_hand s) as [x|] eqn:Eh; [| done].
  pose proof (ao_hand _ _ Hs x Eh) as Hx.
  pose proof (releaseQueued_keeps shared s (as_incoming s) None (qp_Size x) Hs (ao_queue _ _ Hs) ltac:(done)
    (ao_slots _ _ Hs) ltac:(rewrite Hx; apply zlen_nonneg) ltac:(unfold held; rewrite Eh; cbn; lia)) as H.
  unfold releaseQueued in *. cbn [fst snd] in H. intros [= <- <- <-].
  split; [exact H | by split_and!].
Qed.

Lemma drain_one_keeps shared s shared' s' :
  stream_ok shared s -> drain_one shared s = Some (shared', s') ->
  keeps shared s shared' s' /\ exists p rest, as_incoming s = p :: rest /\
    s' = with_queue s rest (as_hand s) (as_streamBudget s').
Proof.
  intros Hs. unfold drain_one. destruct (as_incoming s) as [|x rest] eqn:Ei; [done |].
  pose proof (ao_queue _ _ Hs) as Hq. rewrite Ei in Hq. inversion Hq as [|? ? Hx Hr]; subst.
  pose proof (ao_slots _ _ Hs) as Hl. rewrite Ei in Hl. cbn [length] in Hl.
  pose proof (releaseQueued_keeps shared s rest (as_hand s) (qp_Size x) Hs Hr (ao_hand _ _ Hs)
    ltac:(lia) ltac:(rewrite Hx; apply zlen_nonneg) ltac:(unfold held; rewrite Ei; cbn; lia)) as H.
  destruct (releaseQueued _ _ _) as [b t] eqn:Er. intros [= <- <-]. split; [exact H |].
  exists x, rest. split; [done |]. unfold releaseQueued in Er. by injection Er as <- <-.
Qed.

(** The drain empties the queue and keeps what the writer holds. *)
Lemma drain_keeps n : forall shared s, stream_ok shared s -> (length (as_incoming s) <= n)%nat ->
  keeps shared s (drain n shared s).1 (drain n shared s).2 /\
  (drain n shared s).2 = with_queue s [] (as_hand s) (as_streamBudget (drain n shared s).2).
Proof.
  induction n as [|n IH]; intros shared s Hs Hn; cbn [drain].
  - split; [by apply keeps_refl |]. destruct s. cbn in *. by destruct as_incoming0; [| cbn in Hn; lia].
  - destruct (drain_one shared s) as [[b t]|] eqn:Ed.
    + destruct (drain_one_keeps _ _ _ _ Hs Ed) as (Hk & p & rest & Ei & Et).
      assert (Hl : (length (as_incoming t) <= n)%nat) by (rewrite Et; cbn; rewrite Ei in Hn; cbn in Hn; lia).
      destruct (IH b t (proj1 Hk) Hl) as [Hk' Hs']. split; [by eapply keeps_trans |].
      rewrite Hs' at 1. rewrite Et. done.
    + unfold drain_one in Ed. destruct (as_incoming s) eqn:Ei; [| done].
      split; [by apply keeps_refl |]. destruct s. cbn in *. by subst.
Qed.

Lemma finishStream_keeps shared s :
  stream_ok shared s -> keeps shared s (finishStream shared s).1 (finishStream shared s).2.
Proof.
  intros Hs. unfold finishStream. destruct (as_finished s); [by apply keeps_refl |].
  assert (H0 : keeps shared s shared (finish_begin s)) by by apply keeps_flags.
  destruct (drain_keeps (length (as_incoming s)) shared (finish_begin s) (proj1 H0) (le_n _)) as [H1 _].
  destruct (drain _ _ _) as [b t]. cbn [fst snd] in *.
  eapply keeps_trans; [exact H0 |]. eapply keeps_trans; [exact H1 |]. apply keeps_flags; [apply H1 |]. apply H1.
Qed.

(** A finished stream holds at most what its writer has in hand, takes no more
    and is over for its writer too. *)
Definition over (s : stream) : Prop := as_closed s = true /\ as_finished s = true /\ as_cancelled s = true.

Lemma finishStream_over shared s :
  stream_ok shared s -> as_finished s = false ->
  let s' := (finishStream shared s).2 in
  over s' /\ as_incoming s' = [] /\ as_hand s' = as_hand s /\ held s' = hand_size (as_hand s).
Proof.
  intros Hs Hf. unfold finishStream. rewrite Hf.
  destruct (drain_keeps (length (as_incoming s)) shared (finish_begin s)
    ltac:(by apply flags_ok) (le_n _)) as [_ Ht].
  destruct (drain _ _ _) as [b t]. cbn [fst snd] in *. rewrite Ht. split_and!; done.
Qed.

(** ** The queue and its writer, interleaved *)

(** [y_writing] is the rest of the payload [writeLocalPayload] is writing,
    [y_local] what the local target got, [y_accepted] what [enqueue] took. *)
Record sys := MkSys {
  y_shared : ByteBudget;
  y_stream : stream;
  y_draining : bool;
  y_writing : option bytes;
  y_exited : bool;
  y_accepted : bytes;
  y_local : bytes;
}.

Definition set_stream (y : sys) (shared : ByteBudget) (s : stream) : sys :=
  MkSys shared s (y_draining y) (y_writing y) (y_exited y) (y_accepted y) (y_local y).
Definition set_draining (y : sys) (s : stream) (d : bool) : sys :=
  MkSys (y_shared y) s d (y_writing y) (y_exited y) (y_accepted y) (y_local y).
Definition set_writer (y : sys) (writing : option bytes) (exited : bool) (local : bytes) : sys :=
  MkSys (y_shared y) (y_stream y) (y_draining y) writing exited (y_accepted y) local.

Inductive stream_step : sys -> sys -> Prop :=
| st_enqueue y data b s :
    y_draining y = false -> enqueue (y_shared y) (y_stream y) data = (true, b, s) ->
    stream_step y (MkSys b s false (y_writing y) (y_exited y) (y_accepted y ++ data) (y_local y))
| st_refuse y data b s :
    y_draining y = false -> enqueue (y_shared y) (y_stream y) data = (false, b, s) ->
    stream_step y (set_stream y b s)
| st_receive y p s :
    y_exited y = false -> y_writing y = None -> receive (y_stream y) = Some (p, s) ->
    stream_step y (set_stream y (y_shared y) s)
| st_release y p b s :
    release_hand (y_shared y) (y_stream y) = Some (p, b, s) ->
    stream_step y (set_writer (set_stream y b s) (Some (qp_Data p)) (y_exited y) (y_local y))
| st_write y data n :
    y_writing y = Some data ->
    stream_step y (set_writer y (if (n <? length data)%nat then Some (skipn n data) else None) (y_exited y)
      (y_local y ++ firstn n data))
| st_write_error y data n :
    y_writing y = Some data -> stream_step y (set_writer y None true (y_local y ++ firstn n data))
| st_leave y :
    y_writing y = None -> as_hand (y_stream y) = None -> as_cancelled (y_stream y) = true ->
    stream_step y (set_writer y None true (y_local y))
| st_begin y :
    as_finished (y_stream y) = false -> stream_step y (set_draining y (finish_begin (y_stream y)) true)
| st_drain y b s :
    y_draining y = true -> drain_one (y_shared y) (y_stream y) = Some (b, s) -> stream_step y (set_stream y b s)
| st_end y :
    y_draining y = true -> as_incoming (y_stream y) = [] ->
    stream_step y (set_draining y (finish_end (y_stream y)) false)
| st_others y b :
    budget_ok b -> held (y_stream y) <= b_used b -> stream_step y (set_stream y b (y_stream y)).

Definition sys_new (id : Z) (endpoint : Endpoint) (mode : string) (slots inputBytes : Z) (shared : ByteBudget) : sys :=
  MkSys shared (newStream id endpoint mode slots inputBytes) false None false [] [].

(** Everything the queue, the writer's hand and its write still carry. *)
Definition queue_data (q : list QueuedPayload) : bytes := concat (qp_Data <$> q).
Definition hand_data (h : option QueuedPayload) : bytes := match h with Some p => qp_Data p | None => [] end.
Definition writing_data (w : option bytes) : bytes := match w with Some d => d | None => [] end.

Definition pending (y : sys) : bytes :=
  writing_data (y_writing y) ++ hand_data (as_hand (y_stream y)) ++ queue_data (as_incoming (y_stream y)).

Record sys_ok (y : sys) : Prop := SysOk {
  sy_stream : stream_ok (y_shared y) (y_stream y);
  sy_hand : as_hand (y_stream y) <> None -> y_writing y = None;
  sy_drained : as_finished (y_stream y) = true -> y_draining y = false -> as_incoming (y_stream y) = [];
  sy_draining : y_draining y = true -> as_finished (y_stream y) = true;
  sy_exited : y_exited y = true -> y_writing y = None /\ as_hand (y_stream y) = None;
  (* until the stream is finished nothing is lost, duplicated or reordered *)
  sy_order : as_finished (y_stream y) = false ->
    exists lost, y_accepted y = y_local y ++ lost ++ pending y /\ (y_exited y = false -> lost = []);
}.

Lemma queue_data_app q p : queue_data (q ++ [p]) = queue_data q ++ qp_Data p.
Proof. unfold queue_data. rewrite fmap_app, concat_app. simpl. by rewrite app_nil_r. Qed.

Lemma enqueue_flags shared s data :
  as_finished (enqueue shared s data).2 = as_finished s /\ as_closed (enqueue shared s data).2 = as_closed s /\
  as_cancelled (enqueue shared s data).2 = as_cancelled s /\ (as_closed s = true -> (enqueue shared s data).2 = s).
Proof.
  unfold enqueue. destruct (as_closed s) eqn:E; [done |]. destruct (TryAcquire _ _) as [[] own]; [| done].
  destruct (TryAcquire shared _) as [[] ?]; [| done]. by destruct (_ <? _).
Qed.

Lemma enqueue_true_open shared s data b s' : enqueue shared s data = (true, b, s') -> as_closed s = false.
Proof. unfold enqueue. by destruct (as_closed s). Qed.

Lemma step_enqueue y data r b s :
  sys_ok y -> y_draining y = false -> enqueue (y_shared y) (y_stream y) data = (r, b, s) ->
  sys_ok (MkSys b s false (y_writing y) (y_exited y) (y_accepted y ++ (if r then data else [])) (y_local y)).
Proof.
  intros [Hs Hh Hd Hg Hx Ho] Hn E.
  destruct (enqueue_keeps _ _ data Hs) as ([Hs' _] & Hi & Ha).
  destruct (enqueue_flags (y_shared y) (y_stream y) data) as (Ff & Fc & _ & Fs).
  rewrite E in *. cbn [fst snd] in *.
  split; cbn; rewrite ?Ha; try done.
  - rewrite Ff. intros Hf _. rewrite (Fs (ao_finished _ _ Hs Hf)). by apply Hd.
  - rewrite Ff. intros Hf. destruct (Ho Hf) as (lost & -> & Hl). exists lost. split; [| done].
    unfold pending. cbn. rewrite Ha, Hi. destruct r; rewrite ?queue_data_app, ?app_nil_r; [| done].
    by rewrite <- !app_assoc.
Qed.

Lemma step_receive y p s :
  sys_ok y -> y_exited y = false -> y_writing y = None -> receive (y_stream y) = Some (p, s) ->
  sys_ok (set_stream y (y_shared y) s).
Proof.
  intros [Hs Hh Hd Hg Hx Ho] He Hw E.
  destruct (receive_keeps _ _ _ _ Hs E) as ([Hs' _] & _ & rest & Hi & Ha & ->).
  split; cbn; try done.
  - intros Hf Hn. by rewrite (Hd Hf Hn) in Hi.
  - by rewrite He.
  - intros Hf. destruct (Ho Hf) as (lost & -> & Hl). exists lost. split; [| done].
    unfold pending. cbn. by rewrite Hw, Hi, Ha.
Qed.

Lemma step_release y p b s :
  sys_ok y -> release_hand (y_shared y) (y_stream y) = Some (p, b, s) ->
  sys_ok (set_writer (set_stream y b s) (Some (qp_Data p)) (y_exited y) (y_local y)).
Proof.
  intros [Hs Hh Hd Hg Hx Ho] E. pose proof E as E2.
  apply release_hand_keeps in E2 as ([Hs' _] & _ & Ha & Hi & Ha'); [| exact Hs].
  assert (Hf' : as_finished s = as_finished (y_stream y)).
  { unfold release_hand in E. rewrite Ha in E. by injection E as <- <-. }
  assert (Hw : y_writing y = None) by (apply Hh; by rewrite Ha).
  split; cbn; rewrite ?Hi, ?Ha', ?Hf'; try done.
  - intros He. apply Hx in He as [_ He]. congruence.
  - intros Hf. destruct (Ho Hf) as (lost & -> & Hl). exists lost.
    split; [| done]. unfold pending. cbn. rewrite ?Hi, ?Ha', Ha, Hw; done.
Qed.

(** While the writer is writing it holds nothing else and has not exited. *)
Lemma writing_alone y data : sys_ok y -> y_writing y = Some data -> as_hand (y_stream y) = None /\ y_exited y = false.
Proof.
  intros [Hs Hh Hd Hg Hx Ho] Hw. split.
  - destruct (as_hand (y_stream y)); [| done]. rewrite Hh in Hw by done. done.
  - destruct (y_exited y); [| done]. destruct (Hx eq_refl). congruence.
Qed.

Lemma step_write y data n (err : bool) :
  sys_ok y -> y_writing y = Some data ->
  sys_ok (set_writer y (if err then None else if (n <? length data)%nat then Some (skipn n data) else None) err
            (y_local y ++ firstn n data)).
Proof.
  intros Hy Hw. destruct (writing_alone _ _ Hy Hw) as [Ha He]. destruct Hy as [Hs Hh Hd Hg Hx Ho].
  split; cbn -[Nat.ltb]; try done.
  - by intros ->.
  - intros Hf. destruct (Ho Hf) as (lost & Hacc & Hl). rewrite (Hl He) in Hacc.
    unfold pending in *. rewrite Hw, Ha in *. cbn -[Nat.ltb] in *. destruct err.
    + exists (skipn n data). split; [| done]. rewrite Hacc. cbn. rewrite <- (take_drop n data) at 1. by rewrite Ha, <- !app_assoc.
    + exists []. split; [| done].  rewrite Hacc, Ha.
      rewrite <- (take_drop n data) at 1. destruct (n <? length data)%nat eqn:El; cbn; [by rewrite <- !app_assoc |].
      apply Nat.ltb_ge in El. rewrite drop_ge by done. cbn. by rewrite app_nil_r, <- !app_assoc.
Qed.

Lemma step_drain y b s :
  sys_ok y -> y_draining y = true -> drain_one (y_shared y) (y_stream y) = Some (b, s) -> sys_ok (set_stream y b s).
Proof.
  intros [Hs Hh Hd Hg Hx Ho] Hdr E. destruct (drain_one_keeps _ _ _ _ Hs E) as ([Hs' _] & p & rest & Hi & Et).
  assert (Ha : as_hand s = as_hand (y_stream y)) by by rewrite Et.
  assert (Hf : as_finished s = as_finished (y_stream y)) by by rewrite Et.
  split; cbn; rewrite ?Ha, ?Hf; try done.
  - intros _ Hn. congruence.
  - rewrite Hg by done. done.
Qed.

Lemma agent_step_ok y y' : sys_ok y -> stream_step y y' -> sys_ok y'.
Proof.
  intros Hy Hstep. pose proof Hy as [Hs Hh Hd Hg Hx Ho]. destruct Hstep.
  - by eapply (step_enqueue y data true).
  - pose proof (step_enqueue y data false b s Hy H H0) as Hy'. rewrite app_nil_r in Hy'.
    unfold set_stream. by rewrite H.
  - by eapply step_receive.
  - by eapply step_release.
  - destruct (writing_alone _ _ Hy H) as [_ He]. rewrite He. by apply (step_write y data n false).
  - by apply (step_write y data n true).
  - split; cbn; try done. intros Hf. destruct (Ho Hf) as (lost & -> & Hl). exists lost. split; [| done].
    unfold pending. cbn. by rewrite H.
  - split; cbn; try done. by apply flags_ok.
  - by eapply step_drain.
  - split; cbn; try done. apply flags_ok; [done | apply Hs].
  - split; cbn; try done. by destruct Hs.
Qed.

Lemma agent_sys_new_ok id endpoint mode slots inputBytes shared :
  is_i64 inputBytes -> budget_ok shared -> sys_ok (sys_new id endpoint mode slots inputBytes shared).
Proof.
  intros Hi Hb. pose proof Hb as (_ & Hu & _).
  split; cbn; try done.
  - split; unfold held; cbn; try done; try lia. unfold budget_ok. cbn. split; [exact Hi | lia].
  - intros _. by exists [].
Qed.

Lemma sys_reach id endpoint mode slots inputBytes shared y :
  is_i64 inputBytes -> budget_ok shared ->
  steps stream_step (sys_new id endpoint mode slots inputBytes shared) y -> sys_ok y.
Proof. intros Hi Hb. apply (steps_invariant _ sys_ok); [by apply agent_sys_new_ok | exact agent_step_ok]. Qed.

(** The input queue of an Agent stream, under any interleaving of the reader of the tunnel, the writer to the local target, the drain that ends the stream and other streams' use of the shared budget: the stream's budget is exactly the bytes queued or in the writer's hand, all of them counted in the session's budget and at most the stream's own limit; a release is always covered, so the clamp that would hide a double release is never reached; until the stream is finished the local target has received a prefix of what was accepted, whole and in order, and while the writer runs everything else is still on its way; and once it is finished and drained nothing remains held but what the writer has in hand. *)
Theorem agent_stream_sound id endpoint mode slots inputBytes shared y :
  is_i64 inputBytes -> budget_ok shared ->
  steps stream_step (sys_new id endpoint mode slots inputBytes shared) y ->
  let s := y_stream y in
  b_used (as_streamBudget s) = held s /\ (held s = 0 \/ held s <= b_limit (as_streamBudget s)) /\
  held s <= b_used (y_shared y) /\ b_underflows (as_streamBudget s) = 0 /\
  (forall p b s', release_hand (y_shared y) s = Some (p, b, s') ->
     (Release (y_shared y) (qp_Size p)).1 = None /\ (Release (as_streamBudget s) (qp_Size p)).1 = None) /\
  (as_finished s = false ->
     exists lost, y_accepted y = y_local y ++ lost ++ pending y /\ (y_exited y = false -> lost = [])) /\
  (as_finished s = true -> y_draining y = false -> held s = hand_size (as_hand s)).
Proof.
  intros Hi Hb Hr s. destruct (sys_reach _ _ _ _ _ _ _ Hi Hb Hr) as [Hs Hh Hd Hg Hx Ho]. fold s in Hs, Hh, Hd, Ho.
  pose proof (ao_used _ _ Hs) as Hu. pose proof (ao_budget _ _ Hs) as (Hl1 & Hl2 & Hl3).
  split; [exact Hu |]. split; [lia |]. split; [apply Hs |]. split; [apply Hs |].
  split; [| split; [exact Ho |]].
  - intros p b s' H. unfold release_hand in H. destruct (as_hand s) as [x|] eqn:Eh; [| done].
    assert (x = p) as -> by by destruct (releaseQueued _ _ _); injection H.
    pose proof (ao_hand _ _ Hs p Eh) as Hp. pose proof (queued_nonneg _ (ao_queue _ _ Hs)).
    pose proof (ao_shared _ _ Hs) as [Hsb Hle]. pose proof (zlen_nonneg (qp_Data p)). unfold payload_ok in Hp.
    assert (Hheld : 0 <= qp_Size p <= held s) by (unfold held; rewrite Eh; cbn; lia).
    split; [by apply (Release_moved (y_shared y)); [| lia] | by apply (Release_moved (as_streamBudget s)); [apply Hs | lia]].
  - intros Hf Hn. unfold held. by rewrite (Hd Hf Hn).
Qed.

(** ** Concrete runs *)

Definition demo_stream : sys :=
  sys_new 1 (MkEndpoint "web" "127.0.0.1:80" EmptyString) "tcp" 512 8192 (New (2 ^ 20)).

Definition demo_a : bytes := bytes_of "a".
Definition demo_b : bytes := bytes_of "b".

(** [step_by c] takes one step by a constructor and computes its target. *)
Tactic Notation "step_by" uconstr(c) := eapply steps_cons; [eapply c; vm_compute; reflexivity |].

(** [finishStream] empties the channel while the writer still receives from
    it: a chunk the writer takes between two receives of the drain reaches the
    local target although the chunk before it was dropped. *)
Lemma drain_leaves_a_hole :
  exists y, steps stream_step demo_stream y /\ y_accepted y = demo_a ++ demo_b /\ y_local y = demo_b.
Proof.
  eexists. split.
  - step_by (st_enqueue _ demo_a). step_by (st_enqueue _ demo_b). step_by st_begin. step_by st_drain.
    step_by st_receive. step_by st_release. step_by (st_write _ demo_b 1%nat). apply steps_refl.
  - by vm_compute.
Qed.

Lemma agent_stream_sound_witness :
  exists y, steps stream_step demo_stream y /\ y_local y = demo_a /\
    (exists lost, demo_a ++ demo_b = y_local y ++ lost ++ pending y /\ (y_exited y = false -> lost = [])).
Proof.
  eexists. split.
  - step_by (st_enqueue _ demo_a). step_by (st_enqueue _ demo_b). step_by st_receive. step_by st_release.
    step_by (st_write _ demo_a 1%nat). apply steps_refl.
  - split; [vm_compute; reflexivity |].
    edestruct (agent_stream_sound 1 (MkEndpoint "web" "127.0.0.1:80" EmptyString) "tcp" 512 8192 (New (2 ^ 20)))
      as (_ & _ & _ & _ & _ & H & _).
    + by unfold is_i64.
    + unfold budget_ok, is_i64. cbn. lia.
    + step_by (st_enqueue _ demo_a). step_by (st_enqueue _ demo_b). step_by st_receive. step_by st_release.
      step_by (st_write _ demo_a 1%nat). apply steps_refl.
    + exact (H eq_refl).
Defined.
