(* ===== verification/AgentConfig.v ===== *)
(** * AgentConfig: the Agent's settings

    [Config] of [internal/agent/config.go]: the gateways a tunnel may use, the
    approved local endpoints and how they are looked up and edited, and the
    validation every tunnel attempt starts with.  [net/url.Parse] is a
    parameter; reading and writing the file is in {!StateOps}, the CA files it names in
    {!TrustAnchor}. *)

From S2P Require Import Prelude GoText Json Contract AgentLimits AgentTarget AgentStream.

Definition ConfigVersion : Z := 1.
Definition MaxGatewayAliases : Z := 4.
Definition MaxEndpoints : Z := 64.

Definition identifierPattern (s : string) : bool := idPattern s.

Record Config := MkConfig {
  cf_Version : Z;
  cf_GatewayURL : string;
  cf_GatewayAliases : list string;
  cf_CAFile : string;
  cf_DeviceID : string;
  cf_AuthorizationID : string;
  cf_TokenID : string;
  cf_UpdateChannel : string;
  cf_Endpoints : list Endpoint;
  cf_Limits : option LimitsConfig;
}.

Definition DefaultConfig : Config :=
  MkConfig ConfigVersion EmptyString [] EmptyString EmptyString EmptyString EmptyString "stable" [] None.

Definition with_endpoints (c : Config) (endpoints : list Endpoint) : Config :=
  MkConfig (cf_Version c) (cf_GatewayURL c) (cf_GatewayAliases c) (cf_CAFile c) (cf_DeviceID c)
    (cf_AuthorizationID c) (cf_TokenID c) (cf_UpdateChannel c) endpoints (cf_Limits c).

(** ** Gateways *)

Fixpoint candidates_from (seen : gset string) (urls : list string) : list string :=
  match urls with
  | [] => []
  | raw :: rest =>
    if String.eqb raw EmptyString || bool_decide (raw ∈ seen) then candidates_from seen rest
    else raw :: candidates_from ({[raw]} ∪ seen) rest
  end.

Definition GatewayCandidates (c : Config) : list string :=
  candidates_from ∅ (cf_GatewayURL c :: cf_GatewayAliases c).

(** What [url.Parse] makes of a string. *)
Record URL := MkURL {
  u_Scheme : string; u_Host : string; u_User : bool; u_Path : string; u_RawQuery : string; u_Fragment : string }.

Section Validate.
Context (url_Parse : string -> result URL).

Definition ValidateGatewayURL (raw : string) : result unit :=
  match url_Parse raw with
  | Err err => Err (ErrWrap "parse gateway URL" err)
  | Ok parsed =>
    reject_if (negb (String.eqb (u_Scheme parsed) "wss")) (ErrMsg "gateway URL must use wss://") ;?
    reject_if (String.eqb (u_Host parsed) EmptyString || u_User parsed)
              (ErrMsg "gateway URL must contain a host and no userinfo") ;?
    reject_if (negb (String.eqb (u_Path parsed) "/agent/v1/connect"))
              (ErrMsg "gateway URL path must be /agent/v1/connect") ;?
    reject_if (negb (String.eqb (u_RawQuery parsed) EmptyString) || negb (String.eqb (u_Fragment parsed) EmptyString))
              (ErrMsg "gateway URL must not contain query or fragment")
  end.

Fixpoint check_aliases (primary : string) (seen : gset string) (aliases : list string) : result unit :=
  match aliases with
  | [] => Ok tt
  | alias :: rest =>
    match ValidateGatewayURL alias with
    | Err err => Err (ErrWrap "gateway alias" err)
    | Ok _ =>
      reject_if (bool_decide (alias ∈ seen)) (ErrMsg "duplicate gateway alias") ;?
      reject_if (String.eqb alias primary) (ErrMsg "gateway alias duplicates the primary gateway URL") ;?
      check_aliases primary ({[alias]} ∪ seen) rest
    end
  end.

Definition endpoint_protocol_ok (p : string) : bool :=
  String.eqb p EmptyString || String.eqb p "tcp" || String.eqb p "udp".

Fixpoint check_endpoints (seen : gset string) (endpoints : list Endpoint) : result unit :=
  match endpoints with
  | [] => Ok tt
  | endpoint :: rest =>
    reject_if (negb (identifierPattern (ep_ID endpoint))) (ErrMsg "endpoint id is invalid") ;?
    reject_if (bool_decide (ep_ID endpoint ∈ seen)) (ErrMsg "duplicate endpoint id") ;?
    match ValidateLocalTarget (ep_Target endpoint) with
    | Err err => Err (ErrWrap "endpoint" err)
    | Ok _ =>
      reject_if (negb (endpoint_protocol_ok (ep_Protocol endpoint))) (ErrMsg "endpoint: unsupported protocol") ;?
      check_endpoints ({[ep_ID endpoint]} ∪ seen) rest
    end
  end.

(** The three identifiers come from a map: which failing one is named is
    unspecified. *)
Definition check_identifiers (c : Config) : result unit :=
  reject_if (negb (identifierPattern (cf_DeviceID c))) (ErrMsg "device_id is not a valid contract identifier") ;?
  reject_if (negb (identifierPattern (cf_AuthorizationID c)))
            (ErrMsg "authorization_id is not a valid contract identifier") ;?
  reject_if (negb (identifierPattern (cf_TokenID c))) (ErrMsg "token_id is not a valid contract identifier").

Definition ValidateRuntime (c : Config) : result unit :=
  reject_if (negb (cf_Version c =? ConfigVersion)) (ErrMsg "unsupported config version") ;?
  ValidateGatewayURL (cf_GatewayURL c) ;?
  reject_if (MaxGatewayAliases <? Z.of_nat (length (cf_GatewayAliases c)))
            (ErrMsg "gateway_aliases exceed the bounded failover list size") ;?
  check_aliases (cf_GatewayURL c) ∅ (cf_GatewayAliases c) ;?
  check_identifiers c ;?
  reject_if (MaxEndpoints <? Z.of_nat (length (cf_Endpoints c)))
            (ErrMsg "endpoints exceed the bounded exposure list size") ;?
  check_endpoints ∅ (cf_Endpoints c) ;?
  reject_if (negb (String.eqb (cf_UpdateChannel c) "stable") && negb (String.eqb (cf_UpdateChannel c) "beta"))
            (ErrMsg "unsupported update channel").
End Validate.

(** ** Endpoints *)

Definition EndpointByID (endpoints : list Endpoint) (id : string) : option Endpoint :=
  find (fun e => String.eqb (ep_ID e) id) endpoints.

Fixpoint set_endpoint (endpoints : list Endpoint) (endpoint : Endpoint) : list Endpoint :=
  match endpoints with
  | [] => [endpoint]
  | e :: rest => if String.eqb (ep_ID e) (ep_ID endpoint) then endpoint :: rest else e :: set_endpoint rest endpoint
  end.

Definition SetEndpoint (c : Config) (endpoint : Endpoint) : Config :=
  with_endpoints c (set_endpoint (cf_Endpoints c) endpoint).

Fixpoint remove_endpoint (endpoints : list Endpoint) (id : string) : option (list Endpoint) :=
  match endpoints with
  | [] => None
  | e :: rest =>
    if String.eqb (ep_ID e) id then Some rest else (fun rest' => e :: rest') <$> remove_endpoint rest id
  end.

Definition RemoveEndpoint (c : Config) (id : string) : bool * Config :=
  match remove_endpoint (cf_Endpoints c) id with
  | Some endpoints => (true, with_endpoints c endpoints)
  | None => (false, c)
  end.

(** ** What a valid configuration is *)

(** An address a tunnel may dial. *)
Definition gateway_address (url_Parse : string -> result URL) (raw : string) : Prop :=
  exists u, url_Parse raw = Ok u /\ u_Scheme u = "wss" /\ u_Host u <> EmptyString /\ u_User u = false /\
    u_Path u = "/agent/v1/connect" /\ u_RawQuery u = EmptyString /\ u_Fragment u = EmptyString.

Definition endpoint_wf (e : Endpoint) : Prop :=
  id_ok (ep_ID e) /\ ValidateLocalTarget (ep_Target e) = Ok tt /\ ep_Protocol e ∈ [EmptyString; "tcp"; "udp"].

Definition ids_of (endpoints : list Endpoint) : list string := ep_ID <$> endpoints.

Record config_wf (url_Parse : string -> result URL) (c : Config) : Prop := ConfigWf {
  cw_version : cf_Version c = ConfigVersion;
  cw_gateways : Forall (gateway_address url_Parse) (cf_GatewayURL c :: cf_GatewayAliases c);
  cw_distinct : NoDup (cf_GatewayURL c :: cf_GatewayAliases c);
  cw_aliases : Z.of_nat (length (cf_GatewayAliases c)) <= MaxGatewayAliases;
  cw_ids : id_ok (cf_DeviceID c) /\ id_ok (cf_AuthorizationID c) /\ id_ok (cf_TokenID c);
  cw_endpoints : Forall endpoint_wf (cf_Endpoints c);
  cw_keyed : NoDup (ids_of (cf_Endpoints c));
  cw_bound : Z.of_nat (length (cf_Endpoints c)) <= MaxEndpoints;
  cw_channel : cf_UpdateChannel c = "stable" \/ cf_UpdateChannel c = "beta";
}.

Lemma unit_ok (r : result unit) : r = Ok tt <-> is_ok r = true.
Proof. destruct r as [[]|]; split; done. Qed.

Lemma ok_seq (r1 r2 : result unit) : (r1 ;? r2) = Ok tt <-> r1 = Ok tt /\ r2 = Ok tt.
Proof. destruct r1 as [[]|]; cbn; naive_solver. Qed.

Lemma eqb_false (s t : string) : String.eqb s t = false <-> s <> t.
Proof. apply String.eqb_neq. Qed.

Lemma ValidateGatewayURL_iff url_Parse raw :
  ValidateGatewayURL url_Parse raw = Ok tt <-> gateway_address url_Parse raw.
Proof.
  unfold ValidateGatewayURL, gateway_address. destruct (url_Parse raw) as [u|e]; [| naive_solver].
  rewrite !ok_seq, !reject_if_Ok, !negb_false_iff, !orb_false_iff, !negb_false_iff, !String.eqb_eq, !eqb_false.
  naive_solver.
Qed.

Lemma check_aliases_iff url_Parse primary aliases : forall seen,
  check_aliases url_Parse primary seen aliases = Ok tt <->
  Forall (gateway_address url_Parse) aliases /\ NoDup aliases /\ primary ∉ aliases /\
  (forall a, a ∈ aliases -> a ∉ seen).
Proof.
  induction aliases as [|a rest IH]; intros seen; cbn [check_aliases].
  - split; [| done]. intros _. split_and!; [constructor.. | set_solver | set_solver].
  - rewrite Forall_cons, NoDup_cons, not_elem_of_cons, <- (ValidateGatewayURL_iff url_Parse a).
    destruct (ValidateGatewayURL url_Parse a) as [[]|err]; [| naive_solver].
    rewrite !ok_seq, !reject_if_Ok, bool_decide_eq_false, eqb_false, IH. set_solver.
Qed.

Lemma protocol_ok_iff p : endpoint_protocol_ok p = true <-> p ∈ [EmptyString; "tcp"; "udp"].
Proof.
  unfold endpoint_protocol_ok. rewrite !orb_true_iff, !String.eqb_eq, !elem_of_cons, elem_of_nil. naive_solver.
Qed.

Lemma check_endpoints_iff endpoints : forall seen,
  check_endpoints seen endpoints = Ok tt <->
  Forall endpoint_wf endpoints /\ NoDup (ids_of endpoints) /\ (forall i, i ∈ ids_of endpoints -> i ∉ seen).
Proof.
  induction endpoints as [|e rest IH]; intros seen; cbn [check_endpoints].
  - split; [| done]. intros _. split_and!; [constructor.. | set_solver].
  - unfold ids_of in *. rewrite fmap_cons, Forall_cons, NoDup_cons. unfold endpoint_wf at 1.
    rewrite <- protocol_ok_iff, !ok_seq, !reject_if_Ok, !negb_false_iff, bool_decide_eq_false.
    destruct (ValidateLocalTarget (ep_Target e)) as [[]|err]; [| naive_solver].
    rewrite !ok_seq, reject_if_Ok, negb_false_iff, IH. unfold identifierPattern. fold (id_ok (ep_ID e)).
    set_solver.
Qed.

Lemma validate_runtime_iff url_Parse c : ValidateRuntime url_Parse c = Ok tt <-> config_wf url_Parse c.
Proof.
  unfold ValidateRuntime, check_identifiers, identifierPattern.
  rewrite !ok_seq, !reject_if_Ok, ValidateGatewayURL_iff, check_aliases_iff, check_endpoints_iff,
    !negb_false_iff, Z.eqb_eq, !Z.ltb_ge, andb_false_iff, !negb_false_iff, !String.eqb_eq.
  fold (id_ok (cf_DeviceID c)) (id_ok (cf_AuthorizationID c)) (id_ok (cf_TokenID c)). split.
  - intros (H1 & H2 & H3 & (H4 & H5 & H6 & _) & H7 & H8 & (H9 & H10 & _) & H11). split; try done.
    + by constructor.
    + by constructor.
  - intros [H1 H2 H3 H4 H5 H6 H7 H8 H9]. apply Forall_cons in H2 as [H2 H2']. apply NoDup_cons in H3 as [H3 H3'].
    split_and!; try done; try apply H5; set_solver.
Qed.

(** C27: ValidateRuntime accepts exactly the well-formed configurations: this version; the primary and at most four aliases, all different and all wss addresses of the Agent path with a host, no user information, query or fragment; three contract identifiers; at most 64 endpoints with different contract identifiers, a loopback target each and a known protocol; and a known update channel. *)
Theorem runtime_config_wf url_Parse c : ValidateRuntime url_Parse c = Ok tt <-> config_wf url_Parse c.
Proof. apply validate_runtime_iff. Qed.

(** ** The failover list *)

Lemma candidates_spec urls : forall seen,
  (forall x, x ∈ candidates_from seen urls <-> x ∈ urls /\ x <> EmptyString /\ x ∉ seen) /\
  NoDup (candidates_from seen urls) /\ sublist (candidates_from seen urls) urls.
Proof.
  induction urls as [|raw rest IH]; intros seen; cbn [candidates_from].
  - split_and!; [intros x; set_solver | constructor | constructor].
  - destruct (String.eqb_spec raw EmptyString) as [->|Hne]; cbn [orb].
    + destruct (IH seen) as (H1 & H2 & H3). split; [intros x; rewrite H1; set_solver |].
      split; [done | by apply sublist_cons].
    + case_bool_decide as Hin.
      * destruct (IH seen) as (H1 & H2 & H3). split; [intros x; rewrite H1; set_solver |].
        split; [done | by apply sublist_cons].
      * destruct (IH ({[raw]} ∪ seen)) as (H1 & H2 & H3). split.
        { intros x. rewrite !elem_of_cons, H1, not_elem_of_union, not_elem_of_singleton.
          destruct (decide (x = raw)) as [->|]; naive_solver. }
        split; [| by apply sublist_skip]. constructor; [rewrite H1; set_solver | done].
Qed.

(** The failover schedule is the list the operator wrote: GatewayCandidates has no repetitions, holds exactly the configured non-empty gateway addresses in their order with the primary first, and for a configuration ValidateRuntime accepts every candidate is a valid gateway address and there are at most five. *)
Theorem gateway_candidates_sound url_Parse c :
  ValidateRuntime url_Parse c = Ok tt ->
  NoDup (GatewayCandidates c) /\ sublist (GatewayCandidates c) (cf_GatewayURL c :: cf_GatewayAliases c) /\
  (forall x, x ∈ GatewayCandidates c <-> x <> EmptyString /\ (x = cf_GatewayURL c \/ x ∈ cf_GatewayAliases c)) /\
  Forall (gateway_address url_Parse) (GatewayCandidates c) /\
  Z.of_nat (length (GatewayCandidates c)) <= 1 + MaxGatewayAliases /\
  (cf_GatewayURL c <> EmptyString -> head (GatewayCandidates c) = Some (cf_GatewayURL c)).
Proof.
  intros H. apply validate_runtime_iff in H as [_ Hg _ Ha _ _ _ _ _].
  destruct (candidates_spec (cf_GatewayURL c :: cf_GatewayAliases c) ∅) as (H1 & H2 & H3). unfold GatewayCandidates.
  split; [done |]. split; [done |]. split; [intros x; rewrite H1; set_solver |]. split; [| split].
  - apply Forall_forall. intros x Hx. apply H1 in Hx as [Hx _]. rewrite Forall_forall in Hg. by apply Hg.
  - apply sublist_length in H3. cbn [length] in H3. lia.
  - intros Hne. cbn [candidates_from]. destruct (String.eqb_spec (cf_GatewayURL c) EmptyString) as [?|_]; [done |].
    cbn [orb]. case_bool_decide as Hin; [by apply elem_of_empty in Hin | done].
Qed.

(** ** Editing the endpoints *)

Lemma EndpointByID_Some endpoints id e : EndpointByID endpoints id = Some e -> e ∈ endpoints /\ ep_ID e = id.
Proof.
  intros H. apply find_some in H as [Hin He]. apply String.eqb_eq in He. split; [by apply list_elem_of_In | done].
Qed.

Lemma EndpointByID_cons e rest id :
  EndpointByID (e :: rest) id = if String.eqb (ep_ID e) id then Some e else EndpointByID rest id.
Proof. done. Qed.

Lemma EndpointByID_None endpoints id : EndpointByID endpoints id = None <-> id ∉ ids_of endpoints.
Proof.
  unfold ids_of. induction endpoints as [|e rest IH]; [split; [set_solver | done] |].
  rewrite EndpointByID_cons, fmap_cons, not_elem_of_cons, <- IH.
  destruct (String.eqb_spec (ep_ID e) id); naive_solver.
Qed.

Lemma set_endpoint_ids endpoints e :
  ids_of (set_endpoint endpoints e) =
  if bool_decide (ep_ID e ∈ ids_of endpoints) then ids_of endpoints else ids_of endpoints ++ [ep_ID e].
Proof.
  unfold ids_of. induction endpoints as [|x rest IH]; [done |]. cbn [set_endpoint].
  destruct (String.eqb_spec (ep_ID x) (ep_ID e)) as [E|E].
  - rewrite bool_decide_eq_true_2 by (rewrite fmap_cons, E; set_solver). by rewrite !fmap_cons, E.
  - rewrite !fmap_cons, IH. case_bool_decide as H1; case_bool_decide as H2; try done; set_solver.
Qed.

Lemma set_endpoint_lookup endpoints e id :
  EndpointByID (set_endpoint endpoints e) id = if String.eqb (ep_ID e) id then Some e else EndpointByID endpoints id.
Proof.
  induction endpoints as [|x rest IH]; [done |]. cbn [set_endpoint].
  destruct (String.eqb_spec (ep_ID x) (ep_ID e)) as [E|E]; rewrite !EndpointByID_cons, ?IH, ?E;
    destruct (String.eqb_spec (ep_ID e) id); try done.
  destruct (String.eqb_spec (ep_ID x) id); congruence.
Qed.

Lemma remove_endpoint_spec endpoints id :
  NoDup (ids_of endpoints) ->
  match remove_endpoint endpoints id with
  | Some rest => id ∈ ids_of endpoints /\ sublist rest endpoints /\
      (forall j, EndpointByID rest j = if String.eqb id j then None else EndpointByID endpoints j)
  | None => id ∉ ids_of endpoints
  end.
Proof.
  unfold ids_of. induction endpoints as [|x rest IH]; intros Hn; cbn [remove_endpoint]; [set_solver |].
  rewrite fmap_cons in *. apply NoDup_cons in Hn as [Hx Hn]. specialize (IH Hn).
  destruct (String.eqb_spec (ep_ID x) id) as [E|E].
  - split; [set_solver |]. split; [by apply sublist_cons |]. intros j. rewrite EndpointByID_cons, E.
    destruct (String.eqb_spec id j) as [<-|]; [| done]. apply EndpointByID_None. by rewrite <- E.
  - destruct (remove_endpoint rest id) as [rest'|]; cbn [fmap option_fmap option_map]; [| set_solver].
    destruct IH as (H1 & H2 & H3). split; [set_solver |]. split; [by apply sublist_skip |]. intros j.
    rewrite !EndpointByID_cons, H3. destruct (String.eqb_spec (ep_ID x) j), (String.eqb_spec id j); congruence.
Qed.

(** Editing the approved endpoints is map update: on a configuration ValidateRuntime accepts, SetEndpoint of a valid endpoint makes it the one found under its identifier and RemoveEndpoint makes its identifier find nothing (and reports whether there was one), both leave what is found under every other identifier, and the result is accepted again, as long as the bound of 64 endpoints is kept. *)
Theorem endpoint_edits url_Parse c e id :
  ValidateRuntime url_Parse c = Ok tt -> endpoint_wf e ->
  Z.of_nat (length (cf_Endpoints (SetEndpoint c e))) <= MaxEndpoints ->
  let removed := RemoveEndpoint c id in
  (forall j, EndpointByID (cf_Endpoints (SetEndpoint c e)) j =
     if String.eqb (ep_ID e) j then Some e else EndpointByID (cf_Endpoints c) j) /\
  (forall j, EndpointByID (cf_Endpoints removed.2) j =
     if String.eqb id j then None else EndpointByID (cf_Endpoints c) j) /\
  removed.1 = bool_decide (is_Some (EndpointByID (cf_Endpoints c) id)) /\
  ValidateRuntime url_Parse (SetEndpoint c e) = Ok tt /\ ValidateRuntime url_Parse removed.2 = Ok tt.
Proof.
  intros H He Hb removed. apply validate_runtime_iff in H as Hw. pose proof Hw as [H1 H2 H3 H4 H5 H6 H7 H8 H9].
  split; [intros j; apply set_endpoint_lookup |]. subst removed. unfold RemoveEndpoint.
  pose proof (remove_endpoint_spec (cf_Endpoints c) id H7) as Hr. pose proof (EndpointByID_None (cf_Endpoints c) id) as Hnone.
  assert (Hset : ValidateRuntime url_Parse (SetEndpoint c e) = Ok tt).
  { apply validate_runtime_iff. split; try done.
    - cbn. clear -H6 He. induction H6 as [|x rest Hx Hrest IH]; cbn [set_endpoint]; [by constructor |].
      destruct (String.eqb _ _); by constructor.
    - cbn. rewrite set_endpoint_ids. case_bool_decide; [done |]. apply NoDup_app. split_and!; [done | set_solver | apply NoDup_singleton]. }
  destruct (remove_endpoint (cf_Endpoints c) id) as [rest|] eqn:Er; cbn [fst snd].
  - destruct Hr as (Hi & Hs & Hl). split; [exact Hl |]. split.
    { symmetry. apply bool_decide_eq_true. destruct (EndpointByID (cf_Endpoints c) id); [done |]. by apply Hnone in Hi. }
    split; [done |]. apply validate_runtime_iff. split; try done; cbn.
    + apply Forall_forall. intros x Hx. rewrite Forall_forall in H6. apply H6. by eapply elem_of_sublist.
    + unfold ids_of. eapply sublist_NoDup; [exact H7 | by apply fmap_sublist].
    + apply sublist_length in Hs. lia.
  - apply Hnone in Hr. split.
    { intros j. destruct (String.eqb_spec id j) as [<-|]; done. }
    rewrite Hr. split; [symmetry; by apply bool_decide_eq_false; intros [? ?] |]. by split.
Qed.

(** ** A concrete configuration *)

Definition demo_url_Parse (raw : string) : result URL :=
  Ok (MkURL "wss" raw false "/agent/v1/connect" EmptyString EmptyString).

Definition demo_config : Config :=
  MkConfig 1 "wss://a.example/agent/v1/connect" ["wss://b.example/agent/v1/connect"] EmptyString
    "dev-1" "auth-1" "tok-1" "stable" [MkEndpoint "web" "127.0.0.1:80" EmptyString] None.

Lemma gateway_candidates_sound_witness :
  length (GatewayCandidates demo_config) = 2%nat /\ NoDup (GatewayCandidates demo_config).
Proof.
  split; [vm_compute; reflexivity |]. apply (gateway_candidates_sound demo_url_Parse demo_config). vm_compute. reflexivity.
Defined.

Lemma endpoint_edits_witness :
  let e := MkEndpoint "dns" "127.0.0.1:53" "udp" in
  (forall j, EndpointByID (cf_Endpoints (SetEndpoint demo_config e)) j =
     if String.eqb "dns" j then Some e else EndpointByID (cf_Endpoints demo_config) j) /\
  (RemoveEndpoint demo_config "web").1 = true.
Proof.
  intros e.
  assert (H : ValidateRuntime demo_url_Parse demo_config = Ok tt) by (vm_compute; reflexivity).
  assert (He : endpoint_wf e).
  { split; [vm_compute; reflexivity |]. split; [vm_compute; reflexivity |]. right. right. left. }
  assert (Hb : Z.of_nat (length (cf_Endpoints (SetEndpoint demo_config e))) <= MaxEndpoints) by (vm_compute; discriminate).
  destruct (endpoint_edits demo_url_Parse demo_config e "web" H He Hb) as (H1 & _ & H2 & _).
  split; [exact H1 | rewrite H2; reflexivity].
Defined.
