(* ===== verification/Program.v ===== *)
(** * Program: programs that may crash

    A program asks for operations one at a time and goes on with their answers;
    what the operations are, and what the environment may do to one of them (an
    event), is an instance of {!Machine}.  A run ends early when the events do:
    the process died there.  A small logic ([safe]) proves that an invariant
    holds at every moment of a program, whatever happens to it. *)

From S2P Require Import Prelude.

(** What an operation answers, and the state it leaves. *)
Class Machine (op : Type -> Type) (event state : Type) := exec : forall R, op R -> event -> state -> R * state.
Arguments exec {op event state _ R} o ev s.

Inductive prog (op : Type -> Type) (A : Type) : Type :=
| Ret (a : A)
| Do {R : Type} (o : op R) (k : R -> prog op A).
Arguments Ret {op A} a.
Arguments Do {op A R} o k.

Section Programs.
Context {op : Type -> Type}.

Fixpoint bind {A B : Type} (p : prog op A) (k : A -> prog op B) : prog op B :=
  match p with
  | Ret a => k a
  | Do o k' => Do o (fun r => bind (k' r) k)
  end.

Definition call {R : Type} (o : op R) : prog op R := Do o Ret.

(** [if err != nil { return err }] after a program. *)
Definition andthen {A B : Type} (p : prog op (result A)) (k : A -> prog op (result B)) : prog op (result B) :=
  bind p (fun r => match r with Ok a => k a | Err e => Ret (Err e) end).

(** [fmt.Errorf("...: %w", err)] around a failure. *)
Definition wrapped {A : Type} (text : string) (p : prog op (result A)) : prog op (result A) :=
  bind p (fun r => Ret (match r with Ok a => Ok a | Err e => Err (ErrWrap text e) end)).
End Programs.

(** ** The operations of a program *)

Section Uses.
Context {op : Type -> Type} (f : forall R, op R -> bool).

(** Every operation [p] may come to is one that [f] allows. *)
Fixpoint uses {A : Type} (p : prog op A) : Prop :=
  match p with
  | Ret _ => True
  | @Do _ _ R o k => f R o = true /\ forall r, uses (k r)
  end.

Lemma uses_bind {A B : Type} (p : prog op A) (k : A -> prog op B) : uses p -> (forall a, uses (k a)) -> uses (bind p k).
Proof. induction p as [a|R o k' IH]; cbn; [auto |]. intros [Ho Hk] H. split; [done |]. intros r. by apply IH. Qed.

Lemma uses_call {R : Type} (o : op R) : f R o = true -> uses (call o).
Proof. intros H. split; [exact H | intros r; exact I]. Qed.
End Uses.

(** Breaks a program into its parts. *)
Ltac uses_parts := repeat match goal with
  | |- uses _ (bind _ _) => apply uses_bind
  | |- uses _ (andthen _ _) => apply uses_bind
  | |- uses _ (wrapped _ _) => apply uses_bind
  | |- uses _ (call _) => apply uses_call; reflexivity
  | |- uses _ (Ret _) => exact I
  | |- forall _, _ => intros ?
  | |- uses _ (match ?x with _ => _ end) => destruct x
  | H : ?P |- ?P => exact H
  end.

Declare Scope state_scope.
Delimit Scope state_scope with state.
Notation "'let*' x ':=' p 'in' k" := (bind p (fun x => k))
  (at level 200, x name, p at level 100, k at level 200, right associativity) : state_scope.
Notation "'let!' x ':=' p 'in' k" := (andthen p (fun x => k))
  (at level 200, x name, p at level 100, k at level 200, right associativity) : state_scope.
Notation "p ';!' k" := (andthen p (fun _ => k)) (at level 200, k at level 200, right associativity) : state_scope.
Open Scope state_scope.

Section Runs.
Context {op : Type -> Type} {event state : Type} `{M : Machine op event state}.

(** Running a program on a list of events; it crashes when the events end. *)
Fixpoint run {A : Type} (events : list event) (p : prog op A) (s : state) {struct p} : state * option A :=
  match p with
  | Ret a => (s, Some a)
  | Do o k =>
    match events with
    | [] => (s, None)
    | ev :: rest => let '(r, s') := exec o ev s in run rest (k r) s'
    end
  end.

(** ** The logic *)

(** A condition on what a program returns when it returns no error. *)
Definition okay {A : Type} (R : A -> state -> Prop) (r : result A) (s : state) : Prop :=
  match r with Ok a => R a s | Err _ => True end.

(** The condition that there was no error, and [Q]. *)
Definition good {A : Type} (Q : A -> state -> Prop) (r : result A) (s : state) : Prop :=
  match r with Ok a => Q a s | Err _ => False end.

(** [P] holds at every moment of [p] from [s] on, and [Q] of what it returns. *)
Fixpoint safe {A : Type} (P : state -> Prop) (Q : A -> state -> Prop) (p : prog op A) (s : state) : Prop :=
  P s /\
  match p with
  | Ret a => Q a s
  | Do o k => forall ev, safe P Q (k (exec o ev s).1) (exec o ev s).2
  end.

Section Logic.
Context (P : state -> Prop).

Lemma safe_now {A : Type} (Q : A -> state -> Prop) p s : safe P Q p s -> P s.
Proof. by destruct p; intros [H _]. Qed.

Lemma safe_ret {A : Type} (Q : A -> state -> Prop) a s : P s -> Q a s -> safe P Q (Ret a) s.
Proof. by split. Qed.

Lemma safe_call {R : Type} (o : op R) (Q : R -> state -> Prop) s :
  P s -> (forall ev, P (exec o ev s).2 /\ Q (exec o ev s).1 (exec o ev s).2) -> safe P Q (call o) s.
Proof. intros Hs H. split; [done |]. intros ev. split; apply H. Qed.

Lemma safe_bind {A B : Type} (Q : A -> state -> Prop) (R : B -> state -> Prop) p k : forall s,
  safe P Q p s -> (forall a s', P s' -> Q a s' -> safe P R (k a) s') -> safe P R (bind p k) s.
Proof.
  induction p as [a|T o k' IH]; intros s [Hs H] Hk; cbn [bind]; [by apply Hk |].
  split; [done |]. intros ev. by apply IH.
Qed.

Lemma safe_then {A B : Type} (Q : A -> state -> Prop) (R : B -> state -> Prop) p k s :
  safe P (okay Q) p s -> (forall a s', P s' -> Q a s' -> safe P (okay R) (k a) s') -> safe P (okay R) (andthen p k) s.
Proof. intros Hp Hk. eapply safe_bind; [exact Hp |]. intros [a|e] s' HP HQ; [by apply Hk | by apply safe_ret]. Qed.

Lemma safe_wrapped {A : Type} (Q : A -> state -> Prop) text p s :
  safe P (okay Q) p s -> safe P (okay Q) (wrapped text p) s.
Proof. intros Hp. eapply safe_bind; [exact Hp |]. intros [a|e] s' HP HQ; by apply safe_ret. Qed.

Lemma safe_err {A : Type} (Q : A -> state -> Prop) e s : P s -> safe P (okay Q) (Ret (Err e)) s.
Proof. by split. Qed.
End Logic.

Lemma safe_mono {A : Type} (P P' : state -> Prop) (Q Q' : A -> state -> Prop) p : forall s,
  safe P Q p s -> (forall s', P s' -> P' s') -> (forall a s', P s' -> Q a s' -> Q' a s') -> safe P' Q' p s.
Proof.
  induction p as [a|T o k IH]; intros s [Hs H] HP HQ; (split; [by apply HP |]); [by apply HQ |].
  intros ev. by apply IH.
Qed.

(** Two invariants may be proved apart. *)
Lemma safe_both {A : Type} (P P' : state -> Prop) (Q Q' : A -> state -> Prop) p : forall s,
  safe P Q p s -> safe P' Q' p s -> safe (fun s => P s /\ P' s) (fun a s => Q a s /\ Q' a s) p s.
Proof.
  induction p as [a|T o k IH]; intros s [Hs H] [Hs' H']; (split; [by split |]); [by split |].
  intros ev. by apply IH.
Qed.

(** An invariant of the operations that a program uses. *)
Lemma safe_uses {A : Type} (f : forall R, op R -> bool) (P : state -> Prop) (p : prog op A) :
  (forall R (o : op R) ev s, f R o = true -> P s -> P (exec o ev s).2) ->
  forall s, uses f p -> P s -> safe P (fun _ s' => P s') p s.
Proof.
  intros Hf. induction p as [a|R o k IH]; intros s Hu Hs; (split; [done |]); [done |].
  destruct Hu as [Ho Hk]. intros ev. apply IH; [apply Hk | by apply Hf].
Qed.

(** What a run leaves, whether it finished or crashed. *)
Lemma safe_run {A : Type} (P : state -> Prop) (Q : A -> state -> Prop) p : forall events s,
  safe P Q p s ->
  let '(s', r) := run events p s in P s' /\ (forall a, r = Some a -> Q a s').
Proof.
  induction p as [a|T o k IH]; intros events s [Hs H]; cbn [run].
  - split; [done |]. by intros a' [= <-].
  - destruct events as [|ev rest]; [by split |]. destruct (exec o ev s) as [r s'] eqn:E.
    specialize (H ev). rewrite E in H. by apply IH.
Qed.
End Runs.
