(* ===== verification/StateFs.v ===== *)
(** * StateFs: the Agent's state directory and programs that may crash

    The file operations that [internal/agent] performs on its state directory,
    its rollback journal and a redirected settings file, as a machine for the
    programs of {!Program}: an operation may fail, a write may stop half way and
    the removal of a directory may leave any of its entries.  The reading of the
    settings pointer is an operation of its own, because a failure of it is not
    reported: [exec_file true] is the machine on which that one operation is
    spared, [exec_file false] the real one, and [sighted] says of a run that it
    met no such failure.  Modes, owners and the durability of completed
    operations are not modelled: [chmod], [fsync] and the like change no contents
    here but may fail. *)

From S2P Require Import Prelude Program.

(** ** The files *)

(** The state directory, the journal inside it, and the directory of a
    settings file kept elsewhere. *)
Inductive place := InState | InJournal | InSettings (dir : string).

#[export] Instance place_eq_dec : EqDecision place.
Proof. solve_decision. Defined.

#[export] Instance place_countable : Countable place.
Proof.
  refine (inj_countable' (fun p => match p with InState => inl true | InJournal => inl false | InSettings dir => inr dir end)
    (fun x => match x with inl true => InState | inl false => InJournal | inr dir => InSettings dir end) _).
  by intros [].
Defined.

Abbreviation path := (place * string)%type.

(** A regular file, a directory, or anything else (a symbolic link, a device). *)
Inductive node := File (data : bytes) | Dir | Special.

#[export] Instance node_eq_dec : EqDecision node.
Proof. solve_decision. Defined.

Abbreviation files := (gmap path node).

Definition os_ErrNotExist : error := ErrSentinel "file does not exist".
Definition os_ErrExist : error := ErrSentinel "file already exists".

Definition maxSettingsFileBytes : Z := 2 ^ 20.

Definition journal_dir : path := (InState, ".state-transaction").
Definition settingsLocation : path := (InState, "settings_location").

(** ** Operations *)

Inductive op : Type -> Type :=
| Lstat (p : path) : op (result node)
| ReadTrusted (p : path) : op (result bytes)          (* [readTrustedStateFile] *)
| ReadPointer : op (option bytes)                     (* [redirectedSettingsPath]'s reading of the pointer *)
| ReadNames (d : place) : op (result (list string))
| MkdirJournal : op (result unit)
| CreateTemp (d : place) (pattern : string) : op (result string)
| OpenExcl (p : path) : op (result unit)
| ReadAll (p : path) : op (result bytes)              (* [os.ReadFile] *)
| OpenTrunc (p : path) : op (result unit)             (* the opening of [os.WriteFile] *)
| Write (p : path) (data : bytes) : op (result unit)  (* at the end of an open file *)
| Rename (d : place) (source target : string) : op (result unit)
| Remove (p : path) : op (result unit)
| RemoveJournal : op (result unit)
| Quiet (call : string) : op (result unit).

(** What the environment does to one operation: whether it fails, how far a
    failing write and a failing removal get, and the name of a temporary file. *)
Record event := MkEvent {
  ev_fails : bool;
  ev_written : nat;
  ev_left : list string;
  ev_name : string;
}.

Definition smooth (name : string) : event := MkEvent false 0 [] name.

Definition io_error {A : Type} : result A := Err (ErrMsg "input/output error").

(** A directory must be there for what happens inside it. *)
Definition there (s : files) (d : place) : bool :=
  match d with InJournal => bool_decide (s !! journal_dir = Some Dir) | _ => true end.

Definition append (s : files) (p : path) (data : bytes) : files :=
  match s !! p with Some (File old) => <[p := File (old ++ data)]> s | _ => s end.

Definition in_journal (p : path) : bool := bool_decide (p.1 = InJournal) || bool_decide (p = journal_dir).

Definition names_in (s : files) (d : place) : list string :=
  (fun x : path * node => x.1.2) <$> filter (fun x => x.1.1 = d) (map_to_list s).

(** What the pointer to the settings file says, if it can be read. *)
Definition pointer (s : files) : option bytes :=
  match s !! settingsLocation with
  | Some (File data) => if maxSettingsFileBytes <? zlen data then None else Some data
  | _ => None
  end.

(** [steady]: no reading of the pointer fails. *)
Definition exec_file (steady : bool) : Machine op event files := fun R o ev s =>
  match o with
  | Lstat p =>
    (if ev_fails ev then io_error else match s !! p with Some n => Ok n | None => Err os_ErrNotExist end, s)
  | ReadTrusted p =>
    (if ev_fails ev then io_error
     else match s !! p with
          | None => Err os_ErrNotExist
          | Some (File data) =>
            if maxSettingsFileBytes <? zlen data then Err (ErrMsg "state file exceeds the byte limit") else Ok data
          | Some _ => Err (ErrMsg "state file is not a regular non-symlink file")
          end, s)
  | ReadPointer => (if negb steady && ev_fails ev then None else pointer s, s)
  | ReadNames d => (if ev_fails ev then io_error else Ok (names_in s d), s)
  | MkdirJournal =>
    if ev_fails ev then (io_error, s)
    else match s !! journal_dir with
         | Some _ => (Err os_ErrExist, s)
         | None => (Ok tt, <[journal_dir := Dir]> s)
         end
  | CreateTemp d pattern =>
    let name := pattern +:+ ev_name ev in
    if ev_fails ev || negb (there s d) || bool_decide (is_Some (s !! (d, name))) then (io_error, s)
    else (Ok name, <[(d, name) := File []]> s)
  | OpenExcl p =>
    if ev_fails ev || negb (there s p.1) then (io_error, s)
    else match s !! p with
         | Some _ => (Err os_ErrExist, s)
         | None => (Ok tt, <[p := File []]> s)
         end
  | ReadAll p =>
    (if ev_fails ev then io_error
     else match s !! p with
          | None => Err os_ErrNotExist
          | Some (File data) => Ok data
          | Some _ => Err (ErrMsg "not a file")
          end, s)
  | OpenTrunc p =>
    if ev_fails ev || negb (there s p.1) then (io_error, s)
    else match s !! p with
         | None | Some (File _) => (Ok tt, <[p := File []]> s)
         | Some _ => (Err (ErrMsg "not a file"), s)
         end
  | Write p data =>
    if ev_fails ev then (io_error, append s p (firstn (ev_written ev) data)) else (Ok tt, append s p data)
  | Rename d a b =>
    if ev_fails ev then (io_error, s)
    else match s !! (d, a) with
         | None => (Err os_ErrNotExist, s)
         | Some n => (Ok tt, delete (d, a) (<[(d, b) := n]> s))
         end
  | Remove p =>
    if ev_fails ev then (io_error, s)
    else match s !! p with None => (Err os_ErrNotExist, s) | Some _ => (Ok tt, delete p s) end
  | RemoveJournal =>
    if ev_fails ev
    then (io_error, filter (fun x : path * node => x.1.1 <> InJournal \/ x.1.2 ∈ ev_left ev) s)
    else (Ok tt, filter (fun x : path * node => in_journal x.1 = false) s)
  | Quiet _ => (if ev_fails ev then io_error else Ok tt, s)
  end.

#[export] Hint Extern 1 (Machine op _ _) => exact (exec_file false) : typeclass_instances.

(** ** Programs *)

Abbreviation prog := (Program.prog op).

(** [defer os.Remove(p)]. *)
Definition deferring_remove {A : Type} (p : path) (body : prog A) : prog A :=
  let* r := body in let* _ := call (Remove p) in Ret r.

Section Logic.
Context {steady : bool} (P : files -> Prop).
#[local] Hint Extern 0 (Machine op _ _) => exact (exec_file steady) : typeclass_instances.

(** Operations that change nothing. *)
Lemma safe_quiet c s : P s -> safe P (okay (fun _ s' => s' = s)) (call (Quiet c)) s.
Proof. intros Hs. apply safe_call; [done |]. intros ev. cbn. split; [done |]. by destruct (ev_fails ev). Qed.

Lemma safe_quiet_end (Q : unit -> files -> Prop) c s : P s -> Q tt s -> safe P (okay Q) (call (Quiet c)) s.
Proof. intros Hs HQ. apply safe_call; [done |]. intros ev. cbn. split; [done |]. by destruct (ev_fails ev). Qed.

Lemma safe_read p s :
  P s -> safe P (fun r s' => s' = s /\ (forall data, r = Ok data -> s !! p = Some (File data) /\ zlen data <= maxSettingsFileBytes) /\
    (forall e, r = Err e -> errors_is e os_ErrNotExist = true -> s !! p = None)) (call (ReadTrusted p)) s.
Proof.
  intros Hs. apply safe_call; [done |]. intros ev. cbn. split; [done |]. split; [done |]. unfold io_error.
  destruct (ev_fails ev); [by split; [| intros e [= <-]] |].
  destruct (s !! p) as [[data| |]|]; try (by split; [| intros e [= <-]]).
  destruct (_ <? _) eqn:E; (split; [| intros e [=]; try subst e; done]); [done |]. intros d [= <-]. apply Z.ltb_ge in E. done.
Qed.

Lemma safe_lstat p s :
  P s -> safe P (fun r s' => s' = s /\ (forall n, r = Ok n -> s !! p = Some n) /\
    (forall e, r = Err e -> errors_is e os_ErrNotExist = true -> s !! p = None)) (call (Lstat p)) s.
Proof.
  intros Hs. apply safe_call; [done |]. intros ev. cbn. split; [done |]. split; [done |]. unfold io_error.
  destruct (ev_fails ev); [by split; [| intros e [= <-]] |].
  destruct (s !! p) as [n|]; (split; [by intros ? [= <-] | by intros e [= <-]]).
Qed.

Lemma safe_deferring {A : Type} (Q : A -> files -> Prop) p body s :
  safe P (okay Q) body s -> (forall s', P s' -> P (delete p s')) -> (forall a s', Q a s' -> Q a (delete p s')) ->
  safe P (okay Q) (deferring_remove p body) s.
Proof.
  intros Hb HP HQ. eapply safe_bind; [exact Hb |]. intros r s' Hs Hr.
  split; [done |]. intros ev. cbn. destruct (ev_fails ev); cbn; [by split |].
  destruct (s' !! p); cbn; (split; [auto |]); [| done]. destruct r; [by apply HQ | done].
Qed.
End Logic.

(** ** Programs left in peace

    [works Q p s]: when no operation fails, [p] ends with [Q]. *)

Definition lucky {R : Type} (o : op R) (ev : event) (s : files) : Prop :=
  ev_fails ev = false /\ match o with CreateTemp d pattern => s !! (d, pattern +:+ ev_name ev) = None | _ => True end.

Fixpoint works {A : Type} (Q : A -> files -> Prop) (p : prog A) (s : files) : Prop :=
  match p with
  | Ret a => Q a s
  | Do o k => forall ev, lucky o ev s -> works Q (k (exec o ev s).1) (exec o ev s).2
  end.

Lemma works_bind {A B : Type} (Q : A -> files -> Prop) (R : B -> files -> Prop) p k : forall s,
  works Q p s -> (forall a s', Q a s' -> works R (k a) s') -> works R (bind p k) s.
Proof.
  induction p as [a|T o k' IH]; intros s H Hk; cbn [bind]; [by apply Hk |].
  intros ev Hl. apply IH; [by apply H | done].
Qed.

Lemma works_then {A B : Type} (Q : A -> files -> Prop) (R : B -> files -> Prop) p k s :
  works (good Q) p s -> (forall a s', Q a s' -> works (good R) (k a) s') -> works (good R) (andthen p k) s.
Proof. intros Hp Hk. eapply works_bind; [exact Hp |]. intros [a|e] s' HQ; [by apply Hk | done]. Qed.

Lemma works_wrapped {A : Type} (Q : A -> files -> Prop) text p s : works (good Q) p s -> works (good Q) (wrapped text p) s.
Proof. intros Hp. eapply works_bind; [exact Hp |]. by intros [a|e] s' HQ. Qed.

Lemma works_mono {A : Type} (Q Q' : A -> files -> Prop) p : forall s,
  works Q p s -> (forall a s', Q a s' -> Q' a s') -> works Q' p s.
Proof. induction p as [a|T o k IH]; intros s H HQ; [by apply HQ |]. intros ev Hl. apply IH; [by apply H | done]. Qed.

Lemma works_quiet (Q : unit -> files -> Prop) c s : Q tt s -> works (good Q) (call (Quiet c)) s.
Proof. intros HQ ev [Hl _]. cbn. by rewrite Hl. Qed.

Lemma works_read (p : path) (data : bytes) (s : files) (Q : bytes -> files -> Prop) :
  s !! p = Some (File data) -> zlen data <= maxSettingsFileBytes -> Q data s -> works (good Q) (call (ReadTrusted p)) s.
Proof. intros Hp Hs HQ ev [Hl _]. cbn. rewrite Hl, Hp. by rewrite (proj2 (Z.ltb_ge _ _)). Qed.

Lemma fresh_name (s : files) : exists n : string, forall d pattern, s !! (d, pattern +:+ n) = None.
Proof.
  assert (Hlen : exists m, forall p node, s !! p = Some node -> (String.length p.2 < m)%nat).
  { induction s as [|p n s Hn [m IH]] using map_ind; [exists 0%nat; intros p n H; by rewrite lookup_empty in H |].
    exists (S (Nat.max m (String.length p.2))). intros q n' H. destruct (decide (p = q)) as [<-|Hpq]; [lia |].
    rewrite lookup_insert_ne in H by done. specialize (IH _ _ H). lia. }
  destruct Hlen as [m Hm]. exists (string_of (repeat "x"%byte m)). intros d pattern.
  destruct (s !! (d, _)) as [n|] eqn:E; [| done]. specialize (Hm _ _ E). cbn in Hm. exfalso.
  assert (H1 : forall a b, String.length (a +:+ b) = (String.length a + String.length b)%nat).
  { induction a as [|c a IH]; intros b; [done |]. change (S (String.length (a +:+ b)) = S (String.length a + String.length b)%nat). by rewrite IH. }
  assert (H2 : String.length (string_of (repeat "x"%byte m)) = m).
  { clear. induction m as [|m IH]; [done |]. change (S (String.length (string_of (repeat "x"%byte m))) = S m). by rewrite IH. }
  rewrite H1, H2 in Hm. lia.
Qed.

Lemma works_run {A : Type} (Q : A -> files -> Prop) p : forall s,
  works Q p s -> exists events s' a, run events p s = (s', Some a) /\ Q a s'.
Proof.
  induction p as [a|T o k IH]; intros s H; [by exists [], s, a |].
  destruct (fresh_name s) as [n Hn]. assert (Hl : lucky o (smooth n) s) by (split; [done | by destruct o]).
  destruct (IH _ _ (H _ Hl)) as (events & s' & a & Hr & HQ). exists (smooth n :: events), s', a. cbn [run].
  destruct (exec o (smooth n) s) as [r s1]. by split.
Qed.

(** ** Runs in which the pointer was read

    The source drops the error of a failing reading of the pointer and goes on
    as if there was none. *)

Definition spared {R : Type} (o : op R) (ev : event) (s : files) : bool :=
  match o with
  | ReadPointer => negb (ev_fails ev) || bool_decide (pointer s = None)
  | _ => true
  end.

Fixpoint sighted {A : Type} (events : list event) (p : prog A) (s : files) {struct p} : bool :=
  match p with
  | Ret _ => true
  | Do o k =>
    match events with
    | [] => true
    | ev :: rest => spared o ev s && let '(r, s') := exec o ev s in sighted rest (k r) s'
    end
  end.

Lemma spared_exec {R : Type} (o : op R) ev s : spared o ev s = true -> exec o ev s = exec (Machine := exec_file true) o ev s.
Proof.
  destruct o; try done. cbn. destruct (ev_fails ev); [| done]. intros H. by rewrite (bool_decide_eq_true_1 _ H).
Qed.

Lemma sighted_run {A : Type} (p : prog A) : forall events s,
  sighted events p s = true -> run events p s = run (M := exec_file true) events p s.
Proof.
  induction p as [a|R o k IH]; intros events s H; [done |]. destruct events as [|ev rest]; [done |]. cbn [sighted run] in H |- *.
  apply andb_true_iff in H as [Ho H]. rewrite <- (spared_exec o ev s Ho). destruct (exec o ev s) as [r s']. by apply IH.
Qed.
