(* ===== verification/StateTxn.v ===== *)
(** * StateTxn: mutations of the Agent's state, and crashes

    [internal/agent/state_transaction.go], with the file helpers it rests on
    ([files.go], [state_file_unix.go], [secrets.go], [secrets_unix.go] and the
    saving half of [config.go]): settings and secrets change together, under a
    rollback journal.  A mutation takes backups, publishes a manifest, changes
    the files, and removes the journal; whoever takes the lock next rolls an
    abandoned journal back; and readers refuse to read while there is one.
    Every function is a program of {!StateFs}, which may crash anywhere.
    Decoding and encoding the settings file, entropy and Ed25519 are parameters. *)

From Stdlib Require Import Ascii.
From S2P Require Import Prelude GoText GoDuration Json StrictJson JsonMarshal Contract AgentLimits AgentTarget AgentStream AgentConfig Program StateFs.

(** ** Names *)

Definition stateMarker : path := (InState, ".hooshix-agent-state").
Definition stateMarkerContents : bytes := bytes_of "hooshix-agent-state-v1" ++ [Byte.x0a].
Definition secretPath : path := (InState, "secrets.json").

(** The platform's [path/filepath], and the path of the state directory. *)
Record Home := MkHome {
  hm_dir : string;
  hm_windows : bool;
  hm_IsAbs : string -> bool;
  hm_Base : string -> string;
  hm_Dir : string -> string;
  hm_Clean : string -> string;
}.

Definition samePath (home : Home) (left right : string) : bool :=
  if hm_windows home then folded_eqb left right else String.eqb left right.

(** [redirectedSettingsPath] after the reading of the pointer: the directory that
    it names. *)
Definition redirectedSettingsPath (home : Home) (data : bytes) : option string :=
  let target := string_of (TrimSpace data) in
  if String.eqb target EmptyString || negb (hm_IsAbs home target) || negb (String.eqb (hm_Base home target) "config.json") then None
  else
    let target := hm_Clean home target in
    if samePath home (hm_Dir home target) (hm_Clean home (hm_dir home)) then None else Some (hm_Dir home target).

(** The settings file, in the directory that the pointer names or in the state
    directory. *)
Definition settings_path (moved : option string) : path :=
  (match moved with Some dir => InSettings dir | None => InState end, "config.json").

(** The reading of the pointer and the validation of the directory it names are
    one operation; the error of either is dropped. *)
Definition ConfigPath (home : Home) : prog path :=
  let* data := call ReadPointer in
  Ret (settings_path (match data with Some data => redirectedSettingsPath home data | None => None end)).

Definition manifestPath : path := (InJournal, "manifest.json").
Definition configBackup : path := (InJournal, "config.before").
Definition secretBackup : path := (InJournal, "secret.before").

Definition ErrStateTransactionPending : error := ErrSentinel "Agent state transaction recovery required".

(** ** The state directory *)

Definition temp_pattern : string := ".tmp-hooshix-".

Definition known_name (name : string) : bool :=
  bool_decide (name ∈ [".config.lock"; "config.json"; "settings_location"; "secrets.json"; "secrets.dpapi"; "status.json";
                       "pairing.capability"; "pairing.endpoint.json"; "token.txt"]) || String.prefix temp_pattern name.

(** [fuel]: the retries after losing the race to create the marker. *)
Fixpoint ensureStateMarker (fuel : nat) : prog (result unit) :=
  let* data := call (ReadTrusted stateMarker) in
  match data with
  | Ok data =>
    Ret (if bool_decide (data = stateMarkerContents) then Ok tt else Err (ErrMsg "Agent state marker contents are invalid"))
  | Err err =>
    if negb (errors_is err os_ErrNotExist) then Ret (Err (ErrWrap "read Agent state marker" err))
    else
      let! names := wrapped "inspect Agent state directory ownership" (call (ReadNames InState)) in
      if negb (forallb known_name names) then Ret (Err (ErrMsg "refusing unowned non-empty Agent state directory"))
      else
        let* opened := call (OpenExcl stateMarker) in
        match opened with
        | Err err =>
          match fuel with
          | S fuel => if errors_is err os_ErrExist then ensureStateMarker fuel
                      else Ret (Err (ErrWrap "create Agent state marker" err))
          | O => Ret (Err (ErrWrap "create Agent state marker" err))
          end
        | Ok _ =>
          wrapped "write Agent state marker" (call (Write stateMarker stateMarkerContents)) ;!
          wrapped "sync Agent state marker" (call (Quiet "fsync")) ;!
          wrapped "close Agent state marker" (call (Quiet "close"))
        end
  end.

Definition ensurePrivateDir : prog (result unit) :=
  wrapped "validate private state directory" (call (Quiet "lstat")) ;!
  wrapped "create private state directory" (call (Quiet "mkdir")) ;!
  wrapped "validate created private state directory" (call (Quiet "lstat")) ;!
  wrapped "protect private state directory" (call (Quiet "chmod")) ;!
  ensureStateMarker 1.

Definition inspectPrivateDir : prog (result unit) :=
  wrapped "inspect private state directory" (call (Quiet "lstat")) ;!
  let* marker := call (ReadTrusted stateMarker) in
  Ret (match marker with
       | Err err => if errors_is err os_ErrNotExist then Err (ErrMsg "Agent state marker is missing")
                    else Err (ErrWrap "read Agent state marker" err)
       | Ok marker => if bool_decide (marker = stateMarkerContents) then Ok tt
                      else Err (ErrMsg "Agent state marker contents are invalid")
       end).

(** ** Replacing a file *)

Definition protectPrivateStateFile (p : path) : prog (result unit) :=
  call (Quiet "chmod") ;! let! _ := call (ReadTrusted p) in Ret (Ok tt).

(** Fill a fresh temporary file and rename it over [name]. *)
Definition replace_file (d : place) (pattern name : string) (data : bytes) (after : prog (result unit)) : prog (result unit) :=
  let! tmp := wrapped "create temp file" (call (CreateTemp d pattern)) in
  deferring_remove (d, tmp)
    (wrapped "chmod temp file" (call (Quiet "chmod")) ;!
     wrapped "write temp file" (call (Write (d, tmp) data)) ;!
     wrapped "sync temp file" (call (Quiet "fsync")) ;!
     wrapped "close temp file" (call (Quiet "close")) ;!
     wrapped "replace file" (call (Rename d tmp name)) ;!
     after).

Definition writePrivateFile (name : string) (data : bytes) : prog (result unit) :=
  ensurePrivateDir ;!
  let* old := call (ReadTrusted (InState, name)) in
  match old with
  | Err err =>
    if negb (errors_is err os_ErrNotExist) then Ret (Err (ErrWrap "inspect private file" err))
    else replace_file InState temp_pattern name data
           (wrapped "sync private state directory" (call (Quiet "fsync")) ;!
            wrapped "protect private file" (protectPrivateStateFile (InState, name)))
  | Ok _ =>
    replace_file InState temp_pattern name data
      (wrapped "sync private state directory" (call (Quiet "fsync")) ;!
       wrapped "protect private file" (protectPrivateStateFile (InState, name)))
  end.

Definition writeSettingsOutsideState (d : place) (name : string) (data : bytes) : prog (result unit) :=
  if maxSettingsFileBytes <? zlen data then Ret (Err (ErrMsg "settings file exceeds the byte limit"))
  else
    wrapped "settings directory is unavailable" (call (Quiet "stat")) ;!
    let* existing := call (Lstat (d, name)) in
    let write := replace_file d (temp_pattern +:+ "settings-") name data
                   (wrapped "sync settings directory" (call (Quiet "fsync"))) in
    match existing with
    | Ok (File _) => write
    | Ok _ => Ret (Err (ErrMsg "refusing to replace a non-regular settings file"))
    | Err err => if errors_is err os_ErrNotExist then write else Ret (Err (ErrWrap "inspect settings file" err))
    end.

Definition writeStateFile (destination : path) (data : bytes) : prog (result unit) :=
  match destination.1 with
  | InState => writePrivateFile destination.2 data
  | d => writeSettingsOutsideState d destination.2 data
  end.

(** ** The journal *)

Record stateTransactionManifest := MkTxnManifest { tm_Version : Z; tm_ConfigExists : bool; tm_SecretExists : bool }.

Definition stateTransactionVersion : Z := 1.

Definition stateTransactionManifest_schema : schema :=
  [("version", KInt); ("config_exists", KBool); ("secret_exists", KBool)].

Definition stateTransactionManifest_of (m : gmap string field_val) : stateTransactionManifest :=
  MkTxnManifest (get_int m "version") (get_bool m "config_exists") (get_bool m "secret_exists").

Definition manifest_bytes (m : stateTransactionManifest) : bytes :=
  marshal_object [("version", MInt (tm_Version m)); ("config_exists", MBool (tm_ConfigExists m));
                  ("secret_exists", MBool (tm_SecretExists m))] ++ [Byte.x0a].

Definition ensureStateReadable : prog (result unit) :=
  let* info := call (Lstat journal_dir) in
  Ret (match info with
       | Err err => if errors_is err os_ErrNotExist then Ok tt else Err (ErrWrap "inspect Agent state transaction" err)
       | Ok Dir => Err (ErrWrap "run init/configure/expose to recover the interrupted mutation" ErrStateTransactionPending)
       | Ok _ => Err (ErrMsg "Agent state transaction path must be a real directory")
       end).

Definition writeExclusivePrivateFile (p : path) (data : bytes) : prog (result unit) :=
  call (OpenExcl p) ;! call (Write p data) ;! call (Quiet "fsync") ;! call (Quiet "close").

Definition snapshotStateFile (source backup : path) : prog (result bool) :=
  let* data := call (ReadTrusted source) in
  match data with
  | Err err => Ret (if errors_is err os_ErrNotExist then Ok false else Err (ErrWrap "snapshot state file" err))
  | Ok data =>
    wrapped "write state transaction backup" (writeExclusivePrivateFile backup data) ;! Ret (Ok true)
  end.

Definition restoreStateFile (destination backup : path) (existed : bool) : prog (result unit) :=
  if negb existed then
    let* info := call (Lstat destination) in
    match info with
    | Err err => Ret (if errors_is err os_ErrNotExist then Ok tt else Err err)
    | Ok (File _) => call (Remove destination)
    | Ok _ => Ret (Err (ErrMsg "refusing to remove unsafe state file during rollback"))
    end
  else let! data := call (ReadTrusted backup) in writeStateFile destination data.

Definition writeTransactionFileAtomic (name : string) (data : bytes) : prog (result unit) :=
  replace_file InJournal ".manifest-" name data (Ret (Ok tt)).

Section Transactions.
Context (home : Home).

(** The body of [beginStateTransaction], up to [prepared = true]. *)
Definition prepare : prog (result unit) :=
  let* path := ConfigPath home in
  let! configExists := snapshotStateFile path configBackup in
  let! secretExists := snapshotStateFile secretPath secretBackup in
  let manifest := manifest_bytes (MkTxnManifest stateTransactionVersion configExists secretExists) in
  writeTransactionFileAtomic "manifest.json" manifest ;!
  wrapped "sync Agent state transaction" (call (Quiet "fsync")) ;!
  wrapped "publish Agent state transaction" (call (Quiet "fsync")).

Definition beginStateTransaction : prog (result unit) :=
  let* info := call (Lstat journal_dir) in
  match info with
  | Ok _ => Ret (Err ErrStateTransactionPending)
  | Err err =>
    if negb (errors_is err os_ErrNotExist) then Ret (Err (ErrWrap "inspect Agent state transaction" err))
    else
      wrapped "create Agent state transaction" (call MkdirJournal) ;!
      let* prepared := prepare in
      match prepared with
      | Ok _ => Ret (Ok tt)
      | Err err => let* _ := call RemoveJournal in Ret (Err err)
      end
  end.

Definition commit : prog (result unit) :=
  wrapped "sync Agent state before transaction commit" (call (Quiet "fsync")) ;!
  wrapped "commit Agent state transaction" (call RemoveJournal) ;!
  wrapped "sync Agent state transaction commit" (call (Quiet "fsync")).

Definition recoverStateTransaction : prog (result unit) :=
  let* info := call (Lstat journal_dir) in
  match info with
  | Err err => Ret (if errors_is err os_ErrNotExist then Ok tt else Err (ErrWrap "inspect Agent state transaction" err))
  | Ok Dir =>
    let* data := call (ReadTrusted manifestPath) in
    match data with
    | Err err =>
      if errors_is err os_ErrNotExist then
        wrapped "remove incomplete Agent state transaction" (call RemoveJournal) ;! call (Quiet "fsync")
      else Ret (Err (ErrWrap "read Agent state transaction manifest" err))
    | Ok data =>
      match json_unmarshal stateTransactionManifest_schema data with
      | Err _ => Ret (Err (ErrMsg "Agent state transaction manifest is invalid"))
      | Ok fields =>
        let manifest := stateTransactionManifest_of fields in
        if negb (tm_Version manifest =? stateTransactionVersion)
        then Ret (Err (ErrMsg "Agent state transaction manifest is invalid"))
        else
          wrapped "restore config from Agent state transaction" (let* path := ConfigPath home in restoreStateFile path configBackup (tm_ConfigExists manifest)) ;!
          wrapped "restore secrets from Agent state transaction" (restoreStateFile secretPath secretBackup (tm_SecretExists manifest)) ;!
          wrapped "sync recovered Agent state" (call (Quiet "fsync")) ;!
          wrapped "remove recovered Agent state transaction" (call RemoveJournal) ;!
          call (Quiet "fsync")
      end
    end
  | Ok _ => Ret (Err (ErrMsg "Agent state transaction path must be a real directory"))
  end.

Definition rollback : prog (result unit) := recoverStateTransaction.

(** The operation's result is what it left in the variables of its caller. *)
Definition runStateTransaction {A : Type} (operation : prog (result A)) : prog (result A) :=
  beginStateTransaction ;!
  let* outcome := operation in
  match outcome with
  | Ok a => commit ;! Ret (Ok a)
  | Err err =>
    let* rolled := rollback in
    Ret (match rolled with
         | Ok _ => Err err
         | Err rollbackErr => Err (ErrWrap2 EmptyString err (ErrWrap "rollback Agent state transaction" rollbackErr))
         end)
  end.

(** [withConfigLock] while it holds the lock. *)
Definition locked {A : Type} (operation : prog (result A)) : prog (result A) :=
  recoverStateTransaction ;! operation.

Definition RecoverState : prog (result unit) := locked (Ret (Ok tt)).
End Transactions.

(** ** Replacing a file, with crashes *)

(** Only scratch files and [dest] change, and [dest] from what it was to
    [target]. *)
Definition only (T : path -> Prop) (dest : path) (target : option node) (s0 s : files) : Prop :=
  (forall p, ~ T p -> p <> dest -> s !! p = s0 !! p) /\ (s !! dest = s0 !! dest \/ s !! dest = target).

Lemma only_refl T dest target s : only T dest target s s.
Proof. split; [done | by left]. Qed.

Lemma only_scratch T dest target s0 s p n :
  T p -> ~ T dest -> only T dest target s0 s -> only T dest target s0 (<[p := n]> s).
Proof.
  intros Hp Hd [H1 H2]. split.
  - intros q Hq Hn. rewrite lookup_insert_ne by congruence. by apply H1.
  - by rewrite lookup_insert_ne by congruence.
Qed.

Lemma only_delete T dest target s0 s p : T p -> ~ T dest -> only T dest target s0 s -> only T dest target s0 (delete p s).
Proof.
  intros Hp Hd [H1 H2]. split.
  - intros q Hq Hn. rewrite lookup_delete_ne by congruence. by apply H1.
  - by rewrite lookup_delete_ne by congruence.
Qed.

Lemma only_append T dest target s0 s p data :
  T p -> ~ T dest -> only T dest target s0 s -> only T dest target s0 (append s p data).
Proof. intros Hp Hd H. unfold append. destruct (s !! p) as [[]|]; try done. by apply only_scratch. Qed.

Section Replace.
Context {steady : bool}.
#[local] Hint Extern 0 (Machine op _ _) => exact (exec_file steady) : typeclass_instances.
Context (T : path -> Prop) (d : place) (pattern name : string) (data : bytes) (s0 : files).
Context (HT : forall n, T (d, pattern +:+ n)) (Hd : ~ T (d, name)).
Abbreviation P := (only T (d, name) (Some (File data)) s0).

Lemma write_temp s tmp :
  T (d, tmp) -> P s -> s !! (d, tmp) = Some (File []) ->
  safe P (okay (fun _ s' => s' !! (d, tmp) = Some (File data))) (call (Write (d, tmp) data)) s.
Proof using All.
  intros Ht Hs Hf. apply safe_call; [done |]. intros ev. cbn. destruct (ev_fails ev); cbn.
  - split; [by apply only_append | done].
  - split; [by apply only_append |]. unfold append. rewrite Hf. apply lookup_insert_eq.
Qed.

Lemma rename_temp s tmp :
  T (d, tmp) -> P s -> s !! (d, tmp) = Some (File data) ->
  safe P (okay (fun _ s' => s' !! (d, name) = Some (File data))) (call (Rename d tmp name)) s.
Proof using All.
  intros Ht Hs Hf. apply safe_call; [done |]. intros ev. cbn. destruct (ev_fails ev); [done |]. rewrite Hf. cbn.
  assert (Hn : (d, tmp) <> (d, name)) by congruence. destruct Hs as [H1 H2].
  assert (E : delete (d, tmp) (<[(d, name) := File data]> s) !! (d, name) = Some (File data))
    by (rewrite lookup_delete_ne by congruence; apply lookup_insert_eq).
  split; [| done]. split; [| by right]. intros p Hp Hpn.
  rewrite lookup_delete_ne, lookup_insert_ne by congruence. by apply H1.
Qed.

Lemma replace_file_safe after s :
  P s -> (forall s', P s' -> s' !! (d, name) = Some (File data) -> safe P (okay (fun _ s'' => s'' = s')) after s') ->
  safe P (okay (fun _ s' => s' !! (d, name) = Some (File data))) (replace_file d pattern name data after) s.
Proof using All.
  intros Hs Hafter. unfold replace_file.
  apply safe_then with (Q := fun tmp s' => T (d, tmp) /\ s' !! (d, tmp) = Some (File [])).
  { apply safe_wrapped, safe_call; [done |]. intros ev. cbn. destruct (_ || _); [done |]. cbn.
    split; [by apply only_scratch |]. split; [done |]. apply lookup_insert_eq. }
  intros tmp s1 H1 [Ht Hf].
  apply safe_deferring; [| by intros s' Hs'; apply only_delete | intros _ s' Hn; rewrite lookup_delete_ne by congruence; exact Hn].
  eapply safe_then; [by apply safe_wrapped, safe_quiet |]. intros _ s2 _ ->.
  eapply safe_then; [by apply safe_wrapped, write_temp |]. intros u3 s3 H3 Hw. cbv beta in Hw.
  eapply safe_then; [by apply safe_wrapped, safe_quiet |]. intros _ s4 _ ->.
  eapply safe_then; [by apply safe_wrapped, safe_quiet |]. intros _ s5 _ ->.
  eapply safe_then; [by apply safe_wrapped, rename_temp |]. intros u6 s6 H6 Hr. cbv beta in Hr.
  eapply safe_mono; [by apply Hafter | done |]. intros [u|e] s' _ H; [| done]. cbn in H |- *. by subst s'.
Qed.
End Replace.

Section Files.
Context {steady : bool}.
#[local] Hint Extern 0 (Machine op _ _) => exact (exec_file steady) : typeclass_instances.

(** The scratch files of the state directory and of the settings directory. *)
Definition scratch (p : path) : Prop := p = stateMarker \/ exists d n, d <> InJournal /\ p = (d, temp_pattern +:+ n).

Lemma marker_safe (P : files -> Prop) : forall fuel s,
  P s -> (forall s n, P s -> P (<[stateMarker := n]> s)) -> safe P (okay (fun _ _ => True)) (ensureStateMarker fuel) s.
Proof.
  induction fuel as [|fuel IH]; intros s Hs HP; cbn [ensureStateMarker];
    (eapply safe_bind; [by apply safe_read |]; intros [data|err] s1 H1 (-> & _ & _);
     [by apply safe_ret; [| destruct (bool_decide _)] |]; destruct (negb _); [by apply safe_err |];
     eapply (safe_then _ (fun _ _ => True)); [by apply safe_wrapped, safe_call; [| intros ev; cbn; split; [| by destruct (ev_fails ev)]] |];
     intros names s2 H2 _; destruct (negb _); [by apply safe_err |];
     eapply (safe_bind _ (fun _ _ => True)); [apply safe_call; [done |]; intros ev; cbn; split; [| done];
       destruct (_ || _); [done |]; destruct (s2 !! stateMarker); cbn; auto |];
     intros [u|e] s3 H3 _; [| try (destruct (errors_is _ _); [by apply IH |]); by apply safe_err];
     eapply (safe_then _ (fun _ _ => True)); [apply safe_wrapped, safe_call; [done |]; intros ev; cbn;
       unfold append; destruct (ev_fails ev), (s3 !! stateMarker) as [[]|]; cbn; auto |];
     intros _ s4 H4 _; eapply (safe_then _ (fun _ s' => s' = s4)); [by apply safe_wrapped, safe_quiet |];
     intros _ s5 _ ->; eapply safe_mono; [by apply safe_wrapped, safe_quiet | done | by intros []]).
Qed.

Lemma temp_scratch d n : d <> InJournal -> scratch (d, temp_pattern +:+ n).
Proof. intros Hd. right. by exists d, n. Qed.

Lemma temp_not_named (d x : place) (n : string) : (d, temp_pattern +:+ n) <> (x, "config.json") /\ (d, temp_pattern +:+ n) <> (x, "secrets.json").
Proof. split; by intros [= _ H]. Qed.

Lemma config_not_scratch moved : ~ scratch (settings_path moved).
Proof. intros [H|(d & n & _ & H)]; [by destruct moved |]. by destruct (temp_not_named d (settings_path moved).1 n) as [Hn _]. Qed.

Lemma secret_not_scratch : ~ scratch secretPath.
Proof. intros [H|(d & n & _ & H)]; [done |]. by destruct (temp_not_named d InState n) as [_ Hn]. Qed.

Lemma private_dir_safe (P : files -> Prop) s :
  P s -> (forall s n, P s -> P (<[stateMarker := n]> s)) -> safe P (okay (fun _ _ => True)) ensurePrivateDir s.
Proof.
  intros Hs HP. unfold ensurePrivateDir.
  do 4 (eapply safe_then; [by apply safe_wrapped, safe_quiet |]; intros _ ? _ ->). by apply marker_safe.
Qed.

Lemma protect_safe (P : files -> Prop) p s :
  P s -> safe P (okay (fun _ s' => s' = s))
    (wrapped "sync private state directory" (call (Quiet "fsync")) ;! wrapped "protect private file" (protectPrivateStateFile p)) s.
Proof.
  intros Hs. eapply safe_then; [by apply safe_wrapped, safe_quiet |]. intros _ ? _ ->.
  apply safe_wrapped. eapply safe_then; [by apply safe_quiet |]. intros _ ? _ ->.
  eapply (safe_then _ (fun _ s' => s' = s)); [| intros ? ? ? ->; by apply safe_ret].
  eapply safe_mono; [by apply safe_read | done |]. by intros [] ? _ (-> & _).
Qed.

(** Replacing a file of the state directory: at every moment it is whole, the
    old or the new one, and nothing else but scratch files has changed. *)
Lemma writePrivateFile_safe name data s0 :
  ~ scratch (InState, name) ->
  safe (only scratch (InState, name) (Some (File data)) s0) (okay (fun _ s' => s' !! (InState, name) = Some (File data)))
    (writePrivateFile name data) s0.
Proof.
  intros Hns. unfold writePrivateFile. eapply safe_then.
  { apply private_dir_safe; [apply only_refl |]. intros s n. apply only_scratch; [by left | done]. }
  intros _ s1 H1 _. eapply safe_bind; [by apply safe_read |]. intros old s2 _ (-> & _ & _).
  assert (Hr : safe (only scratch (InState, name) (Some (File data)) s0) (okay (fun _ s' => s' !! (InState, name) = Some (File data)))
    (replace_file InState temp_pattern name data (wrapped "sync private state directory" (call (Quiet "fsync")) ;!
       wrapped "protect private file" (protectPrivateStateFile (InState, name)))) s1).
  { apply replace_file_safe; [intros n; by apply temp_scratch | done | done |]. intros s' Hs' _. by apply protect_safe. }
  destruct old; [done |]. destruct (negb _); [by apply safe_err | done].
Qed.

(** Writing one of the two state files. *)
Lemma writeStateFile_safe dest data s0 :
  dest = secretPath \/ (exists moved, dest = settings_path moved) ->
  safe (only scratch dest (Some (File data)) s0) (okay (fun _ s' => s' !! dest = Some (File data))) (writeStateFile dest data) s0.
Proof.
  intros Hd. assert (Hns : ~ scratch dest) by (destruct Hd as [->|[moved ->]]; [apply secret_not_scratch | apply config_not_scratch]).
  assert (Hp : dest.1 = InState \/ exists dir, dest.1 = InSettings dir) by (destruct Hd as [->|[[dir|] ->]]; eauto).
  destruct dest as [d name]. cbn [fst snd] in Hp. unfold writeStateFile. cbn [fst snd]. destruct Hp as [-> |[dir ->]].
  - by apply writePrivateFile_safe.
  - unfold writeSettingsOutsideState. destruct (_ <? _); [apply safe_err, only_refl |].
    eapply safe_then; [apply safe_wrapped, safe_quiet, only_refl |]. intros _ ? H1 ->.
    eapply safe_bind; [by apply safe_lstat |]. intros existing s2 _ (-> & _ & _). cbv zeta.
    assert (Hr : safe (only scratch (InSettings dir, name) (Some (File data)) s0) (okay (fun _ s' => s' !! (InSettings dir, name) = Some (File data)))
      (replace_file (InSettings dir) (temp_pattern +:+ "settings-") name data (wrapped "sync settings directory" (call (Quiet "fsync")))) s0).
    { apply replace_file_safe; [intros n; by apply (temp_scratch (InSettings dir) ("settings-" +:+ n)) | done | done |].
      intros s' Hs' _. by apply safe_wrapped, safe_quiet. }
    destruct existing as [[]|]; try done; try by apply safe_err. destruct (errors_is _ _); [done | by apply safe_err].
Qed.

(** Putting a backup back. *)
Lemma restore_safe dest backup existed target s0 :
  dest = secretPath \/ (exists moved, dest = settings_path moved) ->
  match target with Some (File d) => existed = true /\ s0 !! backup = target | None => existed = false | _ => False end ->
  safe (only scratch dest target s0) (okay (fun _ s' => s' !! dest = target)) (restoreStateFile dest backup existed) s0.
Proof.
  intros Hd Ht. unfold restoreStateFile. destruct target as [[d| |]|]; try done.
  - destruct Ht as [-> Hb]. cbn [negb].
    apply safe_then with (Q := fun data s' => s' = s0 /\ data = d).
    { eapply safe_mono; [by apply safe_read, only_refl | done |]. intros [data|] s' _ (-> & Hr & _); [| done].
      split; [done |]. destruct (Hr _ eq_refl) as [Hr' _]. congruence. }
    intros data s1 _ [-> ->]. by apply writeStateFile_safe.
  - subst existed. cbn [negb]. eapply safe_bind; [apply safe_lstat, only_refl |]. intros info s1 _ (-> & H1 & H2).
    destruct info as [[d| |]|err]; try apply safe_err, only_refl.
    + apply safe_call; [apply only_refl |]. intros ev. cbn. destruct (ev_fails ev); [split; [apply only_refl | done] |].
      rewrite (H1 _ eq_refl). cbn. rewrite lookup_delete_eq. split; [| done]. split; [| right; apply lookup_delete_eq].
      intros p _ Hp. by apply lookup_delete_ne.
    + apply safe_ret; [apply only_refl |]. destruct (errors_is err os_ErrNotExist) eqn:E; [| done]. cbn. by apply (H2 err).
Qed.

Lemma restore_missing dest backup s0 :
  s0 !! backup = None -> safe (eq s0) (okay (fun _ _ => False)) (restoreStateFile dest backup true) s0.
Proof.
  intros Hb. unfold restoreStateFile. cbn [negb]. apply safe_then with (Q := fun _ _ => False); [| done].
  eapply (safe_mono (eq s0) (eq s0)); [by apply safe_read | done |]. intros [data|] s' _ (-> & Hr & _); [| done].
  destruct (Hr _ eq_refl). congruence.
Qed.

End Files.

(** ** The journal's states *)

(** Where the settings file is, and the two files. *)
Definition located (home : Home) (s : files) : option string :=
  match pointer s with Some data => redirectedSettingsPath home data | None => None end.

Definition pair_of (home : Home) (s : files) : option node * option node := (s !! settings_path (located home s), s !! secretPath).

(** The backup [b] of a file that was [old]: present when it is needed, or lost. *)
Definition kept (b : path) (old : option node) (s : files) : Prop :=
  match old with Some (File d) => s !! b = Some (File d) | None => True | Some _ => False end.
Definition lost (b : path) (old : option node) (s : files) : Prop :=
  match old with Some (File _) => s !! b = None | _ => False end.

Definition existed (old : option node) : bool := match old with Some (File _) => true | _ => false end.

Definition manifest_for (old : option node * option node) : bytes :=
  manifest_bytes (MkTxnManifest stateTransactionVersion (existed old.1) (existed old.2)).

(** No journal; one being prepared or half removed; one that can be rolled
    back; and one whose backups are partly gone although its manifest is not. *)
Definition settled (s : files) : Prop := s !! journal_dir = None /\ forall name, s !! (InJournal, name) = None.
Definition unarmed (s : files) : Prop := s !! journal_dir = Some Dir /\ s !! manifestPath = None.
Definition published (old : option node * option node) (s : files) : Prop :=
  s !! journal_dir = Some Dir /\ s !! manifestPath = Some (File (manifest_for old)).
Definition armed (old : option node * option node) (s : files) : Prop :=
  published old s /\ kept configBackup old.1 s /\ kept secretBackup old.2 s.
Definition wedged (old : option node * option node) (s : files) : Prop :=
  published old s /\ (lost configBackup old.1 s \/ kept configBackup old.1 s /\ lost secretBackup old.2 s).

(** The invariant: whenever the journal does not protect the old pair, the
    pair of files is one that [okp] allows. *)
Definition whole (home : Home) (okp : option node * option node -> Prop) (old : option node * option node) (s : files) : Prop :=
  ((settled s \/ unarmed s) /\ okp (pair_of home s)) \/ armed old s \/ wedged old s.

(** Nothing in the journal changed, nor the pointer. *)
Definition journal_same (s s' : files) : Prop :=
  forall p : path, p.1 = InJournal \/ p = journal_dir \/ p = settingsLocation -> s' !! p = s !! p.

Lemma located_eq home s s' : s' !! settingsLocation = s !! settingsLocation -> located home s' = located home s.
Proof. intros H. unfold located, pointer. by rewrite H. Qed.

Lemma located_same home s s' : journal_same s s' -> located home s' = located home s.
Proof. intros H. apply located_eq, H. auto. Qed.

(** The files of a state whose pointer is that of [s]. *)
Lemma pair_same home s s' :
  s' !! settingsLocation = s !! settingsLocation -> pair_of home s' = (s' !! settings_path (located home s), s' !! secretPath).
Proof. intros H. unfold pair_of. by rewrite (located_eq home s s' H). Qed.

Lemma kept_same b old s s' : b.1 = InJournal -> journal_same s s' -> kept b old s -> kept b old s'.
Proof. intros Hb H. unfold kept. destruct old as [[]|]; try done. by rewrite H by auto. Qed.

Lemma lost_same b old s s' : b.1 = InJournal -> journal_same s s' -> lost b old s -> lost b old s'.
Proof. intros Hb H. unfold lost. destruct old as [[]|]; try done. by rewrite H by auto. Qed.

Lemma published_same old s s' : journal_same s s' -> published old s -> published old s'.
Proof. intros H [H1 H2]. split; (rewrite H; [done | by auto]). Qed.

Lemma armed_same old s s' : journal_same s s' -> armed old s -> armed old s'.
Proof. intros H (H1 & H2 & H3). split; [by eapply published_same |]. by split; eapply kept_same. Qed.

Lemma wedged_same old s s' : journal_same s s' -> wedged old s -> wedged old s'.
Proof.
  intros H (H1 & H2). split; [by eapply published_same |].
  destruct H2 as [H2|[H2 H3]]; [left; by eapply lost_same | right; split; [by eapply kept_same | by eapply lost_same]].
Qed.

Lemma only_journal dest target s0 s :
  dest.1 <> InJournal -> dest <> journal_dir -> dest <> settingsLocation -> only scratch dest target s0 s -> journal_same s0 s.
Proof.
  intros H1 H2 H3 [H _] p Hp. apply H; [| intros ->; by destruct Hp as [?|[?|?]]].
  intros [->|(d & n & Hd & ->)]; [by destruct Hp as [?|[?|?]] |]. by destruct Hp as [Hp|[Hp|Hp]].
Qed.

Lemma manifest_decodes c x :
  match json_unmarshal stateTransactionManifest_schema (manifest_bytes (MkTxnManifest stateTransactionVersion c x)) with
  | Ok fields => stateTransactionManifest_of fields = MkTxnManifest stateTransactionVersion c x
  | Err _ => False
  end.
Proof. by destruct c, x; vm_compute. Qed.

Lemma pointer_not_scratch : ~ scratch settingsLocation.
Proof. intros [H|(d & n & _ & H)]; [discriminate H |]. injection H as _ H. discriminate H. Qed.

Lemma config_outside moved :
  (settings_path moved).1 <> InJournal /\ settings_path moved <> journal_dir /\ settings_path moved <> secretPath /\
  settings_path moved <> settingsLocation /\ ~ scratch (settings_path moved).
Proof. split_and!; [by destruct moved.. | apply config_not_scratch]. Qed.

(** The writing of one of the two files leaves the journal and the pointer. *)
Lemma state_file_journal dest target s0 s :
  dest = secretPath \/ (exists moved, dest = settings_path moved) -> only scratch dest target s0 s -> journal_same s0 s.
Proof.
  intros [->|[moved ->]] Ho; [by eapply only_journal; [| | | exact Ho] |].
  destruct (config_outside moved) as (H1 & H2 & _ & H4 & _). by eapply only_journal; [| | | exact Ho].
Qed.

(** *** The settings file *)

Lemma locate_safe (P : files -> Prop) home s :
  P s -> safe (M := exec_file true) P (fun path s' => s' = s /\ path = settings_path (located home s)) (ConfigPath home) s.
Proof. intros Hs. split; [done |]. intros ev. cbn. by split. Qed.

(** Even when the reading of the pointer fails, it is some settings file. *)
Lemma locate_some {steady : bool} (P : files -> Prop) home s :
  P s -> safe (M := exec_file steady) P (fun path s' => s' = s /\ exists moved, path = settings_path moved) (ConfigPath home) s.
Proof. intros Hs. split; [done |]. intros ev. cbn. split; [done |]. split; [done |]. by eexists. Qed.

(** *** Removing the journal *)

Section Whole.
#[local] Hint Extern 0 (Machine op _ _) => exact (exec_file true) : typeclass_instances.
Context (home : Home) (old : option node * option node).
Abbreviation pair := (pair_of home).

Lemma filter_outside (f : path * node -> Prop) `{forall x, Decision (f x)} (s : files) (p : path) :
  (forall n, f (p, n)) -> filter f s !! p = s !! p.
Proof.
  intros Hp. destruct (s !! p) as [n|] eqn:E; [by apply map_lookup_filter_Some |].
  apply map_lookup_filter_None. by left.
Qed.

Lemma filter_subset (f : path * node -> Prop) `{forall x, Decision (f x)} (s : files) (p : path) :
  filter f s !! p = s !! p \/ filter f s !! p = None.
Proof.
  destruct (filter f s !! p) as [n|] eqn:E; [| by right]. apply map_lookup_filter_Some in E as [-> _]. by left.
Qed.

(** Removing a journal that is not needed any more, or not needed yet. *)
Lemma remove_journal_safe (okp : option node * option node -> Prop) s :
  unarmed s \/ armed old s -> okp (pair s) ->
  safe (whole home okp old) (okay (fun _ s' => settled s' /\ pair s' = pair s)) (call RemoveJournal) s.
Proof.
  intros Hs Hp. apply safe_call; [destruct Hs; [left; auto | by right; left] |]. intros ev. cbn. destruct (ev_fails ev); cbn.
  - split; [| done]. set (left_over := fun x : path * node => x.1.1 <> InJournal \/ x.1.2 ∈ ev_left ev). set (s' := filter left_over s).
    assert (Hpair : pair s' = pair s).
    { rewrite (pair_same home s s') by (apply filter_outside; intros n; by left). unfold pair_of, s'.
      rewrite !filter_outside; [done | |]; intros n; left; by destruct (located home s). }
    assert (Hd : s' !! journal_dir = s !! journal_dir) by (apply filter_outside; intros n; by left).
    destruct Hs as [[H1 H2]|([H1 H2] & H3 & H4)].
    + left. rewrite Hpair. split; [right | done]. split; [by rewrite Hd |]. destruct (filter_subset left_over s manifestPath) as [E|E]; exact (eq_trans E H2) || exact E.
    + destruct (filter_subset left_over s manifestPath) as [E|E].
      2: { left. rewrite Hpair. split; [right; split; [by rewrite Hd | exact E] | done]. }
      right. assert (Hpub : published old s') by (split; [by rewrite Hd | exact (eq_trans E H2)]).
      assert (Hc : forall b o, kept b o s -> kept b o s' \/ lost b o s').
      { intros b [[d| |]|] Hk; cbn in Hk |- *; try done; [| by left].
        destruct (filter_subset left_over s b) as [E'|E']; [left; exact (eq_trans E' Hk) | by right]. }
      destruct (Hc _ _ H3) as [H3'|H3']; [| by right; split; [| left]].
      destruct (Hc _ _ H4) as [H4'|H4']; [by left; split | by right; split; [| right]].
  - set (s' := filter _ s). assert (Hpair : pair s' = pair s).
    { rewrite (pair_same home s s') by (by apply filter_outside). unfold pair_of, s'.
      rewrite !filter_outside; [done | |]; intros n; [done | by destruct (located home s)]. }
    assert (Hset : settled s').
    { split; [| intros name]; apply map_lookup_filter_None; right; intros n _; by cbn. }
    split; [left; rewrite Hpair; auto | by split].
Qed.

(** *** Recovery *)

Lemma restore_target b o s :
  kept b o s -> match o with Some (File d) => existed o = true /\ s !! b = o | None => existed o = false | _ => False end.
Proof. by destruct o as [[]|]. Qed.

(** The two restorations, with the journal in place. *)
Lemma restore_both_safe (P : files -> Prop) (R : unit -> files -> Prop) (k : prog (result unit)) s :
  armed old s -> (forall s', armed old s' -> P s') -> (forall s', armed old s' -> pair s' = old -> safe P (okay R) k s') ->
  safe P (okay R)
    (wrapped "restore config from Agent state transaction" (let* path := ConfigPath home in restoreStateFile path configBackup (existed old.1)) ;!
     wrapped "restore secrets from Agent state transaction" (restoreStateFile secretPath secretBackup (existed old.2)) ;! k) s.
Proof.
  intros Ha HP Hk. set (moved := located home s). destruct (config_outside moved) as (Hc1 & Hc2 & Hc3 & Hc4 & Hc5).
  assert (Hj : forall dest target s1 s2, dest = secretPath \/ (exists m, dest = settings_path m) -> armed old s1 -> only scratch dest target s1 s2 -> armed old s2).
  { intros dest target s1 s2 Hd Ha1 Ho. eapply armed_same; [by eapply state_file_journal | exact Ha1]. }
  apply safe_then with (Q := fun _ s' => armed old s' /\ located home s' = moved /\ s' !! settings_path moved = old.1).
  { apply safe_wrapped. eapply safe_bind; [by apply locate_safe, HP |]. intros path s1 _ [-> ->]. fold moved.
    eapply safe_mono; [apply (restore_safe _ _ _ old.1); [right; by exists moved |] | |].
    - apply restore_target, Ha.
    - intros s' Ho. eapply HP, Hj; [right; by exists moved | exact Ha | exact Ho].
    - intros [u|e] s' Ho H; [| done]. assert (Hd : settings_path moved = secretPath \/ exists m, settings_path moved = settings_path m) by (right; by exists moved).
      split; [by eapply Hj |]. split; [| done]. by eapply located_same, state_file_journal. }
  intros _ s1 _ (Ha1 & Hl & Hr). apply safe_then with (Q := fun _ s' => armed old s' /\ pair s' = old).
  { apply safe_wrapped. eapply safe_mono; [apply (restore_safe secretPath secretBackup (existed old.2) old.2 s1); [by left |] | |].
    - apply restore_target, Ha1.
    - intros s' Ho. eapply HP, Hj; [by left | exact Ha1 | exact Ho].
    - intros [u|e] s' Ho H; [| done]. split; [eapply Hj; [by left | exact Ha1 | exact Ho] |]. cbn in H.
      rewrite (pair_same home s1 s'), Hl, H by (destruct Ho as [Ho _]; apply Ho; [apply pointer_not_scratch | done]).
      destruct Ho as [Ho _]. rewrite (Ho _ Hc5 Hc3), Hr. by destruct old. }
  intros _ s2 _ [Ha2 Hp]. by apply Hk.
Qed.

(** From a wedged journal, whatever settings file it is about to restore. *)
Lemma wedged_restore_safe {steady : bool} (A : Type) (k : prog (result A)) s :
  wedged old s ->
  safe (M := exec_file steady) (wedged old) (okay (fun _ _ => False))
    (wrapped "restore config from Agent state transaction" (let* path := ConfigPath home in restoreStateFile path configBackup (existed old.1)) ;!
     wrapped "restore secrets from Agent state transaction" (restoreStateFile secretPath secretBackup (existed old.2)) ;! k) s.
Proof.
  intros Hw.
  assert (Hmiss : forall dest b o s', wedged old s' -> lost b o s' ->
    safe (M := exec_file steady) (wedged old) (okay (fun _ _ => False)) (restoreStateFile dest b (existed o)) s').
  { intros dest b o s' Hw' Hl. destruct o as [[d| |]|]; try done. cbn [existed].
    eapply safe_mono; [by apply restore_missing | by intros ? <- | done]. }
  eapply (safe_then _ (fun _ s' => lost secretBackup old.2 s')).
  2: { intros _ s1 H1 Hl1. eapply (safe_then _ (fun _ _ => False)); [by apply safe_wrapped, Hmiss | done]. }
  apply safe_wrapped. eapply safe_bind; [by apply locate_some |]. intros path s1 _ (-> & moved & ->).
  destruct (proj2 Hw) as [Hl|[Hk Hl]].
  { eapply safe_mono; [by apply Hmiss | done | by intros []]. }
  assert (Hj : forall s', only scratch (settings_path moved) old.1 s s' -> journal_same s s')
    by (intros s'; apply state_file_journal; right; by exists moved).
  eapply safe_mono; [apply (restore_safe (settings_path moved) configBackup (existed old.1) old.1 s); [right; by exists moved | by apply restore_target] | |].
  - intros s' Ho. eapply wedged_same; [by apply Hj | done].
  - intros [u|e] s' Ho _; [| done]. by eapply lost_same; [| apply Hj |].
Qed.

(** From any state of the invariant, recovery keeps it at every moment; and
    when it reports success there is no journal and an allowed pair. *)
Lemma recover_safe (okp : option node * option node -> Prop) s :
  okp old -> whole home okp old s ->
  safe (whole home okp old) (okay (fun _ s' => settled s' /\ okp (pair s'))) (recoverStateTransaction home) s.
Proof.
  intros Hold Hw. unfold recoverStateTransaction.
  eapply safe_bind; [by apply safe_lstat |]. intros info s1 _ (-> & Hi & Hn).
  destruct info as [n|err].
  2: { apply safe_ret; [done |]. destruct (errors_is err os_ErrNotExist) eqn:E; [| done]. specialize (Hn err eq_refl E). cbn.
       destruct Hw as [[[Hs|[Hd _]] Hp]|[([Hd _] & _)|([Hd _] & _)]]; [done | | |]; congruence. }
  specialize (Hi n eq_refl).
  assert (Hcase : n = Dir /\ (unarmed s /\ okp (pair s) \/ armed old s \/ wedged old s)).
  { destruct Hw as [[[[Hd _]|Hu] Hp]|[Ha|Hwe]]; [congruence | | |].
    - split; [destruct Hu; congruence | by left].
    - split; [destruct Ha as [[] _]; congruence | by right; left].
    - split; [destruct Hwe as [[] _]; congruence | by right; right]. }
  destruct Hcase as [-> Hcase]. eapply safe_bind; [by apply safe_read |]. intros data s2 _ (-> & Hr & Hm).
  destruct Hcase as [[Hu Hp]|Hcase].
  - destruct Hu as [Hd Hu]. destruct data as [data|err]; [destruct (Hr _ eq_refl); congruence |].
    destruct (errors_is err os_ErrNotExist); [| by apply safe_err].
    eapply safe_then; [by apply safe_wrapped, remove_journal_safe; [left |] |]. intros u s3 H3 [Hs3 Hp3].
    apply safe_quiet_end; [done |]. by rewrite Hp3.
  - assert (Hpub : published old s) by (destruct Hcase as [H|H]; apply H). destruct Hpub as [Hd Hman].
    destruct data as [data|err].
    2: { destruct (errors_is err os_ErrNotExist) eqn:E; [specialize (Hm err eq_refl E); congruence | by apply safe_err]. }
    destruct (Hr _ eq_refl) as [Hdata _]. assert (data = manifest_for old) as -> by congruence.
    unfold manifest_for. pose proof (manifest_decodes (existed old.1) (existed old.2)) as Hdec.
    destruct (json_unmarshal _ _) as [fields|e]; [| done]. rewrite Hdec. cbv zeta. cbn [tm_Version tm_ConfigExists tm_SecretExists].
    change (negb (stateTransactionVersion =? stateTransactionVersion)) with false. cbv iota.
    destruct Hcase as [Ha|Hwe].
    + apply restore_both_safe; [done | by intros s' H; right; left |]. intros s3 Ha3 Hp3.
      eapply safe_then; [apply safe_wrapped, safe_quiet; by right; left |]. intros _ ? _ ->.
      eapply safe_then; [apply safe_wrapped, remove_journal_safe; [by right | by rewrite Hp3] |]. intros u s4 H4 [Hs4 Hp4].
      apply safe_quiet_end; [done |]. split; [done |]. by rewrite Hp4, Hp3.
    + eapply safe_mono; [by apply wedged_restore_safe | by intros s' H; right; right | by intros []].
Qed.

(** *** Taking the backups *)

Lemma exclusive_safe b data s0 :
  s0 !! b = None ->
  safe (fun s => forall p, p <> b -> s !! p = s0 !! p) (okay (fun _ s => s !! b = Some (File data))) (writeExclusivePrivateFile b data) s0.
Proof.
  intros Hb. unfold writeExclusivePrivateFile.
  apply safe_then with (Q := fun _ s => s !! b = Some (File [])).
  { apply safe_call; [done |]. intros ev. cbn. destruct (_ || _); [done |]. rewrite Hb. cbn.
    split; [| apply lookup_insert_eq]. intros p Hp. by apply lookup_insert_ne. }
  intros _ s1 H1 Hb1. apply safe_then with (Q := fun _ s => s !! b = Some (File data)).
  { assert (Happ : forall d, (forall p, p <> b -> append s1 b d !! p = s0 !! p) /\ append s1 b d !! b = Some (File d)).
    { intros d. unfold append. rewrite Hb1. split; [| apply lookup_insert_eq]. intros p Hp. rewrite lookup_insert_ne by done. by apply H1. }
    apply safe_call; [done |]. intros ev. cbn. destruct (ev_fails ev); cbn; split; try apply Happ; done. }
  intros _ s2 H2 Hb2. eapply safe_then; [by apply safe_quiet |]. intros _ ? _ ->.
  by apply safe_quiet_end.
Qed.

(** A backup that succeeded is the file as it was. *)
Lemma snapshot_safe source b s0 :
  s0 !! b = None ->
  safe (fun s => forall p, p <> b -> s !! p = s0 !! p)
    (okay (fun flag s => flag = existed (s0 !! source) /\ kept b (s0 !! source) s)) (snapshotStateFile source b) s0.
Proof.
  intros Hb. unfold snapshotStateFile. eapply safe_bind; [by apply safe_read |]. intros data s1 _ (-> & Hr & Hn).
  destruct data as [data|err].
  - destruct (Hr _ eq_refl) as [Hd _]. eapply safe_then; [by apply safe_wrapped, exclusive_safe |].
    intros u s2 H2 Hk. apply safe_ret; [done |]. cbn in Hk |- *. rewrite Hd. by split.
  - apply safe_ret; [done |]. destruct (errors_is err os_ErrNotExist) eqn:E; [| done]. cbn. by rewrite (Hn err eq_refl E).
Qed.
Definition preparing (s : files) : Prop := (unarmed s \/ armed old s) /\ pair s = old.

Lemma same_off_journal s s' : (forall p : path, p.1 <> InJournal -> s' !! p = s !! p) -> s' !! journal_dir = s !! journal_dir /\ pair s' = pair s.
Proof. intros H. split; [by apply H |]. rewrite (pair_same home s s') by (by apply H). unfold pair_of. rewrite !H; [done | done | by destruct (located home s)]. Qed.

Lemma manifest_safe s :
  unarmed s -> pair s = old -> kept configBackup old.1 s -> kept secretBackup old.2 s ->
  safe preparing (okay (fun _ s' => armed old s')) (writeTransactionFileAtomic "manifest.json" (manifest_for old)) s.
Proof.
  intros [Hd Hm] Hp Hc Hs. unfold writeTransactionFileAtomic.
  set (T := fun p : path => exists n, p = (InJournal, ".manifest-" +:+ n)).
  assert (Hsame : forall s', only T manifestPath (Some (File (manifest_for old))) s s' ->
    s' !! journal_dir = Some Dir /\ pair s' = old /\ kept configBackup old.1 s' /\ kept secretBackup old.2 s').
  { intros s' [Ho _].
    assert (Hkeep : forall b o, (b = configBackup \/ b = secretBackup) -> kept b o s -> kept b o s').
    { intros b o Hb. unfold kept. destruct o as [[]|]; try done. rewrite Ho; [done | |]; destruct Hb as [->| ->]; try done; by intros [n [=]]. }
    split_and!; [| | by apply Hkeep; [left |] | by apply Hkeep; [right |]].
    - rewrite Ho; [done | by intros [n [=]] | done].
    - rewrite <- Hp, (pair_same home s s') by (apply Ho; [by intros [n [=]] | done]). unfold pair_of. destruct (located home s);
        (rewrite !Ho; [done | by intros [n [=]] | done | by intros [n [=]] | done]). }
  eapply safe_mono; [apply (replace_file_safe T) with (s0 := s) | |].
  - intros n. by exists n.
  - by intros [n [=]].
  - apply only_refl.
  - intros s' Hs' _. by apply safe_ret.
  - intros s' Ho. destruct (Hsame _ Ho) as (H1 & H2 & H3 & H4). split; [| done].
    destruct Ho as [_ [Hman|Hman]]; [left; split; [done | exact (eq_trans Hman Hm)] | right; exact (conj (conj H1 Hman) (conj H3 H4))].
  - intros [u|e] s' Ho Hman; [| done]. destruct (Hsame _ Ho) as (H1 & H2 & H3 & H4). exact (conj (conj H1 Hman) (conj H3 H4)).
Qed.

Lemma prepare_safe s :
  s !! journal_dir = Some Dir -> (forall name, s !! (InJournal, name) = None) -> pair s = old ->
  safe preparing (okay (fun _ s' => armed old s')) (prepare home) s.
Proof.
  intros Hd Hj Hp. unfold prepare. eapply safe_bind; [apply locate_safe; split; [left; split; [exact Hd | apply Hj] | exact Hp] |].
  intros path s0 _ [-> ->].
  assert (Hstep : forall b s1 s2, b = configBackup \/ b = secretBackup -> unarmed s1 -> pair s1 = old ->
    (forall p, p <> b -> s2 !! p = s1 !! p) -> unarmed s2 /\ pair s2 = old).
  { intros b s1 s2 Hb [H1 H2] Hp1 Hs.
    destruct (same_off_journal s1 s2) as [E1 E2]; [intros p Hpj; apply Hs; intros ->; by destruct Hb as [->| ->] |].
    split; [split; [congruence |] | congruence]. rewrite Hs; [done | by destruct Hb as [->| ->]]. }
  assert (Hu : unarmed s) by (split; [done | apply Hj]).
  apply safe_then with (Q := fun flag s' => flag = existed old.1 /\ kept configBackup old.1 s' /\ unarmed s' /\ pair s' = old /\ s' !! secretBackup = None).
  { eapply safe_mono; [apply snapshot_safe, Hj | |].
    - intros s' Hs. destruct (Hstep configBackup s s' (or_introl eq_refl) Hu Hp Hs). by split; [left |].
    - intros [flag|e] s' Hs; [| done]. cbn. intros [-> Hk]. destruct (Hstep configBackup s s' (or_introl eq_refl) Hu Hp Hs).
      assert (Hs0 : s !! settings_path (located home s) = old.1) by (by rewrite <- Hp). rewrite Hs0 in Hk |- *. split_and!; try done.
      rewrite Hs by done. apply Hj. }
  intros flag1 s1 _ (-> & Hk1 & Hu1 & Hp1 & Hn1).
  apply safe_then with (Q := fun flag s' => flag = existed old.2 /\ kept configBackup old.1 s' /\ kept secretBackup old.2 s' /\ unarmed s' /\ pair s' = old).
  { eapply safe_mono; [by apply snapshot_safe | |].
    - intros s' Hs. destruct (Hstep secretBackup s1 s' (or_intror eq_refl) Hu1 Hp1 Hs). by split; [left |].
    - intros [flag|e] s' Hs; [| done]. cbn. intros [-> Hk]. destruct (Hstep secretBackup s1 s' (or_intror eq_refl) Hu1 Hp1 Hs).
      assert (Hs1 : s1 !! secretPath = old.2) by (by rewrite <- Hp1). rewrite Hs1 in Hk |- *. split_and!; try done.
      unfold kept in Hk1 |- *. destruct old.1 as [[]|]; try done. by rewrite Hs. }
  intros flag2 s2 _ (-> & Hk1' & Hk2 & Hu2 & Hp2).
  eapply safe_then; [by apply manifest_safe |]. intros u s3 H3 Ha3. cbv beta in Ha3.
  eapply safe_then; [by apply safe_wrapped, safe_quiet |]. intros _ ? _ ->. apply safe_wrapped. by apply safe_quiet_end.
Qed.

Lemma begin_safe s :
  settled s -> pair s = old ->
  safe (whole home (eq old) old) (okay (fun _ s' => armed old s' /\ pair s' = old)) (beginStateTransaction home) s.
Proof.
  intros Hs Hp. assert (Hw : whole home (eq old) old s) by (left; auto). unfold beginStateTransaction.
  eapply safe_bind; [by apply safe_lstat |]. intros info s1 _ (-> & _ & _). destruct info as [n|err]; [by apply safe_err |].
  destruct (negb _); [by apply safe_err |].
  apply safe_then with (Q := fun _ s' => s' !! journal_dir = Some Dir /\ (forall name, s' !! (InJournal, name) = None) /\ pair s' = old).
  { apply safe_wrapped, safe_call; [done |]. intros ev. cbn. destruct (ev_fails ev); [done |]. destruct Hs as [Hd Hj]. rewrite Hd. cbn.
    assert (H1 : forall name, <[journal_dir:=Dir]> s !! (InJournal, name) = None) by (intros name; by rewrite lookup_insert_ne).
    assert (H2 : pair (<[journal_dir:=Dir]> s) = old) by (rewrite <- Hp, (pair_same home s) by (by rewrite lookup_insert_ne); unfold pair_of;
      rewrite !lookup_insert_ne; [done | done | by destruct (located home s)]).
    split; [| split_and!; [apply lookup_insert_eq | done | done]].
    left. split; [right; split; [apply lookup_insert_eq | apply H1] | by rewrite H2]. }
  intros _ s2 _ (Hd & Hj & Hp2).
  assert (Hprep : forall s', preparing s' -> whole home (eq old) old s').
  { intros s' [[Hu|Ha] Hp']; [left; auto | by right; left]. }
  eapply (safe_bind _ (fun r s' => okay (fun _ s'' => armed old s'') r s' /\ preparing s')).
  { eapply safe_mono; [by apply prepare_safe | done | by intros r s' H1 H2]. }
  intros [u|e] s3 _ [Ha Hpr]; [apply safe_ret; [by apply Hprep | split; [exact Ha | apply Hpr]] |].
  eapply safe_bind; [by apply (remove_journal_safe (eq old)); [apply Hpr | rewrite (proj2 Hpr)] |].
  intros r s4 H4 _. by apply safe_err.
Qed.
End Whole.

(** ** Transactions *)

Section Steady.
#[local] Hint Extern 0 (Machine op _ _) => exact (exec_file true) : typeclass_instances.

(** An operation that, on files that are the pair [old] and while the pointer can
    be read, leaves the journal and the pointer alone, and whose success with [a]
    means [new a]. *)
Definition contained {A : Type} (home : Home) (old : option node * option node) (operation : prog (result A))
    (new : A -> option node * option node -> Prop) : Prop :=
  forall s, s !! journal_dir = Some Dir -> pair_of home s = old ->
    safe (journal_same s) (okay (fun a s' => new a (pair_of home s'))) operation s.

Lemma whole_mono home (f g : option node * option node -> Prop) old s :
  (forall q, f q -> g q) -> whole home f old s -> whole home g old s.
Proof. intros H [[Hs Hf]|Hw]; [left; auto | by right]. Qed.

(** The pairs a mutation may leave. *)
Definition either {A : Type} (old : option node * option node) (new : A -> option node * option node -> Prop)
    (q : option node * option node) : Prop := q = old \/ exists a, new a q.

Lemma transaction_safe {A : Type} home (operation : prog (result A)) new old s :
  contained home old operation new -> settled s -> pair_of home s = old ->
  safe (whole home (either old new) old) (okay (fun a s' => settled s' /\ new a (pair_of home s')))
    (runStateTransaction home operation) s.
Proof.
  intros Hop Hs Hp. unfold runStateTransaction.
  assert (Hmono : forall s', whole home (eq old) old s' -> whole home (either old new) old s')
    by (intros s'; apply whole_mono; intros q <-; by left).
  apply safe_then with (Q := fun _ s' => armed old s' /\ pair_of home s' = old).
  { eapply safe_mono; [by apply begin_safe | done | done]. }
  intros _ s1 _ [Ha Hp1]. eapply (safe_bind _ (fun r s' => armed old s' /\ okay (fun a s'' => new a (pair_of home s'')) r s')).
  { eapply safe_mono; [apply Hop; [apply Ha | done] | |].
    - intros s' Hj. right. left. by eapply armed_same.
    - intros r s' Hj Hr. split; [by eapply armed_same | done]. }
  intros [a|err] s2 H2 [Ha2 Hn].
  - cbn in Hn. eapply safe_then with (Q := fun _ s' => settled s' /\ new a (pair_of home s')).
    + unfold commit. eapply safe_then; [by apply safe_wrapped, safe_quiet |]. intros _ ? _ ->.
      eapply safe_then; [apply safe_wrapped, remove_journal_safe; [by right | right; by exists a] |]. intros v s3 H3 [Hs3 Hp3].
      apply safe_wrapped, safe_quiet_end; [done |]. rewrite Hp3. by split.
    + intros u s3 H3 Hn3. by apply safe_ret.
  - eapply safe_bind; [apply recover_safe with (okp := either old new); [by left | done] |].
    intros r s3 H3 _. destruct r; by apply safe_err.
Qed.

Lemma locked_transaction_safe {A : Type} home (operation : prog (result A)) new s :
  contained home (pair_of home s) operation new -> settled s ->
  safe (whole home (either (pair_of home s) new) (pair_of home s))
    (okay (fun a s' => settled s' /\ new a (pair_of home s'))) (locked home (runStateTransaction home operation)) s.
Proof.
  intros Hop Hs. unfold locked. apply safe_then with (Q := fun _ s' => settled s' /\ pair_of home s' = pair_of home s).
  { eapply safe_mono; [apply (recover_safe home (pair_of home s) (fun q => q = pair_of home s)); [done | by left; auto] | | done].
    intros s'. apply whole_mono. intros q ->. by left. }
  intros _ s1 _ [Hs1 Hp1]. by apply transaction_safe.
Qed.

Lemma recover_state_safe home (okp : option node * option node -> Prop) old s :
  okp old -> whole home okp old s ->
  safe (whole home okp old) (okay (fun _ s' => settled s' /\ okp (pair_of home s'))) (RecoverState home) s.
Proof.
  intros Ho Hw. unfold RecoverState, locked. eapply safe_then; [by apply recover_safe |].
  intros u s' Hw' Hs. by apply safe_ret.
Qed.

End Steady.

Lemma readable_iff events s s' :
  run events ensureStateReadable s = (s', Some (Ok tt)) -> s' = s /\ s !! journal_dir = None.
Proof.
  destruct events as [|ev rest]; [done |]. cbn. unfold io_error. destruct (ev_fails ev); cbn; [by destruct rest |].
  destruct (s !! journal_dir) as [[]|]; cbn; try (by destruct rest); try done. by intros [= <-].
Qed.

(** Recoveries one after the other, each run on its own events. *)
Definition recoveries (home : Home) (runs : list (list event)) (s : files) : files :=
  foldl (fun s events => (run events (RecoverState home) s).1) s runs.

(** In none of them a reading of the pointer failed. *)
Fixpoint all_sighted (home : Home) (runs : list (list event)) (s : files) : bool :=
  match runs with
  | [] => true
  | events :: rest => sighted events (RecoverState home) s && all_sighted home rest (run events (RecoverState home) s).1
  end.

Lemma recoveries_whole home (okp : option node * option node -> Prop) old runs : forall s,
  all_sighted home runs s = true -> okp old -> whole home okp old s -> whole home okp old (recoveries home runs s).
Proof.
  induction runs as [|events runs IH]; intros s Hv Ho Hw; [done |]. cbn [all_sighted] in Hv. apply andb_true_iff in Hv as [Hv1 Hv2].
  change (recoveries home (events :: runs) s) with (recoveries home runs (run events (RecoverState home) s).1). apply IH; [done | done |].
  rewrite (sighted_run _ _ _ Hv1).
  pose proof (safe_run _ _ _ events s (recover_state_safe home okp old s Ho Hw)) as H.
  destruct (run (M := exec_file true) events (RecoverState home) s) as [s' r]. apply H.
Qed.

(** What a mutation leaves. *)
Lemma mutation_whole {A : Type} home (operation : prog (result A)) new s0 events :
  contained home (pair_of home s0) operation new -> settled s0 ->
  let mutation := locked home (runStateTransaction home operation) in
  sighted events mutation s0 = true ->
  let '(s1, done_) := run events mutation s0 in
  whole home (either (pair_of home s0) new) (pair_of home s0) s1 /\
  (forall a, done_ = Some (Ok a) -> settled s1 /\ new a (pair_of home s1)).
Proof.
  intros Hop Hs mutation Hv. rewrite (sighted_run _ _ _ Hv).
  pose proof (safe_run _ _ _ events s0 (locked_transaction_safe home operation new s0 Hop Hs)) as H1. fold mutation in H1.
  destruct (run (M := exec_file true) events mutation s0) as [s1 done_]. destruct H1 as [Hw1 Hq1].
  split; [exact Hw1 |]. intros a ->. exact (Hq1 _ eq_refl).
Qed.

Lemma readable_whole home (okp : option node * option node -> Prop) old events s s' :
  whole home okp old s -> run events ensureStateReadable s = (s', Some (Ok tt)) -> okp (pair_of home s').
Proof.
  intros Hw Hr. apply readable_iff in Hr as [-> Hn].
  destruct Hw as [[_ Ho]|[Hw|Hw]]; [exact Ho | |]; destruct Hw as [[Hd _] _]; congruence.
Qed.

(** C24: A mutation of the Agent's state is all or nothing, whatever fails and wherever the process dies, as long as the pointer to a settings file that was moved can be read. Take any mutation that leaves the journal alone, run it under the lock from a settled state with arbitrary failures and an arbitrary crash, and then any number of recoveries, each of which may fail or crash as well. Whenever readers may read (ensureStateReadable succeeds), the settings file that the Agent uses and the secret file are together exactly as before, or together as the successful mutation made them; a mutation reported as done has both new files and no journal; and a recovery that reports success has left no journal and one of the two pairs, the old one whenever the journal could still be rolled back. The one excepted failure is that of reading the pointer while there is one: the source takes it for a pointer that is not there. *)
Theorem state_mutation_atomic {A : Type} home (operation : prog (result A)) new s0 events runs :
  let old := pair_of home s0 in
  let mutation := locked home (runStateTransaction home operation) in
  contained home old operation new -> settled s0 -> sighted events mutation s0 = true ->
  let '(s1, done_) := run events mutation s0 in
  (forall a, done_ = Some (Ok a) -> settled s1 /\ new a (pair_of home s1)) /\
  (all_sighted home runs s1 = true ->
     let s2 := recoveries home runs s1 in
     (forall evs s3, run evs ensureStateReadable s2 = (s3, Some (Ok tt)) -> either old new (pair_of home s3)) /\
     (forall evs s3, sighted evs (RecoverState home) s2 = true -> run evs (RecoverState home) s2 = (s3, Some (Ok tt)) ->
        settled s3 /\ either old new (pair_of home s3) /\ (armed old s2 -> pair_of home s3 = old))).
Proof.
  intros old mutation Hop Hs Hv. pose proof (mutation_whole home operation new s0 events Hop Hs Hv) as H. fold mutation old in H.
  destruct (run events mutation s0) as [s1 done_]. destruct H as [Hw1 Hq1]. split; [exact Hq1 |]. intros Hvs. cbv zeta.
  assert (Hw2 : whole home (either old new) old (recoveries home runs s1)) by (by apply recoveries_whole; [| left |]).
  split; [intros evs s3; by eapply readable_whole |]. intros evs s3 Hv3 Hr. rewrite (sighted_run _ _ _ Hv3) in Hr.
  pose proof (safe_run _ _ _ evs _ (recover_state_safe home _ old _ (or_introl eq_refl) Hw2)) as Hsf. rewrite Hr in Hsf.
  destruct Hsf as [_ Hsf]. destruct (Hsf _ eq_refl) as [Hs3 Ho]. split_and!; [done | done |]. intros Ha.
  pose proof (safe_run _ _ _ evs _ (recover_state_safe home (fun q => q = old) old _ eq_refl (or_intror (or_introl Ha)))) as H'.
  rewrite Hr in H'. exact (proj2 (proj2 H' _ eq_refl)).
Qed.

(** ** Recovery completes, or never will *)

Definition marked (s : files) : Prop := s !! stateMarker = Some (File stateMarkerContents).

(** A file the Agent can read, or none. *)
Definition small (n : option node) : Prop :=
  match n with None => True | Some (File d) => zlen d <= maxSettingsFileBytes | Some _ => False end.

Lemma private_dir_works s : marked s -> works (good (fun _ s' => s' = s)) ensurePrivateDir s.
Proof.
  intros Hm. unfold ensurePrivateDir.
  do 4 (eapply works_then; [apply works_wrapped, (works_quiet (fun _ s' => s' = s)); reflexivity |]; intros _ ? ->).
  intros ev [Hl _]. cbn -[bool_decide]. rewrite Hl, Hm. change (maxSettingsFileBytes <? zlen stateMarkerContents) with false. cbn -[bool_decide]. by rewrite bool_decide_true.
Qed.

Lemma replace_file_works d pattern name data after s :
  there s d = true -> (forall n, name <> pattern +:+ n) ->
  works (good (fun _ s' => s' = <[(d, name) := File data]> s)) after (<[(d, name) := File data]> s) ->
  works (good (fun _ s' => s' = <[(d, name) := File data]> s)) (replace_file d pattern name data after) s.
Proof.
  intros Ht Hn Ha. unfold replace_file.
  apply works_then with (Q := fun tmp s' => tmp <> name /\ s !! (d, tmp) = None /\ s' = <[(d, tmp) := File []]> s).
  { apply works_wrapped. intros ev [Hl Hf]. cbn. rewrite Hl, Ht, Hf. cbn. split_and!; [| done | done]. intros E. by apply (Hn (ev_name ev)). }
  intros tmp s1 (Htn & Hf & ->). unfold deferring_remove.
  apply works_bind with (Q := good (fun _ s' => s' = <[(d, name) := File data]> s)).
  2: { intros r s' Hr. apply works_bind with (Q := fun _ s'' => s'' = s'); [| by intros ? ? ->].
       intros ev [Hl _]. cbn. rewrite Hl. destruct r as [u|e]; [| done]. cbn in Hr. subst s'.
       rewrite lookup_insert_ne by congruence. by rewrite Hf. }
  eapply works_then; [apply works_wrapped, (works_quiet (fun _ s' => s' = <[(d, tmp) := File []]> s)); reflexivity |]. intros _ ? ->.
  apply works_then with (Q := fun _ s' => s' = <[(d, tmp) := File data]> s).
  { apply works_wrapped. intros ev [Hl _]. cbn. rewrite Hl. cbn. unfold append. rewrite lookup_insert_eq. by rewrite insert_insert_eq. }
  intros _ ? ->.
  do 2 (eapply works_then; [apply works_wrapped, (works_quiet (fun _ s' => s' = <[(d, tmp) := File data]> s)); reflexivity |]; intros _ ? ->).
  apply works_then with (Q := fun _ s' => s' = <[(d, name) := File data]> s); [| by intros _ ? ->].
  apply works_wrapped. intros ev [Hl _]. cbn. rewrite Hl, lookup_insert_eq. cbn.
  rewrite delete_insert_ne by congruence. f_equal. rewrite delete_insert_eq. by apply delete_id.
Qed.

Lemma state_file_dest dest :
  dest = secretPath \/ (exists moved, dest = settings_path moved) ->
  (dest.1 = InState \/ exists dir, dest.1 = InSettings dir) /\ (forall n, dest.2 <> temp_pattern +:+ n) /\ dest <> stateMarker.
Proof. by intros [->|[[dir|] ->]]; split_and!; eauto. Qed.

Lemma writeStateFile_works dest data s :
  dest = secretPath \/ (exists moved, dest = settings_path moved) -> marked s -> small (s !! dest) ->
  zlen data <= maxSettingsFileBytes ->
  works (good (fun _ s' => s' = <[dest := File data]> s)) (writeStateFile dest data) s.
Proof.
  intros Hd Hm Hs Hl. destruct (state_file_dest dest Hd) as (Hp & Hn & _). clear Hd.
  destruct dest as [d name]. cbn [fst snd] in Hp, Hn. unfold writeStateFile. cbn [fst snd]. destruct Hp as [-> |[dir ->]].
  - unfold writePrivateFile. eapply works_then; [by apply private_dir_works |]. intros _ ? ->.
    assert (Hw : works (good (fun _ s' => s' = <[(InState, name) := File data]> s))
      (replace_file InState temp_pattern name data (wrapped "sync private state directory" (call (Quiet "fsync")) ;!
         wrapped "protect private file" (protectPrivateStateFile (InState, name)))) s).
    { apply replace_file_works; [done | exact Hn |]. set (s' := <[_ := _]> s).
      eapply works_then; [apply works_wrapped, (works_quiet (fun _ x => x = s')); reflexivity |]. intros _ ? ->.
      apply works_wrapped. unfold protectPrivateStateFile.
      eapply works_then; [apply (works_quiet (fun _ x => x = s')); reflexivity |]. intros _ ? ->.
      eapply (works_then (fun _ x => x = s')); [| by intros ? ? ->]. eapply works_read; [apply lookup_insert_eq | done | done]. }
    intros ev [Hf _]. cbn -[replace_file]. rewrite Hf. destruct (s !! (InState, name)) as [[d| |]|] eqn:E; try done.
    cbn in Hs. rewrite (proj2 (Z.ltb_ge _ _)) by done. exact Hw.
  - unfold writeSettingsOutsideState. rewrite (proj2 (Z.ltb_ge _ _)) by done.
    eapply works_then; [apply works_wrapped, (works_quiet (fun _ x => x = s)); reflexivity |]. intros _ ? ->.
    assert (Hw : works (good (fun _ s' => s' = <[(InSettings dir, name) := File data]> s))
      (replace_file (InSettings dir) (temp_pattern +:+ "settings-") name data (wrapped "sync settings directory" (call (Quiet "fsync")))) s).
    { apply replace_file_works; [done | intros n; apply (Hn ("settings-" +:+ n)) |]. by apply works_wrapped, works_quiet. }
    intros ev [Hf _]. cbn -[replace_file]. rewrite Hf. by destruct (s !! (InSettings dir, name)) as [[d| |]|] eqn:E.
Qed.

Definition put_back (dest : path) (target : option node) (s : files) : files :=
  match target with Some n => <[dest := n]> s | None => delete dest s end.

Lemma restore_works dest b o s :
  dest = secretPath \/ (exists moved, dest = settings_path moved) -> marked s -> small (s !! dest) -> small o -> kept b o s ->
  works (good (fun _ s' => s' = put_back dest o s)) (restoreStateFile dest b (existed o)) s.
Proof.
  intros Hd Hm Hs Ho Hk. unfold restoreStateFile. destruct o as [[d| |]|]; try done; cbn [existed negb].
  - apply works_then with (Q := fun data s' => data = d /\ s' = s); [by eapply works_read |]. intros ? ? [-> ->]. by apply writeStateFile_works.
  - intros ev [Hf _]. cbn -[call]. rewrite Hf. destruct (s !! dest) as [[d| |]|] eqn:E; try done.
    + intros ev' [Hf' _]. cbn. by rewrite Hf', E.
    + cbn. symmetry. by apply delete_id.
Qed.

Section Completes.
Context (home : Home) (old : option node * option node).
Abbreviation pair := (pair_of home).

(** The marker is in place, and the files and their backups can be read. *)
Definition tidy (s : files) : Prop :=
  marked s /\ small (pair s).1 /\ small (pair s).2 /\ small old.1 /\ small old.2.

Lemma remove_journal_works s :
  works (good (fun _ s' => settled s' /\ pair s' = pair s)) (call RemoveJournal) s.
Proof.
  intros ev [Hl _]. cbn. rewrite Hl. cbn. set (s' := filter _ s). split.
  - split; [| intros name]; apply map_lookup_filter_None; right; intros n _; by cbn.
  - rewrite (pair_same home s s') by (by apply filter_outside). unfold pair_of, s'.
    rewrite !filter_outside; [done | |]; intros n; [done | by destruct (located home s)].
Qed.

Lemma put_back_ne dest o s p : p <> dest -> put_back dest o s !! p = s !! p.
Proof. intros H. destruct o; cbn; [by apply lookup_insert_ne | by apply lookup_delete_ne]. Qed.

Lemma put_back_eq dest o s : put_back dest o s !! dest = o.
Proof. destruct o; cbn; [apply lookup_insert_eq | apply lookup_delete_eq]. Qed.

Lemma recover_works s :
  tidy s -> settled s \/ unarmed s \/ armed old s ->
  works (good (fun _ s' => settled s' /\ (armed old s -> pair s' = old) /\ (~ armed old s -> pair s' = pair s)))
    (recoverStateTransaction home) s.
Proof.
  intros (Hm & Hc & Hx & Hoc & Hox) Hs. unfold recoverStateTransaction. destruct Hs as [Hs|[[Hd Hu]|Ha]].
  - intros ev [Hl _]. cbn. rewrite Hl, (proj1 Hs). cbn. split_and!; [apply Hs.. | intros [[Hd _] _]; destruct Hs; congruence | done].
  - intros ev [Hl _]. cbn -[andthen call]. rewrite Hl, Hd. intros ev' [Hl' _]. cbn -[andthen call]. rewrite Hl', Hu. cbn -[andthen call].
    eapply works_then; [apply works_wrapped, remove_journal_works |]. intros _ s1 [H1 H2].
    apply works_quiet. split_and!; [apply H1.. | intros [[_ Hman] _]; congruence | done].
  - pose proof Ha as ((Hd & Hman) & Hk1 & Hk2). intros ev [Hl _]. cbn -[andthen call stateTransactionManifest_of json_unmarshal restoreStateFile]. rewrite Hl, Hd. intros ev' [Hl' _].
    cbn -[andthen call manifest_for stateTransactionManifest_of json_unmarshal restoreStateFile]. rewrite Hl', Hman.
    assert (Hsmall : (maxSettingsFileBytes <? zlen (manifest_for old)) = false)
      by (unfold manifest_for; by destruct (existed old.1), (existed old.2); vm_compute).
    rewrite Hsmall. unfold manifest_for. pose proof (manifest_decodes (existed old.1) (existed old.2)) as Hdec.
    destruct (json_unmarshal _ _) as [fields|e]; [| done]. rewrite Hdec. cbv zeta. cbn [tm_Version tm_ConfigExists tm_SecretExists].
    change (negb (stateTransactionVersion =? stateTransactionVersion)) with false. cbv iota.
    set (moved := located home s). destruct (config_outside moved) as (Hc1 & Hc2 & Hc3 & Hc4 & Hc5).
    assert (Hcm : settings_path moved <> stateMarker) by (by destruct moved).
    set (s1 := put_back (settings_path moved) old.1 s).
    assert (H1 : forall p, p <> settings_path moved -> s1 !! p = s !! p) by (intros p; apply put_back_ne).
    apply works_then with (Q := fun _ s' => s' = s1).
    { apply works_wrapped. apply works_bind with (Q := fun path s' => path = settings_path moved /\ s' = s).
      { intros ev3 [Hl3 _]. cbn. by rewrite Hl3. }
      intros path ? [-> ->]. apply restore_works; [right; by exists moved | done | done | done | done]. }
    intros _ ? ->.
    eapply works_then; [apply works_wrapped, (restore_works secretPath secretBackup old.2 s1); [by left | | | done |] |].
    { unfold marked. by rewrite H1. }
    { by rewrite H1. }
    { unfold kept in Hk2 |- *. destruct old.2 as [[]|]; try done. rewrite H1; [done | by destruct moved]. }
    intros _ s2 ->. set (s2 := put_back secretPath old.2 s1).
    assert (Hp2 : pair s2 = old).
    { rewrite (pair_same home s s2) by (unfold s2; rewrite put_back_ne by done; by apply H1). fold moved.
      unfold s2. rewrite put_back_eq, put_back_ne by done. unfold s1. rewrite put_back_eq. by destruct old. }
    eapply works_then; [apply works_wrapped, (works_quiet (fun _ x => x = s2)); reflexivity |]. intros _ ? ->.
    eapply works_then; [apply works_wrapped, remove_journal_works |]. intros _ s3 [H3 Hp3].
    apply works_quiet. split_and!; [apply H3.. | by rewrite Hp3, Hp2 | done].
Qed.

(** A wedged journal stays, whatever is tried. *)
Lemma wedged_safe {steady : bool} s :
  wedged old s -> safe (M := exec_file steady) (wedged old) (okay (fun _ _ => False)) (RecoverState home) s.
Proof.
  intros Hw. unfold RecoverState, locked. apply safe_then with (Q := fun _ _ => False); [| done].
  pose proof Hw as [[Hd Hman] _]. unfold recoverStateTransaction.
  eapply safe_bind; [by apply safe_lstat |]. intros info s1 _ (-> & Hi & Hn).
  destruct info as [n|err].
  2: { apply safe_ret; [done |]. destruct (errors_is err os_ErrNotExist) eqn:E; [| done]. specialize (Hn err eq_refl E). congruence. }
  specialize (Hi n eq_refl). assert (n = Dir) as -> by congruence.
  eapply safe_bind; [by apply safe_read |]. intros data s2 _ (-> & Hr & Hm). destruct data as [data|err].
  2: { destruct (errors_is err os_ErrNotExist) eqn:E; [specialize (Hm err eq_refl E); congruence | by apply safe_err]. }
  destruct (Hr _ eq_refl) as [Hdata _]. assert (data = manifest_for old) as -> by congruence.
  unfold manifest_for. pose proof (manifest_decodes (existed old.1) (existed old.2)) as Hdec.
  destruct (json_unmarshal _ _) as [fields|e]; [| done]. rewrite Hdec. cbv zeta. cbn [tm_Version tm_ConfigExists tm_SecretExists].
  change (negb (stateTransactionVersion =? stateTransactionVersion)) with false. cbv iota. by apply wedged_restore_safe.
Qed.

Lemma wedged_forever runs events evs s :
  wedged old s ->
  let s' := recoveries home runs s in
  (run events (RecoverState home) s').2 <> Some (Ok tt) /\ (run evs ensureStateReadable s').2 <> Some (Ok tt).
Proof.
  intros Hwe s'. assert (Hrec : forall runs s0, wedged old s0 -> wedged old (recoveries home runs s0)).
  { clear. induction runs as [|events runs IH]; intros s0 H0; [done |].
    change (recoveries home (events :: runs) s0) with (recoveries home runs (run events (RecoverState home) s0).1). apply IH.
    pose proof (safe_run _ _ _ events s0 (wedged_safe (steady := false) s0 H0)) as H. destruct (run events (RecoverState home) s0) as [s1 r]. apply H. }
  pose proof (Hrec runs s Hwe) as Hw'. fold s' in Hw'. split.
  - pose proof (safe_run _ _ _ events s' (wedged_safe (steady := false) s' Hw')) as H. destruct (run events _ s') as [s2 r].
    intros E. cbn in E. subst r. exact (proj2 H _ eq_refl).
  - destruct (run evs ensureStateReadable s') as [s2 r] eqn:E. intros Er. cbn in Er. subst r.
    apply readable_iff in E as [_ Hn]. destruct Hw' as [[Hd _] _]. congruence.
Qed.

(** C25: Whether an interrupted mutation can be recovered is decided by where it was interrupted. From every state a mutation and its recoveries can reach, if readers have the state marker and the files are readable, a recovery that meets no further failure completes, leaving no journal, with the old pair when the journal could be rolled back and the current pair otherwise; except in exactly one kind of state, a journal whose manifest is still there although a backup it promises is gone (the removal of the journal was interrupted between the two): from that state no recovery ever reports success, however often it is tried, and readers stay locked out. *)
Theorem recovery_decided (okp : option node * option node -> Prop) s :
  tidy s -> whole home okp old s ->
  (~ wedged old s -> exists events s', run events (RecoverState home) s = (s', Some (Ok tt)) /\ settled s' /\
     (armed old s -> pair s' = old) /\ (~ armed old s -> pair s' = pair s)) /\
  (wedged old s -> forall runs events evs,
     let s' := recoveries home runs s in
     (run events (RecoverState home) s').2 <> Some (Ok tt) /\ (run evs ensureStateReadable s').2 <> Some (Ok tt)).
Proof.
  intros Ht Hw. split.
  - intros Hn. assert (Hs : settled s \/ unarmed s \/ armed old s) by (destruct Hw as [[[|] _]|[|]]; tauto).
    assert (Hwk : works (good (fun _ s' => settled s' /\ (armed old s -> pair s' = old) /\ (~ armed old s -> pair s' = pair s))) (RecoverState home) s).
    { unfold RecoverState, locked. eapply works_then; [by apply recover_works |]. by intros []. }
    destruct (works_run _ _ _ Hwk) as (events & s' & [u|e] & Hr & HQ); [| done]. exists events, s'. destruct u. by split.
  - intros Hwe runs events evs. by apply wedged_forever.
Qed.
End Completes.

(** ** A mutation of both files *)

Lemma writes_contained home config secrets old :
  contained home old (let* path := ConfigPath home in writeStateFile path config ;! writeStateFile secretPath secrets)
    (fun _ q => q = (Some (File config), Some (File secrets))).
Proof.
  intros s Hd Hp. eapply safe_bind; [by apply locate_safe |]. intros path s0 _ [-> ->].
  set (moved := located home s). destruct (config_outside moved) as (Hc1 & Hc2 & Hc3 & Hc4 & Hc5).
  assert (Hj : forall s', only scratch (settings_path moved) (Some (File config)) s s' -> journal_same s s')
    by (intros s'; apply state_file_journal; right; by exists moved).
  apply safe_then with (Q := fun _ s' => journal_same s s' /\ s' !! settings_path moved = Some (File config)).
  { eapply safe_mono; [apply writeStateFile_safe; right; by exists moved | exact Hj |]. intros [u|e] s' Ho H; [| done]. split; [by apply Hj | done]. }
  intros _ s1 _ [Hj1 Hc]. eapply safe_mono; [apply writeStateFile_safe; by left | |].
  - intros s' Ho p Hpp. rewrite <- (Hj1 p Hpp). exact (state_file_journal secretPath _ s1 s' (or_introl eq_refl) Ho p Hpp).
  - intros [u|e] s' Ho H; [| done]. cbn in H |- *.
    assert (Hj2 : journal_same s1 s') by (apply (state_file_journal secretPath _ s1 s' (or_introl eq_refl) Ho)).
    rewrite (pair_same home s s') by (rewrite (Hj2 settingsLocation), (Hj1 settingsLocation) by auto; done).
    destruct Ho as [Ho _]. fold moved. by rewrite H, Ho, Hc by done.
Qed.

(** Unix paths that are clean already. *)
Fixpoint cut_last_slash (p : string) : option (string * string) :=
  match p with
  | EmptyString => None
  | String c rest =>
    match cut_last_slash rest with
    | Some (dir, base) => Some (String c dir, base)
    | None => if Ascii.eqb c "/"%char then Some (EmptyString, rest) else None
    end
  end.

Definition unix_home : Home :=
  MkHome "/home/u/.local/state/hooshixagent" false (String.prefix "/")
    (fun p => match cut_last_slash p with Some (_, base) => base | None => p end)
    (fun p => match cut_last_slash p with Some (dir, _) => dir | None => "." end) id.

Definition demo_old : bytes := bytes_of "old".
Definition demo_new : bytes := bytes_of "new".

(** The settings file was moved to the directory of the program. *)
Definition demo_moved : option string := Some "/opt/hooshix".
Definition demo_pointer : bytes := bytes_of "/opt/hooshix/config.json" ++ [Byte.x0a].
Definition demo_state : files :=
  {[stateMarker := File stateMarkerContents; settingsLocation := File demo_pointer; settings_path demo_moved := File demo_old;
    secretPath := File demo_old]}.
Definition demo_operation : prog (result unit) :=
  let* path := ConfigPath unix_home in writeStateFile path demo_new ;! writeStateFile secretPath demo_new.
Definition demo_mutation : prog (result unit) := locked unix_home (runStateTransaction unix_home demo_operation).
Definition demo_events (n : nat) : list event := (fun i => smooth (string_of (repeat "x"%byte i))) <$> seq 0 n.
Definition demo_failure : event := MkEvent true 0 [] EmptyString.

Lemma demo_settled : settled demo_state.
Proof. split; [vm_compute; reflexivity |]. intros name. apply not_elem_of_dom. unfold demo_state. set_solver. Qed.

(** A crash after the settings were written: readers are refused, and a
    recovery brings both files back. *)
Lemma state_mutation_atomic_witness :
  let s1 := (run (demo_events 40) demo_mutation demo_state).1 in
  located unix_home s1 = demo_moved /\
    pair_of unix_home s1 = (Some (File demo_new), Some (File demo_old)) /\ (run (demo_events 9) ensureStateReadable s1).2 <> Some (Ok tt) /\
    exists s3, run (demo_events 90) (RecoverState unix_home) s1 = (s3, Some (Ok tt)) /\ settled s3 /\
    pair_of unix_home s3 = (Some (File demo_old), Some (File demo_old)).
Proof.
  pose proof (state_mutation_atomic unix_home demo_operation (fun _ q => q = (Some (File demo_new), Some (File demo_new))) demo_state
    (demo_events 40) [] (writes_contained unix_home demo_new demo_new _) demo_settled) as H.
  fold demo_mutation in H. specialize (H ltac:(vm_compute; reflexivity)).
  destruct (run (demo_events 40) demo_mutation demo_state) as [s1 r] eqn:E. cbn [fst].
  assert (Hs1 : s1 = (run (demo_events 40) demo_mutation demo_state).1) by (by rewrite E).
  destruct H as [_ H]. destruct (H eq_refl) as [_ H']. clear H. change (recoveries unix_home [] s1) with s1 in H'.
  split; [rewrite Hs1; vm_compute; reflexivity |]. split; [rewrite Hs1; vm_compute; reflexivity |]. split; [rewrite Hs1; vm_compute; discriminate |].
  destruct (run (demo_events 90) (RecoverState unix_home) s1) as [s3 r3] eqn:E3.
  assert (r3 = Some (Ok tt)) as -> by (apply (f_equal snd) in E3; rewrite Hs1 in E3; vm_compute in E3; exact (eq_sym E3)).
  assert (Hv : sighted (demo_events 90) (RecoverState unix_home) s1 = true) by (rewrite Hs1; vm_compute; reflexivity).
  destruct (H' _ _ Hv E3) as (H1 & _ & H3). exists s3. split; [reflexivity |]. split; [exact H1 |].
  apply H3. rewrite Hs1. split; [split |]; [vm_compute; reflexivity.. |]. split; vm_compute; reflexivity.
Defined.

Definition demo_crashed : files := (run (demo_events 40) demo_mutation demo_state).1.

(** *** When the pointer cannot be read

    The recovery of the same crash, in which only the reading of the pointer
    fails: it reports success and drops the journal, but the old settings went
    to the state directory, and the Agent goes on with the new settings and the
    old secrets. *)
Lemma unread_pointer_splits_recovery :
  let '(s3, r) := run (demo_events 2 ++ demo_failure :: skipn 3 (demo_events 90)) (RecoverState unix_home) demo_crashed in
  r = Some (Ok tt) /\ s3 !! journal_dir = None /\ s3 !! settings_path None = Some (File demo_old) /\
    pair_of unix_home s3 = (Some (File demo_new), Some (File demo_old)).
Proof. vm_compute. split; [reflexivity |]. split; [reflexivity |]. by split. Qed.

(** The removal of the journal at the end of a successful mutation, stopped
    after the backup of the secrets and before the manifest: both files are
    the new ones, and neither a reader nor a recovery ever succeeds again. *)
Definition demo_half_removed : event := MkEvent true 0 ["manifest.json"; "config.before"] EmptyString.

Definition demo_wedged : files := (run (demo_events 51 ++ [demo_half_removed]) demo_mutation demo_state).1.

Lemma demo_wedged_ok : wedged (pair_of unix_home demo_state) demo_wedged.
Proof. split; [split; vm_compute; reflexivity |]. right. split; vm_compute; reflexivity. Qed.

Lemma interrupted_commit_wedges :
  pair_of unix_home demo_wedged = (Some (File demo_new), Some (File demo_new)) /\
    forall runs events evs, (run events (RecoverState unix_home) (recoveries unix_home runs demo_wedged)).2 <> Some (Ok tt) /\
    (run evs ensureStateReadable (recoveries unix_home runs demo_wedged)).2 <> Some (Ok tt).
Proof.
  split; [vm_compute; reflexivity |]. intros runs events evs.
  exact (wedged_forever unix_home (pair_of unix_home demo_state) runs events evs demo_wedged demo_wedged_ok).
Qed.

Lemma recovery_decided_witness :
  tidy unix_home (pair_of unix_home demo_state) demo_crashed /\
    exists events s', run events (RecoverState unix_home) demo_crashed = (s', Some (Ok tt)) /\ pair_of unix_home s' = pair_of unix_home demo_state.
Proof.
  assert (Ht : tidy unix_home (pair_of unix_home demo_state) demo_crashed) by (split_and!; vm_compute; congruence || reflexivity).
  assert (Ha : armed (pair_of unix_home demo_state) demo_crashed) by (split; [split |]; [vm_compute; reflexivity.. |]; split; vm_compute; reflexivity).
  split; [exact Ht |].
  destruct (proj1 (recovery_decided unix_home (pair_of unix_home demo_state) (fun q => q = pair_of unix_home demo_state) demo_crashed Ht (or_intror (or_introl Ha))))
    as (events & s' & Hr & _ & Hp & _).
  { intros [_ [Hl|[_ Hl]]]; vm_compute in Hl; discriminate Hl. }
  exists events, s'. split; [exact Hr | exact (Hp Ha)].
Defined.
