(* ===== verification/StateOps.v ===== *)
(** * StateOps: what the Agent keeps, and the mutations of it

    The secret store of [internal/agent/secrets.go] and [secrets_unix.go], the
    settings file of [config.go], and the three mutations of
    [state_transaction.go] that change both under a transaction: initialising,
    configuring, and replacing the identity.  The JSON codec of the settings
    record, the entropy source and Ed25519 key derivation are parameters; the
    fault hooks of [stateMutationFaults], which only tests set, are left out. *)

From S2P Require Import Prelude GoText Json StrictJson JsonMarshal Contract AgentLimits AgentTarget AgentStream AgentConfig Program StateFs StateTxn.

(** ** Secrets *)

Record SecretState := MkSecretState { ss_Seed : string; ss_SessionToken : string }.

Definition SecretState_schema : schema := [("seed", KString); ("session_token", KString)].

Definition SecretState_of (m : gmap string field_val) : SecretState :=
  MkSecretState (get_string m "seed") (get_string m "session_token").

(** [omitempty] *)
Definition SecretState_members (state : SecretState) : list (string * marshal_val) :=
  (if String.eqb (ss_Seed state) EmptyString then [] else [("seed", MString (ss_Seed state))]) ++
  (if String.eqb (ss_SessionToken state) EmptyString then [] else [("session_token", MString (ss_SessionToken state))]).

Definition encodeSecretState (state : SecretState) : bytes := marshal_object (SecretState_members state).

Definition decodeSecretState (data : bytes) : result SecretState :=
  match data with
  | [] => Ok (MkSecretState EmptyString EmptyString)
  | _ => match decodeStrict SecretState_schema data with
         | Ok m => Ok (SecretState_of m)
         | Err err => Err (ErrWrap "decode secret state" err)
         end
  end.

Definition LoadForMutation : prog (result SecretState) :=
  inspectPrivateDir ;!
  let* data := call (ReadTrusted secretPath) in
  Ret (match data with
       | Err err => if errors_is err os_ErrNotExist then Ok (MkSecretState EmptyString EmptyString)
                    else Err (ErrWrap "read secret file" err)
       | Ok data => decodeSecretState data
       end).

Definition Load : prog (result SecretState) := ensureStateReadable ;! LoadForMutation.

Definition Save (state : SecretState) : prog (result unit) := writePrivateFile secretPath.2 (encodeSecretState state).

Definition SetSessionToken (token : string) : prog (result unit) :=
  ensurePrivateDir ;!
  let! state := LoadForMutation in
  Save (MkSecretState (ss_Seed state) token).

Definition LoadSessionToken : prog (result string) :=
  let! state := Load in
  Ret (if String.eqb (ss_SessionToken state) EmptyString then Err (ErrMsg "session token is not configured")
       else Ok (ss_SessionToken state)).

Section Identity.
(** [ed25519.NewKeyFromSeed]: the public key. *)
Context (PublicKey : bytes -> bytes).

Definition identityFromSeed (encoded : string) : result bytes :=
  match b64_decode_string encoded with
  | Some seed => if zlen seed =? 32 then Ok (PublicKey seed) else Err (ErrMsg "stored Ed25519 seed is invalid")
  | None => Err (ErrMsg "stored Ed25519 seed is invalid")
  end.

Definition loadOrCreateIdentity (entropy : Z -> result bytes) : prog (result bytes) :=
  ensurePrivateDir ;!
  let! state := LoadForMutation in
  if negb (String.eqb (ss_Seed state) EmptyString) then Ret (identityFromSeed (ss_Seed state))
  else
    match entropy 32 with
    | Err err => Ret (Err (ErrWrap "generate Ed25519 seed" err))
    | Ok seed =>
      let state := MkSecretState (b64_encode_string seed) (ss_SessionToken state) in
      Save state ;! Ret (identityFromSeed (ss_Seed state))
    end.

Definition LoadIdentity : prog (result bytes) :=
  let! state := Load in
  Ret (if String.eqb (ss_Seed state) EmptyString then Err (ErrMsg "Agent identity is not initialized")
       else identityFromSeed (ss_Seed state)).

(** ** Settings *)

(** [json.Decoder.Decode] of the whole file with unknown fields refused, and
    [json.MarshalIndent], of the settings record. *)
Context (decode_json : bytes -> result Config) (marshal_indent : Config -> result bytes).
Context (home : Home).

Definition with_channel (c : Config) (channel : string) : Config :=
  MkConfig (cf_Version c) (cf_GatewayURL c) (cf_GatewayAliases c) (cf_CAFile c) (cf_DeviceID c) (cf_AuthorizationID c)
    (cf_TokenID c) channel (cf_Endpoints c) (cf_Limits c).

Definition default_channel (c : Config) : Config :=
  if String.eqb (cf_UpdateChannel c) EmptyString then with_channel c "stable" else c.

Definition decode_config (data : bytes) : result Config :=
  match decode_json data with
  | Err err => Err (ErrWrap "decode config" err)
  | Ok config =>
    reject_if (negb (cf_Version config =? ConfigVersion)) (ErrMsg "unsupported config version") ;? Ok (default_channel config)
  end.

Definition loadConfigUnlocked : prog (result Config) :=
  let* path := ConfigPath home in
  let* data := call (ReadTrusted path) in
  Ret (match data with
       | Err err => if errors_is err os_ErrNotExist then Ok AgentConfig.DefaultConfig else Err (ErrWrap "read config" err)
       | Ok data => decode_config data
       end).

Definition LoadConfig : prog (result Config) := ensureStateReadable ;! loadConfigUnlocked.

(** [sort.Slice] by id (the order of equal ids is not specified). *)
Fixpoint insert_endpoint (e : Endpoint) (sorted : list Endpoint) : list Endpoint :=
  match sorted with
  | [] => [e]
  | x :: rest => if String.ltb (ep_ID e) (ep_ID x) then e :: sorted else x :: insert_endpoint e rest
  end.

Definition sort_endpoints (endpoints : list Endpoint) : list Endpoint := foldr insert_endpoint [] endpoints.

Definition saved_form (c : Config) : Config :=
  let c := default_channel c in
  MkConfig ConfigVersion (cf_GatewayURL c) (cf_GatewayAliases c) (cf_CAFile c) (cf_DeviceID c) (cf_AuthorizationID c)
    (cf_TokenID c) (cf_UpdateChannel c) (sort_endpoints (cf_Endpoints c)) (cf_Limits c).

Definition saveConfigUnlocked (c : Config) : prog (result unit) :=
  match marshal_indent (saved_form c) with
  | Err err => Ret (Err (ErrWrap "encode config" err))
  | Ok data => let* path := ConfigPath home in writeStateFile path (data ++ [Byte.x0a])
  end.

Definition SaveConfig (c : Config) : prog (result unit) := locked home (saveConfigUnlocked c).

Definition MutateConfig (mutate : Config -> result Config) : prog (result unit) :=
  locked home
    (let! config := loadConfigUnlocked in
     match mutate config with Err err => Ret (Err err) | Ok config => saveConfigUnlocked config end).

(** ** The mutations *)

Definition initialize_body (entropy : Z -> result bytes) : prog (result bytes) :=
  let! config := loadConfigUnlocked in
  saveConfigUnlocked config ;!
  loadOrCreateIdentity entropy.

Definition initializeAgentState (entropy : Z -> result bytes) : prog (result bytes) :=
  locked home (runStateTransaction home (initialize_body entropy)).

(** The requested settings over the current ones; the slice of endpoints is
    sorted in place by the save. *)
Definition requested_over (current requested : Config) : Config :=
  MkConfig (cf_Version current) (cf_GatewayURL requested) (cf_GatewayAliases requested)
    (if String.eqb (cf_CAFile requested) EmptyString then cf_CAFile current else cf_CAFile requested)
    (cf_DeviceID requested) (cf_AuthorizationID requested) (cf_TokenID requested) (cf_UpdateChannel requested)
    (cf_Endpoints current) (cf_Limits current).

Definition configure_body (url_Parse : string -> result URL) (entropy : Z -> result bytes) (requested : Config)
    (token : string) : prog (result Config) :=
  let! current := loadConfigUnlocked in
  let current := requested_over current requested in
  match ValidateRuntime url_Parse current with
  | Err err => Ret (Err err)
  | Ok _ =>
    let! _ := loadOrCreateIdentity entropy in
    saveConfigUnlocked current ;!
    SetSessionToken token ;!
    Ret (Ok (with_endpoints current (sort_endpoints (cf_Endpoints current))))
  end.

Definition configureAgentState (url_Parse : string -> result URL) (entropy : Z -> result bytes) (requested : Config)
    (token : string) : prog (result Config) :=
  locked home (runStateTransaction home (configure_body url_Parse entropy requested token)).

Definition rotate_body (entropy : Z -> result bytes) : prog (result bytes) :=
  ensurePrivateDir ;!
  let! state := LoadForMutation in
  if String.eqb (ss_Seed state) EmptyString then Ret (Err (ErrMsg "Agent identity is not initialized; run init first"))
  else
    match entropy 32 with
    | Err err => Ret (Err (ErrWrap "generate replacement Ed25519 seed" err))
    | Ok seed =>
      Save (MkSecretState (b64_encode_string seed) (ss_SessionToken state)) ;!
      let! saved := LoadForMutation in
      Ret (identityFromSeed (ss_Seed saved))
    end.

Definition rotateAgentIdentity (entropy : Z -> result bytes) : prog (result bytes) :=
  locked home (runStateTransaction home (rotate_body entropy)).
End Identity.

(** ** The secret file *)

Lemma secret_roundtrip state :
  utf8_valid (bytes_of (ss_Seed state)) = true -> utf8_valid (bytes_of (ss_SessionToken state)) = true ->
  decodeSecretState (encodeSecretState state) = Ok state.
Proof.
  intros H1 H2. assert (Hm : members_ok (SecretState_members state)).
  { unfold SecretState_members. apply Forall_app; split; destruct (String.eqb _ _); try apply Forall_nil_2; by repeat constructor. }
  assert (Hf : Forall (member_fits SecretState_schema true) (SecretState_members state)).
  { unfold SecretState_members. apply Forall_app; split; destruct (String.eqb _ _); try apply Forall_nil_2; by repeat constructor. }
  assert (Hd : decodeStrict SecretState_schema (encodeSecretState state) = Ok (put_members SecretState_schema (SecretState_members state) ∅)).
  { unfold decodeStrict, encodeSecretState. rewrite marshal_object_document by done. cbn [decode_struct]. by rewrite decode_marshalled. }
  unfold decodeSecretState. rewrite Hd. destruct (encodeSecretState state) eqn:E; [done |]. f_equal.
  destruct state as [seed token]. unfold SecretState_members. cbn [ss_Seed ss_SessionToken].
  destruct (String.eqb_spec seed EmptyString) as [->|], (String.eqb_spec token EmptyString) as [->|]; reflexivity.
Qed.

(** ** What the steps of a mutation do *)

(** What a file of secrets, or none, holds. *)
Definition holds (n : option node) (state : SecretState) : Prop :=
  match n with
  | None => state = MkSecretState EmptyString EmptyString
  | Some (File data) => decodeSecretState data = Ok state
  | Some _ => False
  end.

Lemma holds_fun n a b : holds n a -> holds n b -> a = b.
Proof. destruct n as [[]|]; cbn; [congruence | done | done | congruence]. Qed.

Section Reads.
Context {steady : bool}.
#[local] Hint Extern 0 (Machine op _ _) => exact (exec_file steady) : typeclass_instances.

Lemma inspect_safe (P : files -> Prop) s : P s -> safe P (okay (fun _ s' => s' = s)) inspectPrivateDir s.
Proof.
  intros Hs. unfold inspectPrivateDir. eapply safe_then; [by apply safe_wrapped, safe_quiet |]. intros _ ? _ ->.
  eapply safe_bind; [by apply safe_read |]. intros r s1 _ (-> & _). apply safe_ret; [done |].
  destruct r as [d|e]; [by destruct (bool_decide _) | by destruct (errors_is _ _)].
Qed.

Lemma load_safe (P : files -> Prop) s :
  P s -> safe P (okay (fun state s' => s' = s /\ holds (s !! secretPath) state)) LoadForMutation s.
Proof.
  intros Hs. unfold LoadForMutation. eapply safe_then; [by apply inspect_safe |]. intros _ ? _ ->.
  eapply safe_bind; [by apply safe_read |]. intros r s1 _ (-> & Hr & Hn). apply safe_ret; [done |]. destruct r as [d|e].
  - destruct (Hr _ eq_refl) as [Hd _]. destruct (decodeSecretState d) eqn:E; [| done]. split; [done |]. by rewrite Hd.
  - destruct (errors_is e os_ErrNotExist) eqn:E; [| done]. split; [done |]. by rewrite (Hn e eq_refl E).
Qed.

Lemma load_config_quiet (P : files -> Prop) decode_json home s :
  P s -> safe P (fun _ s' => s' = s) (loadConfigUnlocked decode_json home) s.
Proof.
  intros Hs. unfold loadConfigUnlocked. eapply safe_bind; [by apply locate_some |]. intros path s1 _ (-> & _ & _).
  eapply safe_bind; [by apply safe_read |]. intros r s2 _ (-> & _). by apply safe_ret.
Qed.
End Reads.

Section Steps.
Context (home : Home) (s0 : files).
#[local] Hint Extern 0 (Machine op _ _) => exact (exec_file true) : typeclass_instances.
Abbreviation config := (settings_path (located home s0)).

Lemma only_other (s s' : files) t :
  (only scratch config t s s' -> journal_same s s' /\ s' !! secretPath = s !! secretPath) /\
  (only scratch secretPath t s s' -> journal_same s s' /\ s' !! config = s !! config).
Proof.
  destruct (config_outside (located home s0)) as (H1 & H2 & H3 & H4 & H5).
  split; intros Ho; (split; [eapply state_file_journal; [| exact Ho]; first [by left | right; by eexists] |]);
    destruct Ho as [Ho _]; apply Ho; try done. apply secret_not_scratch.
Qed.

Lemma journal_same_trans s1 s2 s3 : journal_same s1 s2 -> journal_same s2 s3 -> journal_same s1 s3.
Proof. intros H1 H2 p Hp. by rewrite H2, H1. Qed.

(** Only the marker may change. *)
Lemma prepare_dir_safe s :
  journal_same s0 s ->
  safe (journal_same s0) (okay (fun _ s' => s' !! config = s !! config /\ s' !! secretPath = s !! secretPath))
    ensurePrivateDir s.
Proof.
  intros Hs. eapply safe_mono.
  - apply (private_dir_safe (fun s' => forall p, p <> stateMarker -> s' !! p = s !! p)); [done |].
    intros s' n H p Hp. rewrite lookup_insert_ne by congruence. by apply H.
  - intros s' H. eapply journal_same_trans; [exact Hs |]. intros p Hp. apply H. intros ->. by destruct Hp as [?|[?|?]].
  - intros [u|e] s' H _; [| done]. split; apply H; by destruct (located home s0).
Qed.

Lemma save_safe state s :
  journal_same s0 s ->
  safe (journal_same s0) (okay (fun _ s' => s' !! config = s !! config /\
    s' !! secretPath = Some (File (encodeSecretState state)))) (Save state) s.
Proof.
  intros Hs. eapply safe_mono; [apply (writeStateFile_safe secretPath); by left | |].
  - intros s' Ho. eapply journal_same_trans; [exact Hs |]. by eapply only_other.
  - intros [u|e] s' Ho H; [| done]. split; [by eapply only_other | exact H].
Qed.

Lemma set_token_safe token s :
  journal_same s0 s ->
  safe (journal_same s0) (okay (fun _ s' => s' !! config = s !! config /\
    exists state, holds (s !! secretPath) state /\
      s' !! secretPath = Some (File (encodeSecretState (MkSecretState (ss_Seed state) token))))) (SetSessionToken token) s.
Proof.
  intros Hs. unfold SetSessionToken. eapply safe_then; [by apply prepare_dir_safe |]. intros u1 s1 Hs1 [Hc1 Hx1].
  eapply safe_then; [by apply load_safe |]. intros state s2 _ [-> Hh].
  eapply safe_mono; [by apply save_safe | done |]. intros [u|e] s3 _ H; [| done]. destruct H as [Hc3 Hx3].
  split; [congruence |]. exists state. by rewrite <- Hx1.
Qed.

Lemma identity_safe PublicKey entropy s :
  journal_same s0 s ->
  safe (journal_same s0) (okay (fun key s' => s' !! config = s !! config /\
    exists state, holds (s !! secretPath) state /\
      ((ss_Seed state <> EmptyString /\ identityFromSeed PublicKey (ss_Seed state) = Ok key /\ s' !! secretPath = s !! secretPath) \/
       (exists seed, ss_Seed state = EmptyString /\ entropy 32 = Ok seed /\ identityFromSeed PublicKey (b64_encode_string seed) = Ok key /\
          s' !! secretPath = Some (File (encodeSecretState (MkSecretState (b64_encode_string seed) (ss_SessionToken state))))))))
    (loadOrCreateIdentity PublicKey entropy) s.
Proof.
  intros Hs. unfold loadOrCreateIdentity. eapply safe_then; [by apply prepare_dir_safe |]. intros u1 s1 Hs1 [Hc1 Hx1].
  eapply safe_then; [by apply load_safe |]. intros state s2 _ [-> Hh]. rewrite Hx1 in Hh.
  destruct (String.eqb_spec (ss_Seed state) EmptyString) as [Es|Es]; cbn [negb].
  - destruct (entropy 32) as [seed|e] eqn:Ee; [| by apply safe_err]. cbv zeta. cbn [ss_Seed].
    eapply safe_then; [by apply save_safe |]. intros u3 s3 Hs3 [Hc3 Hx3]. apply safe_ret; [done |].
    destruct (identityFromSeed _ _) as [key|e] eqn:Ei; [| done]. split; [congruence |]. exists state. split; [done |]. right. by exists seed.
  - apply safe_ret; [done |]. destruct (identityFromSeed _ _) as [key|e] eqn:Ei; [| done]. split; [done |]. exists state. split; [done |]. by left.
Qed.

Context (decode_json : bytes -> result Config) (marshal_indent : Config -> result bytes).

(** What a settings file, or none, says. *)
Definition says (n : option node) (c : Config) : Prop :=
  match n with
  | None => c = AgentConfig.DefaultConfig
  | Some (File data) => decode_config decode_json data = Ok c
  | Some _ => False
  end.

Definition settings_file (c : Config) (n : option node) : Prop :=
  exists data, marshal_indent (saved_form c) = Ok data /\ n = Some (File (data ++ [Byte.x0a])).

Lemma load_config_safe (P : files -> Prop) s :
  P s -> safe P (okay (fun c s' => s' = s /\ says (pair_of home s).1 c)) (loadConfigUnlocked decode_json home) s.
Proof.
  intros Hs. unfold loadConfigUnlocked. eapply safe_bind; [by apply locate_safe |]. intros path s2 _ [-> ->].
  cbn [pair_of fst]. eapply safe_bind; [by apply safe_read |]. intros r s1 _ (-> & Hr & Hn).
  apply safe_ret; [done |]. destruct r as [d|e].
  - destruct (Hr _ eq_refl) as [Hd _]. destruct (decode_config _ d) eqn:E; [| done]. split; [done |]. by rewrite Hd.
  - destruct (errors_is e os_ErrNotExist) eqn:E; [| done]. split; [done |]. by rewrite (Hn e eq_refl E).
Qed.

Lemma save_config_safe c s :
  journal_same s0 s ->
  safe (journal_same s0) (okay (fun _ s' => s' !! secretPath = s !! secretPath /\ settings_file c (s' !! config)))
    (saveConfigUnlocked marshal_indent home c) s.
Proof.
  intros Hs. unfold saveConfigUnlocked. destruct (marshal_indent _) as [data|e] eqn:Em; [| by apply safe_err].
  eapply safe_bind; [by apply locate_safe |]. intros path s1 _ [-> ->]. rewrite (located_same home s0 s Hs).
  eapply safe_mono; [apply (writeStateFile_safe config); right; by eexists | |].
  - intros s' Ho. eapply journal_same_trans; [exact Hs |]. apply (proj1 (only_other s s' _) Ho).
  - intros [u|e] s' Ho H; [| done]. split; [apply (proj1 (only_other s s' _) Ho) |]. exists data. split; [done | exact H].
Qed.
End Steps.

(** ** What the mutations leave *)

Section Mutations.
#[local] Hint Extern 0 (Machine op _ _) => exact (exec_file true) : typeclass_instances.
Context (PublicKey : bytes -> bytes) (decode_json : bytes -> result Config) (marshal_indent : Config -> result bytes).
Context (home : Home) (old : option node * option node).
Abbreviation says := (says decode_json).
Abbreviation settings_file := (settings_file marshal_indent).

(** [configureAgentState] returning [c]: the requested settings over the
    current ones, which are valid; the token in place; and a device that had an
    identity keeps it. *)
Definition configured (url_Parse : string -> result URL) (requested : Config) (token : string) (c : Config)
    (q : option node * option node) : Prop :=
  exists current, says old.1 current /\ ValidateRuntime url_Parse (requested_over current requested) = Ok tt /\
    c = with_endpoints (requested_over current requested) (sort_endpoints (cf_Endpoints current)) /\
    settings_file (requested_over current requested) q.1 /\
    exists before after, holds old.2 before /\ q.2 = Some (File (encodeSecretState after)) /\ ss_SessionToken after = token /\
      (ss_Seed before <> EmptyString -> ss_Seed after = ss_Seed before).

Lemma configure_contained url_Parse entropy requested token :
  contained home old (configure_body PublicKey decode_json marshal_indent home url_Parse entropy requested token)
    (configured url_Parse requested token).
Proof.
  intros s Hd Hp. assert (Hc : s !! settings_path (located home s) = old.1) by (by rewrite <- Hp).
  assert (Hx : s !! secretPath = old.2) by (by rewrite <- Hp).
  unfold configure_body.
  eapply safe_then; [by apply (load_config_safe home decode_json (journal_same s)) |]. intros current s1 _ [-> Hcur]. rewrite Hp in Hcur. cbv zeta.
  destruct (ValidateRuntime _ _) as [[]|e] eqn:Ev; [| by apply safe_err].
  eapply safe_then; [by apply (identity_safe home s) |]. intros key s2 Hs2 (Hc2 & before & Hb & Hsec). rewrite Hx in Hb.
  eapply safe_then; [by apply (save_config_safe home s) |]. intros u3 s3 Hs3 [Hx3 Hf3].
  eapply safe_then; [by apply (set_token_safe home s) |]. intros u4 s4 Hs4 (Hc4 & st & Hst & Hx4). apply safe_ret; [done |].
  exists current. rewrite (pair_same home s s4) by (apply Hs4; auto). cbn [fst snd]. split; [done |]. split; [done |]. split; [done |]. split; [by rewrite Hc4 |].
  exists before, (MkSecretState (ss_Seed st) token). split_and!; try done. intros Hne. cbn [ss_Seed].
  destruct Hsec as [(_ & _ & E)|(seed & E & _)]; [| done].
  rewrite Hx3, E, Hx in Hst. by rewrite (holds_fun _ _ _ Hst Hb).
Qed.

(** [initializeAgentState] returning a key: the settings as they were, saved,
    and the identity of that key, the old one if there was one. *)
Definition initialized (entropy : Z -> result bytes) (key : bytes) (q : option node * option node) : Prop :=
  exists current state, says old.1 current /\ settings_file current q.1 /\ holds old.2 state /\
    ((ss_Seed state <> EmptyString /\ identityFromSeed PublicKey (ss_Seed state) = Ok key /\ q.2 = old.2) \/
     (exists seed, ss_Seed state = EmptyString /\ entropy 32 = Ok seed /\ identityFromSeed PublicKey (b64_encode_string seed) = Ok key /\
        q.2 = Some (File (encodeSecretState (MkSecretState (b64_encode_string seed) (ss_SessionToken state)))))).

Lemma initialize_contained entropy :
  contained home old (initialize_body PublicKey decode_json marshal_indent home entropy) (initialized entropy).
Proof.
  intros s Hd Hp. assert (Hc : s !! settings_path (located home s) = old.1) by (by rewrite <- Hp).
  assert (Hx : s !! secretPath = old.2) by (by rewrite <- Hp).
  unfold initialize_body. eapply safe_then; [by apply load_config_safe |]. intros current s1 _ [-> Hcur]. rewrite Hp in Hcur.
  eapply safe_then; [by apply save_config_safe |]. intros u2 s2 Hs2 [Hx2 Hf2].
  eapply safe_mono; [by apply identity_safe | done |]. intros [key|e] s3 Hs3 H; [| done]. destruct H as (Hc3 & state & Hst & Hsec).
  rewrite Hx2, Hx in Hst. exists current, state. rewrite (pair_same home s s3) by (apply Hs3; auto). cbn [fst snd]. rewrite Hc3. split_and!; try done.
  destruct Hsec as [(H1 & H2 & H3)|H]; [left; split_and!; congruence | right; exact H].
Qed.

(** [rotateAgentIdentity] returning a key: only the seed changed. *)
Definition rotated (entropy : Z -> result bytes) (key : bytes) (q : option node * option node) : Prop :=
  q.1 = old.1 /\ exists state seed, holds old.2 state /\ ss_Seed state <> EmptyString /\ entropy 32 = Ok seed /\
    q.2 = Some (File (encodeSecretState (MkSecretState (b64_encode_string seed) (ss_SessionToken state)))) /\
    exists saved, holds q.2 saved /\ identityFromSeed PublicKey (ss_Seed saved) = Ok key.

Lemma rotate_contained entropy : contained home old (rotate_body PublicKey entropy) (rotated entropy).
Proof.
  intros s Hd Hp. assert (Hc : s !! settings_path (located home s) = old.1) by (by rewrite <- Hp).
  assert (Hx : s !! secretPath = old.2) by (by rewrite <- Hp).
  unfold rotate_body. eapply safe_then; [by apply (prepare_dir_safe home s) |]. intros u1 s1 Hs1 [Hc1 Hx1].
  eapply safe_then; [by apply load_safe |]. intros state s2 _ [-> Hst]. rewrite Hx1, Hx in Hst.
  destruct (String.eqb_spec (ss_Seed state) EmptyString) as [Es|Es]; [by apply safe_err |].
  destruct (entropy 32) as [seed|e] eqn:Ee; [| by apply safe_err].
  eapply safe_then; [by apply (save_safe home) |]. intros u3 s3 Hs3 [Hc3 Hx3].
  eapply safe_then; [by apply load_safe |]. intros saved s4 _ [-> Hsv]. apply safe_ret; [done |].
  destruct (identityFromSeed _ _) as [key|e] eqn:Ei; [| done]. cbn [okay]. rewrite (pair_same home s s3) by (apply Hs3; auto).
  split; [cbn; congruence |]. exists state, seed. cbn [snd]. split_and!; try done. exists saved. by split.
Qed.

End Mutations.

(** ** Each mutation, all or nothing *)

(** The run of a mutation on [events] and of the recoveries after it: readers
    see the old pair or one the mutation means, and what it reports is true of
    the pair it left. *)
Definition decided {A : Type} (home : Home) (mutation : prog (result A)) (new : A -> option node * option node -> Prop)
    (s0 : files) (events : list event) (runs : list (list event)) : Prop :=
  let '(s1, done_) := run events mutation s0 in
  (all_sighted home runs s1 = true ->
   forall evs s3, run evs ensureStateReadable (recoveries home runs s1) = (s3, Some (Ok tt)) ->
     either (pair_of home s0) new (pair_of home s3)) /\
  (forall a, done_ = Some (Ok a) -> settled s1 /\ new a (pair_of home s1)).

Lemma contained_decided {A : Type} home (operation : prog (result A)) new s0 events runs :
  contained home (pair_of home s0) operation new -> settled s0 ->
  let mutation := locked home (runStateTransaction home operation) in
  sighted events mutation s0 = true -> decided home mutation new s0 events runs.
Proof.
  intros Hop Hs mutation Hv. pose proof (mutation_whole home operation new s0 events Hop Hs Hv) as H. unfold decided. fold mutation in H.
  destruct (run events _ s0) as [s1 done_]. destruct H as [Hw Hd]. split; [| exact Hd]. intros Hvs evs s3.
  eapply readable_whole, recoveries_whole; [exact Hvs | by left | exact Hw].
Qed.

(** C15: Each of the Agent's three mutations is all or nothing and does what it reports. Run under the lock from a settled state with any failures and any crash, and followed by any number of failing or crashing recoveries (in none of which the pointer to a settings file that was moved is there and cannot be read): whenever readers may read, settings and secrets are both as before or both as the mutation means. A reported configuration left valid settings (the requested ones over the current endpoints, limits and, when the request has none, trust anchor) together with the requested token, and kept an existing identity; a reported initialisation kept an existing identity and otherwise stored one from fresh entropy; a reported rotation changed nothing but the seed, and returns the key of the seed that is now stored. *)
Theorem agent_mutations_atomic PublicKey decode_json marshal_indent home url_Parse entropy requested token s0 events runs :
  settled s0 ->
  let old := pair_of home s0 in
  let configure := configureAgentState PublicKey decode_json marshal_indent home url_Parse entropy requested token in
  let initialize := initializeAgentState PublicKey decode_json marshal_indent home entropy in
  let rotate := rotateAgentIdentity PublicKey home entropy in
  (sighted events configure s0 = true ->
     decided home configure (configured decode_json marshal_indent old url_Parse requested token) s0 events runs) /\
  (sighted events initialize s0 = true ->
     decided home initialize (initialized PublicKey decode_json marshal_indent old entropy) s0 events runs) /\
  (sighted events rotate s0 = true -> decided home rotate (rotated PublicKey old entropy) s0 events runs).
Proof.
  intros Hs. cbv zeta. split_and!; intros Hv; apply contained_decided; try done;
    [apply configure_contained | apply initialize_contained | apply rotate_contained].
Qed.

(** A state with a default settings file and an identity; the replacement of
    the identity, run to its end. *)
Definition demo_secret : SecretState := MkSecretState (b64_encode_string (repeat "a"%byte 32)) "token".
Definition demo_home : files :=
  <[stateMarker := File stateMarkerContents]> {[ secretPath := File (encodeSecretState demo_secret) ]}.
Definition demo_entropy (n : Z) : result bytes := Ok (repeat "b"%byte (Z.to_nat n)).

Lemma demo_home_settled : settled demo_home.
Proof. split; [reflexivity |]. intros name. unfold demo_home. rewrite lookup_insert_ne by done. by rewrite lookup_singleton_ne. Qed.

Lemma agent_mutations_atomic_witness :
  exists s1 key, run (demo_events 90) (rotateAgentIdentity id unix_home demo_entropy) demo_home = (s1, Some (Ok key)) /\
    settled s1 /\ key = repeat "b"%byte 32 /\
    s1 !! secretPath = Some (File (encodeSecretState (MkSecretState (b64_encode_string (repeat "b"%byte 32)) "token"))).
Proof.
  pose proof (agent_mutations_atomic id (fun _ => Ok AgentConfig.DefaultConfig) (fun _ => Ok []) unix_home (fun _ => Err (ErrMsg EmptyString))
    demo_entropy AgentConfig.DefaultConfig EmptyString demo_home (demo_events 90) [] demo_home_settled) as (_ & _ & H).
  specialize (H ltac:(vm_compute; reflexivity)).
  unfold decided in H. destruct (run (demo_events 90) (rotateAgentIdentity id unix_home demo_entropy) demo_home) as [s1 r] eqn:E.
  assert (r = Some (Ok (repeat "b"%byte 32))) as -> by (apply (f_equal snd) in E; vm_compute in E; exact (eq_sym E)).
  destruct H as [_ H]. destruct (H _ eq_refl) as (Hs & _ & state & seed & Hh & _ & He & Hp & _).
  exists s1, (repeat "b"%byte 32). split; [reflexivity |]. split; [exact Hs |]. split; [reflexivity |].
  cbn [pair_of snd] in Hp. rewrite Hp. injection He as <-. cbn [pair_of snd demo_home] in Hh.
  unfold demo_home in Hh. rewrite lookup_insert_ne, lookup_singleton_eq in Hh by done. cbn [holds] in Hh.
  assert (decodeSecretState (encodeSecretState demo_secret) = Ok demo_secret) as Hd by (apply secret_roundtrip; vm_compute; reflexivity).
  rewrite Hd in Hh. injection Hh as <-. reflexivity.
Defined.

(** ** When the pointer cannot be read

    A configuration with one endpoint, kept beside the program; in a
    reconfiguration only the reading of the pointer before the settings are
    loaded fails.  Success is reported, and the endpoint is gone. *)

Definition demo_configured : Config :=
  MkConfig ConfigVersion "wss://gateway.example/agent/v1/connect" [] EmptyString "device-1" "auth-1" "token-1" "stable"
    [MkEndpoint "web" "127.0.0.1:80" "tcp"] None.

Definition demo_moved_home : files :=
  <[settingsLocation := File demo_pointer]> (<[settings_path demo_moved := File (bytes_of "one endpoint")]> demo_home).

Definition demo_reconfigure (events : list event) : files * option (result Config) :=
  run events (configureAgentState id (fun _ => Ok demo_configured)
    (fun c => Ok (match cf_Endpoints c with [] => bytes_of "no endpoints" | _ => bytes_of "one endpoint" end)) unix_home
    (fun _ => Ok (MkURL "wss" "gateway.example" false "/agent/v1/connect" EmptyString EmptyString)) demo_entropy demo_configured
    "0123456789abcdef0123456789abcdef") demo_moved_home.

Lemma unread_pointer_loses_endpoints :
  let '(s1, r) := demo_reconfigure (demo_events 23 ++ demo_failure :: skipn 24 (demo_events 150)) in
  cf_Endpoints demo_configured <> [] /\ (exists c, r = Some (Ok c) /\ cf_Endpoints c = []) /\
  (pair_of unix_home s1).1 = Some (File (bytes_of "no endpoints" ++ [Byte.x0a])).
Proof. vm_compute. split; [discriminate |]. split; [by eexists | reflexivity]. Qed.
