(* ===== verification/ConfigLock.v ===== *)
(** * ConfigLock: one mutation of the Agent's state at a time

    [withConfigLock] of [internal/agent/config_lock.go]: the lock file that
    keeps the mutations of {!StateOps} apart when several processes (the
    service, the tray, the command line) run them, and the table of mutexes
    that does the same for the goroutines of one process.

    The lock file is a record with the process identifier of its owner, created
    exclusively.  Every file system call of [withConfigLock], of the inspection
    of a lock that is taken and of its release is one step; processes
    interleave, die, and calls fail at will.  What runs under the lock
    ([recoverStateTransaction] and the operation, {!StateTxn.locked}) is the
    state [Holding].  File identities and creation times that a process state
    carries are for the statements only: no step looks at them.  The lock file
    is only touched by these processes, and the wall clock does not go back. *)

From stdpp Require Import relations.
From S2P Require Import Prelude GoText GoTime GoStamp GoFloat GoDuration Json StrictJson JsonMarshal JsonLine.

Definition configLockWait : Z := 5 * Second.
Definition legacyLockStaleAfter : Z := 30 * Second.
Definition configLockFileVersion : Z := 1.

(** ** The record *)

Record configLockRecord := MkConfigLockRecord { cl_Version : Z; cl_PID : Z; cl_CreatedAt : string }.

Definition configLockRecord_schema : schema := [("version", KInt); ("pid", KInt); ("created_at", KString)].

Definition configLockRecord_of (m : gmap string field_val) : configLockRecord :=
  MkConfigLockRecord (get_int m "version") (get_int m "pid") (get_string m "created_at").

Definition decodeConfigLockRecord (data : bytes) : result configLockRecord :=
  match decodeStrict configLockRecord_schema data with
  | Err err => Err err
  | Ok fields =>
    let record := configLockRecord_of fields in
    reject_if (negb (cl_Version record =? configLockFileVersion) || (cl_PID record <=? 0)) (ErrMsg "unsupported config lock metadata") ;?
    match go_parse_rfc3339 (cl_CreatedAt record) with
    | Some createdAt => reject_if (is_zero_time (z_instant createdAt)) (ErrMsg "invalid config lock created_at") ;? Ok record
    | None => Err (ErrMsg "invalid config lock created_at")
    end
  end.

Definition record_members (pid : Z) (now : instant) : list (string * marshal_val) :=
  [("version", MInt configLockFileVersion); ("pid", MInt pid); ("created_at", MString (format_rfc3339_nano now))].

Definition record_line (pid : Z) (now : instant) : bytes := marshal_object (record_members pid now) ++ [Byte.x0a].

(** ** Steps *)

Record lock_file := MkLockFile { lk_id : nat; lk_regular : bool; lk_data : bytes; lk_mtime : instant }.

Record shared := MkShared { sh_lock : option lock_file; sh_next : nat; sh_now : instant }.

(** The next file system call of a process, or the work under the lock. *)
Inductive pc :=
| Outside
| Preparing                                                        (* ensurePrivateDir *)
| Trying (deadline : instant) (last : string)                      (* OpenFile *)
| Unclear (deadline : instant) (last : string)                     (* Lstat after a failed OpenFile *)
| Created (id : nat) (since : instant)                             (* Write of the record *)
| Recorded (id : nat) (since : instant) (data : bytes)             (* Sync and Close *)
| Undoing (id : nat) (since : instant) (err : error)               (* Remove after a failure *)
| Holding (id : nat) (data : bytes)
| Releasing (id : nat) (data : bytes) (deadline : instant) (outcome : result unit)   (* ReadFile *)
| Deleting (id : nat) (data : bytes) (deadline : instant) (outcome : result unit)    (* Remove *)
| Inspecting (seen deadline : instant) (last : string)             (* Lstat *)
| Reading (seen mtime deadline : instant) (last : string)          (* ReadFile *)
| Restat (expected : bytes) (mtime deadline : instant) (last : string)
| Reread (id : nat) (expected : bytes) (deadline : instant) (last : string)
| Reclaiming (id : nat) (deadline : instant) (last : string)       (* Remove *)
| Ended (r : result unit).

(** What the environment answers to one call: whether and how it fails, how far
    a failing write gets, which processes [processAlive] finds, and what the
    work under the lock returns. *)
Record os_answer := MkAnswer {
  an_fails : bool;
  an_error : error;
  an_written : nat;
  an_alive : Z -> bool;
  an_outcome : result unit;
}.

Definition with_lock (w : shared) (f : option lock_file) : shared := MkShared f (sh_next w) (sh_now w).

(** A write through the handle of file [id], which may have been unlinked. *)
Definition write_handle (w : shared) (id : nat) (data : bytes) : shared :=
  match sh_lock w with
  | Some f =>
    if (lk_id f =? id)%nat then with_lock w (Some (MkLockFile id (lk_regular f) (lk_data f ++ data) (sh_now w))) else w
  | None => w
  end.

(** [errors.Join] of what the operation and the release returned. *)
Definition released (outcome release : result unit) : result unit :=
  match outcome, release with
  | Err a, Err b => Err (ErrWrap2 EmptyString a b)
  | Err a, Ok _ => Err a
  | Ok _, r => r
  end.

(** Someone else has the lock: a new observation renews the wait. *)
Definition contend (w : shared) (deadline : instant) (last observation : string) : pc :=
  let '(last, deadline) :=
    if String.eqb observation last then (last, deadline) else (observation, sh_now w + configLockWait) in
  if after (sh_now w) deadline then Ended (Err (ErrMsg "timed out waiting for live config lock")) else Trying deadline last.

Definition legacy_observation (mtime : instant) (size : Z) : string :=
  "legacy:" +:+ string_of (show_int mtime) +:+ ":" +:+ string_of (show_int size).

(** [inspectConfigLockWithProcessCheck] from the data it read. *)
Definition judge (me : Z) (alive : Z -> bool) (w : shared) (seen mtime deadline : instant) (last : string) (data : bytes) : pc :=
  match TrimSpace data with
  | [] =>
    if time_sub seen mtime <? legacyLockStaleAfter then contend w deadline last (legacy_observation mtime (zlen data))
    else Restat data mtime deadline last
  | _ =>
    match decodeConfigLockRecord data with
    | Err err => Ended (Err (ErrWrap "invalid config lock metadata" err))
    | Ok record =>
      if (cl_PID record =? me) || alive (cl_PID record) then contend w deadline last (string_of data)
      else Restat data mtime deadline last
    end
  end.

Definition failed (an : os_answer) (w : shared) (text : string) : shared * pc := (w, Ended (Err (ErrWrap text (an_error an)))).

(** *** [releaseOwnedConfigLock] *)

Definition release_read (an : os_answer) (w : shared) (id : nat) (data : bytes) (deadline : instant) (outcome : result unit) : shared * pc :=
  if an_fails an then (w, Ended (released outcome (Err (ErrWrap "read owned config lock before release" (an_error an)))))
  else match sh_lock w with
       | None => (w, Ended (released outcome (Ok tt)))
       | Some f =>
         if bool_decide (lk_data f = data) then (w, Deleting id data deadline outcome)
         else (w, Ended (released outcome (Err (ErrMsg "config lock ownership changed before release"))))
       end.

Definition release_remove (an : os_answer) (w : shared) (id : nat) (data : bytes) (deadline : instant) (outcome : result unit) : shared * pc :=
  if an_fails an then
    if after (sh_now w) deadline then (w, Ended (released outcome (Err (ErrWrap "release config lock" (an_error an)))))
    else (w, Releasing id data deadline outcome)
  else (with_lock w None, Ended (released outcome (Ok tt))).

(** *** [inspectConfigLockWithProcessCheck] *)

Definition inspect_stat (an : os_answer) (w : shared) (seen deadline : instant) (last : string) : shared * pc :=
  if an_fails an then failed an w "inspect config lock"
  else match sh_lock w with
       | None => (w, Trying deadline last)
       | Some f =>
         if lk_regular f then (w, Reading seen (lk_mtime f) deadline last)
         else (w, Ended (Err (ErrMsg "config lock path is not a private regular file")))
       end.

Definition inspect_read (me : Z) (an : os_answer) (w : shared) (seen mtime deadline : instant) (last : string) : shared * pc :=
  if an_fails an then failed an w "read config lock"
  else match sh_lock w with
       | None => (w, Trying deadline last)
       | Some f => (w, judge me (an_alive an) w seen mtime deadline last (lk_data f))
       end.

(** *** [removeUnchangedLock] *)

Definition remove_stat (an : os_answer) (w : shared) (expected : bytes) (mtime deadline : instant) (last : string) : shared * pc :=
  if an_fails an then failed an w "reinspect config lock"
  else match sh_lock w with
       | None => (w, Trying deadline last)
       | Some f =>
         if lk_regular f && (lk_mtime f =? mtime) then (w, Reread (lk_id f) expected deadline last)
         else (w, contend w deadline last EmptyString)
       end.

Definition remove_read (an : os_answer) (w : shared) (id : nat) (expected : bytes) (deadline : instant) (last : string) : shared * pc :=
  if an_fails an then failed an w "reread config lock"
  else match sh_lock w with
       | None => (w, Trying deadline last)
       | Some f =>
         if bool_decide (lk_data f = expected) then (w, Reclaiming id deadline last)
         else (w, contend w deadline last EmptyString)
       end.

Definition remove_stale (an : os_answer) (w : shared) (deadline : instant) (last : string) : shared * pc :=
  if an_fails an then failed an w "remove stale config lock" else (with_lock w None, Trying deadline last).

(** *** [withConfigLock] *)

Definition create_lock (an : os_answer) (w : shared) (deadline : instant) (last : string) : shared * pc :=
  if an_fails an then (w, Unclear deadline last)
  else
    match sh_lock w with
    | Some _ => (w, Inspecting (sh_now w) deadline last)
    | None =>
      (MkShared (Some (MkLockFile (sh_next w) true [] (sh_now w))) (S (sh_next w)) (sh_now w),
       Created (sh_next w) (sh_now w))
    end.

Definition create_failed (an : os_answer) (w : shared) (deadline : instant) (last : string) : shared * pc :=
  if an_fails an then failed an w "inspect config lock after create failure"
  else match sh_lock w with
       | None => failed an w "create config lock"
       | Some _ => (w, Inspecting (sh_now w) deadline last)
       end.

Definition write_record (me : Z) (an : os_answer) (w : shared) (id : nat) (since : instant) : shared * pc :=
  let data := record_line me (sh_now w) in
  if an_fails an then (write_handle w id (firstn (an_written an) data), Undoing id since (an_error an))
  else (write_handle w id data, Recorded id since data).

(** One step of process [me]. *)
Definition advance (me : Z) (an : os_answer) (w : shared) (p : pc) : shared * pc :=
  match p with
  | Outside | Ended _ => (w, p)
  | Preparing => if an_fails an then (w, Ended (Err (an_error an))) else (w, Trying (sh_now w + configLockWait) EmptyString)
  | Trying deadline last => create_lock an w deadline last
  | Unclear deadline last => create_failed an w deadline last
  | Created id since => write_record me an w id since
  | Recorded id since data => if an_fails an then (w, Undoing id since (an_error an)) else (w, Holding id data)
  | Undoing id since err =>
    (if an_fails an then w else with_lock w None, Ended (Err (ErrWrap "initialize config lock" err)))
  | Holding id data => (w, Releasing id data (sh_now w + configLockWait) (an_outcome an))
  | Releasing id data deadline outcome => release_read an w id data deadline outcome
  | Deleting id data deadline outcome => release_remove an w id data deadline outcome
  | Inspecting seen deadline last => inspect_stat an w seen deadline last
  | Reading seen mtime deadline last => inspect_read me an w seen mtime deadline last
  | Restat expected mtime deadline last => remove_stat an w expected mtime deadline last
  | Reread id expected deadline last => remove_read an w id expected deadline last
  | Reclaiming id deadline last => remove_stale an w deadline last
  end.

Create HintDb calls.
#[local] Hint Unfold release_read release_remove inspect_stat inspect_read remove_stat remove_read remove_stale create_lock
  create_failed write_record failed : calls.

(** ** Processes *)

Record system := MkSystem { sy_shared : shared; sy_procs : gmap Z pc; sy_dead : gset Z }.

Definition idle (p : pc) : Prop := match p with Outside | Ended _ => True | _ => False end.

(** [processAlive] misses no process: a process it does not find is gone, and
    its identifier is not used again. *)
Definition sees_living (s : system) (an : os_answer) : Prop := forall pid, an_alive an pid = false -> pid ∈ sy_dead s.

Definition with_proc (s : system) (w : shared) (me : Z) (p : pc) : system := MkSystem w (<[me := p]> (sy_procs s)) (sy_dead s).

(** The label is the process that took the step. *)
Inductive lock_step : option Z -> system -> system -> Prop :=
| ls_spawn s me : 0 < me < 2 ^ 63 -> me ∉ sy_dead s -> sy_procs s !! me = None ->
    lock_step None s (with_proc s (sy_shared s) me Outside)
| ls_enter s me p : sy_procs s !! me = Some p -> idle p -> lock_step None s (with_proc s (sy_shared s) me Preparing)
| ls_run s me p an : sy_procs s !! me = Some p -> sees_living s an ->
    lock_step (Some me) s
      (with_proc s (advance me an (sy_shared s) p).1 me (advance me an (sy_shared s) p).2)
| ls_die s me p : sy_procs s !! me = Some p ->
    lock_step None s (MkSystem (sy_shared s) (delete me (sy_procs s)) ({[me]} ∪ sy_dead s))
| ls_tick s d : 0 <= d -> year_range ((sh_now (sy_shared s) + d) / Second) ->
    lock_step None s
      (MkSystem (MkShared (sh_lock (sy_shared s)) (sh_next (sy_shared s)) (sh_now (sy_shared s) + d)) (sy_procs s) (sy_dead s)).

(** *** The record that is written *)

Definition blank_lock (data : bytes) : Prop := TrimSpace data = [].

Lemma trim_left_keeps c spaces fuel : forall bs,
  Forall (fun w => c ∉ w) spaces -> c ∈ bs -> c ∈ trim_left spaces fuel bs.
Proof.
  induction fuel as [|f IH]; intros bs Hs Hc; cbn [trim_left]; [done |].
  destruct (find _ spaces) as [w|] eqn:E; [| done]. apply IH; [done |].
  apply find_some in E as [Hin Hp]. rewrite Forall_forall in Hs. specialize (Hs w (proj2 (list_elem_of_In spaces w) Hin)).
  assert (Hsk : forall v b, is_prefix v b = true -> b = v ++ skipn (length v) b).
  { clear. induction v as [|x v IH]; intros [|y b] H; cbn in *; try done. apply andb_true_iff in H as [Hx H].
    apply Byte.byte_dec_bl in Hx as ->. by rewrite <- IH. }
  rewrite (Hsk _ _ Hp) in Hc. by apply elem_of_app in Hc as [Hc|Hc].
Qed.

Lemma brace_not_blank r : ~ blank_lock ("{"%byte :: r).
Proof.
  unfold blank_lock, TrimSpace. cbn [length]. set (left := trim_left white_space (S (length r)) ("{"%byte :: r)).
  assert (Hl : "{"%byte ∈ left).
  { apply trim_left_keeps; [| left]. by apply (bool_decide_unpack (Forall (fun w => "{"%byte ∉ w) white_space)). }
  intros H. apply (f_equal (@rev _)) in H. rewrite rev_involutive in H. cbn [rev] in H.
  assert (Hc : "{"%byte ∈ @nil Byte.byte); [| by apply elem_of_nil in Hc]. rewrite <- H. apply trim_left_keeps.
  - by apply (bool_decide_unpack (Forall (fun w => "{"%byte ∉ w) ((fun w : bytes => rev w) <$> white_space))).
  - apply list_elem_of_In. rewrite <- in_rev. by apply list_elem_of_In.
Qed.

Section Record_line.
Context (pid : Z) (now : instant) (Hpid : 0 < pid < 2 ^ 63) (Hnow : year_range (now / Second)).

Lemma stamp_braceless : braceless (format_rfc3339_nano now).
Proof using Hnow.
  pose proof (parse_formatted now Hnow) as H. apply timestamp_plain in H.
  assert (Hb : forall b, plain_timestamp_byte b = true -> is_ascii b = true /\ b <> rbrace) by (intros []; vm_compute; first [done | split; [done | discriminate]]).
  rewrite forallb_forall in H. split.
  - apply forallb_forall. intros b Hin. by apply Hb, H.
  - intros Hin. apply list_elem_of_In in Hin. by apply H, Hb in Hin as [_ Hn].
Qed.

Lemma record_members_ok : members_ok (record_members pid now) /\ Forall member_braceless (record_members pid now).
Proof using All.
  pose proof stamp_braceless as Hs.
  assert (Hv : braceless "version") by (by split; [| apply (bool_decide_unpack (rbrace ∉ bytes_of "version"))]).
  assert (Hp : braceless "pid") by (by split; [| apply (bool_decide_unpack (rbrace ∉ bytes_of "pid"))]).
  assert (Hc : braceless "created_at") by (by split; [| apply (bool_decide_unpack (rbrace ∉ bytes_of "created_at"))]).
  split; repeat constructor; cbn [fst snd marshal_ok]; first [apply utf8_valid_ascii, Hs | apply Hs | apply Hv | apply Hp | apply Hc | done | lia].
Qed.

Lemma record_fits : Forall (member_fits configLockRecord_schema true) (record_members pid now).
Proof using Hpid. repeat apply Forall_cons_2; try apply Forall_nil_2; cbn; first [done | lia]. Qed.

(** Whatever a reader finds of the record, it is the record of [pid] or none. *)
Lemma torn_record k r : decodeConfigLockRecord (firstn k (record_line pid now)) = Ok r -> cl_PID r = pid.
Proof using All.
  destruct record_members_ok as [Hok Hb]. unfold decodeConfigLockRecord, decodeStrict.
  destruct (parse_document _) as [v|] eqn:Ep; [| done]. destruct v as [| | | | |ms]; cbn [decode_struct]; try done.
  apply (torn_line _ _ _ Hok Hb) in Ep as ->.
  rewrite (decode_marshalled _ _ _ _ record_fits). intros H.
  assert (Hr : configLockRecord_of (put_members configLockRecord_schema (record_members pid now) ∅) =
    MkConfigLockRecord configLockFileVersion pid (format_rfc3339_nano now)) by reflexivity.
  rewrite Hr in H. clear Hr Hok Hb. generalize dependent (format_rfc3339_nano now). intros stamp H. cbn [cl_Version cl_PID cl_CreatedAt] in H.
  destruct (_ || _); cbn [reject_if] in H; [done |]. destruct (go_parse_rfc3339 _); [| done].
  destruct (is_zero_time _); cbn [reject_if] in H; [done |]. by injection H as <-.
Qed.

Lemma record_decodes : decodeConfigLockRecord (record_line pid now) = Ok (MkConfigLockRecord configLockFileVersion pid (format_rfc3339_nano now)).
Proof using All.
  destruct record_members_ok as [Hok Hb]. unfold decodeConfigLockRecord, decodeStrict, record_line.
  rewrite line_document by done. cbn [decode_struct]. rewrite (decode_marshalled _ _ _ _ record_fits). cbv zeta.
  change (configLockRecord_of (put_members configLockRecord_schema (record_members pid now) ∅)) with
    (MkConfigLockRecord configLockFileVersion pid (format_rfc3339_nano now)). cbn [cl_Version cl_PID cl_CreatedAt].
  rewrite (proj2 (Z.leb_gt pid 0)) by lia. cbn [negb orb reject_if].
  rewrite (go_parse_utc _ _ (parse_formatted now Hnow)). cbn [z_instant]. unfold is_zero_time.
  rewrite (proj2 (Z.eqb_neq now zero_time)); [done |]. intros ->. revert Hnow. unfold year_range. vm_compute. intros [H _]. by apply H.
Qed.

Lemma record_not_blank k : blank_lock (firstn k (record_line pid now)) -> firstn k (record_line pid now) = [].
Proof using Type. destruct k; [done |]. intros H. by apply brace_not_blank in H. Qed.
End Record_line.

Lemma record_line_not_blank pid now : ~ blank_lock (record_line pid now).
Proof. apply brace_not_blank. Qed.

#[local] Opaque record_line decodeConfigLockRecord TrimSpace.

(** ** What the lock file says *)

(** The lock file a process has created and not given up. *)
Definition claim (p : pc) : option nat :=
  match p with
  | Created id _ | Recorded id _ _ | Undoing id _ _ | Holding id _ | Releasing id _ _ _ | Deleting id _ _ _ => Some id
  | _ => None
  end.

Definition wrote (me : Z) (data : bytes) : Prop := exists t, year_range (t / Second) /\ data = record_line me t.

(** The lock file is the one of the process, with what it has written. *)
Definition owns (w : shared) (me : Z) (p : pc) : Prop :=
  match p with
  | Created id since => exists f, sh_lock w = Some f /\ lk_id f = id /\ lk_data f = [] /\ since <= lk_mtime f /\ since <= sh_now w
  | Undoing id since _ =>
    exists f, sh_lock w = Some f /\ lk_id f = id /\ since <= lk_mtime f /\
      (exists t k, year_range (t / Second) /\ lk_data f = firstn k (record_line me t))
  | Recorded id since data =>
    exists f, sh_lock w = Some f /\ lk_id f = id /\ lk_data f = data /\ wrote me data /\ since <= lk_mtime f
  | Holding id data | Releasing id data _ _ | Deleting id data _ _ =>
    exists f, sh_lock w = Some f /\ lk_id f = id /\ lk_data f = data /\ wrote me data
  | _ => True
  end.

Definition taken (procs : gmap Z pc) (id : nat) : Prop := exists q p, procs !! q = Some p /\ claim p = Some id.

(** What a process that found the lock taken may rely on. *)
Definition watch (taken : nat -> Prop) (dead : gset Z) (w : shared) (p : pc) : Prop :=
  let expired expected (P : Prop) :=
    (blank_lock expected /\ P) \/ exists r, decodeConfigLockRecord expected = Ok r /\ cl_PID r ∈ dead in
  match p with
  | Inspecting seen _ _ | Reading seen _ _ _ => seen <= sh_now w
  | Restat expected mtime _ _ => expired expected (mtime + legacyLockStaleAfter <= sh_now w)
  | Reread id expected _ _ =>
    (id < sh_next w)%nat /\
    expired expected (taken id -> forall f, sh_lock w = Some f -> lk_id f = id -> ~ blank_lock (lk_data f))
  | Reclaiming id _ _ => (id < sh_next w)%nat /\ ~ taken id
  | _ => True
  end.

Record lock_inv (s : system) : Prop := MkLockInv {
  li_now : year_range (sh_now (sy_shared s) / Second);
  li_id : forall f, sh_lock (sy_shared s) = Some f -> (lk_id f < sh_next (sy_shared s))%nat;
  li_pid : forall q p, sy_procs s !! q = Some p -> 0 < q < 2 ^ 63 /\ q ∉ sy_dead s;
  li_own : forall q p, sy_procs s !! q = Some p -> owns (sy_shared s) q p;
  li_one : forall q q' p p', sy_procs s !! q = Some p -> sy_procs s !! q' = Some p' ->
    is_Some (claim p) -> is_Some (claim p') -> q = q';
  li_watch : forall q p, sy_procs s !! q = Some p -> watch (taken (sy_procs s)) (sy_dead s) (sy_shared s) p;
}.

(** A process that creates its record does so within the time after which
    others take an empty lock file for abandoned. *)
Definition prompt (s : system) : Prop :=
  forall q p, sy_procs s !! q = Some p ->
    match p with
    | Created _ since | Undoing _ since _ => sh_now (sy_shared s) < since + legacyLockStaleAfter
    | _ => True
    end.

(** Between the second look at a stale lock and its removal the lock path
    names the same file. *)
Definition undisturbed (s : system) (q : Z) : Prop :=
  match sy_procs s !! q with
  | Some (Reread id _ _ _) | Some (Reclaiming id _ _) => forall f, sh_lock (sy_shared s) = Some f -> lk_id f = id
  | _ => True
  end.

Definition calm_step (s s' : system) : Prop :=
  exists l, lock_step l s s' /\ prompt s /\ (forall q, l = Some q -> undisturbed s q).

(** *** Changes of the lock file *)

Lemma claimed_owns w q p id : owns w q p -> claim p = Some id -> exists f, sh_lock w = Some f /\ lk_id f = id.
Proof.
  intros H E. destruct p; cbn [claim] in E; try discriminate; injection E as <-; destruct H as (f & Hf & Hi & _); exists f; by split.
Qed.

(** A lock file that is there may lose its emptiness only. *)
Definition fuller (w w' : shared) : Prop :=
  forall f', sh_lock w' = Some f' -> (lk_id f' < sh_next w)%nat ->
    exists f, sh_lock w = Some f /\ lk_id f = lk_id f' /\ (lk_data f' = lk_data f \/ ~ blank_lock (lk_data f')).

Lemma fuller_same w w' : sh_lock w' = sh_lock w -> fuller w w'.
Proof. intros E f' Hf _. rewrite E in Hf. exists f'. split; [done |]. split; [done | by left]. Qed.

Lemma watch_mono (T T' : nat -> Prop) dead dead' w w' p :
  watch T dead w p -> sh_now w <= sh_now w' -> (sh_next w <= sh_next w')%nat -> dead ⊆ dead' -> fuller w w' ->
  (forall i, (i < sh_next w)%nat -> T' i -> T i) -> watch T' dead' w' p.
Proof.
  intros Hw Hn Hi Hd Hf HT. destruct p; cbn [watch] in *; try exact I; try lia.
  - destruct Hw as [[Hb Hm]|(r & Hr & Hin)]; [left; split; [done | lia] | right; exists r; split; [done | by apply Hd]].
  - destruct Hw as [Hid Hw]. split; [lia |]. destruct Hw as [[Hb Hm]|(r & Hr & Hin)]; [| right; exists r; split; [done | by apply Hd]].
    left. split; [done |]. intros Ht f' Hf' E. destruct (Hf f' Hf' ltac:(lia)) as (f & Hlf & Ef & [->|Hnb]); [| done].
    apply (Hm (HT _ Hid Ht) f Hlf). congruence.
  - destruct Hw as [Hid Hw]. split; [lia |]. intros Ht. by apply Hw, HT.
Qed.

Lemma taken_insert procs me p p' i : procs !! me = Some p -> taken (<[me := p']> procs) i -> claim p' = Some i \/ taken procs i.
Proof.
  intros Hp (q & r & Hq & Hc). apply lookup_insert_Some in Hq as [[<- <-]|[Hne Hq]]; [by left | right; by exists q, r].
Qed.

(** A process moves to [p'] while the lock becomes that of [w']. *)
Lemma move_inv s me p w' p' :
  lock_inv s -> sy_procs s !! me = Some p -> sh_now w' = sh_now (sy_shared s) -> (sh_next (sy_shared s) <= sh_next w')%nat ->
  (forall f, sh_lock w' = Some f -> (lk_id f < sh_next w')%nat) -> fuller (sy_shared s) w' ->
  (forall q r, q <> me -> sy_procs s !! q = Some r -> owns w' q r) -> owns w' me p' ->
  (claim p' = None \/ claim p' = claim p \/
    ((forall i, claim p' = Some i -> i = sh_next (sy_shared s)) /\ forall q r, sy_procs s !! q = Some r -> claim r = None)) ->
  watch (taken (<[me := p']> (sy_procs s))) (sy_dead s) w' p' ->
  lock_inv (with_proc s w' me p').
Proof.
  intros [Hnow Hid Hpid Hown Hone Hwatch] Hp Ew En Hid' Hf Ho Hme Hc Hwm.
  assert (HT : forall i, (i < sh_next (sy_shared s))%nat -> taken (<[me := p']> (sy_procs s)) i -> taken (sy_procs s) i).
  { intros i Hi Ht. destruct (taken_insert _ _ _ _ _ Hp Ht) as [E|]; [| done].
    destruct Hc as [Hc|[Hc|[Hc _]]]; [congruence | exists me, p; split; congruence | specialize (Hc _ E); lia]. }
  constructor; cbn [sy_shared sy_procs sy_dead with_proc].
  - by rewrite Ew.
  - exact Hid'.
  - intros q r Hq. apply lookup_insert_Some in Hq as [[<- _]|[_ Hq]]; [exact (Hpid _ _ Hp) | exact (Hpid _ _ Hq)].
  - intros q r Hq. apply lookup_insert_Some in Hq as [[<- <-]|[Hne Hq]]; [done | by apply Ho].
  - intros q q' r r' Hq Hq' Hr Hr'.
    apply lookup_insert_Some in Hq as [[<- <-]|[Hne Hq]]; apply lookup_insert_Some in Hq' as [[<- <-]|[Hne' Hq']].
    + done.
    + destruct Hc as [Hc|[Hc|[_ Hc]]]; [rewrite Hc in Hr; by destruct Hr | rewrite Hc in Hr; exact (Hone _ _ _ _ Hp Hq' Hr Hr') |].
      rewrite (Hc _ _ Hq') in Hr'. by destruct Hr'.
    + destruct Hc as [Hc|[Hc|[_ Hc]]]; [rewrite Hc in Hr'; by destruct Hr' | rewrite Hc in Hr'; exact (Hone _ _ _ _ Hq Hp Hr Hr') |].
      rewrite (Hc _ _ Hq) in Hr. by destruct Hr.
    + exact (Hone _ _ _ _ Hq Hq' Hr Hr').
  - intros q r Hq. apply lookup_insert_Some in Hq as [[<- <-]|[Hne Hq]]; [done |].
    eapply watch_mono; [exact (Hwatch _ _ Hq) | by rewrite Ew | done | done | done | exact HT].
Qed.

(** *** Steps keep it *)

Definition quiet (p : pc) : Prop := match p with Outside | Preparing | Trying _ _ | Unclear _ _ | Ended _ => True | _ => False end.

Lemma contend_quiet w deadline last observation : quiet (contend w deadline last observation).
Proof. unfold contend. destruct (String.eqb observation last), (after _ _); done. Qed.

Lemma unclaimed_owns w q p : claim p = None -> owns w q p.
Proof. by destruct p. Qed.

Lemma claimed_watch T dead w p id : claim p = Some id -> watch T dead w p.
Proof. by destruct p. Qed.

Section Moves.
Context (s : system) (me : Z) (p : pc) (Hinv : lock_inv s) (Hp : sy_procs s !! me = Some p).
Abbreviation w := (sy_shared s).

(** The world does not change and [me] claims nothing. *)
Lemma stay_inv p' : claim p' = None -> watch (taken (sy_procs s)) (sy_dead s) w p' -> lock_inv (with_proc s w me p').
Proof using Hinv Hp.
  intros Hc Hw. eapply move_inv; [done | exact Hp | done | done | apply Hinv | by apply fuller_same | intros q r _; by apply Hinv | by apply unclaimed_owns | by left |].
  eapply watch_mono; [exact Hw | done | done | done | by apply fuller_same |].
  intros i _ Ht. by destruct (taken_insert _ _ _ _ _ Hp Ht) as [E|]; [congruence |].
Qed.

Lemma quiet_inv p' : quiet p' -> lock_inv (with_proc s w me p').
Proof using Hinv Hp. intros Hq. apply stay_inv; by destruct p'. Qed.

(** The world does not change and [me] keeps its claim. *)
Lemma keep_inv p' id : claim p = Some id -> claim p' = Some id -> owns w me p' -> lock_inv (with_proc s w me p').
Proof using Hinv Hp.
  intros Hc Hc' Ho. eapply move_inv; [done | exact Hp | done | done | apply Hinv | by apply fuller_same | intros q r _; by apply Hinv | done | right; left; congruence |].
  by eapply claimed_watch.
Qed.

(** The lock is removed, and nobody else claims it. *)
Lemma remove_inv p' :
  (forall q r, q <> me -> sy_procs s !! q = Some r -> claim r = None) -> quiet p' -> lock_inv (with_proc s (with_lock w None) me p').
Proof using Hinv Hp.
  intros Hn Hq. eapply move_inv; [done | exact Hp | done | done | done | done | | by destruct p' | left; by destruct p' | by destruct p'].
  intros q r Hne Hr. apply unclaimed_owns. by eapply Hn.
Qed.

Lemma others_unclaimed id : claim p = Some id -> forall q r, q <> me -> sy_procs s !! q = Some r -> claim r = None.
Proof using Hinv Hp.
  intros Hc q r Hne Hr. destruct (claim r) as [i|] eqn:E; [| done]. destruct Hne.
  apply (li_one s Hinv _ _ _ _ Hr Hp); [by rewrite E | by rewrite Hc].
Qed.

(** The lock file is created: nobody claims one, since there was none. *)
Lemma create_inv :
  sh_lock w = None ->
  lock_inv (with_proc s (MkShared (Some (MkLockFile (sh_next w) true [] (sh_now w))) (S (sh_next w)) (sh_now w)) me (Created (sh_next w) (sh_now w))).
Proof using Hinv Hp.
  intros Hl. assert (Hn : forall q r, sy_procs s !! q = Some r -> claim r = None).
  { intros q r Hr. destruct (claim r) as [i|] eqn:E; [| done].
    destruct (claimed_owns _ _ _ _ (li_own s Hinv _ _ Hr) E) as (f & Hf & _). congruence. }
  eapply move_inv; [done | exact Hp | done | cbn; lia | | | | | |].
  - intros f [= <-]. cbn. lia.
  - intros f [= <-] Hlt. cbn in Hlt. lia.
  - intros q r _ Hr. apply unclaimed_owns. by eapply Hn.
  - cbn [owns sh_lock]. eexists. split; [reflexivity |]. cbn. split_and!; [done | done | lia | lia].
  - right. right. split; [by intros i [= <-] | exact Hn].
  - exact I.
Qed.

(** The record, or a part of it, is written. *)
Lemma write_inv id since k p' :
  p = Created id since -> claim p' = Some id ->
  (forall f, sh_lock (write_handle w id (firstn k (record_line me (sh_now w)))) = Some f -> lk_id f = id ->
     lk_data f = firstn k (record_line me (sh_now w)) -> since <= lk_mtime f ->
     owns (write_handle w id (firstn k (record_line me (sh_now w)))) me p') ->
  lock_inv (with_proc s (write_handle w id (firstn k (record_line me (sh_now w)))) me p').
Proof using Hinv Hp.
  intros Ep Hc Ho. pose proof (li_own s Hinv _ _ Hp) as Hown. rewrite Ep in Hown. destruct Hown as (f & Hf & Hi & Hd & _ & Hs).
  assert (Hcp : claim p = Some id) by (by rewrite Ep).
  set (data := firstn k _) in *.
  assert (Hw : write_handle w id data = with_lock w (Some (MkLockFile id (lk_regular f) data (sh_now w)))).
  { unfold write_handle. rewrite Hf, Hi, Nat.eqb_refl, Hd. done. }
  rewrite Hw in Ho |- *.
  eapply move_inv; [done | exact Hp | done | done | | | | | right; left; congruence | by eapply claimed_watch].
  - intros g [= <-]. cbn. rewrite <- Hi. by apply (li_id s Hinv).
  - intros g [= <-] _. exists f. split; [done |]. split; [done |]. cbn [lk_data]. rewrite Hd.
    destruct (decide (blank_lock data)) as [Hb|Hb]; [left | by right]. by apply record_not_blank.
  - intros q r Hne Hr. apply unclaimed_owns. by eapply (others_unclaimed id).
  - by eapply Ho.
Qed.
End Moves.

Lemma judge_inv s me seen mtime deadline last alive data :
  lock_inv s -> sy_procs s !! me = Some (Reading seen mtime deadline last) ->
  (forall pid, alive pid = false -> pid ∈ sy_dead s) -> seen <= sh_now (sy_shared s) ->
  lock_inv (with_proc s (sy_shared s) me (judge me alive (sy_shared s) seen mtime deadline last data)).
Proof.
  intros Hinv Hp Ha Hs. unfold judge. destruct (TrimSpace data) as [|b rest] eqn:Et.
  - destruct (Z.ltb_spec (time_sub seen mtime) legacyLockStaleAfter) as [Hl|Hl]; [eapply quiet_inv; [done | exact Hp | apply contend_quiet] |].
    eapply stay_inv; [done | exact Hp | done |]. cbn [watch]. left. split; [exact Et |].
    unfold time_sub, legacyLockStaleAfter, Second in *. lia.
  - destruct (decodeConfigLockRecord data) as [record|err] eqn:Ed; [| by eapply quiet_inv].
    destruct (_ || _) eqn:Eo; [eapply quiet_inv; [done | exact Hp | apply contend_quiet] |].
    apply orb_false_iff in Eo as [_ Eo]. eapply stay_inv; [done | exact Hp | done |]. cbn [watch]. right. exists record.
    split; [done |]. by apply Ha.
Qed.

(** The second look: an empty file that is old enough is nobody's, since its
    creator writes promptly. *)
Lemma restat_inv s me expected mtime deadline last f :
  lock_inv s -> prompt s -> sy_procs s !! me = Some (Restat expected mtime deadline last) ->
  sh_lock (sy_shared s) = Some f -> lk_mtime f = mtime ->
  lock_inv (with_proc s (sy_shared s) me (Reread (lk_id f) expected deadline last)).
Proof.
  intros Hinv Hprompt Hp Hf Hm. pose proof (li_watch s Hinv _ _ Hp) as Hw. cbn [watch] in Hw.
  eapply stay_inv; [done | exact Hp | done |]. cbn [watch]. split; [by apply (li_id s Hinv) |].
  destruct Hw as [[Hb Hage]|Hr]; [left | by right]. split; [done |]. intros (q & r & Hq & Hc) g Hg _. rewrite Hf in Hg. injection Hg as <-.
  pose proof (li_own s Hinv _ _ Hq) as Ho. pose proof (Hprompt _ _ Hq) as Hpr.
  destruct r; cbn [claim] in Hc; try discriminate; cbn [owns] in Ho; destruct Ho as (h & Hh & _ & Ho); rewrite Hf in Hh; injection Hh as <-.
  - cbn in Hpr. destruct Ho as (_ & Ho & _). lia.
  - destruct Ho as (-> & (t & _ & ->) & _). apply record_line_not_blank.
  - cbn in Hpr. destruct Ho as (Ho & _). lia.
  - destruct Ho as (-> & t & _ & ->). apply record_line_not_blank.
  - destruct Ho as (-> & t & _ & ->). apply record_line_not_blank.
  - destruct Ho as (-> & t & _ & ->). apply record_line_not_blank.
Qed.

(** The claims of a file whose content says that its owner is gone. *)
Lemma reread_inv s me id expected deadline last f :
  lock_inv s -> sy_procs s !! me = Some (Reread id expected deadline last) ->
  sh_lock (sy_shared s) = Some f -> lk_id f = id -> lk_data f = expected ->
  lock_inv (with_proc s (sy_shared s) me (Reclaiming id deadline last)).
Proof.
  intros Hinv Hp Hf Hi Hd. pose proof (li_watch s Hinv _ _ Hp) as Hw. cbn [watch] in Hw. destruct Hw as [Hid Hw].
  eapply stay_inv; [done | exact Hp | done |]. cbn [watch]. split; [done |]. intros Ht.
  destruct Hw as [[Hb Hn]|(rec & Hr & Hin)]; [by apply (Hn Ht f Hf Hi); rewrite Hd |].
  destruct Ht as (q & r & Hq & Hc). pose proof (li_own s Hinv _ _ Hq) as Ho. destruct (li_pid s Hinv _ _ Hq) as [Hpid Hdead].
  assert (Hwrote : exists t k, year_range (t / Second) /\ (expected = firstn k (record_line q t) \/ expected = record_line q t)).
  { destruct r; cbn [claim] in Hc; try discriminate; cbn [owns] in Ho; destruct Ho as (h & Hh & _ & Ho); rewrite Hf in Hh; injection Hh as <-.
    - destruct Ho as (Ho & _). exists 0, 0%nat. split; [by vm_compute | left]. rewrite <- Hd, Ho. done.
    - destruct Ho as (Ho & (t & Hy & E) & _). exists t, 0%nat. split; [done | right]. congruence.
    - destruct Ho as (_ & t & k & Hy & E). exists t, k. split; [done | left]. congruence.
    - destruct Ho as (Ho & t & Hy & E). exists t, 0%nat. split; [done | right]. congruence.
    - destruct Ho as (Ho & t & Hy & E). exists t, 0%nat. split; [done | right]. congruence.
    - destruct Ho as (Ho & t & Hy & E). exists t, 0%nat. split; [done | right]. congruence. }
  destruct Hwrote as (t & k & Hy & [E|E]); rewrite E in Hr; destruct Hdead.
  - by rewrite <- (torn_record q t Hpid Hy k rec Hr).
  - rewrite (record_decodes q t Hpid Hy) in Hr. injection Hr as <-. exact Hin.
Qed.

Lemma reclaim_inv s me id deadline last p' :
  lock_inv s -> sy_procs s !! me = Some (Reclaiming id deadline last) ->
  (forall f, sh_lock (sy_shared s) = Some f -> lk_id f = id) -> quiet p' ->
  lock_inv (with_proc s (with_lock (sy_shared s) None) me p').
Proof.
  intros Hinv Hp Hu Hq. pose proof (li_watch s Hinv _ _ Hp) as [_ Hn]. eapply remove_inv; [done | exact Hp | | done].
  intros q r _ Hr. destruct (claim r) as [i|] eqn:E; [| done]. destruct Hn.
  destruct (claimed_owns _ _ _ _ (li_own s Hinv _ _ Hr) E) as (f & Hf & Hi). exists q, r. split; [done |].
  rewrite E, <- Hi. by rewrite (Hu _ Hf).
Qed.

Lemma advance_inv s me p an :
  lock_inv s -> prompt s -> undisturbed s me -> sees_living s an -> sy_procs s !! me = Some p ->
  lock_inv (with_proc s (advance me an (sy_shared s) p).1 me (advance me an (sy_shared s) p).2).
Proof.
  intros Hinv Hprompt Hun Han Hp. pose proof (li_watch s Hinv _ _ Hp) as Hw. pose proof (li_own s Hinv _ _ Hp) as Ho.
  unfold undisturbed in Hun. rewrite Hp in Hun.
  assert (Hquiet : forall p', quiet p' -> lock_inv (with_proc s (sy_shared s) me p')) by (intros p'; by apply quiet_inv with (p := p)).
  destruct p; cbn [advance]; autounfold with calls; destruct (an_fails an) eqn:Ef; cbn [fst snd]; try (apply Hquiet; exact I).
  - destruct (sh_lock (sy_shared s)) eqn:El; cbn [fst snd]; [| by eapply create_inv].
    eapply stay_inv; [done | exact Hp | done |]. cbn [watch]. lia.
  - destruct (sh_lock (sy_shared s)) eqn:El; cbn [fst snd]; [| by apply Hquiet].
    eapply stay_inv; [done | exact Hp | done |]. cbn [watch]. lia.
  - eapply write_inv; [done | exact Hp | reflexivity | done |]. intros f Hf Hi Hd Hs. cbn [owns]. exists f. split_and!; try done.
    exists (sh_now (sy_shared s)), (an_written an). split; [apply Hinv | done].
  - rewrite <- (firstn_all (record_line me (sh_now (sy_shared s)))).
    eapply write_inv; [done | exact Hp | reflexivity | done |]. intros f Hf Hi Hd Hs. cbn [owns]. exists f. split_and!; try done.
    exists (sh_now (sy_shared s)). split; [apply Hinv | by rewrite firstn_all].
  - destruct Ho as (f & Hf & Hi & Hd & (t & Hy & E) & Hs).
    eapply keep_inv; [done | exact Hp | reflexivity | done |]. cbn [owns]. exists f. split_and!; try done.
    exists t, (length (record_line me t)). split; [done |]. rewrite firstn_all. congruence.
  - destruct Ho as (f & Hf & Hi & Hd & Hwr & _). eapply keep_inv; [done | exact Hp | reflexivity | done | by exists f].
  - eapply remove_inv; [done | exact Hp | by eapply others_unclaimed | exact I].
  - eapply keep_inv; [done | exact Hp | reflexivity | done | exact Ho].
  - eapply keep_inv; [done | exact Hp | reflexivity | done | exact Ho].
  - destruct (sh_lock (sy_shared s)) as [f|] eqn:El; cbn [fst snd]; [| by apply Hquiet].
    destruct (bool_decide _); cbn [fst snd]; [| by apply Hquiet]. eapply keep_inv; [done | exact Hp | reflexivity | done |]. exact Ho.
  - destruct (after _ _); cbn [fst snd]; [by apply Hquiet |]. eapply keep_inv; [done | exact Hp | reflexivity | done | exact Ho].
  - eapply remove_inv; [done | exact Hp | by eapply others_unclaimed | exact I].
  - destruct (sh_lock (sy_shared s)) as [f|] eqn:El; cbn [fst snd]; [| by apply Hquiet].
    destruct (lk_regular f); cbn [fst snd]; [| by apply Hquiet]. eapply stay_inv; [done | exact Hp | done | exact Hw].
  - destruct (sh_lock (sy_shared s)) as [f|] eqn:El; cbn [fst snd]; [| by apply Hquiet]. by apply judge_inv.
  - destruct (sh_lock (sy_shared s)) as [f|] eqn:El; cbn [fst snd]; [| by apply Hquiet].
    destruct (_ && _) eqn:Ec; cbn [fst snd]; [| apply Hquiet, contend_quiet]. apply andb_true_iff in Ec as [_ Em]. apply Z.eqb_eq in Em.
    by eapply restat_inv.
  - destruct (sh_lock (sy_shared s)) as [f|] eqn:El; cbn [fst snd]; [| by apply Hquiet].
    destruct (bool_decide_reflect (lk_data f = expected)) as [Ed|_]; cbn [fst snd]; [| apply Hquiet, contend_quiet].
    eapply reread_inv; [done | exact Hp | exact El | by apply Hun | done].
  - by eapply reclaim_inv.
Qed.

Lemma taken_smaller (procs procs' : gmap Z pc) i :
  (forall q p, procs' !! q = Some p -> claim p = None \/ procs !! q = Some p) -> taken procs' i -> taken procs i.
Proof. intros H (q & p & Hq & Hc). destruct (H q p Hq) as [E|E]; [congruence | by exists q, p]. Qed.

(** Fewer processes, or idle ones, a later clock, more dead. *)
Lemma weaken_inv s w' procs' dead' :
  lock_inv s -> sh_lock w' = sh_lock (sy_shared s) -> sh_next w' = sh_next (sy_shared s) -> sh_now (sy_shared s) <= sh_now w' ->
  year_range (sh_now w' / Second) -> sy_dead s ⊆ dead' ->
  (forall q p, procs' !! q = Some p -> 0 < q < 2 ^ 63 /\ q ∉ dead' /\ (quiet p \/ sy_procs s !! q = Some p)) ->
  lock_inv (MkSystem w' procs' dead').
Proof.
  intros Hinv El En Hle Hy Hd Hp. assert (Ho : forall q p, owns (sy_shared s) q p -> owns w' q p).
  { intros q p H. destruct p; cbn [owns] in *; rewrite ?El; try exact H. destruct H as (f & H1 & H2 & H3 & H4 & H5). exists f. split_and!; try done. lia. }
  constructor; cbn [sy_shared sy_procs sy_dead]; [done | | | | |].
  - rewrite El, En. apply Hinv.
  - intros q p Hq. destruct (Hp q p Hq) as (H1 & H2 & _). done.
  - intros q p Hq. destruct (Hp q p Hq) as (_ & _ & [H|H]); [by apply unclaimed_owns; destruct p | apply Ho; by apply Hinv].
  - intros q q' p p' Hq Hq' Hc Hc'. destruct (Hp q p Hq) as (_ & _ & [H|H]); [destruct p; cbn in *; try done; by destruct Hc |].
    destruct (Hp q' p' Hq') as (_ & _ & [H'|H']); [destruct p'; cbn in *; try done; by destruct Hc' |].
    exact (li_one s Hinv _ _ _ _ H H' Hc Hc').
  - intros q p Hq. destruct (Hp q p Hq) as (_ & _ & [H|H]); [by destruct p |].
    eapply watch_mono; [exact (li_watch s Hinv _ _ H) | done | by rewrite En | done | by apply fuller_same |].
    intros i _. apply taken_smaller. intros q' p' Hq'. destruct (Hp q' p' Hq') as (_ & _ & [H'|H']); [left; by destruct p' | by right].
Qed.

Lemma calm_inv s s' : calm_step s s' -> lock_inv s -> lock_inv s'.
Proof.
  intros (l & Hstep & Hprompt & Hun) Hinv. destruct Hstep.
  - eapply weaken_inv; [done | done | done | lia | apply Hinv | done |].
    intros q p Hq. apply lookup_insert_Some in Hq as [[<- <-]|[_ Hq]]; [by split; [| split; [| left]] |].
    destruct (li_pid s Hinv _ _ Hq). by split; [| split; [| right]].
  - eapply weaken_inv; [done | done | done | lia | apply Hinv | done |].
    intros q p' Hq. apply lookup_insert_Some in Hq as [[<- <-]|[_ Hq]].
    + destruct (li_pid s Hinv _ _ H). by split; [| split; [| left]].
    + destruct (li_pid s Hinv _ _ Hq). by split; [| split; [| right]].
  - apply advance_inv; try done. by apply Hun.
  - eapply weaken_inv; [done | done | done | lia | apply Hinv | set_solver |].
    intros q p' Hq. apply lookup_delete_Some in Hq as [Hne Hq]. destruct (li_pid s Hinv _ _ Hq). split; [done |]. split; [set_solver | by right].
  - eapply weaken_inv; [done | done | done | cbn; lia | done | done |].
    intros q p' Hq. destruct (li_pid s Hinv _ _ Hq). by split; [| split; [| right]].
Qed.

(** A system without processes, whatever lock file it finds. *)
Definition fresh (s : system) : Prop :=
  sy_procs s = ∅ /\ year_range (sh_now (sy_shared s) / Second) /\
  forall f, sh_lock (sy_shared s) = Some f -> (lk_id f < sh_next (sy_shared s))%nat.

Lemma fresh_inv s : fresh s -> lock_inv s.
Proof.
  intros (Hp & Hn & Hid). assert (He : forall q p, sy_procs s !! q = Some p -> False) by (intros q p; rewrite Hp; by rewrite lookup_empty).
  constructor; [done | done | ..]; intros * Hq; try intros Hq'; by destruct (He _ _ Hq).
Qed.

Definition holding (s : system) (q : Z) : Prop := exists id data, sy_procs s !! q = Some (Holding id data).

(** C14: Between processes, at most one mutation of the Agent's state runs at a time. From a system without processes and with any lock file, through any interleaving of processes that start, take, wait for, inspect, reclaim and release the lock, with any call failing, any write cut short and any process dying at any point: two processes that are both in the work under the lock are the same process, and the lock file is there with its own record. This holds as long as a process that creates the lock file has written its record within the thirty seconds after which an empty one counts as abandoned, and as long as nobody replaces the lock file between the last look of a reclaimer and its removal (see [reclaim_race] for what happens otherwise). *)
Theorem config_lock_exclusive s0 s :
  fresh s0 -> rtc calm_step s0 s ->
  (forall q q', holding s q -> holding s q' -> q = q') /\
  (forall q, holding s q -> exists f t, sh_lock (sy_shared s) = Some f /\ lk_data f = record_line q t).
Proof.
  intros Hf Hr. assert (Hinv : lock_inv s).
  { apply fresh_inv in Hf. induction Hr as [|s0 s1 s2 Hs _ IH]; [done |]. apply IH. by eapply calm_inv. }
  split.
  - intros q q' (i & d & Hq) (i' & d' & Hq'). by eapply (li_one s Hinv); [exact Hq | exact Hq' | by eexists | by eexists].
  - intros q (i & d & Hq). destruct (li_own s Hinv _ _ Hq) as (f & Hl & _ & Hd & t & _ & E). exists f, t. split; [done | congruence].
Qed.

(** ** Runs *)

(** Processes that take one step each, in the order of the list. *)
Definition turn (an : os_answer) (s : system) (me : Z) : system :=
  match sy_procs s !! me with
  | Some p => with_proc s (advance me an (sy_shared s) p).1 me (advance me an (sy_shared s) p).2
  | None => s
  end.

Definition turns (an : os_answer) (s : system) (pids : list Z) : system := foldl (turn an) s pids.

Definition any_step (s s' : system) : Prop := exists l, lock_step l s s'.

Lemma turn_dead an s me : sy_dead (turn an s me) = sy_dead s.
Proof. unfold turn. by destruct (sy_procs s !! me). Qed.

Lemma turns_reached an pids : forall s, sees_living s an -> rtc any_step s (turns an s pids).
Proof.
  induction pids as [|me rest IH]; intros s Ha; [reflexivity |]. unfold turns. cbn [foldl]. transitivity (turn an s me).
  - unfold turn. destruct (sy_procs s !! me) as [p|] eqn:E; [| reflexivity]. apply rtc_once. exists (Some me). by constructor.
  - apply IH. unfold sees_living. rewrite turn_dead. exact Ha.
Qed.

Definition promptb (s : system) : bool :=
  forallb (fun x : Z * pc => match x.2 with
    | Created _ since | Undoing _ since _ => sh_now (sy_shared s) <? since + legacyLockStaleAfter | _ => true end) (map_to_list (sy_procs s)).

Definition undisturbedb (s : system) (q : Z) : bool :=
  match sy_procs s !! q with
  | Some (Reread id _ _ _) | Some (Reclaiming id _ _) => match sh_lock (sy_shared s) with Some f => (lk_id f =? id)%nat | None => true end
  | _ => true
  end.

Fixpoint calm_turns (an : os_answer) (s : system) (pids : list Z) : bool :=
  match pids with
  | [] => true
  | me :: rest => promptb s && undisturbedb s me && calm_turns an (turn an s me) rest
  end.

Lemma calm_turns_reached an pids : forall s, sees_living s an -> calm_turns an s pids = true -> rtc calm_step s (turns an s pids).
Proof.
  induction pids as [|me rest IH]; intros s Ha Hc; [reflexivity |]. unfold turns. cbn [foldl calm_turns] in *.
  apply andb_true_iff in Hc as [Hc Hrest]. apply andb_true_iff in Hc as [Hpr Hun]. transitivity (turn an s me).
  - unfold turn. destruct (sy_procs s !! me) as [p|] eqn:E; [| reflexivity]. apply rtc_once. exists (Some me). split_and!.
    + by constructor.
    + intros q r Hq. unfold promptb in Hpr. rewrite forallb_forall in Hpr. apply elem_of_map_to_list, list_elem_of_In in Hq.
      apply Hpr in Hq. cbn in Hq. destruct r; try exact I; by apply Z.ltb_lt.
    + intros q [= <-]. unfold undisturbed, undisturbedb in *. rewrite E in *. destruct p; try exact I; intros f Hf; rewrite Hf in Hun; by apply Nat.eqb_eq.
  - apply IH; [| done]. unfold sees_living. rewrite turn_dead. exact Ha.
Qed.

(** The lock of a process 1 that died while it held it. *)
Definition demo_time : instant := 1700000000 * Second.
Definition demo_stale : shared :=
  MkShared (Some (MkLockFile 0 true (record_line 1 (demo_time - 60 * Second)) (demo_time - 60 * Second))) 1 demo_time.
Definition demo_system (procs : gmap Z pc) : system := MkSystem demo_stale procs {[1]}.
Definition demo_answer : os_answer := MkAnswer false (ErrMsg EmptyString) 0 (fun pid => negb (pid =? 1)) (Ok tt).

Lemma demo_honest procs : sees_living (demo_system procs) demo_answer.
Proof.
  intros pid H. cbn in H. apply negb_false_iff, Z.eqb_eq in H as ->. cbn. set_solver.
Qed.

Definition is_holding (s : system) (q : Z) : bool := match sy_procs s !! q with Some (Holding _ _) => true | _ => false end.

Lemma is_holding_ok s q : is_holding s q = true -> holding s q.
Proof. unfold is_holding, holding. destruct (sy_procs s !! q) as [[]|]; try done. intros _. by eexists _, _. Qed.


Lemma start_step s me :
  0 < me < 2 ^ 63 -> me ∉ sy_dead s -> sy_procs s !! me = None ->
  lock_step None s (with_proc s (sy_shared s) me Outside) /\
  lock_step None (with_proc s (sy_shared s) me Outside) (with_proc s (sy_shared s) me Preparing).
Proof.
  intros Hm Hd Hn. split; [by constructor |].
  replace (with_proc s (sy_shared s) me Preparing) with
    (with_proc (with_proc s (sy_shared s) me Outside) (sy_shared (with_proc s (sy_shared s) me Outside)) me Preparing).
  - eapply ls_enter; [apply lookup_insert_eq | exact I].
  - unfold with_proc. cbn. by rewrite insert_insert_eq.
Qed.

(** The lock of a dead process is reclaimed and taken. *)
Lemma config_lock_exclusive_witness :
  let s := turns demo_answer (demo_system {[2 := Preparing]}) (repeat 2 10) in
  holding s 2 /\ (forall q, holding s q -> q = 2).
Proof.
  set (s := turns _ _ _). assert (Hh : holding s 2) by (apply is_holding_ok; vm_compute; reflexivity). split; [exact Hh |].
  assert (Hf : fresh (demo_system ∅)) by (split; [reflexivity |]; split; [vm_compute; split; [discriminate | reflexivity] | intros f [= <-]; cbn; lia]).
  destruct (start_step (demo_system ∅) 2 ltac:(lia) ltac:(cbn; set_solver) ltac:(reflexivity)) as [Hs1 Hs2].
  assert (Hr : rtc calm_step (demo_system ∅) s).
  { eapply rtc_l; [exists None; split; [exact Hs1 |]; split; [intros q p Hq; by destruct (lookup_empty_Some q p) | done] |].
    eapply rtc_l; [exists None; split; [exact Hs2 |]; split; [| done] |].
    - intros q p Hq. cbn [sy_procs with_proc demo_system] in Hq. apply lookup_insert_Some in Hq as [[<- <-]|[_ Hq]]; [exact I | by destruct (lookup_empty_Some q p)].
    - apply calm_turns_reached; [apply demo_honest | vm_compute; reflexivity]. }
  intros q Hq. exact (proj1 (config_lock_exclusive _ _ Hf Hr) q 2 Hq Hh).
Defined.

(** Two processes find the lock of the dead one and look at it twice; the
    first removes it and takes the lock; the second then removes the lock of
    the first and takes it as well. *)
Definition racers : gmap Z pc := {[2 := Preparing; 3 := Preparing]}.

Lemma reclaim_race :
  let s := turns demo_answer (demo_system racers) (repeat 2 6 ++ repeat 3 6 ++ repeat 2 4 ++ repeat 3 4) in
  rtc any_step (demo_system ∅) s /\ holding s 2 /\ holding s 3.
Proof.
  split; [| split; apply is_holding_ok; vm_compute; reflexivity].
  destruct (start_step (demo_system ∅) 3 ltac:(lia) ltac:(cbn; set_solver) ltac:(reflexivity)) as [H1 H2].
  destruct (start_step (demo_system {[3 := Preparing]}) 2 ltac:(lia) ltac:(cbn; set_solver) ltac:(reflexivity)) as [H3 H4].
  eapply rtc_l; [by exists None |]. eapply rtc_l; [by exists None |].
  eapply rtc_l; [by exists None |]. eapply rtc_l; [by exists None |].
  apply turns_reached, demo_honest.
Qed.

(** *** A lock with the identifier of a running process *)

Definition waiting (p : pc) : Prop :=
  match p with Inspecting _ _ _ | Reading _ _ _ _ => True | _ => quiet p end.

Definition stuck (f : lock_file) (s : system) : Prop :=
  sh_lock (sy_shared s) = Some f /\ forall q p, sy_procs s !! q = Some p -> waiting p.

Lemma stuck_step f me t s s' :
  0 < me < 2 ^ 63 -> year_range (t / Second) -> lk_regular f = true -> lk_data f = record_line me t ->
  any_step s s' -> me ∈ sy_dead s \/ stuck f s -> me ∈ sy_dead s' \/ stuck f s'.
Proof.
  intros Hme Ht Hreg Hd [l Hstep] Hs.
  assert (Hquiet : forall p, quiet p -> waiting p) by (by intros []).
  destruct Hs as [Hs|[Hl Hw]]; [left; destruct Hstep; cbn; set_solver |].
  assert (Hput : forall q0 p0, waiting p0 -> forall q p, <[q0 := p0]> (sy_procs s) !! q = Some p -> waiting p).
  { intros q0 p0 H0 q p Hq. apply lookup_insert_Some in Hq as [[_ <-]|[_ Hq]]; [done | by eapply Hw]. }
  destruct Hstep as [s q|s q p|s q p an Hq Ha|s q p|s d]; try (right; split; [exact Hl |]; cbn; by apply Hput).
  - cut (me ∈ sy_dead s \/ ((advance q an (sy_shared s) p).1 = sy_shared s /\ waiting (advance q an (sy_shared s) p).2)).
    { intros [H|[E H]]; [by left | right]. split; [cbn; by rewrite E | cbn; by apply Hput]. }
    pose proof (Hw _ _ Hq) as Hp. destruct p; try done; cbn [advance]; autounfold with calls; try (right; by split);
      destruct (an_fails an); cbn [fst snd]; try (right; by split); rewrite ?Hl; cbn [fst snd]; try (right; by split).
    + rewrite Hreg. right. by split.
    + unfold judge. rewrite Hd. destruct (TrimSpace _) eqn:Et; [by destruct (record_line_not_blank me t) |].
      rewrite (record_decodes me t Hme Ht). cbn [cl_PID]. destruct (an_alive an me) eqn:Ea; [| left; by apply Ha].
      rewrite orb_true_r. right. split; [done | apply Hquiet, contend_quiet].
  - right. split; [exact Hl |]. cbn. intros q' p' Hq'. apply lookup_delete_Some in Hq' as [_ Hq']. by eapply Hw.
  - right. split; [exact Hl |]. exact Hw.
Qed.

(** A lock file left by an earlier process of the same identifier, as the
    first process of a container has it: as long as the new one runs, nobody
    ever gets the lock, however old the file is. *)
Lemma own_pid_locked_out f me t s0 s :
  0 < me < 2 ^ 63 -> year_range (t / Second) -> lk_regular f = true -> lk_data f = record_line me t ->
  sh_lock (sy_shared s0) = Some f -> sy_procs s0 = {[me := Outside]} ->
  rtc any_step s0 s -> me ∉ sy_dead s -> sh_lock (sy_shared s) = Some f /\ forall q, ~ holding s q.
Proof.
  intros Hme Ht Hreg Hd Hl Hp Hr Hn. assert (Hs : me ∈ sy_dead s \/ stuck f s).
  { assert (H0 : me ∈ sy_dead s0 \/ stuck f s0).
    { right. split; [done |]. intros q p Hq. rewrite Hp in Hq. by apply lookup_singleton_Some in Hq as [_ <-]. }
    clear Hp Hl. induction Hr as [|s0 s1 s2 Hstep _ IH]; [done |]. apply IH; [done |]. by eapply stuck_step. }
  destruct Hs as [Hs|[Hs Hw]]; [done |]. split; [done |]. intros q (i & d & Hq). exact (Hw _ _ Hq).
Qed.

(** ** Goroutines of one process *)

(** [processConfigLocks]: one mutex per state directory, kept as long as some
    goroutine refers to it.  The entries are shared objects; a map entry that
    is deleted lives on for those who hold it. *)
Record process_entry := MkProcessEntry { pe_refs : Z; pe_holder : option nat }.

Record process_locks := MkProcessLocks {
  pl_byStateDir : gmap string nat;
  pl_entries : gmap nat process_entry;
  pl_next : nat;
}.

Inductive goroutine :=
| Waits (dir : string) (entry : nat)     (* entry.mu.Lock() *)
| Works (dir : string) (entry : nat)
| Leaves (dir : string) (entry : nat).   (* after entry.mu.Unlock() *)

Definition set_entry (L : process_locks) (e : nat) (x : process_entry) : process_locks :=
  MkProcessLocks (pl_byStateDir L) (<[e := x]> (pl_entries L)) (pl_next L).

(** The part of [acquireProcessConfigLock] under the table's mutex. *)
Definition acquire_entry (L : process_locks) (dir : string) : process_locks * nat :=
  match pl_byStateDir L !! dir with
  | Some e =>
    let x := default (MkProcessEntry 0 None) (pl_entries L !! e) in
    (set_entry L e (MkProcessEntry (pe_refs x + 1) (pe_holder x)), e)
  | None =>
    let e := pl_next L in
    (MkProcessLocks (<[dir := e]> (pl_byStateDir L)) (<[e := MkProcessEntry 1 None]> (pl_entries L)) (S e), e)
  end.

(** The second part of the function it returns. *)
Definition release_entry (L : process_locks) (dir : string) (e : nat) : process_locks :=
  let x := default (MkProcessEntry 0 None) (pl_entries L !! e) in
  let L := set_entry L e (MkProcessEntry (pe_refs x - 1) (pe_holder x)) in
  if pe_refs x - 1 =? 0 then MkProcessLocks (delete dir (pl_byStateDir L)) (pl_entries L) (pl_next L) else L.

Inductive goroutine_step : process_locks * gmap nat goroutine -> process_locks * gmap nat goroutine -> Prop :=
| gs_enter L G g dir : G !! g = None ->
    goroutine_step (L, G) ((acquire_entry L dir).1, <[g := Waits dir (acquire_entry L dir).2]> G)
| gs_lock L G g dir e x : G !! g = Some (Waits dir e) -> pl_entries L !! e = Some x -> pe_holder x = None ->
    goroutine_step (L, G) (set_entry L e (MkProcessEntry (pe_refs x) (Some g)), <[g := Works dir e]> G)
| gs_unlock L G g dir e x : G !! g = Some (Works dir e) -> pl_entries L !! e = Some x ->
    goroutine_step (L, G) (set_entry L e (MkProcessEntry (pe_refs x) None), <[g := Leaves dir e]> G)
| gs_leave L G g dir e : G !! g = Some (Leaves dir e) ->
    goroutine_step (L, G) (release_entry L dir e, delete g G).

Definition dir_of (x : goroutine) : string := match x with Waits d _ | Works d _ | Leaves d _ => d end.
Definition entry_of (x : goroutine) : nat := match x with Waits _ e | Works _ e | Leaves _ e => e end.

Definition refers (e : nat) (x : goroutine) : Prop := entry_of x = e.
#[export] Instance refers_dec e x : Decision (refers e x).
Proof. unfold refers. apply _. Defined.

Definition works (G : gmap nat goroutine) (e : nat) (g : nat) : Prop := exists dir, G !! g = Some (Works dir e).

Record table_inv (L : process_locks) (G : gmap nat goroutine) : Prop := MkTableInv {
  ti_ref : forall g x, G !! g = Some x -> pl_byStateDir L !! dir_of x = Some (entry_of x);
  ti_fresh : forall dir e, pl_byStateDir L !! dir = Some e -> (e < pl_next L)%nat;
  ti_inj : forall dir dir' e, pl_byStateDir L !! dir = Some e -> pl_byStateDir L !! dir' = Some e -> dir = dir';
  ti_entry : forall dir e, pl_byStateDir L !! dir = Some e ->
    exists x, pl_entries L !! e = Some x /\ pe_refs x = Z.of_nat (count_if (refers e) G) /\ 0 < pe_refs x /\
      forall g, pe_holder x = Some g <-> works G e g;
}.

Lemma count_change (G : gmap nat goroutine) (g : nat) (x y : goroutine) (e : nat) :
  G !! g = Some x -> entry_of y = entry_of x -> count_if (refers e) (<[g := y]> G) = count_if (refers e) G.
Proof.
  intros Hg E. rewrite <- insert_delete_eq, count_insert by apply lookup_delete_eq. rewrite (count_delete _ G g x Hg).
  f_equal. assert (Hiff : refers e y <-> refers e x) by (unfold refers; by rewrite E). by repeat case_decide; tauto.
Qed.

Lemma works_change (G : gmap nat goroutine) (g : nat) (y : goroutine) (e g' : nat) : (forall dir, y <> Works dir e) -> works (<[g := y]> G) e g' <-> works G e g' /\ g' <> g.
Proof.
  intros Hy. unfold works. split.
  - intros [dir H]. apply lookup_insert_Some in H as [[<- H]|[Hne H]]; [by destruct (Hy dir) | split; [by exists dir | done]].
  - intros [[dir H] Hne]. exists dir. by rewrite lookup_insert_ne.
Qed.

Lemma works_in G e g : works G e g -> exists x, G !! g = Some x /\ entry_of x = e.
Proof. intros [dir H]. by exists (Works dir e). Qed.

(** A goroutine that keeps its entry, whose holder is set as it says. *)
Lemma switch_inv L G g x y e n holder :
  table_inv L G -> G !! g = Some x -> dir_of y = dir_of x -> entry_of y = entry_of x -> entry_of x = e ->
  pl_entries L !! e = Some n -> (forall g', holder = Some g' <-> works (<[g := y]> G) e g') ->
  table_inv (set_entry L e (MkProcessEntry (pe_refs n) holder)) (<[g := y]> G).
Proof.
  intros [Hr Hf Hi He] Hg Hd Hy Hx Hn Hh. constructor; cbn [pl_byStateDir pl_next pl_entries set_entry]; [| done | done |].
  - intros g' z Hz. apply lookup_insert_Some in Hz as [[<- <-]|[_ Hz]]; [| by eapply Hr]. rewrite Hd, Hy. by eapply Hr.
  - intros dir e' Hdir. destruct (decide (e' = e)) as [->|Hne].
    + destruct (He _ _ Hdir) as (m & Hm & Hc & Hp & _). rewrite Hn in Hm. injection Hm as <-.
      eexists. rewrite lookup_insert_eq. split; [reflexivity |]. cbn [pe_refs pe_holder]. rewrite (count_change _ _ _ _ _ Hg Hy). by split.
    + destruct (He _ _ Hdir) as (m & Hm & Hc & Hp & Hw). exists m. rewrite lookup_insert_ne by done. rewrite (count_change _ _ _ _ _ Hg Hy).
      split_and!; try done. intros g'. rewrite Hw. symmetry.
      assert (Hyw : forall dir0, y <> Works dir0 e') by (intros d0 ->; cbn in Hy; congruence).
      rewrite (works_change G g y e' g' Hyw). split; [by intros [H _] |]. intros H. split; [done |]. intros ->.
      destruct (works_in _ _ _ H) as (z & Hz & Ez). rewrite Hg in Hz. injection Hz as <-. congruence.
Qed.

Lemma enter_inv L G g dir :
  table_inv L G -> G !! g = None -> table_inv (acquire_entry L dir).1 (<[g := Waits dir (acquire_entry L dir).2]> G).
Proof.
  intros [Hr Hf Hi He] Hg. assert (Hw : forall e e' g', works (<[g := Waits dir e']> G) e g' <-> works G e g').
  { intros e e' g'. rewrite works_change by done. split; [by intros [H _] |]. intros H. split; [done |]. intros ->.
    destruct (works_in _ _ _ H) as (z & Hz & _). congruence. }
  unfold acquire_entry. destruct (pl_byStateDir L !! dir) as [e|] eqn:Ed; cbn [fst snd].
  - destruct (He _ _ Ed) as (n & Hn & Hc & Hp & Hh). rewrite Hn. cbn [default from_option id].
    constructor; cbn [pl_byStateDir pl_next pl_entries set_entry]; [| done | done |].
    + intros g' z Hz. apply lookup_insert_Some in Hz as [[<- <-]|[_ Hz]]; [done | by eapply Hr].
    + intros dir' e' Hd'. destruct (decide (e' = e)) as [->|Hne].
      * eexists. rewrite lookup_insert_eq. split; [reflexivity |]. cbn [pe_refs pe_holder].
        rewrite count_insert, decide_True by done. split_and!; [lia | lia |]. intros g'. by rewrite Hh, Hw.
      * destruct (He _ _ Hd') as (m & Hm & Hc' & Hp' & Hh'). exists m. rewrite lookup_insert_ne by done.
        rewrite count_insert, decide_False by (first [done | unfold refers; cbn; congruence]). split_and!; [done | lia | done |]. intros g'. by rewrite Hh', Hw.
  - assert (Hnew : forall d e, pl_byStateDir L !! d = Some e -> e <> pl_next L) by (intros d e H; apply Hf in H; lia).
    constructor; cbn [pl_byStateDir pl_next pl_entries].
    + intros g' z Hz. apply lookup_insert_Some in Hz as [[<- <-]|[_ Hz]]; [apply lookup_insert_eq |].
      rewrite lookup_insert_ne; [by eapply Hr |]. intros E. by rewrite E, (Hr _ _ Hz) in Ed.
    + intros d e Hd. apply lookup_insert_Some in Hd as [[<- <-]|[_ Hd]]; [lia |]. apply Hf in Hd. lia.
    + intros d d' e Hd Hd'. apply lookup_insert_Some in Hd as [[<- <-]|[Hne Hd]]; apply lookup_insert_Some in Hd' as [[<- Ee]|[Hne' Hd']].
      * done.
      * by destruct (Hnew _ _ Hd').
      * by destruct (Hnew _ _ Hd).
      * by eapply Hi.
    + intros d e Hd. apply lookup_insert_Some in Hd as [[<- <-]|[Hne Hd]].
      * eexists. rewrite lookup_insert_eq. split; [reflexivity |]. cbn [pe_refs pe_holder].
        assert (Hz : count_if (refers (pl_next L)) G = 0%nat).
        { unfold count_if. apply map_size_empty_iff, map_empty_filter_2. intros g' z Hz E. cbn in E. unfold refers in E.
          apply (Hnew (dir_of z) (entry_of z)); [by eapply Hr | done]. }
        rewrite count_insert, Hz, decide_True by done. split_and!; [done | done |]. intros g'. split; [done |]. rewrite Hw. intros H.
        destruct (works_in _ _ _ H) as (z & Hz' & E). destruct (Hnew (dir_of z) (entry_of z)); [by eapply Hr | done].
      * destruct (He _ _ Hd) as (m & Hm & Hc' & Hp' & Hh'). exists m. pose proof (Hnew _ _ Hd). rewrite lookup_insert_ne by done.
        rewrite count_insert, decide_False by (first [done | unfold refers; cbn; congruence]). split_and!; [done | lia | done |]. intros g'. by rewrite Hh', Hw.
Qed.

Lemma leave_inv L G g dir e : table_inv L G -> G !! g = Some (Leaves dir e) -> table_inv (release_entry L dir e) (delete g G).
Proof.
  intros [Hr Hf Hi He] Hg. pose proof (Hr _ _ Hg) as Hd. cbn in Hd. destruct (He _ _ Hd) as (n & Hn & Hc & Hp & Hh).
  assert (Hw : forall e' g', works (delete g G) e' g' <-> works G e' g').
  { intros e' g'. unfold works. split; intros [d H]; exists d; [by apply lookup_delete_Some in H as [_ H] |].
    rewrite lookup_delete_ne; [done |]. intros <-. congruence. }
  assert (Hcount : forall e', count_if (refers e') G = (count_if (refers e') (delete g G) + (if decide (e = e') then 1 else 0))%nat).
  { intros e'. rewrite (count_delete _ _ _ _ Hg). f_equal. }
  pose proof (Hcount e) as Hce. rewrite decide_True in Hce by done.
  assert (Hrest : forall g' x, delete g G !! g' = Some x -> pl_byStateDir L !! dir_of x = Some (entry_of x)).
  { intros g' x H. apply lookup_delete_Some in H as [_ H]. by eapply Hr. }
  unfold release_entry. rewrite Hn. cbn [default from_option id]. destruct (Z.eqb_spec (pe_refs n - 1) 0) as [Ez|Ez].
  - constructor; cbn [pl_byStateDir pl_next pl_entries set_entry].
    + intros g' x H. assert (Hxe : entry_of x <> e).
      { intros E. assert (0 < count_if (refers e) (delete g G))%nat by (by eapply count_pos). lia. }
      rewrite lookup_delete_ne; [by eapply Hrest |]. intros E. apply Hxe. specialize (Hrest _ _ H). rewrite <- E in Hrest. congruence.
    + intros d e' H. apply lookup_delete_Some in H as [_ H]. by eapply Hf.
    + intros d d' e' H H'. apply lookup_delete_Some in H as [_ H]. apply lookup_delete_Some in H' as [_ H']. by eapply Hi.
    + intros d e' H. apply lookup_delete_Some in H as [Hne H]. assert (e' <> e) by (intros ->; apply Hne; by eapply Hi).
      destruct (He _ _ H) as (m & Hm & Hc' & Hp' & Hh'). exists m. rewrite lookup_insert_ne by done. specialize (Hcount e').
      rewrite decide_False in Hcount by done. split_and!; [done | lia | done |]. intros g'. by rewrite Hh', Hw.
  - constructor; cbn [pl_byStateDir pl_next pl_entries set_entry]; [exact Hrest | done | done |].
    intros d e' H. specialize (Hcount e'). destruct (decide (e = e')) as [<-|Hne].
    + eexists. rewrite lookup_insert_eq. split; [reflexivity |]. cbn [pe_refs pe_holder]. split_and!; [lia | lia |]. intros g'. by rewrite Hh, Hw.
    + destruct (He _ _ H) as (m & Hm & Hc' & Hp' & Hh'). exists m. rewrite lookup_insert_ne by done.
      split_and!; [done | lia | done |]. intros g'. by rewrite Hh', Hw.
Qed.

Lemma table_step_inv L G L' G' : goroutine_step (L, G) (L', G') -> table_inv L G -> table_inv L' G'.
Proof.
  intros Hs Hinv. remember (L, G) as c eqn:Ec. remember (L', G') as c' eqn:Ec'. destruct Hs; simplify_eq.
  - by apply enter_inv.
  - pose proof (ti_ref _ _ Hinv _ _ H) as Hd. cbn in Hd. destruct (ti_entry _ _ Hinv _ _ Hd) as (n & Hn & _ & _ & Hh).
    rewrite H0 in Hn. injection Hn as <-. eapply switch_inv; [done | exact H | done | done | done | done |]. intros g'. split.
    + intros [= <-]. exists dir. apply lookup_insert_eq.
    + intros [d Hw]. apply lookup_insert_Some in Hw as [[<- _]|[_ Hw]]; [done |]. assert (Hx : works G e g') by (by exists d). apply Hh in Hx. congruence.
  - pose proof (ti_ref _ _ Hinv _ _ H) as Hd. cbn in Hd. destruct (ti_entry _ _ Hinv _ _ Hd) as (n & Hn & _ & _ & Hh).
    rewrite H0 in Hn. injection Hn as <-. eapply switch_inv; [done | exact H | done | done | done | done |]. intros g'. split; [done |].
    rewrite works_change by done. intros [Hw Hne]. apply Hh in Hw. assert (Hg : works G e g) by (by exists dir). apply Hh in Hg. congruence.
  - by apply leave_inv.
Qed.

(** Goroutines of one process that work under the lock of one state directory
    are one goroutine, and the table keeps an entry exactly as long as some
    goroutine refers to it. *)
Lemma process_lock_exclusive L G :
  rtc goroutine_step (MkProcessLocks ∅ ∅ 0, ∅) (L, G) ->
  (forall g g' dir e e', G !! g = Some (Works dir e) -> G !! g' = Some (Works dir e') -> g = g') /\
  (forall dir, is_Some (pl_byStateDir L !! dir) <-> exists g x, G !! g = Some x /\ dir_of x = dir).
Proof.
  intros Hr. assert (Hinv : table_inv L G).
  { assert (H0 : table_inv (MkProcessLocks ∅ ∅ 0, (∅ : gmap nat goroutine)).1 (MkProcessLocks ∅ ∅ 0, (∅ : gmap nat goroutine)).2)
      by (by constructor).
    change L with (L, G).1. change G with (L, G).2 at 2. revert H0. generalize dependent (L, G). intros c Hr.
    induction Hr as [c|[L0 G0] [L1 G1] c Hs _ IH]; [done |]. intros H0. apply IH. by eapply table_step_inv. }
  split.
  - intros g g' dir e e' Hg Hg'. pose proof (ti_ref _ _ Hinv _ _ Hg) as H1. pose proof (ti_ref _ _ Hinv _ _ Hg') as H2.
    cbn in H1, H2. assert (e' = e) as -> by congruence. destruct (ti_entry _ _ Hinv _ _ H1) as (n & _ & _ & _ & Hh).
    assert (Hw : works G e g) by (by exists dir). assert (Hw' : works G e g') by (by exists dir). apply Hh in Hw, Hw'. congruence.
  - intros dir. split.
    + intros [e He]. destruct (ti_entry _ _ Hinv _ _ He) as (n & _ & Hc & Hp & _).
      destruct (map_choose (filter (fun kv : nat * goroutine => refers e kv.2) G)) as (g & x & Hg).
      { intros E. unfold count_if in Hc. rewrite E, map_size_empty in Hc. lia. }
      apply map_lookup_filter_Some in Hg as [Hg Ex]. exists g, x. split; [done |]. cbn in Ex. unfold refers in Ex.
      pose proof (ti_ref _ _ Hinv _ _ Hg) as Hd. rewrite Ex in Hd. by eapply (ti_inj _ _ Hinv).
    + intros (g & x & Hg & <-). eexists. by eapply (ti_ref _ _ Hinv).
Qed.
