(* ===== verification/Unpair.v ===== *)
(** * Unpair: clearing the pairing of an Agent

    [internal/agent/unpair.go] with [tokencopy.go], in the process that owns the
    secret store: one more mutation of the state directory, under the lock and
    the journal of {!StateTxn}.  Asking a running service to do it is in
    {!Delegation}. *)

From S2P Require Import Prelude GoText Json StrictJson JsonMarshal Contract AgentLimits AgentTarget AgentStream AgentConfig Program StateFs StateTxn StateOps.

Record UnpairResult := MkUnpairResult {
  ur_StateDir : string;
  ur_DeviceID : string;
  ur_PublicKey : string;
  ur_IdentityPreserved : bool;
  ur_AlreadyUnpaired : bool;
  ur_LocalEndpoints : Z;
}.

Definition is_set (s : string) : bool := negb (String.eqb s EmptyString).

Definition pairingRecordPresent (config : Config) (secret : SecretState) : bool :=
  is_set (cf_GatewayURL config) || (0 <? Z.of_nat (length (cf_GatewayAliases config))) || is_set (cf_CAFile config) ||
  is_set (cf_DeviceID config) || is_set (cf_AuthorizationID config) || is_set (cf_TokenID config) ||
  is_set (ss_SessionToken secret).

Definition cleared (config : Config) : Config :=
  MkConfig (cf_Version config) EmptyString [] EmptyString EmptyString EmptyString EmptyString (cf_UpdateChannel config)
    (cf_Endpoints config) (cf_Limits config).

(** [RemoveTokenCopy]. *)
Definition tokenCopyPath : path := (InState, "token.txt").

Definition RemoveTokenCopy : prog (result unit) :=
  let* info := call (Lstat tokenCopyPath) in
  match info with
  | Err err => Ret (if errors_is err os_ErrNotExist then Ok tt else Err (ErrWrap "inspect token.txt" err))
  | Ok (File _) => wrapped "remove token.txt" (call (Remove tokenCopyPath))
  | Ok _ => Ret (Err (ErrMsg "refusing to remove unsafe token.txt path"))
  end.

Section Unpair.
Context (PublicKey : bytes -> bytes) (decode_json : bytes -> result Config) (marshal_indent : Config -> result bytes).
Context (home : Home) (stateDir : string) (entropy : Z -> result bytes).

Definition publicKeyFromSeed (seed : string) : string :=
  if String.eqb seed EmptyString then EmptyString
  else match identityFromSeed PublicKey seed with Ok key => b64_encode_string key | Err _ => EmptyString end.

Definition unpair_body (resetIdentity : bool) : prog (result UnpairResult) :=
  ensurePrivateDir ;!
  let! secret := LoadForMutation in
  let! config := loadConfigUnlocked decode_json home in
  let endpoints := Z.of_nat (length (cf_Endpoints config)) in
  let replacedIdentity := resetIdentity && is_set (ss_Seed secret) in
  if negb (pairingRecordPresent config secret) && negb replacedIdentity then
    Ret (Ok (MkUnpairResult stateDir EmptyString (publicKeyFromSeed (ss_Seed secret)) true true endpoints))
  else
    saveConfigUnlocked marshal_indent home (cleared config) ;!
    Save (MkSecretState (if replacedIdentity then EmptyString else ss_Seed secret) EmptyString) ;!
    (if replacedIdentity then let! _ := loadOrCreateIdentity PublicKey entropy in Ret (Ok tt) else Ret (Ok tt)) ;!
    RemoveTokenCopy ;!
    let! saved := LoadForMutation in
    Ret (Ok (MkUnpairResult stateDir (cf_DeviceID config) (publicKeyFromSeed (ss_Seed saved)) (negb replacedIdentity) false endpoints)).

Definition unpairAgentState (resetIdentity : bool) : prog (result UnpairResult) :=
  locked home (runStateTransaction home (unpair_body resetIdentity)).
End Unpair.

(** ** What it leaves *)

Section Cleared.
#[local] Hint Extern 0 (Machine op _ _) => exact (exec_file true) : typeclass_instances.
Context (PublicKey : bytes -> bytes) (decode_json : bytes -> result Config) (marshal_indent : Config -> result bytes).
Context (home : Home) (stateDir : string) (entropy : Z -> result bytes) (old : option node * option node).

(** No field of the pairing is left, the operator's endpoints and limits are as
    they were, and so is the identity unless it was to be replaced. *)
Record unpaired (resetIdentity : bool) (r : UnpairResult) (q : option node * option node) : Prop := Unpaired {
  up_current : Config;
  up_secret : SecretState;
  up_says : says decode_json old.1 up_current;
  up_holds : holds old.2 up_secret;
  up_endpoints : ur_LocalEndpoints r = Z.of_nat (length (cf_Endpoints up_current));
  up_preserved : ur_IdentityPreserved r = negb (resetIdentity && is_set (ss_Seed up_secret));
  up_done :
    if ur_AlreadyUnpaired r then
      pairingRecordPresent up_current up_secret = false /\ ur_IdentityPreserved r = true /\ q = old /\
      ur_PublicKey r = publicKeyFromSeed PublicKey (ss_Seed up_secret)
    else
      ur_DeviceID r = cf_DeviceID up_current /\
      settings_file marshal_indent (cleared up_current) q.1 /\
      exists after saved,
        q.2 = Some (File (encodeSecretState after)) /\ ss_SessionToken after = EmptyString /\
        holds q.2 saved /\ ur_PublicKey r = publicKeyFromSeed PublicKey (ss_Seed saved) /\
        if ur_IdentityPreserved r then ss_Seed after = ss_Seed up_secret
        else exists seed, entropy 32 = Ok seed /\ ss_Seed after = b64_encode_string seed;
}.

Lemma remove_copy_safe s0 s :
  journal_same s0 s ->
  safe (journal_same s0) (okay (fun _ s' => pair_of home s' = pair_of home s)) RemoveTokenCopy s.
Proof.
  intros Hs. unfold RemoveTokenCopy. eapply safe_bind; [by apply safe_lstat |]. intros r s1 _ (-> & _).
  destruct r as [[data| |]|e]; try (by apply safe_err).
  - apply safe_wrapped, safe_call; [done |]. intros ev. cbn. destruct (ev_fails ev); [done |].
    destruct (s !! tokenCopyPath); [| done]. cbn. split.
    + intros p Hp. rewrite lookup_delete_ne; [by apply Hs |]. intros <-. by destruct Hp as [?|[?|?]].
    + rewrite (pair_same home s) by (by rewrite lookup_delete_ne). unfold pair_of.
      by rewrite !lookup_delete_ne by (destruct (located home s); done).
  - apply safe_ret; [done |]. by destruct (errors_is _ _).
Qed.

Lemma holds_empty state : holds (Some (File (encodeSecretState (MkSecretState EmptyString EmptyString)))) state -> state = MkSecretState EmptyString EmptyString.
Proof. intros H. eapply holds_fun; [exact H |]. cbn [holds]. by apply secret_roundtrip. Qed.

Lemma unpair_contained resetIdentity :
  contained home old (unpair_body PublicKey decode_json marshal_indent home stateDir entropy resetIdentity) (unpaired resetIdentity).
Proof.
  intros s Hd Hp. assert (Hc : s !! settings_path (located home s) = old.1) by (by rewrite <- Hp).
  assert (Hx : s !! secretPath = old.2) by (by rewrite <- Hp).
  unfold unpair_body. eapply safe_then; [by apply (prepare_dir_safe home s) |]. intros u1 s1 Hs1 [Hc1 Hx1].
  eapply safe_then; [by apply load_safe |]. intros secret s2 _ [-> Hst]. rewrite Hx1, Hx in Hst.
  eapply safe_then; [by apply load_config_safe |]. intros config s3 _ [-> Hcur]. assert (Hp1 : pair_of home s1 = old).
  { rewrite (pair_same home s s1), Hc1, Hx1, Hc, Hx by (apply Hs1; auto). by destruct old. }
  rewrite Hp1 in Hcur. cbv zeta.
  set (replaced := resetIdentity && is_set (ss_Seed secret)).
  destruct (negb (pairingRecordPresent config secret) && negb replaced) eqn:Enone.
  { apply andb_true_iff in Enone as [Ep Er]. apply negb_true_iff in Ep. apply safe_ret; [done |].
    by exists config secret. }
  eapply safe_then; [by apply (save_config_safe home s) |]. intros u4 s4 Hs4 [Hx4 Hf4].
  eapply safe_then; [by apply (save_safe home s) |]. intros u5 s5 Hs5 [Hc5 Hx5].
  apply safe_then with (Q := fun _ s' => s' !! settings_path (located home s) = s4 !! settings_path (located home s) /\ exists after,
    s' !! secretPath = Some (File (encodeSecretState after)) /\ ss_SessionToken after = EmptyString /\
    if replaced then exists seed, entropy 32 = Ok seed /\ ss_Seed after = b64_encode_string seed else ss_Seed after = ss_Seed secret).
  { destruct replaced eqn:Er.
    - eapply safe_then; [by apply (identity_safe home s) |]. intros key s6 Hs6 (Hc6 & st & Hh & Hsec). apply safe_ret; [done |].
      cbn [okay]. rewrite Hx5 in Hh. apply holds_empty in Hh as ->. split; [congruence |].
      destruct Hsec as [(H & _)|(seed & _ & He & _ & H)]; [done |]. eexists. split; [exact H |]. split; [done |]. by exists seed.
    - apply safe_ret; [done |]. split; [done |]. eexists. split; [exact Hx5 |]. done. }
  intros u6 s6 Hs6 (Hc6 & after & Hx6 & Ht & Hseed).
  eapply safe_then; [by apply (remove_copy_safe s) |]. intros u7 s7 Hs7 Hp7.
  cbv beta in Hp7. rewrite (pair_same home s s7), (pair_same home s s6) in Hp7 by (first [apply Hs7 | apply Hs6]; auto).
  eapply safe_then; [by apply load_safe |]. intros saved s8 _ [-> Hsv]. apply safe_ret; [done |].
  assert (E1 : s7 !! settings_path (located home s) = s6 !! settings_path (located home s)) by (by injection Hp7).
  assert (E2 : s7 !! secretPath = s6 !! secretPath) by (by injection Hp7).
  exists config secret; cbn -[pair_of]; try done. rewrite (pair_same home s s7) by (apply Hs7; auto). cbn [fst snd].
  split; [done |]. split; [by rewrite E1, Hc6 |].
  exists after, saved. split; [by rewrite E2 |]. split; [done |]. split; [exact Hsv |]. split; [done |]. by destruct replaced.
Qed.
End Cleared.

(** Unpairing is all or nothing, clears every trace of the pairing and nothing else. Run under the lock from a settled state with any failures and any crash, and followed by any number of failing or crashing recoveries (in none of which the pointer to a settings file that was moved is there and cannot be read): whenever readers may read, settings and secrets are both as before or both unpaired. A reported unpair that found something to clear left settings without gateway, aliases, trust anchor and identifiers but with the operator's endpoints, channel and limits, a secret file without a session token, and the device identity it found, unless its replacement was asked for and there was one: then a fresh seed is stored. One that reports nothing to clear left both files untouched. The key it reports is that of the stored seed. *)
Theorem unpair_atomic PublicKey decode_json marshal_indent home stateDir entropy resetIdentity s0 events runs :
  settled s0 ->
  let unpair := unpairAgentState PublicKey decode_json marshal_indent home stateDir entropy resetIdentity in
  sighted events unpair s0 = true ->
  decided home unpair (unpaired PublicKey decode_json marshal_indent entropy (pair_of home s0) resetIdentity) s0 events runs.
Proof. intros Hs unpair Hv. apply contained_decided; [apply unpair_contained | done | exact Hv]. Qed.

(** A paired device. *)
Definition demo_paired : Config :=
  MkConfig ConfigVersion "wss://gateway.example/agent/v1/connect" [] EmptyString "device-1" "auth-1" "token-1" "stable"
    [MkEndpoint "rdp" "127.0.0.1:3389" "tcp"] None.

Definition demo_codec (data : bytes) : result Config := Ok demo_paired.
Definition demo_indent (c : Config) : result bytes := Ok (bytes_of (cf_DeviceID c)).

Definition demo_paired_home : files := <[settings_path None := File (bytes_of "paired")]> demo_home.

Lemma demo_paired_settled : settled demo_paired_home.
Proof.
  split; [reflexivity |]. intros name. unfold demo_paired_home. rewrite lookup_insert_ne by done. apply demo_home_settled.
Qed.

Definition demo_unpair : files * option (result UnpairResult) :=
  run (demo_events 120) (unpairAgentState id demo_codec demo_indent unix_home "state" demo_entropy true) demo_paired_home.

Lemma demo_unpair_ok :
  match demo_unpair.2 with Some (Ok r) => negb (ur_AlreadyUnpaired r) && negb (ur_IdentityPreserved r) | _ => false end = true.
Proof. vm_compute. reflexivity. Qed.

Lemma unpair_atomic_witness :
  exists s1 r, run (demo_events 120) (unpairAgentState id demo_codec demo_indent unix_home "state" demo_entropy true) demo_paired_home
      = (s1, Some (Ok r)) /\
    settled s1 /\ ur_AlreadyUnpaired r = false /\ ur_IdentityPreserved r = false /\ ur_LocalEndpoints r = 1 /\
    exists after, s1 !! secretPath = Some (File (encodeSecretState after)) /\ ss_SessionToken after = EmptyString /\
      ss_Seed after = b64_encode_string (repeat "b"%byte 32).
Proof.
  pose proof (unpair_atomic id demo_codec demo_indent unix_home "state" demo_entropy true demo_paired_home (demo_events 120) []
    demo_paired_settled) (ltac:(vm_compute; reflexivity)) as H.
  unfold decided in H.
  destruct (run (demo_events 120) (unpairAgentState id demo_codec demo_indent unix_home "state" demo_entropy true) demo_paired_home) as [s1 r] eqn:E.
  pose proof demo_unpair_ok as Hr. unfold demo_unpair in Hr. rewrite E in Hr. cbn [snd] in Hr.
  clear E. destruct r as [[x|]|]; [| discriminate Hr | discriminate Hr]. apply andb_true_iff in Hr as [Ha%negb_true_iff Hi%negb_true_iff].
  exists s1, x. split; [reflexivity |].
  destruct H as [_ H]. destruct (H _ eq_refl) as (Hs & [current secret Hsays _ He _ Hdone]).
  rewrite Ha, Hi in Hdone. destruct Hdone as (_ & _ & after & saved & Hq & Ht & _ & _ & seed & Hent & Hseed).
  split; [done |]. split; [done |]. split; [done |]. split.
  - rewrite He. cbn in Hsays. injection Hsays as <-. reflexivity.
  - exists after. split; [exact Hq |]. split; [done |]. injection Hent as <-. exact Hseed.
Defined.
