(* ===== verification/PairingFiles.v ===== *)
(** * PairingFiles: the capability and the listener record of the pairing page

    [internal/agent/pairing_capability.go] and [pairing_endpoint.go]: the 256-bit
    capability that opens the local pairing page, and the record of the port
    and the token of the listener that serves it.  Both are files of the state
    directory, programs of {!StateFs}.  The path normalisation is left out. *)

From S2P Require Import Prelude GoText GoDuration Json StrictJson JsonMarshal JsonLine Program StateFs StateTxn.

(** ** The capability *)

Definition pairingCapabilityFile : string := "pairing.capability".
Definition PairingCapabilityPath : path := (InState, pairingCapabilityFile).

Definition trimmed (s : string) : string := string_of (TrimSpace (bytes_of s)).

Definition GeneratePairingCapability (entropy : Z -> result bytes) : result string :=
  match entropy 32 with Err err => Err err | Ok data => Ok (b64_encode_string data) end.

Definition WritePairingCapability (capability : string) : prog (result unit) :=
  let capability := trimmed capability in
  if negb (slen capability =? 43) then Ret (Err (ErrMsg "invalid pairing capability"))
  else writePrivateFile pairingCapabilityFile (bytes_of capability).

Definition LoadPairingCapability : prog (result string) :=
  let! data := call (ReadTrusted PairingCapabilityPath) in
  let capability := trimmed (string_of data) in
  Ret (if negb (slen capability =? 43) then Err (ErrMsg "invalid pairing capability file") else Ok capability).

Definition EnsurePairingCapability (entropy : Z -> result bytes) : prog (result string) :=
  let* loaded := LoadPairingCapability in
  match loaded with
  | Ok capability => Ret (Ok capability)
  | Err err =>
    if negb (errors_is err os_ErrNotExist) then Ret (Err err)
    else
      match GeneratePairingCapability entropy with
      | Err err => Ret (Err err)
      | Ok capability => WritePairingCapability capability ;! Ret (Ok capability)
      end
  end.

(** [subtle.ConstantTimeCompare] of equal lengths. *)
Definition PairingCapabilityMatches (expected provided : string) : bool :=
  if negb (slen expected =? 43) || negb (slen provided =? slen expected) then false else String.eqb expected provided.

(** ** The listener record *)

Record PairingEndpoint := MkPairingEndpoint { pe_Port : Z; pe_Token : string; pe_PID : Z; pe_CreatedAt : string }.

Definition pairingEndpointFile : string := "pairing.endpoint.json".
Definition PairingEndpointPath : path := (InState, pairingEndpointFile).

Definition PairingEndpoint_schema : schema := [("port", KInt); ("token", KString); ("pid", KInt); ("created_at", KString)].

Definition PairingEndpoint_of (m : gmap string field_val) : PairingEndpoint :=
  MkPairingEndpoint (get_int m "port") (get_string m "token") (get_int m "pid") (get_string m "created_at").

Definition PairingEndpoint_members (e : PairingEndpoint) : list (string * marshal_val) :=
  [("port", MInt (pe_Port e)); ("token", MString (pe_Token e)); ("pid", MInt (pe_PID e)); ("created_at", MString (pe_CreatedAt e))].

Definition WritePairingEndpoint (e : PairingEndpoint) : prog (result unit) :=
  writePrivateFile pairingEndpointFile (marshal_object (PairingEndpoint_members e) ++ [Byte.x0a]).

(** What [LoadPairingEndpoint] makes of the file's bytes. *)
Definition decodePairingEndpoint (data : bytes) : result PairingEndpoint :=
  match json_unmarshal PairingEndpoint_schema data with
  | Err err => Err (ErrWrap "decode pairing endpoint" err)
  | Ok m =>
    let endpoint := PairingEndpoint_of m in
    reject_if ((pe_Port endpoint <? 1) || (65535 <? pe_Port endpoint)) (ErrMsg "pairing endpoint port is invalid") ;?
    reject_if (negb (slen (pe_Token endpoint) =? 43)) (ErrMsg "pairing endpoint token is invalid") ;?
    Ok endpoint
  end.

Definition LoadPairingEndpoint : prog (result PairingEndpoint) :=
  let* data := call (ReadTrusted PairingEndpointPath) in
  Ret (match data with
       | Err err => if errors_is err os_ErrNotExist
                    then Err (ErrMsg "pairing UI listener record is missing; the agent service is not serving the pairing page")
                    else Err (ErrWrap "read pairing endpoint" err)
       | Ok data => decodePairingEndpoint data
       end).

Definition RemovePairingEndpoint : prog (result unit) :=
  let* removed := call (Remove PairingEndpointPath) in
  Ret (match removed with
       | Ok _ => Ok tt
       | Err err => if errors_is err os_ErrNotExist then Ok tt else Err (ErrWrap "remove pairing endpoint" err)
       end).

(** ** Lemmas *)

Lemma matches_iff expected provided :
  PairingCapabilityMatches expected provided = true <-> expected = provided /\ slen expected = 43.
Proof.
  unfold PairingCapabilityMatches. destruct (Z.eqb_spec (slen expected) 43) as [E|E]; cbn [negb orb]; [| split; [done | by intros []]].
  destruct (Z.eqb_spec (slen provided) (slen expected)) as [E'|E']; cbn [negb].
  - split; [intros H; by apply String.eqb_eq in H | intros [-> _]; apply String.eqb_refl].
  - split; [done |]. intros [-> _]. done.
Qed.

Lemma pairing_not_scratch name : name = pairingCapabilityFile \/ name = pairingEndpointFile -> ~ scratch (InState, name).
Proof. intros [-> | ->] [H|(d & n & _ & [= _ H])]; done. Qed.

Lemma b64_three n : forall bs, length bs = (3 * n)%nat -> length (b64_encode bs) = (4 * n)%nat.
Proof.
  induction n as [|n IH]; intros bs H; [by destruct bs |]. destruct bs as [|a [|b [|c r]]]; cbn in H; try lia.
  cbn [b64_encode length]. rewrite IH; lia.
Qed.

Lemma b64_encode_app n : forall bs tl, length bs = (3 * n)%nat -> b64_encode (bs ++ tl) = b64_encode bs ++ b64_encode tl.
Proof.
  induction n as [|n IH]; intros bs tl H; [by destruct bs |]. destruct bs as [|a [|b [|c r]]]; cbn in H; try lia.
  cbn [b64_encode app]. rewrite IH by lia. done.
Qed.

(** A capability made of 32 bytes has the length the loader asks for. *)
Lemma capability_length data : zlen data = 32 -> slen (b64_encode_string data) = 43.
Proof.
  intros H. assert (Hd : length data = 32%nat) by (unfold zlen in H; lia).
  rewrite <- (take_drop 30 data). unfold b64_encode_string.
  rewrite (b64_encode_app 10) by (rewrite length_take; lia). unfold slen.
  assert (Hr : exists a b, drop 30 data = [a; b]).
  { assert (Hl : length (drop 30 data) = 2%nat) by (rewrite length_drop; lia).
    destruct (drop 30 data) as [|a [|b [|c r]]]; cbn in Hl; try lia. by exists a, b. }
  destruct Hr as (a & b & ->). cbn [b64_encode].
  assert (Hs : forall l : bytes, String.length (string_of l) = length l) by (induction l as [|x l IH]; [done |]; exact (f_equal S IH)).
  rewrite Hs, length_app, (b64_three 10) by (rewrite length_take; lia). done.
Qed.

(** Nothing of the alphabet is white space. *)
Lemma trim_left_alphabet spaces fuel bs :
  forallb (fun w => match w with x :: _ => negb (b64_alphabet x) | [] => false end) spaces = true ->
  forallb b64_alphabet bs = true -> trim_left spaces fuel bs = bs.
Proof.
  intros Hs Hb. destruct fuel as [|fuel]; [done |]. cbn [trim_left]. destruct (find _ spaces) as [w|] eqn:E; [| done].
  apply find_some in E as [Hin Hp]. rewrite forallb_forall in Hs. specialize (Hs w Hin).
  destruct w as [|x w]; [done |]. destruct bs as [|b bs]; [done |]. cbn in Hp, Hb. apply andb_true_iff in Hp as [Hp _].
  apply Byte.byte_dec_bl in Hp. subst x. apply andb_true_iff in Hb as [Hb _]. by rewrite Hb in Hs.
Qed.

Lemma trimmed_alphabet s : forallb b64_alphabet (bytes_of s) = true -> trimmed s = s.
Proof.
  intros H. unfold trimmed, TrimSpace. rewrite (trim_left_alphabet white_space) by (done || vm_compute; reflexivity).
  rewrite trim_left_alphabet; [by rewrite rev_involutive, string_of_bytes_of | by vm_compute |].
  rewrite forallb_forall in H |- *. intros x Hx. apply H. by apply in_rev.
Qed.

(** A capability as [GeneratePairingCapability] makes them. *)
Definition capability_shape (s : string) : Prop := slen s = 43 /\ forallb b64_alphabet (bytes_of s) = true.

Lemma generated_shape entropy capability :
  (forall data, entropy 32 = Ok data -> zlen data = 32) ->
  GeneratePairingCapability entropy = Ok capability -> capability_shape capability.
Proof.
  intros He. unfold GeneratePairingCapability. destruct (entropy 32) as [data|] eqn:E; [| done]. intros [= <-].
  split; [by apply capability_length, He |]. unfold b64_encode_string. rewrite bytes_of_string_of. apply b64_encode_alphabet.
Qed.

(** Writing a capability, and reading it back. *)
Lemma write_capability_safe {steady : bool} capability s :
  safe (M := exec_file steady) (only scratch PairingCapabilityPath (Some (File (bytes_of (trimmed capability)))) s)
    (okay (fun _ s' => s' !! PairingCapabilityPath = Some (File (bytes_of (trimmed capability))))) (WritePairingCapability capability) s.
Proof.
  unfold WritePairingCapability. cbv zeta. destruct (negb _); [apply safe_err, only_refl |].
  by apply writePrivateFile_safe, pairing_not_scratch; left.
Qed.

Lemma load_capability_safe (P : files -> Prop) s :
  P s -> safe P (fun r s' => s' = s /\
      (forall c, r = Ok c -> exists data, s !! PairingCapabilityPath = Some (File data) /\ trimmed (string_of data) = c /\ slen c = 43) /\
      (forall e, r = Err e -> errors_is e os_ErrNotExist = true -> s !! PairingCapabilityPath = None)) LoadPairingCapability s.
Proof.
  intros Hs. unfold LoadPairingCapability. eapply safe_bind; [by apply safe_read |]. intros r s1 _ (-> & Hr & Hn).
  destruct r as [data|e]; apply safe_ret; try done.
  - split; [done |]. destruct (Hr _ eq_refl) as [Hd _]. destruct (Z.eqb_spec (slen (trimmed (string_of data))) 43) as [E|E]; cbn [negb].
    + split; [| done]. intros c [= <-]. by exists data.
    + split; [done |]. by intros e [= <-].
  - split; [done |]. split; [done |]. intros e' [= <-]. by apply Hn.
Qed.

(** The record of a listener, read back. *)
Lemma endpoint_reads_back e :
  1 <= pe_Port e <= 65535 -> slen (pe_Token e) = 43 -> utf8_valid (bytes_of (pe_Token e)) = true -> 0 <= pe_PID e < 2 ^ 63 ->
  utf8_valid (bytes_of (pe_CreatedAt e)) = true ->
  decodePairingEndpoint (marshal_object (PairingEndpoint_members e) ++ [Byte.x0a]) = Ok e.
Proof.
  intros Hport Htok Hu Hpid Hc. destruct e as [port token pid created]. cbn [pe_Port pe_Token pe_PID pe_CreatedAt] in *.
  assert (Hm : members_ok (PairingEndpoint_members (MkPairingEndpoint port token pid created))).
  { repeat apply Forall_cons_2; try apply Forall_nil_2; cbn; first [done | split; [done |]; first [done | lia]]. }
  assert (Hf : Forall (member_fits PairingEndpoint_schema false) (PairingEndpoint_members (MkPairingEndpoint port token pid created))).
  { repeat apply Forall_cons_2; try apply Forall_nil_2; cbn; first [done | lia]. }
  unfold decodePairingEndpoint, json_unmarshal. rewrite (line_document _ Hm). cbn [decode_struct]. rewrite decode_marshalled by done.
  change (PairingEndpoint_of (put_members PairingEndpoint_schema
    (PairingEndpoint_members (MkPairingEndpoint port token pid created)) ∅)) with (MkPairingEndpoint port token pid created).
  cbn [pe_Port pe_Token]. rewrite (proj2 (Z.ltb_ge port 1)), (proj2 (Z.ltb_ge 65535 port)) by lia. cbn [orb reject_if].
  rewrite Htok. done.
Qed.

(** A capability that an operator was given is never invalidated by a reader. At every moment of [EnsurePairingCapability], whatever fails and wherever the process dies, a capability file that was there is untouched; only when there was none is one created, whole at once. The capability it returns has 43 characters and is what the file holds, and the capability just written is what the next reader loads. *)
Theorem capability_ensured entropy s events :
  (forall data, entropy 32 = Ok data -> zlen data = 32) ->
  let '(s', r) := run events (EnsurePairingCapability entropy) s in
  (is_Some (s !! PairingCapabilityPath) -> s' !! PairingCapabilityPath = s !! PairingCapabilityPath) /\
  (forall capability, r = Some (Ok capability) ->
     slen capability = 43 /\
     exists data, s' !! PairingCapabilityPath = Some (File data) /\ trimmed (string_of data) = capability /\
       (s !! PairingCapabilityPath = None -> data = bytes_of capability /\ GeneratePairingCapability entropy = Ok capability)).
Proof.
  intros He.
  assert (H : safe (fun s' => is_Some (s !! PairingCapabilityPath) -> s' !! PairingCapabilityPath = s !! PairingCapabilityPath)
    (okay (fun capability s' => slen capability = 43 /\
       exists data, s' !! PairingCapabilityPath = Some (File data) /\ trimmed (string_of data) = capability /\
         (s !! PairingCapabilityPath = None -> data = bytes_of capability /\ GeneratePairingCapability entropy = Ok capability)))
    (EnsurePairingCapability entropy) s).
  { unfold EnsurePairingCapability. eapply safe_bind; [by apply load_capability_safe |]. intros loaded s1 H1 (-> & Hl & Hn).
    destruct loaded as [c|err].
    - apply safe_ret; [done |]. destruct (Hl c eq_refl) as (data & Hd & Ht & Hlen). split; [done |]. exists data.
      split; [done |]. split; [done |]. congruence.
    - destruct (errors_is err os_ErrNotExist) eqn:E; [| by apply safe_err]. cbn [negb].
      pose proof (Hn err eq_refl E) as Hnone. destruct (GeneratePairingCapability entropy) as [c|e] eqn:Eg; [| by apply safe_err].
      destruct (generated_shape _ _ He Eg) as [Hlen Ha].
      eapply (safe_then _ (fun _ s' => s' !! PairingCapabilityPath = Some (File (bytes_of c)))).
      { eapply safe_mono; [apply write_capability_safe | | intros [[]|] s' _ H; [| done]].
        - intros s' _ [n Hs]. congruence.
        - cbn in H. by rewrite trimmed_alphabet in H. }
      intros _ s2 H2 Hf. apply safe_ret; [done |]. split; [done |]. exists (bytes_of c).
      split; [done |]. rewrite string_of_bytes_of. split; [by apply trimmed_alphabet | done]. }
  pose proof (safe_run _ _ _ events s H) as Hr. destruct (run _ _ _) as [s' r]. destruct Hr as [H1 H2].
  split; [done |]. intros c ->. exact (H2 _ eq_refl).
Qed.

Definition demo_capability_entropy (n : Z) : result bytes := Ok (repeat "a"%byte (Z.to_nat n)).

Lemma capability_ensured_witness :
  exists s' capability, run (demo_events 40) (EnsurePairingCapability demo_capability_entropy) ∅ = (s', Some (Ok capability)) /\
    slen capability = 43 /\ s' !! PairingCapabilityPath = Some (File (bytes_of capability)).
Proof.
  assert (He : forall data, demo_capability_entropy 32 = Ok data -> zlen data = 32) by (intros data [= <-]; reflexivity).
  pose proof (capability_ensured demo_capability_entropy ∅ (demo_events 40) He) as H.
  destruct (run (demo_events 40) (EnsurePairingCapability demo_capability_entropy) ∅) as [s' r] eqn:E.
  assert (r = Some (Ok (b64_encode_string (repeat "a"%byte 32)))) as -> by (apply (f_equal snd) in E; vm_compute in E; exact (eq_sym E)).
  destruct H as [_ H]. destruct (H _ eq_refl) as (Hl & data & Hd & _ & Hn). destruct (Hn eq_refl) as [-> _].
  exists s', (b64_encode_string (repeat "a"%byte 32)). split; [reflexivity |]. by split.
Defined.
