(* ===== verification/TrustAnchor.v ===== *)
(** * TrustAnchor: certificate files an operator names

    [ValidateCAFile] of [internal/agent/config.go] and [withCAClient] of
    [internal/connector/connector.go].  The file system and the PEM parser are
    parameters: what opening a path, its [Stat] and reading it returned, and
    whether bytes hold a certificate. *)

From S2P Require Import Prelude GoText GoDuration PairingFiles.

Definition MaxCAFileSize : Z := 2 ^ 20.

(** An open file: whether it is regular and its size, and all that reading it
    would return. *)
Record opened_file := MkOpened { of_stat : result (bool * Z); of_read : result bytes }.

(** [io.ReadAll(io.LimitReader(file, n))]. *)
Definition read_limited (f : opened_file) (n : Z) : result bytes :=
  let? data := of_read f in Ok (firstn (Z.to_nat n) data).

Section Anchors.
Context (Open : string -> result opened_file) (pem_ok : bytes -> bool).

Definition ValidateCAFile (path : string) : result unit :=
  reject_if (String.eqb (trimmed path) EmptyString) (ErrMsg "CA file path is empty") ;?
  match Open path with
  | Err err => Err (ErrWrap "open CA file" err)
  | Ok file =>
    match of_stat file with
    | Err err => Err (ErrWrap "inspect CA file" err)
    | Ok (regular, size) =>
      reject_if (negb regular) (ErrMsg "CA file must be a regular file, not a directory or device") ;?
      reject_if (size =? 0) (ErrMsg "CA file is empty") ;?
      reject_if (MaxCAFileSize <? size) (ErrMsg "CA file exceeds the trust-anchor limit") ;?
      match read_limited file MaxCAFileSize with
      | Err err => Err (ErrWrap "read CA file" err)
      | Ok pemData => reject_if (negb (pem_ok pemData)) (ErrMsg "CA file contains no PEM certificate that loads as a trust anchor")
      end
    end
  end.

(** The anchor [withCAClient] adds to the system's; [None] leaves the client as
    it was. *)
Definition withCAClient (caFile : string) (has_client : bool) : result (option bytes) :=
  if String.eqb caFile EmptyString || has_client then Ok None
  else
    match Open caFile with
    | Err err => Err (ErrWrap "open CA file" err)
    | Ok file =>
      match of_stat file with
      | Err err => Err (ErrWrap "inspect CA file" err)
      | Ok (regular, size) =>
        reject_if (negb regular || (size =? 0) || (MaxCAFileSize <? size)) (ErrMsg "CA file must be a regular file of bounded size") ;?
        match read_limited file MaxCAFileSize with
        | Err err => Err (ErrWrap "read CA file" err)
        | Ok pemData =>
          reject_if (negb (pem_ok pemData)) (ErrMsg "CA file contains no PEM certificate usable as a trust anchor") ;? Ok (Some pemData)
        end
      end
    end.

(** Both programs take the same files for an anchor, and never hold more than
    1 MiB of one, whatever its size said. *)
Lemma anchors_agree path :
  trimmed path <> EmptyString -> path <> EmptyString ->
  ValidateCAFile path = Ok tt <-> exists anchor, withCAClient path false = Ok (Some anchor) /\ zlen anchor <= MaxCAFileSize.
Proof.
  intros Ht Hp. unfold ValidateCAFile, withCAClient. rewrite (proj2 (String.eqb_neq _ _) Ht), (proj2 (String.eqb_neq _ _) Hp).
  cbn [orb reject_if rbind]. destruct (Open path) as [file|]; [| naive_solver]. destruct (of_stat file) as [[regular size]|]; [| naive_solver].
  destruct regular; cbn [negb orb reject_if rbind]; [| naive_solver]. destruct (size =? 0); cbn [orb reject_if rbind]; [naive_solver |].
  destruct (MaxCAFileSize <? size); cbn [reject_if rbind]; [naive_solver |].
  assert (Hl : forall data, read_limited file MaxCAFileSize = Ok data -> zlen data <= MaxCAFileSize).
  { unfold read_limited. destruct (of_read file) as [d|]; [| done]. cbn [rbind]. intros data [= <-]. unfold zlen.
    rewrite length_firstn. unfold MaxCAFileSize. lia. }
  destruct (read_limited _ _) as [pem|]; [| naive_solver]. destruct (pem_ok pem); cbn [negb reject_if rbind]; [| naive_solver].
  split; [| done]. intros _. exists pem. split; [done | by apply Hl].
Qed.
End Anchors.
