(* ===== verification/Enrollment.v ===== *)
(** * Enrollment: the device enrollment exchange

    [internal/enrollment/client.go]: how a device asks an enrollment server to be
    enrolled, proves that it holds its key, and claims the credentials once an
    operator has approved it.  [net/url.Parse], Ed25519 and the HTTP exchanges
    are parameters: what [http.Client.Do] returned for a request, and what
    reading the body of the answer returned.  The requests sent are part of
    every result. *)

From S2P Require Import Prelude GoText GoTime GoDuration GoNet Json StrictJson JsonMarshal Contract AgentLimits AgentTarget AgentStream AgentConfig PairingFiles.

Definition maxResponseBytes : Z := 16 * 1024.

(** [^[A-Z2-9]{4}-[A-Z2-9]{4}$]. *)
Definition code_byte (b : Byte.byte) : bool := is_upper b || in_range 50 57 b.

Definition userCodePattern (s : string) : bool :=
  match bytes_of s with
  | [a; b; c; d; dash; e; f; g; h] => forallb code_byte [a; b; c; d; e; f; g; h] && Byte.eqb dash "-"%byte
  | _ => false
  end.

(** ** [URL.Hostname] *)

(** [validOptionalPort] of what follows a colon. *)
Definition port_digits (s : bytes) : bool := forallb is_digit s.

Definition Hostname (u : URL) : string :=
  let host := bytes_of (u_Host u) in
  let host := match before_last ":"%byte host, after_last ":"%byte host with
              | Some h, Some port => if port_digits port then h else host
              | _, _ => host
              end in
  string_of (match host with
             | b :: r => if Byte.eqb b "["%byte && Byte.eqb (List.last r b) "]"%byte && negb (bool_decide (r = []))
                         then removelast r else host
             | [] => host
             end).

(** ** Requests *)

Record http_request := MkHttp {
  hr_Scheme : string; hr_Host : string; hr_Path : string; hr_Bearer : string; hr_Payload : option bytes }.

(** What the exchange sent, and its outcome. *)
Definition dialogue (A : Type) : Type := list http_request * result A.

Definition unsent {A : Type} (r : result A) : dialogue A := ([], r).

Definition continuing {A B : Type} (x : dialogue A) (k : A -> dialogue B) : dialogue B :=
  match x.2 with
  | Err err => (x.1, Err err)
  | Ok a => let y := k a in (x.1 ++ y.1, y.2)
  end.

Definition labelled {A : Type} (text : string) (x : dialogue A) : dialogue A :=
  (x.1, match x.2 with Err err => Err (ErrWrap text err) | Ok a => Ok a end).

(** [url.PathEscape]. *)
Definition hex_upper (v : Z) : Byte.byte := if v <? 10 then zb (48 + v) else zb (55 + v).

Definition path_plain (b : Byte.byte) : bool := is_alnum b || existsb (Byte.eqb b) (bytes_of "-_.~$&+:=@").

Definition PathEscape (s : string) : string :=
  string_of (flat_map (fun b => if path_plain b then [b] else ["%"%byte; hex_upper (bz b / 16); hex_upper (bz b mod 16)]) (bytes_of s)).

Record Session := MkEnrollment {
  en_EnrollmentID : string; en_UserCode : string; en_PollToken : string; en_VerificationURI : string; en_ExpiresAt : instant }.

Record Credentials := MkCredentials {
  cr_DeviceID : string; cr_AuthorizationID : string; cr_TokenID : string; cr_Token : string;
  cr_ExpiresAt : instant; cr_GatewayURL : string }.

Record beginResponse := MkBeginResponse {
  br_EnrollmentID : string; br_UserCode : string; br_VerificationURI : string; br_PollToken : string;
  br_Challenge : string; br_ExpiresAt : string }.

Definition beginResponse_schema : schema :=
  [("enrollment_id", KString); ("user_code", KString); ("verification_uri", KString); ("poll_token", KString);
   ("challenge", KString); ("expires_at", KString)].

Definition beginResponse_of (m : gmap string field_val) : beginResponse :=
  MkBeginResponse (get_string m "enrollment_id") (get_string m "user_code") (get_string m "verification_uri")
    (get_string m "poll_token") (get_string m "challenge") (get_string m "expires_at").

Record claimResponse := MkClaimResponse {
  cm_State : string; cm_DeviceID : string; cm_AuthorizationID : string; cm_TokenID : string; cm_Token : string;
  cm_ExpiresAt : string; cm_GatewayURL : string }.

Definition claimResponse_schema : schema :=
  [("state", KString); ("device_id", KString); ("authorization_id", KString); ("token_id", KString); ("token", KString);
   ("expires_at", KString); ("gateway_url", KString)].

Definition claimResponse_of (m : gmap string field_val) : claimResponse :=
  MkClaimResponse (get_string m "state") (get_string m "device_id") (get_string m "authorization_id") (get_string m "token_id")
    (get_string m "token") (get_string m "expires_at") (get_string m "gateway_url").

Section Client.
Context (url_Parse : string -> result URL).
Context (Do : http_request -> result (Z * result bytes)).

Definition loopback_host (u : URL) : bool :=
  String.eqb (Hostname u) "localhost" ||
  match ParseIP (Hostname u) with Some ip => IsLoopback ip | None => false end.

(** HTTPS, or HTTP to this machine. *)
Definition secure_scheme (u : URL) : bool :=
  String.eqb (u_Scheme u) "https" || (String.eqb (u_Scheme u) "http" && loopback_host u).

Definition validateServerURL (raw : string) : result URL :=
  let bad := ErrMsg "server URL must be an origin without credentials, path, query, or fragment" in
  match url_Parse (trimmed raw) with
  | Err _ => Err bad
  | Ok parsed =>
    reject_if (String.eqb (u_Host parsed) EmptyString || u_User parsed || negb (String.eqb (u_RawQuery parsed) EmptyString) ||
               negb (String.eqb (u_Fragment parsed) EmptyString) ||
               (negb (String.eqb (u_Path parsed) EmptyString) && negb (String.eqb (u_Path parsed) "/"))) bad ;?
    reject_if (negb (secure_scheme parsed))
      (ErrMsg "server URL must use HTTPS (HTTP is allowed only for an IP/localhost test server)") ;?
    Ok (MkURL (u_Scheme parsed) (u_Host parsed) (u_User parsed) EmptyString (u_RawQuery parsed) (u_Fragment parsed))
  end.

(** [postJSON] up to the body of an answer with the expected status; the
    answer is read up to one byte over the limit. *)
Definition post (base : URL) (path bearer : string) (payload : option bytes) (expectedStatus : Z) : dialogue bytes :=
  let request := MkHttp (u_Scheme base) (u_Host base) path bearer payload in
  ([request],
   match Do request with
   | Err err => Err err
   | Ok (status, body) =>
     let? data := body in
     reject_if (maxResponseBytes <? zlen data) (ErrMsg "response exceeds 16 KiB") ;?
     reject_if (negb (status =? expectedStatus)) (ErrMsg "server returned an unexpected HTTP status") ;?
     Ok data
   end).

(** [postJSON] with a result to fill, and without. *)
Definition postJSON (base : URL) (path bearer : string) (payload : option bytes) (expectedStatus : Z) (fs : schema)
    : dialogue (gmap string field_val) :=
  continuing (post base path bearer payload expectedStatus) (fun data => unsent (decodeStrict fs data)).

Definition postNothing (base : URL) (path bearer : string) (payload : option bytes) (expectedStatus : Z) : dialogue unit :=
  continuing (post base path bearer payload expectedStatus) (fun data =>
    unsent (reject_if (negb (zlen (TrimSpace data) =? 0)) (ErrMsg "unexpected response body"))).

Definition validateBeginResponse (response : beginResponse) (now : instant) : result unit :=
  reject_if (negb (identifierPattern (br_EnrollmentID response))) (ErrMsg "enrollment_id is invalid") ;?
  reject_if (negb (userCodePattern (br_UserCode response))) (ErrMsg "user_code is invalid") ;?
  reject_if (slen (br_PollToken response) <? 32) (ErrMsg "poll_token is invalid") ;?
  match b64_decode_string (br_Challenge response) with
  | None => Err (ErrMsg "challenge is invalid")
  | Some challenge =>
    reject_if (negb (zlen challenge =? 32) || negb (String.eqb (b64_encode_string challenge) (br_Challenge response)))
      (ErrMsg "challenge is invalid")
  end ;?
  match url_Parse (br_VerificationURI response) with
  | Err _ => Err (ErrMsg "verification_uri is invalid")
  | Ok verification =>
    reject_if (String.eqb (u_Host verification) EmptyString || u_User verification ||
               negb (String.eqb (u_RawQuery verification) EmptyString) || negb (String.eqb (u_Fragment verification) EmptyString))
      (ErrMsg "verification_uri is invalid") ;?
    reject_if (negb (secure_scheme verification)) (ErrMsg "verification_uri must use HTTPS")
  end ;?
  match go_parse_rfc3339 (br_ExpiresAt response) with
  | None => Err (ErrMsg "expires_at is outside the accepted window")
  | Some expiresAt =>
    reject_if (negb (now <? z_instant expiresAt) || (now + 15 * Minute <? z_instant expiresAt))
      (ErrMsg "expires_at is outside the accepted window")
  end.

(** The three identifiers come from a map: which failing one is named is
    unspecified. *)
Definition validateCredentials (response : claimResponse) (now : instant) : result unit :=
  reject_if (negb (identifierPattern (cm_DeviceID response))) (ErrMsg "device_id is invalid") ;?
  reject_if (negb (identifierPattern (cm_AuthorizationID response))) (ErrMsg "authorization_id is invalid") ;?
  reject_if (negb (identifierPattern (cm_TokenID response))) (ErrMsg "token_id is invalid") ;?
  reject_if (negb (tokenPattern (cm_Token response))) (ErrMsg "token is invalid") ;?
  match go_parse_rfc3339 (cm_ExpiresAt response) with
  | None => Err (ErrMsg "expires_at is invalid")
  | Some expiresAt => reject_if (negb (now <? z_instant expiresAt)) (ErrMsg "expires_at is invalid")
  end ;?
  match url_Parse (cm_GatewayURL response) with
  | Err _ => Err (ErrMsg "gateway_url is invalid")
  | Ok gateway =>
    reject_if (negb (String.eqb (u_Scheme gateway) "wss") || String.eqb (u_Host gateway) EmptyString ||
               negb (String.eqb (u_Path gateway) "/agent/v1/connect") || u_User gateway ||
               negb (String.eqb (u_RawQuery gateway) EmptyString) || negb (String.eqb (u_Fragment gateway) EmptyString))
      (ErrMsg "gateway_url is invalid")
  end.

Definition parsed_instant (s : string) : instant := match go_parse_rfc3339 s with Some t => z_instant t | None => 0 end.

(** ** The two operations *)

Definition enrollmentsPath : string := "/api/v1/agent/enrollments".

(** The message whose signature proves possession of the key. *)
Definition proof_message (enrollmentID challenge : string) (publicKey : bytes) : bytes :=
  bytes_of "hooshix-enrollment-v1" ++ [Byte.x00] ++ bytes_of enrollmentID ++ [Byte.x00] ++ bytes_of challenge ++ [Byte.x00] ++
  b64_encode publicKey.

(** [key_pair_ok]: both keys have their size and belong together. *)
Definition Begin (Sign : bytes -> bytes) (key_pair_ok : bool) (now : instant) (serverURL deviceName : string) (publicKey : bytes)
    : dialogue Session :=
  continuing (unsent (validateServerURL serverURL)) (fun base =>
  continuing (unsent (reject_if (negb key_pair_ok) (ErrMsg "device Ed25519 key pair is invalid"))) (fun _ =>
  let deviceName := trimmed deviceName in
  continuing (unsent (reject_if (String.eqb deviceName EmptyString || (64 <? slen deviceName)) (ErrMsg "device name must be 1..64 characters"))) (fun _ =>
  continuing (labelled "create enrollment"
    (postJSON base enrollmentsPath EmptyString
       (Some (marshal_object [("device_name", MString deviceName); ("public_key", MString (b64_encode_string publicKey))]))
       201 beginResponse_schema)) (fun fields =>
  let created := beginResponse_of fields in
  continuing (labelled "invalid enrollment response" (unsent (validateBeginResponse created now))) (fun _ =>
  let signature := b64_encode_string (Sign (proof_message (br_EnrollmentID created) (br_Challenge created) publicKey)) in
  continuing (labelled "prove enrollment key"
    (postNothing base (enrollmentsPath +:+ "/" +:+ PathEscape (br_EnrollmentID created) +:+ "/proof") EmptyString
       (Some (marshal_object [("signature", MString signature)])) 204)) (fun _ =>
  unsent (Ok (MkEnrollment (br_EnrollmentID created) (br_UserCode created) (br_PollToken created) (br_VerificationURI created)
               (parsed_instant (br_ExpiresAt created)))))))))).

(** [None]: not approved yet. *)
Definition Claim (now : instant) (serverURL : string) (session : Session) : dialogue (option Credentials) :=
  continuing (unsent (validateServerURL serverURL)) (fun base =>
  continuing (unsent (reject_if (negb (identifierPattern (en_EnrollmentID session)) || negb (tokenPattern (en_PollToken session)))
                  (ErrMsg "enrollment session is invalid"))) (fun _ =>
  continuing (labelled "claim enrollment"
    (postJSON base (enrollmentsPath +:+ "/" +:+ PathEscape (en_EnrollmentID session) +:+ "/claim") (en_PollToken session) None
       200 claimResponse_schema)) (fun fields =>
  let claimed := claimResponse_of fields in
  if String.eqb (cm_State claimed) "pending" || String.eqb (cm_State claimed) "approved" then unsent (Ok None)
  else if negb (String.eqb (cm_State claimed) "claimed") then unsent (Err (ErrMsg "unexpected enrollment state"))
  else
    continuing (labelled "invalid enrollment credentials" (unsent (validateCredentials claimed now))) (fun _ =>
    unsent (Ok (Some (MkCredentials (cm_DeviceID claimed) (cm_AuthorizationID claimed) (cm_TokenID claimed) (cm_Token claimed)
                       (parsed_instant (cm_ExpiresAt claimed)) (cm_GatewayURL claimed)))))))).
End Client.

(** ** Exchanges *)

Lemma continuing_Ok {A B : Type} (x : dialogue A) (k : A -> dialogue B) w b :
  continuing x k = (w, Ok b) -> exists w1 a w2, x = (w1, Ok a) /\ k a = (w2, Ok b) /\ w = w1 ++ w2.
Proof.
  destruct x as [w1 [a|err]]; unfold continuing; cbn [fst snd]; [| by intros [=]].
  destruct (k a) as [w2 r] eqn:E. cbn. intros [= <- ->]. by exists w1, a, w2.
Qed.

Lemma unsent_Ok {A : Type} (r : result A) w a : unsent r = (w, Ok a) -> w = [] /\ r = Ok a.
Proof. by intros [= <- ->]. Qed.

Lemma labelled_Ok {A : Type} text (x : dialogue A) w a : labelled text x = (w, Ok a) -> x = (w, Ok a).
Proof. destruct x as [w' [b|err]]; unfold labelled; cbn; [| by intros [=]]. by intros [= <- ->]. Qed.

(** Everything an exchange sends satisfies [P]. *)
Definition sends {A : Type} (P : http_request -> Prop) (x : dialogue A) : Prop := Forall P x.1.

Lemma sends_continuing {A B : Type} P (x : dialogue A) (k : A -> dialogue B) :
  sends P x -> (forall a, x.2 = Ok a -> sends P (k a)) -> sends P (continuing x k).
Proof.
  destruct x as [w [a|err]]; unfold continuing, sends; cbn [fst snd]; intros H Hk; [| done]. apply Forall_app. split; [done | by apply Hk].
Qed.

Lemma sends_labelled {A : Type} P text (x : dialogue A) : sends P x -> sends P (labelled text x).
Proof. done. Qed.

Lemma sends_unsent {A : Type} P (r : result A) : sends P (unsent r).
Proof. apply Forall_nil_2. Qed.

Section Theorems.
Context (url_Parse : string -> result URL).

(** Where a request goes: the origin of the server address, encrypted or local. *)
Definition to_origin (serverURL : string) (r : http_request) : Prop :=
  exists base, url_Parse (trimmed serverURL) = Ok base /\ secure_scheme base = true /\ u_User base = false /\
    hr_Scheme r = u_Scheme base /\ hr_Host r = u_Host base.

Lemma validateServerURL_Ok serverURL base :
  validateServerURL url_Parse serverURL = Ok base ->
  exists parsed, url_Parse (trimmed serverURL) = Ok parsed /\ secure_scheme parsed = true /\ u_User parsed = false /\
    u_Scheme base = u_Scheme parsed /\ u_Host base = u_Host parsed.
Proof.
  unfold validateServerURL. destruct (url_Parse _) as [parsed|]; [| done]. cbn zeta.
  destruct (_ || _) eqn:E; [done |]. cbn [reject_if rbind]. destruct (secure_scheme parsed) eqn:Es; [| done]. cbn.
  intros [= <-]. exists parsed. split_and!; try done. rewrite !orb_false_iff in E. tauto.
Qed.

Lemma post_Ok Do base path bearer payload expected w data :
  post Do base path bearer payload expected = (w, Ok data) ->
  w = [MkHttp (u_Scheme base) (u_Host base) path bearer payload] /\ Do (MkHttp (u_Scheme base) (u_Host base) path bearer payload) = Ok (expected, Ok data) /\
  zlen data <= maxResponseBytes.
Proof.
  unfold post. intros [= <- H]. destruct (Do _) as [[status [body|]]|] eqn:E; try done. cbn in H.
  destruct (_ <? _) eqn:Es; [done |]. cbn in H. destruct (Z.eqb_spec status expected) as [->|]; [| done]. injection H as <-.
  apply Z.ltb_ge in Es. done.
Qed.

Lemma post_sends Do base serverURL path bearer payload expected (P : http_request -> Prop) :
  validateServerURL url_Parse serverURL = Ok base ->
  (forall r, to_origin serverURL r -> hr_Path r = path -> hr_Bearer r = bearer -> hr_Payload r = payload -> P r) ->
  sends P (post Do base path bearer payload expected).
Proof.
  intros Hb HP. apply Forall_singleton. apply HP; try done. destruct (validateServerURL_Ok _ _ Hb) as (p & H1 & H2 & H3 & H4 & H5).
  exists p. by rewrite <- H4, <- H5.
Qed.

(** What a server may say of an enrollment it created. *)
Record begun (now : instant) (created : beginResponse) : Prop := Begun {
  bg_id : identifierPattern (br_EnrollmentID created) = true;
  bg_code : userCodePattern (br_UserCode created) = true;
  bg_poll : 32 <= slen (br_PollToken created);
  bg_challenge : exists challenge, zlen challenge = 32 /\ br_Challenge created = b64_encode_string challenge;
  bg_verification : exists u, url_Parse (br_VerificationURI created) = Ok u /\ secure_scheme u = true /\ u_User u = false /\
    u_Host u <> EmptyString /\ u_RawQuery u = EmptyString /\ u_Fragment u = EmptyString;
  bg_expires : now < parsed_instant (br_ExpiresAt created) <= now + 15 * Minute;
}.

Lemma validateBeginResponse_Ok created now : validateBeginResponse url_Parse created now = Ok tt -> begun now created.
Proof.
  unfold validateBeginResponse. destruct (identifierPattern _) eqn:E1; [| done]. destruct (userCodePattern _) eqn:E2; [| done].
  destruct (slen _ <? 32) eqn:E3; [done |]. apply Z.ltb_ge in E3. cbn [negb reject_if rbind].
  destruct (b64_decode_string _) as [challenge|]; [| done]. destruct (_ || _) eqn:E4; [done |]. cbn [reject_if rbind].
  rewrite orb_false_iff in E4. destruct E4 as [E4%negb_false_iff E4'%negb_false_iff]. apply Z.eqb_eq in E4. apply String.eqb_eq in E4'.
  destruct (url_Parse _) as [u|] eqn:Eu; [| done]. destruct (_ || _) eqn:E5; [done |]. cbn [reject_if rbind].
  rewrite !orb_false_iff in E5. destruct E5 as [[[E51 E52] E53] E54].
  destruct (secure_scheme u) eqn:E6; [| done]. cbn [negb reject_if rbind].
  destruct (go_parse_rfc3339 _) as [t|] eqn:Et; [| done]. destruct (_ || _) eqn:E7; [done |]. intros _.
  rewrite orb_false_iff in E7. destruct E7 as [E7%negb_false_iff E7']. apply Z.ltb_lt in E7. apply Z.ltb_ge in E7'.
  constructor; try done.
  - by exists challenge.
  - exists u. split_and!; try done; [by apply String.eqb_neq | by apply String.eqb_eq, negb_false_iff | by apply String.eqb_eq, negb_false_iff].
  - unfold parsed_instant. rewrite Et. lia.
Qed.

(** What the Agent will be configured with. *)
Record claimed_credentials (now : instant) (c : Credentials) : Prop := ClaimedCredentials {
  cc_device : identifierPattern (cr_DeviceID c) = true;
  cc_authorization : identifierPattern (cr_AuthorizationID c) = true;
  cc_tokenid : identifierPattern (cr_TokenID c) = true;
  cc_token : tokenPattern (cr_Token c) = true;
  cc_expires : now < cr_ExpiresAt c;
  cc_gateway : ValidateGatewayURL url_Parse (cr_GatewayURL c) = Ok tt;
}.

Lemma validateCredentials_Ok r now :
  validateCredentials url_Parse r now = Ok tt ->
  claimed_credentials now (MkCredentials (cm_DeviceID r) (cm_AuthorizationID r) (cm_TokenID r) (cm_Token r) (parsed_instant (cm_ExpiresAt r)) (cm_GatewayURL r)).
Proof.
  unfold validateCredentials. destruct (identifierPattern (cm_DeviceID r)) eqn:E1; [| done].
  destruct (identifierPattern (cm_AuthorizationID r)) eqn:E2; [| done]. destruct (identifierPattern (cm_TokenID r)) eqn:E3; [| done].
  destruct (tokenPattern _) eqn:E4; [| done]. cbn [negb reject_if rbind]. unfold parsed_instant.
  destruct (go_parse_rfc3339 _) as [t|] eqn:Et; [| done]. destruct (now <? z_instant t) eqn:E5; [| done]. apply Z.ltb_lt in E5.
  cbn [negb reject_if rbind]. destruct (url_Parse _) as [u|] eqn:Eu; [| done]. destruct (_ || _) eqn:E6; [done |]. intros _.
  rewrite !orb_false_iff in E6. destruct E6 as [[[[[H1 H2] H3] H4] H5] H6].
  constructor; try done. cbn [cr_GatewayURL]. unfold ValidateGatewayURL. rewrite Eu, H1, H2, H3, H4, H5, H6. done.
Qed.

Section Runs.
Context (Do : http_request -> result (Z * result bytes)) (serverURL : string).

Lemma postJSON_sends base path bearer payload expected fs (P : http_request -> Prop) :
  validateServerURL url_Parse serverURL = Ok base ->
  (forall r, to_origin serverURL r -> hr_Path r = path -> hr_Bearer r = bearer -> hr_Payload r = payload -> P r) ->
  sends P (postJSON Do base path bearer payload expected fs).
Proof. intros Hb HP. apply sends_continuing; [by eapply post_sends | intros; apply sends_unsent]. Qed.

Lemma postNothing_sends base path bearer payload expected (P : http_request -> Prop) :
  validateServerURL url_Parse serverURL = Ok base ->
  (forall r, to_origin serverURL r -> hr_Path r = path -> hr_Bearer r = bearer -> hr_Payload r = payload -> P r) ->
  sends P (postNothing Do base path bearer payload expected).
Proof. intros Hb HP. apply sends_continuing; [by eapply post_sends | intros; apply sends_unsent]. Qed.

Lemma begin_sends Sign key_ok now deviceName publicKey :
  sends (fun r => to_origin serverURL r /\ hr_Bearer r = EmptyString)
    (Begin url_Parse Do Sign key_ok now serverURL deviceName publicKey).
Proof.
  unfold Begin. apply sends_continuing; [apply sends_unsent |]. intros base Hb. cbn in Hb.
  apply sends_continuing; [apply sends_unsent |]. intros _ _. apply sends_continuing; [apply sends_unsent |]. intros _ _.
  apply sends_continuing; [by eapply sends_labelled, postJSON_sends |]. intros fields _.
  apply sends_continuing; [apply sends_labelled, sends_unsent |]. intros _ _.
  apply sends_continuing; [by eapply sends_labelled, postNothing_sends |]. intros _ _. apply sends_unsent.
Qed.

Lemma begin_Ok Sign key_ok now deviceName publicKey sent session :
  Begin url_Parse Do Sign key_ok now serverURL deviceName publicKey = (sent, Ok session) ->
  key_ok = true /\ exists base created,
    validateServerURL url_Parse serverURL = Ok base /\ begun now created /\
    session = MkEnrollment (br_EnrollmentID created) (br_UserCode created) (br_PollToken created) (br_VerificationURI created)
                (parsed_instant (br_ExpiresAt created)) /\
    sent = [MkHttp (u_Scheme base) (u_Host base) enrollmentsPath EmptyString
              (Some (marshal_object [("device_name", MString (trimmed deviceName)); ("public_key", MString (b64_encode_string publicKey))]));
            MkHttp (u_Scheme base) (u_Host base) (enrollmentsPath +:+ "/" +:+ PathEscape (br_EnrollmentID created) +:+ "/proof") EmptyString
              (Some (marshal_object [("signature", MString (b64_encode_string
                 (Sign (proof_message (br_EnrollmentID created) (br_Challenge created) publicKey))))]))].
Proof.
  unfold Begin. intros H. apply continuing_Ok in H as (w1 & base & w2 & [-> Hb]%unsent_Ok & H & ->).
  apply continuing_Ok in H as (w3 & u & w4 & [-> Hk]%unsent_Ok & H & ->). destruct key_ok; [| done].
  apply continuing_Ok in H as (w5 & u' & w6 & [-> _]%unsent_Ok & H & ->).
  apply continuing_Ok in H as (w7 & fields & w8 & Hc%labelled_Ok & H & ->).
  apply continuing_Ok in H as (w9 & u'' & w10 & [-> Hv]%labelled_Ok%unsent_Ok & H & ->).
  apply continuing_Ok in H as (w11 & u3 & w12 & Hp%labelled_Ok & [-> [= <-]]%unsent_Ok & ->).
  apply continuing_Ok in Hc as (wc & data & wd & (-> & _ & _)%post_Ok & [-> _]%unsent_Ok & ->).
  apply continuing_Ok in Hp as (wp & data' & wq & (-> & _ & _)%post_Ok & [-> _]%unsent_Ok & ->).
  split; [done |]. exists base, (beginResponse_of fields). destruct u''. split_and!; try done. by apply validateBeginResponse_Ok.
Qed.

Lemma claim_sends now session :
  sends (fun r => to_origin serverURL r /\ hr_Bearer r = en_PollToken session /\ tokenPattern (en_PollToken session) = true)
    (Claim url_Parse Do now serverURL session).
Proof.
  unfold Claim. apply sends_continuing; [apply sends_unsent |]. intros base Hb. cbn in Hb.
  apply sends_continuing; [apply sends_unsent |]. intros u Hu. cbn in Hu. destruct (_ || _) eqn:E; [done |].
  rewrite orb_false_iff in E. destruct E as [_ E%negb_false_iff].
  apply sends_continuing; [by eapply sends_labelled, postJSON_sends |]. intros fields _. cbv zeta.
  destruct (_ || _); [apply sends_unsent |]. destruct (negb _); [apply sends_unsent |].
  apply sends_continuing; [apply sends_labelled, sends_unsent |]. intros _ _. apply sends_unsent.
Qed.

Lemma claim_Ok now session sent c :
  Claim url_Parse Do now serverURL session = (sent, Ok (Some c)) ->
  claimed_credentials now c /\ length sent = 1%nat.
Proof.
  unfold Claim. intros H. apply continuing_Ok in H as (w1 & base & w2 & [-> Hb]%unsent_Ok & H & ->).
  apply continuing_Ok in H as (w3 & u & w4 & [-> Hk]%unsent_Ok & H & ->).
  apply continuing_Ok in H as (w7 & fields & w8 & Hc%labelled_Ok & H & ->). cbv zeta in H.
  clear Hk. destruct (_ || _); [by apply unsent_Ok in H as [_ [=]] |]. destruct (negb _); [by apply unsent_Ok in H as [_ [=]] |].
  apply continuing_Ok in H as (w9 & u'' & w10 & [-> Hv]%labelled_Ok%unsent_Ok & [-> [= <-]]%unsent_Ok & ->).
  apply continuing_Ok in Hc as (wc & data & wd & (-> & _ & _)%post_Ok & [-> _]%unsent_Ok & ->).
  destruct u''. split; [exact (validateCredentials_Ok (claimResponse_of fields) now Hv) | done].
Qed.
End Runs.
End Theorems.

(** What an enrollment gives away, and what it accepts. Whatever the server answers, [Begin] and [Claim] send requests to the origin the operator named only, over HTTPS or to this machine; the poll token goes out only with a claim, and only if it has the shape of a token. A begun enrollment means that the device made exactly two requests, its name and public key, and a signature by its key over the domain-separated message of this enrollment, challenge and public key; what the server said of it is well-formed: identifiers, code, a canonical 32-byte challenge, an encrypted or local verification page, at most 15 minutes to live. Credentials are returned only if identifiers, token and expiry are valid and the gateway address is one the Agent accepts. *)
Theorem enrollment_contained url_Parse Do Sign key_ok now serverURL deviceName publicKey session :
  Forall (fun r => to_origin url_Parse serverURL r /\ hr_Bearer r = EmptyString)
    (Begin url_Parse Do Sign key_ok now serverURL deviceName publicKey).1 /\
  Forall (fun r => to_origin url_Parse serverURL r /\ hr_Bearer r = en_PollToken session /\ tokenPattern (en_PollToken session) = true)
    (Claim url_Parse Do now serverURL session).1 /\
  (forall begun_session, (Begin url_Parse Do Sign key_ok now serverURL deviceName publicKey).2 = Ok begun_session ->
     key_ok = true /\ exists base created,
       validateServerURL url_Parse serverURL = Ok base /\ begun url_Parse now created /\
       en_EnrollmentID begun_session = br_EnrollmentID created /\ en_ExpiresAt begun_session = parsed_instant (br_ExpiresAt created) /\
       hr_Payload <$> (Begin url_Parse Do Sign key_ok now serverURL deviceName publicKey).1 =
         [Some (marshal_object [("device_name", MString (trimmed deviceName)); ("public_key", MString (b64_encode_string publicKey))]);
          Some (marshal_object [("signature", MString (b64_encode_string
            (Sign (proof_message (br_EnrollmentID created) (br_Challenge created) publicKey))))])]) /\
  (forall c, (Claim url_Parse Do now serverURL session).2 = Ok (Some c) -> claimed_credentials url_Parse now c).
Proof.
  split; [apply begin_sends |]. split; [apply claim_sends |]. split.
  - intros s H. destruct (Begin _ _ _ _ _ _ _ _) as [sent r] eqn:E. cbn [fst snd] in *. subst r.
    apply begin_Ok in E as (Hk & base & created & Hb & Hg & -> & ->). split; [done |]. by exists base, created.
  - intros c H. destruct (Claim _ _ _ _ _) as [sent r] eqn:E. cbn [snd] in H. subst r. by apply claim_Ok in E as [Hc _].
Qed.

(** A server that enrolls. *)
Definition demo_panel (raw : string) : result URL :=
  if String.eqb raw "https://panel.example" then Ok (MkURL "https" "panel.example" false EmptyString EmptyString EmptyString)
  else if String.eqb raw "https://panel.example/activate" then Ok (MkURL "https" "panel.example" false "/activate" EmptyString EmptyString)
  else Err (ErrMsg "unknown address").

Definition demo_created (pollToken : string) : bytes :=
  marshal_object [("enrollment_id", MString "enr-1"); ("user_code", MString "ABCD-2345");
    ("verification_uri", MString "https://panel.example/activate"); ("poll_token", MString pollToken);
    ("challenge", MString (b64_encode_string (repeat "c"%byte 32))); ("expires_at", MString "1970-01-01T00:10:00Z")].

Definition demo_server (pollToken : string) (r : http_request) : result (Z * result bytes) :=
  if String.eqb (hr_Path r) enrollmentsPath then Ok (201, Ok (demo_created pollToken)) else Ok (204, Ok []).

Definition demo_begin (pollToken : string) : dialogue Session :=
  Begin demo_panel (demo_server pollToken) id true 0 " https://panel.example" "laptop" (repeat "k"%byte 32).

Definition good_poll : string := string_of (repeat "p"%byte 32).

Lemma enrollment_contained_witness :
  exists session, (demo_begin good_poll).2 = Ok session /\ en_PollToken session = good_poll /\ en_ExpiresAt session = 10 * Minute /\
    length (demo_begin good_poll).1 = 2%nat.
Proof.
  destruct (enrollment_contained demo_panel (demo_server good_poll) id true 0 " https://panel.example" "laptop" (repeat "k"%byte 32)
    (MkEnrollment EmptyString EmptyString EmptyString EmptyString 0)) as (_ & _ & H & _).
  destruct (demo_begin good_poll).2 as [session|] eqn:E; [| vm_compute in E; discriminate E].
  destruct (H session E) as (_ & base & created & _ & _ & _ & _ & Hp).
  exists session. split; [reflexivity |]. vm_compute in E. injection E as <-. split; [reflexivity |]. split; [reflexivity |].
  apply (f_equal length) in Hp. rewrite length_fmap in Hp. exact Hp.
Defined.

(** A poll token that [Begin] accepts for its length is one that [Claim] will
    never send: the enrollment is pending until it expires, and every claim of
    it fails before anything is sent. *)
Definition bad_poll : string := string_of (repeat "!"%byte 32).

Lemma dead_poll_token :
  exists session, (demo_begin bad_poll).2 = Ok session /\
    forall Do now, exists err, Claim demo_panel Do now " https://panel.example" session = ([], Err err).
Proof.
  destruct (demo_begin bad_poll).2 as [session|] eqn:E; [| vm_compute in E; discriminate E].
  exists session. split; [reflexivity |]. vm_compute in E. injection E as <-. intros Do now. eexists. vm_compute. reflexivity.
Qed.
