(* ===== verification/PairingUi.v ===== *)
(** * PairingUi: the Agent's local page

    [internal/agent/webapp]: the guards in front of every route (a local
    request, no foreign origin, the pairing capability, the CSRF token), the
    handlers behind them, and the enrollment they drive.  A request is served by
    a program of {!StateFs}, so what a handler does to the state directory is
    subject to failures and crashes as everywhere.

    What [net/http] makes of a request is the record [web_request]: its parsed
    query and form are inputs, and so is which of the registered patterns the
    [ServeMux] selects for its path.  The bytes of the embedded page, the error
    texts and the CSS headers are left out. *)

From S2P Require Import Prelude GoText GoTime GoDuration GoNet HttpHeaders Json StrictJson JsonMarshal Contract AgentLimits AgentTarget AgentStream AgentConfig ControlCodec Program StateFs StateTxn StateOps Unpair PairingFiles TrustAnchor Enrollment.

(** ** Requests and answers *)

Record web_request := MkWeb {
  wr_RemoteAddr : string;
  wr_Method : string;
  wr_Path : string;
  wr_Host : string;
  wr_Query : list (string * string);
  wr_Header : header;
  wr_ParseForm : option error;
  wr_PostForm : list (string * string);
  wr_Body : bytes;
}.

Definition first_value (pairs : list (string * string)) (key : string) : string :=
  match find (fun p : string * string => String.eqb p.1 key) pairs with Some p => p.2 | None => EmptyString end.

(** [Header.Get]. *)
Definition Get (r : web_request) (name : string) : string := default EmptyString (head (Values (wr_Header r) name)).

Definition PostFormValue (r : web_request) (key : string) : string := first_value (wr_PostForm r) key.

Record pendingEnrollmentView := MkPendingView { pv_UserCode : string; pv_VerificationURI : string; pv_ExpiresAt : instant }.

Record TunnelHealth := MkTunnelHealth {
  th_Phase : string; th_State : string; th_Reconnects : Z; th_LastError : string; th_LastUpdateAt : string }.

(** [uiStateResponse] with its [uiStateConfig]; the panel address and the
    version are constants. *)
Record uiStateResponse := MkUiState {
  us_Paired : bool;
  us_GatewayURL : string; us_CAFile : string; us_DeviceID : string; us_Endpoints : list Endpoint;
  us_PublicKey : string; us_PublicKeyError : string;
  us_Pending : option pendingEnrollmentView;
  us_Tunnel : TunnelHealth;
  us_Notice : string; us_NoticeAt : string;
  us_CSRF : string;
  us_Hostname : string;
}.

Inductive web_body :=
| RText (message : string)                                    (* [http.Error], [http.NotFound] *)
| RJson (data : bytes)                                        (* a flat JSON document *)
| RUnpair (result : UnpairResult)
| REndpoints (endpoints : list Endpoint) (notice : option string)
| RState (document : uiStateResponse)
| RRedirect (capability : string)                             (* to /?cap=... *)
| RAsset (name : string)
| RBootstrap.

Record web_reply := MkReply { rp_Status : Z; rp_Body : web_body }.

Record pendingEnrollment := MkPending { pd_serverURL : string; pd_caFile : string; pd_session : Session }.

Record App := MkApp {
  ap_notice : string;
  ap_noticeAt : option instant;      (* [None]: the zero time *)
  ap_csrfToken : string;
  ap_capability : string;
  ap_endpointToken : string;
  ap_pending : option pendingEnrollment;
}.

Definition setNotice (app : App) (now : instant) (message : string) : App :=
  MkApp message (Some now) (ap_csrfToken app) (ap_capability app) (ap_endpointToken app) (ap_pending app).
Definition with_csrf (app : App) (token : string) : App :=
  MkApp (ap_notice app) (ap_noticeAt app) token (ap_capability app) (ap_endpointToken app) (ap_pending app).
Definition with_capability (app : App) (capability : string) : App :=
  MkApp (ap_notice app) (ap_noticeAt app) (ap_csrfToken app) capability (ap_endpointToken app) (ap_pending app).
Definition with_pending (app : App) (pending : option pendingEnrollment) : App :=
  MkApp (ap_notice app) (ap_noticeAt app) (ap_csrfToken app) (ap_capability app) (ap_endpointToken app) pending.

(** ** Local requests *)

Definition isLoopbackHost (host : string) : bool :=
  bool_decide (host ∈ ["127.0.0.1"; "::1"; "[::1]"; "localhost"]).

Definition isLoopbackRequestHost (hostPort : string) : bool :=
  isLoopbackHost (match SplitHostPort hostPort with Some (host, _) => host | None => hostPort end).

Definition isSameOriginLoopbackNavigation (r : web_request) : bool :=
  String.eqb (wr_Method r) "POST" && isLoopbackRequestHost (wr_Host r) &&
  String.eqb (Get r "Sec-Fetch-Site") "same-origin" && String.eqb (Get r "Sec-Fetch-Mode") "navigate" &&
  String.eqb (Get r "Sec-Fetch-Dest") "document" && String.eqb (Get r "Sec-Fetch-User") "?1".

Section Origin.
Context (url_Parse : string -> result URL).

Definition isLoopbackOrigin (originOrReferer : string) : bool :=
  let value := trimmed originOrReferer in
  if String.eqb value EmptyString || String.eqb value "null" then false
  else
    match (let? parsed := url_Parse value in
           if String.eqb (u_Scheme parsed) EmptyString then url_Parse ("//" +:+ value) else Ok parsed) with
    | Err _ => false
    | Ok parsed =>
      if negb (String.eqb (u_Scheme parsed) "http") && negb (String.eqb (u_Scheme parsed) "https") then false
      else isLoopbackHost (Hostname parsed)
    end.

Definition rejected (status : Z) (message : string) : web_reply := MkReply status (RText message).

(** The answer to a request that is not local, or [None]. *)
Definition requireLocalRequest (r : web_request) : option web_reply :=
  let remoteHost := match SplitHostPort (wr_RemoteAddr r) with Some (host, _) => host | None => wr_RemoteAddr r end in
  if negb (isLoopbackHost remoteHost) then Some (rejected 403 "request must originate from local machine")
  else
    let origin := trimmed (Get r "Origin") in
    let referer := trimmed (Get r "Referer") in
    if negb (String.eqb origin EmptyString) then
      if String.eqb origin "null"
      then if isSameOriginLoopbackNavigation r then None else Some (rejected 403 "cross-origin request rejected")
      else if isLoopbackOrigin origin then None else Some (rejected 403 "cross-origin request rejected")
    else if negb (String.eqb referer EmptyString) && negb (isLoopbackOrigin referer)
    then Some (rejected 403 "cross-origin request rejected")
    else None.
End Origin.

(** ** Assets *)

(** [path.Clean] of a rooted path, as its elements. *)
Definition clean_elements (rooted : bytes) : list bytes :=
  rev (foldl (fun stack e =>
    if bool_decide (e = []) || bool_decide (e = bytes_of ".") then stack
    else if bool_decide (e = bytes_of "..") then tail stack
    else e :: stack) [] (split_on "/"%byte rooted)).

Definition uiPublicAssetName (requestPath : string) : option string :=
  match clean_elements (bytes_of ("/" +:+ requestPath)) with
  | [name] => if bool_decide (string_of name ∈ ["boot.js"; "favicon.svg"]) then Some (string_of name) else None
  | [dir; rest] =>
    if bool_decide (dir = bytes_of "assets") && negb (is_prefix (bytes_of ".") rest)
    then Some (string_of (dir ++ "/"%byte :: rest)) else None
  | _ => None
  end.

(** ** The capability and the token *)

Definition is_read (r : web_request) : bool := String.eqb (wr_Method r) "GET" || String.eqb (wr_Method r) "HEAD".

Definition provided_capability (r : web_request) : string :=
  let provided := first_value (wr_Query r) "cap" in
  if String.eqb provided EmptyString then Get r "X-HooshiX-Pairing-Capability" else provided.

(** [None]: the request goes to the mux. *)
Definition requireCapability (app : App) (r : web_request) : option web_reply :=
  if String.eqb (wr_Path r) "/pairing/identity" then None
  else if is_read r && bool_decide (is_Some (uiPublicAssetName (wr_Path r))) then None
  else if PairingCapabilityMatches (ap_capability app) (provided_capability r) then None
  else if String.eqb (wr_Path r) "/" && is_read r then Some (MkReply 200 RBootstrap)
  else Some (rejected 401 "pairing authorization required").

Definition validCSRFToken (app : App) (value : string) : bool :=
  let token := ap_csrfToken app in
  if String.eqb token EmptyString || String.eqb value EmptyString || (128 <? slen value) then false else String.eqb token value.

Definition provided_csrf (r : web_request) : string :=
  let provided := Get r "X-HooshiX-CSRF" in
  if String.eqb provided EmptyString then PostFormValue r "hooshix_csrf" else provided.

(** The answer to a request without the token, or [None]. *)
Definition requireCSRF (app : App) (r : web_request) : option web_reply :=
  if validCSRFToken app (provided_csrf r) then None else Some (rejected 403 "invalid or missing CSRF token").

Definition ensureCSRFToken (app : App) (entropy : Z -> result bytes) : App * string :=
  if String.eqb (ap_csrfToken app) EmptyString then
    match entropy 32 with
    | Err _ => (app, EmptyString)
    | Ok data => let token := b64_encode_string data in (with_csrf app token, token)
    end
  else (app, ap_csrfToken app).

(** [strings.ToLower] of what becomes ASCII; [wantsJSON]. *)
Fixpoint ToLower (bs : bytes) : bytes :=
  match bs with
  | [] => []
  | a :: r =>
    match r with
    | b :: r1 =>
      if (bz a =? 196) && (bz b =? 176) then "i"%byte :: ToLower r1
      else match r1 with
      | c :: r2 => if (bz a =? 226) && (bz b =? 132) && (bz c =? 170) then "k"%byte :: ToLower r2 else ascii_lower_byte a :: ToLower r
      | [] => ascii_lower_byte a :: ToLower r
      end
    | [] => [ascii_lower_byte a]
    end
  end.

Fixpoint contains_bytes (needle hay : bytes) : bool :=
  is_prefix needle hay || match hay with [] => false | _ :: r => contains_bytes needle r end.

Definition wantsJSON (r : web_request) : bool :=
  contains_bytes (bytes_of "application/json") (ToLower (bytes_of (Get r "Accept"))).

(** [json.NewEncoder(w).Encode] of a flat map, its keys sorted. *)
Definition json_line (members : list (string * marshal_val)) : web_body := RJson (marshal_object members ++ [Byte.x0a]).

Definition json_error (status : Z) (message : string) : web_reply := MkReply status (json_line [("error", MString message)]).

(** [redirectHome], with the capability as it is then. *)
Definition redirectHome (app : App) : web_reply := MkReply 303 (RRedirect (ap_capability app)).

(** ** The handlers *)

Record PairingPayload := MkPairing {
  pp_GatewayURL : string; pp_GatewayAliases : string; pp_CAFile : string; pp_DeviceID : string; pp_AuthorizationID : string;
  pp_TokenID : string; pp_Token : string }.

(** What the world outside the state directory answers while one request is
    served. *)
Record ui_env := MkUiEnv {
  ue_now : instant;
  ue_csrf_entropy : Z -> result bytes;
  ue_capability_entropy : Z -> result bytes;
  ue_seed_entropy : Z -> result bytes;
  ue_Do : http_request -> result (Z * result bytes);
  ue_Open : string -> result opened_file;
  ue_status : result bytes;                         (* [os.ReadFile] of status.json *)
  ue_hostname : result string;
}.

Section Handlers.
Context (url_Parse : string -> result URL) (PublicKey : bytes -> bytes) (Sign : bytes -> bytes -> bytes) (key_ok : bytes -> bool).
Context (decode_json : bytes -> result Config) (marshal_indent : Config -> result bytes) (pem_ok : bytes -> bool).
Context (error_text SanitizedError : error -> string) (asset_exists : string -> bool).
Context (home : Home) (stateDir : string) (env : ui_env).
Abbreviation now := (ue_now env).
Abbreviation handler := (App -> web_request -> prog (App * web_reply)).

Definition respond (app : App) (status : Z) (message : string) : prog (App * web_reply) := Ret (app, rejected status message).

(** The opening of the handlers that change something. *)
Definition posted (form : bool) (app : App) (r : web_request) (k : prog (App * web_reply)) : prog (App * web_reply) :=
  if negb (String.eqb (wr_Method r) "POST") then respond app 405 "POST required"
  else if form && bool_decide (is_Some (wr_ParseForm r)) then respond app 400 "parse form failed"
  else match requireCSRF app r with Some reply => Ret (app, reply) | None => k end.

Definition serveUIFile (app : App) (name : string) : prog (App * web_reply) :=
  if asset_exists name then Ret (app, MkReply 200 (RAsset name)) else respond app 404 "404 page not found".

Definition handleRoot : handler := fun app r =>
  if negb (String.eqb (wr_Path r) "/") then respond app 404 "404 page not found"
  else if negb (is_read r) then respond app 405 "GET required"
  else serveUIFile app "index.html".

Definition handleUIAsset : handler := fun app r =>
  if negb (is_read r) then respond app 405 "GET required"
  else match uiPublicAssetName (wr_Path r) with
       | None => respond app 404 "404 page not found"
       | Some name => serveUIFile app name
       end.

Definition handlePairingIdentity : handler := fun app r =>
  if negb (is_read r) then respond app 405 "GET required"
  else if String.eqb (ap_endpointToken app) EmptyString then respond app 503 "pairing listener identity unavailable"
  else Ret (app, MkReply 200 (json_line [("token", MString (ap_endpointToken app))])).

(** *** State *)

Definition TunnelHealth_schema : schema :=
  [("phase", KString); ("state", KString); ("reconnects", KInt); ("last_error", KString); ("last_update_at", KString)].

Definition string_or (m : gmap string field_val) (name default_ : string) : string :=
  match m !! name with Some (FString s) => s | _ => default_ end.

Definition no_health : TunnelHealth := MkTunnelHealth "unknown" "status-unavailable" 0 EmptyString EmptyString.

Definition loadTunnelHealth (status : result bytes) : TunnelHealth :=
  match status with
  | Err _ => no_health
  | Ok data =>
    match json_unmarshal TunnelHealth_schema data with
    | Err _ => no_health
    | Ok m => MkTunnelHealth (string_or m "phase" "unknown") (string_or m "state" "status-unavailable") (get_int m "reconnects")
                (get_string m "last_error") (get_string m "last_update_at")
    end
  end.

(** [format(time.RFC3339)]: whole seconds. *)
Definition currentNotice (app : App) : string * string :=
  match ap_noticeAt app with
  | Some at_ => if 10 * Minute <=? now - at_ then (EmptyString, EmptyString)
                else (ap_notice app, format_rfc3339_nano (at_ / Second * Second))
  | None => (EmptyString, EmptyString)
  end.

Definition pendingEnrollmentSnapshot (app : App) : option pendingEnrollmentView :=
  match ap_pending app with
  | Some pending =>
    if now <? en_ExpiresAt (pd_session pending)
    then Some (MkPendingView (en_UserCode (pd_session pending)) (en_VerificationURI (pd_session pending)) (en_ExpiresAt (pd_session pending)))
    else None
  | None => None
  end.

Definition hostname : string :=
  match ue_hostname env with
  | Ok name => if String.eqb (trimmed name) EmptyString then "hooshix-agent" else name
  | Err _ => "hooshix-agent"
  end.

Definition state_document (app : App) (config : Config) (key : result bytes) (csrf : string) : uiStateResponse :=
  MkUiState (is_ok (ValidateRuntime url_Parse config))
    (cf_GatewayURL config) (cf_CAFile config) (cf_DeviceID config) (cf_Endpoints config)
    (match key with Ok k => b64_encode_string k | Err _ => EmptyString end)
    (match key with Ok _ => EmptyString | Err err => SanitizedError err end)
    (pendingEnrollmentSnapshot app) (loadTunnelHealth (ue_status env)) (currentNotice app).1 (currentNotice app).2 csrf hostname.

Definition handleState : handler := fun app r =>
  if negb (is_read r) then respond app 405 "GET required"
  else
    let* loaded := LoadConfig decode_json home in
    match loaded with
    | Err _ => Ret (app, json_error 500 "load config failed")
    | Ok config =>
      let* key := LoadIdentity PublicKey in
      let '(app, csrf) := ensureCSRFToken app (ue_csrf_entropy env) in
      Ret (app, MkReply 200 (RState (state_document app config key csrf)))
    end.

Definition handleExpose : handler := fun app r =>
  let* loaded := LoadConfig decode_json home in
  Ret (app, match loaded with
            | Err _ => rejected 500 "load config failed"
            | Ok config => MkReply 200 (REndpoints (cf_Endpoints config) None)
            end).

(** *** The capability *)

Definition rotateCapability (app : App) : prog (App * result unit) :=
  match GeneratePairingCapability (ue_capability_entropy env) with
  | Err err => Ret (app, Err err)
  | Ok capability =>
    let* written := WritePairingCapability capability in
    Ret (match written with Ok _ => (with_capability app capability, Ok tt) | Err err => (app, Err err) end)
  end.

Definition handleRotateCapability : handler := fun app r => posted true app r
  (let* rotated := rotateCapability app in
   let '(app, outcome) := rotated in
   Ret (match outcome with
        | Err err =>
          let notice := "rotate failed: " +:+ error_text err in
          let app := setNotice app now notice in
          (app, if wantsJSON r then json_error 500 notice else redirectHome app)
        | Ok _ =>
          let notice := "pairing authorization rotated; old links no longer work" in
          let app := setNotice app now notice in
          (app, if wantsJSON r
                then MkReply 200 (json_line [("capability", MString (ap_capability app)); ("notice", MString notice)])
                else redirectHome app)
        end)).

(** *** Unpairing *)

(** [strings.EqualFold(s, "true")]. *)
Definition is_true_fold (s : string) : bool := bool_decide (ascii_lower_byte <$> bytes_of s = bytes_of "true").

Definition reset_requested (r : web_request) : bool :=
  String.eqb (trimmed (PostFormValue r "reset_identity")) "true" || is_true_fold (trimmed (Get r "X-HooshiX-Reset-Identity")).

Definition unpair_notice (result : UnpairResult) : string :=
  if ur_AlreadyUnpaired result then "already unpaired: there was no pairing record or session token to clear"
  else if ur_IdentityPreserved result
       then "unpaired: the pairing record and session token were cleared. Device identity preserved; re-pair from the panel to reconnect."
       else "unpaired: the pairing record, session token and device identity were cleared. Register the new public key in the panel before re-pairing.".

Definition handleUnpair : handler := fun app r => posted true app r
  (let* outcome := unpairAgentState PublicKey decode_json marshal_indent home stateDir (ue_seed_entropy env) (reset_requested r) in
   Ret (match outcome with
        | Err err =>
          let app := setNotice app now ("unpair failed: " +:+ error_text err) in
          (app, if wantsJSON r then json_error 500 (error_text err) else redirectHome app)
        | Ok result =>
          let app := setNotice app now (unpair_notice result) in
          (app, if wantsJSON r then MkReply 200 (RUnpair result) else redirectHome app)
        end)).

(** *** Endpoints *)

(** The end of the two endpoint handlers. *)
Definition endpoints_changed (app : App) (r : web_request) (notice : string) : prog (App * web_reply) :=
  let app := setNotice app now notice in
  if wantsJSON r then
    let* loaded := LoadConfig decode_json home in
    Ret (app, match loaded with
              | Err _ => json_error 500 "load config failed"
              | Ok config => MkReply 200 (REndpoints (cf_Endpoints config) (Some notice))
              end)
  else Ret (app, redirectHome app).

Definition endpoints_failed (app : App) (r : web_request) (message : string) : prog (App * web_reply) :=
  let app := setNotice app now message in
  Ret (app, if wantsJSON r then json_error 400 message else redirectHome app).

Definition add_endpoint (id target protocol : string) (config : Config) : result Config :=
  let config := SetEndpoint config (MkEndpoint id target protocol) in
  ValidateRuntime url_Parse config ;? Ok config.

Definition drop_endpoint (id : string) (config : Config) : result Config :=
  match RemoveEndpoint config id with
  | (false, _) => Err (ErrMsg "unknown local endpoint")
  | (true, config) => ValidateRuntime url_Parse config ;? Ok config
  end.

Definition handleExposeAdd : handler := fun app r => posted true app r
  (let id := trimmed (PostFormValue r "id") in
   let target := trimmed (PostFormValue r "target") in
   let protocol := trimmed (PostFormValue r "protocol") in
   let protocol := if String.eqb protocol EmptyString then "tcp" else protocol in
   let* outcome := MutateConfig decode_json marshal_indent home (add_endpoint id target protocol) in
   match outcome with
   | Err err => endpoints_failed app r ("expose failed: " +:+ error_text err)
   | Ok _ => endpoints_changed app r ("exposed " +:+ id +:+ " -> " +:+ target +:+ " (restart the service from the tray to apply)")
   end).

Definition handleExposeRemove : handler := fun app r => posted true app r
  (let id := trimmed (PostFormValue r "id") in
   let* outcome := MutateConfig decode_json marshal_indent home (drop_endpoint id) in
   match outcome with
   | Err err => endpoints_failed app r ("remove failed: " +:+ error_text err)
   | Ok _ => endpoints_changed app r ("removed " +:+ id +:+ " (restart the service from the tray to apply)")
   end).

(** *** Enrollment *)

Definition maxEnrollmentRequestBytes : Z := 16 * 1024.

Record enrollmentStartRequest := MkStartRequest { sr_ServerURL : string; sr_DeviceName : string; sr_CAFile : string }.

Definition enrollmentStartRequest_schema : schema := [("server_url", KString); ("device_name", KString); ("ca_file", KString)].

Definition enrollmentStartRequest_of (m : gmap string field_val) : enrollmentStartRequest :=
  MkStartRequest (get_string m "server_url") (get_string m "device_name") (get_string m "ca_file").

(** A body over the limit fails in the first or in the second [Decode]. *)
Definition decodeEnrollmentJSON (r : web_request) : result enrollmentStartRequest :=
  reject_if (negb (String.eqb (string_of (TrimSpace (hd [] (split_on ";"%byte (bytes_of (Get r "Content-Type")))))) "application/json"))
    (ErrMsg "application/json required") ;?
  reject_if (maxEnrollmentRequestBytes <? zlen (wr_Body r)) (ErrMsg "invalid JSON request") ;?
  match decodeStrict enrollmentStartRequest_schema (wr_Body r) with
  | Err _ => Err (ErrMsg "invalid JSON request")
  | Ok m => Ok (enrollmentStartRequest_of m)
  end.

(** [ca_file %q: %v], the path left out. *)
Definition check_anchor (caFile : string) : result unit :=
  if String.eqb caFile EmptyString then Ok tt
  else match ValidateCAFile (ue_Open env) pem_ok caFile with Err err => Err (ErrWrap "ca_file" err) | Ok _ => Ok tt end.

Definition handleEnrollmentStart : handler := fun app r => posted false app r
  (match decodeEnrollmentJSON r with
   | Err err => respond app 400 (error_text err)
   | Ok input =>
     let caFile := trimmed (sr_CAFile input) in
     match check_anchor caFile with
     | Err err => respond app 400 (error_text err)
     | Ok _ =>
       if match ap_pending app with Some pending => now <? en_ExpiresAt (pd_session pending) | None => false end
       then respond app 409 "an enrollment is already pending"
       else
         let* identity := LoadIdentity PublicKey in
         match identity with
         | Err _ => respond app 500 "device identity is unavailable"
         | Ok publicKey =>
           match (Begin url_Parse (ue_Do env) (Sign publicKey) (key_ok publicKey) now (sr_ServerURL input) (sr_DeviceName input) publicKey).2 with
           | Err _ => respond app 502 "the enrollment server refused the request"
           | Ok session =>
             Ret (with_pending app (Some (MkPending (trimmed (sr_ServerURL input)) caFile session)),
                  MkReply 201 (json_line [("expires_at", MString (format_rfc3339_nano (en_ExpiresAt session))); ("state", MString "pending");
                                          ("user_code", MString (en_UserCode session)); ("verification_uri", MString (en_VerificationURI session))]))
           end
         end
     end
   end).

Definition pairing_config (payload : PairingPayload) (caFile : string) : Config :=
  MkConfig ConfigVersion (pp_GatewayURL payload)
    (let raw := trimmed (pp_GatewayAliases payload) in
     if String.eqb raw EmptyString then [] else (fun a => string_of (TrimSpace a)) <$> split_on ","%byte (bytes_of raw))
    caFile (pp_DeviceID payload) (pp_AuthorizationID payload) (pp_TokenID payload) "stable" [] None.

(** The part of [ApplyPairing] before any state is touched: the settings to
    store and the token. *)
Definition check_pairing (payload : PairingPayload) : result (Config * string) :=
  let token := trimmed (pp_Token payload) in
  reject_if (negb (tokenPattern token)) (ErrMsg "session token must be 32..512 base64url-safe characters") ;?
  ValidateGatewayURL url_Parse (pp_GatewayURL payload) ;?
  let caFile := trimmed (pp_CAFile payload) in
  check_anchor caFile ;?
  let config := pairing_config payload caFile in
  ValidateRuntime url_Parse config ;? Ok (config, token).

Definition ApplyPairing (payload : PairingPayload) : prog (result unit) :=
  match check_pairing payload with
  | Err err => Ret (Err err)
  | Ok (config, token) =>
    let! _ := loadOrCreateIdentity PublicKey (ue_seed_entropy env) in
    let! _ := configureAgentState PublicKey decode_json marshal_indent home url_Parse (ue_seed_entropy env) config token in
    Ret (Ok tt)
  end.

Definition claimed_payload (c : Credentials) (caFile : string) : PairingPayload :=
  MkPairing (cr_GatewayURL c) EmptyString caFile (cr_DeviceID c) (cr_AuthorizationID c) (cr_TokenID c) (cr_Token c).

Definition handleEnrollmentClaim : handler := fun app r => posted false app r
  (match ap_pending app with
   | None => respond app 404 "no enrollment is pending"
   | Some pending =>
     match (Claim url_Parse (ue_Do env) now (pd_serverURL pending) (pd_session pending)).2 with
     | Err _ => respond app 502 "the enrollment server refused the claim"
     | Ok None => Ret (app, MkReply 200 (json_line [("state", MString "pending")]))
     | Ok (Some credentials) =>
       let app := with_pending app None in
       let* applied := ApplyPairing (claimed_payload credentials (pd_caFile pending)) in
       match applied with
       | Err _ => respond app 500 "credential commit failed; start a new enrollment"
       | Ok _ =>
         let* rotated := rotateCapability app in
         let app := setNotice rotated.1 now "device enrolled successfully; the service will connect automatically" in
         Ret (app, MkReply 200 (json_line [("capability", MString (ap_capability app)); ("device_id", MString (cr_DeviceID credentials));
                                           ("state", MString "claimed")]))
       end
     end
   end).

(** ** Routes *)

Definition routes : list (string * handler) :=
  [("/", handleRoot); ("/api/state", handleState); ("/assets/", handleUIAsset); ("/boot.js", handleUIAsset);
   ("/favicon.svg", handleUIAsset); ("/pairing/rotate", handleRotateCapability); ("/pairing/identity", handlePairingIdentity);
   ("/unpair", handleUnpair); ("/expose", handleExpose); ("/expose/add", handleExposeAdd); ("/expose/remove", handleExposeRemove);
   ("/enrollment/start", handleEnrollmentStart); ("/enrollment/claim", handleEnrollmentClaim)].

(** The pattern the mux selects; on its own it answers with a redirection to
    the cleaned path. *)
Context (mux : web_request -> option string).

Definition dispatch : handler := fun app r =>
  match mux r with
  | None => respond app 301 "Moved Permanently"
  | Some pattern =>
    match find (fun x : string * handler => String.eqb x.1 pattern) routes with
    | Some (_, handle) => handle app r
    | None => respond app 404 "404 page not found"
    end
  end.

(** [Handler]. *)
Definition serve : handler := fun app r =>
  match requireLocalRequest url_Parse r with
  | Some reply => Ret (app, reply)
  | None => match requireCapability app r with Some reply => Ret (app, reply) | None => dispatch app r end
  end.
End Handlers.

(** ** The listener *)

(** [NewApp]. *)
Definition NewApp : prog (result App) :=
  let* loaded := LoadPairingCapability in
  Ret (match loaded with
       | Err err => Err (ErrWrap "load pairing capability" err)
       | Ok capability => Ok (MkApp EmptyString None EmptyString capability EmptyString None)
       end).

Definition with_listener (app : App) (token : string) : App :=
  MkApp (ap_notice app) (ap_noticeAt app) (ap_csrfToken app) (ap_capability app) token (ap_pending app).

(** [Listen] on a socket that [net.Listen] has bound, by its address. *)
Definition Listen (entropy : Z -> result bytes) (pid : Z) (now : instant) (bound : result string) (app : App) : prog (App * result unit) :=
  match bound with
  | Err err => Ret (app, Err err)
  | Ok address =>
    match SplitHostPort address with
    | None => Ret (app, Err (ErrMsg "refusing to serve pairing UI on non-loopback"))
    | Some (host, port) =>
      if negb (isLoopbackHost host) then Ret (app, Err (ErrMsg "refusing to serve pairing UI on non-loopback"))
      else
        match parse_int64 (bytes_of port) with
        | None => Ret (app, Err (ErrMsg "pairing UI listener reported an unusable port"))
        | Some portNumber =>
          if (portNumber <? 1) || (65535 <? portNumber) then Ret (app, Err (ErrMsg "pairing UI listener reported an unusable port"))
          else
            match GeneratePairingCapability entropy with
            | Err err => Ret (app, Err err)
            | Ok token =>
              let* published := WritePairingEndpoint (MkPairingEndpoint portNumber token pid (format_rfc3339_nano (now / Second * Second))) in
              Ret (match published with Err err => (app, Err err) | Ok _ => (with_listener app token, Ok tt) end)
            end
        end
    end
  end.

(** A page that listens is on this machine, and the record another program
    loads names its port and the token the page answers with. *)
Lemma listening_published entropy pid now address app s events :
  (forall data, entropy 32 = Ok data -> zlen data = 32) -> 0 <= pid < 2 ^ 63 ->
  utf8_valid (bytes_of (format_rfc3339_nano (now / Second * Second))) = true ->
  let '(s', done_) := run events (Listen entropy pid now (Ok address) app) s in
  forall app', done_ = Some (app', Ok tt) ->
    exists host port data e, SplitHostPort address = Some (host, port) /\ isLoopbackHost host = true /\
      s' !! PairingEndpointPath = Some (File data) /\ decodePairingEndpoint data = Ok e /\
      parse_int64 (bytes_of port) = Some (pe_Port e) /\ pe_Token e = ap_endpointToken app' /\ slen (pe_Token e) = 43 /\
      ap_capability app' = ap_capability app.
Proof.
  intros He Hpid Hu.
  assert (H : safe (fun _ => True) (fun x s' => x.2 = Ok tt ->
    exists host port data e, SplitHostPort address = Some (host, port) /\ isLoopbackHost host = true /\
      s' !! PairingEndpointPath = Some (File data) /\ decodePairingEndpoint data = Ok e /\
      parse_int64 (bytes_of port) = Some (pe_Port e) /\ pe_Token e = ap_endpointToken x.1 /\ slen (pe_Token e) = 43 /\
      ap_capability x.1 = ap_capability app) (Listen entropy pid now (Ok address) app) s).
  { unfold Listen. destruct (SplitHostPort address) as [[host port]|]; [| by apply safe_ret].
    destruct (isLoopbackHost host) eqn:Eh; cbn [negb]; [| by apply safe_ret].
    destruct (parse_int64 (bytes_of port)) as [n|] eqn:Ep; [| by apply safe_ret].
    destruct ((n <? 1) || (65535 <? n)) eqn:En; [by apply safe_ret |]. apply orb_false_iff in En as [E1%Z.ltb_ge E2%Z.ltb_ge].
    destruct (GeneratePairingCapability entropy) as [token|] eqn:Et; [| by apply safe_ret].
    destruct (generated_shape _ _ He Et) as [Hl Ha].
    eapply safe_bind.
    { eapply safe_mono; [apply writePrivateFile_safe, pairing_not_scratch; by right | done |]. intros r s1 _ Hr. exact Hr. }
    intros [u|e] s1 _ Hw; (apply safe_ret; [done |]); [| done]. intros _.
    exists host, port, (marshal_object (PairingEndpoint_members (MkPairingEndpoint n token pid (format_rfc3339_nano (now / Second * Second)))) ++ [Byte.x0a]).
    exists (MkPairingEndpoint n token pid (format_rfc3339_nano (now / Second * Second))).
    split; [reflexivity |]. split; [exact Eh |]. split; [exact Hw |].
    split; [apply endpoint_reads_back; cbn [pe_Port pe_Token pe_PID pe_CreatedAt];
      [lia | exact Hl | apply alphabet_utf8; exact Ha | exact Hpid | exact Hu] |].
    split; [exact Ep |]. split; [reflexivity |]. split; [exact Hl | reflexivity]. }
  pose proof (safe_run _ _ _ events s H) as Hr. destruct (run events _ s) as [s' r]. destruct Hr as [_ Hr]. intros app' ->. exact (Hr _ eq_refl eq_refl).
Qed.

(** ** What the guards guarantee *)

(** What [requireLocalRequest] lets through. *)
Definition local_request (url_Parse : string -> result URL) (r : web_request) : Prop :=
  isLoopbackHost (match SplitHostPort (wr_RemoteAddr r) with Some (host, _) => host | None => wr_RemoteAddr r end) = true /\
  match trimmed (Get r "Origin") with
  | EmptyString => trimmed (Get r "Referer") = EmptyString \/ isLoopbackOrigin url_Parse (trimmed (Get r "Referer")) = true
  | origin => (origin = "null" /\ isSameOriginLoopbackNavigation r = true) \/ isLoopbackOrigin url_Parse origin = true
  end.

Lemma null_not_loopback url_Parse : isLoopbackOrigin url_Parse "null" = false.
Proof. reflexivity. Qed.

Lemma requireLocalRequest_None url_Parse r : requireLocalRequest url_Parse r = None <-> local_request url_Parse r.
Proof.
  unfold requireLocalRequest, local_request. destruct (isLoopbackHost _); cbn [negb]; [| naive_solver]. cbv zeta.
  destruct (String.eqb_spec (trimmed (Get r "Origin")) EmptyString) as [->|Ho]; cbn [negb].
  - destruct (String.eqb_spec (trimmed (Get r "Referer")) EmptyString) as [->|Hr]; cbn [negb andb]; [naive_solver |].
    destruct (isLoopbackOrigin _ _); naive_solver.
  - destruct (trimmed (Get r "Origin")) as [|a o] eqn:E; [done |]. rewrite <- E in *.
    destruct (String.eqb_spec (trimmed (Get r "Origin")) "null") as [->|Hn].
    + rewrite null_not_loopback. destruct (isSameOriginLoopbackNavigation r); naive_solver.
    + destruct (isLoopbackOrigin _ _); naive_solver.
Qed.

Lemma requireLocalRequest_status url_Parse r reply : requireLocalRequest url_Parse r = Some reply -> rp_Status reply = 403.
Proof.
  unfold requireLocalRequest. destruct (isLoopbackHost _); cbn [negb]; [| by intros [= <-]]. cbv zeta.
  repeat match goal with |- context [if ?c then _ else _] => destruct c end; by intros [= <-].
Qed.

(** A value without a scheme is never an origin: the second attempt to parse it
    cannot find one either. *)
Lemma bare_authority_rejected url_Parse value :
  (forall parsed, url_Parse (trimmed value) = Ok parsed -> u_Scheme parsed = EmptyString) ->
  (forall parsed, url_Parse ("//" +:+ trimmed value) = Ok parsed -> u_Scheme parsed = EmptyString) ->
  isLoopbackOrigin url_Parse value = false.
Proof.
  intros H1 H2. unfold isLoopbackOrigin. cbv zeta. destruct (_ || _); [done |].
  destruct (url_Parse (trimmed value)) as [u|] eqn:E; [| done]. cbn [rbind]. rewrite (H1 u eq_refl). cbn [String.eqb].
  destruct (url_Parse ("//" +:+ trimmed value)) as [u'|] eqn:E'; [| done]. by rewrite (H2 u' eq_refl).
Qed.

Section Gates.
Context {steady : bool}.
#[local] Hint Extern 0 (Machine op _ _) => exact (exec_file steady) : typeclass_instances.
Context (url_Parse : string -> result URL) (PublicKey : bytes -> bytes) (Sign : bytes -> bytes -> bytes) (key_ok : bytes -> bool).
Context (decode_json : bytes -> result Config) (marshal_indent : Config -> result bytes) (pem_ok : bytes -> bool).
Context (error_text SanitizedError : error -> string) (asset_exists : string -> bool).
Context (home : Home) (stateDir : string) (env : ui_env) (mux : web_request -> option string).

(** [net/http]: a pattern without a trailing slash matches that path only. *)
Definition mux_exact : Prop := forall r pattern, mux r = Some pattern -> pattern = wr_Path r \/ pattern = "/" \/ pattern = "/assets/".

Abbreviation serve := (serve url_Parse PublicKey Sign key_ok decode_json marshal_indent pem_ok error_text SanitizedError asset_exists
  home stateDir env mux).
Abbreviation dispatch := (dispatch url_Parse PublicKey Sign key_ok decode_json marshal_indent pem_ok error_text SanitizedError asset_exists
  home stateDir env mux).

Definition capable (app : App) (r : web_request) : bool := PairingCapabilityMatches (ap_capability app) (provided_capability r).

(** A request behind every gate. *)
Definition authorised (app : App) (r : web_request) : Prop :=
  local_request url_Parse r /\ capable app r = true /\ wr_Method r = "POST" /\ validCSRFToken app (provided_csrf r) = true.

(** What only such a request may change: the CSRF token is created once, for
    who holds the capability. *)
Definition page_kept (app : App) (r : web_request) (app' : App) : Prop :=
  ap_capability app' = ap_capability app /\ ap_endpointToken app' = ap_endpointToken app /\ ap_pending app' = ap_pending app /\
  ap_notice app' = ap_notice app /\ ap_noticeAt app' = ap_noticeAt app /\
  (ap_csrfToken app' = ap_csrfToken app \/ (ap_csrfToken app = EmptyString /\ capable app r = true)).

Lemma page_kept_refl app r : page_kept app r app.
Proof. repeat split; try done. by left. Qed.

(** [p] changes neither files nor the page's state. *)
Definition harmless (app : App) (r : web_request) (p : prog (App * web_reply)) : Prop :=
  forall s, safe (fun s' => s' = s) (fun x _ => page_kept app r x.1) p s.

Lemma harmless_ret app r reply : harmless app r (Ret (app, reply)).
Proof. intros s. apply safe_ret; [done | apply page_kept_refl]. Qed.

Lemma harmless_read {A : Type} app r (p : prog A) k :
  (forall s, safe (fun s' => s' = s) (fun _ _ => True) p s) -> (forall a, harmless app r (k a)) -> harmless app r (bind p k).
Proof. intros Hp Hk s. eapply safe_bind; [apply Hp |]. intros a s' -> _. apply Hk. Qed.

Lemma readable_reads (s : files) : safe (fun s' => s' = s) (okay (fun _ s' => s' = s)) ensureStateReadable s.
Proof.
  unfold ensureStateReadable. eapply safe_bind; [by apply safe_lstat |]. intros info s' -> _.
  apply safe_ret; [done |]. destruct info as [[]|]; try done. by destruct (errors_is _ _).
Qed.

Lemma load_config_reads s : safe (fun s' => s' = s) (fun _ _ => True) (LoadConfig decode_json home) s.
Proof.
  unfold LoadConfig. eapply (safe_mono _ _ (okay (fun _ _ => True))); [| done | done].
  eapply safe_then; [apply readable_reads |]. intros _ s1 E _. subst s1.
  eapply safe_mono; [by apply (load_config_quiet (fun s' => s' = s)) | done | by intros []].
Qed.

Lemma load_identity_reads s : safe (fun s' => s' = s) (fun _ _ => True) (LoadIdentity PublicKey) s.
Proof.
  unfold LoadIdentity, Load. eapply (safe_mono _ _ (okay (fun _ _ => True))); [| done | done].
  eapply (safe_then _ (fun _ _ => True)).
  - eapply safe_then; [apply readable_reads |]. intros _ s1 E _. subst s1.
    eapply safe_mono; [by apply (load_safe (fun s' => s' = s)) | done | by intros []].
  - intros state s1 E _. subst s1. apply safe_ret; [done |]. destruct (String.eqb _ _); [done |]. by destruct (identityFromSeed _ _).
Qed.

Lemma ui_file_harmless app r name : harmless app r (serveUIFile asset_exists app name).
Proof. unfold serveUIFile. destruct (asset_exists name); apply harmless_ret. Qed.

Lemma root_harmless app r : harmless app r (handleRoot asset_exists app r).
Proof. unfold handleRoot. repeat destruct (negb _); try apply harmless_ret. apply ui_file_harmless. Qed.

Lemma asset_harmless app r : harmless app r (handleUIAsset asset_exists app r).
Proof. unfold handleUIAsset. destruct (negb _); [apply harmless_ret |]. destruct (uiPublicAssetName _); [apply ui_file_harmless | apply harmless_ret]. Qed.

Lemma identity_harmless app r : harmless app r (handlePairingIdentity app r).
Proof. unfold handlePairingIdentity. destruct (negb _); [apply harmless_ret |]. destruct (String.eqb _ _); apply harmless_ret. Qed.

Lemma posted_harmless form app r k :
  ~ (wr_Method r = "POST" /\ validCSRFToken app (provided_csrf r) = true) -> harmless app r (posted form app r k).
Proof.
  intros Hn. unfold posted. destruct (String.eqb_spec (wr_Method r) "POST") as [E|E]; cbn [negb]; [| apply harmless_ret].
  destruct (form && _); [apply harmless_ret |]. unfold requireCSRF. destruct (validCSRFToken app (provided_csrf r)) eqn:Ec; [| apply harmless_ret].
  exfalso. by apply Hn.
Qed.

Lemma expose_harmless app r : harmless app r (handleExpose decode_json home app r).
Proof. apply harmless_read; [apply load_config_reads |]. intros loaded. apply harmless_ret. Qed.

Lemma state_harmless app r :
  capable app r = true -> harmless app r (handleState url_Parse PublicKey decode_json SanitizedError home env app r).
Proof.
  intros Hcap. unfold handleState. destruct (negb _); [apply harmless_ret |]. apply harmless_read; [apply load_config_reads |].
  intros [config|err]; [| apply harmless_ret]. apply harmless_read; [apply load_identity_reads |]. intros key.
  unfold ensureCSRFToken. destruct (String.eqb_spec (ap_csrfToken app) EmptyString) as [E|E]; [| apply harmless_ret].
  destruct (ue_csrf_entropy env 32); [| apply harmless_ret]. intros s. apply safe_ret; [done |]. repeat split; try done. by right.
Qed.

(** Behind the capability, what a request without POST or token can do. *)
Lemma dispatch_harmless app r :
  capable app r = true -> ~ (wr_Method r = "POST" /\ validCSRFToken app (provided_csrf r) = true) -> harmless app r (dispatch app r).
Proof.
  intros Hcap Hn. unfold dispatch. destruct (mux r) as [pattern|]; [| apply harmless_ret].
  destruct (find _ _) as [[p handle]|] eqn:E; [| apply harmless_ret]. apply find_some in E as [Hin _].
  assert (Hp : forall form k, harmless app r (posted form app r k)) by (intros; by apply posted_harmless).
  cbn [routes In] in Hin.
  repeat (destruct Hin as [[= <- <-]|Hin]; [solve [apply root_harmless | by apply state_harmless | apply asset_harmless | apply Hp
    | apply identity_harmless | apply expose_harmless] |]). done.
Qed.

(** Without the capability the answer is a function of the request and the
    public token alone. *)
Definition closed_answer (endpointToken : string) (r : web_request) (p : App -> prog (App * web_reply)) : Prop :=
  exists reply, forall app, capable app r = false -> ap_endpointToken app = endpointToken -> p app = Ret (app, reply).

Lemma closed_ret endpointToken r reply : closed_answer endpointToken r (fun app => Ret (app, reply)).
Proof. by exists reply. Qed.

Lemma ui_file_closed endpointToken r name : closed_answer endpointToken r (fun app => serveUIFile asset_exists app name).
Proof. unfold serveUIFile, respond. destruct (asset_exists name); apply closed_ret. Qed.

Lemma asset_closed endpointToken r : closed_answer endpointToken r (fun app => handleUIAsset asset_exists app r).
Proof. unfold handleUIAsset, respond. destruct (negb _); [apply closed_ret |]. destruct (uiPublicAssetName _); [apply ui_file_closed | apply closed_ret]. Qed.

Lemma identity_closed endpointToken r : closed_answer endpointToken r (fun app => handlePairingIdentity app r).
Proof.
  unfold handlePairingIdentity, respond. destruct (negb _); [apply closed_ret |].
  destruct (String.eqb endpointToken EmptyString) eqn:E; eexists; intros app _ Ht; rewrite Ht, E; reflexivity.
Qed.

Lemma root_closed endpointToken r : wr_Path r <> "/" -> closed_answer endpointToken r (fun app => handleRoot asset_exists app r).
Proof. intros H. unfold handleRoot, respond. rewrite (proj2 (String.eqb_neq _ _) H). apply closed_ret. Qed.

(** Where a public path leads: the pattern is the path itself or a subtree. *)
Lemma public_dispatch endpointToken r :
  mux_exact ->
  wr_Path r = "/pairing/identity" \/ is_Some (uiPublicAssetName (wr_Path r)) ->
  closed_answer endpointToken r (fun app => dispatch app r).
Proof.
  intros Hmux Hpub. assert (Hroot : wr_Path r <> "/") by (intros E; rewrite E in Hpub; destruct Hpub as [H|[x H]]; discriminate H).
  unfold dispatch, respond. destruct (mux r) as [pattern|] eqn:Em; [| apply closed_ret].
  destruct (Hmux _ _ Em) as [-> |[-> | ->]].
  - destruct (find _ _) as [[p handle]|] eqn:E; [| apply closed_ret]. apply find_some in E as [Hin Hp]. cbn [fst] in Hp.
    apply String.eqb_eq in Hp. cbn [routes In] in Hin.
    repeat (destruct Hin as [[= <- <-]|Hin]; [first [apply asset_closed | apply identity_closed
      | exfalso; rewrite <- Hp in Hpub; destruct Hpub as [H|[x H]]; discriminate H] |]). done.
  - cbn. by apply root_closed.
  - cbn. apply asset_closed.
Qed.

Lemma serve_closed endpointToken r : mux_exact -> closed_answer endpointToken r (fun app => serve app r).
Proof.
  intros Hmux. unfold serve. destruct (requireLocalRequest url_Parse r) as [reply|]; [apply closed_ret |].
  assert (Hpub : forall p, closed_answer endpointToken r p -> forall q, (forall app, capable app r = false -> q app = p app) ->
    closed_answer endpointToken r q).
  { intros p [reply H] q Hq. exists reply. intros app Hc Ht. rewrite Hq by done. by apply H. }
  unfold requireCapability. destruct (String.eqb_spec (wr_Path r) "/pairing/identity") as [E|E].
  { apply public_dispatch; [done | by left]. }
  destruct (is_read r && bool_decide (is_Some (uiPublicAssetName (wr_Path r)))) eqn:Ea.
  { apply andb_true_iff in Ea as [_ Ea%bool_decide_eq_true]. apply public_dispatch; [done | by right]. }
  destruct (String.eqb (wr_Path r) "/" && is_read r); eexists; intros app Hc _; unfold capable in Hc; rewrite Hc; reflexivity.
Qed.

Lemma serve_harmless app r : mux_exact -> ~ authorised app r -> harmless app r (serve app r).
Proof.
  intros Hmux Hn. destruct (capable app r) eqn:Hcap.
  - unfold serve. destruct (requireLocalRequest url_Parse r) as [reply|] eqn:El; [apply harmless_ret |].
    apply requireLocalRequest_None in El. destruct (requireCapability app r) as [reply|]; [apply harmless_ret |].
    apply dispatch_harmless; [done |]. intros [H1 H2]. by apply Hn.
  - destruct (serve_closed (ap_endpointToken app) r Hmux) as [reply H]. rewrite (H app Hcap eq_refl). apply harmless_ret.
Qed.
End Gates.

(** C8: The Agent's local page is closed to everyone but the operator. A request that is not from this machine or names a foreign origin is refused with 403; one without the pairing capability gets an answer that depends on nothing of the page but the listener token (so it learns neither the capability, nor the CSRF token, nor the settings), touches no file and changes nothing; and whatever fails, only a local POST with the capability and the CSRF token ever changes a file of the state directory, the capability, the notice or the pending enrollment, the one exception being the CSRF token itself, created once for a request that holds the capability. *)
Theorem pairing_page_gated url_Parse PublicKey Sign key_ok decode_json marshal_indent pem_ok error_text SanitizedError asset_exists
    home stateDir env mux app r :
  mux_exact mux ->
  let page := fun app => serve url_Parse PublicKey Sign key_ok decode_json marshal_indent pem_ok error_text SanitizedError asset_exists
    home stateDir env mux app r in
  (~ local_request url_Parse r -> exists reply, rp_Status reply = 403 /\ forall app, page app = Ret (app, reply)) /\
  (capable app r = false -> exists reply, forall app', capable app' r = false -> ap_endpointToken app' = ap_endpointToken app ->
     page app' = Ret (app', reply)) /\
  (~ authorised url_Parse app r -> forall s events,
     let '(s', done_) := run events (page app) s in s' = s /\ (forall x, done_ = Some x -> page_kept app r x.1)).
Proof.
  intros Hmux page. split; [| split].
  - intros Hl. destruct (requireLocalRequest url_Parse r) as [reply|] eqn:E; [| by apply requireLocalRequest_None in E].
    exists reply. split; [by eapply requireLocalRequest_status |]. intros a. unfold page, serve. by rewrite E.
  - intros _. exact (serve_closed _ _ _ _ _ _ _ _ _ _ _ _ _ _ (ap_endpointToken app) r Hmux).
  - intros Hn s events. apply (safe_run (fun s' => s' = s)). by apply serve_harmless.
Qed.

(** A mux over the registered patterns. *)
Definition demo_mux (r : web_request) : option string :=
  if bool_decide (wr_Path r ∈ ["/api/state"; "/boot.js"; "/favicon.svg"; "/pairing/rotate"; "/pairing/identity"; "/unpair"; "/expose";
      "/expose/add"; "/expose/remove"; "/enrollment/start"; "/enrollment/claim"]) then Some (wr_Path r)
  else if is_prefix (bytes_of "/assets/") (bytes_of (wr_Path r)) then Some "/assets/" else Some "/".

Lemma demo_mux_exact : mux_exact demo_mux.
Proof. intros r pattern. unfold demo_mux. destruct (bool_decide _); [intros [= <-]; auto |]. destruct (is_prefix _ _); intros [= <-]; auto. Qed.

Definition demo_post (path capability csrf origin : string) : web_request :=
  MkWeb "127.0.0.1:50000" "POST" path "127.0.0.1:8799" []
    (<["X-Hooshix-Pairing-Capability" := [capability]]> (<["X-Hooshix-Csrf" := [csrf]]> {["Origin" := [origin]]})) None [] [].

Definition demo_capability : string := string_of (repeat "C"%byte 43).
Definition demo_csrf : string := string_of (repeat "T"%byte 43).
Definition demo_app : App := MkApp EmptyString None demo_csrf demo_capability "listener" None.

Definition demo_origin (raw : string) : result URL :=
  if String.eqb raw "http://127.0.0.1:8799" then Ok (MkURL "http" "127.0.0.1:8799" false EmptyString EmptyString EmptyString)
  else if String.eqb raw "https://evil.example" then Ok (MkURL "https" "evil.example" false EmptyString EmptyString EmptyString)
  else Err (ErrMsg "unknown address").

Definition demo_env : ui_env :=
  MkUiEnv 0 (fun _ => Ok []) (fun n => Ok (repeat "n"%byte (Z.to_nat n))) demo_entropy (fun _ => Err (ErrMsg "no network"))
    (fun _ => Err os_ErrNotExist) (Err os_ErrNotExist) (Ok "host").

Definition demo_page (app : App) (r : web_request) : prog (App * web_reply) :=
  serve demo_origin id (fun _ m => m) (fun _ => true) demo_codec demo_indent (fun _ => true) (fun _ => "failed") (fun _ => "failed")
    (fun _ => true) unix_home "state" demo_env demo_mux app r.

(** An unpair request from a foreign page, one without the capability and one
    without the token get nowhere; with all of them a rotation goes through. *)
Lemma pairing_page_gated_witness :
  mux_exact demo_mux /\
  (exists reply, rp_Status reply = 403 /\
     demo_page demo_app (demo_post "/unpair" demo_capability demo_csrf "https://evil.example") = Ret (demo_app, reply)) /\
  (exists reply, demo_page demo_app (demo_post "/unpair" "guess" demo_csrf "http://127.0.0.1:8799") = Ret (demo_app, reply)) /\
  (forall events, (run events (demo_page demo_app (demo_post "/unpair" demo_capability "guess" "http://127.0.0.1:8799")) demo_paired_home).1
     = demo_paired_home) /\
  (match (run (demo_events 60) (demo_page demo_app (demo_post "/pairing/rotate" demo_capability demo_csrf "http://127.0.0.1:8799")) demo_paired_home).2 with
   | Some (app, reply) => rp_Status reply = 303 /\ ap_capability app <> demo_capability
   | None => False
   end).
Proof.
  pose proof (fun app r => pairing_page_gated demo_origin id (fun _ m => m) (fun _ => true) demo_codec demo_indent (fun _ => true)
    (fun _ => "failed") (fun _ => "failed") (fun _ => true) unix_home "state" demo_env demo_mux app r demo_mux_exact) as H.
  split; [exact demo_mux_exact |]. split; [| split; [| split]].
  - destruct (H demo_app (demo_post "/unpair" demo_capability demo_csrf "https://evil.example")) as (H1 & _).
    destruct H1 as (reply & Hs & Hp).
    { intros Hl. apply requireLocalRequest_None in Hl. vm_compute in Hl. discriminate Hl. }
    exists reply. split; [exact Hs | exact (Hp demo_app)].
  - destruct (H demo_app (demo_post "/unpair" "guess" demo_csrf "http://127.0.0.1:8799")) as (_ & H2 & _).
    destruct H2 as (reply & Hp); [vm_compute; reflexivity |]. exists reply. apply Hp; [vm_compute; reflexivity | reflexivity].
  - intros events. destruct (H demo_app (demo_post "/unpair" demo_capability "guess" "http://127.0.0.1:8799")) as (_ & _ & H3).
    assert (Hn : ~ authorised demo_origin demo_app (demo_post "/unpair" demo_capability "guess" "http://127.0.0.1:8799")).
    { intros (_ & _ & _ & Hc). vm_compute in Hc. discriminate Hc. }
    specialize (H3 Hn demo_paired_home events). unfold demo_page. cbv zeta in H3.
    destruct (run events _ demo_paired_home) as [s' r']. exact (proj1 H3).
  - vm_compute. split; [reflexivity | discriminate].
Defined.

(** ** Rotating the capability *)

(** A rotation writes the file and then, under the mutex, the page's own copy;
    rotations of concurrent requests interleave between the two. *)
Record rotations := MkRotations { ro_file : string; ro_memory : string; ro_written : list string }.

Inductive rotation_step : rotations -> rotations -> Prop :=
| rotation_writes capability before memory written :
    rotation_step (MkRotations before memory written) (MkRotations capability memory (capability :: written))
| rotation_adopts capability file memory written1 written2 :
    rotation_step (MkRotations file memory (written1 ++ capability :: written2)) (MkRotations file capability (written1 ++ written2)).

(** One after the other they agree; *)
Lemma rotation_alone capability : forall old,
  rtc rotation_step (MkRotations old old []) (MkRotations capability capability []).
Proof.
  intros old. eapply rtc_l; [apply (rotation_writes capability) |]. apply rtc_once. apply (rotation_adopts capability capability old [] []).
Qed.

(** two that cross leave a file whose capability the page refuses, and the
    other way round, until the next rotation or a restart. *)
Lemma rotations_cross old a b :
  a <> b -> exists final, rtc rotation_step (MkRotations old old []) final /\ ro_written final = [] /\
    ro_file final = b /\ ro_memory final = a.
Proof.
  intros Hab. exists (MkRotations b a []). split; [| done].
  eapply rtc_l; [apply (rotation_writes a) |]. eapply rtc_l; [apply (rotation_writes b) |].
  eapply rtc_l; [apply (rotation_adopts b b old [] [a]) |]. apply rtc_once. apply (rotation_adopts a b b [] []).
Qed.

(** The same after a single rotation whose last step, the flush of the
    directory, fails: it is reported as failed, the file is the new one. *)
Definition fail_at (n k : nat) : list event :=
  (fun i => if Nat.eqb i k then MkEvent true 0 [] EmptyString else smooth (string_of (repeat "x"%byte i))) <$> seq 0 n.

Lemma rotation_half_done :
  exists k, let '(s, r) := run (fail_at 60 k) (rotateCapability demo_env demo_app) (<[PairingCapabilityPath := File (bytes_of demo_capability)]> demo_home) in
    (match r with Some (app, Err _) => ap_capability app = demo_capability | _ => False end) /\
    s !! PairingCapabilityPath <> Some (File (bytes_of demo_capability)) /\ is_Some (s !! PairingCapabilityPath).
Proof. exists 12%nat. vm_compute. split; [reflexivity |]. split; [discriminate | eexists; reflexivity]. Qed.

(** ** Claimed credentials *)

Lemma journal_settled s s' : journal_same s s' -> settled s -> settled s'.
Proof. intros H [H1 H2]. split; [rewrite H; [done | by auto] |]. intros name. rewrite H; [done | by left]. Qed.

Section Claimed.
Context (url_Parse : string -> result URL) (PublicKey : bytes -> bytes).
Context (decode_json : bytes -> result Config) (marshal_indent : Config -> result bytes) (pem_ok : bytes -> bool).
Context (home : Home) (env : ui_env).

Abbreviation check_pairing := (check_pairing url_Parse pem_ok env).
Abbreviation ApplyPairing := (ApplyPairing url_Parse PublicKey decode_json marshal_indent pem_ok home env).

(** Settings and secrets after a pairing with [config] and [token]: the settings
    of [s] with [config] over them, which are valid; and a secret file with
    [token] and, if the secret file of [s] held an identity, that identity. *)
Definition paired (s : files) (config : Config) (token : string) (s' : files) : Prop :=
  settled s' /\
  (exists current, says decode_json (pair_of home s).1 current /\ ValidateRuntime url_Parse (requested_over current config) = Ok tt /\
     settings_file marshal_indent (requested_over current config) (pair_of home s').1) /\
  exists before after, holds (s !! secretPath) before /\ s' !! secretPath = Some (File (encodeSecretState after)) /\
    ss_SessionToken after = token /\ (ss_Seed before <> EmptyString -> ss_Seed after = ss_Seed before).

Lemma apply_pairing_safe payload config token s :
  settled s -> check_pairing payload = Ok (config, token) ->
  safe (M := exec_file true) (fun _ => True) (okay (fun _ s' => paired s config token s')) (ApplyPairing payload) s.
Proof.
  intros Hs Hc. unfold PairingUi.ApplyPairing. rewrite Hc.
  eapply (safe_then _ (fun _ s1 => settled s1 /\ (pair_of home s1).1 = (pair_of home s).1 /\ exists before, holds (s !! secretPath) before /\
    (ss_Seed before <> EmptyString -> s1 !! secretPath = s !! secretPath))).
  { eapply safe_mono; [by apply (identity_safe home s) | done |]. intros [key|e] s1 Hj H; [| done]. destruct H as (Hc1 & before & Hb & Hsec).
    split; [by eapply journal_settled |]. split; [by rewrite (pair_same home s s1) by (apply Hj; auto) |].
    exists before. split; [exact Hb |]. intros Hne. destruct Hsec as [(_ & _ & H)|(seed & H & _)]; [exact H | done]. }
  intros _ s1 _ (Hs1 & Hc1 & before & Hb & Hkeep).
  eapply (safe_then _ (fun c s2 => settled s2 /\ configured decode_json marshal_indent (pair_of home s1) url_Parse config token c (pair_of home s2))).
  { eapply safe_mono; [apply locked_transaction_safe; [apply configure_contained | done] | done |]. by intros [c|e] s2 _ H. }
  intros c s2 _ [Hs2 (current & Hcur & Hv & _ & Hf & before' & after & Hb' & Hx & Ht & Hseed)]. apply safe_ret; [done |].
  rewrite Hc1 in Hcur. split; [exact Hs2 |]. split; [by exists current |]. exists before, after. split; [exact Hb |]. split; [exact Hx |].
  split; [exact Ht |]. intros Hne. cbn [pair_of snd] in Hb'. rewrite (Hkeep Hne) in Hb'.
  rewrite (holds_fun _ _ _ Hb' Hb) in Hseed. by apply Hseed.
Qed.

Lemma rotate_keeps {steady : bool} app s :
  safe (M := exec_file steady) (fun s' => journal_same s s' /\ pair_of home s' = pair_of home s) (fun x _ => ap_pending x.1 = ap_pending app)
    (rotateCapability env app) s.
Proof.
  unfold rotateCapability. destruct (GeneratePairingCapability _) as [c|e]; [| by apply safe_ret].
  eapply safe_bind.
  - eapply safe_mono; [apply write_capability_safe | | by intros].
    intros s' Ho. split; [by eapply only_journal; [| | | exact Ho] |]. destruct Ho as [Ho _].
    rewrite (pair_same home s s') by (by apply Ho; [apply pointer_not_scratch |]). unfold pair_of.
    rewrite !Ho; [done | apply secret_not_scratch | done | apply config_not_scratch | by destruct (located home s)].
  - intros [u|e] s' H _; by apply safe_ret.
Qed.

(** Whatever a program does, what is returned after it. *)
Lemma safe_after {A B : Type} {steady : bool} (Q : B -> files -> Prop) (p : prog A) k : 
  (forall a s, safe (M := exec_file steady) (fun _ => True) Q (k a) s) -> forall s, safe (M := exec_file steady) (fun _ => True) Q (bind p k) s.
Proof. intros Hk. induction p as [a|R o k' IH]; intros s; cbn [bind]; [apply Hk |]. split; [done |]. intros ev. apply IH. Qed.

Lemma trimmed_token token : tokenPattern token = true -> trimmed token = token.
Proof. unfold tokenPattern. rewrite !andb_true_iff. intros [_ H]. by apply trimmed_alphabet. Qed.

Lemma trim_nil : trimmed EmptyString = EmptyString.
Proof. reflexivity. Qed.

(** Nothing about claimed credentials is left for the Agent to refuse, but the
    trust anchor named at the start. *)
Lemma claimed_pass now c caFile :
  claimed_credentials url_Parse now c -> check_anchor pem_ok env (trimmed caFile) = Ok tt ->
  check_pairing (claimed_payload c caFile) = Ok (pairing_config (claimed_payload c caFile) (trimmed caFile), cr_Token c).
Proof.
  intros [H1 H2 H3 H4 _ H6] Ha. unfold PairingUi.check_pairing, claimed_payload. cbn [pp_Token pp_GatewayURL pp_CAFile].
  cbv zeta. rewrite (trimmed_token _ H4), H4. cbn [negb reject_if rbind]. rewrite H6. cbn [rbind]. rewrite Ha. cbn [rbind].
  assert (Hv : ValidateRuntime url_Parse (pairing_config (MkPairing (cr_GatewayURL c) EmptyString caFile (cr_DeviceID c)
    (cr_AuthorizationID c) (cr_TokenID c) (cr_Token c)) (trimmed caFile)) = Ok tt).
  { unfold pairing_config. cbn [pp_GatewayURL pp_GatewayAliases pp_DeviceID pp_AuthorizationID pp_TokenID]. rewrite trim_nil.
    unfold ValidateRuntime, check_identifiers. cbn. rewrite H6. cbn. rewrite H1, H2, H3. done. }
  by rewrite Hv.
Qed.

Lemma claim_pairs app r pending sent c s :
  ap_pending app = Some pending ->
  Claim url_Parse (ue_Do env) (ue_now env) (pd_serverURL pending) (pd_session pending) = (sent, Ok (Some c)) ->
  wr_Method r = "POST" -> validCSRFToken app (provided_csrf r) = true -> settled s ->
  safe (M := exec_file true) (fun _ => True) (fun x s' => rp_Status x.2 = 200 ->
       exists config, check_pairing (claimed_payload c (pd_caFile pending)) = Ok (config, cr_Token c) /\
         cf_DeviceID config = cr_DeviceID c /\ cf_AuthorizationID config = cr_AuthorizationID c /\ cf_TokenID config = cr_TokenID c /\
         cf_GatewayURL config = cr_GatewayURL c /\ paired s config (cr_Token c) s')
    (handleEnrollmentClaim url_Parse PublicKey decode_json marshal_indent pem_ok home env app r) s.
Proof.
  intros Hp Hcl Hpost Hcsrf Hs. pose proof (proj1 (claim_Ok _ _ _ _ _ _ _ Hcl)) as Hc.
  unfold handleEnrollmentClaim, posted, requireCSRF. rewrite Hpost, Hcsrf, Hp, Hcl. cbn [String.eqb negb andb snd].
  destruct (check_pairing (claimed_payload c (pd_caFile pending))) as [[config token]|e] eqn:Ek.
  2: { unfold PairingUi.ApplyPairing. rewrite Ek. cbn [bind]. by apply safe_ret. }
  assert (Hcfg : token = cr_Token c /\ config = pairing_config (claimed_payload c (pd_caFile pending)) (trimmed (pd_caFile pending))).
  { unfold PairingUi.check_pairing in Ek. apply rbind_Ok in Ek as (? & _ & Ek). apply rbind_Ok in Ek as (? & _ & Ek).
    cbv zeta in Ek. apply rbind_Ok in Ek as (? & _ & Ek). apply rbind_Ok in Ek as (? & _ & [= <- <-]).
    split; [| done]. by apply trimmed_token, Hc. }
  destruct Hcfg as [-> ->].
  eapply safe_bind; [by eapply apply_pairing_safe |]. intros [u|e] s1 _ Hq; [| by apply safe_ret]. cbn in Hq.
  eapply (safe_bind _ (fun _ s2 => journal_same s1 s2 /\ pair_of home s2 = pair_of home s1)).
  { eapply safe_mono; [apply rotate_keeps | done |]. by intros x s2 H _. }
  intros [app2 outcome] s2 _ (Hj & Hpr). apply safe_ret; [done |]. intros _.
  eexists. split; [reflexivity |]. do 4 (split; [done |]). destruct Hq as (Hst & Hset & before & after & Hb & Hx & Hrest).
  split; [by eapply journal_settled |]. rewrite Hpr. split; [exact Hset |]. exists before, after.
  assert (E : s2 !! secretPath = s1 !! secretPath) by (by injection Hpr). rewrite E. by split.
Qed.
End Claimed.

(** C18: A claim is used at most once and installs exactly what it claimed. When the server returns credentials for the pending enrollment, the enrollment is over whatever happens next: no later claim can present the same exchange again. The credentials always pass the Agent's own checks of a pairing, unless the trust anchor named at the start has become unusable meanwhile; and when the page reports success, from a settled state (and the pointer to a settings file that was moved could be read), the settings are valid ones with exactly these credentials over the operator's endpoints and limits, the secret file holds the new session token and, if the device had an identity before, that identity, and no journal is left. *)
Theorem enrollment_claimed_once url_Parse PublicKey decode_json marshal_indent pem_ok home env app r pending sent c s events :
  ap_pending app = Some pending ->
  Claim url_Parse (ue_Do env) (ue_now env) (pd_serverURL pending) (pd_session pending) = (sent, Ok (Some c)) ->
  wr_Method r = "POST" -> validCSRFToken app (provided_csrf r) = true ->
  let claim := handleEnrollmentClaim url_Parse PublicKey decode_json marshal_indent pem_ok home env app r in
  (check_anchor pem_ok env (trimmed (pd_caFile pending)) = Ok tt ->
     is_ok (check_pairing url_Parse pem_ok env (claimed_payload c (pd_caFile pending))) = true) /\
  let '(s', done_) := run events claim s in
  forall app' reply, done_ = Some (app', reply) ->
    ap_pending app' = None /\
    (settled s -> sighted events claim s = true -> rp_Status reply = 200 ->
       exists config, check_pairing url_Parse pem_ok env (claimed_payload c (pd_caFile pending)) = Ok (config, cr_Token c) /\
         cf_DeviceID config = cr_DeviceID c /\ cf_AuthorizationID config = cr_AuthorizationID c /\ cf_TokenID config = cr_TokenID c /\
         cf_GatewayURL config = cr_GatewayURL c /\
         paired url_Parse decode_json marshal_indent home s config (cr_Token c) s').
Proof.
  intros Hp Hcl Hpost Hcsrf claim. pose proof (proj1 (claim_Ok _ _ _ _ _ _ _ Hcl)) as Hc.
  split; [intros Ha; by rewrite (claimed_pass _ _ _ _ _ _ Hc Ha) |].
  assert (Hover : safe (M := exec_file false) (fun _ => True) (fun x _ => ap_pending x.1 = None) claim s).
  { unfold claim, handleEnrollmentClaim, posted, requireCSRF. rewrite Hpost, Hcsrf, Hp, Hcl. cbn [String.eqb negb andb snd].
    apply safe_after. intros [u|e] s1; [| by apply safe_ret]. eapply safe_bind.
    - eapply safe_mono; [apply (rotate_keeps home) | done |]. intros x s2 _ Hx. exact Hx.
    - intros [app2 outcome] s2 _ Hx. by apply safe_ret. }
  pose proof (safe_run _ _ _ events s Hover) as Hr. destruct (run events claim s) as [s' r'] eqn:Er. destruct Hr as [_ Hr].
  intros app' reply ->. split; [exact (Hr _ eq_refl) |]. intros Hs Hv. rewrite (sighted_run _ _ _ Hv) in Er.
  pose proof (claim_pairs url_Parse PublicKey decode_json marshal_indent pem_ok home env app r pending sent c s Hp Hcl Hpost Hcsrf Hs) as H.
  apply (safe_run _ _ _ events s) in H. fold claim in H. rewrite Er in H. exact (proj2 H _ eq_refl).
Qed.

(** An approved enrollment, claimed. *)
Definition demo_url (raw : string) : result URL :=
  if String.eqb raw "wss://gateway.example/agent/v1/connect" then Ok (MkURL "wss" "gateway.example" false "/agent/v1/connect" EmptyString EmptyString)
  else demo_panel raw.

Definition demo_pending : pendingEnrollment :=
  MkPending "https://panel.example" EmptyString (MkEnrollment "enr-1" "ABCD-2345" good_poll "https://panel.example/activate" (10 * Minute)).

Definition demo_claimed (_ : http_request) : result (Z * result bytes) :=
  Ok (200, Ok (marshal_object [("state", MString "claimed"); ("device_id", MString "device-9"); ("authorization_id", MString "auth-9");
    ("token_id", MString "token-9"); ("token", MString good_poll); ("expires_at", MString "1970-01-02T00:00:00Z");
    ("gateway_url", MString "wss://gateway.example/agent/v1/connect")])).

Definition demo_claim_env (now : instant) : ui_env :=
  MkUiEnv now (fun _ => Ok []) (fun n => Ok (repeat "n"%byte (Z.to_nat n))) demo_entropy demo_claimed
    (fun _ => Err os_ErrNotExist) (Err os_ErrNotExist) (Ok "host").

Definition demo_claim_app : App := with_pending demo_app (Some demo_pending).
Definition demo_claim_request : web_request := demo_post "/enrollment/claim" demo_capability demo_csrf "http://127.0.0.1:8799".

Definition demo_claim_run : files * option (App * web_reply) :=
  run (demo_events 250) (handleEnrollmentClaim demo_url id demo_codec demo_indent (fun _ => true) unix_home (demo_claim_env 0) demo_claim_app demo_claim_request)
    demo_paired_home.

Lemma demo_claim_ok : match demo_claim_run.2 with Some (_, reply) => rp_Status reply =? 200 | None => false end = true.
Proof. vm_compute. reflexivity. Qed.

Lemma demo_claim_sighted :
  sighted (demo_events 250) (handleEnrollmentClaim demo_url id demo_codec demo_indent (fun _ => true) unix_home (demo_claim_env 0) demo_claim_app
    demo_claim_request) demo_paired_home = true.
Proof. vm_compute. reflexivity. Qed.

Definition demo_credentials : Credentials :=
  MkCredentials "device-9" "auth-9" "token-9" good_poll (24 * Hour) "wss://gateway.example/agent/v1/connect".

Lemma enrollment_claimed_once_witness :
  exists app' reply config, demo_claim_run.2 = Some (app', reply) /\ rp_Status reply = 200 /\ ap_pending app' = None /\
    cf_DeviceID config = "device-9" /\
    paired demo_url demo_codec demo_indent unix_home demo_paired_home config good_poll demo_claim_run.1.
Proof.
  assert (Hcl : exists sent, Claim demo_url demo_claimed 0 "https://panel.example" (pd_session demo_pending) = (sent, Ok (Some demo_credentials)))
    by (eexists; vm_compute; reflexivity).
  destruct Hcl as [sent Hcl].
  pose proof (enrollment_claimed_once demo_url id demo_codec demo_indent (fun _ => true) unix_home (demo_claim_env 0) demo_claim_app demo_claim_request
    demo_pending sent demo_credentials demo_paired_home (demo_events 250) eq_refl Hcl eq_refl eq_refl) as [_ H].
  pose proof demo_claim_ok as Hok. unfold demo_claim_run in *.
  destruct (run (demo_events 250) _ demo_paired_home) as [s' r]. cbn [fst snd] in *.
  destruct r as [[app' reply]|]; [| discriminate Hok]. apply Z.eqb_eq in Hok.
  destruct (H app' reply eq_refl) as [Hp Hq]. destruct (Hq demo_paired_settled demo_claim_sighted Hok) as (config & _ & Hd & _ & _ & _ & Hpaired).
  exists app', reply, config. split; [reflexivity |]. split; [exact Hok |]. split; [exact Hp |]. split; [exact Hd | exact Hpaired].
Defined.

(** The page no longer shows an expired enrollment, but it still claims it. *)
Lemma expired_session_claimed :
  pendingEnrollmentSnapshot (demo_claim_env (20 * Minute)) demo_claim_app = None /\
  match (run (demo_events 250) (handleEnrollmentClaim demo_url id demo_codec demo_indent (fun _ => true) unix_home (demo_claim_env (20 * Minute))
           demo_claim_app demo_claim_request) demo_paired_home).2 with
  | Some (_, reply) => rp_Status reply = 200
  | None => False
  end.
Proof. vm_compute. split; reflexivity. Qed.
