(* ===== verification/Delegation.v ===== *)
(** * Delegation: asking the running service

    [internal/agent/unpair_service.go], [enrollment_service.go], the choice of
    [unpairState] in [unpair.go] and [pairingLaunchPlan] of
    [internal/tray/tray.go]: programs that are not the service talk to its
    loopback page ({!PairingUi}).  A client is a tree of calls; what the listener
    at the published port answers, whoever it is, decides how it goes on. *)

From S2P Require Import Prelude GoText GoTime GoDuration GoNet HttpHeaders Json StrictJson JsonMarshal JsonLine Contract AgentLimits AgentTarget AgentStream AgentConfig Program StateFs StateTxn StateOps Unpair PairingFiles TrustAnchor Enrollment PairingUi.

(** ** Clients *)

(** A request to [http://127.0.0.1:port/path]; [wc_body]: its content type and
    bytes. *)
Record web_call := MkCall {
  wc_address : string;
  wc_method : string;
  wc_path : string;
  wc_headers : list (string * string);
  wc_form : list (string * string);
  wc_body : option bytes;
}.

(** [Do] failed, or a status and what reading the body (to its end) gave. *)
Abbreviation web_answer := (result (Z * result bytes)).

Inductive client (A : Type) : Type :=
| Done (a : A)
| Send (c : web_call) (k : web_answer -> client A).
Arguments Done {A} a.
Arguments Send {A} c k.

Fixpoint cbind {A B : Type} (p : client A) (k : A -> client B) : client B :=
  match p with Done a => k a | Send c k' => Send c (fun answer => cbind (k' answer) k) end.

(** [if err != nil { return err }]. *)
Definition cthen {A B : Type} (p : client (result A)) (k : A -> client (result B)) : client (result B) :=
  cbind p (fun r => match r with Ok a => k a | Err err => Done (Err err) end).

Definition cwrap {A : Type} (wrap : error -> error) (p : client (result A)) : client (result A) :=
  cbind p (fun r => Done (match r with Ok a => Ok a | Err err => Err (wrap err) end)).

(** The calls made and the outcome, for a list of answers. *)
Fixpoint talk {A : Type} (answers : list web_answer) (p : client A) {struct p} : list web_call * option A :=
  match p with
  | Done a => ([], Some a)
  | Send c k => match answers with
                | [] => ([c], None)
                | answer :: rest => let '(calls, r) := talk rest (k answer) in (c :: calls, r)
                end
  end.

(** [json.NewDecoder(io.LimitReader(body, n)).Decode]: the first value. *)
Definition decode_first (fs : schema) (data : bytes) : result (gmap string field_val) :=
  let ts := lex data in
  match parse_value (parse_fuel ts) max_nesting_depth ts with
  | Some (v, _) => match decode_struct fs false v with Some m => Ok m | None => Err (ErrMsg "cannot unmarshal") end
  | None => Err (ErrMsg "invalid JSON")
  end.

Definition limited (n : Z) (data : bytes) : bytes := firstn (Z.to_nat n) data.

(** ** Whom to trust *)

(** [verifyServiceListener]; [verifyPairingListener] of the tray is the same. *)
Definition verifyServiceListener (address expectedToken : string) : client (result unit) :=
  Send (MkCall address "GET" "/pairing/identity" [] [] None) (fun answer =>
  Done (match answer with
        | Err err => Err (ErrWrap "challenge listener identity" err)
        | Ok (status, body) =>
          reject_if (negb (status =? 200)) (ErrMsg "listener identity probe status") ;?
          match (let? data := body in decode_first [("token", KString)] (limited 4096 data)) with
          | Err err => Err (ErrWrap "decode listener identity" err)
          | Ok m => reject_if (negb (PairingCapabilityMatches expectedToken (get_string m "token"))) (ErrMsg "listener identity mismatch")
          end
        end)).

Definition maxPairingStateBytes : Z := 64 * 1024.

Definition csrfTokenPattern (s : string) : bool := (slen s =? 43) && forallb b64_alphabet (bytes_of s).

Definition capability_header (capability : string) : string * string := ("X-HooshiX-Pairing-Capability", capability).

Definition fetchPairingCSRFToken (address capability : string) : client (result string) :=
  Send (MkCall address "GET" "/api/state" [("Accept", "application/json"); capability_header capability] [] None) (fun answer =>
  Done (match answer with
        | Err err => Err (ErrWrap "read pairing authorization" err)
        | Ok (status, body) =>
          reject_if (negb (status =? 200)) (ErrMsg "pairing authorization rejected") ;?
          match (let? data := body in decode_first [("csrf", KString)] (limited maxPairingStateBytes data)) with
          | Err err => Err (ErrWrap "decode pairing state" err)
          | Ok m => reject_if (negb (csrfTokenPattern (get_string m "csrf"))) (ErrMsg "pairing state did not carry a CSRF token") ;?
                    Ok (get_string m "csrf")
          end
        end)).

Definition errServiceNotServing : error :=
  ErrSentinel "the HooshiXAgent service owns this state but is not serving its loopback endpoint".

Definition describeServiceUnavailable (cause : error) : error :=
  ErrWrap ": start it with `hooshix-agent service start` and run `hooshix-agent unpair` again" errServiceNotServing.

(** [strconv.Itoa] of a valid port. *)
Definition endpoint_address (e : PairingEndpoint) : string := JoinHostPort "127.0.0.1" (string_of (show_uint (pe_Port e))).

(** The common opening: the listener is challenged before the capability is
    read, and the token comes with the capability. *)
Definition with_admission {A : Type} (endpoint : result PairingEndpoint) (capability : result string)
    (k : string -> string -> string -> client (result A)) : client (result A) :=
  match endpoint with
  | Err err => Done (Err (describeServiceUnavailable err))
  | Ok e =>
    let address := endpoint_address e in
    cthen (cwrap describeServiceUnavailable (verifyServiceListener address (pe_Token e))) (fun _ =>
    match capability with
    | Err err => Done (Err (ErrWrap "read pairing capability" err))
    | Ok capability => cthen (fetchPairingCSRFToken address capability) (fun csrf => k address capability csrf)
    end)
  end.

(** ** Unpairing *)

Definition UnpairResult_schema : schema :=
  [("state_dir", KString); ("device_id", KString); ("public_key", KString); ("identity_preserved", KBool);
   ("already_unpaired", KBool); ("local_endpoints", KInt)].

Definition UnpairResult_of (m : gmap string field_val) : UnpairResult :=
  MkUnpairResult (get_string m "state_dir") (get_string m "device_id") (get_string m "public_key") (get_bool m "identity_preserved")
    (get_bool m "already_unpaired") (get_int m "local_endpoints").

Definition omit_empty (name value : string) : list (string * marshal_val) :=
  if String.eqb value EmptyString then [] else [(name, MString value)].

Definition UnpairResult_members (r : UnpairResult) : list (string * marshal_val) :=
  [("state_dir", MString (ur_StateDir r))] ++ omit_empty "device_id" (ur_DeviceID r) ++ omit_empty "public_key" (ur_PublicKey r) ++
  [("identity_preserved", MBool (ur_IdentityPreserved r)); ("already_unpaired", MBool (ur_AlreadyUnpaired r));
   ("local_endpoints", MInt (ur_LocalEndpoints r))].

Definition maxUnpairResponse : Z := 16 * 1024.

Definition requestServiceUnpair (endpoint : result PairingEndpoint) (capability : result string) (resetIdentity : bool)
    : client (result UnpairResult) :=
  with_admission endpoint capability (fun address capability csrf =>
  Send (MkCall address "POST" "/unpair"
          [("Content-Type", "application/x-www-form-urlencoded"); ("Accept", "application/json"); capability_header capability;
           ("X-HooshiX-CSRF", csrf)]
          (if resetIdentity then [("reset_identity", "true")] else []) None) (fun answer =>
  Done (match answer with
        | Err err => Err (ErrWrap "request unpair from the HooshiXAgent service" err)
        | Ok (status, body) =>
          match body with
          | Err err => Err (ErrWrap "read unpair response" err)
          | Ok data =>
            reject_if (negb (status =? 200)) (ErrMsg "the HooshiXAgent service refused to clear the pairing") ;?
            match json_unmarshal UnpairResult_schema (limited maxUnpairResponse data) with
            | Err err => Err (ErrWrap "decode unpair response" err)
            | Ok m => Ok (UnpairResult_of m)
            end
          end
        end))).

(** [serviceServingStateDir]. *)
Definition serviceServingStateDir (endpoint : result PairingEndpoint) : client bool :=
  match endpoint with
  | Err _ => Done false
  | Ok e => cbind (verifyServiceListener (endpoint_address e) (pe_Token e)) (fun r => Done (is_ok r))
  end.

(** How [unpairState] goes about it. *)
Inductive unpair_plan := Delegated (outcome : result UnpairResult) | Refused (err : error) | InProcess.

Definition unpairState (probed endpoint : result PairingEndpoint) (capability : result string) (service_owns resetIdentity : bool) : client unpair_plan :=
  cbind (serviceServingStateDir probed) (fun serving =>
  if serving then cbind (requestServiceUnpair endpoint capability resetIdentity) (fun r => Done (Delegated r))
  else if service_owns then Done (Refused (describeServiceUnavailable (ErrMsg "the state directory has no live pairing endpoint record")))
  else Done InProcess).

(** ** Enrolling *)

Record ServiceEnrollmentStart := MkServiceStart { se_State : string; se_UserCode : string; se_VerificationURI : string; se_ExpiresAt : string }.
Record ServiceEnrollmentClaim := MkServiceClaim { sc_State : string; sc_DeviceID : string; sc_Capability : string }.

Definition maxServiceResponse : Z := 16 * 1024.

Definition requestPairingServiceJSON (endpoint : result PairingEndpoint) (capability : result string) (path : string)
    (payload : option bytes) (expectedStatus : Z) (fs : schema) : client (result (gmap string field_val)) :=
  with_admission endpoint capability (fun address capability csrf =>
  Send (MkCall address "POST" path
          ((match payload with Some _ => [("Content-Type", "application/json")] | None => [] end) ++
           [("Accept", "application/json"); capability_header capability; ("X-HooshiX-CSRF", csrf)]) [] payload) (fun answer =>
  Done (match answer with
        | Err err => Err (ErrWrap "request enrollment from the HooshiXAgent service" err)
        | Ok (status, body) =>
          let? data := body in
          reject_if (maxServiceResponse <? zlen data) (ErrMsg "service enrollment response exceeds 16 KiB") ;?
          reject_if (negb (status =? expectedStatus)) (ErrMsg "HooshiXAgent service returned an unexpected HTTP status") ;?
          decodeStrict fs data
        end))).

Definition StartServiceEnrollment (endpoint : result PairingEndpoint) (capability : result string) (serverURL deviceName : string)
    : client (result ServiceEnrollmentStart) :=
  cthen (requestPairingServiceJSON endpoint capability "/enrollment/start"
           (Some (marshal_object [("device_name", MString deviceName); ("server_url", MString serverURL)])) 201
           [("state", KString); ("user_code", KString); ("verification_uri", KString); ("expires_at", KString)]) (fun m =>
  let result := MkServiceStart (get_string m "state") (get_string m "user_code") (get_string m "verification_uri") (get_string m "expires_at") in
  Done (reject_if (negb (String.eqb (se_State result) "pending") || String.eqb (se_UserCode result) EmptyString ||
                   String.eqb (se_VerificationURI result) EmptyString) (ErrMsg "service returned an invalid enrollment start response") ;?
        Ok result)).

Definition ClaimServiceEnrollment (endpoint : result PairingEndpoint) (capability : result string) : client (result ServiceEnrollmentClaim) :=
  cthen (requestPairingServiceJSON endpoint capability "/enrollment/claim" None 200
           [("state", KString); ("device_id", KString); ("capability", KString)]) (fun m =>
  let result := MkServiceClaim (get_string m "state") (get_string m "device_id") (get_string m "capability") in
  Done (reject_if (negb (String.eqb (sc_State result) "pending") &&
                   (negb (String.eqb (sc_State result) "claimed") || String.eqb (sc_DeviceID result) EmptyString))
          (ErrMsg "service returned an invalid enrollment claim response") ;? Ok result)).

(** ** The tray *)

(** [url.QueryEscape]. *)
Definition QueryEscape (s : string) : string :=
  string_of (flat_map (fun b => if is_alnum b || existsb (Byte.eqb b) (bytes_of "-_.~") then [b]
    else if Byte.eqb b " "%byte then ["+"%byte]
    else ["%"%byte; hex_upper (bz b / 16); hex_upper (bz b mod 16)]) (bytes_of s)).

Definition pairingLaunchPlan (endpoint : result PairingEndpoint) (capability : result string) : client (result string) :=
  match endpoint with
  | Err err => Done (Err err)
  | Ok e =>
    cthen (cwrap (ErrWrap "the loopback port is not served by the agent service") (verifyServiceListener (endpoint_address e) (pe_Token e))) (fun _ =>
    Done (match capability with
          | Err err => Err (ErrWrap "read pairing capability" err)
          | Ok capability => Ok ("http://" +:+ endpoint_address e +:+ "/?cap=" +:+ QueryEscape capability)
          end))
  end.

(** ** The capability goes to the listener that answered the challenge *)

(** The answer of a listener that knows the published token. *)
Definition genuine (e : PairingEndpoint) (answer : web_answer) : Prop :=
  exists body m, answer = Ok (200, Ok body) /\ decode_first [("token", KString)] (limited 4096 body) = Ok m /\
    get_string m "token" = pe_Token e /\ slen (pe_Token e) = 43.

Definition challenge (e : PairingEndpoint) : web_call := MkCall (endpoint_address e) "GET" "/pairing/identity" [] [] None.

Lemma talk_bind {A B : Type} (p : client A) (k : A -> client B) : forall answers,
  talk answers (cbind p k) =
    match talk answers p with
    | (calls, None) => (calls, None)
    | (calls, Some a) => let '(more, r) := talk (skipn (length calls) answers) (k a) in (calls ++ more, r)
    end.
Proof.
  induction p as [a|c k' IH]; intros answers; cbn [cbind talk].
  - cbn [length app]. rewrite drop_0. by destruct (talk answers (k a)).
  - destruct answers as [|answer rest]; [done |]. rewrite IH. destruct (talk rest (k' answer)) as [calls [a|]]; [| done].
    cbn [length skipn]. by destruct (talk _ (k a)) as [more r].
Qed.

#[local] Opaque limited decode_first.

(** What the opening says, and to whom. *)
Lemma admitted_talk {A : Type} endpoint capability (k : string -> string -> string -> client (result A)) answers calls r :
  (forall address c csrf answers, Forall (fun call => wc_address call = address) (talk answers (k address c csrf)).1) ->
  talk answers (with_admission endpoint capability k) = (calls, r) ->
  calls = [] \/
  exists e more, endpoint = Ok e /\ calls = challenge e :: more /\ Forall (fun call => wc_address call = endpoint_address e) calls /\
    (more <> [] -> exists answer rest, answers = answer :: rest /\ genuine e answer).
Proof.
  intros Hk H. unfold with_admission in H. destruct endpoint as [e|err]; [| injection H as <- _; by left]. right.
  unfold cthen, cwrap in H. rewrite !talk_bind in H. cbn [verifyServiceListener talk] in H.
  destruct answers as [|answer rest]; [injection H as <- _; exists e, []; repeat constructor; done |].
  cbn [length skipn talk app] in H.
  destruct answer as [[status body]|err].
  2: { injection H as <- _. exists e, []. split_and!; try done. by repeat constructor. }
  destruct (Z.eqb_spec status 200) as [->|Hs]; cbn [negb reject_if rbind] in H.
  2: { injection H as <- _. exists e, []. split_and!; try done. by repeat constructor. }
  destruct body as [data|err]; cbn [rbind] in H.
  2: { injection H as <- _. exists e, []. split_and!; try done. by repeat constructor. }
  destruct (decode_first _ _) as [m|err] eqn:Ed.
  2: { injection H as <- _. exists e, []. split_and!; try done. by repeat constructor. }
  destruct (PairingCapabilityMatches _ _) eqn:Em; cbn [negb reject_if] in H.
  2: { injection H as <- _. exists e, []. split_and!; try done. by repeat constructor. }
  apply matches_iff in Em as [Em Hl].
  assert (Hg : exists answer rest', Ok (200, Ok data) :: rest = answer :: rest' /\ genuine e answer).
  { eexists _, _. split; [reflexivity |]. exists data, m. by split_and!. }
  destruct capability as [c|err].
  2: { injection H as <- _. exists e, []. split_and!; try done. by repeat constructor. }
  rewrite talk_bind in H. cbn [fetchPairingCSRFToken talk] in H.
  destruct rest as [|answer2 rest].
  { injection H as <- _. eexists e, [_]. split_and!; try done. by repeat constructor. }
  cbn [length skipn] in H.
  match type of H with context [match ?x with Ok _ => _ | Err _ => Done (Err _) end] => destruct x as [csrf|err] end.
  2: { injection H as <- _. eexists e, [_]. split_and!; try done. by repeat constructor. }
  rewrite drop_0 in H. specialize (Hk (endpoint_address e) c csrf rest). destruct (talk rest (k _ _ _)) as [more r']. injection H as <- _.
  eexists e, (_ :: more). split_and!; try done. constructor; [done |]. constructor; [done | exact Hk].
Qed.

#[local] Transparent limited decode_first.

(** C17: The capability is given to nobody who has not answered the challenge. However the listener on the published port answers, a program that delegates an unpairing or an enrollment to the service first sends a bare request for its identity; nothing more is sent, and so neither the capability nor any token, unless the answer was a 200 with exactly the token of the record in the state directory; and everything is sent to the published port on 127.0.0.1. Without a record nothing is sent at all. *)
Theorem capability_after_challenge endpoint capability resetIdentity serverURL deviceName answers calls :
  (calls = (talk answers (requestServiceUnpair endpoint capability resetIdentity)).1 \/
   calls = (talk answers (StartServiceEnrollment endpoint capability serverURL deviceName)).1 \/
   calls = (talk answers (ClaimServiceEnrollment endpoint capability)).1) ->
  calls = [] \/
  exists e more, endpoint = Ok e /\ calls = challenge e :: more /\ Forall (fun call => wc_address call = endpoint_address e) calls /\
    (more <> [] -> exists answer rest, answers = answer :: rest /\ genuine e answer).
Proof.
  assert (Hjson : forall path payload status fs B (k : gmap string field_val -> client (result B)),
    (forall m answers, (talk answers (k m)).1 = []) ->
    forall calls r, talk answers (cthen (requestPairingServiceJSON endpoint capability path payload status fs) k) = (calls, r) ->
    exists r', talk answers (requestPairingServiceJSON endpoint capability path payload status fs) = (calls, r')).
  { intros path payload status fs B k Hk cs r. unfold cthen. rewrite talk_bind. destruct (talk _ _) as [cs' [[m|err]|]].
    - specialize (Hk m (skipn (length cs') answers)). destruct (talk _ (k m)) as [more r']. cbn in Hk. subst more.
      rewrite app_nil_r. intros [= <- _]. by eexists.
    - cbn. rewrite app_nil_r. intros [= <- _]. by eexists.
    - intros [= <- _]. by eexists. }
  assert (Hone : forall call (k : web_answer -> result (gmap string field_val)) address answers,
    wc_address call = address -> Forall (fun call => wc_address call = address) (talk answers (Send call (fun a => Done (k a)))).1).
  { intros call k address ans H. destruct ans; by repeat constructor. }
  intros [-> |[-> | ->]].
  - destruct (talk answers (requestServiceUnpair endpoint capability resetIdentity)) as [cs r] eqn:E.
    eapply admitted_talk; [| exact E]. intros address c csrf ans. destruct ans; by repeat constructor.
  - unfold StartServiceEnrollment. destruct (talk answers (cthen _ _)) as [cs r] eqn:E.
    apply Hjson in E as [r' E]; [| done]. eapply admitted_talk; [| exact E]. intros. by apply Hone.
  - unfold ClaimServiceEnrollment. destruct (talk answers (cthen _ _)) as [cs r] eqn:E.
    apply Hjson in E as [r' E]; [| done]. eapply admitted_talk; [| exact E]. intros. by apply Hone.
Qed.

(** ** The service at the other end *)

(** What [net/http] makes of a call at the page; [Header.Set] canonicalises. *)
Definition page_request (peer : string) (c : web_call) : web_request :=
  MkWeb peer (wc_method c) (wc_path c) (wc_address c) []
    (foldl (fun h x => SetHeader h x.1 x.2) ∅ (wc_headers c)) None (wc_form c) (default [] (wc_body c)).

Section Conversation.
#[local] Hint Extern 0 (Machine op _ _) => exact (exec_file true) : typeclass_instances.
Context (url_Parse : string -> result URL) (PublicKey : bytes -> bytes) (Sign : bytes -> bytes -> bytes) (key_ok : bytes -> bool).
Context (decode_json : bytes -> result Config) (marshal_indent : Config -> result bytes) (pem_ok : bytes -> bool).
Context (error_text SanitizedError : error -> string) (asset_exists : string -> bool).
Context (home : Home) (stateDir : string) (env : ui_env) (mux : web_request -> option string).
(** The bytes of the answers that are not flat JSON or text. *)
Context (render_other : web_body -> bytes) (peer : string).

Abbreviation page := (serve url_Parse PublicKey Sign key_ok decode_json marshal_indent pem_ok error_text SanitizedError asset_exists
  home stateDir env mux).

Definition render (body : web_body) : bytes :=
  match body with
  | RText message => bytes_of message ++ [Byte.x0a]
  | RJson data => data
  | RUnpair result => marshal_object (UnpairResult_members result) ++ [Byte.x0a]
  | other => render_other other
  end.

(** A client against the page (of a service that can read the pointer to its
    settings file), each request served by a run on its events; when
    the service dies in one, the connection breaks and nobody answers any more. *)
Fixpoint converse {A : Type} (events : list (list event)) (p : client A) (s : files) (app : option App) {struct p}
    : files * option App * option A :=
  match p with
  | Done a => (s, app, Some a)
  | Send c k =>
    match events, app with
    | [], _ => (s, app, None)
    | _ :: rest, None => converse rest (k (Err (ErrMsg "connection refused"))) s None
    | evs :: rest, Some a =>
      match run evs (page a (page_request peer c)) s with
      | (s', Some (a', reply)) => converse rest (k (Ok (rp_Status reply, Ok (render (rp_Body reply))))) s' (Some a')
      | (s', None) => converse rest (k (Err (ErrMsg "EOF"))) s' None
      end
    end
  end.

(** [net/http]: a registered path without a trailing slash is served by its own
    handler. *)
Definition mux_finds : Prop := forall r, wr_Path r = "/unpair" -> mux r = Some "/unpair".

(** A 200 to an unpair request is the report of an unpairing that was made. *)
Lemma unpair_answered app c evs s s' app' reply :
  mux_finds -> wc_path c = "/unpair" -> wc_method c = "POST" -> settled s ->
  run evs (page app (page_request peer c)) s = (s', Some (app', reply)) -> rp_Status reply = 200 ->
  exists reset result, rp_Body reply = RUnpair result /\ settled s' /\
    unpaired PublicKey decode_json marshal_indent (ue_seed_entropy env) (pair_of home s) reset result (pair_of home s').
Proof.
  intros Hmux Hpath Hpost Hs Hrun Hok.
  enough (H : safe (fun _ => True) (fun x s' => rp_Status x.2 = 200 ->
    exists reset result, rp_Body x.2 = RUnpair result /\ settled s' /\
      unpaired PublicKey decode_json marshal_indent (ue_seed_entropy env) (pair_of home s) reset result (pair_of home s')) (page app (page_request peer c)) s).
  { pose proof (safe_run _ _ _ evs s H) as Hr. rewrite Hrun in Hr. destruct Hr as [_ Hr]. exact (Hr _ eq_refl Hok). }
  assert (Hp : wr_Path (page_request peer c) = "/unpair") by exact Hpath.
  assert (Hm : wr_Method (page_request peer c) = "POST") by exact Hpost.
  unfold serve. destruct (requireLocalRequest url_Parse _) as [r1|] eqn:El.
  { apply requireLocalRequest_status in El. apply safe_ret; [done |]. cbn. lia. }
  unfold requireCapability. rewrite Hp. cbn [String.eqb Ascii.eqb Bool.eqb].
  unfold is_read. rewrite Hm. cbn [String.eqb Ascii.eqb Bool.eqb orb andb].
  destruct (PairingCapabilityMatches _ _); [| by apply safe_ret].
  unfold dispatch. rewrite (Hmux _ Hp). cbn [routes find fst String.eqb Ascii.eqb Bool.eqb].
  unfold handleUnpair, posted. rewrite Hm. cbn [String.eqb Ascii.eqb Bool.eqb negb].
  destruct (true && _); [by apply safe_ret |]. unfold requireCSRF. destruct (validCSRFToken _ _); [| by apply safe_ret].
  eapply safe_bind.
  - eapply safe_mono; [by apply locked_transaction_safe; [apply unpair_contained |] | done |]. intros a s1 _ H. exact H.
  - intros [result|err] s1 _ H; apply safe_ret; try done; cbv zeta; cbn [snd]; destruct (wantsJSON _); cbn [rp_Status rp_Body redirectHome json_error]; try done.
    intros _. destruct H as [H1 H2]. exists (reset_requested (page_request peer c)), result. split; [done |]. by split.
Qed.

Lemma asked_unchanged app c evs s s' r :
  mux_exact mux -> wc_method c = "GET" -> run evs (page app (page_request peer c)) s = (s', r) -> s' = s.
Proof.
  intros Hmux Hget Hrun.
  assert (Hn : ~ authorised url_Parse app (page_request peer c)) by (intros (_ & _ & H & _); cbn in H; congruence).
  pose proof (safe_run _ _ _ evs s (serve_harmless (steady := true) url_Parse PublicKey Sign key_ok decode_json marshal_indent pem_ok error_text SanitizedError
    asset_exists home stateDir env mux app _ Hmux Hn s)) as H.
  rewrite Hrun in H. exact (proj1 H).
Qed.

(** The end of a delegated unpairing. *)
Lemma unpair_reported c k events s app s' app' r :
  mux_finds -> wc_path c = "/unpair" -> wc_method c = "POST" -> settled s ->
  (forall data, k (Ok (200, Ok data)) = Done (let? m := match json_unmarshal UnpairResult_schema (limited maxUnpairResponse data) with
                                                        | Err err => Err (ErrWrap "decode unpair response" err) | Ok m => Ok m end in
                                              Ok (UnpairResult_of m))) ->
  (forall answer, (forall data, answer <> Ok (200, Ok data)) -> exists err, k answer = Done (Err err)) ->
  converse events (Send c k) s app = (s', app', Some (Ok r)) ->
  exists reset result m, settled s' /\
    unpaired PublicKey decode_json marshal_indent (ue_seed_entropy env) (pair_of home s) reset result (pair_of home s') /\
    json_unmarshal UnpairResult_schema (limited maxUnpairResponse (render (RUnpair result))) = Ok m /\ r = UnpairResult_of m.
Proof.
  intros Hmux Hpath Hpost Hs Hk Hbad H. cbn [converse] in H. destruct events as [|evs rest]; [discriminate H |].
  assert (Hrefused : forall answer rest s1 app1, (forall data, answer <> Ok (200, Ok data)) ->
    converse rest (k answer) s1 app1 <> (s', app', Some (Ok r))).
  { intros answer rest' s1 app1 Ha Hc. destruct (Hbad answer Ha) as [err E]. rewrite E in Hc. discriminate Hc. }
  destruct app as [a|]; [| exfalso; eapply Hrefused; [| exact H]; by intros ?].
  destruct (run evs _ s) as [s1 [[a1 reply]|]] eqn:Er; [| exfalso; eapply Hrefused; [| exact H]; by intros ?].
  destruct (Z.eq_dec (rp_Status reply) 200) as [E|E]; [| exfalso; eapply Hrefused; [| exact H]; intros data [=]; done].
  rewrite E, Hk in H. cbn [converse] in H. injection H as <- _ H.
  destruct (unpair_answered _ _ _ _ _ _ _ Hmux Hpath Hpost Hs Er E) as (reset & result & Hb & Hs1 & Hu).
  rewrite Hb in H. destruct (json_unmarshal _ _) as [m|] eqn:Em; [| discriminate H]. injection H as <-. by exists reset, result, m.
Qed.

(** A call that only asks leaves the files alone, and its caller goes on with
    some answer. *)
Lemma converse_asked {A : Type} c (k : web_answer -> client A) events s app s' app' r :
  mux_exact mux -> wc_method c = "GET" ->
  converse events (Send c k) s app = (s', app', Some r) ->
  exists answer rest app1, converse rest (k answer) s app1 = (s', app', Some r).
Proof.
  intros Hmux Hget H. cbn [converse] in H. destruct events as [|evs rest]; [discriminate H |].
  destruct app as [a|]; [| by eexists _, _, _].
  destruct (run evs _ s) as [s1 [[a1 reply]|]] eqn:Er; rewrite (asked_unchanged _ _ _ _ _ _ Hmux Hget Er) in H; by eexists _, _, _.
Qed.

Lemma converse_bind_unpair endpoint capability reset events s app s' app' r :
  mux_exact mux ->
  converse events (requestServiceUnpair endpoint capability reset) s app = (s', app', Some (Ok r)) ->
  exists c k rest app1, converse rest (Send c k) s app1 = (s', app', Some (Ok r)) /\ wc_path c = "/unpair" /\ wc_method c = "POST" /\
  (forall data, k (Ok (200, Ok data)) = Done (let? m := match json_unmarshal UnpairResult_schema (limited maxUnpairResponse data) with
                                                        | Err err => Err (ErrWrap "decode unpair response" err) | Ok m => Ok m end in
                                              Ok (UnpairResult_of m))) /\
  (forall answer, (forall data, answer <> Ok (200, Ok data)) -> exists err, k answer = Done (Err err)).
Proof.
  intros Hmux H. unfold requestServiceUnpair, with_admission in H. destruct endpoint as [e|]; [| discriminate H].
  unfold cthen, cwrap, verifyServiceListener in H. cbn [cbind] in H.
  apply converse_asked in H as (answer & rest & app1 & H); [| done | done].
  match type of H with context [match ?x with Ok a => Ok a | Err err => Err (describeServiceUnavailable err) end] => destruct x; [| discriminate H] end.
  destruct capability as [c|]; [| discriminate H]. unfold fetchPairingCSRFToken in H. cbn [cbind] in H.
  apply converse_asked in H as (answer2 & rest2 & app2 & H); [| done | done].
  match type of H with context [match ?x with Ok _ => _ | Err _ => Done (Err _) end] => destruct x as [csrf|]; [| discriminate H] end.
  eexists _, _, rest2, app2. split; [exact H |]. split; [done |]. split; [done |]. split.
  - intros data. cbn beta iota. cbn [negb Z.eqb Pos.eqb reject_if rbind]. by destruct (json_unmarshal _ _).
  - intros answer' Ha. destruct answer' as [[status [data|err]]|err]; try by eexists.
    destruct (Z.eq_dec status 200) as [->|E]; [exfalso; exact (Ha data eq_refl) |].
    exists (ErrMsg "the HooshiXAgent service refused to clear the pairing"). cbn beta iota. by rewrite (proj2 (Z.eqb_neq _ _) E).
Qed.
End Conversation.

(** A delegated unpairing that reports success was made. When a program asks the service that serves the pairing page of a settled state directory to unpair, and its conversation with the page ends in a result, whatever failed on the way but the reading of the pointer to the settings file, then the service's state is unpaired, all of it and nothing else as [unpaired] says, no journal is left, and the result is what the service reported; the calls that only ask changed nothing. *)
Theorem delegated_unpair url_Parse PublicKey Sign key_ok decode_json marshal_indent pem_ok error_text SanitizedError asset_exists
    home stateDir env mux render_other peer endpoint capability reset events s app s' app' r :
  mux_exact mux -> mux_finds mux -> settled s ->
  converse url_Parse PublicKey Sign key_ok decode_json marshal_indent pem_ok error_text SanitizedError asset_exists home stateDir env mux
    render_other peer events (requestServiceUnpair endpoint capability reset) s app = (s', app', Some (Ok r)) ->
  settled s' /\ exists asked result m,
    unpaired PublicKey decode_json marshal_indent (ue_seed_entropy env) (pair_of home s) asked result (pair_of home s') /\
    json_unmarshal UnpairResult_schema (limited maxUnpairResponse (render render_other (RUnpair result))) = Ok m /\ r = UnpairResult_of m.
Proof.
  intros Hmux Hfinds Hs H. apply converse_bind_unpair in H as (c & k & rest & app1 & H & Hp & Hm & Hk & Hbad); [| done].
  destruct (unpair_reported _ _ _ _ _ _ _ _ _ _ _ _ _ _ _ _ _ _ _ _ _ _ _ _ Hfinds Hp Hm Hs Hk Hbad H) as (asked & result & m & H1 & H2 & H3 & H4).
  split; [done |]. by exists asked, result, m.
Qed.

(** A device whose service is asked to unpair. *)
Definition demo_listener : string := string_of (repeat "L"%byte 43).
Definition demo_endpoint : PairingEndpoint := MkPairingEndpoint 8799 demo_listener 4242 "1970-01-01T00:00:00Z".
Definition demo_service : App := MkApp EmptyString None demo_csrf demo_capability demo_listener None.

Definition demo_render (body : web_body) : bytes :=
  match body with RState document => marshal_object [("csrf", MString (us_CSRF document))] | _ => [] end.

Definition demo_conversation : files * option App * option (result UnpairResult) :=
  converse demo_origin id (fun _ m => m) (fun _ => true) demo_codec demo_indent (fun _ => true) (fun _ => "failed") (fun _ => "failed")
    (fun _ => true) unix_home "state" demo_env demo_mux demo_render "127.0.0.1:50000" [[]; demo_events 40; demo_events 130]
    (requestServiceUnpair (Ok demo_endpoint) (Ok demo_capability) false) demo_paired_home (Some demo_service).

Lemma demo_conversation_ok : match demo_conversation.2 with Some (Ok r) => negb (ur_AlreadyUnpaired r) && ur_IdentityPreserved r | _ => false end = true.
Proof. vm_compute. reflexivity. Qed.

Lemma delegated_unpair_witness :
  mux_exact demo_mux /\ mux_finds demo_mux /\ settled demo_paired_home /\
  exists r, demo_conversation.2 = Some (Ok r) /\ ur_IdentityPreserved r = true /\ settled demo_conversation.1.1 /\
    exists asked result, unpaired id demo_codec demo_indent demo_entropy (pair_of unix_home demo_paired_home) asked result (pair_of unix_home demo_conversation.1.1).
Proof.
  split; [exact demo_mux_exact |]. assert (Hf : mux_finds demo_mux) by (intros r E; unfold demo_mux; rewrite E; reflexivity).
  split; [exact Hf |]. split; [exact demo_paired_settled |].
  pose proof (delegated_unpair demo_origin id (fun _ m => m) (fun _ => true) demo_codec demo_indent (fun _ => true) (fun _ => "failed")
    (fun _ => "failed") (fun _ => true) unix_home "state" demo_env demo_mux demo_render "127.0.0.1:50000" (Ok demo_endpoint) (Ok demo_capability)
    false [[]; demo_events 40; demo_events 130] demo_paired_home (Some demo_service)) as H.
  pose proof demo_conversation_ok as Hok. fold demo_conversation in H. destruct demo_conversation as [[s' app'] [[r|]|]]; cbn [fst snd] in *;
    [| discriminate Hok | discriminate Hok].
  apply andb_true_iff in Hok as [_ Hok].
  destruct (H s' app' r demo_mux_exact Hf demo_paired_settled eq_refl) as (Hs & asked & result & m & Hu & _ & _).
  exists r. split; [reflexivity |]. split; [exact Hok |]. split; [exact Hs |]. exists asked, result. exact Hu.
Defined.

(** A listener that answers with another token hears nothing more. *)
Lemma capability_after_challenge_witness :
  exists calls, calls = (talk [Ok (200, Ok (marshal_object [("token", MString "guess")])); Ok (200, Ok [])]
    (requestServiceUnpair (Ok demo_endpoint) (Ok demo_capability) false)).1 /\ calls = [challenge demo_endpoint].
Proof.
  eexists. split; [reflexivity |].
  pose proof (capability_after_challenge (Ok demo_endpoint) (Ok demo_capability) false EmptyString EmptyString
    [Ok (200, Ok (marshal_object [("token", MString "guess")])); Ok (200, Ok [])] _ (or_introl eq_refl)) as H.
  destruct H as [H|(e & more & He & Hc & _ & Hm)]; [vm_compute in H; discriminate H |]. injection He as <-.
  rewrite Hc. destruct more as [|c more]; [reflexivity |]. exfalso.
  destruct (Hm ltac:(discriminate)) as (answer & rest & [= <- _] & body & m & [= <-] & Hd & Ht & _).
  vm_compute in Hd. injection Hd as <-. vm_compute in Ht. discriminate Ht.
Defined.

(** The token that should prove the listener's identity is given by the page to
    any local process that asks; whoever keeps the answer and later holds the
    port, after a crash of the service say, is then sent the capability. *)
Definition demo_probe : web_request :=
  MkWeb "127.0.0.1:51111" "GET" "/pairing/identity" "127.0.0.1:8799" [] ∅ None [] [].

Lemma identity_token_public :
  exists reply data,
    demo_page demo_service demo_probe = Ret (demo_service, reply) /\ rp_Status reply = 200 /\ rp_Body reply = RJson data /\
    (talk [Ok (200, Ok data)] (requestServiceUnpair (Ok demo_endpoint) (Ok demo_capability) false)).1 =
      [challenge demo_endpoint;
       MkCall "127.0.0.1:8799" "GET" "/api/state" [("Accept", "application/json"); capability_header demo_capability] [] None].
Proof.
  eexists _, _. split; [vm_compute; reflexivity |]. split; [reflexivity |]. split; [reflexivity |]. vm_compute. reflexivity.
Qed.
