(* ===== verification/AgentCli.v ===== *)
(** * AgentCli: the Agent's command line

    [internal/agent/cli.go]: the parsing of a command's flags, the commands and
    their exit codes, over the state directory of {!StateFs}.  What a command
    prints is the fact it reports ([said]); the text and the JSON form of it are
    left out, but not that writing it may fail.  [run] ends as [Runner.Run] does,
    which only reads the state and is {!AgentRunner}'s.  How [unpair] finds out who is to do it is {!Delegation}'s
    [unpairState]; here its outcome is an argument.  The text of the native
    service definition ([service.go]) is left out. *)

From Stdlib Require Import Ascii.
From S2P Require Import Prelude Program GoText GoDuration Json StrictJson JsonMarshal Contract AgentLimits AgentTarget AgentStream AgentConfig.
From S2P Require Import GoNet StateFs StateTxn StateOps Unpair PairingFiles PairingUi Delegation.

(** ** Flags *)

(** The package [flag]: the flags of a set, by name, and whether one is a
    [bool], which needs no value. *)
Abbreviation flag_set := (list (string * bool)).
Abbreviation flag_values := (gmap string string).

Definition flag_ErrHelp : error := ErrSentinel "flag: help requested".

Definition ParseBool (s : string) : option bool :=
  if bool_decide (s ∈ ["1"; "t"; "T"; "TRUE"; "true"; "True"]) then Some true
  else if bool_decide (s ∈ ["0"; "f"; "F"; "FALSE"; "false"; "False"]) then Some false
  else None.

Definition show_bool (b : bool) : string := if b then "true" else "false".

(** The name before the first [=] after its first byte, and the value behind. *)
Fixpoint cut_value (s : string) : string * option string :=
  match s with
  | EmptyString => (EmptyString, None)
  | String c rest =>
    if Ascii.eqb c "="%char then (EmptyString, Some rest) else let '(name, value) := cut_value rest in (String c name, value)
  end.

(** What one argument is: the end of the flags, a flag, or bad syntax. *)
Inductive argument := EndOfFlags | Flag (name : string) (value : option string) | BadSyntax.

Definition flag_name (s : string) : argument :=
  match s with
  | EmptyString => BadSyntax
  | String c _ =>
    if Ascii.eqb c "-"%char || Ascii.eqb c "="%char then BadSyntax else let '(name, value) := cut_value s in Flag name value
  end.

Definition argument_of (s : string) : argument :=
  match s with
  | String "-" (String "-" EmptyString) => EndOfFlags
  | String "-" (String "-" name) => flag_name name
  | String "-" (String c name) => flag_name (String c name)
  | _ => EndOfFlags
  end.

(** [FlagSet.Parse]; what comes after the flags is not looked at. *)
Fixpoint Parse (flags : flag_set) (args : list string) (values : flag_values) : result flag_values :=
  match args with
  | [] => Ok values
  | s :: rest =>
    match argument_of s with
    | EndOfFlags => Ok values
    | BadSyntax => Err (ErrMsg "bad flag syntax")
    | Flag name value =>
      match find (fun f => String.eqb f.1 name) flags with
      | None =>
        if String.eqb name "help" || String.eqb name "h" then Err flag_ErrHelp
        else Err (ErrMsg "flag provided but not defined")
      | Some (_, true) =>
        match ParseBool (default "true" value) with
        | Some b => Parse flags rest (<[name := show_bool b]> values)
        | None => Err (ErrMsg "invalid boolean value")
        end
      | Some (_, false) =>
        match value, rest with
        | Some v, _ => Parse flags rest (<[name := v]> values)
        | None, v :: rest => Parse flags rest (<[name := v]> values)
        | None, [] => Err (ErrMsg "flag needs an argument")
        end
      end
    end
  end.

Definition flag_string (values : flag_values) (name fallback : string) : string := default fallback (values !! name).
Definition flag_bool (values : flag_values) (name : string) : bool := String.eqb (flag_string values name "false") "true".

(** ** Standard input *)

(** What the input yields before it ends, and what it ends with ([None] for
    [io.EOF]). *)
Abbreviation input := (bytes * option error)%type.

Fixpoint first_line (bs : bytes) : bytes * bool :=
  match bs with
  | [] => ([], false)
  | b :: rest => if Byte.eqb b Byte.x0a then ([b], true) else let '(line, ended) := first_line rest in (b :: line, ended)
  end.

(** [bufio.NewReader(io.LimitReader(reader, n)).ReadString], with [io.EOF] no
    error. *)
Definition read_limited_line (n : Z) (reader : input) : result bytes :=
  let '(line, ended) := first_line (firstn (Z.to_nat n) reader.1) in
  if ended || (n <=? zlen reader.1) then Ok line
  else match reader.2 with None => Ok line | Some err => Err err end.

Definition readConfirmLine (reader : input) : result bool :=
  match read_limited_line 64 reader with
  | Err err => Err (ErrWrap "read confirmation" err)
  | Ok line =>
    let answer := ascii_lower_byte <$> TrimSpace line in
    Ok (bool_decide (answer = bytes_of "y") || bool_decide (answer = bytes_of "yes"))
  end.

Definition readSecretLine (reader : input) : result string :=
  match read_limited_line 514 reader with
  | Err err => Err (ErrWrap "read session token" err)
  | Ok line =>
    let line := TrimSpace line in
    if 512 <? zlen line then Err (ErrMsg "session token is too long") else Ok (string_of line)
  end.

(** ** The commands *)

(** What a command reports. *)
Inductive said :=
| Initialized (key : bytes)
| Configured (c : Config)
| Rotated (key : bytes)
| Unpaired (r : UnpairResult)
| Exposed (e : Endpoint)
| Removed (id : string)
| Endpoints (endpoints : list Endpoint)
| Status (c : Config) (key : bytes) (credentials : bool)
| Passed (c : Config)
| Running (c : Config) (limits : Limits)
| Definition_ (binary dir : string)
| Channel (channel : string)
| Versioned
| Help.

Section Commands.
Context (url_Parse : string -> result URL) (PublicKey : bytes -> bytes).
Context (decode_json : bytes -> result Config) (marshal_indent : Config -> result bytes) (home : Home).
(** [NormalizeStateDir], the input, the entropy, what [unpairState] finds,
    [tlsConfigForAgent], the network and the path of the running program. *)
Context (NormalizeStateDir : string -> result string) (stdin : input) (entropy : Z -> result bytes).
Context (plan : string -> bool -> unpair_plan) (tlsConfigForAgent : Config -> result unit).
Context (DialContext : string -> string -> result unit) (Executable : result string).
(** What [Runner.Run] ends with. *)
Context (runner_Run : Config -> Limits -> result unit).

Abbreviation LoadConfig := (LoadConfig decode_json home).
Abbreviation MutateConfig := (MutateConfig decode_json marshal_indent home).

(** Standard output: [printResult], and what is printed with the error dropped. *)
Definition write_stdout : prog (result unit) := call (Quiet "write to standard output").

Definition printResult (report : said) : prog (result said) := write_stdout ;! Ret (Ok report).

Definition printed (report : said) : prog (result said) := let* _ := write_stdout in Ret (Ok report).

(** A command after its flags; the directory it names. *)
Definition parsed (flags : flag_set) (args : list string) (body : flag_values -> prog (result said)) : prog (result said) :=
  match Parse flags args ∅ with Err err => Ret (Err err) | Ok values => body values end.

Definition in_directory (values : flag_values) (body : string -> prog (result said)) : prog (result said) :=
  match NormalizeStateDir (flag_string values "state-dir" EmptyString) with
  | Err err => Ret (Err err)
  | Ok dir => body dir
  end.

Definition init_flags : flag_set := [("state-dir", false); ("json", true)].

Definition commandInit (args : list string) : prog (result said) :=
  parsed init_flags args (fun values => in_directory values (fun _ =>
  let! publicKey := initializeAgentState PublicKey decode_json marshal_indent home entropy in
  printResult (Initialized publicKey))).

Definition configure_flags : flag_set :=
  [("state-dir", false); ("gateway", false); ("gateway-alias", false); ("ca-file", false); ("device-id", false);
   ("authorization-id", false); ("token-id", false); ("token-stdin", true); ("update-channel", false); ("json", true)].

(** The aliases between commas, empty ones skipped. *)
Definition split_aliases (raw : string) : list string :=
  filter (fun alias => alias <> EmptyString) ((fun part => trimmed (string_of part)) <$> split_on ","%byte (bytes_of (trimmed raw))).

Definition requested_config (values : flag_values) : Config :=
  MkConfig 0 (flag_string values "gateway" EmptyString) (split_aliases (flag_string values "gateway-alias" EmptyString))
    (flag_string values "ca-file" EmptyString) (flag_string values "device-id" EmptyString)
    (flag_string values "authorization-id" EmptyString) (flag_string values "token-id" EmptyString)
    (flag_string values "update-channel" "stable") [] None.

(** The checks before anything is touched, and the token. *)
Definition configure_token (values : flag_values) : result string :=
  let requested := requested_config values in
  reject_if (negb (flag_bool values "token-stdin"))
    (ErrMsg "--token-stdin is required so session tokens are not placed in process arguments") ;?
  ValidateGatewayURL url_Parse (cf_GatewayURL requested) ;?
  reject_if (MaxGatewayAliases <? Z.of_nat (length (cf_GatewayAliases requested))) (ErrMsg "too many gateway aliases") ;?
  check_identifiers requested ;?
  reject_if (negb (String.eqb (cf_UpdateChannel requested) "stable") && negb (String.eqb (cf_UpdateChannel requested) "beta"))
    (ErrMsg "update channel must be stable or beta") ;?
  let? token := readSecretLine stdin in
  reject_if (negb (tokenPattern token)) (ErrMsg "session token must be 32..512 base64url-safe characters") ;?
  Ok token.

Definition commandConfigure (args : list string) : prog (result said) :=
  parsed configure_flags args (fun values =>
  match configure_token values with
  | Err err => Ret (Err err)
  | Ok token => in_directory values (fun _ =>
      let! config := configureAgentState PublicKey decode_json marshal_indent home url_Parse entropy (requested_config values) token in
      printResult (Configured config))
  end).

Definition rotate_flags : flag_set := [("state-dir", false); ("force", true); ("json", true)].

(** The question before the answer is read. *)
Definition ask_rotation (values : flag_values) : prog (result unit) :=
  if flag_bool values "force" then Ret (Ok tt) else let* _ := write_stdout in Ret (Ok tt).

Definition rotation_confirmed (values : flag_values) : result unit :=
  if flag_bool values "force" then Ok tt
  else let? confirmed := readConfirmLine stdin in reject_if (negb confirmed) (ErrMsg "rotation aborted").

Definition commandRotate (args : list string) : prog (result said) :=
  parsed rotate_flags args (fun values =>
  let! _ := ask_rotation values in
  match rotation_confirmed values with
  | Err err => Ret (Err err)
  | Ok _ => in_directory values (fun _ =>
      let! publicKey := rotateAgentIdentity PublicKey home entropy in printResult (Rotated publicKey))
  end).

Definition unpair_flags : flag_set := [("state-dir", false); ("reset-identity", true); ("json", true)].

Definition commandUnpair (args : list string) : prog (result said) :=
  match Parse unpair_flags args ∅ with
  | Err err => if errors_is err flag_ErrHelp then printed Help else Ret (Err err)
  | Ok values => in_directory values (fun dir =>
      let reset := flag_bool values "reset-identity" in
      match plan dir reset with
      | Delegated (Ok r) => printResult (Unpaired r)
      | Delegated (Err err) => Ret (Err err)
      | Refused err => Ret (Err err)
      | InProcess =>
        let! r := unpairAgentState PublicKey decode_json marshal_indent home dir entropy reset in printResult (Unpaired r)
      end)
  end.

Definition expose_add_flags : flag_set := [("state-dir", false); ("id", false); ("target", false); ("protocol", false)].

Definition exposed_endpoint (values : flag_values) : Endpoint :=
  MkEndpoint (flag_string values "id" EmptyString) (flag_string values "target" EmptyString) (flag_string values "protocol" "tcp").

Definition check_exposed (e : Endpoint) : result unit :=
  reject_if (negb (identifierPattern (ep_ID e))) (ErrMsg "endpoint ID is invalid") ;?
  ValidateLocalTarget (ep_Target e) ;?
  reject_if (negb (String.eqb (ep_Protocol e) "tcp") && negb (String.eqb (ep_Protocol e) "udp")) (ErrMsg "protocol must be tcp or udp").

Definition expose_add (args : list string) : prog (result said) :=
  parsed expose_add_flags args (fun values =>
  let e := exposed_endpoint values in
  match check_exposed e with
  | Err err => Ret (Err err)
  | Ok _ => in_directory values (fun _ => MutateConfig (fun config => Ok (SetEndpoint config e)) ;! printed (Exposed e))
  end).

Definition expose_remove_flags : flag_set := [("state-dir", false); ("id", false)].

Definition removing (id : string) (config : Config) : result Config :=
  match RemoveEndpoint config id with (true, config) => Ok config | (false, _) => Err (ErrMsg "endpoint not found") end.

Definition expose_remove (args : list string) : prog (result said) :=
  parsed expose_remove_flags args (fun values =>
  let id := flag_string values "id" EmptyString in
  in_directory values (fun _ => MutateConfig (removing id) ;! printed (Removed id))).

Definition expose_list (args : list string) : prog (result said) :=
  parsed init_flags args (fun values => in_directory values (fun _ =>
  let! config := LoadConfig in
  if flag_bool values "json" then printResult (Endpoints (cf_Endpoints config)) else printed (Endpoints (cf_Endpoints config)))).

Definition commandExpose (args : list string) : prog (result said) :=
  match args with
  | [] => Ret (Err (ErrMsg "expose requires add, remove, or list"))
  | word :: rest =>
    if String.eqb word "add" then expose_add rest
    else if String.eqb word "remove" then expose_remove rest
    else if String.eqb word "list" then expose_list rest
    else Ret (Err (ErrMsg "expose requires add, remove, or list"))
  end.

Definition commandStatus (args : list string) : prog (result said) :=
  parsed init_flags args (fun values => in_directory values (fun _ =>
  let! config := LoadConfig in
  let! publicKey := LoadIdentity PublicKey in
  let! state := Load in
  printResult (Status config publicKey (negb (String.eqb (ss_SessionToken state) EmptyString))))).

Definition doctor_flags : flag_set := [("state-dir", false); ("dial-local", true)].

Fixpoint dial_endpoints (endpoints : list Endpoint) : result unit :=
  match endpoints with
  | [] => Ok tt
  | e :: rest =>
    match DialLocalTarget DialContext (ep_Target e) with
    | Err err => Err (ErrWrap "endpoint connectivity" err)
    | Ok _ => dial_endpoints rest
    end
  end.

Definition commandDoctor (args : list string) : prog (result said) :=
  parsed doctor_flags args (fun values => in_directory values (fun _ =>
  let! config := LoadConfig in
  match ValidateRuntime url_Parse config with
  | Err err => Ret (Err err)
  | Ok _ =>
    let! _ := LoadIdentity PublicKey in
    let! _ := LoadSessionToken in
    match tlsConfigForAgent config ;? (if flag_bool values "dial-local" then dial_endpoints (cf_Endpoints config) else Ok tt) with
    | Err err => Ret (Err err)
    | Ok _ => printed (Passed config)
    end
  end)).

(** With [NewRunner], and [Running] for a runner that ended without an error. *)
Definition commandRun (args : list string) : prog (result said) :=
  parsed [("state-dir", false)] args (fun values => in_directory values (fun dir =>
  let! config := LoadConfig in
  Ret (let? limits := ApplyLimits (cf_Limits config) AgentLimits.DefaultLimits in
       let? _ := NormalizeStateDir dir in
       reject_if (negb (valid limits)) (ErrMsg "invalid Agent limits") ;?
       runner_Run config limits ;? Ok (Running config limits)))).

Definition commandServiceSpec (args : list string) : prog (result said) :=
  parsed [("state-dir", false); ("binary", false); ("json", true)] args (fun values => in_directory values (fun dir =>
  let binary := flag_string values "binary" EmptyString in
  match (let? bin := (if String.eqb binary EmptyString then Executable else Ok binary) in
         reject_if (String.eqb (trimmed bin) EmptyString || String.eqb (trimmed dir) EmptyString)
           (ErrMsg "binary and state directory are required") ;? Ok bin) with
  | Err err => Ret (Err err)
  | Ok bin => printResult (Definition_ bin dir)
  end)).

(** [CurrentUpdateInfo]. *)
Definition CurrentChannel (channel : string) : string := if String.eqb channel EmptyString then "stable" else channel.

Definition commandUpdateInfo (args : list string) : prog (result said) :=
  parsed init_flags args (fun values => in_directory values (fun _ =>
  let! config := LoadConfig in
  printResult (Channel (CurrentChannel (cf_UpdateChannel config))))).

(** [Main]: the command a command line names, if it names one ... *)
Definition command (args : list string) : option (prog (result said)) :=
  match args with
  | [] => None
  | word :: rest =>
    if String.eqb word "init" then Some (commandInit rest)
    else if String.eqb word "configure" then Some (commandConfigure rest)
    else if String.eqb word "rotate" then Some (commandRotate rest)
    else if String.eqb word "unpair" then Some (commandUnpair rest)
    else if String.eqb word "expose" then Some (commandExpose rest)
    else if String.eqb word "status" then Some (commandStatus rest)
    else if String.eqb word "doctor" then Some (commandDoctor rest)
    else if String.eqb word "run" then Some (commandRun rest)
    else if String.eqb word "service-spec" then Some (commandServiceSpec rest)
    else if String.eqb word "update-info" then Some (commandUpdateInfo rest)
    else if String.eqb word "version" then Some (printed Versioned)
    else None
  end.

(** ... and the exit code, with what was reported. *)
Definition Main (args : list string) : prog (Z * option said) :=
  match command args with
  | None => Ret (2, None)
  | Some p => let* r := p in Ret (match r with Ok report => (0, Some report) | Err _ => (1, None) end)
  end.
End Commands.

(** ** Editing the settings *)

Section Edited.
#[local] Hint Extern 0 (Machine op _ _) => exact (exec_file true) : typeclass_instances.
Context (decode_json : bytes -> result Config) (marshal_indent : Config -> result bytes) (home : Home).

(** [q] is [old] with the settings that [mutate] makes of the old ones. *)
Definition edited (old : option node * option node) (mutate : Config -> result Config) (q : option node * option node) : Prop :=
  exists c c', says decode_json old.1 c /\ mutate c = Ok c' /\ settings_file marshal_indent c' q.1 /\ q.2 = old.2.

Lemma settled_same s s' : journal_same s s' -> settled s -> settled s'.
Proof. intros H [H1 H2]. split; [by rewrite H by auto |]. intros name. by rewrite H by auto. Qed.

Lemma whole_settled {A : Type} (new : A -> option node * option node -> Prop) old s :
  settled s -> either old new (pair_of home s) -> whole home (either old new) old s.
Proof. intros Hs He. left. split; [by left | done]. Qed.

Lemma save_whole old mutate c c' s :
  settled s -> pair_of home s = old -> says decode_json old.1 c -> mutate c = Ok c' ->
  safe (whole home (either old (fun _ : unit => edited old mutate)) old)
    (okay (fun _ s' => settled s' /\ edited old mutate (pair_of home s'))) (saveConfigUnlocked marshal_indent home c') s.
Proof.
  intros Hs Hp Hc Hm. unfold saveConfigUnlocked.
  destruct (marshal_indent (saved_form c')) as [data|e] eqn:Ed; [| apply safe_err, whole_settled; [done | by left]].
  set (path := settings_path (located home s)).
  assert (Hsame : forall s', only scratch path (Some (File (data ++ [Byte.x0a]))) s s' -> journal_same s s' /\ s' !! secretPath = s !! secretPath)
    by (intros s'; apply (proj1 (only_other home s s s' _))).
  assert (Hnew : forall s', only scratch path (Some (File (data ++ [Byte.x0a]))) s s' ->
    s' !! path = Some (File (data ++ [Byte.x0a])) -> edited old mutate (pair_of home s')).
  { intros s' Ho He. destruct (Hsame s' Ho) as [Hj Hx]. exists c, c'. rewrite (pair_same home s s') by (apply Hj; auto). cbn [fst snd].
    split; [done |]. split; [done |]. split; [exists data; split; [done | exact He] |]. subst old. exact Hx. }
  assert (Hset : forall s', only scratch path (Some (File (data ++ [Byte.x0a]))) s s' -> settled s')
    by (intros s' Ho; eapply settled_same; [| exact Hs]; apply (Hsame s' Ho)).
  eapply safe_bind; [by apply locate_safe, whole_settled; [| left] |]. intros path' s1 _ [-> ->]. fold path.
  eapply safe_mono; [apply (writeStateFile_safe path); right; by eexists | |].
  - intros s' Ho. apply whole_settled; [by apply Hset |]. destruct (Hsame s' Ho) as [Hj Hx]. destruct (proj2 Ho) as [H|H].
    + left. rewrite (pair_same home s s') by (apply Hj; auto). fold path. rewrite H, Hx. exact Hp.
    + right. exists tt. by apply Hnew.
  - intros [u|e] s' Ho H; [| done]. split; [by apply Hset | by apply Hnew].
Qed.

Lemma mutate_safe mutate s :
  settled s ->
  safe (whole home (either (pair_of home s) (fun _ : unit => edited (pair_of home s) mutate)) (pair_of home s))
    (okay (fun _ s' => settled s' /\ edited (pair_of home s) mutate (pair_of home s'))) (MutateConfig decode_json marshal_indent home mutate) s.
Proof.
  intros Hs. unfold MutateConfig, locked. apply safe_then with (Q := fun _ s' => settled s' /\ pair_of home s' = pair_of home s).
  { eapply safe_mono; [apply (recover_safe home (pair_of home s) (fun q => q = pair_of home s)); [done | by left; auto] | | done].
    intros s'. apply whole_mono. intros q ->. by left. }
  intros _ s1 Hw [Hs1 Hp1]. eapply safe_then; [by apply (load_config_safe home decode_json) |]. intros c s2 _ [-> Hc].
  change (says decode_json (pair_of home s1).1 c) in Hc. rewrite Hp1 in Hc.
  destruct (mutate c) as [c'|e] eqn:Em; [| by apply safe_err]. by eapply save_whole.
Qed.
End Edited.

(** ** What a command line means *)

(** The command lines that are not to change the state. *)
Definition observes (args : list string) : bool :=
  match args with
  | [] => true
  | word :: rest =>
    negb (bool_decide (word ∈ ["init"; "configure"; "rotate"; "unpair"])) &&
    negb (String.eqb word "expose" && bool_decide (head rest = Some "add" \/ head rest = Some "remove"))
  end.

Section Meaning.
#[local] Hint Extern 0 (Machine op _ _) => exact (exec_file true) : typeclass_instances.
Context (url_Parse : string -> result URL) (PublicKey : bytes -> bytes).
Context (decode_json : bytes -> result Config) (marshal_indent : Config -> result bytes) (home : Home).
Context (NormalizeStateDir : string -> result string) (stdin : input) (entropy : Z -> result bytes).
Context (plan : string -> bool -> unpair_plan) (tlsConfigForAgent : Config -> result unit).
Context (DialContext : string -> string -> result unit) (Executable : result string) (runner_Run : Config -> Limits -> result unit).

Abbreviation command := (command url_Parse PublicKey decode_json marshal_indent home NormalizeStateDir stdin entropy plan
  tlsConfigForAgent DialContext Executable runner_Run).
Abbreviation Main := (Main url_Parse PublicKey decode_json marshal_indent home NormalizeStateDir stdin entropy plan
  tlsConfigForAgent DialContext Executable runner_Run).

Lemma exposed_wf e : check_exposed e = Ok tt -> endpoint_wf e.
Proof.
  unfold check_exposed. destruct (identifierPattern _) eqn:Ei; [| done]. cbn [negb reject_if rbind].
  destruct (ValidateLocalTarget _) as [[]|] eqn:Et; [| done]. cbn [rbind].
  intros H. split; [exact Ei |]. split; [done |].
  destruct (String.eqb_spec (ep_Protocol e) "tcp") as [->|]; [by set_solver |].
  destruct (String.eqb_spec (ep_Protocol e) "udp") as [->|]; [by set_solver | done].
Qed.

Lemma configure_checked values token :
  configure_token url_Parse stdin values = Ok token -> tokenPattern token = true.
Proof.
  unfold configure_token. intros H. do 6 apply rbind_Ok in H as (? & _ & H). apply rbind_Ok in H as ([] & Ht & H).
  injection H as <-. apply reject_if_Ok, negb_false_iff in Ht. exact Ht.
Qed.

Section Old.
Context (old : option node * option node).

(** The identity and the token that the secret file holds. *)
Definition has_identity (key : bytes) (state : SecretState) : Prop :=
  holds old.2 state /\ ss_Seed state <> EmptyString /\ identityFromSeed PublicKey (ss_Seed state) = Ok key.

(** [means args report q]: what [args] asks of a state that holds the pair [old]
    is that it holds [q], and that [report] is reported. *)
Inductive means : list string -> said -> option node * option node -> Prop :=
| MeansInit rest values key q :
    Parse init_flags rest ∅ = Ok values -> initialized PublicKey decode_json marshal_indent old entropy key q ->
    means ("init" :: rest) (Initialized key) q
| MeansConfigure rest values token c q :
    Parse configure_flags rest ∅ = Ok values -> configure_token url_Parse stdin values = Ok token -> tokenPattern token = true ->
    configured decode_json marshal_indent old url_Parse (requested_config values) token c q ->
    means ("configure" :: rest) (Configured c) q
| MeansRotate rest values key q :
    Parse rotate_flags rest ∅ = Ok values -> flag_bool values "force" = true \/ readConfirmLine stdin = Ok true ->
    rotated PublicKey old entropy key q ->
    means ("rotate" :: rest) (Rotated key) q
| MeansUnpair rest values dir r q :
    Parse unpair_flags rest ∅ = Ok values -> NormalizeStateDir (flag_string values "state-dir" EmptyString) = Ok dir ->
    let reset := flag_bool values "reset-identity" in
    match plan dir reset with
    | Delegated outcome => outcome = Ok r /\ q = old
    | Refused _ => False
    | InProcess => unpaired PublicKey decode_json marshal_indent entropy old reset r q
    end ->
    means ("unpair" :: rest) (Unpaired r) q
| MeansHelp rest : means ("unpair" :: rest) Help old
| MeansAdd rest values e q :
    Parse expose_add_flags rest ∅ = Ok values -> e = exposed_endpoint values -> endpoint_wf e ->
    edited decode_json marshal_indent old (fun c => Ok (SetEndpoint c e)) q ->
    means ("expose" :: "add" :: rest) (Exposed e) q
| MeansRemove rest values id q :
    Parse expose_remove_flags rest ∅ = Ok values -> id = flag_string values "id" EmptyString ->
    edited decode_json marshal_indent old (removing id) q ->
    means ("expose" :: "remove" :: rest) (Removed id) q
| MeansList rest c : says decode_json old.1 c -> means ("expose" :: "list" :: rest) (Endpoints (cf_Endpoints c)) old
| MeansStatus rest c key state :
    says decode_json old.1 c -> has_identity key state ->
    means ("status" :: rest) (Status c key (negb (String.eqb (ss_SessionToken state) EmptyString))) old
| MeansPassed rest c key state :
    says decode_json old.1 c -> ValidateRuntime url_Parse c = Ok tt -> has_identity key state ->
    ss_SessionToken state <> EmptyString -> tlsConfigForAgent c = Ok tt ->
    means ("doctor" :: rest) (Passed c) old
| MeansRunning rest c limits :
    says decode_json old.1 c -> ApplyLimits (cf_Limits c) AgentLimits.DefaultLimits = Ok limits -> valid limits = true ->
    runner_Run c limits = Ok tt ->
    means ("run" :: rest) (Running c limits) old
| MeansSpec rest bin dir : means ("service-spec" :: rest) (Definition_ bin dir) old
| MeansChannel rest c : says decode_json old.1 c -> means ("update-info" :: rest) (Channel (CurrentChannel (cf_UpdateChannel c))) old
| MeansVersion rest : means ("version" :: rest) Versioned old.

Definition meant (args : list string) (s : files) (p : prog (result said)) : Prop :=
  safe (whole home (either old (means args)) old)
    (okay (fun a s' => settled s' /\ means args a (pair_of home s'))) p s.

Context (s0 : files) (Hs : settled s0) (Hp : pair_of home s0 = old).

Lemma start_whole args : whole home (either old (means args)) old s0.
Proof using Hs Hp. apply whole_settled; [done | left; exact Hp]. Qed.

Lemma meant_err args e : meant args s0 (Ret (Err e)).
Proof using Hs Hp. apply safe_err, start_whole. Qed.

Lemma meant_ret args a : means args a old -> meant args s0 (Ret (Ok a)).
Proof using Hs Hp. intros H. apply safe_ret; [apply start_whole | split; [exact Hs | by rewrite Hp]]. Qed.

(** What is printed changes nothing, whether it could be written or not. *)
Lemma write_leaves (P : files -> Prop) s : P s -> safe P (fun _ s' => s' = s) write_stdout s.
Proof. intros Hw. by apply safe_call. Qed.

Lemma meant_report args (report : said) s (checked : bool) :
  whole home (either old (means args)) old s -> settled s -> means args report (pair_of home s) ->
  meant args s (if checked then printResult report else printed report).
Proof.
  intros Hw Hset Hm. destruct checked.
  - eapply safe_then; [by apply safe_quiet |]. intros _ ? _ ->. by apply safe_ret.
  - eapply safe_bind; [by apply write_leaves |]. intros r s' Hw' ->. by apply safe_ret.
Qed.

Lemma meant_in args values body :
  (forall dir, NormalizeStateDir (flag_string values "state-dir" EmptyString) = Ok dir -> meant args s0 (body dir)) ->
  meant args s0 (in_directory NormalizeStateDir values body).
Proof using Hs Hp. intros H. unfold in_directory. destruct (NormalizeStateDir _) as [dir|e] eqn:E; [by apply H | apply meant_err]. Qed.

Lemma meant_parsed args flags rest body :
  (forall values, Parse flags rest ∅ = Ok values -> meant args s0 (body values)) -> meant args s0 (parsed flags rest body).
Proof using Hs Hp. intros H. unfold parsed. destruct (Parse _ _ _) as [values|e] eqn:E; [by apply H | apply meant_err]. Qed.

(** A mutation under the journal, and what is reported of its result. *)
Lemma meant_mutation {A : Type} args (operation : prog (result A)) new (report : A -> said) :
  contained home old operation new -> (forall a q, new a q -> means args (report a) q) ->
  meant args s0 (let! a := locked home (runStateTransaction home operation) in printResult (report a)).
Proof using Hs Hp.
  intros Hop Hm. rewrite <- Hp in Hop. pose proof (locked_transaction_safe home operation new s0 Hop Hs) as H. rewrite Hp in H.
  eapply safe_then.
  - eapply safe_mono; [exact H | | intros r s' _ Hr; exact Hr]. intros s'. apply whole_mono. intros q [->|[a Ha]]; [by left | right]. exists (report a). by apply Hm.
  - intros a s' Hw [Hs' Ha]. apply (meant_report args (report a) s' true); [exact Hw | exact Hs' | by apply Hm].
Qed.

Lemma meant_edit args mutate (report : said) :
  (forall q, edited decode_json marshal_indent old mutate q -> means args report q) ->
  meant args s0 (MutateConfig decode_json marshal_indent home mutate ;! printed report).
Proof using Hs Hp.
  intros Hm. pose proof (mutate_safe decode_json marshal_indent home mutate s0 Hs) as H. rewrite Hp in H. eapply safe_then.
  - eapply safe_mono; [exact H | | intros r s' _ Hr; exact Hr]. intros s'. apply whole_mono. intros q [->|[a Ha]]; [by left | right]. exists report. by apply Hm.
  - intros a s' Hw [Hs' Ha]. apply (meant_report args report s' false); [exact Hw | exact Hs' | by apply Hm].
Qed.

(** *** Commands that only look *)

Definition looked (args : list string) (p : prog (result said)) : Prop :=
  safe (fun s => s = s0) (okay (fun a _ => means args a old)) p s0.

Lemma looked_meant args p : looked args p -> meant args s0 p.
Proof using Hs Hp.
  intros H. eapply safe_mono; [exact H | intros s' ->; apply start_whole |]. intros [a|e] s' -> Ha; [| done].
  split; [exact Hs | by rewrite Hp].
Qed.

Lemma looked_ret args r : okay (fun a _ => means args a old) r s0 -> looked args (Ret r).
Proof. intros H. by apply safe_ret. Qed.

Lemma looked_report args (report : said) (checked : bool) :
  means args report old -> looked args (if checked then printResult report else printed report).
Proof.
  intros Hm. destruct checked.
  - eapply safe_then; [by apply safe_quiet |]. intros _ ? _ ->. by apply safe_ret.
  - eapply safe_bind; [by apply write_leaves |]. intros r s' -> _. by apply safe_ret.
Qed.

Lemma looked_in args values body :
  (forall dir, looked args (body dir)) -> looked args (in_directory NormalizeStateDir values body).
Proof. intros H. unfold in_directory. destruct (NormalizeStateDir _); [apply H | by apply looked_ret]. Qed.

Lemma looked_parsed args flags rest body : (forall values, looked args (body values)) -> looked args (parsed flags rest body).
Proof. intros H. unfold parsed. destruct (Parse _ _ _); [apply H | by apply looked_ret]. Qed.

Lemma looked_config args k :
  (forall c, says decode_json old.1 c -> looked args (k c)) -> looked args (let! c := LoadConfig decode_json home in k c).
Proof using Hs Hp.
  intros H. eapply safe_then with (Q := fun c _ => says decode_json old.1 c); [| intros c s1 -> Hc; by apply H].
  unfold LoadConfig. eapply safe_then; [apply readable_reads |]. intros ? s1 -> _.
  eapply safe_mono; [by apply (load_config_safe home decode_json (fun s => s = s0)) | done |]. intros [c|e] s2 _ Hc; [| done]. destruct Hc as [_ Hc].
  rewrite <- Hp. exact Hc.
Qed.

Lemma load_looks : safe (fun s => s = s0) (okay (fun state _ => holds old.2 state)) Load s0.
Proof using Hp.
  unfold Load. eapply safe_then; [apply readable_reads |]. intros ? s1 -> _.
  eapply safe_mono; [by apply (load_safe (fun s => s = s0)) | done |]. intros [state|e] s2 _ H; [| done]. destruct H as [_ H]. rewrite <- Hp. exact H.
Qed.

Lemma looked_state args k :
  (forall state, holds old.2 state -> looked args (k state)) -> looked args (let! state := Load in k state).
Proof using Hp. intros H. eapply safe_then; [apply load_looks |]. intros state s1 -> Hst. by apply H. Qed.

Lemma looked_identity args k :
  (forall key state, has_identity key state -> looked args (k key)) -> looked args (let! key := LoadIdentity PublicKey in k key).
Proof using Hp.
  intros H. eapply safe_then with (Q := fun key _ => exists state, has_identity key state); [| intros key s1 -> [state Hk]; by apply (H key state)].
  unfold LoadIdentity. eapply safe_then; [apply load_looks |]. intros state s1 -> Hst. apply safe_ret; [done |].
  destruct (String.eqb_spec (ss_Seed state) EmptyString) as [Es|Es]; [done |].
  destruct (identityFromSeed _ _) as [key|e] eqn:Ek; [| done]. exists state. split; [done |]. by split.
Qed.

Lemma looked_token args k :
  (forall state, holds old.2 state -> ss_SessionToken state <> EmptyString -> looked args (k (ss_SessionToken state))) ->
  looked args (let! token := LoadSessionToken in k token).
Proof using Hp.
  intros H. eapply safe_then with (Q := fun token _ => exists state, holds old.2 state /\ token = ss_SessionToken state /\ token <> EmptyString).
  - unfold LoadSessionToken. eapply safe_then; [apply load_looks |]. intros state s1 -> Hst. apply safe_ret; [done |].
    destruct (String.eqb_spec (ss_SessionToken state) EmptyString) as [Es|Es]; [done |]. by exists state.
  - intros token s1 -> (state & Hst & -> & Hne). by apply H.
Qed.

(** *** Each command *)

Lemma init_meant rest : meant ("init" :: rest) s0 (commandInit PublicKey decode_json marshal_indent home NormalizeStateDir entropy rest).
Proof using Hs Hp.
  apply meant_parsed. intros values Hv. apply meant_in. intros dir _.
  apply meant_mutation with (new := initialized PublicKey decode_json marshal_indent old entropy); [apply initialize_contained |].
  intros key q H. by eapply MeansInit.
Qed.

Lemma configure_meant rest : meant ("configure" :: rest) s0
  (commandConfigure url_Parse PublicKey decode_json marshal_indent home NormalizeStateDir stdin entropy rest).
Proof using Hs Hp.
  apply meant_parsed. intros values Hv. cbv beta. destruct (configure_token _ _ _) as [token|e] eqn:Et; [| by apply meant_err].
  apply meant_in. intros dir _.
  apply meant_mutation with (new := configured decode_json marshal_indent old url_Parse (requested_config values) token);
    [apply configure_contained |].
  intros c q H. eapply MeansConfigure; [done | done | by eapply configure_checked | done].
Qed.

Lemma rotate_meant rest : meant ("rotate" :: rest) s0 (commandRotate PublicKey home NormalizeStateDir stdin entropy rest).
Proof using Hs Hp.
  apply meant_parsed. intros values Hv. eapply (safe_then _ (fun _ s1 => s1 = s0)).
  { unfold ask_rotation. destruct (flag_bool values "force"); [apply safe_ret; [apply start_whole | done] |].
    eapply safe_bind; [apply write_leaves, start_whole |]. intros r s1 _ ->. apply safe_ret; [apply start_whole | done]. }
  intros ? s1 _ ->. destruct (rotation_confirmed _ _) as [[]|e] eqn:Ec; [| by apply meant_err].
  apply meant_in. intros dir _.
  apply meant_mutation with (new := rotated PublicKey old entropy); [apply rotate_contained |].
  intros key q H. eapply MeansRotate; [done | | done]. unfold rotation_confirmed in Ec.
  destruct (flag_bool values "force"); [by left | right]. apply rbind_Ok in Ec as (b & Hb & Ec). destruct b; [done | discriminate Ec].
Qed.

Lemma unpair_meant rest : meant ("unpair" :: rest) s0 (commandUnpair PublicKey decode_json marshal_indent home NormalizeStateDir entropy plan rest).
Proof using Hs Hp.
  unfold commandUnpair. destruct (Parse _ _ _) as [values|e] eqn:Ev.
  - apply meant_in. intros dir Hdir. cbv zeta. destruct (plan dir _) as [outcome|e|] eqn:Epl.
    + destruct outcome as [r|e]; [| by apply meant_err]. apply (meant_report _ _ _ true); [apply start_whole | exact Hs |]. rewrite Hp.
      eapply MeansUnpair; [done | done |]. by rewrite Epl.
    + by apply meant_err.
    + apply meant_mutation with (new := unpaired PublicKey decode_json marshal_indent entropy old (flag_bool values "reset-identity"));
        [apply unpair_contained |].
      intros r q H. eapply MeansUnpair; [done | done |]. by rewrite Epl.
  - destruct (errors_is _ _); [| by apply meant_err]. apply (meant_report _ _ _ false); [apply start_whole | exact Hs |].
    rewrite Hp. apply MeansHelp.
Qed.

Lemma add_meant rest : meant ("expose" :: "add" :: rest) s0 (expose_add decode_json marshal_indent home NormalizeStateDir rest).
Proof using Hs Hp.
  apply meant_parsed. intros values Hv. cbv zeta. destruct (check_exposed _) as [[]|e] eqn:Ec; [| by apply meant_err].
  apply meant_in. intros dir _. apply meant_edit.
  intros q H. eapply MeansAdd; [done | done | by apply exposed_wf | done].
Qed.

Lemma remove_meant rest : meant ("expose" :: "remove" :: rest) s0 (expose_remove decode_json marshal_indent home NormalizeStateDir rest).
Proof using Hs Hp.
  apply meant_parsed. intros values Hv. cbv zeta.
  apply meant_in. intros dir _. apply meant_edit. intros q H. by eapply MeansRemove.
Qed.

Lemma list_looked rest : looked ("expose" :: "list" :: rest) (expose_list decode_json home NormalizeStateDir rest).
Proof using Hs Hp.
  apply looked_parsed. intros values. apply looked_in. intros dir. apply looked_config. intros c Hc.
  apply looked_report. by apply MeansList.
Qed.

Lemma status_looked rest : looked ("status" :: rest) (commandStatus PublicKey decode_json home NormalizeStateDir rest).
Proof using Hs Hp.
  apply looked_parsed. intros values. apply looked_in. intros dir. apply looked_config. intros c Hc.
  apply looked_identity. intros key state Hk. apply looked_state. intros state' Hst.
  assert (state' = state) as -> by (eapply holds_fun; [exact Hst | apply Hk]). apply (looked_report _ _ true). by apply MeansStatus.
Qed.

Lemma doctor_looked rest : looked ("doctor" :: rest)
  (commandDoctor url_Parse PublicKey decode_json home NormalizeStateDir tlsConfigForAgent DialContext rest).
Proof using Hs Hp.
  apply looked_parsed. intros values. apply looked_in. intros dir. apply looked_config. intros c Hc.
  destruct (ValidateRuntime _ _) as [[]|] eqn:Ev; [| by apply looked_ret].
  apply looked_identity. intros key state Hk. apply looked_token. intros state' Hst Hne.
  assert (state' = state) as -> by (eapply holds_fun; [exact Hst | apply Hk]).
  destruct (tlsConfigForAgent c) as [[]|] eqn:Et; [| by apply looked_ret]. cbn [rbind].
  destruct (if flag_bool values "dial-local" then _ else _) as [[]|]; [| by apply looked_ret].
  apply (looked_report _ _ false). by eapply MeansPassed.
Qed.

Lemma run_looked rest : looked ("run" :: rest) (commandRun decode_json home NormalizeStateDir runner_Run rest).
Proof using Hs Hp.
  apply looked_parsed. intros values. apply looked_in. intros dir. apply looked_config. intros c Hc. apply looked_ret.
  destruct (ApplyLimits _ _) as [limits|] eqn:El; [| done]. cbn [rbind]. destruct (NormalizeStateDir dir); [| done]. cbn [rbind].
  destruct (valid limits) eqn:Ev; [| done]. cbn [negb reject_if rbind].
  destruct (runner_Run c limits) as [[]|] eqn:Er; [| done]. by apply MeansRunning.
Qed.

Lemma spec_looked rest : looked ("service-spec" :: rest) (commandServiceSpec NormalizeStateDir Executable rest).
Proof.
  apply looked_parsed. intros values. apply looked_in. intros dir. cbv zeta.
  destruct (if String.eqb _ _ then _ else _) as [bin|]; [| by apply looked_ret]. cbn [rbind].
  destruct (_ || _); [by apply looked_ret |]. apply (looked_report _ _ true), MeansSpec.
Qed.

Lemma update_looked rest : looked ("update-info" :: rest) (commandUpdateInfo decode_json home NormalizeStateDir rest).
Proof using Hs Hp.
  apply looked_parsed. intros values. apply looked_in. intros dir. apply looked_config. intros c Hc.
  apply (looked_report _ _ true). by apply MeansChannel.
Qed.

(** *** Any command *)

Lemma look_refused args e : looked args (Ret (Err e)).
Proof. by apply looked_ret. Qed.

Lemma command_meant args p : command args = Some p -> meant args s0 p /\ (observes args = true -> looked args p).
Proof using Hs Hp.
  assert (Hl : forall q, looked args q -> meant args s0 q /\ (observes args = true -> looked args q))
    by (intros q Hq; split; [by apply looked_meant | done]).
  assert (Hm : forall q, meant args s0 q -> observes args = false -> meant args s0 q /\ (observes args = true -> looked args q))
    by (intros q Hq Ho; split; [exact Hq | intros Ho'; congruence]).
  destruct args as [|word rest]; [intros H; discriminate H |]. unfold AgentCli.command.
  destruct (String.eqb_spec word "init") as [->|_]; [intros [= <-]; apply Hm; [apply init_meant | done] |].
  destruct (String.eqb_spec word "configure") as [->|_]; [intros [= <-]; apply Hm; [apply configure_meant | done] |].
  destruct (String.eqb_spec word "rotate") as [->|_]; [intros [= <-]; apply Hm; [apply rotate_meant | done] |].
  destruct (String.eqb_spec word "unpair") as [->|_]; [intros [= <-]; apply Hm; [apply unpair_meant | done] |].
  destruct (String.eqb_spec word "expose") as [->|_].
  { intros [= <-]. unfold commandExpose. destruct rest as [|sub rest]; [by apply Hl, look_refused |].
    destruct (String.eqb_spec sub "add") as [->|_]; [apply Hm; [apply add_meant | done] |].
    destruct (String.eqb_spec sub "remove") as [->|_]; [apply Hm; [apply remove_meant | done] |].
    destruct (String.eqb_spec sub "list") as [->|_]; [apply Hl, list_looked | apply Hl, look_refused]. }
  destruct (String.eqb_spec word "status") as [->|_]; [intros [= <-]; apply Hl, status_looked |].
  destruct (String.eqb_spec word "doctor") as [->|_]; [intros [= <-]; apply Hl, doctor_looked |].
  destruct (String.eqb_spec word "run") as [->|_]; [intros [= <-]; apply Hl, run_looked |].
  destruct (String.eqb_spec word "service-spec") as [->|_]; [intros [= <-]; apply Hl, spec_looked |].
  destruct (String.eqb_spec word "update-info") as [->|_]; [intros [= <-]; apply Hl, update_looked |].
  destruct (String.eqb_spec word "version") as [->|_]; [intros [= <-]; apply Hl, (looked_report _ _ false), MeansVersion | intros H; discriminate H].
Qed.

(** The exit code says which of the three happened. *)
Definition ended (args : list string) (x : Z * option said) (s : files) : Prop :=
  match x.2 with
  | Some report => x.1 = 0 /\ settled s /\ means args report (pair_of home s)
  | None => (x.1 = 2 /\ command args = None) \/ (x.1 = 1 /\ is_Some (command args))
  end.

Lemma main_meant args : safe (whole home (either old (means args)) old) (ended args) (Main args) s0.
Proof using Hs Hp.
  unfold AgentCli.Main. fold (command args). destruct (command args) as [p|] eqn:Ec.
  - eapply safe_bind; [apply (command_meant args p Ec) |]. intros [report|e] s1 Hw H; (apply safe_ret; [exact Hw |]).
    + split; [done | exact H].
    + right. split; [done | by eexists].
  - apply safe_ret; [apply start_whole | by left].
Qed.

End Old.

(** *** Commands that only look, whatever fails *)

Definition looks (R : Type) (o : op R) : bool :=
  match o with Lstat _ | ReadTrusted _ | ReadPointer | ReadNames _ | ReadAll _ | Quiet _ => true | _ => false end.

Ltac look := unfold write_stdout, LoadConfig, ensureStateReadable, loadConfigUnlocked, ConfigPath; uses_parts.

Lemma parsed_looks flags rest body : (forall values, uses looks (body values)) -> uses looks (parsed flags rest body).
Proof. intros H. unfold parsed. destruct (Parse _ _ _); [apply H | exact I]. Qed.

Lemma directory_looks values body : (forall dir, uses looks (body dir)) -> uses looks (in_directory NormalizeStateDir values body).
Proof. intros H. unfold in_directory. destruct (NormalizeStateDir _); [apply H | exact I]. Qed.

Lemma config_looks : uses looks (LoadConfig decode_json home).
Proof. look. Qed.

Lemma load_looking : uses looks Load.
Proof. unfold Load, ensureStateReadable, LoadForMutation, inspectPrivateDir. uses_parts. Qed.

Lemma main_looks args : observes args = true -> uses looks (Main args).
Proof.
  intros Ho. unfold AgentCli.Main. destruct (command args) as [p|] eqn:Ec; [| exact I]. apply uses_bind; [| intros []; exact I].
  pose proof config_looks as Hc. pose proof load_looking as Hl.
  assert (Hi : uses looks (LoadIdentity PublicKey)) by (unfold LoadIdentity; uses_parts).
  assert (Ht : uses looks LoadSessionToken) by (unfold LoadSessionToken; uses_parts).
  assert (Hr : forall r, uses looks (printResult r) /\ uses looks (printed r))
    by (intros r; unfold printResult, printed, write_stdout; split; uses_parts).
  destruct args as [|word rest]; [discriminate Ec |]. unfold AgentCli.command in Ec. cbn [observes] in Ho.
  destruct (String.eqb_spec word "init") as [->|_]; [discriminate Ho |].
  destruct (String.eqb_spec word "configure") as [->|_]; [discriminate Ho |].
  destruct (String.eqb_spec word "rotate") as [->|_]; [discriminate Ho |].
  destruct (String.eqb_spec word "unpair") as [->|_]; [discriminate Ho |].
  destruct (String.eqb_spec word "expose") as [->|_].
  { injection Ec as <-. unfold commandExpose. destruct rest as [|sub rest]; [exact I |].
    destruct (String.eqb_spec sub "add") as [->|_]; [discriminate Ho |].
    destruct (String.eqb_spec sub "remove") as [->|_]; [discriminate Ho |].
    destruct (String.eqb sub "list"); [| exact I]. apply parsed_looks. intros values. apply directory_looks. intros dir.
    apply uses_bind; [exact Hc |]. intros [c|e]; [| exact I]. destruct (flag_bool _ _); apply Hr. }
  repeat (match type of Ec with (if ?b then _ else _) = _ => destruct b end; [injection Ec as <-; unfold commandStatus, commandDoctor,
    commandRun, commandServiceSpec, commandUpdateInfo; try apply Hr; apply parsed_looks; intros values; apply directory_looks; intros dir |]);
    [| | | | | discriminate Ec].
  - apply uses_bind; [exact Hc |]. intros [c|e]; [| exact I]. apply uses_bind; [exact Hi |]. intros [k|e]; [| exact I].
    apply uses_bind; [exact Hl |]. intros [st|e]; [apply Hr | exact I].
  - apply uses_bind; [exact Hc |]. intros [c|e]; [| exact I]. destruct (ValidateRuntime _ _); [| exact I].
    apply uses_bind; [exact Hi |]. intros [k|e]; [| exact I]. apply uses_bind; [exact Ht |]. intros [t|e]; [| exact I].
    destruct (_ ;? _); [apply Hr | exact I].
  - apply uses_bind; [exact Hc |]. intros [c|e]; exact I.
  - destruct (rbind _ _); [apply Hr | exact I].
  - apply uses_bind; [exact Hc |]. intros [c|e]; [apply Hr | exact I].
Qed.

End Meaning.

Lemma looks_kept {A : Type} (p : prog A) events s : uses looks p -> (run events p s).1 = s.
Proof.
  intros Hu. pose proof (safe_run _ _ p events s (safe_uses (M := exec_file false) looks (fun s' => s' = s) p
    ltac:(intros R o ev s' Ho ->; by destruct o) s Hu eq_refl)) as H.
  destruct (run events p s) as [s' r]. exact (proj1 H).
Qed.


(** ** Runs *)

Definition demo_url (raw : string) : result URL := Ok (MkURL "wss" "gateway.example" false "/agent/v1/connect" EmptyString EmptyString).

Definition demo_main (decode_json : bytes -> result Config) (marshal_indent : Config -> result bytes) (DialContext : string -> string -> result unit)
    (stdin : string) (args : list string) (s : files) : files * option (Z * option said) :=
  run (demo_events 120)
    (Main demo_url id decode_json marshal_indent unix_home (fun dir => Ok dir) (bytes_of stdin, None) demo_entropy (fun _ _ => InProcess)
       (fun _ => Ok tt) DialContext (Ok "hooshix-agent") (fun _ _ => Ok tt) args) s.

Definition demo_refusing (network address : string) : result unit := Err (ErrMsg "connection refused").

Definition yes : string := string_of (bytes_of " Yes" ++ [Byte.x0a]).


(** A device with a UDP endpoint that answers. *)
Definition demo_udp : Config :=
  MkConfig ConfigVersion "wss://gateway.example/agent/v1/connect" [] EmptyString "device-1" "auth-1" "token-1" "stable"
    [MkEndpoint "dns" "127.0.0.1:5353" "udp"] None.

Definition demo_udp_network (network address : string) : result unit :=
  if String.eqb network "udp" && String.eqb address "127.0.0.1:5353" then Ok tt else Err (ErrMsg "connection refused").

(** The connectivity test of [doctor] dials it over TCP. *)
Lemma doctor_dials_udp_over_tcp :
  let doctor args := (demo_main (fun _ => Ok demo_udp) demo_indent demo_udp_network EmptyString ("doctor" :: args) demo_paired_home).2 in
  DialLocalUDPTarget demo_udp_network "127.0.0.1:5353" = Ok tt /\
  doctor [] = Some (0, Some (Passed demo_udp)) /\ doctor ["--dial-local"] = Some (1, None).
Proof. split; [vm_compute; reflexivity |]. split; vm_compute; reflexivity. Qed.

(** As many endpoints as there may be; one more is saved all the same, and the
    settings no longer run. *)
Definition full_config : Config :=
  MkConfig ConfigVersion "wss://gateway.example/agent/v1/connect" [] EmptyString "device-1" "auth-1" "token-1" "stable"
    ((fun i => MkEndpoint (string_of (bytes_of "e" ++ show_uint (Z.of_nat i))) "127.0.0.1:80" "tcp") <$> seq 0 64) None.

Definition one_more : Endpoint := MkEndpoint "one-more" "127.0.0.1:80" "tcp".

Lemma expose_add_unbounded :
  let '(s1, r) := demo_main (fun _ => Ok full_config) (fun c => Ok [zb (Z.of_nat (length (cf_Endpoints c)))]) demo_refusing EmptyString
    ["expose"; "add"; "--id"; "one-more"; "--target"; "127.0.0.1:80"] demo_paired_home in
  ValidateRuntime demo_url full_config = Ok tt /\ r = Some (0, Some (Exposed one_more)) /\
  s1 !! settings_path None = Some (File [zb 65; Byte.x0a]) /\
  ValidateRuntime demo_url (SetEndpoint full_config one_more) = Err (ErrMsg "endpoints exceed the bounded exposure list size").
Proof. vm_compute. split; [reflexivity |]. split; [reflexivity |]. split; reflexivity. Qed.

(** A token behind spaces is cut off at the limit of the line, and what is left
    of it passes for a token. *)
Lemma padded_token_is_cut :
  let token := repeat "t"%byte 512 in
  let line := repeat " "%byte 10 ++ token ++ [Byte.x0a] in
  TrimSpace line = token /\
  readSecretLine (line, None) = Ok (string_of (repeat "t"%byte 504)) /\ tokenPattern (string_of (repeat "t"%byte 504)) = true.
Proof. split; [vm_compute; reflexivity |]. split; vm_compute; reflexivity. Qed.
