(* ===== verification/ServiceLog.v ===== *)
(** * ServiceLog: the bounded log of the Windows service

    [rotatingFile] of [internal/agent/svc/svc.go]: the active log file and the
    previous one, as a machine for the programs of {!Program}; the writer's own
    state (whether its file is open, how much it believes is in it) is passed
    along.  A path that cannot be opened, a size that cannot be asked for, a
    rename that is refused and a write that stops half way are events.  One
    [Write] at a time, under the writer's mutex.  Other programs leave the two
    files' contents alone. *)

From S2P Require Import Prelude Program.

(** ** The files and the writer *)

Record logs := MkLogs { lg_active : option bytes; lg_backup : option bytes }.

Inductive op : Type -> Type :=
| OpenAppend : op (result unit)
| StatSize : op (result Z)                        (* of the open file *)
| Append (data : bytes) : op (nat * option error)
| CloseFile : op unit
| RemoveBackup : op unit
| RenameActive : op (result unit).

Record event := MkEvent { ev_fails : bool; ev_written : nat }.

Definition log_error {A : Type} : result A := Err (ErrMsg "log file unavailable").

Definition contents (f : option bytes) : bytes := default [] f.

#[export] Instance exec_log : Machine op event logs := fun R o ev s =>
  match o with
  | OpenAppend => if ev_fails ev then (log_error, s) else (Ok tt, MkLogs (Some (contents (lg_active s))) (lg_backup s))
  | StatSize => (if ev_fails ev then log_error else Ok (zlen (contents (lg_active s))), s)
  | Append data =>
    let n := if ev_fails ev then Nat.min (ev_written ev) (length data) else length data in
    ((n, if ev_fails ev then Some (ErrMsg "write failed") else None),
     MkLogs (Some (contents (lg_active s) ++ firstn n data)) (lg_backup s))
  | CloseFile => (tt, s)
  | RemoveBackup => (tt, if ev_fails ev then s else MkLogs (lg_active s) None)
  | RenameActive =>
    if ev_fails ev then (log_error, s)
    else match lg_active s with
         | None => (log_error, s)
         | Some data => (Ok tt, MkLogs None (Some data))
         end
  end.

Abbreviation prog := (Program.prog op).

Record rotatingFile := MkRotating { rf_maxBytes : Z; rf_open : bool; rf_written : Z }.

Definition agentLogMaxBytes : Z := 5 * 1024 * 1024.

(** ** Operations *)

Definition syncWrittenLocked (r : rotatingFile) : prog rotatingFile :=
  if negb (rf_open r) then Ret (MkRotating (rf_maxBytes r) (rf_open r) 0)
  else
    let* info := call StatSize in
    Ret (MkRotating (rf_maxBytes r) (rf_open r) (match info with Ok size => size | Err _ => 0 end)).

Definition openLocked (r : rotatingFile) : prog (rotatingFile * result unit) :=
  let* file := call OpenAppend in
  match file with
  | Err err => Ret (MkRotating (rf_maxBytes r) false (rf_written r), Err err)
  | Ok _ => let* r := syncWrittenLocked (MkRotating (rf_maxBytes r) true (rf_written r)) in Ret (r, Ok tt)
  end.

Definition newRotatingFile (maxBytes : Z) : prog (result rotatingFile) :=
  let* file := call OpenAppend in
  match file with
  | Err err => Ret (Err err)
  | Ok _ =>
    let* info := call StatSize in
    match info with
    | Err err => let* _ := call CloseFile in Ret (Err err)
    | Ok size => Ret (Ok (MkRotating maxBytes true size))
    end
  end.

(** The writer of [newServiceLoggerWithWriter], closed when it cannot be opened. *)
Definition newServiceLoggerWithWriter : prog rotatingFile :=
  let* r := newRotatingFile agentLogMaxBytes in
  Ret (match r with Ok r => r | Err _ => MkRotating agentLogMaxBytes false 0 end).

Definition rotateLocked (r : rotatingFile) : prog (rotatingFile * result unit) :=
  let* _ := (if rf_open r then call CloseFile else Ret tt) in
  let r := MkRotating (rf_maxBytes r) false (rf_written r) in
  let* _ := call RemoveBackup in
  let* renamed := call RenameActive in
  let* opened := openLocked r in
  Ret (opened.1, match renamed, opened.2 with
                 | Err err, Err openErr => Err (ErrWrap2 "rotate agent log" err openErr)
                 | Err err, Ok _ => Err err
                 | Ok _, Err err => Err (ErrWrap "rotate agent log succeeded but the new active file is unavailable" err)
                 | Ok _, Ok _ => Ok tt
                 end).

(** What [Write] tells its caller: how much was written, or an error. *)
Definition log_unavailable (err : error) : nat * option error := (0%nat, Some (ErrWrap "agent log unavailable" err)).

Definition append_log (r : rotatingFile) (p : bytes) : prog (rotatingFile * (nat * option error)) :=
  let* answer := call (Append p) in
  Ret (MkRotating (rf_maxBytes r) (rf_open r) (rf_written r + Z.of_nat answer.1), answer).

Definition Write (r : rotatingFile) (p : bytes) : prog (rotatingFile * (nat * option error)) :=
  let* opened := (if rf_open r then Ret (r, Ok tt) else openLocked r) in
  match opened with
  | (r, Err err) => Ret (r, log_unavailable err)
  | (r, Ok _) =>
    if rf_maxBytes r <? rf_written r + zlen p then
      let* rotated := rotateLocked r in
      let* r := (match rotated.2 with Err _ => syncWrittenLocked rotated.1 | Ok _ => Ret rotated.1 end) in
      let* opened := (if rf_open r then Ret (r, Ok tt) else openLocked r) in
      match opened with
      | (r, Err err) => Ret (r, log_unavailable err)
      | (r, Ok _) => append_log r p
      end
    else append_log r p
  end.

(** A service that logs [lines] one after the other: the writer, and how much
    of each line was written. *)
Fixpoint write_all (r : rotatingFile) (lines : list bytes) : prog (rotatingFile * list nat) :=
  match lines with
  | [] => Ret (r, [])
  | p :: rest =>
    let* answer := Write r p in
    let* more := write_all answer.1 rest in
    Ret (more.1, answer.2.1 :: more.2)
  end.

(** ** What is kept *)

(** What the two files hold, the older first. *)
Definition history (s : logs) : bytes := contents (lg_backup s) ++ contents (lg_active s).

(** Between [s] and [s'], [added] came in at the end and only the oldest part
    was lost. *)
Definition since (s s' : logs) (added : bytes) : Prop := exists lost, history s ++ added = lost ++ history s'.

Lemma since_refl s : since s s [].
Proof. exists []. by rewrite app_nil_r. Qed.

Lemma since_trans s1 s2 s3 a b : since s1 s2 a -> since s2 s3 b -> since s1 s3 (a ++ b).
Proof. intros [l1 H1] [l2 H2]. exists (l1 ++ l2). by rewrite (app_assoc (history s1)), H1, <- !app_assoc, H2. Qed.

Definition keeps (R : Type) (o : op R) : bool := match o with Append _ => false | _ => true end.

Lemma exec_keeps {R : Type} (o : op R) ev s0 s : keeps R o = true -> since s0 s [] -> since s0 (exec o ev s).2 [].
Proof.
  intros Ho Hs. change (@nil Byte.byte) with (@nil Byte.byte ++ []). eapply since_trans; [exact Hs |].
  destruct o; try discriminate Ho; cbn; try (destruct (ev_fails ev)); try apply since_refl; cbn.
  - exists []. by rewrite app_nil_r.
  - exists (contents (lg_backup s)). by rewrite app_nil_r.
  - destruct (lg_active s) as [data|] eqn:E; [| apply since_refl]. exists (contents (lg_backup s)). unfold history. rewrite E. cbn. by rewrite !app_nil_r.
Qed.

Lemma keeping {A : Type} (p : prog A) s : uses keeps p -> safe (fun _ => True) (fun _ s' => since s s' []) p s.
Proof.
  intros Hp. eapply safe_mono; [eapply (safe_uses keeps (fun s' => since s s' [])) | done | intros a s' H _; exact H].
  - intros R o ev s1 Ho. by apply exec_keeps.
  - exact Hp.
  - apply since_refl.
Qed.

Lemma sync_keeps r : uses keeps (syncWrittenLocked r).
Proof. unfold syncWrittenLocked. uses_parts. Qed.

Lemma open_keeps r : uses keeps (openLocked r).
Proof. unfold openLocked. repeat (uses_parts; try apply sync_keeps). Qed.

Lemma rotation_keeps r : uses keeps (rotateLocked r).
Proof. unfold rotateLocked. repeat (uses_parts; try apply open_keeps). Qed.

Lemma append_since r p s0 s : since s0 s [] ->
  safe (fun _ => True) (fun x s' => since s0 s' (firstn x.2.1 p)) (append_log r p) s.
Proof.
  intros Hs. unfold append_log. eapply (safe_bind _ (fun answer s' => since s0 s' (firstn answer.1 p))).
  - apply safe_call; [done |]. intros ev. split; [done |]. change (firstn _ p) with (@nil Byte.byte ++ firstn (exec (Append p) ev s).1.1 p).
    eapply since_trans; [exact Hs |]. exists []. unfold history. cbn. by rewrite <- app_assoc.
  - intros answer s' _ H. by apply safe_ret.
Qed.

Lemma write_since r p s : safe (fun _ => True) (fun x s' => since s s' (firstn x.2.1 p)) (Write r p) s.
Proof.
  assert (Hopen : forall r, uses keeps (if rf_open r then Ret (r, Ok tt) else openLocked r)) by (intros r'; destruct (rf_open r'); [done | apply open_keeps]).
  unfold Write. eapply safe_bind; [apply keeping, Hopen |]. intros [r1 [u|e]] s1 _ H1; [| by apply safe_ret].
  destruct (_ <? _); [| by apply append_since].
  eapply safe_bind; [apply keeping, rotation_keeps |]. intros rotated s2 _ H2.
  eapply safe_bind; [apply keeping; destruct rotated.2; [done | apply sync_keeps] |]. intros r3 s3 _ H3.
  eapply safe_bind; [apply keeping, Hopen |]. intros [r4 [u4|e4]] s4 _ H4.
  all: pose proof (since_trans _ _ _ _ _ (since_trans _ _ _ _ _ (since_trans _ _ _ _ _ H1 H2) H3) H4) as H; cbn [app] in H.
  - by apply append_since.
  - by apply safe_ret.
Qed.

(** The lines as far as they were written. *)
Fixpoint written (lines : list bytes) (ns : list nat) : bytes :=
  match lines, ns with p :: lines, n :: ns => firstn n p ++ written lines ns | _, _ => [] end.

(** Whatever fails, what has been written is in the two files, in order, up to
    a part at the beginning. *)
Lemma log_keeps_recent : forall lines r s,
  safe (fun _ => True) (fun x s' => length x.2 = length lines /\ since s s' (written lines x.2)) (write_all r lines) s.
Proof.
  induction lines as [|p lines IH]; intros r s; cbn [write_all].
  - apply safe_ret; [done |]. split; [done | apply since_refl].
  - eapply safe_bind; [apply write_since |]. intros answer s1 _ H1. eapply safe_bind; [apply IH |]. intros more s2 _ [Hn H2].
    apply safe_ret; [done |]. split; [cbn; by rewrite Hn |]. exact (since_trans _ _ _ _ _ H1 H2).
Qed.

(** ** How large it gets *)

(** [ok] holds of every operation that a run comes to. *)
Fixpoint along {A : Type} (ok : forall R, op R -> event -> bool) (events : list event) (p : prog A) (s : logs) : Prop :=
  match p with
  | Ret _ => True
  | @Do _ _ R o k =>
    match events with
    | [] => True
    | ev :: rest => ok R o ev = true /\ along ok rest (k (exec o ev s).1) (exec o ev s).2
    end
  end.

(** Sizes can be asked for, and the active file can be renamed. *)
Definition granted (R : Type) (o : op R) (ev : event) : bool :=
  match o with StatSize | RenameActive => negb (ev_fails ev) | _ => true end.

(** The machine on which they never fail. *)
Definition forgiving : Machine op event logs := fun R o ev s =>
  exec o (match o with StatSize | RenameActive => MkEvent false (ev_written ev) | _ => ev end) s.

Lemma along_forgiving {A : Type} (p : prog A) : forall events s,
  along granted events p s -> run events p s = run (M := forgiving) events p s.
Proof.
  induction p as [a|R o k IH]; intros events s H; [done |]. destruct events as [|ev rest]; [done |]. destruct H as [Ho H].
  assert (E : exec o ev s = exec (Machine := forgiving) o ev s).
  { unfold exec at 2, forgiving. destruct o; try reflexivity; destruct ev as [[] n]; try discriminate Ho; reflexivity. }
  cbn [run]. rewrite <- E. destruct (exec o ev s) as [r s1] eqn:Er. cbn [fst snd] in H. by apply IH.
Qed.

Section Bounded.
Context (B : Z).
Abbreviation sure := (safe (M := forgiving) (fun _ => True)).

(** The writer knows how much is in its file, and neither file is larger than
    [B]. *)
Record fits (r : rotatingFile) (s : logs) : Prop := Fits {
  ft_max : rf_maxBytes r <= B;
  ft_active : zlen (contents (lg_active s)) <= B;
  ft_backup : zlen (contents (lg_backup s)) <= B;
  ft_open : rf_open r = true -> is_Some (lg_active s) /\ rf_written r = zlen (contents (lg_active s));
}.

Lemma fits_closed r s : fits r s -> fits (MkRotating (rf_maxBytes r) false (rf_written r)) s.
Proof. intros [H1 H2 H3 _]. by split. Qed.

Lemma open_fits r s : fits r s ->
  sure (fun x s' => fits x.1 s' /\ rf_maxBytes x.1 = rf_maxBytes r /\ (is_ok x.2 = true -> rf_open x.1 = true) /\
    contents (lg_active s') = contents (lg_active s)) (openLocked r) s.
Proof.
  intros Hf. split; [exact I |]. intros [[] n]; cbn.
  - split; [exact I |]. split; [by apply fits_closed | by split_and!].
  - split; [exact I |]. intros ev. cbn. split; [exact I |]. destruct Hf. split; [by split |]. by split_and!.
Qed.

Lemma sync_fits r s : fits r s ->
  sure (fun r' s' => fits r' s' /\ rf_maxBytes r' = rf_maxBytes r /\ rf_open r' = rf_open r /\ s' = s) (syncWrittenLocked r) s.
Proof.
  intros [H1 H2 H3 H4]. unfold syncWrittenLocked. destruct (rf_open r) eqn:Eo; cbn [negb].
  - split; [exact I |]. intros ev. cbn. split; [exact I |]. split_and!; [| done..]. split; [done | done | done |]. intros _. by split; [apply H4 |].
  - apply safe_ret; [exact I |]. split_and!; [| done..]. by split.
Qed.

Lemma rotate_fits r s : 0 <= B -> fits r s -> rf_open r = true ->
  sure (fun x s' => fits x.1 s' /\ rf_maxBytes x.1 = rf_maxBytes r /\ zlen (contents (lg_active s')) = 0) (rotateLocked r) s.
Proof.
  intros HB [H1 H2 H3 H4] Ho. destruct (H4 Ho) as [[data Hd] Hw]. unfold rotateLocked. rewrite Ho.
  split; [exact I |]. intros ev0. cbn -[openLocked]. split; [exact I |]. intros ev1. cbn -[openLocked]. split; [exact I |]. intros ev2. cbn -[openLocked].
  assert (E : lg_active (if ev_fails ev1 then s else MkLogs (lg_active s) None) = Some data) by (by destruct (ev_fails ev1)).
  rewrite E. cbn -[openLocked].
  eapply (safe_bind (M := forgiving)); [apply open_fits; split; [done | exact HB | by rewrite Hd in H2 | done] |].
  intros x s' _ (Hf & Hm & _ & Hc). apply safe_ret; [exact I |]. cbn [fst]. split_and!; [done | done | by rewrite Hc].
Qed.

Lemma append_fits r p s : fits r s -> rf_open r = true -> zlen (contents (lg_active s)) + zlen p <= B ->
  sure (fun x s' => fits x.1 s' /\ rf_maxBytes x.1 = rf_maxBytes r) (append_log r p) s.
Proof.
  intros [H1 H2 H3 H4] Ho Hl. destruct (H4 Ho) as [_ Hw]. unfold append_log. split; [exact I |]. intros ev. cbn. split; [exact I |].
  split; [| done]. set (n := if ev_fails ev then _ else _).
  assert (Hn : zlen (firstn n p) = Z.of_nat n /\ Z.of_nat n <= zlen p).
  { unfold zlen. rewrite length_firstn. subst n. destruct (ev_fails ev); lia. }
  split; cbn; [done | rewrite zlen_app; lia | done |]. intros _. split; [by eexists |]. rewrite zlen_app. lia.
Qed.

Lemma write_fits r p s : 0 <= B -> zlen p <= B -> fits r s ->
  sure (fun x s' => fits x.1 s' /\ rf_maxBytes x.1 = rf_maxBytes r) (Write r p) s.
Proof.
  intros HB Hp Hf.
  assert (Hopen : forall r s, fits r s -> sure (fun x s' => fits x.1 s' /\ rf_maxBytes x.1 = rf_maxBytes r /\
    (is_ok x.2 = true -> rf_open x.1 = true) /\ contents (lg_active s') = contents (lg_active s))
    (if rf_open r then Ret (r, Ok tt) else openLocked r) s).
  { intros r' s' H. destruct (rf_open r') eqn:E; [apply safe_ret; [exact I | by split_and!] | by apply open_fits]. }
  unfold Write. eapply (safe_bind (M := forgiving)); [by apply Hopen |]. intros [r1 [u|e]] s1 _ (H1 & Hm1 & Ho1 & _); cbn [fst snd] in *;
    [| by apply safe_ret].
  specialize (Ho1 eq_refl). destruct (_ <? _) eqn:El.
  - eapply (safe_bind (M := forgiving)); [by apply rotate_fits |]. intros [r2 rot] s2 _ (H2 & Hm2 & Hz); cbn [fst snd] in *.
    eapply (safe_bind (M := forgiving) _ (fun r' s' => fits r' s' /\ rf_maxBytes r' = rf_maxBytes r /\ s' = s2)).
    { destruct rot; [apply safe_ret; [exact I |]; split_and!; [done | congruence | done] |].
      eapply safe_mono; [by apply sync_fits | done |]. intros r' s' _ (Ha & Hb & _ & Hc). split_and!; [done | congruence | done]. }
    intros r3 s3 _ (H3 & Hm3 & ->). eapply (safe_bind (M := forgiving)); [by apply Hopen |].
    intros [r4 [u4|e4]] s4 _ (H4 & Hm4 & Ho4 & Hc4); cbn [fst snd] in *; [| apply safe_ret; [exact I |]; cbn [fst]; split; [done | congruence]].
    eapply safe_mono; [apply append_fits; [done | by apply Ho4 | rewrite Hc4; lia] | done |]. intros x s' _ [Ha Hb]. split; [done | congruence].
  - apply Z.ltb_ge in El. destruct (ft_open _ _ H1 Ho1) as [_ Hw]. destruct H1 as [Hx1 Hx2 Hx3 Hx4].
    eapply safe_mono; [apply append_fits; [by split | done | lia] | done |]. intros x s' _ [Ha Hb]. split; [done | congruence].
Qed.

Lemma write_all_fits : forall lines r s, 0 <= B -> Forall (fun p => zlen p <= B) lines -> fits r s ->
  sure (fun x s' => fits x.1 s') (write_all r lines) s.
Proof.
  induction lines as [|p lines IH]; intros r s HB Hl Hf; cbn [write_all]; [by apply safe_ret |].
  inversion Hl as [|? ? Hp Hr]; subst. eapply (safe_bind (M := forgiving)); [by apply write_fits |]. intros answer s1 _ [H1 _].
  eapply (safe_bind (M := forgiving)); [by apply IH |]. intros more s2 _ H2. by apply safe_ret.
Qed.
End Bounded.

(** [newServiceLogger], and the lines it is given. *)
Definition service_log (lines : list bytes) : prog (rotatingFile * list nat) :=
  let* r := newServiceLoggerWithWriter in write_all r lines.

Lemma new_keeps : uses keeps newServiceLoggerWithWriter.
Proof. unfold newServiceLoggerWithWriter, newRotatingFile. uses_parts. Qed.

Lemma new_fits B s : agentLogMaxBytes <= B -> zlen (contents (lg_active s)) <= B -> zlen (contents (lg_backup s)) <= B ->
  safe (M := forgiving) (fun _ => True) (fun r s' => fits B r s') newServiceLoggerWithWriter s.
Proof.
  intros HB Ha Hb. split; [exact I |]. intros [[] n]; cbn; (split; [exact I |]); [by split |]. intros ev. cbn. split; [exact I |].
  split; [done | done | done |]. intros _. by split.
Qed.

(** The log of the service keeps what is newest and stays within its bound. Whatever fails, the active file and the previous one together are the end of everything that was in them at the start and of what the writes say they have written, in order. As long as the size of the open file can be asked for and the active file can be renamed, neither file ever grows past the larger of 5 MiB, what it held at the start and the longest line. *)
Theorem service_log_bounded B lines events s s' x :
  agentLogMaxBytes <= B -> zlen (contents (lg_active s)) <= B -> zlen (contents (lg_backup s)) <= B ->
  Forall (fun p => zlen p <= B) lines ->
  run events (service_log lines) s = (s', Some x) ->
  (exists lost, history s ++ written lines x.2 = lost ++ history s') /\
  (along granted events (service_log lines) s -> zlen (contents (lg_active s')) <= B /\ zlen (contents (lg_backup s')) <= B).
Proof.
  intros HB Ha Hb Hl Hr. split.
  - assert (H : safe (fun _ => True) (fun x s' => since s s' (written lines x.2)) (service_log lines) s).
    { unfold service_log. eapply safe_bind; [apply keeping, new_keeps |]. intros r s1 _ H1.
      eapply safe_mono; [apply log_keeps_recent | done |]. intros y s2 _ [_ H2]. exact (since_trans _ _ _ _ _ H1 H2). }
    pose proof (safe_run _ _ _ events s H) as Hs. rewrite Hr in Hs. exact (proj2 Hs _ eq_refl).
  - intros Hg. rewrite (along_forgiving _ _ _ Hg) in Hr.
    assert (H : safe (M := forgiving) (fun _ => True) (fun x s' => fits B x.1 s') (service_log lines) s).
    { unfold service_log. eapply (safe_bind (M := forgiving)); [by apply new_fits |]. intros r s1 _ H1.
      apply write_all_fits; [unfold agentLogMaxBytes in HB; lia | exact Hl | exact H1]. }
    pose proof (safe_run (M := forgiving) _ _ _ events s H) as Hs. rewrite Hr in Hs. destruct Hs as [_ Hs].
    destruct (Hs _ eq_refl) as [_ H1 H2 _]. by split.
Qed.

(** ** Runs *)

Definition quiet : event := MkEvent false 0.

Lemma service_log_bounded_witness :
  let lines := [repeat "a"%byte 3; repeat "b"%byte 4] in
  let '(s', r) := run (repeat quiet 9) (service_log lines) (MkLogs None None) in
  exists lost, repeat "a"%byte 3 ++ repeat "b"%byte 4 = lost ++ history s' /\ zlen (contents (lg_active s')) <= agentLogMaxBytes.
Proof.
  cbv zeta. destruct (run _ _ _) as [s' r] eqn:E.
  assert (Er : r = Some (MkRotating agentLogMaxBytes true 7, [3%nat; 4%nat])) by (apply (f_equal snd) in E; vm_compute in E; exact (eq_sym E)).
  subst r.
  pose proof (service_log_bounded agentLogMaxBytes [repeat "a"%byte 3; repeat "b"%byte 4] (repeat quiet 9) (MkLogs None None) s' _
    (Z.le_refl _) ltac:(vm_compute; discriminate) ltac:(vm_compute; discriminate)
    ltac:(repeat (constructor; [vm_compute; discriminate |]); constructor) E) as [[lost H] Hb].
  exists lost. split; [exact H |]. apply Hb. vm_compute. by repeat split.
Defined.

(** A size that cannot be asked for counts as nothing: the writer believes its
    file empty. *)
Lemma failed_stat_forgets r s n : rf_open r = true ->
  (run [MkEvent true n] (syncWrittenLocked r) s).2 = Some (MkRotating (rf_maxBytes r) true 0).
Proof. intros Ho. unfold syncWrittenLocked. rewrite Ho. cbn. reflexivity. Qed.
