(* ===== verification/WinService.v ===== *)
(** * WinService: the Agent as a Windows service

    [internal/agent/svc/svc.go] and the [service] commands of
    [cmd/agent/main.go]: registering, removing, starting, stopping and
    restarting the service, and the loop that answers the service manager.  The
    manager is not modelled: every call to it is an operation that answers as
    the environment decides, and the state is the record of the calls and their
    answers. *)

From S2P Require Import Prelude Program.

(** ** The service manager *)

Inductive scm_call :=
| Connect | OpenService | QueryService | ControlStop | DeleteService | CreateService (path : string)
| RecoveryPolicy | GrantStartStop | StartService.

Definition ERROR_SERVICE_DOES_NOT_EXIST : error := ErrSentinel "The specified service does not exist as an installed service.".
Definition ERROR_SERVICE_ALREADY_RUNNING : error := ErrSentinel "An instance of the service is already running.".
Definition ERROR_SERVICE_NOT_ACTIVE : error := ErrSentinel "The service has not been started.".
Definition ERROR_SERVICE_CANNOT_ACCEPT_CTRL : error := ErrSentinel "The service cannot accept control messages at this time.".
Definition ERROR_SERVICE_MARKED_FOR_DELETE : error := ErrSentinel "The specified service has been marked for deletion.".

(** A call answers with a number, the current state of the service for a query. *)
Inductive op : Type -> Type :=
| Ask (c : scm_call) : op (result Z)
| Late : op bool.                                 (* the deadline of a wait has passed *)

Record event := MkEvent { ev_answer : result Z; ev_late : bool }.

Abbreviation calls := (list (scm_call * result Z)).

#[export] Instance exec_scm : Machine op event calls := fun R o ev s =>
  match o with
  | Ask c => (ev_answer ev, s ++ [(c, ev_answer ev)])
  | Late => (ev_late ev, s)
  end.

Abbreviation prog := (Program.prog op).

Definition SvcStopped : Z := 1.

Definition state_name (current : Z) : string :=
  match current with
  | 1 => "stopped" | 2 => "start-pending" | 3 => "stop-pending" | 4 => "running" | 5 => "continue-pending"
  | 6 => "pause-pending" | 7 => "paused" | _ => "unknown"
  end.

Definition state_names : list string :=
  ["stopped"; "start-pending"; "stop-pending"; "running"; "continue-pending"; "pause-pending"; "paused"; "unknown"].

Lemma state_name_known n : In (state_name n) state_names.
Proof.
  destruct n as [|p|p]; [cbn; tauto | | cbn; tauto]. do 3 (destruct p as [p|p|]; [| | cbn; tauto]); cbn; tauto.
Qed.

(** ** Waiting *)

(** [waitStopped]: every 300 ms for 30 s. *)
Fixpoint wait_stopped (more : nat) : prog unit :=
  let* late := call Late in
  match late, more with
  | true, _ | _, O => Ret tt
  | false, S n =>
    let* status := call (Ask QueryService) in
    match status with
    | Err _ => Ret tt
    | Ok state => if state =? SvcStopped then Ret tt else wait_stopped n
    end
  end.

Definition waitStopped : prog unit := wait_stopped 100.

Definition serviceRemoved (err : option error) : bool :=
  match err with Some err => errors_is err ERROR_SERVICE_DOES_NOT_EXIST | None => false end.

(** [awaitRemoved]: every 200 ms for 10 s. *)
Fixpoint await_removed (more : nat) : prog (result unit) :=
  let* r := call (Ask OpenService) in
  match r with
  | Err err =>
    if serviceRemoved (Some err) then Ret (Ok tt)
    else
      let* late := call Late in
      match late, more with
      | false, S n => await_removed n
      | _, _ => Ret (Err (ErrWrap "still being removed by SCM" err))
      end
  | Ok _ =>
    let* late := call Late in
    match late, more with
    | false, S n => await_removed n
    | _, _ => Ret (Err (ErrMsg "still registered while being replaced"))
    end
  end.

Definition awaitRemoved : prog (result unit) := await_removed 50.

(** ** Operations *)

Definition asked (c : scm_call) : prog (result unit) := let! _ := call (Ask c) in Ret (Ok tt).

(** Asks an open service that is not stopped to stop, and waits for it. *)
Definition stop_and_wait : prog unit :=
  let* status := call (Ask QueryService) in
  match status with
  | Ok state => if negb (state =? SvcStopped) then let* _ := call (Ask ControlStop) in waitStopped else Ret tt
  | Err _ => Ret tt
  end.

Definition replace_existing : prog (result unit) :=
  let* existing := call (Ask OpenService) in
  match existing with
  | Err _ => Ret (Ok tt)
  | Ok _ =>
    let* _ := stop_and_wait in
    wrapped "replace existing service: delete" (asked DeleteService) ;!
    wrapped "replace existing service" awaitRemoved
  end.

Definition Install (execPath : string) : prog (result unit) :=
  wrapped "connect service manager" (asked Connect) ;!
  replace_existing ;!
  wrapped "create service" (asked (CreateService execPath)) ;!
  wrapped "configure recovery" (asked RecoveryPolicy) ;!
  wrapped "grant start/stop rights" (asked GrantStartStop).

Definition Uninstall : prog (result unit) :=
  wrapped "connect service manager" (asked Connect) ;!
  let* r := call (Ask OpenService) in
  match r with
  | Err err => Ret (if errors_is err ERROR_SERVICE_DOES_NOT_EXIST then Ok tt else Err (ErrWrap "open service" err))
  | Ok _ => let* _ := stop_and_wait in asked DeleteService
  end.

(** [withServiceHandle]. *)
Definition withServiceHandle {A : Type} (fn : prog (result A)) : prog (result A) :=
  wrapped "connect service manager" (asked Connect) ;!
  wrapped "open service" (asked OpenService) ;!
  fn.

Definition Start : prog (result unit) :=
  let* r := withServiceHandle (asked StartService) in
  Ret (match r with
       | Err err => if errors_is err ERROR_SERVICE_ALREADY_RUNNING then Ok tt else Err err
       | Ok _ => Ok tt
       end).

Definition Stop : prog (result unit) := withServiceHandle (asked ControlStop).

Definition QueryStatus : prog (result string) :=
  let! state := wrapped "query service" (withServiceHandle (call (Ask QueryService))) in Ret (Ok (state_name state)).

(** [waitForServiceState]: every 200 ms for [restartStopTimeout], 30 s. *)
Fixpoint wait_for_state (more : nat) (want : string) : prog (result unit) :=
  let! state := QueryStatus in
  if String.eqb state want then Ret (Ok tt)
  else
    let* late := call Late in
    match late, more with
    | false, S n => wait_for_state n want
    | _, _ => Ret (Err (ErrMsg "service did not reach the state"))
    end.

Definition Restart : prog (result unit) :=
  let! state := QueryStatus in
  (if String.eqb state "stopped" then Ret (Ok tt)
   else
     let* stopped := Stop in
     match stopped with
     | Err err =>
       if errors_is err ERROR_SERVICE_NOT_ACTIVE || errors_is err ERROR_SERVICE_CANNOT_ACCEPT_CTRL
       then wait_for_state 150 "stopped" else Ret (Err (ErrWrap "stop service" err))
     | Ok _ => wait_for_state 150 "stopped"
     end) ;!
  wrapped "start service" Start.

(** ** The control loop *)

(** What the loop may see: a request, the end of the channel, the end of the
    agent. *)
Inductive control := Interrogate (current : Z) | StopRequest | ShutdownRequest | OtherRequest | ChannelClosed | AgentDone.

Definition SvcStopPending : Z := 3.

(** The states reported to the manager, whether the agent was cancelled, and the
    exit code. *)
Fixpoint controlLoop (events : list control) : list Z * bool * option Z :=
  match events with
  | [] => ([], false, None)
  | Interrogate current :: rest => let '(states, cancelled, code) := controlLoop rest in (current :: states, cancelled, code)
  | StopRequest :: rest | ShutdownRequest :: rest =>
    ([SvcStopPending], true, if existsb (fun e => match e with AgentDone => true | _ => false end) rest then Some 0 else None)
  | OtherRequest :: rest => controlLoop rest
  | ChannelClosed :: _ => ([], false, Some 0)
  | AgentDone :: _ => ([], false, Some 1)
  end.

(** [Execute], with whether the agent could be started. *)
Definition Execute (started : bool) (events : list control) : list Z * bool * option Z :=
  if negb started then ([2], true, Some 1)
  else let '(states, cancelled, code) := controlLoop events in (2 :: 4 :: states, cancelled, code).

(** [flagValue] of [cmd/agent/main.go]. *)
Fixpoint flagValue (args : list string) (name : string) : string :=
  match args with
  | arg :: ((value :: _) as rest) => if String.eqb arg name then value else flagValue rest name
  | _ => EmptyString
  end.

(** [serviceMain]: the text printed and the exit code. *)
Definition exit_code {A : Type} (r : result A) : Z := if is_ok r then 0 else 1.

Definition status_output (state : string) : string := "service status: " +:+ state +:+ string_of [Byte.x0a].

Definition serviceMain (Executable : result string) (hosted : string -> result unit) (args : list string) : prog (string * Z) :=
  match args with
  | [] => Ret (EmptyString, 2)
  | sub :: rest =>
    if String.eqb sub "install" then
      let binary := flagValue rest "-binary" in
      let binary := if String.eqb binary EmptyString then match Executable with Ok e => e | Err _ => binary end else binary in
      let* r := Install binary in Ret (EmptyString, exit_code r)
    else if String.eqb sub "uninstall" then let* r := Uninstall in Ret (EmptyString, exit_code r)
    else if String.eqb sub "start" then let* r := Start in Ret (EmptyString, exit_code r)
    else if String.eqb sub "stop" then let* r := Stop in Ret (EmptyString, exit_code r)
    else if String.eqb sub "status" then
      let* r := QueryStatus in
      Ret (match r with Ok state => (status_output state, 0) | Err _ => (EmptyString, 1) end)
    else if String.eqb sub "run-service" || String.eqb sub "pairing-ui" then
      Ret (EmptyString, exit_code (hosted (flagValue rest "-state-dir")))
    else Ret (EmptyString, 1)
  end.

(** ** What the calls were *)

(** The calls that [p] adds to those before, and what it returns. *)
Definition traces {A : Type} (Q : A -> calls -> Prop) (p : prog A) : Prop :=
  forall s, safe (fun _ => True) (fun a s' => exists t, s' = s ++ t /\ Q a t) p s.

Lemma traces_ret {A : Type} (Q : A -> calls -> Prop) a : Q a [] -> traces Q (Ret a).
Proof. intros H s. apply safe_ret; [done |]. exists []. by rewrite app_nil_r. Qed.

Lemma traces_late (Q : bool -> calls -> Prop) : (forall b, Q b []) -> traces Q (call Late).
Proof. intros H s. apply safe_call; [done |]. intros ev. split; [done |]. exists []. by rewrite app_nil_r. Qed.

Lemma traces_ask (Q : result Z -> calls -> Prop) c : (forall r, Q r [(c, r)]) -> traces Q (call (Ask c)).
Proof. intros H s. apply safe_call; [done |]. intros ev. split; [done |]. by eexists. Qed.

Lemma traces_bind {A B : Type} (Q : A -> calls -> Prop) (R : B -> calls -> Prop) p k :
  traces Q p -> (forall a t, Q a t -> traces (fun b t' => R b (t ++ t')) (k a)) -> traces R (bind p k).
Proof.
  intros Hp Hk s. eapply safe_bind; [apply Hp |]. intros a s1 _ (t & -> & Ht).
  eapply safe_mono; [apply (Hk a t Ht) | done |]. intros b s2 _ (t' & -> & Hb). exists (t ++ t'). by rewrite app_assoc.
Qed.

Lemma traces_mono {A : Type} (Q R : A -> calls -> Prop) p : traces Q p -> (forall a t, Q a t -> R a t) -> traces R p.
Proof. intros Hp H s. eapply safe_mono; [apply Hp | done |]. intros a s' _ (t & -> & Ht). exists t. auto. Qed.

(** When it reports success. *)
Definition on_ok {A : Type} (Q : A -> calls -> Prop) (r : result A) (t : calls) : Prop := forall a, r = Ok a -> Q a t.

Lemma traces_err {A : Type} (Q : A -> calls -> Prop) e : traces (on_ok Q) (Ret (Err e)).
Proof. apply traces_ret. by intros a [=]. Qed.

Lemma traces_then {A B : Type} (Q : A -> calls -> Prop) (R : B -> calls -> Prop) p k :
  traces (on_ok Q) p -> (forall a t, Q a t -> traces (on_ok (fun b t' => R b (t ++ t'))) (k a)) -> traces (on_ok R) (andthen p k).
Proof.
  intros Hp Hk. eapply traces_bind; [exact Hp |]. intros [a|e] t Ht; [exact (Hk a t (Ht a eq_refl)) |].
  apply traces_ret. by intros b [=].
Qed.

Lemma traces_wrapped {A : Type} (Q : A -> calls -> Prop) text p : traces (on_ok Q) p -> traces (on_ok Q) (wrapped text p).
Proof.
  intros Hp. eapply traces_bind; [exact Hp |]. intros [a|e] t Ht; apply traces_ret.
  - intros b [= <-]. rewrite app_nil_r. by apply Ht.
  - by intros b [=].
Qed.

Lemma traces_asked c : traces (on_ok (fun _ t => exists n, t = [(c, Ok n)])) (asked c).
Proof.
  eapply traces_then with (Q := fun n t => t = [(c, Ok n)]); [apply traces_ask; by intros r n -> |]. intros n t ->.
  apply traces_ret. intros u _. exists n. by rewrite app_nil_r.
Qed.

(** Only questions, and perhaps a request to stop. *)
Definition no_change (t : calls) : Prop := Forall (fun x => x.1 = QueryService \/ x.1 = ControlStop) t.

Lemma no_change_app a b : no_change a -> no_change b -> no_change (a ++ b).
Proof. apply Forall_app_2. Qed.

Lemma wait_no_change more : traces (fun _ => no_change) (wait_stopped more).
Proof.
  induction more as [|n IH]; cbn [wait_stopped]; (eapply traces_bind; [apply (traces_late (fun _ t => t = [])); done |]); intros late t ->; destruct late;
    try (apply traces_ret; exact (Forall_nil_2 _)).
  eapply traces_bind with (Q := fun _ t => no_change t); [apply traces_ask; intros r; by repeat constructor |]. intros status t Ht.
  assert (He : no_change (t ++ [])) by (by rewrite app_nil_r).
  destruct status as [state|e]; [| apply traces_ret; exact He]. destruct (state =? SvcStopped); [apply traces_ret; exact He |].
  eapply traces_mono; [exact IH |]. intros u t' Ht'. exact (no_change_app _ _ Ht Ht').
Qed.

Lemma stop_no_change : traces (fun _ => no_change) stop_and_wait.
Proof.
  unfold stop_and_wait. eapply traces_bind with (Q := fun _ t => no_change t); [apply traces_ask; intros r; by repeat constructor |].
  intros status t Ht. assert (He : no_change (t ++ [])) by (by rewrite app_nil_r).
  destruct status as [state|e]; [| apply traces_ret; exact He]. destruct (negb _); [| apply traces_ret; exact He].
  eapply traces_bind with (Q := fun _ t => no_change t); [apply traces_ask; intros r; constructor; [by right | constructor] |].
  intros r t1 Ht1. eapply traces_mono; [apply wait_no_change |]. intros u t' Ht'. exact (no_change_app _ _ Ht (no_change_app _ _ Ht1 Ht')).
Qed.

(** The last answer was that there is no such service. *)
Definition gone_last (t : calls) : Prop :=
  exists before err, t = before ++ [(OpenService, Err err)] /\ errors_is err ERROR_SERVICE_DOES_NOT_EXIST = true /\
    Forall (fun x => x.1 = OpenService) before.

Lemma gone_later r t : gone_last t -> gone_last ((OpenService, r) :: t).
Proof. intros (before & err & -> & He & Hb). exists ((OpenService, r) :: before), err. split; [done |]. split; [exact He | by constructor]. Qed.

Lemma await_gone : forall more, traces (on_ok (fun _ => gone_last)) (await_removed more).
Proof.
  induction more as [|n IH]; cbn [await_removed];
    (eapply traces_bind with (Q := fun r t => t = [(OpenService, r)]); [apply traces_ask; done |]); intros r t ->.
  all: assert (Hlate : forall k, (forall b, traces (on_ok (fun _ : unit => fun t' => gone_last ((OpenService, r) :: t'))) (k b)) ->
    traces (on_ok (fun _ : unit => fun t' => gone_last ([(OpenService, r)] ++ t'))) (let* late := call Late in k late))
    by (intros k Hk; eapply traces_bind; [apply (traces_late (fun _ t => t = [])); done |]; intros b t ->; apply Hk).
  all: assert (Hdone : forall err, r = Err err -> errors_is err ERROR_SERVICE_DOES_NOT_EXIST = true ->
    traces (on_ok (fun _ : unit => fun t' => gone_last ([(OpenService, r)] ++ t'))) (Ret (Ok tt)))
    by (intros err -> He; apply traces_ret; intros u _; by exists [], err).
  1: destruct r as [v|err]; [| destruct (serviceRemoved (Some err)) eqn:E; [by eapply Hdone |]]; apply Hlate; intros []; apply traces_err.
  destruct r as [v|err]; [| destruct (serviceRemoved (Some err)) eqn:E; [by eapply Hdone |]]; apply Hlate; intros []; try apply traces_err.
  all: eapply traces_mono; [exact IH |]; intros u t H a Ha; exact (gone_later _ _ (H a Ha)).
Qed.

(** ** What a reported success means *)

(** Either the service could not be opened, or the one that was there was
    deleted and waited for until the manager no longer knew it. *)
Definition cleared (t : calls) : Prop :=
  (exists err, t = [(OpenService, Err err)]) \/
  exists n stop m wait, t = (OpenService, Ok n) :: stop ++ (DeleteService, Ok m) :: wait /\ no_change stop /\ gone_last wait.

Lemma replace_clears : traces (on_ok (fun _ => cleared)) replace_existing.
Proof.
  unfold replace_existing. eapply traces_bind with (Q := fun r t => t = [(OpenService, r)]); [apply traces_ask; done |].
  intros [n|err] t ->; [| apply traces_ret; intros u _; left; by exists err].
  eapply traces_bind; [apply stop_no_change |]. intros u stop Hstop. cbv beta in Hstop.
  eapply traces_then; [apply traces_wrapped, traces_asked |]. intros u1 t1 [m ->].
  eapply traces_mono; [apply traces_wrapped, await_gone |]. intros u2 wait H a Ha. right. exists n, stop, m, wait.
  split; [done |]. split; [exact Hstop | exact (H a Ha)].
Qed.

Lemma install_traces path :
  traces (on_ok (fun _ t => exists n existing n1 n2 n3, cleared existing /\
    t = (Connect, Ok n) :: existing ++ [(CreateService path, Ok n1); (RecoveryPolicy, Ok n2); (GrantStartStop, Ok n3)])) (Install path).
Proof.
  unfold Install. eapply traces_then; [apply traces_wrapped, traces_asked |]. intros u0 t0 [n ->].
  eapply traces_then; [apply replace_clears |]. intros u1 existing He. cbv beta in He.
  eapply traces_then; [apply traces_wrapped, traces_asked |]. intros u2 t2 [n1 ->].
  eapply traces_then; [apply traces_wrapped, traces_asked |]. intros u3 t3 [n2 ->].
  eapply traces_mono; [apply traces_wrapped, traces_asked |]. intros u4 t4 H a Ha. destruct (H a Ha) as [n3 ->].
  exists n, existing, n1, n2, n3. by split.
Qed.

Lemma uninstall_traces :
  traces (on_ok (fun _ t => exists n, 
    (exists err, t = [(Connect, Ok n); (OpenService, Err err)] /\ errors_is err ERROR_SERVICE_DOES_NOT_EXIST = true) \/
    (exists m stop k, t = (Connect, Ok n) :: (OpenService, Ok m) :: stop ++ [(DeleteService, Ok k)] /\ no_change stop))) Uninstall.
Proof.
  unfold Uninstall. eapply traces_then; [apply traces_wrapped, traces_asked |]. intros u0 t0 [n ->].
  eapply traces_bind with (Q := fun r t => t = [(OpenService, r)]); [apply traces_ask; done |]. intros [m|err] t ->.
  - eapply traces_bind; [apply stop_no_change |]. intros u stop Hstop. cbv beta in Hstop.
    eapply traces_mono; [apply traces_asked |]. intros u1 t1 H a Ha. destruct (H a Ha) as [k ->]. exists n. right. by exists m, stop, k.
  - apply traces_ret. intros u Hu. exists n. left. exists err. destruct (errors_is err _); [by split | discriminate Hu].
Qed.

(** Starting never asks to stop; its last call was accepted, or answered that
    the service runs already. *)
Definition accepted (t : calls) : Prop :=
  Forall (fun x => x.1 <> ControlStop) t /\
  exists before c r, t = before ++ [(c, r)] /\
    match r with Ok _ => c = StartService | Err e => errors_is e ERROR_SERVICE_ALREADY_RUNNING = true end.

(** What an operation on a handle asked, the last call being the one it ended
    with; the error it reports is that call's. *)
Definition handle_calls (c : scm_call) (r : result unit) (t : calls) : Prop :=
  Forall (fun y => y.1 = Connect \/ y.1 = OpenService \/ y.1 = c) t /\
  exists before d last_, t = before ++ [(d, last_)] /\
    match r, last_ with
    | Ok _, Ok _ => d = c
    | Err err, Err e => forall target, errors_is err (ErrSentinel target) = errors_is e (ErrSentinel target)
    | _, _ => False
    end.

Lemma handle_traces c : traces (handle_calls c) (withServiceHandle (asked c)).
Proof.
  assert (Hwrap : forall text e target, errors_is (ErrWrap text e) (ErrSentinel target) = errors_is e (ErrSentinel target)) by done.
  intros s. unfold withServiceHandle, asked, wrapped, andthen. cbn. split; [done |]. intros ev. destruct (ev_answer ev) as [n|e]; cbn.
  - split; [done |]. intros ev1. destruct (ev_answer ev1) as [m|e]; cbn.
    + split; [done |]. intros ev2. destruct (ev_answer ev2) as [x|e]; cbn; (split; [done |]); eexists; (split; [by rewrite <- !app_assoc |]).
      all: split; [repeat (constructor; [cbn; tauto |]); constructor |].
      all: by eexists [_; _], c, _.
    + split; [done |]. eexists. split; [by rewrite <- !app_assoc |].
      split; [repeat (constructor; [cbn; tauto |]); constructor | by eexists [_], OpenService, _].
  - split; [done |]. eexists. split; [done |]. split; [repeat (constructor; [cbn; tauto |]); constructor | by eexists [], Connect, _].
Qed.

Lemma start_traces : traces (on_ok (fun _ => accepted)) Start.
Proof.
  unfold Start. eapply traces_bind; [apply handle_traces |]. intros r t [Hc (before & d & last_ & -> & Hl)]. apply traces_ret.
  intros u Hu. rewrite app_nil_r. split.
  - eapply Forall_impl; [exact Hc |]. cbn. intros y [->|[->| ->]] Hy; discriminate Hy.
  - exists before, d, last_. split; [done |]. destruct r as [[]|err], last_ as [x|e]; [exact Hl | destruct Hl | destruct Hl |].
    unfold ERROR_SERVICE_ALREADY_RUNNING in *. rewrite <- Hl. destruct (errors_is err _); [done | discriminate Hu].
Qed.

(** The last answer was that the service is stopped. *)
Definition stopped_last (t : calls) : Prop := exists before, t = before ++ [(QueryService, Ok SvcStopped)].

Lemma stopped_later t t' : stopped_last t' -> stopped_last (t ++ t').
Proof. intros [before ->]. exists (t ++ before). by rewrite app_assoc. Qed.

Lemma state_name_stopped n : state_name n = "stopped" -> n = SvcStopped.
Proof. destruct n as [|p|p]; try done. by repeat (destruct p as [p|p|]; try done). Qed.

Lemma query_traces : traces (on_ok (fun name t => name = "stopped" -> stopped_last t)) QueryStatus.
Proof.
  unfold QueryStatus. eapply traces_then with (Q := fun n t => exists before, t = before ++ [(QueryService, Ok n)]).
  - apply traces_wrapped. unfold withServiceHandle. eapply traces_then; [apply traces_wrapped, traces_asked |]. intros u t [n ->].
    eapply traces_then; [apply traces_wrapped, traces_asked |]. intros u1 t1 [m ->].
    eapply traces_mono with (Q := fun r t => t = [(QueryService, r)]); [apply traces_ask; done |]. intros r t -> k ->.
    by exists [(Connect, Ok n); (OpenService, Ok m)].
  - intros n t [before ->]. apply traces_ret. intros name [= <-] Hn. rewrite app_nil_r. apply state_name_stopped in Hn as ->. by exists before.
Qed.

Lemma wait_state_traces : forall more, traces (on_ok (fun _ => stopped_last)) (wait_for_state more "stopped").
Proof.
  induction more as [|n IH]; cbn [wait_for_state]; (eapply traces_then; [apply query_traces |]); intros name t Ht; cbv beta in Ht.
  all: destruct (String.eqb_spec name "stopped") as [E|_]; [apply traces_ret; intros u _; rewrite app_nil_r; by apply Ht |].
  all: eapply traces_bind; [apply (traces_late (fun _ t => t = [])); done |]; intros late t1 ->; destruct late; try apply traces_err.
  eapply traces_mono; [exact IH |]. intros u t2 H a Ha. apply stopped_later. exact (H a Ha).
Qed.

Lemma restart_traces :
  traces (on_ok (fun _ t => exists stopped started, t = stopped ++ started /\ stopped_last stopped /\ accepted started)) Restart.
Proof.
  unfold Restart. eapply traces_then; [apply query_traces |]. intros name t Ht. cbv beta in Ht.
  eapply traces_then with (Q := fun _ t' => stopped_last (t ++ t')).
  - destruct (String.eqb_spec name "stopped") as [E|_]; [apply traces_ret; intros u _; rewrite app_nil_r; by apply Ht |].
    eapply traces_bind with (Q := fun _ _ => True); [intros s; eapply safe_mono; [apply handle_traces | done |]; intros r s' _ (t' & -> & _); by exists t' |].
    intros r t1 _.
    assert (Hwait : traces (on_ok (fun _ : unit => fun t' => stopped_last (t ++ t1 ++ t'))) (wait_for_state 150 "stopped")).
    { eapply traces_mono; [apply wait_state_traces |]. intros u t2 H a Ha. apply stopped_later, stopped_later. exact (H a Ha). }
    destruct r as [u|err]; [exact Hwait |]. destruct (_ || _); [exact Hwait | apply traces_err].
  - intros u t1 Hs. eapply traces_mono; [apply traces_wrapped, start_traces |]. intros u2 t2 H a Ha.
    exists (t ++ t1), t2. split; [by rewrite app_assoc |]. split; [exact Hs | exact (H a Ha)].
Qed.

(** The operations on the service mean their success. An installation that reports success has found no service it could open, or has deleted the one it found and waited until the manager no longer knew it, and has then created the service, set its recovery policy and granted the rights, in this order and with nothing in between. A removal that reports success has deleted the service or was told that there is none. A restart that reports success has seen the service stopped and only then started it: the manager accepted the start or answered that it runs already, and no further stop was asked for. *)
Theorem service_operations_sound path events s :
  (run events (Install path) [] = (s, Some (Ok tt)) ->
     exists n existing n1 n2 n3, cleared existing /\
       s = (Connect, Ok n) :: existing ++ [(CreateService path, Ok n1); (RecoveryPolicy, Ok n2); (GrantStartStop, Ok n3)]) /\
  (run events Uninstall [] = (s, Some (Ok tt)) -> exists n,
     (exists err, s = [(Connect, Ok n); (OpenService, Err err)] /\ errors_is err ERROR_SERVICE_DOES_NOT_EXIST = true) \/
     (exists m stop k, s = (Connect, Ok n) :: (OpenService, Ok m) :: stop ++ [(DeleteService, Ok k)] /\ no_change stop)) /\
  (run events Restart [] = (s, Some (Ok tt)) ->
     exists stopped started, s = stopped ++ started /\ stopped_last stopped /\ accepted started).
Proof.
  assert (H : forall (p : prog (result unit)) (Q : calls -> Prop), traces (on_ok (fun _ => Q)) p -> run events p [] = (s, Some (Ok tt)) -> Q s).
  { intros p Q Hp Hr. pose proof (safe_run _ _ p events [] (Hp [])) as H. rewrite Hr in H.
    destruct (proj2 H _ eq_refl) as (t & -> & Ht). exact (Ht tt eq_refl). }
  split; [| split].
  - exact (H _ _ (install_traces path)).
  - exact (H _ _ uninstall_traces).
  - exact (H _ _ restart_traces).
Qed.

(** A stop that was asked for is never reported as a failure. *)
Lemma control_loop_code : forall events,
  let '(_, cancelled, code) := controlLoop events in cancelled = true -> code <> Some 1.
Proof.
  induction events as [|e rest IH]; [done |]. destruct e; cbn; try done.
  - by destruct (controlLoop rest) as [[states cancelled] code].
  - by destruct (existsb _ _).
  - by destruct (existsb _ _).
Qed.

(** ** Runs *)

Definition fine : event := MkEvent (Ok SvcStopped) false.
Definition answering (err : error) : event := MkEvent (Err err) false.

Lemma service_operations_sound_witness :
  exists n existing n1 n2 n3, cleared existing /\
    (run (repeat fine 4 ++ [answering ERROR_SERVICE_DOES_NOT_EXIST] ++ repeat fine 3) (Install "agent.exe") []).1 =
      (Connect, Ok n) :: existing ++ [(CreateService "agent.exe", Ok n1); (RecoveryPolicy, Ok n2); (GrantStartStop, Ok n3)].
Proof.
  apply (proj1 (service_operations_sound "agent.exe" (repeat fine 4 ++ [answering ERROR_SERVICE_DOES_NOT_EXIST] ++ repeat fine 3) _)).
  vm_compute. reflexivity.
Defined.

(** A service that is marked for deletion cannot be opened; the installation
    takes it for gone and creates the new one at once. *)
Lemma marked_taken_for_gone :
  run [fine; answering ERROR_SERVICE_MARKED_FOR_DELETE; answering ERROR_SERVICE_MARKED_FOR_DELETE] (Install "agent.exe") [] =
    ([(Connect, Ok SvcStopped); (OpenService, Err ERROR_SERVICE_MARKED_FOR_DELETE);
      (CreateService "agent.exe", Err ERROR_SERVICE_MARKED_FOR_DELETE)],
     Some (Err (ErrWrap "create service" ERROR_SERVICE_MARKED_FOR_DELETE))) /\
  serviceRemoved (Some ERROR_SERVICE_MARKED_FOR_DELETE) = false.
Proof. split; vm_compute; reflexivity. Qed.
