(* ===== verification/SetupChoices.v ===== *)
(** * SetupChoices: what the installer asks for, and the manifest it checks

    [cmd/hooshix-setup/setup.go]: the two server addresses ([collectInstallChoices],
    [promptValue], [validatePanelOrigin]) and the SHA-256 manifest of the embedded
    payload ([manifestDigest], [verifyPayloadDigest]).  The console answers as the
    list of the lines that are read, the environment as a function; what is
    printed is left out. *)

From S2P Require Import Prelude GoText GoTime GoDuration GoNet Json StrictJson JsonMarshal Contract ControlCodec ContractV2.
From S2P Require Import AgentLimits AgentTarget AgentStream AgentConfig PairingFiles Enrollment.

(** ** The addresses *)

Definition defaultTunnelURL : string := "wss://edge.hooshix-agent.ir/agent/v1/connect".
Definition defaultPanelURL : string := "https://panel.hooshix-agent.ir".
Definition envTunnelURL : string := "HOOSHIX_TUNNEL_URL".
Definition envPanelURL : string := "HOOSHIX_PANEL_URL".

Record installChoices := MkChoices {
  ch_tunnelURL : string;
  ch_panelURL : string;
  ch_tunnelGiven : bool;
}.

Definition trimmedEnv (lookup : string -> option string) (name : string) : option string :=
  match lookup name with
  | Some value => if String.eqb (trimmed value) EmptyString then None else Some (trimmed value)
  | None => None
  end.

(** A call of [reader.ReadString]: the text, and an error other than the end of
    the input.  A console that has ended answers with the empty text. *)
Abbreviation console := (list (string * option error)).

Definition read_line (input : console) : (string * option error) * console :=
  match input with [] => ((EmptyString, None), []) | answer :: rest => (answer, rest) end.

Section Prompt.
Context (label : string) (fallback : string) (validate : string -> result unit).

(** The passes of [promptValue] that are left. *)
Fixpoint prompt_again (attempts : nat) (input : console) : result (string * bool) * console :=
  match attempts with
  | O => (Err (ErrMsg (label +:+ ": no valid address was entered")), input)
  | S more =>
    match read_line input with
    | ((_, Some err), rest) => (Err err, rest)
    | ((raw, None), rest) =>
      let answer := trimmed raw in
      if String.eqb answer EmptyString then (Ok (fallback, false), rest)
      else if is_ok (validate answer) then (Ok (answer, true), rest)
      else prompt_again more rest
    end
  end.

Definition promptValue (input : console) : result (string * bool) * console := prompt_again 3 input.
End Prompt.

Section Choices.
Context (url_Parse : string -> result URL).

Definition validatePanelOrigin (raw : string) : result unit :=
  let bad := ErrMsg "the panel URL must be an origin without credentials, path, query, or fragment" in
  match url_Parse (trimmed raw) with
  | Err _ => Err bad
  | Ok parsed =>
    reject_if (String.eqb (u_Host parsed) EmptyString || u_User parsed || negb (String.eqb (u_RawQuery parsed) EmptyString) ||
               negb (String.eqb (u_Fragment parsed) EmptyString) ||
               (negb (String.eqb (u_Path parsed) EmptyString) && negb (String.eqb (u_Path parsed) "/"))) bad ;?
    if String.eqb (u_Scheme parsed) "https" then Ok tt
    else
      let host := Hostname parsed in
      reject_if (negb (String.eqb (u_Scheme parsed) "http") ||
                 (negb (String.eqb host "localhost") && negb match ParseIP host with Some ip => IsLoopback ip | None => false end))
        (ErrMsg "the panel URL must use HTTPS (HTTP is only allowed for an IP/localhost test server)")
  end.

Definition acceptDecline (raw : string) : result unit := if String.eqb raw "-" then Ok tt else validatePanelOrigin raw.

(** An address from the environment, or [fallback]; whether it was given. *)
Definition from_environment (lookup : string -> option string) (name fallback : string) (validate : string -> result unit)
  : result (string * bool) :=
  match trimmedEnv lookup name with
  | None => Ok (fallback, false)
  | Some value =>
    match validate value with
    | Err err => Err (ErrWrap name err)
    | Ok _ => Ok (value, true)
    end
  end.

Definition collectInstallChoices (lookup : string -> option string) (interactive : bool) (input : console)
  : result installChoices * console :=
  match from_environment lookup envTunnelURL defaultTunnelURL (ValidateGatewayURL url_Parse) with
  | Err err => (Err err, input)
  | Ok (tunnel, given) =>
    match from_environment lookup envPanelURL defaultPanelURL validatePanelOrigin with
    | Err err => (Err err, input)
    | Ok (panel, _) =>
      if negb interactive then (Ok (MkChoices tunnel EmptyString given), input)
      else
        let '(answer, input) :=
          if given then (Ok (tunnel, true), input)
          else promptValue "Tunnel server URL" tunnel (ValidateGatewayURL url_Parse) input in
        match answer with
        | Err err => (Err err, input)
        | Ok (tunnel, given) =>
          if negb (String.eqb panel EmptyString) && negb (String.eqb panel defaultPanelURL)
          then (Ok (MkChoices tunnel panel given), input)
          else
            match promptValue "Panel server URL" panel acceptDecline input with
            | (Err err, input) => (Err err, input)
            | (Ok (value, _), input) =>
              (Ok (MkChoices tunnel (if String.eqb value "-" then EmptyString else value) given), input)
            end
        end
    end
  end.
End Choices.

(** ** The manifest of the payload *)

(** [strings.Fields]: the words between white space; each step takes a byte. *)
Fixpoint words (fuel : nat) (word : bytes) (bs : bytes) : list bytes :=
  match fuel, bs with
  | O, _ | _, [] => match word with [] => [] | _ => [word] end
  | S f, b :: r =>
    match find (fun w => is_prefix w bs) white_space with
    | Some w => match word with [] => [] | _ => [word] end ++ words f [] (skipn (length w) bs)
    | None => words f (word ++ [b]) r
    end
  end.

Definition Fields (bs : bytes) : list bytes := words (length bs) [] bs.

(** [strings.ToLower], and [strings.EqualFold] with a text of hexadecimal digits:
    only ASCII letters fold to those. *)
Definition hex_lower (bs : bytes) : bytes := ascii_lower_byte <$> bs.
Definition EqualFold_hex (digits text : bytes) : bool := bool_decide (hex_lower digits = hex_lower text).

Definition payloadManifest : string := "SHA256SUMS".

(** The line's digest, when its last word is [name]. *)
Definition manifest_entry (name line : bytes) : option bytes :=
  match Fields (TrimSpace line) with
  | first :: (_ :: _) as rest =>
    let entry := List.last rest [] in
    let entry := match strip_prefix (bytes_of "*") entry with Some e => e | None => entry end in
    if bool_decide (entry = name) || bool_decide (entry = bytes_of "./" ++ name) then Some (hex_lower first) else None
  | _ => None
  end.

Fixpoint first_entry (name : bytes) (lines : list bytes) : option bytes :=
  match lines with
  | [] => None
  | line :: rest => match manifest_entry name line with Some digest => Some digest | None => first_entry name rest end
  end.

Definition manifestDigest (manifest : bytes) (name : string) : result bytes :=
  match first_entry (bytes_of name) (split_on Byte.x0a manifest) with
  | Some digest => Ok digest
  | None => Err (ErrMsg "embedded manifest has no entry; refusing to install")
  end.

Definition verifyPayloadDigest (Sum256 : bytes -> bytes) (manifest : bytes) (name : string) (data : bytes) : result unit :=
  let? expected := manifestDigest manifest name in
  reject_if (negb (EqualFold_hex (hex_encode (Sum256 data)) expected))
    (ErrMsg "embedded binary does not match the embedded manifest; refusing to install").

(** ** What is accepted *)

Section Accepted.
Context (url_Parse : string -> result URL).

Lemma secure_scheme_https parsed : String.eqb (u_Scheme parsed) "https" = true -> secure_scheme parsed = true.
Proof. unfold secure_scheme. by intros ->. Qed.

(** The installer accepts exactly the panels that the enrollment client will. *)
Lemma panel_origin_mirrors raw : is_ok (validatePanelOrigin url_Parse raw) = is_ok (validateServerURL url_Parse raw).
Proof.
  unfold validatePanelOrigin, validateServerURL. destruct (url_Parse (trimmed raw)) as [parsed|err]; [| done].
  destruct (_ || _); [done |]. cbn [reject_if rbind]. unfold secure_scheme, loopback_host.
  destruct (String.eqb (u_Scheme parsed) "https"); [done |]. cbn [orb].
  destruct (String.eqb (u_Scheme parsed) "http"); cbn [andb orb negb]; [| done].
  destruct (String.eqb (Hostname parsed) "localhost"); cbn [orb negb andb]; [done |].
  destruct (ParseIP (Hostname parsed)) as [ip|]; [| done]. by destruct (IsLoopback ip).
Qed.

Lemma promptValue_answer label fallback validate input value given rest :
  promptValue label fallback validate input = (Ok (value, given), rest) ->
  if (given : bool) then is_ok (validate value) = true /\ value <> EmptyString else value = fallback.
Proof.
  unfold promptValue. generalize 3%nat as n. intros n. revert input. induction n as [|n IH]; intros input H; cbn [prompt_again] in H; [discriminate H |].
  destruct (read_line input) as [[raw [err|]] more]; [discriminate H |]. cbv zeta in H.
  destruct (String.eqb (trimmed raw) EmptyString) eqn:E; [by injection H as <- <- _ |].
  destruct (is_ok (validate (trimmed raw))) eqn:Ev; [| by apply IH in H].
  injection H as <- <- _. split; [done |]. by apply String.eqb_neq in E.
Qed.

Lemma from_environment_value lookup name fallback validate value given :
  from_environment lookup name fallback validate = Ok (value, given) ->
  if (given : bool) then is_ok (validate value) = true /\ trimmedEnv lookup name = Some value
  else value = fallback /\ trimmedEnv lookup name = None.
Proof.
  unfold from_environment. destruct (trimmedEnv lookup name) as [v|]; [| by intros [= <- <-]].
  destruct (validate v) eqn:E; intros [= <- <-]. by rewrite E.
Qed.

(** Nothing is installed for an address that was not accepted: the tunnel is one the Gateway's rules accept or, when nobody gave one, the shipped default; the panel is none, the default or an origin that the enrollment client will accept, and none without a console. *)
Lemma install_choices_sound lookup interactive input choices rest :
  collectInstallChoices url_Parse lookup interactive input = (Ok choices, rest) ->
  (if ch_tunnelGiven choices then is_ok (ValidateGatewayURL url_Parse (ch_tunnelURL choices)) = true
   else ch_tunnelURL choices = defaultTunnelURL /\ trimmedEnv lookup envTunnelURL = None) /\
  (ch_panelURL choices = EmptyString \/ ch_panelURL choices = defaultPanelURL \/
   is_ok (validateServerURL url_Parse (ch_panelURL choices)) = true) /\
  (interactive = false -> ch_panelURL choices = EmptyString /\ rest = input).
Proof.
  unfold collectInstallChoices. destruct (from_environment lookup envTunnelURL _ _) as [[tunnel given]|] eqn:Et; [| intros H; discriminate H].
  apply from_environment_value in Et.
  destruct (from_environment lookup envPanelURL _ _) as [[panel pgiven]|] eqn:Ep; [| intros H; discriminate H].
  apply from_environment_value in Ep.
  assert (Hpanel : panel = defaultPanelURL \/ is_ok (validateServerURL url_Parse panel) = true).
  { rewrite <- panel_origin_mirrors. destruct pgiven; [right | left]; apply Ep. }
  destruct interactive; cbn [negb].
  2:{ intros [= <- <-]. split; [destruct given; [apply Et | exact Et] |]. by split; [left |]. }
  set (asked := if given then _ else _). destruct asked as [[[tunnel' given']|err] input'] eqn:Ea; [| intros H; discriminate H].
  assert (Ht : if (given' : bool) then is_ok (ValidateGatewayURL url_Parse tunnel') = true
               else tunnel' = defaultTunnelURL /\ trimmedEnv lookup envTunnelURL = None).
  { unfold asked in Ea. destruct given; [injection Ea as <- <- _; apply Et |].
    apply promptValue_answer in Ea. destruct Et as [-> He]. destruct given'; [apply Ea | by split]. }
  destruct (negb (String.eqb panel EmptyString) && negb (String.eqb panel defaultPanelURL)).
  { intros [= <- <-]. split; [done |]. split; [by right |]. intros [=]. }
  destruct (promptValue "Panel server URL" panel _ input') as [[[value vgiven]|err] input''] eqn:Ev; [| intros H; discriminate H].
  intros [= <- <-]. split; [done |]. split; [| intros [=]]. cbn [ch_panelURL]. apply promptValue_answer in Ev.
  destruct (String.eqb value "-") eqn:Ed; [by left |]. destruct vgiven; [| right; by subst value].
  right; right. destruct Ev as [Hv _]. unfold acceptDecline in Hv. rewrite Ed in Hv. by rewrite <- panel_origin_mirrors.
Qed.
End Accepted.

(** A payload passes exactly when the first line of the manifest that names it
    holds its digest, in either case. *)
Lemma verifyPayloadDigest_iff Sum256 manifest name data :
  verifyPayloadDigest Sum256 manifest name data = Ok tt <->
  exists digest, first_entry (bytes_of name) (split_on Byte.x0a manifest) = Some digest /\
    hex_lower digest = hex_lower (hex_encode (Sum256 data)).
Proof.
  unfold verifyPayloadDigest, manifestDigest. destruct (first_entry _ _) as [digest|]; cbn [rbind].
  2:{ split; [intros H; discriminate H | intros (d & H & _); discriminate H]. }
  unfold EqualFold_hex. case_bool_decide as E; cbn [negb reject_if]; split.
  - intros _. by exists digest.
  - done.
  - intros H. discriminate H.
  - intros (d & [= <-] & H). by rewrite H in E.
Qed.

Example manifest_demo :
  manifestDigest (bytes_of "0A1b  *hooshix-agent.exe" ++ Byte.x0a :: bytes_of "# note" ++ Byte.x0a :: bytes_of "ff ./hooshix-agent-tray.exe")
    "hooshix-agent-tray.exe" = Ok (bytes_of "ff") /\
  manifestDigest (bytes_of "0A1b  *hooshix-agent.exe") "hooshix-agent.exe" = Ok (bytes_of "0a1b").
Proof. split; vm_compute; reflexivity. Qed.
