(* ===== verification/SetupState.v ===== *)
(** * SetupState: moving the settings beside the program

    [relocateSettingsToInstallDir] and [applyTunnelURL] of
    [cmd/hooshix-setup/setup.go], with [WriteSettingsLocation] of
    [internal/agent/config.go]: the settings file leaves the state directory for
    the installation directory, and a pointer in the state directory tells the
    Agent so. *)

From S2P Require Import Prelude GoText GoDuration Json StrictJson JsonMarshal Contract AgentLimits AgentTarget AgentStream AgentConfig Program StateFs StateTxn StateOps.
From S2P Require Import PairingFiles Enrollment SetupChoices.

(** [os.WriteFile]. *)
Definition WriteFile (p : path) (data : bytes) : prog (result unit) :=
  call (OpenTrunc p) ;! call (Write p data) ;! call (Quiet "close").

Section Relocation.
Context (home : Home).

Definition WriteSettingsLocation (path : string) : prog (result unit) :=
  if negb (hm_IsAbs home path) || negb (String.eqb (hm_Base home path) "config.json")
  then Ret (Err (ErrMsg "settings location must be an absolute path ending in config.json"))
  else
    wrapped "validate settings directory" (call (Quiet "lstat")) ;!
    locked home (writeStateFile settingsLocation (bytes_of (hm_Clean home path) ++ [Byte.x0a])).

(** [target]: the path of the settings file in the installation directory. *)
Context (target : string).
Abbreviation source_path := (settings_path None).
Abbreviation target_path := (settings_path (Some (hm_Dir home (hm_Clean home target)))).

Definition relocateSettingsToInstallDir : prog (result unit) :=
  let go (data : option bytes) :=
    wrapped "record the settings location" (WriteSettingsLocation target) ;!
    match data with
    | None => Ret (Ok tt)
    | Some data =>
      wrapped "write config.json" (WriteFile target_path data) ;!
      let* _ := call (Remove source_path) in
      Ret (Ok tt)
    end in
  let* data := call (ReadAll source_path) in
  match data with
  | Ok data => let* _ := call (Lstat target_path) in go (Some data)
  | Err err => if errors_is err os_ErrNotExist then go None else Ret (Err (ErrWrap "read the current settings file" err))
  end.

(** The mutation of [applyTunnelURL]. *)
Definition with_gateway (url : string) (c : Config) : Config :=
  MkConfig (cf_Version c) url (cf_GatewayAliases c) (cf_CAFile c) (cf_DeviceID c) (cf_AuthorizationID c) (cf_TokenID c)
    (cf_UpdateChannel c) (cf_Endpoints c) (cf_Limits c).

Definition chosen_tunnel (choices : installChoices) (config : Config) : result Config :=
  Ok (if negb (ch_tunnelGiven choices) && negb (String.eqb (trimmed (cf_GatewayURL config)) EmptyString) then config
      else with_gateway (ch_tunnelURL choices) config).

Definition applyTunnelURL (decode_json : bytes -> result Config) (marshal_indent : Config -> result bytes)
    (choices : installChoices) : prog (result unit) :=
  MutateConfig decode_json marshal_indent home (chosen_tunnel choices).
End Relocation.

(** ** What is kept *)

Lemma recover_settled home s : settled s ->
  safe (fun s' => s' = s) (okay (fun _ s' => s' = s)) (recoverStateTransaction home) s.
Proof.
  intros [Hj _]. unfold recoverStateTransaction. eapply safe_bind; [by apply (safe_lstat (fun s' => s' = s) journal_dir s) |].
  intros info s1 -> (_ & Hok & _). destruct info as [n|err]; [specialize (Hok _ eq_refl); congruence |].
  destruct (errors_is err os_ErrNotExist); by apply safe_ret.
Qed.

Section Relocated.
Context (home : Home) (target_text : string) (old : bytes).

Abbreviation dir := (hm_Dir home (hm_Clean home target_text)).
Abbreviation source := (settings_path None).
Abbreviation target := (settings_path (Some dir)).
Abbreviation record := (bytes_of (hm_Clean home target_text) ++ [Byte.x0a]).

Definition somewhere (s : files) : Prop := s !! source = Some (File old) \/ s !! target = Some (File old).

Lemma pointer_written s : settled s -> s !! source = Some (File old) ->
  safe somewhere (okay (fun _ s' => s' !! settingsLocation = Some (File record) /\ s' !! source = Some (File old)))
    (WriteSettingsLocation home target_text) s.
Proof.
  intros Hset Hs. unfold WriteSettingsLocation. destruct (_ || _); [apply safe_err; by left |].
  assert (Hsafe : safe (only scratch settingsLocation (Some (File record)) s)
    (okay (fun _ s' => s' !! settingsLocation = Some (File record)))
    (wrapped "validate settings directory" (call (Quiet "lstat")) ;! locked home (writeStateFile settingsLocation record)) s).
  { eapply safe_then; [apply safe_wrapped, safe_quiet, only_refl |]. intros ? s1 _ ->. unfold locked.
    eapply safe_then.
    - eapply safe_mono; [by apply recover_settled | intros s' ->; apply only_refl | intros r s' _ H; exact H].
    - intros ? s2 _ ->. apply writePrivateFile_safe, pointer_not_scratch. }
  assert (Hkept : forall s', only scratch settingsLocation (Some (File record)) s s' -> s' !! source = Some (File old)).
  { intros s' [H _]. rewrite H; [exact Hs | apply config_not_scratch | discriminate]. }
  eapply safe_mono; [exact Hsafe | intros s' H; left; by apply Hkept |]. intros [u|err] s' H Hr; [| done]. split; [exact Hr | by apply Hkept].
Qed.

Lemma target_written s : s !! source = Some (File old) ->
  safe somewhere (okay (fun _ s' => s' !! target = Some (File old) /\ s' !! settingsLocation = s !! settingsLocation)) (WriteFile target old) s.
Proof.
  intros Hs. unfold WriteFile. assert (Hput : forall n s1, s1 !! source = Some (File old) -> somewhere (<[target := n]> s1))
    by (intros n s1 H; left; by rewrite lookup_insert_ne).
  eapply (safe_then _ (fun _ s1 => s1 = <[target := File []]> s)).
  { apply safe_call; [by left |]. intros ev. cbn. destruct (ev_fails ev || _); cbn; [by split; [left |] |].
    destruct (s !! target) as [[]|]; cbn; (split; [first [by apply Hput | by left] | done]). }
  intros ? s1 _ ->. eapply (safe_then _ (fun _ s1 => s1 = <[target := File old]> s)).
  { assert (Hs1 : <[target := File []]> s !! source = Some (File old)) by by rewrite lookup_insert_ne.
    apply safe_call; [by left |]. intros ev. cbn. unfold append. rewrite lookup_insert_eq. cbn. rewrite !insert_insert_eq.
    destruct (ev_fails ev); cbn; (split; [by apply Hput | done]). }
  intros ? s2 _ ->. eapply safe_mono; [apply (safe_quiet (fun s' => s' = <[target := File old]> s)); done | intros s' ->; by apply Hput |].
  intros [u|err] s' _ H; [| done]. cbn in H. subst s'. split; [by rewrite lookup_insert_eq | by rewrite lookup_insert_ne].
Qed.

(** The settings are never lost on the way, and after a success the Agent, if it
    obeys the pointer, reads them where they are. *)
Lemma relocated_kept s :
  settled s -> s !! source = Some (File old) ->
  redirectedSettingsPath home record = Some dir -> zlen record <= maxSettingsFileBytes ->
  safe somewhere (okay (fun _ s' => (pair_of home s').1 = Some (File old))) (relocateSettingsToInstallDir home target_text) s.
Proof.
  intros Hset Hs Hobeyed Hlen. unfold relocateSettingsToInstallDir.
  eapply (safe_bind _ (fun r s1 => s1 = s /\ match r with Ok data => data = old | Err err => errors_is err os_ErrNotExist = false end)).
  { apply safe_call; [by left |]. intros ev. cbn. split; [by left |]. split; [done |]. rewrite Hs. by destruct (ev_fails ev). }
  intros data s1 _ [-> Hdata]. cbv zeta. destruct data as [data|err]; [| rewrite Hdata; apply safe_ret; [by left | done]]. subst data.
  eapply safe_bind; [apply (safe_lstat somewhere); by left |]. intros ? s1 _ (-> & _ & _).
  eapply safe_then; [apply safe_wrapped; by apply pointer_written |]. intros ? s1 _ [Hp Hs1].
  eapply safe_then; [apply safe_wrapped; by apply target_written |]. intros ? s2 _ [Ht2 Hp2].
  eapply (safe_bind _ (fun _ s' => s' !! target = Some (File old) /\ s' !! settingsLocation = s2 !! settingsLocation)).
  - apply safe_call; [by right |]. intros ev. cbn. destruct (ev_fails ev); cbn; [by split; [right |] |].
    destruct (s2 !! source); cbn; [| by split; [right |]]. rewrite !lookup_delete_ne by done. split; [by right; rewrite lookup_delete_ne | done].
  - intros ? s3 _ [Ht3 Hp3]. apply safe_ret; [by right |]. cbn. unfold located, pointer. rewrite Hp3, Hp2, Hp.
    rewrite (proj2 (Z.ltb_ge _ _)) by exact Hlen. by rewrite Hobeyed.
Qed.
End Relocated.

(** ** When the copy fails

    The pointer is written first: if the file it names then cannot be written,
    the settings are still in the state directory, but the Agent no longer looks
    there, although the installer says that it does. *)

Definition demo_relocation : files * option (result unit) :=
  run (take 20 (demo_events 20) ++ [demo_failure]) (relocateSettingsToInstallDir unix_home "/opt/hooshix/config.json")
    (<[settings_path None := File demo_old]> (<[stateMarker := File stateMarkerContents]> ∅)).

Lemma failed_copy_hides_settings :
  (exists err, demo_relocation.2 = Some (Err err)) /\
  demo_relocation.1 !! settings_path None = Some (File demo_old) /\
  (pair_of unix_home demo_relocation.1).1 = None /\
  (run (demo_events 5) (loadConfigUnlocked (fun _ => Ok DefaultConfig) unix_home) demo_relocation.1).2 = Some (Ok DefaultConfig).
Proof. split; [vm_compute; by eexists |]. split_and!; vm_compute; reflexivity. Qed.

(** What an operator did not choose does not replace a Gateway that a pairing
    has recorded. *)
Lemma tunnel_not_overwritten choices config config' :
  chosen_tunnel choices config = Ok config' ->
  config' = with_gateway (cf_GatewayURL config') config /\
  (ch_tunnelGiven choices = true -> cf_GatewayURL config' = ch_tunnelURL choices) /\
  (ch_tunnelGiven choices = false -> trimmed (cf_GatewayURL config) <> EmptyString -> config' = config).
Proof.
  unfold chosen_tunnel. intros [= <-]. destruct (ch_tunnelGiven choices); cbn [negb andb]; [by split_and! |].
  destruct (String.eqb (trimmed (cf_GatewayURL config)) EmptyString) eqn:E; cbn [negb].
  - split; [done |]. split; [done |]. intros _ H. by apply String.eqb_eq in E.
  - split; [by destruct config |]. by split.
Qed.
