(* ===== verification/Setup.v ===== *)
(** * Setup: installing and replacing the Agent's programs

    [cmd/hooshix-setup/setup.go]: staging the embedded payload, putting it in
    place, and taking it back ([stagePayload], [commitStagedPayload],
    [rollbackFiles], [rollbackInstallation], [run]), as a program over the
    three binaries of the installation directory, their staged and their set
    aside copies, and the commands given to the installed Agent.  Any operation
    may fail, Windows may put other bytes in place than were staged, and the
    installer may die after any of them.  The source takes every error of
    [os.Stat] for a file that is not there: [exec_setup true] is the machine on
    which [os.Stat] does not fail, [exec_setup false] the real one, and [sighted]
    says of a run that it met no such failure for a file that is there.  What the other steps of [run] do (access rights, tray task,
    registry, enrollment) is their success or failure here; the settings file
    is {!SetupState}. *)

From S2P Require Import Prelude Program GoText GoDuration Json StrictJson JsonMarshal Contract ControlCodec ContractV2.
From S2P Require Import AgentLimits AgentTarget AgentStream AgentConfig PairingFiles Enrollment SetupChoices WinService.

(** ** The machine *)

Inductive binary := AgentBinary | TrayBinary | UninstallBinary.

#[export] Instance binary_eq_dec : EqDecision binary.
Proof. solve_decision. Defined.

Definition binary_name (n : binary) : string :=
  match n with AgentBinary => "hooshix-agent.exe" | TrayBinary => "hooshix-agent-tray.exe" | UninstallBinary => "uninstall.exe" end.

(** In the staging directory, in the installation directory, and beside it with
    the suffix [.previous]. *)
Inductive slot := Staged | Installed | Previous.

#[export] Instance slot_eq_dec : EqDecision slot.
Proof. solve_decision. Defined.

#[export] Instance slot_countable : Countable slot.
Proof.
  refine (inj_countable' (fun p => match p with Staged => 0%N | Installed => 1%N | Previous => 2%N end)
    (fun n => match n with 0%N => Staged | 1%N => Installed | _ => Previous end) _).
  by intros [].
Defined.

#[export] Instance binary_countable : Countable binary.
Proof.
  refine (inj_countable' (fun p => match p with AgentBinary => 0%N | TrayBinary => 1%N | UninstallBinary => 2%N end)
    (fun n => match n with 0%N => AgentBinary | 1%N => TrayBinary | _ => UninstallBinary end) _).
  by intros [].
Defined.

Abbreviation file := (slot * binary)%type.

(** The other calls into the operating system that [run] makes. *)
Inductive errand :=
| EndTray | KillAgent | InstallCapability | ResolveStateDir | RelocateSettings | ApplyTunnelURL
| RegisterTray | RegisterUninstall | EnrollAgent.

(** What was done, in order; a command with what it answered. *)
Inductive deed :=
| Asked (args : list string) (answer : result string)
| Moved (a b : file)
| Removed (p : file)
| NotMoved (a b : file)
| NotRemoved (p : file)
| Ran (e : errand).

Record machine := MkMachine {
  mc_files : gmap file bytes;
  mc_deeds : list deed;
}.

Inductive op : Type -> Type :=
| MkdirStage : op (result unit)
| ReadSelf : op (result bytes)
| WriteStaged (n : binary) (data : bytes) : op (result unit)
| RemoveStage : op (result unit)
| ReadFile (p : file) : op (result bytes)
| Stat (p : file) : op bool
| Remove (p : file) : op (result unit)
| Rename (a b : file) : op (result unit)
| AgentCommand (args : list string) : op (string * option error)
| Late : op bool                          (* the deadline of a wait has passed *)
| Errand (e : errand) : op (result unit).

(** What happens to one operation: whether it fails, the bytes it gets or leaves
    half written, the bytes another program puts where a staged file is moved to,
    the output of a command, and whether it is late. *)
Record event := MkEvent {
  ev_fails : bool;
  ev_data : bytes;
  ev_replaced : option bytes;
  ev_output : string;
  ev_late : bool;
}.

Definition io_error {A : Type} : result A := Err (ErrMsg "input/output error").
Definition os_missing {A : Type} : result A := Err (ErrSentinel "file does not exist").

Definition did (d : deed) (s : machine) : machine := MkMachine (mc_files s) (mc_deeds s ++ [d]).
Definition put (p : file) (data : bytes) (s : machine) : machine := MkMachine (<[p := data]> (mc_files s)) (mc_deeds s).

Definition unstaged (s : machine) : machine :=
  MkMachine (filter (fun x : file * bytes => x.1.1 <> Staged) (mc_files s)) (mc_deeds s).

(** [steady]: [os.Stat] does not fail. *)
Definition exec_setup (steady : bool) : Machine op event machine := fun R o ev s =>
  match o with
  | MkdirStage => (if ev_fails ev then io_error else Ok tt, s)
  | ReadSelf => (if ev_fails ev then io_error else Ok (ev_data ev), s)
  | WriteStaged n data =>
    if ev_fails ev then (io_error, put (Staged, n) (ev_data ev) s) else (Ok tt, put (Staged, n) data s)
  | RemoveStage => if ev_fails ev then (io_error, s) else (Ok tt, unstaged s)
  | ReadFile p =>
    (if ev_fails ev then io_error else match mc_files s !! p with Some data => Ok data | None => os_missing end, s)
  | Stat p => (if negb steady && ev_fails ev then false else bool_decide (is_Some (mc_files s !! p)), s)
  | Remove p =>
    if ev_fails ev then (io_error, did (NotRemoved p) s)
    else match mc_files s !! p with
         | None => (os_missing, s)
         | Some _ => (Ok tt, did (Removed p) (MkMachine (delete p (mc_files s)) (mc_deeds s)))
         end
  | Rename a b =>
    if ev_fails ev then (io_error, did (NotMoved a b) s)
    else match mc_files s !! a with
         | None => (os_missing, did (NotMoved a b) s)
         | Some data =>
           let data := if bool_decide (a.1 = Staged) then default data (ev_replaced ev) else data in
           (Ok tt, did (Moved a b) (MkMachine (delete a (<[b := data]> (mc_files s))) (mc_deeds s)))
         end
  | AgentCommand args =>
    match mc_files s !! (Installed, AgentBinary) with
    | None => ((EmptyString, Some (ErrMsg "executable file not found")), s)
    | Some _ =>
      if ev_fails ev then ((ev_output ev, Some (ErrMsg "exit status 1")), did (Asked args io_error) s)
      else ((ev_output ev, None), did (Asked args (Ok (ev_output ev))) s)
    end
  | Late => (ev_late ev, s)
  | Errand e => (if ev_fails ev then io_error else Ok tt, did (Ran e) s)
  end.

#[export] Hint Extern 1 (Machine op _ _) => exact (exec_setup false) : typeclass_instances.

Abbreviation prog := (Program.prog op).

Definition spared {R : Type} (o : op R) (ev : event) (s : machine) : bool :=
  match o with
  | Stat p => negb (ev_fails ev) || negb (bool_decide (is_Some (mc_files s !! p)))
  | _ => true
  end.

Fixpoint sighted {A : Type} (events : list event) (p : prog A) (s : machine) {struct p} : bool :=
  match p with
  | Ret _ => true
  | Do o k =>
    match events with
    | [] => true
    | ev :: rest => spared o ev s && let '(r, s') := exec o ev s in sighted rest (k r) s'
    end
  end.

Lemma setup_spared_exec {R : Type} (o : op R) ev s : spared o ev s = true -> exec o ev s = exec (Machine := exec_setup true) o ev s.
Proof.
  destruct o; try done. cbn. destruct (ev_fails ev); [| done]. intros H%negb_true_iff. by rewrite H.
Qed.

Lemma setup_sighted_run {A : Type} (p : prog A) : forall events s,
  sighted events p s = true -> run events p s = run (M := exec_setup true) events p s.
Proof.
  induction p as [a|R o k IH]; intros events s H; [done |]. destruct events as [|ev rest]; [done |]. cbn [sighted run] in H |- *.
  apply andb_true_iff in H as [Ho H]. rewrite <- (setup_spared_exec o ev s Ho). destruct (exec o ev s) as [r s']. by apply IH.
Qed.

(** ** Waiting *)

(** [renameIntoPlace]: it tries again after 250 ms until 10 s have passed, so
    not more than forty times. *)
Fixpoint rename_again (more : nat) (a b : file) : prog (result unit) :=
  let* r := call (Rename a b) in
  match r, more with
  | Ok _, _ => Ret (Ok tt)
  | Err err, O => Ret (Err err)
  | Err err, S n => let* late := call Late in if (late : bool) then Ret (Err err) else rename_again n a b
  end.

Definition renameIntoPlace (a b : file) : prog (result unit) := rename_again 40 a b.

Definition runAgentCommand (args : list string) : prog (result unit) :=
  let* answer := call (AgentCommand args) in
  Ret (match answer.2 with Some err => Err (ErrWrap "agent command" err) | None => Ok tt end).

Definition service (word : string) : list string := ["service"; word].

Definition still_running (status : string) : bool :=
  bool_decide (status ∈ ["running"; "start-pending"; "continue-pending"]).

(** The polls, 250 ms apart, of at most 15 s. *)
Fixpoint stopped_again (more : nat) : prog (result unit) :=
  let* answer := call (AgentCommand (service "status")) in
  match answer with
  | (_, Some _) => Ret (Ok tt)
  | (output, None) =>
    if still_running (trimmed output) then
      match more with
      | O => Ret (Err (ErrMsg "the service is still running"))
      | S n =>
        let* late := call Late in
        if (late : bool) then Ret (Err (ErrMsg "the service is still running")) else stopped_again n
      end
    else Ret (Ok tt)
  end.

Definition waitForServiceStopped : prog (result unit) := stopped_again 60.

Definition says_running (output : string) : bool :=
  match cut_suffix (bytes_of "running") (TrimSpace (bytes_of output)) with Some _ => true | None => false end.

(** The polls, 500 ms apart, of at most 30 s. *)
Fixpoint running_again (more : nat) : prog (result unit) :=
  let* answer := call (AgentCommand (service "status")) in
  match answer with
  | (output, None) =>
    if says_running output then Ret (Ok tt)
    else match more with
         | O => Ret (Err (ErrMsg "the service did not report Running"))
         | S n =>
           let* late := call Late in
           if (late : bool) then Ret (Err (ErrMsg "the service did not report Running")) else running_again n
         end
  | (_, Some _) =>
    match more with
    | O => Ret (Err (ErrMsg "the service did not report Running"))
    | S n =>
      let* late := call Late in
      if (late : bool) then Ret (Err (ErrMsg "the service did not report Running")) else running_again n
    end
  end.

Definition waitForServiceRunning : prog (result unit) := running_again 60.

(** ** Putting the binaries in place *)

Abbreviation backups := (gmap file (option file)).

Section Setup.
Context (Sum256 : bytes -> bytes).
(** The embedded files: the manifest, and the binaries by name. *)
Context (manifest : result bytes) (payload : string -> result bytes).
(** The order in which a loop visits a map. *)
Context (iterate : backups -> list (file * option file)).

Fixpoint stage_binaries (m : bytes) (names : list binary) : prog (result unit) :=
  match names with
  | [] => Ret (Ok tt)
  | n :: rest =>
    match payload (binary_name n) with
    | Err err => Ret (Err err)
    | Ok data =>
      match verifyPayloadDigest Sum256 m (binary_name n) data with
      | Err err => Ret (Err err)
      | Ok _ => call (WriteStaged n data) ;! stage_binaries m rest
      end
    end
  end.

Definition stagePayload : prog (result unit) :=
  call MkdirStage ;!
  let* r :=
    match manifest with
    | Err err => Ret (Err err)
    | Ok m =>
      stage_binaries m [AgentBinary; TrayBinary] ;!
      let! data := call ReadSelf in
      call (WriteStaged UninstallBinary data)
    end in
  match r with
  | Ok _ => Ret (Ok tt)
  | Err err => let* _ := call RemoveStage in Ret (Err err)
  end.

Fixpoint rollbackFiles (entries : list (file * option file)) : prog unit :=
  match entries with
  | [] => Ret tt
  | (target, backup) :: rest =>
    let* _ := call (Remove target) in
    match backup with
    | Some b => let* _ := call (Rename b target) in rollbackFiles rest
    | None => rollbackFiles rest
    end
  end.

(** One pass of [commitStagedPayload]: the backups after it, and an error for
    which it rolls back. *)
Definition commit_one (m : bytes) (n : binary) (b : backups) : prog (backups * option error) :=
  let target := (Installed, n) in
  let backup := (Previous, n) in
  let* staged := call (ReadFile (Staged, n)) in
  match staged with
  | Err err => Ret (b, Some (ErrWrap "read staged" err))
  | Ok stagedData =>
    let* _ := call (Remove backup) in
    let* exists_ := call (Stat target) in
    let* aside := (if (exists_ : bool) then renameIntoPlace target backup else Ret (Ok tt)) in
    match aside with
    | Err err => Ret (b, Some (ErrWrap "move aside (is the agent or tray still running?)" err))
    | Ok _ =>
      let b := if (exists_ : bool) then <[target := Some backup]> b else b in
      let* moved := renameIntoPlace (Staged, n) target in
      match moved with
      | Err err => Ret (b, Some (ErrWrap "move into place" err))
      | Ok _ =>
        let b := match b !! target with Some _ => b | None => <[target := None]> b end in
        let* installed := call (ReadFile target) in
        match installed with
        | Err err => Ret (b, Some (ErrWrap "verify installed" err))
        | Ok data =>
          if negb (bool_decide (data = stagedData)) then
            Ret (b, Some (ErrMsg "installed file does not match the payload; aborting"))
          else if bool_decide (n = UninstallBinary) then Ret (b, None)
          else match verifyPayloadDigest Sum256 m (binary_name n) data with
               | Err err => Ret (b, Some (ErrWrap "installed file does not match the distribution manifest" err))
               | Ok _ => Ret (b, None)
               end
        end
      end
    end
  end.

Fixpoint commit_all (m : bytes) (names : list binary) (b : backups) : prog (result backups) :=
  match names with
  | [] => Ret (Ok b)
  | n :: rest =>
    let* r := commit_one m n b in
    match r with
    | (b, None) => commit_all m rest b
    | (b, Some err) => let* _ := rollbackFiles (iterate b) in Ret (Err err)
    end
  end.

Definition commitStagedPayload (m : bytes) : prog (result backups) :=
  commit_all m [AgentBinary; TrayBinary; UninstallBinary] ∅.

(** ** Before and after *)

Definition previousInstallationPresent : prog bool := call (Stat (Installed, AgentBinary)).

Definition stopPreviousInstallation : prog unit :=
  let* present := previousInstallationPresent in
  let* _ :=
    (if (present : bool)
     then let* _ := runAgentCommand (service "stop") in let* _ := waitForServiceStopped in Ret tt
     else Ret tt) in
  let* _ := call (Errand EndTray) in
  let* _ := call (Errand KillAgent) in
  Ret tt.

Definition serviceRegistrationPresent : prog bool :=
  let* answer := call (AgentCommand (service "status")) in
  Ret (match answer.2 with Some _ => false | None => true end).

Definition rollbackInstallation (b : backups) (replacing : bool) : prog unit :=
  let* _ := runAgentCommand (service "stop") in
  let* _ := waitForServiceStopped in
  let* _ := (if replacing then Ret (Ok tt) else runAgentCommand (service "uninstall")) in
  let* _ := rollbackFiles (iterate b) in
  if replacing then
    let* registered := serviceRegistrationPresent in
    let* ready := (if (registered : bool) then Ret (Ok tt) else runAgentCommand (service "install")) in
    match ready with
    | Err _ => Ret tt
    | Ok _ => let* _ := runAgentCommand (service "start") in Ret tt
    end
  else Ret tt.

(** The steps between the commit and the end of [run] whose failure is fatal. *)
Definition start_service : prog (result unit) :=
  wrapped "install pairing authorization" (call (Errand InstallCapability)) ;!
  wrapped "resolve the Agent state directory" (call (Errand ResolveStateDir)) ;!
  let* _ := call (Errand RelocateSettings) in
  let* _ := call (Errand ApplyTunnelURL) in
  wrapped "install service" (runAgentCommand (service "install")) ;!
  wrapped "start service" (runAgentCommand (service "start")) ;!
  waitForServiceRunning.

Fixpoint remove_backups (entries : list (file * option file)) : prog unit :=
  match entries with
  | [] => Ret tt
  | (_, Some b) :: rest => let* _ := call (Remove b) in remove_backups rest
  | (_, None) :: rest => remove_backups rest
  end.

(** [run] from [previousInstallationPresent] on. *)
Definition install (m : bytes) : prog (result unit) :=
  let* replacing := previousInstallationPresent in
  let* _ := stopPreviousInstallation in
  let* committed := commitStagedPayload m in
  match committed with
  | Err err => Ret (Err (ErrWrap "install binaries" err))
  | Ok b =>
    let* started := start_service in
    match started with
    | Err err => let* _ := rollbackInstallation b replacing in Ret (Err err)
    | Ok _ =>
      let* _ := call (Errand RegisterTray) in
      let* _ := call (Errand RegisterUninstall) in
      let* _ := remove_backups (iterate b) in
      let* _ := call (Errand EnrollAgent) in
      Ret (Ok tt)
    end
  end.

(** [run] after the choices. *)
Definition setup : prog (result unit) :=
  wrapped "stage binaries" stagePayload ;!
  let* r := match manifest with Err err => Ret (Err err) | Ok m => install m end in
  let* _ := call RemoveStage in
  Ret r.
End Setup.

Section Proofs.
#[local] Hint Extern 0 (Machine op _ _) => exact (exec_setup true) : typeclass_instances.

(** ** Programs that leave the files alone *)

Definition moves {R : Type} (o : op R) : bool :=
  match o with WriteStaged _ _ | RemoveStage | Remove _ | Rename _ _ => true | _ => false end.

Definition unregisters {R : Type} (o : op R) : bool :=
  match o with AgentCommand args => bool_decide (args = service "uninstall") | _ => false end.

Definition stays (R : Type) (o : op R) : bool := negb (moves o).
Definition registered_stays (R : Type) (o : op R) : bool := negb (unregisters o).

Lemma exec_stays {R : Type} (o : op R) ev s : moves o = false -> mc_files (exec o ev s).2 = mc_files s.
Proof.
  destruct o; intros H; try discriminate H; cbn; try done.
  destruct (mc_files s !! _); [| done]. by destruct (ev_fails ev).
Qed.

Lemma exec_deeds {R : Type} (o : op R) ev s : exists more, mc_deeds (exec o ev s).2 = mc_deeds s ++ more.
Proof.
  assert (Hsame : exists more, mc_deeds s = mc_deeds s ++ more) by (exists []; by rewrite app_nil_r).
  destruct o as [| |n data| |p|p|p|a b|args| |e]; try exact Hsame; cbn.
  - destruct (ev_fails ev); exact Hsame.
  - destruct (ev_fails ev); exact Hsame.
  - destruct (ev_fails ev); [by eexists |]. destruct (mc_files s !! p); [by eexists | exact Hsame].
  - destruct (ev_fails ev); [by eexists |]. destruct (mc_files s !! a); by eexists.
  - destruct (mc_files s !! _); [| exact Hsame]. destruct (ev_fails ev); by eexists.
  - by eexists.
Qed.

(** Such a program keeps what is said of the files. *)
Lemma safe_stays {A : Type} (F : gmap file bytes -> Prop) (p : prog A) s :
  uses stays p -> F (mc_files s) -> safe (fun s => F (mc_files s)) (fun _ s' => mc_files s' = mc_files s) p s.
Proof.
  intros Hu HF. eapply safe_mono; [apply (safe_uses stays (fun s' => mc_files s' = mc_files s)); [| done | done] | by intros s' -> | done].
  intros R o ev s' Ho <-. apply exec_stays. unfold stays in Ho. by destruct (moves o).
Qed.

(** No program takes a deed back. *)
Definition grown (s s' : machine) : Prop := exists more, mc_deeds s' = mc_deeds s ++ more.

Lemma safe_grown {A : Type} (p : prog A) s : safe (fun _ => True) (fun _ s' => grown s s') p s.
Proof.
  eapply safe_mono; [apply (safe_uses (fun _ _ => true) (grown s)) | done | done].
  - intros R o ev s' _ [more E]. destruct (exec_deeds o ev s') as [more' E']. exists (more ++ more'). by rewrite E', E, app_assoc.
  - induction p as [a|R o k IH]; [exact I | by split].
  - exists []. by rewrite app_nil_r.
Qed.

Lemma stopped_stays n : uses stays (stopped_again n) /\ uses registered_stays (stopped_again n).
Proof. induction n as [|n [IH1 IH2]]; cbn [stopped_again]; split; uses_parts. Qed.

Lemma running_stays n : uses stays (running_again n) /\ uses registered_stays (running_again n).
Proof. induction n as [|n [IH1 IH2]]; cbn [running_again]; split; uses_parts. Qed.

Lemma command_stays args : uses stays (runAgentCommand args).
Proof. unfold runAgentCommand. uses_parts. Qed.

Lemma command_registered args : args <> service "uninstall" -> uses registered_stays (runAgentCommand args).
Proof.
  intros H. apply uses_bind; [| uses_parts]. apply uses_call. unfold registered_stays. cbn. by rewrite bool_decide_false.
Qed.

Ltac uses_all := repeat (uses_parts; match goal with
  | |- uses _ (runAgentCommand _) => first [apply command_stays | apply command_registered; discriminate]
  | |- uses _ waitForServiceStopped => apply stopped_stays
  | |- uses _ waitForServiceRunning => apply running_stays
  end); uses_parts.

Lemma stop_stays : uses stays stopPreviousInstallation /\ uses registered_stays stopPreviousInstallation.
Proof. unfold stopPreviousInstallation, previousInstallationPresent. split; uses_all. Qed.

Lemma start_stays : uses stays start_service /\ uses registered_stays start_service.
Proof. unfold start_service. split; uses_all. Qed.

(** ** What is kept *)

Section Kept.
Context (Sum256 : bytes -> bytes) (m : bytes) (iterate : backups -> list (file * option file)).
Context (Hiterate : forall b, iterate b ≡ₚ map_to_list b).
(** The files before anything is moved. *)
Context (files0 : gmap file bytes).

(** The build that was installed is in place or beside its place. *)
Definition kept (s : machine) : Prop := forall n data,
  files0 !! (Installed, n) = Some data -> mc_files s !! (Installed, n) = Some data \/ mc_files s !! (Previous, n) = Some data.

Definition genuine (n : binary) (data : bytes) : Prop :=
  n <> UninstallBinary -> verifyPayloadDigest Sum256 m (binary_name n) data = Ok tt.

Definition in_place (names : list binary) (s : machine) : Prop := forall n, n ∈ names ->
  exists data, mc_files s !! (Installed, n) = Some data /\ genuine n data.

(** What an entry of the backups says. *)
Definition entry_ok (s : machine) (n : binary) (backup : option file) : Prop :=
  match backup with
  | None => files0 !! (Installed, n) = None
  | Some p => p = (Previous, n) /\ exists data, files0 !! (Installed, n) = Some data /\ mc_files s !! (Previous, n) = Some data
  end.

Record backups_ok (b : backups) (s : machine) : Prop := MkBackupsOk {
  bo_targets : forall t x, b !! t = Some x -> t.1 = Installed;
  bo_entries : forall n x, b !! (Installed, n) = Some x -> entry_ok s n x;
  bo_others : forall n, b !! (Installed, n) = None -> mc_files s !! (Installed, n) = files0 !! (Installed, n);
}.

Lemma kept_files s s' : mc_files s' = mc_files s -> kept s -> kept s'.
Proof. unfold kept. by intros ->. Qed.

Lemma entry_ok_files s s' n x : mc_files s' = mc_files s -> entry_ok s n x -> entry_ok s' n x.
Proof. unfold entry_ok. by intros ->. Qed.

Lemma backups_files b s s' : mc_files s' = mc_files s -> backups_ok b s -> backups_ok b s'.
Proof.
  intros E [Ht He Ho]. split; [done | | by rewrite E]. intros n x H. eapply entry_ok_files; [exact E | by apply He].
Qed.

Lemma backups_kept b s : backups_ok b s -> kept s.
Proof.
  intros [Ht He Ho] n data Hd. destruct (b !! (Installed, n)) as [[p|]|] eqn:E.
  - right. destruct (He _ _ E) as (_ & data' & Hd' & Hp). congruence.
  - specialize (He _ _ E). cbn in He. congruence.
  - left. by rewrite Ho.
Qed.

(** Only the installed and the set aside files matter. *)
Definition same_files (names : list binary) (s s' : machine) : Prop := forall n, n ∉ names ->
  mc_files s' !! (Installed, n) = mc_files s !! (Installed, n) /\ mc_files s' !! (Previous, n) = mc_files s !! (Previous, n).

Lemma entry_ok_same s s' names n x : same_files names s s' -> n ∉ names -> entry_ok s n x -> entry_ok s' n x.
Proof. intros Hs Hn. destruct x as [p|]; cbn; [| done]. by rewrite (proj2 (Hs n Hn)). Qed.

(** A change of one binary, with what becomes of its entry. *)
Lemma backups_change b b' n s s' :
  backups_ok b s -> same_files [n] s s' -> (forall t, t <> (Installed, n) -> b' !! t = b !! t) ->
  match b' !! (Installed, n) with
  | Some x => entry_ok s' n x
  | None => mc_files s' !! (Installed, n) = files0 !! (Installed, n)
  end -> backups_ok b' s'.
Proof.
  intros [Ht He Ho] Hs Hb Hn. split.
  - intros t x E. destruct (decide (t = (Installed, n))) as [->|Hne]; [done |]. rewrite Hb in E by done. by eapply Ht.
  - intros n' x E. destruct (decide (n' = n)) as [->|Hne]; [by rewrite E in Hn |].
    rewrite Hb in E by congruence. eapply entry_ok_same; [exact Hs | by rewrite list_elem_of_singleton | by apply He].
  - intros n' E. destruct (decide (n' = n)) as [->|Hne]; [by rewrite E in Hn |].
    rewrite Hb in E by congruence. destruct (Hs n') as [-> _]; [by rewrite list_elem_of_singleton |]. by apply Ho.
Qed.

(** ** Renaming *)

Definition renamed (a b : file) (data : bytes) (s : machine) : machine :=
  did (Moved a b) (MkMachine (delete a (<[b := data]> (mc_files s))) (mc_deeds s)).

Lemma rename_safe (P : machine -> Prop) (Q : result unit -> machine -> Prop) a b s : forall more,
  (forall s1, mc_files s1 = mc_files s -> P s1) ->
  (forall s1 data data', mc_files s1 = mc_files s -> mc_files s !! a = Some data -> (a.1 <> Staged -> data' = data) ->
     P (renamed a b data' s1) /\ Q (Ok tt) (renamed a b data' s1)) ->
  (forall e s1, mc_files s1 = mc_files s -> Q (Err e) s1) ->
  safe P Q (rename_again more a b) s.
Proof.
  intros more Hs Hok Herr. assert (H : forall s1, mc_files s1 = mc_files s -> safe P Q (rename_again more a b) s1); [| by apply H].
  induction more as [|more IH]; intros s1 H1; cbn [rename_again]; (split; [by apply Hs |]); intros ev; cbn.
  all: destruct (ev_fails ev); cbn; [| destruct (mc_files s1 !! a) as [data|] eqn:Ea; cbn].
  all: try (split; [by apply Hs |]).
  1,3: by apply Herr.
  2: { intros ev'. cbn. destruct (ev_late ev'); [split; [by apply Hs | by apply Herr] | by apply IH]. }
  3: { intros ev'. cbn. destruct (ev_late ev'); [split; [by apply Hs | by apply Herr] | by apply IH]. }
  all: apply (Hok s1 data); [done | by rewrite <- H1 |]; intros Hn; by rewrite bool_decide_false.
Qed.

(** ** Rolling back *)

Record entries_ok (entries : list (file * option file)) (s : machine) : Prop := MkEntriesOk {
  eo_distinct : NoDup entries.*1;
  eo_entry : forall t x, (t, x) ∈ entries -> exists n, t = (Installed, n) /\ entry_ok s n x;
}.

Lemma backups_entries b s : backups_ok b s -> entries_ok (iterate b) s.
Proof using All.
  intros [Ht He Ho]. split.
  - rewrite Hiterate. apply NoDup_fst_map_to_list.
  - intros t x H. rewrite Hiterate in H. apply elem_of_map_to_list in H. specialize (Ht _ _ H).
    destruct t as [p n]. cbn in Ht. subst p. exists n. split; [done | by apply He].
Qed.

Lemma entries_rest t x entries s s' n : t = (Installed, n) ->
  entries_ok ((t, x) :: entries) s -> same_files [n] s s' -> entries_ok entries s'.
Proof.
  intros -> [Hnd He] Hs. cbn in Hnd. apply NoDup_cons in Hnd as [Hn Hnd]. split; [done |].
  intros t y H. destruct (He t y) as (n' & -> & Hy); [by right |]. exists n'. split; [done |].
  eapply entry_ok_same; [exact Hs | | exact Hy]. rewrite list_elem_of_singleton. intros ->. apply Hn.
  apply list_elem_of_fmap. by exists ((Installed, n), y).
Qed.

Lemma same_files_refl names s : same_files names s s.
Proof. done. Qed.

Lemma same_removed n s : same_files [n] s (did (Removed (Installed, n)) (MkMachine (delete (Installed, n) (mc_files s)) (mc_deeds s))).
Proof. intros n' Hn. rewrite list_elem_of_singleton in Hn. cbn. by rewrite !lookup_delete_ne by congruence. Qed.

Lemma same_renamed n a b data s : (a = (Staged, n) \/ a = (Previous, n) \/ a = (Installed, n)) -> (b = (Previous, n) \/ b = (Installed, n)) ->
  same_files [n] s (renamed a b data s).
Proof.
  intros Ha Hb n' Hn. rewrite list_elem_of_singleton in Hn. cbn.
  rewrite !lookup_delete_ne by (destruct Ha as [->|[->| ->]]; congruence).
  by rewrite !lookup_insert_ne by (destruct Hb as [->| ->]; congruence).
Qed.

Lemma kept_change n s s' : kept s -> same_files [n] s s' ->
  (forall data, files0 !! (Installed, n) = Some data -> mc_files s' !! (Installed, n) = Some data \/ mc_files s' !! (Previous, n) = Some data) ->
  kept s'.
Proof.
  intros Hk Hs Hn n' data Hd. destruct (decide (n' = n)) as [->|Hne]; [by apply Hn |].
  destruct (Hs n') as [-> ->]; [by rewrite list_elem_of_singleton | by apply Hk].
Qed.

(** The binary is what it was, unless it could not be put back. *)
Definition back (n : binary) (s : machine) : Prop :=
  mc_files s !! (Installed, n) = files0 !! (Installed, n) \/
  match files0 !! (Installed, n) with
  | Some data => mc_files s !! (Previous, n) = Some data /\ NotMoved (Previous, n) (Installed, n) ∈ mc_deeds s
  | None => NotRemoved (Installed, n) ∈ mc_deeds s
  end.

Lemma back_grown n n' s s' : back n s -> same_files [n'] s s' -> grown s s' -> n <> n' -> back n s'.
Proof.
  intros Hb Hs [more E] Hn. unfold back in *. destruct (Hs n) as [-> ->]; [by rewrite list_elem_of_singleton |].
  rewrite E. destruct Hb as [Hb|Hb]; [by left | right].
  destruct (files0 !! (Installed, n)); [destruct Hb as [Hp Hb]; split; [exact Hp |] |]; apply elem_of_app; by left.
Qed.

Lemma remove_target_safe n x s : kept s -> entry_ok s n x ->
  safe kept (fun _ s1 => same_files [n] s s1 /\ grown s s1 /\ entry_ok s1 n x /\ (x = None -> back n s1))
    (call (Remove (Installed, n))) s.
Proof.
  intros Hk Hx. apply safe_call; [done |]. intros ev. pose proof (exec_deeds (Remove (Installed, n)) ev s) as Hg.
  set (s1 := (exec (Remove (Installed, n)) ev s).2) in *.
  assert (Hs : same_files [n] s s1 /\ mc_files s1 !! (Previous, n) = mc_files s !! (Previous, n) /\ (x = None -> back n s1)).
  { subst s1. cbn. destruct (ev_fails ev); cbn.
    - split; [done |]. split; [done |]. intros ->. cbn in Hx. right. rewrite Hx. cbn. apply elem_of_app. right. by left.
    - destruct (mc_files s !! (Installed, n)) as [data|] eqn:E; cbn.
      + split; [apply same_removed |]. split; [by rewrite lookup_delete_ne |]. intros ->. left. cbn. by rewrite lookup_delete_eq, Hx.
      + split; [done |]. split; [done |]. intros ->. left. by rewrite E, Hx. }
  destruct Hs as (Hs & Hp & Hback). assert (Hx1 : entry_ok s1 n x) by (destruct x; cbn in *; [by rewrite Hp | done]).
  split; [| by split_and!]. apply (kept_change n s); [done | done |]. intros data Hd.
  destruct x as [p|]; cbn in Hx1; [| congruence]. destruct Hx1 as (_ & data' & Hd' & Hp'). right. congruence.
Qed.

Lemma restore_target_safe n s : kept s -> entry_ok s n (Some (Previous, n)) ->
  safe kept (fun _ s1 => same_files [n] s s1 /\ grown s s1 /\ back n s1) (call (Rename (Previous, n) (Installed, n))) s.
Proof.
  intros Hk (_ & data & Hd & Hp). apply safe_call; [done |]. intros ev.
  pose proof (exec_deeds (Rename (Previous, n) (Installed, n)) ev s) as Hg.
  set (s1 := (exec (Rename (Previous, n) (Installed, n)) ev s).2) in *.
  assert (Hs : same_files [n] s s1 /\ back n s1).
  { subst s1. cbn. destruct (ev_fails ev); cbn.
    - split; [done |]. right. rewrite Hd. split; [done |]. cbn. apply elem_of_app. right. by left.
    - rewrite Hp. cbn. change (did _ _) with (renamed (Previous, n) (Installed, n) data s). split; [apply same_renamed; auto |].
      left. cbn. rewrite lookup_delete_ne by done. by rewrite lookup_insert_eq, Hd. }
  destruct Hs as [Hs Hb]. split; [| by split_and!]. apply (kept_change n s); [done | done |]. intros d Hd'.
  destruct Hb as [Hb|Hb]; [left; congruence | right]. rewrite Hd in Hb. destruct Hb as [Hb _]. congruence.
Qed.

Lemma rollback_safe : forall entries s,
  kept s -> entries_ok entries s -> (forall n, (Installed, n) ∉ entries.*1 -> back n s) ->
  safe kept (fun _ s' => forall n, back n s') (rollbackFiles entries) s.
Proof.
  induction entries as [|[t x] rest IH]; intros s Hk He Hb; cbn [rollbackFiles].
  { apply safe_ret; [done |]. intros n. apply Hb. cbn. apply not_elem_of_nil. }
  destruct (eo_entry _ _ He t x) as (n & -> & Hx); [by left |].
  assert (Hnext : forall s1, same_files [n] s s1 -> grown s s1 -> back n s1 -> kept s1 ->
    safe kept (fun _ s' => forall n, back n s') (rollbackFiles rest) s1).
  { intros s1 Hs Hg Hn Hk1. apply IH; [done | by eapply entries_rest |]. intros n' Hn'.
    destruct (decide (n' = n)) as [->|Hne]; [done |]. eapply back_grown; [apply Hb | done | done | done].
    cbn. rewrite not_elem_of_cons. split; [congruence | done]. }
  eapply safe_bind; [by apply remove_target_safe |]. intros _ s1 Hk1 (Hs1 & Hg1 & Hx1 & Hback).
  destruct x as [p|]; [| by apply Hnext; auto]. destruct (Hx1) as [-> _].
  eapply safe_bind; [by apply restore_target_safe |]. intros _ s2 Hk2 (Hs2 & [more2 Hg2] & Hb2).
  apply Hnext; [| | done | done].
  - intros n' Hn'. destruct (Hs1 n' Hn') as [<- <-]. by apply Hs2.
  - destruct Hg1 as [more1 Hg1]. exists (more1 ++ more2). by rewrite Hg2, Hg1, app_assoc.
Qed.
(** ** Committing *)

Lemma read_safe (P : machine -> Prop) (Q : result bytes -> machine -> Prop) p s :
  P s -> (forall r, (forall data, r = Ok data -> mc_files s !! p = Some data) -> Q r s) -> safe P Q (call (ReadFile p)) s.
Proof.
  intros Hs H. apply safe_call; [done |]. intros ev. cbn. split; [done |]. apply H.
  destruct (ev_fails ev); [by intros |]. destruct (mc_files s !! p); by intros d [= <-].
Qed.

Lemma same_trans names s1 s2 s3 : same_files names s1 s2 -> same_files names s2 s3 -> same_files names s1 s3.
Proof. intros H1 H2 n Hn. destruct (H1 n Hn) as [<- <-]. by apply H2. Qed.

(** What the first part of a pass leaves: the old file, if any, set aside. *)
Definition set_aside (n : binary) (b b' : backups) (s s' : machine) : Prop :=
  backups_ok b' s' /\ same_files [n] s s' /\
  (b' = b /\ mc_files s' !! (Installed, n) = None \/ b' = <[(Installed, n) := Some (Previous, n)]> b).

Lemma forget_backup_safe n b s : backups_ok b s -> b !! (Installed, n) = None ->
  safe kept (fun _ s' => backups_ok b s' /\ same_files [n] s s') (call (Remove (Previous, n))) s.
Proof.
  intros Hb Hn. apply safe_call; [by apply backups_kept in Hb |]. intros ev. cbn.
  assert (Hsame : forall s1, mc_files s1 = mc_files s -> kept s1 /\ backups_ok b s1 /\ same_files [n] s s1).
  { intros s1 E. assert (backups_ok b s1) by by eapply backups_files. split; [by eapply backups_kept |]. split; [done |]. unfold same_files; by rewrite E. }
  destruct (ev_fails ev); cbn; [by apply Hsame |]. destruct (mc_files s !! (Previous, n)) as [data|]; cbn; [| by apply Hsame].
  set (s' := did _ _). assert (Hs : same_files [n] s s').
  { intros n' Hn'. rewrite list_elem_of_singleton in Hn'. cbn. by rewrite !lookup_delete_ne by congruence. }
  assert (Hb' : backups_ok b s').
  { eapply (backups_change b b n s); [done | done | done |]. rewrite Hn. cbn. rewrite lookup_delete_ne by done. by apply (bo_others _ _ Hb). }
  split; [by eapply backups_kept | by split].
Qed.

Lemma aside_safe n b s : backups_ok b s -> b !! (Installed, n) = None -> is_Some (mc_files s !! (Installed, n)) ->
  safe kept (fun r s' => match r with
                         | Ok _ => set_aside n b (<[(Installed, n) := Some (Previous, n)]> b) s s'
                         | Err _ => mc_files s' = mc_files s
                         end) (renameIntoPlace (Installed, n) (Previous, n)) s.
Proof.
  intros Hb Hn [old Hold]. pose proof (bo_others _ _ Hb n Hn) as H0.
  apply rename_safe; [intros s1 E; by eapply kept_files, backups_kept | | done].
  intros s1 data data' E Hd Hdata. rewrite Hdata by done. clear Hdata data'. assert (data = old) as -> by congruence.
  set (s' := renamed _ _ _ _). assert (Hs : same_files [n] s s') by (unfold same_files; rewrite <- E; apply same_renamed; auto).
  assert (Hb' : backups_ok (<[(Installed, n) := Some (Previous, n)]> b) s').
  { eapply (backups_change b _ n s); [done | done | intros t Ht; by rewrite lookup_insert_ne |]. rewrite lookup_insert_eq. cbn.
    split; [done |]. exists old. split; [congruence |]. rewrite lookup_delete_ne by done. by rewrite lookup_insert_eq. }
  split; [by eapply backups_kept |]. split; [done |]. split; [done | by right].
Qed.

(** The entry of a file that was put where nothing was. *)
Definition with_new (n : binary) (b : backups) : backups :=
  match b !! (Installed, n) with Some _ => b | None => <[(Installed, n) := None]> b end.

Lemma place_safe n b b0 s0 s : set_aside n b0 b s0 s -> b0 !! (Installed, n) = None ->
  safe kept (fun r s' => same_files [n] s0 s' /\
               match r with
               | Ok _ => backups_ok (with_new n b) s'
               | Err _ => backups_ok b s'
               end) (renameIntoPlace (Staged, n) (Installed, n)) s.
Proof.
  intros (Hb & Hs0 & Hcase) Hn.
  assert (Hsame : forall s1, mc_files s1 = mc_files s -> backups_ok b s1 /\ same_files [n] s0 s1).
  { intros s1 E. split; [by eapply backups_files |]. eapply same_trans; [exact Hs0 |]. unfold same_files; by rewrite E. }
  apply rename_safe; [intros s1 E; by eapply backups_kept, Hsame | | intros e s1 E; split; by apply Hsame].
  intros s1 data data' E Hd _. set (s' := renamed _ _ _ _).
  assert (Hs : same_files [n] s s') by (unfold same_files; rewrite <- E; apply same_renamed; auto).
  assert (Hb' : backups_ok (with_new n b) s').
  { eapply (backups_change b _ n s); [done | done | |].
    - intros t Ht. unfold with_new. destruct (b !! (Installed, n)); [done |]. by rewrite lookup_insert_ne.
    - unfold with_new. destruct Hcase as [[-> Hnone]| ->].
      + rewrite Hn, lookup_insert_eq. cbn. rewrite <- (bo_others _ _ Hb n Hn). exact Hnone.
      + rewrite lookup_insert_eq. rewrite lookup_insert_eq. pose proof (bo_entries _ _ Hb n _ (lookup_insert_eq _ _ _)) as [_ (d & Hd0 & Hp)].
        cbn. split; [done |]. exists d. split; [done |]. rewrite lookup_delete_ne by done. rewrite lookup_insert_ne by done. by rewrite E. }
  split; [by eapply backups_kept |]. split; [| done]. by eapply same_trans.
Qed.

Lemma commit_one_safe n b s : backups_ok b s -> b !! (Installed, n) = None ->
  safe kept (fun r s' => backups_ok r.1 s' /\ same_files [n] s s' /\
               (forall t, t <> (Installed, n) -> r.1 !! t = b !! t) /\
               (r.2 = None -> exists data, mc_files s' !! (Installed, n) = Some data /\ genuine n data))
    (commit_one Sum256 m n b) s.
Proof.
  intros Hb Hn. unfold commit_one. assert (Hk : kept s) by by eapply backups_kept.
  eapply safe_bind; [apply (read_safe kept (fun _ s' => s' = s)); [done | by intros] |]. intros staged s1 _ ->.
  destruct staged as [stagedData|err]; [| by apply safe_ret].
  eapply safe_bind; [by apply forget_backup_safe |]. intros _ s1 _ [Hb1 Hs1].
  eapply (safe_bind _ (fun r s' => r = bool_decide (is_Some (mc_files s1 !! (Installed, n))) /\ s' = s1)).
  { apply safe_call; [by eapply backups_kept |]. intros ev. cbn. split; [by eapply backups_kept | done]. }
  intros exists_ s2 _ [He ->].
  eapply (safe_bind _ (fun r s' => match r with
     | Ok _ => set_aside n b (if (exists_ : bool) then <[(Installed, n) := Some (Previous, n)]> b else b) s s'
     | Err _ => mc_files s' = mc_files s1 end)).
  { destruct exists_.
    - symmetry in He. apply bool_decide_eq_true in He. eapply safe_mono; [by apply aside_safe | done |].
      intros [u|e] s' _; [| done]. intros (H1 & H2 & H3). split; [done |]. split; [by eapply same_trans | done].
    - apply safe_ret; [by eapply backups_kept |]. split; [done |]. split; [done |]. left. split; [done |].
      symmetry in He. apply bool_decide_eq_false, eq_None_not_Some in He. done. }
  intros [u|err] s2 Hk2 H.
  2:{ apply safe_ret; [done |]. split; [by eapply backups_files |]. split; [| by split]. eapply same_trans; [exact Hs1 |]. unfold same_files; by rewrite H. }
  cbv zeta. set (b1 := if exists_ then _ else b) in *.
  assert (Hb1t : forall t, t <> (Installed, n) -> b1 !! t = b !! t).
  { intros t Ht. unfold b1. destruct exists_; [by rewrite lookup_insert_ne | done]. }
  eapply safe_bind; [by eapply place_safe |]. intros [u'|err] s3 Hk3 [Hs3 Hb3]; [| apply safe_ret; [done | by split_and!]].
  change (match b1 !! (Installed, n) with Some _ => b1 | None => <[(Installed, n) := None]> b1 end) with (with_new n b1).
  assert (Hnt : forall t, t <> (Installed, n) -> with_new n b1 !! t = b !! t).
  { intros t Ht. unfold with_new. destruct (b1 !! (Installed, n)); [| rewrite lookup_insert_ne by done]; by apply Hb1t. }
  eapply safe_bind; [apply (read_safe kept (fun r s' => s' = s3 /\ forall data, r = Ok data -> mc_files s3 !! (Installed, n) = Some data));
    [exact Hk3 | intros r Hr; split; [done | exact Hr]] |].
  clear He. intros [data|err] s4 _ [-> Hdata]; [| apply safe_ret; [done | by split_and!]]. specialize (Hdata _ eq_refl).
  case_bool_decide as Ed; cbn [negb]; [| apply safe_ret; [done | by split_and!]].
  case_bool_decide as Eu; [apply safe_ret; [done | split_and!; try done]; intros _; exists data; split; [done | by intros ?] |].
  destruct (verifyPayloadDigest _ _ _ _) as [[]|e] eqn:Ev; (apply safe_ret; [done | split_and!; try done]).
  intros _. exists data. split; [exact Hdata | intros _; exact Ev].
Qed.

Lemma unlisted_back b s n : backups_ok b s -> (Installed, n) ∉ (iterate b).*1 -> back n s.
Proof using All.
  intros Hb Hn. left. apply (bo_others _ _ Hb). apply eq_None_not_Some. intros [x Hx]. apply Hn.
  rewrite Hiterate. apply list_elem_of_fmap. exists ((Installed, n), x). split; [done |]. by apply elem_of_map_to_list.
Qed.

Definition every : list binary := [AgentBinary; TrayBinary; UninstallBinary].

Lemma commit_all_safe : forall names before b s,
  backups_ok b s -> NoDup (before ++ names) -> (forall n, n ∈ names -> b !! (Installed, n) = None) -> in_place before s ->
  safe kept (fun r s' => match r with
                         | Ok b' => backups_ok b' s' /\ in_place (before ++ names) s'
                         | Err _ => forall n, back n s'
                         end) (commit_all Sum256 iterate m names b) s.
Proof using All.
  induction names as [|n rest IH]; intros before b s Hb Hnd Hnone Hin; cbn [commit_all].
  { apply safe_ret; [by eapply backups_kept |]. rewrite app_nil_r. by split. }
  eapply safe_bind; [apply commit_one_safe; [exact Hb | apply Hnone; by left] |]. intros [b' res] s1 Hk1 (Hb1 & Hs1 & Hkeep & Hres).
  cbn [fst snd] in *. apply NoDup_app in Hnd as (Hnd1 & Hnew & Hnd2). apply NoDup_cons in Hnd2 as [Hn Hnd2].
  destruct res as [err|].
  - eapply safe_bind; [apply rollback_safe; [done | by apply backups_entries |] |].
    + intros n' Hn'. by eapply unlisted_back.
    + intros ? s2 Hk2 H. by apply safe_ret.
  - destruct (Hres eq_refl) as (data & Hdata & Hgen). specialize (IH (before ++ [n]) b' s1 Hb1). rewrite <- app_assoc in IH. apply IH.
    + apply NoDup_app. split; [done |]. split; [done |]. by apply NoDup_cons.
    + intros n' Hn'. rewrite Hkeep by (intros [= ->]; done). apply Hnone. by right.
    + intros n' Hn'. apply elem_of_app in Hn' as [Hn'|Hn'].
      * assert (n' <> n) by (intros ->; apply (Hnew n); [done | by left]).
        destruct (Hs1 n') as [-> _]; [by rewrite list_elem_of_singleton | by apply Hin].
      * apply list_elem_of_singleton in Hn' as ->. by exists data.
Qed.

(** ** The whole run *)

Definition fine (s : machine) : Prop := kept s \/ in_place every s.

Lemma fine_stays {A : Type} (p : prog A) s : uses stays p -> fine s -> safe fine (fun _ s' => mc_files s' = mc_files s) p s.
Proof.
  intros Hu Hf. pose proof (safe_stays (fun fs => fine (MkMachine fs [])) p s Hu Hf) as H.
  exact H.
Qed.

Lemma in_place_files names s s' : mc_files s' = mc_files s -> in_place names s -> in_place names s'.
Proof. unfold in_place. by intros ->. Qed.

Lemma back_kept s : (forall n, back n s) -> kept s.
Proof.
  intros Hb n data Hd. destruct (Hb n) as [H|H]; [left; congruence |]. rewrite Hd in H. by right; destruct H.
Qed.

Lemma setup_fine_kept {A : Type} (Q : A -> machine -> Prop) (p : prog A) s : safe kept Q p s -> safe fine Q p s.
Proof. intros H. eapply safe_mono; [exact H | by left | done]. Qed.

Lemma rolled_back b replacing s :
  backups_ok b s ->
  safe fine (fun _ s' => forall n, back n s') (rollbackInstallation iterate b replacing) s.
Proof using All.
  intros Hb. unfold rollbackInstallation. assert (Hf : fine s) by (left; by eapply backups_kept).
  eapply safe_bind; [apply fine_stays; [apply command_stays | done] |]. intros ? s1 Hf1 E1.
  eapply safe_bind; [apply fine_stays; [apply stopped_stays | done] |]. intros ? s2 Hf2 E2.
  eapply (safe_bind _ (fun _ s' => mc_files s' = mc_files s)).
  { destruct replacing; [by apply safe_ret; [| by rewrite E2] |].
    eapply safe_mono; [apply fine_stays; [apply command_stays | exact Hf2] | done |]. intros ? s' _ E. by rewrite E, E2. }
  intros ? s3 Hf3 E3. assert (Hb3 : backups_ok b s3) by (eapply backups_files; [exact E3 | done]).
  eapply safe_bind.
  { apply setup_fine_kept, rollback_safe; [by eapply backups_kept | by apply backups_entries |]. intros n Hn. by eapply unlisted_back. }
  intros ? s4 Hf4 Hback.
  assert (Hrest : forall A (p : prog A), uses stays p -> safe fine (fun _ s' => forall n, back n s') p s4).
  { intros A p Hu. eapply safe_mono; [apply safe_both; [by apply (fine_stays p s4) |] | by intros s' [H _] |].
    - apply (safe_grown p s4). 
    - intros ? s' _ [E Hg] n. destruct (Hback n) as [H|H]; [left; by rewrite E | right]. rewrite E. destruct Hg as [more ->].
      destruct (files0 !! (Installed, n)); [destruct H; split; [done |] |]; apply elem_of_app; by left. }
  destruct replacing; [| by apply safe_ret]. apply Hrest. unfold serviceRegistrationPresent. uses_all.
Qed.

(** The service has reported that it runs. *)
Definition seen_running (s : machine) : Prop := exists output,
  Asked (service "status") (Ok output) ∈ mc_deeds s /\ says_running output = true.

Lemma seen_grown s s' : seen_running s -> grown s s' -> seen_running s'.
Proof. intros (output & H & Ho) [more E]. exists output. split; [| done]. rewrite E. apply elem_of_app. by left. Qed.

Lemma safe_true {A : Type} (p : prog A) s : safe (fun _ => True) (fun _ _ => True) p s.
Proof. eapply safe_mono; [apply safe_grown | done | done]. Qed.

Lemma command_deed args s :
  safe (fun _ => True) (fun r s' => forall output, r = (output, None) -> Asked args (Ok output) ∈ mc_deeds s') (call (AgentCommand args)) s.
Proof.
  apply safe_call; [done |]. intros ev. split; [done |]. cbn. destruct (mc_files s !! _); [| by intros output [=]].
  destruct (ev_fails ev); [by intros output [=] |]. intros output [= <-]. apply elem_of_app. right. by left.
Qed.

Lemma running_seen : forall more s, safe (fun _ => True) (okay (fun _ s' => seen_running s')) (running_again more) s.
Proof.
  assert (Hlate : forall err (p : prog (result unit)) s, (forall s', safe (fun _ => True) (okay (fun _ s' => seen_running s')) p s') ->
    safe (fun _ => True) (okay (fun _ s' => seen_running s')) (let* late := call Late in if (late : bool) then Ret (Err err) else p) s).
  { intros err p s H. eapply safe_bind; [apply safe_true |]. intros [|] s' _ _; [by apply safe_ret | apply H]. }
  induction more as [|more IH]; intros s; cbn [running_again]; (eapply safe_bind; [apply command_deed |]); intros [output [err|]] s1 _ Hd.
  - by apply safe_ret.
  - destruct (says_running output) eqn:E; apply safe_ret; try done. exists output. split; [by apply Hd | done].
  - by apply Hlate.
  - destruct (says_running output) eqn:E; [| by apply Hlate]. apply safe_ret; [done |]. exists output. split; [by apply Hd | done].
Qed.

Lemma okay_any {A : Type} (p : prog (result A)) s : safe (fun _ => True) (okay (fun _ _ => True)) p s.
Proof. eapply safe_mono; [apply safe_true | done |]. by intros [a|e]. Qed.

Lemma start_seen s : safe (fun _ => True) (okay (fun _ s' => seen_running s')) start_service s.
Proof.
  unfold start_service. do 2 (eapply safe_then; [apply okay_any |]; intros _ ? _ _).
  do 2 (eapply safe_bind; [apply safe_true |]; intros ? ? _ _).
  do 2 (eapply safe_then; [apply okay_any |]; intros _ ? _ _). apply running_seen.
Qed.

Lemma remove_backups_safe b : forall entries s, (forall t p, (t, Some p) ∈ entries -> p.1 = Previous) -> in_place every s ->
  entries ⊆+ map_to_list (b : backups) ->
  safe fine (fun _ s' => in_place every s') (remove_backups entries) s.
Proof.
  induction entries as [|[t [p|]] rest IH]; intros s He Hin Hsub; cbn [remove_backups]; [by apply safe_ret; [right |] | |].
  - eapply (safe_bind _ (fun _ s' => in_place every s')).
    + apply safe_call; [by right |]. intros ev. cbn. assert (Hp : p.1 = Previous) by (apply (He t); by left).
      assert (H : in_place every (exec (Remove p) ev s).2); [| by split; [right |]]. cbn.
      destruct (ev_fails ev); cbn; [done |]. destruct (mc_files s !! p) as [d|]; cbn; [| done].
      intros n Hn. destruct (Hin n Hn) as (data & Hd & Hg). exists data. split; [| done]. cbn. rewrite lookup_delete_ne; [done |].
      intros ->. cbn in Hp. discriminate Hp.
    + intros _ s1 _ H1. apply IH; [intros t' p' H'; apply (He t'); by right | done |]. by eapply submseteq_trans; [apply submseteq_cons |].
  - apply IH; [intros t' p' H'; apply (He t'); by right | done |]. by eapply submseteq_trans; [apply submseteq_cons |].
Qed.

Lemma install_safe s : mc_files s = files0 ->
  safe fine (fun r s' => match r with
                         | Ok _ => in_place every s'
                         | Err _ => forall n, back n s'
                         end) (install Sum256 iterate m) s.
Proof using All.
  intros E0. unfold install. assert (Hf : fine s) by (left; intros n data; rewrite E0; by left).
  eapply safe_bind; [apply fine_stays; [unfold previousInstallationPresent; uses_parts | done] |]. intros replacing s1 Hf1 E1.
  eapply safe_bind; [apply fine_stays; [apply stop_stays | done] |]. intros ? s2 Hf2 E2.
  assert (Hb : backups_ok ∅ s2).
  { split; [by intros t x H; rewrite lookup_empty in H | by intros n x H; rewrite lookup_empty in H |]. intros n _. by rewrite E2, E1, E0. }
  eapply safe_bind; [apply setup_fine_kept, (commit_all_safe every [] ∅ s2 Hb); [by repeat constructor; set_solver | by intros; rewrite lookup_empty | by intros n H; apply not_elem_of_nil in H] |].
  intros [b|err] s3 _ H3; [| by apply safe_ret; [left; apply back_kept |]]. destruct H3 as [Hb3 Hin3]. cbn [app] in Hin3.
  eapply safe_bind; [apply fine_stays; [apply start_stays | by right] |]. intros started s4 Hf4 E4.
  pose proof (backups_files _ _ _ E4 Hb3) as Hb4. pose proof (in_place_files _ _ _ E4 Hin3) as Hin4.
  destruct started as [u|err].
  2:{ eapply safe_bind; [by apply rolled_back |]. intros ? s5 Hf5 H5. by apply safe_ret. }
  eapply safe_bind; [apply fine_stays; [by uses_parts | by right] |]. intros ? s5 Hf5 E5.
  eapply safe_bind; [apply fine_stays; [by uses_parts | done] |]. intros ? s6 Hf6 E6.
  pose proof (in_place_files _ _ _ E6 (in_place_files _ _ _ E5 Hin4)) as Hin6.
  eapply safe_bind; [apply (remove_backups_safe b); [| done | by rewrite Hiterate] |].
  { intros t p Hp. rewrite Hiterate in Hp. apply elem_of_map_to_list in Hp. pose proof (bo_targets _ _ Hb4 _ _ Hp) as Ht.
    destruct t as [sl n]. cbn in Ht. subst sl. by destruct (bo_entries _ _ Hb4 _ _ Hp) as [-> _]. }
  intros ? s7 Hf7 Hin7. eapply safe_bind; [apply fine_stays; [by uses_parts | done] |]. intros ? s8 Hf8 E8.
  apply safe_ret; [done |]. exact (in_place_files _ _ _ E8 Hin7).
Qed.
End Kept.

(** ** The commands *)

Section Commands.
Context (Sum256 : bytes -> bytes) (m : bytes) (iterate : backups -> list (file * option file)).

(** The service was asked to stop before anything else, and never to be
    unregistered. *)
Record commands_ok (s : machine) : Prop := MkCommandsOk {
  co_registered : forall answer, Asked (service "uninstall") answer ∉ mc_deeds s;
  co_first : match mc_deeds s with [] => True | d :: _ => exists answer, d = Asked (service "stop") answer end;
}.

Definition stop_asked (s : machine) : Prop := commands_ok s /\ mc_deeds s <> [].

Lemma exec_commands {R : Type} (o : op R) ev s : registered_stays R o = true -> stop_asked s -> stop_asked (exec o ev s).2.
Proof.
  intros Ho [[Hu Hf] Hne]. destruct (exec_deeds o ev s) as [more E].
  assert (Hmore : forall answer, Asked (service "uninstall") answer ∉ more).
  { assert (Hnone : mc_deeds (exec o ev s).2 = mc_deeds s -> more = []).
    { intros Es. rewrite E in Es. apply (f_equal length) in Es. rewrite length_app in Es. destruct more; [done | cbn in Es; lia]. }
    assert (Hone : forall d, mc_deeds (exec o ev s).2 = mc_deeds s ++ [d] -> more = [d]).
    { intros d Es. rewrite E in Es. by apply app_inv_head in Es. }
    intros answer. clear E. destruct o as [| |n data| |p|p|p|a b|args| |e]; try (rewrite (Hnone eq_refl); apply not_elem_of_nil); cbn in *.
    - destruct (ev_fails ev); rewrite (Hnone eq_refl); apply not_elem_of_nil.
    - destruct (ev_fails ev); rewrite (Hnone eq_refl); apply not_elem_of_nil.
    - destruct (ev_fails ev); [rewrite (Hone _ eq_refl) | destruct (mc_files s !! p); [rewrite (Hone _ eq_refl) | rewrite (Hnone eq_refl)]];
        rewrite ?list_elem_of_singleton; [discriminate | discriminate | apply not_elem_of_nil].
    - destruct (ev_fails ev); [| destruct (mc_files s !! a)]; rewrite (Hone _ eq_refl), list_elem_of_singleton; discriminate.
    - destruct (mc_files s !! _); [| rewrite (Hnone eq_refl); apply not_elem_of_nil].
      destruct (ev_fails ev); rewrite (Hone _ eq_refl), list_elem_of_singleton; intros [= <- _]; discriminate Ho.
    - rewrite (Hone _ eq_refl), list_elem_of_singleton. discriminate. }
  split; [split |]; rewrite E.
  - intros answer Hin. apply elem_of_app in Hin as [Hin|Hin]; [by apply (Hu answer) | by apply (Hmore answer)].
  - destruct (mc_deeds s); [done | exact Hf].
  - destruct (mc_deeds s); done.
Qed.

Lemma registered_safe {A : Type} (p : prog A) s :
  uses registered_stays p -> stop_asked s -> safe commands_ok (fun _ s' => stop_asked s') p s.
Proof.
  intros Hu Hs. eapply safe_mono; [apply (safe_uses registered_stays stop_asked p); [| exact Hu | exact Hs] | by intros s' [H _] | done].
  intros R o ev s'. apply exec_commands.
Qed.

Lemma rollback_files_registered entries : uses registered_stays (rollbackFiles entries).
Proof. induction entries as [|[t [p|]] rest IH]; cbn [rollbackFiles]; uses_parts. Qed.

Lemma remove_backups_registered entries : uses registered_stays (remove_backups entries).
Proof. induction entries as [|[t [p|]] rest IH]; cbn [remove_backups]; uses_parts. Qed.

Lemma rename_registered more a b : uses registered_stays (rename_again more a b).
Proof. induction more as [|more IH]; cbn [rename_again]; uses_parts. Qed.

Lemma commit_one_registered n b : uses registered_stays (commit_one Sum256 m n b).
Proof.
  unfold commit_one, renameIntoPlace. repeat (uses_parts; try apply rename_registered).
Qed.

Lemma commit_registered names : forall b, uses registered_stays (commit_all Sum256 iterate m names b).
Proof.
  induction names as [|n rest IH]; intros b; cbn [commit_all]; [exact I |]. apply uses_bind; [apply commit_one_registered |].
  intros [b' [err|]]; [| apply IH]. apply uses_bind; [apply rollback_files_registered | done].
Qed.

Lemma replaced_registered b : uses registered_stays (rollbackInstallation iterate b true).
Proof.
  unfold rollbackInstallation, serviceRegistrationPresent. repeat (uses_all; try apply rollback_files_registered).
Qed.

Lemma stop_first s : mc_deeds s = [] -> is_Some (mc_files s !! (Installed, AgentBinary)) ->
  safe commands_ok (fun _ s' => stop_asked s') stopPreviousInstallation s.
Proof.
  intros Hd [data Ha]. assert (H0 : commands_ok s) by (split; rewrite Hd; [intros answer; apply not_elem_of_nil | done]).
  unfold stopPreviousInstallation, previousInstallationPresent.
  eapply (safe_bind _ (fun r s' => r = true /\ s' = s)).
  { apply safe_call; [done |]. intros ev. cbn. split; [done |]. split; [by rewrite bool_decide_true by (by eexists) | done]. }
  intros present s1 _ [-> ->]. eapply (safe_bind _ (fun _ s' => stop_asked s')).
  - eapply (safe_bind _ (fun _ s' => stop_asked s')).
    + eapply (safe_bind _ (fun _ s' => stop_asked s')); [| intros ? s2 H2 H2'; by apply safe_ret].
      apply safe_call; [done |]. intros ev. assert (H : stop_asked (exec (AgentCommand (service "stop")) ev s).2); [| by split; [apply H |]].
      cbn. rewrite Ha. destruct (ev_fails ev); cbn; (split; [split |]; cbn; rewrite Hd);
        first [ intros answer; cbn; rewrite list_elem_of_singleton; discriminate | by eexists | done ].
    + intros ? s2 _ H2. apply registered_safe; [| done]. apply uses_bind; [apply stopped_stays | done].
  - intros ? s2 _ H2. apply registered_safe; [| done]. by uses_parts.
Qed.

Lemma install_commands s : mc_deeds s = [] -> is_Some (mc_files s !! (Installed, AgentBinary)) ->
  safe commands_ok (fun _ s' => commands_ok s') (install Sum256 iterate m) s.
Proof.
  intros Hd Ha. assert (H0 : commands_ok s) by (split; rewrite Hd; [intros answer; apply not_elem_of_nil | done]).
  unfold install, previousInstallationPresent. eapply (safe_bind _ (fun r s' => r = true /\ s' = s)).
  { apply safe_call; [done |]. intros ev. cbn. split; [done |]. split; [by rewrite bool_decide_true | done]. }
  intros replacing s1 _ [-> ->]. eapply safe_bind; [by apply stop_first |]. intros ? s2 _ H2.
  eapply safe_mono; [apply registered_safe; [| exact H2] | done | intros ? s' H _; exact H].
  unfold commitStagedPayload. repeat (uses_parts; first [apply commit_registered | apply start_stays | apply replaced_registered | apply remove_backups_registered | idtac]).
Qed.
End Commands.

Lemma install_seen Sum256 m iterate s :
  safe (fun _ => True) (okay (fun _ s' => seen_running s')) (install Sum256 iterate m) s.
Proof.
  unfold install. do 2 (eapply safe_bind; [apply safe_true |]; intros ? ? _ _).
  eapply safe_bind; [apply safe_true |]. intros [b|err] s1 _ _; [| by apply safe_ret].
  eapply safe_bind; [apply start_seen |]. intros [u|err] s2 _ H2; [| eapply safe_bind; [apply safe_true |]; intros ? ? _ _; by apply safe_ret].
  assert (H : safe (fun _ => True) (fun _ s' => grown s2 s') (let* _ := call (Errand RegisterTray) in
    let* _ := call (Errand RegisterUninstall) in let* _ := remove_backups (iterate b) in let* _ := call (Errand EnrollAgent) in Ret (Ok tt)) s2)
    by apply safe_grown.
  eapply safe_mono; [exact H | done |]. intros r ? _ Hg. destruct r; [| done]. by eapply seen_grown.
Qed.

End Proofs.


(** ** Runs *)

Definition smooth : event := MkEvent false [] None EmptyString false.
Definition answering (output : string) : event := MkEvent false [] None output false.
Definition refused : event := MkEvent true [] None EmptyString false.
Definition at_last : event := MkEvent false [] None EmptyString true.

Definition demo_sum (data : bytes) : bytes := data.
Definition demo_manifest : bytes := bytes_of "01  hooshix-agent.exe" ++ Byte.x0a :: bytes_of "02 *hooshix-agent-tray.exe".

Definition staged_files : gmap file bytes :=
  <[(Staged, AgentBinary) := [Byte.x01]]> (<[(Staged, TrayBinary) := [Byte.x02]]> (<[(Staged, UninstallBinary) := [Byte.x03]]> ∅)).

Definition demo_machine : machine :=
  MkMachine (<[(Installed, AgentBinary) := [Byte.x09]]> (<[(Installed, TrayBinary) := [Byte.x08]]> staged_files)) [].

Definition demo_install : prog (result unit) := install demo_sum map_to_list demo_manifest.

(** Stopping: the presence of the Agent twice, [stop], [status], the tray and
    the processes. *)
Definition stopping (status : string) : list event := [smooth; smooth; smooth; answering status; smooth; smooth].

(** An upgrade: six operations for each of the two binaries that were there and
    five for the uninstaller, four steps, three commands, and the rest. *)
Definition demo_upgrade : list event :=
  stopping "stopped" ++ repeat smooth 17 ++ repeat smooth 6 ++ [answering "running"] ++ repeat smooth 5.


Definition is_asked (word : string) (d : deed) : bool :=
  match d with Asked args _ => bool_decide (args = service word) | _ => false end.

(** An upgrade whose first file stays locked ends with the previous build in
    place and its service stopped: only failures after the commit start it
    again. *)
Lemma failed_commit_stays_stopped :
  let '(s', r) := run (stopping "stopped" ++ [smooth; smooth; smooth; refused; at_last]) demo_install demo_machine in
  (exists err, r = Some (Err err)) /\
  (forall n, mc_files s' !! (Installed, n) = mc_files demo_machine !! (Installed, n)) /\
  existsb (is_asked "stop") (mc_deeds s') = true /\ existsb (is_asked "start") (mc_deeds s') = false.
Proof.
  vm_compute. split; [by eexists |]. split; [by intros [] | by split].
Qed.

(** The installer compares the whole answer of [service status] with the names
    of the states in which the service is not stopped; the Agent's answer begins
    with [service status:], so whatever the state, the wait is over at once. *)
Lemma stopped_wait_never_waits s ev rest data current :
  mc_files s !! (Installed, AgentBinary) = Some data -> ev_fails ev = false -> ev_output ev = status_output (state_name current) ->
  (run (ev :: rest) waitForServiceStopped s).2 = Some (Ok tt).
Proof.
  intros Ha Hf Ho. unfold waitForServiceStopped. cbn -[trimmed status_output]. rewrite Ha, Hf, Ho. cbn -[trimmed status_output].
  assert (E : still_running (trimmed (status_output (state_name current))) = false).
  { assert (H : forallb (fun name => negb (still_running (trimmed (status_output name)))) state_names = true) by (vm_compute; reflexivity).
    apply negb_true_iff. exact (proj1 (forallb_forall _ _) H _ (state_name_known current)). }
  by rewrite E.
Qed.

(** The installer dies after it has set the Agent aside; run again, it deletes
    that only copy, and a failure then unregisters the service of the previous
    installation and leaves no Agent at all. *)
Definition crashed : machine := (run (stopping "stopped" ++ repeat smooth 4) demo_install demo_machine).1.

Definition second_run : list event :=
  [smooth; smooth; smooth; smooth] ++ repeat smooth 16 ++ [refused] ++ [smooth; answering "stopped"] ++ repeat smooth 6.

Lemma rerun_loses_the_build :
  mc_files crashed !! (Previous, AgentBinary) = Some [Byte.x09] /\ mc_files crashed !! (Installed, AgentBinary) = None /\
  let '(s', r) := run second_run demo_install crashed in
  (exists err, r = Some (Err err)) /\
  mc_files s' !! (Installed, AgentBinary) = None /\ mc_files s' !! (Previous, AgentBinary) = None /\
  existsb (is_asked "uninstall") (mc_deeds s') = true.
Proof. split; [by vm_compute |]. split; [by vm_compute |]. vm_compute. split; [by eexists | by split_and!]. Qed.

(** An upgrade in which os.Stat fails for the installed Agent: before the commit,
    it counts as a new installation, and a later failure unregisters the service
    of the build that is put back ... *)
Definition unseen_at_first : list event :=
  refused :: [smooth; smooth; answering "stopped"; smooth; smooth] ++ repeat smooth 17 ++ [refused] ++ [smooth; answering "stopped"] ++ repeat smooth 7.

Lemma failed_stat_unregisters :
  let '(s', r) := run unseen_at_first demo_install demo_machine in
  (exists err, r = Some (Err err)) /\ mc_files s' !! (Installed, AgentBinary) = mc_files demo_machine !! (Installed, AgentBinary) /\
  existsb (is_asked "uninstall") (mc_deeds s') = true.
Proof. vm_compute. split; [by eexists | by split]. Qed.

(** ... and in the commit, the new Agent is moved over the old one without a copy
    set aside; a later failure then removes it, and no Agent is left. *)
Definition unseen_in_commit : list event :=
  stopping "stopped" ++ [smooth; smooth; refused] ++ repeat smooth 14 ++ [refused] ++ [smooth; answering "stopped"] ++ repeat smooth 6.

Lemma failed_stat_loses_the_build :
  let '(s', r) := run unseen_in_commit demo_install demo_machine in
  (exists err, r = Some (Err err)) /\
  mc_files s' !! (Installed, AgentBinary) = None /\ mc_files s' !! (Previous, AgentBinary) = None.
Proof. vm_compute. split; [by eexists | by split]. Qed.
