(* ===== verification/Uninstall.v ===== *)
(** * Uninstall: taking the Agent off the machine

    [cmd/hooshix-setup/uninstall.go]: which directories the uninstaller may
    remove ([guardOwnedStateDir]), what [--keep-config] keeps
    ([preserveRedirectedSettings], [preserveStateConfig]) and the worker's run
    ([runUninstall]), as a program over the program directory, the service's
    state directory and those of the users.  A directory is its root and its
    entries; what is below an entry goes with it.  Commands answer and may fail,
    a recursive removal that fails leaves any of the entries, and the worker may
    die after any operation.  Where a directory's name leads, which account owns
    the desktop and where its profile is are parameters; starting the worker and
    the registry itself are left out. *)

From S2P Require Import Prelude Program GoText GoDuration Json StateFs StateTxn PairingFiles.

(** ** The machine *)

Inductive place := ProgramDir | ServiceState | UserState (dir : string) | Elsewhere (dir : string).

#[export] Instance uninstall_place_eq_dec : EqDecision place.
Proof. solve_decision. Defined.

#[export] Instance uninstall_place_countable : Countable place.
Proof.
  refine (inj_countable' (fun p => match p with ProgramDir => inl true | ServiceState => inl false | UserState d => inr (true, d) | Elsewhere d => inr (false, d) end)
    (fun x => match x with inl true => ProgramDir | inl false => ServiceState | inr (true, d) => UserState d | inr (false, d) => Elsewhere d end) _).
  by intros [].
Defined.

Abbreviation path := (place * string)%type.

Record machine := MkMachine {
  um_roots : gmap place bool;        (* a real directory, or anything else *)
  um_entries : gmap path node;
}.

Inductive op : Type -> Type :=
| LstatRoot (d : place) : op (result bool)
| ReadNames (d : place) : op (result (list string))
| Lstat (p : path) : op (result node)
| ReadFile (p : path) : op (result bytes)
| WriteFile (p : path) (data : bytes) : op (result unit)
| Remove (p : path) : op (result unit)
| RemoveEntry (p : path) : op (result unit)      (* [os.RemoveAll] of an entry *)
| RemoveAll (d : place) : op (result unit)
| Recapture (d : place) : op (result unit)
| Command (words : list string) : op (result unit)
| DeleteKey : op (result unit)
| StateDir : op (result unit)                    (* the known folder *)
| Late : op bool.

Record event := MkEvent {
  ev_fails : bool;
  ev_data : option bytes;     (* what a failing write leaves, if it got that far *)
  ev_left : list string;      (* the entries a failing removal leaves *)
  ev_late : bool;
}.

Definition missing : error := os_ErrNotExist.

Definition entries_of (s : machine) (d : place) : list string :=
  (fun x : path * node => x.1.2) <$> filter (fun x => x.1.1 = d) (map_to_list (um_entries s)).

Definition keep_entries (f : path -> bool) (s : machine) : gmap path node := filter (fun x : path * node => f x.1 = true) (um_entries s).

#[export] Instance exec_uninstall : Machine op event machine := fun R o ev s =>
  match o with
  | LstatRoot d => (if ev_fails ev then io_error else match um_roots s !! d with Some real => Ok real | None => Err missing end, s)
  | ReadNames d => (if ev_fails ev then io_error else Ok (entries_of s d), s)
  | Lstat p => (if ev_fails ev then io_error else match um_entries s !! p with Some n => Ok n | None => Err missing end, s)
  | ReadFile p =>
    (if ev_fails ev then io_error
     else match um_entries s !! p with
          | Some (File data) => Ok data
          | Some _ => Err (ErrMsg "not a file")
          | None => Err missing
          end, s)
  | WriteFile p data =>
    if bool_decide (um_roots s !! p.1 = None) then (Err missing, s)
    else if ev_fails ev then (io_error, match ev_data ev with
                                        | Some part => MkMachine (um_roots s) (<[p := File part]> (um_entries s))
                                        | None => s
                                        end)
    else (Ok tt, MkMachine (um_roots s) (<[p := File data]> (um_entries s)))
  | Remove p =>
    if ev_fails ev then (io_error, s)
    else match um_entries s !! p with
         | None => (Err missing, s)
         | Some _ => (Ok tt, MkMachine (um_roots s) (delete p (um_entries s)))
         end
  | RemoveEntry p => if ev_fails ev then (io_error, s) else (Ok tt, MkMachine (um_roots s) (delete p (um_entries s)))
  | RemoveAll d =>
    if ev_fails ev
    then (io_error, MkMachine (um_roots s) (keep_entries (fun p => negb (bool_decide (p.1 = d)) || bool_decide (p.2 ∈ ev_left ev)) s))
    else (Ok tt, MkMachine (delete d (um_roots s)) (keep_entries (fun p => negb (bool_decide (p.1 = d))) s))
  | Recapture _ | Command _ | DeleteKey | StateDir => (if ev_fails ev then io_error else Ok tt, s)
  | Late => (ev_late ev, s)
  end.

Abbreviation prog := (Program.prog op).

(** ** Which directories are the Agent's *)

Definition stateMarkerName : string := ".hooshix-agent-state".
Definition stateMarkerVersion : string := "hooshix-agent-state-v1".
Definition settingsFileName : string := "config.json".
Definition settingsLocationFile : string := "settings_location".

Definition guardOwnedStateDir (d : place) : prog (result unit) :=
  let* info := call (LstatRoot d) in
  match info with
  | Err err => Ret (if errors_is err missing then Ok tt else Err err)
  | Ok false => Ret (Err (ErrMsg "refusing to remove a non-directory or reparse-point state path"))
  | Ok true =>
    let! entries := call (ReadNames d) in
    if bool_decide (entries = []) then Ret (Ok tt)
    else
      let* markerInfo := call (Lstat (d, stateMarkerName)) in
      match markerInfo with
      | Err err => Ret (Err (if errors_is err missing then ErrMsg "refusing to remove unowned non-empty state directory" else err))
      | Ok (File _) =>
        let! contents := call (ReadFile (d, stateMarkerName)) in
        Ret (if String.eqb (trimmed (string_of contents)) stateMarkerVersion then Ok tt
             else Err (ErrMsg "refusing to remove state directory with an invalid marker"))
      | Ok _ => Ret (Err (ErrMsg "refusing to remove state directory whose marker is not a regular file"))
      end
  end.

Definition removeAllState (d : place) : prog (result unit) :=
  guardOwnedStateDir d ;!
  let* info := call (LstatRoot d) in
  match info with
  | Err err => Ret (if errors_is err missing then Ok tt else Err err)
  | Ok _ => let* _ := call (Recapture d) in call (RemoveAll d)
  end.

(** ** Keeping the configuration *)

Definition keep (name : string) : bool :=
  bool_decide (name ∈ ["config.json"; "secrets.dpapi"; "secrets.json"; ".hooshix-agent-state"]).

(** The entries that could not be removed. *)
Fixpoint drop_entries (d : place) (names : list string) : prog (list string) :=
  match names with
  | [] => Ret []
  | name :: rest =>
    if keep name then drop_entries d rest
    else
      let* r := call (RemoveEntry (d, name)) in
      let* failures := drop_entries d rest in
      Ret (match r with Ok _ => failures | Err _ => name :: failures end)
  end.

Definition preserveStateConfig (d : place) : prog (result unit) :=
  guardOwnedStateDir d ;!
  let* info := call (LstatRoot d) in
  match info with
  | Err err => Ret (if errors_is err missing then Ok tt else Err err)
  | Ok _ =>
    let* _ := call (Recapture d) in
    let! names := call (ReadNames d) in
    let* failures := drop_entries d names in
    Ret (if bool_decide (failures = []) then Ok tt else Err (ErrMsg "could not remove entries"))
  end.

(** What [userStateDirs] asks the machine. *)
Record Accounts := MkAccounts {
  ac_interactiveUser : result string;
  ac_LookupSID : string -> result string;
  ac_ProfileImagePath : string -> result string;     (* of [ProfileList\SID] *)
  ac_LocalAppData : result string;                   (* the known folder *)
  ac_Join : list string -> string;
}.

Definition profileLocalAppData (accounts : Accounts) (sid : string) : string :=
  match ac_ProfileImagePath accounts sid with
  | Err _ => EmptyString
  | Ok profile => if String.eqb (trimmed profile) EmptyString then EmptyString else ac_Join accounts [profile; "AppData"; "Local"]
  end.

Definition add_dir (accounts : Accounts) (dirs : list string) (localAppData : string) : list string :=
  if String.eqb localAppData EmptyString then dirs
  else
    let dir := ac_Join accounts [localAppData; "HooshiXAgent"] in
    if bool_decide (dir ∈ dirs) then dirs else dirs ++ [dir].

Definition userStateDirs (accounts : Accounts) : list string :=
  let dirs :=
    match ac_interactiveUser accounts with
    | Err _ => []
    | Ok user =>
      match ac_LookupSID accounts user with
      | Err _ => []
      | Ok sid => let dir := profileLocalAppData accounts sid in if String.eqb dir EmptyString then [] else add_dir accounts [] dir
      end
    end in
  match ac_LocalAppData accounts with Ok localAppData => add_dir accounts dirs localAppData | Err _ => dirs end.

Section Redirected.
(** The paths of the platform, with the service's state directory, and the place
    where a directory's name leads. *)
Context (home : Home) (leads : string -> place).

(** The directory of the settings that a pointer's text names. *)
Definition redirected_to (pointer : bytes) : option string :=
  let target := trimmed (string_of pointer) in
  if String.eqb target EmptyString || negb (hm_IsAbs home target) || negb (String.eqb (hm_Base home target) settingsFileName)
     || String.eqb (hm_Clean home (hm_Dir home target)) (hm_Clean home (hm_dir home)) then None
  else Some (hm_Dir home target).

Definition preserveRedirectedSettings : prog (result unit) :=
  let pointerPath := (ServiceState, settingsLocationFile) in
  let* pointer := call (ReadFile pointerPath) in
  match pointer with
  | Err err => Ret (if errors_is err missing then Ok tt else Err (ErrWrap "read the settings location" err))
  | Ok pointer =>
    match redirected_to pointer with
    | None => call (Remove pointerPath)
    | Some dir =>
      let* data := call (ReadFile (leads dir, settingsFileName)) in
      match data with
      | Ok data =>
        guardOwnedStateDir ServiceState ;!
        let* _ := call (Recapture ServiceState) in
        wrapped "keep the settings file in the state directory" (call (WriteFile (ServiceState, settingsFileName) data)) ;!
        call (Remove pointerPath)
      | Err err => if errors_is err missing then call (Remove pointerPath) else Ret (Err (ErrWrap "read target" err))
      end
    end
  end.

(** ** The worker *)

(** What [record] adds to the failures. *)
Definition record (label : string) (r : result unit) : list string := match r with Ok _ => [] | Err _ => [label] end.

(** [os.RemoveAll(installDir)], again every 250 ms for 10 s. *)
Fixpoint remove_again (more : nat) (d : place) : prog (result unit) :=
  let* r := call (RemoveAll d) in
  match r, more with
  | Ok _, _ => Ret (Ok tt)
  | Err err, O => Ret (Err err)
  | Err err, S n => let* late := call Late in if (late : bool) then Ret (Err err) else remove_again n d
  end.

Definition agent_command (word : string) : prog (result unit) := call (Command ["hooshix-agent.exe"; "service"; word]).

Definition stop_service : prog (list string) :=
  let* binary := call (Lstat (ProgramDir, "hooshix-agent.exe")) in
  match binary with
  | Err _ => Ret ["remove service"]
  | Ok _ => let* _ := agent_command "stop" in let* r := agent_command "uninstall" in Ret (record "remove service" r)
  end.

Definition remove_tray : prog (list string) :=
  let* _ := call (Command ["schtasks.exe"; "/End"]) in
  let* _ := call (Command ["schtasks.exe"; "/Delete"]) in
  let* _ := call (Command ["taskkill.exe"; "hooshix-agent-tray.exe"]) in
  let* query := call (Command ["schtasks.exe"; "/Query"]) in
  Ret (match query with Ok _ => ["remove tray task"] | Err _ => [] end).

(** [userStateDirs] gave [users]. *)
Fixpoint remove_users (users : list string) : prog (list string) :=
  match users with
  | [] => Ret []
  | u :: rest =>
    let d := UserState u in
    let* info := call (LstatRoot d) in
    let* failures :=
      match info with
      | Err err => Ret (if errors_is err missing then [] else ["inspect user state"])
      | Ok _ =>
        let* owned := guardOwnedStateDir d in
        match owned with
        | Err _ => Ret ["remove user state"]
        | Ok _ => let* r := call (RemoveAll d) in Ret (record "remove user state" r)
        end
      end in
    let* more := remove_users rest in
    Ret (failures ++ more)
  end.

(** [runUninstall] from the removal of the program directory on, with the
    failures before. *)
Definition remove_files (keepConfig : bool) (users : list string) (failures : list string) : prog (result unit) :=
  let* installed := remove_again 40 ProgramDir in
  let f5 := record "remove install directory" installed in
  let* dir := call StateDir in
  let* f6 :=
    match dir with
    | Err _ => Ret ["resolve service state"]
    | Ok _ =>
      if keepConfig then let* r := preserveStateConfig ServiceState in Ret (record "preserve configuration" r)
      else let* r := removeAllState ServiceState in Ret (record "remove service state" r)
    end in
  let* f7 := remove_users users in
  Ret (if bool_decide (failures ++ f5 ++ f6 ++ f7 = []) then Ok tt else Err (ErrMsg "uninstall incomplete")).

Definition runUninstall (keepConfig : bool) (accounts : Accounts) : prog (result unit) :=
  let* f1 := stop_service in
  let* f2 := remove_tray in
  let* key := call DeleteKey in
  let f3 := match key with Err err => if errors_is err missing then [] else ["remove ARP entry"] | Ok _ => [] end in
  let* f4 :=
    (if keepConfig then
       let* dir := call StateDir in
       match dir with
       | Err _ => Ret ["resolve service state"]
       | Ok _ => let* r := preserveRedirectedSettings in Ret (record "keep redirected settings" r)
       end
     else Ret []) in
  remove_files keepConfig (userStateDirs accounts) (f1 ++ f2 ++ f3 ++ f4).
End Redirected.

(** ** The question at the console *)

(** [promptUninstall] on the line read: whether to uninstall, and whether to keep
    the configuration. *)
Definition promptUninstall (interactive : bool) (line : string) : bool * bool :=
  if negb interactive then (false, false)
  else
    let line := trimmed line in
    if String.eqb line "2" || folded_eqb line "uninstall" then (true, false)
    else if String.eqb line "3" || folded_eqb line "keep" then (true, true)
    else (false, false).

(** ** What changes nothing *)

Definition looks (R : Type) (o : op R) : bool :=
  match o with WriteFile _ _ | Remove _ | RemoveEntry _ | RemoveAll _ => false | _ => true end.

Lemma exec_looks {R : Type} (o : op R) ev s : looks R o = true -> (exec o ev s).2 = s.
Proof. by destruct o. Qed.

Lemma looking {A : Type} (P : machine -> Prop) (p : prog A) s : uses looks p -> P s -> safe P (fun _ s' => s' = s) p s.
Proof.
  intros Hu Hs. eapply safe_mono; [apply (safe_uses looks (fun s' => s' = s) p); [| exact Hu | done] | by intros s' -> | done].
  intros R o ev s' Ho <-. by apply exec_looks.
Qed.

Lemma guard_looks d : uses looks (guardOwnedStateDir d).
Proof. unfold guardOwnedStateDir. uses_parts. Qed.

Lemma stop_looks : uses looks stop_service.
Proof. unfold stop_service, agent_command. uses_parts. Qed.

Lemma tray_looks : uses looks remove_tray.
Proof. unfold remove_tray. uses_parts. Qed.

(** ** The guard *)

Definition genuine_marker (s : machine) (d : place) : Prop := exists data,
  um_entries s !! (d, stateMarkerName) = Some (File data) /\ trimmed (string_of data) = stateMarkerVersion.

(** What the guard lets pass. *)
Definition owned (s : machine) (d : place) : Prop :=
  um_roots s !! d = None \/ um_roots s !! d = Some true /\ (entries_of s d = [] \/ genuine_marker s d).

Lemma guard_passes (P : machine -> Prop) d s : P s ->
  safe P (okay (fun _ s' => s' = s /\ owned s d)) (guardOwnedStateDir d) s.
Proof.
  intros HP. unfold guardOwnedStateDir.
  eapply (safe_bind _ (fun r s' => s' = s /\ (forall real, r = Ok real -> um_roots s !! d = Some real) /\
    (forall e, r = Err e -> errors_is e missing = true -> um_roots s !! d = None))).
  { apply safe_call; [done |]. intros ev. cbn. split; [done |]. split; [done |]. destruct (ev_fails ev); [by split; [| intros e [= <-]] |].
    destruct (um_roots s !! d); (split; [by intros ? [= <-] | by intros e [= <-]]). }
  intros info s1 _ (-> & Hreal & Hmiss). destruct info as [[|]|err].
  2: { by apply safe_ret. }
  2: { apply safe_ret; [done |]. destruct (errors_is err missing) eqn:E; [| done]. split; [done |]. left. by eapply Hmiss. }
  specialize (Hreal _ eq_refl).
  eapply (safe_then _ (fun names s' => s' = s /\ names = entries_of s d)).
  { apply safe_call; [done |]. intros ev. cbn. split; [done |]. by destruct (ev_fails ev). }
  intros entries s1 _ [-> ->]. case_bool_decide as Ee; [apply safe_ret; [done |]; split; [done |]; right; split; [done | by left] |].
  eapply (safe_bind _ (fun r s' => s' = s)).
  { apply safe_call; [done |]. intros ev. by cbn. }
  intros markerInfo s1 _ ->. destruct markerInfo as [[contents| |]|err]; try by apply safe_ret.
  eapply (safe_then _ (fun data s' => s' = s /\ um_entries s !! (d, stateMarkerName) = Some (File data))).
  { apply safe_call; [done |]. intros ev. cbn. split; [done |]. destruct (ev_fails ev); [done |].
    by destruct (um_entries s !! (d, stateMarkerName)) as [[data| |]|]. }
  intros data s1 _ [-> Hd]. apply safe_ret; [done |]. destruct (String.eqb (trimmed _) _) eqn:Et; [| done].
  split; [done |]. right. split; [done |]. right. exists data. split; [done | by apply String.eqb_eq].
Qed.

Lemma guard_owned (P : machine -> Prop) d s : P s ->
  safe P (fun r s' => s' = s /\ (r = Ok tt -> owned s d)) (guardOwnedStateDir d) s.
Proof.
  intros HP. eapply safe_mono; [apply safe_both; [by apply guard_passes | by apply (looking P _ s (guard_looks d))] | by intros s' [H _] |].
  intros r s' _ [H ->]. split; [done |]. intros ->. apply H.
Qed.

Lemma entries_of_elem s d name : name ∈ entries_of s d <-> is_Some (um_entries s !! (d, name)).
Proof.
  unfold entries_of. rewrite list_elem_of_fmap. split.
  - intros ([[d' n'] node] & -> & H). apply list_elem_of_filter in H as [Hd H]. cbn in Hd. subst d'.
    apply elem_of_map_to_list in H. by exists node.
  - intros [node H]. exists ((d, name), node). split; [done |]. apply list_elem_of_filter. split; [done |]. by apply elem_of_map_to_list.
Qed.

Lemma keep_entries_lookup f s p : keep_entries f s !! p = if f p then um_entries s !! p else None.
Proof.
  unfold keep_entries. rewrite map_lookup_filter. destruct (um_entries s !! p) as [n|]; cbn; [| by destruct (f p)].
  destruct (f p) eqn:E; [by rewrite option_guard_True | by rewrite option_guard_False by congruence].
Qed.

(** ** Directories that are not the Agent's *)

Section Foreign.
Context (d : place) (s0 : machine).
Context (Hd : d <> ProgramDir).
Context (Hforeign : um_roots s0 !! d <> Some true \/ ~ genuine_marker s0 d).

Definition protected (name : string) : Prop := ~ (d = ServiceState /\ name = settingsLocationFile).

Definition untouched (s : machine) : Prop :=
  (forall name, protected name -> um_entries s !! (d, name) = um_entries s0 !! (d, name)) /\
  (forall real, um_roots s !! d = Some real -> um_roots s0 !! d = Some real).

Lemma marker_protected : protected stateMarkerName.
Proof using All. intros [_ H]. discriminate H. Qed.

(** The guard passes for such a directory only when it is gone or empty. *)
Lemma owned_empty s : untouched s -> owned s d ->
  um_roots s !! d = None \/ forall name, um_entries s !! (d, name) = None.
Proof using All.
  intros [He Hr] [H|[Ht [H|H]]]; [by left | right | exfalso].
  - intros name. apply eq_None_not_Some. intros Hn%entries_of_elem. rewrite H in Hn. by apply not_elem_of_nil in Hn.
  - destruct Hforeign as [Hf|Hf]; [by apply Hf, Hr |]. apply Hf. destruct H as (data & Hm & Ht'). exists data.
    rewrite <- He by apply marker_protected. by split.
Qed.

Lemma untouched_entries s entries :
  untouched s -> (forall name, protected name -> entries !! (d, name) = um_entries s !! (d, name)) -> untouched (MkMachine (um_roots s) entries).
Proof using All. intros [He Hr] H. split; [| exact Hr]. intros name Hn. cbn. by rewrite H, He. Qed.

Lemma removing_untouched d' s : untouched s -> (d' <> d \/ forall name, um_entries s !! (d, name) = None) ->
  safe untouched (fun _ s' => untouched s') (call (RemoveAll d')) s.
Proof using All.
  intros Hs Hcase. apply safe_call; [done |]. intros ev. assert (H : untouched (exec (RemoveAll d') ev s).2); [| by split].
  cbn. destruct (ev_fails ev); cbn.
  - apply untouched_entries; [done |]. intros name Hn. rewrite keep_entries_lookup. cbn.
    destruct Hcase as [Hne|Hnone]; [by rewrite bool_decide_false by congruence |]. rewrite Hnone. by destruct (_ || _).
  - destruct Hs as [He Hr]. split; cbn.
    + intros name Hn. rewrite keep_entries_lookup. cbn. rewrite <- He by done.
      destruct Hcase as [Hne|Hnone]; [by rewrite bool_decide_false by congruence |]. rewrite Hnone. by destruct (negb _).
    + intros real H. apply Hr. by apply lookup_delete_Some in H as [_ H].
Qed.

Lemma remove_again_untouched more : forall s, untouched s -> safe untouched (fun _ s' => untouched s') (remove_again more ProgramDir) s.
Proof using All.
  induction more as [|more IH]; intros s Hs; cbn [remove_again]; (eapply safe_bind; [by apply removing_untouched; [| left; congruence] |]);
    intros [u|err] s1 _ H1; try by apply safe_ret.
  eapply safe_bind; [apply looking; [by uses_parts | exact H1] |]. intros [|] s2 _ ->; [by apply safe_ret | by apply IH].
Qed.

Lemma pointer_removed s : untouched s -> safe untouched (fun _ s' => untouched s') (call (Remove (ServiceState, settingsLocationFile))) s.
Proof using All.
  intros Hs. apply safe_call; [done |]. intros ev. assert (H : untouched (exec (Remove (ServiceState, settingsLocationFile)) ev s).2); [| by split].
  cbn. destruct (ev_fails ev); cbn; [done |]. destruct (um_entries s !! _); cbn; [| done].
  apply untouched_entries; [done |]. intros name Hn. apply lookup_delete_ne. intros [= <- <-]. by apply Hn.
Qed.

Lemma rescue_untouched home leads s : untouched s -> safe untouched (fun _ s' => untouched s') (preserveRedirectedSettings home leads) s.
Proof using All.
  intros Hs. unfold preserveRedirectedSettings.
  eapply (safe_bind _ (fun r s' => s' = s /\ forall data, r = Ok data -> is_Some (um_entries s !! (ServiceState, settingsLocationFile)))).
  { apply safe_call; [done |]. intros ev. cbn. split; [done |]. split; [done |]. destruct (ev_fails ev); [done |].
    destruct (um_entries s !! _); by eauto. }
  intros pointer s1 _ [-> Hp]. destruct pointer as [pointer|err]; [| by apply safe_ret]. specialize (Hp _ eq_refl).
  destruct (redirected_to home pointer) as [dir|]; [| by apply pointer_removed].
  eapply safe_bind; [apply looking; [by uses_parts | exact Hs] |]. intros [data|err] s1 _ ->.
  2: { destruct (errors_is err missing); [by apply pointer_removed | by apply safe_ret]. }
  assert (Hwrite : forall s1, untouched s1 -> owned s1 ServiceState -> is_Some (um_entries s1 !! (ServiceState, settingsLocationFile)) ->
    safe untouched (fun _ s' => untouched s') (call (WriteFile (ServiceState, settingsFileName) data)) s1).
  { intros s1 H1 Ho Hpt. apply safe_call; [done |]. intros ev.
    assert (H : untouched (exec (WriteFile (ServiceState, settingsFileName) data) ev s1).2); [| by split].
    cbn. case_bool_decide as Er; [done |]. destruct (decide (d = ServiceState)) as [Hds|Hne].
    - exfalso. rewrite <- Hds in Ho, Hpt. cbn in Er. rewrite <- Hds in Er. destruct (owned_empty s1 H1 Ho) as [Hr|Hnone]; [done |]. rewrite Hnone in Hpt. by destruct Hpt.
    - destruct (ev_fails ev); [destruct (ev_data ev) |]; cbn; try done;
        apply untouched_entries; try done; intros name _; apply lookup_insert_ne; congruence. }
  eapply (safe_bind _ (fun r s' => s' = s /\ (r = Ok tt -> owned s ServiceState))); [by apply guard_owned |].
  intros [[]|err] s1 _ [-> Ho]; [| by apply safe_ret]. specialize (Ho eq_refl).
  eapply safe_bind; [apply looking; [by uses_parts | exact Hs] |]. intros ? s1 _ ->.
  eapply (safe_bind _ (fun _ s' => untouched s')).
  - eapply safe_bind; [by apply Hwrite |]. intros r s1 _ H1. by apply safe_ret.
  - intros [u|err] s1 _ H1; [by apply pointer_removed | by apply safe_ret].
Qed.

Lemma removeAllState_untouched d' s : untouched s -> safe untouched (fun _ s' => untouched s') (removeAllState d') s.
Proof using All.
  intros Hs. unfold removeAllState. eapply safe_bind; [by apply guard_owned |]. intros [[]|err] s1 _ [-> Ho]; [| by apply safe_ret].
  specialize (Ho eq_refl). eapply (safe_bind _ (fun r s' => s' = s /\ forall real, r = Ok real -> um_roots s !! d' = Some real)).
  { apply safe_call; [done |]. intros ev. cbn. split; [done |]. split; [done |]. destruct (ev_fails ev); [done |].
    by destruct (um_roots s !! d'); intros ? [= <-]. }
  intros [real|err] s1 _ [-> Hreal]; [| by apply safe_ret]. specialize (Hreal _ eq_refl).
  eapply safe_bind; [apply looking; [by uses_parts | exact Hs] |]. intros ? s1 _ ->. apply removing_untouched; [done |].
  destruct (decide (d' = d)) as [E|Hne]; [right | by left]. rewrite E in Ho, Hreal. destruct (owned_empty s Hs Ho) as [H|H]; [congruence | done].
Qed.

Lemma drop_untouched d' : forall names s, untouched s ->
  (d' = d -> forall name, name ∈ names -> um_entries s !! (d, name) <> None -> False) ->
  safe untouched (fun _ s' => untouched s') (drop_entries d' names) s.
Proof using All.
  induction names as [|name rest IH]; intros s Hs Hn; cbn [drop_entries]; [by apply safe_ret |].
  assert (Hrest : forall s1, untouched s1 -> (forall p, um_entries s !! p = None -> um_entries s1 !! p = None) ->
    safe untouched (fun _ s' => untouched s') (drop_entries d' rest) s1).
  { intros s1 H1 Hsub. apply IH; [done |]. intros E name' Hin Hp. apply (Hn E name'); [by right |]. intros H. by apply Hp, Hsub. }
  destruct (keep name); [by apply Hrest |].
  eapply (safe_bind _ (fun _ s1 => untouched s1 /\ forall p, um_entries s !! p = None -> um_entries s1 !! p = None)).
  - apply safe_call; [done |]. intros ev. cbn. destruct (ev_fails ev); cbn; [done |].
    assert (H : untouched (MkMachine (um_roots s) (delete (d', name) (um_entries s)))).
    { apply untouched_entries; [done |]. intros name' Hp. destruct (decide ((d', name) = (d, name'))) as [[= -> ->]|Hne]; [| by apply lookup_delete_ne].
      rewrite lookup_delete_eq. symmetry. apply eq_None_not_Some. intros [n E]. apply (Hn eq_refl name'); [by left |]. congruence. }
    split; [done |]. split; [done |]. intros p Hp. cbn. by apply lookup_delete_None; right.
  - intros r s1 _ [H1 Hsub]. eapply safe_bind; [by apply Hrest |]. intros failures s2 _ H2. by apply safe_ret.
Qed.

Lemma preserve_untouched s : untouched s -> safe untouched (fun _ s' => untouched s') (preserveStateConfig ServiceState) s.
Proof using All.
  intros Hs. unfold preserveStateConfig. eapply safe_bind; [by apply guard_owned |]. intros [[]|err] s1 _ [-> Ho]; [| by apply safe_ret].
  specialize (Ho eq_refl). eapply (safe_bind _ (fun r s' => s' = s /\ forall real, r = Ok real -> um_roots s !! ServiceState = Some real)).
  { apply safe_call; [done |]. intros ev. cbn. split; [done |]. split; [done |]. destruct (ev_fails ev); [done |].
    by destruct (um_roots s !! ServiceState); intros ? [= <-]. }
  intros [real|err] s1 _ [-> Hreal]; [| by apply safe_ret]. specialize (Hreal _ eq_refl).
  eapply safe_bind; [apply looking; [by uses_parts | exact Hs] |]. intros ? s1 _ ->.
  eapply safe_bind; [apply looking; [by uses_parts | exact Hs] |]. intros [names|err] s1 _ ->; [| by apply safe_ret].
  eapply safe_bind; [apply drop_untouched; [done |] |].
  - intros E name _ Hp. rewrite E in Ho, Hreal. destruct (owned_empty s Hs Ho) as [H|H]; [congruence |]. apply Hp, H.
  - intros failures s1 _ H1. by apply safe_ret.
Qed.

Lemma users_untouched users : forall s, untouched s -> safe untouched (fun _ s' => untouched s') (remove_users users) s.
Proof using All.
  induction users as [|u rest IH]; intros s Hs; cbn [remove_users]; [by apply safe_ret |].
  eapply (safe_bind _ (fun r s' => s' = s /\ forall real, r = Ok real -> um_roots s !! UserState u = Some real)).
  { apply safe_call; [done |]. intros ev. cbn. split; [done |]. split; [done |]. destruct (ev_fails ev); [done |].
    by destruct (um_roots s !! UserState u); intros ? [= <-]. }
  intros info s1 _ [-> Hreal]. eapply (safe_bind _ (fun _ s' => untouched s')).
  - destruct info as [real|err]; [| by apply safe_ret]. specialize (Hreal _ eq_refl).
    eapply safe_bind; [by apply guard_owned |]. intros [[]|err] s1 _ [-> Ho]; [| by apply safe_ret]. specialize (Ho eq_refl).
    eapply safe_bind; [apply removing_untouched; [done |] | intros r s1 _ H1; by apply safe_ret].
    destruct (decide (UserState u = d)) as [E|Hne]; [right | by left]. rewrite E in Ho, Hreal. destruct (owned_empty s Hs Ho) as [H|H]; [congruence | done].
  - intros failures s1 _ H1. eapply safe_bind; [by apply IH |]. intros more s2 _ H2. by apply safe_ret.
Qed.

Lemma files_untouched keepConfig users failures s : untouched s ->
  safe untouched (fun _ s' => untouched s') (remove_files keepConfig users failures) s.
Proof using All.
  intros H1. unfold remove_files. eapply safe_bind; [by apply remove_again_untouched |]. intros installed s2 _ H2.
  eapply safe_bind; [apply looking; [by uses_parts | exact H2] |]. intros dir s3 _ ->.
  eapply (safe_bind _ (fun _ s' => untouched s')).
  { destruct dir as [u|err]; [| by apply safe_ret].
    destruct keepConfig; (eapply safe_bind; [first [by apply preserve_untouched | by apply removeAllState_untouched] |]); intros r s3 _ H3; by apply safe_ret. }
  intros f6 s3 _ H3. eapply safe_bind; [by apply users_untouched |]. intros f7 s4 _ H4. by apply safe_ret.
Qed.

Lemma uninstall_untouched home leads keepConfig accounts s : untouched s ->
  safe untouched (fun _ s' => untouched s') (runUninstall home leads keepConfig accounts) s.
Proof using All.
  intros Hs. unfold runUninstall. eapply safe_bind; [apply looking; [apply stop_looks | exact Hs] |]. intros f1 s1 _ ->.
  eapply safe_bind; [apply looking; [apply tray_looks | exact Hs] |]. intros f2 s1 _ ->.
  eapply safe_bind; [apply looking; [by uses_parts | exact Hs] |]. intros key s1 _ ->. cbv zeta.
  eapply (safe_bind _ (fun _ s' => untouched s')).
  { destruct keepConfig; [| by apply safe_ret]. eapply safe_bind; [apply looking; [by uses_parts | exact Hs] |].
    intros [u|err] s1 _ ->; [| by apply safe_ret]. eapply safe_bind; [by apply rescue_untouched |]. intros r s1 _ H1. by apply safe_ret. }
  intros f4 s1 _ H1. by apply files_untouched.
Qed.
End Foreign.

(** ** What success means *)

Definition gone (d : place) (s : machine) : Prop := um_roots s !! d = None.

Lemma exec_gone d {R : Type} (o : op R) ev s : gone d s -> gone d (exec o ev s).2.
Proof.
  unfold gone. intros H. destruct o as [e|e|p|p|p data|p|p|e|e|words| | |]; try exact H; cbn.
  - case_bool_decide; [exact H |]. destruct (ev_fails ev); [by destruct (ev_data ev) | exact H].
  - destruct (ev_fails ev); [exact H |]. by destruct (um_entries s !! p).
  - by destruct (ev_fails ev).
  - destruct (ev_fails ev); [exact H |]. cbn. by apply lookup_delete_None; right.
Qed.

Lemma all_uses {op' : Type -> Type} {A : Type} (p : Program.prog op' A) : uses (fun _ _ => true) p.
Proof. induction p as [a|R o k IH]; [exact I | by split]. Qed.

Lemma still_gone {A : Type} (P : machine -> Prop) d (p : prog A) s : gone d s -> safe (gone d) (fun _ s' => gone d s') p s.
Proof. intros H. apply (safe_uses (fun _ _ => true) (gone d) p); [| apply all_uses | exact H]. intros R o ev s' _. apply exec_gone. Qed.

Lemma anything {A : Type} (p : prog A) s : safe (fun _ => True) (fun _ _ => True) p s.
Proof. apply (safe_uses (fun _ _ => true) (fun _ => True) p); [done | apply all_uses | done]. Qed.

Definition when_ok (Q : machine -> Prop) (r : result unit) (s : machine) : Prop := r = Ok tt -> Q s.

Lemma remove_all_gone d s : safe (fun _ => True) (when_ok (gone d)) (call (RemoveAll d)) s.
Proof.
  apply safe_call; [done |]. intros ev. split; [done |]. intros H. cbn in *. destruct (ev_fails ev); [discriminate H |]. apply lookup_delete_eq.
Qed.

Lemma remove_again_gone more d : forall s, safe (fun _ => True) (when_ok (gone d)) (remove_again more d) s.
Proof.
  induction more as [|more IH]; intros s; cbn [remove_again]; (eapply safe_bind; [apply remove_all_gone |]); intros [[]|err] s1 _ H1;
    try (apply safe_ret; [done |]; intros H; [by apply H1 | discriminate H]).
  - apply safe_ret; [done |]. intros H. by apply H1.
  - apply safe_ret; [done |]. intros H. discriminate H.
  - apply safe_ret; [done |]. intros H. by apply H1.
  - eapply safe_bind; [apply anything |]. intros [|] s2 _ _; [| apply IH]. apply safe_ret; [done |]. intros H. discriminate H.
Qed.

Lemma lstat_root d s : safe (fun _ => True) (fun r s' => s' = s /\ forall e, r = Err e -> errors_is e missing = true -> gone d s) (call (LstatRoot d)) s.
Proof.
  apply safe_call; [done |]. intros ev. cbn. split; [done |]. split; [done |]. unfold gone. destruct (ev_fails ev); [by intros e [= <-] |].
  destruct (um_roots s !! d); by intros e [= <-].
Qed.

Lemma removeAllState_gone d s : safe (fun _ => True) (when_ok (gone d)) (removeAllState d) s.
Proof.
  unfold removeAllState. eapply safe_bind; [apply anything |]. intros [u|err] s1 _ _; [| by apply safe_ret].
  eapply safe_bind; [apply lstat_root |]. intros [real|err] s2 _ [-> H2].
  - eapply safe_bind; [apply anything |]. intros ? s3 _ _. apply remove_all_gone.
  - apply safe_ret; [done |]. destruct (errors_is err missing) eqn:E; [| by intros H]. intros _. by eapply H2.
Qed.

Definition all_gone (users : list string) (s : machine) : Prop := forall u, u ∈ users -> gone (UserState u) s.

Lemma stay_both {A : Type} (Q : A -> machine -> Prop) (G : machine -> Prop) (p : prog A) s :
  (forall R (o : op R) ev s, G s -> G (exec o ev s).2) -> safe (fun _ => True) Q p s -> G s ->
  safe (fun _ => True) (fun r s' => Q r s' /\ G s') p s.
Proof.
  intros HG Hp Hs. eapply safe_mono; [apply (safe_both (fun _ => True) G Q (fun _ s' => G s')) | done | done]; [exact Hp |].
  apply (safe_uses (fun _ _ => true) G p); [| apply all_uses | exact Hs]. intros R o ev s' _. apply HG.
Qed.

Lemma users_gone users : forall s, safe (fun _ => True) (fun failures s' => failures = [] -> all_gone users s') (remove_users users) s.
Proof.
  induction users as [|u rest IH]; intros s; cbn [remove_users].
  { apply safe_ret; [done |]. intros _ u Hu. by apply not_elem_of_nil in Hu. }
  eapply safe_bind; [apply lstat_root |]. intros info s1 _ [-> Hmiss].
  eapply (safe_bind _ (fun failures s' => failures = [] -> gone (UserState u) s')).
  - destruct info as [real|err].
    + eapply safe_bind; [apply anything |]. intros [v|err] s1 _ _; [| by apply safe_ret].
      eapply safe_bind; [apply remove_all_gone |]. intros [[]|err] s2 _ H2; apply safe_ret; try done. intros _. by apply H2.
    + apply safe_ret; [done |]. destruct (errors_is err missing) eqn:E; [| by intros H]. intros _. by eapply Hmiss.
  - intros failures s1 _ H1. eapply (safe_bind _ (fun more s' => (more = [] -> all_gone rest s') /\ (failures = [] -> gone (UserState u) s'))).
    + apply (stay_both _ (fun s' => failures = [] -> gone (UserState u) s')); [| apply IH | exact H1].
      intros R o ev s' H Hf. by apply exec_gone, H.
    + intros more s2 _ [H2 H2']. apply safe_ret; [done |]. intros [Hf Hm]%app_eq_nil u' Hu'.
      apply elem_of_cons in Hu' as [->|Hu']; [by apply H2' | by apply H2].
Qed.

(** ** What is kept *)

Definition config_of (s : machine) : option node := um_entries s !! (ServiceState, settingsFileName).

(** The operations that spare what is kept in the state directory; [writes]:
    its settings file may be written. *)
Definition sparing (writes : bool) (R : Type) (o : op R) : bool :=
  match o with
  | WriteFile p _ => writes && bool_decide (p = (ServiceState, settingsFileName))
  | Remove p => bool_decide (p = (ServiceState, settingsLocationFile))
  | RemoveEntry p => negb (bool_decide (p.1 = ServiceState) && keep p.2)
  | RemoveAll d => negb (bool_decide (d = ServiceState))
  | _ => true
  end.

Lemma exec_sparing writes name {R : Type} (o : op R) ev s :
  sparing writes R o = true -> keep name = true -> (writes = true -> name <> settingsFileName) ->
  um_entries (exec o ev s).2 !! (ServiceState, name) = um_entries s !! (ServiceState, name).
Proof.
  intros Ho Hk Hw. destruct o as [d|d|p|p|p data|p|p|d|d|args| | |]; try done; cbn in Ho |- *.
  - apply andb_true_iff in Ho as [Hwr Hp]. apply bool_decide_eq_true in Hp. subst p.
    assert (Hne : (ServiceState, settingsFileName) <> (ServiceState, name)) by (intros [= E]; by apply (Hw Hwr)).
    case_bool_decide; [done |]. destruct (ev_fails ev); [destruct (ev_data ev) |]; cbn; [by rewrite lookup_insert_ne | done | by rewrite lookup_insert_ne].
  - apply bool_decide_eq_true in Ho. subst p. destruct (ev_fails ev); [done |]. destruct (um_entries s !! _); [| done]. cbn.
    apply lookup_delete_ne. intros [= <-]. discriminate Hk.
  - destruct (ev_fails ev); [done |]. cbn. apply lookup_delete_ne. intros ->. cbn in Ho. rewrite bool_decide_true in Ho by done. by rewrite Hk in Ho.
  - apply negb_true_iff, bool_decide_eq_false in Ho. destruct (ev_fails ev); cbn; rewrite keep_entries_lookup; cbn;
      by rewrite bool_decide_false by congruence.
Qed.

Lemma drop_sparing writes d names : uses (sparing writes) (drop_entries d names).
Proof.
  induction names as [|name rest IH]; cbn [drop_entries]; [exact I |]. destruct (keep name) eqn:E; [exact IH |].
  apply uses_bind; [| uses_parts]. apply uses_call. cbn. rewrite E. by rewrite andb_false_r.
Qed.

Lemma looks_sparing {A : Type} writes (p : prog A) : uses looks p -> uses (sparing writes) p.
Proof.
  induction p as [a|R o k IH]; [done |]. intros [Ho Hk]. split; [by destruct o | intros r; by apply IH].
Qed.

Lemma guard_sparing writes d : uses (sparing writes) (guardOwnedStateDir d).
Proof. apply looks_sparing, guard_looks. Qed.

Lemma remove_again_sparing writes more : uses (sparing writes) (remove_again more ProgramDir).
Proof. induction more as [|more IH]; cbn [remove_again]; uses_parts. Qed.

Lemma users_sparing writes users : uses (sparing writes) (remove_users users).
Proof. induction users as [|u rest IH]; cbn [remove_users]; repeat (uses_parts; try apply guard_sparing). Qed.

Lemma preserve_sparing writes : uses (sparing writes) (preserveStateConfig ServiceState).
Proof. unfold preserveStateConfig. repeat (uses_parts; first [apply guard_sparing | apply drop_sparing | idtac]). Qed.

Lemma rescue_sparing home leads : uses (sparing true) (preserveRedirectedSettings home leads).
Proof. unfold preserveRedirectedSettings. repeat (uses_parts; try apply guard_sparing). Qed.

Lemma files_sparing writes users failures : uses (sparing writes) (remove_files true users failures).
Proof.
  unfold remove_files. repeat (uses_parts; first [apply remove_again_sparing | apply preserve_sparing | apply users_sparing | idtac]).
Qed.

Lemma keeping_sparing home leads accounts : uses (sparing true) (runUninstall home leads true accounts).
Proof.
  unfold runUninstall. repeat (uses_parts; first [ apply looks_sparing, stop_looks | apply looks_sparing, tray_looks
    | apply rescue_sparing | apply files_sparing | idtac ]).
Qed.

(** The settings that are to be rescued: the content of the file that the pointer
    names. *)
Definition rescued (home : Home) (leads : string -> place) (s : machine) : option bytes :=
  match um_entries s !! (ServiceState, settingsLocationFile) with
  | Some (File text) =>
    match redirected_to home text with
    | Some dir => match um_entries s !! (leads dir, settingsFileName) with Some (File data) => Some data | _ => None end
    | None => None
    end
  | _ => None
  end.

Lemma pointer_config s : safe (fun s' => config_of s' = config_of s) (fun _ s' => config_of s' = config_of s)
  (call (Remove (ServiceState, settingsLocationFile))) s.
Proof.
  apply safe_call; [done |]. intros ev. assert (H : config_of (exec (Remove (ServiceState, settingsLocationFile)) ev s).2 = config_of s); [| by split].
  by apply (exec_sparing false).
Qed.

Lemma rescue_spec home leads s :
  safe (fun s' => rescued home leads s = None -> config_of s' = config_of s)
       (when_ok (fun s' => config_of s' = match rescued home leads s with Some data => Some (File data) | None => config_of s end))
       (preserveRedirectedSettings home leads) s.
Proof.
  assert (Hptr : forall s1, config_of s1 = match rescued home leads s with Some data => Some (File data) | None => config_of s end ->
    safe (fun s' => rescued home leads s = None -> config_of s' = config_of s)
         (when_ok (fun s' => config_of s' = match rescued home leads s with Some data => Some (File data) | None => config_of s end))
         (call (Remove (ServiceState, settingsLocationFile))) s1).
  { intros s1 E. eapply safe_mono; [apply (pointer_config s1) | intros s' H Hn; by rewrite H, E, Hn | intros r s' _ H _; by rewrite H]. }
  unfold preserveRedirectedSettings.
  eapply (safe_bind _ (fun r s' => s' = s /\ (forall text, r = Ok text -> um_entries s !! (ServiceState, settingsLocationFile) = Some (File text)) /\
    (forall e, r = Err e -> errors_is e missing = true -> um_entries s !! (ServiceState, settingsLocationFile) = None))).
  { apply safe_call; [done |]. intros ev. cbn. split; [done |]. split; [done |]. destruct (ev_fails ev); [by split; [| intros e [= <-]] |].
    destruct (um_entries s !! (ServiceState, settingsLocationFile)) as [[data| |]|]; (split; [by intros ? [= <-] | by intros e [= <-]]). }
  intros pointer s1 _ (-> & Htext & Hnone). destruct pointer as [text|err].
  2: { apply safe_ret; [done |]. destruct (errors_is err missing) eqn:E; [| by intros H]. intros _. unfold rescued. by rewrite (Hnone _ eq_refl E). }
  specialize (Htext _ eq_refl). assert (Hres : rescued home leads s = match redirected_to home text with
    | Some dir => match um_entries s !! (leads dir, settingsFileName) with Some (File data) => Some data | _ => None end | None => None end) by (unfold rescued; by rewrite Htext).
  destruct (redirected_to home text) as [dir|]; [| apply Hptr; by rewrite Hres].
  eapply (safe_bind _ (fun r s' => s' = s /\ (forall data, r = Ok data -> um_entries s !! (leads dir, settingsFileName) = Some (File data)) /\
    (forall e, r = Err e -> errors_is e missing = true -> um_entries s !! (leads dir, settingsFileName) = None))).
  { apply safe_call; [done |]. intros ev. cbn. split; [done |]. split; [done |]. destruct (ev_fails ev); [by split; [| intros e [= <-]] |].
    destruct (um_entries s !! (leads dir, settingsFileName)) as [[data| |]|]; (split; [by intros ? [= <-] | by intros e [= <-]]). }
  intros read s1 _ (-> & Hdata & Hgone). destruct read as [data|err].
  2: { destruct (errors_is err missing) eqn:E; [apply Hptr; by rewrite Hres, (Hgone _ eq_refl E) | by apply safe_ret]. }
  rewrite (Hdata _ eq_refl) in Hres. eapply safe_bind; [by apply guard_owned |]. intros [u|err] s1 _ [-> _]; [| by apply safe_ret].
  eapply safe_bind; [apply looking; [by uses_parts | done] |]. intros ? s1 _ ->.
  eapply (safe_bind _ (when_ok (fun s' => config_of s' = Some (File data)))).
  - eapply (safe_bind _ (when_ok (fun s' => config_of s' = Some (File data)))).
    + apply safe_call; [done |]. intros ev. split; [by rewrite Hres |]. intros H. cbn in *. case_bool_decide; [discriminate H |].
      destruct (ev_fails ev); [discriminate H |]. apply lookup_insert_eq.
    + intros [[]|err] s1 _ H1; apply safe_ret; try (by rewrite Hres); [by intros _; apply H1 | by intros H].
  - intros [[]|err] s1 _ H1; [apply Hptr; rewrite Hres; by apply H1 | apply safe_ret; [by rewrite Hres | by intros H]].
Qed.

Lemma record_nil label r : record label r = [] -> r = Ok tt.
Proof. by destruct r as [[]|err]. Qed.

Lemma files_gone keepConfig users failures s :
  safe (fun _ => True) (when_ok (fun s' => failures = [] /\ gone ProgramDir s' /\ all_gone users s' /\ (keepConfig = false -> gone ServiceState s')))
    (remove_files keepConfig users failures) s.
Proof.
  unfold remove_files. eapply safe_bind; [apply remove_again_gone |]. intros installed s1 _ H1. cbv zeta.
  eapply (safe_bind _ (fun _ s' => installed = Ok tt -> gone ProgramDir s')).
  { eapply safe_mono; [apply (stay_both (fun _ _ => True) (fun s' => installed = Ok tt -> gone ProgramDir s')); [| apply anything | exact H1] | done | by intros ? s' _ [_ H]].
    intros R o ev s' H E. by apply exec_gone, H. }
  intros dir s2 _ H2.
  eapply (safe_bind _ (fun (f6 : list string) s' => (f6 = [] -> keepConfig = false -> gone ServiceState s') /\ (installed = Ok tt -> gone ProgramDir s'))).
  { apply (stay_both _ (fun s' => installed = Ok tt -> gone ProgramDir s')); [intros R o ev s' H E; by apply exec_gone, H | | exact H2].
    destruct dir as [u|err]; [| by apply safe_ret]. destruct keepConfig.
    - eapply safe_bind; [apply anything |]. intros r s3 _ _. by apply safe_ret.
    - eapply safe_bind; [apply removeAllState_gone |]. intros r s3 _ H3. apply safe_ret; [done |]. intros E _. exact (H3 (record_nil _ _ E)). }
  intros f6 s3 _ [H6 H3].
  eapply (safe_bind _ (fun (f7 : list string) s' => (f7 = [] -> all_gone users s') /\ ((f6 = [] -> keepConfig = false -> gone ServiceState s') /\ (installed = Ok tt -> gone ProgramDir s')))).
  { apply (stay_both _ (fun s' => (f6 = [] -> keepConfig = false -> gone ServiceState s') /\ (installed = Ok tt -> gone ProgramDir s'))); [| apply users_gone | by split].
    intros R o ev s' [Ha Hb]. split; [intros E1 E2; by apply exec_gone, Ha | intros E; by apply exec_gone, Hb]. }
  intros f7 s4 _ (H7 & H6' & H3'). apply safe_ret; [done |]. case_bool_decide as E; [| by intros H].
  apply app_eq_nil in E as [E0 E]. apply app_eq_nil in E as [E5 E]. apply app_eq_nil in E as [E6 E7]. intros _.
  split; [exact E0 |]. split; [exact (H3' (record_nil _ _ E5)) |]. split; [by apply H7 | by apply H6'].
Qed.

Lemma uninstall_ok home leads (keepConfig : bool) accounts s :
  safe (fun _ => True) (when_ok (fun s' => gone ProgramDir s' /\ all_gone (userStateDirs accounts) s' /\
    if keepConfig then config_of s' = match rescued home leads s with Some data => Some (File data) | None => config_of s end
    else gone ServiceState s')) (runUninstall home leads keepConfig accounts) s.
Proof.
  unfold runUninstall. eapply safe_bind; [by apply (looking (fun _ => True)); [apply stop_looks |] |]. intros f1 s1 _ ->.
  eapply safe_bind; [by apply (looking (fun _ => True)); [apply tray_looks |] |]. intros f2 s1 _ ->.
  eapply safe_bind; [by apply (looking (fun _ => True)); [uses_parts |] |]. intros key s1 _ ->. cbv zeta.
  destruct keepConfig.
  - set (cfg := match rescued home leads s with Some data => Some (File data) | None => config_of s end).
    eapply (safe_bind _ (fun f4 s' => f4 = [] -> config_of s' = cfg)).
    + eapply safe_bind; [by apply (looking (fun _ => True)); [uses_parts |] |]. intros [u|err] s1 _ ->; [| by apply safe_ret].
      eapply safe_bind; [eapply safe_mono; [apply rescue_spec | done | intros r s' _ H; exact H] |]. intros r s1 _ H1. apply safe_ret; [done |].
      intros E. exact (H1 (record_nil _ _ E)).
    + intros f4 s1 _ H1. eapply safe_mono; [apply (safe_both (fun _ => True) (fun s' => f4 = [] -> config_of s' = cfg)); [apply files_gone |] | done |].
      * apply (safe_uses (sparing false) (fun s' => f4 = [] -> config_of s' = cfg)); [| apply files_sparing | exact H1].
        intros R o ev s' Ho H E. rewrite <- (H E). by apply (exec_sparing false).
      * intros r s' _ [H Hc] E. destruct (H E) as (Hf & Hp & Hu & _). split; [done |]. split; [done |]. apply Hc.
        by apply app_eq_nil in Hf as [_ [_ [_ Hf]%app_eq_nil]%app_eq_nil].
  - eapply (safe_bind _ (fun _ _ => True)); [by apply safe_ret |]. intros f4 s1 _ _.
    eapply safe_mono; [apply files_gone | done |]. intros r s' _ H E. destruct (H E) as (_ & Hp & Hu & Hs). split; [done |]. split; [done |]. by apply Hs.
Qed.

Lemma config_unmoved home leads accounts s : rescued home leads s = None ->
  safe (fun s' => config_of s' = config_of s) (fun _ _ => True) (runUninstall home leads true accounts) s.
Proof.
  intros Hn. unfold runUninstall.
  eapply safe_bind; [apply looking; [apply stop_looks | done] |]. intros f1 s1 _ ->.
  eapply safe_bind; [apply looking; [apply tray_looks | done] |]. intros f2 s1 _ ->.
  eapply safe_bind; [apply looking; [by uses_parts | done] |]. intros key s1 _ ->. cbv zeta.
  eapply (safe_bind _ (fun _ s' => config_of s' = config_of s)).
  - eapply safe_bind; [apply looking; [by uses_parts | done] |]. intros [u|err] s1 _ ->; [| by apply safe_ret].
    eapply (safe_bind _ (fun _ _ => True)); [| intros r s1 H1 _; by apply safe_ret].
    eapply safe_mono; [apply rescue_spec | intros s' H; by apply H | done].
  - intros f4 s1 H1 _. eapply safe_mono; [apply (safe_uses (sparing false) (fun s' => config_of s' = config_of s)); [| apply files_sparing | exact H1] | done | done].
    intros R o ev s' Ho <-. by apply (exec_sparing false).
Qed.

(** ** Directories that are never named *)

(** The operations that change nothing in the directory. *)
Definition avoiding (d : place) (R : Type) (o : op R) : bool :=
  match o with
  | WriteFile p _ | Remove p | RemoveEntry p => negb (bool_decide (p.1 = d))
  | RemoveAll d' => negb (bool_decide (d' = d))
  | _ => true
  end.

Definition unchanged (d : place) (s s' : machine) : Prop :=
  um_roots s' !! d = um_roots s !! d /\ forall name, um_entries s' !! (d, name) = um_entries s !! (d, name).

Lemma exec_avoiding d {R : Type} (o : op R) ev s : avoiding d R o = true -> unchanged d s (exec o ev s).2.
Proof.
  intros Ho. split.
  - destruct o as [e|e|p|p|p data|p|p|e|e|words| | |]; try done; cbn in Ho |- *.
    + destruct (bool_decide (um_roots s !! p.1 = None)); [done |]. destruct (ev_fails ev); [by destruct (ev_data ev) | done].
    + destruct (ev_fails ev); [done |]. by destruct (um_entries s !! p).
    + by destruct (ev_fails ev).
    + apply negb_true_iff, bool_decide_eq_false in Ho. destruct (ev_fails ev); [done |]. by apply lookup_delete_ne.
  - intros name. destruct o as [e|e|p|p|p data|p|p|e|e|words| | |]; try done; cbn in Ho |- *; apply negb_true_iff, bool_decide_eq_false in Ho.
    + destruct (bool_decide (um_roots s !! p.1 = None)); [done |]. destruct (ev_fails ev); [destruct (ev_data ev) |]; cbn; try done; by (apply lookup_insert_ne; intros ->).
    + destruct (ev_fails ev); [done |]. destruct (um_entries s !! p); [| done]. cbn. by apply lookup_delete_ne; intros ->.
    + destruct (ev_fails ev); [done |]. cbn. by apply lookup_delete_ne; intros ->.
    + destruct (ev_fails ev); cbn; rewrite keep_entries_lookup; cbn; by rewrite bool_decide_false by congruence.
Qed.

Lemma looks_avoiding {A : Type} d (p : prog A) : uses looks p -> uses (avoiding d) p.
Proof. induction p as [a|R o k IH]; [done |]. intros [Ho Hk]. split; [by destruct o | intros r; by apply IH]. Qed.

Lemma drop_avoiding d d' names : d' <> d -> uses (avoiding d) (drop_entries d' names).
Proof.
  intros Hd. induction names as [|name rest IH]; cbn [drop_entries]; [exact I |]. destruct (keep name); [exact IH |].
  apply uses_bind; [| uses_parts]. apply uses_call. cbn. by rewrite bool_decide_false.
Qed.

Lemma again_avoiding d d' more : d' <> d -> uses (avoiding d) (remove_again more d').
Proof.
  intros Hd. induction more as [|more IH]; cbn [remove_again]; (apply uses_bind; [apply uses_call; cbn; by rewrite bool_decide_false |]); uses_parts.
Qed.

Lemma state_avoiding d d' : d' <> d -> uses (avoiding d) (removeAllState d') /\ uses (avoiding d) (preserveStateConfig d').
Proof.
  intros Hd. split; [unfold removeAllState | unfold preserveStateConfig];
    repeat (uses_parts; first [apply looks_avoiding, guard_looks | by apply drop_avoiding | by cbn; rewrite bool_decide_false | idtac]).
Qed.

Lemma users_avoiding d users : (forall u, u ∈ users -> UserState u <> d) -> uses (avoiding d) (remove_users users).
Proof.
  induction users as [|u rest IH]; intros Hu; cbn [remove_users]; [exact I |].
  assert (IH' : uses (avoiding d) (remove_users rest)) by (apply IH; intros v Hv; apply Hu; by right).
  specialize (Hu u ltac:(by left)).
  repeat (uses_parts; first [apply looks_avoiding, guard_looks | by cbn; rewrite bool_decide_false | idtac]).
Qed.

Lemma rescue_avoiding home leads d : ServiceState <> d -> uses (avoiding d) (preserveRedirectedSettings home leads).
Proof.
  intros Hd. unfold preserveRedirectedSettings.
  repeat (uses_parts; first [apply looks_avoiding, guard_looks | by cbn; rewrite bool_decide_false | idtac]).
Qed.

Lemma uninstall_avoiding home leads d keepConfig accounts :
  ProgramDir <> d -> ServiceState <> d -> (forall u, u ∈ userStateDirs accounts -> UserState u <> d) ->
  uses (avoiding d) (runUninstall home leads keepConfig accounts).
Proof.
  intros Hp Hs Hu. pose proof (state_avoiding d ServiceState Hs) as [Ha Hb]. pose proof (users_avoiding d _ Hu) as Hc.
  pose proof (rescue_avoiding home leads d Hs) as Hr. pose proof (again_avoiding d ProgramDir 40 Hp) as Hg.
  unfold runUninstall, remove_files. destruct keepConfig;
    repeat (uses_parts; first [ apply looks_avoiding, stop_looks | apply looks_avoiding, tray_looks | assumption | idtac ]).
Qed.

(** C20: The uninstaller removes what is the Agent's and nothing else. Whatever it is asked to do, whatever fails, and wherever it is stopped: a directory other than the program directory, the service's state directory and those userStateDirs names stays as it is, wherever the pointer to moved settings leads; a state directory, the service's or a user's, that is not a real directory or does not carry the Agent's own marker keeps every entry, the service's pointer to moved settings apart. With keep-config the secrets and the marker of the service's state stay as they are at every moment, and so does the settings file unless the pointer names another settings file that can be read. When it reports success, the program directory and every directory that userStateDirs names are gone; without keep-config so is the service's state, and with it the settings file holds the content of the settings file that the pointer named, if there was one, and otherwise what it held. *)
Theorem uninstall_owned_only home leads (keepConfig : bool) accounts s events s' done_ :
  run events (runUninstall home leads keepConfig accounts) s = (s', done_) ->
  (forall d, d <> ProgramDir -> d <> ServiceState -> (forall u, u ∈ userStateDirs accounts -> d <> UserState u) -> unchanged d s s') /\
  (forall d, d <> ProgramDir -> um_roots s !! d <> Some true \/ ~ genuine_marker s d ->
     forall name, ~ (d = ServiceState /\ name = "settings_location") -> um_entries s' !! (d, name) = um_entries s !! (d, name)) /\
  (keepConfig = true ->
     (forall name, keep name = true -> name <> "config.json" ->
        um_entries s' !! (ServiceState, name) = um_entries s !! (ServiceState, name)) /\
     (rescued home leads s = None -> config_of s' = config_of s)) /\
  (done_ = Some (Ok tt) ->
     um_roots s' !! ProgramDir = None /\ (forall u, u ∈ userStateDirs accounts -> um_roots s' !! UserState u = None) /\
     if keepConfig then config_of s' = match rescued home leads s with Some data => Some (File data) | None => config_of s end
     else um_roots s' !! ServiceState = None).
Proof.
  intros Hr. split; [| split; [| split]].
  - intros d Hp Hs Hu. assert (H : safe (unchanged d s) (fun _ s1 => unchanged d s s1) (runUninstall home leads keepConfig accounts) s).
    { apply (safe_uses (avoiding d)); [| by apply uninstall_avoiding; try congruence; intros u Hin E; apply (Hu u Hin) | by split].
      intros R o ev s1 Ho [Ha Hb]. destruct (exec_avoiding d o ev s1 Ho) as [Ha' Hb']. split; [congruence |]. intros name. by rewrite Hb'. }
    pose proof (safe_run _ _ _ events s H) as H'. rewrite Hr in H'. apply H'.
  - intros d Hd Hf name Hn.
    pose proof (safe_run _ _ _ events s (uninstall_untouched d s Hd Hf home leads keepConfig accounts s (conj (fun _ _ => eq_refl) (fun _ H => H)))) as H.
    rewrite Hr in H. destruct H as [[He _] _]. by apply He.
  - intros ->. split.
    + intros name Hk Hne. assert (Hs : safe (fun s1 => um_entries s1 !! (ServiceState, name) = um_entries s !! (ServiceState, name))
        (fun _ s1 => um_entries s1 !! (ServiceState, name) = um_entries s !! (ServiceState, name)) (runUninstall home leads true accounts) s).
      { apply (safe_uses (sparing true)); [| apply keeping_sparing | done]. intros R o ev s1 Ho <-. by apply (exec_sparing true). }
      pose proof (safe_run _ _ _ events s Hs) as H. rewrite Hr in H. apply H.
    + intros Hn. pose proof (safe_run _ _ _ events s (config_unmoved home leads accounts s Hn)) as H. rewrite Hr in H. apply H.
  - intros ->. pose proof (safe_run _ _ _ events s (uninstall_ok home leads keepConfig accounts s)) as H. rewrite Hr in H.
    exact (proj2 H _ eq_refl eq_refl).
Qed.

(** ** Runs *)

Definition smooth : event := MkEvent false None [] false.
Definition refused : event := MkEvent true None [] false.

Fixpoint cut_last (sep : Ascii.ascii) (s : string) : option (string * string) :=
  match s with
  | EmptyString => None
  | String c rest =>
    match cut_last sep rest with
    | Some (dir, base) => Some (String c dir, base)
    | None => if Ascii.eqb c sep then Some (EmptyString, rest) else None
    end
  end.

Definition windows_home : Home :=
  MkHome "C:\ProgramData\HooshiXAgent" true (String.prefix "C:\")
    (fun p => match cut_last (Ascii.ascii_of_nat 92) p with Some (_, base) => base | None => p end)
    (fun p => match cut_last (Ascii.ascii_of_nat 92) p with Some (dir, _) => dir | None => "." end) id.

Definition demo_leads (dir : string) : place :=
  if String.eqb dir "C:\Program Files\HooshiXAgent" then ProgramDir
  else if String.eqb dir (hm_dir windows_home) then ServiceState else Elsewhere dir.

(** No user at the desktop; the elevated account has a directory. *)
Definition demo_accounts : Accounts :=
  MkAccounts io_error (fun _ => io_error) (fun _ => io_error) (Ok "C:\Users\admin\AppData\Local") (String.concat "\").

Definition demo_user : place := UserState "C:\Users\admin\AppData\Local\HooshiXAgent".

Definition demo_text (text : string) : node := File (bytes_of text).

(** The settings have been moved. *)
Definition demo_machine : machine := {|
  um_roots := <[ProgramDir := true]> (<[ServiceState := true]> ∅);
  um_entries :=
    <[(ProgramDir, "hooshix-agent.exe") := demo_text "program"]> (<[(ProgramDir, "config.json") := demo_text "settings"]>
    (<[(ServiceState, ".hooshix-agent-state") := demo_text "hooshix-agent-state-v1"]>
    (<[(ServiceState, "settings_location") := demo_text "C:\Program Files\HooshiXAgent\config.json"]>
    (<[(ServiceState, "secrets.dpapi") := demo_text "secrets"]> (<[(ServiceState, "status.json") := demo_text "status"]> ∅))))) |}.

(** The service and the tray task, which is gone afterwards; then nothing fails. *)
Definition demo_quiet : list event := repeat smooth 6 ++ [refused] ++ repeat smooth 40.

Lemma uninstall_owned_only_witness :
  (run demo_quiet (runUninstall windows_home demo_leads true demo_accounts) demo_machine).2 = Some (Ok tt) /\
  config_of (run demo_quiet (runUninstall windows_home demo_leads true demo_accounts) demo_machine).1 = Some (demo_text "settings").
Proof.
  assert (H : (run demo_quiet (runUninstall windows_home demo_leads true demo_accounts) demo_machine).2 = Some (Ok tt)) by (vm_compute; reflexivity).
  split; [exact H |].
  pose proof (uninstall_owned_only windows_home demo_leads true demo_accounts demo_machine demo_quiet _ _ (surjective_pairing _)) as (_ & _ & _ & Hok).
  destruct (Hok H) as (_ & _ & Hc). exact Hc.
Defined.

(** Settings that the pointer finds in a directory that is nobody's are brought
    back as well, and stay there too. *)
Definition demo_faraway : machine :=
  MkMachine (um_roots demo_machine)
    (<[(ServiceState, "settings_location") := demo_text "C:\Elsewhere\config.json"]> (<[(Elsewhere "C:\Elsewhere", "config.json") := demo_text "far"]> (um_entries demo_machine))).

Lemma faraway_settings_rescued :
  let '(s', r) := run demo_quiet (runUninstall windows_home demo_leads true demo_accounts) demo_faraway in
  r = Some (Ok tt) /\ config_of s' = Some (demo_text "far") /\ um_entries s' !! (Elsewhere "C:\Elsewhere", "config.json") = Some (demo_text "far").
Proof. vm_compute. by split_and!. Qed.

(** The moved settings could not be written back; the program directory, with
    the only copy of them, is removed all the same. *)
Lemma failed_rescue_loses_settings :
  let '(s', r) := run (repeat smooth 6 ++ [refused] ++ repeat smooth 9 ++ [refused] ++ repeat smooth 40) (runUninstall windows_home demo_leads true demo_accounts) demo_machine in
  r = Some (Err (ErrMsg "uninstall incomplete")) /\ config_of s' = None /\ um_entries s' !! (ProgramDir, "config.json") = None /\ um_roots s' !! ProgramDir = None.
Proof. vm_compute. by split_and!. Qed.

(** The directory the tray has made for its log has no marker. *)
Definition demo_tray : machine :=
  MkMachine (<[demo_user := true]> (um_roots demo_machine)) (<[(demo_user, "tray.log") := demo_text "log"]> (um_entries demo_machine)).

Lemma tray_log_is_refused :
  let '(s', r) := run demo_quiet (runUninstall windows_home demo_leads false demo_accounts) demo_tray in
  r = Some (Err (ErrMsg "uninstall incomplete")) /\ um_entries s' !! (demo_user, "tray.log") = Some (demo_text "log").
Proof. vm_compute. by split. Qed.

(** A pointer in a directory without a marker is removed before any guard. *)
Lemma pointer_removed_unguarded :
  let s := MkMachine (<[ServiceState := true]> ∅) (<[(ServiceState, "settings_location") := demo_text "elsewhere"]> (<[(ServiceState, "other") := demo_text "x"]> ∅)) in
  let s' := (run (repeat smooth 4 ++ [refused] ++ repeat smooth 40) (runUninstall windows_home demo_leads true demo_accounts) s).1 in
  ~ genuine_marker s ServiceState /\ um_entries s' !! (ServiceState, "settings_location") = None.
Proof. cbv zeta. split; [| vm_compute; reflexivity]. intros (data & H & _). vm_compute in H. discriminate H. Qed.
