(* ===== verification/ConnectorConfig.v ===== *)
(** * ConnectorConfig: what a Connector is told and what it presents

    [Config.Validate] of [internal/connector/connector.go], [ParseBundle] of
    [bundle.go], and the Gateway's side of the credentials, [bearerToken] of
    [internal/gateway/connector.go].  [net/url.Parse] is a parameter. *)

From S2P Require Import Prelude GoText GoTime GoNet Json StrictJson JsonMarshal Contract ContractV2 Metadata AgentTarget AgentConfig.

(** ** The configuration *)

Record ConnectorConfig := MkConnectorConfig {
  cc_GatewayURL : string;
  cc_Protocol : string;
  cc_GrantID : string;
  cc_TokenID : string;
  cc_Token : string;
  cc_ListenAddress : string;
  cc_MaxConnections : Z;
  cc_DialTimeout : Z;
  cc_IdleTimeout : Z;
  cc_WriteTimeout : Z;
}.

Definition DefaultConnectorConfig : ConnectorConfig :=
  MkConnectorConfig EmptyString "tcp" EmptyString EmptyString EmptyString "127.0.0.1:13389" 4 (10 * Second) (5 * Minute) (15 * Second).

(** [strings.ContainsAny(token, " \t\r\n")]. *)
Definition blank_byte (b : Byte.byte) : bool :=
  Byte.eqb b Byte.x20 || Byte.eqb b Byte.x09 || Byte.eqb b Byte.x0d || Byte.eqb b Byte.x0a.

Definition token_shape (token : string) : bool :=
  (32 <=? slen token) && (slen token <=? 512) && negb (existsb blank_byte (bytes_of token)).

Definition validateLoopbackAddress (address : string) : result unit :=
  match SplitHostPort address with
  | None => Err (ErrMsg "listen address must be an explicit loopback host:port")
  | Some (host, port) =>
    reject_if (String.eqb port EmptyString) (ErrMsg "listen address must be an explicit loopback host:port") ;?
    reject_if (match ParseIP host with Some ip => negb (IsLoopback ip) | None => true end)
              (ErrMsg "connector listener must use a loopback IP literal")
  end.

Section Validate.
Context (url_Parse : string -> result URL).

Definition bad_gateway_url (raw : string) : bool :=
  match url_Parse raw with
  | Err _ => true
  | Ok parsed =>
    negb (String.eqb (u_Scheme parsed) "wss") || String.eqb (u_Host parsed) EmptyString || u_User parsed ||
    negb (String.eqb (u_Path parsed) "/connector/v1/connect") || negb (String.eqb (u_RawQuery parsed) EmptyString) ||
    negb (String.eqb (u_Fragment parsed) EmptyString)
  end.

Definition Validate (c : ConnectorConfig) : result unit :=
  reject_if (negb (String.eqb (cc_Protocol c) "tcp") && negb (String.eqb (cc_Protocol c) "udp"))
            (ErrMsg "connector protocol must be tcp or udp") ;?
  reject_if (bad_gateway_url (cc_GatewayURL c))
    (ErrMsg "gateway URL must be wss://<host>/connector/v1/connect without credentials, query, or fragment") ;?
  reject_if (negb (idPattern (cc_GrantID c)) || negb (idPattern (cc_TokenID c)))
            (ErrMsg "grant ID and token ID must be valid contract identifiers") ;?
  reject_if ((slen (cc_Token c) <? 32) || (512 <? slen (cc_Token c)) || existsb blank_byte (bytes_of (cc_Token c)))
            (ErrMsg "connector token must be 32..512 non-whitespace characters") ;?
  validateLoopbackAddress (cc_ListenAddress c) ;?
  reject_if ((cc_MaxConnections c <? 1) || (16 <? cc_MaxConnections c)) (ErrMsg "max connections must be in 1..16") ;?
  reject_if ((cc_DialTimeout c <=? 0) || (cc_IdleTimeout c <=? 0) || (cc_WriteTimeout c <=? 0))
            (ErrMsg "connector timeouts must be positive").

(** ** The invitation *)

Definition BundlePrefix : string := "hx1.".

Record Bundle := MkBundle {
  bu_GatewayURL : string;
  bu_GrantID : string;
  bu_TokenID : string;
  bu_Token : string;
  bu_Protocol : string;
  bu_MaxConnections : Z;
}.

Definition Bundle_schema : schema :=
  [("gateway", KString); ("grant_id", KString); ("token_id", KString); ("token", KString); ("protocol", KString);
   ("max_connections", KInt)].

Definition Bundle_of (m : gmap string field_val) : Bundle :=
  MkBundle (get_string m "gateway") (get_string m "grant_id") (get_string m "token_id") (get_string m "token")
    (get_string m "protocol") (get_int m "max_connections").

Definition bundle_config (b : Bundle) (base : ConnectorConfig) : ConnectorConfig :=
  MkConnectorConfig (bu_GatewayURL b)
    (if negb (String.eqb (bu_Protocol b) EmptyString) then bu_Protocol b else cc_Protocol base)
    (bu_GrantID b) (bu_TokenID b) (bu_Token b) (cc_ListenAddress base)
    (if negb (bu_MaxConnections b =? 0) then bu_MaxConnections b else cc_MaxConnections base)
    (cc_DialTimeout base) (cc_IdleTimeout base) (cc_WriteTimeout base).

Definition ParseBundle (raw : string) : result Bundle :=
  match strip_prefix (bytes_of BundlePrefix) (trim_space (bytes_of raw)) with
  | None => Err (ErrMsg "connect bundle must start with hx1.")
  | Some encoded =>
    match b64_decode encoded with
    | None => Err (ErrMsg "connect bundle payload is not valid base64url")
    | Some payload =>
      match json_unmarshal Bundle_schema payload with
      | Err err => Err (ErrWrap "connect bundle payload is not valid JSON" err)
      | Ok fields =>
        let bundle := Bundle_of fields in
        match Validate (bundle_config bundle DefaultConnectorConfig) with
        | Err err => Err (ErrWrap "connect bundle is invalid" err)
        | Ok _ => Ok bundle
        end
      end
    end
  end.
End Validate.

(** ** The credentials on the wire *)

(** The [Authorization] header of [proxy] and [proxyUDP]. *)
Definition authorization_header (c : ConnectorConfig) : string := "Bearer " +:+ cc_Token c.

Definition bearerToken (value : string) : string * bool :=
  match strip_prefix (bytes_of "Bearer ") (bytes_of value) with
  | None => (EmptyString, false)
  | Some rest => let token := string_of rest in (token, token_shape token)
  end.

Lemma strip_prefix_app p r : strip_prefix p (p ++ r) = Some r.
Proof. induction p as [|b p IH]; [by destruct r |]. cbn. by rewrite byte_eqb_refl. Qed.

Lemma strip_prefix_Some p l r : strip_prefix p l = Some r -> l = p ++ r.
Proof.
  revert l. induction p as [|b p IH]; intros l; cbn; [by destruct l; intros [= <-] |].
  destruct l as [|x l]; [done |]. destruct (Byte.eqb b x) eqn:E; [| done]. apply byte_eqb_eq in E as ->.
  by intros ->%IH.
Qed.

Lemma bearerToken_header c : bearerToken (authorization_header c) = (cc_Token c, token_shape (cc_Token c)).
Proof.
  unfold bearerToken, authorization_header. rewrite bytes_of_app, strip_prefix_app. by rewrite string_of_bytes_of.
Qed.

Lemma token_shape_iff token : token_shape token = true <->
  32 <= slen token <= 512 /\ forall b, b ∈ bytes_of token -> b ∉ [Byte.x20; Byte.x09; Byte.x0d; Byte.x0a].
Proof.
  unfold token_shape. rewrite !andb_true_iff, !Z.leb_le, negb_true_iff, <- not_true_iff_false, existsb_exists. split.
  - intros [[H1 H2] Hn]. split; [done |]. intros b Hb Hbad. apply Hn. exists b. split; [by apply list_elem_of_In |].
    unfold blank_byte. rewrite !elem_of_cons, elem_of_nil in Hbad. rewrite !orb_true_iff, !byte_eqb_eq. tauto.
  - intros [[H1 H2] Hn]. split; [done |]. intros (b & Hb & Hbad). apply (Hn b); [by apply list_elem_of_In |].
    unfold blank_byte in Hbad. rewrite !orb_true_iff, !byte_eqb_eq in Hbad. rewrite !elem_of_cons, elem_of_nil. tauto.
Qed.

(** What a valid configuration says. *)
Record connector_config_ok (url_Parse : string -> result URL) (c : ConnectorConfig) : Prop := ConnectorConfigOk {
  co_protocol : cc_Protocol c ∈ ["tcp"; "udp"];
  co_gateway : exists u, url_Parse (cc_GatewayURL c) = Ok u /\ u_Scheme u = "wss" /\ u_Host u <> EmptyString /\
    u_User u = false /\ u_Path u = "/connector/v1/connect" /\ u_RawQuery u = EmptyString /\ u_Fragment u = EmptyString;
  co_ids : id_ok (cc_GrantID c) /\ id_ok (cc_TokenID c);
  co_token : token_shape (cc_Token c) = true;
  co_listen : exists host port ip, SplitHostPort (cc_ListenAddress c) = Some (host, port) /\ port <> EmptyString /\
    ParseIP host = Some ip /\ IsLoopback ip = true;
  co_bounds : 1 <= cc_MaxConnections c <= 16;
  co_timeouts : 0 < cc_DialTimeout c /\ 0 < cc_IdleTimeout c /\ 0 < cc_WriteTimeout c;
}.

Lemma bad_gateway_url_false url_Parse raw : bad_gateway_url url_Parse raw = false <->
  exists u, url_Parse raw = Ok u /\ u_Scheme u = "wss" /\ u_Host u <> EmptyString /\
    u_User u = false /\ u_Path u = "/connector/v1/connect" /\ u_RawQuery u = EmptyString /\ u_Fragment u = EmptyString.
Proof.
  unfold bad_gateway_url. destruct (url_Parse raw) as [u|e]; [| split; [done | by intros (? & ? & _)]].
  rewrite !orb_false_iff, !negb_false_iff, !String.eqb_eq, String.eqb_neq. split.
  - intros [[[[[? ?] ?] ?] ?] ?]. by exists u.
  - intros (? & [= <-] & ? & ? & ? & ? & ? & ?). by split_and!.
Qed.

Lemma validateLoopbackAddress_Ok address : validateLoopbackAddress address = Ok tt <->
  exists host port ip, SplitHostPort address = Some (host, port) /\ port <> EmptyString /\ ParseIP host = Some ip /\ IsLoopback ip = true.
Proof.
  unfold validateLoopbackAddress. destruct (SplitHostPort address) as [[host port]|]; [| split; [done | by intros (? & ? & ? & ? & _)]].
  rewrite then_Ok, !reject_if_Ok, String.eqb_neq. split.
  - intros [Hp Hi]. destruct (ParseIP host) as [ip|] eqn:E; [| done]. apply negb_false_iff in Hi. exists host, port, ip. by split_and!.
  - intros (h & p & ip & [= <- <-] & Hp & -> & ->). done.
Qed.

Lemma Validate_iff url_Parse c : Validate url_Parse c = Ok tt <-> connector_config_ok url_Parse c.
Proof.
  unfold Validate. rewrite !then_Ok, !reject_if_Ok, bad_gateway_url_false, validateLoopbackAddress_Ok.
  rewrite !orb_false_iff, !negb_false_iff, andb_false_iff, !negb_false_iff, !String.eqb_eq, !Z.ltb_ge, !Z.leb_gt. split.
  - intros (Hp & Hg & [Hi1 Hi2] & [[Ht1 Ht2] Ht3] & Hl & [Hm1 Hm2] & [[Hd1 Hd2] Hd3]). split; try done.
    + rewrite !elem_of_cons, elem_of_nil. tauto.
    + unfold token_shape. by rewrite !(proj2 (Z.leb_le _ _)), Ht3.
  - intros [Hp Hg [Hi1 Hi2] Ht Hl [Hm1 Hm2] (Hd1 & Hd2 & Hd3)]. rewrite !elem_of_cons, elem_of_nil in Hp.
    unfold token_shape in Ht. bool_facts. split_and!; try done; tauto.
Qed.

(** An invitation that ParseBundle accepts configures a Connector that is safe to run and that the Gateway will hear: its configuration meets every rule of Validate (which accepts exactly the configurations that do: a wss URL of the connector endpoint without credentials, query or fragment, contract identifiers, a token of 32 to 512 bytes without blanks, a loopback listener with a port, 1 to 16 connections, positive timeouts), it keeps the bundle's own values, with the documented defaults for a missing protocol or connection count, and the Authorization header the Connector sends is one from which the Gateway's bearerToken takes exactly that token; no other header value yields it. *)
Theorem connector_config_sound url_Parse raw b :
  ParseBundle url_Parse raw = Ok b ->
  let c := bundle_config b DefaultConnectorConfig in
  connector_config_ok url_Parse c /\ (forall c', Validate url_Parse c' = Ok tt <-> connector_config_ok url_Parse c') /\
  cc_GatewayURL c = bu_GatewayURL b /\ cc_GrantID c = bu_GrantID b /\ cc_TokenID c = bu_TokenID b /\ cc_Token c = bu_Token b /\
  (bu_Protocol b = EmptyString -> cc_Protocol c = "tcp") /\ (bu_MaxConnections b = 0 -> cc_MaxConnections c = 4) /\
  cc_ListenAddress c = "127.0.0.1:13389" /\
  bearerToken (authorization_header c) = (bu_Token b, true) /\
  (forall value, bearerToken value = (bu_Token b, true) -> value = authorization_header c).
Proof.
  intros H c. assert (Hv : Validate url_Parse c = Ok tt).
  { unfold ParseBundle in H. destruct (strip_prefix _ _); [| done]. destruct (b64_decode _); [| done].
    destruct (json_unmarshal _ _) as [fields|]; [| done]. cbv zeta in H.
    destruct (Validate _ _) as [[]|] eqn:E; [| done]. injection H as <-. exact E. }
  apply Validate_iff in Hv as Hok. split; [exact Hok |]. split; [intros c'; apply Validate_iff |].
  do 4 (split; [reflexivity |]). unfold c, bundle_config. split; [by intros -> |]. split; [by intros -> |].
  split; [reflexivity |]. split.
  - rewrite bearerToken_header. f_equal. apply Hok.
  - intros value. unfold bearerToken. destruct (strip_prefix _ _) as [rest|] eqn:E; [| by intros [= H0]].
    intros [= Hr Hs]. apply strip_prefix_Some in E. apply bytes_of_inj. rewrite E. unfold authorization_header. cbn [cc_Token].
    by rewrite bytes_of_app, <- Hr, bytes_of_string_of.
Qed.

Definition demo_connector_url (raw : string) : result URL :=
  Ok (MkURL "wss" raw false "/connector/v1/connect" EmptyString EmptyString).

Definition demo_bundle_json : bytes :=
  demo_json ("{'gateway':'wss://g.example/connector/v1/connect','grant_id':'grant-1','token_id':'tok-1'," +:+
    "'token':'0123456789abcdef0123456789abcdef','protocol':'','max_connections':0}").

Lemma connector_config_sound_witness :
  exists b, ParseBundle demo_connector_url (" hx1." +:+ b64_encode_string demo_bundle_json) = Ok b /\
    bearerToken (authorization_header (bundle_config b DefaultConnectorConfig)) = (bu_Token b, true).
Proof.
  destruct (ParseBundle demo_connector_url (" hx1." +:+ b64_encode_string demo_bundle_json)) as [b|e] eqn:E;
    [| exfalso; apply (f_equal is_ok) in E; vm_compute in E; discriminate E].
  exists b. split; [reflexivity |].
  destruct (connector_config_sound demo_connector_url _ b E) as (_ & _ & _ & _ & _ & _ & _ & _ & _ & Hb & _). exact Hb.
Defined.
