(* ===== verification/ConnectorServe.v ===== *)
(** * ConnectorServe: a Connector's listeners and their flows

    [Serve] and [proxy] of [internal/connector/connector.go], [ServeUDP] and
    [proxyUDP] of [udp.go]: the accept loop with its slots and its count of
    live clients, the table of local UDP peers, and how a flow ends.  The copy
    loops themselves are those of {!ConnectorFlow}.  Each server reports the
    number of its clients to an observer, whose view is {!ConnectApp}. *)

From S2P Require Import Prelude GoText GoTime GoNet Contract ContractV2 Metadata AgentTarget AgentConfig ConnectorConfig.
From S2P Require Import Json Frame Control ControlCodec Window Budget GwLimits GwStream Wire SessTable GwSession GwServe ConnectorFlow.

(** ** Before the first client *)

(** The guards of [Serve] and [ServeUDP]; [bound]: the address of the listener,
    [None] when it is not of the expected kind. *)
Definition serve_guard (url_Parse : string -> result URL) (kind : string) (config : ConnectorConfig) (bound : option IP) : result unit :=
  Validate url_Parse config ;?
  reject_if (negb (match bound with Some ip => IsLoopback ip | None => false end))
            (ErrMsg (kind +:+ "connector listener must be bound to loopback")).

(** ** Serve: TCP clients *)

(** The accept loop between two of its steps, and the error it ended with. *)
Inductive accept_phase :=
| ALoop
| ATook (id : Z)                 (* the slot is taken *)
| ACounted (id : Z) (n : Z)      (* [live.Add(1)] gave [n] *)
| AStopped (err : option error).

(** A client's goroutine: in [proxy], then its deferred calls. *)
Inductive flow_phase :=
| FProxy
| FCounted (n : Z)               (* [live.Add(-1)] gave [n] *)
| FReported.

#[export] Instance flow_phase_eq_dec : EqDecision flow_phase.
Proof. solve_decision. Defined.

Record tcp_server := MkTcpServer {
  ts_accept : accept_phase;
  ts_flows : gmap Z flow_phase;
  ts_slots : Z;                  (* [len(slots)] *)
  ts_live : Z;
  ts_made : Z;
  ts_closed : Z;                 (* connections closed for want of a slot *)
}.

Definition new_tcp_server : tcp_server := MkTcpServer ALoop ∅ 0 0 0 0.

Definition set_phase (s : tcp_server) (id : Z) (p : flow_phase) : tcp_server :=
  MkTcpServer (ts_accept s) (<[id := p]> (ts_flows s)) (ts_slots s) (ts_live s) (ts_made s) (ts_closed s).

(** [cap(slots)] is [max]; a step may call the observer with a count. *)
Inductive tcp_step (max : Z) (s : tcp_server) : option Z -> tcp_server -> Prop :=
| ts_take : ts_accept s = ALoop -> ts_slots s < max ->
    tcp_step max s None (MkTcpServer (ATook (ts_made s)) (ts_flows s) (ts_slots s + 1) (ts_live s) (ts_made s + 1) (ts_closed s))
| ts_full : ts_accept s = ALoop -> max <= ts_slots s ->
    tcp_step max s None (MkTcpServer ALoop (ts_flows s) (ts_slots s) (ts_live s) (ts_made s) (ts_closed s + 1))
| ts_stop done_ err : ts_accept s = ALoop ->
    tcp_step max s None (MkTcpServer (AStopped (if (done_ : bool) then None else Some (ErrWrap "accept connector client" err)))
                          (ts_flows s) (ts_slots s) (ts_live s) (ts_made s) (ts_closed s))
| ts_count id : ts_accept s = ATook id ->
    tcp_step max s None (MkTcpServer (ACounted id (ts_live s + 1)) (ts_flows s) (ts_slots s) (ts_live s + 1) (ts_made s) (ts_closed s))
| ts_report id n : ts_accept s = ACounted id n ->
    tcp_step max s (Some n) (MkTcpServer ALoop (<[id := FProxy]> (ts_flows s)) (ts_slots s) (ts_live s) (ts_made s) (ts_closed s))
| ts_leave id : ts_flows s !! id = Some FProxy ->
    tcp_step max s None (MkTcpServer (ts_accept s) (<[id := FCounted (ts_live s - 1)]> (ts_flows s)) (ts_slots s) (ts_live s - 1)
                          (ts_made s) (ts_closed s))
| ts_tell id n : ts_flows s !! id = Some (FCounted n) -> tcp_step max s (Some n) (set_phase s id FReported)
| ts_release id : ts_flows s !! id = Some FReported ->
    tcp_step max s None (MkTcpServer (ts_accept s) (delete id (ts_flows s)) (ts_slots s - 1) (ts_live s) (ts_made s) (ts_closed s)).

(** ** ServeUDP: local peers *)

Record local_flow := MkLocalFlow {
  lf_key : string;
  lf_packets : list bytes;       (* the channel *)
  lf_frames : list bytes;        (* written to the Gateway *)
  lf_running : bool;
  lf_writing : bool;             (* [writeUDPToGateway] has not returned *)
}.

(** The table from peers to flows; a goroutine keeps its flow when the table
    no longer has it.  [us_received]: the datagrams the loop took up. *)
Record udp_server := MkUdpServer {
  us_table : gmap string Z;
  us_flows : gmap Z local_flow;
  us_made : Z;
  us_received : list (string * bytes);
  us_stopped : option (option error);   (* what [ServeUDP] returned *)
}.

Definition new_udp_server : udp_server := MkUdpServer ∅ ∅ 0 [] None.

Definition put_local (s : udp_server) (id : Z) (f : local_flow) : udp_server :=
  MkUdpServer (us_table s) (<[id := f]> (us_flows s)) (us_made s) (us_received s) (us_stopped s).

(** The non-blocking send on the channel. *)
Definition offer_local (s : udp_server) (id : Z) (packet : bytes) : udp_server :=
  match us_flows s !! id with
  | Some f =>
    if Nat.ltb (length (lf_packets f)) 16
    then put_local s id (MkLocalFlow (lf_key f) (lf_packets f ++ [packet]) (lf_frames f) (lf_running f) (lf_writing f))
    else s
  | None => s
  end.

Definition take_up (s : udp_server) (key : string) (packet : bytes) : udp_server :=
  MkUdpServer (us_table s) (us_flows s) (us_made s) (us_received s ++ [(key, packet)]) (us_stopped s).

Definition open_local (s : udp_server) (key : string) : udp_server :=
  MkUdpServer (<[key := us_made s]> (us_table s)) (<[us_made s := MkLocalFlow key [] [] true true]> (us_flows s)) (us_made s + 1)
    (us_received s) (us_stopped s).

(** One pass of the loop of [ServeUDP] over a datagram [data] from [peer] ([None]
    when it is no UDP address) whose text is [key], and the report it makes. *)
Definition receive_local (max : Z) (s : udp_server) (peer : option IP) (key : string) (data : bytes) : udp_server * option Z :=
  let packet := firstn (Z.to_nat (MaxUDPDatagram + 1)) data in
  if negb (match peer with Some ip => IsLoopback ip | None => false end) || (MaxUDPDatagram <? zlen packet) then (s, None)
  else
    match us_table s !! key with
    | Some id => (offer_local (take_up s key packet) id packet, None)
    | None =>
      if max <=? Z.of_nat (size (us_table s)) then (s, None)
      else
        let s' := open_local (take_up s key packet) key in
        (offer_local s' (us_made s) packet, Some (Z.of_nat (size (us_table s'))))
    end.

(** The end of a flow's goroutine, and the report it makes. *)
Definition end_local (s : udp_server) (id : Z) (f : local_flow) : udp_server * option Z :=
  let s' := put_local s id (MkLocalFlow (lf_key f) (lf_packets f) (lf_frames f) false (lf_writing f)) in
  if bool_decide (us_table s !! lf_key f = Some id)
  then let table := delete (lf_key f) (us_table s) in
       (MkUdpServer table (us_flows s') (us_made s') (us_received s') (us_stopped s'), Some (Z.of_nat (size table)))
  else (s', None).

Inductive udp_server_step (max : Z) (s : udp_server) : option Z -> udp_server -> Prop :=
| us_receive peer key data : us_stopped s = None ->
    udp_server_step max s (receive_local max s peer key data).2 (receive_local max s peer key data).1
| us_stop done_ err : us_stopped s = None ->
    udp_server_step max s None (MkUdpServer (us_table s) (us_flows s) (us_made s) (us_received s)
      (Some (if (done_ : bool) then None else Some (ErrWrap "read local UDP datagram" err))))
| us_write id f packet rest answer :
    us_flows s !! id = Some f -> lf_running f = true -> lf_writing f = true -> lf_packets f = packet :: rest ->
    udp_server_step max s None (put_local s id
      match (answer : option error) with
      | Some _ => MkLocalFlow (lf_key f) rest (lf_frames f) true false
      | None => MkLocalFlow (lf_key f) rest (lf_frames f ++ [udp_frame packet]) true true
      end)
| us_end id f : us_flows s !! id = Some f -> lf_running f = true ->
    udp_server_step max s (end_local s id f).2 (end_local s id f).1.

(** ** How a flow ends *)

(** [websocket.Dial]: an error, and the status of the answer when there was one. *)
Definition dial_failure (rejected dialing : string) (status : option Z) (err : error) : error :=
  match status with
  | Some _ => ErrMsg rejected
  | None => ErrWrap dialing err
  end.

(** The result of [proxy]: what its two copies returned, and whether the parent
    context was still live then. *)
Definition proxy_result (parent_live : bool) (fromRemote toRemote : result unit) : result unit :=
  match fromRemote, toRemote with
  | Err from, Err to => if errors_is from context_Canceled && parent_live then Err to else Err from
  | Err from, Ok _ => Err from
  | Ok _, _ => toRemote
  end.

Definition proxy (dialed : option (option Z * error)) (parent_live : bool) (fromRemote toRemote : result unit) : result unit :=
  match dialed with
  | Some (status, err) => Err (dial_failure "connector gateway rejected connection" "dial connector gateway" status err)
  | None => proxy_result parent_live fromRemote toRemote
  end.

(** [readUDPFromGateway]: each pass has a message, the answer of
    [SetWriteDeadline] and that of [WriteTo]; the datagrams that reached the peer. *)
Record local_write := MkLocalWrite {
  lw_msg : conn_read;
  lw_deadline : option error;
  lw_answer : Z * option error;
}.

Fixpoint readUDPFromGateway (rounds : list local_write) : list bytes * option error :=
  match rounds with
  | [] => ([], None)
  | r :: rest =>
    match udp_packet "invalid gateway UDP datagram" (lw_msg r) with
    | Err err => ([], Some err)
    | Ok packet =>
      match lw_deadline r, lw_answer r with
      | Some err, _ => ([], Some err)
      | None, (_, Some err) => ([], Some err)
      | None, (n, None) =>
        if negb (n =? zlen packet) then ([], Some (ErrMsg "short UDP datagram write"))
        else let '(more, res) := readUDPFromGateway rest in (packet :: more, res)
      end
    end
  end.

(** The result of [proxyUDP]: the reader ends with an error, [canceled] tells
    whether the flow's context was done by then. *)
Definition proxyUDP (dialed : option (option Z * error)) (canceled : bool) (readErr : error) (writeErr : result unit) : result unit :=
  match dialed with
  | Some (status, err) => Err (dial_failure "connector gateway rejected UDP flow" "dial UDP connector gateway" status err)
  | None => if canceled then writeErr else Err readErr
  end.

(** ** Traces

    A server from its start, with the counts it has reported. *)

Inductive traced {S : Type} (step : S -> option Z -> S -> Prop) (s0 : S) : list Z -> S -> Prop :=
| tr_start : traced step s0 [] s0
| tr_step log s out s' : traced step s0 log s -> step s out s' -> traced step s0 (log ++ option_list out) s'.

Lemma traced_invariant {S : Type} (step : S -> option Z -> S -> Prop) (P : list Z -> S -> Prop) s0 log s :
  P [] s0 -> (forall log a out b, P log a -> step a out b -> P (log ++ option_list out) b) -> traced step s0 log s -> P log s.
Proof. intros H0 Hstep H. induction H; eauto. Qed.

(** ** TCP: slots and counts *)

Definition accept_holds (a : accept_phase) : Z := match a with ATook _ | ACounted _ _ => 1 | _ => 0 end.
Definition accept_counted (a : accept_phase) : Z := match a with ACounted _ _ => 1 | _ => 0 end.
Definition accept_id (a : accept_phase) : option Z := match a with ATook id | ACounted id _ => Some id | _ => None end.

Definition proxying (s : tcp_server) : Z := Z.of_nat (count_if (fun p => p = FProxy) (ts_flows s)).

Record tcp_ok (max : Z) (s : tcp_server) : Prop := MkTcpOk {
  tk_slots : ts_slots s = Z.of_nat (size (ts_flows s)) + accept_holds (ts_accept s);
  tk_max : ts_slots s <= max;
  tk_live : ts_live s = proxying s + accept_counted (ts_accept s);
  tk_flows : forall id p, ts_flows s !! id = Some p -> id < ts_made s /\ forall n, p = FCounted n -> 0 <= n < max;
  tk_accept : forall id, accept_id (ts_accept s) = Some id -> id < ts_made s /\ ts_flows s !! id = None;
  tk_counted : forall id n, ts_accept s = ACounted id n -> 1 <= n <= max;
}.

Lemma proxying_size s : proxying s <= Z.of_nat (size (ts_flows s)).
Proof.
  unfold proxying, count_if. apply inj_le, map_subseteq_size, map_filter_subseteq.
Qed.

Lemma proxying_put (flows : gmap Z flow_phase) id p q :
  flows !! id = Some p ->
  Z.of_nat (count_if (fun x => x = FProxy) (<[id := q]> flows)) =
  Z.of_nat (count_if (fun x => x = FProxy) flows) - (if decide (p = FProxy) then 1 else 0) + (if decide (q = FProxy) then 1 else 0).
Proof.
  intros Hp. rewrite (count_delete _ flows _ _ Hp), (count_delete _ (<[id := q]> flows) id q) by apply lookup_insert_eq.
  rewrite delete_insert_eq. destruct (decide (p = FProxy)), (decide (q = FProxy)); lia.
Qed.

Lemma tcp_step_ok max s out s' : 0 <= max -> tcp_ok max s -> tcp_step max s out s' -> tcp_ok max s'.
Proof.
  intros Hmax [Hs Hm Hl Hf Ha Hc] Hstep. pose proof (proxying_size s) as Hps. unfold proxying in Hl, Hps.
  destruct Hstep as [E Hlt|E Hge|done_ err E|id E|id n E|id E|id n E|id E].
  - rewrite E in *. split; unfold proxying; cbn in *; try lia; try done.
    + intros id p Hp. destruct (Hf id p Hp). split; [lia | done].
    + intros id [= <-]. split; [lia |]. destruct (_ !! _) eqn:F; [| done]. destruct (Hf _ _ F); lia.
  - rewrite E in *. by split.
  - rewrite E in *. by split.
  - rewrite E in *. split; unfold proxying; cbn in *; try lia; try done. intros id' n [= <- <-]. lia.
  - rewrite E in *. destruct (Ha id eq_refl) as [Hid Hn]. split; unfold proxying; cbn in *; try done.
    + rewrite map_size_insert_None by done. lia.
    + rewrite count_insert by done. rewrite decide_True by done. lia.
    + intros id' p [[<- <-]|[_ Hp]]%lookup_insert_Some; [by split | by apply Hf].
  - pose proof (size_delete _ _ _ E). pose proof (count_pos (fun x => x = FProxy) _ _ _ E eq_refl) as Hpos. split; unfold proxying; cbn in *; try done.
    + rewrite map_size_insert_Some by by eexists. lia.
    + rewrite (proxying_put _ _ _ _ E). rewrite decide_True, decide_False by done. lia.
    + intros id' p [[<- <-]|[_ Hp]]%lookup_insert_Some; [| by apply Hf]. split; [by eapply Hf |]. intros n [= <-].
      assert (0 <= accept_counted (ts_accept s) <= accept_holds (ts_accept s)) by by destruct (ts_accept s). lia.
    + intros id' Hid'. destruct (Ha id' Hid') as [? Hn]. split; [done |]. rewrite lookup_insert_ne; congruence.
  - split; unfold proxying; cbn in *; try done.
    + rewrite map_size_insert_Some by by eexists. lia.
    + rewrite (proxying_put _ _ _ _ E). rewrite !decide_False by done. lia.
    + intros id' p [[<- <-]|[_ Hp]]%lookup_insert_Some; [| by apply Hf]. split; [by eapply Hf | done].
    + intros id' Hid'. destruct (Ha id' Hid') as [? Hn]. split; [done |]. rewrite lookup_insert_ne; congruence.
  - pose proof (size_delete _ _ _ E). split; unfold proxying; cbn in *; try done.
    + lia.
    + lia.
    + rewrite (count_delete _ _ _ _ E) in Hl. rewrite decide_False in Hl by done. lia.
    + intros id' p [_ Hp]%lookup_delete_Some. by apply Hf.
    + intros id' Hid'. destruct (Ha id' Hid') as [? Hn]. split; [done |]. by rewrite lookup_delete_None; right.
Qed.

(** What an observer is told of is between nothing and the configured number. *)
Lemma tcp_report_range max s n s' : tcp_ok max s -> tcp_step max s (Some n) s' -> 0 <= n <= max.
Proof.
  intros [_ _ _ Hf _ Hc] Hstep. inversion Hstep as [| | | |id m E|id E|id m E|]; subst.
  - specialize (Hc _ _ E). lia.
  - destruct (Hf _ _ E) as [_ Hr]. specialize (Hr _ eq_refl). lia.
Qed.

Lemma new_tcp_ok max : 0 <= max -> tcp_ok max new_tcp_server.
Proof. intros Hm. split; cbn; try done; try lia. Qed.

(** Every client served has a slot, no more than [MaxConnections] are, and
    every count reported is one that could have been true. *)
Lemma tcp_clients_bounded max log s :
  0 <= max -> traced (tcp_step max) new_tcp_server log s ->
  proxying s <= ts_slots s <= max /\ 0 <= ts_live s <= ts_slots s /\ Forall (fun n => 0 <= n <= max) log.
Proof.
  intros Hm Ht. assert (H : tcp_ok max s /\ Forall (fun n => 0 <= n <= max) log).
  { revert Ht. apply (traced_invariant _ (fun log s => tcp_ok max s /\ Forall (fun n => 0 <= n <= max) log)).
    - split; [by apply new_tcp_ok | done].
    - intros l a out b [Ha Hl] Hab. split; [by eapply tcp_step_ok |]. apply Forall_app. split; [done |].
      destruct out as [n|]; [| done]. apply Forall_singleton. by eapply tcp_report_range. }
  destruct H as [[Hs Hmx Hl _ _ _] Hlog]. pose proof (proxying_size s).
  assert (0 <= proxying s) by (unfold proxying; lia).
  assert (0 <= accept_counted (ts_accept s) <= accept_holds (ts_accept s)) by by destruct (ts_accept s).
  split_and!; try lia. done.
Qed.

(** Two clients leave together: the counts can reach the observer in the wrong
    order, and the last one stays although nobody is connected. *)
Tactic Notation "after" hyp(H) uconstr(c) :=
  match type of H with
  | traced ?step ?s0 ?log ?s =>
    let T := fresh in eassert (T : step s _ _) by (eapply c; reflexivity);
    apply (tr_step _ _ _ _ _ _ H) in T; clear H; rename T into H; cbn in H
  end.

Lemma tcp_count_stale :
  exists s, traced (tcp_step 4) new_tcp_server [1; 2; 0; 1] s /\ ts_live s = 0 /\ ts_flows s = ∅ /\ ts_slots s = 0.
Proof.
  pose proof (tr_start (tcp_step 4) new_tcp_server) as H.
  after H ts_take. after H (ts_count 4 _ 0). after H (ts_report 4 _ 0).
  after H ts_take. after H (ts_count 4 _ 1). after H (ts_report 4 _ 1).
  after H (ts_leave 4 _ 0). after H (ts_leave 4 _ 1).
  after H (ts_tell 4 _ 1). after H (ts_tell 4 _ 0).
  after H (ts_release 4 _ 1). after H (ts_release 4 _ 0).
  eexists. split; [exact H |]. by vm_compute.
Qed.

(** ** UDP: one flow for each peer *)

Definition packets_of (key : string) (received : list (string * bytes)) : list bytes :=
  snd <$> filter (fun x => x.1 = key) received.

Record local_ok (s : udp_server) (f : local_flow) : Prop := MkLocalOk {
  lo_queue : (length (lf_packets f) <= 16)%nat;
  lo_order : exists written, lf_frames f = udp_frame <$> written /\
    (written ++ lf_packets f) `sublist_of` packets_of (lf_key f) (us_received s);
}.

Record udp_ok (max : Z) (log : list Z) (s : udp_server) : Prop := MkUdpOk {
  uo_size : Z.of_nat (size (us_table s)) <= max;
  uo_table : forall key id, us_table s !! key = Some id <->
    exists f, us_flows s !! id = Some f /\ lf_key f = key /\ lf_running f = true;
  uo_made : forall id f, us_flows s !! id = Some f -> id < us_made s;
  uo_flows : map_Forall (fun _ f => local_ok s f) (us_flows s);
  uo_small : Forall (fun x => zlen x.2 <= MaxUDPDatagram) (us_received s);
  uo_log : default 0 (last log) = Z.of_nat (size (us_table s));
}.

Lemma packets_snoc key received x :
  packets_of key (received ++ [x]) = packets_of key received ++ (if decide (x.1 = key) then [x.2] else []).
Proof. unfold packets_of. rewrite filter_app, fmap_app. cbn. by destruct (decide (x.1 = key)). Qed.

Lemma local_ok_take s f key packet : local_ok s f -> local_ok (take_up s key packet) f.
Proof.
  intros [Hq (w & Hw & Hs)]. split; [done |]. exists w. split; [done |]. cbn [take_up us_received].
  rewrite packets_snoc. by apply sublist_inserts_r.
Qed.

Lemma local_ok_received s s' f : us_received s' = us_received s -> local_ok s f -> local_ok s' f.
Proof. intros E [Hq (w & Hw & Hs)]. split; [done |]. exists w. by rewrite E. Qed.

(** The send on the channel of a flow, of the datagram just taken up. *)
Lemma offered_ok s key packet f :
  local_ok s f -> lf_key f = key ->
  local_ok (take_up s key packet) (MkLocalFlow key (lf_packets f ++ [packet]) (lf_frames f) (lf_running f) (lf_writing f)) \/
  (16 <= length (lf_packets f))%nat.
Proof.
  intros [Hq (w & Hw & Hs)] Hk. destruct (decide (16 <= length (lf_packets f))%nat); [by right | left].
  split; [cbn; rewrite length_app; cbn; lia |]. exists w. split; [done |]. cbn [lf_packets lf_key take_up us_received].
  rewrite packets_snoc, decide_True by done. rewrite app_assoc. apply sublist_app; [by rewrite <- Hk | done].
Qed.

Lemma offer_flows s id packet f :
  us_flows s !! id = Some f ->
  offer_local s id packet =
    if Nat.ltb (length (lf_packets f)) 16
    then put_local s id (MkLocalFlow (lf_key f) (lf_packets f ++ [packet]) (lf_frames f) (lf_running f) (lf_writing f)) else s.
Proof. intros H. unfold offer_local. by rewrite H. Qed.

(** Replacing a flow by one of the same peer, in the same state. *)
Lemma put_local_ok max log s id f g :
  udp_ok max log s -> us_flows s !! id = Some f -> lf_key g = lf_key f -> lf_running g = lf_running f -> local_ok s g ->
  udp_ok max log (put_local s id g).
Proof.
  intros [Hsz Ht Hm Hf Hsm Hl] E Hk Hr Hg. split; cbn; try done.
  - intros key id'. rewrite Ht. split; intros (h & Eh & Hkey & Hrun).
    + destruct (decide (id' = id)) as [->|Hne]; [exists g; rewrite lookup_insert_eq; split_and!; congruence |].
      exists h. by rewrite lookup_insert_ne.
    + apply lookup_insert_Some in Eh as [[<- <-]|[Hne Eh]]; [exists f; split_and!; congruence | by exists h].
  - intros id' h [[<- <-]|[_ Eh]]%lookup_insert_Some; by eapply Hm.
  - apply map_Forall_insert_2; [by apply (local_ok_received s) |]. eapply map_Forall_impl; [exact Hf |]. intros ? ? H. by apply (local_ok_received s).
Qed.

Lemma take_up_ok max log s key packet :
  udp_ok max log s -> zlen packet <= MaxUDPDatagram -> udp_ok max log (take_up s key packet).
Proof.
  intros [Hsz Ht Hm Hf Hsm Hl] Hp. split; cbn; try done.
  - eapply map_Forall_impl; [exact Hf |]. intros ? ? H. by apply local_ok_take.
  - apply Forall_app. split; [done |]. by constructor.
Qed.

Lemma open_local_ok max log s key :
  udp_ok max log s -> us_table s !! key = None -> Z.of_nat (size (us_table s)) < max ->
  udp_ok max (log ++ [Z.of_nat (size (us_table (open_local s key)))]) (open_local s key).
Proof.
  intros [Hsz Ht Hm Hf Hsm Hl] En Hlt. assert (Hfresh : us_flows s !! us_made s = None).
  { destruct (us_flows s !! us_made s) as [g|] eqn:F; [specialize (Hm _ _ F); lia | reflexivity]. }
  split; cbn; try done.
  - rewrite map_size_insert_None by done. lia.
  - intros key' id. split.
    + intros [[<- <-]|[Hne Hid]]%lookup_insert_Some; [exists (MkLocalFlow key [] [] true true); by rewrite lookup_insert_eq |].
      apply Ht in Hid as (f & Ef & Hk & Hr). exists f. rewrite lookup_insert_ne; [done | congruence].
    + intros (f & [[<- <-]|[Hne Ef]]%lookup_insert_Some & Hk & Hr); [cbn in Hk; subst key'; apply lookup_insert_eq |].
      rewrite lookup_insert_ne; [apply Ht; by exists f |]. intros ->.
      assert (us_table s !! key' = Some id) by (apply Ht; by exists f). congruence.
  - intros id f [[<- <-]|[_ Ef]]%lookup_insert_Some; [lia |]. specialize (Hm _ _ Ef). lia.
  - apply map_Forall_insert_2; [split; cbn; [lia |]; exists []; split; [done | apply sublist_nil_l] |].
    eapply map_Forall_impl; [exact Hf |]. intros ? ? H. by apply (local_ok_received s).
  - by rewrite last_snoc.
Qed.

Lemma offer_local_ok max log s id key packet :
  udp_ok max log (take_up s key packet) -> us_table s !! key = Some id ->
  (forall f, us_flows s !! id = Some f -> local_ok s f) ->
  udp_ok max log (offer_local (take_up s key packet) id packet).
Proof.
  intros Hok Hid Hf. pose proof (proj1 (uo_table _ _ _ Hok key id) Hid) as (f & Ef & Hk & Hr).
  rewrite (offer_flows _ _ _ _ Ef). destruct (Nat.ltb_spec (length (lf_packets f)) 16) as [Hlt|Hge]; [| done].
  eapply put_local_ok; [done | exact Ef | done | done |].
  destruct (offered_ok s key packet f (Hf f Ef) Hk) as [Ho|Ho]; [by rewrite Hk | lia].
Qed.

Lemma receive_local_ok max log s peer key data :
  udp_ok max log s ->
  udp_ok max (log ++ option_list (receive_local max s peer key data).2) (receive_local max s peer key data).1.
Proof.
  intros Hok. unfold receive_local. destruct (_ || _) eqn:E; [by rewrite app_nil_r |].
  apply orb_false_iff in E as [_ Hp%Z.ltb_ge]. set (packet := firstn _ data) in *.
  pose proof (take_up_ok _ _ _ key packet Hok Hp) as Hup.
  destruct (us_table s !! key) as [id|] eqn:Ek; cbn [fst snd option_list].
  - rewrite app_nil_r. apply offer_local_ok; [done | done |]. intros f Hf. exact (uo_flows _ _ _ Hok _ _ Hf).
  - destruct (Z.leb_spec max (Z.of_nat (size (us_table s)))) as [Hge|Hlt]; cbn [fst snd option_list]; [by rewrite app_nil_r |].
    pose proof (open_local_ok _ _ _ key Hup Ek Hlt) as Ho.
    change (open_local (take_up s key packet) key) with (take_up (open_local s key) key packet) in *.
    apply offer_local_ok; [exact Ho | cbn; by rewrite lookup_insert_eq |].
    intros f Hf0. cbn in Hf0. apply lookup_insert_Some in Hf0 as [[_ <-]|[Hne Hf]]; [split; cbn; [lia |]; exists []; split; [done | apply sublist_nil_l] |].
    specialize (uo_flows _ _ _ Hok _ _ Hf) as H. by apply (local_ok_received s).
Qed.

Lemma end_local_ok max log s id f :
  udp_ok max log s -> us_flows s !! id = Some f -> lf_running f = true ->
  us_table s !! lf_key f = Some id /\ udp_ok max (log ++ option_list (end_local s id f).2) (end_local s id f).1.
Proof.
  intros Hok E Hr. assert (Hid : us_table s !! lf_key f = Some id) by (apply (uo_table _ _ _ Hok); by exists f).
  split; [done |]. unfold end_local. rewrite bool_decide_true by done. cbn [fst snd option_list].
  destruct Hok as [Hsz Ht Hm Hf Hsm Hl]. split; cbn; try done.
  - rewrite map_size_delete_Some by by eexists. lia.
  - intros key id'. rewrite lookup_delete_Some, Ht. split.
    + intros (Hne & g & Eg & Hk & Hrun). exists g. rewrite lookup_insert_ne; [done |]. intros ->. congruence.
    + intros (g & [[<- <-]|[Hne Eg]]%lookup_insert_Some & Hk & Hrun); [done |]. split; [| by exists g]. intros <-.
      assert (us_table s !! lf_key f = Some id') by (apply Ht; by exists g). congruence.
  - intros id' g [[<- <-]|[_ Eg]]%lookup_insert_Some; by eapply Hm.
  - apply map_Forall_insert_2.
    + specialize (Hf _ _ E) as [Hq Ho]. by split.
    + eapply map_Forall_impl; [exact Hf |]. intros ? ? H. by apply (local_ok_received s).
  - by rewrite last_snoc.
Qed.

Lemma udp_server_step_ok max log s out s' :
  udp_ok max log s -> udp_server_step max s out s' -> udp_ok max (log ++ option_list out) s'.
Proof.
  intros Hok [peer key data _|done_ err _|id f packet rest answer E Hr Hw Hq|id f E Hr].
  - by apply receive_local_ok.
  - cbn [option_list]. rewrite app_nil_r. destruct Hok as [Hsz Ht Hm Hf Hsm Hl]. split; try done.
    eapply map_Forall_impl; [exact Hf |]. intros ? ? H. by apply (local_ok_received s).
  - cbn. rewrite app_nil_r. specialize (uo_flows _ _ _ Hok _ _ E) as Hf. cbn in Hf. destruct Hf as [Hl (w & Hfr & Hs)].
    rewrite Hq in *. cbn in Hl.
    eapply put_local_ok; [done | exact E | by destruct answer | by destruct answer |].
    destruct answer; (split; cbn; [lia |]).
    + exists w. split; [done |]. etransitivity; [| exact Hs]. apply sublist_app; [done |]. by apply sublist_cons.
    + exists (w ++ [packet]). rewrite fmap_app, Hfr. split; [done |]. by rewrite <- app_assoc.
  - by apply (end_local_ok _ _ _ _ _ Hok E Hr).
Qed.

Lemma new_udp_ok max : 0 <= max -> udp_ok max [] new_udp_server.
Proof.
  intros Hm. split; cbn; try done; try lia. intros key id. split; [done |]. by intros (f & H & _).
Qed.

Lemma udp_server_ok max log s : 0 <= max -> traced (udp_server_step max) new_udp_server log s -> udp_ok max log s.
Proof.
  intros Hm. apply (traced_invariant _ (udp_ok max)); [by apply new_udp_ok |]. intros l a out b. apply udp_server_step_ok.
Qed.

(** ** A datagram through the Gateway's frames *)

(** What the client reads of frames that [writeConnectorUDP] made of
    datagrams is those datagrams, and no local peer gets anything else. *)
Lemma readUDP_frames rounds : forall packets out res,
  Forall (fun p => zlen p <= MaxUDPDatagram) packets ->
  lw_msg <$> rounds = ReadMsg true <$> (udp_frame <$> packets) ->
  readUDPFromGateway rounds = (out, res) -> out `prefix_of` packets /\ (res = None -> out = packets).
Proof.
  induction rounds as [|r rest IH]; intros [|p packets] out res Hsm Hm H; try discriminate Hm.
  - injection H as <- <-. done.
  - cbn [readUDPFromGateway] in H. injection Hm as Hmsg Hm. apply Forall_cons in Hsm as [Hp Hsm].
    rewrite Hmsg in H. cbn [udp_packet udp_frame] in H.
    rewrite (proj2 (Z.ltb_ge MaxUDPDatagram (zlen p)) Hp) in H. cbn in H.
    destruct (lw_deadline r); [injection H as <- <-; split; [apply prefix_nil | done] |].
    destruct (lw_answer r) as [n [e|]]; [injection H as <- <-; split; [apply prefix_nil | done] |].
    destruct (negb (n =? zlen p)); [injection H as <- <-; split; [apply prefix_nil | done] |].
    destruct (readUDPFromGateway rest) as [more res'] eqn:Er. injection H as <- <-.
    destruct (IH packets more res' Hsm Hm eq_refl) as [Hpre Hall]. split; [by apply prefix_cons |].
    intros Hn. by rewrite Hall.
Qed.
