(* ===== verification/ConnectApp.v ===== *)
(** * ConnectApp: the state of the Connect application

    [internal/connectgui/connectgui.go] and [presentation.go]: at most one
    Connector session, and the status a window shows of it.  The critical
    sections of the application are functions; {!world} puts them together with
    the servers of {!ConnectorServe}, whose reports arrive as they are made, and
    with sessions that are being replaced.  Session numbers are not wrapped at
    2^64; the socket that binds and the bundle parser's [url.Parse] answer as
    parameters.  Waiting for the end of a session in [Disconnect] changes no
    state and is left out. *)

From S2P Require Import Prelude GoText GoTime GoNet Contract ContractV2 Metadata AgentTarget AgentConfig ConnectorConfig.
From S2P Require Import Json StrictJson Frame Control ControlCodec Window Budget GwLimits GwStream Wire SessTable GwSession GwServe ConnectorFlow ConnectorServe.

(** ** The status *)

Inductive State := StateIdle | StateListening | StateStopped | StateFailed.

#[export] Instance State_eq_dec : EqDecision State.
Proof. solve_decision. Defined.

Definition State_string (s : State) : string :=
  match s with StateIdle => "idle" | StateListening => "listening" | StateStopped => "stopped" | StateFailed => "failed" end.

Record Status := MkStatus {
  st_State : State;
  st_Listen : string;
  st_Protocol : string;
  st_Message : string;
  st_Flows : Z;
}.

Record App := MkApp {
  ca_status : Status;
  ca_session : Z;
  ca_base : string;
  ca_flowError : string;
  ca_cancel : option Z;          (* the session whose cancel function is kept *)
}.

Definition messageLocked (st : Status) (base flowError : string) : string :=
  if negb (bool_decide (st_State st = StateListening)) then st_Message st
  else if st_Flows st =? 0 then
    if String.eqb flowError EmptyString then base else base +:+ ". Last client ended: " +:+ flowError
  else if st_Flows st =? 1 then base +:+ " — 1 client connected"
  else base +:+ " — " +:+ string_of (show_int (st_Flows st)) +:+ " clients connected".

(** [a.status.Message = a.messageLocked()]. *)
Definition render (st : Status) (base flowError : string) : Status :=
  MkStatus (st_State st) (st_Listen st) (st_Protocol st) (messageLocked st base flowError) (st_Flows st).

Definition IdleMessage (hasSaved : bool) : string :=
  if hasSaved then "press Connect to open the tunnel with the saved bundle" else "paste a connect bundle and press Connect".

Definition New : App := MkApp (MkStatus StateIdle EmptyString EmptyString (IdleMessage false) 0) 0 EmptyString EmptyString None.

(** ** Its critical sections *)

Section Sections.
(** [err.Error()]. *)
Context (Error : error -> string).

Definition recordFailure (err : error) (a : App) : App :=
  if bool_decide (st_State (ca_status a) = StateListening) then a
  else MkApp (MkStatus StateFailed EmptyString (st_Protocol (ca_status a)) (Error err) 0) (ca_session a) (ca_base a) (ca_flowError a)
         (ca_cancel a).

Definition noteFlows (session active : Z) (a : App) : App :=
  if negb (bool_decide (st_State (ca_status a) = StateListening)) || negb (session =? ca_session a) then a
  else
    let flowError := if st_Flows (ca_status a) <? active then EmptyString else ca_flowError a in
    let st := MkStatus (st_State (ca_status a)) (st_Listen (ca_status a)) (st_Protocol (ca_status a)) (st_Message (ca_status a)) active in
    MkApp (render st (ca_base a) flowError) (ca_session a) (ca_base a) flowError (ca_cancel a).

Definition recordFlowEvent (session : Z) (message : string) (a : App) : App :=
  if negb (bool_decide (st_State (ca_status a) = StateListening)) || negb (session =? ca_session a) then a
  else MkApp (render (ca_status a) (ca_base a) message) (ca_session a) (ca_base a) message (ca_cancel a).

(** [canceled]: [errors.Is(ctx.Err(), context.Canceled)]. *)
Definition finish_locked (canceled : bool) (serveErr : option error) (a : App) : App :=
  let protocol := st_Protocol (ca_status a) in
  let st :=
    if canceled then MkStatus StateStopped EmptyString protocol "disconnected — press Connect to open another tunnel" 0
    else match serveErr with
         | Some err => MkStatus StateFailed EmptyString protocol (Error err) 0
         | None => MkStatus StateStopped EmptyString protocol "tunnel closed" 0
         end in
  MkApp st (ca_session a) EmptyString EmptyString None.
End Sections.

Definition loopbackAddress (address : string) : bool :=
  match SplitHostPort address with
  | None => false
  | Some (host, _) => match ParseIP host with Some ip => IsLoopback ip | None => false end
  end.

(** [bind] on what [listenTCP] or [listenUDP] answered: the address bound. *)
Definition bind_loopback (bound : result string) : result string :=
  match bound with
  | Err err => Err (ErrWrap "listen on" err)
  | Ok address => if loopbackAddress address then Ok address else Err (ErrMsg "connector listener must be bound to loopback")
  end.

(** The critical section of [Connect] for a parsed configuration: the new
    state, and the address served or the error that will be recorded. *)
Definition Connect_locked (config : ConnectorConfig) (bound : result string) (a : App) : App * result string :=
  match ca_cancel a with
  | Some _ => (a, Err (ErrMsg "already connected — press Disconnect first"))
  | None =>
    let session := ca_session a + 1 in
    match bind_loopback bound with
    | Err err => (MkApp (ca_status a) session (ca_base a) (ca_flowError a) None, Err err)
    | Ok address =>
      let base := "tunnel ready — open your client against " +:+ address in
      let st := MkStatus StateListening address (cc_Protocol config) EmptyString 0 in
      (MkApp (render st base EmptyString) session base EmptyString (Some session), Ok address)
    end
  end.

(** ** What the window makes of it *)

Record Buttons := MkButtons { bt_Connect : bool; bt_Disconnect : bool; bt_OpenClient : bool }.

Definition ButtonsFor (st : Status) (disconnecting : bool) : Buttons :=
  let listening := bool_decide (st_State st = StateListening) in
  let live := listening && negb disconnecting in
  MkButtons (negb listening && negb disconnecting) live (live && String.eqb (st_Protocol st) "tcp" && (st_Flows st =? 0)).

Definition StatusLabel (st : Status) (disconnecting : bool) : string :=
  if disconnecting then "disconnecting"
  else if bool_decide (st_State st = StateListening) then "listening on " +:+ st_Listen st +:+ " (" +:+ st_Protocol st +:+ ")"
  else State_string (st_State st).

Definition RDPTarget (st : Status) : result string :=
  if negb (bool_decide (st_State st = StateListening)) then Err (ErrMsg "no active tunnel")
  else if negb (String.eqb (st_Protocol st) "tcp") then Err (ErrMsg "remote desktop needs a tcp tunnel")
  else
    match SplitHostPort (st_Listen st) with
    | None => Err (ErrMsg "tunnel address is not host:port")
    | Some (host, port) =>
      match ParseIP host with
      | None => Err (ErrMsg "tunnel address is not loopback")
      | Some ip =>
        if negb (IsLoopback ip) then Err (ErrMsg "tunnel address is not loopback")
        else if String.eqb port EmptyString then Err (ErrMsg "tunnel address has no port")
        else Ok (if bool_decide (To4 ip = None) then "[" +:+ host +:+ "]:" +:+ port else host +:+ ":" +:+ port)
      end
    end.

(** ** The application and its Connector servers *)

Inductive server := STcp (s : tcp_server) | SUdp (s : udp_server).

(** What [Serve] or [ServeUDP] has returned. *)
Definition returned (s : server) : option (option error) :=
  match s with
  | STcp s => match ts_accept s with AStopped err => Some err | _ => None end
  | SUdp s => us_stopped s
  end.

(** The number of clients as the server itself counts them. *)
Definition clients (s : server) : Z :=
  match s with STcp s => ts_live s | SUdp s => Z.of_nat (size (us_table s)) end.

Definition new_server (config : ConnectorConfig) : server :=
  if String.eqb (cc_Protocol config) "udp" then SUdp new_udp_server else STcp new_tcp_server.

Inductive server_step (max : Z) : server -> option Z -> server -> Prop :=
| sv_tcp s out s' : tcp_step max s out s' -> server_step max (STcp s) out (STcp s')
| sv_udp s out s' : udp_server_step max s out s' -> server_step max (SUdp s) out (SUdp s').

(** What a session's callbacks tell the application. *)
Inductive report := RFlows (n : Z) | RWarning (message : string).

(** A session: its configuration, the address it is bound to, its server, whether
    [finish] has run, and, for the specification only, its reports so far. *)
Record running := MkRunning {
  rn_config : ConnectorConfig;
  rn_address : string;
  rn_server : server;
  rn_finished : bool;
  rn_reports : list report;
}.

Definition served (r : running) (out : option Z) (s : server) : running :=
  MkRunning (rn_config r) (rn_address r) s (rn_finished r) (rn_reports r ++ match out with Some n => [RFlows n] | None => [] end).

Definition warned (r : running) (message : string) : running :=
  MkRunning (rn_config r) (rn_address r) (rn_server r) (rn_finished r) (rn_reports r ++ [RWarning message]).

Definition ended (r : running) : running := MkRunning (rn_config r) (rn_address r) (rn_server r) true (rn_reports r).

Record world := MkWorld {
  w_app : App;
  w_running : gmap Z running;
  w_canceled : gset Z;
  w_failures : list error;       (* calls of [recordFailure] about to run *)
}.

Definition new_world : world := MkWorld New ∅ ∅ [].

Section World.
Context (Error : error -> string) (url_Parse : string -> result URL).

(** What [Connect] does up to its unlocking. *)
Definition connect (raw : string) (bound : result string) (w : world) : world :=
  match ParseBundle url_Parse raw with
  | Err err => MkWorld (w_app w) (w_running w) (w_canceled w) (err :: w_failures w)
  | Ok bundle =>
    let config := bundle_config bundle DefaultConnectorConfig in
    match Connect_locked config bound (w_app w) with
    | (a, Err err) => MkWorld a (w_running w) (w_canceled w) (err :: w_failures w)
    | (a, Ok address) => MkWorld a (<[ca_session a := MkRunning config address (new_server config) false []]> (w_running w)) (w_canceled w) (w_failures w)
    end
  end.

(** [finish]: its [cancel()], then its critical section. *)
Definition finish (session : Z) (serveErr : option error) (w : world) : world :=
  let canceled := {[session]} ∪ w_canceled w in
  MkWorld (finish_locked Error (bool_decide (session ∈ canceled)) serveErr (w_app w)) (w_running w) canceled (w_failures w).

Definition put_running (session : Z) (r : running) (w : world) : world :=
  MkWorld (w_app w) (<[session := r]> (w_running w)) (w_canceled w) (w_failures w).

Definition on_app (f : App -> App) (w : world) : world := MkWorld (f (w_app w)) (w_running w) (w_canceled w) (w_failures w).

Inductive world_step (w : world) : world -> Prop :=
| ws_connect raw bound : world_step w (connect raw bound w)
| ws_record before err after : w_failures w = before ++ err :: after ->
    world_step w (MkWorld (recordFailure Error err (w_app w)) (w_running w) (w_canceled w) (before ++ after))
| ws_cancel session : is_Some (w_running w !! session) ->
    world_step w (MkWorld (w_app w) (w_running w) ({[session]} ∪ w_canceled w) (w_failures w))
| ws_serve session r out s : w_running w !! session = Some r ->
    server_step (cc_MaxConnections (rn_config r)) (rn_server r) out s ->
    world_step w (on_app (match out with Some n => noteFlows session n | None => id end)
                   (put_running session (served r out s) w))
| ws_event session r message : w_running w !! session = Some r ->
    world_step w (on_app (recordFlowEvent session message) (put_running session (warned r message) w))
| ws_finish session r serveErr : w_running w !! session = Some r -> rn_finished r = false -> returned (rn_server r) = Some serveErr ->
    world_step w (finish session serveErr (put_running session (ended r) w)).

(** ** Invariant *)

Definition server_ok (max : Z) (s : server) : Prop :=
  match s with STcp s => tcp_ok max s | SUdp s => exists log, udp_ok max log s end.

Definition served_protocol (s : server) (protocol : string) : Prop :=
  match s with STcp _ => protocol = "tcp" | SUdp _ => protocol = "udp" end.

(** What a session's reports say: the number of clients last told, and the last
    warning that no growth of that number has followed. *)
Definition told (reports : list report) : Z * string :=
  fold_left (fun '(n, warning) rep =>
    match rep with
    | RFlows n' => (n', if n <? n' then EmptyString else warning)
    | RWarning message => (n, message)
    end) reports (0, EmptyString).

(** The text of the window for a tunnel. *)
Definition announced (address : string) (flows : Z) (warning : string) : string :=
  let ready := "tunnel ready — open your client against " +:+ address in
  if flows =? 0 then if String.eqb warning EmptyString then ready else ready +:+ ". Last client ended: " +:+ warning
  else if flows =? 1 then ready +:+ " — 1 client connected"
  else ready +:+ " — " +:+ string_of (show_int flows) +:+ " clients connected".

Record running_ok (r : running) : Prop := MkRunningOk {
  ro_address : loopbackAddress (rn_address r) = true;
  ro_max : 1 <= cc_MaxConnections (rn_config r) <= 16;
  ro_server : server_ok (cc_MaxConnections (rn_config r)) (rn_server r);
  ro_protocol : served_protocol (rn_server r) (cc_Protocol (rn_config r));
}.

(** What the status says of the session it belongs to. *)
Record shown_ok (a : App) (r : running) : Prop := MkShownOk {
  so_protocol : st_Protocol (ca_status a) = cc_Protocol (rn_config r);
  so_listen : st_Listen (ca_status a) = rn_address r;
  so_base : ca_base a = "tunnel ready — open your client against " +:+ rn_address r;
  so_told : (st_Flows (ca_status a), ca_flowError a) = told (rn_reports r);
  so_message : st_Message (ca_status a) = messageLocked (ca_status a) (ca_base a) (ca_flowError a);
  so_range : 0 <= st_Flows (ca_status a) <= cc_MaxConnections (rn_config r);
  so_exact : forall s, rn_server r = SUdp s -> st_Flows (ca_status a) = clients (SUdp s);
}.

Record world_ok (w : world) : Prop := MkWorldOk {
  wo_running : map_Forall (fun session r => session <= ca_session (w_app w) /\ running_ok r) (w_running w);
  wo_live : forall session r, w_running w !! session = Some r -> rn_finished r = false -> ca_cancel (w_app w) = Some session;
  wo_cancel : forall session, ca_cancel (w_app w) = Some session ->
    session = ca_session (w_app w) /\ st_State (ca_status (w_app w)) = StateListening /\
    exists r, w_running w !! session = Some r /\ rn_finished r = false /\ shown_ok (w_app w) r;
  wo_idle : ca_cancel (w_app w) = None -> st_State (ca_status (w_app w)) <> StateListening /\ st_Flows (ca_status (w_app w)) = 0;
}.

(** A step of a server keeps its invariant, and tells of the change in clients. *)
Lemma server_step_ok max s out s' :
  0 <= max -> server_ok max s -> server_step max s out s' ->
  server_ok max s' /\ (forall n, out = Some n -> 0 <= n <= max) /\
  (forall protocol, served_protocol s protocol -> served_protocol s' protocol) /\
  (forall u, s' = SUdp u -> match out with Some n => n = clients s' | None => clients s' = clients s end).
Proof.
  intros Hmax Hok Hs. revert Hok. destruct Hs as [t out' t' Hstep|u out' u' Hstep]; intros Hok; cbn [server_ok] in Hok.
  - split; [exact (tcp_step_ok _ _ _ _ Hmax Hok Hstep) |]. split; [| split; [exact (fun _ H => H) | intros u H; discriminate H]].
    intros n ->. exact (tcp_report_range _ _ _ _ Hok Hstep).
  - destruct Hok as [log Hok]. pose proof (udp_server_step_ok _ _ _ _ _ Hok Hstep) as Hok'.
    assert (Hn : match out' with Some n => n = clients (SUdp u') | None => clients (SUdp u') = clients (SUdp u) end).
    { pose proof (uo_log _ _ _ Hok) as H. pose proof (uo_log _ _ _ Hok') as H'. destruct out' as [n|]; cbn in *.
      - by rewrite last_snoc in H'.
      - rewrite app_nil_r in H'. congruence. }
    split; [exact (ex_intro _ _ Hok') |]. split; [| split; [exact (fun _ H => H) | intros _ _; exact Hn]].
    intros n ->. cbn in Hn. pose proof (uo_size _ _ _ Hok'). lia.
Qed.

Lemma parsed_config raw bundle :
  ParseBundle url_Parse raw = Ok bundle -> Validate url_Parse (bundle_config bundle DefaultConnectorConfig) = Ok tt.
Proof.
  unfold ParseBundle. destruct (strip_prefix _ _) as [encoded|]; [| discriminate].
  destruct (b64_decode encoded) as [payload|]; [| discriminate]. destruct (json_unmarshal _ _) as [fields|]; [| discriminate].
  destruct (Validate _ _) as [[]|] eqn:E; [| discriminate]. by intros [= <-].
Qed.

Lemma new_running_ok config address : Validate url_Parse config = Ok tt -> loopbackAddress address = true ->
  running_ok (MkRunning config address (new_server config) false []).
Proof.
  intros [Hp _ _ _ _ Hm _]%Validate_iff Ha. split; cbn; [done | done | |]; unfold new_server.
  - destruct (String.eqb (cc_Protocol config) "udp"); [exists []; apply new_udp_ok; lia | apply new_tcp_ok; lia].
  - destruct (String.eqb_spec (cc_Protocol config) "udp") as [E|E]; [done |]. rewrite !elem_of_cons, elem_of_nil in Hp. cbn. tauto.
Qed.

Lemma render_message st base flowError :
  st_State st = StateListening -> st_Message (render st base flowError) = messageLocked (render st base flowError) base flowError.
Proof. intros H. destruct st as [state listen protocol message flows]. cbn in H. subst state. reflexivity. Qed.

Lemma told_snoc reports rep :
  told (reports ++ [rep]) = match rep with
                            | RFlows n' => (n', if (told reports).1 <? n' then EmptyString else (told reports).2)
                            | RWarning message => ((told reports).1, message)
                            end.
Proof. unfold told. rewrite fold_left_app. cbn [fold_left]. by destruct (fold_left _ reports _). Qed.

(** The status after a report or a warning of the session it shows. *)
Lemma noteFlows_shown n a r s session :
  st_State (ca_status a) = StateListening -> session = ca_session a -> shown_ok a r ->
  0 <= n <= cc_MaxConnections (rn_config r) -> (forall u, s = SUdp u -> n = clients (SUdp u)) ->
  shown_ok (noteFlows session n a) (served r (Some n) s).
Proof.
  intros Hl -> [Hp Hli Hb Ht _ _ _] Hn Hx. unfold noteFlows. rewrite bool_decide_true, Z.eqb_refl by done. cbn [negb orb].
  split; cbn [ca_status ca_base ca_flowError]; try done.
  - cbn [served rn_reports]. rewrite told_snoc, <- Ht. done.
  - by apply render_message.
Qed.

Lemma event_shown message a r session :
  st_State (ca_status a) = StateListening -> session = ca_session a -> shown_ok a r ->
  shown_ok (recordFlowEvent session message a) (warned r message).
Proof.
  intros Hl -> [Hp Hli Hb Ht _ Hr Hx]. unfold recordFlowEvent. rewrite bool_decide_true, Z.eqb_refl by done. cbn [negb orb].
  split; cbn [ca_status ca_base ca_flowError]; try done.
  - cbn [warned rn_reports]. rewrite told_snoc, <- Ht. done.
  - by apply render_message.
Qed.

(** Both leave everything else alone. *)
Lemma noteFlows_frame n a session :
  st_State (ca_status (noteFlows session n a)) = st_State (ca_status a) /\ ca_session (noteFlows session n a) = ca_session a /\
  ca_cancel (noteFlows session n a) = ca_cancel a /\
  (st_State (ca_status a) <> StateListening \/ session <> ca_session a -> noteFlows session n a = a).
Proof.
  unfold noteFlows. destruct (bool_decide _) eqn:E, (session =? ca_session a) eqn:Es; cbn [negb orb]; split_and!; try done.
  intros [H|H]; [by apply bool_decide_eq_true in E | by apply Z.eqb_eq in Es].
Qed.

Lemma event_frame message a session :
  st_State (ca_status (recordFlowEvent session message a)) = st_State (ca_status a) /\
  ca_session (recordFlowEvent session message a) = ca_session a /\
  ca_cancel (recordFlowEvent session message a) = ca_cancel a /\
  (st_State (ca_status a) <> StateListening \/ session <> ca_session a -> recordFlowEvent session message a = a).
Proof.
  unfold recordFlowEvent. destruct (bool_decide _) eqn:E, (session =? ca_session a) eqn:Es; cbn [negb orb]; split_and!; try done.
  intros [H|H]; [by apply bool_decide_eq_true in E | by apply Z.eqb_eq in Es].
Qed.

Lemma recordFailure_frame err a :
  ca_session (recordFailure Error err a) = ca_session a /\ ca_cancel (recordFailure Error err a) = ca_cancel a /\
  (st_State (ca_status a) = StateListening -> recordFailure Error err a = a) /\
  (st_State (ca_status a) <> StateListening ->
    st_State (ca_status (recordFailure Error err a)) <> StateListening /\ st_Flows (ca_status (recordFailure Error err a)) = 0).
Proof. unfold recordFailure. by destruct (bool_decide_reflect (st_State (ca_status a) = StateListening)); split_and!. Qed.

Lemma listening_cancel w :
  world_ok w -> (st_State (ca_status (w_app w)) = StateListening <-> is_Some (ca_cancel (w_app w))).
Proof.
  intros Hok. destruct (ca_cancel (w_app w)) as [session|] eqn:E.
  - split; [by eexists | intros _]. by apply (wo_cancel _ Hok session).
  - split; [| by intros [? [=]]]. intros Hl. by destruct (wo_idle _ Hok E).
Qed.

(** A change of the application that keeps its session. *)
Lemma on_app_ok f w :
  world_ok w -> ca_session (f (w_app w)) = ca_session (w_app w) -> ca_cancel (f (w_app w)) = ca_cancel (w_app w) ->
  (ca_cancel (w_app w) = None -> st_State (ca_status (f (w_app w))) <> StateListening /\ st_Flows (ca_status (f (w_app w))) = 0) ->
  (forall r, st_State (ca_status (w_app w)) = StateListening -> shown_ok (w_app w) r ->
    st_State (ca_status (f (w_app w))) = StateListening /\ shown_ok (f (w_app w)) r) ->
  world_ok (on_app f w).
Proof.
  intros [Hr Hl Hc Hi] Es Ec Hnone Hshown. split; cbn [on_app w_app w_running]; rewrite ?Es, ?Ec; try done.
  intros session E. destruct (Hc session E) as (-> & Hst & r & Er & Hf & Hs).
  destruct (Hshown r Hst Hs) as [Hst' Hs']. split; [done |]. split; [done |]. by exists r.
Qed.

Lemma connect_ok raw bound w : world_ok w -> world_ok (connect raw bound w).
Proof.
  intros Hok. unfold connect. destruct (ParseBundle url_Parse raw) as [bundle|err] eqn:Ep; [| by destruct Hok; split].
  apply parsed_config in Ep. set (config := bundle_config bundle DefaultConnectorConfig) in *. unfold Connect_locked.
  destruct (ca_cancel (w_app w)) as [session|] eqn:Ec; [by destruct Hok; split |].
  destruct Hok as [Hr Hl Hc Hi]. destruct (Hi Ec) as [Hst Hfl]. unfold bind_loopback.
  destruct bound as [address|err]; [destruct (loopbackAddress address) eqn:Elo |].
  - split; cbn [w_app w_running ca_session ca_cancel ca_status].
    + apply map_Forall_insert_2; [split; [lia | by apply new_running_ok] |].
      eapply map_Forall_impl; [exact Hr |]. intros ? ? [? ?]. cbn. split; [lia | done].
    + intros session r [[<- <-]|[Hne Er]]%lookup_insert_Some Hf; [done |]. specialize (Hl _ _ Er Hf). congruence.
    + intros session [= <-]. split; [done |]. split; [done |]. eexists. split; [by rewrite lookup_insert_eq |]. split; [done |].
      pose proof (new_running_ok config address Ep Elo) as [_ Hm _ _]. split; cbn [ca_status ca_base ca_flowError]; try done.
      * cbn in *. lia.
      * intros s Es. cbn in Es. unfold new_server in Es. destruct (String.eqb _ _); [by injection Es as <- | done].
    + done.
  - split; cbn [w_app w_running ca_session ca_cancel ca_status]; try done.
    + eapply map_Forall_impl; [exact Hr |]. intros ? ? [? ?]. cbn. split; [lia | done].
    + intros session r Er Hf. specialize (Hl _ _ Er Hf). congruence.
  - split; cbn [w_app w_running ca_session ca_cancel ca_status]; try done.
    + eapply map_Forall_impl; [exact Hr |]. intros ? ? [? ?]. cbn. split; [lia | done].
    + intros session r Er Hf. specialize (Hl _ _ Er Hf). congruence.
Qed.

Lemma finish_ok session r serveErr w :
  world_ok w -> w_running w !! session = Some r -> rn_finished r = false ->
  world_ok (finish session serveErr (put_running session (ended r) w)) /\
  ca_status (w_app (finish session serveErr (put_running session (ended r) w))) =
    MkStatus StateStopped EmptyString (cc_Protocol (rn_config r)) "disconnected — press Connect to open another tunnel" 0.
Proof.
  intros [Hr Hl Hc Hi] Er Hf. pose proof (Hl _ _ Er Hf) as Ec.
  destruct (Hc _ Ec) as (-> & Hst & r' & Er' & _ & Hs). assert (r' = r) as -> by congruence.
  unfold finish, finish_locked. rewrite bool_decide_true by set_solver. cbn [w_app ca_status put_running].
  split; [| by rewrite (so_protocol _ _ Hs)]. split; cbn [w_app w_running ca_session ca_cancel ca_status put_running]; try done.
  - apply map_Forall_insert_2; [| exact Hr]. destruct (Hr _ _ Er) as [Hle [Hm Hsv Hp]]. by split.
  - intros session r1 [[<- <-]|[Hne Er1]]%lookup_insert_Some Hf1; [done |]. specialize (Hl _ _ Er1 Hf1). congruence.
Qed.

(** What a session reports reaches the status while it is the session shown, and
    nothing otherwise. *)
Lemma reported_ok session r r' f w :
  world_ok w -> w_running w !! session = Some r -> rn_finished r' = rn_finished r -> running_ok r' ->
  ca_session (f (w_app w)) = ca_session (w_app w) -> ca_cancel (f (w_app w)) = ca_cancel (w_app w) ->
  st_State (ca_status (f (w_app w))) = st_State (ca_status (w_app w)) ->
  (st_State (ca_status (w_app w)) <> StateListening \/ session <> ca_session (w_app w) -> f (w_app w) = w_app w) ->
  (st_State (ca_status (w_app w)) = StateListening -> session = ca_session (w_app w) -> shown_ok (w_app w) r -> shown_ok (f (w_app w)) r') ->
  world_ok (on_app f (put_running session r' w)).
Proof.
  intros [Hr Hl Hc Hi] Er Hfin Hr' Es Ec Est Hsame Hshown. split; cbn [on_app put_running w_app w_running]; rewrite ?Es, ?Ec.
  - apply map_Forall_insert_2; [split; [by destruct (Hr _ _ Er) | done] | exact Hr].
  - intros session' r1 [[<- <-]|[Hne Er1]]%lookup_insert_Some Hf1; [apply (Hl _ _ Er); congruence | by eapply Hl].
  - intros session' Ec'. destruct (Hc _ Ec') as (-> & Hst & r1 & Er1 & Hf1 & Hs1).
    split; [done |]. split; [congruence |]. destruct (decide (session = ca_session (w_app w))) as [Heq|Hne].
    + rewrite <- Heq in *. assert (r1 = r) as -> by congruence. exists r'. rewrite lookup_insert_eq.
      split; [done |]. split; [congruence |]. by apply Hshown.
    + exists r1. rewrite lookup_insert_ne by done. rewrite Hsame by by right. done.
  - intros Enone. destruct (Hi Enone) as [Hst Hfl]. rewrite Hsame by by left. done.
Qed.

Lemma served_ok session r out s w :
  world_ok w -> w_running w !! session = Some r -> server_step (cc_MaxConnections (rn_config r)) (rn_server r) out s ->
  world_ok (on_app (match out with Some n => noteFlows session n | None => id end) (put_running session (served r out s) w)).
Proof.
  intros Hok Er Hstep. pose proof Hok as [Hr _ _ _]. destruct (Hr _ _ Er) as [Hle [Ha Hm Hsv Hp]].
  destruct (server_step_ok (cc_MaxConnections (rn_config r)) _ _ _ ltac:(lia) Hsv Hstep) as (Hsv' & Hn & Hp' & Hx).
  assert (Hr' : running_ok (served r out s)) by (split; [done | done | exact Hsv' | by apply Hp']).
  destruct out as [n|].
  - destruct (noteFlows_frame n (w_app w) session) as (? & ? & ? & ?). apply (reported_ok _ r); try done.
    intros Hst Heq Hs. apply noteFlows_shown; try done; [by apply Hn |]. intros u ->. exact (Hx u eq_refl).
  - apply (reported_ok _ r); try done. intros _ _ [Hpr Hli Hb Ht Hme Hra Hex]. split; try done.
    + cbn [served rn_reports]. by rewrite app_nil_r.
    + intros u Eu. cbn in Eu. subst s. pose proof (Hx u eq_refl) as Hx'. cbn in Hx'. unfold id. cbn [clients]. rewrite Hx'.
      inversion Hstep as [|u0 ? ? Hu]; subst. match goal with H : SUdp _ = rn_server r |- _ => symmetry in H; by apply Hex end.
Qed.

Lemma world_step_ok w w' : world_ok w -> world_step w w' -> world_ok w'.
Proof.
  intros Hok [raw bound|before err after_ E|session Hs|session r out s Er Hstep|session r message Er|session r serveErr Er Hf Hret].
  - by apply connect_ok.
  - destruct (recordFailure_frame err (w_app w)) as (Es & Ec & Hl & Hn).
    pose proof (on_app_ok (recordFailure Error err) w Hok Es Ec) as H.
    destruct H as [H1 H2 H3 H4]; [intros Hi; apply Hn; by apply Hok | | by split].
    intros r Hst Hs. rewrite (Hl Hst). done.
  - by destruct Hok; split.
  - by eapply served_ok.
  - destruct (event_frame message (w_app w) session) as (Est & Es & Ec & Hsame).
    destruct (wo_running _ Hok _ _ Er) as [_ [Ha Hm Hsv Hp]]. apply (reported_ok _ r); try done.
    intros Hst Heq Hsh. by apply event_shown.
  - by apply finish_ok.
Qed.

Lemma new_world_ok : world_ok new_world.
Proof. by split. Qed.

(** The button of the window leads to the address of the tunnel, and only to a
    free TCP tunnel. *)
Lemma open_client_target w :
  world_ok w -> bt_OpenClient (ButtonsFor (ca_status (w_app w)) false) = true ->
  exists session r, w_running w !! session = Some r /\ rn_finished r = false /\ cc_Protocol (rn_config r) = "tcp" /\
    st_State (ca_status (w_app w)) = StateListening /\ st_Flows (ca_status (w_app w)) = 0 /\ (told (rn_reports r)).1 = 0 /\
    exists host port ip, SplitHostPort (rn_address r) = Some (host, port) /\ ParseIP host = Some ip /\ IsLoopback ip = true /\
      (port <> EmptyString ->
       RDPTarget (ca_status (w_app w)) = Ok (if bool_decide (To4 ip = None) then "[" +:+ host +:+ "]:" +:+ port else host +:+ ":" +:+ port)).
Proof.
  intros Hok. unfold ButtonsFor. cbn [bt_OpenClient negb]. rewrite andb_true_r, !andb_true_iff, String.eqb_eq, Z.eqb_eq.
  intros [[Hst%bool_decide_eq_true Hp] Hf]. destruct (proj1 (listening_cancel w Hok) Hst) as [session Ec].
  destruct (wo_cancel _ Hok _ Ec) as (_ & _ & r & Er & Hfin & [Hpr Hli _ Ht _ _ _]). pose proof (ro_address _ (proj2 (wo_running _ Hok _ _ Er))) as Hlo.
  exists session, r. rewrite <- Hpr, <- Ht. split_and!; try done. unfold loopbackAddress in Hlo.
  destruct (SplitHostPort (rn_address r)) as [[host port]|] eqn:Eh; [| done]. destruct (ParseIP host) as [ip|] eqn:Ei; [| done].
  exists host, port, ip. split; [done |]. split; [done |]. split; [done |]. intros Hport. unfold RDPTarget.
  rewrite Hst, Hp, Hli, Eh, Ei, Hlo. cbn [negb bool_decide String.eqb]. rewrite bool_decide_true by done. cbn [negb].
  by destruct (String.eqb_spec port EmptyString).
Qed.

Lemma announced_message st address base warning :
  st_State st = StateListening -> base = "tunnel ready — open your client against " +:+ address ->
  messageLocked st base warning = announced address (st_Flows st) warning.
Proof. intros Hst ->. unfold messageLocked. by rewrite bool_decide_true. Qed.
End World.

(** ** Runs *)

Definition noted (session : Z) (log : list Z) (a : App) : App := fold_left (fun a n => noteFlows session n a) log a.

Definition serving (config : ConnectorConfig) (address : string) (log : list Z) (s : tcp_server) : running :=
  MkRunning config address (STcp s) false (RFlows <$> log).

(** The servers of a session serve, and the window follows their reports. *)
Lemma served_steps Error url_Parse w session config address s0 log s :
  traced (tcp_step (cc_MaxConnections config)) s0 log s ->
  w_running w !! session = Some (serving config address [] s0) ->
  steps (world_step Error url_Parse) w (on_app (noted session log) (put_running session (serving config address log s) w)).
Proof.
  intros Ht Hw. induction Ht as [|log s out s' Ht IH Hs].
  - destruct w as [a running canceled failures]. unfold on_app, put_running. cbn in *. rewrite insert_id by done. apply steps_refl.
  - eapply steps_snoc; [exact IH |].
    pose proof (ws_serve Error url_Parse (on_app (noted session log) (put_running session (serving config address log s) w))
      session (serving config address log s) out (STcp s')) as H.
    unfold served, serving in H. cbn [rn_config rn_address rn_server rn_finished rn_reports] in H.
    unfold serving, on_app, put_running in *. cbn [w_app w_running w_canceled w_failures] in *.
    rewrite lookup_insert_eq, insert_insert_eq in H. unfold noted in *. rewrite fold_left_app, fmap_app.
    destruct out as [n|]; (apply H; [reflexivity | by constructor]).
Qed.

Definition demo_invitation : string := "hx1." +:+ b64_encode_string demo_bundle_json.
Definition demo_config : ConnectorConfig :=
  bundle_config match ParseBundle demo_connector_url demo_invitation with Ok b => b | Err _ => MkBundle "" "" "" "" "" 0 end
    DefaultConnectorConfig.
Definition demo_connected : world := connect demo_connector_url demo_invitation (Ok "127.0.0.1:13389") new_world.

Lemma demo_connected_runs :
  w_running demo_connected !! 1 = Some (serving demo_config "127.0.0.1:13389" [] new_tcp_server) /\ cc_MaxConnections demo_config = 4.
Proof. by vm_compute. Qed.

(** Two clients that leave together can leave their window behind a count of
    one client, with the Remote Desktop button gone, while nobody is connected. *)
Lemma window_count_stale :
  exists w r, steps (world_step (fun _ => EmptyString) demo_connector_url) new_world w /\ w_running w !! 1 = Some r /\
    clients (rn_server r) = 0 /\ st_Flows (ca_status (w_app w)) = 1 /\
    st_Message (ca_status (w_app w)) = "tunnel ready — open your client against 127.0.0.1:13389 — 1 client connected" /\
    bt_OpenClient (ButtonsFor (ca_status (w_app w)) false) = false.
Proof.
  destruct demo_connected_runs as [Hr Hmax]. destruct tcp_count_stale as (s & Ht & Hlive & _ & _). rewrite <- Hmax in Ht.
  eexists _, _. split.
  { eapply steps_cons; [apply (ws_connect _ _ _ demo_invitation (Ok "127.0.0.1:13389")) |].
    exact (served_steps _ _ demo_connected 1 _ _ _ _ _ Ht Hr). }
  unfold on_app, put_running. cbn [w_app w_running]. split; [apply lookup_insert_eq |]. split; [exact Hlive |].
  split; [| split]; vm_compute; reflexivity.
Qed.

(** A session whose server failed ends with the message of a user who pressed
    Disconnect: [finish] cancels the context before it looks at it. *)
Lemma failed_session_hidden Error url_Parse w session r serveErr :
  steps (world_step Error url_Parse) new_world w -> w_running w !! session = Some r -> rn_finished r = false ->
  ca_status (w_app (finish Error session serveErr (put_running session (ended r) w))) =
    MkStatus StateStopped EmptyString (cc_Protocol (rn_config r)) "disconnected — press Connect to open another tunnel" 0.
Proof.
  intros Hs Er Hf. apply finish_ok; [| done | done]. revert Hs. apply steps_invariant; [apply new_world_ok |].
  intros a b. apply world_step_ok.
Qed.

(** C21: In every interleaving of connecting, disconnecting, clients coming and going, late reports and warnings of sessions that have been replaced, and recorded failures, the Connect application has at most one session that has not ended, and its status says listening exactly while there is one. While it listens, everything shown is that session's: its protocol, the address it is bound to, which is loopback, the number of clients it has last reported, and as message the text for this address, this number and its own last warning, which a growth of the number withdraws; nothing of a session before it is left. The number is within the configured bound (at most 16); for a UDP tunnel it is exactly the number of peers in the server's table, for a TCP tunnel no more than the bound are ever proxied. When it does not listen, no clients are shown, whatever an old session still reports. The Remote Desktop button is offered only for a TCP tunnel without a client, and its target is then the host and port of the address that this tunnel is bound to. *)
Theorem connect_app_sound Error url_Parse w :
  steps (world_step Error url_Parse) new_world w ->
  let st := ca_status (w_app w) in
  (forall s1 r1 s2 r2, w_running w !! s1 = Some r1 -> w_running w !! s2 = Some r2 -> rn_finished r1 = false -> rn_finished r2 = false -> s1 = s2) /\
  (st_State st = StateListening <-> exists session r, w_running w !! session = Some r /\ rn_finished r = false) /\
  (forall session r, w_running w !! session = Some r -> rn_finished r = false ->
    st_Protocol st = cc_Protocol (rn_config r) /\ st_Listen st = rn_address r /\ loopbackAddress (rn_address r) = true /\
    st_Flows st = (told (rn_reports r)).1 /\
    st_Message st = announced (rn_address r) (st_Flows st) (told (rn_reports r)).2 /\
    0 <= st_Flows st <= cc_MaxConnections (rn_config r) /\ cc_MaxConnections (rn_config r) <= 16 /\
    match rn_server r with
    | SUdp u => st_Flows st = Z.of_nat (size (us_table u))
    | STcp t => proxying t <= ts_slots t <= cc_MaxConnections (rn_config r)
    end) /\
  (st_State st <> StateListening -> st_Flows st = 0) /\
  (bt_OpenClient (ButtonsFor st false) = true ->
    exists session r, w_running w !! session = Some r /\ rn_finished r = false /\ cc_Protocol (rn_config r) = "tcp" /\
      st_State st = StateListening /\ st_Flows st = 0 /\ (told (rn_reports r)).1 = 0 /\
      exists host port ip, SplitHostPort (rn_address r) = Some (host, port) /\ ParseIP host = Some ip /\ IsLoopback ip = true /\
        (port <> EmptyString ->
         RDPTarget st = Ok (if bool_decide (To4 ip = None) then "[" +:+ host +:+ "]:" +:+ port else host +:+ ":" +:+ port))).
Proof.
  intros Hs st. assert (Hok : world_ok w).
  { revert Hs. apply steps_invariant; [apply new_world_ok |]. intros a b. apply world_step_ok. }
  pose proof (listening_cancel w Hok) as Hlc. split; [| split; [| split; [| split]]].
  - intros s1 r1 s2 r2 E1 E2 F1 F2. pose proof (wo_live _ Hok _ _ E1 F1). pose proof (wo_live _ Hok _ _ E2 F2). congruence.
  - unfold st. rewrite Hlc. split.
    + intros [session Ec]. destruct (wo_cancel _ Hok _ Ec) as (_ & _ & r & Er & Hf & _). by exists session, r.
    + intros (session & r & Er & Hf). exists session. exact (wo_live _ Hok _ _ Er Hf).
  - intros session r Er Hf. pose proof (wo_live _ Hok _ _ Er Hf) as Ec.
    destruct (wo_cancel _ Hok _ Ec) as (_ & Hst & r' & Er' & _ & [Hp Hli Hb Ht Hm Hra Hx]). assert (r' = r) as -> by congruence.
    destruct (proj2 (wo_running _ Hok _ _ Er)) as [Ha Hmax Hsv _]. rewrite <- Ht.
    split; [exact Hp |]. split; [exact Hli |]. split; [exact Ha |]. split; [done |].
    split; [unfold st; rewrite Hm; by apply announced_message |]. split; [exact Hra |]. split; [lia |].
    destruct (rn_server r) as [t|u]; [| exact (Hx u eq_refl)]. cbn in Hsv.
    pose proof (proxying_size t). destruct Hsv as [Hsl Hmx _ _ _ _].
    assert (0 <= accept_holds (ts_accept t)) by by destruct (ts_accept t). lia.
  - intros Hn. destruct (ca_cancel (w_app w)) as [session|] eqn:Ec; [| by apply (wo_idle _ Hok)].
    destruct Hn. apply Hlc. by eexists.
  - by apply open_client_target.
Qed.

Lemma connect_app_sound_witness :
  exists w, steps (world_step (fun _ => EmptyString) demo_connector_url) new_world w /\
    st_State (ca_status (w_app w)) = StateListening /\ st_Flows (ca_status (w_app w)) = 0 /\
    RDPTarget (ca_status (w_app w)) = Ok "127.0.0.1:13389".
Proof.
  exists demo_connected.
  assert (Hs : steps (world_step (fun _ => EmptyString) demo_connector_url) new_world demo_connected).
  { eapply steps_snoc; [apply steps_refl | exact (ws_connect _ _ new_world demo_invitation (Ok "127.0.0.1:13389"))]. }
  split; [exact Hs |].
  destruct (connect_app_sound _ _ _ Hs) as (_ & _ & _ & _ & Hb).
  destruct (Hb ltac:(vm_compute; reflexivity)) as (session & r & _ & _ & _ & Hl & Hf & _).
  split; [exact Hl |]. split; [exact Hf |]. vm_compute. reflexivity.
Defined.
