(* ===== verification/BundleStore.v ===== *)
(** * BundleStore: the saved bundle of the Connect application

    [internal/connectgui/bundlestore.go]: the file that keeps a protected
    connect bundle beside the program, its strict parser and its replacement by
    rename.  The protector is a parameter.  [Save] is a program of {!StateFs},
    where the directory of the program stands in a place [InSettings]; [Load]
    gets what opening and reading the file returned.  Where the file is
    ([BundlePathFor]) is left out. *)

From S2P Require Import Prelude GoText GoTime GoNet Json Contract ContractV2 Metadata AgentTarget AgentConfig ConnectorConfig GoStamp GoDuration.
From S2P Require Import Program StateFs StateTxn PairingFiles.

(** ** [base64.StdEncoding] *)

Definition std_char (v : Z) : Byte.byte :=
  if v =? 62 then "+"%byte else if v =? 63 then "/"%byte else b64_char v.

Definition std_val (b : Byte.byte) : option Z :=
  if Byte.eqb b "+"%byte then Some 62
  else if Byte.eqb b "/"%byte then Some 63
  else if Byte.eqb b "-"%byte || Byte.eqb b "_"%byte then None
  else b64_val b.

Definition pad : Byte.byte := "="%byte.

Fixpoint std_encode (bs : bytes) : bytes :=
  match bs with
  | [] => []
  | [a] => [std_char (bz a / 4); std_char (bz a mod 4 * 16); pad; pad]
  | [a; b] => [std_char (bz a / 4); std_char (bz a mod 4 * 16 + bz b / 16); std_char (bz b mod 16 * 4); pad]
  | a :: b :: c :: r =>
    std_char (bz a / 4) :: std_char (bz a mod 4 * 16 + bz b / 16)
    :: std_char (bz b mod 16 * 4 + bz c / 64) :: std_char (bz c mod 64) :: std_encode r
  end.

(** Groups of four characters, the last one padded; line breaks have been
    skipped. *)
Fixpoint std_groups (bs : bytes) : option bytes :=
  match bs with
  | [] => Some []
  | a :: b :: c :: d :: r =>
    match std_val a, std_val b with
    | Some x, Some y =>
      if Byte.eqb d pad then
        match r with
        | _ :: _ => None
        | [] => if Byte.eqb c pad then b64_quanta [x; y] else match std_val c with Some z => b64_quanta [x; y; z] | None => None end
        end
      else
        match std_val c, std_val d, std_groups r with
        | Some z, Some w, Some t => match b64_quanta [x; y; z; w] with Some q => Some (q ++ t) | None => None end
        | _, _, _ => None
        end
    | _, _ => None
    end
  | _ => None
  end.

Definition line_break (b : Byte.byte) : bool := Byte.eqb b Byte.x0a || Byte.eqb b Byte.x0d.

Definition std_decode (bs : bytes) : option bytes := std_groups (List.filter (fun b => negb (line_break b)) bs).

(** ** [time.Parse(time.RFC3339, s)]

    Whether it succeeds.  Unlike the contract's own pattern it takes one-digit
    hours, a comma before the fraction, and any offset. *)

Definition two_num (limit : Z) (bs : bytes) : option (Z * bytes) :=
  match bs with
  | a :: b :: r => if is_digit a && is_digit b && (two_digits a b <? limit) then Some (two_digits a b, r) else None
  | _ => None
  end.

Definition hour_num (bs : bytes) : option bytes :=
  match bs with
  | a :: r =>
    if is_digit a then
      match r with
      | b :: r' => if is_digit b then (if two_digits a b <? 24 then Some r' else None) else Some r
      | [] => Some r
      end
    else None
  | [] => None
  end.

(** A literal of the layout, then what [f] reads. *)
Definition literal {A : Type} (c : Byte.byte) (f : bytes -> option A) (bs : bytes) : option A :=
  match bs with b :: r => if Byte.eqb b c then f r else None | [] => None end.

Fixpoint skip_digits (bs : bytes) : bytes :=
  match bs with b :: r => if is_digit b then skip_digits r else bs | [] => [] end.

Definition skip_fraction (bs : bytes) : bytes :=
  match bs with
  | p :: d :: r => if (Byte.eqb p "."%byte || Byte.eqb p ","%byte) && is_digit d then skip_digits (d :: r) else bs
  | _ => bs
  end.

Definition zone_ends (bs : bytes) : bool :=
  match bs with
  | [z] => Byte.eqb z "Z"%byte
  | [sign; h1; h2; c; m1; m2] =>
    (Byte.eqb sign "+"%byte || Byte.eqb sign "-"%byte) && forallb is_digit [h1; h2; m1; m2] && Byte.eqb c ":"%byte &&
    (two_digits h1 h2 <=? 24) && (two_digits m1 m2 <=? 60)
  | _ => false
  end.

Definition parses_RFC3339 (s : string) : bool :=
  match bytes_of s with
  | y1 :: y2 :: y3 :: y4 :: r =>
    if negb (forallb is_digit [y1; y2; y3; y4]) then false
    else
      match literal "-"%byte (two_num 13) r with
      | None => false
      | Some (month, r) =>
        match literal "-"%byte (two_num 100) r with
        | None => false
        | Some (day, r) =>
          match literal "T"%byte hour_num r with
          | None => false
          | Some r =>
            match literal ":"%byte (two_num 60) r with
            | None => false
            | Some (_, r) =>
              match literal ":"%byte (two_num 60) r with
              | None => false
              | Some (_, r) =>
                (1 <=? month) && zone_ends (skip_fraction r) && (1 <=? day) &&
                (day <=? days_in_month (100 * two_digits y1 y2 + two_digits y3 y4) month)
              end
            end
          end
        end
      end
  | _ => false
  end.

(** ** The file *)

Definition BundleFileName : string := "hooshix-connect.cfg".
Definition maxBundleFileBytes : Z := 8192.
Definition bundleFileVersion : string := "1".

Record SavedBundle := MkSavedBundle { sb_Bundle : string; sb_SavedAt : string }.

Record bundleRecord := MkBundleRecord { br_version : string; br_savedAt : string; br_bundle : string }.

Definition comment_lines : list string :=
  ["# HooshiX Connect saved bundle.";
   "# bundle holds the connect bundle protected for this Windows account.";
   "# It is not a readable credential, and it does not open on another";
   "# account or machine. Delete this file to forget the saved bundle."].

Definition bundle_render (r : bundleRecord) : bytes :=
  join_with Byte.x0a (bytes_of <$> (comment_lines ++
    ["version=" +:+ br_version r; "saved_at=" +:+ br_savedAt r; "bundle=" +:+ br_bundle r; EmptyString])).

(** [strings.TrimSuffix(line, "\r")]. *)
Definition trim_cr (line : bytes) : bytes :=
  match cut_suffix [Byte.x0d] line with Some l => l | None => line end.

Definition skipped_line (line : bytes) : bool :=
  match line with [] => true | b :: _ => Byte.eqb b "#"%byte end.

(** The switch over the keys. *)
Definition set_key (r : bundleRecord) (key value : string) : option bundleRecord :=
  if String.eqb key "version" then Some (MkBundleRecord value (br_savedAt r) (br_bundle r))
  else if String.eqb key "saved_at" then Some (MkBundleRecord (br_version r) value (br_bundle r))
  else if String.eqb key "bundle" then Some (MkBundleRecord (br_version r) (br_savedAt r) value)
  else None.

Fixpoint parse_lines (lines : list bytes) (seen : list string) (r : bundleRecord) : result bundleRecord :=
  match lines with
  | [] => Ok r
  | raw :: rest =>
    let line := trim_cr raw in
    if skipped_line line then parse_lines rest seen r
    else
      match cut_at "="%byte line with
      | None => Err (ErrMsg "saved bundle line is not a key=value pair")
      | Some (k, v) =>
        let key := string_of k in
        if bool_decide (key ∈ seen) then Err (ErrMsg "saved bundle key appears twice")
        else
          match set_key r key (string_of v) with
          | None => Err (ErrMsg "saved bundle file has an unknown key")
          | Some r' => parse_lines rest (key :: seen) r'
          end
      end
  end.

Definition parseBundleFile (data : bytes) : result bundleRecord :=
  let? r := parse_lines (split_on Byte.x0a data) [] (MkBundleRecord EmptyString EmptyString EmptyString) in
  reject_if (negb (String.eqb (br_version r) bundleFileVersion)) (ErrMsg "saved bundle version is not supported") ;?
  reject_if (String.eqb (br_bundle r) EmptyString) (ErrMsg "saved bundle file has no bundle") ;?
  reject_if (negb (parses_RFC3339 (br_savedAt r))) (ErrMsg "saved bundle file has an unreadable saved_at timestamp") ;?
  Ok r.

(** ** Load and Save *)

Section Store.
Context (Seal Unseal : bytes -> result bytes).

(** [opened]: what opening and reading the file, to one byte past the limit,
    returned; [None] when there is no file. *)
Definition Load (opened : result (option bytes)) : result SavedBundle :=
  match opened with
  | Err err => Err (ErrWrap "read the saved bundle file" err)
  | Ok None => Ok (MkSavedBundle EmptyString EmptyString)
  | Ok (Some data) =>
    reject_if (maxBundleFileBytes <? zlen data) (ErrMsg "saved bundle file is too large") ;?
    let? record := parseBundleFile data in
    match std_decode (bytes_of (br_bundle record)) with
    | None | Some [] => Err (ErrMsg "saved bundle file does not hold a protected bundle")
    | Some sealed =>
      match Unseal sealed with
      | Err _ => Err (ErrMsg "the saved bundle was written for a different Windows account or machine and cannot be opened here")
      | Ok plaintext =>
        let bundle := trimmed (string_of plaintext) in
        match strip_prefix (bytes_of BundlePrefix) (bytes_of bundle) with
        | None => Err (ErrMsg "the saved bundle is not a connect bundle")
        | Some _ => Ok (MkSavedBundle bundle (br_savedAt record))
        end
      end
    end
  end.

Definition bundle_temp : string := "." +:+ BundleFileName +:+ ".".

Definition writeBundleFile (d : place) (name : string) (content : bytes) : prog (result unit) :=
  let* temporary := call (CreateTemp d bundle_temp) in
  match temporary with
  | Err err => Ret (Err (ErrWrap "create a temporary file" err))
  | Ok tmp =>
    let* written := call (Write (d, tmp) content) in
    match written with
    | Err err => let* _ := call (Quiet "close") in let* _ := call (Remove (d, tmp)) in Ret (Err (ErrWrap "write the saved bundle" err))
    | Ok _ =>
      let* closed := call (Quiet "close") in
      match closed with
      | Err err => let* _ := call (Remove (d, tmp)) in Ret (Err (ErrWrap "write the saved bundle" err))
      | Ok _ =>
        let* renamed := call (Rename d tmp name) in
        match renamed with
        | Err err => let* _ := call (Remove (d, tmp)) in Ret (Err (ErrWrap "publish the saved bundle file" err))
        | Ok _ => Ret (Ok tt)
        end
      end
    end
  end.

(** [Format(time.RFC3339)] of the clock: whole seconds. *)
Definition saved_stamp (now : instant) : string := format_rfc3339_nano (now / Second * Second).

Definition Save (d : place) (name : string) (now : instant) (bundle : string) : prog (result SavedBundle) :=
  let text := trimmed bundle in
  if String.eqb text EmptyString then Ret (Err (ErrMsg "cannot save an empty connect bundle"))
  else
    match Seal (bytes_of text) with
    | Err err => Ret (Err (ErrWrap "protect the connect bundle" err))
    | Ok sealed =>
      let record := MkBundleRecord bundleFileVersion (saved_stamp now) (string_of (std_encode sealed)) in
      writeBundleFile d name (bundle_render record) ;!
      Ret (Ok (MkSavedBundle text (saved_stamp now)))
    end.
End Store.

(** ** Text *)

Definition one_line (bs : bytes) : bool := forallb (fun b => negb (line_break b)) bs.

Lemma one_line_app xs ys : one_line (xs ++ ys) = one_line xs && one_line ys.
Proof. apply forallb_app. Qed.

Lemma std_alphabet_val b v : std_val b = Some v -> negb (line_break b) = true /\ Byte.eqb b pad = false.
Proof. by destruct b. Qed.

Lemma std_val_char v : 0 <= v < 64 -> std_val (std_char v) = Some v.
Proof.
  intros H. unfold std_char. destruct (v =? 62) eqn:E1; [apply Z.eqb_eq in E1; by subst v |].
  destruct (v =? 63) eqn:E2; [apply Z.eqb_eq in E2; by subst v |]. apply Z.eqb_neq in E1, E2.
  pose proof (b64_val_char v H) as Hb. unfold std_val.
  destruct (b64_char v) eqn:Ec; try exact Hb; exfalso; vm_compute in Hb; try discriminate Hb; injection Hb as Hb; lia.
Qed.

(** The decoder takes no notice of line breaks, and the encoder makes none. *)
Lemma std_char_line v : 0 <= v < 64 -> negb (line_break (std_char v)) = true /\ Byte.eqb (std_char v) pad = false.
Proof. intros H. eapply std_alphabet_val, std_val_char, H. Qed.

Lemma std_encode_line bs : one_line (std_encode bs) = true.
Proof.
  assert (Hc : forall v, 0 <= v < 64 -> negb (line_break (std_char v)) = true) by (intros v Hv; apply std_char_line, Hv).
  unfold one_line. induction bs as [ |a|a b|a b c r IH] using bytes_ind3; cbn [std_encode forallb];
    try rewrite !Hc by sextet; auto.
Qed.

Lemma filter_one_line bs : one_line bs = true -> List.filter (fun b => negb (line_break b)) bs = bs.
Proof.
  induction bs as [|b bs IH]; [done |]. cbn. intros [Hb Hr]%andb_true_iff. by rewrite Hb, IH.
Qed.

Lemma std_decode_encode bs : std_decode (std_encode bs) = Some bs.
Proof.
  unfold std_decode. rewrite filter_one_line by apply std_encode_line.
  assert (Hp : forall v, 0 <= v < 64 -> Byte.eqb (std_char v) pad = false) by (intros v Hv; apply std_char_line, Hv).
  assert (Hpad : Byte.eqb pad pad = true) by done.
  induction bs as [ |a|a b|a b c r IH] using bytes_ind3; cbn [std_encode std_groups]; [done | | |].
  - rewrite !std_val_char, Hpad by sextet. cbn. do 2 f_equal. solve_byte.
  - rewrite !std_val_char, Hpad, Hp by sextet. cbn. do 2 f_equal; [| f_equal]; solve_byte.
  - rewrite !std_val_char, Hp, IH by sextet. cbn.
    f_equal. f_equal; [solve_byte | f_equal; [solve_byte | f_equal; solve_byte]].
Qed.

(** What the contract's pattern accepts, [time.Parse] does. *)
Lemma digits_val_digits ds : forall acc v, digits_val acc ds = Some v -> forallb is_digit ds = true.
Proof.
  induction ds as [|d ds IH]; [done |]. intros acc v. cbn [digits_val forallb]. destruct (is_digit d) eqn:E; [| discriminate].
  intros H. exact (IH _ _ H).
Qed.

Lemma skip_all_digits ds : forallb is_digit ds = true -> skip_digits (ds ++ ["Z"%byte]) = ["Z"%byte].
Proof. induction ds as [|d ds IH]; [done |]. cbn. intros [Hd H]%andb_true_iff. rewrite Hd. by apply IH. Qed.

Lemma digits_one_line ds : forallb is_digit ds = true -> one_line ds = true.
Proof.
  induction ds as [|d ds IH]; [done |]. cbn. intros [Hd H]%andb_true_iff. apply andb_true_iff. split; [by destruct d | by apply IH].
Qed.

Lemma utc_fraction_ends bs ns : utc_fraction bs = Some ns -> zone_ends (skip_fraction bs) = true /\ one_line bs = true.
Proof.
  destruct bs as [|b r]; [discriminate |]. cbn [utc_fraction]. destruct (Byte.eqb b "Z") eqn:E.
  - apply byte_eqb_eq in E as ->. by destruct r.
  - destruct (Byte.eqb b ".") eqn:E'; [| discriminate]. apply byte_eqb_eq in E' as ->.
    destruct (rev r) as [|z rd] eqn:Er; [discriminate |]. apply (f_equal (@rev _)) in Er. rewrite rev_involutive in Er. cbn in Er. subst r.
    destruct (Byte.eqb z "Z") eqn:Ez; [| discriminate]. apply byte_eqb_eq in Ez as ->. cbn [andb].
    destruct (_ <=? 9); [| discriminate]. unfold parse_digits. destruct (rev rd) as [|d ds] eqn:Ed; [discriminate |].
    destruct (digits_val 0 (d :: ds)) as [v|] eqn:Ev; [| discriminate]. intros _. apply digits_val_digits in Ev. split.
    + cbn [app skip_fraction]. pose proof Ev as [Hd Hds]%andb_true_iff. rewrite Hd. cbn [orb andb].
      change (Byte.eqb "." ".")%byte with true. cbn [orb andb]. change (d :: ds ++ ["Z"%byte]) with ((d :: ds) ++ ["Z"%byte]).
      by rewrite skip_all_digits.
    + change ("."%byte :: (d :: ds) ++ ["Z"%byte]) with (["."%byte] ++ (d :: ds) ++ ["Z"%byte]).
      rewrite !one_line_app. rewrite (digits_one_line _ Ev). done.
Qed.

Lemma utc_fields_parse bs t :
  utc_fields bs = Some t -> u_day t <= days_in_month (u_year t) (u_month t) ->
  parses_RFC3339 (string_of bs) = true /\ one_line bs = true.
Proof.
  unfold parses_RFC3339. rewrite bytes_of_string_of.
  destruct bs as [|y1 [|y2 [|y3 [|y4 [|c1 [|o1 [|o2 [|c2 [|d1 [|d2 [|c3 [|h1 [|h2 [|c4 [|i1 [|i2 [|c5 [|s1 [|s2 frac]]]]]]]]]]]]]]]]]]];
    try discriminate. cbn [utc_fields]. set (t0 := Utc _ _ _ _ _ _).
  destruct (_ && _) eqn:E; [| discriminate]. destruct (utc_fraction frac) as [ns|] eqn:Ef; [| discriminate].
  intros [= <-] Hday. cbn [t0 u_day u_year u_month] in Hday.
  destruct (utc_fraction_ends _ _ Ef) as [Hz Hl]. subst t0. cbn [u_month u_day u_hour u_min u_sec forallb] in E.
  rewrite !andb_true_iff, !Z.leb_le in E.
  destruct E as ((((((Hd & (((Hc1 & Hc2) & Hc3) & Hc4) & Hc5) & Hm1 & Hm2) & Hd1 & Hd2) & Hh) & Hi) & Hs).
  destruct Hd as (Y1 & Y2 & Y3 & Y4 & O1 & O2 & D1 & D2 & H1 & H2 & I1 & I2 & S1 & S2 & _).
  split.
  - unfold literal, two_num, hour_num. cbn [forallb]. rewrite Y1, Y2, Y3, Y4. cbn [andb negb]. cbv iota beta.
    rewrite Hc1, O1, O2, (proj2 (Z.ltb_lt (two_digits o1 o2) 13)) by lia. cbn [andb]. cbv iota beta.
    rewrite Hc2, D1, D2, (proj2 (Z.ltb_lt (two_digits d1 d2) 100)) by lia. cbn [andb]. cbv iota beta.
    rewrite Hc3, H1, H2, (proj2 (Z.ltb_lt (two_digits h1 h2) 24)) by lia. cbv iota beta.
    rewrite Hc4, I1, I2, (proj2 (Z.ltb_lt (two_digits i1 i2) 60)) by lia. cbn [andb]. cbv iota beta.
    rewrite Hc5, S1, S2, (proj2 (Z.ltb_lt (two_digits s1 s2) 60)) by lia. cbn [andb]. cbv iota beta.
    rewrite Hz, !(proj2 (Z.leb_le _ _)) by lia. done.
  - apply Byte.byte_dec_bl in Hc1, Hc2, Hc3, Hc4, Hc5. subst.
    change (one_line ([y1; y2; y3; y4] ++ ["-"%byte] ++ [o1; o2] ++ ["-"%byte] ++ [d1; d2] ++ ["T"%byte] ++ [h1; h2] ++ [":"%byte] ++
      [i1; i2] ++ [":"%byte] ++ [s1; s2] ++ frac) = true).
    rewrite !one_line_app, Hl, (digits_one_line [y1; y2; y3; y4]), (digits_one_line [o1; o2]), (digits_one_line [d1; d2]),
      (digits_one_line [h1; h2]), (digits_one_line [i1; i2]), (digits_one_line [s1; s2]); [done | ..]; cbn [forallb].
    all: by rewrite ?Y1, ?Y2, ?Y3, ?Y4, ?O1, ?O2, ?D1, ?D2, ?H1, ?H2, ?I1, ?I2, ?S1, ?S2.
Qed.

(** The stamp of [Save] is one that [Load] reads. *)
Lemma saved_stamp_reads now :
  year_range (now / Second) -> parses_RFC3339 (saved_stamp now) = true /\ one_line (bytes_of (saved_stamp now)) = true.
Proof.
  intros Hy. unfold saved_stamp. pose proof (parse_formatted (now / Second * Second)) as H.
  rewrite Z.div_mul in H by done. specialize (H Hy). unfold parse_rfc3339 in H.
  destruct (utc_fields _) as [t|] eqn:E; [| discriminate]. destruct (Z.leb_spec (u_day t) (days_in_month (u_year t) (u_month t))) as [Hd|]; [| discriminate].
  destruct (utc_fields_parse _ _ E Hd) as [Hp Hl]. rewrite string_of_bytes_of in Hp. done.
Qed.

(** *** [strings.TrimSpace] twice *)

Definition starts_with_none (spaces : list bytes) (bs : bytes) : Prop := find (fun w => is_prefix w bs) spaces = None.

Lemma trim_left_done spaces fuel : forall bs,
  Forall (fun w => w <> []) spaces -> (length bs <= fuel)%nat -> starts_with_none spaces (trim_left spaces fuel bs).
Proof.
  unfold starts_with_none. induction fuel as [|fuel IH]; intros bs Hw Hl; cbn [trim_left].
  - destruct bs; [| cbn in Hl; lia]. destruct (find _ spaces) as [w|] eqn:E; [| done].
    apply find_some in E as [Hin Hp]. rewrite Forall_forall in Hw. specialize (Hw w (proj2 (list_elem_of_In _ _) Hin)). by destruct w.
  - destruct (find (fun w => is_prefix w bs) spaces) as [w|] eqn:E; [| exact E]. apply IH; [done |].
    apply find_some in E as [Hin Hp]. rewrite Forall_forall in Hw. specialize (Hw w (proj2 (list_elem_of_In _ _) Hin)).
    destruct w as [|x w]; [done |]. destruct bs as [|b bs]; [done |]. rewrite length_skipn. cbn in *. lia.
Qed.

Lemma trim_left_none spaces fuel bs : starts_with_none spaces bs -> trim_left spaces fuel bs = bs.
Proof. intros H. destruct fuel; [done |]. cbn [trim_left]. unfold starts_with_none in H. by rewrite H. Qed.

Lemma is_prefix_app w bs more : is_prefix w bs = true -> is_prefix w (bs ++ more) = true.
Proof.
  revert bs. induction w as [|x w IH]; [done |]. intros [|b bs]; [done |]. cbn. intros [Hb H]%andb_true_iff. by rewrite Hb, IH.
Qed.

Lemma starts_with_none_prefix spaces bs more : starts_with_none spaces (bs ++ more) -> starts_with_none spaces bs.
Proof.
  unfold starts_with_none. intros H. destruct (find (fun w => is_prefix w bs) spaces) as [w|] eqn:E; [| reflexivity]. apply find_some in E as [Hin Hp].
  pose proof (find_none _ _ H w Hin) as Hn. cbn beta in Hn. rewrite (is_prefix_app _ _ more Hp) in Hn. discriminate Hn.
Qed.

Lemma trim_left_suffix spaces fuel bs : exists gone, bs = gone ++ trim_left spaces fuel bs.
Proof.
  revert bs. induction fuel as [|fuel IH]; intros bs; [by exists [] |]. cbn [trim_left].
  destruct (find _ spaces) as [w|]; [| by exists []]. destruct (IH (skipn (length w) bs)) as [g Hg].
  exists (firstn (length w) bs ++ g). rewrite <- app_assoc, <- Hg. by rewrite firstn_skipn.
Qed.

Lemma white_space_nonempty : Forall (fun w => w <> []) white_space /\ Forall (fun w => w <> []) ((fun w => rev w) <$> white_space).
Proof. split; apply (bool_decide_unpack _); vm_compute; reflexivity. Qed.

Lemma TrimSpace_twice bs : TrimSpace (TrimSpace bs) = TrimSpace bs.
Proof.
  destruct white_space_nonempty as [Hw Hw']. set (left := trim_left white_space (length bs) bs).
  assert (Hl : starts_with_none white_space left) by (by apply trim_left_done).
  set (right := trim_left ((fun w => rev w) <$> white_space) (length left) (rev left)).
  assert (Hr : starts_with_none ((fun w => rev w) <$> white_space) right) by (apply trim_left_done; [done | by rewrite length_rev]).
  assert (E : TrimSpace bs = rev right) by done. rewrite E. unfold TrimSpace.
  destruct (trim_left_suffix ((fun w => rev w) <$> white_space) (length left) (rev left)) as [gone Hg]. fold right in Hg.
  apply (f_equal (@rev _)) in Hg. rewrite rev_involutive, rev_app_distr in Hg.
  rewrite (trim_left_none white_space) by (eapply starts_with_none_prefix; rewrite <- Hg; exact Hl).
  by rewrite rev_involutive, trim_left_none.
Qed.

Lemma trimmed_twice s : trimmed (trimmed s) = trimmed s.
Proof. unfold trimmed. by rewrite bytes_of_string_of, TrimSpace_twice. Qed.

(** ** The parser *)

Definition known_keys : list string := ["version"; "saved_at"; "bundle"].

Definition field (r : bundleRecord) (key : string) : string :=
  if String.eqb key "version" then br_version r else if String.eqb key "saved_at" then br_savedAt r else br_bundle r.

(** The pairs of a file, or nothing when a line is no pair. *)
Fixpoint line_pairs (lines : list bytes) : option (list (string * string)) :=
  match lines with
  | [] => Some []
  | raw :: rest =>
    let line := trim_cr raw in
    if skipped_line line then line_pairs rest
    else match cut_at "="%byte line, line_pairs rest with
         | Some (k, v), Some pairs => Some ((string_of k, string_of v) :: pairs)
         | _, _ => None
         end
  end.

Lemma set_key_field r key value r' : set_key r key value = Some r' ->
  key ∈ known_keys /\ field r' key = value /\ forall k, k ∈ known_keys -> k <> key -> field r' k = field r k.
Proof.
  unfold set_key, known_keys, field. destruct (String.eqb_spec key "version") as [->|N1]; [intros [= <-] |
    destruct (String.eqb_spec key "saved_at") as [->|N2]; [intros [= <-] |
    destruct (String.eqb_spec key "bundle") as [->|N3]; [intros [= <-] | discriminate]]].
  all: split; [set_solver |]; split; [done |]; intros k Hk Hne.
  all: rewrite !elem_of_cons, elem_of_nil in Hk; destruct Hk as [->|[->|[->|[]]]]; done.
Qed.

Lemma parse_lines_pairs lines : forall seen r r',
  parse_lines lines seen r = Ok r' ->
  exists pairs, line_pairs lines = Some pairs /\ NoDup pairs.*1 /\ (forall k, k ∈ pairs.*1 -> k ∉ seen /\ k ∈ known_keys) /\
    (forall k v, (k, v) ∈ pairs -> field r' k = v) /\ (forall k, k ∈ known_keys -> k ∉ pairs.*1 -> field r' k = field r k).
Proof.
  induction lines as [|raw lines IH]; intros seen r r'; cbn [parse_lines line_pairs].
  - intros [= <-]. exists []. split; [done |]. split; [apply NoDup_nil_2 |]. split; [by intros k Hk%elem_of_nil |].
    split; [by intros k v Hk%elem_of_nil | done].
  - destruct (skipped_line _); [apply IH |]. destruct (cut_at _ _) as [[k v]|]; [| discriminate]. cbv zeta.
    destruct (bool_decide_reflect (string_of k ∈ seen)) as [|Hseen]; [discriminate |].
    destruct (set_key r (string_of k) (string_of v)) as [r1|] eqn:Es; [| discriminate]. intros H.
    destruct (IH _ _ _ H) as (pairs & -> & Hnd & Hk & Hv & Hrest). destruct (set_key_field _ _ _ _ Es) as (Hknown & Hset & Hother).
    assert (Hfresh : string_of k ∉ pairs.*1) by (intros Hin; apply Hk in Hin as [Hn _]; by apply Hn, list_elem_of_here).
    exists ((string_of k, string_of v) :: pairs). cbn [fmap list_fmap fst]. split; [done |]. split; [by apply NoDup_cons |].
    split; [| split].
    + intros k' [-> |Hk']%elem_of_cons; [done |]. destruct (Hk k' Hk') as [Hn Hkn]. split; [| done]. intros Hin. apply Hn. by right.
    + intros k' v' [[= -> ->]|Hin]%elem_of_cons; [| by apply Hv]. by rewrite Hrest.
    + intros k' Hk' [Hne Hn]%not_elem_of_cons. rewrite Hrest by done. by apply Hother.
Qed.

(** A file that is accepted says each of the three things exactly once, and
    nothing else. *)
Lemma bundle_parse_strict data r :
  parseBundleFile data = Ok r ->
  exists pairs, line_pairs (split_on Byte.x0a data) = Some pairs /\
    pairs ≡ₚ [("version", "1"); ("saved_at", br_savedAt r); ("bundle", br_bundle r)] /\
    br_version r = "1" /\ br_bundle r <> EmptyString /\ parses_RFC3339 (br_savedAt r) = true.
Proof.
  unfold parseBundleFile. intros (r0 & Hp & H)%rbind_Ok.
  apply rbind_Ok in H as (u1 & Hv%reject_if_Ok & H). apply rbind_Ok in H as (u2 & Hb%reject_if_Ok & H).
  apply rbind_Ok in H as (u3 & Ht%reject_if_Ok & H). injection H as ->.
  apply negb_false_iff in Hv, Ht. apply String.eqb_eq in Hv. apply String.eqb_neq in Hb.
  destruct (parse_lines_pairs _ _ _ _ Hp) as (pairs & Hl & Hnd & Hk & Hval & Hrest). exists pairs. split; [done |].
  split; [| done].
  assert (Hall : forall k, k ∈ known_keys -> k ∈ pairs.*1).
  { intros k Hin. destruct (decide (k ∈ pairs.*1)) as [|Hn]; [done | exfalso]. pose proof (Hrest k Hin Hn) as He.
    unfold known_keys in Hin. rewrite !elem_of_cons, elem_of_nil in Hin. destruct Hin as [->|[->|[->|[]]]]; cbn in He.
    - rewrite He in Hv. discriminate Hv.
    - rewrite He in Ht. discriminate Ht.
    - by rewrite He in Hb. }
  apply NoDup_Permutation; [by eapply NoDup_fmap_1 | |].
  { apply (NoDup_fmap_1 fst). cbn. apply (bool_decide_unpack _). vm_compute. reflexivity. }
  change "1" with bundleFileVersion. rewrite <- Hv. intros [k v]. rewrite !elem_of_cons, elem_of_nil. split.
  - intros Hin. pose proof (Hval k v Hin) as Hf. destruct (Hk k) as [_ Hkn]; [apply list_elem_of_fmap; by exists (k, v) |].
    unfold known_keys in Hkn. rewrite !elem_of_cons, elem_of_nil in Hkn. destruct Hkn as [->|[->|[->|[]]]]; cbn in Hf; subst v; tauto.
  - assert (Hget : forall k, k ∈ known_keys -> (k, field r k) ∈ pairs).
    { intros k' Hin. apply Hall in Hin. apply list_elem_of_fmap in Hin as ([k0 v0] & -> & Hin). cbn. by rewrite (Hval _ _ Hin). }
    intros [[= -> ->]|[[= -> ->]|[[= -> ->]|[]]]].
    + apply (Hget "version"). unfold known_keys. set_solver.
    + apply (Hget "saved_at"). unfold known_keys. set_solver.
    + apply (Hget "bundle"). unfold known_keys. set_solver.
Qed.

(** *** What [render] writes *)

Lemma split_join sep parts :
  Forall (fun p => forallb (fun b => negb (Byte.eqb b sep)) p = true) parts -> parts <> [] -> split_on sep (join_with sep parts) = parts.
Proof.
  induction parts as [|p [|q rest] IH]; [done | intros [Hp _]%Forall_cons _; by apply split_on_fresh |].
  intros [Hp Hr]%Forall_cons _. cbn [join_with]. rewrite split_on_app by done. f_equal. by apply IH.
Qed.

Lemma one_line_fresh bs : one_line bs = true -> forallb (fun b => negb (Byte.eqb b Byte.x0a)) bs = true.
Proof.
  induction bs as [|b bs IH]; [done |]. cbn. intros [Hb H]%andb_true_iff. apply andb_true_iff. split; [by destruct b | by apply IH].
Qed.

Lemma trim_cr_line bs : one_line bs = true -> trim_cr bs = bs.
Proof.
  intros H. unfold trim_cr, cut_suffix. cbn [rev app]. destruct (rev bs) as [|b r] eqn:E; [done |]. cbn [is_prefix].
  destruct (Byte.eqb Byte.x0d b) eqn:Eb; [| done]. apply byte_eqb_eq in Eb as <-. exfalso.
  assert (Hin : Byte.x0d ∈ bs) by (apply list_elem_of_In, in_rev; rewrite E; by left).
  unfold one_line in H. rewrite forallb_forall in H. apply list_elem_of_In in Hin. apply H in Hin. discriminate Hin.
Qed.

Lemma cut_at_key (k v : bytes) : forallb (fun b => negb (Byte.eqb b "="%byte)) k = true -> cut_at "="%byte (k ++ "="%byte :: v) = Some (k, v).
Proof.
  induction k as [|b k IH]; [done |]. cbn. intros [Hb H]%andb_true_iff. apply negb_true_iff in Hb. by rewrite Hb, IH.
Qed.

(** One line of the file. *)
Lemma parse_key_line key value rest seen r r' :
  forallb (fun b => negb (Byte.eqb b "="%byte)) (bytes_of key) = true -> one_line (bytes_of key) = true -> one_line (bytes_of value) = true ->
  skipped_line (bytes_of (key +:+ "=" +:+ value)) = false -> key ∉ seen -> set_key r key value = Some r' ->
  parse_lines (bytes_of (key +:+ "=" +:+ value) :: rest) seen r = parse_lines rest (key :: seen) r'.
Proof.
  intros Hk Hl Hv Hs Hn Hset. cbn [parse_lines].
  assert (E : bytes_of (key +:+ "=" +:+ value) = bytes_of key ++ "="%byte :: bytes_of value) by (by rewrite !bytes_of_app).
  rewrite trim_cr_line by (rewrite E, one_line_app, Hl; exact Hv). rewrite Hs, E, cut_at_key by done. cbv zeta.
  rewrite !string_of_bytes_of, bool_decide_false by done. by rewrite Hset.
Qed.

Lemma parse_render savedAt bundle :
  one_line (bytes_of savedAt) = true -> one_line (bytes_of bundle) = true -> bundle <> EmptyString -> parses_RFC3339 savedAt = true ->
  parseBundleFile (bundle_render (MkBundleRecord bundleFileVersion savedAt bundle)) = Ok (MkBundleRecord bundleFileVersion savedAt bundle).
Proof.
  intros Hs Hb Hne Ht. unfold parseBundleFile, bundle_render. cbn [br_version br_savedAt br_bundle].
  rewrite split_join; [| | done].
  - rewrite fmap_app. assert (Hc : forall rest seen r, parse_lines ((bytes_of <$> comment_lines) ++ rest) seen r = parse_lines rest seen r) by done.
    rewrite Hc. cbn [fmap list_fmap].
    erewrite (parse_key_line "version" bundleFileVersion); [| done.. | apply not_elem_of_nil | reflexivity].
    erewrite (parse_key_line "saved_at" savedAt); [| done.. | set_solver | reflexivity].
    erewrite (parse_key_line "bundle" bundle); [| done.. | set_solver | reflexivity].
    cbn [parse_lines br_version br_savedAt br_bundle rbind]. change (skipped_line (trim_cr (bytes_of ""))) with true. cbv iota.
    cbn [rbind br_version br_savedAt br_bundle]. rewrite Ht. destruct (String.eqb_spec bundle EmptyString); [done |]. done.
  - rewrite fmap_app. apply Forall_app. split; [apply (bool_decide_unpack _); vm_compute; reflexivity |].
    cbn [fmap list_fmap]. repeat apply Forall_cons_2; try apply Forall_nil_2; try done.
    all: apply one_line_fresh; rewrite bytes_of_app, one_line_app; by rewrite ?Hs, ?Hb.
Qed.

(** ** Saving, with crashes *)

Definition bundle_scratch (d : place) (p : path) : Prop := exists n, p = (d, bundle_temp +:+ n).

Section Saving.
Context (d : place) (name : string) (content : bytes) (s0 : files).
Context (Hname : ~ bundle_scratch d (d, name)).
Abbreviation P := (only (bundle_scratch d) (d, name) (Some (File content)) s0).

Lemma temp_is_scratch n : bundle_scratch d (d, bundle_temp +:+ n).
Proof. by exists n. Qed.

(** Clearing the temporary file away. *)
Lemma removing_safe {A : Type} (tmp : string) (err : error) (Q : A -> files -> Prop) (s : files) :
  bundle_scratch d (d, tmp) -> P s -> safe P (okay Q) (bind (call (Remove (d, tmp))) (fun _ => Ret (Err err))) s.
Proof using All.
  intros Ht Hs. eapply (safe_bind _ (fun _ _ => True)); [| intros; by apply safe_err].
  apply safe_call; [done |]. intros ev. split; [| done]. cbn. destruct (ev_fails ev); [done |].
  destruct (s !! _); [by apply only_delete | done].
Qed.

Lemma writeBundleFile_safe :
  safe P (okay (fun _ s' => s' !! (d, name) = Some (File content))) (writeBundleFile d name content) s0.
Proof using All.
  unfold writeBundleFile. eapply (safe_bind _ (okay (fun tmp s' => bundle_scratch d (d, tmp) /\ s' !! (d, tmp) = Some (File [])))).
  { apply safe_call; [apply only_refl |]. intros ev. cbn. destruct (_ || _); [split; [apply only_refl | done] |]. cbn.
    split; [apply only_scratch; [apply temp_is_scratch | done | apply only_refl] |]. split; [apply temp_is_scratch | apply lookup_insert_eq]. }
  intros [tmp|err] s1 H1 Ht; [| by apply safe_err]. destruct Ht as [Ht Hf].
  eapply safe_bind; [apply (write_temp (bundle_scratch d) d bundle_temp name content s0 temp_is_scratch Hname s1 tmp Ht H1 Hf) |].
  intros [u|err] s2 H2 Hw; cbn in Hw.
  - eapply safe_bind; [by apply safe_quiet |]. intros [u'|err] s3 H3 E; [| by apply removing_safe]. cbn in E. subst s3.
    eapply safe_bind; [apply (rename_temp (bundle_scratch d) d bundle_temp name content s0 temp_is_scratch Hname s2 tmp Ht H2 Hw) |].
    intros [u''|err] s4 H4 Hr; [by apply safe_ret | by apply removing_safe].
  - eapply (safe_bind _ (fun _ _ => True)); [apply safe_call; [done |]; intros ev; by split |]. intros _ s3 H3 _. by apply removing_safe.
Qed.
End Saving.

Lemma bundle_name_not_scratch d : ~ bundle_scratch d (d, BundleFileName).
Proof. intros [n [= H]]. Qed.

(** What [Load] is given when nothing goes wrong. *)
Definition bundle_opened (n : option node) : result (option bytes) :=
  match n with
  | None => Ok None
  | Some (File data) => Ok (Some (firstn (Z.to_nat (maxBundleFileBytes + 1)) data))
  | Some _ => io_error
  end.

(** What the protector's two calls have to do with each other. *)
Definition protector_ok (Seal Unseal : bytes -> result bytes) : Prop :=
  forall text sealed, Seal text = Ok sealed -> Unseal sealed = Ok text /\ sealed <> [].

Lemma strip_is_prefix pre : forall bs, is_prefix pre bs = match strip_prefix pre bs with Some _ => true | None => false end.
Proof.
  induction pre as [|x pre IH]; intros [|y l]; try done. cbn. destruct (Byte.eqb x y); [apply IH | done].
Qed.

Lemma load_saved Seal Unseal now bundle sealed :
  protector_ok Seal Unseal -> year_range (now / Second) -> Seal (bytes_of (trimmed bundle)) = Ok sealed ->
  is_prefix (bytes_of BundlePrefix) (bytes_of (trimmed bundle)) = true ->
  let content := bundle_render (MkBundleRecord bundleFileVersion (saved_stamp now) (string_of (std_encode sealed))) in
  zlen content <= maxBundleFileBytes ->
  Load Unseal (bundle_opened (Some (File content))) = Ok (MkSavedBundle (trimmed bundle) (saved_stamp now)).
Proof.
  intros Hp Hy Hs Hpre content Hlen. destruct (Hp _ _ Hs) as [Hu Hne]. destruct (saved_stamp_reads now Hy) as [Ht Hl].
  unfold bundle_opened. rewrite firstn_all2 by (unfold zlen, maxBundleFileBytes in *; lia). unfold Load.
  rewrite (proj2 (Z.ltb_ge _ _) Hlen). cbn [reject_if rbind]. unfold content. rewrite parse_render; [| done | | | done].
  - cbn [rbind br_bundle br_savedAt]. rewrite bytes_of_string_of, std_decode_encode. destruct sealed as [|b sealed]; [done |].
    rewrite Hu, string_of_bytes_of, trimmed_twice. cbv zeta.
    destruct (strip_prefix (bytes_of BundlePrefix) (bytes_of (trimmed bundle))) eqn:E; [done | exfalso].
    by rewrite strip_is_prefix in Hpre; rewrite E in Hpre.
  - rewrite bytes_of_string_of. apply std_encode_line.
  - intros E. apply (f_equal bytes_of) in E. rewrite bytes_of_string_of in E. destruct sealed as [|a [|b [|c r]]]; done.
Qed.

(** C22: Saving a bundle replaces the file beside the program as a whole: whatever fails on the way and wherever the program is stopped, the file holds what it held before or one complete record of exactly this bundle, sealed, and apart from temporary files nothing else is touched. When Save reports success the record is there, and Load, with a protector that opens what it sealed, gives back the same bundle and the same time, provided the file is within the limit Load reads and the bundle starts with hx1. *)
Theorem saved_bundle_whole Seal Unseal d now bundle events s :
  protector_ok Seal Unseal -> year_range (now / Second) ->
  let '(s', done_) := run events (Save Seal d BundleFileName now bundle) s in
  let file sealed := File (bundle_render (MkBundleRecord "1" (saved_stamp now) (string_of (std_encode sealed)))) in
  (forall p, ~ bundle_scratch d p -> p <> (d, BundleFileName) -> s' !! p = s !! p) /\
  (s' !! (d, BundleFileName) = s !! (d, BundleFileName) \/
   exists sealed, Seal (bytes_of (trimmed bundle)) = Ok sealed /\ s' !! (d, BundleFileName) = Some (file sealed)) /\
  (forall saved, done_ = Some (Ok saved) ->
    saved = MkSavedBundle (trimmed bundle) (saved_stamp now) /\
    exists sealed, Seal (bytes_of (trimmed bundle)) = Ok sealed /\ s' !! (d, BundleFileName) = Some (file sealed) /\
      (is_prefix (bytes_of BundlePrefix) (bytes_of (trimmed bundle)) = true ->
       zlen (bundle_render (MkBundleRecord "1" (saved_stamp now) (string_of (std_encode sealed)))) <= maxBundleFileBytes ->
       Load Unseal (bundle_opened (s' !! (d, BundleFileName))) = Ok saved)).
Proof.
  intros Hp Hy. unfold Save. cbv zeta. destruct (String.eqb (trimmed bundle) EmptyString).
  { cbn [run]. split; [done |]. split; [by left |]. intros saved H. discriminate H. }
  destruct (Seal _) as [sealed|err] eqn:Es; [| cbn [run]; split; [done |]; split; [by left |]; intros saved H; discriminate H].
  set (content := bundle_render _).
  assert (Hsafe : safe (only (bundle_scratch d) (d, BundleFileName) (Some (File content)) s)
    (okay (fun saved s' => saved = MkSavedBundle (trimmed bundle) (saved_stamp now) /\ s' !! (d, BundleFileName) = Some (File content)))
    (writeBundleFile d BundleFileName content ;! Ret (Ok (MkSavedBundle (trimmed bundle) (saved_stamp now)))) s).
  { eapply safe_then; [apply writeBundleFile_safe, bundle_name_not_scratch |]. intros u s1 H1 Hf. by apply safe_ret. }
  pose proof (safe_run _ _ _ events s Hsafe) as Hr. destruct (run events _ s) as [s' r]. destruct Hr as [[H1 H2] Hdone].
  split; [exact H1 |]. split; [destruct H2 as [H2|H2]; [by left | right; by exists sealed] |].
  intros saved Hsaved. destruct (Hdone _ Hsaved) as [-> Hf]. split; [reflexivity |]. exists sealed. split; [reflexivity |]. split; [exact Hf |].
  intros Hpre Hlen. rewrite Hf. by apply (load_saved Seal Unseal).
Qed.

Definition demo_dir : string := "C:\Program Files\HooshiXConnect".

Definition demo_seal (text : bytes) : result bytes := Ok (Byte.x01 :: text).
Definition demo_unseal (sealed : bytes) : result bytes := match sealed with _ :: text => Ok text | [] => Err (ErrMsg "not sealed here") end.

Lemma saved_bundle_whole_witness :
  exists s', run (repeat (smooth "1") 9) (Save demo_seal (InSettings demo_dir) BundleFileName 0 " hx1.abc") ∅ =
      (s', Some (Ok (MkSavedBundle "hx1.abc" "1970-01-01T00:00:00Z"))) /\
    Load demo_unseal (bundle_opened (s' !! (InSettings demo_dir, BundleFileName))) = Ok (MkSavedBundle "hx1.abc" "1970-01-01T00:00:00Z").
Proof.
  destruct (run (repeat (smooth "1") 9) (Save demo_seal (InSettings demo_dir) BundleFileName 0 " hx1.abc") ∅) as [s' r] eqn:E.
  assert (Er : r = Some (Ok (MkSavedBundle "hx1.abc" "1970-01-01T00:00:00Z"))) by (apply (f_equal snd) in E; symmetry in E; refine (eq_trans E _); vm_compute; reflexivity).
  subst r. exists s'. split; [reflexivity |].
  assert (Hp : protector_ok demo_seal demo_unseal) by (intros text sealed H; injection H as <-; split; [reflexivity | discriminate]).
  pose proof (saved_bundle_whole demo_seal demo_unseal (InSettings demo_dir) 0 " hx1.abc" (repeat (smooth "1") 9) ∅ Hp) as H.
  rewrite E in H. destruct H as (_ & _ & H); [split; vm_compute; [discriminate | reflexivity] |].
  destruct (H _ eq_refl) as (_ & sealed & Hs & _ & Hl). injection Hs as <-. apply Hl; vm_compute; [reflexivity | discriminate].
Defined.

(** A value that never was an invitation can be saved, but it is refused when
    it is read back. *)
Lemma saved_unloadable :
  exists s', run (repeat (smooth "1") 9) (Save demo_seal (InSettings demo_dir) BundleFileName 0 "abc") ∅ =
      (s', Some (Ok (MkSavedBundle "abc" "1970-01-01T00:00:00Z"))) /\
    is_ok (Load demo_unseal (bundle_opened (s' !! (InSettings demo_dir, BundleFileName)))) = false.
Proof. eexists. split; [reflexivity | vm_compute; reflexivity]. Qed.
