(* ===== verification/Entrances.v ===== *)
(** * Entrances: four ways in, one set of budgets

    A public HTTP request ({!Ingress}), a private Connector
    ([handleConnector] of [internal/gateway/connector.go]), a public TCP
    connection ([handleConnection] of [public_tcp.go]) and a public UDP flow
    ([serveFlow] of [public_udp.go]) take the same slots and the same keyed
    admissions, each in its own order and with its own guards.  Connectors are
    also counted per grant.  Taking and returning are two steps, and requests
    of all four kinds interleave. *)

From S2P Require Import Prelude GoText GoTime GoFloat GoNet Json Frame Contract Control ControlCodec ContractV2 Metadata.
From S2P Require Import ConnectorAuth Budget GwLimits Admission GwStream Wire SessTable GwSession SessAuth Registry Handshake HttpHeaders.
From S2P Require Import HttpBody Ingress PublicPorts AgentTarget AgentConfig ConnectorConfig.

Record entrances := MkEntrances {
  en_ingress : ingress;
  en_preAuth : KeyedTokenBuckets;
  en_flows : gmap string Z;            (* connectorFlows *)
  en_grants : gmap nat string;         (* the connectors in service, and their grants *)
}.

Definition new_entrances (lim : Limits) (preAuth : KeyedTokenBuckets) (now : instant) : entrances :=
  MkEntrances (new_ingress lim now) preAuth ∅ ∅.

Definition with_ingress (en : entrances) (g : ingress) : entrances := MkEntrances g (en_preAuth en) (en_flows en) (en_grants en).

(** ** Grants *)

Definition acquireConnectorGrant (flows : gmap string Z) (grantID : string) (limit : Z) : bool * gmap string Z :=
  let n := default 0 (flows !! grantID) in
  if limit <=? n then (false, flows) else (true, <[grantID := i64 (n + 1)]> flows).

Definition releaseConnectorGrant (flows : gmap string Z) (grantID : string) : gmap string Z :=
  let n := default 0 (flows !! grantID) in
  if n <=? 1 then delete grantID flows else <[grantID := i64 (n - 1)]> flows.

(** ** Budgets *)

Definition refuse_connector (reason : RejectReason) : Z * string :=
  match reason with
  | RejectedRate => (429, "connector rate limit exceeded")
  | _ => (503, "connector capacity reached")
  end.

(** The budgets of [handleConnector]; [None]: all were taken. *)
Definition connector_budgets (lim : Limits) (g : ingress) (conn : nat) (endpointID device : string) (now : instant)
  : option (Z * string) * ingress :=
  let '(routeAdmission, routes) := TryAcquire (ig_route g) endpointID now in
  if bool_decide (routeAdmission <> Accepted)
  then (Some (refuse_connector routeAdmission), set_admission g routes (ig_device g) (ig_rate g))
  else
    let '(deviceAdmission, devices) := TryAcquire (ig_device g) device now in
    if bool_decide (deviceAdmission <> Accepted)
    then (Some (refuse_connector deviceAdmission), set_admission g (give_back routes endpointID) devices (ig_rate g))
    else
      let '(allowed, rate) := Allow (ig_rate g) now in
      if negb allowed then
        (Some (429, "connector rate limit exceeded"),
         set_admission g (give_back routes endpointID) (give_back devices device) rate)
      else if MaxIngressInFlight lim <=? ig_slots g then
        (Some (503, "connector capacity reached"),
         MkIngress (give_back routes endpointID) (give_back devices device) rate (ig_slots g)
           (u64 (ig_rejects g + 1)) (ig_serving g))
      else
        (None, MkIngress routes devices rate (ig_slots g + 1) (ig_rejects g) (<[conn := (endpointID, device)]> (ig_serving g))).

(** Those of a public TCP connection or UDP flow, whose rate was checked before. *)
Definition flow_budgets (lim : Limits) (g : ingress) (conn : nat) (endpointID device : string) (now : instant) : bool * ingress :=
  let '(routeAdmission, routes) := TryAcquire (ig_route g) endpointID now in
  if bool_decide (routeAdmission <> Accepted) then (false, set_admission g routes (ig_device g) (ig_rate g))
  else
    let '(deviceAdmission, devices) := TryAcquire (ig_device g) device now in
    if bool_decide (deviceAdmission <> Accepted)
    then (false, set_admission g (give_back routes endpointID) devices (ig_rate g))
    else if MaxIngressInFlight lim <=? ig_slots g then
      (false, MkIngress (give_back routes endpointID) (give_back devices device) (ig_rate g) (ig_slots g)
                (u64 (ig_rejects g + 1)) (ig_serving g))
    else
      (true, MkIngress routes devices (ig_rate g) (ig_slots g + 1) (ig_rejects g) (<[conn := (endpointID, device)]> (ig_serving g))).

Definition count_ingress_reject (g : ingress) : ingress :=
  MkIngress (ig_route g) (ig_device g) (ig_rate g) (ig_slots g) (u64 (ig_rejects g + 1)) (ig_serving g).

Definition with_rate (g : ingress) (rate : TokenBucket) : ingress :=
  MkIngress (ig_route g) (ig_device g) rate (ig_slots g) (ig_rejects g) (ig_serving g).

(** From the grant on. *)
Definition connector_admit (lim : Limits) (en : entrances) (conn : nat) (grantID : string) (limit : Z)
    (endpointID device : string) (now : instant) : option (Z * string) * entrances :=
  let '(granted, flows) := acquireConnectorGrant (en_flows en) grantID limit in
  if negb granted then (Some (503, "connector capacity reached"), en)
  else
    match connector_budgets lim (en_ingress en) conn endpointID device now with
    | (Some refusal, g) => (Some refusal, MkEntrances g (en_preAuth en) (releaseConnectorGrant flows grantID) (en_grants en))
    | (None, g) => (None, MkEntrances g (en_preAuth en) flows (<[conn := grantID]> (en_grants en)))
    end.

(** The deferred releases; [None]: a panic. *)
Definition leave (en : entrances) (conn : nat) : option entrances :=
  match end_ingress (en_ingress en) conn with
  | None => None
  | Some g =>
    Some (match en_grants en !! conn with
          | Some grantID => MkEntrances g (en_preAuth en) (releaseConnectorGrant (en_flows en) grantID) (delete conn (en_grants en))
          | None => with_ingress en g
          end)
  end.

(** ** The handlers *)

Record connector_request := MkConnectorRequest {
  kq_method : string;
  kq_peer : string;                   (* peerAddress *)
  kq_grant : string;                  (* X-Hooshix-Grant-ID *)
  kq_token_id : string;               (* X-Hooshix-Token-ID *)
  kq_authorization : string;
  kq_protocol : string;               (* X-Hooshix-Protocol *)
}.

Inductive connector_answer :=
| ConnectorRefused (status : Z) (message : string)
| ConnectorServing (grant : ConnectorGrant) (endpoint : ServiceEndpoint) (sess : handle).

Definition protocol_mismatch (endpoint : ServiceEndpoint) (requested : string) : bool :=
  (String.eqb (se_protocol endpoint) "udp" && negb (String.eqb requested "udp")) ||
  (String.eqb (se_protocol endpoint) "tcp" && negb (String.eqb requested EmptyString) && negb (String.eqb requested "tcp")).

Section Handlers.
Context (Sum256 : bytes -> bytes) {M : Type} `{PrivateEndpointMetadata M}.
Context (who : handle -> entry) (halfClose : handle -> bool).

(** [metadata]: [None] when the source does not know private endpoints. *)
Definition handleConnector (lim : Limits) (metadata : option M) (m : moment) (r : registry) (en : entrances) (conn : nat)
    (q : connector_request) : connector_answer * entrances :=
  if negb (String.eqb (kq_method q) "GET") || rg_draining r then (ConnectorRefused 503 "connector unavailable", en)
  else
    let '(known, preAuth) := AllowKey (en_preAuth en) ("connector:" +:+ kq_peer q) (m_now m) in
    let en := MkEntrances (en_ingress en) preAuth (en_flows en) (en_grants en) in
    if negb known then (ConnectorRefused 429 "connector authorization failed", en)
    else
      match metadata with
      | None => (ConnectorRefused 503 "connector unavailable", en)
      | Some _ =>
        let '(token, ok) := bearerToken (kq_authorization q) in
        if negb ok then (ConnectorRefused 401 "connector authorization failed", en)
        else
          match authorizeConnector Sum256 metadata (kq_grant q) (kq_token_id q) token (m_now m) with
          | Err _ => (ConnectorRefused 401 "connector authorization failed", en)
          | Ok (grant, endpoint) =>
            if protocol_mismatch endpoint (kq_protocol q) then (ConnectorRefused 401 "connector authorization failed", en)
            else
              match sessionForDevice who m r (se_owner_device_id endpoint) with
              | None => (ConnectorRefused 503 "connector unavailable", en)
              | Some sess =>
                if String.eqb (se_protocol endpoint) "tcp" && negb (halfClose sess)
                then (ConnectorRefused 503 "connector unavailable", en)
                else
                  match connector_admit lim en conn (cg_grant_id grant) (cg_max_connections grant)
                          (se_endpoint_id endpoint) (se_owner_device_id endpoint) (m_now m) with
                  | (Some (status, message), en) => (ConnectorRefused status message, en)
                  | (None, en) => (ConnectorServing grant endpoint sess, en)
                  end
              end
          end
      end.

(** A connection or flow that holds its budgets looks for a tunnel, and
    returns them when there is none. *)
Definition find_tunnel (m : moment) (r : registry) (en : entrances) (conn : nat) (device : string) (needHalfClose : bool)
  : option handle * entrances :=
  match sessionForDevice who m r device with
  | Some sess =>
    if needHalfClose && negb (halfClose sess) then (None, default en (leave en conn)) else (Some sess, en)
  | None => (None, default en (leave en conn))
  end.

(** [handleConnection] up to the stream, from a peer at [remote]. *)
Definition handleConnection (lim : Limits) (m : moment) (r : registry) (en : entrances) (conn : nat)
    (endpoint : ServiceEndpoint) (cancelled : bool) (remote : string) : option handle * entrances :=
  if cancelled then (None, en)
  else
    match remoteIP remote with
    | None => (None, en)
    | Some ip =>
      if negb (sourceAllowed ip (se_allowed_source_cidrs endpoint)) || rg_draining r then (None, en)
      else
        let '(known, preAuth) := AllowKey (en_preAuth en) ("public-tcp:" +:+ IP_String ip) (m_now m) in
        let en := MkEntrances (en_ingress en) preAuth (en_flows en) (en_grants en) in
        if negb known then (None, with_ingress en (count_ingress_reject (en_ingress en)))
        else
          let '(allowed, rate) := Allow (ig_rate (en_ingress en)) (m_now m) in
          let en := with_ingress en (with_rate (en_ingress en) rate) in
          if negb allowed then (None, with_ingress en (count_ingress_reject (en_ingress en)))
          else
            match flow_budgets lim (en_ingress en) conn (se_endpoint_id endpoint) (se_owner_device_id endpoint) (m_now m) with
            | (false, g) => (None, with_ingress en g)
            | (true, g) => find_tunnel m r (with_ingress en g) conn (se_owner_device_id endpoint) true
            end
    end.

(** [serveFlow] up to the stream. *)
Definition serveFlow (lim : Limits) (m : moment) (r : registry) (en : entrances) (conn : nat) (endpoint : ServiceEndpoint)
  : option handle * entrances :=
  match flow_budgets lim (en_ingress en) conn (se_endpoint_id endpoint) (se_owner_device_id endpoint) (m_now m) with
  | (false, g) => (None, with_ingress en g)
  | (true, g) => find_tunnel m r (with_ingress en g) conn (se_owner_device_id endpoint) false
  end.
End Handlers.

(** All of it, in any order. *)
Inductive entrance_step (lim : Limits) : entrances -> entrances -> Prop :=
| en_http en conn route sess now : ig_serving (en_ingress en) !! conn = None ->
    entrance_step lim en (with_ingress en (take_budgets lim (en_ingress en) conn route sess now).2)
| en_connector en conn grantID limit endpointID device now :
    ig_serving (en_ingress en) !! conn = None -> 1 <= limit <= MaxConnectorGrantConnections ->
    entrance_step lim en (connector_admit lim en conn grantID limit endpointID device now).2
| en_tcp who halfClose m r en conn endpoint cancelled remote : ig_serving (en_ingress en) !! conn = None ->
    entrance_step lim en (handleConnection who halfClose lim m r en conn endpoint cancelled remote).2
| en_udp who halfClose m r en conn endpoint : ig_serving (en_ingress en) !! conn = None ->
    entrance_step lim en (serveFlow who halfClose lim m r en conn endpoint).2
| en_preauth en preAuth rejects rate : entrance_step lim en
    (MkEntrances (MkIngress (ig_route (en_ingress en)) (ig_device (en_ingress en)) rate (ig_slots (en_ingress en)) rejects
       (ig_serving (en_ingress en))) preAuth (en_flows en) (en_grants en))
| en_leave en conn en' : leave en conn = Some en' -> entrance_step lim en en'.

(** ** Accounting *)

Definition grant_holders (en : entrances) (grantID : string) : nat := count_if (fun g : string => g = grantID) (en_grants en).

Record entrances_ok (lim : Limits) (en : entrances) : Prop := EntrancesOk {
  eo_ingress : ingress_ok lim (en_ingress en);
  eo_flows : forall g, default 0 (en_flows en !! g) = Z.of_nat (grant_holders en g);
  eo_present : forall g n, en_flows en !! g = Some n -> 0 < n <= MaxConnectorGrantConnections;
  eo_serving : forall conn, is_Some (en_grants en !! conn) -> is_Some (ig_serving (en_ingress en) !! conn);
}.

(** The connector's budgets move the ingress as those of an HTTP request for
    the same route and device. *)
Lemma connector_budgets_as_http lim g conn route sess now :
  let '(r, g') := connector_budgets lim g conn (ra_assignment_id route) (ra_device_id route) now in
  g' = (take_budgets lim g conn route sess now).2 /\
  (r = None <-> (take_budgets lim g conn route sess now).1 = Serving route sess).
Proof.
  unfold connector_budgets, take_budgets. destruct (TryAcquire (ig_route g) _ now) as [ra routes].
  case_bool_decide; [by destruct ra |]. destruct (TryAcquire (ig_device g) _ now) as [da devices].
  case_bool_decide; [by destruct da |]. destruct (Allow (ig_rate g) now) as [allowed rate]. destruct allowed; [| done].
  cbn [negb]. by destruct (_ <=? _).
Qed.

(** What taking the budgets of a flow does to the ingress: nothing, or the
    connection is served. *)
Definition took (lim : Limits) (g g' : ingress) (conn : nat) (route device : string) (served : bool) : Prop :=
  ingress_ok lim g' /\
  ig_serving g' = (if served then <[conn := (route, device)]> (ig_serving g) else ig_serving g).

Lemma connector_budgets_took lim g conn route device now :
  ingress_ok lim g -> ig_serving g !! conn = None ->
  let '(r, g') := connector_budgets lim g conn route device now in
  took lim g g' conn route device (match r with None => true | Some _ => false end).
Proof.
  intros Hg Hc. set (x := MkRoute 1 route EmptyString EmptyString device EmptyString true EmptyString EmptyString).
  pose proof (connector_budgets_as_http lim g conn x 0%nat now) as Hx. change (ra_assignment_id x) with route in Hx.
  change (ra_device_id x) with device in Hx. destruct (connector_budgets _ _ _ _ _ _) as [r g']. destruct Hx as [-> Hr].
  pose proof (take_budgets_ok lim g conn x 0%nat now Hg Hc) as Ht. destruct (take_budgets _ _ _ _ _ _) as [out g']. cbn [fst snd] in *.
  destruct Ht as [Hok Hout]. split; [exact Hok |]. destruct r as [p|].
  - destruct out; [apply Hout |]. destruct Hout as (-> & -> & _). discriminate (proj2 Hr eq_refl).
  - rewrite (proj1 Hr eq_refl) in Hout. apply Hout.
Qed.

Lemma flow_budgets_took lim g conn route device now :
  ingress_ok lim g -> ig_serving g !! conn = None ->
  let '(r, g') := flow_budgets lim g conn route device now in took lim g g' conn route device r.
Proof.
  intros Hg Hc. pose proof Hg as [_ _ Hr Hd]. unfold flow_budgets, set_admission, took.
  destruct (TryAcquire (ig_route g) _ now) as [ra routes] eqn:Er. case_bool_decide as Hra.
  { pose proof (tracks_refused _ _ _ _ _ _ _ Hr Er Hra). split; [by apply refused_ok | done]. }
  assert (ra = Accepted) as -> by (by destruct (decide (ra = Accepted))).
  destruct (give_back_held _ _ _ _ _ _ Hr Er) as [_ Hgr].
  destruct (TryAcquire (ig_device g) _ now) as [da devices] eqn:Ed. case_bool_decide as Hda.
  { pose proof (tracks_refused _ _ _ _ _ _ _ Hd Ed Hda). split; [by apply refused_ok | done]. }
  assert (da = Accepted) as -> by (by destruct (decide (da = Accepted))).
  destruct (give_back_held _ _ _ _ _ _ Hd Ed) as [_ Hgd].
  destruct (_ <=? _) eqn:Ef; [split; [by apply refused_ok | done] |]. bool_facts.
  split; [| done]. by apply (serve_ok lim g conn _ _ _ _ _ _ now).
Qed.

Lemma grants_free lim en conn : entrances_ok lim en -> ig_serving (en_ingress en) !! conn = None -> en_grants en !! conn = None.
Proof.
  intros Hen Hc. destruct (en_grants en !! conn) eqn:E; [| done].
  destruct (eo_serving _ _ Hen conn) as [x Hx]; [by eexists | congruence].
Qed.

(** A change of the ingress alone that keeps or serves one more. *)
Lemma with_ingress_ok lim en g : entrances_ok lim en -> ingress_ok lim g ->
  (forall conn, is_Some (ig_serving (en_ingress en) !! conn) -> is_Some (ig_serving g !! conn)) ->
  entrances_ok lim (with_ingress en g).
Proof. intros [Hi Hf Hp Hs] Hg Hv. split; try done. intros conn Hc. by apply Hv, Hs. Qed.

Lemma took_ok lim en g conn route device served :
  entrances_ok lim en -> took lim (en_ingress en) g conn route device served -> entrances_ok lim (with_ingress en g).
Proof.
  intros Hen [Hg Hv]. apply with_ingress_ok; [done | done |]. intros c Hc. rewrite Hv. destruct served; [| done].
  by apply lookup_insert_is_Some'; right.
Qed.

Lemma acquire_spec flows g limit :
  1 <= limit <= MaxConnectorGrantConnections -> (forall g n, flows !! g = Some n -> 0 < n <= MaxConnectorGrantConnections) ->
  let '(granted, flows') := acquireConnectorGrant flows g limit in
  if granted then default 0 (flows !! g) < limit /\ flows' = <[g := default 0 (flows !! g) + 1]> flows else flows' = flows.
Proof.
  intros Hl Hp. unfold acquireConnectorGrant. destruct (_ <=? _) eqn:E; [done |]. bool_facts.
  assert (0 <= default 0 (flows !! g)) by (destruct (flows !! g) eqn:Ef; cbn; [apply Hp in Ef; lia | lia]).
  rewrite i64_id; [done |]. unfold is_i64, MaxConnectorGrantConnections in *. lia.
Qed.

Lemma release_spec flows g n :
  flows !! g = Some n -> 0 < n <= MaxConnectorGrantConnections ->
  releaseConnectorGrant flows g = (if decide (n = 1) then delete g flows else <[g := n - 1]> flows).
Proof.
  intros Hf Hn. unfold releaseConnectorGrant. rewrite Hf. cbn [default from_option id]. destruct (decide _) as [-> |Hne]; [done |].
  rewrite (proj2 (Z.leb_gt _ _)) by lia. rewrite i64_id; [done |]. unfold is_i64, MaxConnectorGrantConnections in *. lia.
Qed.

(** A grant acquired and released again. *)
Lemma acquire_release flows g limit flows' :
  1 <= limit <= MaxConnectorGrantConnections -> (forall g n, flows !! g = Some n -> 0 < n <= MaxConnectorGrantConnections) ->
  acquireConnectorGrant flows g limit = (true, flows') -> releaseConnectorGrant flows' g = flows.
Proof.
  intros Hl Hp E. pose proof (acquire_spec flows g limit Hl Hp) as Ha. rewrite E in Ha. destruct Ha as [Hlt ->].
  destruct (flows !! g) as [n|] eqn:Ef; cbn in *.
  - pose proof (Hp _ _ Ef). rewrite (release_spec _ g (n + 1)); [| by rewrite lookup_insert_eq | lia].
    rewrite decide_False by lia. rewrite insert_insert_eq. replace (n + 1 - 1) with n by lia. by apply insert_id.
  - rewrite (release_spec _ g 1); [| by rewrite lookup_insert_eq | unfold MaxConnectorGrantConnections; lia].
    rewrite decide_True by done. by rewrite delete_insert_id.
Qed.

Lemma connector_admit_ok lim en conn g limit e d now :
  entrances_ok lim en -> ig_serving (en_ingress en) !! conn = None -> 1 <= limit <= MaxConnectorGrantConnections ->
  let '(r, en') := connector_admit lim en conn g limit e d now in
  entrances_ok lim en' /\
  match r with
  | Some _ => en_flows en' = en_flows en /\ en_grants en' = en_grants en /\ ig_serving (en_ingress en') = ig_serving (en_ingress en)
  | None => Z.of_nat (grant_holders en g) < limit /\ en_grants en' = <[conn := g]> (en_grants en) /\
            ig_serving (en_ingress en') = <[conn := (e, d)]> (ig_serving (en_ingress en))
  end.
Proof.
  intros Hen Hc Hl. pose proof Hen as [Hi Hf Hp Hs]. pose proof (grants_free _ _ _ Hen Hc) as Hgc. unfold connector_admit.
  pose proof (acquire_spec (en_flows en) g limit Hl Hp) as Ha. destruct (acquireConnectorGrant _ _ _) as [granted flows] eqn:Eg.
  destruct granted; [| by (split; [| split_and!])]. destruct Ha as [Hlt Hfl]. cbn [negb].
  pose proof (connector_budgets_took lim (en_ingress en) conn e d now Hi Hc) as Ht.
  destruct (connector_budgets _ _ _ _ _ _) as [[[st msg]|] g']; destruct Ht as [Hg' Hv].
  - rewrite (acquire_release _ _ _ _ Hl Hp Eg). split; [| by cbn; split_and!]. split; cbn; try done. by rewrite Hv.
  - split; [| cbn; split_and!; [by rewrite <- Hf | done | done]]. subst flows. split; cbn; [done | | |].
    + intros k. unfold grant_holders. cbn. rewrite count_insert by done. specialize (Hf k). unfold grant_holders in Hf.
      destruct (decide (k = g)) as [->|Hne].
      * rewrite lookup_insert_eq, decide_True by done. cbn. lia.
      * rewrite lookup_insert_ne by done. rewrite decide_False by done. lia.
    + intros k n. destruct (decide (k = g)) as [->|Hne]; [| rewrite lookup_insert_ne by done; apply Hp].
      rewrite lookup_insert_eq. intros [= <-]. specialize (Hf g). lia.
    + intros c. rewrite Hv. destruct (decide (c = conn)) as [->|Hne]; [rewrite !lookup_insert_eq; by eexists |].
      rewrite !lookup_insert_ne by done. apply Hs.
Qed.

Lemma entrance_leave_ok lim en conn :
  entrances_ok lim en -> is_Some (ig_serving (en_ingress en) !! conn) ->
  exists en', leave en conn = Some en' /\ entrances_ok lim en' /\
    ig_serving (en_ingress en') = delete conn (ig_serving (en_ingress en)) /\ en_grants en' = delete conn (en_grants en).
Proof.
  intros [Hi Hf Hp Hs] [[a d] Hc]. destruct (end_ingress_ok _ _ _ _ _ Hi Hc) as (g' & E & Hg & Hv). unfold leave. rewrite E.
  assert (Hserve : forall c, is_Some (delete conn (en_grants en) !! c) -> is_Some (ig_serving g' !! c)).
  { intros c [x [Hne Hx]%lookup_delete_Some]. rewrite Hv, lookup_delete_ne by done. apply Hs. by eexists. }
  destruct (en_grants en !! conn) as [g|] eqn:Eg.
  - eexists. split; [reflexivity |]. split; [| by split]. pose proof (Hf g) as Hg0.
    pose proof (count_pos (fun x : string => x = g) _ _ _ Eg eq_refl) as Hpos. unfold grant_holders in Hg0.
    destruct (en_flows en !! g) as [n|] eqn:Ef; [| cbn in Hg0; lia]. cbn in Hg0. pose proof (Hp _ _ Ef) as Hn.
    rewrite (release_spec _ _ _ Ef Hn). split; cbn [en_ingress en_flows en_grants]; try done.
    + intros k. unfold grant_holders. cbn [en_grants]. pose proof (count_delete (fun x : string => x = k) _ _ _ Eg) as Hcd.
      specialize (Hf k). unfold grant_holders in Hf. destruct (decide (k = g)) as [->|Hne].
      * rewrite decide_True in Hcd by done. destruct (decide (n = 1)); [rewrite lookup_delete_eq | rewrite lookup_insert_eq]; cbn; lia.
      * rewrite decide_False in Hcd by done. destruct (decide (n = 1)); [rewrite lookup_delete_ne by done | rewrite lookup_insert_ne by done]; lia.
    + intros k m. destruct (decide (n = 1)) as [_|Hne1].
      * intros [_ Hk]%lookup_delete_Some. by eapply Hp.
      * intros [[<- <-]|[_ Hk]]%lookup_insert_Some; [lia | by eapply Hp].
  - assert (Hd : delete conn (en_grants en) = en_grants en) by (by apply delete_id). rewrite Hd in Hserve.
    eexists. split; [reflexivity |]. split; [| by split]. by split.
Qed.

Lemma find_tunnel_ok who halfClose lim m r en conn device need :
  entrances_ok lim en -> is_Some (ig_serving (en_ingress en) !! conn) ->
  entrances_ok lim (find_tunnel who halfClose m r en conn device need).2.
Proof.
  intros Hen Hc. destruct (entrance_leave_ok lim en conn Hen Hc) as (en' & E & Hok & _). unfold find_tunnel. rewrite E. cbn [default from_option].
  destruct (sessionForDevice _ _ _ _); [| done]. by destruct (_ && _).
Qed.

Lemma flow_admit_ok who halfClose lim m r en conn e d need :
  entrances_ok lim en -> ig_serving (en_ingress en) !! conn = None ->
  entrances_ok lim (match flow_budgets lim (en_ingress en) conn e d (m_now m) with
    | (false, g) => (None, with_ingress en g)
    | (true, g) => find_tunnel who halfClose m r (with_ingress en g) conn d need
    end).2.
Proof.
  intros Hen Hc. pose proof (flow_budgets_took lim (en_ingress en) conn e d (m_now m) (eo_ingress _ _ Hen) Hc) as Ht.
  destruct (flow_budgets _ _ _ _ _ _) as [served g]. pose proof (took_ok _ _ _ _ _ _ _ Hen Ht) as Hok.
  destruct served; [| exact Hok]. apply find_tunnel_ok; [exact Hok |]. cbn. rewrite (proj2 Ht), lookup_insert_eq. by eexists.
Qed.

Lemma same_serving_ok lim en g preAuth :
  entrances_ok lim en -> ig_route g = ig_route (en_ingress en) -> ig_device g = ig_device (en_ingress en) ->
  ig_slots g = ig_slots (en_ingress en) -> ig_serving g = ig_serving (en_ingress en) ->
  entrances_ok lim (MkEntrances g preAuth (en_flows en) (en_grants en)).
Proof.
  intros [[H1 H2 H3 H4] Hf Hp Hs] E1 E2 E3 E4. split; try done; cbn; [| by rewrite E4].
  unfold routes_served, devices_served in *. split; unfold routes_served, devices_served; rewrite ?E1, ?E2, ?E3, ?E4; done.
Qed.

Lemma entrance_step_ok lim en en' : entrances_ok lim en -> entrance_step lim en en' -> entrances_ok lim en'.
Proof.
  intros Hen Hstep. destruct Hstep.
  - pose proof (take_budgets_ok lim (en_ingress en) conn route sess now (eo_ingress _ _ Hen) H) as Ht.
    destruct (take_budgets _ _ _ _ _ _) as [out g']. destruct Ht as [Hg Hout]. apply with_ingress_ok; [done | done |].
    intros c Hc. cbn [snd]. destruct out; [by destruct Hout as [-> _] |]. destruct Hout as (_ & _ & ->).
    by apply lookup_insert_is_Some'; right.
  - pose proof (connector_admit_ok lim en conn grantID limit endpointID device now Hen H H0) as Ht.
    destruct (connector_admit _ _ _ _ _ _ _ _). apply Ht.
  - unfold handleConnection. destruct cancelled; [done |]. destruct (remoteIP remote) as [ip|]; [| done].
    destruct (_ || _); [done |]. destruct (AllowKey _ _ _) as [known preAuth].
    destruct known; [| by apply (same_serving_ok lim en (count_ingress_reject (en_ingress en)) preAuth)]. cbn [negb en_ingress]. destruct (Allow _ _) as [allowed rate].
    destruct allowed; [| by apply (same_serving_ok lim en (count_ingress_reject (with_rate (en_ingress en) rate)) preAuth)].
    cbn [negb].
    apply (flow_admit_ok who halfClose lim m r (with_ingress (MkEntrances (en_ingress en) preAuth (en_flows en) (en_grants en))
      (with_rate (en_ingress en) rate)) conn);
      [by apply (same_serving_ok lim en (with_rate (en_ingress en) rate) preAuth) | done].
  - by apply flow_admit_ok.
  - by apply same_serving_ok.
  - destruct (ig_serving (en_ingress en) !! conn) as [x|] eqn:Ec.
    + destruct (entrance_leave_ok lim en conn Hen) as (en2 & E2 & Hok & _); [by eexists | congruence].
    + unfold leave, end_ingress in H. by rewrite Ec in H.
Qed.

Lemma new_entrances_ok lim preAuth now : 0 < MaxIngressInFlight lim < 2 ^ 61 -> entrances_ok lim (new_entrances lim preAuth now).
Proof. intros Hl. split; [by apply new_ingress_ok | done | done | by intros conn [x Hx]]. Qed.

(** C5: The four kinds of public and private traffic share one set of budgets and none can starve the accounting of another: however HTTP requests, connectors, public TCP connections and UDP flows interleave, together they hold at most MaxIngressInFlight slots, one each; the two keyed admissions count for every route and endpoint and for every device exactly the traffic served for it; connectorFlows counts for every grant exactly the connectors in service, never more than 16, and has no entry for the others; a connector is admitted only below its grant's limit, and refused keeps nothing; and whatever is served can always be ended, its releases never panicking. *)
Theorem entrances_share_budgets lim preAuth now en :
  0 < MaxIngressInFlight lim < 2 ^ 61 -> steps (entrance_step lim) (new_entrances lim preAuth now) en ->
  let g := en_ingress en in
  ig_slots g = Z.of_nat (size (ig_serving g)) /\ ig_slots g <= MaxIngressInFlight lim /\
  (forall a, InFlight (ig_route g) a = Z.of_nat (routes_served g a)) /\
  (forall d, InFlight (ig_device g) d = Z.of_nat (devices_served g d)) /\
  (forall grantID, default 0 (en_flows en !! grantID) = Z.of_nat (grant_holders en grantID) /\
     Z.of_nat (grant_holders en grantID) <= 16 /\ (grant_holders en grantID = 0%nat <-> en_flows en !! grantID = None)) /\
  (forall conn grantID limit e d t, ig_serving g !! conn = None -> 1 <= limit <= 16 ->
     let '(r, en') := connector_admit lim en conn grantID limit e d t in
     match r with
     | None => Z.of_nat (grant_holders en grantID) < limit /\ grant_holders en' grantID = S (grant_holders en grantID)
     | Some _ => en_flows en' = en_flows en /\ en_grants en' = en_grants en /\ ig_serving (en_ingress en') = ig_serving g
     end) /\
  (forall conn, is_Some (ig_serving g !! conn) -> exists en', leave en conn = Some en').
Proof.
  intros Hl Hs g. assert (Hen : entrances_ok lim en)
    by (revert Hs; apply steps_invariant; [by apply new_entrances_ok | intros a b; apply entrance_step_ok]).
  pose proof Hen as [[H1 H2 (_ & _ & H3) (_ & _ & H4)] Hf Hp Hv]. do 4 (split; [done |]). split; [| split].
  - intros k. specialize (Hf k). destruct (en_flows en !! k) as [n|] eqn:E; cbn in Hf.
    + apply Hp in E. unfold MaxConnectorGrantConnections in E. split; [done |]. split; [lia |]. split; [lia | done].
    + split; [done |]. split; [lia |]. split; [done | lia].
  - intros conn k limit e d t Hc Hlim. pose proof (connector_admit_ok lim en conn k limit e d t Hen Hc Hlim) as Ht.
    destruct (connector_admit _ _ _ _ _ _ _ _) as [[p|] en']; [apply Ht |]. destruct Ht as (_ & Hlt & Hg & _).
    split; [done |]. pose proof (grants_free _ _ _ Hen Hc) as Hfree.
    unfold grant_holders. rewrite Hg, count_insert, decide_True by done. lia.
  - intros conn Hc. destruct (entrance_leave_ok lim en conn Hen Hc) as (en' & E & _). by exists en'.
Qed.

(** C6: A private flow is carried into a tunnel only on authority: the request is a GET to a Gateway that does not drain, its bearer token unlocks a published, enabled and currently valid grant of the id and token id it presents, the grant names a published, enabled TCP or UDP endpoint, private or both, whose owner is not revoked, the protocol it asks for is the endpoint's, and the tunnel is a registered session of that owner which at that moment holds its authorization and has not expired (and can half-close, for TCP); with it the grant has no more flows than its own limit. *)
Theorem connector_on_authority Sum256 docs md who halfClose lim m r en conn q grant endpoint h en' :
  (forall b, zlen (Sum256 b) = 32) -> add_records NewSnapshotMetadata docs = (Ok tt, md) ->
  0 <= MaxAgentSessions lim -> steps (registry_step who lim) emptyRegistry r ->
  entrances_ok lim en -> ig_serving (en_ingress en) !! conn = None ->
  handleConnector Sum256 who halfClose lim (Some md) m r en conn q = (ConnectorServing grant endpoint h, en') ->
  kq_method q = "GET" /\ rg_draining r = false /\
  (exists token, kq_authorization q = "Bearer " +:+ token /\ unlocks Sum256 token grant) /\
  active_grant docs (kq_grant q) (m_now m) grant /\ cg_token_id grant = kq_token_id q /\
  active_endpoint docs (cg_endpoint_id grant) (m_now m) endpoint /\ stream_endpoint endpoint /\
  (kq_protocol q = se_protocol endpoint \/ kq_protocol q = EmptyString /\ se_protocol endpoint = "tcp") /\
  registered who r (se_owner_device_id endpoint) h /\ e_device (who h) = se_owner_device_id endpoint /\
  m_authorized m h = true /\ (e_expiresAt (who h) = zero_time \/ m_now m < e_expiresAt (who h)) /\
  (se_protocol endpoint = "tcp" -> halfClose h = true) /\
  Z.of_nat (grant_holders en' (cg_grant_id grant)) <= cg_max_connections grant.
Proof.
  intros Hlen Hd Hlim Hr Hen Hc Hh. apply loaded_reflects in Hd. unfold handleConnector in Hh.
  destruct (negb (String.eqb (kq_method q) "GET") || rg_draining r) eqn:Eg; [done |]. bool_facts.
  destruct (AllowKey _ _ _) as [known preAuth]. destruct known; [| done]. cbn [negb] in Hh.
  destruct (bearerToken _) as [token ok] eqn:Eb. destruct ok; [| done]. cbn [negb] in Hh.
  destruct (authorizeConnector _ _ _ _ _ _) as [[g e]|] eqn:Ea; [| done].
  destruct (protocol_mismatch e _) eqn:Ep; [done |].
  destruct (sessionForDevice _ _ _ _) as [sess|] eqn:Es; [| done].
  destruct (String.eqb (se_protocol e) "tcp" && negb (halfClose sess)) eqn:Ehc; [done |].
  pose proof Ea as (Hgr & Htok & Hun & Hep & Hst)%(authorizeConnector_Ok _ _ _ _ _ _ _ _ Hlen). simpl in Hgr, Hep.
  apply (ConnectorGrant_at_iff _ _ _ _ _ Hd) in Hgr. apply (ServiceEndpoint_at_iff _ _ _ _ _ Hd) in Hep.
  assert (Hwf : 1 <= cg_max_connections g <= MaxConnectorGrantConnections).
  { destruct Hgr as [Hpub _]. apply published_grant_wf in Hpub. apply Hpub. }
  set (en0 := MkEntrances (en_ingress en) preAuth (en_flows en) (en_grants en)) in Hh.
  assert (Hen0 : entrances_ok lim en0) by (by apply same_serving_ok).
  pose proof (connector_admit_ok lim en0 conn (cg_grant_id g) (cg_max_connections g) (se_endpoint_id e)
    (se_owner_device_id e) (m_now m) Hen0 Hc Hwf) as Ht.
  destruct (connector_admit _ _ _ _ _ _ _ _) as [[[st msg]|] en2]; [done |]. injection Hh as <- <- <- <-.
  destruct Ht as (_ & Hlt & Hgrants & _). pose proof (session_found who lim m r _ _ Hlim Hr Es) as (? & ? & ? & ?).
  do 2 (split; [done |]). split.
  { exists token. split; [| exact Hun]. unfold bearerToken in Eb. destruct (strip_prefix _ _) as [rest|] eqn:E; [| done].
    injection Eb as <- _. apply strip_prefix_Some in E. apply bytes_of_inj. by rewrite E, bytes_of_app, bytes_of_string_of. }
  do 4 (split; [done |]). split.
  { destruct Hst as [Hproto _]. rewrite !elem_of_cons, elem_of_nil in Hproto. unfold protocol_mismatch in Ep.
    apply orb_false_iff in Ep as [E1 E2]. destruct Hproto as [Hp|[Hp|[]]]; rewrite Hp in *; cbn in E1, E2.
    - apply andb_false_iff in E2. rewrite !negb_false_iff, !String.eqb_eq in E2. tauto.
    - apply negb_false_iff, String.eqb_eq in E1. by left. }
  do 4 (split; [done |]). split.
  { intros Hp. rewrite Hp in Ehc. cbn in Ehc. by apply negb_false_iff in Ehc. }
  pose proof (grants_free _ _ _ Hen0 Hc) as Hfree. unfold grant_holders in *.
  rewrite Hgrants, count_insert, decide_True by done. lia.
Qed.

(** ** Concrete traffic *)

Definition demo_entrances : entrances := new_entrances DefaultLimits (NewKeyedTokenBuckets 10 10) 0.

Lemma entrances_share_budgets_witness :
  let en := (connector_admit DefaultLimits demo_entrances 1 "grant-1" 4 "ep-1" "dev-1" 0).2 in
  grant_holders en "grant-1" = 1%nat /\ ig_slots (en_ingress en) = Z.of_nat (size (ig_serving (en_ingress en))).
Proof.
  intros en. split; [vm_compute; reflexivity |].
  apply (entrances_share_budgets DefaultLimits (NewKeyedTokenBuckets 10 10) 0 en); [vm_compute; split; [reflexivity | reflexivity] |].
  eapply steps_snoc; [apply steps_refl | apply en_connector; [reflexivity | unfold MaxConnectorGrantConnections; lia]].
Defined.

Definition demo_connector_docs : list (category * bytes) :=
  [(CatServiceEndpoints, demo_endpoint_json); (CatConnectorGrants, demo_grant_json)].

Definition demo_connector_request : connector_request :=
  MkConnectorRequest "GET" "192.0.2.7" "grant-1" "tok-1" "Bearer 0123456789abcdef0123456789abcdef" EmptyString.

Definition demo_tunnel (_ : handle) : entry := MkEntry "dev-1" "s-1" zero_time.
Definition demo_january : moment := MkMoment (fun _ => 0) (fun _ => true) (time_of "2026-01-15T00:00:00Z").
Definition demo_tunnels : registry := (registerSession demo_tunnel DefaultLimits demo_january emptyRegistry 1).1.2.

Lemma demo_tunnels_reach : steps (registry_step demo_tunnel DefaultLimits) emptyRegistry demo_tunnels.
Proof. eapply steps_snoc; [apply steps_refl | apply r_register]. Qed.

Lemma connector_on_authority_witness :
  exists md en' grant endpoint h, add_records NewSnapshotMetadata demo_connector_docs = (Ok tt, md) /\
    handleConnector demo_sum demo_tunnel (fun _ => true) DefaultLimits (Some md) demo_january demo_tunnels demo_entrances 1
      demo_connector_request = (ConnectorServing grant endpoint h, en') /\
    active_grant demo_connector_docs "grant-1" (m_now demo_january) grant /\
    Z.of_nat (grant_holders en' (cg_grant_id grant)) <= cg_max_connections grant.
Proof.
  destruct (add_records NewSnapshotMetadata demo_connector_docs) as [[[]|er] md] eqn:E; [| vm_compute in E; discriminate].
  destruct (handleConnector demo_sum demo_tunnel (fun _ => true) DefaultLimits (Some md) demo_january demo_tunnels demo_entrances 1
    demo_connector_request) as [out en'] eqn:Eh.
  assert (Ho : match out with ConnectorServing _ _ _ => true | _ => false end = true).
  { apply (f_equal (fun x => match x.1 with ConnectorServing _ _ _ => true | _ => false end)) in Eh. cbn [fst] in Eh. rewrite <- Eh.
    assert (Em : md = (add_records NewSnapshotMetadata demo_connector_docs).2) by (by rewrite E). rewrite Em. vm_compute. reflexivity. }
  destruct out as [st msg|grant endpoint h]; [discriminate Ho |]. exists md, en', grant, endpoint, h.
  split; [reflexivity |]. split; [exact Eh |].
  assert (Hlen : forall b, zlen (demo_sum b) = 32) by (intros b; reflexivity).
  assert (Hen : entrances_ok DefaultLimits demo_entrances) by (apply new_entrances_ok; vm_compute; split; reflexivity).
  destruct (connector_on_authority demo_sum demo_connector_docs md demo_tunnel (fun _ => true) DefaultLimits demo_january demo_tunnels
    demo_entrances 1 demo_connector_request grant endpoint h en' Hlen E ltac:(vm_compute; discriminate) demo_tunnels_reach Hen eq_refl Eh)
    as (_ & _ & _ & Hg & _ & _ & _ & _ & _ & _ & _ & _ & _ & Hn).
  split; [exact Hg | exact Hn].
Defined.
