(* ===== verification/ConnectorEnd.v ===== *)
(** * ConnectorEnd: how a private flow ends at the Gateway

    The last part of [handleConnector] of [internal/gateway/connector.go]: the
    once-a-second check that cuts an open flow off when its grant or endpoint
    is no longer what it was ([monitorConnectorAuthorization]), the error a flow
    is said to have ended with, and what is left of its stream.  The ticker and
    what the metadata hold at each tick are the list of ticks; an absent and an
    empty list of source networks are not told apart. *)

From S2P Require Import Prelude GoText GoTime Json StrictJson Frame Contract Control ControlCodec ContractV2 Metadata ConnectorAuth.
From S2P Require Import Window Budget GwLimits GwStream Wire SessTable GwSession.

(** ** The monitor *)

Section Monitor.
Context (Sum256 : bytes -> bytes) {M : Type} `{PrivateEndpointMetadata M}.
Context (grant : ConnectorGrant) (endpoint : ServiceEndpoint) (token : string).

(** One tick: whether the flow goes on. *)
Definition still_authorized (metadata : M) (at_ : instant) : bool :=
  match authorizeConnector Sum256 (Some metadata) (cg_grant_id grant) (cg_token_id grant) token at_ with
  | Err _ => false
  | Ok (currentGrant, currentEndpoint) => bool_decide (currentGrant = grant) && bool_decide (currentEndpoint = endpoint)
  end.

(** The ticks while the context is not done, each with what the metadata
    answer then: how many passed, and whether the last one cut the flow off. *)
Fixpoint monitorConnectorAuthorization (ticks : list (instant * M)) : nat * bool :=
  match ticks with
  | [] => (0%nat, false)
  | (at_, metadata) :: rest =>
    if still_authorized metadata at_
    then let '(n, cut) := monitorConnectorAuthorization rest in (S n, cut)
    else (0%nat, true)
  end.

Lemma monitor_passed ticks : forall n cut,
  monitorConnectorAuthorization ticks = (n, cut) ->
  Forall (fun t => still_authorized t.2 t.1 = true) (firstn n ticks) /\
  (if cut then exists at_ metadata, ticks !! n = Some (at_, metadata) /\ still_authorized metadata at_ = false else n = length ticks).
Proof.
  induction ticks as [|[at_ metadata] ticks IH]; intros n cut; cbn [monitorConnectorAuthorization]; [by intros [= <- <-] |].
  destruct (still_authorized metadata at_) eqn:E; [| intros [= <- <-]; split; [done |]; by exists at_, metadata].
  destruct (monitorConnectorAuthorization ticks) as [m c]. intros [= <- <-]. destruct (IH m c eq_refl) as [Hf Hc].
  split; [by constructor |]. destruct c; [exact Hc | cbn; by rewrite Hc].
Qed.

Lemma still_authorized_iff metadata at_ :
  (forall b, zlen (Sum256 b) = 32) ->
  still_authorized metadata at_ = true <->
  pem_ConnectorGrant metadata (cg_grant_id grant) at_ = Ok grant /\ unlocks Sum256 token grant /\
  pem_ServiceEndpoint metadata (cg_endpoint_id grant) at_ = Ok endpoint /\ stream_endpoint endpoint.
Proof.
  intros Hlen. unfold still_authorized.
  destruct (authorizeConnector Sum256 (Some metadata) _ _ token at_) as [[g e]|err] eqn:E.
  - apply authorizeConnector_Ok in E as (Hg & Ht & Hu & He & Hs); [| done].
    rewrite andb_true_iff, !bool_decide_eq_true. split; [intros [-> ->]; done |].
    intros (Hg' & Hu' & He' & Hs'). assert (g = grant) as -> by congruence. split; [done | congruence].
  - split; [discriminate |]. intros (Hg & Hu & He & Hs).
    assert (Ok (grant, endpoint) = Err err) as [=]. rewrite <- E. symmetry. by apply authorizeConnector_Ok.
Qed.
End Monitor.

(** ** The end of the flow *)


(** [websocket.CloseStatus] and [websocket.StatusNormalClosure]. *)
Section Cause.
Context (CloseStatus : error -> Z).

Definition firstConnectorError (readErr writeErr : option error) : option error :=
  match readErr with Some _ => readErr | None => writeErr end.

Definition endedNormally (cause : option error) : bool :=
  match cause with
  | None => true
  | Some err => errors_is err io_EOF || errors_is err context_Canceled || (CloseStatus err =? 1000)
  end.

(** The cause of a TCP flow; [written]: what the writer returned, [None] when
    it was still open after the idle timeout (which only a reader that ended
    well waits for). *)
Definition connector_cause (readErr : option error) (written : option (option error)) : option error :=
  let writeErr :=
    match readErr, written with
    | None, None => Some (ErrMsg "connector writer still open after the idle timeout")
    | _, Some w => w
    | Some _, None => None
    end in
  firstConnectorError readErr writeErr.

(** Whether the flow is logged as closed without an error. *)
Definition audit_finish (cause : option error) : bool := endedNormally cause.

(** A TCP flow is called complete only when its writer has ended and neither
    side failed, but for an end of file, a cancellation or a normal close. *)
Lemma connector_cause_normal readErr written :
  (forall text, CloseStatus (ErrMsg text) <> 1000) ->
  endedNormally (connector_cause readErr written) = true <->
  match readErr with
  | Some err => endedNormally (Some err) = true
  | None => exists w, written = Some w /\ endedNormally w = true
  end.
Proof.
  intros Hcs. unfold connector_cause, firstConnectorError. destruct readErr as [err|]; [done |]. destruct written as [w|]; split.
  - intros H. by exists w.
  - by intros (w' & [= <-] & H).
  - cbn [endedNormally]. rewrite (proj2 (Z.eqb_neq _ _) (Hcs _)). discriminate.
  - by intros (w' & [=] & _).
Qed.
End Cause.

(** The two deferred calls on the stream: [closeStream], then [discardRetained]. *)
Definition leave_stream (net : nat -> answer) (s : session) (id : Z) : session :=
  let s' := closeStream net s id "cancelled" in
  match tb_store (ss_table s') !! id with
  | None => s'
  | Some tn => with_table s' (back (ss_table s') id (tn_window tn) (discardRetained (view (ss_table s') (tn_stream tn))))
  end.

Lemma discard_retains_nothing s : st_incoming s = [] -> retained_of (discardRetained s) None = [].
Proof.
  intros Hi. unfold discardRetained. rewrite releaseQueuedChunks_empty by done.
  assert (H : retained_of (set_terminal s [] [] 0) None = []) by (unfold retained_of; cbn; by rewrite Hi).
  destruct (0 <? st_terminalBytes s); [| exact H]. unfold releaseQueued.
  repeat (destruct (release _ _)). exact H.
Qed.

Section Left.
Context (maxStreams limit start : Z).

(** Whatever state its stream is in, a flow that ends leaves the session in
    order, its stream closed on both ends and none of its bytes in a budget. *)
Lemma leave_stream_clean net s id tn :
  session_ok maxStreams limit start s -> is_u32 id -> stream_at (ss_table s) id = Some tn ->
  session_ok maxStreams limit start (leave_stream net s id) /\ id ∉ tb_streams (ss_table (leave_stream net s id)) /\
  exists tn', tb_store (ss_table (leave_stream net s id)) !! id = Some tn' /\ held_by tn' = 0.
Proof.
  intros Hs Hi Hat. pose proof (good_closeStream maxStreams limit start net s id "cancelled" Hs Hi) as Hg.
  assert (Htd : torn_down id tn (ss_table (closeStream net s id "cancelled"))).
  { destruct (detach_off maxStreams limit _ _ (Some io_EOF) _ (so_table _ _ _ _ Hs) Hat) as (Hf & _ & Ht).
    unfold closeStream. pose proof (good_finishStream maxStreams limit start s id (Some io_EOF) Hs) as Hgf. unfold finishStream in Hgf.
    destruct (detachStream _ _ _) as [found T]. cbn [fst snd] in *. subst found. cbn [negb].
    by apply (send_torn_down maxStreams limit start). }
  unfold leave_stream. set (s' := closeStream net s id "cancelled") in *. destruct Htd as (Hr & tn' & Hl & Hh & Ht). rewrite Hl.
  pose proof (so_table _ _ _ _ Hg) as HT. destruct (tk_tunnels _ _ _ HT id tn' Hl) as [Hsh _ _ _].
  destruct (sh_ready _ _ Hsh Ht) as [_ Hinc].
  split; [| split; [exact Hr |]].
  - apply good_table; [done |].
    set (y0 := solo (view (ss_table s') (tn_stream tn')) true).
    set (y := MkSys (discardRetained (y_stream y0)) None (y_accepted y0) (y_delivered y0) (y_discarded y0 ++ retained y0) (y_credit y0) true).
    change (table_ok maxStreams limit (back (ss_table s') id (tn_window tn') (y_stream y))).
    apply (run_ok maxStreams limit false _ id tn' (tn_window tn') true); [done | done | | reflexivity].
    eapply steps_snoc; [apply steps_refl |]. by apply s_discard_tail.
  - eexists. cbn. rewrite lookup_insert_eq. split; [reflexivity |]. unfold held_by. cbn [tn_stream].
    rewrite discard_retains_nothing; [done | exact Hinc].
Qed.
End Left.

(** C7: An open Connector flow stays open only on the authority it was opened with. The once-a-second check goes on exactly while, on the documents the Gateway holds at that tick, the very same grant (not one field changed) is published, enabled and within its time, its token still unlocks it, and the very same endpoint is published, enabled, of a device that is not revoked; at the first tick at which any of this fails the flow is cut off. *)
Theorem connector_flow_reauthorized Sum256 grant endpoint token (ticks : list (instant * SnapshotMetadata)) docs n cut :
  (forall b, zlen (Sum256 b) = 32) ->
  Forall2 (fun d (t : instant * SnapshotMetadata) => add_records NewSnapshotMetadata d = (Ok tt, t.2)) docs ticks ->
  monitorConnectorAuthorization Sum256 grant endpoint token ticks = (n, cut) ->
  let valid d at_ :=
    active_grant d (cg_grant_id grant) at_ grant /\ unlocks Sum256 token grant /\
    active_endpoint d (cg_endpoint_id grant) at_ endpoint /\ stream_endpoint endpoint in
  (forall i d at_ metadata, (i < n)%nat -> docs !! i = Some d -> ticks !! i = Some (at_, metadata) -> valid d at_) /\
  (cut = true -> exists d at_ metadata, docs !! n = Some d /\ ticks !! n = Some (at_, metadata) /\ ~ valid d at_) /\
  (cut = false -> n = length ticks).
Proof.
  intros Hlen Hdocs Hm valid.
  assert (Hiff : forall d (t : instant * SnapshotMetadata), add_records NewSnapshotMetadata d = (Ok tt, t.2) ->
    still_authorized Sum256 grant endpoint token t.2 t.1 = true <-> valid d t.1).
  { intros d t Hd%loaded_reflects. rewrite still_authorized_iff by done. cbn.
    by rewrite (ConnectorGrant_at_iff _ _ _ _ _ Hd), (ServiceEndpoint_at_iff _ _ _ _ _ Hd). }
  destruct (monitor_passed _ _ _ _ _ _ _ Hm) as [Hf Hc]. split; [| split].
  - intros i d at_ metadata Hi Hd Ht. destruct (Forall2_lookup_lr _ _ _ _ _ _ Hdocs Hd Ht).
    apply (Hiff d (at_, metadata)); [by eapply Forall2_lookup_lr in Hdocs |].
    rewrite Forall_lookup in Hf. apply (Hf i (at_, metadata)). by rewrite lookup_take_lt.
  - intros ->. destruct Hc as (at_ & metadata & Ht & Hno).
    destruct (Forall2_lookup_r _ _ _ _ _ Hdocs Ht) as (d & Hd & Hrec). exists d, at_, metadata. split; [done |]. split; [done |].
    intros Hv. apply (Hiff d (at_, metadata) Hrec) in Hv. cbn in Hv. congruence.
  - intros ->. exact Hc.
Qed.

Definition demo_other_grant : bytes :=
  marshal_grant (MkConnectorGrant "connector_grant" 2 "grant-1" "ep-1" "tok-1"
    (string_of (hex_encode (repeat (zb 32) 32))) "2026-01-02T03:04:05Z" "2026-02-02T03:04:05Z" false 3).

Definition demo_documents (grant : bytes) : list (category * bytes) := [(CatServiceEndpoints, demo_endpoint_json); (CatConnectorGrants, grant)].

(** A grant that is published again with another limit ends the flows of the
    old one. *)
Lemma connector_flow_reauthorized_witness :
  exists grant endpoint s1 s2,
    let token := "0123456789abcdef0123456789abcdef" in
    let at1 := time_of "2026-01-15T00:00:00Z" in
    let at2 := at1 + Second in
    monitorConnectorAuthorization demo_sum grant endpoint token [(at1, s1); (at2, s2)] = (1%nat, true) /\
    active_grant (demo_documents demo_grant_json) "grant-1" at1 grant /\
    ~ (active_grant (demo_documents demo_other_grant) "grant-1" at2 grant /\ unlocks demo_sum token grant /\
       active_endpoint (demo_documents demo_other_grant) "ep-1" at2 endpoint /\ stream_endpoint endpoint).
Proof.
  destruct (add_records NewSnapshotMetadata (demo_documents demo_grant_json)) as [[[]|er] s1] eqn:E1; [| vm_compute in E1; discriminate E1].
  destruct (add_records NewSnapshotMetadata (demo_documents demo_other_grant)) as [[[]|er] s2] eqn:E2; [| vm_compute in E2; discriminate E2].
  set (token := "0123456789abcdef0123456789abcdef"). set (at1 := time_of "2026-01-15T00:00:00Z").
  destruct (authorizeConnector demo_sum (Some s1) "grant-1" "tok-1" token at1) as [[grant endpoint]|er] eqn:Ea;
    [| exfalso; vm_compute in E1; injection E1 as <-; vm_compute in Ea; discriminate Ea].
  assert (Hids : cg_grant_id grant = "grant-1" /\ cg_endpoint_id grant = "ep-1" /\
    monitorConnectorAuthorization demo_sum grant endpoint token [(at1, s1); (at1 + Second, s2)] = (1%nat, true)).
  { vm_compute in E1. injection E1 as <-. vm_compute in E2. injection E2 as <-. vm_compute in Ea. injection Ea as <- <-. vm_compute. done. }
  destruct Hids as (Hg & He & Hm). exists grant, endpoint, s1, s2. cbv zeta. split; [exact Hm |].
  assert (Hlen : forall b, zlen (demo_sum b) = 32) by (intros b; reflexivity).
  assert (HF : Forall2 (fun d (t : instant * SnapshotMetadata) => add_records NewSnapshotMetadata d = (Ok tt, t.2))
    [demo_documents demo_grant_json; demo_documents demo_other_grant] [(at1, s1); (at1 + Second, s2)])
    by (constructor; [exact E1 | constructor; [exact E2 | constructor]]).
  destruct (connector_flow_reauthorized demo_sum grant endpoint token _
    [demo_documents demo_grant_json; demo_documents demo_other_grant] 1 true Hlen
    HF Hm) as (Hok & Hcut & _).
  rewrite Hg, He in *. split.
  - destruct (Hok 0%nat _ _ _ (Nat.lt_0_1) eq_refl eq_refl) as [H _]. exact H.
  - destruct (Hcut eq_refl) as (d & at_ & metadata & [= <-] & [= <- <-] & H). exact H.
Defined.
