(* ===== verification/GwProcess.v ===== *)
(** * GwProcess: the Gateway as a process

    [cmd/gateway/main.go] and what it calls of [internal/gateway/gateway.go]:
    the checks before the Gateway starts, its readiness and its figures, and how
    the process stops ([gracefulShutdown]; [Close] is {!GwClosing}'s).  Flags are
    parsed, TLS files and sockets opened by the libraries; what they answer are
    parameters.  The rendering of the figures as text is left out, durations stay
    nanoseconds. *)

From S2P Require Import Prelude GoText GoTime GoNet Json StrictJson Frame Contract Control ControlCodec ContractV2 Metadata LiveMeta.
From S2P Require Import Window Budget GwLimits GwStream Wire SessTable GwSession Registry HttpHeaders PublicPorts.
Import Budget.Gateway.

(** ** Before it starts *)

Definition validateOpsListenAddress (address : string) : result unit :=
  if String.eqb address EmptyString then Ok tt
  else
    match SplitHostPort address with
    | None => Err (ErrMsg "invalid -ops-listen address")
    | Some (host, _) =>
      match ParseIP host with
      | Some ip => reject_if (negb (IsLoopback ip)) (ErrMsg "-ops-listen address is not a loopback IP")
      | None => Err (ErrMsg "-ops-listen address is not a loopback IP")
      end
    end.

Record gateway_flags := MkGatewayFlags {
  gf_opsListen : string;
  gf_tlsCert : string;
  gf_tlsKey : string;
  gf_metadataDir : string;
  gf_metadataMode : string;
  gf_publicTCP : PublicTCPConfig;
  gf_publicUDP : PublicTCPConfig;
  gf_MaxAgentSessions : Z;
  gf_MaxPendingHandshakes : Z;
  gf_MaxStreamQueueBytes : Z;
  gf_MaxSessionQueueBytes : Z;
  gf_MaxGlobalQueueBytes : Z;
  gf_MaxIngressInFlight : Z;
  gf_MaxIngressInFlightBytes : Z;
  gf_HandshakeRatePerSecond : Z;
  gf_HandshakeRateBurst : Z;
  gf_IngressRatePerSecond : Z;
  gf_IngressRateBurst : Z;
  gf_PreAuthRatePerSecond : Z;
  gf_PreAuthRateBurst : Z;
  gf_trustedProxies : list string;
}.

(** The limits of [run]: the defaults under the flags. *)
Definition flag_limits (f : gateway_flags) : Limits := {|
  MaxAgentSessions := gf_MaxAgentSessions f;
  MaxPendingHandshakes := gf_MaxPendingHandshakes f;
  MaxStreamsPerSession := MaxStreamsPerSession DefaultLimits;
  MaxStreamQueueFrames := MaxStreamQueueFrames DefaultLimits;
  MaxStreamQueueBytes := gf_MaxStreamQueueBytes f;
  MaxSessionQueueBytes := gf_MaxSessionQueueBytes f;
  MaxGlobalQueueBytes := gf_MaxGlobalQueueBytes f;
  MaxIngressInFlight := gf_MaxIngressInFlight f;
  MaxIngressInFlightBytes := gf_MaxIngressInFlightBytes f;
  HandshakeRatePerSecond := gf_HandshakeRatePerSecond f;
  HandshakeRateBurst := gf_HandshakeRateBurst f;
  IngressRatePerSecond := gf_IngressRatePerSecond f;
  IngressRateBurst := gf_IngressRateBurst f;
  MaxRequestBytes := MaxRequestBytes DefaultLimits;
  MaxResponseBytes := MaxResponseBytes DefaultLimits;
  MaxHeaderBytes := MaxHeaderBytes DefaultLimits;
  MaxStatusQueueSignals := MaxStatusQueueSignals DefaultLimits;
  StatusEmitTimeout := StatusEmitTimeout DefaultLimits;
  HandshakeTimeout := HandshakeTimeout DefaultLimits;
  ReadTimeout := ReadTimeout DefaultLimits;
  WriteTimeout := WriteTimeout DefaultLimits;
  HeartbeatInterval := HeartbeatInterval DefaultLimits;
  IdleTimeout := IdleTimeout DefaultLimits;
  ShutdownTimeout := ShutdownTimeout DefaultLimits;
  MaxTunnelsPerDevice := MaxTunnelsPerDevice DefaultLimits;
  ResponsePhaseTimeout := ResponsePhaseTimeout DefaultLimits;
  ResumeAcceptanceWindow := ResumeAcceptanceWindow DefaultLimits;
  PreAuthRatePerSecond := gf_PreAuthRatePerSecond f;
  PreAuthRateBurst := gf_PreAuthRateBurst f;
  TrustedProxyPeers := gf_trustedProxies f;
|}.

(** [New]: the networks of the trusted proxies. *)
Definition gateway_New (lim : Limits) : result (list IPNet) :=
  reject_if (negb (valid lim)) (ErrMsg "invalid gateway limits") ;? parseTrustedProxyPeers (TrustedProxyPeers lim).

(** What [run] is about to serve with. *)
Record gateway_plan := MkPlan {
  gp_limits : Limits;
  gp_proxies : list IPNet;
  gp_tcp : option manager;
  gp_udp : option manager;
  gp_ops : bool;
}.

(** A manager of public ports, unless its host is empty. *)
Definition plan_ports (what : string) (c : PublicTCPConfig) : result (option manager) :=
  if String.eqb (pc_BindHost c) EmptyString then Ok None else let? m := NewPublicManager what c in Ok (Some m).

(** [run] up to the listeners; [loaded]: whether the metadata of the two modes
    could be opened. *)
Definition run_plan (loaded : string -> result unit) (f : gateway_flags) : result gateway_plan :=
  validateOpsListenAddress (gf_opsListen f) ;?
  reject_if (String.eqb (gf_tlsCert f) EmptyString || String.eqb (gf_tlsKey f) EmptyString)
    (ErrMsg "-tls-cert and -tls-key are required; plaintext production mode is not supported") ;?
  reject_if (String.eqb (gf_metadataDir f) EmptyString) (ErrMsg "-metadata-dir is required") ;?
  reject_if (negb (String.eqb (gf_metadataMode f) "static") && negb (String.eqb (gf_metadataMode f) "live"))
    (ErrMsg "unsupported -metadata-mode; expected static or live") ;?
  loaded (gf_metadataMode f) ;?
  let? proxies := gateway_New (flag_limits f) in
  let? tcp := plan_ports "TCP" (gf_publicTCP f) in
  let? udp := plan_ports "UDP" (gf_publicUDP f) in
  Ok (MkPlan (flag_limits f) proxies tcp udp (negb (String.eqb (gf_opsListen f) EmptyString))).

(** ** Operations endpoints *)

Definition quoted (s : string) : string := string_of ([Byte.x22] ++ bytes_of s ++ [Byte.x22]).

(** The body each of them writes. *)
Definition status_body (status : string) : string := "{" +:+ quoted "status" +:+ ":" +:+ quoted status +:+ "}".

Definition handleHealth : Z * string := (200, status_body "ok").

(** [Ready] of the metadata source; [None] for a source without one. *)
Definition handleReady (draining : bool) (ready : option (result unit)) : Z * string :=
  if draining then (503, status_body "not_ready")
  else match ready with Some (Err _) => (503, status_body "not_ready") | _ => (200, status_body "ready") end.

(** [LiveMetadata.Ready]. *)
Definition live_ready (m : LiveMetadata) (now : instant) : result unit := let? _ := activeSnapshot m now in Ok tt.

(** The figures a scrape reads besides the sessions: budgets, slots and
    counters of [gatewayResources] and of the exporter. *)
Record gateway_counters := MkCounters {
  gc_pendingHandshakes : Z;
  gc_queueBytes : ByteBudget;
  gc_ingressBytes : ByteBudget;
  gc_ingressSlots : Z;
  gc_queueRejects : Z;
  gc_handshakeRejects : Z * Z * Z * Z;   (* its own, rate, per device, before authentication *)
  gc_ingressRejects : Z * Z * Z * Z;     (* its own, rate, per route, per device *)
  gc_sessionRejects : Z;
  gc_healthReports : Z;
  gc_reconnects : Z;
  gc_agentBytes : Z;
  gc_publicBytes : Z;
  gc_status : Z * Z * Z * Z;             (* queued, limit, dropped, failures *)
}.

Definition sum4 (x : Z * Z * Z * Z) : Z := let '(a, b, c, d) := x in u64 (u64 (u64 (a + b) + c) + d).

(** The scrape's walk over the live sessions. *)
Definition active_streams (sessions : list session) : Z := foldr (fun s n => Z.of_nat (size (tb_streams (ss_table s))) + n) 0 sessions.

Definition best_latency (sessions : list session) : Z :=
  fold_left (fun best s => if (0 <? ss_pingLatency s) && ((best <? 0) || (ss_pingLatency s <? best)) then ss_pingLatency s else best)
    sessions (-1).

(** [stats]: what [MetadataStats] of a live source answers, with its counts of
    refreshes. *)
Definition handleMetrics (lim : Limits) (sessions : list session) (c : gateway_counters) (stats : option ((Z * bool * Z) * Z * Z))
  : list (string * Z) :=
  [("agent_sessions", Z.of_nat (length sessions)); ("agent_sessions_limit", MaxAgentSessions lim);
   ("active_tunnels", Z.of_nat (length sessions)); ("active_streams", active_streams sessions);
   ("pending_handshakes", gc_pendingHandshakes c); ("pending_handshakes_limit", MaxPendingHandshakes lim);
   ("queued_bytes", b_used (gc_queueBytes c)); ("queued_bytes_limit", b_limit (gc_queueBytes c));
   ("ingress_inflight", gc_ingressSlots c); ("ingress_inflight_limit", MaxIngressInFlight lim);
   ("ingress_inflight_bytes", b_used (gc_ingressBytes c)); ("ingress_inflight_bytes_limit", b_limit (gc_ingressBytes c));
   ("queue_rejections_total", gc_queueRejects c); ("handshake_rejections_total", sum4 (gc_handshakeRejects c));
   ("ingress_rejections_total", sum4 (gc_ingressRejects c)); ("session_capacity_rejections_total", gc_sessionRejects c);
   ("health_reports_total", gc_healthReports c); ("reconnects_total", gc_reconnects c);
   ("tunnel_bytes_from_agents_total", gc_agentBytes c); ("tunnel_bytes_to_agents_total", gc_publicBytes c);
   ("session_latency", best_latency sessions)] ++
  (let '(queued, limit, dropped, failures) := gc_status c in
   [("status_queue_depth", queued); ("status_queue_limit", limit); ("status_dropped_total", dropped);
    ("status_export_failures_total", failures)]) ++
  match stats with
  | None => []
  | Some ((_, fresh, age), successes, failures) =>
    [("metadata_fresh", if (fresh : bool) then 1 else 0); ("metadata_snapshot_age", age);
     ("metadata_refresh_successes_total", successes); ("metadata_refresh_failures_total", failures)]
  end.

(** ** Shutting down *)

(** What the process does, in order. *)
Inductive shutdown_act := BeginDrain | CloseTCP | CloseUDP | ServerShutdown | OpsShutdown | DrainTunnels | OpsClose.

(** What each bounded call returned. *)
Record shutdown_answers := MkAnswers { sa_server : option error; sa_ops : option error; sa_gateway : list error }.

Definition shutdownResult (a : shutdown_answers) : result unit :=
  match sa_gateway a with
  | [] => Ok tt
  | e :: _ => Err (ErrWrap "gateway drain incomplete" e)
  end.

Definition gracefulShutdown (ops : bool) (a : shutdown_answers) : list shutdown_act * result unit :=
  (ServerShutdown :: (if ops then [OpsShutdown] else []) ++ [DrainTunnels], shutdownResult a).

(** Why the process stops: a signal, or a listener that ended. *)
Inductive stop_cause := Signalled | ListenerEnded (err : option error).

Definition close_if {A : Type} (o : option A) (act : shutdown_act) : list shutdown_act := match o with Some _ => [act] | None => [] end.

(** The end of [run].  [quiet]: the errors that are an orderly end. *)
Definition run_end (quiet : error -> bool) (p : gateway_plan) (cause : stop_cause) (a : shutdown_answers) : list shutdown_act * result unit :=
  match cause with
  | Signalled =>
    let '(acts, res) := gracefulShutdown (gp_ops p) a in
    (BeginDrain :: close_if (gp_tcp p) CloseTCP ++ close_if (gp_udp p) CloseUDP ++ acts, res)
  | ListenerEnded err =>
    (close_if (gp_tcp p) CloseTCP ++ close_if (gp_udp p) CloseUDP ++ DrainTunnels :: (if gp_ops p then [OpsClose] else []),
     match err with
     | None => Ok tt
     | Some e => if quiet e then Ok tt else Err e
     end)
  end.

(** ** What starting and stopping mean *)

(** A Gateway that starts keeps its plaintext figures on this machine. *)
Lemma plan_sound loaded f p :
  run_plan loaded f = Ok p ->
  valid (gp_limits p) = true /\ gp_limits p = flag_limits f /\
  gf_tlsCert f <> EmptyString /\ gf_tlsKey f <> EmptyString /\ loaded (gf_metadataMode f) = Ok tt /\
  (gp_ops p = true -> exists host port ip, SplitHostPort (gf_opsListen f) = Some (host, port) /\ ParseIP host = Some ip /\ IsLoopback ip = true) /\
  (is_Some (gp_tcp p) -> invalid_config (gf_publicTCP f) = false) /\ (is_Some (gp_udp p) -> invalid_config (gf_publicUDP f) = false).
Proof.
  unfold run_plan, gateway_New. intros (u1 & Hops & H)%rbind_Ok. apply rbind_Ok in H as (u2 & Htls%reject_if_Ok & H).
  apply rbind_Ok in H as (u3 & _ & H). apply rbind_Ok in H as (u4 & _ & H). apply rbind_Ok in H as ([] & Hload & H).
  apply rbind_Ok in H as (proxies & Hnew & H). apply rbind_Ok in Hnew as (u5 & Hv%reject_if_Ok & _).
  apply rbind_Ok in H as (tcp & Htcp & H). apply rbind_Ok in H as (udp & Hudp & H). injection H as <-.
  apply negb_false_iff in Hv. apply orb_false_iff in Htls as [Hc%String.eqb_neq Hk%String.eqb_neq].
  assert (Hports : forall what c m, plan_ports what c = Ok m -> is_Some m -> invalid_config c = false).
  { intros what c m Hp Hm. unfold plan_ports in Hp. destruct (String.eqb _ _); [injection Hp as <-; by destruct Hm |].
    apply rbind_Ok in Hp as (m' & Hm' & _). unfold NewPublicManager in Hm'. by apply rbind_Ok in Hm' as (u & Hi%reject_if_Ok & _). }
  cbn [gp_limits gp_ops gp_tcp gp_udp]. split; [exact Hv |]. split; [done |]. split; [exact Hc |]. split; [exact Hk |]. split; [exact Hload |].
  split; [| split; [by apply (Hports "TCP") | by apply (Hports "UDP")]].
  intros Ho%negb_true_iff. unfold validateOpsListenAddress in Hops. rewrite Ho in Hops.
  destruct (SplitHostPort _) as [[host port]|]; [| discriminate]. destruct (ParseIP host) as [ip|] eqn:Ei; [| discriminate].
  apply reject_if_Ok, negb_false_iff in Hops. by exists host, port, ip.
Qed.

(** The best latency is the least that was observed. *)
Lemma best_latency_least sessions : 
  (best_latency sessions = -1 /\ forall s, s ∈ sessions -> ss_pingLatency s <= 0) \/
  (0 < best_latency sessions /\ (exists s, s ∈ sessions /\ ss_pingLatency s = best_latency sessions) /\
   forall s, s ∈ sessions -> 0 < ss_pingLatency s -> best_latency sessions <= ss_pingLatency s).
Proof.
  unfold best_latency. induction sessions as [|s sessions IH] using rev_ind; [left; split; [done | by intros s ?%elem_of_nil] |].
  rewrite fold_left_app. cbn [fold_left]. set (best := fold_left _ sessions (-1)) in *.
  assert (Hin : forall x, x ∈ sessions ++ [s] <-> x ∈ sessions \/ x = s) by (intros x; rewrite elem_of_app, list_elem_of_singleton; done).
  destruct (Z.ltb_spec 0 (ss_pingLatency s)) as [Hp|Hp]; cbn [andb].
  - destruct IH as [[-> Hn]|(Hb & (s0 & Hs0 & E0) & Hleast)].
    + cbn [orb Z.ltb]. right. split; [done |]. split; [exists s; by rewrite Hin; auto |].
      intros x [Hx| ->]%Hin Hx0; [specialize (Hn x Hx); lia | done].
    + rewrite (proj2 (Z.ltb_ge best 0)) by lia. cbn [orb]. right. destruct (Z.ltb_spec (ss_pingLatency s) best) as [Hl|Hl].
      * split; [done |]. split; [exists s; by rewrite Hin; auto |]. intros x [Hx| ->]%Hin Hx0; [specialize (Hleast x Hx Hx0); lia | done].
      * split; [done |]. split; [exists s0; rewrite Hin; auto |]. intros x [Hx| ->]%Hin Hx0; [by apply Hleast | done].
  - destruct IH as [[-> Hn]|(Hb & (s0 & Hs0 & E0) & Hleast)].
    + left. split; [done |]. intros x [Hx| ->]%Hin; [by apply Hn | done].
    + right. split; [done |]. split; [exists s0; rewrite Hin; auto |]. intros x [Hx| ->]%Hin Hx0; [by apply Hleast | lia].
Qed.

(** After a signal the end is orderly exactly when {!GwClosing}'s [Close] has
    reported nothing. *)
Lemma signalled_orderly quiet p server ops errs :
  (run_end quiet p Signalled (MkAnswers server ops errs)).2 = Ok tt <-> errs = [].
Proof. unfold run_end, gracefulShutdown, shutdownResult. by destruct errs. Qed.

Definition demo_plan : gateway_plan := MkPlan DefaultLimits [] None None true.

Example demo_end :
  run_end (fun _ => false) demo_plan Signalled (MkAnswers None None []) = ([BeginDrain; ServerShutdown; OpsShutdown; DrainTunnels], Ok tt).
Proof. reflexivity. Qed.
