(* ===== verification/GwClosing.v ===== *)
(** * GwClosing: a Gateway that closes while it serves

    [Close] of [internal/gateway/gateway.go] with everything that goes on around
    it: handlers that have found a session and still open streams on it, read
    loops, heartbeats, Agents that register, and sessions that end by themselves.
    [Close] is its own steps between theirs: the drain, the critical section that
    empties the registry, [failAll] on one session after the other, a goroutine
    for each session that closes it, the wait for them or for the context, the
    forced closes, and the exporter.  What an operation of a session does is
    {!GwSession}'s, at the granularity of its steps. *)

From S2P Require Import Prelude GoText GoTime Json StrictJson Frame Contract Control ControlCodec Window Budget GwLimits GwStream Wire SessTable GwSession Registry.
Import Budget.Gateway.

Definition StatusGoingAway : Z := 1001.
Definition errGatewayShuttingDown : error := ErrMsg "gateway shutting down".

(** [sess.close(1001, ...)]. *)
Definition going_away (s : session) : session := close s StatusGoingAway "gateway shutting down".

(** ** The Gateway *)

Section Gateway.
Context (who : handle -> entry) (lim : Limits) (temporary : error -> bool).

(** A session of this handle as it is made by a handshake, or by a resume of one of
    the sessions there are. *)
Inductive new_session (sessions : gmap handle (session * bool)) (h : handle) : session -> Prop :=
| ns_new i g rejects inbound lastOutbound challenge now : budget_ok g -> is_u64 lastOutbound ->
    id_device i = e_device (who h) -> id_session i = e_session (who h) ->
    new_session sessions h (newSession lim i g rejects inbound lastOutbound challenge now)
| ns_resume h0 s0 reading flow g inbound challenge now s : sessions !! h0 = Some (s0, reading) -> budget_ok g ->
    e_device (who h0) = e_device (who h) -> e_session (who h0) = e_session (who h) ->
    resumeInto lim s0 flow g inbound challenge now = Some s -> new_session sessions h s.

(** What is done to a session besides reading its connection: by handlers, by its
    heartbeat, at the end of its authorization, and by a connection that replaces
    it. *)
Inductive handled : session -> session -> Prop :=
| hd_open net s requestID e a l mode : handled s (openStreamTarget net lim s requestID e a l mode).2
| hd_send net s id payload : is_u32 id -> handled s (sendBytes net s id payload).2
| hd_datagram net s id packet : is_u32 id -> handled s (sendDatagram net s id packet).2
| hd_half_close net s id : is_u32 id -> handled s (halfCloseStream net s id).2
| hd_close net s id reason : is_u32 id -> handled s (closeStream net s id reason)
| hd_error net s id code message retryable err : is_u32 id -> handled s (errorStream net s id code message retryable err)
| hd_credit net s id size : is_u32 id -> handled s (grantCredits net s id size)
| hd_handler s id s' : handler_run s id s' -> handled s s'
| hd_heartbeat net s verdict pingID now : handled s (heartbeat_tick net temporary lim s verdict pingID now)
| hd_expiry net s : handled s (authorization_expiry net temporary s)
| hd_replaced s : handled s (fail_all s (ErrMsg "agent session replaced by reconnect"))
| hd_replaced_close s : handled s (close s StatusNormalClosure "replaced by reconnect")
| hd_force s : handled s (forceClose s)
| hd_others s b : budget_ok b -> total_held (tb_store (ss_table s)) <= b_used b ->
    handled s (with_table s (MkTable (tb_store (ss_table s)) (tb_streams (ss_table s))
      (tb_nextID (ss_table s)) (tb_session (ss_table s)) b (tb_rejects (ss_table s)))).

(** How far the goroutine that closes a session has come; [before]: the close
    frame that had been sent when it came to its own. *)
Inductive closing :=
| Begun
| Signalled
| Detached
| Told (before : option (Z * string))
| Returned (before : option (Z * string)).

(** Where [Close] is. *)
Inductive phase :=
| Serving
| Draining
| Failing (rest : list handle)
| Waiting
| Forcing (rest : list handle) (expired : error)
| Exporting (drainErr : list error)
| Closed (errs : list error).

Record gateway := MkGateway {
  gw_registry : registry;
  gw_sessions : gmap handle (session * bool);   (* whether its read loop runs *)
  gw_taken : list handle;                       (* [sessions] of [Close] *)
  gw_closing : gmap handle closing;
  gw_phase : phase;
}.

Definition newGateway : gateway := MkGateway emptyRegistry ∅ [] ∅ Serving.

Definition put_session (h : handle) (s : session) (reading : bool) (w : gateway) : gateway :=
  MkGateway (gw_registry w) (<[h := (s, reading)]> (gw_sessions w)) (gw_taken w) (gw_closing w) (gw_phase w).
Definition put_registry (r : registry) (w : gateway) : gateway :=
  MkGateway r (gw_sessions w) (gw_taken w) (gw_closing w) (gw_phase w).
Definition put_closing (h : handle) (c : closing) (w : gateway) : gateway :=
  MkGateway (gw_registry w) (gw_sessions w) (gw_taken w) (<[h := c]> (gw_closing w)) (gw_phase w).
Definition put_phase (ph : phase) (w : gateway) : gateway :=
  MkGateway (gw_registry w) (gw_sessions w) (gw_taken w) (gw_closing w) ph.

Inductive gateway_step : gateway -> gateway -> Prop :=
(* around it *)
| gs_accept w h s : gw_sessions w !! h = None -> new_session (gw_sessions w) h s -> gateway_step w (put_session h s true w)
| gs_register w m h : is_Some (gw_sessions w !! h) ->
    gateway_step w (put_registry (registerSession who lim m (gw_registry w) h).1.2 w)
| gs_unregister w m h s reading : gw_sessions w !! h = Some (s, reading) -> ss_done s = true ->
    gateway_step w (put_registry (unregisterSession who m (gw_registry w) h) w)
| gs_read w h net s r now : gw_sessions w !! h = Some (s, true) ->
    gateway_step w (put_session h (run_once net s r now).2 (run_once net s r now).1 w)
| gs_handled w h s reading s' : gw_sessions w !! h = Some (s, reading) -> handled s s' -> gateway_step w (put_session h s' reading w)
(* [Close] *)
| gs_drain w : gw_phase w = Serving -> gateway_step w (put_phase Draining (put_registry (beginDrain (gw_registry w)) w))
| gs_take w : gw_phase w = Draining ->
    let emptied := Registry.closeAll (gw_registry w) in
    gateway_step w (MkGateway emptied.1 (gw_sessions w) emptied.2 ∅ (Failing emptied.2))
| gs_fail w h rest s reading : gw_phase w = Failing (h :: rest) -> gw_sessions w !! h = Some (s, reading) ->
    gateway_step w (put_phase (Failing rest) (put_session h (fail_all s errGatewayShuttingDown) reading w))
| gs_spawn w : gw_phase w = Failing [] ->
    gateway_step w (MkGateway (gw_registry w) (gw_sessions w) (gw_taken w) (gset_to_gmap Begun (list_to_set (gw_taken w))) Waiting)
| gs_signal w h s reading : gw_closing w !! h = Some Begun -> gw_sessions w !! h = Some (s, reading) ->
    gateway_step w (put_closing h Signalled (put_session h (with_end s true (ss_closed s)) reading w))
| gs_detach w m h : gw_closing w !! h = Some Signalled ->
    gateway_step w (put_closing h Detached (put_registry (unregisterSession who m (gw_registry w) h) w))
| gs_tell w h s reading : gw_closing w !! h = Some Detached -> gw_sessions w !! h = Some (s, reading) ->
    gateway_step w (put_closing h (Told (ss_closed s)) (put_session h (going_away s) reading w))
| gs_told w h before : gw_closing w !! h = Some (Told before) -> gateway_step w (put_closing h (Returned before) w)
| gs_drained w : gw_phase w = Waiting -> (forall h, h ∈ gw_taken w -> exists before, gw_closing w !! h = Some (Returned before)) ->
    gateway_step w (put_phase (Exporting []) w)
| gs_expired w err : gw_phase w = Waiting -> gateway_step w (put_phase (Forcing (gw_taken w) err) w)
| gs_force w h m rest err s reading : gw_phase w = Forcing (h :: rest) err -> gw_sessions w !! h = Some (s, reading) ->
    gateway_step w (put_phase (Forcing rest err)
      (put_registry (unregisterSession who m (gw_registry w) h) (put_session h (forceClose s) reading w)))
| gs_forced w err : gw_phase w = Forcing [] err -> gateway_step w (put_phase (Exporting [err]) w)
| gs_exported w drainErr statusErr : gw_phase w = Exporting drainErr ->
    gateway_step w (put_phase (Closed (drainErr ++ option_list statusErr)) w).
End Gateway.

(** ** What no operation of a session undoes *)

(** The streams that are not routed any more are finished for their readers. *)
Definition all_finished (T : table) : Prop := forall id tn,
  tb_store T !! id = Some tn -> id ∉ tb_streams T -> st_terminalReady (tn_stream tn) = true.

Record tame (T T' : table) : Prop := Tame {
  tm_routed : tb_streams T' ⊆ tb_streams T;
  tm_finished : all_finished T -> all_finished T';
  tm_dom : dom (tb_store T) ⊆ dom (tb_store T');
}.

(** A closed session stays closed, with its first close frame, and routes no new
    stream; a stream that is not routed any more never is again. *)
Record calm (s s' : session) : Prop := Calm {
  cm_done : ss_done s = true -> ss_done s' = true;
  cm_closed : forall c, ss_closed s = Some c -> ss_closed s' = Some c;
  cm_routed : ss_done s = true -> tb_streams (ss_table s') ⊆ tb_streams (ss_table s);
  cm_finished : all_finished (ss_table s) -> all_finished (ss_table s');
  cm_dom : dom (tb_store (ss_table s)) ⊆ dom (tb_store (ss_table s'));
  cm_unrouted : forall id, id ∈ dom (tb_store (ss_table s)) -> id ∉ tb_streams (ss_table s) -> id ∉ tb_streams (ss_table s');
}.

Lemma tame_refl T : tame T T.
Proof. by split. Qed.

Lemma tame_trans T1 T2 T3 : tame T1 T2 -> tame T2 T3 -> tame T1 T3.
Proof. intros [] []. split; [set_solver | auto | set_solver]. Qed.

Lemma calm_refl s : calm s s.
Proof. by split. Qed.

Lemma calm_trans s1 s2 s3 : calm s1 s2 -> calm s2 s3 -> calm s1 s3.
Proof.
  intros [D1 C1 R1 F1 S1 U1] [D2 C2 R2 F2 S2 U2]. split; auto; [| set_solver].
  intros Hd. specialize (R1 Hd). specialize (R2 (D1 Hd)). set_solver.
Qed.

Lemma calm_table s s' : tame (ss_table s) (ss_table s') -> (ss_done s = true -> ss_done s' = true) ->
  (forall c, ss_closed s = Some c -> ss_closed s' = Some c) -> calm s s'.
Proof. intros [] ? ?. split; try done. set_solver. Qed.

Lemma calm_with_table s T : tame (ss_table s) T -> calm s (with_table s T).
Proof. intros H. by apply calm_table. Qed.

Lemma calm_close s code reason : calm s (close s code reason).
Proof. apply calm_table; [apply tame_refl | done |]. intros c E. cbn. by rewrite E. Qed.

(** *** The table *)

Lemma finished_insert T id tn streams next b g rj :
  (all_finished T) -> streams ⊆ tb_streams T \/ id ∈ streams ->
  (id ∉ streams -> st_terminalReady (tn_stream tn) = true) -> (forall j, j ∈ tb_streams T -> j ∈ streams \/ j = id) ->
  all_finished (MkTable (<[id := tn]> (tb_store T)) streams next b g rj).
Proof.
  intros HT _ Hid Hs j tn' Hj Hn. cbn in *. apply lookup_insert_Some in Hj as [[<- <-]|[Hne Hj]]; [by apply Hid |].
  apply (HT j tn' Hj). intros Hin. destruct (Hs j Hin); congruence.
Qed.

(** An operation on one stream that keeps it routed, or finished. *)
Lemma tame_at T id tn' b g rj :
  (id ∉ tb_streams T -> all_finished T -> st_terminalReady (tn_stream tn') = true) ->
  tame T (MkTable (<[id := tn']> (tb_store T)) (tb_streams T) (tb_nextID T) b g rj).
Proof.
  intros H. split; [done | | cbn; set_solver]. intros HT. apply finished_insert; [done | by left | by intros Hn; apply H | by left].
Qed.

Lemma ready_released s size : st_terminalReady (releaseQueued s size) = st_terminalReady s.
Proof. unfold releaseQueued. by destruct (release _ _), (release _ _), (release _ _). Qed.

Lemma ready_acquired s size b s' : acquire_all s size = (b, s') -> st_terminalReady s' = st_terminalReady s.
Proof.
  unfold acquire_all. destruct (TryAcquire _ _) as [[] ?]; cbn [negb]; [| by intros [= <- <-]].
  destruct (TryAcquire _ _) as [[] ?]; cbn [negb]; [| destruct (release _ _); by intros [= <- <-]].
  destruct (TryAcquire _ _) as [[] ?]; cbn [negb]; [by intros [= <- <-] |].
  destruct (release _ _), (release _ _). by intros [= <- <-].
Qed.

Lemma ready_enqueued s data : st_terminalReady (enqueue s data).2 = st_terminalReady s.
Proof.
  unfold enqueue. destruct (st_closed s); [done |]. destruct (acquire_all s (zlen data)) as [[] s'] eqn:E; [| by apply ready_acquired in E].
  apply ready_acquired in E. destruct (_ <? _); [exact E |]. cbn [snd]. unfold count_reject. cbn. by rewrite ready_released.
Qed.

Lemma ready_chunks n : forall s, st_terminalReady (release_chunks n s) = st_terminalReady s.
Proof.
  induction n as [|n IH]; intros s; cbn [release_chunks]; [done |]. destruct (st_incoming s); [done |]. by rewrite IH, ready_released.
Qed.

Lemma ready_step y y' : local_step false y y' -> st_terminalReady (y_stream y) = true -> st_terminalReady (y_stream y') = true.
Proof.
  intros H Hr. destruct H as [y data r s' _ E|y err|y err tail s' tail' _ E|y err tail|y s' n _ _ _ E|y s' n _ _ _ _ E|y k|y s' p _ _ E|y s' p _ _ _ E|y|y s' p _ E|y];
    cbn [y_stream set_finishing]; try done.
  - pose proof (f_equal snd E) as E'. cbn [snd] in E'. by rewrite <- E', ready_enqueued.
  - unfold finish_take in E. destruct (st_incoming _); [done |]. destruct (st_datagram (y_stream y)); injection E as <- <-; exact Hr.
  - unfold take_chunk in E. destruct (st_incoming _); [done |]. injection E as <- <-. cbn. by rewrite ready_released.
  - unfold take_tail in E. destruct (_ && _); [| done]. injection E as <- <-. cbn. by rewrite ready_released.
  - unfold take_packet in E. destruct (st_incoming _); [done |]. injection E as <- <-. by rewrite ready_released.
  - unfold take_terminal_packet in E. rewrite Hr in E. destruct (st_terminalPackets _); [done |]. injection E as <- <-.
    by rewrite ready_released.
  - unfold take_packet in E. destruct (st_incoming _); [done |]. injection E as <- <-. by rewrite ready_released.
  - unfold discardRetained. destruct (_ <? _); rewrite ?ready_released; cbn; unfold releaseQueuedChunks; by rewrite ready_chunks.
Qed.

Lemma ready_run y y' : steps (local_step false) y y' -> st_terminalReady (y_stream y) = true -> st_terminalReady (y_stream y') = true.
Proof. intros H Hr. revert H. apply (steps_invariant (local_step false) (fun y => st_terminalReady (y_stream y) = true)); [exact Hr |]. intros a b Ha Hab. by apply (ready_step a). Qed.

Section Table.
Context (maxStreams limit : Z).
Notation okay := (table_ok maxStreams limit).

Lemma finished_now T id tn err : okay T -> tb_store T !! id = Some tn -> st_terminalReady (finish (view T (tn_stream tn)) err) = true.
Proof. intros HT E. by destruct (finish_run _ err false (view_ok _ _ _ _ _ false HT E)) as (_ & _ & _ & H & _). Qed.

Lemma tame_failAll T err : okay T -> tame T (failAll T err).
Proof.
  intros HT. split; [cbn; set_solver | |].
  2: { intros id [tn E]%elem_of_dom. apply elem_of_dom. cbn. rewrite map_lookup_imap, E. by eexists. }
  intros Hf id tn Hl _. cbn in Hl. rewrite map_lookup_imap in Hl.
  destruct (tb_store T !! id) as [tn0|] eqn:E; [| done]. cbn in Hl. injection Hl as <-. destruct (decide (id ∈ tb_streams T)) as [Hin|Hin]; [rewrite bool_decide_true by done; exact (finished_now T id tn0 err HT E) | rewrite bool_decide_false by done; exact (Hf id tn0 E Hin)].
Qed.

Lemma tame_detach T id err : okay T -> tame T (detachStream T id err).2.
Proof.
  intros HT. unfold detachStream. destruct (stream_at T id) as [tn|] eqn:E; cbn [snd].
  - apply stream_at_store in E. split; [cbn; set_solver | | cbn; set_solver]. intros Hf. apply (finished_insert T); [done | left; cbn; set_solver | |].
    + intros _. cbn [tn_stream]. unfold releaseQueuedChunks. rewrite ready_chunks. exact (finished_now T id tn err HT E).
    + intros j Hj. cbn. destruct (decide (j = id)); [by right | left; set_solver].
  - split; [cbn; set_solver | | done]. intros Hf j tn Hj Hn. cbn in *. destruct (decide (j ∈ tb_streams T)) as [Hin|Hin]; [| by apply (Hf j)].
    destruct (decide (j = id)) as [->|Hne]; [| destruct Hn; apply elem_of_difference; split; [exact Hin | by intros ->%elem_of_singleton]]. unfold stream_at in E. rewrite bool_decide_true in E by done. congruence.
Qed.

Lemma tame_window T id w : tame T (set_window T id w).
Proof.
  unfold set_window. destruct (tb_store T !! id) as [tn|] eqn:E; [| apply tame_refl]. apply tame_at. intros Hn Hf. exact (Hf id tn E Hn).
Qed.

Lemma tame_take T id size T' : take_window T id size = Some (Ok T') -> tame T T'.
Proof.
  unfold take_window. destruct (_ !! _) as [[? [w|]]|]; [| by intros [= <-]; apply tame_refl | by intros [= <-]; apply tame_refl].
  destruct (negb _); [done |]. destruct (take_locked w size); try done. intros [= <-]. apply tame_window.
Qed.

Lemma tame_enqueue T id tn payload : stream_at T id = Some tn -> tame T (enqueue_at T id tn payload).2.
Proof.
  intros E. assert (Hin : id ∈ tb_streams T) by (unfold stream_at in E; by case_bool_decide). unfold enqueue_at.
  destruct (enqueue _ _) as [r s]. apply tame_at. by intros [].
Qed.

Lemma tame_half_close T id tn : stream_at T id = Some tn -> tame T (half_close_at T id tn).
Proof.
  intros E. assert (Hin : id ∈ tb_streams T) by (unfold stream_at in E; by case_bool_decide). apply tame_at. by intros [].
Qed.

Lemma tame_handler s id s' : handler_run s id s' -> calm s s'.
Proof.
  intros (tn & dn & y & Hl & Hr & _ & ->). apply calm_with_table, tame_at. intros Hn Hf. cbn. apply (ready_run _ _ Hr). exact (Hf id tn Hl Hn).
Qed.

(** A stream is opened routed; a closed session refuses its first frame. *)
Lemma open_finished lim flow mode T : all_finished T -> all_finished (open_locked lim flow mode T).2.
Proof.
  intros Hf. unfold open_locked. destruct (_ <=? _); [done |]. destruct (_ =? 0); [done |]. cbn [snd].
  apply finished_insert; [done | right; set_solver | intros []; set_solver | intros j Hj; left; set_solver].
Qed.
End Table.

(** *** The session *)

Section Calm.
Context (maxStreams limit start : Z).
Notation good := (session_ok maxStreams limit start).

Lemma calm_fail_all s err : good s -> calm s (fail_all s err).
Proof. intros Hs. by apply calm_with_table, (tame_failAll maxStreams limit), Hs. Qed.

Lemma calm_end s err code : good s -> calm s (end_session s err code).
Proof. intros Hs. eapply calm_trans; [by apply calm_fail_all | apply calm_close]. Qed.

Lemma calm_same s s' : ss_table s' = ss_table s -> ss_done s' = ss_done s -> ss_closed s' = ss_closed s -> calm s s'.
Proof. intros E1 E2 E3. apply calm_table; rewrite ?E1, ?E2, ?E3; [apply tame_refl | done | done]. Qed.

Section Net.
Context (net : nat -> answer).

Lemma calm_sendFrame s kind id payload : good s -> calm s (sendFrame net s kind id payload).2.
Proof.
  intros Hs. unfold sendFrame. destruct (ss_done s); [apply calm_refl |]. destruct (net _) as [|expired written late]; [by apply calm_same |].
  cbn [snd]. unfold writeQueued. destruct (if kind =? KindData then None else expired); [by apply calm_same |].
  destruct (NextSequence _).
  - destruct (EncodeFrame _); [| by apply calm_same]. destruct written; [| by apply calm_same].
    eapply calm_trans; [| apply calm_close]. by apply calm_table; [apply (tame_failAll maxStreams limit), Hs | ..].
  - eapply calm_trans; [| apply calm_close]. by apply calm_table; [apply (tame_failAll maxStreams limit), Hs | ..].
Qed.

Lemma calm_sendControl s id m : good s -> calm s (sendControl net s id m).2.
Proof. apply calm_sendFrame. Qed.

Lemma calm_finishStream s id err : good s -> calm s (finishStream s id err).
Proof. intros Hs. by apply calm_with_table, (tame_detach maxStreams limit), Hs. Qed.

Lemma calm_detached s id err m : good s -> is_u32 id ->
  calm s (let '(found, T) := detachStream (ss_table s) id err in
          let s' := with_table s T in if negb found then s' else (sendControl net s' id m).2).
Proof.
  intros Hs Hi. pose proof (good_finishStream _ _ _ s id err Hs) as Hg. pose proof (calm_finishStream s id err Hs) as Hc.
  unfold finishStream in *. destruct (detachStream _ _ _) as [[] T]; cbn [snd negb] in *; [| exact Hc].
  eapply calm_trans; [exact Hc | by apply calm_sendControl].
Qed.

Lemma calm_chunks id n : forall s paced payload, good s -> is_u32 id -> calm s (send_chunks net n s id paced payload).2.
Proof.
  induction n as [|n IH]; intros s paced payload Hs Hi; cbn [send_chunks]; [apply calm_refl |]. destruct (zlen payload =? 0); [apply calm_refl |].
  destruct (send_chunk net s id paced payload) as [[r s1]|] eqn:E; [| apply calm_refl].
  pose proof (good_send_chunk _ _ _ _ _ _ _ _ _ _ Hs Hi E) as H1. assert (Hc : calm s s1).
  { unfold send_chunk in E. destruct (chunk_of payload) as [chunk rest].
    destruct (if paced then _ else _) as [[T|e]|] eqn:Ew; [| injection E as _ <-; apply calm_refl | done].
    assert (HT : table_ok maxStreams limit T /\ tame (ss_table s) T).
    { destruct paced; [split; [eapply take_window_ok, Ew; apply Hs | by eapply tame_take] | injection Ew as <-; split; [apply Hs | apply tame_refl]]. }
    eapply calm_trans; [apply calm_with_table, HT |].
    pose proof (calm_sendFrame (with_table s T) KindData id chunk (good_table _ _ _ s T Hs (proj1 HT))) as H. destruct (sendFrame _ _ _ _ _) as [x s2].
    injection E as _ <-. exact H. }
  destruct r as [rest|e]; [| exact Hc]. eapply calm_trans; [exact Hc | by apply IH].
Qed.

Lemma calm_sendBytes s id payload : good s -> is_u32 id -> calm s (sendBytes net s id payload).2.
Proof.
  intros Hs Hi. unfold sendBytes. destruct (id_flow _); [destruct (stream_at _ _); [| apply calm_refl] |]; by apply calm_chunks.
Qed.

Lemma calm_handleData s frame : good s -> is_u32 (fr_stream frame) -> calm s (handleData net s frame).2.
Proof.
  intros Hs Hi. unfold handleData. destruct (stream_at _ _) as [tn|] eqn:E; [| destruct (_ && _); apply calm_refl].
  destruct (_ && _); [by apply calm_detached |]. pose proof (tame_enqueue _ _ _ (fr_payload frame) E) as Ht.
  pose proof (enqueue_at_ok _ _ _ _ _ (fr_payload frame) (so_table _ _ _ _ Hs) (stream_at_store _ _ _ E)) as HT.
  destruct (enqueue_at _ _ _ _) as [[u|e] T]; cbn [snd] in *.
  - by apply calm_table.
  - eapply calm_trans; [by apply calm_with_table | by apply calm_detached; [apply good_table |]].
Qed.

Lemma calm_dispatch s kind id payload now : good s -> is_u32 id -> calm s (dispatch_control net s kind id payload now).2.
Proof.
  intros Hs Hi. unfold dispatch_control.
  repeat (match goal with |- context [if ?b then _ else _] => destruct b end; try exact (calm_refl s));
    try (destruct (json_unmarshal _ _) as [m|e]; [| exact (calm_refl s)]); cbn [snd].
  - unfold handle_pong. destruct (ss_pendingPing s). destruct (_ && _); [by apply calm_same | apply calm_refl].
  - by apply calm_same.
  - by apply calm_sendControl.
  - by apply calm_finishStream.
  - destruct (stream_at _ _) as [tn|] eqn:E; [| apply calm_refl]. by apply calm_with_table, tame_half_close.
  - by apply calm_finishStream.
  - unfold handle_window_update. destruct (stream_at _ _) as [[st [w|]]|]; try apply calm_refl.
    destruct (Window.Add w _); [apply calm_with_table, tame_window | by apply calm_detached].
Qed.

Lemma calm_run_once s r now : good s -> calm s (run_once net s r now).2.
Proof.
  intros Hs. unfold run_once. destruct (readProtocolFrame r) as [frame|e] eqn:Er; [| by apply calm_end].
  assert (Hi : is_u32 (fr_stream frame)).
  { destruct r as [[]|[] payload]; try done. unfold readProtocolFrame in Er.
    destruct (DecodeFrame payload) as [f|] eqn:Ed; [| done]. injection Er as <-.
    apply decode_sound in Ed as [Hw _]. apply frame_wf_typed in Hw. apply Hw. }
  destruct (Accept _ _) as [inbound|e]; [| by apply calm_end].
  set (s1 := with_seen s inbound now). assert (H1 : good s1) by by apply (good_frame _ _ _ s). assert (C1 : calm s s1) by by apply calm_same.
  eapply calm_trans; [exact C1 |]. destruct (fr_kind frame =? KindControl).
  - assert (H2 : calm s1 (handleControl net s1 frame now).2).
    { unfold handleControl. destruct (ValidateControlPayload _ _ _); [| apply calm_refl]. destruct (json_unmarshal _ _); [by apply calm_dispatch | apply calm_refl]. }
    pose proof (good_handleControl _ _ _ net s1 frame now H1 Hi) as H3.
    destruct (handleControl net s1 frame now) as [[] s2]; cbn [snd] in *; [exact H2 | eapply calm_trans; [exact H2 | by apply calm_end]].
  - destruct (fr_kind frame =? KindData); [| by apply calm_end].
    pose proof (calm_handleData s1 frame H1 Hi) as H2. pose proof (good_handleData _ _ _ net s1 frame H1 Hi) as H3.
    destruct (handleData net s1 frame) as [[] s2]; cbn [snd] in *; [exact H2 | eapply calm_trans; [exact H2 | by apply calm_end]].
Qed.

Lemma calm_terminate temporary s reason err : good s -> calm s (terminateAuthorization net temporary s reason err).
Proof.
  intros Hs. unfold terminateAuthorization. destruct (ss_terminated s); [apply calm_refl |].
  assert (H0 : good (with_authority s false true)) by by apply (good_frame _ _ _ s).
  set (s1 := fail_all _ err). assert (C1 : calm s s1) by (eapply calm_trans; [by apply (calm_same s (with_authority s false true)) | by apply calm_fail_all]).
  assert (H1 : good s1) by by apply good_fail_all. set (s2 := if String.eqb reason EmptyString then s1 else _).
  assert (C2 : calm s s2) by (unfold s2; destruct (String.eqb _ _); [exact C1 | eapply calm_trans; [exact C1 | by apply calm_sendControl]]).
  destruct (temporary err); (eapply calm_trans; [exact C2 | apply calm_close]).
Qed.

Lemma calm_heartbeat temporary lim s verdict pingID now : good s -> calm s (heartbeat_tick net temporary lim s verdict pingID now).
Proof.
  intros Hs. unfold heartbeat_tick. destruct verdict as [reason [err|]]; [by apply calm_terminate |].
  destruct (_ <? _); [by apply calm_end |]. destruct pingID as [id|e]; [| by apply calm_end]. set (m := MsgHeartbeat _).
  pose proof (calm_sendControl s 0 m Hs) as C2. assert (H2 : good (sendControl net s 0 m).2) by by apply good_sendControl.
  destruct (sendControl net s 0 m) as [[u|e] s']; cbn [snd] in *; (eapply calm_trans; [exact C2 |]); [by apply calm_same | by apply calm_end].
Qed.
End Net.
End Calm.

Lemma open_dom lim flow mode T : dom (tb_store T) ⊆ dom (tb_store (open_locked lim flow mode T).2).
Proof. unfold open_locked. destruct (_ <=? _); [done |]. destruct (_ =? 0); [done |]. cbn. set_solver. Qed.

Lemma open_routes maxStreams limit lim flow mode T id : table_ok maxStreams limit T ->
  id ∈ dom (tb_store T) -> id ∉ tb_streams T -> id ∉ tb_streams (open_locked lim flow mode T).2.
Proof.
  intros HT Hd Hn. unfold open_locked. destruct (_ <=? _); [done |]. destruct (Z.eqb_spec (tb_nextID T) 0) as [|Hz]; [done |]. cbn.
  destruct (tk_ids _ _ _ HT id Hd) as [_ [|Hlt]]; [done |]. apply not_elem_of_union. split; [| done]. intros ->%elem_of_singleton. lia.
Qed.

Section Handled.
Context (lim : Limits) (temporary : error -> bool) (limit start : Z).
Hypothesis queue_i64 : is_i64 (MaxStreamQueueBytes lim).
Notation good := (session_ok (MaxStreamsPerSession lim) limit start).

Lemma calm_open net s requestID e a l mode : good s -> calm s (openStreamTarget net lim s requestID e a l mode).2.
Proof using queue_i64.
  intros Hs. unfold openStreamTarget. destruct requestID as [rid|?]; [| apply calm_refl].
  pose proof (open_finished lim (id_flow (ss_id s)) mode (ss_table s)) as Hf. pose proof (open_dom lim (id_flow (ss_id s)) mode (ss_table s)) as Hd.
  pose proof (fun id => open_routes _ _ lim (id_flow (ss_id s)) mode (ss_table s) id (so_table _ _ _ _ Hs)) as Hu.
  destruct (open_locked_ok limit lim (id_flow (ss_id s)) mode (ss_table s) (so_table _ _ _ _ Hs) queue_i64) as [HT Hid].
  assert (Hr : forall id T, open_locked lim (id_flow (ss_id s)) mode (ss_table s) = (Ok id, T) -> tb_streams T = {[id]} ∪ tb_streams (ss_table s)).
  { intros id T. unfold open_locked. destruct (_ <=? _); [done |]. destruct (_ =? 0); [done |]. by intros [= <- <-]. }
  assert (He : forall err T, open_locked lim (id_flow (ss_id s)) mode (ss_table s) = (Err err, T) -> T = ss_table s).
  { intros id T. unfold open_locked. destruct (_ <=? _); [by intros [= _ <-] |]. destruct (_ =? 0); [by intros [= _ <-] | done]. }
  destruct (open_locked lim _ mode (ss_table s)) as [[id|err] T]; cbn [fst snd] in *.
  2: { rewrite (He err T eq_refl). by apply calm_same. }
  assert (Hi : is_u32 id) by (destruct (Hid id eq_refl) as (-> & _); apply (tk_next _ _ _ (so_table _ _ _ _ Hs))).
  set (m := MsgStreamOpen _). pose proof (good_table _ _ _ s T Hs HT) as H0.
  pose proof (good_sendControl _ _ _ net _ id m H0 Hi) as H1.
  destruct (ss_done s) eqn:Ed.
  - unfold sendControl, sendFrame. cbn [ss_done with_table]. rewrite Ed.
    pose proof (tame_detach _ _ T id (Some errSessionWriterClosed) HT) as [_ Hf' Hd'].
    split; cbn [finishStream with_table ss_done ss_closed ss_table snd]; try done; [intros _ | auto | set_solver |].
    + unfold detachStream. destruct (stream_at _ _); cbn; rewrite (Hr id T eq_refl); set_solver.
    + intros j Hj Hn. unfold detachStream. destruct (stream_at _ _); cbn; rewrite (Hr id T eq_refl); set_solver.
  - assert (C0 : calm s (with_table s T)) by (split; cbn; try done; by rewrite Ed).
    pose proof (calm_sendControl _ _ _ net _ id m H0) as C1.
    destruct (sendControl net (with_table s T) id m) as [[u|err] s1]; cbn [snd] in *.
    2: { eapply calm_trans; [exact C0 |]. eapply calm_trans; [exact C1 | by eapply calm_finishStream]. }
    destruct (_ && _); [| by eapply calm_trans].
    unfold sendWindowUpdate. set (m' := MsgStreamWindowUpdate _).
    pose proof (good_sendControl _ _ _ net s1 id m' H1 Hi) as H2. pose proof (calm_sendControl _ _ _ net s1 id m' H1) as C2.
    destruct (sendControl net s1 id m') as [[] s2]; cbn [snd] in *; (eapply calm_trans; [exact C0 |]; eapply calm_trans; [exact C1 |]); [exact C2 |].
    eapply calm_trans; [exact C2 | by eapply calm_finishStream].
Qed.

Lemma handled_ok s s' : handled lim temporary s s' -> good s -> good s' /\ calm s s'.
Proof using queue_i64.
  intros H Hs. destruct H.
  - split; [by apply good_open | by apply calm_open].
  - split; [by apply good_sendBytes | by eapply calm_sendBytes].
  - unfold sendDatagram. destruct (_ <? _); [split; [done | apply calm_refl] | split; [by apply good_sendFrame | by eapply calm_sendFrame]].
  - split; [by apply good_halfCloseStream |]. unfold halfCloseStream. destruct (negb _); [apply calm_refl | by eapply calm_sendControl].
  - split; [by apply good_closeStream | by eapply calm_detached].
  - split; [by apply good_errorStream | by eapply calm_detached].
  - split; [by apply good_grantCredits |]. unfold grantCredits. destruct (_ !! _) as [[? [w|]]|]; try apply calm_refl.
    destruct (size <=? 0); [apply calm_refl | by eapply calm_sendControl].
  - split; [| by eapply tame_handler]. apply (good_step lim temporary limit start queue_i64 s); [done | by eapply se_handler].
  - split; [by apply good_heartbeat | by eapply calm_heartbeat].
  - split; [by apply good_terminate | by eapply calm_terminate].
  - split; [by apply good_fail_all | by eapply calm_fail_all].
  - split; [by apply good_close | apply calm_close].
  - split; [by apply (good_frame _ _ _ s) | by apply calm_table; [apply tame_refl | ..]].
  - split; [by apply (good_step lim temporary limit start queue_i64 s), se_others |]. apply calm_with_table. by split.
Qed.
End Handled.

(** ** The Gateway while it closes *)

Section World.
Context (who : handle -> entry) (lim : Limits) (temporary : error -> bool).
Hypothesis queue_i64 : is_i64 (MaxStreamQueueBytes lim).
Hypothesis session_i64 : is_i64 (MaxSessionQueueBytes lim).
Hypothesis sessions_nonneg : 0 <= MaxAgentSessions lim.
Notation step := (gateway_step who lim temporary).

(** A session whose read loop has ended routes nothing and is closed. *)
Record session_fine (s : session) (reading : bool) : Prop := SessionFine {
  sf_good : exists start, session_ok (MaxStreamsPerSession lim) (MaxSessionQueueBytes lim) start s;
  sf_finished : all_finished (ss_table s);
  sf_ended : reading = false -> ss_done s = true /\ tb_streams (ss_table s) = ∅;
}.

Definition session_at (w : gateway) (h : handle) (P : session -> Prop) : Prop :=
  exists s reading, gw_sessions w !! h = Some (s, reading) /\ P s.

(** What the goroutine of a session has done to it. *)
Definition closing_fine (c : closing) (s : session) : Prop :=
  (c <> Begun -> ss_done s = true) /\
  forall before, c = Told before \/ c = Returned before ->
    ss_closed s = Some (default (StatusGoingAway, "gateway shutting down") before).

Definition shut (w : gateway) : Prop := forall h, h ∈ gw_taken w -> session_at w h (fun s => ss_done s = true).
Definition drained (w : gateway) : Prop := forall h, h ∈ gw_taken w -> exists before, gw_closing w !! h = Some (Returned before).

Definition phase_fine (w : gateway) : Prop :=
  match gw_phase w with
  | Serving | Draining => gw_taken w = [] /\ gw_closing w = ∅
  | Failing rest => gw_closing w = ∅ /\ rest ⊆ gw_taken w
  | Waiting => True
  | Forcing rest _ => rest ⊆ gw_taken w /\ forall h, h ∈ gw_taken w -> h ∉ rest -> session_at w h (fun s => ss_done s = true)
  | Exporting errs | Closed errs => shut w /\ (errs = [] -> drained w)
  end.

Definition before_taking (ph : phase) : bool := match ph with Serving | Draining => true | _ => false end.

Record gateway_ok (w : gateway) : Prop := GatewayOk {
  go_sessions : forall h s reading, gw_sessions w !! h = Some (s, reading) -> session_fine s reading;
  go_registry : registry_ok who lim (gw_registry w);
  go_registered : forall d h, registered who (gw_registry w) d h -> is_Some (gw_sessions w !! h);
  go_draining : gw_phase w <> Serving -> rg_draining (gw_registry w) = true;
  go_empty : before_taking (gw_phase w) = false -> rg_tunnels (gw_registry w) = ∅ /\ rg_primaries (gw_registry w) = ∅;
  go_taken : forall h, h ∈ gw_taken w -> is_Some (gw_sessions w !! h);
  go_closing : forall h c, gw_closing w !! h = Some c -> session_at w h (closing_fine c);
  go_phase : phase_fine w;
}.

(** *** One session moves *)

Lemma closing_calm c s s' : calm s s' -> closing_fine c s -> closing_fine c s'.
Proof using All. intros Hc [Hd Ht]. split; [intros H; by apply (cm_done _ _ Hc), Hd | intros before H; by apply (cm_closed _ _ Hc), Ht]. Qed.

Lemma session_at_put w h s reading s' reading' h' (P : session -> Prop) :
  gw_sessions w !! h = Some (s, reading) -> (P s -> P s') -> session_at w h' P -> session_at (put_session h s' reading' w) h' P.
Proof using All.
  intros E Hp (s1 & r1 & E1 & H1). destruct (decide (h' = h)) as [->|Hne].
  - exists s', reading'. split; [apply lookup_insert_eq |]. apply Hp. congruence.
  - exists s1, r1. split; [by rewrite <- E1; apply lookup_insert_ne |]. exact H1.
Qed.

Lemma put_session_ok w h s reading s' reading' :
  gateway_ok w -> gw_sessions w !! h = Some (s, reading) -> calm s s' -> session_fine s' reading' ->
  gateway_ok (put_session h s' reading' w).
Proof using All.
  intros [Hs Hr Hreg Hd He Ht Hc Hp] E Hcalm Hf.
  assert (Hsome : forall h', is_Some (gw_sessions w !! h') -> is_Some (<[h := (s', reading')]> (gw_sessions w) !! h')).
  { intros h' H. destruct (decide (h' = h)) as [->|Hne]; [by rewrite lookup_insert_eq | by rewrite lookup_insert_ne]. }
  assert (Hdone : forall h', session_at w h' (fun s => ss_done s = true) -> session_at (put_session h s' reading' w) h' (fun s => ss_done s = true)).
  { intros h'. apply (session_at_put w h s reading); [exact E | apply (cm_done _ _ Hcalm)]. }
  split; cbn [put_session gw_sessions gw_registry gw_taken gw_closing gw_phase]; try done.
  - intros h' s1 r1 [[<- [= <- <-]]|[Hne E1]]%lookup_insert_Some; [exact Hf | by eapply Hs].
  - intros d h' H. by apply Hsome, (Hreg d).
  - intros h' H. by apply Hsome, Ht.
  - intros h' c H. apply (session_at_put w h s reading); [exact E | by apply closing_calm | by apply Hc].
  - unfold phase_fine, shut, drained in *. cbn. destruct (gw_phase w); try done.
    + destruct Hp as [Hp1 Hp2]. split; [exact Hp1 |]. intros h' Hin Hn. by apply Hdone, Hp2.
    + destruct Hp as [Hp1 Hp2]. split; [intros h' Hin; by apply Hdone, Hp1 | exact Hp2].
    + destruct Hp as [Hp1 Hp2]. split; [intros h' Hin; by apply Hdone, Hp1 | exact Hp2].
Qed.

(** What is calm and good keeps a session fine. *)
Lemma fine_kept s s' reading : session_fine s reading -> calm s s' ->
  (forall start, session_ok (MaxStreamsPerSession lim) (MaxSessionQueueBytes lim) start s -> session_ok (MaxStreamsPerSession lim) (MaxSessionQueueBytes lim) start s') ->
  session_fine s' reading.
Proof using All.
  intros [[start Hg] Hf He] Hc Hok. split; [exists start; by apply Hok | by apply (cm_finished _ _ Hc) |].
  intros Hr. destruct (He Hr) as [Hd Hs]. split; [by apply (cm_done _ _ Hc) |]. pose proof (cm_routed _ _ Hc Hd). set_solver.
Qed.

Lemma read_fine net s r now : session_fine s true ->
  session_fine (run_once net s r now).2 (run_once net s r now).1 /\ calm s (run_once net s r now).2.
Proof using All.
  intros [[start Hg] Hf _]. pose proof (calm_run_once _ _ _ net s r now Hg) as Hc. split; [| exact Hc].
  split; [exists start; by apply good_run_once | by apply (cm_finished _ _ Hc) |].
  intros E. destruct (run_once net s r now) as [go s'] eqn:Er. cbn [fst snd] in *. subst go.
  by destruct (run_stop_streams _ _ _ net s r now s' Hg Er) as (? & ? & _).
Qed.

Lemma new_fine sessions h s : (forall h s reading, sessions !! h = Some (s, reading) -> session_fine s reading) ->
  new_session who lim sessions h s -> session_fine s true.
Proof using All.
  intros Hs H. destruct H as [i g rejects inbound lastOutbound challenge now Hg Hl _ _|h0 s0 reading flow g inbound challenge now s E Hg _ _ Hr].
  - split; [| by intros id tn; cbn; rewrite lookup_empty | done].
    exists lastOutbound. by apply (good_new lim _ _ _ i g rejects inbound lastOutbound challenge now session_i64 Hg Hl eq_refl eq_refl).
  - destruct (Hs _ _ _ E) as [[start [HT _]] _ _]. unfold resumeInto in Hr. destruct (negb _); [done |]. injection Hr as <-.
    split; [| by intros id tn; cbn; rewrite lookup_empty | done]. exists 0.
    destruct (good_new lim (MaxSessionQueueBytes lim) 0 _ (ss_id s0) g (tb_rejects (ss_table s0)) inbound 0 challenge now session_i64 Hg ltac:(done) eq_refl eq_refl eq_refl) as [[] HW].
    split; [split; cbn in *; try done | exact HW]. pose proof (SessTable.tk_next _ _ _ HT) as Hn. exact Hn.
Qed.

(** *** The registry *)

Lemma unregistered_keeps m r h d h' : registered who (unregisterSession who m r h) d h' -> registered who r d h'.
Proof using All.
  unfold registered, device_tunnels, unregisterSession. destruct (who h) as [dev id expires]. destruct (rg_tunnels r !! dev) as [ts|] eqn:E; [| done].
  destruct (negb _); [done |]. cbn [rg_tunnels]. destruct (decide (d = dev)) as [->|Hne].
  - rewrite E. cbn. case_bool_decide; [rewrite lookup_delete_eq; done | rewrite lookup_insert_eq; cbn]. by intros [_ H']%lookup_delete_Some.
  - case_bool_decide; [by rewrite lookup_delete_ne | by rewrite lookup_insert_ne].
Qed.

Lemma unregistered_only m r h d h' : registered who r d h' -> h' <> h -> registered who (unregisterSession who m r h) d h'.
Proof using All.
  unfold registered, device_tunnels, unregisterSession. destruct (who h) as [dev id expires]. destruct (rg_tunnels r !! dev) as [ts|] eqn:E; [| done].
  destruct (bool_decide_reflect (ts !! id = Some h)) as [Hin|]; cbn [negb]; [| done]. cbn [rg_tunnels]. intros H Hne. destruct (decide (d = dev)) as [->|Hd].
  - rewrite E in H. cbn in H. assert (Hk : delete id ts !! e_session (who h') = Some h').
    { apply lookup_delete_Some. split; [| exact H]. intros E2. congruence. }
    destruct (bool_decide_reflect (delete id ts = ∅)) as [He|He]; [by rewrite He, lookup_empty in Hk |]. rewrite lookup_insert_eq. exact Hk.
  - case_bool_decide; [by rewrite lookup_delete_ne | by rewrite lookup_insert_ne].
Qed.

Lemma unregistered_draining m r h : rg_draining (unregisterSession who m r h) = rg_draining r.
Proof using All.
  unfold unregisterSession. destruct (who h). destruct (rg_tunnels r !! _); [| done]. by destruct (negb _).
Qed.

Lemma unregistered_empty m r h : rg_tunnels r = ∅ -> unregisterSession who m r h = r.
Proof using All. intros E. unfold unregisterSession. destruct (who h). by rewrite E, lookup_empty. Qed.

Lemma draining_refuses m r h : rg_draining r = true -> registerSession who lim m r h = (Err (ErrMsg "gateway is draining"), r, None).
Proof using All. intros E. unfold registerSession. destruct (who h). by rewrite E. Qed.

Lemma room_within m ts primary id kept replaced i h : make_room who lim m ts primary id = Some (kept, replaced) -> kept !! i = Some h -> ts !! i = Some h.
Proof using All.
  unfold make_room. destruct (ts !! id); [by intros [= <- _] |]. destruct (_ <=? _); [| by intros [= <- _]].
  destruct (oldestStandby _ _ _) as [v|]; [| done]. intros [= <- _]. by intros [_ H]%lookup_delete_Some.
Qed.

Lemma registered_new m r h d h' : registered who (registerSession who lim m r h).1.2 d h' -> registered who r d h' \/ h' = h.
Proof using All.
  unfold registerSession. destruct (who h) as [dev id expires]. destruct (rg_draining r); [by left |]. destruct (_ && _); [by left |].
  destruct (make_room _ _ _ _ _ _) as [[kept replaced]|] eqn:Er; [| by left]. cbn [fst snd]. unfold registered. unfold device_tunnels at 1. cbn [rg_tunnels].
  destruct (decide (d = dev)) as [->|Hd]; [| rewrite lookup_insert_ne by done; by left]. rewrite lookup_insert_eq. cbn.
  intros [[_ <-]|[_ H]]%lookup_insert_Some; [by right | left]. by eapply room_within.
Qed.

Lemma registered_ok' m r h : registry_ok who lim r -> registry_ok who lim (registerSession who lim m r h).1.2 /\
  registry_ok who lim (unregisterSession who m r h).
Proof using All. intros H. split; [by apply registerSession_ok | by apply unregisterSession_ok]. Qed.

(** The registry moves: nothing comes in while the Gateway drains. *)
Lemma put_registry_ok w r :
  gateway_ok w -> registry_ok who lim r -> (gw_phase w <> Serving -> rg_draining r = true) ->
  (before_taking (gw_phase w) = false -> rg_tunnels r = ∅ /\ rg_primaries r = ∅) ->
  (forall d h, registered who r d h -> is_Some (gw_sessions w !! h)) -> gateway_ok (put_registry r w).
Proof using All. intros [Hs Hr Hreg Hd He Ht Hc Hp] H1 H2 H3 H4. by split. Qed.

Lemma unregister_ok w m h : gateway_ok w -> gateway_ok (put_registry (unregisterSession who m (gw_registry w) h) w).
Proof using All.
  intros Hok. apply put_registry_ok; [done | | | |].
  - by apply unregisterSession_ok, Hok.
  - intros Hp. rewrite unregistered_draining. by apply Hok.
  - intros Hp. pose proof (go_empty _ Hok Hp) as [E1 E2]. by rewrite unregistered_empty.
  - intros d h' H. by eapply (go_registered _ Hok), unregistered_keeps.
Qed.

Lemma register_ok w m h : gateway_ok w -> is_Some (gw_sessions w !! h) -> gateway_ok (put_registry (registerSession who lim m (gw_registry w) h).1.2 w).
Proof using All.
  intros Hok Hh. apply put_registry_ok; [done | by apply registerSession_ok, Hok | | |].
  - intros Hp. rewrite draining_refuses; by apply Hok.
  - intros Hp. rewrite draining_refuses; [by apply Hok |]. apply Hok. by intros E; rewrite E in Hp.
  - intros d h' [H| ->]%registered_new; [by eapply Hok | done].
Qed.

(** [Close] goes on. *)
Lemma put_phase_ok w ph : gateway_ok w -> gw_phase w <> Serving -> ph <> Serving -> before_taking (gw_phase w) = false ->
  phase_fine (put_phase ph w) -> gateway_ok (put_phase ph w).
Proof using All.
  intros [Hs Hr Hreg Hd He Ht Hc Hp] H1 H2 H3 H4. split; try done.
  - intros _. by apply Hd.
  - intros _. by apply He.
Qed.

Lemma put_closing_ok w h c c' : gateway_ok w -> gw_closing w !! h = Some c -> session_at w h (closing_fine c') ->
  (forall before, c = Returned before -> c' = c) -> gateway_ok (put_closing h c' w).
Proof using All.
  intros [Hs Hr Hreg Hd He Ht Hc Hp] E Hf Hstay. split; try done.
  - cbn [put_closing gw_closing]. intros h' c1 [[<- <-]|[Hne E1]]%lookup_insert_Some; [exact Hf | by apply Hc].
  - assert (Hdr : drained w -> drained (put_closing h c' w)).
    { intros Hdw h' Hin. destruct (Hdw h' Hin) as [before Eb]. cbn. destruct (decide (h' = h)) as [->|Hne]; [| exists before; by rewrite lookup_insert_ne].
      exists before. rewrite lookup_insert_eq. f_equal. rewrite E in Eb. injection Eb as Eb. rewrite <- Eb. by apply (Hstay before). }
    unfold phase_fine in *. cbn [put_closing gw_phase gw_taken gw_closing]. destruct (gw_phase w); try done.
    + destruct Hp as [_ Hp]. by rewrite Hp, lookup_empty in E.
    + destruct Hp as [_ Hp]. by rewrite Hp, lookup_empty in E.
    + destruct Hp as [Hp _]. by rewrite Hp, lookup_empty in E.
    + destruct Hp as [Hp1 Hp2]. split; [exact Hp1 | intros He'; by apply Hdr, Hp2].
    + destruct Hp as [Hp1 Hp2]. split; [exact Hp1 | intros He'; by apply Hdr, Hp2].
Qed.
Lemma in_closeAll r h :
  h ∈ (Registry.closeAll r).2 <-> exists d ts id, rg_tunnels r !! d = Some ts /\ ts !! id = Some h.
Proof using All.
  unfold Registry.closeAll. cbn [snd]. rewrite list_elem_of_In, in_concat. split.
  - intros (l & Hl & Hh). apply list_elem_of_In, list_elem_of_fmap in Hl as ([d ts] & -> & Hd%elem_of_map_to_list).
    apply list_elem_of_In, values_in in Hh as [id Hid]. by exists d, ts, id.
  - intros (d & ts & id & Hd & Hid). exists (snd <$> map_to_list ts). split.
    + apply list_elem_of_In, list_elem_of_fmap. exists (d, ts). split; [done |]. by apply elem_of_map_to_list.
    + apply list_elem_of_In, values_in. by exists id.
Qed.

Lemma registered_closeAll r h : registry_ok who lim r -> h ∈ (Registry.closeAll r).2 <-> exists d, registered who r d h.
Proof using All.
  intros Hr. rewrite in_closeAll. unfold registered, device_tunnels. split.
  - intros (d & ts & id & Hd & Hid). exists d. rewrite Hd. cbn. by destruct (rk_keys _ _ _ Hr _ _ _ _ Hd Hid) as [_ ->].
  - intros (d & H). destruct (rg_tunnels r !! d) as [ts|] eqn:Hd; cbn in H; [by exists d, ts, (e_session (who h)) | by rewrite lookup_empty in H].
Qed.

Lemma fail_fine s reading err : session_fine s reading -> session_fine (fail_all s err) reading /\ calm s (fail_all s err).
Proof using All.
  intros Hf. destruct (sf_good _ _ Hf) as [start Hg]. pose proof (calm_fail_all _ _ _ s err Hg) as Hc. split; [| exact Hc].
  apply (fine_kept s); [exact Hf | exact Hc |]. intros. by apply good_fail_all.
Qed.

Lemma ended_fine s reading c : session_fine s reading -> (forall c0, ss_closed s = Some c0 -> c = Some c0) ->
  session_fine (with_end s true c) reading /\ calm s (with_end s true c).
Proof using All.
  intros Hf Hc. assert (C : calm s (with_end s true c)) by by apply calm_table; [apply tame_refl | ..].
  split; [| exact C]. apply (fine_kept s); [exact Hf | exact C |]. intros start Hs. by apply (good_frame _ _ _ s).
Qed.

Lemma shutting w h s c : gw_sessions w !! h = Some s -> closing_fine c s.1 -> session_at w h (closing_fine c).
Proof using All. destruct s as [s reading]. intros E H. by exists s, reading. Qed.

(** The new session, the drain, the emptied registry and the goroutines. *)
Lemma accept_ok w h s : gateway_ok w -> gw_sessions w !! h = None -> session_fine s true -> gateway_ok (put_session h s true w).
Proof using All.
  intros [Hs Hr Hreg Hd He Ht Hc Hp] En Hf.
  assert (Hsome : forall h', is_Some (gw_sessions w !! h') -> is_Some (<[h := (s, true)]> (gw_sessions w) !! h')).
  { intros h' H. destruct (decide (h' = h)) as [->|Hne]; [by rewrite lookup_insert_eq | by rewrite lookup_insert_ne]. }
  assert (Hat : forall h' P, session_at w h' P -> session_at (put_session h s true w) h' P).
  { intros h' P (s1 & r1 & E1 & H1). exists s1, r1. split; [| exact H1]. cbn. rewrite lookup_insert_ne; [exact E1 | congruence]. }
  split; cbn [put_session gw_sessions gw_registry gw_taken gw_closing gw_phase]; try done.
  - intros h' s1 r1 [[<- [= <- <-]]|[Hne E1]]%lookup_insert_Some; [exact Hf | by eapply Hs].
  - intros d h' H. by apply Hsome, (Hreg d).
  - intros h' H. by apply Hsome, Ht.
  - intros h' c H. by apply Hat, Hc.
  - unfold phase_fine, shut, drained in *. cbn. destruct (gw_phase w); try done.
    + destruct Hp as [Hp1 Hp2]. split; [exact Hp1 |]. intros h' Hin Hn. by apply Hat, Hp2.
    + destruct Hp as [Hp1 Hp2]. split; [intros h' Hin; by apply Hat, Hp1 | exact Hp2].
    + destruct Hp as [Hp1 Hp2]. split; [intros h' Hin; by apply Hat, Hp1 | exact Hp2].
Qed.

Lemma drain_ok w : gateway_ok w -> gw_phase w = Serving -> gateway_ok (put_phase Draining (put_registry (beginDrain (gw_registry w)) w)).
Proof using All.
  intros [Hs Hr Hreg Hd He Ht Hc Hp] E. split; try done.
  - by apply (same_tables_ok _ _ (gw_registry w)).
  - unfold phase_fine in *. cbn. by rewrite E in Hp.
Qed.

Lemma take_ok w : gateway_ok w -> gw_phase w = Draining ->
  let emptied := Registry.closeAll (gw_registry w) in
  gateway_ok (MkGateway emptied.1 (gw_sessions w) emptied.2 ∅ (Failing emptied.2)).
Proof using All.
  intros [Hs Hr Hreg Hd He Ht Hc Hp] E emptied. split; try done.
  - by apply closeAll_ok.
  - cbn [gw_taken gw_sessions]. intros h [d H]%registered_closeAll; [by eapply Hreg | exact Hr].
Qed.

Lemma spawn_ok w : gateway_ok w -> gw_phase w = Failing [] ->
  gateway_ok (MkGateway (gw_registry w) (gw_sessions w) (gw_taken w) (gset_to_gmap Begun (list_to_set (gw_taken w))) Waiting).
Proof using All.
  intros [Hs Hr Hreg Hd He Ht Hc Hp] E. rewrite E in Hd, He. split; try done.
  - cbn. intros _. by apply Hd.
  - cbn [gw_closing gw_sessions]. intros h c [Hin%elem_of_list_to_set <-]%lookup_gset_to_gmap_Some.
    destruct (Ht h Hin) as [[s reading] Es]. exists s, reading. split; [exact Es |]. split; [done |]. by intros before [?|?].
Qed.

Lemma gateway_step_ok w w' : gateway_ok w -> step w w' -> gateway_ok w'.
Proof using All.
  intros Hok H. destruct H as [w h s En Hn|w m h Hh|w m h s reading E Hd|w h net s r now E|w h s reading s' E Hh|w Hp|w Hp|w h rest s reading Hp E
    |w Hp|w h s reading Ec E|w m h Ec|w h s reading Ec E|w h before Ec|w Hp Hd|w err Hp|w h m rest err s reading Hp E|w err Hp|w errs statusErr Hp].
  - apply accept_ok; [done | done |]. eapply new_fine, Hn. apply Hok.
  - by apply register_ok.
  - by apply unregister_ok.
  - destruct (read_fine net s r now (go_sessions _ Hok _ _ _ E)) as [Hf Hc]. by eapply put_session_ok.
  - pose proof (go_sessions _ Hok _ _ _ E) as Hf. assert (Hc : calm s s').
    { destruct (sf_good _ _ Hf) as [start Hg]. exact (proj2 (handled_ok lim temporary _ start queue_i64 s s' Hh Hg)). }
    eapply put_session_ok; [done | exact E | exact Hc |]. apply (fine_kept s); [exact Hf | exact Hc |]. intros start Hg. by apply (handled_ok lim temporary _ start queue_i64 s s' Hh Hg).
  - by apply drain_ok.
  - by apply take_ok.
  - destruct (fail_fine s reading errGatewayShuttingDown (go_sessions _ Hok _ _ _ E)) as [Hf Hc].
    pose proof (put_session_ok _ _ _ _ _ _ Hok E Hc Hf) as Hok'. apply put_phase_ok; [exact Hok' | cbn; by rewrite Hp | done | cbn; by rewrite Hp |].
    pose proof (go_phase _ Hok) as H. unfold phase_fine in *. rewrite Hp in H. cbn. split; [apply H |]. destruct H as [_ H]. set_solver.
  - by apply spawn_ok.
  - destruct (ended_fine s reading (ss_closed s) (go_sessions _ Hok _ _ _ E) (fun c H => H)) as [Hf Hc].
    pose proof (put_session_ok _ _ _ _ _ _ Hok E Hc Hf) as Hok'. eapply put_closing_ok; [exact Hok' | exact Ec | | done].
    eapply shutting; [apply lookup_insert_eq |]. split; [done |]. by intros before [?|?].
  - pose proof (unregister_ok w m h Hok) as Hok'. destruct (go_closing _ Hok _ _ Ec) as (s & reading & E & [Hd _]).
    eapply put_closing_ok; [exact Hok' | exact Ec | | done]. eapply shutting; [exact E |]. split; [intros _; by apply Hd | by intros before [?|?]].
  - set (c := match ss_closed s with None => Some (StatusGoingAway, "gateway shutting down"%string) | c => c end).
    destruct (ended_fine s reading c (go_sessions _ Hok _ _ _ E)) as [Hf Hc]; [by intros c0 E0; unfold c; rewrite E0 |].
    pose proof (put_session_ok _ _ _ _ _ _ Hok E Hc Hf) as Hok'. eapply put_closing_ok; [exact Hok' | exact Ec | | done].
    eapply shutting; [apply lookup_insert_eq |]. split; [done |]. intros before [[= <-]|?]; [| done]. cbn. by destruct (ss_closed s).
  - destruct (go_closing _ Hok _ _ Ec) as (s & reading & E & [Hd Ht]). eapply put_closing_ok; [exact Hok | exact Ec | | done].
    exists s, reading. split; [exact E |]. split; [intros _; by apply Hd |]. intros b [?|[= <-]]; [done |]. apply Ht. by left.
  - apply put_phase_ok; [done | by rewrite Hp | done | by rewrite Hp |]. split; [| intros _; exact Hd].
    intros h Hin. destruct (Hd h Hin) as [before Eb]. destruct (go_closing _ Hok _ _ Eb) as (s & reading & E & [Hdone _]). exists s, reading. split; [exact E | by apply Hdone].
  - apply put_phase_ok; [done | by rewrite Hp | done | by rewrite Hp |]. split; [done |]. by intros h Hin Hn.
  - destruct (ended_fine s reading (ss_closed s) (go_sessions _ Hok _ _ _ E) (fun c H => H)) as [Hf Hc].
    pose proof (unregister_ok _ m h (put_session_ok _ _ _ _ _ _ Hok E Hc Hf)) as Hok'.
    apply put_phase_ok; [exact Hok' | cbn; by rewrite Hp | done | cbn; by rewrite Hp |].
    pose proof (go_phase _ Hok') as H. unfold phase_fine in H. cbn [put_registry put_session gw_phase] in H. rewrite Hp in H. destruct H as [H1 H2].
    split; [cbn in *; set_solver |]. intros h' Hin Hn. destruct (decide (h' = h)) as [->|Hne].
    + eexists _, _. split; [apply lookup_insert_eq | done].
    + apply (H2 h' Hin). by intros [?|?]%elem_of_cons.
  - apply put_phase_ok; [done | by rewrite Hp | done | by rewrite Hp |]. pose proof (go_phase _ Hok) as H. unfold phase_fine in H. rewrite Hp in H.
    split; [| done]. intros h Hin. by apply H; [| apply not_elem_of_nil].
  - apply put_phase_ok; [done | by rewrite Hp | done | by rewrite Hp |]. pose proof (go_phase _ Hok) as H. unfold phase_fine in H. rewrite Hp in H.
    destruct H as [H1 H2]. split; [exact H1 |]. by intros [-> _]%app_eq_nil; apply H2.
Qed.

Lemma newGateway_ok : gateway_ok newGateway.
Proof using All. split; cbn; try done; [by apply emptyRegistry_ok | by intros h ?%elem_of_nil]. Qed.

Lemma reached_ok w w' : gateway_ok w -> steps step w w' -> gateway_ok w'.
Proof using All. intros Hok. apply steps_invariant; [exact Hok |]. intros a b. apply gateway_step_ok. Qed.

(** *** From the drain to the end *)

(** [Close] has failed the session. *)
Definition failed (w : gateway) (h : handle) : Prop :=
  match gw_phase w with
  | Serving | Draining => False
  | Failing rest => h ∈ gw_taken w /\ h ∉ rest
  | _ => h ∈ gw_taken w
  end.

Record since (w0 w : gateway) : Prop := Since {
  sn_phase : gw_phase w <> Serving;
  sn_registered : forall d h, registered who (gw_registry w0) d h ->
    (if before_taking (gw_phase w) then registered who (gw_registry w) d h else h ∈ gw_taken w) \/ session_at w h (fun s => ss_done s = true);
  sn_streams : forall h s0 reading id, gw_sessions w0 !! h = Some (s0, reading) -> id ∈ dom (tb_store (ss_table s0)) ->
    session_at w h (fun s => id ∈ dom (tb_store (ss_table s)) /\ (failed w h -> id ∉ tb_streams (ss_table s)));
}.

Lemma since_start w : gateway_ok w -> gw_phase w = Draining -> since w w.
Proof using All.
  intros Hok E. split; [by rewrite E | rewrite E; by left |].
  intros h s0 reading id E0 Hid. exists s0, reading. split; [done |]. split; [done |]. unfold failed. by rewrite E.
Qed.

(** A session moves, and [Close] stays where it is for all the others. *)
Lemma since_put w0 w h s reading s' reading' w' :
  since w0 w -> gw_sessions w !! h = Some (s, reading) -> calm s s' ->
  gw_sessions w' = <[h := (s', reading')]> (gw_sessions w) -> gw_taken w' = gw_taken w ->
  before_taking (gw_phase w') = before_taking (gw_phase w) -> gw_phase w' <> Serving ->
  (forall d h', registered who (gw_registry w) d h' -> registered who (gw_registry w') d h' \/ session_at w' h' (fun s => ss_done s = true)) ->
  (forall h', failed w' h' -> failed w h' \/ (h' = h /\ tb_streams (ss_table s') = ∅)) ->
  since w0 w'.
Proof using All.
  intros [Hp Hr Hs] E Hc Es Et Eb Hn Hreg Hf.
  assert (Hat : forall h' P, (P s -> P s') -> session_at w h' P -> session_at w' h' P).
  { intros h' P HP H. destruct (session_at_put w h s reading s' reading' h' P E HP H) as (s1 & r1 & E1 & H1). exists s1, r1. by rewrite Es. }
  split; [exact Hn | |].
  - intros d h' H. rewrite Eb, Et. destruct (Hr d h' H) as [H'|H']; [| right; apply (Hat h'); [apply (cm_done _ _ Hc) | exact H']].
    destruct (before_taking (gw_phase w)); [by apply Hreg | by left].
  - intros h' s0 r0 id E0 Hid. destruct (Hs h' s0 r0 id E0 Hid) as (s1 & r1 & E1 & Hin & Hu). destruct (decide (h' = h)) as [->|Hne].
    + rewrite E in E1. injection E1 as <- <-. exists s', reading'. split; [rewrite Es; apply lookup_insert_eq |].
      split; [by apply (cm_dom _ _ Hc) |]. intros [H|[_ ->]]%Hf; [| set_solver]. apply (cm_unrouted _ _ Hc); [exact Hin | by apply Hu].
    + exists s1, r1. split; [rewrite Es; by rewrite lookup_insert_ne |]. split; [exact Hin |]. intros [H|[-> _]]%Hf; [by apply Hu | done].
Qed.

(** Nothing moves but [Close] and the registry. *)
Lemma since_same w0 w w' :
  since w0 w -> gw_sessions w' = gw_sessions w -> gw_taken w' = gw_taken w -> before_taking (gw_phase w') = before_taking (gw_phase w) ->
  gw_phase w' <> Serving ->
  (forall d h', registered who (gw_registry w) d h' -> registered who (gw_registry w') d h' \/ session_at w' h' (fun s => ss_done s = true)) ->
  (forall h', failed w' h' -> failed w h') -> since w0 w'.
Proof using All.
  intros [Hp Hr Hs] Es Et Eb Hn Hreg Hf. unfold session_at in *. split; [exact Hn | |]; unfold session_at; rewrite ?Es, ?Et, ?Eb.
  - intros d h H. destruct (Hr d h H) as [H'|H']; [| by right]. destruct (before_taking (gw_phase w)); [| by left].
    destruct (Hreg d h H') as [|H'']; [by left | right; by rewrite Es in H''].
  - intros h s0 r0 id E0 Hid. destruct (Hs h s0 r0 id E0 Hid) as (s1 & r1 & E1 & Hin & Hu). exists s1, r1.
    split; [exact E1 |]. split; [exact Hin |]. intros H. by apply Hu, Hf.
Qed.

Lemma calm_handled s s' start : handled lim temporary s s' -> session_ok (MaxStreamsPerSession lim) (MaxSessionQueueBytes lim) start s -> calm s s'.
Proof using All. intros H Hg. exact (proj2 (handled_ok lim temporary _ start queue_i64 s s' H Hg)). Qed.

Lemma since_step w0 w w' : gateway_ok w -> since w0 w -> step w w' -> since w0 w'.
Proof using All.
  intros Hok Hsn H. pose proof (sn_phase _ _ Hsn) as Hph.
  destruct H as [w h s En Hn|w m h Hh|w m h s reading E Hd|w h net s r now E|w h s reading s' E Hh|w Hp|w Hp|w h rest s reading Hp E
    |w Hp|w h s reading Ec E|w m h Ec|w h s reading Ec E|w h before Ec|w Hp Hd|w err Hp|w h m rest err s reading Hp E|w err Hp|w errs statusErr Hp].
  - destruct Hsn as [Hp Hr Hs]. assert (Hat : forall h' P, session_at w h' P -> session_at (put_session h s true w) h' P).
    { intros h' P (s1 & r1 & E1 & H1). exists s1, r1. split; [| exact H1]. cbn. rewrite lookup_insert_ne; [exact E1 | congruence]. }
    split; [exact Hp | |].
    + intros d h' H. destruct (Hr d h' H) as [H'|H']; [by left | right; by apply Hat].
    + intros h' s0 r0 id E0 Hid. by apply Hat, (Hs h' s0 r0).
  - apply (since_same w0 w); try done. intros d h'. left. rewrite draining_refuses; [done |]. by apply Hok.
  - apply (since_same w0 w); try done. intros d h' Hreg. destruct (decide (h' = h)) as [->|Hne]; [right; by exists s, reading | left; by apply unregistered_only].
  - destruct (read_fine net s r now (go_sessions _ Hok _ _ _ E)) as [Hf Hc].
    apply (since_put w0 w h s true (run_once net s r now).2 (run_once net s r now).1); try done; by left.
  - destruct (sf_good _ _ (go_sessions _ Hok _ _ _ E)) as [start Hg].
    apply (since_put w0 w h s reading s' reading); try done; [by eapply calm_handled | by left | by left].
  - done.
  - destruct Hsn as [_ Hr Hs]. split; [done | |].
    + intros d h Hreg. destruct (Hr d h Hreg) as [H'|H']; [left | by right]. cbn [before_taking gw_phase gw_taken].
      rewrite Hp in H'. apply registered_closeAll; [apply Hok | by exists d].
    + intros h s0 r0 id E0 Hid. destruct (Hs h s0 r0 id E0 Hid) as (s1 & r1 & E1 & Hin & _). exists s1, r1. split; [exact E1 |]. split; [exact Hin |].
      by intros [? ?].
  - destruct (fail_fine s reading errGatewayShuttingDown (go_sessions _ Hok _ _ _ E)) as [_ Hc].
    apply (since_put w0 w h s reading (fail_all s errGatewayShuttingDown) reading); try done; [by rewrite Hp | by left |].
    intros h' [Hin Hn]. destruct (decide (h' = h)) as [->|Hne]; [by right | left]. unfold failed. rewrite Hp. split; [exact Hin |]. by intros [?|?]%elem_of_cons.
  - apply (since_same w0 w); try done; [by rewrite Hp | by left |].
    intros h' Hin. unfold failed. rewrite Hp. split; [exact Hin | by apply not_elem_of_nil].
  - destruct (ended_fine s reading (ss_closed s) (go_sessions _ Hok _ _ _ E) (fun c H => H)) as [_ Hc].
    apply (since_put w0 w h s reading (with_end s true (ss_closed s)) reading); try done; by left.
  - destruct (go_closing _ Hok _ _ Ec) as (s & reading & E & [Hd _]). apply (since_same w0 w); try done.
    intros d h' Hreg. destruct (decide (h' = h)) as [->|Hne]; [right; exists s, reading; split; [exact E | by apply Hd] | left; by apply unregistered_only].
  - apply (since_put w0 w h s reading (going_away s) reading); try done; [apply calm_close | by left | by left].
  - apply (since_same w0 w); try done. by left.
  - apply (since_same w0 w); try done; [by rewrite Hp | by left |]. intros h'. unfold failed. by rewrite Hp.
  - apply (since_same w0 w); try done; [by rewrite Hp | by left |]. intros h'. unfold failed. by rewrite Hp.
  - destruct (ended_fine s reading (ss_closed s) (go_sessions _ Hok _ _ _ E) (fun c H => H)) as [_ Hc].
    apply (since_put w0 w h s reading (forceClose s) reading); try done; [by rewrite Hp | |].
    + intros d h' Hreg. left. cbn. rewrite unregistered_empty; [exact Hreg |]. apply Hok. by rewrite Hp.
    + intros h' Hin. left. unfold failed. by rewrite Hp.
  - apply (since_same w0 w); try done; [by rewrite Hp | by left |]. intros h'. unfold failed. by rewrite Hp.
  - apply (since_same w0 w); try done; [by rewrite Hp | by left |]. intros h'. unfold failed. by rewrite Hp.
Qed.

Lemma since_steps w0 w : gateway_ok w0 -> gw_phase w0 = Draining -> steps step w0 w -> gateway_ok w /\ since w0 w.
Proof using All.
  intros Hok Hp. apply (steps_invariant step (fun w => gateway_ok w /\ since w0 w)).
  - split; [exact Hok | by apply since_start].
  - intros a b [Ha Hs] H. split; [by eapply gateway_step_ok | by eapply since_step].
Qed.

(** *** [Close] returns *)

Lemma exports w errs : gw_phase w = Exporting errs -> exists w', steps step w w' /\ exists errs, gw_phase w' = Closed errs.
Proof using All. intros E. eexists. split; [eapply steps_snoc; [apply steps_refl | by apply (gs_exported who lim temporary w errs None)] | by eexists]. Qed.

Lemma forces err : forall rest w, gateway_ok w -> gw_phase w = Forcing rest err -> exists w', steps step w w' /\ exists errs, gw_phase w' = Closed errs.
Proof using All.
  induction rest as [|h rest IH]; intros w Hok E.
  - destruct (exports (put_phase (Exporting [err]) w) [err] eq_refl) as (w' & Hs & H). exists w'. split; [| exact H].
    eapply steps_cons; [by apply gs_forced | exact Hs].
  - pose proof (go_phase _ Hok) as Hp. unfold phase_fine in Hp. rewrite E in Hp. destruct Hp as [Hsub _].
    destruct (go_taken _ Hok h ltac:(set_solver)) as [[s reading] Es].
    pose proof (gs_force who lim temporary w h (MkMoment (fun _ => 0) (fun _ => false) 0) rest err s reading E Es) as Hstep.
    destruct (IH _ (gateway_step_ok _ _ Hok Hstep) eq_refl) as (w' & Hs & H). exists w'. split; [by eapply steps_cons | exact H].
Qed.

Lemma waits w : gateway_ok w -> gw_phase w = Waiting -> exists w', steps step w w' /\ exists errs, gw_phase w' = Closed errs.
Proof using All.
  intros Hok E. pose proof (gs_expired who lim temporary w err_context E) as Hstep.
  destruct (forces err_context (gw_taken w) _ (gateway_step_ok _ _ Hok Hstep) eq_refl) as (w' & Hs & H). exists w'. split; [by eapply steps_cons | exact H].
Qed.

Lemma fails : forall rest w, gateway_ok w -> gw_phase w = Failing rest -> exists w', steps step w w' /\ exists errs, gw_phase w' = Closed errs.
Proof using All.
  induction rest as [|h rest IH]; intros w Hok E.
  - pose proof (gs_spawn who lim temporary w E) as Hstep. destruct (waits _ (gateway_step_ok _ _ Hok Hstep) eq_refl) as (w' & Hs & H).
    exists w'. split; [by eapply steps_cons | exact H].
  - pose proof (go_phase _ Hok) as Hp. unfold phase_fine in Hp. rewrite E in Hp. destruct Hp as [_ Hsub].
    destruct (go_taken _ Hok h ltac:(set_solver)) as [[s reading] Es].
    pose proof (gs_fail who lim temporary w h rest s reading E Es) as Hstep.
    destruct (IH _ (gateway_step_ok _ _ Hok Hstep) eq_refl) as (w' & Hs & H). exists w'. split; [by eapply steps_cons | exact H].
Qed.

Lemma close_returns w : gateway_ok w -> gw_phase w <> Serving -> exists w', steps step w w' /\ exists errs, gw_phase w' = Closed errs.
Proof using All.
  intros Hok Hn. destruct (gw_phase w) as [| |rest| |rest err|errs|errs] eqn:E; [done | | by apply (fails rest) | by apply waits | by apply (forces err rest) | by apply (exports w errs) |].
  - pose proof (gs_take who lim temporary w E) as Hstep. destruct (fails _ _ (gateway_step_ok _ _ Hok Hstep) eq_refl) as (w' & Hs & H).
    exists w'. split; [by eapply steps_cons | exact H].
  - exists w. split; [apply steps_refl | by eexists].
Qed.
End World.


(** ** A run *)

Definition closing_who (h : handle) : entry := MkEntry "dev-1" "ses-1" (10 * Second).
Definition closing_moment : moment := MkMoment (fun _ => 0) (fun _ => true) 0.
Definition never (e : error) : bool := false.

(** A session, registered; the drain has begun. *)
Definition closing_start : gateway :=
  let w1 := put_session 1%nat demo_session true newGateway in
  let w2 := put_registry (registerSession closing_who DefaultLimits closing_moment (gw_registry w1) 1%nat).1.2 w1 in
  put_phase Draining (put_registry (beginDrain (gw_registry w2)) w2).

(** It is failed; a handler opens a stream on it; it is closed, and its read loop
    fails. *)
Definition closing_open : session := (openStreamTarget demo_net DefaultLimits (fail_all demo_session errGatewayShuttingDown) (Ok "req-1") "ep" "auth" "local" "tcp").2.
Definition closing_read : session := (run_once demo_net (going_away (with_end closing_open true (ss_closed closing_open))) (ReadErr false (ErrMsg "closed")) 5).2.

Lemma closing_start_reached : steps (gateway_step closing_who DefaultLimits never) newGateway closing_start.
Proof.
  destruct demo_bounds as (_ & _ & Hg & Hl).
  eapply steps_snoc; [eapply steps_snoc; [eapply steps_snoc; [apply steps_refl |] |] |].
  - apply (gs_accept _ _ _ newGateway 1%nat demo_session); [done | by apply ns_new].
  - apply (gs_register _ _ _ _ closing_moment 1%nat). exists (demo_session, true). apply lookup_insert_eq.
  - by apply gs_drain.
Qed.

(** The run on any session. *)
Lemma closing_run who lim r s sopen sread taken closing0 :
  (Registry.closeAll r).2 = [1%nat] -> handled lim never (fail_all s errGatewayShuttingDown) sopen ->
  run_once demo_net (going_away (with_end sopen true (ss_closed sopen))) (ReadErr false (ErrMsg "closed")) 5 = (false, sread) ->
  exists w, steps (gateway_step who lim never) (MkGateway r {[1%nat := (s, true)]} taken closing0 Draining) w /\
    gw_phase w = Closed [] /\ gw_sessions w !! 1%nat = Some (sread, false).
Proof.
  intros Ht Hh Hr.
  set (w1 := MkGateway (Registry.closeAll r).1 {[1%nat := (s, true)]} [1%nat] ∅ (Failing [1%nat])).
  assert (S1 : gateway_step who lim never (MkGateway r {[1%nat := (s, true)]} taken closing0 Draining) w1).
  { unfold w1. pose proof (gs_take who lim never (MkGateway r {[1%nat := (s, true)]} taken closing0 Draining) eq_refl) as H.
    cbv zeta in H. cbn [gw_registry gw_sessions] in H. rewrite Ht in H. exact H. }
  pose proof (gs_fail who lim never w1 1%nat [] s true eq_refl (lookup_singleton_eq _ _)) as S2.
  set (w2 := put_phase _ _) in S2.
  pose proof (gs_handled who lim never w2 1%nat _ true sopen (lookup_insert_eq _ _ _) Hh) as S3. set (w3 := put_session _ _ _ _) in S3.
  pose proof (gs_spawn who lim never w3 eq_refl) as S4. set (w4 := MkGateway _ _ _ _ Waiting) in S4.
  assert (C4 : gw_closing w4 !! 1%nat = Some Begun) by (apply lookup_gset_to_gmap_Some; split; [apply elem_of_list_to_set; by left | done]).
  pose proof (gs_signal who lim never w4 1%nat sopen true C4 (lookup_insert_eq _ _ _)) as S5. set (w5 := put_closing _ _ _) in S5.
  pose proof (gs_detach who lim never w5 closing_moment 1%nat (lookup_insert_eq _ _ _)) as S6. set (w6 := put_closing _ _ _) in S6.
  pose proof (gs_tell who lim never w6 1%nat (with_end sopen true (ss_closed sopen)) true (lookup_insert_eq _ _ _) (lookup_insert_eq _ _ _)) as S7. set (w7 := put_closing _ _ _) in S7.
  pose proof (gs_told who lim never w7 1%nat _ (lookup_insert_eq _ _ _)) as S8. set (w8 := put_closing _ _ _) in S8.
  pose proof (gs_read who lim never w8 1%nat demo_net _ (ReadErr false (ErrMsg "closed")) 5 (lookup_insert_eq _ _ _)) as S9.
  rewrite Hr in S9. cbn [fst snd] in S9. set (w9 := put_session _ _ _ _) in S9.
  assert (S10 : gateway_step who lim never w9 (put_phase (Exporting []) w9)).
  { apply gs_drained; [done |]. intros h Hin%list_elem_of_singleton. subst h. eexists. apply lookup_insert_eq. }
  pose proof (gs_exported who lim never (put_phase (Exporting []) w9) [] None eq_refl) as S11.
  eexists. split; [| split].
  - eapply steps_cons; [exact S1 |]. eapply steps_cons; [exact S2 |]. eapply steps_cons; [exact S3 |]. eapply steps_cons; [exact S4 |].
    eapply steps_cons; [exact S5 |]. eapply steps_cons; [exact S6 |]. eapply steps_cons; [exact S7 |]. eapply steps_cons; [exact S8 |].
    eapply steps_cons; [exact S9 |]. eapply steps_cons; [exact S10 |]. eapply steps_cons; [exact S11 |]. apply steps_refl.
  - reflexivity.
  - apply lookup_insert_eq.
Qed.

