(* ===== verification/AgentSession.v ===== *)
(** * AgentSession: the Agent's end of a session

    [agentSession] of [internal/agent/session.go]: the table of streams and the
    byte budget they share, the frame writer, the read loop with its control
    and data handlers, opening and finishing streams, sending paced by the
    Gateway's credit, the health report and the shutdown.

    As in {!GwSession} the transport is a parameter, [net], the writer serves
    one request at a time, and an operation of one goroutine is one step of
    [session_step]; steps come in any order.  Stream objects are shared
    between the table and the goroutines that serve them: they live in a store,
    and the table is the set of identifiers routed to it. *)

From S2P Require Import Prelude GoText GoTime Json StrictJson Frame Contract Control ControlCodec Window Budget.
From S2P Require Import Wire AgentLimits AgentStream AgentConfig.
Import Budget.Agent.

(** ** State *)

Record tunnel := MkTunnel { tn_stream : stream; tn_window : option Window }.

Record table := MkTable {
  tb_store : gmap Z tunnel;
  tb_streams : gset Z;
  tb_budget : ByteBudget;          (* queueBudget *)
  tb_maxStreamID : Z;
}.

Record session := MkSession {
  sn_endpoints : list Endpoint;    (* config.Endpoints *)
  sn_limits : Limits;
  sn_sessionID : string;
  sn_resumeChallenge : string;
  sn_flow : bool;                  (* flowControlled *)
  sn_inbound : SequenceTracker;
  sn_outbound : Z;
  sn_wire : list bytes;            (* frames written to the connection *)
  sn_requests : nat;               (* frames handed to the writer *)
  sn_table : table;
  sn_closed : bool;
  sn_reconnectCount : Z;
  sn_lastReconnect : instant;
}.

Definition with_table (s : session) (T : table) : session :=
  MkSession (sn_endpoints s) (sn_limits s) (sn_sessionID s) (sn_resumeChallenge s) (sn_flow s) (sn_inbound s)
    (sn_outbound s) (sn_wire s) (sn_requests s) T (sn_closed s) (sn_reconnectCount s) (sn_lastReconnect s).
Definition with_writer (s : session) (outbound : Z) (wire : list bytes) (requests : nat) : session :=
  MkSession (sn_endpoints s) (sn_limits s) (sn_sessionID s) (sn_resumeChallenge s) (sn_flow s) (sn_inbound s)
    outbound wire requests (sn_table s) (sn_closed s) (sn_reconnectCount s) (sn_lastReconnect s).
Definition with_inbound (s : session) (inbound : SequenceTracker) : session :=
  MkSession (sn_endpoints s) (sn_limits s) (sn_sessionID s) (sn_resumeChallenge s) (sn_flow s) inbound
    (sn_outbound s) (sn_wire s) (sn_requests s) (sn_table s) (sn_closed s) (sn_reconnectCount s) (sn_lastReconnect s).
Definition with_end (s : session) (closed : bool) : session :=
  MkSession (sn_endpoints s) (sn_limits s) (sn_sessionID s) (sn_resumeChallenge s) (sn_flow s) (sn_inbound s)
    (sn_outbound s) (sn_wire s) (sn_requests s) (sn_table s) closed (sn_reconnectCount s) (sn_lastReconnect s).
Definition with_health (s : session) (count : Z) (last : instant) : session :=
  MkSession (sn_endpoints s) (sn_limits s) (sn_sessionID s) (sn_resumeChallenge s) (sn_flow s) (sn_inbound s)
    (sn_outbound s) (sn_wire s) (sn_requests s) (sn_table s) (sn_closed s) count last.

Definition newTable (maxSessionQueueBytes : Z) : table := MkTable ∅ ∅ (New maxSessionQueueBytes) 0.

(** The session both constructors build: after a full handshake the sequence
    continues from 2, after a resume from [lastOutbound]. *)
Definition newAgentSession (endpoints : list Endpoint) (lim : Limits) (sessionID resumeChallenge : string)
    (flowControlled : bool) (inbound : SequenceTracker) (lastOutbound idleTimeout : Z) : session :=
  MkSession endpoints
    (MkLimits (MaxStreams lim) (MaxQueueFrames lim) (MaxStreamQueueBytes lim) (MaxSessionQueueBytes lim)
       (DialTimeout lim) (HandshakeTimeout lim) (WriteTimeout lim) idleTimeout (ReconnectMin lim) (ReconnectMax lim)
       (MaxTunnels lim))
    sessionID resumeChallenge flowControlled inbound lastOutbound [] 0
    (newTable (MaxSessionQueueBytes lim)) false 0 zero_time.

(** ** Streams *)

(** [sess.streams[id]]. *)
Definition stream_at (T : table) (id : Z) : option tunnel :=
  if bool_decide (id ∈ tb_streams T) then tb_store T !! id else None.

Definition put (T : table) (id : Z) (b : ByteBudget) (tn : tunnel) : table :=
  MkTable (<[id := tn]> (tb_store T)) (tb_streams T) b (tb_maxStreamID T).

Definition unroute (T : table) (id : Z) : table :=
  MkTable (tb_store T) (tb_streams T ∖ {[id]}) (tb_budget T) (tb_maxStreamID T).

(** [stream.finishStream] of a stream object. *)
Definition finish_at (T : table) (id : Z) (tn : tunnel) (w : option Window) : table :=
  let '(b, s) := finishStream (tb_budget T) (tn_stream tn) in put T id b (MkTunnel s w).

(** [sess.finishStream]. *)
Definition finish_stream (T : table) (id : Z) : table :=
  let T' := unroute T id in
  match stream_at T id with
  | Some tn => finish_at T' id tn ((fun w => Window.Close w (Some (ErrMsg "stream closed"))) <$> tn_window tn)
  | None => T'
  end.

Definition set_terminal (s : stream) : stream :=
  with_flags s (as_closed s) (as_finished s) true (as_peerHalf s) (as_cancelled s).
Definition set_peerHalf (s : stream) : stream :=
  with_flags s (as_closed s) (as_finished s) (as_terminal s) true (as_cancelled s).
Definition cancel (s : stream) : stream :=
  with_flags s (as_closed s) (as_finished s) (as_terminal s) (as_peerHalf s) true.

Definition update_stream (T : table) (id : Z) (f : stream -> stream) : table :=
  match tb_store T !! id with
  | Some tn => put T id (tb_budget T) (MkTunnel (f (tn_stream tn)) (tn_window tn))
  | None => T
  end.

(** [sess.finishStreamFromPeer]: no terminal of ours will follow. *)
Definition finish_from_peer (T : table) (id : Z) : table :=
  finish_stream (match stream_at T id with Some _ => update_stream T id set_terminal | None => T end) id.

(** The stream's own [finishStream]: its window stays open. *)
Definition finish_id (T : table) (id : Z) : table :=
  match tb_store T !! id with Some tn => finish_at T id tn (tn_window tn) | None => T end.

(** [shutdown], once: every routed stream is finished. *)
Definition finish_all (T : table) : table :=
  let routed := elements (tb_streams T) in
  foldl finish_id
    (MkTable (tb_store T) ∅ (tb_budget T) (tb_maxStreamID T)) routed.

Definition shutdown (s : session) : session :=
  if sn_closed s then s else with_end (with_table s (finish_all (sn_table s))) true.

(** ** The writer *)

Definition errAgentWriterClosed : error := ErrSentinel "agent session writer closed".
Definition ErrSessionRevoked : error := ErrSentinel "agent session revoked".

Definition writeQueued (s : session) (kind : Kind) (streamID : Z) (payload : bytes)
    (expired written : option error) : result unit * session :=
  match (if kind =? KindControl then expired else None) with
  | Some err => (Err err, s)
  | None =>
    match NextSequence (sn_outbound s) with
    | Err err => (Err err, shutdown s)
    | Ok sequence =>
      match EncodeFrame (MkFrame kind streamID sequence payload) with
      | Err err => (Err err, s)
      | Ok encoded =>
        match written with
        | Some err => (Err err, shutdown (with_writer s sequence (sn_wire s) (sn_requests s)))
        | None => (Ok tt, with_writer s sequence (sn_wire s ++ [encoded]) (sn_requests s))
        end
      end
    end
  end.

Section Transport.
Context (net : nat -> answer).

(** A caller whose deadline fires is told so, whatever becomes of its frame. *)
Definition sendFrame (s : session) (kind : Kind) (streamID : Z) (payload : bytes) : result unit * session :=
  if sn_closed s then (Err errAgentWriterClosed, s)
  else
    let s' := with_writer s (sn_outbound s) (sn_wire s) (S (sn_requests s)) in
    match net (sn_requests s) with
    | NoSlot err => (Err err, s')
    | Served expired written late =>
      let sent := writeQueued s' kind streamID payload expired written in
      (match late with Some err => Err err | None => sent.1 end, sent.2)
    end.

Definition sendControl (s : session) (streamID : Z) (message : control_message) : result unit * session :=
  sendFrame s KindControl streamID (marshal_message message).

Definition sendWindowUpdate (s : session) (streamID credit : Z) : result unit * session :=
  sendControl s streamID
    (MsgStreamWindowUpdate (MkStreamWindowUpdate ProtocolVersion "stream_window_update" credit)).

Definition sendStreamError (s : session) (streamID : Z) (code message : string) (retryable : bool)
  : result unit * session :=
  sendControl s streamID
    (MsgStreamError (MkStreamError ProtocolVersion "stream_error" code (clip256 message) retryable)).

(** [stream.terminal.Do]: a stream of the store sends its terminal once. *)
Definition send_terminal (s : session) (id : Z) (message : control_message) : result unit * session :=
  match tb_store (sn_table s) !! id with
  | None => (Ok tt, s)
  | Some tn =>
    if as_terminal (tn_stream tn) then (Ok tt, s)
    else sendControl (with_table s (update_stream (sn_table s) id set_terminal)) id message
  end.

Definition sendStreamTerminalClose (s : session) (id : Z) (reasonCode : string) : result unit * session :=
  send_terminal s id (MsgStreamClose (MkStreamClose ProtocolVersion "stream_close" reasonCode)).

Definition sendStreamTerminalError (s : session) (id : Z) (code message : string) (retryable : bool)
  : result unit * session :=
  send_terminal s id
    (MsgStreamError (MkStreamError ProtocolVersion "stream_error" code (clip256 message) retryable)).

(** ** Sending stream data *)

Definition set_window (T : table) (id : Z) (w : Window) : table :=
  match tb_store T !! id with
  | Some tn => put T id (tb_budget T) (MkTunnel (tn_stream tn) (Some w))
  | None => T
  end.

(** [window.Take]; [None]: it waits. *)
Definition take_window (T : table) (id size : Z) : option (result table) :=
  match tb_store T !! id with
  | Some (MkTunnel _ (Some w)) =>
    if negb (take_valid w size) then Some (Err Window.ErrInvalid)
    else match take_locked w size with
         | TakeErr e => Some (Err e)
         | TakeOk w' => Some (Ok (set_window T id w'))
         | TakeWait _ => None
         end
  | _ => Some (Ok T)
  end.

Definition send_chunk (s : session) (streamID : Z) (paced : bool) (payload : bytes) : option (result bytes * session) :=
  let '(chunk, rest) := chunk_of payload in
  match (if paced then take_window (sn_table s) streamID (zlen chunk) else Some (Ok (sn_table s))) with
  | None => None
  | Some (Err e) => Some (Err e, s)
  | Some (Ok T) =>
    let '(r, s') := sendFrame (with_table s T) KindData streamID chunk in
    Some (match r with Ok _ => Ok rest | Err e => Err e end, s')
  end.

(** [sendBytes] while no [Take] has to wait; a wait ends with the context. *)
Fixpoint send_chunks (fuel : nat) (s : session) (streamID : Z) (paced : bool) (payload : bytes)
  : result unit * session :=
  match fuel with
  | O => (Ok tt, s)
  | S fuel' =>
    if zlen payload =? 0 then (Ok tt, s)
    else match send_chunk s streamID paced payload with
         | None => (Err err_context, s)
         | Some (Err e, s') => (Err e, s')
         | Some (Ok rest, s') => send_chunks fuel' s' streamID paced rest
         end
  end.

Definition sendBytes (s : session) (streamID : Z) (payload : bytes) : result unit * session :=
  if sn_flow s then
    match stream_at (sn_table s) streamID with
    | None => (Err (ErrMsg "stream is not open"), s)
    | Some tn =>
      send_chunks (S (length payload)) s streamID
        (match tn_window tn with Some _ => true | None => false end) payload
    end
  else send_chunks (S (length payload)) s streamID false payload.

(** The writer of a stream: receive a payload, give its bytes back to the
    budgets, and after the local target took it return the credit. *)
Definition writer_receive (s : session) (id : Z) : option (QueuedPayload * session) :=
  match tb_store (sn_table s) !! id with
  | Some tn =>
    match receive (tn_stream tn) with
    | Some (p, st) => Some (p, with_table s (put (sn_table s) id (tb_budget (sn_table s)) (MkTunnel st (tn_window tn))))
    | None => None
    end
  | None => None
  end.

Definition writer_release (s : session) (id : Z) : option (QueuedPayload * session) :=
  match tb_store (sn_table s) !! id with
  | Some tn =>
    match release_hand (tb_budget (sn_table s)) (tn_stream tn) with
    | Some (p, b, st) => Some (p, with_table s (put (sn_table s) id b (MkTunnel st (tn_window tn))))
    | None => None
    end
  | None => None
  end.

Definition writer_credit (s : session) (id size : Z) : result unit * session :=
  match tb_store (sn_table s) !! id with
  | Some (MkTunnel _ (Some _)) => if 0 <? size then sendWindowUpdate s id (u32 size) else (Ok tt, s)
  | _ => (Ok tt, s)
  end.

(** ** Frames from the Gateway *)

Definition half_close_from_peer (s : session) (id : Z) : result unit * session :=
  match stream_at (sn_table s) id with
  | None => (Ok tt, s)
  | Some tn =>
    if negb (String.eqb (as_mode (tn_stream tn)) "tcp") then
      sendStreamError s id "protocol_error" "half-close is valid only for TCP streams" false
    else (Ok tt, with_table s (update_stream (sn_table s) id set_peerHalf))
  end.

(** [_ = sendStreamTerminalError(...); finishStream(id)]. *)
Definition abort_stream (s : session) (id : Z) (code message : string) (retryable : bool) : session :=
  let s' := (sendStreamTerminalError s id code message retryable).2 in
  with_table s' (finish_stream (sn_table s') id).

Definition window_update_from_peer (s : session) (id credit : Z) : session :=
  match stream_at (sn_table s) id with
  | Some (MkTunnel _ (Some w)) =>
    match Window.Add w credit with
    | Ok w' => with_table s (set_window (sn_table s) id w')
    | Err _ => abort_stream s id "protocol_error" "invalid stream credit" false
    end
  | _ => s
  end.

(** The queue of a stream of a mode: its byte budget. *)
Definition input_budget (mode : string) (lim : Limits) : Z :=
  streamInputBudget mode (MaxStreamQueueBytes lim) (MaxSessionQueueBytes lim).

Definition open_stream (s : session) (id : Z) (endpoint : Endpoint) (mode : string) : table :=
  let T := sn_table s in
  let inputBytes := input_budget mode (sn_limits s) in
  let st := newStream id endpoint mode (streamQueueFrames (MaxQueueFrames (sn_limits s)) inputBytes) inputBytes in
  let w := if sn_flow s && negb (String.eqb mode "udp") then Some (Window.New MaxWindowCreditBytes) else None in
  MkTable (<[id := MkTunnel st w]> (tb_store T)) ({[id]} ∪ tb_streams T) (tb_budget T) (tb_maxStreamID T).

(** The credit granted before the request may flow. *)
Definition grant_initial (s : session) (id : Z) (mode : string) : result unit * session :=
  let bodyCredit := input_budget mode (sn_limits s) - HeaderAllowanceBytes in
  if (sn_flow s && negb (String.eqb mode "udp")) && (0 <? bodyCredit) then
    match sendWindowUpdate s id (InitialCredit bodyCredit) with
    | (Err err, s') => (Err err, with_table s' (finish_stream (sn_table s') id))
    | (Ok _, s') => (Ok tt, s')
    end
  else (Ok tt, s).

Definition handleStreamOpen (s : session) (id : Z) (message : StreamOpen) : result unit * session :=
  if id =? 0 then (Err (ErrMsg "stream_open requires non-zero stream ID"), s)
  else if id <=? tb_maxStreamID (sn_table s) then (Err (ErrMsg "stream ID reused or out of order"), s)
  else
    let T := sn_table s in
    let s1 := with_table s (MkTable (tb_store T) (tb_streams T) (tb_budget T) id) in
    if MaxStreams (sn_limits s) <=? Z.of_nat (size (tb_streams T)) then
      sendStreamError s1 id "resource_limit" "active stream limit reached" true
    else
      match EndpointByID (sn_endpoints s) (so_local_endpoint_id message) with
      | None => sendStreamError s1 id "route_revoked" "local endpoint is not configured" false
      | Some endpoint =>
        if negb (Bool.eqb (String.eqb (ep_Protocol endpoint) "udp") (String.eqb (so_mode message) "udp")) then
          sendStreamError s1 id "protocol_error" "local endpoint protocol mismatch" false
        else grant_initial (with_table s1 (open_stream s1 id endpoint (so_mode message))) id (so_mode message)
      end.

(** The switch of [handleControl] on a validated payload. *)
Definition dispatch_control (s : session) (kind : string) (streamID : Z) (payload : bytes) (now : instant)
  : result unit * session :=
  let decode fs (k : gmap string field_val -> result unit * session) :=
    match json_unmarshal fs payload with Ok m => k m | Err e => (Err e, s) end in
  if String.eqb kind "ping" then
    decode Heartbeat_schema (fun m =>
      sendControl s 0 (MsgHeartbeat (MkHeartbeat ProtocolVersion "pong" (hb_ping_id (Heartbeat_of m))
                                       EmptyString (stamp now))))
  else if String.eqb kind "pong" then (Ok tt, s)
  else if String.eqb kind "session_revoked" then (Err ErrSessionRevoked, s)
  else if String.eqb kind "stream_open" then
    decode StreamOpen_schema (fun m => handleStreamOpen s streamID (StreamOpen_of m))
  else if String.eqb kind "stream_close" then
    (Ok tt, with_table s (finish_from_peer (sn_table s) streamID))
  else if String.eqb kind "stream_half_close" then half_close_from_peer s streamID
  else if String.eqb kind "stream_error" then
    (Ok tt, with_table s (finish_from_peer (sn_table s) streamID))
  else if String.eqb kind "stream_window_update" then
    if negb (sn_flow s) then (Err (ErrMsg "stream_window_update outside a v2 session"), s)
    else decode StreamWindowUpdate_schema (fun m =>
           (Ok tt, window_update_from_peer s streamID (sw_credit_bytes (StreamWindowUpdate_of m))))
  else (Err (ErrMsg "unexpected Gateway control message"), s).

Definition handleControl (s : session) (frame : Frame) (now : instant) : result unit * session :=
  match ValidateControlPayload (fr_payload frame) (fr_stream frame) now with
  | Err e => (Err e, s)
  | Ok _ =>
    match json_unmarshal kind_schema (fr_payload frame) with
    | Err e => (Err e, s)
    | Ok m => dispatch_control s (get_string m "message_type") (fr_stream frame) (fr_payload frame) now
    end
  end.

Definition handleData (s : session) (frame : Frame) : result unit * session :=
  let id := fr_stream frame in
  match stream_at (sn_table s) id with
  | None =>
    if negb (id =? 0) && (id <=? tb_maxStreamID (sn_table s)) then (Ok tt, s)
    else (Err (ErrMsg "data received for unknown stream"), s)
  | Some tn =>
    if String.eqb (as_mode (tn_stream tn)) "udp" && (MaxUDPDatagram <? zlen (fr_payload frame)) then
      (Ok tt, abort_stream s id "resource_limit" "UDP datagram exceeds tunnel limit" false)
    else
      let '(ok, b, st) := enqueue (tb_budget (sn_table s)) (tn_stream tn) (fr_payload frame) in
      let s' := with_table s (put (sn_table s) id b (MkTunnel st (tn_window tn))) in
      if (ok : bool) then (Ok tt, s')
      else (Ok tt, abort_stream s' id "resource_limit" "stream input byte/frame budget exhausted or stalled" true)
  end.

(** What [conn.Read] returns. *)
Inductive conn_read := ReadErr (err : error) | ReadMsg (binary : bool) (payload : bytes).

Definition readAgentFrame (r : conn_read) : result Frame :=
  match r with
  | ReadErr err => Err err
  | ReadMsg false _ => Err (ErrMsg "protocol requires binary WebSocket messages")
  | ReadMsg true payload => DecodeFrame payload
  end.

(** One pass of the loop of [run]; an error ends it, and the deferred
    [shutdown] follows. *)
Definition run_once (s : session) (r : conn_read) (now : instant) : result unit * session :=
  let '(res, s') :=
    match readAgentFrame r with
    | Err e => (Err e, s)
    | Ok frame =>
      match Accept (sn_inbound s) (fr_seq frame) with
      | Err e => (Err e, s)
      | Ok inbound =>
        let s1 := with_inbound s inbound in
        if fr_kind frame =? KindControl then handleControl s1 frame now
        else if fr_kind frame =? KindData then handleData s1 frame
        else (Err (ErrMsg "unknown protocol frame kind"), s1)
      end
    end in
  (res, match res with Ok _ => s' | Err _ => shutdown s' end).

(** ** Health reports *)

Definition countActiveStreams (s : session) : Z := Z.of_nat (size (tb_streams (sn_table s))).

Definition queued_frames (T : table) (id : Z) : Z :=
  match tb_store T !! id with Some tn => Z.of_nat (length (as_incoming (tn_stream tn))) | None => 0 end.

Definition countQueuedFrames (s : session) : Z :=
  foldr (fun id acc => queued_frames (sn_table s) id + acc) 0 (elements (tb_streams (sn_table s))).

Definition observeReconnect (s : session) (now : instant) : session :=
  with_health s (i64 (sn_reconnectCount s + 1)) now.

Definition sendHealthReport (s : session) (reportID agentVersion : string) (now : instant) : result unit * session :=
  sendControl s 0 (MsgHealthReport
    (MkHealthReport ProtocolVersion "health_report" reportID (stamp now) (countActiveStreams s) (countQueuedFrames s)
       (sn_reconnectCount s) (if is_zero_time (sn_lastReconnect s) then EmptyString else stamp (sn_lastReconnect s))
       agentVersion)).
End Transport.

(** ** The session as a transition system *)

Inductive session_step : session -> session -> Prop :=
| ss_read net s r now : session_step s (run_once net s r now).2
| ss_send net s id payload : is_u32 id -> session_step s (sendBytes net s id payload).2
| ss_datagram net s id packet : is_u32 id -> session_step s (sendFrame net s KindData id packet).2
| ss_half_close net s id : is_u32 id ->
    session_step s (sendControl net s id (MsgStreamHalfClose (MkStreamHalfClose ProtocolVersion "stream_half_close"))).2
| ss_terminal_close net s id reason : is_u32 id -> session_step s (sendStreamTerminalClose net s id reason).2
| ss_terminal_error net s id code message retryable : is_u32 id ->
    session_step s (sendStreamTerminalError net s id code message retryable).2
| ss_finish s id : session_step s (with_table s (finish_stream (sn_table s) id))
| ss_cancel s id : session_step s (with_table s (update_stream (sn_table s) id cancel))
| ss_receive s id p s' : writer_receive s id = Some (p, s') -> session_step s s'
| ss_release s id p s' : writer_release s id = Some (p, s') -> session_step s s'
| ss_credit net s id size : is_u32 id -> session_step s (writer_credit net s id size).2
| ss_health net s reportID agentVersion now : session_step s (sendHealthReport net s reportID agentVersion now).2
| ss_reconnect s now : session_step s (observeReconnect s now)
| ss_shutdown s : session_step s (shutdown s).

(** ** What the session keeps *)

Definition held_by (tn : tunnel) : Z := held (tn_stream tn).

Abbreviation total_held := (total held_by).

(** Finished means over and drained. *)
Definition settled (s : stream) : Prop := as_finished s = true -> over s /\ as_incoming s = [].

Record table_ok (maxStreams limit : Z) (T : table) : Prop := TableOk {
  tk_budget : budget_ok (tb_budget T);
  tk_limit : b_limit (tb_budget T) = limit;
  tk_underflows : b_underflows (tb_budget T) = 0;
  tk_tunnels : forall id tn, tb_store T !! id = Some tn -> stream_ok (tb_budget T) (tn_stream tn) /\ settled (tn_stream tn);
  tk_unrouted : forall id tn, tb_store T !! id = Some tn -> id ∉ tb_streams T -> as_finished (tn_stream tn) = true;
  tk_total : b_used (tb_budget T) = total_held (tb_store T);
  tk_routed : tb_streams T ⊆ dom (tb_store T);
  tk_size : Z.of_nat (size (tb_streams T)) <= Z.max 0 maxStreams;
  tk_ids : forall id, id ∈ dom (tb_store T) -> 0 < id <= tb_maxStreamID T;
  tk_max : is_u32 (tb_maxStreamID T);
}.

Lemma stream_ok_shared b b' s :
  stream_ok b s -> budget_ok b' -> held s <= b_used b' -> stream_ok b' s.
Proof. intros [] Hb Hh. by split. Qed.

Section Table.
Context (maxStreams limit : Z).
Notation good := (table_ok maxStreams limit).

Lemma held_member T id tn : good T -> tb_store T !! id = Some tn -> 0 <= held_by tn.
Proof. intros HT Hid. by eapply held_nonneg, (tk_tunnels _ _ _ HT id tn). Qed.

(** A stream put back after an operation that kept it. *)
Lemma agent_put_ok T id tn b st w :
  good T -> tb_store T !! id = Some tn -> keeps (tb_budget T) (tn_stream tn) b st -> settled st ->
  (id ∉ tb_streams T -> as_finished st = true) -> good (put T id b (MkTunnel st w)).
Proof.
  intros HT Hid [Hst (Hb & Hl & Hu & Hd)] Hse Hf. pose proof HT as HT'. destruct HT.
  assert (Hdom : dom (<[id := MkTunnel st w]> (tb_store T)) = dom (tb_store T)).
  { rewrite dom_insert_L. apply elem_of_dom_2 in Hid. set_solver. }
  assert (Ht : total_held (<[id := MkTunnel st w]> (tb_store T)) = b_used b).
  { rewrite (total_update _ _ _ _ _ Hid). change (held_by (MkTunnel st w)) with (held st).
    change (held_by tn) with (held (tn_stream tn)). lia. }
  assert (Hall : forall j tn', <[id := MkTunnel st w]> (tb_store T) !! j = Some tn' -> 0 <= held_by tn').
  { intros j tn' Hj. apply lookup_insert_Some in Hj as [[<- <-]|[_ Hj]]; [by eapply held_nonneg | by eapply held_member]. }
  split; cbn; rewrite ?Hdom; try done; try congruence.
  - intros j tn' Hj. pose proof (total_ge _ _ _ _ Hall Hj) as Hge.
    apply lookup_insert_Some in Hj as [[<- <-]|[_ Hj]]; [done |].
    destruct (tk_tunnels0 _ _ Hj) as [Ho Hs]. split; [| done].
    eapply stream_ok_shared; [exact Ho | done |]. change (held (tn_stream tn')) with (held_by tn'). lia.
  - intros j tn' Hj Hn. apply lookup_insert_Some in Hj as [[<- <-]|[_ Hj]]; [by apply Hf | by eapply tk_unrouted0].
Qed.

(** An operation on the flags of a stream. *)
Lemma update_ok T id f :
  good T -> (forall s b, stream_ok b s -> stream_ok b (f s)) -> (forall s, held (f s) = held s) ->
  (forall s, settled s -> settled (f s)) -> (forall s, as_finished (f s) = as_finished s) ->
  good (update_stream T id f).
Proof.
  intros HT H1 H2 H3 H4. unfold update_stream. destruct (tb_store T !! id) as [tn|] eqn:E; [| done].
  destruct (tk_tunnels _ _ _ HT _ _ E) as [Ho Hs]. eapply agent_put_ok; [done | done | | by apply H3 |].
  - split; [by apply H1 |]. rewrite H2, Z.sub_diag. apply moved_refl, HT.
  - intros Hn. rewrite H4. by eapply tk_unrouted.
Qed.

Lemma agent_set_window_ok T id w : good T -> good (set_window T id w).
Proof.
  intros HT. unfold set_window. destruct (tb_store T !! id) as [tn|] eqn:E; [| done].
  destruct (tk_tunnels _ _ _ HT _ _ E) as [Ho Hs]. eapply agent_put_ok; [done | done | by apply keeps_refl | done |].
  intros Hn. by eapply tk_unrouted.
Qed.

(** Finishing settles a stream, finished before or not. *)
Lemma finish_settles b s :
  stream_ok b s -> settled s ->
  keeps b s (finishStream b s).1 (finishStream b s).2 /\ settled (finishStream b s).2 /\
  as_finished (finishStream b s).2 = true.
Proof.
  intros Ho Hs. split; [by apply finishStream_keeps |]. destruct (as_finished s) eqn:Ef.
  - unfold finishStream. by rewrite Ef.
  - destruct (finishStream_over b s Ho Ef) as (Hv & Hi & _). split; [by intros _ | apply Hv].
Qed.

Lemma agent_finish_at_ok T id tn w : good T -> tb_store T !! id = Some tn -> good (finish_at T id tn w).
Proof.
  intros HT E. destruct (tk_tunnels _ _ _ HT _ _ E) as [Ho Hs]. unfold finish_at.
  destruct (finish_settles _ _ Ho Hs) as (Hk & Hse & Hf). destruct (finishStream _ _) as [b st]. by eapply agent_put_ok.
Qed.

Lemma finish_at_finished T id tn w :
  good T -> tb_store T !! id = Some tn -> exists tn', tb_store (finish_at T id tn w) !! id = Some tn' /\
    as_finished (tn_stream tn') = true.
Proof.
  intros HT E. destruct (tk_tunnels _ _ _ HT _ _ E) as [Ho Hs]. unfold finish_at.
  destruct (finish_settles _ _ Ho Hs) as (_ & _ & Hf). destruct (finishStream _ _) as [b st].
  eexists. cbn. by rewrite lookup_insert_eq.
Qed.

Lemma agent_unroute_ok T ids :
  good T -> (forall id tn, tb_store T !! id = Some tn -> id ∈ ids -> as_finished (tn_stream tn) = true) ->
  good (MkTable (tb_store T) (tb_streams T ∖ ids) (tb_budget T) (tb_maxStreamID T)).
Proof.
  intros [] Hids. split; cbn; try done.
  - intros id tn Hid Hn. destruct (decide (id ∈ ids)) as [Hi|Hi]; [by eapply Hids |].
    eapply tk_unrouted0; [done |]. set_solver.
  - set_solver.
  - etransitivity; [| exact tk_size0]. apply inj_le, subseteq_size. set_solver.
Qed.

(** [finishStream] leaves the table as if the stream had been finished first
    and taken out of the table then. *)
Lemma finish_stream_swap T id tn :
  stream_at T id = Some tn ->
  finish_stream T id =
  unroute (finish_at T id tn ((fun w => Window.Close w (Some (ErrMsg "stream closed"))) <$> tn_window tn)) id.
Proof.
  intros E. unfold finish_stream. rewrite E. unfold finish_at. cbn. by destruct (finishStream _ _).
Qed.

Lemma agent_stream_at_store T id tn : stream_at T id = Some tn -> tb_store T !! id = Some tn /\ id ∈ tb_streams T.
Proof. unfold stream_at. by case_bool_decide. Qed.

Lemma stream_at_None T id : good T -> stream_at T id = None -> id ∉ tb_streams T.
Proof.
  intros HT. unfold stream_at. case_bool_decide as Hi; [| done]. intros Hn.
  apply (tk_routed _ _ _ HT) in Hi. apply elem_of_dom in Hi as [? Hi]. congruence.
Qed.

Lemma finish_stream_ok T id : good T -> good (finish_stream T id).
Proof.
  intros HT. destruct (stream_at T id) as [tn|] eqn:E.
  - rewrite (finish_stream_swap _ _ _ E). apply agent_stream_at_store in E as [E _].
    set (w := _ <$> _). destruct (finish_at_finished T id tn w HT E) as (tn' & Hl & Hf).
    apply agent_unroute_ok; [by apply agent_finish_at_ok |]. intros j tn2 Hj ->%elem_of_singleton. congruence.
  - unfold finish_stream. rewrite E. apply agent_unroute_ok; [done |].
    intros j tn Hj ->%elem_of_singleton. eapply tk_unrouted; [done.. |]. by apply stream_at_None.
Qed.
(** *** [shutdown] *)

Definition erase (T : table) : table := MkTable (tb_store T) ∅ (tb_budget T) (tb_maxStreamID T).

Lemma finish_id_erase T id : finish_id (erase T) id = erase (finish_id T id).
Proof. unfold finish_id, finish_at. cbn. destruct (tb_store T !! id); [| done]. by destruct (finishStream _ _). Qed.

Lemma finish_all_erase T : finish_all T = erase (foldl finish_id T (elements (tb_streams T))).
Proof.
  unfold finish_all. change (MkTable (tb_store T) ∅ (tb_budget T) (tb_maxStreamID T)) with (erase T).
  generalize (elements (tb_streams T)). intros ids. revert T.
  induction ids as [|id r IH]; intros T; [done |]. cbn [foldl]. rewrite <- IH. f_equal. apply finish_id_erase.
Qed.

(** [T'] has the streams of [T], those in [ids] finished and the finished
    ones still so. *)
Definition finished_in (ids : list Z) (T T' : table) : Prop :=
  tb_streams T' = tb_streams T /\ dom (tb_store T') = dom (tb_store T) /\ tb_maxStreamID T' = tb_maxStreamID T /\
  forall j tn tn', tb_store T !! j = Some tn -> tb_store T' !! j = Some tn' ->
    j ∈ ids \/ as_finished (tn_stream tn) = true -> as_finished (tn_stream tn') = true.

Lemma finish_id_ok T id : good T -> good (finish_id T id) /\ finished_in [id] T (finish_id T id).
Proof.
  intros HT. unfold finish_id, finished_in. destruct (tb_store T !! id) as [tn|] eqn:E.
  - destruct (finish_at_finished T id tn (tn_window tn) HT E) as (tn1 & Hl & Hf).
    split; [by apply agent_finish_at_ok |]. unfold finish_at in *. destruct (finishStream _ _) as [b st]. cbn in *.
    split; [done |]. split; [rewrite dom_insert_L; apply elem_of_dom_2 in E; set_solver |]. split; [done |].
    intros j tn0 tn' Hj Hj' Hc. destruct (decide (j = id)) as [->|Hne]; [congruence |].
    rewrite lookup_insert_ne in Hj' by done. destruct Hc as [Hc|Hc]; [set_solver | congruence].
  - split_and!; try done. intros j tn0 tn' Hj Hj' [->%list_elem_of_singleton|Hc]; congruence.
Qed.

Lemma finish_ids_ok ids : forall T, good T -> good (foldl finish_id T ids) /\ finished_in ids T (foldl finish_id T ids).
Proof.
  induction ids as [|id r IH]; intros T HT; cbn [foldl].
  - split; [done |]. split_and!; try done. intros j tn tn' Hj Hj' [Hin|Hf]; [by apply elem_of_nil in Hin | congruence].
  - destruct (finish_id_ok T id HT) as (HT1 & S1 & D1 & M1 & F1).
    destruct (IH _ HT1) as (HT2 & S2 & D2 & M2 & F2). split; [done |]. split_and!; try congruence.
    intros j tn tn' Hj Hj' Hc.
    assert (exists tn1, tb_store (finish_id T id) !! j = Some tn1) as [tn1 Hj1].
    { apply elem_of_dom_2 in Hj. rewrite <- D1 in Hj. by apply elem_of_dom in Hj. }
    apply (F2 j tn1 tn' Hj1 Hj'). destruct Hc as [[->|Hr]%elem_of_cons|Hf]; [| by left |]; right;
      (eapply F1; [exact Hj | exact Hj1 |]); [left; by apply list_elem_of_singleton | by right].
Qed.

Lemma finish_all_ok T :
  good T -> good (finish_all T) /\ tb_streams (finish_all T) = ∅ /\
  (forall id tn, tb_store (finish_all T) !! id = Some tn -> as_finished (tn_stream tn) = true).
Proof.
  intros HT. rewrite finish_all_erase. destruct (finish_ids_ok (elements (tb_streams T)) T HT) as (HT' & S & D & M & F).
  set (T' := foldl _ _ _) in *.
  assert (Hf : forall id tn, tb_store T' !! id = Some tn -> as_finished (tn_stream tn) = true).
  { intros id tn Hid. assert (exists tn0, tb_store T !! id = Some tn0) as [tn0 H0].
    { apply elem_of_dom_2 in Hid. rewrite D in Hid. by apply elem_of_dom in Hid. }
    apply (F id tn0 tn H0 Hid). destruct (decide (id ∈ tb_streams T)) as [Hi|Hi]; [left; by apply elem_of_elements |].
    right. by apply (tk_unrouted _ _ _ HT id). }
  split; [| split; [done | exact Hf]].
  pose proof (agent_unroute_ok T' (tb_streams T') HT' (fun id tn H _ => Hf id tn H)) as Hu.
  unfold erase. by replace (∅ : gset Z) with (tb_streams T' ∖ tb_streams T') by set_solver.
Qed.
End Table.

(** *** Streams opened and frames queued *)

Section TableOps.
Context (lim : Limits) (stream_i64 : is_i64 (MaxStreamQueueBytes lim)) (session_i64 : is_i64 (MaxSessionQueueBytes lim)).
Notation good := (table_ok (MaxStreams lim) (MaxSessionQueueBytes lim)).

Lemma input_budget_i64 mode : is_i64 (input_budget mode lim).
Proof using stream_i64 session_i64. unfold input_budget, streamInputBudget. by repeat case_match. Qed.

Lemma open_stream_ok s id endpoint mode T0 :
  sn_limits s = lim -> sn_table s = MkTable (tb_store T0) (tb_streams T0) (tb_budget T0) id ->
  good T0 -> is_u32 id -> tb_maxStreamID T0 < id -> Z.of_nat (size (tb_streams T0)) < MaxStreams lim ->
  good (open_stream s id endpoint mode).
Proof using stream_i64 session_i64.
  intros Hlim HT HT0 Hi Hlt Hsz. unfold open_stream. rewrite HT, Hlim. cbn [tb_store tb_streams tb_budget tb_maxStreamID].
  set (tn := MkTunnel _ _). destruct HT0.
  assert (Hfresh : id ∉ dom (tb_store T0)) by (intros Hin; apply tk_ids0 in Hin; lia).
  apply not_elem_of_dom in Hfresh as Hnone.
  assert (Hnew : stream_ok (tb_budget T0) (tn_stream tn)).
  { pose proof tk_budget0 as (_ & Hu & _). pose proof (input_budget_i64 mode).
    split; unfold held; cbn; try done; try lia. unfold budget_ok. cbn. split; [done | lia]. }
  split; cbn; try done.
  - intros j tn' Hj. apply lookup_insert_Some in Hj as [[<- <-]|[_ Hj]]; [by split | by apply (tk_tunnels0 j)].
  - intros j tn' Hj Hn. apply lookup_insert_Some in Hj as [[<- <-]|[_ Hj]]; [set_solver |].
    eapply tk_unrouted0; [done | set_solver].
  - by rewrite total_fresh.
  - rewrite dom_insert_L. set_solver.
  - rewrite size_union by set_solver. rewrite size_singleton. lia.
  - intros j Hj. rewrite dom_insert_L in Hj. unfold is_u32 in *.
    apply elem_of_union in Hj as [->%elem_of_singleton|Hj]; [lia | apply tk_ids0 in Hj; lia].
Qed.

Lemma max_id_ok T id : good T -> is_u32 id -> tb_maxStreamID T < id ->
  good (MkTable (tb_store T) (tb_streams T) (tb_budget T) id).
Proof. intros [] Hi Hlt. split; cbn; try done. intros j Hj. apply tk_ids0 in Hj. lia. Qed.

Lemma enqueue_put_ok T id tn data :
  good T -> stream_at T id = Some tn ->
  good (put T id (enqueue (tb_budget T) (tn_stream tn) data).1.2
          (MkTunnel (enqueue (tb_budget T) (tn_stream tn) data).2 (tn_window tn))).
Proof.
  intros HT E. apply agent_stream_at_store in E as [E Hin]. destruct (tk_tunnels _ _ _ HT _ _ E) as [Ho Hs].
  destruct (enqueue_keeps (tb_budget T) (tn_stream tn) data Ho) as (Hk & _).
  destruct (enqueue_flags (tb_budget T) (tn_stream tn) data) as (Ff & _ & _ & Fs).
  eapply agent_put_ok; [done | done | done | | done].
  intros Hf. rewrite Ff in Hf. rewrite (Fs (ao_finished _ _ Ho Hf)). by apply Hs.
Qed.

Lemma receive_put_ok T id tn p st :
  good T -> tb_store T !! id = Some tn -> receive (tn_stream tn) = Some (p, st) ->
  good (put T id (tb_budget T) (MkTunnel st (tn_window tn))).
Proof.
  intros HT E Hr. destruct (tk_tunnels _ _ _ HT _ _ E) as [Ho Hs].
  destruct (receive_keeps _ _ _ _ Ho Hr) as (Hk & _ & rest & Hi & _ & ->).
  assert (Hf : as_finished (tn_stream tn) = false).
  { destruct (as_finished (tn_stream tn)) eqn:Ef; [| done]. destruct (Hs Ef). congruence. }
  eapply agent_put_ok; [done | done | exact Hk | by intros Hx; cbn in Hx; congruence |].
  intros Hn. apply (tk_unrouted _ _ _ HT _ _ E) in Hn. congruence.
Qed.

Lemma release_put_ok T id tn p b st :
  good T -> tb_store T !! id = Some tn -> release_hand (tb_budget T) (tn_stream tn) = Some (p, b, st) ->
  good (put T id b (MkTunnel st (tn_window tn))).
Proof.
  intros HT E Hr. destruct (tk_tunnels _ _ _ HT _ _ E) as [Ho Hs].
  destruct (release_hand_keeps _ _ _ _ _ Ho Hr) as (Hk & _ & Hh & Hi & _).
  assert (Hf : as_finished st = as_finished (tn_stream tn) /\ over st = over (tn_stream tn)).
  { unfold release_hand in Hr. rewrite Hh in Hr. by injection Hr as <- <-. }
  destruct Hf as [Hf Hov]. eapply agent_put_ok; [done | done | exact Hk | |].
  - intros Hx. rewrite Hov, Hi. apply Hs. congruence.
  - intros Hn. rewrite Hf. by apply (tk_unrouted _ _ _ HT id).
Qed.

Lemma update_terminal_ok T id : good T -> good (update_stream T id set_terminal).
Proof. intros HT. apply update_ok; try done. intros s b H. apply flags_ok; [done | apply H]. Qed.

Lemma update_peerHalf_ok T id : good T -> good (update_stream T id set_peerHalf).
Proof. intros HT. apply update_ok; try done. intros s b H. apply flags_ok; [done | apply H]. Qed.

Lemma update_cancel_ok T id : good T -> good (update_stream T id cancel).
Proof.
  intros HT. apply update_ok; try done; [intros s b H; apply flags_ok; [done | apply H] |].
  intros s Hs Hf. destruct (Hs Hf) as [(? & ? & _) ?]. by split.
Qed.

Lemma finish_from_peer_ok T id : good T -> good (finish_from_peer T id).
Proof. intros HT. apply finish_stream_ok. destruct (stream_at T id); [by apply update_terminal_ok | done]. Qed.

Lemma agent_take_window_ok T id size T' : good T -> take_window T id size = Some (Ok T') -> good T'.
Proof.
  intros HT. unfold take_window. destruct (_ !! _) as [[? [w|]]|]; [| by intros [= <-] | by intros [= <-]].
  destruct (negb _); [done |]. destruct (take_locked w size); try done. intros [= <-]. by apply agent_set_window_ok.
Qed.
End TableOps.

(** ** Every operation keeps the session *)

Record session_ok (lim : Limits) (start : Z) (s : session) : Prop := SessionOk {
  so_limits : sn_limits s = lim;
  so_table : table_ok (MaxStreams lim) (MaxSessionQueueBytes lim) (sn_table s);
  so_log : log_ok start (sn_outbound s) (sn_wire s) (sn_closed s);
}.

Section Preserved.
Context (lim : Limits) (stream_i64 : is_i64 (MaxStreamQueueBytes lim)) (session_i64 : is_i64 (MaxSessionQueueBytes lim)).
Context (start : Z).
Notation good := (session_ok lim start).

Lemma agent_good_table s T : good s -> table_ok (MaxStreams lim) (MaxSessionQueueBytes lim) T -> good (with_table s T).
Proof. intros [] H. by split. Qed.

Lemma good_shutdown s : good s -> good (shutdown s).
Proof.
  intros Hs. pose proof Hs as [Hl HT HW]. unfold shutdown. destruct (sn_closed s) eqn:E; [exact Hs |].
  split; cbn; [done | by apply finish_all_ok |]. by eapply log_weaken; [exact HW |].
Qed.

Lemma agent_good_writeQueued s kind id payload expired written :
  good s -> sn_closed s = false -> 0 <= kind < 256 -> is_u32 id ->
  good (writeQueued s kind id payload expired written).2.
Proof.
  intros Hs Hd Hk Hi. pose proof Hs as [Hl HT HW]. unfold writeQueued.
  destruct (if kind =? KindControl then expired else None); [done |].
  destruct (NextSequence (sn_outbound s)) as [q|e] eqn:Hn; [| by apply good_shutdown].
  destruct (EncodeFrame _) as [frame|e] eqn:He; [| done]. rewrite Hd in HW.
  destruct written as [e|]; cbn [snd].
  - unfold shutdown. cbn [sn_closed with_writer]. rewrite Hd. split; cbn; [done | by apply finish_all_ok |].
    eapply log_skip; [exact HW |]. by destruct (NextSequence_u64 _ _ (proj1 HW) Hn).
  - split; cbn; [done | done |]. rewrite Hd. by eapply (log_snoc start (sn_outbound s) (sn_wire s) kind id).
Qed.

Section Net.
Context (net : nat -> answer).

Lemma agent_good_sendFrame s kind id payload :
  good s -> 0 <= kind < 256 -> is_u32 id -> good (sendFrame net s kind id payload).2.
Proof.
  intros Hs Hk Hi. unfold sendFrame. destruct (sn_closed s) eqn:Hd; [done |].
  set (s' := with_writer s _ _ _). assert (Hs' : good s') by (destruct Hs; by split).
  destruct (net _); [done |]. by apply agent_good_writeQueued.
Qed.

Lemma agent_good_sendControl s id m : good s -> is_u32 id -> good (sendControl net s id m).2.
Proof. intros. by apply agent_good_sendFrame. Qed.

Lemma good_send_terminal s id m : good s -> is_u32 id -> good (send_terminal net s id m).2.
Proof.
  intros Hs Hi. unfold send_terminal. destruct (_ !! _) as [tn|]; [| done].
  destruct (as_terminal _); [done |]. apply agent_good_sendControl; [| done].
  apply agent_good_table; [done |]. apply update_terminal_ok, Hs.
Qed.

Lemma good_finish s id : good s -> good (with_table s (finish_stream (sn_table s) id)).
Proof. intros Hs. apply agent_good_table; [done |]. apply finish_stream_ok, Hs. Qed.

Lemma good_abort s id code message retryable : good s -> is_u32 id -> good (abort_stream net s id code message retryable).
Proof. intros Hs Hi. unfold abort_stream. apply good_finish. by apply good_send_terminal. Qed.

Lemma agent_good_send_chunk s id paced payload r s' :
  good s -> is_u32 id -> send_chunk net s id paced payload = Some (r, s') -> good s'.
Proof.
  intros Hs Hi. unfold send_chunk. destruct (chunk_of payload) as [chunk rest].
  destruct (if paced then _ else _) as [[T|e]|] eqn:Ew; [| by intros [= <- <-] | done].
  assert (HT : table_ok (MaxStreams lim) (MaxSessionQueueBytes lim) T).
  { destruct paced; [eapply agent_take_window_ok, Ew; apply Hs | injection Ew as <-; apply Hs]. }
  pose proof (agent_good_sendFrame (with_table s T) KindData id chunk (agent_good_table s T Hs HT) ltac:(done) Hi) as H.
  destruct (sendFrame _ _ _ _ _) as [x s1]. by intros [= <- <-].
Qed.

Lemma agent_good_sendBytes s id payload : good s -> is_u32 id -> good (sendBytes net s id payload).2.
Proof.
  intros Hs Hi.
  assert (L : forall n s paced payload, good s -> good (send_chunks net n s id paced payload).2).
  { induction n as [|n IH]; intros s0 paced p H0; simpl; [done |]. destruct (zlen p =? 0); [done |].
    destruct (send_chunk net s0 id paced p) as [[[rest|e] s1]|] eqn:E; [| | done];
      pose proof (agent_good_send_chunk _ _ _ _ _ _ H0 Hi E); [by apply IH | done]. }
  unfold sendBytes. destruct (sn_flow s); [| by apply L].
  destruct (stream_at _ _); [by apply L | done].
Qed.

Lemma good_writer_credit s id size : good s -> is_u32 id -> good (writer_credit net s id size).2.
Proof.
  intros Hs Hi. unfold writer_credit. destruct (_ !! _) as [[? [w|]]|]; [| done | done].
  destruct (0 <? size); [by apply agent_good_sendControl | done].
Qed.

(** *** Frames *)

Lemma agent_good_handleData s frame : good s -> is_u32 (fr_stream frame) -> good (handleData net s frame).2.
Proof.
  intros Hs Hi. unfold handleData. destruct (stream_at _ _) as [tn|] eqn:E; [| by case_match].
  destruct (_ && _); [by apply good_abort |].
  pose proof (enqueue_put_ok lim _ _ _ (fr_payload frame) (so_table _ _ _ Hs) E) as HT.
  destruct (enqueue _ _ _) as [[[] b] st]; cbn in *; [by apply agent_good_table |].
  apply good_abort; [by apply agent_good_table | done].
Qed.

Lemma agent_good_window_update s id credit : good s -> is_u32 id -> good (window_update_from_peer net s id credit).
Proof.
  intros Hs Hi. unfold window_update_from_peer. destruct (stream_at _ _) as [[st [w|]]|]; try done.
  destruct (Window.Add w credit); [| by apply good_abort]. apply agent_good_table; [done |]. apply agent_set_window_ok, Hs.
Qed.

Lemma good_half_close s id : good s -> is_u32 id -> good (half_close_from_peer net s id).2.
Proof.
  intros Hs Hi. unfold half_close_from_peer. destruct (stream_at _ _); [| done].
  destruct (negb _); [by apply agent_good_sendControl |]. apply agent_good_table; [done |]. apply update_peerHalf_ok, Hs.
Qed.

Lemma good_grant_initial s id mode : good s -> is_u32 id -> good (grant_initial net s id mode).2.
Proof.
  intros Hs Hi. unfold grant_initial. destruct (_ && _); [| done].
  set (m := MsgStreamWindowUpdate (MkStreamWindowUpdate ProtocolVersion "stream_window_update" (InitialCredit
    (input_budget mode (sn_limits s) - HeaderAllowanceBytes)))).
  pose proof (agent_good_sendControl s id m Hs Hi) as H. unfold sendWindowUpdate. fold m.
  destruct (sendControl net s id m) as [[] s']; [done | by apply good_finish].
Qed.

Lemma good_stream_open s id m : good s -> is_u32 id -> good (handleStreamOpen net s id m).2.
Proof using stream_i64 session_i64.
  intros Hs Hi. unfold handleStreamOpen. destruct (id =? 0); [done |]. destruct (id <=? _) eqn:El; [done |]. bool_facts.
  pose proof Hs as [Hl HT HW].
  set (s1 := with_table s (MkTable (tb_store (sn_table s)) (tb_streams (sn_table s)) (tb_budget (sn_table s)) id)).
  assert (H1 : good s1) by (apply agent_good_table; [done |]; by apply max_id_ok).
  destruct (_ <=? _) eqn:Em; [by apply agent_good_sendControl |]. bool_facts.
  destruct (EndpointByID _ _) as [e|]; [| by apply agent_good_sendControl].
  destruct (negb _); [by apply agent_good_sendControl |]. apply good_grant_initial; [| done].
  apply agent_good_table; [done |]. rewrite Hl in Em. by eapply (open_stream_ok lim stream_i64 session_i64 s1 id _ _ (sn_table s)).
Qed.

Lemma agent_good_dispatch s kind id payload now : good s -> is_u32 id -> good (dispatch_control net s kind id payload now).2.
Proof using stream_i64 session_i64.
  intros Hs Hi. unfold dispatch_control.
  repeat (match goal with |- context [if ?b then _ else _] => destruct b end; try done);
    try (destruct (json_unmarshal _ _) as [m|e]; [| done]); cbn [snd].
  - by apply agent_good_sendControl.
  - by apply good_stream_open.
  - apply agent_good_table; [done |]. apply finish_from_peer_ok, Hs.
  - by apply good_half_close.
  - apply agent_good_table; [done |]. apply finish_from_peer_ok, Hs.
  - by apply agent_good_window_update.
Qed.

Lemma agent_good_run_once s r now : good s -> good (run_once net s r now).2.
Proof using stream_i64 session_i64.
  intros Hs. unfold run_once.
  set (x := match readAgentFrame r with Ok _ => _ | Err _ => _ end).
  assert (Hx : good x.2).
  { unfold x. destruct (readAgentFrame r) as [frame|e] eqn:Er; [| done].
    assert (Hi : is_u32 (fr_stream frame)).
    { destruct r as [|[] payload]; try done. cbn in Er.
      apply decode_sound in Er as [Hw _]. apply frame_wf_typed in Hw. apply Hw. }
    destruct (Accept _ _) as [inbound|e]; [| done].
    assert (H1 : good (with_inbound s inbound)) by (destruct Hs; by split).
    destruct (fr_kind frame =? KindControl).
    - unfold handleControl. destruct (ValidateControlPayload _ _ _); [| done].
      destruct (json_unmarshal _ _); [by apply agent_good_dispatch | done].
    - destruct (fr_kind frame =? KindData); [by apply agent_good_handleData | done]. }
  destruct x as [[] s']; cbn [snd] in *; [done | by apply good_shutdown].
Qed.
End Net.

Lemma agent_good_step s s' : good s -> session_step s s' -> good s'.
Proof using stream_i64 session_i64.
  intros Hs H. destruct H.
  - by apply agent_good_run_once.
  - by apply agent_good_sendBytes.
  - by apply agent_good_sendFrame.
  - by apply agent_good_sendControl.
  - by apply good_send_terminal.
  - by apply good_send_terminal.
  - by apply good_finish.
  - apply agent_good_table; [done |]. apply update_cancel_ok, Hs.
  - unfold writer_receive in H. destruct (_ !! _) as [tn|] eqn:E; [| done].
    destruct (receive _) as [[q st]|] eqn:Er; [| done]. injection H as <- <-.
    apply agent_good_table; [done |]. eapply receive_put_ok, Er; [apply Hs | done].
  - unfold writer_release in H. destruct (_ !! _) as [tn|] eqn:E; [| done].
    destruct (release_hand _ _) as [[[q b] st]|] eqn:Er; [| done]. injection H as <- <-.
    apply agent_good_table; [done |]. eapply release_put_ok, Er; [apply Hs | done].
  - by apply good_writer_credit.
  - by apply agent_good_sendControl.
  - by destruct Hs.
  - by apply good_shutdown.
Qed.
End Preserved.

(** ** Reachable sessions *)

Section Reachable.
Context (endpoints : list Endpoint) (lim : Limits) (sessionID challenge : string) (flow : bool)
  (inbound : SequenceTracker) (lastOutbound idle : Z).
Context (stream_i64 : is_i64 (MaxStreamQueueBytes lim)) (session_i64 : is_i64 (MaxSessionQueueBytes lim))
  (outbound_u64 : is_u64 lastOutbound).

Definition fresh_session : session :=
  newAgentSession endpoints lim sessionID challenge flow inbound lastOutbound idle.

Lemma fresh_ok : session_ok (sn_limits fresh_session) lastOutbound fresh_session.
Proof using session_i64 outbound_u64.
  split; cbn; [done | | by apply log_new].
  split; cbn; try done; try lia.
  - unfold budget_ok. cbn. split; [done | lia].
  - change (set_size _) with (size (∅ : gset Z)). rewrite size_empty. lia.
Qed.

Lemma agent_reach s : steps session_step fresh_session s -> session_ok (sn_limits fresh_session) lastOutbound s.
Proof using stream_i64 session_i64 outbound_u64.
  apply (steps_invariant _ (session_ok (sn_limits fresh_session) lastOutbound)); [exact fresh_ok |].
  intros a b Ha Hab. by eapply agent_good_step.
Qed.
End Reachable.

(** C11: At every moment of an Agent session, under any order of frames, stream goroutines, health reports and shutdowns: the session's byte budget is exactly what its streams hold, at most its limit, and never clamped, so no byte was ever released twice; every stream's own budget is exactly what it holds; a stream out of the table is finished, cancelled and has nothing queued; at most MaxStreams streams are in the table, all with identifiers the Gateway opened before; and a shutdown leaves no stream in the table and nothing held but what a writer has in hand. *)
Theorem agent_session_accounting endpoints lim sessionID challenge flow inbound lastOutbound idle s :
  is_i64 (MaxStreamQueueBytes lim) -> is_i64 (MaxSessionQueueBytes lim) -> is_u64 lastOutbound ->
  steps session_step (fresh_session endpoints lim sessionID challenge flow inbound lastOutbound idle) s ->
  let T := sn_table s in
  b_used (tb_budget T) = total_held (tb_store T) /\
  (total_held (tb_store T) = 0 \/ total_held (tb_store T) <= MaxSessionQueueBytes lim) /\
  b_underflows (tb_budget T) = 0 /\
  (forall id tn, tb_store T !! id = Some tn ->
     b_used (as_streamBudget (tn_stream tn)) = held_by tn /\ b_underflows (as_streamBudget (tn_stream tn)) = 0 /\
     0 < id <= tb_maxStreamID T /\
     (id ∉ tb_streams T -> over (tn_stream tn) /\ as_incoming (tn_stream tn) = [])) /\
  Z.of_nat (size (tb_streams T)) <= Z.max 0 (MaxStreams lim) /\ tb_streams T ⊆ dom (tb_store T) /\
  (sn_closed s = false -> let T' := sn_table (shutdown s) in
     tb_streams T' = ∅ /\ forall id tn, tb_store T' !! id = Some tn -> held_by tn = hand_size (as_hand (tn_stream tn))).
Proof.
  intros Hq Hsq Hl Hr T.
  pose proof (agent_reach _ _ _ _ _ _ _ _ Hq Hsq Hl s Hr) as [_ HT _]. cbn in HT. fold T in HT.
  pose proof (tk_budget _ _ _ HT) as (_ & _ & Hlim). rewrite (tk_limit _ _ _ HT), (tk_total _ _ _ HT) in Hlim.
  split; [apply HT |]. split; [exact Hlim |]. split; [apply HT |]. split; [| split; [apply HT | split; [apply HT |]]].
  - intros id tn E. destruct (tk_tunnels _ _ _ HT _ _ E) as [Ho Hs].
    split; [apply Ho |]. split; [apply Ho |]. split; [apply (tk_ids _ _ _ HT); by eapply elem_of_dom_2 |].
    intros Hn. apply Hs. by eapply (tk_unrouted _ _ _ HT).
  - intros Hc. unfold shutdown. rewrite Hc. cbn. destruct (finish_all_ok _ _ _ HT) as (HT' & Hs & Hf).
    split; [exact Hs |]. intros id tn E. destruct (tk_tunnels _ _ _ HT' _ _ E) as [_ Hse].
    destruct (Hse (Hf _ _ E)) as [_ Hi]. unfold held_by, held. by rewrite Hi.
Qed.

(** Everything an Agent session writes decodes, and a Gateway whose tracker stood at the session's start accepts every frame in order, control and data of all streams sharing one contiguous sequence whatever the interleaving, expired requests and callers that gave up included; once the session is closed nothing more is written. *)
Theorem agent_wire_accepted endpoints lim sessionID challenge flow inbound lastOutbound idle s :
  is_i64 (MaxStreamQueueBytes lim) -> is_i64 (MaxSessionQueueBytes lim) -> is_u64 lastOutbound ->
  steps session_step (fresh_session endpoints lim sessionID challenge flow inbound lastOutbound idle) s ->
  exists frames last, Forall2 (fun b f => DecodeFrame b = Ok f) (sn_wire s) frames /\
    accept_all lastOutbound (fr_seq <$> frames) = Ok last /\
    (sn_closed s = false -> last = sn_outbound s) /\
    (sn_closed s = true -> forall net kind id payload, (sendFrame net s kind id payload).2 = s).
Proof.
  intros Hq Hsq Hl Hr. pose proof (agent_reach _ _ _ _ _ _ _ _ Hq Hsq Hl s Hr) as [_ _ HW].
  destruct (log_accepted _ _ _ _ HW) as (fs & l & H1 & H2 & H3). exists fs, l. split_and!; try done.
  intros Hd net kind id payload. unfold sendFrame. by rewrite Hd.
Qed.

(** ** Isolation *)

(** Nothing but [id] is different. *)
Definition off (id : Z) (T T' : table) : Prop :=
  forall j, j <> id -> tb_store T' !! j = tb_store T !! j /\ (j ∈ tb_streams T' <-> j ∈ tb_streams T).

Lemma off_refl id T : off id T T.
Proof. done. Qed.

Lemma agent_off_trans id T1 T2 T3 : off id T1 T2 -> off id T2 T3 -> off id T1 T3.
Proof. intros H1 H2 j Hj. destruct (H1 j Hj) as [E1 R1], (H2 j Hj) as [E2 R2]. split; [congruence | by rewrite R2]. Qed.

Lemma off_put id T b tn : off id T (put T id b tn).
Proof. intros j Hj. cbn. by rewrite lookup_insert_ne. Qed.

Lemma off_update id T f : off id T (update_stream T id f).
Proof. unfold update_stream. destruct (_ !! _); [apply off_put | apply off_refl]. Qed.

Lemma off_finish id T : off id T (finish_stream T id) /\ id ∉ tb_streams (finish_stream T id).
Proof.
  unfold finish_stream, finish_at. destruct (stream_at T id) as [tn|]; [destruct (finishStream _ _) as [b st] |].
  - split; [| cbn; set_solver]. intros j Hj. cbn. rewrite lookup_insert_ne by done. split; [done | set_solver].
  - split; [| cbn; set_solver]. intros j Hj. cbn. split; [done | set_solver].
Qed.

(** A send leaves the streams alone, or it ended the session. *)
Lemma agent_sendFrame_table net s kind id payload :
  let s' := (sendFrame net s kind id payload).2 in
  (sn_table s' = sn_table s /\ sn_closed s' = sn_closed s) \/
  (sn_table s' = finish_all (sn_table s) /\ sn_closed s' = true /\ sn_closed s = false).
Proof.
  unfold sendFrame. destruct (sn_closed s) eqn:Hd; [by left |].
  destruct (net _) as [e|expired written late]; [by left |]. cbn [snd]. unfold writeQueued.
  destruct (if kind =? KindControl then expired else None); [by left |].
  destruct (NextSequence _) as [q|e].
  - destruct (EncodeFrame _); [| by left]. destruct written as [e|]; [| by left].
    right. unfold shutdown. cbn. by rewrite Hd.
  - right. unfold shutdown. cbn. by rewrite Hd.
Qed.

Lemma abort_off net s id code message retryable :
  let s' := abort_stream net s id code message retryable in
  id ∉ tb_streams (sn_table s') /\ (sn_closed s' = sn_closed s -> off id (sn_table s) (sn_table s')).
Proof.
  unfold abort_stream. set (s1 := (sendStreamTerminalError _ _ _ _ _ _).2). cbn [sn_table with_table].
  destruct (off_finish id (sn_table s1)) as [Ho Hn]. split; [exact Hn |].
  change (sn_closed (with_table s1 _)) with (sn_closed s1). intros Hc. eapply agent_off_trans; [| exact Ho]. clear Ho Hn.
  revert Hc. unfold s1, sendStreamTerminalError, send_terminal. destruct (_ !! _) as [tn|]; [| by intros; apply off_refl].
  destruct (as_terminal _); [intros; apply off_refl |]. set (m := MsgStreamError _).
  destruct (agent_sendFrame_table net (with_table s (update_stream (sn_table s) id set_terminal)) KindControl id (marshal_message m))
    as [(E & _)|(_ & E & E2)]; unfold sendControl; rewrite E; cbn in *.
  - intros _. apply off_update.
  - congruence.
Qed.

(** A data frame concerns the one stream it names. It ends the session only if that stream was never opened, and then nothing changed; for a stream that is over it is dropped; for a stream in the table the payload is queued whole at the end of its queue or that stream alone is aborted and taken out of the table, and no other stream is touched unless reporting the abort broke the connection. *)
Theorem agent_data_isolated lim start net s frame r s' :
  session_ok lim start s -> handleData net s frame = (r, s') ->
  let id := fr_stream frame in
  match r with
  | Err _ => s' = s /\ (id = 0 \/ tb_maxStreamID (sn_table s) < id)
  | Ok _ =>
      (s' = s /\ id ∉ tb_streams (sn_table s)) \/
      (sn_closed s' = sn_closed s -> off id (sn_table s) (sn_table s')) /\
      (id ∉ tb_streams (sn_table s') \/
       exists tn tn', stream_at (sn_table s) id = Some tn /\ stream_at (sn_table s') id = Some tn' /\
         as_incoming (tn_stream tn') = as_incoming (tn_stream tn) ++ [MkQueued (fr_payload frame) (zlen (fr_payload frame))])
  end.
Proof.
  intros [Hl HT _] H id. unfold handleData in H. fold id in H. destruct (stream_at _ id) as [tn|] eqn:E.
  - pose proof (agent_stream_at_store _ _ _ E) as [E1 E2]. destruct (tk_tunnels _ _ _ HT _ _ E1) as [Ho Hs].
    destruct (_ && _); [injection H as <- <-; right; destruct (abort_off net s id "resource_limit" "UDP datagram exceeds tunnel limit" false); tauto |].
    destruct (enqueue_keeps (tb_budget (sn_table s)) (tn_stream tn) (fr_payload frame) Ho) as (_ & Hi & _).
    destruct (enqueue _ _ _) as [[[] b] st]; injection H as <- <-; right; cbn [fst snd] in Hi.
    + split; [intros _; apply off_put |]. right. exists tn, (MkTunnel st (tn_window tn)). cbn.
      split; [done |]. split; [| exact Hi]. unfold stream_at. cbn. rewrite bool_decide_eq_true_2 by done. apply lookup_insert_eq.
    + set (s1 := with_table s _).
      destruct (abort_off net s1 id "resource_limit" "stream input byte/frame budget exhausted or stalled" true) as [Hn Hoff].
      split; [| by left]. intros Hc. eapply agent_off_trans; [| by apply Hoff]. apply off_put.
  - pose proof (stream_at_None _ _ _ _ HT E) as Hn. destruct (negb _ && _) eqn:Eb; injection H as <- <-.
    + by left.
    + split; [done |]. pose proof (tk_max _ _ _ HT) as Hm. unfold is_u32 in Hm.
      apply andb_false_iff in Eb as [Eb|Eb]; bool_facts; lia.
Qed.

(** ** Which streams are opened *)

(** The endpoint the operator approved under the identifier the Gateway named. *)
Definition approved (endpoints : list Endpoint) (m : StreamOpen) (e : Endpoint) : Prop :=
  e ∈ endpoints /\ ep_ID e = so_local_endpoint_id m /\ (ep_Protocol e = "udp" <-> so_mode m = "udp").

Lemma finish_all_streams T : tb_streams (finish_all T) = ∅.
Proof. by rewrite finish_all_erase. Qed.

(** A send never puts a stream into the table. *)
Lemma sendControl_routes net s id m : tb_streams (sn_table (sendControl net s id m).2) ⊆ tb_streams (sn_table s).
Proof.
  destruct (agent_sendFrame_table net s KindControl id (marshal_message m)) as [(E & _)|(E & _)]; unfold sendControl; rewrite E.
  - done.
  - rewrite finish_all_streams. set_solver.
Qed.

Lemma grant_initial_routes net s id mode :
  tb_streams (sn_table (grant_initial net s id mode).2) ⊆ tb_streams (sn_table s).
Proof.
  unfold grant_initial. destruct (_ && _); [| done]. unfold sendWindowUpdate. set (m := MsgStreamWindowUpdate _).
  pose proof (sendControl_routes net s id m) as H. destruct (sendControl net s id m) as [[] s']; [done |].
  cbn [snd] in *. etransitivity; [| exact H]. destruct (off_finish id (sn_table s')) as [Ho Hn].
  intros j Hj. destruct (decide (j = id)) as [->|Hne]; [done |]. by apply (Ho j Hne).
Qed.

(** A stream that enters the table. *)
Lemma stream_entered lim start net s id m r s' :
  session_ok lim start s -> handleStreamOpen net s id m = (r, s') ->
  forall j, j ∈ tb_streams (sn_table s') -> j ∉ tb_streams (sn_table s) ->
    j = id /\ id <> 0 /\ tb_maxStreamID (sn_table s) < id /\ id ∉ dom (tb_store (sn_table s)) /\
    Z.of_nat (size (tb_streams (sn_table s))) < MaxStreams lim /\
    exists e tn, approved (sn_endpoints s) m e /\ tb_store (sn_table s') !! id = Some tn /\
      as_endpoint (tn_stream tn) = e /\ as_mode (tn_stream tn) = so_mode m /\ held_by tn = 0 /\
      b_limit (as_streamBudget (tn_stream tn)) = input_budget (so_mode m) lim.
Proof.
  intros [Hl HT _] H j Hj Hn. unfold handleStreamOpen in H.
  destruct (id =? 0) eqn:E0; [injection H as <- <-; done |].
  destruct (id <=? _) eqn:El; [injection H as <- <-; done |]. bool_facts.
  set (s1 := with_table s (MkTable (tb_store (sn_table s)) (tb_streams (sn_table s)) (tb_budget (sn_table s)) id)) in *.
  assert (Herr : forall code msg retryable, sendStreamError net s1 id code msg retryable = (r, s') -> False).
  { intros code msg retryable E. apply Hn. apply (sendControl_routes net s1 id (MsgStreamError
      (MkStreamError ProtocolVersion "stream_error" code (clip256 msg) retryable))).
    unfold sendStreamError in E. by rewrite E. }
  destruct (_ <=? _) eqn:Em; [by apply Herr in H |]. bool_facts. rewrite Hl in Em.
  destruct (EndpointByID _ _) as [e|] eqn:Ee; [| by apply Herr in H].
  destruct (negb _) eqn:Ep; [by apply Herr in H |]. bool_facts. apply eqb_prop in Ep. clear Herr.
  apply EndpointByID_Some in Ee as [Hin Hid].
  set (s2 := with_table s1 (open_stream s1 id e (so_mode m))) in *.
  pose proof (grant_initial_routes net s2 id (so_mode m)) as Hg. rewrite H in Hg. cbn [snd] in Hg.
  assert (Hjid : j = id) by (apply Hg in Hj; cbn in Hj; set_solver). subst j.
  assert (Hst : sn_table s' = sn_table s2).
  { revert H. unfold grant_initial. destruct (_ && _); [| by intros [= _ <-]]. unfold sendWindowUpdate. set (w := MsgStreamWindowUpdate _).
    destruct (agent_sendFrame_table net s2 KindControl id (marshal_message w)) as [(E & _)|(E & _)];
      unfold sendControl; destruct (sendFrame _ _ _ _ _) as [[u|err] s3]; cbn [snd] in E; intros [= <- <-]; try done.
    - exfalso. cbn [sn_table with_table] in Hj. by apply (off_finish id (sn_table s3)) in Hj.
    - exfalso. rewrite E, finish_all_streams in Hj. set_solver.
    - exfalso. cbn [sn_table with_table] in Hj. by apply (off_finish id (sn_table s3)) in Hj. }
  split; [done |]. split; [done |]. split; [done |]. split; [intros Hd; apply (tk_ids _ _ _ HT) in Hd; lia |].
  split; [done |]. exists e. rewrite Hst. cbn. eexists. split; [| rewrite lookup_insert_eq; split; [done |]].
  - split; [done |]. split; [done |].
    destruct (String.eqb_spec (ep_Protocol e) "udp"), (String.eqb_spec (so_mode m) "udp"); naive_solver.
  - cbn. rewrite Hl. done.
Qed.

(** The other streams are as they were, or writing a frame failed and the session
    is over: then no stream is routed any more. *)
Definition others_kept (id : Z) (s s' : session) : Prop :=
  (sn_closed s' = sn_closed s /\ off id (sn_table s) (sn_table s')) \/
  (sn_closed s = false /\ sn_closed s' = true /\ tb_streams (sn_table s') = ∅).

Lemma sendControl_others net s s1 id m :
  sn_closed s1 = sn_closed s -> off id (sn_table s) (sn_table s1) -> others_kept id s (sendControl net s1 id m).2.
Proof.
  intros Hc Ho. destruct (agent_sendFrame_table net s1 KindControl id (marshal_message m)) as [(E & Ec)|(E & Ec & Ec1)].
  - left. change (sendControl net s1 id m) with (sendFrame net s1 KindControl id (marshal_message m)). by rewrite E, Ec.
  - right. change (sendControl net s1 id m) with (sendFrame net s1 KindControl id (marshal_message m)).
    rewrite Ec, E, finish_all_streams. split_and!; congruence.
Qed.

Lemma grant_initial_others net s s1 id mode :
  sn_closed s1 = sn_closed s -> off id (sn_table s) (sn_table s1) -> others_kept id s (grant_initial net s1 id mode).2.
Proof.
  intros Hc Ho. unfold grant_initial. destruct (_ && _); [| by left]. unfold sendWindowUpdate. set (m := MsgStreamWindowUpdate _).
  pose proof (sendControl_others net s s1 id m Hc Ho) as H. destruct (sendControl net s1 id m) as [[] s2]; [exact H |].
  cbn [snd] in *. destruct (off_finish id (sn_table s2)) as [Hf Hn]. destruct H as [[H1 H2]|(H1 & H2 & H3)].
  - left. split; [exact H1 |]. by eapply agent_off_trans.
  - right. split; [exact H1 |]. split; [exact H2 |]. apply set_eq. intros j. split; [| set_solver]. intros Hj.
    destruct (decide (j = id)) as [->|Hne]; [done |]. apply (Hf j Hne) in Hj. by rewrite H3 in Hj.
Qed.

Lemma handleStreamOpen_others net s id m : others_kept id s (handleStreamOpen net s id m).2.
Proof.
  unfold handleStreamOpen, sendStreamError. destruct (id =? 0); [by left |]. destruct (id <=? _); [by left |].
  destruct (_ <=? _); [by apply sendControl_others |]. destruct (EndpointByID _ _) as [e|]; [| by apply sendControl_others].
  destruct (negb _); [by apply sendControl_others |]. apply grant_initial_others; [done |].
  intros j Hj. cbn. rewrite lookup_insert_ne by done. split; [done | set_solver].
Qed.

(** C4: The Gateway opens a stream on the Agent only to an endpoint the operator approved: a stream that enters the table carries the identifier of the request, greater than every identifier used before on the session, an endpoint of the configuration with the requested id and the requested protocol, an empty queue with the byte budget of its mode, and there was room under MaxStreams. An identifier that is zero or not greater than those before is refused and changes nothing at all. Whatever the request and its outcome, every other stream, its queue, its budget and its place in the table are as before, unless an answer could not be written: then the session is over and no stream is routed. *)
Theorem stream_open_contained lim start net s id m r s' :
  session_ok lim start s -> handleStreamOpen net s id m = (r, s') ->
  (forall j, j ∈ tb_streams (sn_table s') -> j ∉ tb_streams (sn_table s) ->
    j = id /\ id <> 0 /\ tb_maxStreamID (sn_table s) < id /\ id ∉ dom (tb_store (sn_table s)) /\
    Z.of_nat (size (tb_streams (sn_table s))) < MaxStreams lim /\
    exists e tn, approved (sn_endpoints s) m e /\ tb_store (sn_table s') !! id = Some tn /\
      as_endpoint (tn_stream tn) = e /\ as_mode (tn_stream tn) = so_mode m /\ held_by tn = 0 /\
      b_limit (as_streamBudget (tn_stream tn)) = input_budget (so_mode m) lim) /\
  (id = 0 \/ id <= tb_maxStreamID (sn_table s) -> s' = s /\ exists err, r = Err err) /\
  others_kept id s s'.
Proof.
  intros Hok H. split; [| split].
  2: { intros Hid. unfold handleStreamOpen in H. destruct (Z.eqb_spec id 0); [injection H as <- <-; by split; [| eexists] |].
       rewrite (proj2 (Z.leb_le _ _)) in H by lia. injection H as <- <-. by split; [| eexists]. }
  2: { pose proof (handleStreamOpen_others net s id m) as Ho. by rewrite H in Ho. }
  intros j Hj Hn. by eapply stream_entered.
Qed.

(** ** Concrete sessions *)

Definition demo_net (n : nat) : answer := Served None None None.
Definition demo_web : Endpoint := MkEndpoint "web" "127.0.0.1:80" EmptyString.
Definition demo_request : StreamOpen :=
  MkStreamOpen ProtocolVersion "stream_open" "ep-1" "as-1" "web" "req-1" "tcp".

Definition demo_session : session :=
  fresh_session [demo_web] DefaultLimits "ses-1" "proof" true 0 2 (60 * Second).
Definition demo_open : session :=
  (run_once demo_net demo_session
     (ReadMsg true (frame_bytes (MkFrame KindControl 1 1 (marshal_message (MsgStreamOpen demo_request))))) 0).2.

Lemma agent_demo_open_steps : steps session_step demo_session demo_open.
Proof. eapply steps_snoc; [apply steps_refl | apply ss_read]. Qed.

Lemma agent_demo_bounds :
  is_i64 (MaxStreamQueueBytes DefaultLimits) /\ is_i64 (MaxSessionQueueBytes DefaultLimits) /\ is_u64 2.
Proof. unfold is_i64, is_u64. split_and!; vm_compute; congruence. Qed.

Lemma agent_demo_open_ok : session_ok (sn_limits demo_session) 2 demo_open.
Proof.
  destruct agent_demo_bounds as (Hq & Hs & Hl).
  apply (agent_reach [demo_web] DefaultLimits "ses-1" "proof" true 0 2 (60 * Second) Hq Hs Hl), agent_demo_open_steps.
Qed.

Lemma agent_session_accounting_witness :
  size (tb_streams (sn_table demo_open)) = 1%nat /\
  b_used (tb_budget (sn_table demo_open)) = total_held (tb_store (sn_table demo_open)).
Proof.
  split; [vm_compute; reflexivity |]. destruct agent_demo_bounds as (Hq & Hs & Hl).
  apply (agent_session_accounting [demo_web] DefaultLimits "ses-1" "proof" true 0 2 (60 * Second) demo_open
    Hq Hs Hl agent_demo_open_steps).
Defined.

Lemma agent_wire_accepted_witness :
  length (sn_wire demo_open) = 1%nat /\
  exists frames last, Forall2 (fun b f => DecodeFrame b = Ok f) (sn_wire demo_open) frames /\
    accept_all 2 (fr_seq <$> frames) = Ok last.
Proof.
  split; [vm_compute; reflexivity |]. destruct agent_demo_bounds as (Hq & Hs & Hl).
  destruct (agent_wire_accepted [demo_web] DefaultLimits "ses-1" "proof" true 0 2 (60 * Second) demo_open
    Hq Hs Hl agent_demo_open_steps) as (fs & l & H1 & H2 & _).
  exists fs, l. split; [exact H1 | exact H2].
Defined.

Lemma agent_data_isolated_witness :
  exists r s', handleData demo_net demo_open (MkFrame KindData 1 2 demo_a) = (r, s') /\ is_ok r = true /\
    (sn_closed s' = sn_closed demo_open -> off 1 (sn_table demo_open) (sn_table s')).
Proof.
  destruct (handleData demo_net demo_open (MkFrame KindData 1 2 demo_a)) as [r s'] eqn:E. exists r, s'.
  split; [reflexivity |].
  pose proof (agent_data_isolated _ 2 demo_net demo_open (MkFrame KindData 1 2 demo_a) r s' agent_demo_open_ok E) as H.
  apply (f_equal fst) in E. cbn [fst] in E. destruct r as [u|e].
  - split; [reflexivity |]. destruct H as [[-> _]|[H _]]; [intros _; apply off_refl | exact H].
  - vm_compute in E. discriminate E.
Defined.

Lemma stream_open_contained_witness :
  exists r s', handleStreamOpen demo_net demo_session 1 demo_request = (r, s') /\
    bool_decide (1 ∈ tb_streams (sn_table s')) = true /\
    exists e tn, approved (sn_endpoints demo_session) demo_request e /\ tb_store (sn_table s') !! 1 = Some tn.
Proof.
  destruct (handleStreamOpen demo_net demo_session 1 demo_request) as [r s'] eqn:E. exists r, s'.
  split; [reflexivity |].
  assert (Hin : bool_decide (1 ∈ tb_streams (sn_table s')) = true).
  { apply (f_equal (fun x => bool_decide (1 ∈ tb_streams (sn_table x.2)))) in E. cbn [snd] in E.
    rewrite <- E. vm_compute. reflexivity. }
  split; [exact Hin |]. destruct agent_demo_bounds as (Hq & Hs & Hl).
  destruct (stream_open_contained _ 2 demo_net demo_session 1 demo_request r s'
    (fresh_ok [demo_web] DefaultLimits "ses-1" "proof" true 0 2 (60 * Second) Hs Hl) E)
    as [H _]. destruct (H 1) as (_ & _ & _ & _ & _ & e & tn & Ha & Ht & _).
  - apply bool_decide_eq_true in Hin. exact Hin.
  - apply not_elem_of_empty.
  - exists e, tn. split; [exact Ha | exact Ht].
Defined.
