(* ===== verification/AgentServe.v ===== *)
(** * AgentServe: one stream and its local target

    [serveStream], [writeLocal], [writeLocalPayload], [serveUDPStream] and
    [writeLocalUDP] of [internal/agent/session.go] and [udp_stream.go]: how what
    the local target says becomes stream data, and how the stream is reported
    to the Gateway when it ends.  The local connection is a parameter: what
    each read, write and deadline call returned, and at each look at the
    stream's context whether it was over.  So are the other goroutines: before
    each pass of a loop they take the session somewhere. *)

From S2P Require Import Prelude GoText GoTime Json Frame Contract Control ControlCodec Window Budget.
From S2P Require Import Wire AgentLimits AgentStream AgentSession.

(** ** The read loop *)

(** One pass: what the other goroutines did to the session before it, and the
    answers to [SetReadDeadline], [conn.Read] and the look at the context. *)
Record round := MkRound {
  rd_env : session -> session;
  rd_deadline : option error;
  rd_data : bytes;
  rd_err : option error;
  rd_done : bool;
}.

Record loop_end := MkLoopEnd { le_sent : bytes; le_local : option error; le_send : option error }.

(** [if n > 0 { err := sess.sendBytes(...) }]. *)
Definition forward (net : nat -> answer) (s : session) (id : Z) (data : bytes) : option error * session :=
  if 0 <? zlen data then
    let '(r, s') := sendBytes net s id data in (match r with Ok _ => None | Err e => Some e end, s')
  else (None, s).

(** [None]: the loop is still running. *)
Fixpoint read_loop (net : nat -> answer) (id : Z) (rounds : list round) (s : session) (sent : bytes)
  : option (loop_end * session) :=
  match rounds with
  | [] => None
  | r :: rest =>
    let s0 := rd_env r s in
    match rd_deadline r with
    | Some err => Some (MkLoopEnd sent (Some err) None, s0)
    | None =>
      let sent' := sent ++ rd_data r in
      let '(sendErr, s1) := forward net s0 id (rd_data r) in
      match sendErr with
      | Some err => Some (MkLoopEnd sent' None (Some err), s1)
      | None =>
        match rd_err r with
        | Some err => Some (MkLoopEnd sent' (if errors_is err io_EOF then None else Some err) None, s1)
        | None => if rd_done r then Some (MkLoopEnd sent' None None, s1) else read_loop net id rest s1 sent'
        end
      end
    end
  end.

(** After the loop, on a TCP stream that ended well: the half-close is sent
    and the other direction awaited. *)
Inductive half_wait :=
| HalfSendFailed (err : error)
| HalfPeerClosed
| HalfWriterDone (err : option error)
| HalfIdle.

Definition after_half (h : half_wait) : option error * bool :=
  match h with
  | HalfSendFailed err => (Some err, false)
  | HalfPeerClosed => (None, true)
  | HalfWriterDone err => (err, false)
  | HalfIdle => (Some (ErrMsg "TCP half-closed stream idle timeout"), false)
  end.

Inductive outcome := PeerClosed | SendFailed | Completed | LocalError (timeout : bool).

(** How the stream ends; [timeout] is [net.Error.Timeout] of an error. *)
Definition serve_outcome (timeout : error -> bool) (mode : string) (e : loop_end) (ctxDone : bool) (h : half_wait) : outcome :=
  let clean := match le_local e, le_send e with None, None => true | _, _ => false end in
  let '(localReadErr, peerClosed) :=
    if String.eqb mode "tcp" && clean && negb ctxDone then after_half h else (le_local e, ctxDone) in
  if peerClosed then PeerClosed
  else match le_send e, localReadErr with
       | Some _, _ => SendFailed
       | None, None => Completed
       | None, Some err => LocalError (timeout err)
       end.

(** The message that reports it; none when the peer ended the stream. *)
Definition report (o : outcome) : option control_message :=
  let failure code message retryable :=
    Some (MsgStreamError (MkStreamError ProtocolVersion "stream_error" code (clip256 message) retryable)) in
  match o with
  | PeerClosed => None
  | SendFailed => failure "internal_error" "tunneled stream send failed" false
  | Completed => Some (MsgStreamClose (MkStreamClose ProtocolVersion "stream_close" "completed"))
  | LocalError true => failure "local_target_unavailable" "approved local target read timed out" true
  | LocalError false => failure "local_target_unavailable" "approved local target read failed" true
  end.

Section Transport.
Context (net : nat -> answer).

(** [stream.cancel], the report and [sess.finishStream]. *)
Definition end_serve (s : session) (id : Z) (o : option control_message) : session :=
  let s1 := with_table s (update_stream (sn_table s) id cancel) in
  let s2 := match o with Some m => (send_terminal net s1 id m).2 | None => s1 end in
  with_table s2 (finish_stream (sn_table s2) id).

(** The dial failed: nothing was started. *)
Definition dial_failed (s : session) (id : Z) (udp : bool) : session :=
  let message := if udp then "approved local UDP target is unavailable" else "approved local target is unavailable" in
  let s' := (sendStreamTerminalError net s id "local_target_unavailable" message true).2 in
  with_table s' (finish_stream (sn_table s') id).

(** ** The writer *)

(** After the release: the deadline, the writes and the returned credit. *)
Definition writeLocalPayload (s : session) (id : Z) (p : QueuedPayload) (deadline : option error)
    (answers : list (nat * option error)) : bytes * option (result unit) * session :=
  match deadline with
  | Some err => ([], Some (Err err), s)
  | None =>
    match write_loop answers (qp_Data p) with
    | (w, Some (Ok _)) =>
      let '(r, s') := writer_credit net s id (qp_Size p) in (w, Some r, s')
    | (w, r) => (w, r, s)
    end
  end.

(** One datagram. *)
Definition writeLocalUDP (p : QueuedPayload) (deadline : option error) (n : nat) (err : option error) : result unit :=
  match deadline with
  | Some e => Err e
  | None =>
    match err with
    | Some e => Err e
    | None => if Z.of_nat n =? zlen (qp_Data p) then Ok tt else Err io_ErrShortWrite
    end
  end.
End Transport.

(** ** UDP *)

(** [conn.Read] fills at most [maxUDPDatagram+1] bytes; a failed read's data is
    not sent. *)
Fixpoint udp_loop (net : nat -> answer) (id : Z) (rounds : list round) (s : session) : option (error * session) :=
  match rounds with
  | [] => None
  | r :: rest =>
    let s0 := rd_env r s in
    match rd_deadline r with
    | Some err => Some (err, s0)
    | None =>
      if MaxUDPDatagram <? zlen (rd_data r) then Some (ErrMsg "local UDP datagram exceeds tunnel limit", s0)
      else
        match rd_err r with
        | Some err => Some (err, s0)
        | None =>
          match sendFrame net s0 KindData id (rd_data r) with
          | (Err sendErr, s1) => Some (sendErr, s1)
          | (Ok _, s1) => udp_loop net id rest s1
          end
        end
    end
  end.

(** The end of the flow: the context as it is right after the loop, and what
    the writer returned. *)
Definition udp_outcome (timeout : error -> bool) (readErr : error) (ctxDone : bool) (writeErr : option error) : outcome :=
  if ctxDone then PeerClosed
  else
    let err := match writeErr with Some e => e | None => readErr end in
    if timeout err then Completed else LocalError false.

Definition udp_report (o : outcome) : option control_message :=
  match o with
  | LocalError _ => Some (MsgStreamError (MkStreamError ProtocolVersion "stream_error" "local_target_unavailable"
                                            "approved local UDP flow failed" true))
  | o => report o
  end.

(** The writer's goroutine: on an error it cancels the stream's context and
    closes the socket before it hands the error over. *)
Definition udp_writer_exit (writeErr : option error) (ctxDone : bool) : bool :=
  match writeErr with Some _ => true | None => ctxDone end.

Section Send.
Context (lim : Limits).
Context (start : Z) (net : nat -> answer).
Notation good := (session_ok lim start).

(** A data frame reported sent is on the connection. *)
Lemma sendFrame_data s id payload u s' :
  good s -> is_u32 id -> sendFrame net s KindData id payload = (Ok u, s') ->
  data_of id (sn_wire s') = data_of id (sn_wire s) ++ payload.
Proof.
  intros Hs Hi. unfold sendFrame. destruct (sn_closed s); [done |]. destruct (net _) as [|expired written late]; [done |].
  destruct late; [done |]. cbn [fst snd]. unfold writeQueued. cbn [sn_outbound with_writer].
  change (KindData =? KindControl) with false. destruct (NextSequence _) as [q|] eqn:En; [| done].
  destruct (EncodeFrame _) as [b|] eqn:Ee; [| done]. destruct written; [done |]. intros [= _ <-]. cbn [sn_wire with_writer].
  destruct (encoded_next _ KindData _ _ _ _ (proj1 (so_log _ _ _ Hs)) En ltac:(done) Hi Ee) as [Hw ->].
  rewrite data_of_snoc. f_equal. unfold frame_data. rewrite (decode_frame_bytes _ Hw). cbn. by rewrite Z.eqb_refl.
Qed.

Lemma send_chunk_data s id paced payload rest s' :
  good s -> is_u32 id -> zlen payload <> 0 -> send_chunk net s id paced payload = Some (Ok rest, s') ->
  (length rest < length payload)%nat /\ data_of id (sn_wire s') ++ rest = data_of id (sn_wire s) ++ payload.
Proof.
  intros Hs Hi Hz. unfold send_chunk. destruct (chunk_of payload) as [chunk rest0] eqn:Ek.
  destruct (chunk_split _ _ _ Hz Ek) as (Hcat & _ & Hlt). destruct (if paced then _ else _) as [[T|]|] eqn:Ew; try done.
  assert (HT : table_ok (MaxStreams lim) (MaxSessionQueueBytes lim) T).
  { destruct paced; [eapply agent_take_window_ok, Ew; apply Hs | injection Ew as <-; apply Hs]. }
  destruct (sendFrame net (with_table s T) KindData id chunk) as [[v|] s1] eqn:Es; [| done]. intros [= <- <-].
  rewrite (sendFrame_data _ _ _ _ _ (agent_good_table _ _ s T Hs HT) Hi Es). split; [done |].
  by rewrite <- (assoc (++)), Hcat.
Qed.

(** What [sendBytes] reports sent is on the connection, whole and in order. *)
Lemma sendBytes_data s id payload u s' :
  good s -> is_u32 id -> sendBytes net s id payload = (Ok u, s') ->
  data_of id (sn_wire s') = data_of id (sn_wire s) ++ payload.
Proof.
  intros Hs Hi.
  assert (L : forall fuel s paced payload, good s -> (length payload < fuel)%nat ->
    send_chunks net fuel s id paced payload = (Ok u, s') ->
    data_of id (sn_wire s') = data_of id (sn_wire s) ++ payload).
  { induction fuel as [|fuel IH]; intros s0 paced p H0 Hf H; [lia |]. cbn [send_chunks] in H.
    destruct (zlen p =? 0) eqn:Ez; bool_facts.
    - injection H as _ <-. apply zlen_0 in Ez as ->. by rewrite app_nil_r.
    - destruct (send_chunk net s0 id paced p) as [[[rest|e] s1]|] eqn:Ec; try done.
      destruct (send_chunk_data _ _ _ _ _ _ H0 Hi Ez Ec) as [Hlt <-].
      apply (IH s1 paced rest); [by eapply agent_good_send_chunk, Ec | lia | done]. }
  unfold sendBytes. destruct (sn_flow s); [| by apply L; [| lia]].
  destruct (stream_at _ _); [| done]. by apply L; [| lia].
Qed.

Lemma forward_data s id data e s' :
  good s -> is_u32 id -> forward net s id data = (e, s') ->
  good s' /\ (e = None -> data_of id (sn_wire s') = data_of id (sn_wire s) ++ data).
Proof.
  intros Hs Hi. unfold forward. destruct (0 <? zlen data) eqn:Ez; bool_facts.
  - pose proof (agent_good_sendBytes _ start net s id data Hs Hi) as Hg.
    destruct (sendBytes net s id data) as [[u|x] s1] eqn:E; intros [= <- <-]; split; try done.
    intros _. by eapply sendBytes_data.
  - intros [= <- <-]. split; [done |]. intros _. destruct data; [by rewrite app_nil_r | unfold zlen in Ez; cbn in Ez; lia].
Qed.

(** What the other goroutines may do: anything but send data on this stream. *)
Definition elsewhere (id : Z) (env : session -> session) : Prop :=
  forall s, good s -> good (env s) /\ data_of id (sn_wire (env s)) = data_of id (sn_wire s).

(** How the loop ended: the passes made, and what the last one saw. *)
Lemma read_loop_ends id rounds : forall s sent e s',
  good s -> is_u32 id -> Forall (fun r => elsewhere id (rd_env r)) rounds ->
  read_loop net id rounds s sent = Some (e, s') ->
  good s' /\ exists pre r post, rounds = pre ++ r :: post /\
    (le_local e = None -> le_send e = None ->
      le_sent e = sent ++ concat (rd_data <$> pre ++ [r]) /\
      data_of id (sn_wire s') = data_of id (sn_wire s) ++ concat (rd_data <$> pre ++ [r]) /\
      ((exists err, rd_err r = Some err /\ errors_is err io_EOF = true) \/ rd_done r = true)).
Proof.
  induction rounds as [|r rest IH]; intros s sent e s' Hs Hi He H; [done |]. cbn [read_loop] in H.
  apply Forall_cons in He as [Hr He]. destruct (Hr s Hs) as [H0 D0].
  destruct (rd_deadline r); [injection H as <- <-; split; [done |]; by exists [], r, rest |].
  destruct (forward net (rd_env r s) id (rd_data r)) as [se s1] eqn:Ef.
  destruct (forward_data _ _ _ _ _ H0 Hi Ef) as [H1 D1].
  destruct se; [injection H as <- <-; split; [done |]; by exists [], r, rest |]. specialize (D1 eq_refl). rewrite D0 in D1.
  destruct (rd_err r) as [err|] eqn:Ee.
  - injection H as <- <-. split; [done |]. exists [], r, rest. split; [done |]. cbn. rewrite !app_nil_r.
    destruct (errors_is err io_EOF) eqn:Eo; [| done]. intros _ _. split_and!; [done.. |]. left. by exists err.
  - destruct (rd_done r) eqn:Ed.
    + injection H as <- <-. split; [done |]. exists [], r, rest. split; [done |]. cbn. rewrite !app_nil_r. auto.
    + destruct (IH _ _ _ _ H1 Hi He H) as (Hg & pre & x & post & -> & Hend). split; [done |].
      exists (r :: pre), x, post. split; [done |]. intros Hl Hn. destruct (Hend Hl Hn) as (E1 & E2 & E3).
      rewrite E1, E2, D1. cbn. rewrite <- !(assoc (++)). auto.
Qed.
End Send.

(** ** A response reported complete is complete *)

Lemma completed_inv timeout mode e ctxDone h m :
  report (serve_outcome timeout mode e ctxDone h) = Some (MsgStreamClose m) ->
  le_local e = None /\ le_send e = None /\ ctxDone = false /\ (mode = "tcp" -> h = HalfWriterDone None).
Proof.
  destruct e as [sent l sd]. unfold serve_outcome. cbn [le_local le_send].
  destruct l as [l|], sd as [sd|], ctxDone; rewrite ?andb_false_r; cbn; try done; try by case_match.
  destruct (String.eqb_spec mode "tcp") as [->|Hne]; cbn; [| by intros _; split_and!].
  destruct h as [err| |[err|]|]; cbn; try done; case_match; try done.
Qed.

(** C30: A response the Agent reports complete is complete: when serveStream ends a stream with stream_close, the local target had ended its side (EOF), every byte read from it, in order and none left out, is on the connection as data of that stream whatever the other goroutines did meanwhile, the stream's context was alive, and on a TCP stream the other direction was written to the target without an error. *)
Theorem response_reported_whole lim start net s id mode rounds e s' ctxDone h timeout m :
  session_ok lim start s -> is_u32 id -> Forall (fun r => elsewhere lim start id (rd_env r)) rounds ->
  Forall (fun r => rd_done r = true -> ctxDone = true) rounds ->
  read_loop net id rounds s [] = Some (e, s') ->
  report (serve_outcome timeout mode e ctxDone h) = Some (MsgStreamClose m) ->
  exists pre r post err, rounds = pre ++ r :: post /\ rd_err r = Some err /\ errors_is err io_EOF = true /\
    data_of id (sn_wire s') = data_of id (sn_wire s) ++ concat (rd_data <$> pre ++ [r]) /\
    ctxDone = false /\ (mode = "tcp" -> h = HalfWriterDone None).
Proof.
  intros Hs Hi He Hd Hl Hr. destruct (completed_inv _ _ _ _ _ _ Hr) as (El & Es & Ec & Eh).
  destruct (read_loop_ends _ _ _ _ _ _ _ _ _ Hs Hi He Hl) as (_ & pre & r & post & -> & Hend).
  destruct (Hend El Es) as (_ & Hw & [(err & E1 & E2)|E]).
  - by exists pre, r, post, err.
  - apply Forall_app in Hd as [_ Hd]. apply Forall_cons in Hd as [Hd _]. rewrite (Hd E) in Ec. done.
Qed.

Lemma stream_error_wf code text retryable at_ :
  bool_decide (code ∈ stream_error_codes) && (1 <=? rune_count_in_string text) &&
    (rune_count_in_string text <=? 256) && utf8_valid (bytes_of text) = true ->
  message_wf (MsgStreamError (MkStreamError ProtocolVersion "stream_error" code text retryable)) at_ /\
  message_sendable (MsgStreamError (MkStreamError ProtocolVersion "stream_error" code text retryable)).
Proof.
  intros H. apply andb_true_iff in H as [H Hu]. apply andb_true_iff in H as [H H3].
  apply andb_true_iff in H as [H1 H2]. apply bool_decide_eq_true in H1. apply Z.leb_le in H2, H3.
  split; [| exact Hu]. split; [done |]. split; [done |]. split; [exact H1 | by split].
Qed.

(** Whatever the report, the Gateway accepts it on the stream. *)
Lemma report_valid o m at_ : report o = Some m \/ udp_report o = Some m -> message_wf m at_ /\ message_sendable m.
Proof.
  assert (Hclose : message_wf (MsgStreamClose (MkStreamClose ProtocolVersion "stream_close" "completed")) at_).
  { split; [done |]. split; [done |]. left. }
  intros [E|E]; destruct o as [| | |[]]; try discriminate E; injection E as <-;
    try (split; [exact Hclose | done]); apply stream_error_wf; vm_compute; reflexivity.
Qed.

(** After the report the stream is out of the table. *)
Lemma end_serve_unroutes net s id o : id ∉ tb_streams (sn_table (end_serve net s id o)).
Proof. unfold end_serve. cbn [sn_table with_table]. apply off_finish. Qed.

(** ** Writing to the local target *)

(** Writing a queued payload to the local target terminates and never loses part of it: against a target that makes progress (a write without an error takes at least one byte) writeLocalPayload returns, and when it returns without an error the whole payload reached the target; only then is credit for the payload's size returned to the Gateway, so a failed or partial write leaves the session as it was. *)
Theorem local_write_whole net s id p deadline answers :
  Forall (fun a => a.2 = None -> (0 < a.1)%nat) answers -> (length (qp_Data p) <= length answers)%nat ->
  exists w r s', writeLocalPayload net s id p deadline answers = (w, Some r, s') /\
    (is_ok r = true -> w = qp_Data p /\ deadline = None /\ (r, s') = writer_credit net s id (qp_Size p)) /\
    (w <> qp_Data p -> s' = s /\ is_ok r = false).
Proof.
  intros Ha Hl. unfold writeLocalPayload. destruct deadline as [err|].
  - exists [], (Err err), s. by split_and!.
  - destruct (write_loop_ends answers _ Ha Hl) as (w & r & E & Hr). rewrite E. destruct r as [[]|err].
    + rewrite (Hr eq_refl). destruct (writer_credit _ _ _ _) as [r s'].
      eexists _, r, s'. split; [reflexivity |]. by split_and!.
    + eexists _, _, s. split; [reflexivity |]. by split_and!.
Qed.

(** ** What the Gateway is not told *)

(** When the writer of a UDP flow fails it cancels the stream before the read
    loop's error is looked at, and the flow counts as closed by the peer: the
    stream is removed and nothing is sent, so the Gateway keeps its half until
    something else removes it.  Without the writer's cancel the same failure
    is reported as a [stream_error]. *)
Lemma udp_writer_failure_unreported net timeout s id readErr ctxDone err :
  timeout err = false ->
  sn_wire (end_serve net s id (udp_report (udp_outcome timeout readErr (udp_writer_exit (Some err) ctxDone) (Some err)))) =
    sn_wire s /\
  id ∉ tb_streams (sn_table (end_serve net s id
    (udp_report (udp_outcome timeout readErr (udp_writer_exit (Some err) ctxDone) (Some err))))) /\
  is_Some (udp_report (udp_outcome timeout readErr false (Some err))).
Proof.
  intros Ht. split; [done |]. split; [apply end_serve_unroutes |]. unfold udp_outcome. rewrite Ht. by eexists.
Qed.

(** ** A served response *)

Definition demo_plain : session :=
  (run_once demo_net (fresh_session [demo_web] DefaultLimits "ses-1" "proof" false 0 2 (60 * Second))
     (ReadMsg true (frame_bytes (MkFrame KindControl 1 1 (marshal_message (MsgStreamOpen demo_request))))) 0).2.

Lemma demo_plain_ok : session_ok (sn_limits demo_plain) 2 demo_plain.
Proof.
  destruct agent_demo_bounds as (Hq & Hs & Hl).
  apply (agent_reach [demo_web] DefaultLimits "ses-1" "proof" false 0 2 (60 * Second) Hq Hs Hl).
  eapply steps_snoc; [apply steps_refl | apply ss_read].
Qed.

Definition demo_rounds : list round :=
  [MkRound (fun s => s) None demo_a None false; MkRound (fun s => s) None demo_b (Some io_EOF) false].

Lemma response_reported_whole_witness :
  exists e s' m, read_loop demo_net 1 demo_rounds demo_plain [] = Some (e, s') /\
    report (serve_outcome (fun _ => false) "tcp" e false (HalfWriterDone None)) = Some (MsgStreamClose m) /\
    exists pre r post, demo_rounds = pre ++ r :: post /\
      data_of 1 (sn_wire s') = data_of 1 (sn_wire demo_plain) ++ concat (rd_data <$> pre ++ [r]).
Proof.
  destruct (read_loop demo_net 1 demo_rounds demo_plain []) as [[e s']|] eqn:E.
  2: { exfalso. apply (f_equal (fun x => match x with Some _ => true | None => false end)) in E. vm_compute in E. discriminate E. }
  assert (Ee : e = MkLoopEnd (demo_a ++ demo_b) None None).
  { apply (f_equal (fun x => fst <$> x)) in E. vm_compute in E. by injection E as <-. }
  subst e. exists (MkLoopEnd (demo_a ++ demo_b) None None), s', (MkStreamClose ProtocolVersion "stream_close" "completed").
  split; [reflexivity |]. split; [reflexivity |].
  assert (He : Forall (fun r => elsewhere (sn_limits demo_plain) 2 1 (rd_env r)) demo_rounds).
  { apply Forall_forall. intros r Hr s Hs. apply list_elem_of_In in Hr. destruct Hr as [<-|[<-|[]]]; split; done. }
  assert (Hd : Forall (fun r => rd_done r = true -> false = true) demo_rounds) by (apply Forall_forall; intros r Hr; apply list_elem_of_In in Hr; destruct Hr as [<-|[<-|[]]]; discriminate).
  destruct (response_reported_whole _ 2 demo_net demo_plain 1 "tcp" demo_rounds _ s' false (HalfWriterDone None)
    (fun _ => false) _ demo_plain_ok ltac:(split; vm_compute; congruence) He Hd E eq_refl)
    as (pre & r & post & err & H1 & _ & _ & H2 & _).
  exists pre, r, post. split; [exact H1 | exact H2].
Defined.

Lemma local_write_whole_witness :
  exists w r s', writeLocalPayload demo_net demo_plain 1 (MkQueued demo_a (zlen demo_a)) None
    (replicate 100 (100%nat, None)) = (w, Some r, s') /\ is_ok r = true /\ w = demo_a.
Proof.
  destruct (local_write_whole demo_net demo_plain 1 (MkQueued demo_a (zlen demo_a)) None (replicate 100 (100%nat, None)))
    as (w & r & s' & E & H1 & _).
  - apply Forall_forall. intros [n o] Hin. apply elem_of_replicate in Hin as [[= -> ->] _]. cbn. lia.
  - vm_compute. lia.
  - exists w, r, s'. split; [exact E |]. assert (Hr : is_ok r = true).
    { apply (f_equal (fun x => match x.1.2 with Some r => is_ok r | None => false end)) in E. cbn [fst snd] in E.
      rewrite <- E. vm_compute. reflexivity. }
    split; [exact Hr | exact (proj1 (H1 Hr))].
Defined.
