(* ===== verification/AgentHandshake.v ===== *)
(** * AgentHandshake: how the Agent becomes a session

    [authenticateAgent] of [internal/agent/session.go] and
    [authenticateOrResume] of [internal/agent/runtime.go]: the full handshake
    and the resume fast path, as the Agent performs them.  The connection
    answers as a parameter (what each read returns, which write fails), as do
    the entropy source, the clock and Ed25519 signing. *)

From S2P Require Import Prelude GoText GoTime Json StrictJson Frame Contract Control ControlCodec Budget Wire HandshakeCodec.
From S2P Require Import AgentLimits AgentStream AgentConfig AgentSession.

Record link := MkLink {
  lk_subprotocol : string;
  lk_read : nat -> conn_read;
  lk_write : nat -> option error;
}.

Definition errResumeRejected : error := ErrSentinel "agent session resume rejected".

(** [io.ReadFull] of 32 bytes: all of them or an error. *)
Definition randomNonceFrom (entropy : Z -> result bytes) : result string :=
  match entropy 32 with
  | Err err => Err (ErrWrap "generate client nonce" err)
  | Ok data => Ok (b64_encode_string data)
  end.

Definition randomID (entropy : Z -> result bytes) (prefix : string) : result string :=
  let? nonce := randomNonceFrom entropy in
  Ok (prefix +:+ "-" +:+ string_of (firstn 16 (bytes_of nonce))).

Definition writeInitialControl (conn : link) (n : nat) (sequence : Z) (message : control_message) : result bytes :=
  let? encoded := EncodeFrame (MkFrame KindControl 0 sequence (marshal_message message)) in
  match lk_write conn n with Some err => Err err | None => Ok encoded end.

(** A reply of the handshake: the n-th frame, in order, on the session's own
    stream, with a valid payload. *)
Definition handshake_reply (conn : link) (n : nat) (inbound : SequenceTracker) (sequence : Z) (what : string)
    (now : instant) : result (bytes * SequenceTracker) :=
  let? frame := readAgentFrame (lk_read conn n) in
  let? inbound := Accept inbound (fr_seq frame) in
  reject_if (negb (fr_seq frame =? sequence) || negb (fr_kind frame =? KindControl) || negb (fr_stream frame =? 0))
            (ErrMsg ("invalid " +:+ what +:+ " frame")) ;?
  ValidateControlPayload (fr_payload frame) 0 now ;?
  Ok (fr_payload frame, inbound).

Section Sign.
(** [ed25519.Sign] with the device's private key. *)
Context (Sign : bytes -> bytes).

Definition client_hello (config : Config) (token nonce : string) : ClientHello :=
  MkClientHello ProtocolVersion "client_hello" (cf_DeviceID config) (cf_AuthorizationID config) (cf_TokenID config)
    token nonce.

Definition client_auth (hello : ClientHello) (challenge : ServerChallenge) : ClientAuth :=
  MkClientAuth ProtocolVersion "client_auth" (sc_session_id challenge)
    (b64_encode_string (Sign (AuthTranscript hello challenge))).

(** The session, and the two frames the connection carries before it;
    [now1] and [now2] are the clock at the two replies. *)
Definition authenticateAgent (config : Config) (token : string) (lim : Limits) (conn : link)
    (entropy : Z -> result bytes) (now1 now2 : instant) : result (session * list bytes) :=
  let? nonce := randomNonceFrom entropy in
  let hello := client_hello config token nonce in
  let? first := writeInitialControl conn 0 1 (MsgClientHello hello) in
  let? reply := handshake_reply conn 0 0 1 "server_challenge" now1 in
  let '(payload, inbound) := reply in
  let? challenge := DecodeServerChallenge payload in
  let auth := client_auth hello challenge in
  let? second := writeInitialControl conn 1 2 (MsgClientAuth auth) in
  let? reply := handshake_reply conn 1 inbound 2 "session_ready" now2 in
  let '(payload, inbound) := reply in
  let? fields := json_unmarshal SessionReady_schema payload in
  let ready := SessionReady_of fields in
  reject_if (negb (String.eqb (sr_session_id ready) (sc_session_id challenge)))
            (ErrMsg "session_ready session ID mismatch") ;?
  ValidateReadyNegotiation ready (lk_subprotocol conn) ;?
  Ok (newAgentSession (cf_Endpoints config) lim (sr_session_id ready) (sr_resume_challenge ready)
        (String.eqb (lk_subprotocol conn) TunnelSubprotocolV2) inbound 2
        (i64 (sr_idle_timeout_seconds ready * Second)), [first; second]).

(** *** The resume *)

(** What is kept of the last session ([resumeState]). *)
Record resumeState := MkResume { rm_sessionID : string; rm_challenge : string }.

Definition resume_unsigned (config : Config) (previous : resumeState) (nonce : string) (now : instant) (signature : string)
  : ResumeSession :=
  MkResumeSession ProtocolVersion "resume_session" (cf_DeviceID config) (cf_AuthorizationID config) (cf_TokenID config)
    (rm_sessionID previous) nonce (rm_challenge previous) (stamp now) signature.

Definition resume_proof (config : Config) (previous : resumeState) (nonce : string) (now : instant) : ResumeSession :=
  resume_unsigned config previous nonce now
    (b64_encode_string (Sign (ResumeTranscript (resume_unsigned config previous nonce now EmptyString)))).

(** [websocket.CloseStatus] of an error: the close code it carries, or -1. *)
Context (CloseStatus : error -> Z).

Definition StatusTryAgainLater : Z := 1013.

(** The reply to a resume, up to its payload. *)
Definition resume_reply (conn : link) (now : instant) : result (bytes * SequenceTracker) :=
  match readAgentFrame (lk_read conn 0) with
  | Err err =>
    if (CloseStatus err =? StatusTryAgainLater) || errors_is err errResumeRejected then Err errResumeRejected
    else Err err
  | Ok _ => handshake_reply conn 0 0 1 "resume reply" now
  end.

Definition resumeAgent (config : Config) (previous : resumeState) (lim : Limits) (conn : link)
    (entropy : Z -> result bytes) (now1 now2 : instant) : result (session * list bytes) :=
  let? nonce := randomNonceFrom entropy in
  let? first := writeInitialControl conn 0 1 (MsgResumeSession (resume_proof config previous nonce now1)) in
  let? reply := resume_reply conn now2 in
  let '(payload, inbound) := reply in
  let? envelope := json_unmarshal kind_schema payload in
  reject_if (negb (String.eqb (get_string envelope "message_type") "session_resumed")) errResumeRejected ;?
  let? fields := json_unmarshal SessionResumed_schema payload in
  let resumed := SessionResumed_of fields in
  reject_if (negb (String.eqb (sd_session_id resumed) (rm_sessionID previous)))
            (ErrMsg "session_resumed ID mismatch") ;?
  Ok (newAgentSession (cf_Endpoints config) lim (rm_sessionID previous) (sd_resume_challenge resumed)
        (String.eqb (lk_subprotocol conn) TunnelSubprotocolV2) inbound (u64 (sd_next_sequence resumed - 1))
        (IdleTimeout lim), [first]).

Definition authenticateOrResume (config : Config) (token : string) (previous : resumeState) (primary : bool)
    (lim : Limits) (conn : link) (entropy : Z -> result bytes) (now1 now2 : instant) : result (session * list bytes) :=
  let previous :=
    if primary && IsTunnelSubprotocol (lk_subprotocol conn) then previous else MkResume EmptyString EmptyString in
  if String.eqb (rm_sessionID previous) EmptyString || String.eqb (rm_challenge previous) EmptyString
  then authenticateAgent config token lim conn entropy now1 now2
  else resumeAgent config previous lim conn entropy now1 now2.
End Sign.

(** ** What the Agent has when it returns *)

(** The frame [writeInitialControl] puts on the connection. *)
Definition initial_frame (sequence : Z) (m : control_message) : Frame :=
  MkFrame KindControl 0 sequence (marshal_message m).

Lemma writeInitialControl_Ok conn n sequence m wire :
  is_u64 sequence -> writeInitialControl conn n sequence m = Ok wire -> wire = frame_bytes (initial_frame sequence m).
Proof.
  unfold writeInitialControl. intros Hq H. inv_ok. destruct (lk_write conn n); [done |]. injection H as <-.
  assert (Hw : frame_wf (initial_frame sequence m)) by (eapply encode_ok_wf, E; split; [done | by split; [| apply Hq]]).
  unfold initial_frame in *. rewrite (encode_wf _ Hw) in E. by injection E as <-.
Qed.

Lemma handshake_reply_Ok conn n inbound sequence what now payload inbound' :
  0 <= inbound < 2 ^ 64 -> handshake_reply conn n inbound sequence what now = Ok (payload, inbound') ->
  inbound' = sequence /\ is_u64 sequence /\
  exists msg, decodes_to payload msg /\ message_wf msg now /\ in_scope msg 0.
Proof.
  unfold handshake_reply. intros Hi. destruct (readAgentFrame _) as [frame|]; [| done]. cbn [rbind].
  destruct (Accept inbound (fr_seq frame)) as [i|] eqn:Ea; [| done]. cbn [rbind].
  apply (Accept_iff _ _ _ Hi) in Ea as (Hlt & Hseq & ->).
  destruct (negb (fr_seq frame =? sequence) || _ || _) eqn:Eb; [done |]. cbn [reject_if rbind].
  destruct (ValidateControlPayload _ _ _) as [[]|] eqn:Ev; [| done]. intros [= <- <-].
  apply orb_false_iff in Eb as [Eb _]. apply orb_false_iff in Eb as [Eb _]. bool_facts.
  split; [done |]. split; [unfold is_u64, MaxSequence in *; lia |]. by apply validated_accepts.
Qed.

Lemma DecodeServerChallenge_Ok payload challenge :
  DecodeServerChallenge payload = Ok challenge -> id_ok (sc_session_id challenge) /\ b64_ok 32 (sc_server_nonce challenge).
Proof. unfold DecodeServerChallenge. intros H. accepted_facts. subst. done. Qed.

Lemma ValidateReadyNegotiation_Ok ready sub u :
  ValidateReadyNegotiation ready sub = Ok u -> IsTunnelSubprotocol sub = true /\ b64_ok 32 (sr_resume_challenge ready).
Proof.
  destruct u. unfold ValidateReadyNegotiation. destruct (negb _) eqn:E; [done |]. cbn [reject_if rbind].
  intros H%validateRawBase64Length_Ok. by bool_facts.
Qed.

(** The [n]-th frame read: a control frame of the handshake with that payload. *)
Definition received (conn : link) (n : nat) (sequence : Z) (now : instant) (payload : bytes) : Prop :=
  exists frame msg, readAgentFrame (lk_read conn n) = Ok frame /\ fr_kind frame = KindControl /\ fr_stream frame = 0 /\
    fr_seq frame = sequence /\ fr_payload frame = payload /\ decodes_to payload msg /\ message_wf msg now.

Lemma handshake_reply_received conn n inbound sequence what now payload inbound' :
  0 <= inbound < 2 ^ 64 -> handshake_reply conn n inbound sequence what now = Ok (payload, inbound') ->
  received conn n sequence now payload.
Proof.
  intros Hi H. pose proof (handshake_reply_Ok _ _ _ _ _ _ _ _ Hi H) as (_ & _ & msg & Hd & Hw & _). unfold handshake_reply in H.
  destruct (readAgentFrame _) as [frame|] eqn:Ef; [| done]. cbn [rbind] in H. destruct (Accept _ _); [| done]. cbn [rbind] in H.
  destruct (negb (fr_seq frame =? sequence) || _ || _) eqn:Eb; [done |]. cbn [reject_if rbind] in H.
  destruct (ValidateControlPayload _ _ _) as [[]|]; [| done]. injection H as <- _. bool_facts. exists frame, msg. by split_and!.
Qed.

(** The device key is used for the one signature. *)
Lemma signs_once Sign Sign' config token lim conn entropy now1 now2 nonce p1 i1 challenge :
  randomNonceFrom entropy = Ok nonce ->
  handshake_reply conn 0 0 1 "server_challenge" now1 = Ok (p1, i1) -> DecodeServerChallenge p1 = Ok challenge ->
  let transcript := AuthTranscript (client_hello config token nonce) challenge in
  Sign' transcript = Sign transcript ->
  authenticateAgent Sign' config token lim conn entropy now1 now2 = authenticateAgent Sign config token lim conn entropy now1 now2.
Proof.
  intros Hn Hr Hc transcript HS. unfold authenticateAgent. rewrite Hn. cbn [rbind].
  destruct (writeInitialControl conn 0 1 _) as [w1|]; [| done]. cbn [rbind]. rewrite Hr. cbn [rbind]. rewrite Hc. cbn [rbind].
  unfold client_auth. fold transcript. by rewrite HS.
Qed.


(** ** The reply's type *)

(** A [session_resumed] passes for the [session_ready] the Agent waits for: its
    type is not looked at, and the idle timeout, which it does not have, is
    read as zero. *)
Definition demo_sign (_ : bytes) : bytes := repeat Byte.x00 64.
Definition demo_key_entropy (size : Z) : result bytes := Ok (repeat Byte.x00 (Z.to_nat size)).
Definition demo_token : string := "0123456789012345678901234567890123456789".
Definition demo_nonce : string := b64_encode_string (repeat Byte.x00 32).
Definition demo_challenge : ServerChallenge :=
  MkServerChallenge 1 "server_challenge" "session-1" demo_nonce "2024-01-01T12:00:10Z".
Definition demo_now : instant := 1704110400000000000.
Definition demo_link (ready : control_message) : link :=
  MkLink TunnelSubprotocolV2
    (fun n => ReadMsg true (frame_bytes (match n with
                | O => initial_frame 1 (MsgServerChallenge demo_challenge)
                | _ => initial_frame 2 ready end)))
    (fun _ => None).

Lemma ready_type_unchecked :
  exists s wire,
    authenticateAgent demo_sign demo_config demo_token DefaultLimits
      (demo_link (MsgSessionResumed (MkSessionResumed 1 "session_resumed" "session-1" 2 "2024-01-01T12:00:00Z" demo_nonce)))
      demo_key_entropy demo_now demo_now = Ok (s, wire) /\ IdleTimeout (sn_limits s) = 0.
Proof.
  match goal with |- exists s wire, ?e = _ /\ _ => destruct e as [[s wire]|e'] eqn:E end.
  - exists s, wire. split; [reflexivity |].
    apply (f_equal (fun r => match r with Ok x => IdleTimeout (sn_limits x.1) | Err _ => 1 end)) in E.
    cbn [fst] in E. rewrite <- E. vm_compute. reflexivity.
  - exfalso. apply (f_equal is_ok) in E. vm_compute in E. discriminate E.
Qed.

