(* ===== verification/TunnelHandshake.v ===== *)
(** * TunnelHandshake: the two ends together

    The Gateway's handshake ({!Handshake}) and the Agent's ({!AgentHandshake})
    over one connection: what the Agent writes is what the Gateway reads and
    the other way round.  An Agent with the published key, token and
    identifiers and a Gateway with its authority on record both end up with a
    session, and with the same one. *)

From S2P Require Import Prelude GoText GoTime GoStamp Json StrictJson JsonMarshal Frame Contract Control ControlCodec ControlSize.
From S2P Require Import Wire HandshakeCodec Budget GwLimits SessTable GwSession SessAuth Handshake.
From S2P Require Import AgentLimits AgentStream AgentConfig AgentSession AgentHandshake.

(** ** One connection *)

Definition to_agent (sub : string) (frames : list bytes) : link :=
  MkLink sub (fun n => match frames !! n with Some b => AgentSession.ReadMsg true b
                                            | None => AgentSession.ReadErr io_EOF end) (fun _ => None).

Definition to_gateway (sub : string) (frames : list bytes) : connection :=
  MkConnection sub (fun n => match frames !! n with Some b => GwSession.ReadMsg true b
                                                  | None => GwSession.ReadErr false io_EOF end) (fun _ => None).

(** ** Frames that carry a message *)

Lemma initial_frame_wf sequence m at_ :
  0 < sequence <= MaxSequence -> message_wf m at_ -> message_sendable m -> frame_wf (initial_frame sequence m).
Proof.
  intros Hq Hw Hs. split_and!; [by left | apply Hq | apply Hq | cbn; lia | cbn; lia | done |].
  change (zlen (marshal_message m) <= MaxControlPayload). apply marshal_object_fits; [| by eapply message_small].
  apply message_count.
Qed.

Lemma agent_sends sub frames n sequence m :
  frame_wf (initial_frame sequence m) ->
  writeInitialControl (to_agent sub frames) n sequence m = Ok (frame_bytes (initial_frame sequence m)).
Proof. intros H. unfold writeInitialControl, initial_frame in *. by rewrite (encode_wf _ H). Qed.

Lemma gateway_sends sub frames n sequence m :
  frame_wf (initial_frame sequence m) ->
  writeControlFrame (to_gateway sub frames) n sequence m = Ok (frame_bytes (initial_frame sequence m)).
Proof. intros H. unfold writeControlFrame, initial_frame in *. by rewrite (encode_wf _ H). Qed.

Lemma agent_gets sub frames n inbound sequence m what now :
  is_u64 inbound -> sequence = inbound + 1 -> frame_wf (initial_frame sequence m) ->
  frames !! n = Some (frame_bytes (initial_frame sequence m)) ->
  ValidateControlPayload (marshal_message m) 0 now = Ok tt ->
  handshake_reply (to_agent sub frames) n inbound sequence what now = Ok (marshal_message m, sequence).
Proof.
  intros Hi -> Hw Hf Hv. unfold handshake_reply, to_agent. cbn [lk_read]. rewrite Hf. cbn [readAgentFrame].
  rewrite (decode_frame_bytes _ Hw). cbn [rbind]. assert (Ha : Accept inbound (inbound + 1) = Ok (inbound + 1)).
  { apply Accept_iff; [done |]. destruct Hw as (_ & Hs & _). cbn in Hs. lia. }
  change (fr_seq (initial_frame (inbound + 1) m)) with (inbound + 1). rewrite Ha. cbn [rbind fr_kind fr_stream fr_payload]. rewrite !Z.eqb_refl. cbn [negb orb reject_if rbind].
  cbn [fr_payload initial_frame]. by rewrite Hv.
Qed.

Lemma gateway_gets sub frames n sequence m :
  frame_wf (initial_frame sequence m) -> frames !! n = Some (frame_bytes (initial_frame sequence m)) ->
  readProtocolFrame (cn_read (to_gateway sub frames) n) = Ok (initial_frame sequence m).
Proof. intros Hw Hf. unfold to_gateway. cbn [cn_read]. rewrite Hf. cbn [readProtocolFrame]. by rewrite (decode_frame_bytes _ Hw). Qed.

Lemma Accept_next n : is_u64 n -> n < MaxSequence -> Accept n (n + 1) = Ok (n + 1).
Proof. intros H Hm. by apply Accept_iff. Qed.

(** ** Identifiers made of entropy *)

Lemma entropy_id data prefix :
  zlen data = 12 -> id_ok (prefix +:+ "-") -> slen prefix <= 20 -> id_ok (prefix +:+ "-" +:+ b64_encode_string data).
Proof.
  intros Hd Hp Hl. assert (Hb : forallb id_tail_byte (bytes_of (b64_encode_string data)) = true).
  { unfold b64_encode_string. rewrite bytes_of_string_of. apply forallb_forall. intros x Hx.
    pose proof (b64_encode_alphabet data) as Ha. rewrite forallb_forall in Ha. specialize (Ha x Hx).
    unfold b64_alphabet in Ha. unfold id_tail_byte. rewrite !orb_true_iff in *. tauto. }
  pose proof (b64_ok_length 12 (b64_encode_string data) (ex_intro _ data (conj Hd eq_refl))) as Hlen.
  rewrite slen_bytes in Hlen, Hl. unfold id_ok, idPattern in *. rewrite !bytes_of_app in *.
  rewrite app_assoc. destruct (bytes_of prefix ++ bytes_of "-") as [|b r] eqn:E; [done |].
  cbn [app]. apply andb_true_iff in Hp as [[Ha _]%andb_true_iff Ht].
  rewrite Ha, forallb_app, Ht, Hb, zlen_app. cbn [andb]. rewrite andb_true_r. apply Z.leb_le.
  apply (f_equal zlen) in E. rewrite zlen_app, zlen_cons in E. change (zlen (bytes_of "-")) with 1 in E. lia.
Qed.

(** ** Each end on the other's frames *)

Lemma initial_reply sub frames n inbound sequence m what now :
  is_u64 inbound -> sequence = inbound + 1 -> sequence <= MaxSequence ->
  message_wf m now -> message_sendable m -> transmits m 0 now ->
  frames !! n = Some (frame_bytes (initial_frame sequence m)) ->
  handshake_reply (to_agent sub frames) n inbound sequence what now = Ok (marshal_message m, sequence).
Proof.
  intros Hi Hq Hm Hw Hs [Hv _] Hf. apply agent_gets; try done. apply (initial_frame_wf _ _ now); [| done | done].
  unfold is_u64 in Hi. lia.
Qed.

Lemma agent_completes Sign config token lim sub entropy nonce now1 now2 challenge ready :
  let hello := client_hello config token (b64_encode_string nonce) in
  let auth := client_auth Sign hello challenge in
  let frame n m := frame_bytes (initial_frame n m) in
  entropy 32 = Ok nonce -> IsTunnelSubprotocol sub = true ->
  message_wf (MsgClientHello hello) now1 -> message_wf (MsgClientAuth auth) now1 ->
  message_wf (MsgServerChallenge challenge) now1 -> message_wf (MsgSessionReady ready) now2 ->
  b64_ok 32 (sr_resume_challenge ready) -> sr_session_id ready = sc_session_id challenge ->
  authenticateAgent Sign config token lim
    (to_agent sub [frame 1 (MsgServerChallenge challenge); frame 2 (MsgSessionReady ready)]) entropy now1 now2 =
  Ok (newAgentSession (cf_Endpoints config) lim (sr_session_id ready) (sr_resume_challenge ready)
        (String.eqb sub TunnelSubprotocolV2) 2 2 (i64 (sr_idle_timeout_seconds ready * Second)),
      [frame 1 (MsgClientHello hello); frame 2 (MsgClientAuth auth)]).
Proof.
  intros hello auth frame He Hsub W1 W3 W2 W4 Hc Hsid. unfold authenticateAgent, randomNonceFrom. rewrite He. cbn [rbind].
  fold hello. rewrite agent_sends by (by apply (initial_frame_wf _ _ now1)). cbn [rbind].
  rewrite (initial_reply _ _ _ 0 1 (MsgServerChallenge challenge));
    [| done | done | done | done | done | by apply transmit_server_challenge | done]. cbn [rbind].
  rewrite (proj2 (server_challenge_read _ _ W2)). cbn [rbind]. fold auth.
  rewrite agent_sends by (by apply (initial_frame_wf _ _ now1)). cbn [rbind].
  assert (S4 : message_sendable (MsgSessionReady ready)) by (by right).
  pose proof (transmit_session_ready _ _ W4 S4) as T4.
  rewrite (initial_reply _ _ _ 1 2 (MsgSessionReady ready)); [| done..]. cbn [rbind].
  destruct T4 as [_ D4]. cbn [decodes_to] in D4. apply decodes_lenient in D4 as (k & -> & Hk). cbn [rbind]. rewrite Hk.
  rewrite Hsid, String.eqb_refl. cbn [negb reject_if rbind]. unfold ValidateReadyNegotiation. cbn [lk_subprotocol to_agent].
  rewrite Hsub. cbn [negb reject_if rbind]. by rewrite (proj2 (validateRawBase64Length_Ok _ _ _) Hc).
Qed.

Lemma kind_of_payload data kind : kind_read data kind -> resumeEnvelopeMessageType data = kind.
Proof. intros (k & Hk & Hg). unfold resumeEnvelopeMessageType. by rewrite Hk. Qed.

Lemma preface_read {M} `{MetadataSource M} Sum256 (metadata : M) sub frames now now_authority hello record :
  message_wf (MsgClientHello hello) now ->
  frames !! 0%nat = Some (frame_bytes (initial_frame 1 (MsgClientHello hello))) ->
  ms_Authorization metadata (ch_authorization_id hello) (ch_device_id hello) (ch_token_id hello) now_authority = (record, None) ->
  MatchSessionToken Sum256 record (ch_session_token hello) = true ->
  readPreface Sum256 metadata (to_gateway sub frames) now now_authority = Ok (MkHandshake hello record 1, None).
Proof.
  intros W Hf Ha Ht. unfold readPreface. assert (Hw : frame_wf (initial_frame 1 (MsgClientHello hello)))
    by (by apply (initial_frame_wf _ _ now)).
  rewrite (gateway_gets _ _ _ 1 (MsgClientHello hello)) by done. cbn [rbind initial_frame fr_seq fr_kind fr_stream fr_payload].
  change (Accept 0 1) with (Ok 1 : result Z). rewrite !Z.eqb_refl. cbn [negb orb reject_if rbind].
  rewrite (proj1 (transmit_client_hello _ _ W)). destruct (client_hello_read _ _ W) as [Hk Hd].
  rewrite (kind_of_payload _ _ Hk). change (String.eqb _ _) with false. cbv iota. rewrite Hd. cbn [rbind].
  rewrite Ha, Ht. done.
Qed.

Lemma client_auth_verifies Sign Verify published public hello challenge :
  b64_decode_string published = Some public -> zlen public = PublicKeySize ->
  (forall m, zlen (Sign m) = SignatureSize /\ Verify public m (Sign m) = true) -> auth_inputs_ok hello challenge ->
  VerifyClientAuthSignature Verify published hello challenge (client_auth Sign hello challenge) = Ok tt.
Proof.
  intros Hp Hl Hs Hi. destruct (Hs (AuthTranscript hello challenge)) as [Hsl Hv].
  unfold VerifyClientAuthSignature. rewrite Hp, Hl. change (PublicKeySize =? PublicKeySize) with true. cbn [negb reject_if rbind].
  cbn [client_auth ca_signature ca_session_id]. unfold b64_decode_string at 1, b64_encode_string.
  rewrite bytes_of_string_of, b64_decode_encode, Hsl. change (SignatureSize =? SignatureSize) with true.
  rewrite String.eqb_refl. cbn [negb reject_if rbind]. destruct (zlen (AuthTranscript hello challenge) =? 0) eqn:E.
  - apply Z.eqb_eq in E. assert (AuthTranscript hello challenge = []) as En%auth_transcript_nil; [| done].
    destruct (AuthTranscript hello challenge); [done |]. rewrite zlen_cons in E. unfold zlen in E. lia.
  - cbn [reject_if rbind]. by rewrite Hv.
Qed.

(** What the Gateway decided before it has a session: who the hello is, and
    that the answer to the challenge is signed by that device. *)
Lemma gateway_answered {M} `{MetadataSource M} Sum256 Verify (metadata : M) sub frames now now_authority hello challenge auth record expiry :
  message_wf (MsgClientAuth auth) now ->
  frames !! 1%nat = Some (frame_bytes (initial_frame 2 (MsgClientAuth auth))) ->
  ms_Authorization metadata (ch_authorization_id hello) (ch_device_id hello) (ch_token_id hello) now_authority = (record, None) ->
  MatchSessionToken Sum256 record (ch_session_token hello) = true ->
  VerifyClientAuthSignature Verify (da_device_public_key record) hello challenge auth = Ok tt ->
  go_parse_rfc3339 (da_expires_at record) = Some expiry ->
  read_client_auth (to_gateway sub frames) 1 now = Ok (auth, 2) /\
  current_authority Sum256 Verify metadata hello challenge auth now_authority = Ok (record, z_instant expiry).
Proof.
  intros W Hf Ha Ht Hv He. assert (Hw : frame_wf (initial_frame 2 (MsgClientAuth auth))) by (by apply (initial_frame_wf _ _ now)).
  split.
  - unfold read_client_auth.
    rewrite (gateway_gets _ _ _ 2 (MsgClientAuth auth)) by done.
    cbn [rbind initial_frame fr_seq fr_kind fr_stream fr_payload].
    change (Accept 1 2) with (Ok 2 : result Z). rewrite !Z.eqb_refl. cbn [negb orb reject_if rbind].
    rewrite (proj1 (transmit_client_auth _ _ W)). cbn [rbind]. by rewrite (proj2 (client_auth_read _ _ W)).
  - unfold current_authority. by rewrite Ha, Ht, Hv, He.
Qed.

Lemma gateway_completes {M} `{MetadataSource M} Sum256 Verify (metadata : M) lim sub frames read d0 d1 d2 candidate g rejects ck
    auth record expiresAt :
  let sid := "session" +:+ "-" +:+ b64_encode_string d0 in
  let challenge := server_challenge lim sid (b64_encode_string d1) (ck_challenge ck) in
  let ready := MkSessionReady ProtocolVersion "session_ready" sid (Z.quot (GwLimits.HeartbeatInterval lim) Second)
                 (Z.quot (GwLimits.IdleTimeout lim) Second) (b64_encode_string d2) in
  let frame n m := frame_bytes (initial_frame n m) in
  read 0%nat 12 = Ok d0 -> read 1%nat 32 = Ok d1 -> read 2%nat 32 = Ok d2 -> IsTunnelSubprotocol sub = true ->
  frame_wf (initial_frame 1 (MsgServerChallenge challenge)) -> frame_wf (initial_frame 2 (MsgSessionReady ready)) ->
  read_client_auth (to_gateway sub frames) (ah_inbound candidate) (ck_answer ck) = Ok (auth, 2) ->
  current_authority Sum256 Verify metadata (ah_hello candidate) challenge auth (ck_authority ck) = Ok (record, expiresAt) ->
  completeAuthentication Sum256 Verify lim metadata (to_gateway sub frames) (Some read) candidate g rejects ck =
  Ok (newSession lim (MkIdentity (da_device_id record) sid (da_authorization_id record) (da_token_id record) expiresAt
        true (String.eqb sub TunnelSubprotocolV2)) g rejects 2 2 (b64_encode_string d2) (ck_start ck),
      [frame 1 (MsgServerChallenge challenge); frame 2 (MsgSessionReady ready)]).
Proof.
  intros sid challenge ready frame R0 R1 R2 Hsub W1 W2 Hread Hauth. unfold completeAuthentication, newID, randomBase64URL.
  rewrite R0, R1. cbn [rbind]. fold sid challenge. rewrite gateway_sends by done. cbn [rbind].
  rewrite Hread. cbn [rbind]. rewrite Hauth. cbn [rbind]. unfold Handshake.resume_proof, randomBase64URL. cbn [cn_subprotocol to_gateway].
  rewrite Hsub, R2. cbn [rbind]. fold ready. rewrite gateway_sends by done. done.
Qed.

(** ** The handshake *)

Section Honest.
Context {M : Type} `{MetadataSource M} (metadata : M).
Context (Sum256 : bytes -> bytes) (Verify : bytes -> bytes -> bytes -> bool) (Sign : bytes -> bytes).
Context (config : Config) (token : string) (glim : GwLimits.Limits) (alim : Limits) (sub : string).
Context (gentropy : entropy_source) (aentropy : Z -> result bytes).
Context (now_preface now_lookup : instant) (ck : clock) (now1 now2 : instant).

(** The device's key pair: [Sign] makes signatures [Verify] accepts. *)
Definition key_pair (published : string) : Prop :=
  exists public, b64_decode_string published = Some public /\ zlen public = PublicKeySize /\
    forall m, zlen (Sign m) = SignatureSize /\ Verify public m (Sign m) = true.

(** The conditions of a handshake that goes through. *)
Record honest (record : DeviceSessionAuthorization) (expiry : zoned) : Prop := Honest {
  ho_published : forall t, t = now_lookup \/ t = ck_authority ck ->
    ms_Authorization metadata (cf_AuthorizationID config) (cf_DeviceID config) (cf_TokenID config) t = (record, None);
  ho_token : MatchSessionToken Sum256 record token = true /\ tokenPattern token = true;
  ho_key : key_pair (da_device_public_key record);
  ho_expiry : go_parse_rfc3339 (da_expires_at record) = Some expiry;
  ho_config : id_ok (cf_DeviceID config) /\ id_ok (cf_AuthorizationID config) /\ id_ok (cf_TokenID config);
  ho_gentropy : exists read, gentropy = Some read /\
    forall n size, 0 <= size -> exists data, read n size = Ok data /\ zlen data = size;
  ho_aentropy : exists data, aentropy 32 = Ok data /\ zlen data = 32;
  ho_sub : IsTunnelSubprotocol sub = true;
  ho_limits : 5 <= Z.quot (GwLimits.HeartbeatInterval glim) Second <= 60 /\
    15 <= Z.quot (GwLimits.IdleTimeout glim) Second <= 300 /\
    2 * Z.quot (GwLimits.HeartbeatInterval glim) Second <= Z.quot (GwLimits.IdleTimeout glim) Second;
  ho_clock : let expires := ck_challenge ck + GwLimits.HandshakeTimeout glim in
    stampable expires /\ now1 < Second * (expires / Second);
}.

(** C2: Two honest ends connect: when the authority is published for the Agent's identifiers at both lookups, the token digest matches, the key pair is the device's, entropy, limits and clock are sane and the connection delivers each side's frames to the other, authenticateAgent returns a session, the Gateway's preface and handshake return one, each side's writes are exactly what the other read, and the two sessions agree: session id, resume challenge, flow control, idle timeout, and each side's next frame is the one the other expects. *)
Theorem handshake_completes record expiry g rejects :
  honest record expiry ->
  exists sa sg candidate from_agent from_gateway,
    authenticateAgent Sign config token alim (to_agent sub from_gateway) aentropy now1 now2 = Ok (sa, from_agent) /\
    readPreface Sum256 metadata (to_gateway sub from_agent) now_preface now_lookup = Ok (candidate, None) /\
    completeAuthentication Sum256 Verify glim metadata (to_gateway sub from_agent) gentropy candidate g rejects ck =
      Ok (sg, from_gateway) /\
    sn_sessionID sa = id_session (ss_id sg) /\ sn_resumeChallenge sa = ss_resumeChallenge sg /\
    sn_flow sa = id_flow (ss_id sg) /\
    IdleTimeout (sn_limits sa) = Second * Z.quot (GwLimits.IdleTimeout glim) Second /\
    sn_inbound sa = wr_outbound (ss_writer sg) /\ ss_inbound sg = sn_outbound sa.
Proof.
  intros [Hpub [Htok Htp] (public & Hpk & Hpl & Hsv) Hexp (Hd & Ha & Ht) (read & -> & Hread) (an & Hae & Hal) Hsub Hlim [Hst Hnow]].
  destruct (Hread 0%nat 12 ltac:(lia)) as (d0 & R0 & L0). destruct (Hread 1%nat 32 ltac:(lia)) as (d1 & R1 & L1).
  destruct (Hread 2%nat 32 ltac:(lia)) as (d2 & R2 & L2).
  set (hello := client_hello config token (b64_encode_string an)).
  set (sid := "session" +:+ "-" +:+ b64_encode_string d0).
  set (challenge := server_challenge glim sid (b64_encode_string d1) (ck_challenge ck)).
  set (auth := client_auth Sign hello challenge).
  set (ready := MkSessionReady ProtocolVersion "session_ready" sid (Z.quot (GwLimits.HeartbeatInterval glim) Second)
                  (Z.quot (GwLimits.IdleTimeout glim) Second) (b64_encode_string d2)).
  assert (Hsid : id_ok sid) by (apply entropy_id; [exact L0 | vm_compute; reflexivity | vm_compute; discriminate]).
  assert (Hcb : forall n d, zlen d = n -> b64_ok n (b64_encode_string d)) by (intros n d <-; by exists d).
  assert (W1 : forall t, message_wf (MsgClientHello hello) t) by (intros t; cbn; split_and!; try done; by apply Hcb).
  assert (W2 : message_wf (MsgServerChallenge challenge) now1).
  { cbn. split_and!; try done; [by apply Hcb |]. eexists. split; [by apply stamp_reads | exact Hnow]. }
  assert (W3 : forall t, message_wf (MsgClientAuth auth) t) by (intros t; cbn; split_and!; try done; apply Hcb, Hsv).
  assert (W4 : forall t, message_wf (MsgSessionReady ready) t) by (intros t; cbn; split_and!; try done; apply Hlim).
  assert (S4 : message_sendable (MsgSessionReady ready)) by (right; by apply Hcb).
  set (frame := fun n m => frame_bytes (initial_frame n m)).
  set (from_agent := [frame 1 (MsgClientHello hello); frame 2 (MsgClientAuth auth)]).
  destruct (gateway_answered Sum256 Verify metadata sub from_agent (ck_answer ck) (ck_authority ck) hello challenge auth
    record expiry) as [Hread2 Hcur]; [by apply W3 | done | by apply Hpub; right | done | | done |].
  { eapply client_auth_verifies; [done | done | exact Hsv |]. unfold auth_inputs_ok. cbn. split_and!; try done; by apply Hcb. }
  eexists _, _, (MkHandshake hello record 1), from_agent, [frame 1 (MsgServerChallenge challenge); frame 2 (MsgSessionReady ready)].
  split; [| split; [| split]].
  - apply (agent_completes Sign config token alim sub aentropy an now1 now2 challenge ready); try done. by apply Hcb.
  - apply preface_read; [apply W1 | done | by apply Hpub; left | done].
  - apply (gateway_completes Sum256 Verify metadata glim sub from_agent read d0 d1 d2 _ g rejects ck auth record); try done;
      [by apply (initial_frame_wf _ _ now1) | by apply (initial_frame_wf _ _ now1)].
  - cbn. split_and!; try done. rewrite i64_id; [lia |]. unfold is_i64, Second in *. lia.
Qed.
End Honest.

(** ** Two concrete ends *)

Definition demo_record : DeviceSessionAuthorization :=
  (ms_Authorization Handshake.demo_metadata "auth-1" "dev-1" "tok-1" demo_now).1.
Definition demo_expiry : zoned := Zoned 1704153600000000000 0 true.

Lemma handshake_completes_witness :
  exists sa sg from_agent from_gateway,
    authenticateAgent demo_sign demo_config AgentHandshake.demo_token DefaultLimits
      (to_agent TunnelSubprotocolV2 from_gateway) demo_key_entropy demo_now demo_now = Ok (sa, from_agent) /\
    sn_sessionID sa = id_session (ss_id sg) /\ sn_inbound sa = wr_outbound (ss_writer sg).
Proof.
  assert (Hh : honest Handshake.demo_metadata Handshake.demo_sha Handshake.demo_verify demo_sign demo_config
    AgentHandshake.demo_token GwLimits.DefaultLimits TunnelSubprotocolV2 Handshake.demo_entropy demo_key_entropy
    demo_now Handshake.demo_clock demo_now demo_record demo_expiry).
  { split.
    - intros t [-> | ->]; vm_compute; reflexivity.
    - split; vm_compute; reflexivity.
    - exists (repeat Byte.x00 32). split; [vm_compute; reflexivity |]. split; [reflexivity |]. split; reflexivity.
    - vm_compute. reflexivity.
    - split_and!; vm_compute; reflexivity.
    - eexists. split; [reflexivity |]. intros n size Hs. eexists. split; [reflexivity |].
      unfold zlen. rewrite repeat_length. lia.
    - eexists. split; reflexivity.
    - reflexivity.
    - vm_compute. split_and!; discriminate.
    - cbn zeta. split; [split |]; vm_compute; try discriminate; reflexivity. }
  destruct (handshake_completes Handshake.demo_metadata Handshake.demo_sha Handshake.demo_verify demo_sign demo_config
    AgentHandshake.demo_token GwLimits.DefaultLimits DefaultLimits TunnelSubprotocolV2 Handshake.demo_entropy demo_key_entropy
    demo_now demo_now Handshake.demo_clock demo_now demo_now demo_record demo_expiry GwSession.demo_global 0 Hh)
    as (sa & sg & _ & fa & fg & Ha & _ & _ & Hid & _ & _ & _ & Hin & _).
  exists sa, sg, fa, fg. split; [exact Ha |]. split; [exact Hid | exact Hin].
Defined.
