(* ===== verification/AgentRunner.v ===== *)
(** * AgentRunner: keeping a tunnel up

    [internal/agent/runtime.go]: the reconnect loop of a tunnel worker with its
    backoff and its health machine, the failover dialer, one connection attempt
    ([runOnceWithDialer]) with the resume state it keeps, and which failures end
    a worker.  What the network, the key and token stores and the clock answer
    are parameters. *)

From S2P Require Import Prelude GoText GoTime Json StrictJson Frame Contract Control ControlCodec Budget Wire HandshakeCodec Health.
From S2P Require Import AgentLimits AgentStream AgentConfig AgentSession AgentHandshake.

Definition ErrPermanentAgentFailure : error := ErrSentinel "permanent Agent failure".
Definition errGatewayRedirect : error := ErrSentinel "gateway redirects are not allowed".
Definition context_DeadlineExceeded : error := ErrSentinel "context deadline exceeded".
Definition io_ErrUnexpectedEOF : error := ErrSentinel "unexpected EOF".

(** [errors.Is] of a possibly nil error. *)
Definition err_is (e : option error) (target : error) : bool :=
  match e with Some e => errors_is e target | None => false end.

Definition permanentAgentFailure (e : error) : error :=
  if errors_is e ErrPermanentAgentFailure then e else ErrWrap2 EmptyString ErrPermanentAgentFailure e.

(** ** Which failures are permanent *)

(** What the network libraries say about an error: [websocket.CloseStatus] (-1
    when there is none), the reason of a close, whether it is a [net.Error] or
    a certificate verification error. *)
Record error_facts := MkErrorFacts {
  ef_CloseStatus : error -> Z;
  ef_reason : error -> option string;
  ef_network : error -> bool;
  ef_certificate : error -> bool;
}.

Section Classify.
Context (F : error_facts).

Definition permanentPolicyViolation (err : error) : bool :=
  match ef_reason F err with
  | None => true
  | Some reason => negb (bool_decide (reason ∈ ["idle timeout"; "session ended"; "authentication failed"]))
  end.

(** [status]: of the HTTP response that refused the upgrade. *)
Definition permanentDialError (err : error) (status : option Z) : bool :=
  if errors_is err errGatewayRedirect then true
  else
    match status with
    | Some code =>
      if (400 <=? code) && (code <? 500)
      then negb (bool_decide (code ∈ [408; 425; 429]))
      else ef_certificate F err
    | None => ef_certificate F err
    end.

Definition permanentRemoteSessionError (err : option error) : bool :=
  match err with
  | None => false
  | Some err =>
    let status := ef_CloseStatus F err in
    if bool_decide (status ∈ [1002; 1003; 1007; 1009; 1010]) then true
    else if status =? 1008 then permanentPolicyViolation err
    else if bool_decide (status ∈ [1000; 1001; 1005; 1006; 1011; 1012; 1013; 1014]) then false
    else if negb (status =? -1) then true
    else if errors_is err context_DeadlineExceeded || errors_is err io_EOF || errors_is err io_ErrUnexpectedEOF then false
    else negb (ef_network F err)
  end.
End Classify.

(** ** Backoff *)

(** [Int64N quarter] is [rand.Int64N]: a number in [[0, quarter)]. *)
Definition jittered (Int64N : Z -> Z) (base : Z) : Z :=
  if base <=? 4 * Millisecond then base
  else let quarter := Z.quot base 4 in base - Z.quot quarter 2 + Int64N quarter.

Definition next_backoff (lim : Limits) (backoff : Z) : Z :=
  let backoff := i64 (backoff * 2) in if ReconnectMax lim <? backoff then ReconnectMax lim else backoff.

(** ** The reconnect loop of a worker *)

Record worker := MkWorker { wk_backoff : Z; wk_health : State; wk_reconnects : Z }.

Definition new_worker (lim : Limits) : worker := MkWorker (ReconnectMin lim) Init 0.

(** What one pass saw: the context at the top, the attempt (its error, whether
    it got a session), the context after it, the clock, the random
    source, and whether the wait was cut short. *)
Record pass := MkPass {
  ps_over : bool;
  ps_attempt : option error;
  ps_connected : bool;
  ps_over_after : bool;
  ps_elapsed : Z;
  ps_random : Z -> Z;
  ps_interrupted : bool;
}.

(** [Ended]: the loop returned; [Again]: it goes on, after the delay if any. *)
Inductive pass_end := Ended (err : option error) | Again (delay : option Z).

Definition with_health (w : worker) (h : State) : worker := MkWorker (wk_backoff w) h (wk_reconnects w).

(** One pass of the loop of [runPinnedWorker] and of [runPrimary]. *)
Definition worker_pass (lim : Limits) (w : worker) (p : pass) : pass_end * worker :=
  if ps_over p then (Ended None, with_health w (apply_transition (wk_health w) Shutdown))
  else
    let h := apply_transition (wk_health w) Connecting in
    let h := if ps_connected p then apply_transition h Connected else h in
    let err := ps_attempt p in
    if err_is err context_Canceled || ps_over_after p then (Ended None, with_health w (apply_transition h Shutdown))
    else if err_is err ErrSessionRevoked || err_is err ErrPermanentAgentFailure then
      (Ended err, with_health w (apply_transition h (if err_is err ErrSessionRevoked then Revoked else Shutdown)))
    else
      let backoff := if 10 * Second <=? ps_elapsed p then ReconnectMin lim else wk_backoff w in
      let h := apply_transition h Reconnecting in
      let reconnects := i64 (wk_reconnects w + 1) in
      if err_is err errResumeRejected then (Again None, MkWorker backoff h reconnects)
      else if ps_interrupted p then (Ended None, MkWorker backoff (apply_transition h Shutdown) reconnects)
      else (Again (Some (jittered (ps_random p) backoff)), MkWorker (next_backoff lim backoff) h reconnects).

(** The loop: the delays waited so far, and how it ended, if it did. *)
Fixpoint run_worker (lim : Limits) (w : worker) (passes : list pass) : list (option Z) * option (option error) * worker :=
  match passes with
  | [] => ([], None, w)
  | p :: rest =>
    match worker_pass lim w p with
    | (Ended err, w') => ([], Some err, w')
    | (Again delay, w') =>
      let '(delays, result, w'') := run_worker lim w' rest in (delay :: delays, result, w'')
    end
  end.

Definition runPrimary := run_worker.

(** ** The supervisor *)

Definition worker_count (candidates : Z) (lim : Limits) : Z :=
  let count := if 1 <? candidates then candidates else 1 in
  if MaxTunnels lim <? count then MaxTunnels lim else count.

(** The ends of the workers in the order they are received: the joined errors,
    and how many workers were waited for before the rest was cancelled. *)
Fixpoint wait_workers (ends : list (option error)) (acc : list error) : list error * nat :=
  match ends with
  | [] => (acc, 0%nat)
  | e :: rest =>
    let acc := acc ++ (match e with Some err => [err] | None => [] end) in
    if err_is e ErrSessionRevoked then (acc, 1%nat)
    else let '(result, n) := wait_workers rest acc in (result, S n)
  end.

(** ** The failover dialer *)

Section Dial.
(** [websocket.Dial] of a candidate with that much time left: the connection,
    the status of a refusal, and the time it took. *)
Context {A : Type} (dial : string -> Z -> result A * option Z * Z) (permanent : error -> option Z -> bool).

Inductive dial_end :=
| Dialed (index : nat) (candidate : string) (conn : A)
| DialStopped (err : error) (status : option Z)        (* a permanent error *)
| DialFailed (err : error) (status : option Z).        (* every candidate failed *)

(** The loop from [offset] on, over [left] more candidates; [timeout] bounds
    each dial, [remaining] all of them. *)
Fixpoint dial_candidates (candidates : list string) (start : nat) (timeout remaining : Z) (offset left : nat)
    (last : error * option Z) : dial_end :=
  match left with
  | O => DialFailed last.1 last.2
  | S left' =>
    let index := Nat.modulo (start + offset) (length candidates) in
    let candidate := nth index candidates EmptyString in
    match dial candidate (Z.min timeout remaining) with
    | (Ok conn, _, _) => Dialed index candidate conn
    | (Err err, status, spent) =>
      let err := ErrWrap ("dial Gateway WSS " +:+ candidate) err in
      if permanent err status then DialStopped err status
      else dial_candidates candidates start timeout (remaining - spent) (S offset) left' (err, status)
    end
  end.

(** [runOnce]'s dial: the result and the schedule's next index. *)
Definition dialWithFailover (lim : Limits) (candidates : list string) (failoverIndex : nat)
  : result (string * A) * option Z * nat :=
  match candidates with
  | [] => (Err (ErrMsg "no gateway URL configured"), None, failoverIndex)
  | _ =>
    let start := Nat.modulo failoverIndex (length candidates) in
    match dial_candidates candidates start (HandshakeTimeout lim) (HandshakeTimeout lim) 0 (length candidates)
            (ErrMsg EmptyString, None) with
    | Dialed index candidate conn => (Ok (candidate, conn), None, index)
    | DialStopped err status => (Err err, status, failoverIndex)
    | DialFailed err status => (Err err, status, Nat.modulo (S start) (length candidates))
    end
  end.
End Dial.

(** ** One attempt *)

Definition protectError (err : error) : error := ErrWrap "redacted" err.

Section Attempt.
Context (F : error_facts) (Sign : bytes -> bytes).

(** What the attempt finds: configuration, identity and token, TLS, the dial
    (a connection or an error and the status of a refusal), entropy and clock
    for the handshake, and what [sess.run] returns. *)
Record attempt_env := MkAttemptEnv {
  at_config : result Config;
  at_token : result string;
  at_tls : result unit;
  at_dial : result link * option Z;
  at_entropy : Z -> result bytes;
  at_now1 : instant;
  at_now2 : instant;
  at_run : session -> option error;
}.

(** [runOnceWithDialer]: the error, the resume state it leaves, and whether a
    session was established. *)
Definition runOnceWithDialer (lim : Limits) (config : Config) (env : attempt_env) (resumable : resumeState) (primary : bool)
  : option error * resumeState * bool :=
  match at_token env with
  | Err err => (Some (permanentAgentFailure err), resumable, false)
  | Ok token =>
    match at_tls env with
    | Err err => (Some (permanentAgentFailure err), resumable, false)
    | Ok _ =>
      match at_dial env with
      | (Err err, status) =>
        let err := protectError err in
        (Some (if permanentDialError F err status then permanentAgentFailure err else err), resumable, false)
      | (Ok conn, _) =>
        match authenticateOrResume Sign (ef_CloseStatus F) config token resumable primary lim conn (at_entropy env)
                (at_now1 env) (at_now2 env) with
        | Err err =>
          if errors_is err errResumeRejected then (Some err, MkResume EmptyString EmptyString, false)
          else
            let err := protectError err in
            (Some (if permanentRemoteSessionError F (Some err) then permanentAgentFailure err else err), resumable, false)
        | Ok (sess, _) =>
          let resumable := if primary then MkResume (sn_sessionID sess) (sn_resumeChallenge sess) else resumable in
          let err := protectError <$> at_run env sess in
          (if err_is err ErrSessionRevoked then err
           else if permanentRemoteSessionError F err then permanentAgentFailure <$> err
           else err, resumable, true)
        end
      end
    end
  end.

(** [runOnce]. *)
Definition runOnce (url_Parse : string -> result URL) (lim : Limits) (env : attempt_env) (resumable : resumeState)
  : option error * resumeState * bool :=
  match at_config env with
  | Err err => (Some (permanentAgentFailure err), resumable, false)
  | Ok config =>
    match ValidateRuntime url_Parse config with
    | Err err => (Some (permanentAgentFailure err), resumable, false)
    | Ok _ => runOnceWithDialer lim config env resumable true
    end
  end.
End Attempt.

(** ** The loop backs off *)

(** The bounds [valid] puts on the two delays, and room to double them. *)
Definition backoff_limits (lim : Limits) : Prop := 0 < ReconnectMin lim <= ReconnectMax lim /\ ReconnectMax lim < 2 ^ 61.

(** [rand.Int64N]. *)
Definition fair (p : pass) : Prop := forall q, 0 < q -> 0 <= ps_random p q < q.

(** After [n] delays in a row the backoff is the minimum doubled [n] times,
    up to the maximum. *)
Definition backoff_after (lim : Limits) (n : nat) : Z := Z.min (ReconnectMax lim) (ReconnectMin lim * 2 ^ Z.of_nat n).

Definition near (delay base : Z) : Prop := 7 * base <= 8 * delay <= 9 * base + 4.

Lemma jittered_near p base : fair p -> 0 < base -> near (jittered (ps_random p) base) base.
Proof.
  intros Hf Hb. unfold near, jittered. destruct (base <=? _) eqn:E; bool_facts; [lia |]. unfold Millisecond in E.
  assert (Hq : 0 < Z.quot base 4) by (rewrite Z.quot_div_nonneg by lia; apply Z.div_str_pos; lia).
  specialize (Hf _ Hq). rewrite !Z.quot_div_nonneg in * by lia.
  pose proof (Z.div_mod base 4 ltac:(lia)). pose proof (Z.mod_pos_bound base 4 ltac:(lia)).
  pose proof (Z.div_mod (base / 4) 2 ltac:(lia)). pose proof (Z.mod_pos_bound (base / 4) 2 ltac:(lia)). lia.
Qed.

Lemma next_backoff_spec lim b : backoff_limits lim -> 0 < b <= ReconnectMax lim -> next_backoff lim b = Z.min (2 * b) (ReconnectMax lim).
Proof.
  intros [Hl Hm] Hb. unfold next_backoff. rewrite i64_id by (unfold is_i64; lia). destruct (_ <? _) eqn:E; bool_facts; lia.
Qed.

Lemma backoff_after_S lim n : backoff_limits lim -> Z.min (2 * backoff_after lim n) (ReconnectMax lim) = backoff_after lim (S n).
Proof. intros [Hl Hm]. unfold backoff_after. rewrite Nat2Z.inj_succ, Z.pow_succ_r by lia. lia. Qed.

Lemma backoff_after_bounds lim n : backoff_limits lim -> ReconnectMin lim <= backoff_after lim n <= ReconnectMax lim.
Proof. intros [Hl Hm]. unfold backoff_after. assert (1 <= 2 ^ Z.of_nat n) by (pose proof (Z.pow_pos_nonneg 2 (Z.of_nat n)); lia). nia. Qed.

(** What a pass that goes on did: it used the backoff it had, or the minimum
    after a session of at least ten seconds. *)
Lemma worker_pass_again lim w p delay w' :
  worker_pass lim w p = (Again delay, w') ->
  let b := if 10 * Second <=? ps_elapsed p then ReconnectMin lim else wk_backoff w in
  ((delay = Some (jittered (ps_random p) b) /\ wk_backoff w' = next_backoff lim b) \/
   (delay = None /\ err_is (ps_attempt p) errResumeRejected = true /\ wk_backoff w' = b)) /\
  wk_health w' = apply_transition (let h := apply_transition (wk_health w) Connecting in
                                   if ps_connected p then apply_transition h Connected else h) Reconnecting /\
  err_is (ps_attempt p) ErrSessionRevoked = false /\ err_is (ps_attempt p) ErrPermanentAgentFailure = false.
Proof.
  unfold worker_pass. destruct (ps_over p); [done |]. destruct (_ || ps_over_after p); [done |].
  destruct (err_is _ ErrSessionRevoked); [done |]. destruct (err_is _ ErrPermanentAgentFailure); [done |]. cbn [orb].
  destruct (err_is _ errResumeRejected); [intros [= <- <-]; split_and!; auto |].
  destruct (ps_interrupted p); [done |]. intros [= <- <-]. split_and!; auto.
Qed.

(** An attempt of at least ten seconds, and one whose resume was refused. *)
Definition long (p : pass) : bool := 10 * Second <=? ps_elapsed p.
Definition refused (p : pass) : bool := err_is (ps_attempt p) errResumeRejected.

(** How many delays a row of passes has waited since its last long attempt, from
    [n] delays before it on. *)
Definition waited (n : nat) (passes : list pass) : nat :=
  fold_left (fun n p => let n := if long p then O else n in if refused p then n else S n) passes n.

Lemma run_worker_delays lim passes : backoff_limits lim -> Forall fair passes -> forall w n delays result w',
  wk_backoff w = backoff_after lim n -> run_worker lim w passes = (delays, result, w') ->
  forall i d, delays !! i = Some d -> exists p, passes !! i = Some p /\
    match d with
    | None => refused p = true
    | Some x => refused p = false /\ near x (backoff_after lim (if long p then 0 else waited n (take i passes)))
    end.
Proof.
  intros Hl. induction passes as [|p rest IH]; intros Hf w n delays result w' Hw H i d Hd; cbn [run_worker] in H.
  - by injection H as <- _ _.
  - apply Forall_cons in Hf as [Hp Hf]. destruct (worker_pass lim w p) as [[err|delay] w1] eqn:E; [by injection H as <- _ _ |].
    destruct (run_worker lim w1 rest) as [[ds r] w2] eqn:Er. injection H as <- <- <-.
    assert (Hpass : wk_backoff w1 = backoff_after lim (let n := if long p then O else n in if refused p then n else S n) /\
      match delay with
      | None => refused p = true
      | Some x => refused p = false /\ near x (backoff_after lim (if long p then 0 else n))
      end).
    { pose proof E as E'. apply worker_pass_again in E as [Hx _]. cbv zeta in Hx. fold (long p) (refused p) in Hx.
      assert (Hb : (if long p then ReconnectMin lim else wk_backoff w) = backoff_after lim (if long p then 0 else n)).
      { destruct (long p); [| exact Hw]. unfold backoff_after. cbn. destruct Hl. lia. }
      rewrite Hb in Hx. set (k := if long p then 0%nat else n) in *. cbv zeta. pose proof (backoff_after_bounds lim k Hl) as Hk.
      assert (Hpos : 0 < backoff_after lim k) by (destruct Hl; lia). destruct Hx as [[-> Hn]|(-> & Hr & Hn)].
      - assert (Hr : refused p = false).
        { unfold worker_pass in E'. destruct (ps_over p); [done |]. destruct (_ || ps_over_after p); [done |]. destruct (_ || _); [done |].
          unfold refused. by destruct (err_is (ps_attempt p) errResumeRejected). }
        rewrite Hr. split; [| split; [done | by apply jittered_near]].
        rewrite Hn, next_backoff_spec by (done || lia). by apply backoff_after_S.
      - rewrite Hr. by split. }
    destruct Hpass as [Hb Hd0]. destruct i as [|i].
    + injection Hd as <-. exists p. split; [done | exact Hd0].
    + destruct (IH Hf w1 _ ds r w2 Hb Er i d Hd) as (q & Hq & H). exists q. split; [exact Hq | exact H].
Qed.

(** C34: A worker that cannot connect backs off exponentially and within bounds. The retry after an attempt has no delay exactly when that attempt's resume was refused; every other retry waits within an eighth of min(ReconnectMax, ReconnectMin * 2^n), where n is the number of delays it has waited since its last attempt of at least ten seconds, so the base is ReconnectMin after such an attempt, doubles with every short one, connected or not, and no arithmetic wraps; the delay is never zero. *)
Theorem reconnect_backoff lim passes delays result w :
  backoff_limits lim -> Forall fair passes -> run_worker lim (new_worker lim) passes = (delays, result, w) ->
  forall i d, delays !! i = Some d -> exists p, passes !! i = Some p /\
    match d with
    | None => err_is (ps_attempt p) errResumeRejected = true
    | Some x =>
      err_is (ps_attempt p) errResumeRejected = false /\ 0 < x /\
      let n := if 10 * Second <=? ps_elapsed p then 0%nat else waited 0 (take i passes) in
      near x (Z.min (ReconnectMax lim) (ReconnectMin lim * 2 ^ Z.of_nat n))
    end.
Proof.
  intros Hl Hf H i d Hd. assert (H0 : wk_backoff (new_worker lim) = backoff_after lim 0).
  { unfold backoff_after. cbn. destruct Hl. lia. }
  destruct (run_worker_delays lim passes Hl Hf (new_worker lim) 0 delays result w H0 H i d Hd) as (p & Hp & Hm). exists p. split; [exact Hp |].
  destruct d as [x|]; [| exact Hm]. destruct Hm as [Hr Hx]. split; [exact Hr |]. split; [| exact Hx].
  match type of Hx with near _ (backoff_after _ ?n) => pose proof (backoff_after_bounds lim n Hl) end. unfold near in Hx. destruct Hl. lia.
Qed.

(** ** How a worker ends *)

(** Between passes a worker's machine is fresh or reconnecting. *)
Definition between (h : State) : Prop := h = Init \/ h = Reconnecting.

Lemma worker_pass_health lim w p : between (wk_health w) ->
  match worker_pass lim w p with
  | (Again _, w') => wk_health w' = Reconnecting
  | (Ended None, w') => wk_health w' = Shutdown
  | (Ended (Some err), w') => ps_attempt p = Some err /\
      ((errors_is err ErrSessionRevoked = true /\ wk_health w' = Revoked) \/
       (errors_is err ErrSessionRevoked = false /\ errors_is err ErrPermanentAgentFailure = true /\ wk_health w' = Shutdown))
  end.
Proof.
  intros Hb. unfold worker_pass. destruct Hb as [-> | ->]; destruct (ps_over p), (ps_connected p); cbn [apply_transition];
    try reflexivity; destruct (_ || ps_over_after p); try reflexivity; destruct (ps_attempt p) as [err|]; cbn [err_is orb];
    try destruct (errors_is err ErrSessionRevoked) eqn:E1; cbn [orb];
    try destruct (errors_is err ErrPermanentAgentFailure) eqn:E2;
    try destruct (errors_is err errResumeRejected) eqn:E3; try destruct (ps_interrupted p);
    try reflexivity; (split; [reflexivity |]); rewrite ?E1, ?E2; auto.
Qed.

(** A worker ends only on purpose: when its context is over (without an error, its machine in Shutdown), or with the error of an attempt that was a revocation (machine in Revoked) or a permanent failure (machine in Shutdown), so it never ends leaving live health behind: every other failure is followed by another attempt. *)
Theorem worker_ends_on_purpose lim passes delays result w :
  run_worker lim (new_worker lim) passes = (delays, result, w) ->
  match result with
  | None => length delays = length passes /\ between (wk_health w)
  | Some None => wk_health w = Shutdown /\
      exists p, p ∈ passes /\ (ps_over p = true \/ ps_over_after p = true \/ ps_interrupted p = true \/
                               err_is (ps_attempt p) context_Canceled = true)
  | Some (Some err) => (exists p, p ∈ passes /\ ps_attempt p = Some err) /\
      ((errors_is err ErrSessionRevoked = true /\ wk_health w = Revoked) \/
       (errors_is err ErrPermanentAgentFailure = true /\ wk_health w = Shutdown))
  end.
Proof.
  assert (Hn : between (wk_health (new_worker lim))) by (by left). generalize dependent (new_worker lim). intros w0.
  revert w0 delays. induction passes as [|p rest IH]; intros w0 delays Hb H; cbn [run_worker] in H.
  - by injection H as <- <- <-.
  - pose proof (worker_pass_health lim w0 p Hb) as Hh.
    destruct (worker_pass lim w0 p) as [[err|delay] w1] eqn:E.
    + injection H as <- <- <-. destruct err as [err|].
      * destruct Hh as [Ha Ho]. split; [exists p; split; [by left | done] |]. tauto.
      * split; [exact Hh |]. exists p. split; [by left |]. revert E. unfold worker_pass.
        destruct (ps_over p); [by left |]. destruct (err_is (ps_attempt p) context_Canceled); [auto 6 |].
        destruct (ps_over_after p); [auto |]. cbn [orb].
        destruct (ps_attempt p); destruct (_ || _) eqn:Eo; try done; [| by apply orb_true_iff in Eo as [Eo|Eo] ..| ];
          (destruct (err_is _ errResumeRejected); [done |]); destruct (ps_interrupted p); [auto | done | auto | done].
    + destruct (run_worker lim w1 rest) as [[ds r] w2] eqn:Er. injection H as <- <- <-.
      specialize (IH w1 ds (or_intror Hh) Er). destruct r as [[err|]|].
      * destruct IH as [(x & Hx & Hxa) Ho]. split; [exists x; split; [by right | done] | exact Ho].
      * destruct IH as [Hs (x & Hx & Hxa)]. split; [exact Hs |]. exists x. split; [by right | done].
      * cbn. destruct IH as [Hl Hbw]. split; [by rewrite Hl | done].
Qed.

(** ** What an attempt's failure means *)

(** A failure of the network or of the Gateway's infrastructure, as the
    libraries report it: the peer is gone, a deadline passed, or a close with
    an operational code or reason. *)
Definition transient (F : error_facts) (err : error) : Prop :=
  (ef_CloseStatus F err ∈ [1000; 1001; 1005; 1006; 1011; 1012; 1013; 1014]) \/
  (ef_CloseStatus F err = 1008 /\ exists reason, ef_reason F err = Some reason /\
     reason ∈ ["idle timeout"; "session ended"; "authentication failed"]) \/
  (ef_CloseStatus F err = -1 /\
     (errors_is err context_DeadlineExceeded = true \/ errors_is err io_EOF = true \/
      errors_is err io_ErrUnexpectedEOF = true \/ ef_network F err = true)).

Lemma transient_not_permanent F err : transient F err <-> permanentRemoteSessionError F (Some err) = false.
Proof.
  unfold transient, permanentRemoteSessionError, permanentPolicyViolation. split.
  - intros [Hs|[[Hs (r & Hr & Hin)]|[Hs Hx]]].
    + repeat (apply elem_of_cons in Hs as [Hs|Hs]; [by rewrite Hs |]). by apply elem_of_nil in Hs.
    + rewrite Hs, Hr. change (bool_decide (1008 ∈ [1002; 1003; 1007; 1009; 1010])) with false.
      change (1008 =? 1008) with true. cbv iota. by rewrite bool_decide_eq_true_2.
    + rewrite Hs. change (bool_decide (-1 ∈ [1002; 1003; 1007; 1009; 1010])) with false.
      change (bool_decide (-1 ∈ [1000; 1001; 1005; 1006; 1011; 1012; 1013; 1014])) with false.
      change (-1 =? 1008) with false. change (-1 =? -1) with true. cbn [negb]. destruct (errors_is err context_DeadlineExceeded), (errors_is err io_EOF),
        (errors_is err io_ErrUnexpectedEOF), (ef_network F err); try done. by destruct Hx as [|[|[|]]].
  - case_bool_decide; [done |]. destruct (_ =? 1008) eqn:E; [apply Z.eqb_eq in E | clear E].
    + destruct (ef_reason F err) as [r|]; [| done]. rewrite negb_false_iff, bool_decide_eq_true. eauto 6.
    + case_bool_decide; [auto |]. destruct (_ =? -1) eqn:E; [apply Z.eqb_eq in E | done]. cbn [negb].
      destruct (errors_is err context_DeadlineExceeded), (errors_is err io_EOF), (errors_is err io_ErrUnexpectedEOF); cbn; auto 8.
      rewrite negb_false_iff. auto 8.
Qed.

Section Survive.
Context (F : error_facts) (Sign : bytes -> bytes) (url_Parse : string -> result URL).

(** An error that does not carry one of the Agent's own sentinels. *)
Definition foreign (err : error) : Prop :=
  errors_is err ErrSessionRevoked = false /\ errors_is err ErrPermanentAgentFailure = false.

(** A transient failure never costs the device its tunnel, and what is not transient is never retried forever. When the configuration, the token and the trust anchors load and a session was established and then failed, the attempt's error is a revocation exactly when the session was revoked, permanent exactly when the failure is not transient, and after a transient failure the worker's loop either goes on (its next attempt following a bounded delay) or its context is over; an attempt that could not even start (configuration, token or trust anchors) is permanent; and the resume state afterwards is the session's own, on the primary worker, or the one from before. *)
Theorem attempt_classified lim env resumable primary config token conn s wire err w p :
  at_token env = Ok token -> at_tls env = Ok tt -> (at_dial env).1 = Ok conn ->
  authenticateOrResume Sign (ef_CloseStatus F) config token resumable primary lim conn (at_entropy env)
    (at_now1 env) (at_now2 env) = Ok (s, wire) ->
  at_run env s = Some err -> foreign err \/ err = ErrSessionRevoked ->
  let '(e, resumable', connected) := runOnceWithDialer F Sign lim config env resumable primary in
  connected = true /\ resumable' = (if primary then MkResume (sn_sessionID s) (sn_resumeChallenge s) else resumable) /\
  (err_is e ErrSessionRevoked = true <-> err = ErrSessionRevoked) /\
  (foreign err -> (err_is e ErrPermanentAgentFailure = true <-> ~ transient F (protectError err))) /\
  (foreign err -> transient F (protectError err) -> ps_attempt p = e ->
     match worker_pass lim w p with (Ended r, _) => r = None | (Again _, _) => True end) /\
  (forall env' cause, at_config env' = Err cause \/
     (exists c, at_config env' = Ok c /\ (ValidateRuntime url_Parse c = Err cause \/
        ValidateRuntime url_Parse c = Ok tt /\ (at_token env' = Err cause \/ exists t, at_token env' = Ok t /\ at_tls env' = Err cause))) ->
     err_is (runOnce F Sign url_Parse lim env' resumable).1.1 ErrPermanentAgentFailure = true).
Proof.
  intros Ht Htls Hd Ha Hrun Hf. destruct (runOnceWithDialer _ _ _ _ _ _ _) as [[e r'] c] eqn:E.
  unfold runOnceWithDialer in E. rewrite Ht, Htls in E. destruct (at_dial env) as [d st]. cbn [fst] in Hd. subst d.
  rewrite Ha, Hrun in E. cbn [fmap option_fmap option_map] in E.
  assert (Hperm : forall x, errors_is (permanentAgentFailure x) ErrPermanentAgentFailure = true).
  { intros x. unfold permanentAgentFailure. destruct (errors_is x ErrPermanentAgentFailure) eqn:Ex; [done | reflexivity]. }
  assert (Hrev : forall x, errors_is x ErrSessionRevoked = false -> errors_is (permanentAgentFailure x) ErrSessionRevoked = false).
  { intros x Hx. unfold permanentAgentFailure. destruct (errors_is x ErrPermanentAgentFailure); [done |]. cbn. exact Hx. }
  assert (Hp1 : errors_is (protectError err) ErrSessionRevoked = errors_is err ErrSessionRevoked) by done.
  assert (Hp2 : errors_is (protectError err) ErrPermanentAgentFailure = errors_is err ErrPermanentAgentFailure) by done.
  assert (Hstart : forall env' cause, at_config env' = Err cause \/
     (exists c, at_config env' = Ok c /\ (ValidateRuntime url_Parse c = Err cause \/
        ValidateRuntime url_Parse c = Ok tt /\ (at_token env' = Err cause \/ exists t, at_token env' = Ok t /\ at_tls env' = Err cause))) ->
     err_is (runOnce F Sign url_Parse lim env' resumable).1.1 ErrPermanentAgentFailure = true).
  { intros env' cause [Hc|(cfg & Hc & [Hv|[Hv [Htk|(t & Htk & Htl)]]])]; unfold runOnce; rewrite Hc, ?Hv; [apply Hperm | apply Hperm | |];
      unfold runOnceWithDialer; rewrite Htk, ?Htl; apply Hperm. }
  destruct Hf as [[Hf1 Hf2]| ->].
  - cbn [err_is] in E. rewrite Hp1, Hf1 in E.
    destruct (permanentRemoteSessionError F (Some (protectError err))) eqn:Ep; injection E as <- <- <-; (split; [done |]); (split; [done |]).
    + split; [cbn [err_is]; rewrite Hrev by done; split; [done | intros ->; done] |].
      split; [intros _; rewrite transient_not_permanent, Ep; cbn [err_is]; by rewrite Hperm |].
      split; [intros _ Htr; apply transient_not_permanent in Htr; congruence | exact Hstart].
    + split; [cbn [err_is]; rewrite Hp1, Hf1; split; [done | intros ->; done] |].
      split; [intros _; rewrite transient_not_permanent, Ep; cbn [err_is]; rewrite Hp2, Hf2; split; [done | intros Hn; by destruct Hn] |].
      split; [| exact Hstart]. intros _ _ Hp. unfold worker_pass. destruct (ps_over p); [done |].
      destruct (_ || ps_over_after p); [done |]. rewrite Hp. cbn [err_is].
      rewrite Hp1, Hp2, Hf1, Hf2. cbn [orb].
      destruct (errors_is _ errResumeRejected); [done |]. by destruct (ps_interrupted p).
  - cbn in E. injection E as <- <- <-. split; [done |]. split; [done |]. split; [done |].
    split; [intros [Hx _]; done |]. split; [intros [Hx _]; done | exact Hstart].
Qed.
End Survive.

(** ** The resume state *)

(** A refused resume is followed by the full handshake, never by another resume: an attempt whose handshake was refused ends with that error (which makes the loop retry at once) and leaves no resume state, so whatever configuration and connection the next attempt finds, it performs authenticateAgent; and otherwise the resume state changes only to that of a session the primary worker has just established. *)
Theorem resume_rejected_once F Sign lim config env resumable primary e resumable' connected :
  runOnceWithDialer F Sign lim config env resumable primary = (e, resumable', connected) ->
  let authenticate conn token := authenticateOrResume Sign (ef_CloseStatus F) config token resumable primary lim conn
                                   (at_entropy env) (at_now1 env) (at_now2 env) in
  (forall token conn cause, at_token env = Ok token -> at_tls env = Ok tt -> (at_dial env).1 = Ok conn ->
     authenticate conn token = Err cause -> errors_is cause errResumeRejected = true ->
     e = Some cause /\ connected = false /\ resumable' = MkResume EmptyString EmptyString) /\
  (resumable' = MkResume EmptyString EmptyString ->
     forall config' token' lim' conn' entropy' t1 t2 prim,
       authenticateOrResume Sign (ef_CloseStatus F) config' token' resumable' prim lim' conn' entropy' t1 t2 =
       authenticateAgent Sign config' token' lim' conn' entropy' t1 t2) /\
  (resumable' <> resumable -> resumable' = MkResume EmptyString EmptyString \/
     primary = true /\ connected = true /\ exists token conn s wire, at_token env = Ok token /\ (at_dial env).1 = Ok conn /\
       authenticate conn token = Ok (s, wire) /\ resumable' = MkResume (sn_sessionID s) (sn_resumeChallenge s)).
Proof.
  intros E authenticate. unfold runOnceWithDialer in E. split; [| split].
  - intros token conn cause Ht Htls Hd Ha Hr. rewrite Ht, Htls in E. destruct (at_dial env) as [d st]. cbn [fst] in Hd. subst d.
    unfold authenticate in Ha. rewrite Ha, Hr in E. by injection E as <- <- <-.
  - intros -> *. unfold authenticateOrResume. by destruct (_ && _).
  - intros Hne. destruct (at_token env) as [token|]; [| injection E as _ <- _; done].
    destruct (at_tls env) as [[]|]; [| injection E as _ <- _; done].
    destruct (at_dial env) as [[conn|] st]; [| injection E as _ <- _; done].
    destruct (authenticateOrResume _ _ _ _ _ _ _ _ _ _ _) as [[s wire]|cause] eqn:Ea.
    + injection E as _ <- <-. destruct primary; [| done]. right. split; [done |]. split; [done |]. by exists token, conn, s, wire.
    + destruct (errors_is cause errResumeRejected); injection E as _ <- _; [by left | done].
Qed.

(** ** Failover *)

Section Failover.
Context {A : Type} (dial : string -> Z -> result A * option Z * Z) (permanent : error -> option Z -> bool).

(** A dial that failed without ending the schedule. *)
Definition passed_over (timeout : Z) (candidate : string) : Prop :=
  exists t err status spent, t <= timeout /\ dial candidate t = (Err err, status, spent) /\
    permanent (ErrWrap ("dial Gateway WSS " +:+ candidate) err) status = false.

Lemma dial_candidates_spec candidates start timeout : forall left remaining offset last,
  match dial_candidates dial permanent candidates start timeout remaining offset left last with
  | Dialed index candidate conn =>
      exists k t status spent, (k < left)%nat /\ index = Nat.modulo (start + (offset + k)) (length candidates) /\
        candidate = nth index candidates EmptyString /\ t <= timeout /\ dial candidate t = (Ok conn, status, spent) /\
        forall i, (i < k)%nat -> passed_over timeout (nth (Nat.modulo (start + (offset + i)) (length candidates)) candidates EmptyString)
  | DialStopped err status => permanent err status = true /\ exists k, (k < left)%nat /\
        forall i, (i < k)%nat -> passed_over timeout (nth (Nat.modulo (start + (offset + i)) (length candidates)) candidates EmptyString)
  | DialFailed err status => forall i, (i < left)%nat ->
        passed_over timeout (nth (Nat.modulo (start + (offset + i)) (length candidates)) candidates EmptyString)
  end.
Proof.
  induction left as [|left IH]; intros remaining offset last; cbn [dial_candidates]; [intros i Hi; lia |].
  set (c := nth (Nat.modulo (start + offset) (length candidates)) candidates EmptyString).
  destruct (dial c (Z.min timeout remaining)) as [[[conn|err] status] spent] eqn:E.
  - exists 0%nat, (Z.min timeout remaining), status, spent. rewrite Nat.add_0_r. split_and!; try done; [lia | lia | intros i Hi; lia].
  - destruct (permanent _ status) eqn:Ep.
    { split; [done |]. exists 0%nat. split; [lia | intros i Hi; lia]. }
    assert (Hc : passed_over timeout c) by (exists (Z.min timeout remaining), err, status, spent; split_and!; [lia | done | done]).
    specialize (IH (remaining - spent) (S offset) (ErrWrap ("dial Gateway WSS " +:+ c) err, status)).
    assert (Hshift : forall k, (forall i, (i < k)%nat -> passed_over timeout (nth (Nat.modulo (start + (S offset + i)) (length candidates)) candidates EmptyString)) ->
      forall i, (i < S k)%nat -> passed_over timeout (nth (Nat.modulo (start + (offset + i)) (length candidates)) candidates EmptyString)).
    { intros k Hk [|i] Hi; [by rewrite Nat.add_0_r |]. rewrite <- Nat.add_succ_comm. apply Hk. lia. }
    destruct (dial_candidates _ _ _ _ _ _ _ _ _) as [index candidate conn|err' st'|err' st'].
    + destruct IH as (k & t & st & sp & H1 & H2 & H3 & H4 & H5 & H6). exists (S k), t, st, sp.
      split_and!; try done; [lia | by rewrite <- Nat.add_succ_comm |]. by apply Hshift.
    + destruct IH as [H1 (k & H2 & H3)]. split; [done |]. exists (S k). split; [lia |]. by apply Hshift.
    + by apply Hshift.
Qed.

(** The failover dialer is fair and never leaves the configured gateways: it starts at the scheduled candidate and tries the others in order, each at most once and each within the handshake timeout, until one answers or one refuses permanently. It returns only a connection to a configured candidate, having been passed over by every candidate before it, and the schedule then stays on that candidate; on a permanent refusal the schedule is unchanged and the refusal is returned; when all were passed over, every candidate was tried and the schedule moves to the next one, so a dead primary is not retried first. *)
Theorem failover_schedule lim candidates failoverIndex :
  candidates <> [] ->
  let n := length candidates in
  let start := Nat.modulo failoverIndex n in
  let tried i := nth (Nat.modulo (start + i) n) candidates EmptyString in
  let '(result, status, index') := dialWithFailover dial permanent lim candidates failoverIndex in
  match result with
  | Ok (candidate, conn) => candidate ∈ candidates /\ candidates !! index' = Some candidate /\
      exists k t st spent, (k < n)%nat /\ candidate = tried k /\ t <= HandshakeTimeout lim /\ dial candidate t = (Ok conn, st, spent) /\
        forall i, (i < k)%nat -> passed_over (HandshakeTimeout lim) (tried i)
  | Err err =>
      (permanent err status = true /\ index' = failoverIndex) \/
      (index' = Nat.modulo (S start) n /\ (forall i, (i < n)%nat -> passed_over (HandshakeTimeout lim) (tried i)) /\
       forall c, c ∈ candidates -> passed_over (HandshakeTimeout lim) c)
  end.
Proof.
  intros Hne n start tried. assert (Hn : n <> 0%nat) by (unfold n; by destruct candidates).
  assert (Hd : dialWithFailover dial permanent lim candidates failoverIndex =
    match dial_candidates dial permanent candidates start (HandshakeTimeout lim) (HandshakeTimeout lim) 0 n (ErrMsg EmptyString, None) with
    | Dialed index candidate conn => (Ok (candidate, conn), None, index)
    | DialStopped err status => (Err err, status, failoverIndex)
    | DialFailed err status => (Err err, status, Nat.modulo (S start) n)
    end) by (by destruct candidates).
  rewrite Hd. clear Hd.
  pose proof (dial_candidates_spec candidates start (HandshakeTimeout lim) n (HandshakeTimeout lim) 0 (ErrMsg EmptyString, None)) as H.
  destruct (dial_candidates _ _ _ _ _ _ _ _ _) as [index candidate conn|err st|err st].
  - destruct H as (k & t & st & sp & H1 & H2 & H3 & H4 & H5 & H6). cbn [plus] in H2, H6.
    assert (Hi : (index < length candidates)%nat) by (rewrite H2; by apply Nat.mod_upper_bound).
    assert (Hl : candidates !! index = Some candidate).
    { rewrite H3. rewrite nth_lookup. destruct (candidates !! index) eqn:El; [done |]. apply lookup_ge_None in El. lia. }
    split; [by eapply list_elem_of_lookup_2 |]. split; [done |]. exists k, t, st, sp. split_and!; try done.
    unfold tried, n. rewrite H3. by rewrite H2.
  - left. split; [apply H | done].
  - right. split; [done |]. cbn [plus] in H. split; [done |]. intros c [i Hc]%list_elem_of_lookup_1.
    assert (Hi : (i < n)%nat) by (by eapply lookup_lt_Some).
    assert (Hs : (start < n)%nat) by (by apply Nat.mod_upper_bound).
    assert (Ht : exists j, (j < n)%nat /\ Nat.modulo (start + j) n = i).
    { destruct (decide (start <= i)%nat) as [Hle|Hle].
      - exists (i - start)%nat. split; [lia |]. replace (start + (i - start))%nat with i by lia. by apply Nat.mod_small.
      - exists (n - start + i)%nat. split; [lia |]. replace (start + (n - start + i))%nat with (i + 1 * n)%nat by lia.
        rewrite Nat.Div0.mod_add. by apply Nat.mod_small. }
    destruct Ht as (j & Hj & Ej). specialize (H j Hj). change (0 + j)%nat with j in H. fold n in H. rewrite Ej in H. rewrite nth_lookup, Hc in H. exact H.
Qed.
End Failover.

(** ** Observations *)

(** The whole schedule shares one handshake timeout: a candidate that never
    answers uses it up, and an alias that would answer in any time left is
    never reached in that attempt. *)
Definition demo_hanging (candidate : string) (left : Z) : result unit * option Z * Z :=
  if String.eqb candidate "wss://a.example/agent/v1/connect" then (Err context_DeadlineExceeded, None, left)
  else if 0 <? left then (Ok tt, None, 1) else (Err context_DeadlineExceeded, None, 0).

Lemma hanging_candidate_starves_aliases :
  let run := dialWithFailover demo_hanging (fun _ _ => false) DefaultLimits (GatewayCandidates demo_config) in
  is_ok (run 0%nat).1.1 = false /\ (run 0%nat).2 = 1%nat /\ is_ok (run 1%nat).1.1 = true.
Proof. vm_compute. split_and!; reflexivity. Qed.

(** What the libraries say about an error of the Agent's own. *)
Definition demo_facts : error_facts := MkErrorFacts (fun _ => -1) (fun _ => None) (fun _ => false) (fun _ => false).

(** The writer closing under the reader is classified as a permanent failure. *)
Lemma writer_closed_is_permanent :
  permanentRemoteSessionError demo_facts (Some (protectError errAgentWriterClosed)) = true.
Proof. reflexivity. Qed.

(** ** Concrete runs *)

Definition demo_failure : pass := MkPass false (Some io_EOF) false false 0 (fun _ => 0) false.
Definition demo_revoked : pass := MkPass false (Some ErrSessionRevoked) true false (20 * Second) (fun _ => 0) false.

Lemma demo_limits_backoff : backoff_limits DefaultLimits.
Proof. split; [split |]; vm_compute; congruence || reflexivity. Qed.

Lemma reconnect_backoff_witness :
  let passes := [demo_failure; demo_failure; demo_failure; demo_revoked] in
  exists delays w, run_worker DefaultLimits (new_worker DefaultLimits) passes = (delays, Some (Some ErrSessionRevoked), w) /\
    delays = [Some 875000000; Some 1750000000; Some 3500000000] /\
    near 3500000000 (Z.min (ReconnectMax DefaultLimits) (ReconnectMin DefaultLimits * 2 ^ 2)).
Proof.
  intros passes. destruct (run_worker DefaultLimits (new_worker DefaultLimits) passes) as [[delays result] w] eqn:E.
  assert (Hr : result = Some (Some ErrSessionRevoked)) by (apply (f_equal (fun x => x.1.2)) in E; symmetry; exact E).
  assert (Hd : delays = [Some 875000000; Some 1750000000; Some 3500000000]).
  { apply (f_equal (fun x => x.1.1)) in E. cbn [fst] in E. rewrite <- E. vm_compute. reflexivity. }
  exists delays, w. split; [by rewrite Hr |]. split; [exact Hd |].
  destruct (reconnect_backoff DefaultLimits passes delays result w demo_limits_backoff) with (i := 2%nat) (d := Some 3500000000) as (p & Hp & _ & _ & Hn).
  - apply Forall_forall. intros p Hp q Hq. apply list_elem_of_In in Hp. destruct Hp as [<-|[<-|[<-|[<-|[]]]]]; cbn; lia.
  - exact E.
  - rewrite Hd. reflexivity.
  - injection Hp as <-. exact Hn.
Defined.

(** An authenticated session of less than ten seconds does not reset the backoff. *)
Definition demo_short_session : pass := MkPass false (Some io_EOF) true false (9 * Second) (fun _ => 0) false.

Lemma short_sessions_back_off :
  (run_worker DefaultLimits (new_worker DefaultLimits) (repeat demo_short_session 6)).1.1 =
    [Some 875000000; Some 1750000000; Some 3500000000; Some 7000000000; Some 14000000000; Some 26250000000].
Proof. vm_compute. reflexivity. Qed.

Lemma worker_ends_on_purpose_witness :
  exists delays w, run_worker DefaultLimits (new_worker DefaultLimits) [demo_failure; demo_revoked] = (delays, Some (Some ErrSessionRevoked), w) /\
    ((errors_is ErrSessionRevoked ErrSessionRevoked = true /\ wk_health w = Revoked) \/
     (errors_is ErrSessionRevoked ErrPermanentAgentFailure = true /\ wk_health w = Shutdown)).
Proof.
  destruct (run_worker DefaultLimits (new_worker DefaultLimits) [demo_failure; demo_revoked]) as [[delays result] w] eqn:E.
  assert (Hr : result = Some (Some ErrSessionRevoked)) by (apply (f_equal (fun x => x.1.2)) in E; symmetry; exact E).
  subst result. exists delays, w. split; [reflexivity |].
  exact (proj2 (worker_ends_on_purpose DefaultLimits _ _ _ _ E)).
Defined.

Definition demo_attempt (ready : control_message) (run : session -> option error) : attempt_env :=
  MkAttemptEnv (Ok demo_config) (Ok demo_token) (Ok tt) (Ok (demo_link ready), None) demo_key_entropy demo_now demo_now run.

Definition demo_ready : control_message := MsgSessionReady (MkSessionReady 1 "session_ready" "session-1" 15 60 demo_nonce).

Lemma demo_authenticated :
  exists s wire, authenticateOrResume demo_sign (ef_CloseStatus demo_facts) demo_config demo_token (MkResume EmptyString EmptyString)
    true DefaultLimits (demo_link demo_ready) demo_key_entropy demo_now demo_now = Ok (s, wire).
Proof.
  match goal with |- exists s wire, ?e = _ => destruct e as [[s wire]|x] eqn:E end; [by exists s, wire |].
  exfalso. apply (f_equal is_ok) in E. vm_compute in E. discriminate E.
Qed.

Lemma attempt_classified_witness :
  let env := demo_attempt demo_ready (fun _ => Some io_EOF) in
  err_is (runOnceWithDialer demo_facts demo_sign DefaultLimits demo_config env (MkResume EmptyString EmptyString) true).1.1
    ErrPermanentAgentFailure = false.
Proof.
  intros env. destruct demo_authenticated as (s & wire & Ha).
  assert (Hf : foreign io_EOF) by (split; reflexivity).
  pose proof (attempt_classified demo_facts demo_sign demo_url_Parse DefaultLimits env (MkResume EmptyString EmptyString) true demo_config
    demo_token (demo_link demo_ready) s wire io_EOF (new_worker DefaultLimits) demo_failure eq_refl eq_refl eq_refl Ha eq_refl (or_introl Hf)) as H.
  destruct (runOnceWithDialer _ _ _ _ _ _ _) as [[e r] c]. destruct H as (_ & _ & _ & Hp & _). specialize (Hp Hf). cbn [fst].
  destruct (err_is e ErrPermanentAgentFailure); [| reflexivity]. exfalso. apply (proj1 Hp eq_refl).
  right. right. split; [reflexivity |]. right. left. reflexivity.
Defined.

Definition demo_refusing : link := MkLink TunnelSubprotocolV2 (fun _ => ReadErr errResumeRejected) (fun _ => None).

Definition demo_resumable : resumeState := MkResume "session-1" demo_nonce.

(** What the handshake over a connection ended with, if it failed. *)
Definition err_of {A : Type} (r : result A) : option error := match r with Ok _ => None | Err e => Some e end.

Lemma demo_refused :
  exists cause, authenticateOrResume demo_sign (ef_CloseStatus demo_facts) demo_config demo_token demo_resumable
    true DefaultLimits demo_refusing demo_key_entropy demo_now demo_now = Err cause /\ errors_is cause errResumeRejected = true.
Proof.
  match goal with |- exists cause, ?e = _ /\ _ => destruct e as [?|x] eqn:E end.
  - exfalso. apply (f_equal is_ok) in E. vm_compute in E. discriminate E.
  - exists x. split; [reflexivity |]. apply (f_equal (fun r => err_is (err_of r) errResumeRejected)) in E.
    cbn [err_of err_is] in E. rewrite <- E. vm_compute. reflexivity.
Qed.

Lemma resume_rejected_once_witness :
  let env := MkAttemptEnv (Ok demo_config) (Ok demo_token) (Ok tt) (Ok demo_refusing, None) demo_key_entropy demo_now demo_now (fun _ => None) in
  (runOnceWithDialer demo_facts demo_sign DefaultLimits demo_config env demo_resumable true).1.2 = MkResume EmptyString EmptyString.
Proof.
  intros env. destruct demo_refused as (cause & Ha & Hr).
  destruct (runOnceWithDialer demo_facts demo_sign DefaultLimits demo_config env demo_resumable true) as [[e r] c] eqn:E.
  exact (proj2 (proj2 (proj1 (resume_rejected_once demo_facts demo_sign DefaultLimits demo_config env demo_resumable true e r c E)
    demo_token demo_refusing cause eq_refl eq_refl eq_refl Ha Hr))).
Defined.

Lemma failover_schedule_witness :
  let candidates := GatewayCandidates demo_config in
  candidates <> [] /\ (dialWithFailover demo_hanging (fun _ _ => false) DefaultLimits candidates 0).2 = 1%nat /\
  forall c, c ∈ candidates -> passed_over demo_hanging (fun _ _ => false) (HandshakeTimeout DefaultLimits) c.
Proof.
  intros candidates. assert (Hne : candidates <> []) by (vm_compute; congruence). split; [exact Hne |]. split; [vm_compute; reflexivity |].
  pose proof (failover_schedule demo_hanging (fun _ _ => false) DefaultLimits candidates 0 Hne) as H. cbv zeta in H.
  destruct (dialWithFailover demo_hanging (fun _ _ => false) DefaultLimits candidates 0) as [[result st] index] eqn:E.
  assert (Hr : is_ok result = false) by (apply (f_equal (fun r => is_ok r.1.1)) in E; cbn [fst] in E; rewrite <- E; vm_compute; reflexivity).
  destruct result as [[c conn]|err]; [discriminate Hr |]. destruct H as [[H _]|(_ & _ & H)]; [discriminate H | exact H].
Defined.
