(* ===== verification/Supervisor.v ===== *)
(** * Supervisor: keeping the Agent running

    [internal/agent/supervisor/supervisor.go]: the loop of [Run] as a state
    machine between its blocking points (reading the state, recovering it,
    waiting for an operator, serving, pausing), what it publishes as its
    status, and the writing of status.json on the file system of {!StateFs}.

    An event is what the supervisor finds at a blocking point: the results of
    the calls made on the way to the next one, a tick with the fingerprint of
    the watched files, a timer, a cancelled context, the end of the tunnel
    loop.  When several are ready Go's select takes any; here they come in any
    order.  [LoopStatusWriter] runs beside the loop: it takes a snapshot and hands
    it on at any later time.  Logging is left out; the redaction of error texts and
    the JSON encoder are parameters. *)

From S2P Require Import Prelude GoText GoTime GoFloat GoNet GoDuration Json StrictJson JsonMarshal Frame Contract Control ControlCodec ContractV2.
From S2P Require Import AgentLimits AgentTarget AgentStream AgentConfig Program StateFs StateTxn Window Budget Health Wire AgentSession AgentRunner.

Definition defaultTerminalRecoveryWait : Z := 5 * Minute.
Definition stateRecoveryAttempts : Z := 3.
Definition defaultReconnectDelay : Z := 5 * Second.
Definition defaultStateChangePollInterval : Z := 2 * Second.
Definition errRecoveryWindowElapsed : error := ErrSentinel "bounded recovery window elapsed".

(** ** Options and state *)

Record Options := MkOptions {
  so_Limits : Limits;
  so_TerminalRecoveryWait : Z;
  so_ReconnectDelay : Z;
  so_StateChangePollInterval : Z;
}.

Definition or_default (value fallback : Z) : Z := if value <=? 0 then fallback else value.

Definition with_defaults (o : Options) : Options :=
  MkOptions (if MaxStreams (so_Limits o) <=? 0 then DefaultLimits else so_Limits o)
    (or_default (so_TerminalRecoveryWait o) defaultTerminalRecoveryWait) (or_default (so_ReconnectDelay o) defaultReconnectDelay)
    (or_default (so_StateChangePollInterval o) defaultStateChangePollInterval).

(** [su_published]: phase and error of every status handed to
    [WriteStatusFile], the latest first. *)
Record Supervisor := MkSupervisor {
  su_phase : string;
  su_lastErr : string;
  su_runner : bool;
  su_published : list (string * string);
}.

Definition new_supervisor : Supervisor := MkSupervisor "stopped" EmptyString false [].

Definition persistStatus (s : Supervisor) : Supervisor :=
  MkSupervisor (su_phase s) (su_lastErr s) (su_runner s) ((su_phase s, su_lastErr s) :: su_published s).

Definition setPhase (s : Supervisor) (phase : string) : Supervisor :=
  persistStatus (MkSupervisor phase (su_lastErr s) (su_runner s) (su_published s)).

(** What an operator is told behind the reason of a terminal failure. *)
Definition repair_steps : string :=
  "; re-pair this device (tray → Open pairing page, or `hooshix-agent configure --token-stdin`) to recover".

Definition setTerminal (s : Supervisor) (message : string) : Supervisor :=
  persistStatus (MkSupervisor "terminal" message (su_runner s) (su_published s)).

Definition setLastError (s : Supervisor) (message : string) : Supervisor :=
  MkSupervisor (su_phase s) message (su_runner s) (su_published s).

Definition setStoppedUnlessTerminal (s : Supervisor) : Supervisor :=
  if String.eqb (su_phase s) "terminal" then s
  else persistStatus (MkSupervisor "stopped" (su_lastErr s) (su_runner s) (su_published s)).

Definition with_runner (s : Supervisor) (runner : bool) : Supervisor :=
  MkSupervisor (su_phase s) (su_lastErr s) runner (su_published s).

Record Status := MkStatus {
  st_Phase : string;
  st_State : string;
  st_Reconnects : Z;
  st_LastError : string;
  st_LastUpdateAt : string;
}.

(** [health], [reconnects]: what the runner reports, if there is one. *)
Definition status_of (s : Supervisor) (health : string * bool) (reconnects : Z) (now : string) : Status :=
  if su_runner s
  then MkStatus (if health.2 then "terminal" else su_phase s) health.1 reconnects (su_lastErr s) now
  else MkStatus (su_phase s) "init" 0 (su_lastErr s) now.

(** ** The loop *)

Inductive point :=
| Loading                                            (* the top of the loop *)
| Recovering (attempt : Z)                           (* RecoverState *)
| Retrying (attempt : Z) (err : error)               (* the pause after a failed recovery *)
| Awaiting (before : string) (failure : option error)  (* waitForStateChange; a failure bounds it *)
| Serving (before : string) (delay : Z)              (* runAttempt *)
| Cancelling (superseded : bool) (delay : Z)         (* runAttempt, after cancelAttempt *)
| Delaying (delay : Z)
| Returned (r : result unit).

(** What a pass from the top of the loop finds: the settings, the runner, and
    the fingerprint that a wait or a watch begins with. *)
Record look := MkLook { lk_config : result Config; lk_runner : result unit; lk_before : string }.

Inductive sup_event :=
| EvLook (k : look)
| EvRecovered (r : result unit)
| EvTick (fingerprint : string)
| EvTimer
| EvDone
| EvRun (r : option error) (before : string).   (* the loop's error, and the fingerprint a wait begins with *)

(** [ss_snapshot]: what [LoopStatusWriter] has read and not yet written. *)
Record sup_state := MkSupState {
  ss_sup : Supervisor;
  ss_point : point;
  ss_cancelled : bool;
  ss_snapshot : option (string * string);
}.

Definition at_point (s : sup_state) (sup : Supervisor) (p : point) : sup_state := MkSupState sup p (ss_cancelled s) (ss_snapshot s).

(** [persistStatus] of [LoopStatusWriter]: the snapshot is read before the file's
    mutex is taken. *)
Definition LoopStatusWriter_read (s : sup_state) : sup_state :=
  MkSupState (ss_sup s) (ss_point s) (ss_cancelled s) (Some (su_phase (ss_sup s), su_lastErr (ss_sup s))).

Definition LoopStatusWriter_write (s : sup_state) (snapshot : string * string) : sup_state :=
  let sup := ss_sup s in
  MkSupState (MkSupervisor (su_phase sup) (su_lastErr sup) (su_runner sup) (snapshot :: su_published sup))
    (ss_point s) (ss_cancelled s) None.

(** The deferred [setStoppedUnlessTerminal]. *)
Definition return_ (s : sup_state) (sup : Supervisor) (r : result unit) : sup_state :=
  at_point s (setStoppedUnlessTerminal sup) (Returned r).

Section Loop.
Context (url_Parse : string -> result URL) (SanitizedError : error -> string) (opts : Options).

Definition load_pass (s : sup_state) (k : look) : sup_state :=
  let sup := ss_sup s in
  match lk_config k with
  | Err err =>
    if errors_is err ErrStateTransactionPending then
      at_point s (setLastError (setPhase sup "recovering") "recovering an interrupted state mutation") (Recovering 1)
    else if errors_is err io_EOF || errors_is err io_ErrUnexpectedEOF then
      at_point s (setPhase (setLastError sup ("settings file is being written: " +:+ SanitizedError err)) "pending_config")
        (Awaiting (lk_before k) None)
    else return_ s (setTerminal sup ("read config: " +:+ SanitizedError err)) (Err err)
  | Ok config =>
    match ValidateRuntime url_Parse config with
    | Err _ => at_point s (setPhase sup "pending_config") (Awaiting (lk_before k) None)
    | Ok _ =>
      let limits := ApplyLimits (cf_Limits config) (so_Limits opts) in
      let retryDelay := match limits with Ok _ => SupervisorRetryDelay (cf_Limits config) (so_ReconnectDelay opts) | Err err => Err err end in
      match retryDelay with
      | Err err =>
        at_point s (setPhase (setLastError sup ("limits in the settings file are not usable: " +:+ SanitizedError err)) "pending_config")
          (Awaiting (lk_before k) None)
      | Ok delay =>
        match lk_runner k with
        | Err err => return_ s (setTerminal sup ("create runner: " +:+ SanitizedError err)) (Err err)
        | Ok _ => at_point s (setPhase (with_runner sup true) "running") (Serving (lk_before k) delay)
        end
      end
    end
  end.

(** The tunnel loop has ended. *)
Definition after_run (s : sup_state) (superseded : bool) (delay : Z) (r : option error) (before : string) : sup_state :=
  let sup := with_runner (ss_sup s) false in
  if ss_cancelled s then return_ s sup (Ok tt)
  else if superseded then at_point s sup Loading
  else
    match r with
    | None => return_ s sup (Ok tt)
    | Some err =>
      if errors_is err ErrSessionRevoked || errors_is err ErrPermanentAgentFailure then
        at_point s (setTerminal sup (SanitizedError err +:+ repair_steps)) (Awaiting before (Some err))
      else
        at_point s (setLastError (setPhase sup "reconnecting") (SanitizedError err)) (Delaying delay)
    end.

(** [Err] of [recoverPendingState]. *)
Definition recovery_failed (s : sup_state) (err : error) : sup_state :=
  if ss_cancelled s then return_ s (ss_sup s) (Ok tt)
  else return_ s (setTerminal (ss_sup s) ("interrupted state mutation could not be recovered: " +:+ SanitizedError err))
         (Err (ErrWrap "recover interrupted Agent state" err)).

(** One event at a blocking point; [None] if it cannot happen there. *)

Definition cancelled_return (s : sup_state) : option sup_state :=
  if ss_cancelled s then Some (return_ s (ss_sup s) (Ok tt)) else None.

(** [recoverPendingState]: an attempt, and the pause after a failed one. *)
Definition recover_step (s : sup_state) (attempt : Z) (ev : sup_event) : option sup_state :=
  match ev with
  | EvRecovered (Ok _) => Some (at_point s (ss_sup s) Loading)
  | EvRecovered (Err err) =>
    Some (if ss_cancelled s then return_ s (ss_sup s) (Ok tt) else at_point s (ss_sup s) (Retrying attempt err))
  | _ => None
  end.

Definition retry_step (s : sup_state) (attempt : Z) (err : error) (ev : sup_event) : option sup_state :=
  match ev with
  | EvTimer => Some (if attempt <? stateRecoveryAttempts then at_point s (ss_sup s) (Recovering (attempt + 1)) else recovery_failed s err)
  | EvDone => cancelled_return s
  | _ => None
  end.

(** [waitForStateChange] and what [Run] makes of its end. *)
Definition wait_step (s : sup_state) (before : string) (failure : option error) (ev : sup_event) : option sup_state :=
  match ev, failure with
  | EvTick fingerprint, _ => Some (if String.eqb fingerprint before then s else at_point s (ss_sup s) Loading)
  | EvTimer, Some err => Some (return_ s (ss_sup s) (if ss_cancelled s then Ok tt else Err err))
  | EvDone, _ => cancelled_return s
  | _, _ => None
  end.

(** [runAttempt] with the watcher of [watchStateChanges]. *)
Definition attempt_step (s : sup_state) (before : string) (delay : Z) (ev : sup_event) : option sup_state :=
  match ev with
  | EvRun r before' => Some (after_run s false delay r before')
  | EvTick fingerprint => Some (if String.eqb fingerprint before then s else at_point s (ss_sup s) (Cancelling true delay))
  | EvDone => if ss_cancelled s then Some (at_point s (ss_sup s) (Cancelling false delay)) else None
  | _ => None
  end.

(** [sleepCtx] with the retry delay. *)
Definition delay_step (s : sup_state) (ev : sup_event) : option sup_state :=
  match ev with
  | EvTimer => Some (at_point s (ss_sup s) Loading)
  | EvDone => cancelled_return s
  | _ => None
  end.

Definition sup_step (s : sup_state) (ev : sup_event) : option sup_state :=
  match ss_point s with
  | Loading => match ev with EvLook k => Some (load_pass s k) | _ => None end
  | Recovering attempt => recover_step s attempt ev
  | Retrying attempt err => retry_step s attempt err ev
  | Awaiting before failure => wait_step s before failure ev
  | Serving before delay => attempt_step s before delay ev
  | Cancelling superseded delay => match ev with EvRun r before => Some (after_run s superseded delay r before) | _ => None end
  | Delaying _ => delay_step s ev
  | Returned _ => None
  end.

Inductive sup_trans : sup_state -> sup_state -> Prop :=
| st_event s ev s' : sup_step s ev = Some s' -> sup_trans s s'
| st_cancel s : sup_trans s (MkSupState (ss_sup s) (ss_point s) true (ss_snapshot s))
| st_tick s : ss_snapshot s = None -> sup_trans s (LoopStatusWriter_read s)
| st_write s snapshot : ss_snapshot s = Some snapshot -> sup_trans s (LoopStatusWriter_write s snapshot).

(** A run over a list of events. *)
Fixpoint sup_run (s : sup_state) (events : list sup_event) : option sup_state :=
  match events with
  | [] => Some s
  | ev :: rest => match sup_step s ev with Some s' => sup_run s' rest | None => None end
  end.
End Loop.

Definition Run : sup_state := MkSupState new_supervisor Loading false None.

(** ** Giving up, and not *)

Definition terminal_failure (err : error) : bool := errors_is err ErrSessionRevoked || errors_is err ErrPermanentAgentFailure.

(** The failures after which [Run] returns an error, the error, and what the
    status says of it. *)
Section GivesUp.
Context (SanitizedError : error -> string).

Definition repair_hint (err : error) : string := SanitizedError err +:+ repair_steps.

Inductive gives_up : point -> sup_event -> error -> string -> Prop :=
| gu_config k err : lk_config k = Err err -> errors_is err ErrStateTransactionPending = false ->
    errors_is err io_EOF = false -> errors_is err io_ErrUnexpectedEOF = false ->
    gives_up Loading (EvLook k) err ("read config: " +:+ SanitizedError err)
| gu_runner k err : lk_runner k = Err err -> gives_up Loading (EvLook k) err ("create runner: " +:+ SanitizedError err)
| gu_recovery err : gives_up (Retrying stateRecoveryAttempts err) EvTimer (ErrWrap "recover interrupted Agent state" err)
    ("interrupted state mutation could not be recovered: " +:+ SanitizedError err)
| gu_failure before err : terminal_failure err = true -> gives_up (Awaiting before (Some err)) EvTimer err (repair_hint err).

(** The phase is terminal with this message; it has been published, and since then
    nothing else but one snapshot that was read before, which may still be to come. *)
Definition other_than (status : string * string) (statuses : list (string * string)) : nat :=
  length (filter (fun x => x <> status) statuses).

Definition shows_terminal (s : sup_state) (message : string) : Prop :=
  su_phase (ss_sup s) = "terminal" /\ su_lastErr (ss_sup s) = message /\
  exists since before, su_published (ss_sup s) = since ++ ("terminal", message) :: before /\
    (other_than ("terminal", message) (option_list (ss_snapshot s) ++ since) <= 1)%nat.

Definition sup_inv (s : sup_state) : Prop :=
  match ss_point s with
  | Recovering attempt | Retrying attempt _ => 1 <= attempt <= stateRecoveryAttempts
  | Awaiting _ (Some err) => terminal_failure err = true /\ shows_terminal s (repair_hint err)
  | Serving _ _ | Cancelling _ _ => su_runner (ss_sup s) = true
  | _ => True
  end.
End GivesUp.

Section Ends.
Context (url_Parse : string -> result URL) (SanitizedError : error -> string) (opts : Options).
Abbreviation step := (sup_step url_Parse SanitizedError opts).
Abbreviation reached := (rtc (sup_trans url_Parse SanitizedError opts) Run).
Abbreviation sup_inv := (sup_inv SanitizedError).
Abbreviation gives_up := (gives_up SanitizedError).

Lemma terminal_shows s sup message p : shows_terminal (at_point s (setTerminal sup message) p) message.
Proof.
  split; [done |]. split; [done |]. exists [], (su_published sup). split; [done |]. cbn [at_point ss_snapshot app]. rewrite app_nil_r.
  unfold other_than. etransitivity; [apply length_filter |]. destruct (ss_snapshot s); cbn; lia.
Qed.

Lemma terminal_returns s sup message r : shows_terminal (return_ s (setTerminal sup message) r) message.
Proof. apply terminal_shows. Qed.

(** The status writer goes on. *)
Lemma shows_read s message : shows_terminal s message -> ss_snapshot s = None -> shows_terminal (LoopStatusWriter_read s) message.
Proof.
  intros (Hp & Hl & since & before & Hs & Hn) E. split; [exact Hp |]. split; [exact Hl |]. exists since, before. split; [exact Hs |].
  cbn [LoopStatusWriter_read ss_snapshot option_list app]. rewrite Hp, Hl. unfold other_than in *. rewrite E in Hn.
  change (option_list (Some ("terminal"%string, message)) ++ since) with (("terminal"%string, message) :: since).
  rewrite (filter_cons_False (fun x => x <> ("terminal"%string, message))) by (intros H; by apply H). exact Hn.
Qed.

Lemma shows_write s snapshot message : shows_terminal s message -> ss_snapshot s = Some snapshot -> shows_terminal (LoopStatusWriter_write s snapshot) message.
Proof.
  intros (Hp & Hl & since & before & Hs & Hn) E. split; [exact Hp |]. split; [exact Hl |]. exists (snapshot :: since), before. cbn. rewrite Hs. split; [done |].
  by rewrite E in Hn.
Qed.

Lemma load_pass_inv s k :
  sup_inv (load_pass url_Parse SanitizedError opts s k) /\
  forall r, ss_point (load_pass url_Parse SanitizedError opts s k) = Returned r ->
    exists err message, r = Err err /\ gives_up Loading (EvLook k) err message /\ shows_terminal (load_pass url_Parse SanitizedError opts s k) message.
Proof.
  unfold load_pass. destruct (lk_config k) as [config|err] eqn:Ec.
  - destruct (ValidateRuntime _ _); [| by split]. cbv zeta. destruct (match ApplyLimits _ _ with Ok _ => _ | Err _ => _ end); [| by split].
    destruct (lk_runner k) as [u|err] eqn:Er; [by split |]. split; [done |]. intros r [= <-].
    exists err, ("create runner: " +:+ SanitizedError err). split; [done |]. split; [by constructor | apply terminal_returns].
  - destruct (errors_is err ErrStateTransactionPending) eqn:E1; [by split; [cbn; unfold stateRecoveryAttempts; lia |] |].
    destruct (errors_is err io_EOF) eqn:E2; [by split |]. destruct (errors_is err io_ErrUnexpectedEOF) eqn:E3; [by split |]. cbn [orb].
    split; [done |]. intros r [= <-]. exists err, ("read config: " +:+ SanitizedError err). split; [done |]. split; [by constructor | apply terminal_returns].
Qed.

Definition graceful (s : sup_state) (ev : sup_event) (r : result unit) : Prop :=
  r = Ok tt /\ (ss_cancelled s = true \/ exists before, ev = EvRun None before).

Lemma after_run_inv s superseded delay r before :
  sup_inv (after_run SanitizedError s superseded delay r before) /\
  forall o, ss_point (after_run SanitizedError s superseded delay r before) = Returned o -> graceful s (EvRun r before) o.
Proof.
  unfold after_run. destruct (ss_cancelled s) eqn:Ec; [split; [done |]; intros o [= <-]; split; [done | by left] |].
  destruct superseded; [by split |]. destruct r as [err|]; [| split; [done |]; intros o [= <-]; split; [done | right; by eexists]].
  destruct (_ || _) eqn:Et; [| by split]. split; [| done]. split; [exact Et | apply terminal_shows].
Qed.

(** What the end of a step may be. *)
Definition ends_well (s : sup_state) (ev : sup_event) (s' : sup_state) : Prop :=
  sup_inv s' /\
  forall r, ss_point s' = Returned r ->
    graceful s ev r \/ exists err message, r = Err err /\ gives_up (ss_point s) ev err message /\ shows_terminal s' message.

Lemma ends_elsewhere s ev s' : sup_inv s' -> (forall r, ss_point s' <> Returned r) -> ends_well s ev s'.
Proof. intros H Hn. split; [done |]. intros r Hr. by destruct (Hn r). Qed.

Lemma ends_cancelled s ev sup : ss_cancelled s = true -> ends_well s ev (return_ s sup (Ok tt)).
Proof. intros Hc. split; [done |]. intros r [= <-]. left. split; [done | by left]. Qed.

Lemma cancelled_ends s ev s' : cancelled_return s = Some s' -> ends_well s ev s'.
Proof. unfold cancelled_return. destruct (ss_cancelled s) eqn:Ec; [| done]. intros [= <-]. by apply ends_cancelled. Qed.

Lemma after_run_ends s superseded delay r before : ends_well s (EvRun r before) (after_run SanitizedError s superseded delay r before).
Proof. destruct (after_run_inv s superseded delay r before) as [H1 H2]. split; [exact H1 |]. intros o Ho. left. by apply H2. Qed.

Lemma recovery_failed_ends s err :
  ss_point s = Retrying stateRecoveryAttempts err -> ends_well s EvTimer (recovery_failed SanitizedError s err).
Proof.
  intros Ep. unfold recovery_failed. destruct (ss_cancelled s) eqn:Ec; [by apply ends_cancelled |].
  split; [done |]. intros r [= <-]. right. eexists _, _. split; [reflexivity |]. rewrite Ep. split; [constructor | apply terminal_returns].
Qed.

Lemma stopped_shows s message r : shows_terminal s message -> shows_terminal (return_ s (ss_sup s) r) message.
Proof. intros (Hp & H). unfold return_, setStoppedUnlessTerminal. rewrite Hp. by split. Qed.

Lemma wait_ends s before failure ev s' :
  sup_inv s -> ss_point s = Awaiting before failure -> wait_step s before failure ev = Some s' -> ends_well s ev s'.
Proof.
  intros Hinv Ep H. pose proof Hinv as Hi. unfold Supervisor.sup_inv in Hi. rewrite Ep in Hi. unfold wait_step in H.
  destruct ev as [| |fp| | |]; try discriminate H; destruct failure as [err|]; try discriminate H; try by apply cancelled_ends.
  - injection H as <-. apply ends_elsewhere; destruct (String.eqb fp before); try done. intros r Hr. congruence.
  - injection H as <-. apply ends_elsewhere; destruct (String.eqb fp before); try done. intros r Hr. congruence.
  - injection H as <-. destruct Hi as [Ht Hs]. destruct (ss_cancelled s) eqn:Ec; [by apply ends_cancelled |].
    split; [done |]. intros r [= <-]. right. exists err, (repair_hint SanitizedError err). split; [done |]. rewrite Ep. split; [by constructor |].
    by apply stopped_shows.
Qed.

Lemma sup_step_ends s ev s' : sup_inv s -> step s ev = Some s' -> ends_well s ev s'.
Proof.
  intros Hinv H. pose proof Hinv as Hi. unfold Supervisor.sup_inv in Hi. unfold sup_step in H.
  destruct (ss_point s) as [|attempt|attempt err|before failure|before delay|superseded delay|delay|o] eqn:Ep.
  - destruct ev; try discriminate H. injection H as <-. destruct (load_pass_inv s k) as [H1 H2]. split; [exact H1 |]. intros r Hr. right.
    rewrite Ep. by apply H2.
  - destruct ev as [|[u|err]| | | |]; try discriminate H; injection H as <-; [by apply ends_elsewhere |].
    destruct (ss_cancelled s) eqn:Ec; [by apply ends_cancelled | by apply ends_elsewhere].
  - destruct ev; try discriminate H; [| by apply cancelled_ends]. injection H as <-.
    destruct (Z.ltb_spec attempt stateRecoveryAttempts); [apply ends_elsewhere; [cbn; lia | done] |].
    apply recovery_failed_ends. rewrite Ep. f_equal. lia.
  - by eapply wait_ends.
  - destruct ev as [| |fp| | |]; try discriminate H.
    + injection H as <-. apply ends_elsewhere; destruct (String.eqb fp before); try done. intros r Hr. congruence.
    + cbn [attempt_step] in H. destruct (ss_cancelled s); [| done]. injection H as <-. by apply ends_elsewhere.
    + injection H as <-. apply after_run_ends.
  - destruct ev; try discriminate H. injection H as <-. apply after_run_ends.
  - destruct ev; try discriminate H; [injection H as <-; by apply ends_elsewhere | by apply cancelled_ends].
  - done.
Qed.

Lemma sup_trans_inv s s' : sup_inv s -> sup_trans url_Parse SanitizedError opts s s' -> sup_inv s'.
Proof.
  intros Hi H. destruct H as [s1 ev s2 He|s1|s1 E|s1 snapshot E]; [exact (proj1 (sup_step_ends s1 ev s2 Hi He)) | exact Hi | |];
    unfold Supervisor.sup_inv in *; cbn [LoopStatusWriter_read LoopStatusWriter_write ss_point ss_sup su_runner];
    destruct (ss_point s1) as [| | |before [err|]| | | |]; try done.
  - destruct Hi as [Ht Hs]. split; [exact Ht | by apply shows_read].
  - destruct Hi as [Ht Hs]. split; [exact Ht | by apply shows_write].
Qed.

Lemma sup_reached_inv s : reached s -> sup_inv s.
Proof.
  assert (Hg : forall s1, rtc (sup_trans url_Parse SanitizedError opts) s1 s -> sup_inv s1 -> sup_inv s).
  { intros s1 Hr. induction Hr as [s1|s1 s2 s3 Ht _ IH]; [done |]. intros Hi. by eapply IH, sup_trans_inv. }
  intros H. by apply (Hg Run).
Qed.


(** A failure of the tunnel loop that is not terminal is followed by the pause
    that the settings ask for and by another attempt, any number of times. *)
Definition usable (config : Config) (delay : Z) : Prop :=
  ValidateRuntime url_Parse config = Ok tt /\ (exists limits, ApplyLimits (cf_Limits config) (so_Limits opts) = Ok limits) /\
  SupervisorRetryDelay (cf_Limits config) (so_ReconnectDelay opts) = Ok delay.

Lemma reconnects_once s config delay before before' err :
  usable config delay -> ss_point s = Loading -> ss_cancelled s = false -> terminal_failure err = false ->
  exists s1 s2 s3, step s (EvLook (MkLook (Ok config) (Ok tt) before)) = Some s1 /\ ss_point s1 = Serving before delay /\
    su_phase (ss_sup s1) = "running" /\
    step s1 (EvRun (Some err) before') = Some s2 /\ ss_point s2 = Delaying delay /\ su_phase (ss_sup s2) = "reconnecting" /\
    step s2 EvTimer = Some s3 /\ ss_point s3 = Loading /\ ss_cancelled s3 = false.
Proof.
  intros (Hv & (limits & Hl) & Hd) Hp Hc Ht. unfold sup_step at 1. rewrite Hp. unfold load_pass. cbn [lk_config lk_runner lk_before].
  rewrite Hv, Hl. cbv zeta. rewrite Hd. unfold terminal_failure in Ht. unfold sup_step. cbn [at_point ss_point attempt_step delay_step].
  eexists _, (at_point s (setLastError (setPhase (with_runner (setPhase (with_runner (ss_sup s) true) "running") false) "reconnecting") (SanitizedError err))
    (Delaying delay)), _. split; [reflexivity |]. do 2 (split; [reflexivity |]).
  unfold after_run. cbn [at_point ss_point ss_sup ss_cancelled]. rewrite Hc, Ht. do 4 (split; [reflexivity |]). by split.
Qed.

Lemma supervisor_reconnects config delay before before' errs : forall s,
  usable config delay -> Forall (fun err => terminal_failure err = false) errs -> ss_point s = Loading -> ss_cancelled s = false ->
  exists s', sup_run url_Parse SanitizedError opts s
    (errs ≫= (fun err => [EvLook (MkLook (Ok config) (Ok tt) before); EvRun (Some err) before'; EvTimer])) = Some s' /\ ss_point s' = Loading.
Proof.
  induction errs as [|err errs IH]; intros s Hu Ht Hp Hc; [by exists s |]. apply Forall_cons in Ht as [He Ht].
  destruct (reconnects_once s config delay before before' err Hu Hp Hc He) as (s1 & s2 & s3 & H1 & _ & _ & H2 & _ & _ & H3 & Hp3 & Hc3).
  cbn [mbind list_bind app sup_run]. rewrite H1, H2, H3. by apply IH.
Qed.

(** A change between the reading of the settings and the fingerprint that the
    wait begins with is not seen: however often the supervisor looks, it waits
    for a change that has already happened. *)
Lemma lost_change config err before n :
  ValidateRuntime url_Parse config = Err err ->
  exists s, sup_run url_Parse SanitizedError opts Run
    (EvLook (MkLook (Ok config) (Ok tt) before) :: repeat (EvTick before) n) = Some s /\
    ss_point s = Awaiting before None /\ su_phase (ss_sup s) = "pending_config".
Proof.
  intros Hv. cbn [sup_run sup_step Run ss_point]. unfold load_pass. cbn [lk_config lk_before]. rewrite Hv.
  induction n as [|n IH]; [by eexists |]. cbn [repeat sup_run sup_step at_point ss_point wait_step]. rewrite String.eqb_refl. exact IH.
Qed.
End Ends.

(** A revoked device whose operator does not come back. *)
Definition demo_options : Options := MkOptions DefaultLimits defaultTerminalRecoveryWait defaultReconnectDelay defaultStateChangePollInterval.
Definition demo_running : sup_state :=
  MkSupState (setPhase (with_runner new_supervisor true) "running") (Serving "a" defaultReconnectDelay) false None.
Definition demo_revoked (snapshot : option (string * string)) : sup_state :=
  MkSupState (setTerminal (with_runner (ss_sup demo_running) false) ("revoked" +:+ repair_steps))
    (Awaiting "b" (Some ErrSessionRevoked)) false snapshot.


(** [LoopStatusWriter] reads its snapshot before it takes the mutex of the file: the
    supervisor gives up in between, and the last status of the process says that it
    is running. *)
Lemma stale_status_published_last : exists s,
  rtc (sup_trans demo_url_Parse (fun _ => "revoked") demo_options) Run s /\
  ss_point s = Returned (Err ErrSessionRevoked) /\ su_phase (ss_sup s) = "terminal" /\
  head (su_published (ss_sup s)) = Some ("running", EmptyString).
Proof.
  eexists. split; [| split; [| split]].
  - eapply rtc_l; [apply (st_event _ _ _ _ (EvLook (MkLook (Ok demo_config) (Ok tt) "a"))); vm_compute; reflexivity |].
    eapply rtc_l; [by apply st_tick |].
    eapply rtc_l; [apply (st_event _ _ _ _ (EvRun (Some ErrSessionRevoked) "b")); vm_compute; reflexivity |].
    eapply rtc_l; [apply (st_event _ _ _ _ EvTimer); vm_compute; reflexivity |].
    eapply rtc_l; [by eapply st_write |]. reflexivity.
  - reflexivity.
  - reflexivity.
  - reflexivity.
Qed.

(** ** status.json *)

Definition status_temp : string := ".status-".
Definition status_json : path := (InState, "status.json").

Definition statusRenameAttempts : nat := 6.

(** The waits between the attempts have no effect on files. *)
Fixpoint retryRename (attempts : nat) (from to : string) : prog (result unit) :=
  match attempts with
  | O => Ret (Ok tt)
  | S rest =>
    let* r := call (Rename InState from to) in
    match r with
    | Ok _ => Ret (Ok tt)
    | Err err => match rest with O => Ret (Err err) | S _ => retryRename rest from to end
    end
  end.

Definition renameStatusFile (from to : string) : prog (result unit) := retryRename statusRenameAttempts from to.

(** The status directory is the state directory, as [New] has it by default. *)
Definition WriteStatusFile (data : bytes) : prog (result unit) :=
  call (Quiet "mkdir") ;!
  let! temp := call (CreateTemp InState status_temp) in
  deferring_remove (InState, temp)
    (call (Quiet "chmod") ;! call (Write (InState, temp) data) ;! call (Quiet "fsync") ;! call (Quiet "close") ;!
     renameStatusFile temp "status.json").

Definition status_scratch (p : path) : Prop := exists n, p = (InState, status_temp +:+ n).

Lemma status_temp_scratch n : status_scratch (InState, status_temp +:+ n).
Proof. by exists n. Qed.

Lemma status_not_scratch : ~ status_scratch status_json.
Proof. intros [n H]. discriminate H. Qed.

Lemma retryRename_safe data s0 tmp attempts : forall s,
  status_scratch (InState, tmp) -> only status_scratch status_json (Some (File data)) s0 s -> s !! (InState, tmp) = Some (File data) ->
  (0 < attempts)%nat ->
  safe (only status_scratch status_json (Some (File data)) s0) (okay (fun _ s' => s' !! status_json = Some (File data)))
    (retryRename attempts tmp "status.json") s.
Proof.
  induction attempts as [|attempts IH]; intros s Ht Hs Hf Hn; [lia |]. cbn [retryRename].
  eapply (safe_bind _ (fun r s' => match r with
    | Ok _ => s' !! status_json = Some (File data) | Err _ => s' !! (InState, tmp) = Some (File data) end)).
  - pose proof (rename_temp (steady := false) status_scratch InState status_temp "status.json" data s0 status_temp_scratch status_not_scratch s tmp Ht Hs Hf) as H.
    apply safe_call; [done |]. intros ev. destruct H as [_ H]. destruct (H ev) as [H1 H2]. split; [exact H1 |]. revert H2. cbn.
    destruct (ev_fails ev); [done |]. by rewrite Hf.
  - intros [u|err] s' Hs' Hr; [by apply safe_ret |]. destruct attempts; [by apply safe_ret |]. apply IH; try done. lia.
Qed.

(** A reader of status.json never sees a part of a document. At every moment of [WriteStatusFile], whatever fails and wherever the process dies, the file is what it was before or the whole new document, and nothing else in the directory changes but the temporary file; when the write reports success the file is the new document. *)
Theorem status_file_whole data s0 :
  (forall events, let '(s, r) := run events (WriteStatusFile data) s0 in
     (s !! status_json = s0 !! status_json \/ s !! status_json = Some (File data)) /\
     (forall p, ~ status_scratch p -> p <> status_json -> s !! p = s0 !! p) /\
     (r = Some (Ok tt) -> s !! status_json = Some (File data))).
Proof.
  assert (Hsafe : safe (only status_scratch status_json (Some (File data)) s0) (okay (fun _ s' => s' !! status_json = Some (File data)))
    (WriteStatusFile data) s0).
  { unfold WriteStatusFile. eapply safe_then; [apply safe_quiet, only_refl |]. intros _ ? _ ->.
    apply safe_then with (Q := fun tmp s' => status_scratch (InState, tmp) /\ s' !! (InState, tmp) = Some (File [])).
    { apply safe_call; [apply only_refl |]. intros ev. cbn. destruct (_ || _); [by split; [apply only_refl |] |]. cbn.
      split; [apply only_scratch; [by eexists | apply status_not_scratch | apply only_refl] |]. split; [by eexists |]. apply lookup_insert_eq. }
    intros tmp s1 H1 [Ht Hf]. assert (Hne : (InState, tmp) <> status_json) by (intros E; rewrite E in Ht; by apply status_not_scratch).
    apply safe_deferring; [| intros s' Hs'; by apply only_delete; [| apply status_not_scratch |] | intros _ s' Hn; by rewrite lookup_delete_ne].
    eapply safe_then; [by apply safe_quiet |]. intros _ s2 _ ->.
    eapply safe_then; [by apply (write_temp (steady := false) status_scratch InState status_temp "status.json" data s0 status_temp_scratch status_not_scratch) |].
    intros u3 s3 H3 Hw. cbv beta in Hw.
    eapply safe_then; [by apply safe_quiet |]. intros _ s4 _ ->. eapply safe_then; [by apply safe_quiet |]. intros _ s5 _ ->.
    apply retryRename_safe; try done. unfold statusRenameAttempts. lia. }
  intros events. pose proof (safe_run _ _ _ events s0 Hsafe) as H. destruct (run events _ s0) as [s r]. destruct H as [[Ho Hd] Hq].
  split; [exact Hd |]. split; [exact Ho |]. intros ->. exact (Hq _ eq_refl).
Qed.

(** A temporary file that a crash leaves in a directory without a marker has
    no name that the marker's check knows: from then on no mutation can claim
    the directory. *)
Lemma status_temp_blocks (fuel : nat) (events : list event) (s : files) (n : string) (data : bytes) :
  s !! stateMarker = None -> s !! (InState, status_temp +:+ n) = Some (File data) ->
  (run events (ensureStateMarker fuel) s).2 <> Some (Ok tt).
Proof.
  intros Hm Hf. assert (Hin : (status_temp +:+ n) ∈ names_in s InState).
  { unfold names_in. apply list_elem_of_fmap. exists ((InState, status_temp +:+ n), File data). split; [done |].
    apply list_elem_of_filter. split; [done |]. by apply elem_of_map_to_list. }
  assert (Hk : forallb known_name (names_in s InState) = false).
  { apply not_true_iff_false. intros H. rewrite forallb_forall in H. apply list_elem_of_In in Hin. apply H in Hin. by destruct n. }
  assert (Hsafe : safe (fun s' => s' = s) (fun r _ => r <> Ok tt) (ensureStateMarker fuel) s).
  { assert (Hstart : forall k, safe (fun s' => s' = s) (fun r _ => r <> Ok tt)
      (let! names := wrapped "inspect Agent state directory ownership" (call (ReadNames InState)) in
       if negb (forallb known_name names) then Ret (Err (ErrMsg "refusing unowned non-empty Agent state directory")) else k) s).
    { intros k. unfold andthen. eapply (safe_bind _ (fun (r : result (list string)) (_ : files) => forall names, r = Ok names -> names = names_in s InState)).
      - unfold wrapped. eapply (safe_bind _ (fun (r : result (list string)) (_ : files) => forall names, r = Ok names -> names = names_in s InState)).
        + apply safe_call; [done |]. intros ev. cbn. split; [done |]. intros names. destruct (ev_fails ev); [done |]. by intros [= <-].
        + intros [names|err] s' Hs' Hr; (apply safe_ret; [exact Hs' |]); intros names' E; [| discriminate E]. injection E as <-. by apply Hr.
      - intros [names|err] s' Hs' Hr; [| by apply safe_ret]. rewrite (Hr names eq_refl), Hk. by apply safe_ret. }
    destruct fuel; cbn [ensureStateMarker]; (eapply safe_bind; [by apply safe_read |]); intros [d|err] s' _ (-> & Hd & _);
      try (by destruct (Hd d eq_refl) as [E _]; rewrite Hm in E);
      (destruct (negb _); [by apply safe_ret | apply Hstart]). }
  pose proof (safe_run _ _ _ events s Hsafe) as H. destruct (run events _ s) as [s' [r|]]; [| done]. destruct H as [_ H]. cbn. intros [= ->]. exact (H _ eq_refl eq_refl).
Qed.
